(* ===== verification/_CoqProject ===== *)
-Q . S2P
Prelude.v
KList.v
KListOrder.v
KListSpec.v
Bitmap.v
Arithmetic.v
StdlibC.v
Random.v
Rtc.v
Intq.v
Vga.v
Kbd.v
Threads.v
ThreadsInv.v
ThreadsStep.v
ThreadsCalls.v
ThreadsLink.v
ThreadsSpec.v
ThreadsLive.v
CString.v
Stdio.v
StdioSpec.v
StdioFormat.v
Console.v
ConsoleSpec.v
Ustar.v
UstarSpec.v
Bytes.v
Vaddr.v
PageIface.v
Palloc.v
PageBytes.v
Malloc.v
MallocInv.v
MallocSpec.v
MallocRefine.v
Pagedir.v
PagedirSpec.v
Paging.v
CommandLine.v
Options.v
OptionsSpec.v
AddressSpace.v
FileIface.v
Process.v
ProcessSpec.v
Block.v
Partition.v
BlockReg.v
Inode.v
InodeSpec.v
InodeTable.v
Directory.v
DirSpec.v
FsState.v
FsCalls.v
FilesysSpec.v
FilesysRefine.v
FilesysFormat.v
Fsutil.v
FsutilSpec.v
Ide.v
IdeSpec.v
IdeInit.v
IdeFilesys.v
ProcessFile.v
Hash.v
Parse.v
ParseSpec.v
Shell.v
ShellSpec.v
