(* ===== verification/Prelude.v ===== *)
(** * Verification of the operating-system labs: Pintos and the lsh shell

    The repository holds two programs.  [OS-lab2-master/pintos/src] is the
    Pintos kernel with its library; [OS-lab1-master/code] is a Unix shell.
    This library models their own logic as executable Rocq functions and proves
    what makes each part correct.  Paths below are relative to these two
    directories.

    ** How the code is modelled

    A C function is a Rocq function of the same name.  Faults are values of
    [result] ([Prelude]): a failed ASSERT, a PANIC, NOT_REACHED, an access
    outside every object, a divide error, signed overflow where the code counts
    on its absence (elsewhere it wraps around), a call that has to wait where
    the other threads are not part of the model.  State is passed explicitly or by the
    monad [ST] over a record that has the static variables and the memory the
    component owns.  Integers are [Z] with the wrap-around of their width
    written out ([u32], [s32], ...).  A loop is the iteration of its body on the
    locals it changes ([loop], [loopM]) with a bound on the number of rounds;
    the rules [loop_rule] and [loopM_rule] give the result of a loop from an
    invariant and a decreasing measure below that bound, so every theorem that
    a function returns includes that the bound is large enough.  The bounds are:
    the length of the list, array, string or line that is walked plus one; the
    number of bytes or sectors requested; for [new_bucket_cnt] the number
    itself; for the waits of the IDE driver the 1000 or 3000 rounds of the code
    and one more.  [partition_scan] and the reading of the clock take their
    bound as an argument, because they need not terminate.  What a component cannot decide (whether memory is left,
    whether a system call succeeds, what uninitialised memory holds, the
    functions a caller passes) is an argument of the functions that use it.

    ** Files and the code they model

    - [Prelude]: the monads, loops, machine integers, generic list lemmas and
      tactics; [Bytes]: little-endian integers and slices of byte lists.
    - [KList], [KListOrder], [KListSpec]: lib/kernel/list.c on a heap of links.
      Every operation keeps the list well formed; [list_sort] sorts and keeps
      the order of equal elements, [list_splice] moves a range,
      [list_insert_ordered] and [list_unique] do what they say.  Two insertions
      that overlap lose an element ([all_list_race]).
    - [Bitmap]: lib/kernel/bitmap.c as an array of bits; scanning finds the
      lowest group.
    - [Hash]: lib/kernel/hash.c; a table refines a finite set of elements, and
      rehashing and iteration terminate with every element visited once.
    - [Arithmetic]: lib/arithmetic.c; the 64-bit divisions built from the 32-bit
      DIV instruction.
    - [StdlibC]: lib/stdlib.c, with heap sort and binary search on arrays of
      bytes, and the character classes of lib/ctype.h.
    - [CString]: lib/string.c on byte-addressed memory.
    - [Stdio]: lib/stdio.c, generic in the output function; [StdioSpec] has a
      reference semantics of conversions and [StdioFormat] of whole formats, and
      the theorems that printf and vsnprintf implement it (a precision of a number
      above 63 counts as 63).  [Console],
      [ConsoleSpec]: lib/kernel/console.c with its recursive lock, and hex_dump
      and print_human_readable_size of stdio.c.
    - [Ustar], [UstarSpec]: lib/ustar.c on headers in memory, through the
      functions of string.c and snprintf; making and parsing a header are
      inverse, and parsing any block is safe and detects changed bytes.
    - [Random]: lib/random.c, the RC4 generator.  [Rtc]: devices/rtc.c, compared
      with the calendar, from which it is off by whole days.
    - [Intq]: devices/intq.c and input.c, as segments between the points where a
      thread waits; bytes come out in order.  [Vga]: devices/vga.c; the screen
      is the end of a terminal that never scrolls, which begins with what was on
      the screen.  [Kbd]: devices/kbd.c; keys
      give the characters of the layout.
    - [Threads]: threads/thread.c, synch.c, interrupt.c and devices/timer.c.
      A thread is a record with a stack of pending code; a kernel operation runs
      up to the point where another thread can run, so that every interleaving
      the uniprocessor kernel allows is a sequence of steps.  The list of all
      threads is changed with interrupts on in one place, init_thread; a thread
      preempted there is [linking], and a run of the model ends with an error
      when another thread changes the list meanwhile ([overlaps]), as the code
      damages the list then.  [ThreadsInv], [ThreadsStep] and [ThreadsCalls]
      prove the invariant for every step and call, and [ThreadsLink] that one
      thread at most is linking; [ThreadsSpec] has the theorems on all reachable
      states: no assertion fails, a lock has one owner, a thread is on one list
      at most, sleeping threads wake on time; [ThreadsLive]: every ready thread
      runs after a bounded number of timer ticks.
    - [Vaddr]: threads/vaddr.h and pte.h.  [PageIface]: what the page allocator
      promises, as two classes; [Palloc]: threads/palloc.c, an instance of both.
    - [PageBytes]: the bytes of the pages, and what memset and memcpy do to
      them.  [Malloc]: threads/malloc.c against [PageIface], with the arena
      headers in the pages; [MallocInv]: arenas, free lists and live blocks and
      the invariant on them; [MallocSpec]: every operation keeps it;
      [MallocRefine]: the allocator refines a map from addresses to blocks of
      bytes, and gives back the pages it does not need.
    - [Pagedir], [PagedirSpec]: userprog/pagedir.c against [PageIface], with CR3
      and a TLB; a directory refines a map from user pages to frames, and no
      operation leaves a revoked translation in the TLB (pagedir_destroy may not
      be called for the active directory, or one that shares pages with it).
    - [Paging]: paging_init of threads/init.c, which builds the directory that
      [Pagedir] copies; [CommandLine]: read_command_line of threads/init.c;
      [Options]: parse_options and run_actions of threads/init.c; [OptionsSpec]:
      the meaning of the words as strings, which they implement.
    - [AddressSpace]: the bytes that a program finds at its addresses, and the
      pages that belong to it; [FileIface]: what an open file promises, as a
      class; [Process]: the ELF loader and process_exit of userprog/process.c;
      [ProcessSpec]: a loaded program sees the image of its executable and
      nothing else, and no page is lost whether the load succeeds or fails;
      [ProcessFile]: the files of [Inode] are an instance of the class.
    - [Block]: devices/block.c over any driver of class [BlockDriver];
      [Partition]: devices/partition.c, which is both a client of a block device
      and a driver; [BlockReg]: the registry of devices, and the choice of the
      devices for the roles in threads/init.c.
    - [Inode]: filesys/inode.c, file.c and free-map.c, and bitmap_read and
      bitmap_write of bitmap.c; [InodeSpec]: the bytes of a file; [InodeTable]:
      the table of open inodes and the release of removed files.
    - [Directory]: filesys/directory.c and filesys.c; [DirSpec]: a directory
      refines a map from names to inode sectors.
    - [FsState]: the invariant of the whole file system, that every sector
      belongs to one file or is free; [FsCalls]: every call keeps it;
      [FilesysSpec]: an abstract file system of named files and open files;
      [FilesysRefine]: filesys.c, file.c and directory.c refine it as long as no
      call of malloc fails, and a class for it; [FilesysFormat]: formatting
      establishes the invariant.
    - [Fsutil], [FsutilSpec]: the removal, extraction and archiving of files in
      filesys/fsutil.c, as a client of the class; what is archived is what is
      extracted.
    - [Ide]: devices/ide.c for a channel, on any hardware; [IdeSpec]: the ATA
      protocol as the class [AtaBus], with every delay and interrupt it allows,
      and the driver as an instance of [BlockDriver]; [IdeInit]: the detection
      of the disks with the scan of their partition tables by [Partition], and a
      simulated channel; [IdeFilesys]: the file system on
      such a disk.
    - [Parse], [ParseSpec]: parse.c of the shell; the parser is equivalent to a
      grammar on tokens.  [Shell], [ShellSpec]: lsh.c; the wiring of pipelines
      by file descriptors, and stripwhite.

    ** Interfaces

    [PageAllocator] and [PageRuns] ([PageIface]) separate page directories and
    malloc from the page allocator; [BlockDriver] ([Block]) separates the file system and the
    partition code from the devices, and is instantiated by an array of sectors,
    by a partition of another device and by an IDE disk; [AtaBus] ([IdeSpec])
    separates the IDE driver from the hardware, and is instantiated by a
    simulated channel; [FileSystem] ([FilesysRefine]) separates the utilities from
    the file system; [OpenFile] ([FileIface]) separates
    the loader from the file system, and is instantiated by an array of bytes
    and by the files on a block device.  The order given to the list and hash
    functions and the system calls of the shell are section variables with
    their documented laws as hypotheses.

    ** Not modelled

    Code that only drives hardware: serial.c, pit.c, speaker.c, shutdown.c, the
    programming of the interrupt controller and of the descriptor tables; main
    and the help message of init.c; the commands of fsutil.c that only print;
    the start of a process and its exceptions and system calls
    (process_execute, start_process, exception.c, syscall.c), which depend on
    the processor's switch to user mode; the user library, the example and test
    programs and the host utilities.  The clients of [malloc] use it as a function that returns a new
    object or fails.  In [Malloc] the links of the free lists are lists of
    addresses, not bytes of the free blocks.  In the modelled parts, the statistics that
    are printed, the busy-wait calibration of timer.c and the printing of
    commands are left out.  The on-line reading of commands, the history and
    the reaping of children of the shell are left out.

    ** Next

    The serial line as a client of [Intq], the order of initialisation in main,
    the two IDE channels together with [BlockReg], and the interleavings of the
    page allocator, which frees pages without a lock. *)

From stdpp Require Export base tactics option numbers list gmap.
From Stdlib Require Export ZArith Lia.

#[export] Set Warnings "-clear-no-such-hyp,-level-tolerance".

Open Scope Z_scope.

(** Rewriting of the links of a list heap after an update, of list lookups,
    and of machine-integer wrap-around. *)
Create Rewrite HintDb links.
Create HintDb exec.

(** [lia] with quotients and remainders by constants. *)
Ltac dlia := Z.div_mod_to_equations; lia.

(** ** Faults and the result monad *)

(** How a C function can go wrong in the modelled kernel. *)
Inductive fault :=
  | AssertFail    (* an ASSERT () whose condition is false *)
  | KernelPanic   (* PANIC () *)
  | NotReached    (* NOT_REACHED () *)
  | BadAccess     (* dereference of an address outside every object *)
  | DivideError   (* the #DE trap of the x86 DIV instruction *)
  | SignedOverflow (* signed overflow, where the result would index memory *)
  | Blocked       (* the call has to wait for another thread *)
  | OutOfFuel.    (* the loop ran longer than the bound given to it *)

#[export] Instance fault_eq_dec : EqDecision fault.
Proof. solve_decision. Defined.

Inductive result (A : Type) :=
  | Ok (a : A)
  | Err (e : fault).
Arguments Ok {A} a.
Arguments Err {A} e.

#[export] Instance result_ret : MRet result := λ A a, Ok a.
#[export] Instance result_bind : MBind result := λ A B f m,
  match m with Ok a => f a | Err e => Err e end.

Definition ASSERT (b : bool) : result unit :=
  if b then Ok tt else Err AssertFail.

(** ** State and error monad *)

Definition ST (S A : Type) : Type := S → result (A * S).

#[export] Instance st_ret {S} : MRet (ST S) := λ A a s, Ok (a, s).
#[export] Instance st_bind {S} : MBind (ST S) := λ A B f m s,
  match m s with Ok (a, s') => f a s' | Err e => Err e end.

Definition fail {S A} (e : fault) : ST S A := λ _, Err e.
Definition lift {S A} (m : result A) : ST S A := λ s,
  match m with Ok a => Ok (a, s) | Err e => Err e end.
Definition assert {S} (b : bool) : ST S unit := lift (ASSERT b).
Definition get {S} : ST S S := λ s, Ok (s, s).
Definition put {S} (s : S) : ST S unit := λ _, Ok (tt, s).
Definition modify {S} (f : S → S) : ST S unit := λ s, Ok (tt, f s).

(** ** Loops

    A C loop is the iteration of its body on the values of the locals it
    changes; [inl] means another round, [inr] that the loop is left.  The
    number of rounds is bounded by fuel, and the rules below give the
    result of a loop from an invariant and a measure, so that running out
    of fuel is excluded, not assumed away. *)

Fixpoint loop {L A} (fuel : nat) (body : L → result (L + A)) (l : L) : result A :=
  match fuel with
  | O => Err OutOfFuel
  | S n =>
      match body l with
      | Ok (inl l') => loop n body l'
      | Ok (inr a) => Ok a
      | Err e => Err e
      end
  end.

Fixpoint loopM {S L A} (fuel : nat) (body : L → ST S (L + A)) (l : L) : ST S A :=
  match fuel with
  | O => fail OutOfFuel
  | S n => λ s,
      match body l s with
      | Ok (inl l', s') => loopM n body l' s'
      | Ok (inr a, s') => Ok (a, s')
      | Err e => Err e
      end
  end.

Lemma loop_rule {L A} (I : nat → L → Prop) (Q : A → Prop)
    (body : L → result (L + A)) :
  (∀ n l, I n l → ∃ r, body l = Ok r ∧
     match r with inl l' => ∃ n', (n' < n)%nat ∧ I n' l' | inr a => Q a end) →
  ∀ fuel n l, I n l → (n < fuel)%nat → ∃ a, loop fuel body l = Ok a ∧ Q a.
Proof.
  intros Hb fuel; induction fuel as [|k IH]; intros n l Hl Hm; [lia|].
  destruct (Hb n l Hl) as ([l'|a] & E & H); simpl; rewrite E; [|eauto].
  destruct H as (n' & ? & ?). apply (IH n'); [done|lia].
Qed.

Lemma loopM_rule {S L A} (I : nat → L → S → Prop) (Q : A → S → Prop)
    (body : L → ST S (L + A)) :
  (∀ n l s, I n l s → ∃ r s', body l s = Ok (r, s') ∧
     match r with
     | inl l' => ∃ n', (n' < n)%nat ∧ I n' l' s'
     | inr a => Q a s'
     end) →
  ∀ fuel n l s, I n l s → (n < fuel)%nat →
  ∃ a s', loopM fuel body l s = Ok (a, s') ∧ Q a s'.
Proof.
  intros Hb fuel; induction fuel as [|k IH]; intros n l s Hl Hm; [lia|].
  destruct (Hb n l s Hl) as ([l'|a] & s' & E & H); simpl; rewrite E; [|eauto].
  destruct H as (n' & ? & ?). apply (IH n'); [done|lia].
Qed.

(** The same for a body that may stop the machine with [e]. *)
Lemma loopM_rule_err {S L A} (e : fault) (I : nat → L → S → Prop) (Q : A → S → Prop)
    (body : L → ST S (L + A)) :
  (∀ n l s, I n l s → body l s = Err e ∨ ∃ r s', body l s = Ok (r, s') ∧
     match r with
     | inl l' => ∃ n', (n' < n)%nat ∧ I n' l' s'
     | inr a => Q a s'
     end) →
  ∀ fuel n l s, I n l s → (n < fuel)%nat →
  loopM fuel body l s = Err e ∨ ∃ a s', loopM fuel body l s = Ok (a, s') ∧ Q a s'.
Proof.
  intros Hb fuel; induction fuel as [|k IH]; intros n l s Hl Hm; [lia|].
  destruct (Hb n l s Hl) as [E|([l'|a] & s' & E & H)]; simpl; rewrite E; [by left| |right; eauto].
  destruct H as (n' & ? & ?). apply (IH n'); [done|lia].
Qed.

#[global] Arguments loop : simpl never.
#[global] Arguments loopM : simpl never.

Lemma loopM_unfold {S L A} n (body : L → ST S (L + A)) l s :
  loopM (Datatypes.S n) body l s =
  match body l s with
  | Ok (inl l', s') => loopM n body l' s'
  | Ok (inr a, s') => Ok (a, s')
  | Err e => Err e
  end.
Proof. done. Qed.

Lemma loop_unfold {L A} n (body : L → result (L + A)) l :
  loop (Datatypes.S n) body l =
  match body l with Ok (inl l') => loop n body l' | Ok (inr a) => Ok a | Err e => Err e end.
Proof. done. Qed.

Lemma loopM_step {S L A} n (body : L → ST S (L + A)) l s r s' :
  body l s = Ok (r, s') →
  loopM (Datatypes.S n) body l s = match r with inl l' => loopM n body l' s' | inr a => Ok (a, s') end.
Proof. intros E. unfold loopM. rewrite E. by destruct r. Qed.

Lemma bind_ok {S A B} (m : ST S A) (f : A → ST S B) s a s' :
  m s = Ok (a, s') → (m ≫= f) s = f a s'.
Proof. intros E. unfold mbind, st_bind. by rewrite E. Qed.

Lemma result_bind_ok {A B} (m : result A) (f : A → result B) a : m = Ok a → (m ≫= f) = f a.
Proof. by intros ->. Qed.

Lemma assert_ok {S} (b : bool) (s : S) : b = true → assert b s = Ok (tt, s).
Proof. by intros ->. Qed.

Lemma get_ok {S} (s : S) : get s = Ok (s, s).
Proof. done. Qed.

Lemma and_cond_iff (P Q R : Prop) : (P → Q ↔ R) → P ∧ Q ↔ P ∧ R.
Proof. tauto. Qed.

Lemma lookup_repeat {A} (x : A) n i : (i < n)%nat → repeat x n !! i = Some x.
Proof. revert i. induction n as [|n IH]; intros [|i] Hi; simpl; [lia..|done|]. apply IH. lia. Qed.

Lemma filter_ne {A} `{EqDecision A} (x : A) (l : list A) : x ∉ l → filter (λ y, y ≠ x) l = l.
Proof.
  induction l as [|y l IH]; [done|]. rewrite not_elem_of_cons. intros [Hne Hx].
  rewrite filter_cons_True by done. by rewrite IH.
Qed.

(** Taking one element out of a list without duplicates. *)
Lemma filter_ne_perm {A} `{EqDecision A} (x : A) (l : list A) :
  NoDup l → x ∈ l → l ≡ₚ x :: filter (λ y, y ≠ x) l.
Proof.
  intros Hn [k Hk]%elem_of_Permutation. rewrite Hk in Hn. apply NoDup_cons in Hn as [Hx _].
  rewrite Hk, filter_cons_False by naive_solver. by rewrite filter_ne.
Qed.

(** ** Machine integers *)

Definition u8 (x : Z) : Z := x mod 2 ^ 8.
Definition u16 (x : Z) : Z := x mod 2 ^ 16.
Definition u32 (x : Z) : Z := x mod 2 ^ 32.
Definition u64 (x : Z) : Z := x mod 2 ^ 64.
Definition s32 (x : Z) : Z := (x + 2 ^ 31) mod 2 ^ 32 - 2 ^ 31.
Definition s64 (x : Z) : Z := (x + 2 ^ 63) mod 2 ^ 64 - 2 ^ 63.

Lemma u8_small x : 0 ≤ x < 2 ^ 8 → u8 x = x.
Proof. apply Z.mod_small. Qed.

Lemma u32_small x : 0 ≤ x < 2 ^ 32 → u32 x = x.
Proof. apply Z.mod_small. Qed.

Lemma u64_small x : 0 ≤ x < 2 ^ 64 → u64 x = x.
Proof. apply Z.mod_small. Qed.

Lemma u8_range x : 0 ≤ u8 x < 2 ^ 8.
Proof. apply Z.mod_pos_bound. lia. Qed.

Lemma u32_range x : 0 ≤ u32 x < 2 ^ 32.
Proof. apply Z.mod_pos_bound. lia. Qed.

Lemma u64_range x : 0 ≤ u64 x < 2 ^ 64.
Proof. apply Z.mod_pos_bound. lia. Qed.

Lemma s32_small x : - 2 ^ 31 ≤ x < 2 ^ 31 → s32 x = x.
Proof. intros H. unfold s32. rewrite Z.mod_small; lia. Qed.

Lemma s64_small x : - 2 ^ 63 ≤ x < 2 ^ 63 → s64 x = x.
Proof. intros H. unfold s64. rewrite Z.mod_small; lia. Qed.

(** ** Exchanging two elements of an array *)

Definition list_swap {A} (i j : nat) (xs : list A) : list A :=
  match xs !! i, xs !! j with
  | Some x, Some y => <[i := y]> (<[j := x]> xs)
  | _, _ => xs
  end.

Definition swap_index (i j k : nat) : nat :=
  if decide (k = i) then j else if decide (k = j) then i else k.

#[export] Instance swap_index_inj i j : Inj (=) (=) (swap_index i j).
Proof. intros k1 k2. unfold swap_index. repeat case_decide; lia. Qed.

Section list_swap.
Context {A : Type}.
Implicit Types xs : list A.

Lemma list_swap_lookup i j xs k :
  (i < length xs)%nat → (j < length xs)%nat → list_swap i j xs !! k = xs !! swap_index i j k.
Proof.
  intros [x Hx]%lookup_lt_is_Some_2 [y Hy]%lookup_lt_is_Some_2.
  unfold list_swap, swap_index. rewrite Hx, Hy. case_decide as E1; [subst|].
  { rewrite list_lookup_insert_eq; [done|]. rewrite length_insert. by eapply lookup_lt_Some. }
  rewrite list_lookup_insert_ne by done. case_decide as E2; [subst|].
  { rewrite list_lookup_insert_eq; [done|]. by eapply lookup_lt_Some. }
  by rewrite list_lookup_insert_ne.
Qed.

Lemma length_list_swap i j xs : length (list_swap i j xs) = length xs.
Proof. unfold list_swap. repeat case_match; rewrite ?length_insert; done. Qed.

Lemma list_swap_perm i j xs : list_swap i j xs ≡ₚ xs.
Proof.
  destruct (decide (i < length xs ∧ j < length xs)%nat) as [[Hi Hj]|Hn].
  - apply Permutation_inj. split; [apply length_list_swap|]. exists (swap_index i j).
    split; [apply _|]. intros k. by apply list_swap_lookup.
  - unfold list_swap. destruct (xs !! i) eqn:Ei, (xs !! j) eqn:Ej; try done.
    apply lookup_lt_Some in Ei, Ej. tauto.
Qed.

Lemma list_swap_drop i j n xs : (i < n)%nat → (j < n)%nat → drop n (list_swap i j xs) = drop n xs.
Proof. intros Hi Hj. unfold list_swap. repeat case_match; rewrite ?drop_insert_lt by lia; done. Qed.

End list_swap.
