(* ===== verification/KList.v ===== *)
(** * Intrusive doubly linked lists: lib/kernel/list.h, lib/kernel/list.c

    The heap maps the address of each [struct list_elem] to its two links.
    A [struct list] at address [l] holds its head at [l] and its tail at
    [l + 8], as the two consecutive 8-byte members of the C structure.
    [dlist h l xs] says that the heap [h] holds a well-formed list at [l]
    whose interior elements are, in order, the addresses [xs]; the theorems
    show what each routine of list.c does to [xs]. *)

From S2P Require Import Prelude.

(** ** The heap *)

Definition NULL : Z := 0.

Record list_elem := mk_elem { prev : Z; next : Z }.

Abbreviation heap := (gmap Z list_elem).

Definition list_head_addr (l : Z) : Z := l.
Definition list_tail_addr (l : Z) : Z := l + 8.

Definition load (a : Z) : ST heap list_elem := λ h,
  match h !! a with Some e => Ok (e, h) | None => Err BadAccess end.
Definition get_prev (a : Z) : ST heap Z := e ← load a; mret (prev e).
Definition get_next (a : Z) : ST heap Z := e ← load a; mret (next e).

Definition hset_prev (a v : Z) (h : heap) : heap :=
  alter (λ e, mk_elem v (next e)) a h.
Definition hset_next (a v : Z) (h : heap) : heap :=
  alter (λ e, mk_elem (prev e) v) a h.
Definition set_prev (a v : Z) : ST heap unit :=
  _ ← load a; modify (hset_prev a v).
Definition set_next (a v : Z) : ST heap unit :=
  _ ← load a; modify (hset_next a v).

(** A traversal visits each element of the heap at most once. *)
Definition walk_fuel (h : heap) : nat := S (S (size h)).

(** ** list.c *)

Definition is_head (elem : Z) : ST heap bool :=
  if elem =? NULL then mret false
  else e ← load elem; mret ((prev e =? NULL) && negb (next e =? NULL)).

Definition is_interior (elem : Z) : ST heap bool :=
  if elem =? NULL then mret false
  else e ← load elem; mret (negb (prev e =? NULL) && negb (next e =? NULL)).

Definition is_tail (elem : Z) : ST heap bool :=
  if elem =? NULL then mret false
  else e ← load elem; mret (negb (prev e =? NULL) && (next e =? NULL)).

Definition orM (a b : ST heap bool) : ST heap bool :=
  x ← a; if (x : bool) then mret true else b.
Definition assertM (c : ST heap bool) : ST heap unit := b ← c; assert b.

Definition list_init (list : Z) : ST heap unit :=
  assert (negb (list =? NULL));;
  set_prev (list_head_addr list) NULL;;
  set_next (list_head_addr list) (list_tail_addr list);;
  set_prev (list_tail_addr list) (list_head_addr list);;
  set_next (list_tail_addr list) NULL.

Definition list_begin (list : Z) : ST heap Z :=
  assert (negb (list =? NULL));; get_next (list_head_addr list).

Definition list_next (elem : Z) : ST heap Z :=
  assertM (orM (is_head elem) (is_interior elem));; get_next elem.

Definition list_end (list : Z) : ST heap Z :=
  assert (negb (list =? NULL));; mret (list_tail_addr list).

Definition list_rbegin (list : Z) : ST heap Z :=
  assert (negb (list =? NULL));; get_prev (list_tail_addr list).

Definition list_prev (elem : Z) : ST heap Z :=
  assertM (orM (is_interior elem) (is_tail elem));; get_prev elem.

Definition list_rend (list : Z) : ST heap Z :=
  assert (negb (list =? NULL));; mret (list_head_addr list).

Definition list_head (list : Z) : ST heap Z :=
  assert (negb (list =? NULL));; mret (list_head_addr list).

Definition list_tail (list : Z) : ST heap Z :=
  assert (negb (list =? NULL));; mret (list_tail_addr list).

Definition list_insert (before elem : Z) : ST heap unit :=
  assertM (orM (is_interior before) (is_tail before));;
  assert (negb (elem =? NULL));;
  p ← get_prev before; set_prev elem p;;
  set_next elem before;;
  p ← get_prev before; set_next p elem;;
  set_prev before elem.

Definition list_splice (before first last : Z) : ST heap unit :=
  assertM (orM (is_interior before) (is_tail before));;
  if first =? last then mret tt
  else
    last ← list_prev last;
    assertM (is_interior first);;
    assertM (is_interior last);;
    (* Cleanly remove FIRST...LAST from its current list. *)
    fp ← get_prev first; ln ← get_next last; set_next fp ln;;
    ln ← get_next last; fp ← get_prev first; set_prev ln fp;;
    (* Splice FIRST...LAST into new list. *)
    bp ← get_prev before; set_prev first bp;;
    set_next last before;;
    bp ← get_prev before; set_next bp first;;
    set_prev before last.

Definition list_push_front (list elem : Z) : ST heap unit :=
  b ← list_begin list; list_insert b elem.

Definition list_push_back (list elem : Z) : ST heap unit :=
  e ← list_end list; list_insert e elem.

Definition list_remove (elem : Z) : ST heap Z :=
  assertM (is_interior elem);;
  p ← get_prev elem; n ← get_next elem; set_next p n;;
  n ← get_next elem; p ← get_prev elem; set_prev n p;;
  get_next elem.

Definition list_empty (list : Z) : ST heap bool :=
  b ← list_begin list; e ← list_end list; mret (b =? e).

Definition list_front (list : Z) : ST heap Z :=
  e ← list_empty list; assert (negb e);; get_next (list_head_addr list).

Definition list_back (list : Z) : ST heap Z :=
  e ← list_empty list; assert (negb e);; get_prev (list_tail_addr list).

Definition list_pop_front (list : Z) : ST heap Z :=
  front ← list_front list; list_remove front;; mret front.

Definition list_pop_back (list : Z) : ST heap Z :=
  back ← list_back list; list_remove back;; mret back.

Definition list_size (list : Z) : ST heap Z :=
  h ← get; e ← list_begin list;
  loopM (walk_fuel h) (λ '(e, cnt),
    en ← list_end list;
    if e =? en then mret (inr cnt)
    else e' ← list_next e; mret (inl (e', u32 (cnt + 1)))) (e, 0).

(** The [&e->prev] and [&e->next] that [swap] exchanges. *)
Inductive link_lval := PrevOf (a : Z) | NextOf (a : Z).

Definition get_lval (v : link_lval) : ST heap Z :=
  match v with PrevOf a => get_prev a | NextOf a => get_next a end.
Definition set_lval (v : link_lval) (x : Z) : ST heap unit :=
  match v with PrevOf a => set_prev a x | NextOf a => set_next a x end.

Definition swap (a b : link_lval) : ST heap unit :=
  t ← get_lval a; y ← get_lval b; set_lval a y;; set_lval b t.

Definition list_reverse (list : Z) : ST heap unit :=
  em ← list_empty list;
  if (em : bool) then mret tt
  else
    h ← get; e ← list_begin list;
    loopM (walk_fuel h) (λ e,
      en ← list_end list;
      if e =? en then mret (inr tt)
      else swap (PrevOf e) (NextOf e);; e' ← get_prev e; mret (inl e')) e;;
    swap (NextOf (list_head_addr list)) (PrevOf (list_tail_addr list));;
    hn ← get_next (list_head_addr list); tp ← get_prev (list_tail_addr list);
    swap (PrevOf hn) (NextOf tp).

(** ** Operations on lists with ordered elements

    [less a b] stands for the call [less (a, b, aux)] of the caller's
    comparison function, which reads the structures the elements are
    embedded in and none of the links. *)
Section ordered.
Variable less : Z → Z → bool.

Definition is_sorted (a b : Z) : ST heap bool :=
  if a =? b then mret true
  else
    h ← get;
    loopM (walk_fuel h) (λ a,
      a' ← list_next a;
      if a' =? b then mret (inr true)
      else p ← list_prev a';
           if less a' p then mret (inr false) else mret (inl a')) a.

Definition find_end_of_run (a b : Z) : ST heap Z :=
  assert (negb (a =? NULL));;
  assert (negb (b =? NULL));;
  assert (negb (a =? b));;
  h ← get;
  loopM (walk_fuel h) (λ a,
    a' ← list_next a;
    if a' =? b then mret (inr a')
    else p ← list_prev a';
         if less a' p then mret (inr a') else mret (inl a')) a.

Definition inplace_merge (a0 a1b0 b1 : Z) : ST heap unit :=
  assert (negb (a0 =? NULL));;
  assert (negb (a1b0 =? NULL));;
  assert (negb (b1 =? NULL));;
  assertM (is_sorted a0 a1b0);;
  assertM (is_sorted a1b0 b1);;
  h ← get;
  loopM (walk_fuel h) (λ '(a0, a1b0),
    if negb (a0 =? a1b0) && negb (a1b0 =? b1) then
      if negb (less a1b0 a0) then
        a0' ← list_next a0; mret (inl (a0', a1b0))
      else
        a1b0' ← list_next a1b0;
        p ← list_prev a1b0';
        list_splice a0 p a1b0';;
        mret (inl (a0, a1b0'))
    else mret (inr tt)) (a0, a1b0).

(** One pass of the outer loop of [list_sort]: returns [output_run_cnt]. *)
Definition list_sort_pass (list : Z) : ST heap Z :=
  h ← get; a0 ← list_begin list;
  loopM (walk_fuel h) (λ '(a0, output_run_cnt),
    en ← list_end list;
    if a0 =? en then mret (inr output_run_cnt)
    else
      (* Each iteration produces one output run. *)
      let output_run_cnt := u32 (output_run_cnt + 1) in
      (* Locate two adjacent runs of nondecreasing elements. *)
      en ← list_end list;
      a1b0 ← find_end_of_run a0 en;
      en ← list_end list;
      if a1b0 =? en then mret (inr output_run_cnt)
      else
        en ← list_end list;
        b1 ← find_end_of_run a1b0 en;
        (* Merge the runs. *)
        inplace_merge a0 a1b0 b1;;
        mret (inl (b1, output_run_cnt))) (a0, 0).

Definition list_sort (list : Z) : ST heap unit :=
  assert (negb (list =? NULL));;
  h ← get;
  loopM (walk_fuel h) (λ _ : unit,
    output_run_cnt ← list_sort_pass list;
    if output_run_cnt >? 1 then mret (inl tt) else mret (inr tt)) tt;;
  b ← list_begin list; e ← list_end list;
  assertM (is_sorted b e).

Definition list_insert_ordered (list elem : Z) : ST heap unit :=
  assert (negb (list =? NULL));;
  assert (negb (elem =? NULL));;
  h ← get; e ← list_begin list;
  e ← loopM (walk_fuel h) (λ e,
        en ← list_end list;
        if e =? en then mret (inr e)
        else if less elem e then mret (inr e)
        else e' ← list_next e; mret (inl e')) e;
  list_insert e elem.

Definition list_unique (list : Z) (duplicates : Z) : ST heap unit :=
  assert (negb (list =? NULL));;
  em ← list_empty list;
  if (em : bool) then mret tt
  else
    h ← get; elem ← list_begin list;
    loopM (walk_fuel h) (λ elem,
      next ← list_next elem; en ← list_end list;
      if next =? en then mret (inr tt)
      else if negb (less elem next) && negb (less next elem) then
        list_remove next;;
        (if negb (duplicates =? NULL) then list_push_back duplicates next
         else mret tt);;
        mret (inl elem)
      else mret (inl next)) elem.

Definition list_max (list : Z) : ST heap Z :=
  h ← get; max ← list_begin list; en ← list_end list;
  if max =? en then mret max
  else
    e ← list_next max;
    loopM (walk_fuel h) (λ '(max, e),
      en ← list_end list;
      if e =? en then mret (inr max)
      else e' ← list_next e;
           mret (inl (if less max e then e else max, e'))) (max, e).

Definition list_min (list : Z) : ST heap Z :=
  h ← get; min ← list_begin list; en ← list_end list;
  if min =? en then mret min
  else
    e ← list_next min;
    loopM (walk_fuel h) (λ '(min, e),
      en ← list_end list;
      if e =? en then mret (inr min)
      else e' ← list_next e;
           mret (inl (if less e min then e else min, e'))) (min, e).

End ordered.

(** ** Well-formed lists *)

Definition nxt (h : heap) (a : Z) : option Z := next <$> h !! a.
Definition prv (h : heap) (a : Z) : option Z := prev <$> h !! a.

Definition link (h : heap) (x y : Z) : Prop :=
  nxt h x = Some y ∧ prv h y = Some x.

Fixpoint chain (h : heap) (L : list Z) : Prop :=
  match L with
  | x :: ((y :: _) as r) => link h x y ∧ chain h r
  | _ => True
  end.

(** All the elements of a list, its two headers included. *)
Definition full (l : Z) (xs : list Z) : list Z := l :: xs ++ [list_tail_addr l].

Record dlist (h : heap) (l : Z) (xs : list Z) : Prop := {
  dl_chain : chain h (full l xs);
  dl_nodup : NoDup (full l xs);
  dl_head : prv h l = Some NULL;
  dl_tail : nxt h (list_tail_addr l) = Some NULL;
  dl_nonnull : NULL ∉ full l xs
}.

(** [h'] has the elements of [h] and differs from it at most at [D]. *)
Definition same_outside (D : list Z) (h h' : heap) : Prop :=
  dom h' = dom h ∧ ∀ a, a ∉ D → h' !! a = h !! a.

(** Neighbours of the element between [pre] and [post]. *)
Abbreviation before_in l pre := (List.last pre l).
Abbreviation after_in l post := (List.hd (list_tail_addr l) post).

(** ** Links after an update *)

Lemma nxt_hset_prev a v h b : nxt (hset_prev a v h) b = nxt h b.
Proof.
  unfold nxt, hset_prev. destruct (decide (a = b)) as [->|].
  - rewrite lookup_alter_eq. by destruct (h !! b).
  - by rewrite lookup_alter_ne.
Qed.

Lemma prv_hset_next a v h b : prv (hset_next a v h) b = prv h b.
Proof.
  unfold prv, hset_next. destruct (decide (a = b)) as [->|].
  - rewrite lookup_alter_eq. by destruct (h !! b).
  - by rewrite lookup_alter_ne.
Qed.

Lemma nxt_hset_next a v h b :
  nxt (hset_next a v h) b = if decide (a = b) then (λ _, v) <$> nxt h b else nxt h b.
Proof.
  unfold nxt, hset_next. case_decide as E; [subst|by rewrite lookup_alter_ne].
  rewrite lookup_alter_eq. by destruct (h !! b).
Qed.

Lemma prv_hset_prev a v h b :
  prv (hset_prev a v h) b = if decide (a = b) then (λ _, v) <$> prv h b else prv h b.
Proof.
  unfold prv, hset_prev. case_decide as E; [subst|by rewrite lookup_alter_ne].
  rewrite lookup_alter_eq. by destruct (h !! b).
Qed.

Lemma dom_hset_next a v h : dom (hset_next a v h) = dom h.
Proof. apply dom_alter_L. Qed.

Lemma dom_hset_prev a v h : dom (hset_prev a v h) = dom h.
Proof. apply dom_alter_L. Qed.

#[export] Hint Rewrite nxt_hset_prev prv_hset_next nxt_hset_next prv_hset_prev
  dom_hset_next dom_hset_prev : links.

(** ** Running the primitives *)

Lemma nxt_is_Some h a n : nxt h a = Some n → ∃ e, h !! a = Some e ∧ next e = n.
Proof. unfold nxt. destruct (h !! a) as [e|]; simpl; [|done]. intros [= <-]. eauto. Qed.

Lemma prv_is_Some h a p : prv h a = Some p → ∃ e, h !! a = Some e ∧ prev e = p.
Proof. unfold prv. destruct (h !! a) as [e|]; simpl; [|done]. intros [= <-]. eauto. Qed.

Lemma elem_links h a p n :
  prv h a = Some p → nxt h a = Some n → h !! a = Some (mk_elem p n).
Proof.
  intros (e & E & <-)%prv_is_Some (e' & E' & <-)%nxt_is_Some.
  rewrite E in E'. injection E' as <-. by destruct e.
Qed.

Lemma get_next_ok h a n : nxt h a = Some n → get_next a h = Ok (n, h).
Proof.
  intros (e & E & <-)%nxt_is_Some. unfold get_next.
  erewrite bind_ok; [done|]. unfold load. by rewrite E.
Qed.

Lemma get_prev_ok h a p : prv h a = Some p → get_prev a h = Ok (p, h).
Proof.
  intros (e & E & <-)%prv_is_Some. unfold get_prev.
  erewrite bind_ok; [done|]. unfold load. by rewrite E.
Qed.

Lemma set_next_ok h a v :
  is_Some (h !! a) → set_next a v h = Ok (tt, hset_next a v h).
Proof.
  intros [e E]. unfold set_next. erewrite bind_ok; [done|].
  unfold load. by rewrite E.
Qed.

Lemma set_prev_ok h a v :
  is_Some (h !! a) → set_prev a v h = Ok (tt, hset_prev a v h).
Proof.
  intros [e E]. unfold set_prev. erewrite bind_ok; [done|].
  unfold load. by rewrite E.
Qed.

Lemma role_ok h a p n :
  prv h a = Some p → nxt h a = Some n → a ≠ NULL →
  is_head a h = Ok ((p =? NULL) && negb (n =? NULL), h) ∧
  is_interior a h = Ok (negb (p =? NULL) && negb (n =? NULL), h) ∧
  is_tail a h = Ok (negb (p =? NULL) && (n =? NULL), h).
Proof.
  intros Hp Hn Ha. pose proof (elem_links _ _ _ _ Hp Hn) as E.
  unfold is_head, is_interior, is_tail.
  rewrite (proj2 (Z.eqb_neq _ _) Ha).
  unfold mbind, st_bind, load. by rewrite E.
Qed.

Lemma orM_ok a b h x y :
  a h = Ok (x, h) → b h = Ok (y, h) → orM a b h = Ok (x || y, h).
Proof. intros Ea Eb. unfold orM. erewrite bind_ok by done. by destruct x. Qed.

Lemma assertM_ok c h : c h = Ok (true, h) → assertM c h = Ok (tt, h).
Proof. intros E. unfold assertM. by erewrite bind_ok by done. Qed.

(** ** Chains *)

Lemma chain_app h A x B :
  chain h (A ++ x :: B) ↔ chain h (A ++ [x]) ∧ chain h (x :: B).
Proof.
  induction A as [|a A IH]; [by simpl; destruct B; tauto|].
  destruct A as [|a' A]; simpl in *; tauto.
Qed.

Lemma chain_snoc h A x y :
  chain h (A ++ [x; y]) ↔ chain h (A ++ [x]) ∧ link h x y.
Proof. rewrite chain_app. simpl. tauto. Qed.

Lemma chain_frame h h' L :
  chain h L →
  (∀ a, a ∈ removelast L → nxt h' a = nxt h a) →
  (∀ a, a ∈ List.tl L → prv h' a = prv h a) →
  chain h' L.
Proof.
  induction L as [|x [|y L] IH]; [done..|].
  intros [[Hn Hp] Hc] HN HP. split.
  - split; [rewrite HN|rewrite HP]; [done|set_solver|done|set_solver].
  - apply IH; [done|intros; apply HN; set_solver|].
    intros a Ha. apply HP. simpl in *. set_solver.
Qed.

Lemma full_split l pre x post :
  full l (pre ++ x :: post) = (l :: pre) ++ x :: post ++ [list_tail_addr l].
Proof. unfold full. by rewrite <-app_assoc. Qed.

Lemma cons_snoc (l : Z) (pre : list Z) :
  l :: pre = removelast (l :: pre) ++ [before_in l pre].
Proof.
  rewrite (app_removelast_last l (l := l :: pre)) at 1; [|done].
  f_equal. by destruct pre.
Qed.

Lemma snoc_cons (t : Z) (post : list Z) :
  post ++ [t] = List.hd t post :: List.tl (post ++ [t]).
Proof. by destruct post. Qed.

Lemma before_in_elem (l : Z) (pre : list Z) : before_in l pre ∈ l :: pre.
Proof. rewrite (cons_snoc l pre). set_solver. Qed.

Lemma after_in_elem (l : Z) (post : list Z) : after_in l post ∈ post ++ [list_tail_addr l].
Proof. rewrite snoc_cons. set_solver. Qed.

(** ** Neighbours in a well-formed list *)

Lemma dlist_links h l pre x post :
  dlist h l (pre ++ x :: post) →
  link h (before_in l pre) x ∧ link h x (after_in l post).
Proof.
  intros [Hc _ _ _ _]. rewrite full_split in Hc.
  rewrite (snoc_cons _ post), (cons_snoc l pre), <-app_assoc in Hc.
  apply chain_app in Hc as [_ Hc]. simpl in Hc. tauto.
Qed.

Lemma dlist_mem h l xs a : dlist h l xs → a ∈ full l xs → is_Some (h !! a).
Proof.
  intros [Hc _ Hh Ht _] Ha. unfold full in Ha.
  apply elem_of_cons in Ha as [->|[Ha| ->%list_elem_of_singleton]%elem_of_app].
  - apply prv_is_Some in Hh as (? & -> & _). eauto.
  - apply list_elem_of_split in Ha as (pre & post & ->).
    rewrite full_split in Hc.
    apply chain_app in Hc as [_ Hc]. rewrite snoc_cons in Hc.
    destruct Hc as [[(? & -> & _)%nxt_is_Some _] _]. eauto.
  - apply nxt_is_Some in Ht as (? & -> & _). eauto.
Qed.

(** The front of the list, or its tail, seen from the head. *)
Lemma dlist_begin_link h l xs : dlist h l xs → link h l (after_in l xs).
Proof.
  intros [Hc _ _ _ _]. unfold full in Hc. rewrite snoc_cons in Hc. apply Hc.
Qed.

Lemma dlist_end_link h l xs : dlist h l xs → link h (before_in l xs) (list_tail_addr l).
Proof.
  intros [Hc _ _ _ _]. unfold full in Hc. change (l :: xs ++ ?r) with ((l :: xs) ++ r) in Hc.
  rewrite (cons_snoc l xs), <-app_assoc in Hc. apply chain_snoc in Hc. tauto.
Qed.

Lemma dlist_nonnull h l xs a : dlist h l xs → a ∈ full l xs → a ≠ NULL.
Proof. intros [_ _ _ _ Hn] Ha ->. done. Qed.

Lemma nodup_split l pre x post :
  NoDup (full l (pre ++ x :: post)) ↔
  NoDup (l :: pre) ∧ x ∉ l :: pre ∧ x ∉ post ++ [list_tail_addr l] ∧
  NoDup (post ++ [list_tail_addr l]) ∧
  (∀ a, a ∈ l :: pre → a ∉ post ++ [list_tail_addr l]).
Proof.
  rewrite full_split, NoDup_app, (NoDup_cons x). split.
  - intros (? & H & ? & ?). split_and!; try done.
    + intros Hx. apply (H x Hx). left.
    + intros a Ha ?. apply (H a Ha). by right.
  - intros (? & ? & ? & ? & H). split_and!; try done.
    intros a Ha [->|Hp]%elem_of_cons; [done|]. by apply (H a).
Qed.

(** Membership of the parts of [full], for set reasoning. *)
Lemma elem_of_full l xs a : a ∈ full l xs ↔ a = l ∨ a ∈ xs ∨ a = list_tail_addr l.
Proof. unfold full. set_solver. Qed.

Lemma is_Some_hset_next a v h b : is_Some (hset_next a v h !! b) ↔ is_Some (h !! b).
Proof. by rewrite <-!elem_of_dom, dom_hset_next. Qed.

Lemma is_Some_hset_prev a v h b : is_Some (hset_prev a v h !! b) ↔ is_Some (h !! b).
Proof. by rewrite <-!elem_of_dom, dom_hset_prev. Qed.

Lemma nxt_Some_is_Some h a n : nxt h a = Some n → is_Some (h !! a).
Proof. intros (e & -> & _)%nxt_is_Some. eauto. Qed.

Lemma prv_Some_is_Some h a n : prv h a = Some n → is_Some (h !! a).
Proof. intros (e & -> & _)%prv_is_Some. eauto. Qed.

Lemma is_Some_prv h a : is_Some (h !! a) → is_Some (prv h a).
Proof. intros [e E]. unfold prv. rewrite E. by eexists. Qed.

Lemma is_Some_nxt h a : is_Some (h !! a) → is_Some (nxt h a).
Proof. intros [e E]. unfold nxt. rewrite E. by eexists. Qed.

(** Resolve an updated link: the address written to gets its new value,
    every other one keeps the old. *)
Ltac links :=
  autorewrite with links; repeat case_decide; subst; try done;
  repeat first [rewrite is_Some_hset_next|rewrite is_Some_hset_prev]; try done;
  repeat match goal with
  | H : nxt ?h ?a = Some _ |- context [nxt ?h ?a] => rewrite H; simpl; try done
  | H : prv ?h ?a = Some _ |- context [prv ?h ?a] => rewrite H; simpl; try done
  end.

Ltac nonnull H := rewrite (proj2 (Z.eqb_neq _ _) H).

Ltac run1 :=
  first
  [ erewrite bind_ok by (apply get_next_ok; links; eassumption)
  | erewrite bind_ok by (apply get_prev_ok; links; eassumption)
  | erewrite bind_ok by (apply set_next_ok; links; eassumption)
  | erewrite bind_ok by (apply set_prev_ok; links; eassumption)
  | erewrite bind_ok by (apply assert_ok; by rewrite ?(proj2 (Z.eqb_neq _ _)))
  | erewrite bind_ok by apply get_ok ].

Definition insert_heap (b p x : Z) (h : heap) : heap :=
  hset_prev b x (hset_next p x (hset_next x b (hset_prev x p h))).

Lemma list_insert_run h b p nb x :
  prv h b = Some p → nxt h b = Some nb → b ≠ NULL → p ≠ NULL → x ≠ NULL → x ≠ b →
  is_Some (h !! x) → is_Some (h !! p) →
  list_insert b x h = Ok (tt, insert_heap b p x h).
Proof.
  intros Hp Hn Hb Hp0 Hx Hxb Hsx Hsp. unfold list_insert, insert_heap.
  destruct (role_ok _ _ _ _ Hp Hn Hb) as (_ & Hi & Ht).
  erewrite bind_ok.
  2: { apply assertM_ok. erewrite orM_ok by done. nonnull Hp0. by destruct (nb =? NULL). }
  do 6 run1. apply set_prev_ok. links. by eapply prv_Some_is_Some.
Qed.

(** A well-formed list cut between two neighbours [p] and [b]. *)
Lemma dlist_cut h l pre post :
  dlist h l (pre ++ post) →
  ∃ P T, l :: pre = P ++ [before_in l pre] ∧
    post ++ [list_tail_addr l] = after_in l post :: T ∧
    chain h (P ++ [before_in l pre]) ∧ chain h (after_in l post :: T) ∧
    link h (before_in l pre) (after_in l post) ∧
    NoDup ((P ++ [before_in l pre]) ++ after_in l post :: T).
Proof.
  intros [Hc Hd _ _ _]. exists (removelast (l :: pre)), (List.tl (post ++ [list_tail_addr l])).
  unfold full in *. rewrite <-app_assoc in Hc, Hd.
  change (l :: pre ++ ?r) with ((l :: pre) ++ r) in Hc, Hd.
  rewrite (snoc_cons _ post), (cons_snoc l pre) in Hc, Hd.
  split_and!; [apply cons_snoc|apply snoc_cons|..|done]; rewrite chain_app in Hc; 
    destruct Hc as [Hc1 Hc2]; rewrite <-app_assoc in Hc1; apply chain_snoc in Hc1; tauto.
Qed.

Lemma elem_of_removelast (a : Z) L : a ∈ removelast L → a ∈ L.
Proof.
  intros H. destruct L as [|x L]; [done|].
  rewrite (app_removelast_last x (l := x :: L)); [set_solver|done].
Qed.

Lemma elem_of_tl (a : Z) L : a ∈ List.tl L → a ∈ L.
Proof. destruct L; set_solver. Qed.

Lemma full_app l pre post : full l (pre ++ post) = (l :: pre) ++ (post ++ [list_tail_addr l]).
Proof. unfold full. by rewrite <-app_assoc. Qed.

(** Rebuild a list from two chains around a middle chain. *)
Lemma chain_join h A x B y C :
  chain h (A ++ [x]) → chain h (x :: B ++ [y]) → chain h (y :: C) →
  chain h ((A ++ [x]) ++ B ++ y :: C).
Proof.
  intros HA HB HC. rewrite <-app_assoc. apply chain_app. split; [done|].
  change (x :: B ++ y :: C) with ((x :: B) ++ y :: C). by apply chain_app.
Qed.

Lemma nodup_app_facts (A : list Z) x y B :
  NoDup ((A ++ [x]) ++ y :: B) →
  x ∉ A ∧ y ∉ A ++ [x] ∧ y ∉ B ∧ x ≠ y ∧ x ∉ B ∧ (∀ a, a ∈ A → a ∉ B).
Proof.
  rewrite <-app_assoc. simpl. rewrite NoDup_app, !NoDup_cons. set_unfold. naive_solver.
Qed.

Lemma hset_outside D a h h' :
  same_outside D h h' → a ∈ D →
  (∀ v, same_outside D h (hset_next a v h')) ∧ (∀ v, same_outside D h (hset_prev a v h')).
Proof.
  intros [Hd Ho] Ha. split; intros v; split; autorewrite with links; try done;
    intros b Hb; unfold hset_next, hset_prev;
    (rewrite lookup_alter_ne by (intros ->; done)); by apply Ho.
Qed.

Lemma same_outside_refl D h : same_outside D h h.
Proof. done. Qed.

Lemma same_outside_trans D h1 h2 h3 :
  same_outside D h1 h2 → same_outside D h2 h3 → same_outside D h1 h3.
Proof. intros [? H1] [? H2]. split; [congruence|]. intros a Ha. by rewrite H2, H1. Qed.

Lemma same_outside_mono D D' h h' :
  same_outside D h h' → D ⊆ D' → same_outside D' h h'.
Proof. intros [? H] HD. split; [done|]. intros a Ha. apply H. set_solver. Qed.

Ltac outside :=
  lazymatch goal with
  | |- same_outside _ ?h ?h => apply same_outside_refl
  | |- same_outside _ _ (hset_next _ _ _) => apply hset_outside; [outside|]
  | |- same_outside _ _ (hset_prev _ _ _) => apply hset_outside; [outside|]
  end.

(** Split the memberships and non-memberships of the context. *)
Ltac mem :=
  repeat match goal with
  | H : _ ∈ _ ++ _ |- _ => apply elem_of_app in H as [H|H]
  | H : _ ∈ [_] |- _ => apply list_elem_of_singleton in H; subst
  | H : _ ∈ _ :: _ |- _ => apply elem_of_cons in H as [H|H]; [subst|]
  | H : _ ∉ _ ++ _ |- _ => apply not_elem_of_app in H as [? ?]
  | H : _ ∉ _ :: _ |- _ => apply not_elem_of_cons in H as [? ?]
  | H : _ ∉ [] |- _ => clear H
  end; try done.

Ltac frame := intros; mem; links.

(** Cut the chain at [p]-[b] and insert [x]. *)
Lemma insert_chain h P p x b T :
  chain h (P ++ [p]) → chain h (b :: T) → link h p b →
  NoDup ((P ++ [p]) ++ b :: T) → x ∉ (P ++ [p]) ++ b :: T → is_Some (h !! x) →
  chain (insert_heap b p x h) ((P ++ [p]) ++ [x] ++ b :: T).
Proof.
  intros HP HT [Hn Hp] Hdup Hx Hsx.
  pose proof (nodup_app_facts _ _ _ _ Hdup) as (? & Hbp & ? & ? & ? & ?).
  destruct (is_Some_nxt _ _ Hsx) as [nx Hnx]. destruct (is_Some_prv _ _ Hsx) as [px Hpx].
  mem. unfold insert_heap. apply chain_join.
  - eapply chain_frame; [done|rewrite removelast_last|intros a Ha%elem_of_tl]; frame.
  - split; [|split; [|done]]; split; links.
  - eapply chain_frame; [done|intros a Ha%elem_of_removelast|simpl]; frame.
Qed.

Lemma nodup_insert (A : list Z) x B : NoDup (A ++ B) → x ∉ A ++ B → NoDup (A ++ [x] ++ B).
Proof.
  intros Hd Hx. simpl. rewrite <-Permutation_middle. by constructor.
Qed.

Lemma list_insert_dlist h l pre post x :
  dlist h l (pre ++ post) → x ∉ full l (pre ++ post) → x ≠ NULL → is_Some (h !! x) →
  ∃ h', list_insert (after_in l post) x h = Ok (tt, h') ∧
    dlist h' l (pre ++ x :: post) ∧ same_outside (x :: full l (pre ++ post)) h h'.
Proof.
  intros Hd Hx Hx0 Hsx. pose proof (dlist_cut _ _ _ _ Hd) as (P & T & EP & ET & HP & HT & Hl & Hdup).
  pose proof (full_app l pre post) as Ef. rewrite EP, ET in Ef.
  set (p := before_in l pre) in *. set (b := after_in l post) in *.
  assert (b ∈ full l (pre ++ post)) as Hb by (rewrite Ef; set_solver).
  assert (p ∈ full l (pre ++ post)) as Hpm by (rewrite Ef; set_solver).
  destruct (is_Some_nxt _ _ (dlist_mem _ _ _ _ Hd Hb)) as [nb Hnb].
  clearbody p b. exists (insert_heap b p x h). split_and!.
  - destruct Hl as [Hn Hp].
    eapply list_insert_run; eauto using dlist_nonnull, nxt_Some_is_Some. congruence.
  - pose proof (nodup_app_facts _ _ _ _ Hdup) as (_ & Hbp & _ & _ & HpT & _).
    pose proof Hd as [_ _ Hh Ht Hnn]. rewrite Ef in Hx, Hnn.
    split; rewrite ?full_split, ?EP, ?ET.
    + by apply insert_chain.
    + by apply nodup_insert.
    + assert (l ∈ P ++ [p]) by (rewrite <-EP; left).
      unfold insert_heap. links; mem.
    + assert (list_tail_addr l ∈ b :: T) by (rewrite <-ET; set_solver).
      unfold insert_heap. links; mem.
    + rewrite !not_elem_of_app in *. set_solver.
  - unfold insert_heap. outside; set_solver.
Qed.

(** ** Removal *)

Definition remove_heap (p n : Z) (h : heap) : heap := hset_prev n p (hset_next p n h).

Lemma list_remove_run h x p n :
  prv h x = Some p → nxt h x = Some n → x ≠ NULL → p ≠ NULL → n ≠ NULL → x ≠ p → x ≠ n →
  is_Some (h !! n) → is_Some (h !! p) →
  list_remove x h = Ok (n, remove_heap p n h).
Proof.
  intros Hp Hn Hx Hp0 Hn0 Hxp Hxn Hsn Hsp. unfold list_remove, remove_heap.
  destruct (role_ok _ _ _ _ Hp Hn Hx) as (_ & Hi & _).
  rewrite (proj2 (Z.eqb_neq _ _) Hp0), (proj2 (Z.eqb_neq _ _) Hn0) in Hi.
  erewrite bind_ok by by apply assertM_ok.
  do 6 run1. apply get_next_ok. links.
Qed.

Lemma remove_chain h P p x n T :
  chain h ((P ++ [p]) ++ [x] ++ n :: T) → NoDup ((P ++ [p]) ++ [x] ++ n :: T) →
  chain (remove_heap p n h) ((P ++ [p]) ++ n :: T).
Proof.
  intros Hc Hdup. simpl in Hc. apply chain_app in Hc as [Hc1 [[Hxn Hnx] HT]].
  rewrite <-app_assoc in Hc1. apply chain_snoc in Hc1 as [HP [Hpx Hxp]].
  assert (NoDup ((P ++ [p]) ++ n :: T)) as Hd2.
  { revert Hdup. simpl. rewrite <-Permutation_middle. by intros [_ ?]%NoDup_cons. }
  pose proof (nodup_app_facts _ _ _ _ Hd2) as (? & ? & ? & ? & ? & ?). mem.
  unfold remove_heap. apply (chain_join _ P p [] n T).
  - eapply chain_frame; [done|rewrite removelast_last|intros a Ha%elem_of_tl]; frame.
  - split; [|done]. split; links.
  - eapply chain_frame; [done|intros a Ha%elem_of_removelast|simpl]; frame.
Qed.

Lemma list_remove_dlist h l pre x post :
  dlist h l (pre ++ x :: post) →
  ∃ h', list_remove x h = Ok (after_in l post, h') ∧ dlist h' l (pre ++ post) ∧
    same_outside (full l (pre ++ post)) h h'.
Proof.
  intros Hd. pose proof (dlist_links _ _ _ _ _ Hd) as [[Hn1 Hp1] [Hn2 Hp2]].
  pose proof Hd as [Hc Hdup Hh Ht Hnn]. rewrite full_split in *.
  assert (∃ P T, l :: pre = P ++ [before_in l pre] ∧
     post ++ [list_tail_addr l] = after_in l post :: T) as (P & T & EP & ET)
    by eauto using cons_snoc, snoc_cons.
  rewrite full_app. rewrite EP, ET in *.
  set (p := before_in l pre) in *. set (n := after_in l post) in *. clearbody p n.
  pose proof Hdup as Hdup'. rewrite <-Permutation_middle in Hdup'.
  apply NoDup_cons in Hdup' as [Hx Hd2].
  pose proof (nodup_app_facts _ _ _ _ Hd2) as (? & ? & ? & ? & ? & ?).
  assert (l ∈ P ++ [p]) by (rewrite <-EP; left).
  assert (list_tail_addr l ∈ n :: T) by (rewrite <-ET; set_solver).
  assert (list_tail_addr l ≠ l) by (unfold list_tail_addr; lia).
  exists (remove_heap p n h). split_and!.
  - assert (∀ a, a ∈ (P ++ [p]) ++ x :: n :: T → a ≠ NULL) as Hz by by intros a Ha ->.
    eapply list_remove_run; eauto using nxt_Some_is_Some, prv_Some_is_Some; try (apply Hz; set_solver); set_solver.
  - split; rewrite ?full_app, ?EP, ?ET; [by eapply remove_chain|done|..|set_solver];
      unfold remove_heap; mem; links.
  - unfold remove_heap. outside; set_solver.
Qed.

(** ** Splicing *)

Lemma chain_app2 h A B :
  chain h (A ++ B) ↔
  chain h A ∧ chain h B ∧
  (∀ x y, last A = Some x → head B = Some y → link h x y).
Proof.
  induction A as [|a A IH]; [simpl; split; [intros; split_and!; done|tauto]|].
  destruct A as [|a' A].
  - destruct B as [|b B]; simpl; [split; [intros; split_and!; done|tauto]|].
    split; [intros [? ?]; split_and!; try done; by intros ?? [= <-] [= <-]|].
    intros (_ & ? & Hl). split; [by apply Hl|done].
  - simpl in *. rewrite IH. tauto.
Qed.

Lemma nodup_last (L : list Z) x : NoDup L → last L = Some x → x ∉ removelast L.
Proof.
  intros Hd (L' & ->)%last_Some. rewrite removelast_last.
  apply NoDup_app in Hd as (_ & H & _). intros Hx. apply (H x Hx). left.
Qed.

Lemma nodup_head (L : list Z) x : NoDup L → head L = Some x → x ∉ List.tl L.
Proof. destruct L as [|y L]; [done|]. intros [? _]%NoDup_cons [= <-]. done. Qed.

Lemma last_elem (L : list Z) x : last L = Some x → x ∈ L.
Proof. intros (L' & ->)%last_Some. set_solver. Qed.

Lemma head_elem (L : list Z) x : head L = Some x → x ∈ L.
Proof. destruct L; [done|]. intros [= <-]. left. Qed.

(** The links inside a segment survive updates at addresses outside it,
    at the [next] of its last and the [prev] of its first element. *)
Ltac reframe H :=
  eapply chain_frame;
  [ exact H
  | let a := fresh "a" in let Ha := fresh "Ha" in
    intros a Ha; pose proof (elem_of_removelast _ _ Ha)
  | let a := fresh "a" in let Ha := fresh "Ha" in
    intros a Ha; pose proof (elem_of_tl _ _ Ha) ]; links; exfalso; eauto.

Definition splice_heap (p b m f s q : Z) (h : heap) : heap :=
  hset_prev b s (hset_next p f (hset_next s b (hset_prev f p
    (hset_prev q m (hset_next m q h))))).

(** Moving the segment [S] in front of the segment [M] that precedes it. *)
Lemma splice_chain h A M S B p b m f s q :
  chain h (A ++ M ++ S ++ B) → NoDup (A ++ M ++ S ++ B) →
  last A = Some p → head M = Some b → last M = Some m →
  head S = Some f → last S = Some s → head B = Some q →
  chain (splice_heap p b m f s q h) (A ++ S ++ M ++ B).
Proof.
  intros Hc Hd Hp Hb Hm Hf Hs Hq.
  rewrite !chain_app2 in Hc. destruct Hc as (HA & (HM & (HS & HB & LSB) & LMS) & LAM).
  rewrite !NoDup_app in Hd. destruct Hd as (DA & XA & DM & XM & DS & XS & DB).
  assert (∀ a, a ∈ A → a ∉ M ∧ a ∉ S ∧ a ∉ B) as XA' by (intros a Ha; specialize (XA a Ha); set_solver).
  assert (∀ a, a ∈ M → a ∉ S ∧ a ∉ B) as XM' by (intros a Ha; specialize (XM a Ha); set_solver).
  destruct (LAM p b) as [N1 P1]; [done|by destruct M|].
  destruct (LMS m f) as [N2 P2]; [done|by destruct S|].
  destruct (LSB s q) as [N3 P3]; [done..|].
  destruct (XA' p (last_elem _ _ Hp)) as (? & ? & ?).
  destruct (XM' b (head_elem _ _ Hb)) as (? & ?).
  destruct (XM' m (last_elem _ _ Hm)) as (? & ?).
  pose proof (XS f (head_elem _ _ Hf)) as ?. pose proof (XS s (last_elem _ _ Hs)) as ?.
  pose proof (last_elem _ _ Hp). pose proof (head_elem _ _ Hb). pose proof (last_elem _ _ Hm).
  pose proof (head_elem _ _ Hf). pose proof (last_elem _ _ Hs). pose proof (head_elem _ _ Hq).
  pose proof (nodup_last _ _ DA Hp). pose proof (nodup_head _ _ DM Hb).
  pose proof (nodup_last _ _ DM Hm). pose proof (nodup_head _ _ DS Hf).
  pose proof (nodup_last _ _ DS Hs). pose proof (nodup_head _ _ DB Hq).
  clear XA XM. unfold splice_heap. rewrite !chain_app2.
  assert (∀ a, a ∈ A → a ∈ M → False) by naive_solver.
  assert (∀ a, a ∈ A → a ∈ S → False) by naive_solver.
  assert (∀ a, a ∈ A → a ∈ B → False) by naive_solver.
  assert (∀ a, a ∈ M → a ∈ S → False) by naive_solver.
  assert (∀ a, a ∈ M → a ∈ B → False) by naive_solver.
  assert (∀ a, a ∈ S → a ∈ B → False) by naive_solver. clear XA' XM' XS.
  split_and!.
  - reframe HA.
  - reframe HS.
  - reframe HM.
  - reframe HB.
  - intros x y Ex Ey. rewrite Hm in Ex. rewrite Hq in Ey. simplify_eq. split; links; exfalso; eauto.
  - intros x y Ex Ey. rewrite Hs in Ex. destruct M; [done|]. simplify_eq/=. split; links; exfalso; eauto.
  - intros x y Ex Ey. rewrite Hp in Ex. destruct S; [done|]. simplify_eq/=. split; links; exfalso; eauto.
Qed.

Lemma list_prev_run h x p n :
  prv h x = Some p → nxt h x = Some n → x ≠ NULL → p ≠ NULL →
  list_prev x h = Ok (p, h).
Proof.
  intros Hp Hn Hx Hp0. destruct (role_ok _ _ _ _ Hp Hn Hx) as (_ & Hi & Ht).
  unfold list_prev. erewrite bind_ok; [by apply get_prev_ok|].
  apply assertM_ok. erewrite orM_ok by done. nonnull Hp0. by destruct (n =? NULL).
Qed.

Lemma list_next_run h x p n :
  prv h x = Some p → nxt h x = Some n → x ≠ NULL → n ≠ NULL →
  list_next x h = Ok (n, h).
Proof.
  intros Hp Hn Hx Hn0. destruct (role_ok _ _ _ _ Hp Hn Hx) as (Hh & Hi & _).
  unfold list_next. erewrite bind_ok; [by apply get_next_ok|].
  apply assertM_ok. erewrite orM_ok by done. nonnull Hn0. by destruct (p =? NULL).
Qed.

Lemma list_splice_run h p b m f s q nb nq :
  prv h b = Some p → nxt h b = Some nb → prv h f = Some m → nxt h m = Some f →
  nxt h s = Some q → prv h q = Some s → nxt h q = Some nq →
  is_Some (h !! p) → is_Some (nxt h f) → is_Some (prv h s) →
  b ≠ NULL → p ≠ NULL → f ≠ NULL → m ≠ NULL → s ≠ NULL → q ≠ NULL →
  nxt h f ≠ Some NULL → prv h s ≠ Some NULL →
  f ≠ q → b ≠ q → b ≠ f → s ≠ m →
  list_splice b f q h = Ok (tt, splice_heap p b m f s q h).
Proof.
  intros Hpb Hnb Hpf Hnm Hns Hpq Hnq Hsp [nf Hnf] [ps Hps]. intros Hb0 Hp0 Hf0 Hm0 Hs0 Hq0 Hnf0 Hps0.
  intros Hfq Hbq Hbf Hsm.
  assert (nf ≠ NULL) as Hnf1 by congruence. assert (ps ≠ NULL) as Hps1 by congruence.
  destruct (role_ok _ _ _ _ Hpb Hnb Hb0) as (_ & Hib & Htb).
  destruct (role_ok _ _ _ _ Hpf Hnf Hf0) as (_ & Hif & _).
  destruct (role_ok _ _ _ _ Hps Hns Hs0) as (_ & His & _).
  rewrite (proj2 (Z.eqb_neq _ _) Hm0), (proj2 (Z.eqb_neq _ _) Hnf1) in Hif.
  rewrite (proj2 (Z.eqb_neq _ _) Hps1), (proj2 (Z.eqb_neq _ _) Hq0) in His.
  unfold list_splice, splice_heap. erewrite bind_ok.
  2: { apply assertM_ok. erewrite orM_ok by done. nonnull Hp0. by destruct (nb =? NULL). }
  nonnull Hfq. erewrite bind_ok by by eapply list_prev_run.
  erewrite bind_ok by by apply assertM_ok. erewrite bind_ok by by apply assertM_ok.
  pose proof (prv_Some_is_Some _ _ _ Hpf). pose proof (nxt_Some_is_Some _ _ _ Hnm).
  pose proof (prv_Some_is_Some _ _ _ Hpq). pose proof (nxt_Some_is_Some _ _ _ Hns).
  pose proof (prv_Some_is_Some _ _ _ Hpb).
  do 11 run1. apply set_prev_ok. links.
Qed.

Lemma last_full_pre (l : Z) (pre : list Z) : last (l :: pre) = Some (before_in l pre).
Proof. rewrite (cons_snoc l pre). apply last_snoc. Qed.

Lemma head_full_post (l : Z) (post : list Z) :
  head (post ++ [list_tail_addr l]) = Some (after_in l post).
Proof. by destruct post. Qed.

Lemma last_Some_cons (x : Z) xs : is_Some (last (x :: xs)).
Proof. rewrite last_is_Some. done. Qed.

(** Every interior element has two non-null links. *)
Lemma dlist_interior h l xs x :
  dlist h l xs → x ∈ xs →
  x ≠ NULL ∧ ∃ p n, prv h x = Some p ∧ nxt h x = Some n ∧ p ≠ NULL ∧ n ≠ NULL ∧
    p ∈ full l xs ∧ n ∈ full l xs.
Proof.
  intros Hd Hx. apply list_elem_of_split in Hx as (pre & post & ->).
  pose proof (dlist_links _ _ _ _ _ Hd) as [[_ Hp] [Hn _]].
  assert (before_in l pre ∈ full l (pre ++ x :: post)).
  { rewrite full_split. apply elem_of_app. left. apply before_in_elem. }
  assert (after_in l post ∈ full l (pre ++ x :: post)).
  { rewrite full_split. apply elem_of_app. right. right. apply after_in_elem. }
  split; [eapply dlist_nonnull; [done|rewrite full_split; set_solver]|].
  eauto 10 using dlist_nonnull.
Qed.

Lemma splice_outside (A M S B : list Z) :
  NoDup (A ++ M ++ S ++ B) → ∀ a, a ∈ A → a ∉ M ∧ a ∉ S ∧ a ∉ B.
Proof. rewrite NoDup_app. intros (_ & H & _) a Ha. specialize (H a Ha). set_solver. Qed.

Lemma splice_outside_end (A M S B : list Z) a :
  NoDup (A ++ M ++ S ++ B) → a ∈ B → a ∉ A ∧ a ∉ M ∧ a ∉ S.
Proof.
  rewrite !NoDup_app. intros (_ & H1 & _ & H2 & _ & H3 & _) Ha.
  split_and!; intros H; [apply (H1 a H)|apply (H2 a H)|by apply (H3 a H)]; set_solver.
Qed.

Lemma list_splice_dlist h l pre b mid f seg post :
  dlist h l (pre ++ (b :: mid) ++ (f :: seg) ++ post) →
  ∃ h', list_splice b f (after_in l post) h = Ok (tt, h') ∧
    dlist h' l (pre ++ (f :: seg) ++ (b :: mid) ++ post) ∧
    same_outside (full l (pre ++ (b :: mid) ++ (f :: seg) ++ post)) h h'.
Proof.
  intros Hd. set (xs := pre ++ _) in Hd.
  destruct (last_Some_cons b mid) as [m Hm]. destruct (last_Some_cons f seg) as [s Hs].
  destruct (dlist_interior h l xs b Hd) as (Hb0 & _ & nb & _ & Hnb & _); [set_solver|].
  destruct (dlist_interior h l xs f Hd) as (Hf0 & _ & nf & _ & Hnf & _ & Hnf0 & _); [set_solver|].
  pose proof (last_elem _ _ Hm) as Hmm. pose proof (last_elem _ _ Hs) as Hsm.
  destruct (dlist_interior h l xs m Hd) as (Hm0 & _); [set_solver|].
  destruct (dlist_interior h l xs s Hd) as (Hs0 & ps & _ & Hps & _ & Hps0 & _); [set_solver|].
  pose proof Hd as [Hc Hdup Hh Ht Hnn].
  assert (∀ ys zs, full l (pre ++ ys ++ zs ++ post) =
            (l :: pre) ++ ys ++ zs ++ (post ++ [list_tail_addr l])) as Ef.
  { intros. unfold full. by rewrite <-!app_assoc. }
  unfold xs in *. rewrite Ef in *.
  pose proof (last_full_pre l pre) as Hp. pose proof (head_full_post l post) as Hq.
  set (p := before_in l pre) in *. set (q := after_in l post) in *.
  pose proof (last_elem _ _ Hp) as Hpm. pose proof (head_elem _ _ Hq) as Hqm. clearbody p q.
  exists (splice_heap p b m f s q h). split_and!.
  - rewrite !chain_app2 in Hc. destruct Hc as (_ & (_ & (_ & _ & L3) & L2) & L1).
    destruct (L1 p b) as [? ?]; [done..|]. destruct (L2 m f) as [? ?]; [done..|].
    destruct (L3 s q) as [? ?]; [done..|]. clear L1 L2 L3.
    destruct (is_Some_nxt h q) as [nq Hnq]; [by eapply prv_Some_is_Some|].
    rewrite !NoDup_app in Hdup. destruct Hdup as (_ & _ & _ & X1 & _ & X2 & _).
    assert (b ∉ (f :: seg) ++ post ++ [list_tail_addr l]) as X1b by (apply X1; left).
    assert (m ∉ (f :: seg) ++ post ++ [list_tail_addr l]) as X1m by (by apply X1).
    assert (f ∉ post ++ [list_tail_addr l]) as X2f by (apply X2; left). clear X1 X2.
    assert (p ≠ NULL) by (intros E; apply Hnn, elem_of_app; left; by rewrite <-E).
    assert (q ≠ NULL) by (intros E; apply Hnn; rewrite E in Hqm; do 3 (apply elem_of_app; right); done).
    assert (f ≠ q) by (by intros ->).
    assert (b ≠ q) by (intros ->; apply X1b, elem_of_app; auto).
    assert (b ≠ f) by (intros ->; apply X1b; left).
    assert (s ≠ m) by (intros ->; apply X1m, elem_of_app; auto).
    eapply list_splice_run; try eassumption; try congruence; try (by eapply nxt_Some_is_Some);
      eexists; eassumption.
  - assert (l ∈ l :: pre) as Hl by left.
    split; rewrite ?Ef; [by eapply splice_chain|..].
    + by rewrite (Permutation_app_swap_app (f :: seg)).
    + destruct (splice_outside _ _ _ _ Hdup l Hl) as (? & ? & ?).
      unfold splice_heap. links; exfalso; eauto using head_elem, last_elem.
    + destruct (splice_outside_end _ _ _ _ (list_tail_addr l) Hdup) as (? & ? & ?); [set_solver|].
      unfold splice_heap. links; exfalso; eauto using head_elem, last_elem.
    + clear -Hnn. set_solver.
  - unfold splice_heap. clear -Hmm Hsm Hpm Hqm. outside; set_solver.
Qed.
