(* ===== verification/KListOrder.v ===== *)
(** * Traversals, reversal and sorting of kernel lists (list.c)

    The lemmas of this file lift the loops of list.c to functions on the
    list of addresses of a well-formed list: [list_reverse] reverses it,
    [list_sort] is a stable natural merge sort of it, and so on.  Each
    theorem states that the routine returns (no assertion fails and the
    loop bound is enough) and what list it leaves behind. *)

From S2P Require Import Prelude KList.

(** ** Pure counterparts of the ordered operations *)
Section pure.
Context (less : Z → Z → bool).

(** No element is less than the one before it: what [is_sorted] tests. *)
Fixpoint sortedb (xs : list Z) : bool :=
  match xs with
  | x :: ((y :: _) as r) => negb (less y x) && sortedb r
  | _ => true
  end.

(** The rest of the run that starts with [x], and what follows it. *)
Fixpoint take_run (x : Z) (ys : list Z) : list Z * list Z :=
  match ys with
  | [] => ([], [])
  | y :: ys' =>
      if less y x then ([], ys)
      else let '(r, s) := take_run y ys' in (y :: r, s)
  end.

(** Stable merge: an element of [bs] goes first only if it is less. *)
Fixpoint merge (xs : list Z) : list Z → list Z :=
  fix merge_aux (ys : list Z) : list Z :=
    match xs, ys with
    | [], _ => ys
    | _, [] => xs
    | x :: xs', y :: ys' =>
        if less y x then y :: merge_aux ys' else x :: merge xs' ys
    end.

(** Number of maximal nondecreasing runs. *)
Fixpoint nruns (xs : list Z) : nat :=
  match xs with
  | [] => 0
  | [_] => 1
  | x :: ((y :: _) as r) => (if less y x then 1 else 0) + nruns r
  end.

Definition insert_sorted (x : Z) : list Z → list Z :=
  fix go ys := match ys with
  | [] => [x]
  | y :: ys' => if less x y then x :: y :: ys' else y :: go ys'
  end.

(** First element of each group of adjacent equals, and the others. *)
Fixpoint uniq (x : Z) (ys : list Z) : list Z * list Z :=
  match ys with
  | [] => ([x], [])
  | y :: ys' =>
      if negb (less x y) && negb (less y x)
      then let '(u, d) := uniq x ys' in (u, y :: d)
      else let '(u, d) := uniq y ys' in (x :: u, d)
  end.

End pure.

(** ** Walking along a list *)

Lemma walk_fuel_enough h l xs : dlist h l xs → (length xs + 2 ≤ size h)%nat.
Proof.
  intros Hd. assert (length (full l xs) ≤ size h)%nat as H.
  { rewrite <-size_dom, <-(size_list_to_set (C := gset Z) (full l xs)) by apply Hd.
    apply subseteq_size. intros a Ha. apply elem_of_dom.
    eapply dlist_mem; [done|]. by apply elem_of_list_to_set in Ha. }
  unfold full in H. simpl in H. rewrite length_app in H. simpl in H. lia.
Qed.

Lemma list_nonnull h l xs : dlist h l xs → negb (l =? NULL) = true.
Proof.
  intros Hd. apply negb_true_iff, Z.eqb_neq. eapply dlist_nonnull; [done|]. left.
Qed.

Lemma list_begin_ok h l xs : dlist h l xs → list_begin l h = Ok (after_in l xs, h).
Proof.
  intros Hd. unfold list_begin. erewrite bind_ok by by eapply assert_ok, list_nonnull.
  by apply get_next_ok, dlist_begin_link.
Qed.

Lemma list_end_ok h l xs : dlist h l xs → list_end l h = Ok (list_tail_addr l, h).
Proof.
  intros Hd. unfold list_end. by erewrite bind_ok by by eapply assert_ok, list_nonnull.
Qed.

Lemma list_next_ok h l pre x post :
  dlist h l (pre ++ x :: post) → list_next x h = Ok (after_in l post, h).
Proof.
  intros Hd. destruct (dlist_links _ _ _ _ _ Hd) as [_ [Hn _]].
  destruct (dlist_interior _ _ _ x Hd) as (? & p & n & ? & Hn' & ? & ? & _); [set_solver|].
  rewrite Hn in Hn'. simplify_eq. by eapply list_next_run.
Qed.

Lemma list_prev_ok h l pre x post :
  dlist h l (pre ++ x :: post) → list_prev x h = Ok (before_in l pre, h).
Proof.
  intros Hd. destruct (dlist_links _ _ _ _ _ Hd) as [[_ Hp] _].
  destruct (dlist_interior _ _ _ x Hd) as (? & p & n & Hp' & ? & ? & ? & _); [set_solver|].
  rewrite Hp in Hp'. simplify_eq. by eapply list_prev_run.
Qed.

Lemma list_prev_tail h l xs : dlist h l xs → list_prev (list_tail_addr l) h = Ok (before_in l xs, h).
Proof.
  intros Hd. destruct (dlist_end_link _ _ _ Hd) as [_ Hp].
  eapply list_prev_run; [done|apply (dl_tail _ _ _ Hd)|eapply dlist_nonnull; [done|]..].
  - apply elem_of_full. auto.
  - apply elem_of_cons. pose proof (before_in_elem l xs). set_solver.
Qed.

(** The element after [pre], interior or tail, has the end of [pre] before it. *)
Lemma list_prev_after h l pre post :
  dlist h l (pre ++ post) → list_prev (after_in l post) h = Ok (before_in l pre, h).
Proof.
  intros Hd. destruct post as [|x post]; [|by eapply list_prev_ok].
  rewrite app_nil_r in Hd. by apply list_prev_tail.
Qed.

(** In a duplicate-free list the position of an element is determined. *)
Lemma after_in_eq h l pre mid post :
  dlist h l (pre ++ mid ++ post) →
  (after_in l (mid ++ post) =? after_in l post) = bool_decide (mid = []).
Proof.
  intros Hd. destruct mid as [|x mid]; [by rewrite Z.eqb_refl|].
  rewrite (proj2 (Z.eqb_neq _ _)); [done|]. simpl. intros ->.
  pose proof (dl_nodup _ _ _ Hd) as Hn. simpl in Hn.
  apply nodup_split in Hn as (_ & _ & Hx & _).
  apply Hx. rewrite <-app_assoc. apply elem_of_app. right. apply after_in_elem.
Qed.

Lemma after_in_end h l pre post :
  dlist h l (pre ++ post) →
  (after_in l post =? list_tail_addr l) = bool_decide (post = []).
Proof.
  intros Hd. rewrite <-(app_nil_r post) in Hd.
  pose proof (after_in_eq _ _ _ _ _ Hd) as H. by rewrite app_nil_r in H.
Qed.

Lemma last_app_cons (l x : Z) pre : before_in l (pre ++ [x]) = x.
Proof. apply last_last. Qed.

(** ** Size and reversal *)

Lemma list_size_ok h l xs :
  dlist h l xs → Z.of_nat (length xs) < 2 ^ 32 →
  list_size l h = Ok (Z.of_nat (length xs), h).
Proof.
  intros Hd Hlen. unfold list_size. erewrite bind_ok by apply get_ok.
  erewrite bind_ok by by apply list_begin_ok.
  edestruct (loopM_rule (λ n '(e, cnt) h', h' = h ∧ ∃ pre post, xs = pre ++ post ∧
    e = after_in l post ∧ cnt = Z.of_nat (length pre) ∧ n = length post)
    (λ cnt h', h' = h ∧ cnt = Z.of_nat (length xs))) as (cnt & h' & E & -> & ->);
    [| |  |exact E].
  - intros n [e cnt] h' (-> & pre & post & -> & -> & -> & ->).
    erewrite bind_ok by by eapply list_end_ok.
    rewrite (after_in_end _ _ _ _ Hd). destruct post as [|x post].
    + eexists (inr _), _. split; [done|]. by rewrite app_nil_r.
    + rewrite bool_decide_false by done. erewrite bind_ok by by eapply list_next_ok.
      eexists (inl _), _. split; [done|]. exists (length post). split; [simpl; lia|].
      split; [done|]. exists (pre ++ [x]), post. rewrite <-app_assoc, length_app in *. simpl in *.
      split_and!; try done. unfold u32. rewrite Z.mod_small; lia.
  - simpl. split; [done|]. by exists [], xs.
  - pose proof (walk_fuel_enough _ _ _ Hd). unfold walk_fuel. lia.
Qed.

Lemma list_empty_ok h l xs : dlist h l xs → list_empty l h = Ok (bool_decide (xs = []), h).
Proof.
  intros Hd. unfold list_empty. erewrite bind_ok by by apply list_begin_ok.
  erewrite bind_ok by by eapply list_end_ok.
  by rewrite (after_in_end h l [] xs).
Qed.

(** Swapping both links of every interior element reverses the chain. *)
Lemma swap_elem_ok h e p n :
  prv h e = Some p → nxt h e = Some n →
  swap (PrevOf e) (NextOf e) h = Ok (tt, hset_next e p (hset_prev e n h)).
Proof.
  intros Hp Hn. unfold swap, get_lval, set_lval. pose proof (nxt_Some_is_Some _ _ _ Hn).
  do 3 run1. apply set_next_ok. links.
Qed.

Lemma chain_reverse h h' L :
  chain h L →
  (∀ x y, link h x y → x ∈ L → y ∈ L → link h' y x) →
  chain h' (reverse L).
Proof.
  intros Hc Hl. induction L as [|x [|y L] IH]; [done..|].
  destruct Hc as [Hxy Hc]. rewrite reverse_cons. apply chain_app2. split_and!.
  - apply IH; [done|]. intros a b ???. apply Hl; set_solver.
  - done.
  - rewrite last_reverse. simpl. intros ?? [= <-] [= <-]. apply Hl; set_solver.
Qed.

Lemma swap_ends_ok h l f b :
  nxt h l = Some f → prv h (list_tail_addr l) = Some b →
  swap (NextOf l) (PrevOf (list_tail_addr l)) h =
  Ok (tt, hset_prev (list_tail_addr l) f (hset_next l b h)).
Proof.
  intros Hn Hp. unfold swap, get_lval, set_lval.
  pose proof (nxt_Some_is_Some _ _ _ Hn). pose proof (prv_Some_is_Some _ _ _ Hp).
  do 3 run1. apply set_prev_ok. links.
Qed.

Lemma swap_outer_ok h f b x y :
  prv h b = Some x → nxt h f = Some y →
  swap (PrevOf b) (NextOf f) h = Ok (tt, hset_next f x (hset_prev b y h)).
Proof.
  intros Hp Hn. unfold swap, get_lval, set_lval.
  pose proof (nxt_Some_is_Some _ _ _ Hn). pose proof (prv_Some_is_Some _ _ _ Hp).
  do 3 run1. apply set_next_ok. links.
Qed.

(** State of the loop of [list_reverse] once [pre] has been visited. *)
Definition reversing (h0 h : heap) (pre : list Z) : Prop :=
  dom h = dom h0 ∧
  (∀ a, a ∈ pre → nxt h a = prv h0 a ∧ prv h a = nxt h0 a) ∧
  (∀ a, a ∉ pre → h !! a = h0 !! a).

Lemma reversing_links h0 h pre a :
  reversing h0 h pre → a ∉ pre → nxt h a = nxt h0 a ∧ prv h a = prv h0 a.
Proof. intros (_ & _ & H) Ha. unfold nxt, prv. by rewrite (H a Ha). Qed.

Lemma reversing_step h0 h pre x p n :
  reversing h0 h pre → x ∉ pre → prv h0 x = Some p → nxt h0 x = Some n →
  reversing h0 (hset_next x p (hset_prev x n h)) (pre ++ [x]).
Proof.
  intros Hr Hx Hp Hn. destruct (reversing_links _ _ _ _ Hr Hx) as [En Ep].
  rewrite Hn in En. rewrite Hp in Ep. destruct Hr as (Hd & H1 & H2). split_and!.
  - by autorewrite with links.
  - intros a [Ha| ->%list_elem_of_singleton]%elem_of_app; split; links; by apply H1.
  - intros a [Ha Hax]%not_elem_of_app. unfold hset_next, hset_prev.
    rewrite !lookup_alter_ne by set_solver. by apply H2.
Qed.

Lemma list_reverse_loop h l xs :
  dlist h l xs →
  ∃ h', loopM (walk_fuel h) (λ e,
      en ← list_end l;
      if e =? en then mret (inr tt)
      else swap (PrevOf e) (NextOf e);; e' ← get_prev e; mret (inl e'))
    (after_in l xs) h = Ok (tt, h') ∧ reversing h h' xs.
Proof.
  intros Hd. pose proof (list_nonnull _ _ _ Hd) as Hl0.
  edestruct (loopM_rule (λ n e h', ∃ pre post, xs = pre ++ post ∧
    e = after_in l post ∧ reversing h h' pre ∧ n = length post)
    (λ _ : unit, λ h', reversing h h' xs)) as ([] & h' & E & Hr); [| | |exists h'; split; [exact E|done]].
  - intros n e h' (pre & post & -> & -> & Hr & ->).
    unfold list_end at 1. erewrite bind_ok by (erewrite bind_ok by (by apply assert_ok); done).
    rewrite (after_in_end _ _ _ _ Hd). destruct post as [|x post].
    { eexists (inr _), _. split; [done|]. by rewrite app_nil_r. }
    rewrite bool_decide_false by done.
    destruct (dlist_links _ _ _ _ _ Hd) as [[_ Hp] [Hn _]].
    assert (x ∉ pre) as Hx.
    { pose proof (dl_nodup _ _ _ Hd) as Hdup. apply nodup_split in Hdup. set_solver. }
    destruct (reversing_links _ _ _ _ Hr Hx) as [En Ep]. rewrite Hn in En. rewrite Hp in Ep.
    erewrite bind_ok by by apply swap_elem_ok. simpl.
    erewrite bind_ok by (apply (get_prev_ok _ _ (after_in l post)); links).
    eexists (inl _), _. split; [done|]. exists (length post). split; [lia|].
    exists (pre ++ [x]), post. rewrite <-app_assoc. split_and!; try done.
    by apply reversing_step.
  - exists [], xs. split_and!; try done. split_and!; try done. by intros a ?%elem_of_nil.
  - pose proof (walk_fuel_enough _ _ _ Hd). unfold walk_fuel. lia.
Qed.

(** The links of the headers and of the two outermost elements. *)
Definition reverse_ends (l f b : Z) (h : heap) : heap :=
  hset_next f (list_tail_addr l)
    (hset_prev b l (hset_prev (list_tail_addr l) f (hset_next l b h))).

Lemma reverse_ends_dlist h h1 l xs f b :
  dlist h l xs → reversing h h1 xs → head xs = Some f → last xs = Some b →
  dlist (reverse_ends l f b h1) l (reverse xs).
Proof.
  intros Hd Hr Hf Hb. pose proof Hd as [Hc Hdup Hh Ht Hnn].
  assert (∀ a, a ∈ xs → a ≠ l ∧ a ≠ list_tail_addr l) as Hne.
  { unfold full in Hdup. apply NoDup_cons in Hdup as [? (_ & H & _)%NoDup_app].
    intros a Ha. specialize (H a Ha). set_solver. }
  assert (l ∉ xs ∧ list_tail_addr l ∉ xs) as [Hl Htl] by (split; intros H; by apply Hne in H as [? ?]).
  destruct (reversing_links _ _ _ _ Hr Hl) as [Enl Epl].
  destruct (reversing_links _ _ _ _ Hr Htl) as [Ent Ept].
  unfold full in Hc. change (l :: xs ++ ?r) with ([l] ++ xs ++ r) in Hc.
  rewrite !chain_app2 in Hc. destruct Hc as (_ & (Hcx & _ & Hbt) & Hlf).
  destruct (Hbt b (list_tail_addr l)) as [Nb Pt]; [done..|].
  destruct (Hlf l f) as [Nl Pf]; [done|by destruct xs|]. clear Hbt Hlf.
  destruct (Hne f) as [Hfl Hft]; [by apply head_elem|]. destruct (Hne b) as [Hbl Hbt]; [by apply last_elem|].
  assert (list_tail_addr l ≠ l) by (unfold list_tail_addr; lia).
  destruct Hr as (_ & Hsw & _).
  destruct (Hsw f (head_elem _ _ Hf)) as [Enf Epf]. destruct (Hsw b (last_elem _ _ Hb)) as [Enb Epb].
  rewrite Nl in Enl. rewrite Pt in Ept. rewrite Pf in Enf. rewrite Nb in Epb.
  unfold reverse_ends. split.
  - unfold full. change (l :: reverse xs ++ ?r) with ([l] ++ reverse xs ++ r).
    rewrite !chain_app2. split_and!; try done.
    + apply (chain_reverse h); [done|]. intros x y [Hx Hy] Hxm Hym.
      destruct (Hne x Hxm), (Hne y Hym). destruct (Hsw y Hym), (Hsw x Hxm).
      split; links; congruence.
    + intros x y Ex [= <-]. rewrite last_reverse, Hf in Ex. simplify_eq. split; links; congruence.
    + intros x y [= <-]. rewrite head_snoc, head_reverse, Hb. intros [= <-]. split; links; congruence.
  - unfold full in *. by rewrite (reverse_Permutation xs).
  - links; congruence.
  - links; congruence.
  - rewrite elem_of_full, elem_of_reverse. by rewrite elem_of_full in Hnn.
Qed.

Lemma list_reverse_dlist h l xs :
  dlist h l xs →
  ∃ h', list_reverse l h = Ok (tt, h') ∧ dlist h' l (reverse xs).
Proof.
  intros Hd. unfold list_reverse, list_head_addr. erewrite bind_ok by by apply list_empty_ok.
  destruct xs as [|f xs]; [by exists h|]. rewrite bool_decide_false by done.
  erewrite bind_ok by apply get_ok. erewrite bind_ok by by apply list_begin_ok.
  destruct (list_reverse_loop _ _ _ Hd) as (h1 & E & Hr).
  erewrite bind_ok by exact E. clear E.
  destruct (last_Some_cons f xs) as [b Hb].
  exists (reverse_ends l f b h1). split; [|by eapply reverse_ends_dlist].
  pose proof (dl_nodup _ _ _ Hd) as Hdup. unfold full in Hdup.
  apply NoDup_cons in Hdup as [Hl (_ & Ht & _)%NoDup_app].
  assert (l ∉ f :: xs) as Hl1 by set_solver.
  assert (list_tail_addr l ∉ f :: xs) as Ht1 by (intros H; apply (Ht _ H); left).
  destruct (reversing_links _ _ _ _ Hr Hl1) as [Enl _].
  destruct (reversing_links _ _ _ _ Hr Ht1) as [_ Ept].
  destruct (dlist_begin_link _ _ _ Hd) as [Nl Pf]. destruct (dlist_end_link _ _ _ Hd) as [Nb Pt].
  assert (before_in l (f :: xs) = b) as Eb.
  { pose proof (last_full_pre l (f :: xs)) as H. rewrite last_cons_cons in H. congruence. }
  rewrite Eb in *. simpl in Nl, Pf. rewrite Nl in Enl. rewrite Pt in Ept.
  erewrite bind_ok by by apply swap_ends_ok.
  destruct Hr as (_ & Hsw & _). destruct (Hsw f) as [Enf _]; [left|].
  destruct (Hsw b) as [_ Epb]; [by apply last_elem|]. rewrite Pf in Enf. rewrite Nb in Epb.
  assert (list_tail_addr l ≠ l) by (unfold list_tail_addr; lia).
  assert (f ≠ l) by set_solver. pose proof (last_elem _ _ Hb).
  assert (b ≠ list_tail_addr l) by (intros ->; done).
  erewrite bind_ok by (apply (get_next_ok _ _ b); links).
  erewrite bind_ok by (apply (get_prev_ok _ _ f); links).
  apply swap_outer_ok; links.
Qed.

(** ** Runs *)
Section sorting.
Context (less : Z → Z → bool).

Abbreviation sortedb := (sortedb less).
Abbreviation take_run := (take_run less).
Abbreviation merge := (merge less).
Abbreviation nruns := (nruns less).

(** Walk from [x] while [stop] does not hold, towards the element after [seg]. *)
Lemma is_sorted_ok h l pre seg post :
  dlist h l (pre ++ seg ++ post) →
  is_sorted less (after_in l (seg ++ post)) (after_in l post) h = Ok (sortedb seg, h).
Proof.
  intros Hd. unfold is_sorted. rewrite (after_in_eq _ _ _ _ _ Hd).
  destruct seg as [|x seg]; [done|]. rewrite bool_decide_false by done.
  erewrite bind_ok by apply get_ok.
  edestruct (loopM_rule (λ n a h', h' = h ∧ ∃ pre' y seg', pre' ++ y :: seg' ++ post = pre ++ (x :: seg) ++ post ∧
    a = y ∧ sortedb (x :: seg) = sortedb (y :: seg') ∧ n = length seg')
    (λ r h', h' = h ∧ r = sortedb (x :: seg))) as (r & h' & E & -> & ->); [| | |exact E].
  - intros n a h' (-> & pre' & y & seg' & Eq & -> & Hs & ->). rewrite <-Eq in Hd.
    erewrite bind_ok by by eapply list_next_ok.
    replace (pre' ++ y :: seg' ++ post) with ((pre' ++ [y]) ++ seg' ++ post) in *
      by by rewrite <-app_assoc.
    rewrite (after_in_eq _ _ _ _ _ Hd). destruct seg' as [|z seg'].
    { eexists (inr _), _. by rewrite Hs. }
    rewrite bool_decide_false by done. erewrite bind_ok by by eapply list_prev_after.
    rewrite last_app_cons. rewrite Hs. simpl. destruct (less z y).
    { by eexists (inr _), _. }
    eexists (inl _), _. split; [done|]. exists (length seg'). split; [simpl; lia|].
    split; [done|]. by exists (pre' ++ [y]), z, seg'.
  - split; [done|]. by exists pre, x, seg.
  - pose proof (walk_fuel_enough _ _ _ Hd) as H. rewrite !length_app in H. simpl in H.
    unfold walk_fuel. lia.
Qed.

Lemma take_run_app x ys : (take_run x ys).1 ++ (take_run x ys).2 = ys.
Proof.
  revert x; induction ys as [|y ys IH]; intros x; [done|]. simpl.
  destruct (less y x); [done|]. specialize (IH y). destruct (take_run y ys); simpl in *. by f_equal.
Qed.

Lemma take_run_sorted x ys : sortedb (x :: (take_run x ys).1) = true.
Proof.
  revert x; induction ys as [|y ys IH]; intros x; [done|]. simpl.
  destruct (less y x) eqn:E; [done|]. specialize (IH y).
  destruct (take_run y ys); simpl in *. by rewrite E.
Qed.

Lemma take_run_nruns x ys : nruns (x :: ys) = S (nruns (take_run x ys).2).
Proof.
  revert x; induction ys as [|y ys IH]; intros x; [done|].
  change (nruns (x :: y :: ys)) with ((if less y x then 1 else 0) + nruns (y :: ys))%nat.
  cbn [KListOrder.take_run]. destruct (less y x); [done|].
  rewrite IH. by destruct (take_run y ys).
Qed.

Lemma find_end_of_run_ok h l pre x ys :
  dlist h l (pre ++ x :: ys) →
  find_end_of_run less x (list_tail_addr l) h = Ok (after_in l (take_run x ys).2, h).
Proof.
  intros Hd. unfold find_end_of_run.
  erewrite bind_ok.
  2: { apply assert_ok, negb_true_iff, Z.eqb_neq. eapply dlist_nonnull; [done|]. rewrite full_split; set_solver. }
  erewrite bind_ok.
  2: { apply assert_ok, negb_true_iff, Z.eqb_neq. eapply dlist_nonnull; [done|]. apply elem_of_full. auto. }
  erewrite bind_ok.
  2: { apply assert_ok, negb_true_iff. exact (after_in_end _ _ _ (x :: ys) Hd). }
  erewrite bind_ok by apply get_ok.
  edestruct (loopM_rule (λ n a h', h' = h ∧ ∃ pre' ys', pre' ++ a :: ys' = pre ++ x :: ys ∧
    (take_run x ys).2 = (take_run a ys').2 ∧ n = length ys')
    (λ r h', h' = h ∧ r = after_in l (take_run x ys).2)) as (r & h' & E & -> & ->); [| | |exact E].
  - intros n a h' (-> & pre' & ys' & Eq & Hs & ->). rewrite <-Eq in Hd.
    erewrite bind_ok by by eapply list_next_ok.
    replace (pre' ++ a :: ys') with ((pre' ++ [a]) ++ ys') in * by by rewrite <-app_assoc.
    rewrite (after_in_end _ _ _ _ Hd). destruct ys' as [|y ys'].
    { eexists (inr _), _. by rewrite Hs. }
    rewrite bool_decide_false by done. erewrite bind_ok by by eapply list_prev_after.
    rewrite last_app_cons. simpl in *. destruct (less y a).
    { eexists (inr _), _. by rewrite Hs. }
    eexists (inl _), _. split; [done|]. exists (length ys'). split; [simpl; lia|].
    split; [done|]. exists (pre' ++ [a]), ys'. rewrite Hs. by destruct (take_run y ys').
  - split; [done|]. by exists pre, ys.
  - pose proof (walk_fuel_enough _ _ _ Hd) as H. rewrite !length_app in H. simpl in H.
    unfold walk_fuel. lia.
Qed.

Lemma nruns_app xs ys : (nruns (xs ++ ys) ≤ nruns xs + nruns ys)%nat.
Proof.
  induction xs as [|x [|x' xs] IH]; [done|destruct ys; simpl; [|destruct (less _ _)]; lia|].
  change (nruns ((x :: x' :: xs) ++ ys)) with ((if less x' x then 1 else 0) + nruns ((x' :: xs) ++ ys))%nat.
  change (nruns (x :: x' :: xs)) with ((if less x' x then 1 else 0) + nruns (x' :: xs))%nat.
  lia.
Qed.

Lemma sortedb_nruns xs : sortedb xs = true ↔ (nruns xs ≤ 1)%nat.
Proof.
  induction xs as [|x [|y xs] IH]; [split; simpl; auto with lia..|].
  change (nruns (x :: y :: xs)) with ((if less y x then 1 else 0) + nruns (y :: xs))%nat.
  change (sortedb (x :: y :: xs)) with (negb (less y x) && sortedb (y :: xs)).
  rewrite andb_true_iff, IH, negb_true_iff. destruct (less y x); [|intuition lia].
  split; [intuition done|]. pose proof (take_run_nruns y xs). lia.
Qed.

Lemma merge_nil_r xs : merge xs [] = xs.
Proof. by destruct xs. Qed.

Lemma merge_cons x xs y ys :
  merge (x :: xs) (y :: ys) =
  if less y x then y :: merge (x :: xs) ys else x :: merge xs (y :: ys).
Proof. done. Qed.

Lemma merge_perm xs ys : merge xs ys ≡ₚ xs ++ ys.
Proof.
  revert ys. induction xs as [|x xs IHx]; intros ys; [by destruct ys|].
  induction ys as [|y ys IHy]; [by rewrite merge_nil_r, app_nil_r|].
  rewrite merge_cons. destruct (less y x).
  - rewrite IHy. by rewrite <-(Permutation_middle (x :: xs) ys y).
  - rewrite IHx. done.
Qed.

(** Merging keeps runs sorted as soon as [less] is asymmetric. *)
Context (less_asym : ∀ a b, less a b = true → less b a = false).

Lemma merge_sorted_aux xs ys z :
  sortedb (z :: xs) = true → sortedb (z :: ys) = true → sortedb (z :: merge xs ys) = true.
Proof.
  revert ys z. induction xs as [|x xs IHx]; intros ys z; [by destruct ys|].
  revert z. induction ys as [|y ys IHy]; intros z; [done|]. rewrite merge_cons.
  change (sortedb (z :: x :: xs)) with (negb (less x z) && sortedb (x :: xs)).
  change (sortedb (z :: y :: ys)) with (negb (less y z) && sortedb (y :: ys)).
  rewrite !andb_true_iff, !negb_true_iff. intros [Hx Hxs] [Hy Hys].
  destruct (less y x) eqn:E.
  - change (negb (less y z) && sortedb (y :: merge (x :: xs) ys) = true).
    rewrite Hy. apply IHy; [|done].
    change (negb (less x y) && sortedb (x :: xs) = true). by rewrite (less_asym _ _ E).
  - change (negb (less x z) && sortedb (x :: merge xs (y :: ys)) = true).
    rewrite Hx. apply IHx; [done|].
    change (negb (less y x) && sortedb (y :: ys) = true). by rewrite E.
Qed.

Lemma merge_sorted xs ys :
  sortedb xs = true → sortedb ys = true → sortedb (merge xs ys) = true.
Proof.
  destruct xs as [|x xs]; [by destruct ys|]. destruct ys as [|y ys]; [done|]. intros Hx Hy.
  rewrite merge_cons. destruct (less y x) eqn:E.
  - apply merge_sorted_aux; [|done].
    change (negb (less x y) && sortedb (x :: xs) = true). by rewrite (less_asym _ _ E).
  - apply merge_sorted_aux; [done|].
    change (negb (less y x) && sortedb (y :: ys) = true). by rewrite E.
Qed.

(** Merging is stable if [less] is a strict weak order: of elements that tie,
    those of the first run come first. *)
Context (less_ntrans : ∀ a b c, less a b = false → less b c = false → less a c = false).

Lemma less_below a b c : less a b = true → less c b = false → less a c = true.
Proof. intros H1 H2. destruct (less a c) eqn:E; [done|]. pose proof (less_ntrans _ _ _ E H2). congruence. Qed.

Definition ties (z x : Z) : Prop := less x z = false ∧ less z x = false.

(** The same elements, those that tie in the same order. *)
Definition rearranged (ys xs : list Z) : Prop := ys ≡ₚ xs ∧ ∀ z, filter (ties z) ys = filter (ties z) xs.

#[export] Instance rearranged_preorder : PreOrder rearranged.
Proof. split; [by split|]. intros xs ys zs [P1 F1] [P2 F2]. split; [by rewrite P1|]. intros z. by rewrite F1. Qed.

Lemma sortedb_tail_least x xs a : sortedb (x :: xs) = true → a ∈ x :: xs → less a x = false.
Proof.
  revert x. induction xs as [|y xs IH]; intros x Hs.
  { intros ->%list_elem_of_singleton. destruct (less x x) eqn:E; [|done]. pose proof (less_asym _ _ E). congruence. }
  change (negb (less y x) && sortedb (y :: xs) = true) in Hs. apply andb_true_iff in Hs as [Hy Hs]. apply negb_true_iff in Hy.
  intros [->|Ha]%elem_of_cons.
  - destruct (less x x) eqn:E; [|done]. pose proof (less_asym _ _ E). congruence.
  - destruct (less a x) eqn:E; [|done]. pose proof (less_below _ _ _ E Hy). specialize (IH y Hs Ha). congruence.
Qed.

(** An element below all of a run ties with none of those that another ties with. *)
Lemma filter_below z y xs : ties z y → (∀ x, x ∈ xs → less y x = true) → filter (ties z) xs = [].
Proof.
  intros [H1 H2] Hx. induction xs as [|x xs IH]; [done|]. rewrite filter_cons_False; [apply IH; intros; apply Hx; by right|].
  intros [H3 H4]. specialize (Hx x ltac:(left)). pose proof (less_below _ _ _ Hx H4). congruence.
Qed.

Lemma merge_filter z xs ys : sortedb xs = true → filter (ties z) (merge xs ys) = filter (ties z) xs ++ filter (ties z) ys.
Proof.
  revert ys. induction xs as [|x xs IHx]; intros ys Hs; [by destruct ys|].
  induction ys as [|y ys IHy]; [by rewrite merge_nil_r, app_nil_r|]. rewrite merge_cons. destruct (less y x) eqn:E.
  - destruct (decide (ties z y)) as [Hz|Hz].
    + rewrite !(filter_cons_True _ y) by done. rewrite IHy. rewrite (filter_below z y (x :: xs)); [done|done|].
      intros a Ha. by eapply less_below; [exact E|eapply sortedb_tail_least].
    + rewrite !(filter_cons_False _ y) by done. apply IHy.
  - assert (sortedb xs = true) as Hs' by (destruct xs; [done|]; by apply andb_true_iff in Hs as [_ ?]).
    destruct (decide (ties z x)) as [Hz|Hz].
    + rewrite !(filter_cons_True _ x) by done. by rewrite IHx.
    + rewrite !(filter_cons_False _ x) by done. by apply IHx.
Qed.

Lemma merge_rearranged pre xs ys post : sortedb xs = true →
  rearranged (pre ++ merge xs ys ++ post) (pre ++ xs ++ ys ++ post).
Proof.
  intros Hs. split; [by rewrite merge_perm, <-app_assoc|]. intros z. rewrite !filter_app, merge_filter by done. by rewrite <-app_assoc.
Qed.

(** ** The heap merge *)

Lemma neg_eqb_nonnull h l xs a : dlist h l xs → a ∈ full l xs → negb (a =? NULL) = true.
Proof. intros Hd Ha. apply negb_true_iff, Z.eqb_neq. by eapply dlist_nonnull. Qed.

Lemma after_in_full l pre post : after_in l post ∈ full l (pre ++ post).
Proof. rewrite full_app, elem_of_app. right. apply after_in_elem. Qed.

Lemma size_same_outside D (h h' : heap) : same_outside D h h' → size h' = size h.
Proof. intros [E _]. by rewrite <-!size_dom, E. Qed.

Lemma full_perm l xs ys : xs ≡ₚ ys → full l xs ⊆ full l ys.
Proof. intros E a. by rewrite !elem_of_full, E. Qed.

Lemma merge_state_perm pre out A A' B B' post :
  out ++ merge A' B' = merge A B →
  (pre ++ out) ++ A' ++ B' ++ post ≡ₚ pre ++ A ++ B ++ post.
Proof.
  intros E. rewrite <-app_assoc, (app_assoc A' B'), (app_assoc A B), (app_assoc out).
  by rewrite <-(merge_perm A' B'), E, merge_perm.
Qed.

Lemma inplace_merge_step h l done a A b B post :
  dlist h l (done ++ (a :: A) ++ (b :: B) ++ post) →
  ∃ h', (a1b0' ← list_next b;
         p ← list_prev a1b0';
         list_splice a p a1b0';;
         mret (inl (a, a1b0') : (Z * Z) + unit)) h = Ok (inl (a, after_in l (B ++ post)), h') ∧
    dlist h' l ((done ++ [b]) ++ (a :: A) ++ B ++ post) ∧
    same_outside (full l (done ++ (a :: A) ++ (b :: B) ++ post)) h h'.
Proof.
  intros Hd.
  assert (∀ X, done ++ (a :: A) ++ (b :: B) ++ X = (done ++ a :: A) ++ b :: (B ++ X)) as Ex
    by (intros; by rewrite <-!app_assoc).
  erewrite bind_ok by (rewrite Ex in Hd; by eapply list_next_ok).
  erewrite bind_ok.
  2: { eapply (list_prev_after _ _ ((done ++ a :: A) ++ [b])).
       rewrite <-app_assoc. simpl. by rewrite <-Ex. }
  rewrite last_app_cons.
  destruct (list_splice_dlist h l done a A b [] (B ++ post) Hd) as (h' & E & Hd' & Ho).
  exists h'. erewrite bind_ok by exact E. split_and!; [done| |done].
  rewrite <-app_assoc. exact Hd'.
Qed.

Lemma inplace_merge_dlist h l pre A B post :
  dlist h l (pre ++ A ++ B ++ post) → sortedb A = true → sortedb B = true →
  ∃ h', inplace_merge less (after_in l (A ++ B ++ post)) (after_in l (B ++ post)) (after_in l post) h
          = Ok (tt, h') ∧
    dlist h' l (pre ++ merge A B ++ post) ∧
    same_outside (full l (pre ++ A ++ B ++ post)) h h'.
Proof.
  intros Hd HA HB. unfold inplace_merge.
  erewrite bind_ok by (eapply assert_ok, neg_eqb_nonnull; [done|apply after_in_full]).
  erewrite bind_ok.
  2: { eapply assert_ok, neg_eqb_nonnull; [done|]. rewrite app_assoc. apply after_in_full. }
  erewrite bind_ok.
  2: { eapply assert_ok, neg_eqb_nonnull; [done|]. rewrite !app_assoc. apply after_in_full. }
  erewrite bind_ok by (apply assertM_ok; rewrite <-HA; by eapply is_sorted_ok).
  erewrite bind_ok.
  2: { apply assertM_ok. rewrite <-HB. eapply (is_sorted_ok _ _ (pre ++ A)). by rewrite <-app_assoc. }
  erewrite bind_ok by apply get_ok.
  set (D := full l (pre ++ A ++ B ++ post)).
  edestruct (loopM_rule (λ n '(a0, a1b0) h', ∃ out A' B',
      dlist h' l ((pre ++ out) ++ A' ++ B' ++ post) ∧ same_outside D h h' ∧
      a0 = after_in l (A' ++ B' ++ post) ∧ a1b0 = after_in l (B' ++ post) ∧
      out ++ merge A' B' = merge A B ∧ n = (length A' + length B')%nat)
    (λ _ : unit, λ h', dlist h' l (pre ++ merge A B ++ post) ∧ same_outside D h h'))
    as ([] & h' & E & Q); [| | |by exists h'].
  - intros n [a0 a1b0] h' (out & A' & B' & Hd' & Ho & -> & -> & Em & ->).
    rewrite (after_in_eq h' l (pre ++ out) A' (B' ++ post) Hd').
    rewrite app_assoc in Hd'. rewrite (after_in_eq _ _ _ B' post Hd'). rewrite <-app_assoc in Hd'.
    destruct A' as [|a A'], B' as [|b B'].
    1-3: eexists (inr tt), h'; split; [done|]; split; [|done];
         rewrite <-Em, <-app_assoc; rewrite <-app_assoc in Hd'; simpl in *; rewrite ?merge_nil_r, ?app_nil_r in *; done.
    rewrite !bool_decide_false by done. simpl (negb false && negb false). cbv iota.
    change (after_in l ((b :: B') ++ post)) with b. change (after_in l ((a :: A') ++ (b :: B') ++ post)) with a.
    rewrite merge_cons in Em. destruct (less b a) eqn:El; simpl (negb _); cbv iota.
    + destruct (inplace_merge_step _ _ _ _ _ _ _ _ Hd') as (h2 & E2 & Hd2 & Ho2).
      eexists (inl _), h2. split; [exact E2|]. exists (length (a :: A') + length B')%nat.
      split; [simpl; lia|]. exists (out ++ [b]), (a :: A'), B'. rewrite (app_assoc pre).
      split_and!; try done; [|by rewrite <-app_assoc].
      eapply same_outside_trans; [done|]. eapply same_outside_mono; [done|].
      apply full_perm, merge_state_perm. by rewrite <-Em, merge_cons, El.
    + erewrite bind_ok by by eapply (list_next_ok _ _ (pre ++ out)).
      eexists (inl _), h'. split; [done|]. exists (length A' + length (b :: B'))%nat.
      split; [simpl; lia|]. exists (out ++ [a]), A', (b :: B').
      split_and!; try done; [|by rewrite <-app_assoc].
      rewrite (app_assoc pre), <-(app_assoc (pre ++ out)). exact Hd'.
  - exists [], A, B. rewrite app_nil_r. split_and!; try done.
  - pose proof (walk_fuel_enough _ _ _ Hd) as H. rewrite !length_app in H. unfold walk_fuel. lia.
Qed.

(** ** One pass, and the whole sort *)

Lemma list_sort_pass_dlist h l xs :
  dlist h l xs → Z.of_nat (length xs) < 2 ^ 32 →
  ∃ k h' ys, list_sort_pass less l h = Ok (Z.of_nat k, h') ∧
    dlist h' l ys ∧ rearranged ys xs ∧ same_outside (full l xs) h h' ∧
    (nruns ys ≤ k)%nat ∧ (2 * k ≤ nruns xs + 1)%nat.
Proof.
  intros Hd Hlen. unfold list_sort_pass. erewrite bind_ok by apply get_ok.
  erewrite bind_ok by by apply list_begin_ok.
  edestruct (loopM_rule (λ n '(a0, cnt) h', ∃ k out rest,
      dlist h' l (out ++ rest) ∧ rearranged (out ++ rest) xs ∧ same_outside (full l xs) h h' ∧
      a0 = after_in l rest ∧ cnt = Z.of_nat k ∧ (nruns out ≤ k)%nat ∧
      (2 * k + nruns rest ≤ nruns xs)%nat ∧ (k + length rest ≤ length xs)%nat ∧ n = length rest)
    (λ cnt h', ∃ k ys, cnt = Z.of_nat k ∧ dlist h' l ys ∧ rearranged ys xs ∧
      same_outside (full l xs) h h' ∧ (nruns ys ≤ k)%nat ∧ (2 * k ≤ nruns xs + 1)%nat))
    as (cnt & h' & E & k & ys & -> & Q); [| | |exists k, h', ys; by split].
  - intros n [a0 cnt] h' (k & out & rest & Hd' & Hp & Ho & -> & -> & Hk & Hr & Hkl & ->).
    erewrite bind_ok by by eapply list_end_ok. rewrite (after_in_end _ _ _ _ Hd').
    destruct rest as [|x rest].
    { eexists (inr _), h'. split; [done|]. rewrite app_nil_r in *. exists k, out. split_and!; try done. simpl in Hr. lia. }
    rewrite bool_decide_false by done. change (after_in l (x :: rest)) with x.
    erewrite bind_ok by by eapply list_end_ok.
    erewrite bind_ok by by eapply find_end_of_run_ok.
    erewrite bind_ok by by eapply list_end_ok.
    pose proof (take_run_app x rest) as Ea. pose proof (take_run_sorted x rest) as Sa.
    rewrite (take_run_nruns x rest) in Hr. destruct (take_run x rest) as [a rest1]; cbn [fst snd] in *. subst rest.
    cbn [length] in Hkl.
    assert (u32 (Z.of_nat k + 1) = Z.of_nat (S k)) as -> by (unfold u32; rewrite Z.mod_small; lia).
    assert (dlist h' l ((out ++ x :: a) ++ rest1)) as Hd1 by by rewrite <-app_assoc.
    rewrite (after_in_end _ _ _ _ Hd1). destruct rest1 as [|y rest1].
    { eexists (inr _), h'. split; [done|]. rewrite !app_nil_r in *. exists (S k), (out ++ x :: a).
      pose proof (nruns_app out (x :: a)). apply sortedb_nruns in Sa. simpl in Hr.
      split_and!; try done; lia. }
    rewrite bool_decide_false by done. change (after_in l (y :: rest1)) with y.
    erewrite bind_ok by by eapply list_end_ok.
    erewrite bind_ok by by eapply find_end_of_run_ok.
    pose proof (take_run_app y rest1) as Eb. pose proof (take_run_sorted y rest1) as Sb.
    rewrite (take_run_nruns y rest1) in Hr. destruct (take_run y rest1) as [b rest2]; cbn [fst snd] in *. subst rest1.
    rewrite <-app_assoc in Hd1.
    destruct (inplace_merge_dlist h' l out (x :: a) (y :: b) rest2 Hd1 Sa Sb) as (h2 & E2 & Hd2 & Ho2).
    erewrite bind_ok by exact E2. eexists (inl _), h2. split; [done|].
    exists (length rest2). split; [simpl; rewrite length_app; simpl; rewrite length_app; lia|].
    exists (S k), (out ++ merge (x :: a) (y :: b)), rest2. rewrite <-app_assoc.
    pose proof (nruns_app out (merge (x :: a) (y :: b))).
    pose proof (merge_sorted _ _ Sa Sb) as Sm. apply sortedb_nruns in Sm.
    split_and!; try done; try lia.
    + etrans; [by apply merge_rearranged|done].
    + eapply same_outside_trans; [done|]. eapply same_outside_mono; [done|]. apply full_perm. by rewrite <-(proj1 Hp).
    + rewrite !length_app in Hkl. simpl in Hkl. rewrite length_app in Hkl. lia.
  - exists 0%nat, [], xs. split_and!; try done.
  - pose proof (walk_fuel_enough _ _ _ Hd). unfold walk_fuel. lia.
Qed.

Lemma list_sort_dlist h l xs :
  dlist h l xs → Z.of_nat (length xs) < 2 ^ 32 →
  ∃ h' ys, list_sort less l h = Ok (tt, h') ∧ dlist h' l ys ∧ rearranged ys xs ∧
    sortedb ys = true ∧ same_outside (full l xs) h h'.
Proof.
  intros Hd Hlen. unfold list_sort.
  erewrite bind_ok by by eapply assert_ok, list_nonnull. erewrite bind_ok by apply get_ok.
  edestruct (loopM_rule (λ n (_ : unit) h', ∃ ys, dlist h' l ys ∧ rearranged ys xs ∧
      same_outside (full l xs) h h' ∧ n = nruns ys)
    (λ _ : unit, λ h', ∃ ys, dlist h' l ys ∧ rearranged ys xs ∧ same_outside (full l xs) h h' ∧
      sortedb ys = true)) as ([] & h' & E & ys & Hd' & Hp & Ho & Hs).
  4: { erewrite bind_ok by exact E. erewrite bind_ok by by apply list_begin_ok.
       erewrite bind_ok by by eapply list_end_ok. exists h', ys. split_and!; try done.
       apply assertM_ok. rewrite <-Hs.
       pose proof (is_sorted_ok h' l [] ys []) as H. rewrite app_nil_r in H. by apply H. }
  - intros n [] h' (ys & Hd' & Hp & Ho & ->).
    destruct (list_sort_pass_dlist h' l ys Hd') as (k & h2 & zs & E & Hd2 & Hp2 & Ho2 & Hz & Hk).
    { by rewrite (proj1 Hp). }
    erewrite bind_ok by exact E.
    assert (same_outside (full l xs) h h2).
    { eapply same_outside_trans; [done|]. eapply same_outside_mono; [done|]. apply full_perm, Hp. }
    assert (rearranged zs xs) by by etrans.
    destruct (Z.of_nat k >? 1) eqn:Ek; rewrite Z.gtb_ltb in Ek.
    + eexists (inl _), h2. split; [done|]. exists (nruns zs). apply Z.ltb_lt in Ek.
      split; [lia|]. by exists zs.
    + eexists (inr _), h2. split; [done|]. exists zs. split_and!; try done.
      apply sortedb_nruns. apply Z.ltb_ge in Ek. lia.
  - by exists xs.
  - assert (nruns xs ≤ length xs)%nat.
    { clear. induction xs as [|x [|y xs] IH]; [done..|].
      change (nruns (x :: y :: xs)) with ((if less y x then 1 else 0) + nruns (y :: xs))%nat.
      simpl in *. destruct (less y x); lia. }
    pose proof (walk_fuel_enough _ _ _ Hd). unfold walk_fuel. lia.
Qed.

Lemma list_insert_ordered_dlist h l xs x :
  dlist h l xs → x ∉ full l xs → x ≠ NULL → is_Some (h !! x) →
  ∃ h', list_insert_ordered less l x h = Ok (tt, h') ∧
    dlist h' l (insert_sorted less x xs) ∧ same_outside (x :: full l xs) h h'.
Proof.
  intros Hd Hx Hx0 Hsx. unfold list_insert_ordered.
  erewrite bind_ok by by eapply assert_ok, list_nonnull.
  erewrite bind_ok by by apply assert_ok, negb_true_iff, Z.eqb_neq.
  erewrite bind_ok by apply get_ok. erewrite bind_ok by by apply list_begin_ok.
  edestruct (loopM_rule (λ n e h', h' = h ∧ ∃ pre post, xs = pre ++ post ∧ e = after_in l post ∧
      insert_sorted less x xs = pre ++ insert_sorted less x post ∧ n = length post)
    (λ e h', h' = h ∧ ∃ pre post, xs = pre ++ post ∧ e = after_in l post ∧
      insert_sorted less x xs = pre ++ x :: post)) as (e & h' & E & -> & pre & post & Exs & -> & Ei).
  4: { erewrite bind_ok by exact E. rewrite Ei. subst xs. by apply list_insert_dlist. }
  - intros n e h' (-> & pre & post & -> & -> & Ei & ->).
    erewrite bind_ok by by eapply list_end_ok. rewrite (after_in_end _ _ _ _ Hd).
    destruct post as [|y post].
    { eexists (inr _), h. split; [done|]. split; [done|]. by exists pre, []. }
    rewrite bool_decide_false by done. change (after_in l (y :: post)) with y. simpl in Ei.
    destruct (less x y).
    { eexists (inr _), h. split; [done|]. split; [done|]. by exists pre, (y :: post). }
    erewrite bind_ok by by eapply list_next_ok. eexists (inl _), h. split; [done|].
    exists (length post). split; [simpl; lia|]. split; [done|].
    exists (pre ++ [y]), post. by rewrite <-!app_assoc.
  - split; [done|]. by exists [], xs.
  - pose proof (walk_fuel_enough _ _ _ Hd). unfold walk_fuel. lia.
Qed.

Lemma insert_sorted_sorted x xs :
  sortedb xs = true → sortedb (insert_sorted less x xs) = true.
Proof.
  intros Hs.
  assert (∀ z ys, sortedb (z :: ys) = true → less x z = false →
    sortedb (z :: insert_sorted less x ys) = true) as Haux.
  { intros z ys; revert z. induction ys as [|y ys IH]; intros z; [simpl; by intros _ ->|].
    change (sortedb (z :: y :: ys)) with (negb (less y z) && sortedb (y :: ys)).
    rewrite andb_true_iff. intros [Hy Hs'] Hx. simpl insert_sorted. destruct (less x y) eqn:E.
    - change (negb (less x z) && (negb (less y x) && sortedb (y :: ys)) = true).
      by rewrite Hx, (less_asym _ _ E), Hs'.
    - change (negb (less y z) && sortedb (y :: insert_sorted less x ys) = true).
      rewrite Hy. by apply IH. }
  destruct xs as [|y xs]; [done|]. simpl insert_sorted. destruct (less x y) eqn:E; [|by apply Haux].
  change (negb (less y x) && sortedb (y :: xs) = true). by rewrite (less_asym _ _ E), Hs.
Qed.

End sorting.
