(* ===== verification/KListSpec.v ===== *)
(** * What list.c promises

    The properties of the kernel list, each with a concrete list on which
    its hypotheses hold: insertion, removal and splicing edit the sequence
    at one place and leave every other element of the heap alone, the queue
    operations are first-in first-out, [list_reverse] reverses, [list_sort]
    sorts, [list_unique] splits the adjacent equals off, [list_max] finds
    the first maximum. *)

From S2P Require Import Prelude KList KListOrder.
From Stdlib Require Import Sorted.

(** ** Pure counterpart of [list_max] *)
Definition max_of (less : Z → Z → bool) (m : Z) (ys : list Z) : Z :=
  fold_left (λ m e, if less m e then e else m) ys m.

(** A heap with an empty list at 100, an empty list at 200 and four loose
    elements, and the list 100 filled with the elements 3, 5, 4, 6. *)
Definition demo_heap : heap :=
  list_to_map (map (λ a, (a, mk_elem 0 0)) [100; 108; 200; 208; 3; 5; 4; 6]).
Definition demo_run (m : ST heap unit) : heap :=
  match m demo_heap with Ok (_, h) => h | Err _ => ∅ end.
Definition demo_empty : heap := demo_run (list_init 100;; list_init 200).
Definition demo_full : heap :=
  demo_run (list_init 100;; list_init 200;; list_push_back 100 3;; list_push_back 100 5;;
            list_push_back 100 4;; list_push_back 100 6).
(** Compare addresses by their halves, so that 4 and 5 are equal. *)
Definition demo_less (a b : Z) : bool := (a / 2) <? (b / 2).

(** Decide [dlist] on a concrete heap. *)
Ltac demo_dlist :=
  split; [vm_compute; repeat split|by apply (bool_decide_unpack _); vm_compute
         |reflexivity|reflexivity|by apply (bool_decide_unpack _); vm_compute].

(** ** Queue operations *)

Lemma dlist_frame D h h' l xs :
  dlist h l xs → same_outside D h h' → (∀ a, a ∈ full l xs → a ∉ D) → dlist h' l xs.
Proof.
  intros [Hc Hd Hh Ht Hn] [_ Ho] HD.
  assert (∀ a, a ∈ full l xs → nxt h' a = nxt h a ∧ prv h' a = prv h a) as Heq.
  { intros a Ha. unfold nxt, prv. by rewrite (Ho a (HD a Ha)). }
  split; try done.
  - eapply chain_frame; [done|intros a Ha%elem_of_removelast|intros a Ha%elem_of_tl]; by apply Heq.
  - destruct (Heq l) as [_ ->]; [left|done].
  - destruct (Heq (list_tail_addr l)) as [-> _]; [apply elem_of_full; auto|done].
Qed.

Lemma list_push_back_dlist h l xs x :
  dlist h l xs → x ∉ full l xs → x ≠ NULL → is_Some (h !! x) →
  ∃ h', list_push_back l x h = Ok (tt, h') ∧ dlist h' l (xs ++ [x]) ∧
    same_outside (x :: full l xs) h h'.
Proof.
  intros Hd Hx Hx0 Hsx. unfold list_push_back.
  erewrite bind_ok by by eapply list_end_ok.
  destruct (list_insert_dlist h l xs [] x) as (h' & E & Hd' & Ho); rewrite ?app_nil_r in *; eauto.
Qed.

Lemma list_push_front_dlist h l xs x :
  dlist h l xs → x ∉ full l xs → x ≠ NULL → is_Some (h !! x) →
  ∃ h', list_push_front l x h = Ok (tt, h') ∧ dlist h' l (x :: xs) ∧
    same_outside (x :: full l xs) h h'.
Proof.
  intros Hd Hx Hx0 Hsx. unfold list_push_front.
  erewrite bind_ok by by eapply list_begin_ok. by apply (list_insert_dlist h l [] xs x).
Qed.

Lemma list_pop_front_dlist h l x xs :
  dlist h l (x :: xs) →
  ∃ h', list_pop_front l h = Ok (x, h') ∧ dlist h' l xs ∧ same_outside (full l xs) h h'.
Proof.
  intros Hd. unfold list_pop_front, list_front.
  destruct (list_remove_dlist h l [] x xs Hd) as (h' & E & Hd' & Ho).
  exists h'. split_and!; [|done..].
  erewrite bind_ok.
  - erewrite bind_ok by exact E. done.
  - erewrite bind_ok by by apply list_empty_ok. rewrite bool_decide_false by done.
    erewrite bind_ok by by apply assert_ok. apply get_next_ok. apply (dlist_begin_link _ _ _ Hd).
Qed.

Lemma list_pop_back_dlist h l xs x :
  dlist h l (xs ++ [x]) →
  ∃ h', list_pop_back l h = Ok (x, h') ∧ dlist h' l xs ∧ same_outside (full l xs) h h'.
Proof.
  intros Hd. unfold list_pop_back, list_back.
  destruct (list_remove_dlist h l xs x [] Hd) as (h' & E & Hd' & Ho). rewrite app_nil_r in *.
  exists h'. split_and!; [|done..].
  erewrite bind_ok.
  - erewrite bind_ok by exact E. done.
  - erewrite bind_ok by by apply list_empty_ok. rewrite bool_decide_false by by destruct xs.
    erewrite bind_ok by by apply assert_ok. apply get_prev_ok.
    destruct (dlist_end_link _ _ _ Hd) as [_ H]. by rewrite last_app_cons in H.
Qed.

(** ** Unique *)

Definition disjoint_lists (l1 : Z) (xs1 : list Z) (l2 : Z) (xs2 : list Z) : Prop :=
  ∀ a, a ∈ full l1 xs1 → a ∉ full l2 xs2.

(** Moving [x] from the list [l] to the end of the list [d]. *)
Lemma move_to_duplicates (e : Z) h l pre x post d ds :
  dlist h l (pre ++ x :: post) → dlist h d ds → disjoint_lists l (pre ++ x :: post) d ds →
  ∃ h', (list_remove x;;
         (if negb (d =? NULL) then list_push_back d x else mret tt);;
         mret (inl e : Z + unit)) h = Ok (inl e, h') ∧
    dlist h' l (pre ++ post) ∧ dlist h' d (ds ++ [x]) ∧
    disjoint_lists l (pre ++ post) d (ds ++ [x]) ∧ dom h' = dom h.
Proof.
  intros Hl Hdd Hdis.
  destruct (list_remove_dlist _ _ _ _ _ Hl) as (h1 & E1 & Hl1 & Ho1).
  assert (∀ a, a ∈ full l (pre ++ post) → a ∈ full l (pre ++ x :: post) ∧ a ≠ x) as Hsub.
  { pose proof (dl_nodup _ _ _ Hl) as Hn. apply nodup_split in Hn as (_ & Hx1 & Hx2 & _).
    intros a. rewrite full_app, full_split. set_solver. }
  assert (x ∈ full l (pre ++ x :: post)) as Hxm by (rewrite full_split; set_solver).
  assert (dlist h1 d ds) as Hd1.
  { eapply dlist_frame; [done..|]. intros a Ha Hb. by apply (Hdis a); [apply Hsub|]. }
  destruct (list_push_back_dlist h1 d ds x) as (h2 & E2 & Hd2 & Ho2);
    [done|by apply Hdis|by apply (dlist_nonnull _ _ _ _ Hl)| |].
  { rewrite <-elem_of_dom, (proj1 Ho1), elem_of_dom. by apply (dlist_mem _ _ _ _ Hl). }
  exists h2. erewrite bind_ok by exact E1. rewrite (list_nonnull _ _ _ Hdd).
  erewrite bind_ok by exact E2. split_and!; [done| |done| |].
  - eapply dlist_frame; [exact Hl1|exact Ho2|]. intros a Ha [->|Hb]%elem_of_cons; [by apply Hsub in Ha as [_ ?]|].
    by apply (Hdis a); [apply Hsub|].
  - intros a Ha. rewrite elem_of_full, elem_of_app, list_elem_of_singleton.
    destruct (Hsub a Ha) as [Ha' Hne]. specialize (Hdis a Ha'). rewrite elem_of_full in Hdis. tauto.
  - by rewrite (proj1 Ho2), (proj1 Ho1).
Qed.

Lemma uniq_app less x ys : (uniq less x ys).1 ++ (uniq less x ys).2 ≡ₚ x :: ys.
Proof.
  revert x; induction ys as [|y ys IH]; intros x; [done|]. simpl.
  destruct (_ && _).
  - specialize (IH x). destruct (uniq less x ys) as [u d]; simpl in *.
    rewrite <-Permutation_middle, IH. constructor.
  - specialize (IH y). destruct (uniq less y ys) as [u d]; simpl in *. by rewrite IH.
Qed.

(** The loop of [list_unique] with a list of duplicates. *)
Lemma list_unique_loop less h l d xs ds x ys :
  xs = x :: ys → dlist h l xs → dlist h d ds → disjoint_lists l xs d ds →
  ∃ h', loopM (walk_fuel h) (λ elem,
      next ← list_next elem; en ← list_end l;
      if next =? en then mret (inr tt)
      else if negb (less elem next) && negb (less next elem) then
        list_remove next;;
        (if negb (d =? NULL) then list_push_back d next else mret tt);;
        mret (inl elem)
      else mret (inl next)) x h = Ok (tt, h') ∧
    dlist h' l (uniq less x ys).1 ∧ dlist h' d (ds ++ (uniq less x ys).2).
Proof.
  intros Exs Hl Hd Hdis.
  edestruct (loopM_rule (λ n e h', ∃ pre post dd,
      dlist h' l (pre ++ e :: post) ∧ dlist h' d (ds ++ dd) ∧
      disjoint_lists l (pre ++ e :: post) d (ds ++ dd) ∧
      (uniq less x ys).1 = pre ++ (uniq less e post).1 ∧
      (uniq less x ys).2 = dd ++ (uniq less e post).2 ∧ n = length post)
    (λ _ : unit, λ h', dlist h' l (uniq less x ys).1 ∧ dlist h' d (ds ++ (uniq less x ys).2)))
    as ([] & h' & E & Q); [| | |exists h'; split; [exact E|exact Q]].
  - intros n e h' (pre & post & dd & Hl' & Hd' & Hdis' & E1 & E2 & ->).
    erewrite bind_ok by by eapply list_next_ok. erewrite bind_ok by by eapply list_end_ok.
    pose proof Hl' as Hl2. replace (pre ++ e :: post) with ((pre ++ [e]) ++ post) in Hl2 by by rewrite <-app_assoc.
    rewrite (after_in_end _ _ _ _ Hl2). destruct post as [|y post].
    { eexists (inr tt), h'. split; [done|]. simpl in *. rewrite E1, E2, app_nil_r. done. }
    rewrite bool_decide_false by done. change (after_in l (y :: post)) with y. simpl in E1, E2.
    destruct (_ && _).
    + rewrite <-app_assoc in Hl2.
      replace (pre ++ e :: y :: post) with ((pre ++ [e]) ++ y :: post) in Hdis' by by rewrite <-app_assoc.
      rewrite app_assoc in Hl2.
      destruct (move_to_duplicates e _ _ _ _ _ _ _ Hl2 Hd' Hdis') as (h2 & Em & Hl3 & Hd3 & Hdis3 & _).
      eexists (inl _), h2. split; [exact Em|]. exists (length post). split; [simpl; lia|].
      rewrite <-app_assoc in Hl3, Hdis3, Hd3. rewrite <-app_assoc in Hdis3.
      exists pre, post, (dd ++ [y]). destruct (uniq less e post) as [u' d']; simpl in *.
      rewrite <-app_assoc. split_and!; done.
    + eexists (inl _), h'. split; [done|]. exists (length post). split; [simpl; lia|].
      exists (pre ++ [e]), post, dd. destruct (uniq less y post) as [u' d']; simpl in *.
      rewrite <-!app_assoc. split_and!; done.
  - exists [], ys, []. rewrite app_nil_r. subst xs. split_and!; done.
  - pose proof (walk_fuel_enough _ _ _ Hl) as H. subst xs. simpl in H. unfold walk_fuel. lia.
Qed.

(** ** Maximum *)

Lemma list_max_dlist less h l xs :
  dlist h l xs →
  list_max less l h =
  Ok (match xs with [] => list_tail_addr l | x :: ys => max_of less x ys end, h).
Proof.
  intros Hd. unfold list_max. erewrite bind_ok by apply get_ok.
  erewrite bind_ok by by apply list_begin_ok. erewrite bind_ok by by eapply list_end_ok.
  rewrite (after_in_end h l [] xs Hd). destruct xs as [|x ys]; [done|].
  rewrite bool_decide_false by done. change (after_in l (x :: ys)) with x.
  erewrite bind_ok by by eapply (list_next_ok _ _ []).
  edestruct (loopM_rule (λ n '(m, e) h', h' = h ∧ ∃ pre post, x :: ys = pre ++ post ∧
      e = after_in l post ∧ max_of less m post = max_of less x ys ∧ n = length post)
    (λ m h', h' = h ∧ m = max_of less x ys)) as (m & h' & E & -> & ->); [| | |exact E].
  - intros n [m e] h' (-> & pre & post & Exs & -> & Em & ->). rewrite Exs in Hd.
    erewrite bind_ok by by eapply list_end_ok. rewrite (after_in_end _ _ _ _ Hd).
    destruct post as [|y post]; [by eexists (inr _), h|].
    rewrite bool_decide_false by done. erewrite bind_ok by by eapply list_next_ok.
    eexists (inl _), h. split; [done|]. exists (length post). split; [simpl; lia|].
    split; [done|]. exists (pre ++ [y]), post. by rewrite <-app_assoc.
  - split; [done|]. by exists [x], ys.
  - pose proof (walk_fuel_enough _ _ _ Hd) as H. simpl in H. unfold walk_fuel. lia.
Qed.

(** [m] is the first maximum of [P]: larger than all before, not smaller than any after. *)
Definition first_max (less : Z → Z → bool) (P : list Z) (m : Z) : Prop :=
  ∃ pre post, P = pre ++ m :: post ∧
    (∀ y, y ∈ pre → less y m = true) ∧ (∀ y, y ∈ post → less m y = false).

Section strict_weak_order.
Context (less : Z → Z → bool).
Context (less_asym : ∀ a b, less a b = true → less b a = false).
Context (less_ntrans : ∀ a b c, less a b = false → less b c = false → less a c = false).

Lemma less_trans a b c : less a b = true → less b c = true → less a c = true.
Proof.
  intros Hab Hbc. apply not_false_iff_true. intros Hac.
  pose proof (less_ntrans a c b Hac (less_asym _ _ Hbc)). congruence.
Qed.

Lemma first_max_step P m e :
  first_max less P m → first_max less (P ++ [e]) (if less m e then e else m).
Proof.
  intros (pre & post & -> & H1 & H2). destruct (less m e) eqn:E.
  - exists (pre ++ m :: post), []. split_and!; [done| |by intros y ?%elem_of_nil].
    intros y [Hy|[->|Hy]%elem_of_cons]%elem_of_app; [by eapply less_trans; eauto|done|].
    apply not_false_iff_true. intros Hye. specialize (H2 y Hy).
    pose proof (less_ntrans _ _ _ H2 Hye). congruence.
  - exists pre, (post ++ [e]). rewrite <-app_assoc. split_and!; [done..|].
    intros y [Hy| ->%list_elem_of_singleton]%elem_of_app; auto.
Qed.

Lemma max_of_first P m ys : first_max less P m → first_max less (P ++ ys) (max_of less m ys).
Proof.
  revert P m. induction ys as [|y ys IH]; intros P m H; [by rewrite app_nil_r|].
  change (y :: ys) with ([y] ++ ys). rewrite app_assoc. simpl. by apply IH, first_max_step.
Qed.

Lemma first_max_singleton m : first_max less [m] m.
Proof. exists [], []. split_and!; [done|by intros ? ?%elem_of_nil..]. Qed.

Lemma sortedb_StronglySorted xs :
  sortedb less xs = true → StronglySorted (λ a b, less b a = false) xs.
Proof.
  intros Hs. apply Sorted_StronglySorted; [intros a b c ??; eauto|].
  induction xs as [|x [|y xs] IH]; [constructor|by repeat constructor|].
  change (negb (less y x) && sortedb less (y :: xs) = true) in Hs.
  apply andb_true_iff in Hs as [Hxy Hs]. apply negb_true_iff in Hxy.
  constructor; [by apply IH|]. by constructor.
Qed.

Lemma insert_sorted_split x xs :
  StronglySorted (λ a b, less b a = false) xs →
  ∃ pre post, xs = pre ++ post ∧ insert_sorted less x xs = pre ++ x :: post ∧
    (∀ y, y ∈ pre → less x y = false) ∧ (∀ y, y ∈ post → less x y = true).
Proof.
  induction 1 as [|y ys Hs IH Hy].
  { exists [], []. split_and!; [done..| |]; by intros ? ?%elem_of_nil. }
  simpl. destruct (less x y) eqn:E.
  - exists [], (y :: ys). split_and!; [done..|by intros ? ?%elem_of_nil|].
    intros z [->|Hz]%elem_of_cons; [done|]. apply not_false_iff_true. intros Hxz.
    rewrite Forall_forall in Hy. pose proof (less_ntrans _ _ _ Hxz (Hy z Hz)).
    congruence.
  - destruct IH as (pre & post & -> & -> & H1 & H2). exists (y :: pre), post.
    split_and!; [done..| |done]. intros z [->|Hz]%elem_of_cons; auto.
Qed.

(** ** Properties *)

(** C24: [list_sort] sorts in place.  For every well-formed list and every
    comparison function that is a strict weak order, it returns without a
    failed assertion and leaves a well-formed list that holds the same
    elements, none of which is less than an earlier one; elements of which none
    is less than the other keep their order; and every element of the heap
    outside the list is untouched. *)
Theorem list_sort_correct h l xs :
  dlist h l xs → Z.of_nat (length xs) < 2 ^ 32 →
  ∃ h' ys, list_sort less l h = Ok (tt, h') ∧ dlist h' l ys ∧ ys ≡ₚ xs ∧
    StronglySorted (λ a b, less b a = false) ys ∧
    (∀ z, filter (λ x, less x z = false ∧ less z x = false) ys = filter (λ x, less x z = false ∧ less z x = false) xs) ∧
    same_outside (full l xs) h h'.
Proof.
  intros Hd Hl. destruct (list_sort_dlist less less_asym less_ntrans h l xs Hd Hl) as (h' & ys & ? & ? & [? ?] & ? & ?).
  exists h', ys. split_and!; auto using sortedb_StronglySorted.
Qed.

(** [list_max] returns the first largest element: every element before
    it is less than it, it is less than no element after it. *)
Theorem list_max_correct h l x ys :
  dlist h l (x :: ys) →
  ∃ m, list_max less l h = Ok (m, h) ∧ first_max less (x :: ys) m.
Proof.
  intros Hd. exists (max_of less x ys). split; [by apply (list_max_dlist _ _ _ _ Hd)|].
  apply (max_of_first [x]), first_max_singleton.
Qed.

(** [list_insert_ordered] puts the new element into a sorted list so
    that it stays sorted, after every element it is not less than. *)
Theorem list_insert_ordered_correct h l xs x :
  dlist h l xs → StronglySorted (λ a b, less b a = false) xs →
  x ∉ full l xs → x ≠ NULL → is_Some (h !! x) →
  ∃ h' pre post, list_insert_ordered less l x h = Ok (tt, h') ∧ xs = pre ++ post ∧
    dlist h' l (pre ++ x :: post) ∧ same_outside (x :: full l xs) h h' ∧
    (∀ y, y ∈ pre → less x y = false) ∧ (∀ y, y ∈ post → less x y = true).
Proof.
  intros Hd Hs Hx Hx0 Hsx. destruct (insert_sorted_split x xs Hs) as (pre & post & E & Ei & H1 & H2).
  destruct (list_insert_ordered_dlist less h l xs x Hd Hx Hx0 Hsx) as (h' & Er & Hd' & Ho).
  rewrite Ei in Hd'. exists h', pre, post. split_and!; done.
Qed.
End strict_weak_order.

(** [list_insert] puts a fresh element between any two neighbours of a
    list and changes nothing outside the list, and [list_remove] of that
    element returns its successor and gives the original list back. *)
Theorem list_insert_remove_correct h l pre post x :
  dlist h l (pre ++ post) → x ∉ full l (pre ++ post) → x ≠ NULL → is_Some (h !! x) →
  ∃ h', list_insert (after_in l post) x h = Ok (tt, h') ∧
    dlist h' l (pre ++ x :: post) ∧ same_outside (x :: full l (pre ++ post)) h h' ∧
    ∃ h'', list_remove x h' = Ok (after_in l post, h'') ∧
      dlist h'' l (pre ++ post) ∧ same_outside (x :: full l (pre ++ post)) h h''.
Proof.
  intros Hd Hx Hx0 Hsx.
  destruct (list_insert_dlist h l pre post x Hd Hx Hx0 Hsx) as (h' & E & Hd' & Ho).
  destruct (list_remove_dlist h' l pre x post Hd') as (h'' & E' & Hd'' & Ho').
  exists h'. split_and!; [done..|]. exists h''. split_and!; [done..|].
  eapply same_outside_trans; [done|]. eapply same_outside_mono; [done|]. set_solver.
Qed.

(** [list_splice] moves a whole range of a list in front of an earlier
    element, keeping the order inside the range and the rest of the list. *)
Theorem list_splice_correct h l pre b mid f seg post :
  dlist h l (pre ++ (b :: mid) ++ (f :: seg) ++ post) →
  ∃ h', list_splice b f (after_in l post) h = Ok (tt, h') ∧
    dlist h' l (pre ++ (f :: seg) ++ (b :: mid) ++ post) ∧
    same_outside (full l (pre ++ (b :: mid) ++ (f :: seg) ++ post)) h h'.
Proof. apply list_splice_dlist. Qed.

(** The kernel list is a first-in first-out queue: an element pushed at
    the back of a non-empty list leaves the front unchanged, which
    [list_pop_front] removes and returns; [list_size] counts the elements. *)
Theorem list_fifo h l x xs y :
  dlist h l (x :: xs) → y ∉ full l (x :: xs) → y ≠ NULL → is_Some (h !! y) →
  Z.of_nat (length xs) < 2 ^ 32 - 2 →
  ∃ h' h'', list_push_back l y h = Ok (tt, h') ∧
    list_size l h' = Ok (Z.of_nat (length xs) + 2, h') ∧
    list_pop_front l h' = Ok (x, h'') ∧ dlist h'' l (xs ++ [y]).
Proof.
  intros Hd Hy Hy0 Hsy Hlen. destruct (list_push_back_dlist h l (x :: xs) y Hd Hy Hy0 Hsy) as (h' & E & Hd' & _).
  destruct (list_pop_front_dlist h' l x (xs ++ [y]) Hd') as (h'' & E' & Hd'' & _).
  exists h', h''. split_and!; [done| |done|done].
  rewrite (list_size_ok _ _ _ Hd'); simpl; rewrite length_app; simpl; [do 2 f_equal|]; lia.
Qed.

(** [list_reverse] reverses the list in place, so that applying it twice
    restores the order. *)
Theorem list_reverse_correct h l xs :
  dlist h l xs →
  ∃ h' h'', list_reverse l h = Ok (tt, h') ∧ dlist h' l (reverse xs) ∧
    list_reverse l h' = Ok (tt, h'') ∧ dlist h'' l xs.
Proof.
  intros Hd. destruct (list_reverse_dlist h l xs Hd) as (h' & E & Hd').
  destruct (list_reverse_dlist h' l _ Hd') as (h'' & E' & Hd''). rewrite reverse_involutive in Hd''.
  by exists h', h''.
Qed.

(** [list_unique] keeps the first element of every group of adjacent
    equal elements and appends the others, in order, to [duplicates]. *)
Theorem list_unique_correct less h l x ys d ds :
  dlist h l (x :: ys) → dlist h d ds → disjoint_lists l (x :: ys) d ds →
  ∃ h', list_unique less l d h = Ok (tt, h') ∧
    dlist h' l (uniq less x ys).1 ∧ dlist h' d (ds ++ (uniq less x ys).2) ∧
    (uniq less x ys).1 ++ (uniq less x ys).2 ≡ₚ x :: ys.
Proof.
  intros Hl Hd Hdis. destruct (list_unique_loop less h l d _ ds x ys eq_refl Hl Hd Hdis) as (h' & E & H1 & H2).
  exists h'. split_and!; [|done|done|apply uniq_app]. unfold list_unique.
  erewrite bind_ok by by eapply assert_ok, list_nonnull.
  erewrite bind_ok by by apply list_empty_ok. rewrite bool_decide_false by done.
  erewrite bind_ok by apply get_ok. erewrite bind_ok by by apply list_begin_ok. exact E.
Qed.

(** ** Witnesses *)

Lemma demo_full_dlist : dlist demo_full 100 [3; 5; 4; 6].
Proof. demo_dlist. Qed.

Lemma demo_full_dup : dlist demo_full 200 [].
Proof. demo_dlist. Qed.

Lemma demo_empty_dlist : dlist demo_empty 100 [].
Proof. demo_dlist. Qed.

Lemma demo_less_asym a b : demo_less a b = true → demo_less b a = false.
Proof. unfold demo_less. rewrite Z.ltb_lt, Z.ltb_ge. lia. Qed.

Lemma demo_less_ntrans a b c :
  demo_less a b = false → demo_less b c = false → demo_less a c = false.
Proof. unfold demo_less. rewrite !Z.ltb_ge. lia. Qed.

Lemma list_sort_correct_witness :
  ∃ h' ys, list_sort demo_less 100 demo_full = Ok (tt, h') ∧ dlist h' 100 ys ∧
    ys ≡ₚ [3; 5; 4; 6] ∧ filter (λ x, demo_less x 4 = false ∧ demo_less 4 x = false) ys = [5; 4].
Proof.
  destruct (list_sort_correct demo_less demo_less_asym demo_less_ntrans demo_full 100 [3; 5; 4; 6]
              demo_full_dlist) as (h' & ys & E & Hd & Hp & _ & Hf & _); [simpl; lia|].
  exists h', ys. split; [exact E|]. split; [exact Hd|]. split; [exact Hp|]. rewrite Hf. vm_compute. reflexivity.
Defined.

Lemma list_max_correct_witness : first_max demo_less [3; 5; 4; 6] 6 ∧ list_max demo_less 100 demo_full = Ok (6, demo_full).
Proof.
  destruct (list_max_correct demo_less demo_less_asym demo_less_ntrans demo_full 100 3 [5; 4; 6]
              demo_full_dlist) as (m & E & H).
  assert (m = 6) as -> by (vm_compute in E; congruence). done.
Defined.

Lemma list_insert_ordered_correct_witness :
  ∃ h', list_insert_ordered demo_less 100 6 demo_empty = Ok (tt, h').
Proof.
  destruct (list_insert_ordered_correct demo_less demo_less_ntrans demo_empty 100 [] 6
    demo_empty_dlist) as (h' & _ & _ & E & _); [constructor| |done|vm_compute; eauto|eauto].
  by apply (bool_decide_unpack _); vm_compute.
Defined.

Lemma list_insert_remove_correct_witness :
  ∃ h', list_insert 108 6 demo_empty = Ok (tt, h') ∧ dlist h' 100 [6].
Proof.
  destruct (list_insert_remove_correct demo_empty 100 [] [] 6 demo_empty_dlist)
    as (h' & E & H & _); [|done|vm_compute; eauto|exists h'; split; [exact E|exact H]].
  by apply (bool_decide_unpack _); vm_compute.
Defined.

Lemma list_splice_correct_witness :
  ∃ h', list_splice 5 4 108 demo_full = Ok (tt, h') ∧ dlist h' 100 [3; 4; 6; 5].
Proof.
  destruct (list_splice_correct demo_full 100 [3] 5 [] 4 [6] [] demo_full_dlist) as (h' & E & H & _).
  exists h'. split; [exact E|exact H].
Defined.

Lemma list_fifo_witness :
  ∃ h' h'', list_push_back 100 200 demo_full = Ok (tt, h') ∧ list_pop_front 100 h' = Ok (3, h'').
Proof.
  destruct (list_fifo demo_full 100 3 [5; 4; 6] 200 demo_full_dlist) as (h' & h'' & ? & _ & ? & _);
    [by apply (bool_decide_unpack _); vm_compute|done|vm_compute; eauto|simpl; lia|eauto].
Defined.

Lemma list_reverse_correct_witness :
  ∃ h', list_reverse 100 demo_full = Ok (tt, h') ∧ dlist h' 100 [6; 4; 5; 3].
Proof.
  destruct (list_reverse_correct demo_full 100 _ demo_full_dlist) as (h' & _ & E & H & _).
  exists h'. split; [exact E|exact H].
Defined.

Lemma list_unique_correct_witness :
  ∃ h', list_unique demo_less 100 200 demo_full = Ok (tt, h') ∧
    dlist h' 100 [3; 5; 6] ∧ dlist h' 200 [4].
Proof.
  destruct (list_unique_correct demo_less demo_full 100 3 [5; 4; 6] 200 [] demo_full_dlist demo_full_dup)
    as (h' & E & H1 & H2 & _); [|exists h'; split_and!; [exact E|exact H1|exact H2]].
  intros a Ha. unfold full in *. set_solver by (vm_compute; congruence).
Defined.

(** ** A race

    [list_insert] in two parts, as a thread that is preempted after its first
    store executes it. *)

Definition insert_begin (before elem : Z) : ST heap unit :=
  assertM (orM (is_interior before) (is_tail before));;
  assert (negb (elem =? NULL));;
  p ← get_prev before; set_prev elem p.
Definition insert_end (before elem : Z) : ST heap unit :=
  set_next elem before;;
  p ← get_prev before; set_next p elem;;
  set_prev before elem.

Lemma insert_in_parts before elem h : list_insert before elem h = (insert_begin before elem;; insert_end before elem) h.
Proof. unfold list_insert, insert_begin, insert_end, mbind, st_bind. repeat (case_match; simplify_eq; try done). Qed.

Definition forward (l : Z) (n : nat) : ST heap (list Z) :=
  e ← list_begin l;
  loopM n (λ '(e, seen), en ← list_end l; if e =? en then mret (inr seen) else e' ← get_next e; mret (inl (e', seen ++ [e]))) (e, []).
Definition walk (l : Z) (n : nat) (h : heap) : option (list Z) :=
  match forward l n h with Ok (r, _) => Some r | Err _ => None end.

(** Two insertions at the end of a list overlap: all elements are found at
    first, but when the first of the new ones is removed, the other is lost. *)
Example all_list_race : ∀ h, list_push_back 100 3 demo_empty = Ok (tt, h) →
  ∃ h1 h2, (insert_begin 108 4;; list_push_back 100 5;; insert_end 108 4) h = Ok (tt, h1) ∧
    walk 100 9 h1 = Some [3; 5; 4] ∧
    list_remove 4 h1 = Ok (108, h2) ∧ walk 100 9 h2 = Some [3].
Proof. intros h E. vm_compute in E. injection E as <-. eexists _, _. vm_compute. done. Qed.
