(* ===== verification/Bitmap.v ===== *)
(** * Bitmaps: lib/kernel/bitmap.c

    A bitmap is an array of 32-bit elements that simulates an array of
    bits.  [bit b i] is the bit numbered [i]; the theorems describe every
    operation by what it does to these bits, so that the page allocator and
    the free map can be verified without looking at elements and masks. *)

From S2P Require Import Prelude.

(** ** Data *)

Definition ELEM_BITS : Z := 32.
Definition SIZE_MAX : Z := 2 ^ 32 - 1.
Definition BITMAP_ERROR : Z := SIZE_MAX.

Record bitmap := mk_bitmap {
  bit_cnt : Z;        (* Number of bits. *)
  bits : list Z       (* Elements that represent bits. *)
}.

(** ** Helpers *)

Definition elem_idx (bit_idx : Z) : Z := bit_idx / ELEM_BITS.
Definition bit_mask (bit_idx : Z) : Z := u32 (Z.shiftl 1 (bit_idx mod ELEM_BITS)).
Definition elem_cnt (bit_cnt : Z) : Z := u32 (u32 (bit_cnt + ELEM_BITS) - 1) / ELEM_BITS.
Definition byte_cnt (bit_cnt : Z) : Z := u32 (4 * elem_cnt bit_cnt).
Definition last_mask (b : bitmap) : Z :=
  let last_bits := bit_cnt b mod ELEM_BITS in
  if negb (last_bits =? 0) then u32 (u32 (Z.shiftl 1 last_bits) - 1) else u32 (-1).

(** [b->bits[idx]]: reading and updating one element. *)
Definition elem_get (b : bitmap) (idx : Z) : result Z :=
  match bits b !! Z.to_nat idx with Some w => Ok w | None => Err BadAccess end.
Definition elem_upd (b : bitmap) (idx : Z) (f : Z → Z) : result bitmap :=
  w ← elem_get b idx;
  Ok (mk_bitmap (bit_cnt b) (<[Z.to_nat idx := f w]> (bits b))).

(** ** Setting and testing single bits *)

Definition bitmap_size (b : bitmap) : Z := bit_cnt b.

Definition bitmap_mark (b : bitmap) (bit_idx : Z) : result bitmap :=
  let idx := elem_idx bit_idx in let mask := bit_mask bit_idx in
  elem_upd b idx (λ w, Z.lor w mask).

Definition bitmap_reset (b : bitmap) (bit_idx : Z) : result bitmap :=
  let idx := elem_idx bit_idx in let mask := bit_mask bit_idx in
  elem_upd b idx (λ w, Z.land w (u32 (Z.lnot mask))).

Definition bitmap_flip (b : bitmap) (bit_idx : Z) : result bitmap :=
  let idx := elem_idx bit_idx in let mask := bit_mask bit_idx in
  elem_upd b idx (λ w, Z.lxor w mask).

Definition bitmap_set (b : bitmap) (idx : Z) (value : bool) : result bitmap :=
  ASSERT (idx <? bit_cnt b);;
  if value then bitmap_mark b idx else bitmap_reset b idx.

Definition bitmap_test (b : bitmap) (idx : Z) : result bool :=
  ASSERT (idx <? bit_cnt b);;
  w ← elem_get b (elem_idx idx);
  Ok (negb (Z.land w (bit_mask idx) =? 0)).

(** ** Setting and testing multiple bits *)

Definition bitmap_set_multiple (b : bitmap) (start cnt : Z) (value : bool) : result bitmap :=
  ASSERT (start <=? bit_cnt b);;
  ASSERT (u32 (start + cnt) <=? bit_cnt b);;
  loop (S (Z.to_nat cnt)) (λ '(i, b),
    if i <? cnt then
      b' ← bitmap_set b (u32 (start + i)) value; Ok (inl (u32 (i + 1), b'))
    else Ok (inr b)) (0, b).

Definition bitmap_set_all (b : bitmap) (value : bool) : result bitmap :=
  bitmap_set_multiple b 0 (bitmap_size b) value.

Definition bitmap_count (b : bitmap) (start cnt : Z) (value : bool) : result Z :=
  ASSERT (start <=? bit_cnt b);;
  ASSERT (u32 (start + cnt) <=? bit_cnt b);;
  loop (S (Z.to_nat cnt)) (λ '(i, value_cnt),
    if i <? cnt then
      t ← bitmap_test b (u32 (start + i));
      Ok (inl (u32 (i + 1), if Bool.eqb t value then u32 (value_cnt + 1) else value_cnt))
    else Ok (inr value_cnt)) (0, 0).

Definition bitmap_contains (b : bitmap) (start cnt : Z) (value : bool) : result bool :=
  ASSERT (start <=? bit_cnt b);;
  ASSERT (u32 (start + cnt) <=? bit_cnt b);;
  loop (S (Z.to_nat cnt)) (λ i,
    if i <? cnt then
      t ← bitmap_test b (u32 (start + i));
      if Bool.eqb t value then Ok (inr true) else Ok (inl (u32 (i + 1)))
    else Ok (inr false)) 0.

Definition bitmap_any (b : bitmap) (start cnt : Z) : result bool :=
  bitmap_contains b start cnt true.

Definition bitmap_none (b : bitmap) (start cnt : Z) : result bool :=
  c ← bitmap_contains b start cnt true; Ok (negb c).

Definition bitmap_all (b : bitmap) (start cnt : Z) : result bool :=
  c ← bitmap_contains b start cnt false; Ok (negb c).

(** ** Finding set or unset bits *)

Definition bitmap_scan (b : bitmap) (start cnt : Z) (value : bool) : result Z :=
  ASSERT (start <=? bit_cnt b);;
  if cnt <=? bit_cnt b then
    let last := bit_cnt b - cnt in
    loop (S (S (Z.to_nat last))) (λ i,
      if i <=? last then
        c ← bitmap_contains b i cnt (negb value);
        if negb c then Ok (inr i) else Ok (inl (u32 (i + 1)))
      else Ok (inr BITMAP_ERROR)) start
  else Ok BITMAP_ERROR.

Definition bitmap_scan_and_flip (b : bitmap) (start cnt : Z) (value : bool)
    : result (Z * bitmap) :=
  idx ← bitmap_scan b start cnt value;
  if negb (idx =? BITMAP_ERROR) then
    b' ← bitmap_set_multiple b idx cnt (negb value); Ok (idx, b')
  else Ok (idx, b).

(** ** Creation

    [malloc] of the bitmap structure and of its elements is the caller's
    allocator: it is given by whether the first call succeeds and by the
    uninitialised elements the second one returns. *)

Definition bitmap_create (malloc_b : bool) (malloc_bits : option (list Z)) (bit_cnt : Z)
    : result (option bitmap) :=
  if malloc_b then
    match malloc_bits with
    | Some junk => b ← bitmap_set_all (mk_bitmap bit_cnt junk) false; Ok (Some b)
    | None =>
        if bit_cnt =? 0
        then b ← bitmap_set_all (mk_bitmap bit_cnt []) false; Ok (Some b)
        else Ok None
    end
  else Ok None.

Definition bitmap_buf_size (bit_cnt : Z) : Z := u32 (8 + byte_cnt bit_cnt).

(** [junk] is what the elements of the preallocated block hold. *)
Definition bitmap_create_in_buf (bit_cnt : Z) (junk : list Z) (block_size : Z) : result bitmap :=
  ASSERT (bitmap_buf_size bit_cnt <=? block_size);;
  bitmap_set_all (mk_bitmap bit_cnt junk) false.

Definition bitmap_file_size (b : bitmap) : Z := byte_cnt (bit_cnt b).

(** ** Abstraction *)

Definition bit (b : bitmap) (i : Z) : bool :=
  Z.testbit (bits b !!! Z.to_nat (i / 32)) (i mod 32).

(** [elem_cnt] is exact up to 2^32 - 32 bits; beyond, its sum wraps around. *)
Record wf (b : bitmap) : Prop := {
  wf_cnt : 0 ≤ bit_cnt b ≤ 2 ^ 32 - 32;
  wf_len : Z.of_nat (length (bits b)) = elem_cnt (bit_cnt b);
  wf_words : Forall (λ w, 0 ≤ w < 2 ^ 32) (bits b)
}.

Definition all_bits (b : bitmap) (start cnt : Z) (value : bool) : Prop :=
  ∀ j, start ≤ j < start + cnt → bit b j = value.

(** The bitmap [b'] is [b] with the bits of [start .. start + cnt) set to [value]. *)
Definition bits_set (b b' : bitmap) (start cnt : Z) (value : bool) : Prop :=
  wf b' ∧ bit_cnt b' = bit_cnt b ∧
  ∀ j, 0 ≤ j < bit_cnt b →
    bit b' j = if decide (start ≤ j < start + cnt) then value else bit b j.

(** ** Elements and masks *)

Lemma elem_cnt_exact n : 0 ≤ n ≤ 2 ^ 32 - 32 → elem_cnt n = (n + 31) / 32.
Proof.
  intros H. unfold elem_cnt, u32, ELEM_BITS. f_equal.
  rewrite Zminus_mod_idemp_l. rewrite Z.mod_small; lia.
Qed.

Lemma bit_mask_pow i : bit_mask i = 2 ^ (i mod 32).
Proof.
  unfold bit_mask, u32, ELEM_BITS. rewrite Z.shiftl_1_l. apply Z.mod_small.
  pose proof (Z.mod_pos_bound i 32 ltac:(lia)). split; [apply Z.pow_nonneg; lia|].
  apply Z.pow_lt_mono_r; lia.
Qed.

Lemma mask_testbit i m : 0 ≤ m → Z.testbit (bit_mask i) m = (m =? i mod 32).
Proof.
  intros Hm. rewrite bit_mask_pow, Z.pow2_bits_eqb by (apply Z.mod_pos_bound; lia).
  apply Z.eqb_sym.
Qed.

Lemma word_range_bits w :
  0 ≤ w → (w < 2 ^ 32 ↔ ∀ m, 32 ≤ m → Z.testbit w m = false).
Proof. intros Hw. by rewrite <-Z.bounded_iff_bits_nonneg by lia. Qed.

Lemma elem_in_range b i :
  wf b → 0 ≤ i < bit_cnt b →
  ∃ w, bits b !! Z.to_nat (i / 32) = Some w ∧ 0 ≤ w < 2 ^ 32 ∧
    ∀ j, j / 32 = i / 32 → bit b j = Z.testbit w (j mod 32).
Proof.
  intros [Hc Hl Hw] Hi. rewrite elem_cnt_exact in Hl by lia.
  destruct (lookup_lt_is_Some_2 (bits b) (Z.to_nat (i / 32))) as [w E]; [dlia|].
  exists w. split_and!; [done|by apply (Forall_lookup_1 _ _ _ _ Hw E)..|].
  intros j Hj. unfold bit. by rewrite Hj, (list_lookup_total_correct _ _ _ E).
Qed.

Lemma elem_upd_ok b i (f : Z → Z) (g : bool → bool) :
  wf b → 0 ≤ i < bit_cnt b →
  (∀ w, 0 ≤ w < 2 ^ 32 → 0 ≤ f w < 2 ^ 32) →
  (∀ w m, 0 ≤ m < 32 →
     Z.testbit (f w) m = if m =? i mod 32 then g (Z.testbit w m) else Z.testbit w m) →
  ∃ b', elem_upd b (elem_idx i) f = Ok b' ∧ wf b' ∧ bit_cnt b' = bit_cnt b ∧
    ∀ j, 0 ≤ j → bit b' j = if j =? i then g (bit b j) else bit b j.
Proof.
  intros Hwf Hi Hr Hf. destruct (elem_in_range b i Hwf Hi) as (w & E & Hw & Hb).
  unfold elem_upd, elem_get, elem_idx, ELEM_BITS. rewrite E. eexists. split; [done|]. simpl.
  destruct Hwf as [Hc Hl Hws]. split_and!; [split|done|]; simpl.
  - done.
  - by rewrite length_insert.
  - apply Forall_insert; auto.
  - intros j Hj. unfold bit at 1. simpl.
    pose proof (Z.mod_pos_bound j 32 ltac:(lia)).
    destruct (decide (j / 32 = i / 32)) as [Eq|Ne].
    + rewrite Eq, list_lookup_total_insert_eq by (by eapply lookup_lt_Some).
      rewrite (Hf w (j mod 32)), (Hb j Eq) by lia.
      replace (j mod 32 =? i mod 32) with (j =? i); [done|].
      apply eq_iff_eq_true. rewrite !Z.eqb_eq. split; [by intros ->|].
      dlia.
    + rewrite list_lookup_total_insert_ne.
      2: { intros E2. apply Ne. apply Z2Nat.inj in E2; [lia|apply Z.div_pos; lia..]. }
      destruct (Z.eqb_spec j i) as [->|]; [done|]. done.
Qed.

(** ** Single bits *)

Lemma land_range a b : 0 ≤ a < 2 ^ 32 → 0 ≤ b → 0 ≤ Z.land a b < 2 ^ 32.
Proof.
  intros [Ha Hlt] Hb. split; [apply Z.land_nonneg; auto|].
  rewrite word_range_bits in * by (rewrite ?Z.land_nonneg; auto). intros m Hm.
  by rewrite Z.land_spec, (Hlt m Hm).
Qed.

Lemma lor_range a b : 0 ≤ a < 2 ^ 32 → 0 ≤ b < 2 ^ 32 → 0 ≤ Z.lor a b < 2 ^ 32.
Proof.
  intros [Ha Hla] [Hb Hlb]. split; [by apply Z.lor_nonneg|].
  rewrite word_range_bits in * by (rewrite ?Z.lor_nonneg; auto). intros m Hm.
  by rewrite Z.lor_spec, (Hla m Hm), (Hlb m Hm).
Qed.

Lemma lxor_range a b : 0 ≤ a < 2 ^ 32 → 0 ≤ b < 2 ^ 32 → 0 ≤ Z.lxor a b < 2 ^ 32.
Proof.
  intros [Ha Hla] [Hb Hlb]. assert (0 ≤ Z.lxor a b) by (apply Z.lxor_nonneg; lia).
  split; [done|]. rewrite word_range_bits in * by auto. intros m Hm.
  by rewrite Z.lxor_spec, (Hla m Hm), (Hlb m Hm).
Qed.

Lemma mask_range i : 0 ≤ bit_mask i < 2 ^ 32.
Proof. unfold bit_mask, u32. apply Z.mod_pos_bound. lia. Qed.

Lemma lnot_mask_testbit i m :
  0 ≤ m < 32 → Z.testbit (u32 (Z.lnot (bit_mask i))) m = negb (m =? i mod 32).
Proof.
  intros Hm. unfold u32. rewrite Z.mod_pow2_bits_low by lia.
  by rewrite Z.lnot_spec, mask_testbit by lia.
Qed.

Lemma bitmap_set_ok b i v :
  wf b → 0 ≤ i < bit_cnt b →
  ∃ b', bitmap_set b i v = Ok b' ∧ bits_set b b' i 1 v.
Proof.
  intros Hwf Hi. unfold bitmap_set. rewrite (proj2 (Z.ltb_lt _ _)) by lia. simpl.
  assert (∃ b', (if v then bitmap_mark b i else bitmap_reset b i) = Ok b' ∧ wf b' ∧
    bit_cnt b' = bit_cnt b ∧ ∀ j, 0 ≤ j → bit b' j = if j =? i then v else bit b j)
    as (b' & E & Hw' & Hc' & Hb').
  { destruct v; apply (elem_upd_ok b i _ (λ _, _)); try done.
    - intros w Hw. apply lor_range; [done|apply mask_range].
    - intros w m Hm. rewrite Z.lor_spec, mask_testbit by lia.
      destruct (m =? i mod 32); [apply orb_true_r|apply orb_false_r].
    - intros w Hw. apply land_range; [done|]. apply Z.mod_pos_bound. lia.
    - intros w m Hm. rewrite Z.land_spec, lnot_mask_testbit by lia.
      destruct (m =? i mod 32); [apply andb_false_r|apply andb_true_r]. }
  exists b'. split; [done|]. split_and!; try done. intros j Hj. rewrite Hb' by lia.
  destruct (Z.eqb_spec j i), (decide (i ≤ j < i + 1)); try done; lia.
Qed.

Lemma bitmap_flip_ok b i :
  wf b → 0 ≤ i < bit_cnt b →
  ∃ b', bitmap_flip b i = Ok b' ∧ bits_set b b' i 1 (negb (bit b i)).
Proof.
  intros Hwf Hi. destruct (elem_upd_ok b i (λ w, Z.lxor w (bit_mask i)) negb)
    as (b' & E & Hw' & Hc' & Hb'); try done.
  - intros w Hw. apply lxor_range; [done|apply mask_range].
  - intros w m Hm. rewrite Z.lxor_spec, mask_testbit by lia.
    destruct (m =? i mod 32); [apply xorb_true_r|apply xorb_false_r].
  - exists b'. split; [done|]. split_and!; try done. intros j Hj. rewrite Hb' by lia.
    destruct (Z.eqb_spec j i) as [->|], (decide (_ ≤ _ < _)); try done; lia.
Qed.

Lemma bitmap_test_ok b i : wf b → 0 ≤ i < bit_cnt b → bitmap_test b i = Ok (bit b i).
Proof.
  intros Hwf Hi. destruct (elem_in_range b i Hwf Hi) as (w & E & Hw & Hb).
  unfold bitmap_test, elem_get, elem_idx, ELEM_BITS. rewrite (proj2 (Z.ltb_lt _ _)) by lia.
  simpl. rewrite E. simpl. rewrite (Hb i eq_refl). do 2 f_equal.
  pose proof (Z.mod_pos_bound i 32 ltac:(lia)).
  destruct (Z.eqb_spec (Z.land w (bit_mask i)) 0) as [E0|N0]; symmetry.
  - apply (f_equal (λ z, Z.testbit z (i mod 32))) in E0.
    by rewrite Z.land_spec, mask_testbit, Z.eqb_refl, andb_true_r, Z.bits_0 in E0 by lia.
  - apply not_false_iff_true. intros Hf. apply N0, Z.bits_inj'. intros m Hm.
    rewrite Z.land_spec, mask_testbit, Z.bits_0 by lia.
    destruct (Z.eqb_spec m (i mod 32)) as [->|]; [by rewrite Hf|apply andb_false_r].
Qed.

(** The two range assertions at the entry of the multi-bit operations. *)
Lemma range_asserts {A} b start cnt (k : result A) :
  wf b → 0 ≤ start → 0 ≤ cnt → start + cnt ≤ bit_cnt b →
  (ASSERT (start <=? bit_cnt b);; ASSERT (u32 (start + cnt) <=? bit_cnt b);; k) = k.
Proof.
  intros [Hc _ _] Hs Hn Hle. unfold u32. rewrite Z.mod_small by lia.
  by rewrite !(proj2 (Z.leb_le _ _)) by lia.
Qed.

(** ** Multiple bits *)

Lemma bitmap_set_multiple_ok b start cnt v :
  wf b → 0 ≤ start → 0 ≤ cnt → start + cnt ≤ bit_cnt b →
  ∃ b', bitmap_set_multiple b start cnt v = Ok b' ∧ bits_set b b' start cnt v.
Proof.
  intros Hwf Hs Hn Hle. unfold bitmap_set_multiple. rewrite range_asserts by done.
  pose proof (wf_cnt _ Hwf) as Hc.
  eapply (loop_rule (λ n '(i, b1), 0 ≤ i ≤ cnt ∧ bits_set b b1 start i v ∧ n = Z.to_nat (cnt - i)))
    with (n := Z.to_nat cnt); [|split_and!; try lia; split_and!; try done|lia].
  - intros n [i b1] (Hi & (Hw1 & Hc1 & Hb1) & ->). destruct (Z.ltb_spec i cnt) as [Hlt|Hge].
    + destruct (bitmap_set_ok b1 (start + i) v) as (b2 & E & Hw2 & Hc2 & Hb2); [done|lia|].
      rewrite (u32_small (start + i)), E by lia. simpl. eexists. split; [done|].
      exists (Z.to_nat (cnt - (i + 1))). rewrite u32_small by lia. split; [lia|].
      split_and!; try lia. split_and!; [done|lia|]. intros j Hj. rewrite Hb2, Hb1 by lia.
      repeat case_decide; try done; lia.
    + eexists. split; [done|]. assert (i = cnt) as -> by lia. by split_and!.
  - intros j Hj. case_decide; [lia|done].
Qed.

Lemma bitmap_contains_ok b start cnt v :
  wf b → 0 ≤ start → 0 ≤ cnt → start + cnt ≤ bit_cnt b →
  ∃ r, bitmap_contains b start cnt v = Ok r ∧
    (if r : bool then ∃ j, start ≤ j < start + cnt ∧ bit b j = v
     else all_bits b start cnt (negb v)).
Proof.
  intros Hwf Hs Hn Hle. unfold bitmap_contains. rewrite range_asserts by done.
  pose proof (wf_cnt _ Hwf) as Hc.
  eapply (loop_rule (λ n i, 0 ≤ i ≤ cnt ∧ all_bits b start i (negb v) ∧ n = Z.to_nat (cnt - i)))
    with (n := Z.to_nat cnt); [|split_and!; try lia; intros j ?; lia|lia].
  intros n i (Hi & Hb & ->). destruct (Z.ltb_spec i cnt) as [Hlt|Hge].
  - rewrite (u32_small (start + i)), bitmap_test_ok by (done || lia). simpl.
    destruct (Bool.eqb_spec (bit b (start + i)) v) as [Ev|Nv]; eexists; (split; [done|]).
    + exists (start + i). split; [lia|done].
    + exists (Z.to_nat (cnt - (i + 1))). rewrite u32_small by lia.
      split_and!; try lia. intros j Hj. destruct (decide (j = start + i)) as [->|].
      * destruct (bit b (start + i)), v; done.
      * apply Hb. lia.
  - eexists. split; [done|]. by assert (i = cnt) as -> by lia.
Qed.

(** Every group of [cnt] bits at or after [start] and before [i] has a bit
    that differs from [v]. *)
Definition no_group (b : bitmap) (start i cnt : Z) (v : bool) : Prop :=
  ∀ k, start ≤ k < i → ¬ all_bits b k cnt v.

(** What [bitmap_scan] returns: the first group, or [BITMAP_ERROR]. *)
Definition first_group (b : bitmap) (start cnt : Z) (v : bool) (r : Z) : Prop :=
  (start ≤ r ∧ r + cnt ≤ bit_cnt b ∧ all_bits b r cnt v ∧ no_group b start r cnt v) ∨
  (r = BITMAP_ERROR ∧ no_group b start (bit_cnt b - cnt + 1) cnt v).

Lemma bitmap_scan_ok b start cnt v :
  wf b → 0 ≤ start ≤ bit_cnt b → 0 ≤ cnt →
  ∃ r, bitmap_scan b start cnt v = Ok r ∧ first_group b start cnt v r.
Proof.
  intros Hwf Hs Hn. unfold bitmap_scan. pose proof (wf_cnt _ Hwf) as Hc.
  rewrite (proj2 (Z.leb_le start (bit_cnt b))) by lia. simpl.
  destruct (Z.leb_spec cnt (bit_cnt b)) as [Hle|Hgt].
  2: { eexists. split; [done|]. right. split; [done|]. intros k Hk. lia. }
  eapply (loop_rule (λ n i, start ≤ i ∧ i ≤ Z.max start (bit_cnt b - cnt + 1) ∧
      no_group b start i cnt v ∧ n = Z.to_nat (bit_cnt b - cnt + 1 - i)))
    with (n := Z.to_nat (bit_cnt b - cnt + 1 - start)); [|split_and!; try lia; intros k ?; lia|lia].
  intros n i (Hi & Hmax & Hno & ->). destruct (Z.leb_spec i (bit_cnt b - cnt)) as [Hil|Hig].
  - destruct (bitmap_contains_ok b i cnt (negb v)) as (r & -> & Hr); [done|lia..|]. simpl.
    destruct r; simpl; eexists; (split; [done|]).
    + destruct Hr as (j & Hj & Hbj). exists (Z.to_nat (bit_cnt b - cnt + 1 - (i + 1))).
      rewrite u32_small by lia. split_and!; try lia. intros k Hk.
      destruct (decide (k = i)) as [->|]; [|apply Hno; lia].
      intros Ha. specialize (Ha j Hj). rewrite Hbj in Ha. by destruct v.
    + rewrite negb_involutive in Hr. left. split_and!; try done; lia.
  - eexists. split; [done|]. right. split; [done|]. intros k Hk. apply Hno. lia.
Qed.

Lemma bits_set_all_bits b b' start cnt v :
  0 ≤ start → start + cnt ≤ bit_cnt b → bits_set b b' start cnt v → all_bits b' start cnt v.
Proof.
  intros Hs Hle (_ & _ & Hb) j Hj. rewrite Hb by lia. case_decide; [done|lia].
Qed.

(** Number of bits equal to [v] among the [n] bits from [start]. *)
Fixpoint count_bits (b : bitmap) (start : Z) (n : nat) (v : bool) : Z :=
  match n with
  | O => 0
  | S n => count_bits b start n v + (if Bool.eqb (bit b (start + Z.of_nat n)) v then 1 else 0)
  end.

Lemma count_bits_bound b start n v : 0 ≤ count_bits b start n v ≤ Z.of_nat n.
Proof. induction n as [|n IH]; simpl; [lia|]. destruct (Bool.eqb _ _); lia. Qed.

Lemma bitmap_count_ok b start cnt v :
  wf b → 0 ≤ start → 0 ≤ cnt → start + cnt ≤ bit_cnt b →
  bitmap_count b start cnt v = Ok (count_bits b start (Z.to_nat cnt) v).
Proof.
  intros Hwf Hs Hn Hle. unfold bitmap_count. rewrite range_asserts by done.
  pose proof (wf_cnt _ Hwf) as Hc.
  edestruct (loop_rule (λ n '(i, c), ∃ k, i = Z.of_nat k ∧ (k ≤ Z.to_nat cnt)%nat ∧
      c = count_bits b start k v ∧ n = (Z.to_nat cnt - k)%nat)
    (λ c, c = count_bits b start (Z.to_nat cnt) v)) as (c & E & ->); [| | |exact E].
  - intros n [i c] (k & -> & Hk & -> & ->). destruct (Z.ltb_spec (Z.of_nat k) cnt).
    + rewrite (u32_small (start + _)), bitmap_test_ok by (done || lia). simpl.
      eexists. split; [done|]. simpl. exists (Z.to_nat cnt - S k)%nat. split; [lia|].
      exists (S k). rewrite (u32_small (Z.of_nat k + 1)) by lia. split_and!; try lia.
      simpl. pose proof (count_bits_bound b start k v).
      destruct (Bool.eqb _ _); [rewrite u32_small|]; lia.
    + eexists. split; [done|]. simpl. f_equal. lia.
  - exists 0%nat. split_and!; try done; lia.
  - lia.
Qed.

Lemma bitmap_scan_and_flip_ok b start cnt v :
  wf b → 0 ≤ start ≤ bit_cnt b → 0 ≤ cnt →
  ∃ r b', bitmap_scan_and_flip b start cnt v = Ok (r, b') ∧ first_group b start cnt v r ∧
    (if r =? BITMAP_ERROR then b' = b
     else bits_set b b' r cnt (negb v) ∧ all_bits b' r cnt (negb v)).
Proof.
  intros Hwf Hs Hn. destruct (bitmap_scan_ok b start cnt v Hwf Hs Hn) as (r & E & Hr).
  unfold bitmap_scan_and_flip. rewrite E. simpl. destruct (Z.eqb_spec r BITMAP_ERROR) as [Er|Nr]; simpl.
  { exists r, b. by rewrite (proj2 (Z.eqb_eq _ _) Er). }
  destruct Hr as [Hr|[? _]]; [|done]. pose proof Hr as (H1 & H2 & _).
  destruct (bitmap_set_multiple_ok b r cnt (negb v)) as (b' & E' & Hb'); [done|lia..|].
  rewrite E'. exists r, b'. rewrite (proj2 (Z.eqb_neq _ _) Nr). split_and!; [done|by left|done|].
  eapply bits_set_all_bits; [| |done]; lia.
Qed.

Lemma bitmap_create_in_buf_ok n junk block_size :
  wf (mk_bitmap n junk) → bitmap_buf_size n ≤ block_size →
  ∃ b, bitmap_create_in_buf n junk block_size = Ok b ∧ wf b ∧ bitmap_size b = n ∧
    all_bits b 0 n false ∧ bitmap_count b 0 n false = Ok n.
Proof.
  intros Hwf Hle. unfold bitmap_create_in_buf. rewrite (proj2 (Z.leb_le _ _)) by lia. simpl.
  pose proof (wf_cnt _ Hwf) as Hc. simpl in Hc.
  destruct (bitmap_set_multiple_ok (mk_bitmap n junk) 0 n false) as (b & E & Hb); simpl; [done|lia..|].
  exists b. unfold bitmap_set_all. simpl. split; [done|].
  assert (all_bits b 0 n false) as Ha by (eapply bits_set_all_bits; [| |done]; simpl; lia).
  destruct Hb as (Hw & Hcb & _). simpl in Hcb. split_and!; try done.
  rewrite bitmap_count_ok by (done || lia). f_equal. rewrite <-(Z2Nat.id n) at 2 by lia.
  assert (Z.to_nat n ≤ Z.to_nat n)%nat as Hk by lia. revert Hk. generalize (Z.to_nat n) at 1 3 4 as k.
  induction k as [|k IH]; intros Hk; simpl; [done|]. rewrite IH by lia.
  rewrite Ha by lia. simpl. lia.
Qed.

Lemma bitmap_all_ok b start cnt :
  wf b → 0 ≤ start → 0 ≤ cnt → start + cnt ≤ bit_cnt b →
  ∃ r, bitmap_all b start cnt = Ok r ∧
    (if r : bool then all_bits b start cnt true
     else ∃ j, start ≤ j < start + cnt ∧ bit b j = false).
Proof.
  intros. destruct (bitmap_contains_ok b start cnt false) as (r & E & H'); try done.
  exists (negb r). unfold bitmap_all. rewrite E. split; [done|]. by destruct r.
Qed.

(** ** Properties *)

(** [bitmap_set], [bitmap_flip] and [bitmap_test] implement an array of
    bits: within bounds they succeed, setting or flipping changes exactly the
    named bit, testing returns it; out of bounds [bitmap_set] and
    [bitmap_test] fail their assertion. *)
Theorem bitmap_bit_correct b i v :
  wf b → 0 ≤ i →
  if decide (i < bit_cnt b) then
    (∃ b', bitmap_set b i v = Ok b' ∧ bits_set b b' i 1 v ∧ bitmap_test b' i = Ok v) ∧
    (∃ b', bitmap_flip b i = Ok b' ∧ bits_set b b' i 1 (negb (bit b i)))
  else bitmap_set b i v = Err AssertFail ∧ bitmap_test b i = Err AssertFail.
Proof.
  intros Hwf Hi. case_decide as Hlt.
  - split; [|apply bitmap_flip_ok; lia || done].
    destruct (bitmap_set_ok b i v) as (b' & E & Hs); [done|lia|].
    exists b'. split_and!; [done..|]. pose proof Hs as (Hw & Hc & Hb).
    rewrite bitmap_test_ok by (done || lia). f_equal. rewrite Hb by lia. case_decide; [done|lia].
  - unfold bitmap_set, bitmap_test. by rewrite (proj2 (Z.ltb_ge _ _)) by lia.
Qed.

(** C37: [bitmap_scan] returns the lowest group of [cnt] bits at or after
    [start] that all equal [value], or [BITMAP_ERROR] exactly when there is
    none; it always returns. *)
Theorem bitmap_scan_correct b start cnt v :
  wf b → 0 ≤ start ≤ bit_cnt b → 0 ≤ cnt →
  ∃ r, bitmap_scan b start cnt v = Ok r ∧ first_group b start cnt v r.
Proof. apply bitmap_scan_ok. Qed.

(** [bitmap_scan_and_flip] flips the whole group it returns and no other
    bit, and leaves the bitmap alone when it returns [BITMAP_ERROR]. *)
Theorem bitmap_scan_and_flip_correct b start cnt v :
  wf b → 0 ≤ start ≤ bit_cnt b → 0 ≤ cnt →
  ∃ r b', bitmap_scan_and_flip b start cnt v = Ok (r, b') ∧ first_group b start cnt v r ∧
    (if r =? BITMAP_ERROR then b' = b
     else bits_set b b' r cnt (negb v) ∧ all_bits b' r cnt (negb v)).
Proof. apply bitmap_scan_and_flip_ok. Qed.

(** A bitmap made by [bitmap_create_in_buf] in a large enough buffer has
    the requested size and no bit set, whatever the buffer held before. *)
Theorem bitmap_create_in_buf_correct n junk block_size :
  wf (mk_bitmap n junk) → bitmap_buf_size n ≤ block_size →
  ∃ b, bitmap_create_in_buf n junk block_size = Ok b ∧ wf b ∧ bitmap_size b = n ∧
    all_bits b 0 n false ∧ bitmap_count b 0 n false = Ok n.
Proof. apply bitmap_create_in_buf_ok. Qed.

(** ** Witnesses *)

Definition demo_bitmap : bitmap := mk_bitmap 40 [7; 0].

Lemma demo_wf : wf demo_bitmap.
Proof. split; [simpl; lia|reflexivity|repeat constructor; lia]. Qed.

Lemma bitmap_bit_correct_witness :
  ∃ b', bitmap_set demo_bitmap 39 true = Ok b' ∧ bitmap_test b' 39 = Ok true.
Proof.
  destruct (bitmap_bit_correct demo_bitmap 39 true demo_wf ltac:(lia)) as [(b' & ? & _ & ?) _]. eauto.
Defined.

Lemma bitmap_scan_correct_witness : first_group demo_bitmap 0 5 false 3.
Proof.
  destruct (bitmap_scan_correct demo_bitmap 0 5 false demo_wf) as (r & E & H);
    [simpl; lia|lia|]. vm_compute in E. by injection E as <-.
Defined.

Lemma bitmap_scan_and_flip_correct_witness :
  bitmap_scan_and_flip demo_bitmap 0 5 false = Ok (3, mk_bitmap 40 [255; 0]) ∧
  all_bits (mk_bitmap 40 [255; 0]) 3 5 true.
Proof.
  destruct (bitmap_scan_and_flip_correct demo_bitmap 0 5 false demo_wf) as (r & b' & E & _ & H);
    [simpl; lia|lia|]. vm_compute in E. injection E as <- <-. split; [reflexivity|apply H].
Defined.

Lemma bitmap_create_in_buf_correct_witness :
  ∃ b, bitmap_create_in_buf 40 [7; 9] 4096 = Ok b ∧ bitmap_size b = 40.
Proof.
  destruct (bitmap_create_in_buf_correct 40 [7; 9] 4096) as (b & ? & _ & ? & _);
    [split; [simpl; lia|reflexivity|repeat constructor; lia]|vm_compute; congruence|eauto].
Defined.
