(* ===== verification/Arithmetic.v ===== *)
(** * 64-bit division on a 32-bit machine: lib/arithmetic.c

    The routines GCC calls for [long long] division.  The DIVL instruction
    divides a 64-bit dividend by a 32-bit divisor and traps when the quotient
    does not fit in 32 bits; the theorems show that the two branches of
    [udiv64] never let it trap and compute the exact quotient, and what the
    signed and the remainder routines make of it. *)

From S2P Require Import Prelude.

(** ** arithmetic.c *)

(** [asm ("divl %4" ...)] on EDX:EAX = [n1]:[n0], as the x86 defines it. *)
Definition divl (n d : Z) : result Z :=
  let n1 := u32 (Z.shiftr n 32) in
  let n0 := u32 n in
  if d =? 0 then Err DivideError
  else
    let q := (n1 * 2 ^ 32 + n0) / d in
    if 2 ^ 32 <=? q then Err DivideError else Ok q.

Definition nlz (x : Z) : Z :=
  let n := 0 in
  let '(n, x) := if x <=? 0x0000FFFF then (n + 16, u32 (Z.shiftl x 16)) else (n, x) in
  let '(n, x) := if x <=? 0x00FFFFFF then (n + 8, u32 (Z.shiftl x 8)) else (n, x) in
  let '(n, x) := if x <=? 0x0FFFFFFF then (n + 4, u32 (Z.shiftl x 4)) else (n, x) in
  let '(n, x) := if x <=? 0x3FFFFFFF then (n + 2, u32 (Z.shiftl x 2)) else (n, x) in
  if x <=? 0x7FFFFFFF then n + 1 else n.

Definition udiv64 (n d : Z) : result Z :=
  if Z.shiftr d 32 =? 0 then
    let b := u64 (Z.shiftl 1 32) in
    let n1 := u32 (Z.shiftr n 32) in
    let n0 := u32 n in
    let d0 := u32 d in
    if d0 =? 0 then Err DivideError (* [n1 % d0] *)
    else
      q ← divl (u64 (u64 (b * (n1 mod d0)) + n0)) d0;
      Ok (u64 (q + u64 (b * (n1 / d0))))
  else if n <? d then Ok 0
  else
    let d1 := u32 (Z.shiftr d 32) in
    let s := nlz d1 in
    q ← divl (Z.shiftr n 1) (u32 (Z.shiftr (u64 (Z.shiftl d s)) 32));
    let q := Z.shiftr q (31 - s) in
    Ok (if u64 (n - u64 (u64 (q - 1) * d)) <? d then u64 (q - 1) else q).

(** The C function returns [uint32_t]. *)
Definition umod64 (n d : Z) : result Z :=
  q ← udiv64 n d; Ok (u32 (u64 (n - u64 (d * q)))).

(** The negation of an [int64_t] wraps around, as the NEG instruction does. *)
Definition sdiv64 (n d : Z) : result Z :=
  let n_abs := if 0 <=? n then u64 n else u64 (- u64 n) in
  let d_abs := if 0 <=? d then u64 d else u64 (- u64 d) in
  q_abs ← udiv64 n_abs d_abs;
  Ok (if Bool.eqb (n <? 0) (d <? 0) then s64 q_abs else s64 (- s64 q_abs)).

(** The C function returns [int32_t]. *)
Definition smod64 (n d : Z) : result Z :=
  q ← sdiv64 n d; Ok (s32 (s64 (n - s64 (d * q)))).

Definition __divdi3 (n d : Z) : result Z := sdiv64 n d.
Definition __moddi3 (n d : Z) : result Z := smod64 n d.
Definition __udivdi3 (n d : Z) : result Z := udiv64 n d.
Definition __umoddi3 (n d : Z) : result Z := umod64 n d.

(** ** DIVL and the number of leading zeros *)

Lemma u32_split n : 0 ≤ n < 2 ^ 64 → u32 (Z.shiftr n 32) * 2 ^ 32 + u32 n = n.
Proof.
  intros Hn. rewrite Z.shiftr_div_pow2 by lia. unfold u32.
  rewrite (Z.mod_small (n / 2 ^ 32)) by dlia. dlia.
Qed.

Lemma divl_ok n d : 0 ≤ n < 2 ^ 64 → 0 < d → n < d * 2 ^ 32 → divl n d = Ok (n / d).
Proof.
  intros Hn Hd Hlt. unfold divl. rewrite u32_split by done.
  rewrite (proj2 (Z.eqb_neq d 0)) by lia.
  rewrite (proj2 (Z.leb_gt (2 ^ 32) (n / d))); [done|]. apply Z.div_lt_upper_bound; lia.
Qed.

Lemma shiftl_u32 x k c : 2 ^ k = c → 0 ≤ k → 0 ≤ x → x * c < 2 ^ 32 → u32 (Z.shiftl x k) = x * c.
Proof. intros <- Hk Hx Hlt. rewrite Z.shiftl_mul_pow2 by done. apply u32_small. lia. Qed.

Lemma nlz_spec x : 0 < x < 2 ^ 32 → 0 ≤ nlz x ≤ 31 ∧ 2 ^ 31 ≤ x * 2 ^ nlz x < 2 ^ 32.
Proof.
  intros Hx. unfold nlz.
  destruct (Z.leb_spec x 0x0000FFFF); [rewrite (shiftl_u32 x 16 65536) by lia|];
  (match goal with |- context [?y <=? 0x00FFFFFF] => destruct (Z.leb_spec y 0x00FFFFFF);
     [rewrite (shiftl_u32 y 8 256) by lia|] end);
  (match goal with |- context [?y <=? 0x0FFFFFFF] => destruct (Z.leb_spec y 0x0FFFFFFF);
     [rewrite (shiftl_u32 y 4 16) by lia|] end);
  (match goal with |- context [?y <=? 0x3FFFFFFF] => destruct (Z.leb_spec y 0x3FFFFFFF);
     [rewrite (shiftl_u32 y 2 4) by lia|] end);
  (match goal with |- context [?y <=? 0x7FFFFFFF] => destruct (Z.leb_spec y 0x7FFFFFFF) end);
  cbn; lia.
Qed.

(** ** Unsigned quotient *)

Lemma udiv64_short n d :
  0 ≤ n < 2 ^ 64 → 0 < d < 2 ^ 32 → udiv64 n d = Ok (n / d).
Proof.
  intros Hn Hd. unfold udiv64. rewrite Z.shiftr_div_pow2, Z.div_small by lia. cbn [Z.eqb].
  change (u64 (Z.shiftl 1 32)) with (2 ^ 32). rewrite (u32_small d) by lia.
  rewrite (proj2 (Z.eqb_neq d 0)) by lia.
  pose proof (u32_split n Hn) as E.
  pose proof (u32_range n) as H0. pose proof (u32_range (Z.shiftr n 32)) as H1.
  revert E H0 H1. generalize (u32 (Z.shiftr n 32)) as n1, (u32 n) as n0. intros n1 n0 E H0 H1.
  pose proof (Z.mod_pos_bound n1 d ltac:(lia)) as Hm.
  pose proof (Z.div_mod n1 d ltac:(lia)) as Hq.
  assert (0 ≤ n1 / d) by (apply Z.div_pos; lia).
  assert (n1 / d ≤ n1) by nia.
  rewrite !(u64_small (2 ^ 32 * _)) by nia. rewrite (u64_small (_ + n0)) by nia.
  rewrite divl_ok by nia. cbn [mbind result_bind].
  assert (n / d = (2 ^ 32 * (n1 mod d) + n0) / d + 2 ^ 32 * (n1 / d)) as ->.
  { rewrite <-Z.div_add by lia. f_equal. nia. }
  assert ((2 ^ 32 * (n1 mod d) + n0) / d < 2 ^ 32) by (apply Z.div_lt_upper_bound; nia).
  assert (0 ≤ (2 ^ 32 * (n1 mod d) + n0) / d) by (apply Z.div_pos; nia).
  rewrite u64_small by nia. done.
Qed.

(** The quotient by the divisor with its low bits cleared is at most one too
    large.  [p] is the weight of the cleared bits. *)
Lemma trial_quotient n d D p :
  0 ≤ n → 0 < p → p * 2 ^ 31 ≤ D → D ≤ d < D + p → n * (p - 1) < D * D →
  n / d ≤ n / D ≤ n / d + 1.
Proof.
  intros Hn Hp HD Hd Hlt. split; [apply Z.div_le_compat_l; lia|].
  pose proof (Z.div_mod n d ltac:(lia)) as E. pose proof (Z.mod_pos_bound n d ltac:(lia)) as B.
  assert (n / D < n / d + 2); [|lia]. apply Z.div_lt_upper_bound; [lia|].
  set (q := n / d) in *. assert (0 ≤ q) by (apply Z.div_pos; lia).
  assert (q * D ≤ n) by nia.
  assert (q * (p - 1) < D); [|nia]. nia.
Qed.

Lemma normalised_square n D p :
  0 ≤ n < 2 ^ 64 → 0 < p → p * 2 ^ 31 ≤ D → n * (p - 1) < D * D.
Proof.
  intros Hn Hp HD.
  assert ((p * 2 ^ 31) * (p * 2 ^ 31) ≤ D * D) by (apply Z.mul_le_mono_nonneg; lia).
  assert (n * (p - 1) ≤ 2 ^ 64 * (p - 1)) by (apply Z.mul_le_mono_nonneg_r; lia).
  pose proof (Z.square_nonneg (p - 2)). nia.
Qed.

(** The final correction of the trial quotient. *)
Lemma correct_quotient n d q :
  0 ≤ n < 2 ^ 64 → 0 < d < 2 ^ 64 → 1 ≤ n / d → n / d ≤ q ≤ n / d + 1 →
  Ok (if u64 (n - u64 (u64 (q - 1) * d)) <? d then u64 (q - 1) else q) = Ok (n / d).
Proof.
  intros Hn Hd H1 Hq.
  pose proof (Z.div_mod n d ltac:(lia)) as En. pose proof (Z.mod_pos_bound n d ltac:(lia)) as Bn.
  set (Q := n / d) in *. clearbody Q. assert (Q ≤ n) by nia.
  rewrite (u64_small (q - 1)) by nia. rewrite (u64_small ((q - 1) * d)) by nia.
  rewrite u64_small by nia.
  destruct (Z.ltb_spec (n - (q - 1) * d) d); f_equal; nia.
Qed.

Lemma udiv64_long n d :
  0 ≤ n < 2 ^ 64 → 2 ^ 32 ≤ d < 2 ^ 64 → udiv64 n d = Ok (n / d).
Proof.
  intros Hn Hd. unfold udiv64. rewrite (proj2 (Z.eqb_neq (Z.shiftr d 32) 0)).
  2: { rewrite Z.shiftr_div_pow2 by lia. dlia. }
  destruct (Z.ltb_spec n d) as [Hlt|Hge]; [by rewrite Z.div_small by lia|].
  assert (u32 (Z.shiftr d 32) = d / 2 ^ 32) as -> by
    (rewrite Z.shiftr_div_pow2 by lia; apply u32_small; dlia).
  destruct (nlz_spec (d / 2 ^ 32)) as [Hs Hnl]; [dlia|].
  set (s := nlz (d / 2 ^ 32)) in *. clearbody s.
  (* the normalised divisor *)
  set (p := 2 ^ (32 - s)). assert (p * 2 ^ s = 2 ^ 32) as Ep by
    (subst p; rewrite <-Z.pow_add_r by lia; f_equal; lia).
  assert (0 < 2 ^ s) by (apply Z.pow_pos_nonneg; lia).
  assert (0 < p) as Hp by (apply Z.pow_pos_nonneg; lia).
  pose proof (Z.div_mod d (2 ^ 32) ltac:(lia)) as Ed.
  pose proof (Z.mod_pos_bound d (2 ^ 32) ltac:(lia)) as Bd.
  assert (2 ^ 63 ≤ d * 2 ^ s < 2 ^ 64) as Hds by nia.
  assert (u32 (Z.shiftr (u64 (Z.shiftl d s)) 32) = d / p) as ->.
  { rewrite Z.shiftl_mul_pow2, (u64_small (d * _)), Z.shiftr_div_pow2 by lia.
    rewrite <-Ep, Z.div_mul_cancel_r by lia. apply u32_small.
    split; [apply Z.div_pos; lia|apply Z.div_lt_upper_bound; nia]. }
  assert (2 ^ 31 ≤ d / p) as Hv by (apply Z.div_le_lower_bound; nia).
  assert (Z.shiftr n 1 = n / 2) as -> by (rewrite Z.shiftr_div_pow2 by lia; done).
  rewrite divl_ok; [|dlia|lia|]; [|dlia]. cbn [mbind result_bind].
  assert (Z.shiftr (n / 2 / (d / p)) (31 - s) = n / (d / p * p)) as ->.
  { rewrite Z.shiftr_div_pow2, !Z.div_div by nia. f_equal.
    assert (p = 2 * 2 ^ (31 - s)) as ->; [|lia].
    subst p. rewrite <-Z.pow_succ_r by lia. f_equal. lia. }
  pose proof (Z.div_mod d p ltac:(lia)) as Edp. pose proof (Z.mod_pos_bound d p ltac:(lia)) as Bp.
  assert (n / d ≤ n / (d / p * p) ≤ n / d + 1) as Hq.
  { assert (p * 2 ^ 31 ≤ d / p * p) as HD by nia.
    apply (trial_quotient n d (d / p * p) p); [lia|lia|done|lia|].
    by apply normalised_square. }
  set (q := n / (d / p * p)) in *. clearbody q.
  assert (1 ≤ n / d) by (apply Z.div_le_lower_bound; lia).
  apply correct_quotient; lia.
Qed.

(** ** Signed quotient and remainders *)

Lemma udiv64_ok n d : 0 ≤ n < 2 ^ 64 → 0 < d < 2 ^ 64 → udiv64 n d = Ok (n / d).
Proof.
  intros Hn Hd. destruct (decide (d < 2 ^ 32)); [apply udiv64_short|apply udiv64_long]; lia.
Qed.

(** [s64] is the representative of a residue class modulo 2^64. *)
Lemma s64_congr a b : (∃ k, a = b + k * 2 ^ 64) → s64 a = s64 b.
Proof.
  intros [k ->]. unfold s64. f_equal.
  replace (b + k * 2 ^ 64 + 2 ^ 63) with (b + 2 ^ 63 + k * 2 ^ 64) by lia.
  apply Z.mod_add. lia.
Qed.

Lemma s64_eqm a : ∃ k, s64 a = a + k * 2 ^ 64.
Proof. exists (- ((a + 2 ^ 63) / 2 ^ 64)). unfold s64. dlia. Qed.

Lemma abs64 n :
  - 2 ^ 63 ≤ n < 2 ^ 63 → (if 0 <=? n then u64 n else u64 (- u64 n)) = Z.abs n.
Proof. intros Hn. unfold u64. destruct (Z.leb_spec 0 n); dlia. Qed.

Lemma sdiv64_ok n d :
  - 2 ^ 63 ≤ n < 2 ^ 63 → - 2 ^ 63 ≤ d < 2 ^ 63 → d ≠ 0 → sdiv64 n d = Ok (s64 (Z.quot n d)).
Proof.
  intros Hn Hd Nz. unfold sdiv64. rewrite !abs64, udiv64_ok by lia. cbn [mbind result_bind].
  rewrite (Z.quot_div n d) by done. f_equal.
  set (q := Z.abs n / Z.abs d). destruct (s64_eqm q) as [k Ek].
  destruct (decide (n = 0)) as [->|].
  { assert (q = 0) as -> by (subst q; apply Z.div_0_l; lia). by destruct (d <? 0). }
  destruct (Z.ltb_spec n 0), (Z.ltb_spec d 0); simpl;
    rewrite ?(Z.sgn_neg n), ?(Z.sgn_pos n), ?(Z.sgn_neg d), ?(Z.sgn_pos d) by lia;
    apply s64_congr; first [exists 0; lia | exists (- k); lia].
Qed.

(** ** Properties *)

(** C26: [udiv64] (and so [__udivdi3]) returns the exact quotient of every
    64-bit dividend by every non-zero 64-bit divisor: neither branch lets the
    DIVL instruction trap, and the trial quotient of the long branch is
    corrected by at most one.  Division by zero raises the divide error. *)
Theorem udiv64_correct n d :
  0 ≤ n < 2 ^ 64 → 0 ≤ d < 2 ^ 64 →
  __udivdi3 n d = if d =? 0 then Err DivideError else Ok (n / d).
Proof.
  intros Hn Hd. unfold __udivdi3. destruct (Z.eqb_spec d 0) as [->|Nz]; [done|].
  apply udiv64_ok; lia.
Qed.

(** [__divdi3] returns the truncated quotient of two [int64_t], wrapped
    only for INT64_MIN / -1; [__moddi3] and [__umoddi3] return the remainder
    cut to 32 bits, which is the remainder itself only when it fits. *)
Theorem div64_mod64_correct n d :
  d ≠ 0 →
  (- 2 ^ 63 ≤ n < 2 ^ 63 → - 2 ^ 63 ≤ d < 2 ^ 63 →
   __divdi3 n d = Ok (s64 (Z.quot n d)) ∧
   (Z.quot n d < 2 ^ 63 → __divdi3 n d = Ok (Z.quot n d)) ∧
   __moddi3 n d = Ok (s32 (Z.rem n d))) ∧
  (0 ≤ n < 2 ^ 64 → 0 ≤ d < 2 ^ 64 → __umoddi3 n d = Ok (u32 (n mod d))).
Proof.
  intros Nz. split; [intros Hn Hd|intros Hn Hd].
  - unfold __divdi3, __moddi3, smod64. rewrite sdiv64_ok by done. split_and!; [done| |].
    + intros Hlt. rewrite s64_small; [done|]. split; [|done].
      pose proof (Z.quot_rem n d Nz). pose proof (Z.rem_bound_abs n d Nz). nia.
    + cbn [mbind result_bind]. do 2 f_equal.
      destruct (s64_eqm (Z.quot n d)) as [k1 ->].
      destruct (s64_eqm (d * (Z.quot n d + k1 * 2 ^ 64))) as [k2 ->].
      rewrite (s64_congr _ (Z.rem n d)).
      * apply s64_small. pose proof (Z.rem_bound_abs n d Nz). lia.
      * exists (- (d * k1 + k2)). pose proof (Z.quot_rem n d Nz). lia.
  - unfold __umoddi3, umod64. rewrite udiv64_ok by lia. cbn [mbind result_bind]. do 2 f_equal.
    pose proof (Z.div_mod n d Nz). pose proof (Z.mod_pos_bound n d ltac:(lia)).
    assert (0 ≤ n / d) by (apply Z.div_pos; lia).
    rewrite (u64_small (d * _)) by nia. rewrite u64_small by lia. lia.
Qed.

(** The remainder of 2^33 by 2^34 is lost by the 32-bit return types. *)
Example umoddi3_truncates : __umoddi3 (2 ^ 33) (2 ^ 34) = Ok 0 ∧ __moddi3 (2 ^ 33) (2 ^ 34) = Ok 0.
Proof. split; vm_compute; reflexivity. Qed.

(** ** Witnesses *)

Lemma udiv64_correct_witness : __udivdi3 (2 ^ 64 - 1) (2 ^ 33 - 1) = Ok 2147483648.
Proof. rewrite (udiv64_correct (2 ^ 64 - 1) (2 ^ 33 - 1)) by lia. reflexivity. Defined.

Lemma div64_mod64_correct_witness :
  __divdi3 (-7) 2 = Ok (-3) ∧ __moddi3 (-7) 2 = Ok (-1).
Proof.
  destruct (div64_mod64_correct (-7) 2 ltac:(lia)) as [H _].
  destruct (H ltac:(lia) ltac:(lia)) as (E & _ & E'). rewrite E, E'. split; reflexivity.
Defined.
