(* ===== verification/StdlibC.v ===== *)
(** * Sorting, searching and number parsing: lib/stdlib.c

    [sort] is an in-place heap sort of an array of [cnt] elements of [size]
    bytes each, [binary_search] a binary search in such an array.  The array
    is the list of its bytes, as in C; the theorems are about the elements,
    the consecutive groups of [size] bytes.  [atoi] parses a signed decimal
    number from the bytes of a string. *)

From S2P Require Import Prelude.
From Stdlib Require Import Sorting.Permutation.

(** ** Bytes of an array *)

Definition byte_get (array : list Z) (i : Z) : result Z :=
  if 0 <=? i then
    match array !! Z.to_nat i with Some b => Ok b | None => Err BadAccess end
  else Err BadAccess.
Definition byte_set (array : list Z) (i v : Z) : result (list Z) :=
  _ ← byte_get array i; Ok (<[Z.to_nat i := v]> array).

(** The [size] bytes at offset [off], as a comparison function reads them. *)
Definition elem_at (array : list Z) (off size : Z) : result (list Z) :=
  if (0 <=? off) && (off + size <=? Z.of_nat (length array))
  then Ok (take (Z.to_nat size) (drop (Z.to_nat off) array))
  else Err BadAccess.

(** ** stdlib.c: sorting and searching

    [compare] is the caller's comparison function applied to the bytes of
    two elements, with its auxiliary data. *)
Section compare.
Variable compare : list Z → list Z → Z.

Definition do_swap (array : list Z) (a_idx b_idx size : Z) : result (list Z) :=
  let a := u32 ((a_idx - 1) * size) in
  let b := u32 ((b_idx - 1) * size) in
  loop (S (Z.to_nat size)) (λ '(i, array),
    if i <? size then
      t ← byte_get array (a + i);
      bi ← byte_get array (b + i);
      array ← byte_set array (a + i) bi;
      array ← byte_set array (b + i) t;
      Ok (inl (u32 (i + 1), array))
    else Ok (inr array)) (0, array).

Definition do_compare (array : list Z) (a_idx b_idx size : Z) : result Z :=
  a ← elem_at array (u32 ((a_idx - 1) * size)) size;
  b ← elem_at array (u32 ((b_idx - 1) * size)) size;
  Ok (compare a b).

Definition heapify (array : list Z) (i cnt size : Z) : result (list Z) :=
  loop (S (Z.to_nat cnt)) (λ '(i, array),
    let left := u32 (2 * i) in
    let right := u32 (2 * i + 1) in
    let max := i in
    max ← (if left <=? cnt then
             c ← do_compare array left max size; Ok (if c >? 0 then left else max)
           else Ok max);
    max ← (if right <=? cnt then
             c ← do_compare array right max size; Ok (if c >? 0 then right else max)
           else Ok max);
    if max =? i then Ok (inr array)
    else
      array ← do_swap array i max size;
      Ok (inl (max, array))) (i, array).

(** The two loops of [sort]: building a heap, and sorting the heap. *)
Definition sort_build (array : list Z) (cnt size : Z) : result (list Z) :=
  loop (S (Z.to_nat cnt)) (λ '(i, array),
    if 0 <? i then
      array ← heapify array i cnt size; Ok (inl (u32 (i - 1), array))
    else Ok (inr array)) (cnt / 2, array).

Definition sort_heap (array : list Z) (cnt size : Z) : result (list Z) :=
  loop (S (Z.to_nat cnt)) (λ '(i, array),
    if 1 <? i then
      array ← do_swap array 1 i size;
      array ← heapify array 1 (i - 1) size;
      Ok (inl (u32 (i - 1), array))
    else Ok (inr array)) (cnt, array).

(** [array] and [compare] are not null pointers here. *)
Definition sort (array : list Z) (cnt size : Z) : result (list Z) :=
  ASSERT (0 <? size);;
  array ← sort_build array cnt size;
  sort_heap array cnt size.

(** Returns the offset of the match, [None] for the null pointer. *)
Definition binary_search (key : list Z) (array : list Z) (cnt size : Z) : result (option Z) :=
  let last := u32 (size * cnt) in
  loop (S (Z.to_nat cnt)) (λ '(first, last),
    if first <? last then
      let range := (last - first) / size in
      let middle := first + (range / 2) * size in
      m ← elem_at array middle size;
      let cmp := compare key m in
      if cmp <? 0 then Ok (inl (first, middle))
      else if cmp >? 0 then Ok (inl (middle + size, last))
      else Ok (inr (Some middle))
    else Ok (inr None)) (0, last).

End compare.

(** [compare_thunk] drops the auxiliary argument and calls the comparison
    function it points to. *)
Definition compare_thunk (compare : list Z → list Z → Z) (a b : list Z) : Z := compare a b.
Definition qsort (array : list Z) (cnt size : Z) (compare : list Z → list Z → Z) :=
  sort (compare_thunk compare) array cnt size.
Definition bsearch (key array : list Z) (cnt size : Z) (compare : list Z → list Z → Z) :=
  binary_search (compare_thunk compare) key array cnt size.

(** ** An array of bytes as a list of elements *)

Definition chunked (size : nat) (array : list Z) (xs : list (list Z)) : Prop :=
  array = concat xs ∧ Forall (λ x, length x = size) xs.

Lemma chunked_length size array xs : chunked size array xs → length array = (length xs * size)%nat.
Proof.
  intros [-> H]. induction H as [|x xs Hx _ IH]; simpl; [done|]. rewrite length_app. lia.
Qed.

Lemma chunked_lookup size array xs i o :
  chunked size array xs → (o < size)%nat →
  array !! (i * size + o)%nat = x ← xs !! i; x !! o.
Proof.
  intros [-> H] Ho. revert i. induction H as [|x xs Hx _ IH]; intros i; [done|].
  destruct i as [|i]; simpl.
  - apply lookup_app_l. lia.
  - rewrite lookup_app_r by lia. rewrite <-IH. f_equal. lia.
Qed.

Lemma chunked_elem size array xs i x :
  chunked size array xs → xs !! i = Some x →
  elem_at array (Z.of_nat i * Z.of_nat size) (Z.of_nat size) = Ok x.
Proof.
  intros Hc Hx. pose proof (lookup_lt_Some _ _ _ Hx) as Hi. unfold elem_at.
  rewrite (chunked_length _ _ _ Hc). rewrite !(proj2 (Z.leb_le _ _)) by nia. simpl. f_equal.
  destruct Hc as [-> H]. rewrite <-Nat2Z.inj_mul, !Nat2Z.id. clear -Hx H.
  revert i Hx. induction H as [|y ys Hy Hys IH]; intros i Hx; [done|]. destruct i as [|i]; simpl in *.
  - injection Hx as ->. rewrite drop_0; by rewrite take_app_length'.
  - rewrite drop_app_ge by lia. rewrite <-(IH i Hx). do 2 f_equal. lia.
Qed.

Lemma byte_get_ok array (i : nat) b :
  array !! i = Some b → byte_get array (Z.of_nat i) = Ok b.
Proof.
  intros H. unfold byte_get. rewrite (proj2 (Z.leb_le _ _)) by lia. by rewrite Nat2Z.id, H.
Qed.

Lemma byte_set_ok array (i : nat) b v :
  array !! i = Some b → byte_set array (Z.of_nat i) v = Ok (<[i := v]> array).
Proof. intros H. unfold byte_set. rewrite (byte_get_ok _ _ _ H). simpl. by rewrite Nat2Z.id. Qed.

Section elements.
Variable size : nat.
Hypothesis size_pos : (0 < size)%nat.
Abbreviation Zsize := (Z.of_nat size).

Lemma chunk_index_inj i j o k :
  (i * size + o = j * size + k)%nat → (o < size)%nat → (k < size)%nat → i = j ∧ o = k.
Proof.
  intros E Ho Hk. assert (i = j) as ->; [|lia].
  destruct (Nat.lt_total i j) as [H|[H|H]]; [nia|done|nia].
Qed.

(** The byte loop of [do_swap], by what each byte is afterwards. *)
Lemma do_swap_bytes array (a b : nat) :
  (a * size + size ≤ length array)%nat → (b * size + size ≤ length array)%nat →
  Z.of_nat (length array) < 2 ^ 32 →
  ∃ array', do_swap array (Z.of_nat a + 1) (Z.of_nat b + 1) Zsize = Ok array' ∧
    ∀ i o, (o < size)%nat →
      array' !! (i * size + o)%nat = array !! (swap_index a b i * size + o)%nat.
Proof.
  intros Ha Hb Hlen. unfold do_swap. rewrite !Z.add_simpl_r, !u32_small by nia.
  destruct (loop_rule (λ n '(t, arr), ∃ k : nat, t = Z.of_nat k ∧ (k ≤ size)%nat ∧ n = (size - k)%nat ∧
      length arr = length array ∧
      ∀ i o, (o < size)%nat → arr !! (i * size + o)%nat =
        array !! ((if decide (o < k)%nat then swap_index a b i else i) * size + o)%nat)
    (λ arr, ∀ i o, (o < size)%nat →
      arr !! (i * size + o)%nat = array !! (swap_index a b i * size + o)%nat)
    (λ '(i, array), if i <? Zsize then
        t ← byte_get array (Z.of_nat a * Zsize + i);
        bi ← byte_get array (Z.of_nat b * Zsize + i);
        array ← byte_set array (Z.of_nat a * Zsize + i) bi;
        array ← byte_set array (Z.of_nat b * Zsize + i) t;
        Ok (inl (u32 (i + 1), array))
      else Ok (inr array)))
    with (fuel := S (Z.to_nat Zsize)) (n := size) (l := (0, array)) as (arr & E & H).
  - intros n [t arr] (k & -> & Hk & -> & Hl & Harr). destruct (Z.ltb_spec (Z.of_nat k) Zsize) as [Hlt|Hge].
    + rewrite <-!Nat2Z.inj_mul, <-!Nat2Z.inj_add.
      destruct (lookup_lt_is_Some_2 arr (a * size + k)) as [x Hx]; [lia|].
      destruct (lookup_lt_is_Some_2 arr (b * size + k)) as [y Hy]; [lia|].
      rewrite (byte_get_ok _ _ _ Hx), (byte_get_ok _ _ _ Hy). simpl.
      rewrite (byte_set_ok _ _ _ _ Hx). simpl.
      destruct (lookup_lt_is_Some_2 (<[(a * size + k)%nat:=y]> arr) (b * size + k)) as [z Hz];
        [rewrite length_insert; lia|].
      rewrite (byte_set_ok _ _ _ _ Hz). simpl. eexists. split; [done|].
      exists (size - S k)%nat. split; [lia|]. exists (S k). rewrite u32_small by lia.
      rewrite !length_insert. split_and!; try lia. intros i o Ho.
      rewrite Harr in Hx, Hy by lia. rewrite decide_False in Hx, Hy by lia.
      rewrite !list_lookup_insert, !length_insert. unfold swap_index.
      destruct (decide (o = k)) as [->|Nk].
      * rewrite (decide_True (P := (k < S k)%nat)) by lia.
        destruct (decide (i = b)) as [->|Nb].
        { rewrite decide_True by lia.
          case_decide as Eab; [subst; congruence|]. by rewrite Hx. }
        rewrite (decide_False (P := (_ ∧ _))) by nia.
        destruct (decide (i = a)) as [->|Na].
        { rewrite decide_True by lia. by rewrite Hy. }
        rewrite decide_False by nia. rewrite Harr by lia. by rewrite decide_False by lia.
      * rewrite !(decide_False (P := (_ ∧ _))) by
          (intros [E' _]; apply chunk_index_inj in E'; lia). rewrite Harr by lia.
        destruct (decide (o < k)%nat), (decide (o < S k)%nat); try done; lia.
    + eexists. split; [done|]. assert (k = size) as -> by lia. intros i o Ho.
      rewrite Harr by lia. by rewrite decide_True by lia.
  - exists 0%nat. split_and!; try lia; try done.
  - lia.
  - exists arr. split; [exact E|exact H].
Qed.

Lemma do_swap_ok array xs (a b : nat) :
  chunked size array xs → (a < length xs)%nat → (b < length xs)%nat →
  Z.of_nat (length array) < 2 ^ 32 →
  ∃ array', do_swap array (Z.of_nat a + 1) (Z.of_nat b + 1) Zsize = Ok array' ∧
    chunked size array' (list_swap a b xs).
Proof.
  intros Hc Ha Hb Hlen. pose proof (chunked_length _ _ _ Hc) as Hl.
  destruct (do_swap_bytes array a b) as (arr & E & H); [nia..|done|].
  exists arr. split; [done|].
  assert (chunked size (concat (list_swap a b xs)) (list_swap a b xs)) as Hc'.
  { split; [done|]. rewrite list_swap_perm. apply Hc. }
  split; [|apply Hc']. apply list_eq. intros p.
  pose proof (Nat.div_mod p size ltac:(lia)) as Ep.
  pose proof (Nat.mod_upper_bound p size ltac:(lia)) as Bp.
  rewrite Ep, (Nat.mul_comm size), H by done.
  rewrite (chunked_lookup _ _ _ _ _ Hc), (chunked_lookup _ _ _ _ _ Hc') by done.
  by rewrite list_swap_lookup.
Qed.

Lemma do_compare_ok compare array xs (a b : nat) x y :
  chunked size array xs → xs !! a = Some x → xs !! b = Some y →
  Z.of_nat (length array) < 2 ^ 32 →
  do_compare compare array (Z.of_nat a + 1) (Z.of_nat b + 1) Zsize = Ok (compare x y).
Proof.
  intros Hc Hx Hy Hlen. pose proof (chunked_length _ _ _ Hc) as Hl.
  pose proof (lookup_lt_Some _ _ _ Hx). pose proof (lookup_lt_Some _ _ _ Hy).
  unfold do_compare. rewrite !Z.add_simpl_r, !u32_small by nia.
  by rewrite (chunked_elem _ _ _ _ _ Hc Hx), (chunked_elem _ _ _ _ _ Hc Hy).
Qed.

(** ** Heap order *)

Section order.
Variable compare : list Z → list Z → Z.
Definition le (x y : list Z) : Prop := compare x y ≤ 0.

(** [compare] returns a [strcmp]-type result. *)
Record strcmp_type : Prop := {
  cmp_flip : ∀ x y, compare x y < 0 ↔ compare y x > 0;
  cmp_trans : ∀ x y z, le x y → le y z → le x z
}.
Hypothesis Hcmp : strcmp_type.

(** The element with a 1-based index. *)
Definition at1 (xs : list (list Z)) (k : nat) : list Z := xs !!! (k - 1)%nat.
Definition child (p k : nat) : Prop := (k = 2 * p ∨ k = 2 * p + 1)%nat.

Definition heap (xs : list (list Z)) (lo n : nat) : Prop :=
  ∀ p k, (lo ≤ p)%nat → child p k → (k ≤ n)%nat → le (at1 xs k) (at1 xs p).

(** A heap except between [i] and its children, which are still at most
    [i]'s parent. *)
Definition heap_skip (xs : list (list Z)) (lo n i : nat) : Prop :=
  (∀ p k, (lo ≤ p)%nat → child p k → (k ≤ n)%nat → p ≠ i → le (at1 xs k) (at1 xs p)) ∧
  (∀ g k, (lo ≤ g)%nat → child g i → child i k → (k ≤ n)%nat → le (at1 xs k) (at1 xs g)).

Lemma le_refl x : le x x.
Proof.
  destruct (decide (compare x x > 0)) as [H|H]; [apply (cmp_flip Hcmp) in H|]; unfold le; lia.
Qed.

Lemma at1_swap xs i m k :
  (1 ≤ i ≤ length xs)%nat → (1 ≤ m ≤ length xs)%nat → (1 ≤ k)%nat →
  at1 (list_swap (i - 1) (m - 1) xs) k = at1 xs (swap_index i m k).
Proof.
  intros Hi Hm Hk. unfold at1. rewrite !list_lookup_total_alt, list_swap_lookup by lia.
  do 2 f_equal. unfold swap_index. repeat case_decide; lia.
Qed.

Lemma at1_lookup xs k : (1 ≤ k ≤ length xs)%nat → xs !! (k - 1)%nat = Some (at1 xs k).
Proof. intros H. unfold at1. apply list_lookup_lookup_total_lt. lia. Qed.

(** One round of [heapify]: floating an element down to child [m]. *)
Lemma heap_skip_swap xs lo n i m :
  (1 ≤ lo ≤ i)%nat → (n ≤ length xs)%nat → child i m → (m ≤ n)%nat → heap_skip xs lo n i →
  le (at1 xs i) (at1 xs m) →
  (∀ k, child i k → (k ≤ n)%nat → le (at1 xs k) (at1 xs m)) →
  heap_skip (list_swap (i - 1) (m - 1) xs) lo n m.
Proof.
  intros Hlo Hn Hc Hm [H1 H2] Him Hk. unfold child in *. split.
  - intros p k Hp Hpk Hkn Npm. unfold child in Hpk. rewrite !at1_swap by lia. unfold swap_index.
    destruct (decide (k = i)) as [->|Nki].
    { rewrite !decide_False by lia. apply H2; lia. }
    destruct (decide (k = m)) as [->|Nkm].
    { rewrite decide_True by lia. done. }
    destruct (decide (p = i)) as [->|Npi]; [by apply Hk|].
    rewrite decide_False by lia. apply H1; done.
  - intros g k Hg Hgm Hmk Hkn. unfold child in Hgm, Hmk. assert (g = i) as -> by lia. rewrite !at1_swap by lia.
    unfold swap_index. rewrite (decide_True (P := i = i)) by done.
    rewrite !decide_False by lia. apply H1; lia.
Qed.

Lemma heap_skip_done xs lo n i :
  heap_skip xs lo n i → (∀ k, child i k → (k ≤ n)%nat → le (at1 xs k) (at1 xs i)) → heap xs lo n.
Proof.
  intros [H1 _] Hi p k Hp Hpk Hk. destruct (decide (p = i)) as [->|]; [by apply Hi|by apply H1].
Qed.

Lemma heap_root_max xs n k : heap xs 1 n → (1 ≤ k ≤ n)%nat → le (at1 xs k) (at1 xs 1).
Proof.
  intros Hh. induction (lt_wf k) as [k _ IH]. intros Hk.
  destruct (decide (k = 1)%nat) as [->|]; [apply le_refl|].
  assert (∃ p, child p k) as [p Hp].
  { destruct (Nat.Even_or_Odd k) as [[p ->]|[p ->]]; exists p; unfold child; lia. }
  apply (cmp_trans Hcmp _ (at1 xs p)).
  - apply Hh; unfold child in *; lia || done.
  - apply IH; unfold child in Hp; lia.
Qed.

Lemma of_nat_pred (k : nat) : (1 ≤ k)%nat → Z.of_nat (k - 1) + 1 = Z.of_nat k.
Proof. lia. Qed.

(** The choice between the largest element so far and one more child. *)
Lemma pick_max array xs (c m n : nat) :
  chunked size array xs → Z.of_nat (length array) < 2 ^ 32 → (n ≤ length xs)%nat →
  (1 ≤ c)%nat → (1 ≤ m ≤ length xs)%nat →
  ∃ m' : nat,
    (if Z.of_nat c <=? Z.of_nat n then
       x ← do_compare compare array (Z.of_nat c) (Z.of_nat m) Zsize;
       Ok (if x >? 0 then Z.of_nat c else Z.of_nat m)
     else Ok (Z.of_nat m)) = Ok (Z.of_nat m') ∧
    (m' = m ∨ (m' = c ∧ (c ≤ n)%nat)) ∧ le (at1 xs m) (at1 xs m') ∧
    ((c ≤ n)%nat → le (at1 xs c) (at1 xs m')).
Proof.
  intros Hc Hlen Hn H1 Hm. destruct (Z.leb_spec (Z.of_nat c) (Z.of_nat n)) as [Hle|Hgt].
  2: { exists m. split_and!; [done|by left|apply le_refl|lia]. }
  pose proof (do_compare_ok compare array xs (c - 1) (m - 1) (at1 xs c) (at1 xs m) Hc
    (at1_lookup xs c ltac:(lia)) (at1_lookup xs m ltac:(lia)) Hlen) as E.
  rewrite !of_nat_pred in E by lia. rewrite E. simpl. destruct (Z.gtb_spec (compare (at1 xs c) (at1 xs m)) 0) as [Hgt|Hle'].
  - exists c. split_and!; [done|by right; lia| |intros _; apply le_refl].
    unfold le. destruct (cmp_flip Hcmp (at1 xs m) (at1 xs c)). lia.
  - exists m. split_and!; [done|by left|apply le_refl|done].
Qed.

Lemma heapify_ok array xs (lo i n : nat) :
  chunked size array xs → Z.of_nat (length array) < 2 ^ 32 → Z.of_nat (length xs) < 2 ^ 31 →
  (n ≤ length xs)%nat → (1 ≤ lo ≤ i)%nat → (i ≤ length xs)%nat → heap_skip xs lo n i →
  ∃ array', heapify compare array (Z.of_nat i) (Z.of_nat n) Zsize = Ok array' ∧ ∃ xs',
    chunked size array' xs' ∧ xs' ≡ₚ xs ∧ drop n xs' = drop n xs ∧ heap xs' lo n.
Proof.
  intros Hc Hlen Hbig Hn Hlo Hi Hs. unfold heapify.
  eapply (loop_rule (λ k '(zi, arr), ∃ (j : nat) ys, zi = Z.of_nat j ∧ k = (n - j)%nat ∧
      (lo ≤ j ≤ length xs)%nat ∧ chunked size arr ys ∧ ys ≡ₚ xs ∧ drop n ys = drop n xs ∧ heap_skip ys lo n j))
    with (n := (n - i)%nat);
    [|exists i, xs; by split_and!; try lia|lia].
  intros k [zi arr] (j & ys & -> & -> & Hj & Hcy & Hp & Hd & Hsk).
  assert (length ys = length xs) as Hly by (by apply Permutation_length).
  assert (length arr = length array) as Hla by
    (by rewrite (chunked_length _ _ _ Hc), (chunked_length _ _ _ Hcy), Hly).
  rewrite !u32_small by lia.
  replace (2 * Z.of_nat j + 1) with (Z.of_nat (2 * j + 1)) by lia.
  replace (2 * Z.of_nat j) with (Z.of_nat (2 * j)) by lia.
  destruct (pick_max arr ys (2 * j) j n) as (m1 & -> & Hm1 & Hl1 & Hr1); [done|lia..|].
  cbn [mbind result_bind].
  destruct (pick_max arr ys (2 * j + 1) m1 n) as (m & -> & Hm & Hl2 & Hr2); [done|lia..|].
  cbn [mbind result_bind].
  assert (le (at1 ys j) (at1 ys m)) as Hjm by (by apply (cmp_trans Hcmp _ (at1 ys m1))).
  assert (∀ k, child j k → (k ≤ n)%nat → le (at1 ys k) (at1 ys m)) as Hch.
  { intros k [->| ->] Hk; [|by apply Hr2]. apply (cmp_trans Hcmp _ (at1 ys m1)); auto. }
  destruct (Z.eqb_spec (Z.of_nat m) (Z.of_nat j)) as [E|N].
  - eexists. split; [done|]. assert (m = j) as -> by lia. exists ys. split_and!; try done.
    by apply (heap_skip_done _ _ _ j).
  - assert (child j m ∧ (m ≤ n)%nat) as [Hcm Hmn] by (unfold child; lia).
    destruct (do_swap_ok arr ys (j - 1) (m - 1)) as (arr' & E & Hc'); [done|unfold child in Hcm; lia..|].
    rewrite !of_nat_pred in E by (unfold child in Hcm; lia). rewrite E. cbn [mbind result_bind]. eexists. split; [done|].
    exists (n - m)%nat. split; [unfold child in Hcm; lia|]. exists m, (list_swap (j - 1) (m - 1) ys).
    split_and!; try done; try (unfold child in Hcm; lia).
    + by rewrite list_swap_perm.
    + rewrite list_swap_drop; [done|unfold child in Hcm; lia..].
    + apply heap_skip_swap; try done; lia.
Qed.

(** ** Heap sort *)

Definition sorted (xs : list (list Z)) : Prop :=
  ∀ a b, (1 ≤ a ≤ b)%nat → (b ≤ length xs)%nat → le (at1 xs a) (at1 xs b).

(** The elements after [i] are in their final place. *)
Definition sorted_after (xs : list (list Z)) (i : nat) : Prop :=
  ∀ a b, (1 ≤ a ≤ b)%nat → (i < b ≤ length xs)%nat → le (at1 xs a) (at1 xs b).

Lemma build_skip xs i n : (1 ≤ i)%nat → heap xs (S i) n → heap_skip xs i n i.
Proof.
  intros Hi Hh. split.
  - intros p k Hp Hc Hk Np. apply Hh; [lia|done..].
  - intros g k Hg Hc. unfold child in Hc. lia.
Qed.

Lemma pop_skip xs i :
  (2 ≤ i ≤ length xs)%nat → heap xs 1 i → heap_skip (list_swap 0 (i - 1) xs) 1 (i - 1) 1.
Proof.
  intros Hi Hh. split.
  - intros p k Hp Hc Hk Np. unfold child in Hc.
    rewrite !(at1_swap xs 1 i) by lia. unfold swap_index. rewrite !decide_False by lia.
    apply Hh; unfold child; lia.
  - intros g k Hg Hc. unfold child in Hc. lia.
Qed.

Lemma drop_eq_at1 xs ys n k : drop n xs = drop n ys → (n < k)%nat → at1 xs k = at1 ys k.
Proof.
  intros E Hk. unfold at1. rewrite !list_lookup_total_alt. f_equal.
  apply (f_equal (.!! (k - 1 - n)%nat)) in E. rewrite !lookup_drop in E.
  by replace (n + (k - 1 - n))%nat with (k - 1)%nat in E by lia.
Qed.

(** A permutation that keeps [drop n] permutes the first [n] elements. *)
Lemma prefix_at1 xs ys n a :
  xs ≡ₚ ys → drop n xs = drop n ys → (n ≤ length xs)%nat → (1 ≤ a ≤ n)%nat →
  ∃ a', (1 ≤ a' ≤ n)%nat ∧ at1 xs a = at1 ys a'.
Proof.
  intros Hp Hd Hn Ha.
  assert (take n xs ≡ₚ take n ys) as Ht.
  { rewrite <-(take_drop n xs), <-(take_drop n ys), Hd in Hp. by apply Permutation_app_inv_r in Hp. }
  pose proof (Permutation_length Hp) as Hl.
  assert (at1 xs a ∈ take n ys) as (j & Hj)%list_elem_of_lookup.
  { rewrite <-Ht. apply (list_elem_of_lookup_2 _ (a - 1)). rewrite lookup_take_lt by lia.
    apply at1_lookup. lia. }
  pose proof (lookup_lt_Some _ _ _ Hj) as Hlt. rewrite length_take in Hlt.
  exists (S j). split; [lia|]. rewrite lookup_take_lt in Hj by lia. unfold at1 at 2.
  replace (S j - 1)%nat with j by lia. by rewrite (list_lookup_total_correct _ _ _ Hj).
Qed.

(** One round of the second loop: the largest element goes behind the heap. *)
Lemma sort_round xs zs i :
  (2 ≤ i ≤ length xs)%nat → heap xs 1 i → sorted_after xs i →
  zs ≡ₚ list_swap 0 (i - 1) xs → drop (i - 1) zs = drop (i - 1) (list_swap 0 (i - 1) xs) →
  sorted_after zs (i - 1).
Proof.
  intros Hi Hh Hs Hp Hd a b Hab Hb.
  assert (length zs = length xs) as Hl by (by rewrite (Permutation_length Hp), length_list_swap).
  assert (∀ k, (1 ≤ k)%nat → at1 (list_swap 0 (i - 1) xs) k = at1 xs (swap_index 1 i k)) as Hsw by
    (intros; apply (at1_swap xs 1 i); lia).
  rewrite (drop_eq_at1 zs _ (i - 1) b Hd), Hsw by lia.
  assert (∃ a', (1 ≤ a' ≤ if decide (a < i)%nat then i - 1 else a)%nat ∧ (i ≤ a' → a' = a)%nat ∧
    at1 zs a = at1 (list_swap 0 (i - 1) xs) a') as (a' & Ha' & Hge & ->).
  { case_decide.
    - destruct (prefix_at1 _ _ (i - 1) a Hp Hd) as (a' & ? & ?); [lia..|]. exists a'.
      split_and!; try lia; done.
    - exists a. split_and!; try lia. by apply (drop_eq_at1 _ _ (i - 1)); [|lia]. }
  rewrite Hsw by lia. unfold swap_index.
  destruct (decide (b = i)) as [->|Nb].
  - rewrite (decide_False (P := i = 1%nat)) by lia.
    apply (heap_root_max _ i); [done|]. repeat case_decide; lia.
  - rewrite (decide_False (P := b = 1%nat)) by lia.
    apply Hs; repeat case_decide; lia.
Qed.

(** The state of [sort]: an array whose elements are a permutation of [xs]. *)
Definition array_of (xs : list (list Z)) (arr : list Z) (ys : list (list Z)) : Prop :=
  chunked size arr ys ∧ ys ≡ₚ xs.

Definition sizes_ok (xs : list (list Z)) : Prop :=
  Z.of_nat (length xs * size) < 2 ^ 32 ∧ Z.of_nat (length xs) < 2 ^ 31.

Lemma array_of_sizes xs arr ys :
  sizes_ok xs → array_of xs arr ys →
  length ys = length xs ∧ Z.of_nat (length arr) < 2 ^ 32 ∧ Z.of_nat (length ys) < 2 ^ 31.
Proof.
  intros [Hs Hb] [Hc Hp]. pose proof (Permutation_length Hp) as Hl.
  rewrite (chunked_length _ _ _ Hc), Hl. done.
Qed.

Lemma sort_build_ok array xs :
  chunked size array xs → sizes_ok xs →
  ∃ array', sort_build compare array (Z.of_nat (length xs)) Zsize = Ok array' ∧ ∃ xs',
    array_of xs array' xs' ∧ heap xs' 1 (length xs).
Proof.
  intros Hc Hsz. unfold sort_build. set (n := length xs) in *.
  eapply (loop_rule (λ k '(zi, arr), ∃ (i : nat) ys, zi = Z.of_nat i ∧ k = i ∧ (2 * i ≤ n)%nat ∧
      array_of xs arr ys ∧ heap ys (S i) n)) with (n := Z.to_nat (Z.of_nat n / 2)); [| |dlia].
  2: { exists (Z.to_nat (Z.of_nat n / 2)), xs. split_and!; [dlia|done|dlia|done|].
       intros p k Hp Hk Hkn. unfold child in Hk. dlia. }
  intros k [zi arr] (i & ys & -> & -> & Hi & Ha & Hh).
  destruct (array_of_sizes _ _ _ Hsz Ha) as (Hly & Hla & Hb). destruct Ha as [Hcy Hp].
  fold n in Hly. destruct (Z.ltb_spec 0 (Z.of_nat i)) as [Hpos|Hz].
  - destruct (heapify_ok arr ys i i n) as (arr' & -> & ys' & Hc' & Hp' & _ & Hh');
      [done|lia..|by apply build_skip; [lia|]|]. cbn [mbind result_bind].
    eexists. split; [done|]. exists (i - 1)%nat. split; [lia|]. exists (i - 1)%nat, ys'.
    rewrite u32_small by lia. split_and!; try lia; [by split; [|rewrite Hp']|].
    by replace (S (i - 1)) with i by lia.
  - eexists. split; [done|]. exists ys. assert (i = 0%nat) as -> by lia. done.
Qed.

Lemma sort_heap_ok array xs ys :
  array_of xs array ys → sizes_ok xs → heap ys 1 (length xs) →
  ∃ array', sort_heap compare array (Z.of_nat (length xs)) Zsize = Ok array' ∧ ∃ xs',
    array_of xs array' xs' ∧ sorted xs'.
Proof.
  intros Ha Hsz Hh. unfold sort_heap.
  eapply (loop_rule (λ k '(zi, arr), ∃ (i : nat) ys, zi = Z.of_nat i ∧ k = i ∧ (i ≤ length xs)%nat ∧
      array_of xs arr ys ∧ heap ys 1 i ∧ sorted_after ys i)) with (n := length xs); [| |lia].
  2: { exists (length xs), ys. destruct (array_of_sizes _ _ _ Hsz Ha) as (Hl & _).
       split_and!; try done. intros a b; lia. }
  clear dependent array ys. intros k [zi arr] (i & ys & -> & -> & Hi & Ha & Hh & Hs).
  destruct (array_of_sizes _ _ _ Hsz Ha) as (Hly & Hla & Hb). destruct Ha as [Hcy Hp].
  destruct (Z.ltb_spec 1 (Z.of_nat i)) as [Hgt|Hle].
  - destruct (do_swap_ok arr ys 0 (i - 1)) as (arr1 & E1 & Hc1); [done|lia..|].
    rewrite of_nat_pred in E1 by lia. change (Z.of_nat 0 + 1) with 1 in E1. rewrite E1.
    cbn [mbind result_bind].
    destruct (array_of_sizes xs arr1 (list_swap 0 (i - 1) ys)) as (Hl1 & Hla1 & Hb1);
      [done|by split; [|rewrite list_swap_perm]|].
    destruct (heapify_ok arr1 (list_swap 0 (i - 1) ys) 1 1 (i - 1))
      as (arr2 & E2 & zs & Hc2 & Hp2 & Hd2 & Hh2); [done|lia..|apply pop_skip; [lia|done]|].
    replace (Z.of_nat (i - 1)) with (Z.of_nat i - 1) in E2 by lia.
    change (Z.of_nat 1) with 1 in E2. rewrite E2. cbn [mbind result_bind].
    eexists. split; [done|]. exists (i - 1)%nat. split; [lia|]. exists (i - 1)%nat, zs.
    rewrite u32_small by lia.
    split_and!; try done; try lia; [by split; [|rewrite Hp2, list_swap_perm]|].
    eapply sort_round; [|done..]. lia.
  - eexists. split; [done|]. exists ys. split; [done|]. intros a b Hab Hlb.
    destruct (decide (i < b)%nat); [apply Hs; lia|].
    assert (a = b) as -> by lia. apply le_refl.
Qed.

(** ** Binary search *)

Lemma key_below key x y : compare key x < 0 → le x y → compare key y < 0.
Proof.
  intros Hx Hxy. apply (cmp_flip Hcmp) in Hx. destruct (decide (compare key y < 0)); [done|].
  assert (le y key) as Hyk. { unfold le. destruct (cmp_flip Hcmp key y). lia. }
  pose proof (cmp_trans Hcmp _ _ _ Hxy Hyk). unfold le in *. lia.
Qed.

Lemma key_above key x y : compare key x > 0 → le y x → compare key y > 0.
Proof.
  intros Hx Hyx. destruct (decide (compare key y > 0)); [done|].
  assert (le key y) as Hky by (unfold le; lia).
  pose proof (cmp_trans Hcmp _ _ _ Hky Hyx). unfold le in *. lia.
Qed.

Lemma binary_search_ok key array xs :
  chunked size array xs → sizes_ok xs → sorted xs →
  ∃ r, binary_search compare key array (Z.of_nat (length xs)) Zsize = Ok r ∧
    match r with
    | Some off => ∃ i x, off = Z.of_nat i * Zsize ∧ xs !! i = Some x ∧ compare key x = 0
    | None => ∀ x, x ∈ xs → compare key x ≠ 0
    end.
Proof.
  intros Hc [Hsz Hb] Hs. unfold binary_search. rewrite u32_small by nia.
  eapply (loop_rule (λ k '(f, l), ∃ i j : nat, f = Z.of_nat i * Zsize ∧ l = Z.of_nat j * Zsize ∧
      (i ≤ j ≤ length xs)%nat ∧ k = (j - i)%nat ∧
      (∀ a, (1 ≤ a ≤ i)%nat → compare key (at1 xs a) > 0) ∧
      (∀ a, (j < a ≤ length xs)%nat → compare key (at1 xs a) < 0))) with (n := length xs); [| |lia].
  2: { exists 0%nat, (length xs). split_and!; lia. }
  intros k [f l] (i & j & -> & -> & Hij & -> & Hlow & Hhigh).
  destruct (Z.ltb_spec (Z.of_nat i * Zsize) (Z.of_nat j * Zsize)) as [Hlt|Hge].
  - rewrite <-Z.mul_sub_distr_r, Z.div_mul by lia.
    set (m := Z.to_nat (Z.of_nat i + (Z.of_nat j - Z.of_nat i) / 2)).
    assert (i ≤ m < j)%nat as Hm by (subst m; assert (Z.of_nat i < Z.of_nat j) by nia; dlia).
    rewrite <-Z.mul_add_distr_r.
    assert (Z.of_nat i + (Z.of_nat j - Z.of_nat i) / 2 = Z.of_nat m) as -> by (subst m; dlia).
    clearbody m. pose proof (at1_lookup xs (S m) ltac:(lia)) as Hx.
    replace (S m - 1)%nat with m in Hx by lia.
    rewrite (chunked_elem _ _ _ _ _ Hc Hx). cbn [mbind result_bind].
    destruct (Z.ltb_spec (compare key (at1 xs (S m))) 0) as [Hneg|Hnn];
      [|destruct (Z.gtb_spec (compare key (at1 xs (S m))) 0) as [Hpos|Hnp]]; eexists; (split; [done|]).
    + exists (m - i)%nat. split; [lia|]. exists i, m. split_and!; try done; try lia.
      intros a Ha. eapply key_below; [exact Hneg|]. apply Hs; lia.
    + exists (j - S m)%nat. split; [lia|]. exists (S m), j. split_and!; try done; try lia.
      intros a Ha. apply (key_above key (at1 xs (S m))); [lia|]. apply Hs; lia.
    + exists m, (at1 xs (S m)). split_and!; try done. lia.
  - eexists. split; [done|]. intros x [a Ha]%list_elem_of_lookup.
    pose proof (lookup_lt_Some _ _ _ Ha) as Hla.
    assert (at1 xs (S a) = x) as Ea.
    { unfold at1. replace (S a - 1)%nat with a by lia. by apply list_lookup_total_correct. }
    assert (i = j) as -> by nia. subst x.
    destruct (decide (S a ≤ j)%nat); [specialize (Hlow (S a))|specialize (Hhigh (S a))]; lia.
Qed.

End order.
End elements.

(** ** atoi *)

Definition isspace (c : Z) : bool :=
  (c =? 32) || (c =? 12) || (c =? 10) || (c =? 13) || (c =? 9) || (c =? 11).
Definition isdigit (c : Z) : bool := (48 <=? c) && (c <=? 57).

(** The bytes of a string before its null terminator; reading at the end
    gives the terminator. *)
Definition char_at (s : list Z) : Z := List.hd 0 s.

Fixpoint skip_space (s : list Z) : list Z :=
  match s with
  | c :: s' => if isspace c then skip_space s' else s
  | [] => []
  end.

(** [for (value = 0; isdigit ( *s); s++) value = value * 10 - ( *s - '0');] *)
Fixpoint parse_digits (value : Z) (s : list Z) : Z :=
  match s with
  | c :: s' => if isdigit c then parse_digits (s32 (s32 (value * 10) - (c - 48))) s' else value
  | [] => value
  end.

Definition atoi (s : list Z) : Z :=
  let s := skip_space s in
  let '(negative, s) :=
    if char_at s =? 43 then (false, List.tl s)
    else if char_at s =? 45 then (true, List.tl s)
    else (false, s) in
  let value := parse_digits 0 s in
  if negative then value else s32 (- value).

(** Decimal digits, most significant first. *)
Definition decimal (ds : list Z) : Z := foldl (λ v d, 10 * v + d) 0 ds.

Lemma parse_digits_ok v ds rest :
  0 ≤ v → Forall (λ d, 0 ≤ d ≤ 9) ds → isdigit (char_at rest) = false →
  foldl (λ v d, 10 * v + d) v ds ≤ 2 ^ 31 →
  parse_digits (- v) (((λ d, d + 48) <$> ds) ++ rest) = - foldl (λ v d, 10 * v + d) v ds.
Proof.
  intros Hv Hds Hr. revert v Hv. induction Hds as [|d ds Hd Hds IH]; intros v Hv Hle; simpl in *.
  { destruct rest as [|c r]; simpl in *; [done|by rewrite Hr]. }
  assert (10 * v + d ≤ foldl (λ v d, 10 * v + d) (10 * v + d) ds) as Hmono.
  { assert (0 ≤ 10 * v + d) as H0 by lia. clear -Hds H0. revert H0. generalize (10 * v + d) as w.
    induction Hds as [|e es He _ IH]; intros w Hw; simpl; [done|]. specialize (IH (10 * w + e)). lia. }
  unfold isdigit. rewrite !(proj2 (Z.leb_le _ _)) by lia. simpl.
  rewrite (s32_small (- v * 10)) by lia. rewrite s32_small by lia.
  replace (- v * 10 - (d + 48 - 48)) with (- (10 * v + d)) by lia. apply IH; lia.
Qed.

(** ** Properties *)

(** C35: [sort] (and so [qsort]), a heap sort of [cnt] elements of [size] bytes,
    returns for every array that fits the address space, without reading or
    writing outside it; the result holds the same elements in non-decreasing
    order of any [strcmp]-type comparison. *)
Theorem sort_correct size compare array xs :
  (0 < size)%nat → strcmp_type compare → chunked size array xs → sizes_ok size xs →
  ∃ array', qsort array (Z.of_nat (length xs)) (Z.of_nat size) compare = Ok array' ∧
    ∃ xs', chunked size array' xs' ∧ xs' ≡ₚ xs ∧ sorted compare xs'.
Proof.
  intros Hsz Hcmp Hc Hs. unfold qsort, sort. rewrite (proj2 (Z.ltb_lt 0 _)) by lia.
  cbn [mbind result_bind ASSERT].
  destruct (sort_build_ok size Hsz compare Hcmp array xs Hc Hs) as (arr & E & ys & Ha & Hh).
  change (compare_thunk compare) with compare. rewrite E. cbn [mbind result_bind].
  destruct (sort_heap_ok size Hsz compare Hcmp arr xs ys Ha Hs Hh) as (arr' & E' & zs & [Hz1 Hz2] & Hz3).
  exists arr'. split; [done|]. by exists zs.
Qed.

(** In a sorted array [binary_search] (and so [bsearch]) terminates and
    returns the position of an element equal to the key when there is one,
    and a null pointer only when there is none. *)
Theorem binary_search_correct size compare key array xs :
  (0 < size)%nat → strcmp_type compare → chunked size array xs → sizes_ok size xs →
  sorted compare xs →
  ∃ r, bsearch key array (Z.of_nat (length xs)) (Z.of_nat size) compare = Ok r ∧
    match r with
    | Some off => ∃ i x, off = Z.of_nat i * Z.of_nat size ∧ xs !! i = Some x ∧ compare key x = 0
    | None => ∀ x, x ∈ xs → compare key x ≠ 0
    end.
Proof. intros Hsz Hcmp. by apply binary_search_ok. Qed.

(** [atoi] skips white space, takes one sign and returns the value of the
    decimal digits that follow, for every value an [int] can hold, INT_MIN
    included; parsing stops at the first other character. *)
Theorem atoi_correct spaces (sign : option bool) ds rest :
  Forall (λ c, isspace c = true) spaces → ds ≠ [] → Forall (λ d, 0 ≤ d ≤ 9) ds →
  isdigit (char_at rest) = false →
  decimal ds ≤ (if sign is Some true then 2 ^ 31 else 2 ^ 31 - 1) →
  atoi (spaces ++ match sign with None => [] | Some true => [45] | Some false => [43] end ++
        ((λ d, d + 48) <$> ds) ++ rest) =
  if sign is Some true then - decimal ds else decimal ds.
Proof.
  intros Hsp Hne Hds Hrest Hle. unfold atoi.
  set (t := match sign with None => [] | Some true => [45] | Some false => [43] end ++
    ((λ d, d + 48) <$> ds) ++ rest).
  assert (skip_space (spaces ++ t) = t) as ->.
  { induction Hsp as [|c cs Hc _ IH]; simpl; [|by rewrite Hc].
    destruct ds as [|d ds]; [done|]. inversion Hds; subst. subst t.
    destruct sign as [[]|]; simpl; try done. unfold isspace.
    repeat rewrite (proj2 (Z.eqb_neq (d + 48) _)) by lia. done. }
  assert (decimal ds ≤ 2 ^ 31 → parse_digits 0 (((λ d, d + 48) <$> ds) ++ rest) = - decimal ds) as Hp
    by apply (parse_digits_ok 0 ds rest ltac:(lia) Hds Hrest).
  assert (0 ≤ decimal ds).
  { unfold decimal. clear -Hds. assert (0 ≤ 0) as H0 by lia. revert H0. generalize 0 at 2 4 as w.
    induction Hds as [|e es He _ IH]; intros w Hw; simpl; [done|]. apply IH. lia. }
  subst t. destruct sign as [[]|].
  - apply Hp. lia.
  - simpl. rewrite Hp by lia. rewrite Z.opp_involutive. apply s32_small. lia.
  - assert (∃ d, char_at (((λ d, d + 48) <$> ds) ++ rest) = d + 48 ∧ 0 ≤ d) as (d & Ed & Hd).
    { destruct ds as [|d ds]; [done|]. inversion Hds; subst. exists d. split; [done|lia]. }
    rewrite app_nil_l, Ed, !(proj2 (Z.eqb_neq (d + 48) _)) by lia.
    rewrite Hp by lia. rewrite Z.opp_involutive. apply s32_small. lia.
Qed.

(** ** Witnesses *)

Definition demo_compare (x y : list Z) : Z := List.hd 0 x - List.hd 0 y.

Lemma demo_strcmp : strcmp_type demo_compare.
Proof. split; unfold demo_compare, le; lia. Qed.

Definition demo_elems : list (list Z) := [[5; 1]; [9; 2]; [3; 3]; [7; 4]; [1; 5]].

Lemma demo_chunked : chunked 2 (concat demo_elems) demo_elems.
Proof. split; [done|repeat constructor]. Qed.

Lemma sort_correct_witness :
  qsort (concat demo_elems) 5 2 demo_compare = Ok [1; 5; 3; 3; 5; 1; 7; 4; 9; 2] ∧
  ∃ array', qsort (concat demo_elems) 5 2 demo_compare = Ok array' ∧
    ∃ xs', chunked 2 array' xs' ∧ xs' ≡ₚ demo_elems ∧ sorted demo_compare xs'.
Proof.
  split; [vm_compute; reflexivity|].
  apply (sort_correct 2 demo_compare (concat demo_elems) demo_elems);
    [lia|apply demo_strcmp|apply demo_chunked|split; vm_compute; reflexivity].
Defined.

Lemma binary_search_correct_witness :
  ∃ r, bsearch [7] [1; 5; 3; 3; 7; 4] 3 2 demo_compare = Ok r ∧ r = Some 4.
Proof.
  destruct (binary_search_correct 2 demo_compare [7] [1; 5; 3; 3; 7; 4] [[1; 5]; [3; 3]; [7; 4]])
    as (r & E & _); [lia|apply demo_strcmp|split; [done|repeat constructor]|split; vm_compute; reflexivity| |].
  - intros a b Hab Hb. simpl in Hb. unfold le, at1.
    assert (a = 1 ∨ a = 2 ∨ a = 3)%nat as [->|[->| ->]] by lia;
      assert (b = 1 ∨ b = 2 ∨ b = 3)%nat as [->|[->| ->]] by lia; vm_compute; lia || congruence.
  - exists r. split; [exact E|]. vm_compute in E. by injection E as <-.
Defined.

Lemma atoi_correct_witness : atoi [32; 45; 50; 49; 52; 55; 52; 56; 51; 54; 52; 56; 120] = - 2 ^ 31.
Proof.
  apply (atoi_correct [32] (Some true) [2; 1; 4; 7; 4; 8; 3; 6; 4; 8] [120]);
    [repeat constructor|done|repeat constructor; lia|reflexivity|vm_compute; congruence].
Defined.
