(* ===== verification/Random.v ===== *)
(** * Pseudo-random numbers: lib/random.c

    An RC4 key stream over the file's static state: the array [s], the two
    indexes and the [inited] flag.  The theorems give the state invariant ([s]
    stays a permutation of the 256 byte values, so every access is in bounds)
    and that the generator is one stream, however it is cut into requests. *)

From S2P Require Import Prelude.
From Stdlib Require Import Sorting.Permutation.

(** ** random.c *)

Record rc4 := mk_rc4 { s : list Z; s_i : Z; s_j : Z; inited : bool }.

Definition s_get (i : Z) : ST rc4 Z := λ st,
  match s st !! Z.to_nat i with Some b => Ok (b, st) | None => Err BadAccess end.
Definition set_s (x : list Z) (st : rc4) : rc4 := mk_rc4 x (s_i st) (s_j st) (inited st).
Definition s_put (i v : Z) : ST rc4 unit :=
  _ ← s_get i; modify (λ st, set_s (<[Z.to_nat i := v]> (s st)) st).

(** [swap_byte (s + a, s + b)]. *)
Definition swap_byte (a b : Z) : ST rc4 unit :=
  t ← s_get a; y ← s_get b; s_put a y;; s_put b t.

(** Byte [i] of the little-endian [unsigned] SEED. *)
Definition seedp (seed i : Z) : Z := u8 (Z.shiftr seed (8 * i)).

Definition random_init (seed : Z) : ST rc4 unit :=
  loopM 257 (λ i,
    if i <? 256 then
      s_get i;; modify (λ st, set_s (<[Z.to_nat i := u8 i]> (s st)) st);; mret (inl (i + 1))
    else mret (inr tt)) 0;;
  loopM 257 (λ '(i, j),
    if i <? 256 then
      si ← s_get i;
      let j := u8 (j + (si + seedp seed (i mod 4))) in
      swap_byte i j;; mret (inl (i + 1, j))
    else mret (inr tt)) (0, 0);;
  modify (λ st, mk_rc4 (s st) 0 0 true).

Definition random_byte : ST rc4 Z :=
  modify (λ st, mk_rc4 (s st) (u8 (s_i st + 1)) (s_j st) (inited st));;
  st ← get; x ← s_get (s_i st);
  modify (λ st, mk_rc4 (s st) (s_i st) (u8 (s_j st + x)) (inited st));;
  st ← get; swap_byte (s_i st) (s_j st);;
  st ← get; x ← s_get (s_i st); y ← s_get (s_j st);
  let s_k := u8 (x + y) in
  s_get s_k.

(** The bytes written into BUF. *)
Definition random_bytes (size : Z) : ST rc4 (list Z) :=
  st ← get;
  (if negb (inited st) then random_init 0 else mret tt);;
  loopM (S (Z.to_nat size)) (λ '(size, buf),
    if size >? 0 then
      b ← random_byte; mret (inl (size - 1, buf ++ [b]))
    else mret (inr buf)) (size, []).

(** A 32-bit little-endian [unsigned long]. *)
Definition random_ulong : ST rc4 Z :=
  bs ← random_bytes 4;
  mret (foldr (λ b v, b + 2 ^ 8 * v) 0 bs).

(** ** Invariant *)

Definition byte_values : list Z := Z.of_nat <$> seq 0 256.

Record rc4_wf (st : rc4) : Prop := {
  wf_perm : s st ≡ₚ byte_values;
  wf_i : 0 ≤ s_i st < 256;
  wf_j : 0 ≤ s_j st < 256
}.

(** The static array before initialization. *)
Definition rc4_array (st : rc4) : Prop := length (s st) = 256%nat ∧ Forall (λ b, 0 ≤ b < 256) (s st).

Lemma byte_values_array : length byte_values = 256%nat ∧ Forall (λ b, 0 ≤ b < 256) byte_values.
Proof.
  split; [done|]. apply Forall_fmap, Forall_forall. intros k Hk. simpl.
  apply elem_of_seq in Hk. lia.
Qed.

Lemma perm_array st : s st ≡ₚ byte_values → rc4_array st.
Proof. intros H. unfold rc4_array. rewrite H. apply byte_values_array. Qed.

Lemma s_get_ok st i : rc4_array st → 0 ≤ i < 256 → ∃ b, s_get i st = Ok (b, st) ∧
  s st !! Z.to_nat i = Some b ∧ 0 ≤ b < 256.
Proof.
  intros [Hl Hb] Hi. destruct (lookup_lt_is_Some_2 (s st) (Z.to_nat i)) as [b E]; [lia|].
  exists b. unfold s_get. rewrite E. split_and!; try done; apply (Forall_lookup_1 _ _ _ _ Hb E).
Qed.

Lemma s_put_ok st i v :
  (Z.to_nat i < length (s st))%nat → s_put i v st = Ok (tt, set_s (<[Z.to_nat i := v]> (s st)) st).
Proof.
  intros [x Ex]%lookup_lt_is_Some_2. unfold s_put, s_get. erewrite bind_ok; [reflexivity|].
  by rewrite Ex.
Qed.

Lemma swap_byte_ok st a b :
  rc4_array st → 0 ≤ a < 256 → 0 ≤ b < 256 →
  swap_byte a b st = Ok (tt, set_s (list_swap (Z.to_nat a) (Z.to_nat b) (s st)) st).
Proof.
  intros Hst Ha Hb. destruct (s_get_ok st a Hst Ha) as (x & Ex & Hx & _).
  destruct (s_get_ok st b Hst Hb) as (y & Ey & Hy & _). destruct Hst as [Hl _].
  unfold swap_byte. erewrite bind_ok by exact Ex. erewrite bind_ok by exact Ey.
  erewrite bind_ok by (apply s_put_ok; lia).
  rewrite s_put_ok by (simpl; rewrite length_insert; lia).
  unfold list_swap. rewrite Hx, Hy. unfold set_s. simpl. do 3 f_equal.
  destruct (decide (a = b)) as [->|N].
  - rewrite !list_insert_insert_eq. congruence.
  - apply list_insert_insert_ne. lia.
Qed.

Lemma swap_wf st a b :
  s st ≡ₚ byte_values → 0 ≤ a < 256 → 0 ≤ b < 256 →
  ∃ st', swap_byte a b st = Ok (tt, st') ∧ s st' ≡ₚ byte_values ∧
    s_i st' = s_i st ∧ s_j st' = s_j st ∧ inited st' = inited st.
Proof.
  intros H Ha Hb. rewrite swap_byte_ok by (by try apply perm_array). eexists. split; [done|].
  simpl. by rewrite list_swap_perm.
Qed.

Lemma random_init_ok st seed :
  rc4_array st →
  ∃ st', random_init seed st = Ok (tt, st') ∧ rc4_wf st' ∧ inited st' = true.
Proof.
  intros Hst. unfold random_init.
  edestruct (loopM_rule (λ n i st1, 0 ≤ i ≤ 256 ∧ n = Z.to_nat (256 - i) ∧ length (s st1) = 256%nat ∧
      take (Z.to_nat i) (s st1) = take (Z.to_nat i) byte_values)
    (λ (_ : unit) st1, s st1 = byte_values)) as (u & st1 & E1 & H1); cycle -1;
    [erewrite bind_ok by exact E1| | |].
  - edestruct (loopM_rule (λ n '(i, j) st2, 0 ≤ i ≤ 256 ∧ 0 ≤ j < 256 ∧ n = Z.to_nat (256 - i) ∧
        s st2 ≡ₚ byte_values)
      (λ (_ : unit) st2, s st2 ≡ₚ byte_values)) as (u2 & st2 & E2 & H2); cycle -1;
      [erewrite bind_ok by exact E2| | |].
    + eexists. split; [reflexivity|]. split; [split; simpl; [done|lia..]|done].
    + intros n [i j] st2 (Hi & Hj & -> & H2). destruct (Z.ltb_spec i 256).
      * destruct (s_get_ok st2 i) as (x & Ex & _ & Hx); [by apply perm_array|lia|].
        erewrite bind_ok by exact Ex. cbv zeta.
        destruct (swap_wf st2 i (u8 (j + (x + seedp seed (i mod 4))))) as (st3 & E3 & H3 & _);
          [done|lia|apply u8_range|].
        erewrite bind_ok by exact E3. eexists _, _. split; [reflexivity|].
        exists (Z.to_nat (256 - (i + 1))). split; [lia|]. split_and!; try done; try lia; apply u8_range.
      * eexists _, _. split; [reflexivity|]. done.
    + split_and!; [lia..|done|]. by rewrite H1.
    + lia.
  - intros n i st1 (Hi & -> & Hl & Ht). destruct (Z.ltb_spec i 256).
    + unfold s_get. destruct (lookup_lt_is_Some_2 (s st1) (Z.to_nat i)) as [x Ex]; [lia|].
      erewrite bind_ok; [|rewrite Ex; reflexivity]. erewrite bind_ok; [|reflexivity].
      eexists _, _. split; [reflexivity|]. exists (Z.to_nat (256 - (i + 1))). split; [lia|].
      simpl. rewrite length_insert, Z2Nat.inj_add, Nat.add_1_r by lia. split_and!; try done; try lia.
      assert (byte_values !! Z.to_nat i = Some (u8 i)) as Ei.
      { unfold byte_values. rewrite list_lookup_fmap, lookup_seq_lt by lia. simpl.
        rewrite u8_small by lia. f_equal. lia. }
      rewrite (take_S_r byte_values _ _ Ei), (take_S_r _ _ (u8 i)).
      * rewrite take_insert_ge by lia. by rewrite Ht.
      * apply list_lookup_insert_eq. lia.
    + eexists _, _. split; [reflexivity|]. assert (i = 256) as -> by lia.
      by rewrite !take_ge in Ht by (simpl; lia).
  - destruct Hst as [Hl _]. split_and!; [lia..|reflexivity|done|done].
  - lia.
Qed.

Lemma random_byte_ok st :
  rc4_wf st →
  ∃ b st', random_byte st = Ok (b, st') ∧ rc4_wf st' ∧ inited st' = inited st ∧ 0 ≤ b < 256.
Proof.
  intros [Hp Hi Hj]. unfold random_byte. erewrite bind_ok; [|reflexivity].
  set (st1 := mk_rc4 _ _ _ _). erewrite bind_ok; [|apply get_ok].
  pose proof (u8_range (s_i st + 1)) as Hi1.
  destruct (s_get_ok st1 (s_i st1)) as (x & Ex & _); [by apply perm_array|done|].
  erewrite bind_ok by exact Ex. erewrite bind_ok; [|reflexivity].
  set (st2 := mk_rc4 _ _ _ _). erewrite bind_ok; [|apply get_ok].
  pose proof (u8_range (s_j st1 + x)) as Hj2.
  destruct (swap_wf st2 (s_i st2) (s_j st2)) as (st3 & E3 & H3 & Hi3 & Hj3 & Hn3); [done..|].
  erewrite bind_ok by exact E3. erewrite bind_ok; [|apply get_ok]. rewrite Hi3, Hj3.
  destruct (s_get_ok st3 (s_i st2)) as (y & Ey & _); [by apply perm_array|done|].
  destruct (s_get_ok st3 (s_j st2)) as (z & Ez & _); [by apply perm_array|done|].
  erewrite bind_ok by exact Ey. erewrite bind_ok by exact Ez.
  destruct (s_get_ok st3 (u8 (y + z))) as (w & Ew & _ & Hw); [by apply perm_array|apply u8_range|].
  exists w, st3. split_and!; try done; try lia. split; rewrite ?Hi3, ?Hj3; done.
Qed.

(** ** The key stream *)

Fixpoint stream (n : nat) : ST rc4 (list Z) :=
  match n with
  | O => mret []
  | S n => b ← random_byte; bs ← stream n; mret (b :: bs)
  end.

Lemma stream_ok n st :
  rc4_wf st →
  ∃ bs st', stream n st = Ok (bs, st') ∧ rc4_wf st' ∧ inited st' = inited st ∧
    length bs = n ∧ Forall (λ b, 0 ≤ b < 256) bs.
Proof.
  revert st. induction n as [|n IH]; intros st Hst; simpl.
  { exists [], st. by split_and!. }
  destruct (random_byte_ok st Hst) as (b & st1 & E1 & H1 & Hi1 & Hb).
  destruct (IH st1 H1) as (bs & st2 & E2 & H2 & Hi2 & Hl & Hbs).
  exists (b :: bs), st2. erewrite bind_ok by exact E1. erewrite bind_ok by exact E2.
  split_and!; try done; [by rewrite Hi2|by simpl; rewrite Hl|by constructor].
Qed.

Lemma stream_app m n st bs1 st1 bs2 st2 :
  stream m st = Ok (bs1, st1) → stream n st1 = Ok (bs2, st2) →
  stream (m + n) st = Ok (bs1 ++ bs2, st2).
Proof.
  revert st bs1. induction m as [|m IH]; intros st bs1 E1 E2; simpl in *.
  { by injection E1 as <- <-. }
  unfold mbind, st_bind in *. destruct (random_byte st) as [[b st']|] eqn:Eb; [|done].
  destruct (stream m st') as [[bs st'']|] eqn:Es; [|done]. injection E1 as <- <-.
  by rewrite (IH _ _ Es E2).
Qed.

(** The state of the file's static variables at every call. *)
Definition rc4_state (st : rc4) : Prop :=
  if inited st then rc4_wf st else rc4_array st.

Definition ensure_init : ST rc4 unit :=
  st ← get; if negb (inited st) then random_init 0 else mret tt.

Lemma ensure_init_ok st :
  rc4_state st → ∃ st', ensure_init st = Ok (tt, st') ∧ rc4_wf st' ∧ inited st' = true.
Proof.
  unfold rc4_state, ensure_init. intros H. erewrite bind_ok by apply get_ok.
  destruct (inited st) eqn:E; simpl; [by exists st|by apply random_init_ok].
Qed.

(** The loop of [random_bytes] is the stream. *)
Lemma random_bytes_loop st n acc bs st' :
  stream n st = Ok (bs, st') →
  loopM (S n) (λ '(size, buf),
    if size >? 0 then b ← random_byte; mret (inl (size - 1, buf ++ [b]))
    else mret (inr buf)) (Z.of_nat n, acc) st = Ok (acc ++ bs, st').
Proof.
  revert st acc bs. induction n as [|n IH]; intros st acc bs E; simpl in E.
  { injection E as <- <-. by rewrite app_nil_r. }
  unfold mbind, st_bind in E. destruct (random_byte st) as [[b st1]|] eqn:Eb; [|done].
  destruct (stream n st1) as [[bs1 st2]|] eqn:Es; [|done]. injection E as <- <-.
  erewrite loopM_step; cycle 1.
  { rewrite (proj2 (Z.gtb_lt (Z.of_nat (S n)) 0)) by lia. erewrite bind_ok by exact Eb. reflexivity. }
  replace (Z.of_nat (S n) - 1) with (Z.of_nat n) by lia.
  rewrite (IH st1 (acc ++ [b]) bs1 Es). by rewrite <-app_assoc.
Qed.

Lemma random_bytes_stream st st0 n bs st' :
  ensure_init st = Ok (tt, st0) → stream n st0 = Ok (bs, st') →
  random_bytes (Z.of_nat n) st = Ok (bs, st').
Proof.
  intros E0 Es. unfold random_bytes. erewrite bind_ok by apply get_ok.
  unfold ensure_init in E0. erewrite bind_ok in E0 by apply get_ok.
  erewrite bind_ok by exact E0. rewrite Nat2Z.id. by rewrite (random_bytes_loop _ _ _ _ _ Es).
Qed.

(** ** Properties *)

(** The RC4 array stays a permutation of the 256 byte values from the
    first use on, so that no request reads outside it; a request for [m] bytes
    followed by one for [n] bytes gives the same bytes and the same state as
    one request for [m + n] bytes, whether or not [random_init] was called. *)
Theorem random_bytes_correct st m n :
  rc4_state st → 0 ≤ m → 0 ≤ n →
  ∃ buf1 st1 buf2 st2,
    random_bytes m st = Ok (buf1, st1) ∧ random_bytes n st1 = Ok (buf2, st2) ∧
    random_bytes (m + n) st = Ok (buf1 ++ buf2, st2) ∧
    rc4_wf st1 ∧ rc4_wf st2 ∧ inited st2 = true ∧
    Z.of_nat (length buf1) = m ∧ Z.of_nat (length buf2) = n ∧
    Forall (λ b, 0 ≤ b < 256) (buf1 ++ buf2).
Proof.
  intros Hst Hm Hn. destruct (ensure_init_ok st Hst) as (st0 & E0 & H0 & Hi0).
  destruct (stream_ok (Z.to_nat m) st0 H0) as (b1 & st1 & E1 & H1 & Hi1 & L1 & F1).
  destruct (stream_ok (Z.to_nat n) st1 H1) as (b2 & st2 & E2 & H2 & Hi2 & L2 & F2).
  assert (ensure_init st1 = Ok (tt, st1)) as E1'.
  { unfold ensure_init. erewrite bind_ok by apply get_ok. by rewrite Hi1, Hi0. }
  exists b1, st1, b2, st2.
  rewrite <-(Z2Nat.id m), <-(Z2Nat.id n), <-Nat2Z.inj_add by lia.
  rewrite !(random_bytes_stream _ _ _ _ _ E0 E1), (random_bytes_stream _ _ _ _ _ E1' E2).
  rewrite (random_bytes_stream _ _ _ _ _ E0 (stream_app _ _ _ _ _ _ _ E1 E2)).
  rewrite L1, L2, Forall_app. split_and!; try done. by rewrite Hi2, Hi1.
Qed.

(** ** Witnesses *)

(** The static variables at start-up. *)
Definition rc4_boot : rc4 := mk_rc4 (repeat 0 256) 0 0 false.

Lemma random_bytes_correct_witness :
  ∃ buf1 st1, random_bytes 3 rc4_boot = Ok (buf1, st1) ∧ rc4_wf st1 ∧ buf1 = [222; 24; 137].
Proof.
  destruct (random_bytes_correct rc4_boot 3 5) as (b1 & st1 & b2 & st2 & E1 & _ & _ & H1 & _);
    [split; [reflexivity|vm_compute; repeat constructor; congruence]|lia..|].
  exists b1, st1. split_and!; [done..|].
  assert (match random_bytes 3 rc4_boot with Ok (b, _) => b | Err _ => [] end = [222; 24; 137]) as E
    by (vm_compute; reflexivity).
  by rewrite E1 in E.
Defined.
