(* ===== verification/Rtc.v ===== *)
(** * The real-time clock: devices/rtc.c

    The registers of the clock, as the successive accesses find them, are an
    argument.  The theorem compares rtc_get_time with the seconds since 1970 in
    the Gregorian calendar; they differ, by whole days. *)

From S2P Require Import Prelude.

Definition RTC_REG_SEC : Z := 0.
Definition RTC_REG_MIN : Z := 2.
Definition RTC_REG_HOUR : Z := 4.
Definition RTC_REG_MDAY : Z := 7.
Definition RTC_REG_MON : Z := 8.
Definition RTC_REG_YEAR : Z := 9.

Section rtc.
(** The register [index] at the [n]-th access. *)
Variable cmos : nat → Z → Z.

(** The state counts the accesses. *)
Definition cmos_read (index : Z) : ST nat Z := λ n, Ok (u8 (cmos n index), S n).

Definition bcd_to_bin (x : Z) : Z := Z.land x 0x0f + Z.shiftr x 4 * 10.

Definition days_per_month : list Z := [31; 28; 31; 30; 31; 30; 31; 31; 30; 31; 30; 31].

Record components := mk_time { sec : Z; min : Z; hour : Z; mday : Z; mon : Z; year : Z }.

(** One round of the loop that reads the components, and whether they are
    stable. *)
Definition read_components : ST nat (components * bool) :=
  sec ← cmos_read RTC_REG_SEC;
  min ← cmos_read RTC_REG_MIN;
  hour ← cmos_read RTC_REG_HOUR;
  mday ← cmos_read RTC_REG_MDAY;
  mon ← cmos_read RTC_REG_MON;
  year ← cmos_read RTC_REG_YEAR;
  again ← cmos_read RTC_REG_SEC;
  mret (mk_time (bcd_to_bin sec) (bcd_to_bin min) (bcd_to_bin hour) (bcd_to_bin mday) (bcd_to_bin mon) (bcd_to_bin year), bcd_to_bin sec =? bcd_to_bin again).

Definition read_time (fuel : nat) : ST nat components :=
  loopM fuel (λ _ : unit, r ← read_components; mret (if snd r : bool then inr (fst r) else inl tt)) tt.

(** [for (i = 1; i <= mon; i++) time += days_per_month[i - 1] * 24 * 60 * 60;] *)
Definition add_months (mon time : Z) : result Z :=
  loop (S (Z.to_nat mon)) (λ '(i, time),
    if i <=? mon then
      match days_per_month !! Z.to_nat (i - 1) with
      | Some d => Ok (inl (i + 1, u32 (time + s32 (d * 24 * 60 * 60))))
      | None => Err BadAccess
      end
    else Ok (inr time)) (1, time).

Definition seconds (c : components) : result Z :=
  let year := (if year c <? 70 then year c + 100 else year c) - 70 in
  let time := u32 (s32 ((year * 365 + Z.quot (year - 1) 4) * 24 * 60 * 60)) in
  time ← add_months (mon c) time;
  let time := if (mon c >? 2) && (Z.rem year 4 =? 0) then u32 (time + 24 * 60 * 60) else time in
  let time := u32 (time + (mday c - 1) * 24 * 60 * 60) in
  let time := u32 (time + hour c * 60 * 60) in
  let time := u32 (time + min c * 60) in
  mret (u32 (time + sec c)).

Definition rtc_get_time (fuel : nat) : ST nat Z :=
  c ← read_time fuel; match seconds c with Ok t => mret t | Err e => fail e end.
End rtc.

(** ** The calendar *)

Definition leap (y : Z) : bool := (y mod 4 =? 0) && (negb (y mod 100 =? 0) || (y mod 400 =? 0)).
Definition days_in_year (y : Z) : Z := if leap y then 366 else 365.
Definition days_in_month (y m : Z) : Z := if (m =? 2) && leap y then 29 else nth (Z.to_nat (m - 1)) days_per_month 0.

(** The days from 1 January 1970 to a date, and the seconds to a time. *)
Definition days_since_1970 (y m d : Z) : Z :=
  foldr Z.add 0 (days_in_year <$> seqZ 1970 (y - 1970)) + foldr Z.add 0 (days_in_month y <$> seqZ 1 (m - 1)) + (d - 1).
Definition unix_time (y m d hh mm ss : Z) : Z := ((days_since_1970 y m d * 24 + hh) * 60 + mm) * 60 + ss.

(** By how many days the code is wrong: the month itself is counted, leap days
    are due every fourth year from 1970 on, and appear in other years. *)
Definition days_off (y m : Z) : Z :=
  nth (Z.to_nat (m - 1)) days_per_month 0
  + (if (m >? 2) && ((y - 1970) mod 4 =? 0) then 1 else 0) - (if (m >? 2) && ((y - 1970) mod 4 =? 2) then 1 else 0)
  - (if (y >? 1970) && bool_decide ((y - 1970) mod 4 ∈ [0; 3]) then 1 else 0).

Definition bcd (x : Z) : Z := x / 10 * 16 + x mod 10.

Lemma bcd_roundtrip x : 0 ≤ x < 100 → bcd_to_bin (u8 (bcd x)) = x.
Proof.
  intros Hx. assert (Forall (λ x, bcd_to_bin (u8 (bcd x)) = x) (seqZ 0 100)) as HF by (apply (bool_decide_unpack _); vm_compute; reflexivity).
  rewrite Forall_forall in HF. apply HF, elem_of_seqZ. lia.
Qed.

(** The days that the code counts before those of the month. *)
Definition code_days (y m : Z) : Z :=
  let year := y - 1970 in
  year * 365 + Z.quot (year - 1) 4 + foldr Z.add 0 (take (Z.to_nat m) days_per_month) + (if (m >? 2) && (Z.rem year 4 =? 0) then 1 else 0).

Lemma code_days_off y m : 1970 ≤ y < 2038 → 1 ≤ m ≤ 12 →
  code_days y m = days_since_1970 y m 1 + days_off y m ∧ 0 ≤ code_days y m ≤ 25000.
Proof.
  intros Hy Hm.
  assert (Forall (λ y, Forall (λ m, code_days y m = days_since_1970 y m 1 + days_off y m ∧ 0 ≤ code_days y m ≤ 25000) (seqZ 1 12)) (seqZ 1970 68)) as HF
    by (apply (bool_decide_unpack _); vm_compute; reflexivity).
  rewrite Forall_forall in HF. specialize (HF y ltac:(apply elem_of_seqZ; lia)). rewrite Forall_forall in HF. apply HF, elem_of_seqZ. lia.
Qed.

Lemma months_step n : 0 ≤ n < 12 → ∃ d, days_per_month !! Z.to_nat n = Some d ∧ 0 ≤ d ≤ 31 ∧
  foldr Z.add 0 (take (Z.to_nat (n + 1)) days_per_month) = foldr Z.add 0 (take (Z.to_nat n) days_per_month) + d ∧
  0 ≤ foldr Z.add 0 (take (Z.to_nat n) days_per_month) ≤ 366 - d.
Proof.
  intros Hn. assert (n ∈ seqZ 0 12) as H by (apply elem_of_seqZ; lia). revert n Hn H.
  assert (Forall (λ n, ∃ d, days_per_month !! Z.to_nat n = Some d ∧ 0 ≤ d ≤ 31 ∧
    foldr Z.add 0 (take (Z.to_nat (n + 1)) days_per_month) = foldr Z.add 0 (take (Z.to_nat n) days_per_month) + d ∧
    0 ≤ foldr Z.add 0 (take (Z.to_nat n) days_per_month) ≤ 366 - d) (seqZ 0 12)) as HF.
  { repeat (apply Forall_cons; split; [eexists; split; [reflexivity|vm_compute; split_and!; (discriminate || reflexivity)]|]). apply Forall_nil_2. }
  rewrite Forall_forall in HF. intros n _ Hn. by apply HF.
Qed.

Lemma add_months_ok m time : 1 ≤ m ≤ 12 → 0 ≤ time < 2 ^ 32 - 86400 * 366 →
  add_months m time = Ok (time + 86400 * foldr Z.add 0 (take (Z.to_nat m) days_per_month)).
Proof.
  intros Hm Ht. unfold add_months. set (F n := foldr Z.add 0 (take (Z.to_nat n) days_per_month)).
  match goal with |- loop _ ?g _ = _ => set (body := g) end.
  destruct (loop_rule (λ k '(i, t), 1 ≤ i ≤ m + 1 ∧ k = Z.to_nat (m + 1 - i) ∧ t = time + 86400 * F (i - 1)) (λ t, t = time + 86400 * F m) body)
    with (fuel := S (Z.to_nat m)) (n := Z.to_nat m) (l := (1, time)) as (t & E & ->); [| |lia|exact E].
  - intros k [i t] (Hi & -> & ->). unfold body. destruct (Z.leb_spec i m).
    + destruct (months_step (i - 1)) as (d & Hd & Hd0 & Hs & Hb); [lia|]. rewrite Hd. eexists. split; [done|]. exists (Z.to_nat (m + 1 - (i + 1))).
      split; [lia|]. split_and!; [lia|lia|done|]. replace (i - 1 + 1) with (i + 1 - 1) in Hs by lia. unfold F. rewrite Hs.
      rewrite s32_small by lia. rewrite u32_small by (unfold F; lia). lia.
    + eexists. split; [done|]. assert (i = m + 1) as -> by lia. do 3 f_equal. lia.
  - split_and!; [lia|lia|f_equal; lia|]. simpl. unfold F. simpl. lia.
Qed.

Record valid (c : components) (y : Z) : Prop := {
  v_year : 1970 ≤ y < 2038 ∧ year c = y mod 100;
  v_mon : 1 ≤ mon c ≤ 12;
  v_mday : 1 ≤ mday c ≤ 31;
  v_hour : 0 ≤ hour c < 24;
  v_min : 0 ≤ min c < 60;
  v_sec : 0 ≤ sec c < 60
}.

Lemma years_ok c y : valid c y → (if year c <? 70 then year c + 100 else year c) - 70 = y - 1970.
Proof. intros [[Hy ->] _ _ _ _ _]. destruct (Z.ltb_spec (y mod 100) 70); dlia. Qed.

Lemma days_shift y m d : days_since_1970 y m d = days_since_1970 y m 1 + (d - 1).
Proof. unfold days_since_1970. lia. Qed.

Lemma seconds_ok c y : valid c y →
  seconds c = Ok (unix_time y (mon c) (mday c) (hour c) (min c) (sec c) + 86400 * days_off y (mon c)).
Proof.
  intros Hv. pose proof Hv as [[Hy _] Hm Hd Hh Hmi Hs]. unfold seconds. rewrite (years_ok c y Hv). set (q := y - 1970).
  destruct (code_days_off y (mon c) Hy Hm) as [Hc Hb]. unfold code_days in Hc, Hb. fold q in Hc, Hb.
  destruct (months_step (mon c - 1)) as (dm & _ & Hdm & Hsum & Hbm); [lia|]. replace (mon c - 1 + 1) with (mon c) in Hsum by lia.
  set (F := foldr Z.add 0 (take (Z.to_nat (mon c)) days_per_month)) in *.
  assert (-1 ≤ Z.quot (q - 1) 4 ≤ q) as Hq.
  { destruct (decide (q = 0)) as [->|]; [done|]. rewrite Z.quot_div_nonneg by lia. dlia. }
  assert (0 ≤ q * 365 + Z.quot (q - 1) 4 ≤ 24855) as Hq2.
  { destruct (decide (q = 0)) as [->|]; [done|]. rewrite Z.quot_div_nonneg by lia. dlia. }
  rewrite s32_small, u32_small by lia. rewrite add_months_ok by lia. cbn [mbind]. unfold mbind, result_bind. cbv beta iota. fold F.
  set (b := (mon c >? 2) && (Z.rem q 4 =? 0)) in *. unfold unix_time. rewrite days_shift.
  assert ((if b then u32 ((q * 365 + Z.quot (q - 1) 4) * 24 * 60 * 60 + 86400 * F + 24 * 60 * 60) else (q * 365 + Z.quot (q - 1) 4) * 24 * 60 * 60 + 86400 * F) =
    86400 * (days_since_1970 y (mon c) 1 + days_off y (mon c))) as ->.
  { rewrite <-Hc. destruct b; [rewrite u32_small by lia|]; lia. }
  rewrite <-Hc. set (B := 86400 * _). assert (0 ≤ B ≤ 86400 * 25000) as HB by lia.
  rewrite (u32_small (B + (mday c - 1) * 24 * 60 * 60)) by lia. rewrite (u32_small (_ + hour c * 60 * 60)) by lia.
  rewrite (u32_small (_ + min c * 60)) by lia. rewrite u32_small by lia. unfold mret, result_ret. f_equal. lia.
Qed.

(** ** Reading a clock that does not change *)

Definition shows (cmos : nat → Z → Z) (k : nat) (c : components) : Prop :=
  ∀ n, (k ≤ n)%nat → cmos n RTC_REG_SEC = bcd (sec c) ∧ cmos n RTC_REG_MIN = bcd (min c) ∧ cmos n RTC_REG_HOUR = bcd (hour c) ∧
    cmos n RTC_REG_MDAY = bcd (mday c) ∧ cmos n RTC_REG_MON = bcd (mon c) ∧ cmos n RTC_REG_YEAR = bcd (year c).

Lemma read_stable cmos k c y n :
  shows cmos k c → valid c y → (k ≤ n)%nat → read_components cmos n = Ok ((c, true), (n + 7)%nat).
Proof.
  intros Hs [[Hy Hye] Hm Hd Hh Hmi Hsec] Hn. unfold read_components, cmos_read, mbind, st_bind.
  assert (∀ j, (n ≤ j)%nat → (k ≤ j)%nat) as Hk by lia.
  destruct (Hs n) as (-> & _); [lia|]. destruct (Hs (S n)) as (_ & -> & _); [lia|]. destruct (Hs (S (S n))) as (_ & _ & -> & _); [lia|].
  destruct (Hs (S (S (S n)))) as (_ & _ & _ & -> & _); [lia|]. destruct (Hs (S (S (S (S n))))) as (_ & _ & _ & _ & -> & _); [lia|].
  destruct (Hs (S (S (S (S (S n)))))) as (_ & _ & _ & _ & _ & ->); [lia|]. destruct (Hs (S (S (S (S (S (S n))))))) as (-> & _); [lia|].
  unfold mret, st_ret. rewrite !bcd_roundtrip by (rewrite ?Hye; dlia). rewrite Z.eqb_refl. replace (n + 7)%nat with (S (S (S (S (S (S (S n))))))) by lia. by destruct c.
Qed.

(** With a clock that shows a date before 2038 the loop ends in its first round,
    and the result is wrong by [days_off] days. *)
Theorem rtc_get_time_off cmos c y fuel :
  shows cmos 0 c → valid c y →
  rtc_get_time cmos (S fuel) 0%nat = Ok (unix_time y (mon c) (mday c) (hour c) (min c) (sec c) + 86400 * days_off y (mon c), 7%nat).
Proof.
  intros Hs Hv. unfold rtc_get_time, read_time. erewrite bind_ok; cycle 1.
  { rewrite loopM_unfold. erewrite bind_ok by (by eapply read_stable). done. }
  cbn [fst]. by rewrite (seconds_ok c y Hv).
Qed.

(** On 1 March 1972, a day after the first leap day, the clock is 30 days ahead. *)
Example rtc_march_1972 : seconds (mk_time 0 0 0 1 3 72) = Ok (unix_time 1972 3 1 0 0 0 + 86400 * 30).
Proof. vm_compute. reflexivity. Qed.
