(* ===== verification/Intq.v ===== *)
(** * Interrupt queues: devices/intq.c and devices/input.c

    A circular buffer of bytes between kernel threads and interrupt handlers.
    All functions run with interrupts off, so a thread gives up the processor
    only where it blocks: in lock_acquire and in wait.  A call is therefore a
    sequence of atomic segments, and [step] lets every ready thread and every
    interrupt handler run its next segment.  Ghost fields record the bytes that
    have been added and removed. *)

From S2P Require Import Prelude.

Definition INTQ_BUFSIZE : Z := 64.
Definition NULL : Z := 0.

(** ** State *)

Record intq := mk_intq {
  lock : option Z;
  not_full : Z;
  not_empty : Z;
  buf : list Z;
  head : Z;
  tail : Z
}.

(** The two operations. *)
Inductive op := Getc | Putc (byte : Z).

(** Where a thread is in a call: not in one, blocked in lock_acquire, blocked
    in wait, or made ready by signal but still inside wait. *)
Inductive place := Outside | Locking (o : op) | Waiting (o : op) | Woken (o : op).

Record sys := mk_sys { q : intq; place_of : gmap Z place; added : list Z; removed : list Z }.

Definition set_q (x : intq) (s : sys) : sys := mk_sys x (place_of s) (added s) (removed s).
Definition set_place (t : Z) (p : place) (s : sys) : sys := mk_sys (q s) (<[t := p]> (place_of s)) (added s) (removed s).
Definition set_lock (l : option Z) (x : intq) : intq := mk_intq l (not_full x) (not_empty x) (buf x) (head x) (tail x).

(** ** The code *)

(** [pos] is at most 63, so the sum does not overflow. *)
Definition next (pos : Z) : Z := Z.rem (pos + 1) INTQ_BUFSIZE.

Definition intq_init (b : list Z) : intq := mk_intq None NULL NULL b 0 0.

Definition intq_empty (x : intq) : bool := head x =? tail x.
Definition intq_full (x : intq) : bool := next (head x) =? tail x.

(** The condition on which an operation waits, and its waiter. *)
Definition blocked (o : op) (x : intq) : bool := match o with Getc => intq_empty x | Putc _ => intq_full x end.
Definition waiter (o : op) (x : intq) : Z := match o with Getc => not_empty x | Putc _ => not_full x end.
Definition set_waiter (o : op) (t : Z) (x : intq) : intq :=
  match o with
  | Getc => mk_intq (lock x) (not_full x) t (buf x) (head x) (tail x)
  | Putc _ => mk_intq (lock x) t (not_empty x) (buf x) (head x) (tail x)
  end.

(** thread_unblock, which asserts that the thread is blocked. *)
Definition thread_unblock (t : Z) : ST sys unit := λ s,
  match place_of s !! t with
  | Some (Waiting o) => Ok (tt, set_place t (Woken o) s)
  | _ => Err AssertFail
  end.

Definition modify_q (f : intq → intq) : ST sys unit := modify (λ s, set_q (f (q s)) s).

(** [wait] for the operation of thread [t], up to thread_block. *)
Definition wait (t : Z) (o : op) : ST sys unit :=
  s ← get; assert (blocked o (q s));;
  modify_q (set_waiter o t);;
  modify (set_place t (Waiting o)).

(** [signal] for the threads that do [o]. *)
Definition signal (o : op) : ST sys unit :=
  s ← get; assert (negb (blocked o (q s)));;
  let w := waiter o (q s) in
  if negb (w =? NULL) then thread_unblock w;; modify_q (set_waiter o NULL) else mret tt.

Definition buf_get (i : Z) : ST sys Z := λ s,
  match buf (q s) !! Z.to_nat i with Some b => Ok (b, s) | None => Err BadAccess end.
Definition buf_put (i v : Z) : ST sys unit := λ s,
  match buf (q s) !! Z.to_nat i with
  | Some _ => Ok (tt, set_q (mk_intq (lock (q s)) (not_full (q s)) (not_empty (q s)) (<[Z.to_nat i := v]> (buf (q s)))
                                (head (q s)) (tail (q s))) s)
  | None => Err BadAccess
  end.

(** The code behind the loops of intq_getc and intq_putc. *)
Definition finish (o : op) : ST sys unit :=
  match o with
  | Getc =>
      s ← get; b ← buf_get (tail (q s));
      modify_q (λ x, mk_intq (lock x) (not_full x) (not_empty x) (buf x) (head x) (next (tail x)));;
      modify (λ s, mk_sys (q s) (place_of s) (added s) (removed s ++ [b]));;
      signal (Putc 0)
  | Putc b =>
      s ← get; buf_put (head (q s)) b;;
      modify_q (λ x, mk_intq (lock x) (not_full x) (not_empty x) (buf x) (next (head x)) (tail x));;
      modify (λ s, mk_sys (q s) (place_of s) (added s ++ [b]) (removed s));;
      signal Getc
  end.

(** The test of the loop, and what follows up to the end of the call or the
    point where the thread blocks. *)
Definition attempt (t : Z) (o : op) : ST sys unit :=
  s ← get;
  if blocked o (q s) then
    match lock (q s) with
    | Some _ => modify (set_place t (Locking o))
    | None => modify_q (set_lock (Some t));; wait t o
    end
  else finish o;; modify (set_place t Outside).

(** A thread calls intq_getc or intq_putc. *)
Definition call (t : Z) (o : op) : ST sys unit := attempt t o.

(** A thread that waited for the lock gets it. *)
Definition relock (t : Z) (o : op) : ST sys unit := modify_q (set_lock (Some t));; wait t o.

(** A thread that has been woken runs again: lock_release, and the loop. *)
Definition resume (t : Z) (o : op) : ST sys unit := modify_q (set_lock None);; attempt t o.

(** An interrupt handler must not wait. *)
Definition handler (o : op) : ST sys unit :=
  s ← get; if blocked o (q s) then fail AssertFail else finish o.

(** ** input.c *)

Definition input_init (b : list Z) : intq := intq_init b.
Definition input_full (s : sys) : bool := intq_full (q s).
Definition input_putc (key : Z) : ST sys unit :=
  s ← get; assert (negb (intq_full (q s)));; handler (Putc key).
Definition input_getc (t : Z) : ST sys unit := call t Getc.

(** ** Steps *)

Inductive action :=
  | Call (t : Z) (o : op)
  | Relock (t : Z) (o : op)
  | Resume (t : Z) (o : op)
  | Interrupt (o : op).

Definition run (a : action) : ST sys unit :=
  match a with
  | Call t o => call t o
  | Relock t o => relock t o
  | Resume t o => resume t o
  | Interrupt o => handler o
  end.

(** When the scheduler or a device can take the action.  A handler is entered
    when its device has something to do, and looks at the queue first. *)
Definition enabled (a : action) (s : sys) : Prop :=
  match a with
  | Call t o => place_of s !! t = Some Outside
  | Relock t o => place_of s !! t = Some (Locking o) ∧ lock (q s) = None
  | Resume t o => place_of s !! t = Some (Woken o)
  | Interrupt o => blocked o (q s) = false
  end.

Definition step (s s' : sys) (a : action) : Prop := enabled a s ∧ run a s = Ok (tt, s').

(** ** The bytes in the queue *)

(** The number of bytes. *)
Definition fill (x : intq) : Z := (head x - tail x) mod 64.

Definition contents (x : intq) : list Z :=
  (λ k, buf x !!! Z.to_nat ((tail x + k) mod 64)) <$> seqZ 0 (fill x).

Record ring_ok (x : intq) : Prop := {
  ro_buf : length (buf x) = 64%nat;
  ro_head : 0 ≤ head x < 64;
  ro_tail : 0 ≤ tail x < 64
}.

Lemma next_eq p : 0 ≤ p < 64 → next p = (p + 1) mod 64.
Proof. intros Hp. unfold next, INTQ_BUFSIZE. by rewrite Z.rem_mod_nonneg by lia. Qed.

Lemma next_range p : 0 ≤ p < 64 → 0 ≤ next p < 64.
Proof. intros Hp. rewrite next_eq by done. dlia. Qed.

Lemma empty_fill x : ring_ok x → intq_empty x = true ↔ fill x = 0.
Proof. intros [_ Hh Ht]. unfold intq_empty, fill. rewrite Z.eqb_eq. dlia. Qed.

Lemma full_fill x : ring_ok x → intq_full x = true ↔ fill x = 63.
Proof. intros [_ Hh Ht]. unfold intq_full, fill. rewrite Z.eqb_eq, next_eq by done. dlia. Qed.

Lemma length_contents x : Z.of_nat (length (contents x)) = fill x.
Proof. unfold contents. rewrite length_fmap, length_seqZ. unfold fill. dlia. Qed.

Lemma seqZ_snoc n : 0 ≤ n → seqZ 0 (n + 1) = seqZ 0 n ++ [n].
Proof. intros Hn. by rewrite seqZ_app by lia. Qed.

(** Taking a byte out. *)
Lemma contents_get x b l nf ne :
  ring_ok x → intq_empty x = false → buf x !! Z.to_nat (tail x) = Some b →
  let x' := mk_intq l nf ne (buf x) (head x) (next (tail x)) in
  ring_ok x' ∧ intq_full x' = false ∧ contents x = b :: contents x'.
Proof.
  intros Hr He Hb x'. pose proof Hr as [Hl Hh Ht].
  assert (0 < fill x) as Hf.
  { destruct (decide (fill x = 0)) as [E|]; [apply empty_fill in E; congruence|unfold fill in *; dlia]. }
  assert (ring_ok x') as Hr' by (split; simpl; [done..|by apply next_range]).
  assert (fill x' = fill x - 1) as Ef by (unfold fill; simpl; rewrite next_eq by done; unfold fill in Hf; dlia).
  split_and!; [done| |].
  - destruct (intq_full x') eqn:E; [|done]. apply full_fill in E; [|done]. rewrite Ef in E. unfold fill in *. dlia.
  - unfold contents. replace (fill x) with (Z.succ (fill x')) by lia.
    rewrite seqZ_cons by (rewrite Ef; lia). rewrite fmap_cons. f_equal.
    + rewrite Z.add_0_r, Z.mod_small by lia. by apply list_lookup_total_correct.
    + rewrite Z.pred_succ. change (Z.succ 0) with (1 + 0). rewrite <-fmap_add_seqZ, <-list_fmap_compose. apply list_fmap_ext. intros i k Hk. simpl.
      rewrite next_eq by done. do 2 f_equal. rewrite Z.add_mod_idemp_l by lia. f_equal. lia.
Qed.

(** Putting a byte in. *)
Lemma contents_put x b l nf ne :
  ring_ok x → intq_full x = false →
  let x' := mk_intq l nf ne (<[Z.to_nat (head x) := b]> (buf x)) (next (head x)) (tail x) in
  ring_ok x' ∧ intq_empty x' = false ∧ contents x' = contents x ++ [b].
Proof.
  intros Hr He x'. pose proof Hr as [Hl Hh Ht].
  assert (fill x < 63) as Hf.
  { destruct (decide (fill x = 63)) as [E|]; [apply full_fill in E; congruence|unfold fill in *; dlia]. }
  assert (0 ≤ fill x) as Hf0 by (unfold fill; dlia).
  assert (ring_ok x') as Hr' by (split; simpl; [by rewrite length_insert|by apply next_range|done]).
  assert (fill x' = fill x + 1) as Ef by (unfold fill; simpl; rewrite next_eq by done; unfold fill in Hf; dlia).
  split_and!; [done| |].
  - destruct (intq_empty x') eqn:E; [|done]. apply empty_fill in E; [|done]. lia.
  - unfold contents. rewrite Ef, seqZ_snoc, fmap_app by done. simpl. f_equal.
    + apply list_fmap_ext. intros i k Hk%lookup_seqZ. simpl. rewrite list_lookup_total_insert_ne; [done|].
      unfold fill in *. dlia.
    + f_equal. replace ((tail x + fill x) mod 64) with (head x) by (unfold fill; dlia).
      apply list_lookup_total_insert_eq. lia.
Qed.

(** What a successful call of a handler has added. *)
Lemma signal_added o s s' : signal o s = Ok (tt, s') → added s' = added s ∧ removed s' = removed s.
Proof.
  unfold signal. erewrite bind_ok by apply get_ok. destruct (negb (blocked o (q s))); [|done]. erewrite bind_ok by reflexivity.
  destruct (negb (_ =? _)); [|intros E; injection E as <-; done]. unfold thread_unblock, mbind, st_bind.
  destruct (place_of s !! _) as [[]|]; try done. intros E. injection E as <-. done.
Qed.

Lemma handler_added b s s' : handler (Putc b) s = Ok (tt, s') → added s' = added s ++ [b] ∧ removed s' = removed s.
Proof.
  unfold handler. erewrite bind_ok by apply get_ok. destruct (blocked (Putc b) (q s)); [done|]. unfold finish.
  erewrite bind_ok by apply get_ok. unfold buf_put, mbind at 1, st_bind at 1. destruct (buf (q s) !! _); [|done].
  do 2 erewrite bind_ok by reflexivity. intros E%signal_added. exact E.
Qed.

(** ** One thread and interrupt handlers

    In Pintos one end of every queue is used by interrupt handlers: they add
    the keys that a thread reads, and they send the characters that a thread
    writes.  [k] says that thread [t] reads. *)

Section one_thread.
Context (k : bool) (t : Z).

Definition is_get (o : op) : bool := match o with Getc => true | Putc _ => false end.
Definition other (o : op) : op := match o with Getc => Putc 0 | Putc _ => Getc end.

Definition allowed (a : action) : Prop :=
  match a with
  | Call t' o => t' = t ∧ is_get o = k
  | Interrupt o => is_get o = negb k
  | Relock _ _ | Resume _ _ => True
  end.

Inductive reachable (b : list Z) : sys → Prop :=
  | reach_init places : length b = 64%nat → places !! t = Some Outside →
      (∀ t' p, places !! t' = Some p → p = Outside) → reachable b (mk_sys (intq_init b) places [] [])
  | reach_step s s' a : reachable b s → allowed a → step s s' a → reachable b s'.

(** The bytes come out in the order in which they went in. *)
Definition fifo (s : sys) : Prop := ring_ok (q s) ∧ added s = removed s ++ contents (q s).

(** The thread holds the lock while it waits, and it waits only while it has to. *)
Definition thread_ok (s : sys) : Prop :=
  match place_of s !! t with
  | Some Outside => lock (q s) = None ∧ not_empty (q s) = NULL ∧ not_full (q s) = NULL
  | Some (Waiting o) => is_get o = k ∧ lock (q s) = Some t ∧ blocked o (q s) = true ∧
      waiter o (q s) = t ∧ waiter (other o) (q s) = NULL
  | Some (Woken o) => is_get o = k ∧ lock (q s) = Some t ∧ not_empty (q s) = NULL ∧ not_full (q s) = NULL
  | _ => False
  end.

Record inv (s : sys) : Prop := {
  inv_fifo : fifo s;
  inv_thread : thread_ok s;
  inv_others t' p : t' ≠ t → place_of s !! t' = Some p → p = Outside
}.

(** What the end of an operation does. *)
Definition finished (o : op) (s s' : sys) (places : gmap Z place) : Prop :=
  fifo s' ∧ lock (q s') = lock (q s) ∧ waiter o (q s') = waiter o (q s) ∧ waiter (other o) (q s') = NULL ∧
  place_of s' = places.

Lemma signal_ok o s :
  blocked o (q s) = false → waiter o (q s) = NULL → signal o s = Ok (tt, s).
Proof.
  intros Hb Hw. unfold signal. erewrite bind_ok by apply get_ok. rewrite Hb. erewrite bind_ok by reflexivity.
  rewrite Hw. reflexivity.
Qed.

Lemma signal_wakes o s o' :
  blocked o (q s) = false → t ≠ NULL → waiter o (q s) = t → place_of s !! t = Some (Waiting o') →
  signal o s = Ok (tt, set_q (set_waiter o NULL (q s)) (set_place t (Woken o') s)).
Proof.
  intros Hb Ht Hw Hp. unfold signal. erewrite bind_ok by apply get_ok. rewrite Hb. erewrite bind_ok by reflexivity.
  rewrite Hw, (proj2 (Z.eqb_neq _ _) Ht). cbn [negb]. unfold thread_unblock, mbind, st_bind. by rewrite Hp.
Qed.

Lemma finish_ok o s places :
  fifo s → blocked o (q s) = false →
  (waiter (other o) (q s) = NULL ∧ places = place_of s ∨
   t ≠ NULL ∧ waiter (other o) (q s) = t ∧
   ∃ o', place_of s !! t = Some (Waiting o') ∧ places = <[t := Woken o']> (place_of s)) →
  ∃ s', finish o s = Ok (tt, s') ∧ finished o s s' places.
Proof.
  intros [Hr Hf] Hb Hw.
  assert (∃ s1, fifo s1 ∧ lock (q s1) = lock (q s) ∧ not_empty (q s1) = not_empty (q s) ∧ not_full (q s1) = not_full (q s) ∧
    place_of s1 = place_of s ∧ blocked (other o) (q s1) = false ∧ finish o s = signal (other o) s1) as
    (s1 & Hf1 & El & Ee & En & Ep & Hb1 & E1).
  { destruct o as [|b]; simpl in *.
    - destruct (lookup_lt_is_Some_2 (buf (q s)) (Z.to_nat (tail (q s)))) as [b Eb]; [destruct Hr; lia|].
      destruct (contents_get (q s) b (lock (q s)) (not_full (q s)) (not_empty (q s)) Hr Hb Eb) as (Hr' & Hnf & Hc).
      eexists (mk_sys (mk_intq (lock (q s)) (not_full (q s)) (not_empty (q s)) (buf (q s)) (head (q s)) (next (tail (q s))))
        (place_of s) (added s) (removed s ++ [b])). split_and!; try reflexivity.
      + split; [exact Hr'|]. simpl. by rewrite Hf, Hc, <-app_assoc.
      + exact Hnf.
      + erewrite bind_ok by apply get_ok. rewrite bind_ok with (a := b) (s' := s) by (unfold buf_get; by rewrite Eb). reflexivity.
    - destruct (lookup_lt_is_Some_2 (buf (q s)) (Z.to_nat (head (q s)))) as [b' Eb]; [destruct Hr; lia|].
      destruct (contents_put (q s) b (lock (q s)) (not_full (q s)) (not_empty (q s)) Hr Hb) as (Hr' & Hne & Hc).
      eexists (mk_sys (mk_intq (lock (q s)) (not_full (q s)) (not_empty (q s)) (<[Z.to_nat (head (q s)) := b]> (buf (q s)))
        (next (head (q s))) (tail (q s))) (place_of s) (added s ++ [b]) (removed s)). split_and!; try reflexivity.
      + split; [exact Hr'|]. simpl. by rewrite Hf, Hc, <-app_assoc.
      + exact Hne.
      + erewrite bind_ok by apply get_ok. unfold mbind at 1, st_bind at 1, buf_put. rewrite Eb. reflexivity. }
  assert (∀ o', waiter o' (q s1) = waiter o' (q s)) as Ew by (by intros []; simpl).
  rewrite E1. destruct Hw as [[Hw ->]|(Ht & Hw & o' & Hp & ->)].
  - exists s1. split; [by apply signal_ok; [|rewrite Ew]|]. split_and!; [done..|by rewrite Ew|by rewrite Ew|done].
  - eexists. split; [apply signal_wakes; [done..|by rewrite Ew|by rewrite Ep]|]. destruct Hf1 as [[? ? ?] Hc1].
    unfold finished. cbn [q place_of set_q set_place]. split_and!.
    + destruct o; (split; [split; done|exact Hc1]).
    + by destruct o.
    + rewrite <-Ew. by destruct o.
    + by destruct o.
    + by rewrite Ep.
Qed.

Lemma blocked_kind o o' x : is_get o = is_get o' → blocked o x = blocked o' x.
Proof. by destruct o, o'. Qed.

Lemma waiters o x : waiter o x = NULL → waiter (other o) x = NULL → not_empty x = NULL ∧ not_full x = NULL.
Proof. by destruct o. Qed.

(** The thread starts or continues its loop without the lock. *)
Lemma attempt_ok o s :
  t ≠ NULL → is_get o = k → fifo s → lock (q s) = None → not_empty (q s) = NULL → not_full (q s) = NULL →
  (∀ t' p, t' ≠ t → place_of s !! t' = Some p → p = Outside) →
  ∃ s', attempt t o s = Ok (tt, s') ∧ inv s'.
Proof.
  intros Ht Hk Hf Hl He Hn Ho. unfold attempt. erewrite bind_ok by apply get_ok. destruct (blocked o (q s)) eqn:Hb.
  - rewrite Hl. unfold wait. erewrite bind_ok by reflexivity. erewrite bind_ok by apply get_ok.
    assert (blocked o (set_lock (Some t) (q s)) = true) as Hb' by (by destruct o). cbn [q set_q]. rewrite Hb'.
    erewrite bind_ok by reflexivity. erewrite bind_ok by reflexivity. eexists. split; [reflexivity|].
    destruct Hf as [[? ? ?] Hc]. split.
    + destruct o; (split; [split; done|exact Hc]).
    + unfold thread_ok. cbn [place_of set_place q]. rewrite lookup_insert_eq. destruct o; simpl in *; by split_and!.
    + intros t' p Nt. cbn [place_of set_place]. rewrite lookup_insert_ne by done. by apply Ho.
  - destruct (finish_ok o s (place_of s) Hf Hb) as (s1 & E & (Hf1 & El & Ew & Ew' & Ep)); [left; by destruct o|].
    erewrite bind_ok by exact E. eexists. split; [reflexivity|].
    destruct (waiters o (q s1)) as [E1 E2]; [rewrite Ew; by destruct o|done|]. split.
    + exact Hf1.
    + unfold thread_ok. cbn [place_of set_place q]. rewrite lookup_insert_eq. by rewrite El.
    + intros t' p Nt. cbn [place_of set_place]. rewrite lookup_insert_ne, Ep by done. by apply Ho.
Qed.

(** An interrupt handler, which may wake the thread. *)
Lemma handler_ok o s :
  t ≠ NULL → is_get o = negb k → inv s → blocked o (q s) = false → ∃ s', handler o s = Ok (tt, s') ∧ inv s'.
Proof.
  intros Ht Hk [Hf Hth Ho] Hb. unfold handler. erewrite bind_ok by apply get_ok. rewrite Hb. unfold thread_ok in Hth.
  destruct (place_of s !! t) as [[|o'|o'|o']|] eqn:Ep; try done.
  - destruct Hth as (Hl & He & Hn). destruct (finish_ok o s (place_of s) Hf Hb) as (s1 & E & (Hf1 & El & Ew & Ew' & Epl)); [left; by destruct o|].
    exists s1. split; [done|]. destruct (waiters o (q s1)) as [E1 E2]; [rewrite Ew; by destruct o|done|].
    split; [done| |by rewrite Epl]. unfold thread_ok. by rewrite Epl, Ep, El.
  - destruct Hth as (Hk' & Hl & Hb' & Hw & Hw').
    destruct (finish_ok o s (<[t := Woken o']> (place_of s)) Hf Hb) as (s1 & E & (Hf1 & El & Ew & Ew' & Epl)).
    { right. split_and!; [done|by destruct o, o', k|by exists o']. }
    exists s1. split; [done|]. destruct (waiters o (q s1)) as [E1 E2]; [rewrite Ew; by destruct o, o', k|done|].
    split; [done| |].
    + unfold thread_ok. rewrite Epl, lookup_insert_eq. by rewrite El.
    + intros t' p Nt. rewrite Epl, lookup_insert_ne by done. by apply Ho.
  - destruct Hth as (Hk' & Hl & He & Hn). destruct (finish_ok o s (place_of s) Hf Hb) as (s1 & E & (Hf1 & El & Ew & Ew' & Epl)); [left; by destruct o|].
    exists s1. split; [done|]. destruct (waiters o (q s1)) as [E1 E2]; [rewrite Ew; by destruct o|done|].
    split; [done| |by rewrite Epl]. unfold thread_ok. by rewrite Epl, Ep, El.
Qed.

Lemma action_ok a s : t ≠ NULL → inv s → allowed a → enabled a s → ∃ s', run a s = Ok (tt, s') ∧ inv s'.
Proof.
  intros Ht Hi Ha He. pose proof Hi as [Hf Hth Ho]. unfold thread_ok in Hth.
  assert (∀ t' p, place_of s !! t' = Some p → p ≠ Outside → t' = t) as Honly.
  { intros t' p Hp Np. destruct (decide (t' = t)); [done|]. destruct Np. by eapply Ho. }
  destruct a as [t' o|t' o|t' o|o]; simpl in *.
  - destruct Ha as [-> Hk]. rewrite He in Hth. destruct Hth as (Hl & Hn & Hm). by apply attempt_ok.
  - destruct He as [Hp _]. assert (t' = t) as -> by (by eapply Honly). by rewrite Hp in Hth.
  - assert (t' = t) as -> by (by eapply Honly). rewrite He in Hth. destruct Hth as (Hk & Hl & Hn & Hm).
    unfold resume. erewrite bind_ok by reflexivity. apply attempt_ok; try done. destruct Hf as [[? ? ?] Hc]. by split; [split|].
  - by apply handler_ok.
Qed.

Lemma intq_reachable_inv b s : t ≠ NULL → reachable b s → inv s.
Proof.
  intros Ht. induction 1 as [places Hl Hp Ho|s s' a _ IH Ha [He Hr]].
  - split; [split; [by split|done]| |by intros t' p _ Hp'; eapply Ho]. unfold thread_ok. simpl. by rewrite Hp.
  - destruct (action_ok a s Ht IH Ha He) as (s1 & E & Hi). congruence.
Qed.

(** ** Properties *)

(** C21: between one thread and interrupt handlers the queue is a bounded
    first-in first-out channel, whichever of them reads: no assertion fails, the
    bytes come out in the order in which they went in, none is lost or
    duplicated, at most 63 are stored, and the thread never sleeps while the
    queue lets it go on. *)
Theorem intq_fifo b s :
  t ≠ NULL → reachable b s →
  added s = removed s ++ contents (q s) ∧ (length (contents (q s)) ≤ 63)%nat ∧
  (∀ o, place_of s !! t = Some (Waiting o) → blocked o (q s) = true) ∧
  ∀ a, allowed a → enabled a s → ∃ s', run a s = Ok (tt, s').
Proof.
  intros Ht Hr. pose proof (intq_reachable_inv b s Ht Hr) as Hi. pose proof Hi as [[_ Hc] Hth _]. split_and!; [done|..].
  - pose proof (length_contents (q s)) as Hlen. unfold fill in Hlen. dlia.
  - intros o Hp. unfold thread_ok in Hth. rewrite Hp in Hth. tauto.
  - intros a Ha He. destruct (action_ok a s Ht Hi Ha He) as (s' & E & _). eauto.
Qed.

End one_thread.

(** ** Witnesses *)

Definition demo_start : sys := mk_sys (intq_init (repeat 0 64)) {[1 := Outside; 2 := Outside]} [] [].

Definition demo_run (l : list action) : ST sys unit :=
  fold_right (λ a m, run a;; m) (mret tt) l.

Definition demo_state (l : list action) : sys := match demo_run l demo_start with Ok (_, s) => s | Err _ => demo_start end.

Lemma intq_fifo_witness :
  let s := demo_state [Call 1 Getc; Interrupt (Putc 7); Interrupt (Putc 8); Resume 1 Getc] in
  added s = [7; 8] ∧ removed s = [7] ∧ added s = removed s ++ contents (q s).
Proof.
  set (s1 := demo_state [Call 1 Getc]). set (s2 := demo_state [Call 1 Getc; Interrupt (Putc 7)]).
  set (s3 := demo_state [Call 1 Getc; Interrupt (Putc 7); Interrupt (Putc 8)]).
  intros s. split; [vm_compute; reflexivity|]. split; [vm_compute; reflexivity|]. apply (intq_fifo true 1 (repeat 0 64) s); [done|].
  apply (reach_step _ _ _ s3 s (Resume 1 Getc)); [|vm_compute; auto|split; vm_compute; reflexivity].
  apply (reach_step _ _ _ s2 s3 (Interrupt (Putc 8))); [|vm_compute; auto|split; vm_compute; reflexivity].
  apply (reach_step _ _ _ s1 s2 (Interrupt (Putc 7))); [|vm_compute; auto|split; vm_compute; reflexivity].
  apply (reach_step _ _ _ demo_start s1 (Call 1 Getc)); [|vm_compute; auto|split; vm_compute; reflexivity].
  apply reach_init; [reflexivity|reflexivity|]. intros t' p Hp.
  apply lookup_insert_Some in Hp as [[_ <-]|[_ [_ <-]%lookup_singleton_Some]]; reflexivity.
Defined.

(** With two readers the assertion in wait can fail: the second one gets the
    lock when the first has taken one of two bytes, and finds the queue not
    empty. *)
Example two_readers_panic :
  demo_run [Call 1 Getc; Call 2 Getc; Interrupt (Putc 7); Interrupt (Putc 8); Resume 1 Getc; Relock 2 Getc] demo_start
  = Err AssertFail.
Proof. reflexivity. Qed.

(** The same happens between a reader and a writer that are both threads. *)
Example reader_writer_panic :
  demo_run (Call 1 Getc :: (Call 2 ∘ Putc <$> seqZ 0 64) ++ [Resume 1 Getc; Relock 2 (Putc 63)]) demo_start = Err AssertFail.
Proof. reflexivity. Qed.
