(* ===== verification/Vga.v ===== *)
(** * The text screen: devices/vga.c

    The frame buffer is an array of 25 rows of 80 cells, a character and its
    attribute each; the cursor of the hardware is in two registers of the CRT
    controller that are reached through an index and a data port.  The theorem
    compares the screen with a terminal that never scrolls and starts with the
    lines that the screen shows: the screen always shows the last 25 lines of
    the terminal. *)

From S2P Require Import Prelude.

Definition COL_CNT : Z := 80.
Definition ROW_CNT : Z := 25.
Definition GRAY_ON_BLACK : Z := 0x07.

(** ** State *)

Record vga := mk_vga {
  fb : list (list (Z * Z));
  cx : Z;
  cy : Z;
  inited : bool;
  crtc_index : Z;           (* the port 0x3d4 *)
  crtc : gmap Z Z;          (* the registers behind the port 0x3d5 *)
  beeps : Z                 (* how often the speaker was used *)
}.

Definition set_fb (x : list (list (Z * Z))) (s : vga) := mk_vga x (cx s) (cy s) (inited s) (crtc_index s) (crtc s) (beeps s).
Definition set_cx (x : Z) (s : vga) := mk_vga (fb s) x (cy s) (inited s) (crtc_index s) (crtc s) (beeps s).
Definition set_cy (y : Z) (s : vga) := mk_vga (fb s) (cx s) y (inited s) (crtc_index s) (crtc s) (beeps s).

Definition u16 (x : Z) : Z := x mod 2 ^ 16.

(** [outw (0x3d4, data)], [outb (0x3d4, data)] and [inb (0x3d5)]. *)
Definition outw_3d4 (data : Z) : ST vga unit := modify (λ s,
  mk_vga (fb s) (cx s) (cy s) (inited s) (u8 data) (<[u8 data := u8 (data / 256)]> (crtc s)) (beeps s)).
Definition outb_3d4 (data : Z) : ST vga unit := modify (λ s,
  mk_vga (fb s) (cx s) (cy s) (inited s) (u8 data) (crtc s) (beeps s)).
Definition inb_3d5 : ST vga Z := s ← get; mret (default 0 (crtc s !! crtc_index s)).

(** [fb[y][x][0] = c; fb[y][x][1] = attr;] *)
Definition put_cell (y x c attr : Z) : ST vga unit := λ s,
  match fb s !! Z.to_nat y with
  | Some row =>
      match row !! Z.to_nat x with
      | Some _ => Ok (tt, set_fb (<[Z.to_nat y := <[Z.to_nat x := (u8 c, attr)]> row]> (fb s)) s)
      | None => Err BadAccess
      end
  | None => Err BadAccess
  end.

(** ** The code *)

Definition ROUND_UP (x step : Z) : Z := u32 (u32 (x + step - 1) / step * step).

Definition find_cursor : ST vga (Z * Z) :=
  outb_3d4 0x0e;;
  hi ← inb_3d5;
  outb_3d4 0x0f;;
  lo ← inb_3d5;
  let cp := Z.lor (u16 (Z.shiftl hi 8)) lo in
  mret (cp mod COL_CNT, cp / COL_CNT).

Definition move_cursor : ST vga unit :=
  s ← get;
  let cp := u16 (cx s + COL_CNT * cy s) in
  outw_3d4 (Z.lor 0x0e (Z.land cp 0xff00));;
  outw_3d4 (u16 (Z.lor 0x0f (Z.shiftl cp 8))).

Definition init : ST vga unit :=
  s ← get;
  if negb (inited s) then
    p ← find_cursor;
    modify (λ s, mk_vga (fb s) (fst p) (snd p) true (crtc_index s) (crtc s) (beeps s))
  else mret tt.

Definition clear_row (y : Z) : ST vga unit :=
  loopM 81 (λ x, if x <? COL_CNT then put_cell y x 32 GRAY_ON_BLACK;; mret (inl (x + 1)) else mret (inr tt)) 0.

(** [memmove (&fb[0], &fb[1], sizeof fb[0] * (ROW_CNT - 1))] *)
Definition move_rows : ST vga unit := λ s,
  if ROW_CNT <=? Z.of_nat (length (fb s)) then Ok (tt, set_fb (take 24 (drop 1 (fb s)) ++ drop 24 (fb s)) s) else Err BadAccess.

Definition newline : ST vga unit :=
  modify (set_cx 0);;
  modify (λ s, set_cy (u32 (cy s + 1)) s);;
  s ← get;
  if cy s >=? ROW_CNT then
    modify (set_cy (ROW_CNT - 1));;
    move_rows;;
    clear_row (ROW_CNT - 1)
  else mret tt.

Definition cls : ST vga unit :=
  loopM 26 (λ y, if y <? ROW_CNT then clear_row y;; mret (inl (y + 1)) else mret (inr tt)) 0;;
  modify (λ s, set_cy 0 (set_cx 0 s));;
  move_cursor.

Definition speaker_beep : ST vga unit := modify (λ s,
  mk_vga (fb s) (cx s) (cy s) (inited s) (crtc_index s) (crtc s) (beeps s + 1)).

(** The switch of vga_putc. *)
Definition putc_char (c : Z) : ST vga unit :=
  if c =? 10 then newline
  else if c =? 12 then cls
  else if c =? 8 then s ← get; if cx s >? 0 then modify (set_cx (cx s - 1)) else mret tt
  else if c =? 13 then modify (set_cx 0)
  else if c =? 9 then
    modify (λ s, set_cx (ROUND_UP (cx s + 1) 8) s);;
    s ← get; if cx s >=? COL_CNT then newline else mret tt
  else if c =? 7 then speaker_beep
  else
    s ← get;
    put_cell (cy s) (cx s) c GRAY_ON_BLACK;;
    modify (set_cx (cx s + 1));;
    if cx s + 1 >=? COL_CNT then newline else mret tt.

Definition vga_putc (c : Z) : ST vga unit := init;; putc_char c;; move_cursor.

(** ** A terminal that does not scroll *)

(** All lines above the cursor, the line of the cursor, the lines under it, and
    the column of the cursor.  A line is a list of cells. *)
Record term := mk_term { above : list (list (Z * Z)); line : list (Z * Z); below : list (list (Z * Z)); column : Z }.

Definition cell (c : Z) : Z * Z := (u8 c, GRAY_ON_BLACK).
Definition blank : list (Z * Z) := repeat (cell 32) 80.

Definition term_clear : term := mk_term [] blank (repeat blank 24) 0.

(** The cursor goes to the next line; under the last one a line is added. *)
Definition term_newline (a : term) : term :=
  match below a with
  | [] => mk_term (above a ++ [line a]) blank [] 0
  | l :: r => mk_term (above a ++ [line a]) l r 0
  end.

Definition set_line (l : list (Z * Z)) (x : Z) (a : term) : term := mk_term (above a) l (below a) x.

Definition term_putc (c : Z) (a : term) : term :=
  if c =? 10 then term_newline a
  else if c =? 12 then term_clear
  else if c =? 8 then set_line (line a) (Z.max 0 (column a - 1)) a
  else if c =? 13 then set_line (line a) 0 a
  else if c =? 9 then
    let x := (column a / 8 + 1) * 8 in if x <? 80 then set_line (line a) x a else term_newline a
  else if c =? 7 then a
  else
    let l := <[Z.to_nat (column a) := cell c]> (line a) in
    if column a + 1 <? 80 then set_line l (column a + 1) a else term_newline (set_line l 0 a).

Definition lines (a : term) : list (list (Z * Z)) := above a ++ line a :: below a.

(** The last 25 lines. *)
Definition visible (a : term) : list (list (Z * Z)) := drop (length (lines a) - 25) (lines a).

(** Lines of 80 cells, of which there are 25 unless the cursor is in the last. *)
Definition lines_ok (a : term) : Prop :=
  Forall (λ l, length l = 80%nat) (lines a) ∧ length (below a) = (24 - length (above a))%nat.
Definition term_ok (a : term) : Prop := lines_ok a ∧ 0 ≤ column a < 80.

(** ** Representation *)

(** The position that the hardware shows. *)
Definition hardware_cursor (s : vga) : Z := default 0 (crtc s !! 14) * 256 + default 0 (crtc s !! 15).

Record shows (a : term) (s : vga) : Prop := {
  sh_fb : fb s = visible a;
  sh_cx : cx s = column a;
  sh_cy : cy s = Z.min 24 (Z.of_nat (length (above a)));
  sh_inited : inited s = true;
  sh_term : term_ok a
}.

(** The machine before anything has been written: some text on the screen, and
    the cursor somewhere on it. *)
Record power_on (s : vga) : Prop := {
  po_rows : length (fb s) = 25%nat;
  po_cols : Forall (λ row, length row = 80%nat) (fb s);
  po_inited : inited s = false;
  po_regs : map_Forall (λ _ v, 0 ≤ v < 256) (crtc s);
  po_cursor : hardware_cursor s < 2000
}.

(** The screen as a terminal. *)
Definition screen (s : vga) : term :=
  let y := Z.to_nat (hardware_cursor s / 80) in
  mk_term (take y (fb s)) (fb s !!! y) (drop (S y) (fb s)) (hardware_cursor s mod 80).

Lemma length_lines a : length (lines a) = (length (above a) + S (length (below a)))%nat.
Proof. unfold lines. by rewrite length_app. Qed.

Lemma length_visible a : lines_ok a → length (visible a) = 25%nat.
Proof. intros [_ Hb]. unfold visible. rewrite length_drop, length_lines. lia. Qed.

(** The row of the cursor. *)
Lemma visible_line a : lines_ok a → visible a !! (length (above a) `min` 24)%nat = Some (line a).
Proof.
  intros [_ Hb]. unfold visible. rewrite lookup_drop, length_lines.
  replace (length (above a) + S (length (below a)) - 25 + length (above a) `min` 24)%nat with (length (above a)) by lia.
  unfold lines. by rewrite list_lookup_middle.
Qed.

(** Another line under the cursor. *)
Lemma visible_set a l x :
  lines_ok a → visible (set_line l x a) = <[(length (above a) `min` 24)%nat := l]> (visible a).
Proof.
  intros [_ Hb]. unfold visible. assert (lines (set_line l x a) = <[length (above a) := l]> (lines a)) as ->
    by (unfold lines; by rewrite insert_app_r_alt, Nat.sub_diag by lia).
  rewrite length_insert, length_lines, drop_insert_ge by lia. f_equal. lia.
Qed.

Lemma lines_ok_set a l x : lines_ok a → length l = 80%nat → lines_ok (set_line l x a).
Proof.
  intros [Hl Hb] Hlen. split; [|done]. unfold lines in *. simpl. apply Forall_app in Hl as [H1 H2].
  apply Forall_cons in H2 as [_ H2]. apply Forall_app. split; [done|]. by constructor.
Qed.

Lemma lines_ok_newline a : lines_ok a → lines_ok (term_newline a).
Proof.
  intros [Hl Hb]. unfold term_newline, lines_ok, lines in *. destruct (below a) as [|l r]; simpl in *; rewrite length_app; simpl.
  - split; [|lia]. apply Forall_app. split; [done|]. by constructor.
  - split; [by rewrite <-app_assoc|lia].
Qed.

(** A new line: the screen scrolls when the cursor is in the last row. *)
Lemma visible_newline a :
  lines_ok a →
  visible (term_newline a) =
  if decide (length (above a) < 24)%nat then visible a else take 24 (drop 1 (visible a)) ++ [blank].
Proof.
  intros [_ Hb]. unfold visible, term_newline. case_decide as Hlt.
  - destruct (below a) as [|l r] eqn:E; [simpl in Hb; lia|]. unfold lines. simpl. rewrite E, <-app_assoc. done.
  - destruct (below a) as [|l r] eqn:E; [|simpl in Hb; lia]. unfold lines. simpl. rewrite E, !length_app. simpl.
    rewrite drop_drop, drop_app_le by (rewrite length_app; simpl; lia). f_equal.
    replace (length (above a) + 1 + 1 - 25)%nat with (length (above a) + 1 - 25 + 1)%nat by lia.
    rewrite take_ge; [done|]. rewrite length_drop, length_app. simpl. lia.
Qed.

(** ** The frame buffer *)

Lemma put_cell_ok y x c attr row s :
  fb s !! Z.to_nat y = Some row → (Z.to_nat x < length row)%nat →
  put_cell y x c attr s = Ok (tt, set_fb (<[Z.to_nat y := <[Z.to_nat x := (u8 c, attr)]> row]> (fb s)) s).
Proof. intros Hr Hx. unfold put_cell. rewrite Hr. destruct (lookup_lt_is_Some_2 row (Z.to_nat x) Hx) as [z ->]. done. Qed.

Lemma clear_row_ok y row s :
  fb s !! Z.to_nat y = Some row → length row = 80%nat →
  clear_row y s = Ok (tt, set_fb (<[Z.to_nat y := blank]> (fb s)) s).
Proof.
  intros Hr Hl. unfold clear_row. change COL_CNT with 80.
  destruct (loopM_rule (λ n x s1, Z.of_nat n = 80 - x ∧ 0 ≤ x ≤ 80 ∧
      s1 = set_fb (<[Z.to_nat y := repeat (cell 32) (Z.to_nat x) ++ drop (Z.to_nat x) row]> (fb s)) s)
    (λ _ s1, s1 = set_fb (<[Z.to_nat y := blank]> (fb s)) s)
    (λ x, if x <? 80 then put_cell y x 32 GRAY_ON_BLACK;; mret (inl (x + 1)) else mret (inr tt)))
    with (fuel := 81%nat) (n := 80%nat) (l := 0) (s := s) as ([] & s' & E & ->).
  - intros n x s1 (Hn & Hx & ->). destruct (Z.ltb_spec x 80).
    + assert (Z.to_nat y < length (fb s))%nat as Hy by (by eapply lookup_lt_Some).
      erewrite bind_ok; cycle 1.
      { apply (put_cell_ok y x 32 GRAY_ON_BLACK (repeat (cell 32) (Z.to_nat x) ++ drop (Z.to_nat x) row)); simpl.
        - by apply list_lookup_insert_eq.
        - rewrite length_app, repeat_length, length_drop. lia. }
      eexists (inl (x + 1)), _. split; [done|]. exists (Nat.pred n). split; [lia|]. split_and!; [lia..|].
      simpl. rewrite list_insert_insert_eq. unfold set_fb. simpl. do 2 f_equal.
      rewrite insert_app_r_alt by (rewrite repeat_length; lia). rewrite repeat_length, Nat.sub_diag.
      destruct (drop (Z.to_nat x) row) as [|z r] eqn:Ed.
      { apply (f_equal length) in Ed. rewrite length_drop in Ed. simpl in Ed. lia. }
      replace (Z.to_nat (x + 1)) with (Z.to_nat x + 1)%nat by lia. rewrite repeat_app, <-app_assoc. simpl. f_equal. f_equal.
      rewrite <-drop_drop, Ed. done.
    + exists (inr tt). eexists. split; [done|]. replace x with 80 by lia. rewrite drop_ge by lia. by rewrite app_nil_r.
  - split_and!; [done|lia|lia|]. simpl. rewrite list_insert_id by done. by destruct s.
  - lia.
  - exact E.
Qed.

(** ** The cursor *)

Definition hardware_of (cp : Z) : Z * Z :=
  let a := Z.lor 0x0e (Z.land cp 0xff00) in
  let b := u16 (Z.lor 0x0f (Z.shiftl cp 8)) in
  (if (u8 a =? 14) && (u8 b =? 15) then u8 (a / 256) * 256 + u8 (b / 256) else -1, u16 (Z.lor (u16 (Z.shiftl (u8 (a / 256)) 8)) (u8 (b / 256)))).

(** All positions of the screen. *)
Lemma hardware_of_ok cp : 0 ≤ cp < 2000 → hardware_of cp = (cp, cp).
Proof.
  intros Hc. assert (forallb (λ cp, bool_decide (hardware_of cp = (cp, cp))) (seqZ 0 2000) = true) as H by (vm_compute; reflexivity).
  rewrite forallb_forall in H. specialize (H cp). rewrite bool_decide_eq_true in H. apply H.
  apply list_elem_of_In, elem_of_seqZ. lia.
Qed.

(** Only the registers of the controller change. *)
Definition same_screen (s s' : vga) : Prop := fb s' = fb s ∧ cx s' = cx s ∧ cy s' = cy s ∧ inited s' = inited s.

Lemma move_cursor_ok s :
  0 ≤ cx s < 80 → 0 ≤ cy s < 25 →
  ∃ s', move_cursor s = Ok (tt, s') ∧ same_screen s s' ∧ hardware_cursor s' = cx s + 80 * cy s.
Proof.
  intros Hx Hy. unfold move_cursor. erewrite bind_ok by apply get_ok. change COL_CNT with 80.
  replace (u16 (cx s + 80 * cy s)) with (cx s + 80 * cy s) by (unfold u16; rewrite Z.mod_small; lia). set (cp := cx s + 80 * cy s).
  pose proof (hardware_of_ok cp ltac:(unfold cp; lia)) as H. unfold hardware_of in H. injection H as H _.
  destruct (Z.eqb_spec (u8 (Z.lor 14 (Z.land cp 65280))) 14) as [E1|]; [|simpl in H; lia].
  destruct (Z.eqb_spec (u8 (u16 (Z.lor 15 (Z.shiftl cp 8)))) 15) as [E2|]; [|simpl in H; lia]. simpl in H.
  eexists. split; [by erewrite bind_ok by done|]. split; [done|]. unfold hardware_cursor. cbn [crtc].
  rewrite E1, E2. rewrite lookup_insert_ne, lookup_insert_eq, lookup_insert_eq by done.
  exact H.
Qed.

(** ** The operations *)

Lemma shows_same a s s' : shows a s → same_screen s s' → shows a s'.
Proof. intros [H1 H2 H3 H4 H5] (E1 & E2 & E3 & E4). split; congruence. Qed.

(** The representation without the column, which [newline] resets. *)
Record shows_rows (a : term) (s : vga) : Prop := {
  sr_fb : fb s = visible a;
  sr_cy : cy s = Z.min 24 (Z.of_nat (length (above a)));
  sr_inited : inited s = true
}.

Lemma visible_length a : lines_ok a → Forall (λ l, length l = 80%nat) (visible a).
Proof. intros [H _]. by apply Forall_drop. Qed.

Lemma newline_ok a s :
  lines_ok a → shows_rows a s →
  ∃ s', newline s = Ok (tt, s') ∧ shows (term_newline a) s'.
Proof.
  intros Hlen [Hfb Hcy Hi]. unfold newline. do 2 erewrite bind_ok by done. erewrite bind_ok by apply get_ok. cbn [cy set_cy set_cx].
  rewrite u32_small, Z.geb_leb by lia. change ROW_CNT with 25.
  pose proof (length_visible a Hlen) as Hlv.
  assert (term_ok (term_newline a)) as Hok.
  { split; [by apply lines_ok_newline|]. unfold term_newline. destruct (below a); simpl; lia. }
  assert (column (term_newline a) = 0 ∧ length (above (term_newline a)) = S (length (above a))) as [Hcol Hab]
    by (unfold term_newline; destruct (below a); simpl; rewrite length_app; simpl; (split; [done|lia])).
  pose proof (visible_newline a Hlen) as Hv. destruct (Z.leb_spec 25 (cy s + 1)) as [Hge|Hlt].
  - rewrite decide_False in Hv by lia. erewrite bind_ok by done. unfold move_rows.
    rewrite bind_ok with (a := tt) (s' := set_fb (take 24 (drop 1 (fb s)) ++ drop 24 (fb s)) (set_cy 24 (set_cy (u32 (cy s + 1)) (set_cx 0 s)))); cycle 1.
    { simpl. by rewrite Hfb, Hlv. }
    assert (length (fb s) = 25%nat) as Hl by (by rewrite Hfb).
    destruct (drop 24 (fb s)) as [|row r] eqn:Ed.
    { apply (f_equal length) in Ed. rewrite length_drop, Hl in Ed. done. }
    assert (r = []) as ->. { apply (f_equal length) in Ed. rewrite length_drop, Hl in Ed. by destruct r. }
    assert (length row = 80%nat) as Hrow.
    { assert (Forall (λ row, length row = 80%nat) (fb s)) as Hall by (rewrite Hfb; by apply visible_length).
      apply (Forall_drop _ 24) in Hall. rewrite Ed in Hall. by inversion Hall. }
    assert (length (take 24 (drop 1 (fb s))) = 24%nat) as Ht by (rewrite length_take, length_drop, Hl; done).
    eexists. split.
    + erewrite (clear_row_ok 24 row); [reflexivity| |done]. simpl. rewrite lookup_app_r by (rewrite Ht; lia). by rewrite Ht.
    + split; simpl; [|by rewrite Hcol|rewrite Hab; lia|done|done].
      change (Z.to_nat 24) with 24%nat. rewrite insert_app_r_alt by (rewrite Ht; lia). rewrite Ht. simpl.
      by rewrite Hv, Hfb.
  - rewrite decide_True in Hv by lia. eexists. split; [done|]. split; simpl; [by rewrite Hv|by rewrite Hcol|rewrite Hab; lia|done|done].
Qed.

Lemma cls_ok s :
  length (fb s) = 25%nat → Forall (λ row, length row = 80%nat) (fb s) → inited s = true →
  ∃ s', cls s = Ok (tt, s') ∧ shows term_clear s'.
Proof.
  intros Hl Hr Hi. unfold cls. change ROW_CNT with 25.
  destruct (loopM_rule (λ n y s1, Z.of_nat n = 25 - y ∧ 0 ≤ y ≤ 25 ∧
      s1 = set_fb (repeat (blank) (Z.to_nat y) ++ drop (Z.to_nat y) (fb s)) s)
    (λ _ s1, s1 = set_fb (repeat (blank) 25) s)
    (λ y, if y <? 25 then clear_row y;; mret (inl (y + 1)) else mret (inr tt)))
    with (fuel := 26%nat) (n := 25%nat) (l := 0) (s := s) as ([] & s' & E & ->).
  - intros n y s1 (Hn & Hy & ->). destruct (Z.ltb_spec y 25).
    + destruct (drop (Z.to_nat y) (fb s)) as [|row r] eqn:Ed.
      { apply (f_equal length) in Ed. rewrite length_drop, Hl in Ed. simpl in Ed. lia. }
      assert (length row = 80%nat) as Hrow.
      { pose proof (Forall_drop _ (Z.to_nat y) _ Hr) as Hr'. rewrite Ed in Hr'. by inversion Hr'. }
      erewrite bind_ok; cycle 1.
      { apply (clear_row_ok y row); [|done]. simpl. rewrite lookup_app_r, repeat_length, Nat.sub_diag by (rewrite repeat_length; lia). done. }
      eexists (inl (y + 1)), _. split; [done|]. exists (Nat.pred n). split; [lia|]. split_and!; [lia..|]. simpl.
      rewrite insert_app_r_alt by (rewrite repeat_length; lia). rewrite repeat_length, Nat.sub_diag. simpl. unfold set_fb. simpl. f_equal.
      replace (Z.to_nat (y + 1)) with (Z.to_nat y + 1)%nat by lia. rewrite repeat_app, <-app_assoc. simpl. do 2 f_equal.
      rewrite <-drop_drop, Ed. done.
    + exists (inr tt). eexists. split; [done|]. replace y with 25 by lia. rewrite drop_ge by lia. by rewrite app_nil_r.
  - split_and!; [done|lia|lia|]. simpl. by destruct s.
  - lia.
  - erewrite bind_ok by exact E. erewrite bind_ok by done. set (s1 := set_cy 0 _).
    destruct (move_cursor_ok s1) as (s' & E' & Hs & _); [simpl; lia..|]. exists s'. split; [exact E'|].
    eapply shows_same; [|exact Hs]. split; try done. split; [|simpl; lia]. split; [|done]. apply (bool_decide_unpack _). by vm_compute.
Qed.

Lemma shows_cursor a s : shows a s → 0 ≤ cx s < 80 ∧ 0 ≤ cy s < 25.
Proof. intros [_ -> -> _ [_ Hx]]. lia. Qed.

(** Another column of the same line. *)
Lemma shows_column a s x : shows a s → 0 ≤ x < 80 → shows (set_line (line a) x a) (set_cx x s).
Proof. intros [H1 H2 H3 H4 [H5 H6]] Hx. by split. Qed.

Lemma shows_shows_rows a s x : shows a s → shows_rows (set_line (line a) x a) (set_cx x s).
Proof. intros [H1 H2 H3 H4 _]. by split. Qed.

(** A character in the cell of the cursor. *)
Lemma screen_char_ok a s c :
  shows a s →
  let a' := set_line (<[Z.to_nat (column a) := cell c]> (line a)) (column a) a in
  put_cell (cy s) (cx s) c GRAY_ON_BLACK s = Ok (tt, set_fb (visible a') s) ∧ lines_ok a'.
Proof.
  intros [H1 H2 H3 H4 [H5 H6]] a'. pose proof (visible_line a H5) as Hline.
  assert (length (line a) = 80%nat) as Hl.
  { destruct H5 as [H5 _]. unfold lines in H5. apply Forall_app in H5 as [_ H5]. by inversion H5. }
  assert (Z.to_nat (cy s) = length (above a) `min` 24)%nat as Ey by lia. split.
  - erewrite (put_cell_ok _ _ _ _ (line a)); [|by rewrite H1, Ey|rewrite Hl; lia].
    do 3 f_equal. unfold a'. by rewrite visible_set, H1, Ey, H2.
  - apply lines_ok_set; [done|]. by rewrite length_insert.
Qed.

Lemma putc_char_ok a s c : shows a s → ∃ s', putc_char c s = Ok (tt, s') ∧ shows (term_putc c a) s'.
Proof.
  intros Hs. pose proof Hs as [Hfb Hx Hy Hi [Hl Hc]]. unfold putc_char, term_putc. change COL_CNT with 80.
  destruct (c =? 10). { apply newline_ok; [done|]. by split. }
  destruct (c =? 12).
  { apply cls_ok; [by rewrite Hfb, length_visible|rewrite Hfb; by apply visible_length|done]. }
  destruct (c =? 8).
  { erewrite bind_ok by apply get_ok. rewrite Z.gtb_ltb. destruct (Z.ltb_spec 0 (cx s)).
    - eexists. split; [done|]. replace (cx s - 1) with (Z.max 0 (column a - 1)) by lia. apply shows_column; [done|lia].
    - exists s. split; [done|]. replace (Z.max 0 (column a - 1)) with (column a) by lia. by destruct a. }
  destruct (c =? 13). { eexists. split; [done|]. apply shows_column; [done|lia]. }
  destruct (c =? 9).
  { erewrite bind_ok by done. erewrite bind_ok by apply get_ok. cbn [cx set_cx].
    assert (ROUND_UP (cx s + 1) 8 = (column a / 8 + 1) * 8) as ->.
    { unfold ROUND_UP. rewrite Hx, (u32_small (_ + 8 - 1)) by lia. rewrite u32_small by dlia. dlia. }
    rewrite Z.geb_leb. destruct (Z.leb_spec 80 ((column a / 8 + 1) * 8)); [rewrite (proj2 (Z.ltb_ge _ _)) by lia|rewrite (proj2 (Z.ltb_lt _ _)) by lia].
    - apply (newline_ok (set_line (line a) ((column a / 8 + 1) * 8) a)); [done|]. by apply shows_shows_rows.
    - eexists. split; [done|]. apply shows_column; [done|]. split; [dlia|done]. }
  destruct (c =? 7). { eexists. split; [done|]. eapply shows_same; [done|]. by split_and!. }
  destruct (screen_char_ok a s c Hs) as [Ep Hl']. erewrite bind_ok by apply get_ok. erewrite bind_ok by exact Ep. erewrite bind_ok by done.
  rewrite Z.geb_leb, Hx. set (l := <[_ := cell c]> (line a)) in *.
  destruct (Z.leb_spec 80 (column a + 1)); [rewrite (proj2 (Z.ltb_ge _ _)) by lia|rewrite (proj2 (Z.ltb_lt _ _)) by lia].
  - apply (newline_ok (set_line l 0 a)); [done|]. by split.
  - eexists. split; [done|]. split; simpl; try done. split; [done|]. simpl. lia.
Qed.

Lemma vga_putc_ok a s c :
  shows a s → ∃ s', vga_putc c s = Ok (tt, s') ∧ shows (term_putc c a) s' ∧ hardware_cursor s' = cx s' + 80 * cy s'.
Proof.
  intros Hs. unfold vga_putc, init. rewrite bind_ok with (a := tt) (s' := s); cycle 1.
  { erewrite bind_ok by apply get_ok. by rewrite (sh_inited _ _ Hs). }
  destruct (putc_char_ok a s c Hs) as (s1 & E & Hs1). erewrite bind_ok by exact E.
  destruct (shows_cursor _ _ Hs1) as [Hx Hy]. destruct (move_cursor_ok s1 Hx Hy) as (s2 & E2 & Hsame & Hh).
  exists s2. split; [done|]. split; [by eapply shows_same|]. destruct Hsame as (_ & -> & -> & _). exact Hh.
Qed.

Fixpoint puts (cs : list Z) : ST vga unit := match cs with [] => mret tt | c :: r => vga_putc c;; puts r end.

Lemma puts_ok cs : ∀ a s, shows a s → ∃ s', puts cs s = Ok (tt, s') ∧ shows (foldl (flip term_putc) a cs) s'.
Proof.
  induction cs as [|c cs IH]; intros a s Hs; [by exists s|]. simpl.
  destruct (vga_putc_ok a s c Hs) as (s1 & E & Hs1 & _). erewrite bind_ok by exact E. by apply IH.
Qed.

Lemma puts_snoc cs c : ∀ s s', puts cs s = Ok (tt, s') → puts (cs ++ [c]) s = vga_putc c s'.
Proof.
  induction cs as [|x cs IH]; intros s s' E; cbn [puts app] in *; unfold mbind, st_bind, mret, st_ret in *.
  - injection E as ->. by destruct (vga_putc c s') as [[[] ?]|].
  - destruct (vga_putc x s) as [[[] s1]|]; [|done]. by apply IH.
Qed.

(** ** The first character *)

Lemma find_cursor_ok s :
  map_Forall (λ _ v, 0 ≤ v < 256) (crtc s) → hardware_cursor s < 2000 →
  ∃ s', find_cursor s = Ok ((hardware_cursor s mod 80, hardware_cursor s / 80), s') ∧ same_screen s s' ∧ crtc s' = crtc s.
Proof.
  intros Hr Hc. unfold hardware_cursor in *. set (hi := default 0 (crtc s !! 14)) in *. set (lo := default 0 (crtc s !! 15)) in *.
  assert (∀ i, 0 ≤ default 0 (crtc s !! i) < 256) as Hd by (intros i; destruct (crtc s !! i) as [v|] eqn:E; simpl; [by eapply Hr|lia]).
  pose proof (Hd 14). pose proof (Hd 15). fold hi in H. fold lo in H0.
  exists (mk_vga (fb s) (cx s) (cy s) (inited s) 15 (crtc s) (beeps s)). split; [|by split_and!]. unfold find_cursor. do 4 erewrite bind_ok by done. cbn [crtc crtc_index fst snd].
  change (u8 14) with 14. change (u8 15) with 15. fold hi lo. change COL_CNT with 80.
  assert (Z.lor (u16 (Z.shiftl hi 8)) lo = hi * 256 + lo) as ->; [|done].
  rewrite Z.shiftl_mul_pow2 by lia. unfold u16. rewrite Z.mod_small by lia.
  symmetry. apply Z.add_nocarry_lor, Z.bits_inj_0. intros n. rewrite Z.land_spec. destruct (decide (n < 8)).
  - by rewrite Z.mul_pow2_bits_low by lia.
  - apply andb_false_iff. right. apply (proj1 (Z.bounded_iff_bits_nonneg 8 lo ltac:(lia) ltac:(lia)) ltac:(lia)). lia.
Qed.

Lemma cursor_nonneg s : power_on s → 0 ≤ hardware_cursor s.
Proof.
  intros Hp. pose proof (po_regs _ Hp) as Hg. unfold hardware_cursor. destruct (crtc s !! 14) eqn:E1, (crtc s !! 15) eqn:E2; simpl;
    repeat match goal with H : crtc s !! _ = Some _ |- _ => apply Hg in H end; lia.
Qed.

Lemma screen_ok s : power_on s → term_ok (screen s) ∧ visible (screen s) = fb s.
Proof.
  intros Hp. pose proof (cursor_nonneg s Hp). destruct Hp as [Hl Hr _ Hg Hc].
  set (y := Z.to_nat (hardware_cursor s / 80)). assert (y < 25)%nat as Hy by (unfold y; dlia).
  destruct (lookup_lt_is_Some_2 (fb s) y) as [row Hrow]; [lia|].
  assert (lines (screen s) = fb s) as El.
  { unfold lines, screen. simpl. fold y. rewrite (list_lookup_total_correct _ _ _ Hrow). by apply take_drop_middle. }
  split; [|unfold visible; rewrite El, Hl; done]. split; [split; [by rewrite El|]|simpl; dlia].
  simpl. fold y. rewrite length_take, length_drop. lia.
Qed.

Lemma vga_init_ok s : power_on s → ∃ s', init s = Ok (tt, s') ∧ shows (screen s) s'.
Proof.
  intros Hp. destruct (screen_ok s Hp) as [Ht Hv]. pose proof (cursor_nonneg s Hp). destruct Hp as [Hl Hr Hi Hg Hc].
  destruct (find_cursor_ok s Hg Hc) as (s1 & E & (E1 & E2 & E3 & E4) & _). unfold init. erewrite bind_ok by apply get_ok. rewrite Hi. cbn [negb].
  erewrite bind_ok by exact E. eexists. split; [done|]. split; simpl; [congruence|done| |done|done].
  rewrite length_take, Hl. dlia.
Qed.

Lemma vga_putc_init s s' c : init s = Ok (tt, s') → inited s' = true → vga_putc c s = vga_putc c s'.
Proof.
  intros E Hi. unfold vga_putc. unfold mbind at 1, st_bind at 1. rewrite E. unfold mbind at 2, st_bind at 2.
  unfold init. unfold mbind at 2, st_bind at 2, get. by rewrite Hi.
Qed.

(** ** Properties *)

(** C22: from the first character on, whatever is written, no cell outside the
    frame buffer is written, and the screen shows the last 25 lines of a
    terminal that does not scroll and that begins with what the screen showed
    and with its cursor where the hardware had it; characters are written in
    gray on black, and the hardware cursor is on the position of the next one.
    The screen may hold anything before, but the hardware cursor has to be on
    it: the code does not check the position that it reads. *)
Theorem vga_shows_text s cs c :
  power_on s →
  ∃ s', puts (cs ++ [c]) s = Ok (tt, s') ∧
    let a := foldl (flip term_putc) (screen s) (cs ++ [c]) in
    fb s' = visible a ∧ cx s' = column a ∧ 0 ≤ cx s' < 80 ∧
    cy s' = Z.min 24 (Z.of_nat (length (above a))) ∧ hardware_cursor s' = cx s' + 80 * cy s'.
Proof.
  intros Hp. destruct (vga_init_ok s Hp) as (s1 & E1 & Hs1). destruct (puts_ok cs _ _ Hs1) as (s2 & E2 & Hs2).
  destruct (vga_putc_ok _ _ c Hs2) as (s3 & E3 & Hs3 & Hh). exists s3. split.
  - rewrite <-E3, <-(puts_snoc cs c s1 s2 E2).
    destruct cs as [|x cs]; cbn [puts app]; unfold mbind, st_bind; by rewrite (vga_putc_init s s1 _ E1 (sh_inited _ _ Hs1)).
  - rewrite foldl_app. cbn [foldl flip]. pose proof (shows_cursor _ _ Hs3) as [Hx _].
    destruct Hs3 as [H1 H2 H3 _ _]. split_and!; done || lia.
Qed.

(** ** Witnesses *)

(** The text that the loader has left, and the cursor in the last row. *)
Definition demo_vga : vga := mk_vga (repeat (repeat (88, 7) 80) 25) 0 0 false 0 {[14 := 7; 15 := 130]} 0.

Lemma vga_shows_text_witness :
  ∃ s', puts ([65; 10; 66] ++ [67]) demo_vga = Ok (tt, s') ∧
    (fb s' !! 23%nat) ≫= (.!! 2%nat) = Some (65, 7) ∧ (fb s' !! 23%nat) ≫= (.!! 1%nat) = Some (88, 7) ∧
    (fb s' !! 24%nat) ≫= (.!! 1%nat) = Some (67, 7) ∧ hardware_cursor s' = 24 * 80 + 2.
Proof.
  destruct (vga_shows_text demo_vga [65; 10; 66] 67) as (s' & E & Hfb & Hx & _ & Hy & Hh).
  - split; [reflexivity| |reflexivity| |reflexivity]; apply (bool_decide_unpack _); vm_compute; reflexivity.
  - exists s'. split; [exact E|]. rewrite Hh, Hx, Hy, Hfb. split_and!; vm_compute; reflexivity.
Defined.

(** A cursor that is not on the screen: the first character is written behind
    the frame buffer. *)
Example cursor_off_screen :
  vga_putc 65 (mk_vga (repeat (repeat (88, 7) 80) 25) 0 0 false 0 {[14 := 7; 15 := 208]} 0) = Err BadAccess.
Proof. vm_compute. reflexivity. Qed.
