(* ===== verification/Kbd.v ===== *)
(** * The keyboard: devices/kbd.c

    The interrupt handler reads scan codes from the data port, follows the state
    of the shift keys and puts characters into the input buffer of [Intq].  The
    theorems compare it with a keyboard of which some keys are held down and
    with a table of the US layout.  The notification of the serial port by
    input_putc is not modelled. *)

From S2P Require Import Prelude Intq.

(** ** State *)

Record kbd := mk_kbd {
  left_shift : bool; right_shift : bool;
  left_alt : bool; right_alt : bool;
  left_ctrl : bool; right_ctrl : bool;
  caps_lock : bool;
  key_cnt : Z;
  port : list Z;      (* the bytes that reads of the data port return *)
  input : sys;
  rebooted : bool     (* shutdown_reboot, which does not return *)
}.

Definition set_port l k := mk_kbd (left_shift k) (right_shift k) (left_alt k) (right_alt k) (left_ctrl k) (right_ctrl k)
  (caps_lock k) (key_cnt k) l (input k) (rebooted k).
Definition set_caps b k := mk_kbd (left_shift k) (right_shift k) (left_alt k) (right_alt k) (left_ctrl k) (right_ctrl k)
  b (key_cnt k) (port k) (input k) (rebooted k).
Definition set_key_cnt n k := mk_kbd (left_shift k) (right_shift k) (left_alt k) (right_alt k) (left_ctrl k) (right_ctrl k)
  (caps_lock k) n (port k) (input k) (rebooted k).
Definition set_input i k := mk_kbd (left_shift k) (right_shift k) (left_alt k) (right_alt k) (left_ctrl k) (right_ctrl k)
  (caps_lock k) (key_cnt k) (port k) i (rebooted k).
Definition set_rebooted k := mk_kbd (left_shift k) (right_shift k) (left_alt k) (right_alt k) (left_ctrl k) (right_ctrl k)
  (caps_lock k) (key_cnt k) (port k) (input k) true.

Definition set_left_shift b k := mk_kbd b (right_shift k) (left_alt k) (right_alt k) (left_ctrl k) (right_ctrl k)
  (caps_lock k) (key_cnt k) (port k) (input k) (rebooted k).
Definition set_right_shift b k := mk_kbd (left_shift k) b (left_alt k) (right_alt k) (left_ctrl k) (right_ctrl k)
  (caps_lock k) (key_cnt k) (port k) (input k) (rebooted k).
Definition set_left_alt b k := mk_kbd (left_shift k) (right_shift k) b (right_alt k) (left_ctrl k) (right_ctrl k)
  (caps_lock k) (key_cnt k) (port k) (input k) (rebooted k).
Definition set_right_alt b k := mk_kbd (left_shift k) (right_shift k) (left_alt k) b (left_ctrl k) (right_ctrl k)
  (caps_lock k) (key_cnt k) (port k) (input k) (rebooted k).
Definition set_left_ctrl b k := mk_kbd (left_shift k) (right_shift k) (left_alt k) (right_alt k) b (right_ctrl k)
  (caps_lock k) (key_cnt k) (port k) (input k) (rebooted k).
Definition set_right_ctrl b k := mk_kbd (left_shift k) (right_shift k) (left_alt k) (right_alt k) (left_ctrl k) b
  (caps_lock k) (key_cnt k) (port k) (input k) (rebooted k).

(** ** The code *)

(** The tables: the first scan code and the characters from it on. *)
Definition keymap := list (Z * list Z).

Definition invariant_keymap : keymap :=
  [(0x01, [27]); (0x0e, [8]); (0x0f, [9; 81; 87; 69; 82; 84; 89; 85; 73; 79; 80]); (0x1c, [13]);
   (0x1e, [65; 83; 68; 70; 71; 72; 74; 75; 76]); (0x2c, [90; 88; 67; 86; 66; 78; 77]); (0x37, [42]); (0x39, [32]); (0x53, [127])].
Definition unshifted_keymap : keymap :=
  [(0x02, [49; 50; 51; 52; 53; 54; 55; 56; 57; 48; 45; 61]); (0x1a, [91; 93]); (0x27, [59; 39; 96]); (0x2b, [92]); (0x33, [44; 46; 47])].
Definition shifted_keymap : keymap :=
  [(0x02, [33; 64; 35; 36; 37; 94; 38; 42; 40; 41; 95; 43]); (0x1a, [123; 125]); (0x27, [58; 34; 126]); (0x2b, [124]); (0x33, [60; 62; 63])].

Fixpoint map_key (k : keymap) (scancode : Z) : option Z :=
  match k with
  | [] => None
  | (first_scancode, chars) :: r =>
      if (first_scancode <=? scancode) && (scancode <? first_scancode + Z.of_nat (length chars))
      then chars !! Z.to_nat (scancode - first_scancode) else map_key r scancode
  end.

(** The condition for an ordinary character, with the character it finds. *)
Definition find_char (shift : bool) (code : Z) : option Z :=
  match map_key invariant_keymap code with
  | Some c => Some c
  | None => map_key (if shift then shifted_keymap else unshifted_keymap) code
  end.

Definition tolower (c : Z) : Z := if (65 <=? c) && (c <=? 90) then c - 65 + 97 else c.

(** Ctrl, Shift and Alt applied to a character. *)
Definition cook (shift alt ctrl caps : bool) (c : Z) : Z :=
  let c := if ctrl && (0x40 <=? c) && (c <? 0x60) then u8 (c - 0x40) else if Bool.eqb shift caps then tolower c else c in
  if alt then u8 (c + 0x80) else c.

Definition inb : ST kbd Z := λ k,
  match port k with b :: r => Ok (b, set_port r k) | [] => Err BadAccess end.

Definition on_input (f : ST sys unit) : ST kbd unit := λ k,
  match f (input k) with Ok (_, i) => Ok (tt, set_input i k) | Err e => Err e end.

Definition shift_keys : list (Z * (bool → kbd → kbd)) :=
  [(0x2a, set_left_shift); (0x36, set_right_shift); (0x38, set_left_alt); (0xe038, set_right_alt);
   (0x1d, set_left_ctrl); (0xe01d, set_right_ctrl)].

Fixpoint scan_shift_keys (l : list (Z * (bool → kbd → kbd))) (code : Z) (v : bool) : ST kbd unit :=
  match l with
  | [] => mret tt
  | (scancode, set_var) :: r => if scancode =? code then modify (set_var v) else scan_shift_keys r code v
  end.

(** The handler, once the scan code is known; [k] is the state in which it was
    entered. *)
Definition interpret (k : kbd) (code : Z) (release : bool) : ST kbd unit :=
  let shift := left_shift k || right_shift k in
  let alt := left_alt k || right_alt k in
  let ctrl := left_ctrl k || right_ctrl k in
  if code =? 0x3a then
    if negb release then modify (λ k, set_caps (negb (caps_lock k)) k) else mret tt
  else
    match find_char shift code with
    | Some c =>
        if negb release then
          if (c =? 127) && ctrl && alt then modify set_rebooted
          else
            let c := cook shift alt ctrl (caps_lock k) c in
            k ← get;
            if negb (input_full (input k)) then
              modify (λ k, set_key_cnt (key_cnt k + 1) k);;
              on_input (input_putc c)
            else mret tt
        else mret tt
    | None => scan_shift_keys shift_keys code (negb release)
    end.

Definition keyboard_interrupt : ST kbd unit :=
  k ← get;
  code ← inb;
  code ← (if code =? 0xe0 then b ← inb; mret (Z.lor (Z.shiftl code 8) b) else mret code);
  interpret k (Z.land code (u32 (Z.lnot 0x80))) (negb (Z.land code 0x80 =? 0)).

(** ** A keyboard *)

Inductive event := Press (code : Z) | Release (code : Z).

(** Scan codes of one byte and of two, which the second byte of the prefix
    0xe0 distinguishes.  0x60 with the release bit would be the prefix. *)
Definition codes : list Z := (filter (λ c, c ≠ 0x60) (seqZ 1 127)) ++ seqZ 0xe001 127.

Definition bytes_of (e : event) : list Z :=
  let enc c v := if c <? 256 then [c + v] else [0xe0; c - 0xe000 + v] in
  match e with Press c => enc c 0 | Release c => enc c 128 end.
Definition code_of (e : event) : Z := match e with Press c | Release c => c end.

(** The keys that are held down, and Caps Lock. *)
Definition held_after (e : event) (held : gset Z) : gset Z :=
  match e with Press c => {[c]} ∪ held | Release c => held ∖ {[c]} end.
Definition caps_after (e : event) (caps : bool) : bool :=
  match e with Press 0x3a => negb caps | _ => caps end.

Definition held2 (a b : Z) (held : gset Z) : bool := bool_decide (a ∈ held) || bool_decide (b ∈ held).
Definition shift_held := held2 0x2a 0x36.
Definition alt_held := held2 0x38 0xe038.
Definition ctrl_held := held2 0x1d 0xe01d.

(** The US layout: scan code, character, and character with Shift.  Letters are
    given in upper case. *)
Definition us_letters : list (Z * Z) :=
  zip (seqZ 0x10 10) [81; 87; 69; 82; 84; 89; 85; 73; 79; 80] ++ zip (seqZ 0x1e 9) [65; 83; 68; 70; 71; 72; 74; 75; 76] ++
  zip (seqZ 0x2c 7) [90; 88; 67; 86; 66; 78; 77].
Definition us_others : list (Z * (Z * Z)) :=
  [(0x01, (27, 27)); (0x02, (49, 33)); (0x03, (50, 64)); (0x04, (51, 35)); (0x05, (52, 36)); (0x06, (53, 37)); (0x07, (54, 94));
   (0x08, (55, 38)); (0x09, (56, 42)); (0x0a, (57, 40)); (0x0b, (48, 41)); (0x0c, (45, 95)); (0x0d, (61, 43)); (0x0e, (8, 8));
   (0x0f, (9, 9)); (0x1a, (91, 123)); (0x1b, (93, 125)); (0x1c, (13, 13)); (0x27, (59, 58)); (0x28, (39, 34)); (0x29, (96, 126));
   (0x2b, (92, 124)); (0x33, (44, 60)); (0x34, (46, 62)); (0x35, (47, 63)); (0x37, (42, 42)); (0x39, (32, 32)); (0x53, (127, 127))].

Fixpoint assoc {A} (l : list (Z * A)) (c : Z) : option A :=
  match l with [] => None | (k, v) :: r => if k =? c then Some v else assoc r c end.

(** The character that a key types. *)
Definition typed (shift alt ctrl caps : bool) (code : Z) : option Z :=
  let add c := if alt then c + 128 else c in
  match assoc us_letters code with
  | Some c => Some (add (if ctrl then c - 64 else if xorb shift caps then c else c + 32))
  | None =>
      match assoc us_others code with
      | Some (c, c') =>
          let c := if shift then c' else c in
          Some (add (if ctrl && bool_decide (c ∈ [64; 91; 92; 93; 94; 95]) then c - 64 else c))
      | None => None
      end
  end.

(** All keys with all modifiers. *)
Definition bools : list bool := [true; false].
Definition layout_check (code : Z) : bool :=
  forallb (λ shift, forallb (λ alt, forallb (λ ctrl, forallb (λ caps,
    bool_decide (cook shift alt ctrl caps <$> find_char shift code = typed shift alt ctrl caps code)) bools) bools) bools) bools.

Lemma layout_ok code shift alt ctrl caps :
  code ∈ codes → cook shift alt ctrl caps <$> find_char shift code = typed shift alt ctrl caps code.
Proof.
  intros Hc. assert (forallb layout_check codes = true) as H by (vm_compute; reflexivity).
  rewrite forallb_forall in H. apply list_elem_of_In, H in Hc. unfold layout_check in Hc. rewrite !forallb_forall in Hc.
  specialize (Hc shift ltac:(destruct shift; simpl; tauto)). rewrite forallb_forall in Hc.
  specialize (Hc alt ltac:(destruct alt; simpl; tauto)). rewrite forallb_forall in Hc.
  specialize (Hc ctrl ltac:(destruct ctrl; simpl; tauto)). rewrite forallb_forall in Hc.
  specialize (Hc caps ltac:(destruct caps; simpl; tauto)). by apply bool_decide_eq_true in Hc.
Qed.

(** ** Decoding *)

(** What the handler makes of the bytes of an event. *)
Definition decoded (e : event) : Z * bool :=
  let code := match bytes_of e with b :: r => if b =? 0xe0 then Z.lor (Z.shiftl b 8) (List.hd 0 r) else b | [] => 0 end in
  (Z.land code (u32 (Z.lnot 0x80)), negb (Z.land code 0x80 =? 0)).

Definition decode_check (c : Z) : bool :=
  bool_decide (decoded (Press c) = (c, false)) && bool_decide (decoded (Release c) = (c, true)) &&
  bool_decide (find_char true c = Some 127 ↔ c = 0x53) && bool_decide (find_char false c = Some 127 ↔ c = 0x53) &&
  forallb (λ e, match bytes_of e with [b] => negb (b =? 0xe0) | [b; _] => b =? 0xe0 | _ => false end) [Press c; Release c] &&
  (bool_decide (c ∉ fst <$> shift_keys) ||
   bool_decide (find_char true c = None ∧ find_char false c = None) && negb (c =? 0x3a)) &&
  (negb (c =? 0x3a) || bool_decide (find_char true c = None ∧ find_char false c = None)).

Lemma decode_all : forallb decode_check codes = true.
Proof. vm_compute. reflexivity. Qed.

Lemma decode_ok c :
  c ∈ codes → decoded (Press c) = (c, false) ∧ decoded (Release c) = (c, true) ∧
  (∀ shift, find_char shift c = Some 127 ↔ c = 0x53) ∧
  (∀ e, e ∈ [Press c; Release c] → (∃ b, bytes_of e = [b] ∧ b ≠ 0xe0) ∨ ∃ b, bytes_of e = [0xe0; b]) ∧
  (c ∈ fst <$> shift_keys ∨ c = 0x3a → ∀ shift, find_char shift c = None) ∧ (c ∈ fst <$> shift_keys → c ≠ 0x3a).
Proof.
  intros Hc. pose proof decode_all as H. rewrite forallb_forall in H. apply list_elem_of_In, H in Hc. clear H. unfold decode_check in Hc.
  rewrite !andb_true_iff, !orb_true_iff, !andb_true_iff, !bool_decide_eq_true in Hc.
  destruct Hc as ((((((H1 & H2) & H3) & H4) & H5) & H6) & H7). rewrite negb_true_iff, Z.eqb_neq in H6. rewrite negb_true_iff, Z.eqb_neq in H7.
  split_and!; try done.
  - by intros [].
  - intros e He. rewrite forallb_forall in H5. specialize (H5 e ltac:(by apply list_elem_of_In)).
    destruct (bytes_of e) as [|b [|b' [|]]]; try done.
    + left. exists b. split; [done|]. by apply negb_true_iff, Z.eqb_neq in H5.
    + right. apply Z.eqb_eq in H5 as ->. eauto.
  - intros [Hin| ->] shift.
    + destruct H6 as [?|[[Ht Hf] _]]; [done|by destruct shift].
    + destruct H7 as [?|[Ht Hf]]; [done|by destruct shift].
  - intros Hin. destruct H6 as [?|[_ ?]]; done.
Qed.

(** ** The handler *)

Record tracks (held : gset Z) (caps : bool) (k : kbd) : Prop := {
  tr_ls : left_shift k = bool_decide (0x2a ∈ held);
  tr_rs : right_shift k = bool_decide (0x36 ∈ held);
  tr_la : left_alt k = bool_decide (0x38 ∈ held);
  tr_ra : right_alt k = bool_decide (0xe038 ∈ held);
  tr_lc : left_ctrl k = bool_decide (0x1d ∈ held);
  tr_rc : right_ctrl k = bool_decide (0xe01d ∈ held);
  tr_caps : caps_lock k = caps;
  tr_running : rebooted k = false
}.

(** Reading the scan code. *)
Lemma read_code {A} e rest (k : kbd) (f : Z → ST kbd A) :
  code_of e ∈ codes → port k = bytes_of e ++ rest →
  (code ← inb; code ← (if code =? 0xe0 then b ← inb; mret (Z.lor (Z.shiftl code 8) b) else mret code); f code) k =
  f (match bytes_of e with b :: r => if b =? 0xe0 then Z.lor (Z.shiftl b 8) (List.hd 0 r) else b | [] => 0 end) (set_port rest k).
Proof.
  intros Hc Hp. destruct (decode_ok (code_of e) Hc) as (_ & _ & _ & Hb & _).
  destruct (Hb e) as [(b & E & Hne)|(b & E)].
  { destruct e; simpl; set_solver. }
  - rewrite E in *. simpl in Hp. rewrite bind_ok with (a := b) (s' := set_port rest k) by (unfold inb; by rewrite Hp).
    rewrite (proj2 (Z.eqb_neq _ _) Hne). by erewrite bind_ok by done.
  - rewrite E in *. simpl in Hp. rewrite bind_ok with (a := 0xe0) (s' := set_port (b :: rest) k) by (unfold inb; by rewrite Hp).
    simpl. by erewrite bind_ok by done.
Qed.

(** An event changes nothing about other keys. *)
Lemma held_other e held c :
  c ≠ code_of e → bool_decide (c ∈ held_after e held) = bool_decide (c ∈ held).
Proof. intros Hc. apply bool_decide_ext. destruct e; simpl in *; set_solver. Qed.

(** A key that is neither a shift key nor Caps Lock. *)
Lemma tracks_other e held caps k :
  tracks held caps k → code_of e ∉ fst <$> shift_keys → code_of e ≠ 0x3a → tracks (held_after e held) (caps_after e caps) k.
Proof.
  intros [H1 H2 H3 H4 H5 H6 H7 H8] Hn Hc.
  assert (∀ c, c ∈ fst <$> shift_keys → bool_decide (c ∈ held_after e held) = bool_decide (c ∈ held)) as Hb.
  { intros c Hin. apply held_other. congruence. }
  split; rewrite ?Hb; try done; try (apply (bool_decide_unpack _); vm_compute; done).
  unfold caps_after. destruct e as [c|]; [|done]. simpl in Hc. destruct c as [|[| |]|]; try done. repeat (case_match; try done).
Qed.

(** A shift key, pressed or released. *)
Lemma shift_key_ok e held caps k :
  tracks held caps k → code_of e ∈ fst <$> shift_keys →
  ∃ k', scan_shift_keys shift_keys (code_of e) (match e with Press _ => true | Release _ => false end) k = Ok (tt, k') ∧
  tracks (held_after e held) caps k' ∧ input k' = input k ∧ port k' = port k ∧ key_cnt k' = key_cnt k.
Proof.
  intros [H1 H2 H3 H4 H5 H6 H7 H8] Hin.
  assert (bool_decide (code_of e ∈ held_after e held) = match e with Press _ => true | Release _ => false end) as Heq.
  { destruct e; [apply bool_decide_eq_true|apply bool_decide_eq_false]; simpl; set_solver. }
  simpl in Hin. rewrite !elem_of_cons, elem_of_nil in Hin.
  destruct Hin as [E|[E|[E|[E|[E|[E|[]]]]]]]; rewrite E in *;
    (eexists; split; [reflexivity|]; split_and!; try reflexivity; split; simpl; try rewrite Heq; try rewrite held_other by congruence; done).
Qed.

(** The character that an event types. *)
Definition key_char (e : event) (held : gset Z) (caps : bool) : option Z :=
  match e with
  | Press c => typed (shift_held held) (alt_held held) (ctrl_held held) caps c
  | Release _ => None
  end.

(** Ctrl+Alt+Del. *)
Definition reboots (e : event) (held : gset Z) : bool :=
  match e with Press c => (c =? 0x53) && ctrl_held held && alt_held held | Release _ => false end.

(** A character for which there is room. *)
Lemma putc_ok t c (k : kbd) :
  t ≠ NULL → inv true t (input k) → input_full (input k) = false →
  ∃ i, on_input (input_putc c) k = Ok (tt, set_input i k) ∧ inv true t i ∧ added i = added (input k) ++ [c].
Proof.
  intros Ht Hi Hf. destruct (handler_ok true t (Putc c) (input k)) as (i & E & Hi'); [done..|].
  exists i. split_and!; [|done|by apply handler_added in E as [? _]].
  unfold on_input, input_putc. erewrite bind_ok by apply get_ok. unfold input_full in Hf. rewrite Hf.
  erewrite bind_ok by reflexivity. by rewrite E.
Qed.

Lemma interrupt_interprets e rest (k : kbd) :
  code_of e ∈ codes → port k = bytes_of e ++ rest →
  keyboard_interrupt k = interpret k (code_of e) (match e with Press _ => false | Release _ => true end) (set_port rest k).
Proof.
  intros Hc Hp. destruct (decode_ok (code_of e) Hc) as (Hpr & Hre & _).
  unfold keyboard_interrupt. erewrite bind_ok by apply get_ok. erewrite read_code by eassumption.
  set (raw := match bytes_of e with [] => 0 | _ => _ end).
  assert (decoded e = (Z.land raw (u32 (Z.lnot 128)), negb (Z.land raw 128 =? 0))) as Ed by done.
  destruct e; simpl code_of in *; [rewrite Hpr in Ed|rewrite Hre in Ed]; injection Ed as <- <-; done.
Qed.

Lemma scan_other l code v (k : kbd) : code ∉ fst <$> l → scan_shift_keys l code v k = Ok (tt, k).
Proof.
  induction l as [|[c f] l IH]; [done|]. rewrite fmap_cons, not_elem_of_cons. intros [Hc Hl]. simpl in *.
  rewrite (proj2 (Z.eqb_neq c code)) by done. by apply IH.
Qed.

(** What the handler does with an event. *)
Definition handled (t : Z) (e : event) (held : gset Z) (caps : bool) (rest : list Z) (k k' : kbd) : Prop :=
  let new := if input_full (input k) then [] else option_list (key_char e held caps) in
  tracks (held_after e held) (caps_after e caps) k' ∧ inv true t (input k') ∧ port k' = rest ∧
  added (input k') = added (input k) ++ new ∧ key_cnt k' = key_cnt k + Z.of_nat (length new).

(** An event that puts nothing into the buffer. *)
Lemma handled_quiet t e held caps k k' :
  tracks (held_after e held) (caps_after e caps) k' → inv true t (input k) → input k' = input k → key_cnt k' = key_cnt k →
  input_full (input k) = true ∨ key_char e held caps = None →
  handled t e held caps (port k') k k'.
Proof.
  intros Ht Hi Ein Ek Hn. unfold handled. rewrite Ein, Ek.
  assert ((if input_full (input k) then [] else option_list (key_char e held caps)) = []) as ->.
  { destruct Hn as [->| ->]; [done|by destruct (input_full _)]. }
  rewrite app_nil_r. split_and!; try done. simpl. lia.
Qed.

(** An ordinary key is pressed. *)
Lemma character_ok t c held caps rest (k : kbd) :
  c ∈ codes → t ≠ NULL → tracks held caps k → inv true t (input k) → reboots (Press c) held = false →
  is_Some (find_char (shift_held held) c) →
  ∃ k', interpret k c false (set_port rest k) = Ok (tt, k') ∧ handled t (Press c) held caps rest k k'.
Proof.
  intros Hc Ht Htr Hi Hrb [ch Hch]. pose proof Htr as [H1 H2 H3 H4 H5 H6 H7 _].
  destruct (decode_ok c Hc) as (_ & _ & Hdel & _ & Hno & _).
  assert (c ∉ fst <$> shift_keys) as Hns by (intros ?; by rewrite Hno in Hch by auto).
  assert (c ≠ 0x3a) as Hnc by (intros ?; by rewrite Hno in Hch by auto).
  pose proof (layout_ok c (shift_held held) (alt_held held) (ctrl_held held) caps Hc) as Hl. rewrite Hch in Hl. simpl in Hl.
  unfold interpret. rewrite (proj2 (Z.eqb_neq _ _) Hnc).
  assert (left_shift k || right_shift k = shift_held held) as -> by (by rewrite H1, H2).
  assert (left_alt k || right_alt k = alt_held held) as -> by (by rewrite H3, H4).
  assert (left_ctrl k || right_ctrl k = ctrl_held held) as -> by (by rewrite H5, H6).
  rewrite Hch, H7. cbn [negb].
  assert ((ch =? 127) && ctrl_held held && alt_held held = false) as ->.
  { apply not_true_is_false. rewrite !andb_true_iff, Z.eqb_eq. intros [[-> Hct] Hal].
    apply Hdel in Hch. unfold reboots in Hrb. by rewrite Hct, Hal, Hch in Hrb. }
  set (x := cook _ _ _ _ _) in *. cbv zeta. erewrite bind_ok by apply get_ok. cbn [input set_port].
  destruct (input_full (input k)) eqn:Hf; cbn [negb].
  - eexists. split; [reflexivity|]. apply (handled_quiet t _ _ _ _ (set_port rest k)); try done; [|by left].
    apply tracks_other; [by destruct Htr|done..].
  - erewrite bind_ok by reflexivity.
    destruct (putc_ok t x (set_key_cnt (key_cnt k + 1) (set_port rest k)) Ht Hi Hf) as (i & E & Hi' & Ea).
    eexists. split; [exact E|]. unfold handled. rewrite Hf. simpl key_char. rewrite <-Hl. split_and!; try done.
    apply tracks_other; [by destruct Htr|done..].
Qed.

(** A key that types nothing, or that is released. *)
Lemma untyped e held caps :
  code_of e ∈ codes → match e with Press c => find_char (shift_held held) c = None | Release _ => True end →
  key_char e held caps = None.
Proof. intros Hc Hn. destruct e as [c|]; [|done]. simpl. rewrite <-layout_ok by done. by rewrite Hn. Qed.

(** Everything else: Caps Lock, the shift keys, keys without a meaning, and
    the release of a key. *)
Lemma other_key_ok t e held caps rest (k : kbd) :
  code_of e ∈ codes → tracks held caps k → inv true t (input k) →
  match e with Press c => find_char (shift_held held) c = None | Release _ => True end →
  ∃ k', interpret k (code_of e) (match e with Press _ => false | Release _ => true end) (set_port rest k) = Ok (tt, k') ∧
    handled t e held caps rest k k'.
Proof.
  intros Hc Htr Hi Hn. destruct (decode_ok (code_of e) Hc) as (_ & _ & _ & _ & Hno & Hsc).
  assert (tracks held caps (set_port rest k)) as Htr' by (by destruct Htr).
  pose proof (untyped e held caps Hc Hn) as Hu. unfold interpret.
  assert (left_shift k || right_shift k = shift_held held) as -> by (by rewrite (tr_ls _ _ _ Htr), (tr_rs _ _ _ Htr)).
  destruct (decide (code_of e = 0x3a)) as [E3|N3].
  - rewrite E3. simpl. destruct e as [c|c]; simpl in E3; subst; (eexists; split; [reflexivity|]; apply (handled_quiet t); try done; [|by right];
      destruct Htr' as [H1 H2 H3 H4 H5 H6 H7 H8]; split; rewrite ?held_other by done; simpl in *; by rewrite ?H7).
  - rewrite (proj2 (Z.eqb_neq _ _) N3). destruct (decide (code_of e ∈ fst <$> shift_keys)) as [Hs|Hs].
    + rewrite Hno by auto. destruct (shift_key_ok e held caps (set_port rest k) Htr' Hs) as (k' & E & Ht' & Ei & Ep & Ek).
      exists k'. split; [by destruct e|]. replace rest with (port k') by done. apply handled_quiet; try done; [|by right].
      replace (caps_after e caps) with caps; [done|]. destruct e as [c|]; [|done]. simpl in *.
      by rewrite !elem_of_cons, elem_of_nil in Hs; destruct_or? Hs; subst.
    + exists (set_port rest k). split; [|by apply (handled_quiet t _ _ _ k (set_port rest k)); try done; [apply tracks_other|right]].
      destruct (find_char (shift_held held) (code_of e)) eqn:Ef; [|by apply scan_other]. destruct e; [by simpl in *; congruence|done].
Qed.

(** ** Properties *)

(** C23: the keyboard handler follows a keyboard with the US layout.  Whatever
    key is pressed or released while some keys are held down, the handler reads
    exactly the bytes of the event, its flags say again which shift keys are
    down and whether Caps Lock is on, and the character that the key types with
    these modifiers, if there is one and there is room for it, is added to the
    input buffer and counted; Ctrl+Alt+Del reboots.  No assertion of the input
    buffer fails, whatever the reader is doing. *)
Theorem keyboard_correct t e held caps rest (k : kbd) :
  t ≠ NULL → code_of e ∈ codes → tracks held caps k → inv true t (input k) → port k = bytes_of e ++ rest →
  ∃ k', keyboard_interrupt k = Ok (tt, k') ∧
    if reboots e held then rebooted k' = true else handled t e held caps rest k k'.
Proof.
  intros Ht Hc Htr Hi Hp. rewrite (interrupt_interprets e rest) by done.
  destruct (reboots e held) eqn:Hrb.
  - destruct e as [c|]; [|done]. simpl in Hrb. apply andb_true_iff in Hrb as [[->%Z.eqb_eq Hct]%andb_true_iff Hal].
    destruct Htr as [_ _ H3 H4 H5 H6 _ _]. unfold interpret. rewrite H3, H4, H5, H6.
    unfold ctrl_held, alt_held, held2 in Hct, Hal. rewrite Hct, Hal.
    destruct (left_shift k || right_shift k); (eexists; split; [reflexivity|reflexivity]).
  - destruct e as [c|c]; [destruct (find_char (shift_held held) c) eqn:Ef|].
    + apply character_ok; [done..|by eexists].
    + by apply (other_key_ok t (Press c)).
    + by apply (other_key_ok t (Release c)).
Qed.

(** ** Witness *)

(** The left Shift key is held down, and the key of A is pressed. *)
Definition demo_kbd : kbd := mk_kbd true false false false false false false 5 [0x1e; 0x9e] demo_start false.

Lemma keyboard_correct_witness :
  ∃ k', keyboard_interrupt demo_kbd = Ok (tt, k') ∧ added (input k') = [65] ∧ handled 1 (Press 0x1e) {[0x2a]} false [0x9e] demo_kbd k'.
Proof.
  destruct (keyboard_correct 1 (Press 0x1e) {[0x2a]} false [0x9e] demo_kbd) as (k' & E & H).
  - done.
  - apply (bool_decide_unpack _). vm_compute. exact I.
  - by split.
  - split; [split; [split; [done|simpl; lia..]|done]|vm_compute; auto|]. intros t' p _ Hp. cbn in Hp.
    apply lookup_insert_Some in Hp as [[_ <-]|[_ [_ <-]%lookup_singleton_Some]]; reflexivity.
  - reflexivity.
  - exists k'. split; [exact E|]. split; [|exact H]. vm_compute in E. injection E as <-. reflexivity.
Defined.

(** Shift, A, release A, release Shift, A: the buffer holds A and a. *)
Example typing :
  let k := mk_kbd false false false false false false false 0 [0x2a; 0x1e; 0x9e; 0xaa; 0x1e] demo_start false in
  (λ r, match r with Ok (_, k') => Some (added (input k'), key_cnt k') | Err _ => None end)
    ((keyboard_interrupt;; keyboard_interrupt;; keyboard_interrupt;; keyboard_interrupt;; keyboard_interrupt) k)
  = Some ([65; 97], 2).
Proof. reflexivity. Qed.
