(* ===== verification/Threads.v ===== *)
(** * Threads, synchronization and the timer

    threads/thread.c, threads/synch.c, devices/timer.c and the parts of
    threads/interrupt.c they use, as a machine.  The state [kernel] holds the
    static variables of these files, the [struct thread]s, semaphores, locks
    and condition variables.  A function that can give up the processor is cut
    at [schedule]: what its thread has left to do is the list [code] of the
    thread, so that a context switch is a change of [cur] and a thread that
    runs again goes on with the head of its [code].  An [event] is one step of
    the machine: the running thread goes on with its [code], or, when it has
    none left, calls a kernel function, or a timer interrupt arrives while
    interrupts are on.  Every interleaving that timer preemption allows
    between these steps is a sequence of events.

    The list of all threads is the one structure that the code changes with
    interrupts on: a timer interrupt can preempt a thread in the middle of the
    list_push_back of init_thread.  The step [ILinkThread] of [thread_create]
    is that call, and until it is done the thread is [linking].  While another
    thread is linking, a step that changes the list ends the run with an error,
    as the links are no list from then on ([KListSpec.all_list_race]); every
    other step can happen in between. *)

From S2P Require Import Prelude.

(** ** Data *)

Inductive thread_status := THREAD_RUNNING | THREAD_READY | THREAD_BLOCKED | THREAD_DYING.

#[export] Instance thread_status_eq_dec : EqDecision thread_status.
Proof. solve_decision. Defined.

Definition THREAD_MAGIC : Z := 0xcd6abf4b.
Definition TIME_SLICE : Z := 4.
Definition PRI_MIN : Z := 0.
Definition PRI_DEFAULT : Z := 31.
Definition PRI_MAX : Z := 63.
Definition TID_ERROR : Z := -1.
Definition PGSIZE : Z := 4096.
Definition TIMER_FREQ : Z := 100.

(** The semaphore inside the lock at an address, or one of its own. *)
Inductive sema_id := SLock (l : Z) | SSema (a : Z).

#[export] Instance sema_id_eq_dec : EqDecision sema_id.
Proof. solve_decision. Defined.
#[export] Instance sema_id_countable : Countable sema_id.
Proof.
  apply (inj_countable' (λ s, match s with SLock l => inl l | SSema a => inr a end)
    (λ x : Z + Z, match x with inl l => SLock l | inr a => SSema a end)).
  by intros [].
Defined.

(** The function a thread is created for: the idle loop, or a function that
    is not part of the kernel. *)
Inductive thread_func := FOther | FIdle (idle_started : sema_id).

(** What a thread has left to do in the kernel functions it is in.  With
    nothing left it is in the function it was created for, which is not
    part of the kernel and may call it in any way. *)
Inductive instr :=
  | IYieldRet (old_level : bool)        (* thread_yield, after schedule () *)
  | IIret                               (* return from the interrupt *)
  | ISleepRet (old_level : bool)        (* timer_sleep, after thread_block () *)
  | ISemaDown (s : sema_id)             (* a call of sema_down *)
  | ISemaLoop (s : sema_id) (old_level : bool) (* sema_down, the while loop *)
  | ILockAcquire (l : Z)                (* a call of lock_acquire *)
  | ISetHolder (l : Z)                  (* lock_acquire, after sema_down () *)
  | IReleaseUp (l : Z)                  (* lock_release, its call of sema_up *)
  | ICondBroadcast (c l : Z)            (* cond_broadcast, the while loop *)
  | ITidRelease (t : Z)                 (* allocate_tid, after lock_acquire () *)
  | ICreateRest (t : Z) (fn : thread_func) (* thread_create, after allocate_tid () *)
  | IKernelThread                       (* kernel_thread, before function () *)
  | IIntrEnable                         (* thread_start, its call of intr_enable *)
  | IIdleStart (started : sema_id)      (* idle, up to its loop *)
  | IIdleHlt                            (* idle, after thread_block () *)
  | IIdleBlock                          (* idle, the start of its loop *)
  | ILinkThread (t : Z) (nm : list Z) (prio : Z). (* init_thread, in its call of list_push_back *)

Definition fn_code (fn : thread_func) : list instr :=
  match fn with FOther => [] | FIdle s => [IIdleStart s] end.

Record thread := mk_thread {
  tid : Z;
  status : thread_status;
  wakeup_time : Z;
  name : list Z;
  stack : Z;
  priority : Z;
  magic : Z;
  code : list instr
}.

(** The lists of a kernel object are the sequences of the threads (or, for
    a condition, of the waiters) whose list elements they hold. *)
Record semaphore := mk_sema { value : Z; waiters : list Z }.

Record kernel := mk_kernel {
  threads : gmap Z thread;     (* the pages that hold a struct thread *)
  ready_list : list Z;
  all_list : list Z;
  cur : Z;                     (* the thread whose stack is in use *)
  idle_thread : Z;
  initial_thread : Z;
  next_tid : Z;
  idle_ticks : Z;
  kernel_ticks : Z;
  thread_ticks : Z;
  intr_on : bool;              (* the interrupt flag *)
  in_external_intr : bool;
  yield_on_return : bool;
  ticks : Z;
  semas : gmap sema_id semaphore;
  holders : gmap Z Z;          (* lock->holder of each lock *)
  conds : gmap Z (list Z)      (* cond->waiters of each condition *)
}.

Definition tid_lock : Z := 1.
Definition NULL : Z := 0.

(** ** Field updates *)

Definition set_threads x K := mk_kernel x (ready_list K) (all_list K) (cur K) (idle_thread K)
  (initial_thread K) (next_tid K) (idle_ticks K) (kernel_ticks K) (thread_ticks K) (intr_on K)
  (in_external_intr K) (yield_on_return K) (ticks K) (semas K) (holders K) (conds K).
Definition set_ready x K := mk_kernel (threads K) x (all_list K) (cur K) (idle_thread K)
  (initial_thread K) (next_tid K) (idle_ticks K) (kernel_ticks K) (thread_ticks K) (intr_on K)
  (in_external_intr K) (yield_on_return K) (ticks K) (semas K) (holders K) (conds K).
Definition set_all x K := mk_kernel (threads K) (ready_list K) x (cur K) (idle_thread K)
  (initial_thread K) (next_tid K) (idle_ticks K) (kernel_ticks K) (thread_ticks K) (intr_on K)
  (in_external_intr K) (yield_on_return K) (ticks K) (semas K) (holders K) (conds K).
Definition set_cur x K := mk_kernel (threads K) (ready_list K) (all_list K) x (idle_thread K)
  (initial_thread K) (next_tid K) (idle_ticks K) (kernel_ticks K) (thread_ticks K) (intr_on K)
  (in_external_intr K) (yield_on_return K) (ticks K) (semas K) (holders K) (conds K).
Definition set_idle x K := mk_kernel (threads K) (ready_list K) (all_list K) (cur K) x
  (initial_thread K) (next_tid K) (idle_ticks K) (kernel_ticks K) (thread_ticks K) (intr_on K)
  (in_external_intr K) (yield_on_return K) (ticks K) (semas K) (holders K) (conds K).
Definition set_initial x K := mk_kernel (threads K) (ready_list K) (all_list K) (cur K) (idle_thread K)
  x (next_tid K) (idle_ticks K) (kernel_ticks K) (thread_ticks K) (intr_on K)
  (in_external_intr K) (yield_on_return K) (ticks K) (semas K) (holders K) (conds K).
Definition set_next_tid x K := mk_kernel (threads K) (ready_list K) (all_list K) (cur K) (idle_thread K)
  (initial_thread K) x (idle_ticks K) (kernel_ticks K) (thread_ticks K) (intr_on K)
  (in_external_intr K) (yield_on_return K) (ticks K) (semas K) (holders K) (conds K).
Definition set_tick_counts i k K := mk_kernel (threads K) (ready_list K) (all_list K) (cur K)
  (idle_thread K) (initial_thread K) (next_tid K) i k (thread_ticks K) (intr_on K)
  (in_external_intr K) (yield_on_return K) (ticks K) (semas K) (holders K) (conds K).
Definition set_thread_ticks x K := mk_kernel (threads K) (ready_list K) (all_list K) (cur K)
  (idle_thread K) (initial_thread K) (next_tid K) (idle_ticks K) (kernel_ticks K) x (intr_on K)
  (in_external_intr K) (yield_on_return K) (ticks K) (semas K) (holders K) (conds K).
Definition set_intr x K := mk_kernel (threads K) (ready_list K) (all_list K) (cur K) (idle_thread K)
  (initial_thread K) (next_tid K) (idle_ticks K) (kernel_ticks K) (thread_ticks K) x
  (in_external_intr K) (yield_on_return K) (ticks K) (semas K) (holders K) (conds K).
Definition set_context x K := mk_kernel (threads K) (ready_list K) (all_list K) (cur K) (idle_thread K)
  (initial_thread K) (next_tid K) (idle_ticks K) (kernel_ticks K) (thread_ticks K) (intr_on K)
  x (yield_on_return K) (ticks K) (semas K) (holders K) (conds K).
Definition set_yield x K := mk_kernel (threads K) (ready_list K) (all_list K) (cur K) (idle_thread K)
  (initial_thread K) (next_tid K) (idle_ticks K) (kernel_ticks K) (thread_ticks K) (intr_on K)
  (in_external_intr K) x (ticks K) (semas K) (holders K) (conds K).
Definition set_ticks x K := mk_kernel (threads K) (ready_list K) (all_list K) (cur K) (idle_thread K)
  (initial_thread K) (next_tid K) (idle_ticks K) (kernel_ticks K) (thread_ticks K) (intr_on K)
  (in_external_intr K) (yield_on_return K) x (semas K) (holders K) (conds K).
Definition set_semas x K := mk_kernel (threads K) (ready_list K) (all_list K) (cur K) (idle_thread K)
  (initial_thread K) (next_tid K) (idle_ticks K) (kernel_ticks K) (thread_ticks K) (intr_on K)
  (in_external_intr K) (yield_on_return K) (ticks K) x (holders K) (conds K).
Definition set_holders x K := mk_kernel (threads K) (ready_list K) (all_list K) (cur K) (idle_thread K)
  (initial_thread K) (next_tid K) (idle_ticks K) (kernel_ticks K) (thread_ticks K) (intr_on K)
  (in_external_intr K) (yield_on_return K) (ticks K) (semas K) x (conds K).
Definition set_conds x K := mk_kernel (threads K) (ready_list K) (all_list K) (cur K) (idle_thread K)
  (initial_thread K) (next_tid K) (idle_ticks K) (kernel_ticks K) (thread_ticks K) (intr_on K)
  (in_external_intr K) (yield_on_return K) (ticks K) (semas K) (holders K) x.

Definition set_status x th := mk_thread (tid th) x (wakeup_time th) (name th) (stack th) (priority th)
  (magic th) (code th).
Definition set_wakeup x th := mk_thread (tid th) (status th) x (name th) (stack th) (priority th)
  (magic th) (code th).
Definition set_code x th := mk_thread (tid th) (status th) (wakeup_time th) (name th) (stack th)
  (priority th) (magic th) x.
Definition set_tid x th := mk_thread x (status th) (wakeup_time th) (name th) (stack th) (priority th)
  (magic th) (code th).
Definition set_stack x th := mk_thread (tid th) (status th) (wakeup_time th) (name th) x (priority th)
  (magic th) (code th).
Definition set_prio x th := mk_thread (tid th) (status th) (wakeup_time th) (name th) (stack th) x
  (magic th) (code th).

(** ** Access to the objects *)

Definition get_thread (t : Z) : ST kernel thread := λ K,
  match threads K !! t with Some th => Ok (th, K) | None => Err BadAccess end.
Definition upd_thread (t : Z) (f : thread → thread) : ST kernel unit :=
  th ← get_thread t; modify (λ K, set_threads (<[t := f th]> (threads K)) K).
Definition get_sema (s : sema_id) : ST kernel semaphore := λ K,
  match semas K !! s with Some sm => Ok (sm, K) | None => Err BadAccess end.
Definition put_sema (s : sema_id) (sm : semaphore) : ST kernel unit :=
  modify (λ K, set_semas (<[s := sm]> (semas K)) K).
Definition get_holder (l : Z) : ST kernel Z := λ K,
  match holders K !! l with Some h => Ok (h, K) | None => Err BadAccess end.
Definition put_holder (l h : Z) : ST kernel unit :=
  modify (λ K, set_holders (<[l := h]> (holders K)) K).
Definition get_cond (c : Z) : ST kernel (list Z) := λ K,
  match conds K !! c with Some w => Ok (w, K) | None => Err BadAccess end.
Definition put_cond (c : Z) (w : list Z) : ST kernel unit :=
  modify (λ K, set_conds (<[c := w]> (conds K)) K).

(** What the running thread goes on with when the call returns. *)
Definition push_code (ks : list instr) : ST kernel unit :=
  K ← get; upd_thread (cur K) (λ th, set_code (ks ++ code th) th).

(** ** interrupt.c *)

Definition intr_get_level : ST kernel bool := K ← get; mret (intr_on K).
Definition intr_context : ST kernel bool := K ← get; mret (in_external_intr K).

Definition intr_enable : ST kernel bool :=
  old_level ← intr_get_level;
  c ← intr_context; assert (negb c);;
  modify (set_intr true);; mret old_level.

Definition intr_disable : ST kernel bool :=
  old_level ← intr_get_level; modify (set_intr false);; mret old_level.

Definition intr_set_level (level : bool) : ST kernel bool :=
  if level then intr_enable else intr_disable.

Definition intr_yield_on_return : ST kernel unit :=
  c ← intr_context; assert c;; modify (set_yield true).

(** ** thread.c *)

Definition running_thread : ST kernel Z := K ← get; mret (cur K).

Definition is_thread (t : Z) : ST kernel bool :=
  if t =? NULL then mret false else th ← get_thread t; mret (magic th =? THREAD_MAGIC).

Definition thread_current : ST kernel Z :=
  t ← running_thread;
  b ← is_thread t; assert b;;
  th ← get_thread t; assert (bool_decide (status th = THREAD_RUNNING));;
  mret t.

(** A thread is inside list_push_back (&all_list, ...). *)
Definition is_link (i : instr) : bool := match i with ILinkThread _ _ _ => true | _ => false end.
Definition linking (K : kernel) : bool := existsb (λ p, existsb is_link (code (snd p))) (map_to_list (threads K)).

(** A change of the list of all threads begins: two of them must not overlap. *)
Definition no_link : ST kernel unit := K ← get; if linking K then fail BadAccess else mret tt.

(** The assertions of [init_thread], and what it stores.  [memset] clears the
    page; the name keeps at most 15 bytes.  Before the list element is linked no
    other thread knows the page, so that the structure appears with it. *)
Definition init_checks (t prio : Z) : ST kernel unit :=
  assert (negb (t =? NULL));;
  assert ((PRI_MIN <=? prio) && (prio <=? PRI_MAX)).
Definition link_thread (t : Z) (nm : list Z) (prio : Z) : ST kernel unit :=
  modify (λ K, set_threads (<[t := mk_thread 0 THREAD_BLOCKED 0 (take 15 nm) (t + PGSIZE) prio
    THREAD_MAGIC []]> (threads K)) K);;
  modify (λ K, set_all (all_list K ++ [t]) K).

(** [init_thread] with interrupts off, as [thread_init] calls it. *)
Definition init_thread (t : Z) (nm : list Z) (prio : Z) : ST kernel unit :=
  init_checks t prio;; no_link;; link_thread t nm prio.

Definition alloc_frame (t size : Z) : ST kernel unit :=
  b ← is_thread t; assert b;;
  assert (size mod 4 =? 0);;
  upd_thread t (λ th, set_stack (stack th - size) th).

Definition next_thread_to_run : ST kernel Z :=
  K ← get;
  match ready_list K with
  | [] => mret (idle_thread K)
  | t :: rest => modify (set_ready rest);; mret t
  end.

(** [palloc_free_page (prev)] ends the life of the [struct thread]. *)
Definition thread_schedule_tail (prev : Z) : ST kernel unit :=
  c ← running_thread;
  level ← intr_get_level; assert (negb level);;
  upd_thread c (set_status THREAD_RUNNING);;
  modify (set_thread_ticks 0);;
  if prev =? NULL then mret tt
  else
    K ← get; p ← get_thread prev;
    if bool_decide (status p = THREAD_DYING) && negb (prev =? initial_thread K) then
      assert (negb (prev =? c));;
      modify (λ K, set_threads (delete prev (threads K)) K)
    else mret tt.

(** [switch_threads] returns in the context of [next], whose stack is then
    the current one. *)
Definition schedule : ST kernel unit :=
  c ← running_thread;
  next ← next_thread_to_run;
  level ← intr_get_level; assert (negb level);;
  th ← get_thread c; assert (bool_decide (status th ≠ THREAD_RUNNING));;
  b ← is_thread next; assert b;;
  prev ← (if negb (c =? next) then modify (set_cur next);; mret c else mret NULL);
  thread_schedule_tail prev.

Definition thread_block : ST kernel unit :=
  c ← intr_context; assert (negb c);;
  level ← intr_get_level; assert (negb level);;
  t ← thread_current; upd_thread t (set_status THREAD_BLOCKED);;
  schedule.

Definition thread_unblock (t : Z) : ST kernel unit :=
  b ← is_thread t; assert b;;
  old_level ← intr_disable;
  th ← get_thread t; assert (bool_decide (status th = THREAD_BLOCKED));;
  modify (λ K, set_ready (ready_list K ++ [t]) K);;
  upd_thread t (set_status THREAD_READY);;
  _ ← intr_set_level old_level; mret tt.

Definition thread_exit : ST kernel unit :=
  c ← intr_context; assert (negb c);;
  _ ← intr_disable;
  t ← thread_current;
  no_link;;
  modify (λ K, set_all (filter (.≠ t) (all_list K)) K);;
  t ← thread_current; upd_thread t (set_status THREAD_DYING);;
  schedule.

Definition thread_yield : ST kernel unit :=
  t ← thread_current;
  c ← intr_context; assert (negb c);;
  old_level ← intr_disable;
  K ← get;
  (if negb (t =? idle_thread K)
   then modify (λ K, set_ready (ready_list K ++ [t]) K) else mret tt);;
  upd_thread t (set_status THREAD_READY);;
  push_code [IYieldRet old_level];;
  schedule.

Definition thread_set_priority (new_priority : Z) : ST kernel unit :=
  t ← thread_current; upd_thread t (set_prio new_priority).
Definition thread_get_priority : ST kernel Z :=
  t ← thread_current; th ← get_thread t; mret (priority th).
Definition thread_tid : ST kernel Z :=
  t ← thread_current; th ← get_thread t; mret (tid th).
Definition thread_name : ST kernel (list Z) :=
  t ← thread_current; th ← get_thread t; mret (name th).

Definition thread_tick : ST kernel unit :=
  t ← thread_current;
  K ← get;
  modify (if t =? idle_thread K then set_tick_counts (s64 (idle_ticks K + 1)) (kernel_ticks K)
          else set_tick_counts (idle_ticks K) (s64 (kernel_ticks K + 1)));;
  K ← get;
  modify (set_thread_ticks (u32 (thread_ticks K + 1)));;
  K ← get;
  if TIME_SLICE <=? thread_ticks K then intr_yield_on_return else mret tt.

Definition update_sleeping_threads (now t : Z) : ST kernel unit :=
  th ← get_thread t;
  if bool_decide (status th = THREAD_BLOCKED) && (0 <? wakeup_time th) && (wakeup_time th <=? now)
  then upd_thread t (set_wakeup 0);; thread_unblock t
  else mret tt.

Fixpoint foreach (func : Z → ST kernel unit) (ts : list Z) : ST kernel unit :=
  match ts with [] => mret tt | t :: r => func t;; foreach func r end.

(** [func] changes no list of all threads, so the walk visits the threads
    that are on it at the start. *)
Definition thread_foreach (func : Z → ST kernel unit) : ST kernel unit :=
  level ← intr_get_level; assert (negb level);;
  K ← get; foreach func (all_list K).

(** ** synch.c *)

Definition sema_init (s : sema_id) (v : Z) : ST kernel unit := put_sema s (mk_sema v []).

Definition sema_down_loop (s : sema_id) (old_level : bool) : ST kernel unit :=
  sm ← get_sema s;
  if value sm =? 0 then
    t ← thread_current;
    put_sema s (mk_sema (value sm) (waiters sm ++ [t]));;
    push_code [ISemaLoop s old_level];;
    thread_block
  else
    put_sema s (mk_sema (u32 (value sm - 1)) (waiters sm));;
    _ ← intr_set_level old_level; mret tt.

Definition sema_down (s : sema_id) : ST kernel unit :=
  c ← intr_context; assert (negb c);;
  old_level ← intr_disable;
  sema_down_loop s old_level.

Definition sema_try_down (s : sema_id) : ST kernel bool :=
  old_level ← intr_disable;
  sm ← get_sema s;
  success ← (if value sm >? 0 then
               put_sema s (mk_sema (u32 (value sm - 1)) (waiters sm));; mret true
             else mret false);
  _ ← intr_set_level old_level; mret success.

Definition sema_up (s : sema_id) : ST kernel unit :=
  old_level ← intr_disable;
  sm ← get_sema s;
  (match waiters sm with
   | [] => mret tt
   | t :: rest => put_sema s (mk_sema (value sm) rest);; thread_unblock t
   end);;
  sm ← get_sema s;
  put_sema s (mk_sema (u32 (value sm + 1)) (waiters sm));;
  _ ← intr_set_level old_level; mret tt.

Definition lock_init (l : Z) : ST kernel unit :=
  put_holder l NULL;; sema_init (SLock l) 1.

Definition lock_held_by_current_thread (l : Z) : ST kernel bool :=
  h ← get_holder l; t ← thread_current; mret (h =? t).

Definition lock_acquire (l : Z) : ST kernel unit :=
  c ← intr_context; assert (negb c);;
  h ← lock_held_by_current_thread l; assert (negb h);;
  push_code [ISetHolder l];;
  sema_down (SLock l).

Definition lock_set_holder (l : Z) : ST kernel unit :=
  t ← thread_current; put_holder l t.

Definition lock_try_acquire (l : Z) : ST kernel bool :=
  h ← lock_held_by_current_thread l; assert (negb h);;
  success ← sema_try_down (SLock l);
  (if (success : bool) then push_code [ISetHolder l] else mret tt);;
  mret success.

Definition lock_release (l : Z) : ST kernel unit :=
  h ← lock_held_by_current_thread l; assert h;;
  put_holder l NULL;;
  push_code [IReleaseUp l].

Definition cond_init (c : Z) : ST kernel unit := put_cond c [].

(** [waiter] is the address of the [struct semaphore_elem] on the stack. *)
Definition cond_wait (c l waiter : Z) : ST kernel unit :=
  x ← intr_context; assert (negb x);;
  h ← lock_held_by_current_thread l; assert h;;
  sema_init (SSema waiter) 0;;
  ws ← get_cond c; put_cond c (ws ++ [waiter]);;
  push_code [ISemaDown (SSema waiter); ILockAcquire l];;
  lock_release l.

Definition cond_signal (c l : Z) : ST kernel unit :=
  x ← intr_context; assert (negb x);;
  h ← lock_held_by_current_thread l; assert h;;
  ws ← get_cond c;
  match ws with
  | [] => mret tt
  | w :: rest => put_cond c rest;; sema_up (SSema w)
  end.

(** One round of the while loop of [cond_broadcast]. *)
Definition cond_broadcast (c l : Z) : ST kernel unit :=
  ws ← get_cond c;
  match ws with
  | [] => mret tt
  | _ => push_code [ICondBroadcast c l];; cond_signal c l
  end.

(** ** thread.c, with its lock *)

Definition thread_init (page : Z) : ST kernel unit :=
  level ← intr_get_level; assert (negb level);;
  lock_init tid_lock;;
  modify (set_ready []);; modify (set_all []);;
  modify (set_cur page);; modify (set_initial page);;
  init_thread page [109; 97; 105; 110] PRI_DEFAULT;;
  upd_thread page (set_status THREAD_RUNNING);;
  push_code [ITidRelease page];;
  lock_acquire tid_lock.

(** [allocate_tid] once it has the lock, and the storing of the result. *)
Definition allocate_tid (t : Z) : ST kernel unit :=
  K ← get;
  let tid := next_tid K in
  modify (set_next_tid (s32 (tid + 1)));;
  upd_thread t (set_tid tid);;
  lock_release tid_lock.

(** [page] is what [palloc_get_page] returned.  The call goes up to the
    list_push_back of [init_thread], where it can be preempted. *)
Definition thread_create (page : Z) (nm : list Z) (prio : Z) (fn : thread_func) : ST kernel unit :=
  if page =? NULL then mret tt
  else
    init_checks page prio;; no_link;;
    push_code [ILinkThread page nm prio; ILockAcquire tid_lock; ITidRelease page; ICreateRest page fn].

Definition thread_create_rest (t : Z) (fn : thread_func) : ST kernel unit :=
  old_level ← intr_disable;
  alloc_frame t 12;; alloc_frame t 4;; alloc_frame t 28;;
  upd_thread t (set_code (IKernelThread :: fn_code fn));;
  _ ← intr_set_level old_level;
  thread_unblock t.

(** [thread_start] up to the call of [list_push_back]; the rest of it is the
    code pushed here. *)
Definition thread_start (page : Z) (idle_started : sema_id) : ST kernel unit :=
  sema_init idle_started 0;;
  push_code [IIntrEnable; ISemaDown idle_started];;
  thread_create page [105; 100; 108; 101] PRI_MIN (FIdle idle_started).

Definition idle_start (started : sema_id) : ST kernel unit :=
  t ← thread_current; modify (set_idle t);;
  sema_up started;;
  push_code [IIdleBlock].

(** The round of the loop of [idle]: up to [thread_block], and from there. *)
Definition idle_block : ST kernel unit :=
  _ ← intr_disable; push_code [IIdleHlt];; thread_block.
Definition idle_hlt : ST kernel unit :=
  push_code [IIdleBlock];; modify (set_intr true).

(** ** timer.c *)

Definition timer_ticks : ST kernel Z :=
  old_level ← intr_disable; K ← get; let t := ticks K in
  _ ← intr_set_level old_level; mret t.

Definition timer_elapsed (then_ : Z) : ST kernel Z :=
  t ← timer_ticks; mret (s64 (t - then_)).

Definition timer_sleep (n : Z) : ST kernel unit :=
  level ← intr_get_level; assert level;;
  if n <=? 0 then mret tt
  else
    t ← thread_current;
    old_level ← intr_disable;
    now ← timer_ticks;
    upd_thread t (set_wakeup (s64 (now + n)));;
    push_code [ISleepRet old_level];;
    thread_block.

(** [busy_wait] changes nothing. *)
Definition real_time_delay (num denom : Z) : ST kernel unit :=
  assert (Z.rem denom 1000 =? 0);; mret tt.

Definition real_time_sleep (num denom : Z) : ST kernel unit :=
  let n := Z.quot (s64 (num * TIMER_FREQ)) denom in
  level ← intr_get_level; assert level;;
  if n >? 0 then timer_sleep n else real_time_delay num denom.

Definition timer_msleep (ms : Z) : ST kernel unit := real_time_sleep ms 1000.
Definition timer_usleep (us : Z) : ST kernel unit := real_time_sleep us (1000 * 1000).
Definition timer_nsleep (ns : Z) : ST kernel unit := real_time_sleep ns (1000 * 1000 * 1000).

Definition timer_interrupt : ST kernel unit :=
  K ← get;
  let now := s64 (ticks K + 1) in
  modify (set_ticks now);;
  thread_tick;;
  thread_foreach (update_sleeping_threads now).

(** ** interrupt.c: a timer interrupt

    The processor clears the interrupt flag on entry and restores it when
    the handler has returned ([IIret]). *)

Definition intr_handler : ST kernel unit :=
  level ← intr_get_level; assert (negb level);;
  c ← intr_context; assert (negb c);;
  modify (set_context true);; modify (set_yield false);;
  timer_interrupt;;
  level ← intr_get_level; assert (negb level);;
  c ← intr_context; assert c;;
  modify (set_context false);;
  K ← get;
  if yield_on_return K then thread_yield else mret tt.

Definition timer_irq : ST kernel unit :=
  modify (set_intr false);;
  push_code [IIret];;
  intr_handler.

(** ** The machine *)

Definition exec_instr (i : instr) : ST kernel unit :=
  match i with
  | IYieldRet old_level => _ ← intr_set_level old_level; mret tt
  | IIret => modify (set_intr true)
  | ISleepRet old_level => _ ← intr_set_level old_level; mret tt
  | ISemaDown s => sema_down s
  | ISemaLoop s old_level => sema_down_loop s old_level
  | ILockAcquire l => lock_acquire l
  | ISetHolder l => lock_set_holder l
  | IReleaseUp l => sema_up (SLock l)
  | ICondBroadcast c l => cond_broadcast c l
  | ITidRelease t => allocate_tid t
  | ICreateRest t fn => thread_create_rest t fn
  | IKernelThread => _ ← intr_enable; mret tt
  | IIntrEnable => _ ← intr_enable; mret tt
  | IIdleStart s => idle_start s
  | IIdleHlt => idle_hlt
  | IIdleBlock => idle_block
  | ILinkThread t nm prio => link_thread t nm prio
  end.

(** The calls a kernel thread makes. *)
Inductive call :=
  | CYield
  | CSleep (n : Z)
  | CExit
  | CCreate (page : Z) (nm : list Z) (prio : Z)
  | CSemaInit (a v : Z)
  | CSemaDown (a : Z)
  | CSemaTryDown (a : Z)
  | CSemaUp (a : Z)
  | CLockInit (l : Z)
  | CLockAcquire (l : Z)
  | CLockTryAcquire (l : Z)
  | CLockRelease (l : Z)
  | CCondInit (c : Z)
  | CCondWait (c l waiter : Z)
  | CCondSignal (c l : Z)
  | CCondBroadcast (c l : Z)
  | CSetPriority (p : Z).

Definition exec_call (c : call) : ST kernel unit :=
  match c with
  | CYield => thread_yield
  | CSleep n => timer_sleep n
  | CExit => thread_exit
  | CCreate page nm prio => thread_create page nm prio FOther
  | CSemaInit a v => sema_init (SSema a) v
  | CSemaDown a => sema_down (SSema a)
  | CSemaTryDown a => _ ← sema_try_down (SSema a); mret tt
  | CSemaUp a => sema_up (SSema a)
  | CLockInit l => lock_init l
  | CLockAcquire l => lock_acquire l
  | CLockTryAcquire l => _ ← lock_try_acquire l; mret tt
  | CLockRelease l => lock_release l
  | CCondInit c => cond_init c
  | CCondWait c l w => cond_wait c l w
  | CCondSignal c l => cond_signal c l
  | CCondBroadcast c l => cond_broadcast c l
  | CSetPriority p => thread_set_priority p
  end.

Inductive event := EvRun | EvCall (c : call) | EvTimer.

Definition exec_event (e : event) : ST kernel unit :=
  match e with
  | EvRun =>
      K ← get; th ← get_thread (cur K);
      match code th with
      | [] => fail NotReached
      | i :: rest => upd_thread (cur K) (set_code rest);; exec_instr i
      end
  | EvCall c => exec_call c
  | EvTimer => timer_irq
  end.

Fixpoint run (es : list event) : ST kernel unit :=
  match es with [] => mret tt | e :: r => exec_event e;; run r end.

(** ** Start-up

    The static variables are zero, interrupts are off and the loader's stack
    is the page at [page]. *)
Definition boot_state : kernel :=
  mk_kernel ∅ [] [] 0 0 0 1 0 0 0 false false false 0 ∅ ∅ ∅.

(** [thread_init] and [thread_start], with the interleaving in which no timer
    interrupt arrives before the idle thread has started. *)
Definition boot (main_page idle_page : Z) : ST kernel unit :=
  thread_init main_page;;
  run (replicate 3 EvRun);;
  thread_start idle_page (SSema 2);;
  run (replicate 12 EvRun).
