(* ===== verification/ThreadsInv.v ===== *)
(** * The invariant of the thread machine

    [place] says where every thread is: the running thread is the current
    one, the ready list holds exactly the ready threads but the idle thread,
    the waiters of a semaphore are exactly the threads blocked in [sema_down]
    on it, and so on, so that a [struct list_elem elem] is never on two lists.
    [locks_ok] says that each lock is either free, held, or about to be taken
    or given back by exactly one thread.  The lemmas show that the elementary
    changes the kernel functions make preserve them. *)

From S2P Require Import Prelude Threads.

(** ** What the code of a thread tells *)

(** The functions after which interrupts are still off when they go on. *)
Definition off_head (c : list instr) : bool :=
  match c with
  | (ISemaLoop _ _ | ISleepRet _ | IYieldRet _ | IIret | IIdleHlt | IKernelThread) :: _ => true
  | _ => false
  end.

(** The code below a preemption by the timer. *)
Fixpoint base (c : list instr) : list instr :=
  match c with (IYieldRet _ | IIret) :: r => base r | _ => c end.

Definition waits (c : list instr) : option sema_id :=
  match c with ISemaLoop s _ :: _ => Some s | _ => None end.

(** The lock whose semaphore the thread has taken or not yet given back
    although it is not the holder. *)
Definition pend (c : list instr) : option Z :=
  match base c with (ISetHolder l | IReleaseUp l) :: _ => Some l | _ => None end.

(** The lock the thread must hold to go on. *)
Definition req (c : list instr) : option Z :=
  match base c with
  | ITidRelease _ :: _ => Some tid_lock
  | ICondBroadcast _ l :: _ => Some l
  | _ => None
  end.

Definition idle_code (c : list instr) : bool :=
  match base c with (IIdleHlt | IIdleBlock) :: _ => true | _ => false end.

(** The thread being created by this one, once it is linked. *)
Definition creates (c : list instr) : option Z :=
  if existsb is_link c then None else match last c with Some (ICreateRest n _) => Some n | _ => None end.

(** The functions that are on the stack together. *)
Definition after_acq (l : Z) (r : list instr) : Prop :=
  (l ≠ tid_lock ∧ r = []) ∨ (l = tid_lock ∧ ∃ n, r = [ITidRelease n; ICreateRest n FOther]).
Definition after_down (s : sema_id) (r : list instr) : Prop :=
  match s with
  | SLock l => ∃ r', r = ISetHolder l :: r' ∧ after_acq l r'
  | SSema _ => r = [] ∨ ∃ l, l ≠ tid_lock ∧ r = [ILockAcquire l]
  end.
Definition after_rel (l : Z) (r : list instr) : Prop :=
  r = [] ∨ (l ≠ tid_lock ∧ ∃ w, r = [ISemaDown (SSema w); ILockAcquire l]) ∨
  (l = tid_lock ∧ ∃ n, r = [ICreateRest n FOther]).

Fixpoint wfc (c : list instr) : Prop :=
  match c with
  | [] => True
  | i :: r =>
      match i with
      | IYieldRet b => (if b then r = [] else ∃ r', r = IIret :: r') ∧ wfc r
      | IIret => off_head r = false ∧ wfc r
      | ISleepRet b => b = true ∧ r = []
      | ISemaDown s => after_down s r
      | ISemaLoop s b => b = true ∧ after_down s r
      | ILockAcquire l => after_acq l r
      | ISetHolder l => after_acq l r
      | IReleaseUp l => after_rel l r
      | ICondBroadcast _ l => l ≠ tid_lock ∧ r = []
      | ITidRelease n => r = [ICreateRest n FOther]
      | ICreateRest _ fn => fn = FOther ∧ r = []
      | IKernelThread | IIdleHlt | IIdleBlock => r = []
      | IIntrEnable | IIdleStart _ => False
      | ILinkThread n _ _ => n ≠ NULL ∧ r = [ILockAcquire tid_lock; ITidRelease n; ICreateRest n FOther]
      end
  end.

Lemma wfc_tail i r : wfc (i :: r) → wfc r.
Proof.
  destruct i as [| | |[] |[] | | | | | | | | | | | |]; simpl; intros H;
    repeat match goal with
    | H : _ ∧ _ |- _ => destruct H
    | H : ∃ _, _ |- _ => destruct H
    | H : _ ∨ _ |- _ => destruct H
    | H : after_acq _ _ |- _ => unfold after_acq in H
    | H : after_rel _ _ |- _ => unfold after_rel in H
    end; subst; simpl; try done; unfold after_acq; eauto 8.
Qed.

(** ** Where the threads are *)

Definition instr_ok (S : gmap sema_id semaphore) (H : gmap Z Z) (C : gmap Z (list Z)) (i : instr) : Prop :=
  match i with
  | ISemaDown s | ISemaLoop s _ => is_Some (S !! s)
  | ILockAcquire l | ISetHolder l | IReleaseUp l => is_Some (H !! l)
  | ICondBroadcast c l => is_Some (C !! c) ∧ is_Some (H !! l)
  | _ => True
  end.

Definition blocked_ok (c : list instr) (w : Z) : Prop :=
  (w = 0 ∧ (is_Some (waits c) ∨ c = [IIdleHlt] ∨ c = [])) ∨ (0 < w ∧ c = [ISleepRet true]).

(** What holds of one thread. *)
Record thread_ok (S : gmap sema_id semaphore) (H : gmap Z Z) (C : gmap Z (list Z))
    (idle t : Z) (th : thread) : Prop := {
  to_magic : magic th = THREAD_MAGIC ∧ t ≠ NULL;
  to_code : wfc (code th);
  to_refs : Forall (instr_ok S H C) (code th);
  to_idle : idle_code (code th) = bool_decide (t = idle);
  to_status : match status th with
    | THREAD_RUNNING => wakeup_time th = 0
    | THREAD_READY => wakeup_time th = 0 ∧ off_head (code th) = true
    | THREAD_BLOCKED => blocked_ok (code th) (wakeup_time th)
    | THREAD_DYING => wakeup_time th = 0 ∧ code th = []
    end
}.

Definition waits_on (T : gmap Z thread) (s : sema_id) (t : Z) : Prop :=
  ∃ th, T !! t = Some th ∧ status th = THREAD_BLOCKED ∧ waits (code th) = Some s.

(** [run] is the running thread, [None] within [schedule]. *)
Record place (T : gmap Z thread) (R A : list Z) (idle : Z) (S : gmap sema_id semaphore)
    (H : gmap Z Z) (C : gmap Z (list Z)) (run : option Z) : Prop := {
  pl_threads : map_Forall (thread_ok S H C idle) T;
  pl_run : ∀ t th, T !! t = Some th → (status th = THREAD_RUNNING ↔ run = Some t);
  pl_live : ∀ t, run = Some t → is_Some (T !! t);
  pl_idle : ∃ th, T !! idle = Some th;
  pl_ready : ∀ t, t ∈ R ↔ ∃ th, T !! t = Some th ∧ status th = THREAD_READY ∧ t ≠ idle;
  pl_ready_nodup : NoDup R;
  pl_wait : ∀ s sm, S !! s = Some sm → NoDup (waiters sm) ∧ ∀ t, t ∈ waiters sm ↔ waits_on T s t;
  pl_all : NoDup A ∧ ∀ t, t ∈ A ↔ ∃ th, T !! t = Some th ∧ status th ≠ THREAD_DYING;
  pl_conds : ∀ c ws w, C !! c = Some ws → w ∈ ws → is_Some (S !! SSema w);
  pl_creates : ∀ t th n, T !! t = Some th → creates (code th) = Some n →
    ∃ thn, T !! n = Some thn ∧ status thn = THREAD_BLOCKED ∧ code thn = [];
  pl_creator : ∀ t1 t2 th1 th2 n, T !! t1 = Some th1 → T !! t2 = Some th2 →
    creates (code th1) = Some n → creates (code th2) = Some n → t1 = t2
}.

(** The sleeping idle thread is blocked, it is never in a list of waiters. *)
Lemma idle_not_dying S H C idle t th :
  thread_ok S H C idle t th → t = idle → status th ≠ THREAD_DYING.
Proof.
  intros [_ _ _ Hi Hs] -> E. rewrite E in Hs. destruct Hs as [_ Hc]. rewrite Hc in Hi.
  by rewrite bool_decide_true in Hi.
Qed.

(** ** Locks *)

Definition pends (T : gmap Z thread) (l t : Z) : Prop :=
  ∃ th, T !! t = Some th ∧ pend (code th) = Some l.

(** A free lock, a held one, or one on its way from or to a thread. *)
Definition lock_state (T : gmap Z thread) (l h v : Z) : Prop :=
  (v = 1 ∧ h = NULL ∧ ∀ t, ¬ pends T l t) ∨
  (v = 0 ∧ h ≠ NULL ∧ ∀ t, ¬ pends T l t) ∨
  (v = 0 ∧ h = NULL ∧ ∃ t, ∀ t', pends T l t' ↔ t' = t).

Record locks_ok (T : gmap Z thread) (S : gmap sema_id semaphore) (H : gmap Z Z) : Prop := {
  lk_state : ∀ l h, H !! l = Some h → ∃ sm, S !! SLock l = Some sm ∧ lock_state T l h (value sm);
  lk_req : ∀ t th l, T !! t = Some th → req (code th) = Some l → H !! l = Some t;
  lk_acq : ∀ t th l, T !! t = Some th → ILockAcquire l ∈ code th → H !! l ≠ Some t;
  lk_tid : is_Some (H !! tid_lock);
  lk_tid_holder : ∀ h, H !! tid_lock = Some h →
    h = NULL ∨ ∃ th, T !! h = Some th ∧ req (code th) = Some tid_lock
}.

Record Inv (K : kernel) : Prop := {
  inv_place : place (threads K) (ready_list K) (all_list K) (idle_thread K) (semas K) (holders K)
    (conds K) (Some (cur K));
  inv_locks : locks_ok (threads K) (semas K) (holders K);
  inv_context : in_external_intr K = false;
  inv_level : ∀ th, threads K !! cur K = Some th → intr_on K = negb (off_head (code th))
}.

(** ** Changing one thread *)

Lemma thread_ok_objects S H C S' H' C' idle t th :
  (∀ i, instr_ok S H C i → instr_ok S' H' C' i) →
  thread_ok S H C idle t th → thread_ok S' H' C' idle t th.
Proof. intros Hm [? ? Hr ? ?]. split; try done. by apply (Forall_impl _ _ _ Hr). Qed.

(** Nobody is creating [t]. *)
Definition uncreated (T : gmap Z thread) (t : Z) : Prop :=
  ∀ t2 th2, T !! t2 = Some th2 → creates (code th2) ≠ Some t.

Section place_upd.
Context {T : gmap Z thread} {R A : list Z} {idle : Z} {S : gmap sema_id semaphore}
  {H : gmap Z Z} {C : gmap Z (list Z)} {run : option Z}.
Hypothesis P : place T R A idle S H C run.

Lemma pl_thread t th : T !! t = Some th → thread_ok S H C idle t th.
Proof. apply (pl_threads _ _ _ _ _ _ _ _ P). Qed.

Lemma running_uncreated t : run = Some t → uncreated T t.
Proof.
  intros E t2 th2 H2 Hc. destruct (pl_creates _ _ _ _ _ _ _ _ P _ _ _ H2 Hc) as (thn & Hn & Hb & _).
  apply (pl_run _ _ _ _ _ _ _ _ P) in Hn. assert (status thn = THREAD_RUNNING) by by apply Hn. congruence.
Qed.

(** Thread [t] changes to [th'], and the lists and objects with it. *)
Lemma place_upd t th th' R' A' S' H' C' run' :
  T !! t = Some th →
  thread_ok S' H' C' idle t th' →
  (∀ i, instr_ok S H C i → instr_ok S' H' C' i) →
  ((status th' = THREAD_RUNNING ↔ run' = Some t) ∧ ∀ t', t' ≠ t → (run' = Some t' ↔ run = Some t')) →
  (NoDup R' ∧ (t ∈ R' ↔ status th' = THREAD_READY ∧ t ≠ idle) ∧ ∀ t', t' ≠ t → (t' ∈ R' ↔ t' ∈ R)) →
  (NoDup A' ∧ (t ∈ A' ↔ status th' ≠ THREAD_DYING) ∧ ∀ t', t' ≠ t → (t' ∈ A' ↔ t' ∈ A)) →
  (∀ s sm, S' !! s = Some sm → NoDup (waiters sm) ∧
     (t ∈ waiters sm ↔ status th' = THREAD_BLOCKED ∧ waits (code th') = Some s) ∧
     ∀ t', t' ≠ t → (t' ∈ waiters sm ↔ waits_on T s t')) →
  (∀ c ws w, C' !! c = Some ws → w ∈ ws → is_Some (S' !! SSema w)) →
  (∀ n, creates (code th') = Some n → creates (code th) = Some n ∨
     (n ≠ t ∧ uncreated T n ∧ ∃ thn, T !! n = Some thn ∧ status thn = THREAD_BLOCKED ∧ code thn = [])) →
  ((status th' = THREAD_BLOCKED ∧ code th' = []) ∨ uncreated T t) →
  place (<[t := th']> T) R' A' idle S' H' C' run'.
Proof.
  intros Ht Hok Hobj [Hr1 Hr2] (Hn1 & Hn2 & Hn3) (Ha1 & Ha2 & Ha3) Hw Hc Hcr Hun.
  destruct P as [PT Prun Plive Pidle Pready Pnd Pwait [Pall1 Pall2] Pconds Pcr Pcu].
  assert (∀ t', (∃ u, <[t := th']> T !! t' = Some u) ↔ is_Some (T !! t')) as Hdom.
  { intros t'. destruct (decide (t' = t)) as [->|N].
    - rewrite lookup_insert_eq, Ht. split; eauto.
    - rewrite lookup_insert_ne by done. done. }
  split.
  - apply map_Forall_insert_2; [done|]. intros t' u Hu. eapply thread_ok_objects; [done|]. by apply PT.
  - intros t' u. destruct (decide (t' = t)) as [->|N].
    + rewrite lookup_insert_eq. by intros [= <-].
    + rewrite lookup_insert_ne by done. intros Hu. rewrite Hr2 by done. by apply Prun.
  - intros t' Hrun. apply Hdom. destruct (decide (t' = t)) as [->|N]; [by rewrite Ht|].
    apply Plive. by apply Hr2.
  - apply Hdom. destruct Pidle as [u Hu]. by rewrite Hu.
  - intros t'. destruct (decide (t' = t)) as [->|N].
    + rewrite Hn2, lookup_insert_eq. split; [eauto|]. intros (u & [= <-] & ?). done.
    + by rewrite Hn3, lookup_insert_ne, Pready.
  - done.
  - intros s sm Hs. destruct (Hw s sm Hs) as (Hd & H1 & H2). split; [done|]. intros t'.
    unfold waits_on. destruct (decide (t' = t)) as [->|N].
    + rewrite H1, lookup_insert_eq. split; [eauto|]. intros (u & [= <-] & ?). done.
    + by rewrite H2, lookup_insert_ne by done.
  - split; [done|]. intros t'. destruct (decide (t' = t)) as [->|N].
    + rewrite Ha2, lookup_insert_eq. split; [eauto|]. intros (u & [= <-] & ?). done.
    + by rewrite Ha3, lookup_insert_ne, Pall2.
  - done.
  - assert (∀ t' u n, <[t := th']> T !! t' = Some u → creates (code u) = Some n →
      ∃ thn, T !! n = Some thn ∧ status thn = THREAD_BLOCKED ∧ code thn = []) as Hold.
    { intros t' u n. destruct (decide (t' = t)) as [->|N].
      - rewrite lookup_insert_eq. intros [= <-] Hn. destruct (Hcr _ Hn) as [?|(_ & _ & ?)]; eauto.
      - rewrite lookup_insert_ne by done. eauto. }
    intros t' u n Hu Hn. destruct (Hold _ _ _ Hu Hn) as (thn & E & Eb & Ec).
    destruct (decide (n = t)) as [->|N].
    + rewrite lookup_insert_eq. destruct Hun as [Hun|Hun]; [eauto|exfalso].
      revert Hu. destruct (decide (t' = t)) as [->|N].
      * rewrite lookup_insert_eq. intros [= <-]. destruct (Hcr _ Hn) as [Hx|(? & _)]; [|done].
        by apply (Hun t th).
      * rewrite lookup_insert_ne by done. intros Hu. by apply (Hun t' u).
    + rewrite lookup_insert_ne by done. eauto.
  - intros t1 t2 u1 u2 n. destruct (decide (t1 = t)) as [->|N1], (decide (t2 = t)) as [->|N2];
      rewrite ?lookup_insert_eq, ?lookup_insert_ne by done; try done.
    + intros [= <-] H2 Hn1' Hn2'. destruct (Hcr _ Hn1') as [Hx|(_ & Hx & _)]; [by eapply Pcu|].
      by destruct (Hx t2 u2).
    + intros H1 [= <-] Hn1' Hn2'. destruct (Hcr _ Hn2') as [Hx|(_ & Hx & _)]; [by eapply Pcu|].
      by destruct (Hx t1 u1).
    + by apply Pcu.
Qed.

End place_upd.

(** ** The moves of a thread *)

Lemma nodup_snoc (l : list Z) t : NoDup l → t ∉ l → NoDup (l ++ [t]).
Proof.
  intros Hl Ht. apply NoDup_app. split_and!; [done| |apply NoDup_singleton].
  intros x Hx ->%list_elem_of_singleton. done.
Qed.

Lemma elem_of_snoc (l : list Z) t x : x ∈ l ++ [t] ↔ x ∈ l ∨ x = t.
Proof. by rewrite elem_of_app, list_elem_of_singleton. Qed.

Section moves.
Context {T : gmap Z thread} {R A : list Z} {idle : Z} {S : gmap sema_id semaphore}
  {H : gmap Z Z} {C : gmap Z (list Z)} {run : option Z}.
Hypothesis P : place T R A idle S H C run.
Variables (t : Z) (th : thread).
Hypothesis Ht : T !! t = Some th.

Lemma ready_iff : t ∈ R ↔ status th = THREAD_READY ∧ t ≠ idle.
Proof.
  rewrite (pl_ready _ _ _ _ _ _ _ _ P). split; [|eauto].
  intros (u & E & ?). rewrite Ht in E. by injection E as ->.
Qed.

Lemma all_iff : t ∈ A ↔ status th ≠ THREAD_DYING.
Proof.
  rewrite (proj2 (pl_all _ _ _ _ _ _ _ _ P)). split; [|eauto].
  intros (u & E & ?). rewrite Ht in E. by injection E as ->.
Qed.

Lemma waits_on_iff s : waits_on T s t ↔ status th = THREAD_BLOCKED ∧ waits (code th) = Some s.
Proof.
  unfold waits_on. split; [|eauto]. intros (u & E & ?). rewrite Ht in E. by injection E as ->.
Qed.

Lemma waiters_upd s sm th' :
  S !! s = Some sm →
  (status th' = THREAD_BLOCKED ∧ waits (code th') = Some s ↔
   status th = THREAD_BLOCKED ∧ waits (code th) = Some s) →
  NoDup (waiters sm) ∧ (t ∈ waiters sm ↔ status th' = THREAD_BLOCKED ∧ waits (code th') = Some s) ∧
  ∀ t', t' ≠ t → (t' ∈ waiters sm ↔ waits_on T s t').
Proof.
  intros Hs Hiff. destruct (pl_wait _ _ _ _ _ _ _ _ P s sm Hs) as [Hd Hw].
  split_and!; [done| |auto]. by rewrite Hw, waits_on_iff, Hiff.
Qed.

(** Fields and code change, the place does not. *)
Lemma place_same th' :
  thread_ok S H C idle t th' → status th' = status th →
  (status th = THREAD_BLOCKED → waits (code th') = waits (code th)) →
  (∀ n, creates (code th') = Some n → creates (code th) = Some n ∨
     (n ≠ t ∧ uncreated T n ∧ ∃ thn, T !! n = Some thn ∧ status thn = THREAD_BLOCKED ∧ code thn = [])) →
  ((status th' = THREAD_BLOCKED ∧ code th' = []) ∨ uncreated T t) →
  place (<[t := th']> T) R A idle S H C run.
Proof.
  intros Hok Hst Hwt Hcr Hun. apply (place_upd P t th); try done.
  - rewrite Hst. split; [by apply (pl_run _ _ _ _ _ _ _ _ P)|done].
  - split_and!; [apply (pl_ready_nodup _ _ _ _ _ _ _ _ P)| |done]. rewrite Hst. apply ready_iff.
  - split_and!; [apply (pl_all _ _ _ _ _ _ _ _ P)| |done]. rewrite Hst. apply all_iff.
  - intros s sm Hs. apply waiters_upd; [done|]. rewrite Hst. split; intros [E Ew]; (split; [done|]);
      specialize (Hwt E); congruence.
  - apply (pl_conds _ _ _ _ _ _ _ _ P).
Qed.

(** The running thread is done with or adds to its code. *)
Lemma place_code c' :
  run = Some t → wfc c' → Forall (instr_ok S H C) c' → idle_code c' = bool_decide (t = idle) →
  (∀ n, creates c' = Some n → creates (code th) = Some n ∨
     (n ≠ t ∧ uncreated T n ∧ ∃ thn, T !! n = Some thn ∧ status thn = THREAD_BLOCKED ∧ code thn = [])) →
  place (<[t := set_code c' th]> T) R A idle S H C run.
Proof.
  intros Hrun Hwf Hrefs Hi Hcr.
  assert (status th = THREAD_RUNNING) as Est by (by apply (pl_run _ _ _ _ _ _ _ _ P t)).
  apply place_same; simpl; try done.
  - destruct (pl_thread P t th Ht) as [Hm _ _ _ Hs]. split; simpl; try done. by rewrite Est in *.
  - congruence.
  - right. by apply (running_uncreated P).
Qed.

Lemma run_fresh : run = Some t →
  status th = THREAD_RUNNING ∧ t ∉ R ∧ t ∈ A ∧ (∀ s, ¬ waits_on T s t) ∧ uncreated T t ∧ wakeup_time th = 0.
Proof.
  intros Hrun. assert (status th = THREAD_RUNNING) as Est by (by apply (pl_run _ _ _ _ _ _ _ _ P t)).
  split_and!; [done| | | |by apply (running_uncreated P)|].
  - rewrite ready_iff. intros [E _]. congruence.
  - rewrite all_iff. congruence.
  - intros s. rewrite waits_on_iff. intros [E _]. congruence.
  - destruct (pl_thread P t th Ht) as [_ _ _ _ Hs]. by rewrite Est in Hs.
Qed.

Lemma run_none t' : run = Some t → t' ≠ t → (None = Some t' ↔ run = Some t').
Proof. intros -> N. split; [done|]. by intros [= ->]. Qed.

(** [thread_yield]. *)
Lemma place_to_ready :
  run = Some t → off_head (code th) = true →
  place (<[t := set_status THREAD_READY th]> T) (if decide (t = idle) then R else R ++ [t]) A idle S H C None.
Proof.
  intros Hrun Hoff. destruct (run_fresh Hrun) as (Est & HR & HA & HW & Hun & Hw0).
  apply (place_upd P t th); try done.
  - destruct (pl_thread P t th Ht) as [Hm Hc Hr Hi Hs]. by split.
  - split; [by split|]. intros t' N. by apply run_none.
  - pose proof (pl_ready_nodup _ _ _ _ _ _ _ _ P) as Hnd. case_decide as Ei; simpl.
    + split_and!; [done| |done]. split; [done|]. by intros [_ ?].
    + split_and!; [by apply nodup_snoc| |]. { rewrite elem_of_snoc. split; [done|]. by right. }
      intros t' N. rewrite elem_of_snoc. split; [by intros [?|?]|by left].
  - split_and!; [apply (pl_all _ _ _ _ _ _ _ _ P)|by split|done].
  - intros s sm Hs. apply waiters_upd; [done|]. simpl. split; intros [E _]; congruence.
  - apply (pl_conds _ _ _ _ _ _ _ _ P).
  - by left.
  - by right.
Qed.

(** [thread_block] of a sleeping thread or of the idle thread. *)
Lemma place_to_blocked w :
  run = Some t → waits (code th) = None → blocked_ok (code th) w →
  place (<[t := set_status THREAD_BLOCKED (set_wakeup w th)]> T) R A idle S H C None.
Proof.
  intros Hrun Hwt Hb. destruct (run_fresh Hrun) as (Est & HR & HA & HW & Hun & Hw0).
  apply (place_upd P t th); try done.
  - destruct (pl_thread P t th Ht) as [Hm Hc Hr Hi Hs]. by split.
  - split; [by split|]. intros t' N. by apply run_none.
  - split_and!; [apply (pl_ready_nodup _ _ _ _ _ _ _ _ P)| |done]. split; [done|]. by intros [? _].
  - split_and!; [apply (pl_all _ _ _ _ _ _ _ _ P)|by split|done].
  - intros s sm Hs. apply waiters_upd; [done|]. simpl. split; intros [E E']; congruence.
  - apply (pl_conds _ _ _ _ _ _ _ _ P).
  - by left.
  - by right.
Qed.

(** [sema_down] on a semaphore whose value is zero. *)
Lemma place_to_wait s sm :
  run = Some t → waits (code th) = Some s → S !! s = Some sm →
  place (<[t := set_status THREAD_BLOCKED th]> T) R A idle
    (<[s := mk_sema (value sm) (waiters sm ++ [t])]> S) H C None.
Proof.
  intros Hrun Hwt HS. destruct (run_fresh Hrun) as (Est & HR & HA & HW & Hun & Hw0).
  assert (∀ i, instr_ok S H C i → instr_ok (<[s := mk_sema (value sm) (waiters sm ++ [t])]> S) H C i) as Hmono.
  { intros [] Hi; simpl in *; rewrite ?lookup_insert_is_Some'; tauto. }
  apply (place_upd P t th); try done.
  - destruct (pl_thread P t th Ht) as [Hm Hc Hr Hi Hs]. split; try done; simpl.
    + by apply (Forall_impl _ _ _ Hr).
    + rewrite Hw0. left. split; [done|]. left. by rewrite Hwt.
  - split; [by split|]. intros t' N. by apply run_none.
  - split_and!; [apply (pl_ready_nodup _ _ _ _ _ _ _ _ P)| |done]. split; [done|]. by intros [? _].
  - split_and!; [apply (pl_all _ _ _ _ _ _ _ _ P)|by split|done].
  - intros s' sm' Hs'. simpl. rewrite Hwt. destruct (decide (s' = s)) as [->|N].
    + rewrite lookup_insert_eq in Hs'. injection Hs' as <-. simpl.
      destruct (pl_wait _ _ _ _ _ _ _ _ P s sm HS) as [Hd Hw]. split_and!.
      * apply nodup_snoc; [done|]. rewrite Hw. apply HW.
      * rewrite elem_of_snoc. split; [done|by right].
      * intros t' N. rewrite elem_of_snoc, Hw. split; [by intros [?|?]|by left].
    + rewrite lookup_insert_ne in Hs' by done. destruct (pl_wait _ _ _ _ _ _ _ _ P s' sm' Hs') as [Hd Hw].
      split_and!; [done| |auto]. rewrite Hw. split; [by intros ?%HW|]. intros [_ [= ?]]. done.
  - intros c ws w Hc Hin. rewrite lookup_insert_is_Some'. right. by eapply (pl_conds _ _ _ _ _ _ _ _ P).
  - by left.
  - by right.
Qed.

(** [thread_exit]. *)
Lemma place_to_dying :
  run = Some t → code th = [] →
  place (<[t := set_status THREAD_DYING th]> T) R (filter (.≠ t) A) idle S H C None.
Proof.
  intros Hrun Hcode. destruct (run_fresh Hrun) as (Est & HR & HA & HW & Hun & Hw0).
  apply (place_upd P t th); try done.
  - destruct (pl_thread P t th Ht) as [Hm Hc Hr Hi Hs]. by split.
  - split; [by split|]. intros t' N. by apply run_none.
  - split_and!; [apply (pl_ready_nodup _ _ _ _ _ _ _ _ P)| |done]. split; [done|]. by intros [? _].
  - split_and!; [apply NoDup_filter, (pl_all _ _ _ _ _ _ _ _ P)| |].
    + rewrite list_elem_of_filter. split; [by intros [? _]|done].
    + intros t' N. rewrite list_elem_of_filter. tauto.
  - intros s sm Hs. apply waiters_upd; [done|]. simpl. split; intros [E E']; congruence.
  - apply (pl_conds _ _ _ _ _ _ _ _ P).
  - by left.
  - by right.
Qed.

(** [schedule] runs the next thread. *)
Lemma place_to_run R' :
  run = None → (R = t :: R' ∨ (R = [] ∧ R' = [] ∧ t = idle)) →
  place (<[t := set_status THREAD_RUNNING th]> T) R' A idle S H C (Some t) ∧
  off_head (code th) = true ∧ wakeup_time th = 0.
Proof.
  intros Hrun HR. pose proof (pl_thread P t th Ht) as Hok. pose proof Hok as [Hm Hc Hr Hi Hs].
  pose proof (pl_ready_nodup _ _ _ _ _ _ _ _ P) as Hnd.
  assert (status th ≠ THREAD_RUNNING) as Nr.
  { intros E. apply (pl_run _ _ _ _ _ _ _ _ P t th Ht) in E. congruence. }
  assert (off_head (code th) = true ∧ wakeup_time th = 0 ∧ status th ≠ THREAD_DYING ∧
    (∀ s, ¬ waits_on T s t) ∧ code th ≠ []) as (Hoff & Hw0 & Nd & HW & Nc).
  { destruct HR as [ER|(_ & _ & Ei)].
    - assert (status th = THREAD_READY) as E by (apply ready_iff; rewrite ER; left). rewrite E in Hs.
      destruct Hs as [? Ho]. split_and!; try done; try congruence.
      + intros s. rewrite waits_on_iff. intros [? _]. congruence.
      + intros Ec. by rewrite Ec in Ho.
    - pose proof (idle_not_dying _ _ _ _ _ _ Hok Ei) as Nd. rewrite bool_decide_true in Hi by done.
      assert (code th ≠ []) as Nc by (intros E; by rewrite E in Hi).
      assert (off_head (code th) = true ∧ wakeup_time th = 0 ∧ waits (code th) = None) as (? & ? & Hn).
      { clear -Hs Hi Nr Nd. destruct (status th); try done.
        - destruct Hs as [Hs1 Hs2]. split_and!; try done. by destruct (code th) as [|[] r].
        - destruct Hs as [[? [[s Hws]|[E|E]]]|[_ E]]; [|by rewrite E|by rewrite E in Hi|by rewrite E in Hi].
          by destruct (code th) as [|[] r]. }
      split_and!; try done. intros s. rewrite waits_on_iff, Hn. by intros [_ ?]. }
  split; [|done]. apply (place_upd P t th); try done.
  - split; [by split|]. intros t' N. rewrite Hrun. split; [|done]. intros [= ->]. done.
  - destruct HR as [ER|(ER & ER' & Ei)].
    + rewrite ER in Hnd. apply NoDup_cons in Hnd as [Hn1 Hn2]. split_and!; [done| |].
      * split; [done|]. by intros [? _].
      * intros t' N. rewrite ER, elem_of_cons. tauto.
    + rewrite ER, ER'. split_and!; [by apply NoDup_nil| |done]. split; [|by intros [_ ?]].
      by intros ?%elem_of_nil.
  - split_and!; [apply (pl_all _ _ _ _ _ _ _ _ P)| |done]. rewrite all_iff. by split.
  - intros s sm HS. apply waiters_upd; [done|]. rewrite <-waits_on_iff. simpl.
    split; [by intros [? _]|by intros ?%HW].
  - apply (pl_conds _ _ _ _ _ _ _ _ P).
  - by left.
  - right. intros t2 th2 H2 Hcr. destruct (pl_creates _ _ _ _ _ _ _ _ P _ _ _ H2 Hcr) as (u & Hu & _ & Hcu).
    rewrite Ht in Hu. injection Hu as <-. done.
Qed.

(** [thread_unblock] of a thread that is not in a list of waiters. *)
Lemma place_wake c' :
  status th = THREAD_BLOCKED → waits (code th) = None → t ≠ idle → uncreated T t →
  waits c' = None → off_head c' = true → wfc c' → Forall (instr_ok S H C) c' → idle_code c' = false →
  creates c' = None →
  place (<[t := set_status THREAD_READY (set_wakeup 0 (set_code c' th))]> T) (R ++ [t]) A idle S H C run.
Proof.
  intros Est Hwt Ni Hun Hwt' Hoff Hwf Hrefs Hic Hcr.
  apply (place_upd P t th); try done.
  - destruct (pl_thread P t th Ht) as [Hm Hc Hr Hi Hs]. split; try done.
    rewrite bool_decide_false by done. done.
  - split; [|done]. simpl. split; [done|]. intros E.
    apply (pl_run _ _ _ _ _ _ _ _ P t th Ht) in E. congruence.
  - split_and!.
    + apply nodup_snoc; [apply (pl_ready_nodup _ _ _ _ _ _ _ _ P)|]. rewrite ready_iff.
      intros [? _]. congruence.
    + rewrite elem_of_snoc. split; [done|by right].
    + intros t' N. rewrite elem_of_snoc. split; [by intros [?|?]|by left].
  - split_and!; [apply (pl_all _ _ _ _ _ _ _ _ P)| |done]. rewrite all_iff. simpl. split; congruence.
  - intros s sm HS. apply waiters_upd; [done|]. simpl. split; intros [? ?]; congruence.
  - apply (pl_conds _ _ _ _ _ _ _ _ P).
  - simpl. congruence.
  - by right.
Qed.

(** [sema_up] unblocks the first waiter. *)
Lemma place_wake_waiter s v v' rest :
  S !! s = Some (mk_sema v (t :: rest)) →
  place (<[t := set_status THREAD_READY th]> T) (R ++ [t]) A idle (<[s := mk_sema v' rest]> S) H C run ∧
  status th = THREAD_BLOCKED.
Proof.
  intros HS. destruct (pl_wait _ _ _ _ _ _ _ _ P s _ HS) as [Hd Hw]. simpl in *.
  assert (waits_on T s t) as [Est Hwt]%waits_on_iff by (apply Hw; left). split; [|done].
  apply NoDup_cons in Hd as [Hd1 Hd2].
  assert (∀ i, instr_ok S H C i → instr_ok (<[s := mk_sema v' rest]> S) H C i) as Hmono.
  { intros [] Hi; simpl in *; rewrite ?lookup_insert_is_Some'; tauto. }
  pose proof (pl_thread P t th Ht) as [Hm Hc Hr Hi Hs]. rewrite Est in Hs.
  assert (t ≠ idle ∧ off_head (code th) = true ∧ wakeup_time th = 0 ∧ code th ≠ []) as (Ni & Hoff & Hw0 & Nc).
  { destruct Hs as [[Hz _]|[_ E]]; [|by rewrite E in Hwt]. split_and!; try done.
    - intros ->. rewrite bool_decide_true in Hi by done. destruct (code th) as [|[] ?]; by simpl in *.
    - by destruct (code th) as [|[] ?].
    - intros E. by rewrite E in Hwt. }
  apply (place_upd P t th); try done.
  - split; try done; simpl. by apply (Forall_impl _ _ _ Hr).
  - split; [|done]. simpl. split; [done|]. intros E.
    apply (pl_run _ _ _ _ _ _ _ _ P t th Ht) in E. congruence.
  - split_and!.
    + apply nodup_snoc; [apply (pl_ready_nodup _ _ _ _ _ _ _ _ P)|]. rewrite ready_iff.
      intros [? _]. congruence.
    + rewrite elem_of_snoc. split; [done|by right].
    + intros t' N. rewrite elem_of_snoc. split; [by intros [?|?]|by left].
  - split_and!; [apply (pl_all _ _ _ _ _ _ _ _ P)| |done]. rewrite all_iff. simpl. split; congruence.
  - intros s' sm' HS'. simpl. destruct (decide (s' = s)) as [->|N].
    + rewrite lookup_insert_eq in HS'. injection HS' as <-. simpl. split_and!; [done| |].
      * split; [done|by intros [? _]].
      * intros t' N. rewrite <-Hw, elem_of_cons. tauto.
    + rewrite lookup_insert_ne in HS' by done. destruct (pl_wait _ _ _ _ _ _ _ _ P s' sm' HS') as [Hd' Hw'].
      split_and!; [done| |auto]. rewrite Hw', waits_on_iff. split; [|by intros [? _]].
      intros [_ ?]. congruence.
  - intros c ws w HC Hin. rewrite lookup_insert_is_Some'. right. by eapply (pl_conds _ _ _ _ _ _ _ _ P).
  - by left.
  - right. intros t2 th2 H2 Hcr. destruct (pl_creates _ _ _ _ _ _ _ _ P _ _ _ H2 Hcr) as (u & Hu & _ & Hcu).
    rewrite Ht in Hu. injection Hu as <-. done.
Qed.

End moves.

(** ** Threads and objects that come and go *)

Section objects.
Context {T : gmap Z thread} {R A : list Z} {idle : Z} {S : gmap sema_id semaphore}
  {H : gmap Z Z} {C : gmap Z (list Z)} {run : option Z}.
Hypothesis P : place T R A idle S H C run.

(** The page of a dead thread is freed. *)
Lemma place_free t th :
  T !! t = Some th → status th = THREAD_DYING → place (delete t T) R A idle S H C run.
Proof.
  intros Ht Hd. destruct P as [PT Prun Plive [ui Hui] Pready Pnd Pwait [Pall1 Pall2] Pconds Pcr Pcu].
  assert (∀ t' u, delete t T !! t' = Some u ↔ t' ≠ t ∧ T !! t' = Some u) as Hl.
  { intros t' u. rewrite lookup_delete_Some. naive_solver. }
  assert (∀ t' u, T !! t' = Some u → status u ≠ THREAD_DYING → delete t T !! t' = Some u) as Hk.
  { intros t' u Hu N. apply Hl. split; [|done]. intros ->. congruence. }
  split.
  - apply map_Forall_delete, PT.
  - intros t' u [_ Hu]%Hl. by apply Prun.
  - intros t' E. destruct (Plive t' E) as [u Hu]. exists u. apply Hk; [done|].
    intros E'. destruct (Prun t' u Hu) as [_ Hx]. specialize (Hx E). congruence.
  - exists ui. apply Hk; [done|]. eapply idle_not_dying; [by apply PT|done].
  - intros t'. rewrite Pready. split; intros (u & Hu & Hs & N); exists u; (split; [|done]).
    + apply Hk; congruence.
    + by apply Hl.
  - done.
  - intros s sm HS. destruct (Pwait s sm HS) as [Hn Hw]. split; [done|]. intros t'. rewrite Hw.
    split; intros (u & Hu & Hs & Hwt); exists u; (split; [|done]).
    + apply Hk; congruence.
    + by apply Hl.
  - split; [done|]. intros t'. rewrite Pall2. split; intros (u & Hu & Hs); exists u; (split; [|done]).
    + by apply Hk.
    + by apply Hl.
  - done.
  - intros t' u n [_ Hu]%Hl Hc. destruct (Pcr _ _ _ Hu Hc) as (v & Hv & Hb & ?). exists v.
    split; [|done]. apply Hk; congruence.
  - intros t1 t2 u1 u2 n [_ H1]%Hl [_ H2]%Hl. by apply Pcu.
Qed.

(** [init_thread] of a new page. *)
Lemma place_new n th :
  T !! n = None → n ≠ NULL → magic th = THREAD_MAGIC → status th = THREAD_BLOCKED →
  wakeup_time th = 0 → code th = [] →
  place (<[n := th]> T) R (A ++ [n]) idle S H C run.
Proof.
  intros Hn Nn Hm Hs Hw Hc.
  destruct P as [PT Prun Plive [ui Hui] Pready Pnd Pwait [Pall1 Pall2] Pconds Pcr Pcu].
  assert (n ≠ idle) as Ni by congruence.
  assert (∀ (Q : thread → Prop) t', (∃ u, <[n := th]> T !! t' = Some u ∧ Q u) ↔
    (t' = n ∧ Q th) ∨ ∃ u, T !! t' = Some u ∧ Q u) as Hl.
  { intros Q t'. destruct (decide (t' = n)) as [->|N].
    - rewrite lookup_insert_eq, Hn. naive_solver.
    - rewrite lookup_insert_ne by done. naive_solver. }
  split.
  - apply map_Forall_insert_2; [|done]. split; rewrite ?Hs, ?Hc; try done.
    + by rewrite bool_decide_false.
    + left. split; [done|]. by right; right.
  - intros t' u. destruct (decide (t' = n)) as [->|N].
    + rewrite lookup_insert_eq. intros [= <-]. rewrite Hs. split; [done|].
      intros E. destruct (Plive n E). congruence.
    + rewrite lookup_insert_ne by done. apply Prun.
  - intros t' [u Hu]%Plive. rewrite lookup_insert_is_Some'. right. by rewrite Hu.
  - exists ui. by rewrite lookup_insert_ne.
  - intros t'. rewrite Pready, Hl, Hs. naive_solver.
  - done.
  - intros s sm HS. destruct (Pwait s sm HS) as [Hd Hwt]. split; [done|]. intros t'.
    unfold waits_on. rewrite Hwt, Hl, Hc. unfold waits_on. naive_solver.
  - split.
    + apply nodup_snoc; [done|]. rewrite Pall2. naive_solver.
    + intros t'. rewrite elem_of_snoc, Pall2, Hl, Hs. naive_solver.
  - done.
  - intros t' u k. destruct (decide (t' = n)) as [->|N].
    + rewrite lookup_insert_eq. intros [= <-]. by rewrite Hc.
    + rewrite lookup_insert_ne by done. intros Hu Hk.
      destruct (Pcr _ _ _ Hu Hk) as (v & Hv & ?). exists v. split; [|done].
      rewrite lookup_insert_ne; [done|]. congruence.
  - intros t1 t2 u1 u2 k. destruct (decide (t1 = n)) as [->|N1], (decide (t2 = n)) as [->|N2];
      rewrite ?lookup_insert_eq, ?lookup_insert_ne by done; try done.
    + intros [= <-] _. by rewrite Hc.
    + intros _ [= <-] _. by rewrite Hc.
    + apply Pcu.
Qed.

(** Semaphores, locks and conditions are created or change their values. *)
Lemma place_objects S' H' C' :
  (∀ s sm, S !! s = Some sm → ∃ v', S' !! s = Some (mk_sema v' (waiters sm))) →
  (∀ s sm, S' !! s = Some sm → S !! s = None → waiters sm = []) →
  (∀ l, is_Some (H !! l) → is_Some (H' !! l)) →
  (∀ c, is_Some (C !! c) → is_Some (C' !! c)) →
  (∀ c ws w, C' !! c = Some ws → w ∈ ws → is_Some (S' !! SSema w)) →
  place T R A idle S' H' C' run.
Proof.
  intros HS HSn HH HC HCw.
  destruct P as [PT Prun Plive [ui Hui] Pready Pnd Pwait [Pall1 Pall2] Pconds Pcr Pcu].
  split; try done; try by exists ui.
  - intros t u Hu. eapply thread_ok_objects; [|by apply PT]. intros i Hi.
    assert (∀ s, is_Some (S !! s) → is_Some (S' !! s)).
    { intros s [sm Hs]. destruct (HS s sm Hs) as [v' ->]. done. }
    destruct i; simpl in *; try done; auto. destruct Hi. auto.
  - intros s sm Hs. destruct (S !! s) as [sm0|] eqn:E0.
    + destruct (HS s sm0 E0) as [v' E']. rewrite E' in Hs. injection Hs as <-. simpl. by apply Pwait.
    + rewrite (HSn s sm Hs E0). split; [by apply NoDup_nil|]. intros t. split; [by intros ?%elem_of_nil|].
      intros (u & Hu & _ & Hw). destruct (PT t u Hu) as [_ _ Hr _ _].
      destruct (code u) as [|[] r]; simpl in Hw; try done. injection Hw as ->.
      apply Forall_cons in Hr as [[sm0 Hx] _]. congruence.
Qed.

(** A semaphore changes its value. *)
Lemma place_value s sm v :
  S !! s = Some sm → place T R A idle (<[s := mk_sema v (waiters sm)]> S) H C run.
Proof.
  intros Hs. apply place_objects; try done.
  - intros s' sm' Hs'. destruct (decide (s' = s)) as [->|N].
    + rewrite lookup_insert_eq. rewrite Hs in Hs'. injection Hs' as <-. eauto.
    + rewrite lookup_insert_ne by done. destruct sm'. eauto.
  - intros s' sm' Hs' Hn. destruct (decide (s' = s)) as [->|N]; [congruence|].
    rewrite lookup_insert_ne in Hs' by done. congruence.
  - intros c ws w HC Hw. rewrite lookup_insert_is_Some'. right. by eapply (pl_conds _ _ _ _ _ _ _ _ P).
Qed.

(** A new semaphore. *)
Lemma place_new_sema s v :
  S !! s = None → place T R A idle (<[s := mk_sema v []]> S) H C run.
Proof.
  intros Hs. apply place_objects; try done.
  - intros s' sm' Hs'. rewrite lookup_insert_ne by congruence. destruct sm'. eauto.
  - intros s' sm'. destruct (decide (s' = s)) as [->|N].
    + rewrite lookup_insert_eq. by intros [= <-].
    + rewrite lookup_insert_ne by done. congruence.
  - intros c ws w HC Hw. rewrite lookup_insert_is_Some'. right. by eapply (pl_conds _ _ _ _ _ _ _ _ P).
Qed.

(** Holders and condition lists change. *)
Lemma place_holder l h : place T R A idle S (<[l := h]> H) C run.
Proof.
  apply place_objects; try done; [by intros s [v w] ?; eauto|congruence| |].
  - intros l' Hl'. rewrite lookup_insert_is_Some'. by right.
  - apply (pl_conds _ _ _ _ _ _ _ _ P).
Qed.

Lemma place_cond c ws :
  (∀ w, w ∈ ws → is_Some (S !! SSema w)) → place T R A idle S H (<[c := ws]> C) run.
Proof.
  intros Hws. apply place_objects; try done; [by intros s [v w] ?; eauto|congruence| |].
  - intros l' Hl'. rewrite lookup_insert_is_Some'. by right.
  - intros c' ws' w. destruct (decide (c' = c)) as [->|N].
    + rewrite lookup_insert_eq. intros [= <-]. apply Hws.
    + rewrite lookup_insert_ne by done. apply (pl_conds _ _ _ _ _ _ _ _ P).
Qed.

End objects.

(** ** Locks *)

Definition code_of (T : gmap Z thread) (t : Z) : option (list instr) := code <$> T !! t.

Lemma code_of_Some T t c : code_of T t = Some c ↔ ∃ th, T !! t = Some th ∧ code th = c.
Proof. unfold code_of. rewrite fmap_Some. split; intros (th & ? & ?); eauto. Qed.

Lemma code_of_insert T t th t' :
  code_of (<[t := th]> T) t' = if decide (t' = t) then Some (code th) else code_of T t'.
Proof.
  unfold code_of. case_decide as E; [subst; by rewrite lookup_insert_eq|by rewrite lookup_insert_ne].
Qed.

Lemma pends_code T l t : pends T l t ↔ ∃ c, code_of T t = Some c ∧ pend c = Some l.
Proof.
  unfold pends. split.
  - intros (th & Ht & Hp). exists (code th). rewrite code_of_Some. eauto.
  - intros (c & (th & Ht & <-)%code_of_Some & Hp). eauto.
Qed.

Lemma pends_insert T l t th t' :
  pends (<[t := th]> T) l t' ↔ if decide (t' = t) then pend (code th) = Some l else pends T l t'.
Proof.
  rewrite pends_code, code_of_insert. case_decide; [|by rewrite pends_code].
  split; [by intros (c & [= <-] & ?)|eauto].
Qed.

(** The same code in every thread that has any. *)
Definition same_code (T T' : gmap Z thread) : Prop :=
  ∀ t c, c ≠ [] → (code_of T' t = Some c ↔ code_of T t = Some c).

Lemma same_code_insert T t th th' :
  T !! t = Some th → code th' = code th → same_code T (<[t := th']> T).
Proof.
  intros Ht Hc t' c _. rewrite code_of_insert. case_decide as E; [subst|done].
  unfold code_of. by rewrite Ht, Hc.
Qed.

Lemma same_code_trans T1 T2 T3 : same_code T1 T2 → same_code T2 T3 → same_code T1 T3.
Proof. intros H1 H2 t c Hc. by rewrite (H2 t c Hc), (H1 t c Hc). Qed.

Lemma same_code_none T t th' : code th' = [] → (∀ th, T !! t = Some th → code th = []) →
  same_code T (<[t := th']> T).
Proof.
  intros Hc Ho t' c Nc. rewrite code_of_insert. case_decide as E; [subst|done]. rewrite code_of_Some.
  split; [congruence|]. intros (th & Ht & <-). by rewrite (Ho _ Ht) in Nc.
Qed.

Lemma same_code_delete T t th : T !! t = Some th → code th = [] → same_code T (delete t T).
Proof.
  intros Ht Hc t' c Nc. unfold code_of. destruct (decide (t' = t)) as [->|N].
  - rewrite lookup_delete_eq, Ht. simpl. split; congruence.
  - by rewrite lookup_delete_ne.
Qed.

Lemma same_code_pends T T' l t : same_code T T' → pends T' l t ↔ pends T l t.
Proof.
  intros Hs. rewrite !pends_code.
  split; intros (c & Hc & Hp); exists c; (split; [|done]); apply Hs; try done; by intros ->.
Qed.

Lemma lock_state_ext T T' l h v :
  (∀ t, pends T' l t ↔ pends T l t) → lock_state T l h v → lock_state T' l h v.
Proof. unfold lock_state. intros E. by setoid_rewrite E. Qed.

Lemma locks_ext T T' S S' H :
  same_code T T' →
  (∀ l sm, S !! SLock l = Some sm → ∃ sm', S' !! SLock l = Some sm' ∧ value sm' = value sm) →
  locks_ok T S H → locks_ok T' S' H.
Proof.
  intros Hc HS [Ls Lr La Lt Lh]. split; [| | |done|].
  - intros l h Hl. destruct (Ls l h Hl) as (sm & Hsm & Hst). destruct (HS l sm Hsm) as (sm' & Hsm' & Ev).
    exists sm'. split; [done|]. rewrite Ev. eapply lock_state_ext; [|done]. intros t. by apply same_code_pends.
  - intros t th l Ht Hr. assert (code th ≠ []) as Nc by (intros E; by rewrite E in Hr).
    assert (code_of T t = Some (code th)) as (u & Hu & Ec)%code_of_Some
      by (apply Hc; [done|apply code_of_Some; eauto]).
    apply (Lr t u); [done|]. by rewrite Ec.
  - intros t th l Ht Hr. assert (code th ≠ []) as Nc by (intros E; rewrite E in Hr; by apply elem_of_nil in Hr).
    assert (code_of T t = Some (code th)) as (u & Hu & Ec)%code_of_Some
      by (apply Hc; [done|apply code_of_Some; eauto]).
    apply (La t u); [done|]. by rewrite Ec.
  - intros h Hh. destruct (Lh h Hh) as [?|(u & Hu & Hr)]; [by left|right].
    assert (code u ≠ []) as Nc by (intros E; by rewrite E in Hr).
    assert (code_of T' h = Some (code u)) as (u' & Hu' & Ec)%code_of_Some
      by (apply Hc; [done|apply code_of_Some; eauto]).
    exists u'. split; [done|]. by rewrite Ec.
Qed.

(** One thread changes its code, one lock its state. *)
Lemma locks_upd T S H t th' S' H' l0 :
  locks_ok T S H →
  (∀ l, l ≠ l0 → H' !! l = H !! l ∧ (is_Some (H !! l) → value <$> S' !! SLock l = value <$> S !! SLock l)) →
  (∀ l, l ≠ l0 → pend (code th') = Some l ↔ pends T l t) →
  (∀ h, H' !! l0 = Some h → ∃ sm, S' !! SLock l0 = Some sm ∧ lock_state (<[t := th']> T) l0 h (value sm)) →
  (∀ l, req (code th') = Some l → H' !! l = Some t) →
  (∀ l, ILockAcquire l ∈ code th' → H' !! l ≠ Some t) →
  (∀ t' th, t' ≠ t → T !! t' = Some th → req (code th) = Some l0 → H' !! l0 = Some t') →
  (∀ t', t' ≠ t → is_Some (T !! t') → H' !! l0 = Some t' → H !! l0 = Some t') →
  is_Some (H' !! tid_lock) →
  (∀ h, H' !! tid_lock = Some h → h = NULL ∨ (h = t ∧ req (code th') = Some tid_lock) ∨
     (h ≠ t ∧ H !! tid_lock = Some h)) →
  locks_ok (<[t := th']> T) S' H'.
Proof.
  intros [Ls Lr La Lt Lh] Hne Hp Hl0 Hreq Hacq Hreq' Hacq' Htid Hth. split; [| | |done|].
  - intros l h Hl. destruct (decide (l = l0)) as [->|N]; [by apply Hl0|].
    destruct (Hne l N) as [EH ES]. rewrite EH in Hl. destruct (Ls l h Hl) as (sm & Hsm & Hst).
    rewrite Hl, Hsm in ES. specialize (ES ltac:(done)).
    destruct (S' !! SLock l) as [sm'|] eqn:E'; simpl in ES; [|done]. injection ES as ES.
    exists sm'. split; [done|]. rewrite ES. eapply lock_state_ext; [|done].
    intros t'. rewrite pends_insert. case_decide as Et; [subst|done]. by apply Hp.
  - intros t' th l. destruct (decide (t' = t)) as [->|N].
    + rewrite lookup_insert_eq. intros [= <-]. apply Hreq.
    + rewrite lookup_insert_ne by done. intros Ht Hr. destruct (decide (l = l0)) as [->|N0]; [by eapply Hreq'|].
      rewrite (proj1 (Hne l N0)). by eapply Lr.
  - intros t' th l. destruct (decide (t' = t)) as [->|N].
    + rewrite lookup_insert_eq. intros [= <-]. apply Hacq.
    + rewrite lookup_insert_ne by done. intros Ht Hr. destruct (decide (l = l0)) as [->|N0].
      * intros E. apply (La t' th l0); [done..|]. apply Hacq'; [done|by rewrite Ht|done].
      * rewrite (proj1 (Hne l N0)). by eapply La.
  - intros h [->|[[-> Hr]|[N Hh]]]%Hth; [by left|right|].
    + exists th'. by rewrite lookup_insert_eq.
    + destruct (Lh h Hh) as [?|(u & Hu & Hr)]; [by left|right]. exists u. by rewrite lookup_insert_ne.
Qed.

(** The same, when the tid lock is not affected. *)
Lemma tid_holder_same T S H t th th' :
  locks_ok T S H → T !! t = Some th → (req (code th) = Some tid_lock → req (code th') = Some tid_lock) →
  ∀ h, H !! tid_lock = Some h → h = NULL ∨ (h = t ∧ req (code th') = Some tid_lock) ∨
     (h ≠ t ∧ H !! tid_lock = Some h).
Proof.
  intros L Ht Hr h Hh. destruct (lk_tid_holder _ _ _ L h Hh) as [?|(u & Hu & Hru)]; [by left|].
  right. destruct (decide (h = t)) as [->|]; [left|by right]. split; [done|].
  rewrite Ht in Hu. injection Hu as <-. auto.
Qed.
