(* ===== verification/ThreadsStep.v ===== *)
(** * Every step of the thread machine preserves the invariant

    The functions of thread.c, synch.c and timer.c are run on a state that
    satisfies the invariant: no assertion fails, no dangling thread is
    touched, and the resulting state satisfies the invariant again. *)

From S2P Require Import Prelude Threads ThreadsInv.

Definition kplace (K : kernel) (run : option Z) : Prop :=
  place (threads K) (ready_list K) (all_list K) (idle_thread K) (semas K) (holders K) (conds K) run.
Definition klocks (K : kernel) : Prop := locks_ok (threads K) (semas K) (holders K).

(** The state with thread [t] replaced. *)
Definition put_thread (t : Z) (th : thread) (K : kernel) : kernel :=
  set_threads (<[t := th]> (threads K)) K.

(** ** Running the primitives *)

Lemma get_thread_ok K t th : threads K !! t = Some th → get_thread t K = Ok (th, K).
Proof. intros E. unfold get_thread. by rewrite E. Qed.

Lemma upd_thread_ok K t th f :
  threads K !! t = Some th → upd_thread t f K = Ok (tt, put_thread t (f th) K).
Proof. intros E. unfold upd_thread. erewrite bind_ok by (by apply get_thread_ok). done. Qed.

Lemma push_code_ok K th ks :
  threads K !! cur K = Some th →
  push_code ks K = Ok (tt, put_thread (cur K) (set_code (ks ++ code th) th) K).
Proof.
  intros E. unfold push_code. erewrite bind_ok by apply get_ok. by apply (upd_thread_ok _ _ _ (λ th, _)).
Qed.

Lemma get_sema_ok K s sm : semas K !! s = Some sm → get_sema s K = Ok (sm, K).
Proof. intros E. unfold get_sema. by rewrite E. Qed.

Lemma is_thread_ok K t th :
  threads K !! t = Some th → t ≠ NULL → magic th = THREAD_MAGIC → is_thread t K = Ok (true, K).
Proof.
  intros E N M. unfold is_thread. rewrite (proj2 (Z.eqb_neq _ _) N).
  erewrite bind_ok by (by apply get_thread_ok). by rewrite M.
Qed.

Lemma set_intr_id K b : intr_on K = b → set_intr b K = K.
Proof. intros <-. by destruct K. Qed.

(** [intr_set_level (old_level)] at the end of a function that began with
    [old_level = intr_disable ()]. *)
Lemma intr_set_level_ok K b :
  in_external_intr K = false ∨ b = false → intr_set_level b K = Ok (intr_on K, set_intr b K).
Proof. intros [E|E]; destruct b; simpl; try done. unfold intr_enable. simpl. by cbv; destruct K; simpl in *; subst. Qed.

(** The running thread. *)
Record current (K : kernel) (th : thread) : Prop := {
  cu_lookup : threads K !! cur K = Some th;
  cu_status : status th = THREAD_RUNNING;
  cu_nonnull : cur K ≠ NULL;
  cu_magic : magic th = THREAD_MAGIC
}.

Lemma current_place K th :
  kplace K (Some (cur K)) → threads K !! cur K = Some th → current K th.
Proof.
  intros P Ht. destruct (pl_thread P _ _ Ht) as [[? ?] _ _ _ _]. split; try done.
  by apply (pl_run _ _ _ _ _ _ _ _ P _ _ Ht).
Qed.

Lemma thread_current_ok K th : current K th → thread_current K = Ok (cur K, K).
Proof.
  intros [Ht Hs N M]. unfold thread_current.
  erewrite bind_ok by reflexivity. erewrite bind_ok by (by eapply is_thread_ok).
  erewrite bind_ok by reflexivity. erewrite bind_ok by (by apply get_thread_ok).
  erewrite bind_ok; [reflexivity|]. apply assert_ok. by apply bool_decide_true.
Qed.

(** ** schedule *)

Lemma schedule_tail_ok K prev th :
  intr_on K = false → threads K !! cur K = Some th → prev ≠ cur K →
  (prev ≠ NULL → is_Some (threads K !! prev)) →
  let K1 := set_thread_ticks 0 (put_thread (cur K) (set_status THREAD_RUNNING th) K) in
  thread_schedule_tail prev K = Ok (tt, K1) ∨
  ∃ thp, threads K !! prev = Some thp ∧ status thp = THREAD_DYING ∧
    thread_schedule_tail prev K = Ok (tt, set_threads (delete prev (threads K1)) K1).
Proof.
  intros Hi Ht N Hp K1. unfold thread_schedule_tail.
  erewrite bind_ok by reflexivity. erewrite bind_ok by reflexivity. rewrite Hi.
  erewrite bind_ok by reflexivity. erewrite bind_ok by (by apply upd_thread_ok).
  erewrite bind_ok by reflexivity. destruct (Z.eqb_spec prev NULL) as [E|Np]; [by left|].
  destruct (Hp Np) as [thp Hthp]. erewrite bind_ok by apply get_ok.
  erewrite bind_ok; [|apply get_thread_ok; simpl; by rewrite lookup_insert_ne].
  destruct (bool_decide _ && _) eqn:E; [|by left]. right. exists thp.
  apply andb_true_iff in E as [E%bool_decide_eq_true _]. split_and!; [done..|].
  rewrite (proj2 (Z.eqb_neq _ _) N). by erewrite bind_ok by reflexivity.
Qed.

(** The first ready thread runs, or the idle thread when there is none; the
    other threads do not change. *)
Record sched_frame (K K' : kernel) : Prop := {
  sf_cur : cur K' = List.hd (idle_thread K) (ready_list K);
  sf_ready : ready_list K' = List.tl (ready_list K);
  sf_run : threads K' !! cur K' = set_status THREAD_RUNNING <$> threads K !! cur K';
  sf_other : ∀ t u, t ≠ cur K' → threads K !! t = Some u → status u ≠ THREAD_DYING →
    threads K' !! t = Some u
}.

Lemma schedule_inv K :
  kplace K None → klocks K → in_external_intr K = false → intr_on K = false →
  is_Some (threads K !! cur K) →
  ∃ K', schedule K = Ok (tt, K') ∧ Inv K' ∧ ticks K' = ticks K ∧ sched_frame K K'.
Proof.
  intros P L Hctx Hi [thc Hc]. unfold schedule.
  erewrite bind_ok by reflexivity.
  assert (∃ next R' thn, next_thread_to_run K = Ok (next, set_ready R' K) ∧ threads K !! next = Some thn ∧
    (ready_list K = next :: R' ∨ (ready_list K = [] ∧ R' = [] ∧ next = idle_thread K)))
    as (next & R' & thn & En & Hn & HR).
  { unfold next_thread_to_run. erewrite bind_ok by apply get_ok.
    destruct (ready_list K) as [|n R'] eqn:ER.
    - destruct (pl_idle _ _ _ _ _ _ _ _ P) as [u Hu]. exists (idle_thread K), [], u.
      split_and!; [|done|by right]. rewrite <-ER. by destruct K.
    - destruct (proj1 (pl_ready _ _ _ _ _ _ _ _ P n)) as (u & Hu & _); [rewrite ER; left|].
      exists n, R', u. split_and!; [done..|by left]. }
  erewrite bind_ok by exact En. erewrite bind_ok by reflexivity. simpl. rewrite Hi.
  erewrite bind_ok by reflexivity. erewrite bind_ok by (by apply get_thread_ok).
  erewrite bind_ok.
  2: { apply assert_ok. apply bool_decide_true. intros E.
       by apply (pl_run _ _ _ _ _ _ _ _ P _ _ Hc) in E. }
  destruct (pl_thread P _ _ Hn) as [[M N] _ _ _ _].
  erewrite bind_ok by (by eapply is_thread_ok). erewrite bind_ok by reflexivity.
  destruct (place_to_run P next thn Hn R' eq_refl HR) as (P' & Hoff & _).
  set (K1 := set_cur next (set_ready R' K)).
  assert (∃ prev, (if negb (cur K =? next) then modify (set_cur next);; mret (cur K) else mret NULL)
    (set_ready R' K) = Ok (prev, K1) ∧ prev ≠ cur K1 ∧ (prev ≠ NULL → is_Some (threads K1 !! prev)))
    as (prev & Ep & Nprev & Hprev).
  { subst K1. destruct (Z.eqb_spec (cur K) next) as [E|Nn]; simpl.
    - exists NULL. rewrite <-E. split_and!; [by destruct K| |done]. rewrite E. done.
    - exists (cur K). split_and!; [done..|]. intros _. by exists thc. }
  erewrite bind_ok by exact Ep.
  destruct (schedule_tail_ok K1 prev thn Hi Hn Nprev Hprev) as [->|(thp & Hthp & Ed & ->)];
    (eexists; split; [done|]; split; [|split; [done|]]); split; simpl; try done;
    try by destruct HR as [-> |(-> & -> & ->)].
  - eapply locks_ext; [by eapply (same_code_insert _ _ thn)| |done]. eauto.
  - intros u. rewrite lookup_insert_eq. intros [= <-]. simpl. by rewrite Hi, Hoff.
  - by rewrite lookup_insert_eq, Hn.
  - intros t u Nt Hu _. by rewrite lookup_insert_ne.
  - eapply place_free; [exact P'|by rewrite lookup_insert_ne|done].
  - eapply locks_ext; [|eauto|exact L].
    apply (same_code_trans _ (<[next := set_status THREAD_RUNNING thn]> (threads K)));
      [by eapply (same_code_insert _ _ thn)|].
    eapply (same_code_delete _ _ thp); [by rewrite lookup_insert_ne|].
    destruct (pl_thread P _ _ Hthp) as [_ _ _ _ Hs]. rewrite Ed in Hs. by destruct Hs.
  - intros u. rewrite lookup_delete_ne, lookup_insert_eq by done. intros [= <-]. simpl. by rewrite Hi, Hoff.
  - by rewrite lookup_delete_ne, lookup_insert_eq, Hn by done.
  - intros t u Nt Hu Nd. rewrite lookup_delete_ne, lookup_insert_ne; [done..|]. intros ->. simpl in Hthp. congruence.
Qed.

Lemma thread_block_eq K th :
  current K th → in_external_intr K = false → intr_on K = false →
  thread_block K = schedule (put_thread (cur K) (set_status THREAD_BLOCKED th) K).
Proof.
  intros Hc Hctx Hi. unfold thread_block. erewrite bind_ok by reflexivity. rewrite Hctx.
  erewrite bind_ok by reflexivity. erewrite bind_ok by reflexivity. rewrite Hi.
  erewrite bind_ok by reflexivity. erewrite bind_ok by (by eapply thread_current_ok).
  erewrite bind_ok; [done|]. apply upd_thread_ok, Hc.
Qed.

(** ** thread_yield *)

Lemma idle_code_cons_ret c b : idle_code (IYieldRet b :: c) = idle_code c.
Proof. done. Qed.

(** Adding code that takes and gives no lock. *)
Lemma locks_code T S H t th c' :
  locks_ok T S H → T !! t = Some th → pend c' = pend (code th) →
  (∀ l, req c' = Some l → H !! l = Some t) →
  (∀ l, ILockAcquire l ∈ c' → H !! l ≠ Some t) →
  (req (code th) = Some tid_lock → req c' = Some tid_lock) →
  locks_ok (<[t := set_code c' th]> T) S H.
Proof.
  intros L Ht Hp Hr Ha Htid. pose proof L as [Ls Lr La Lt _]. apply (locks_upd T S H _ _ _ _ tid_lock); try done.
  - intros l _. simpl. rewrite Hp. unfold pends. split; [eauto|].
    intros (u & Hu & ?). rewrite Ht in Hu. by injection Hu as <-.
  - intros h Hh. destruct (Ls _ _ Hh) as (sm & Hsm & Hst). exists sm. split; [done|].
    eapply lock_state_ext; [|done]. intros t'. rewrite pends_insert. case_decide as E; [subst|done].
    simpl. rewrite Hp. unfold pends. split; [eauto|]. intros (u & Hu & ?). rewrite Ht in Hu. by injection Hu as <-.
  - intros t' u _ Hu. by apply (Lr t' u).
  - by apply (tid_holder_same T S H t th).
Qed.

Lemma thread_yield_inv K th :
  kplace K (Some (cur K)) → klocks K → in_external_intr K = false →
  threads K !! cur K = Some th → wfc (IYieldRet (intr_on K) :: code th) →
  ∃ K', thread_yield K = Ok (tt, K') ∧ Inv K' ∧ ticks K' = ticks K ∧
    sched_frame (put_thread (cur K) (set_status THREAD_READY (set_code (IYieldRet (intr_on K) :: code th) th))
      (set_ready (if decide (cur K = idle_thread K) then ready_list K else ready_list K ++ [cur K]) K)) K'.
Proof.
  intros P L Hctx Ht Hwf. unfold thread_yield. pose proof (current_place _ _ P Ht) as Hc.
  set (c' := IYieldRet (intr_on K) :: code th).
  assert (kplace (put_thread (cur K) (set_code c' th) K) (Some (cur K))) as P1.
  { destruct (pl_thread P _ _ Ht) as [_ _ Hr Hi _]. apply place_code; try done; [by constructor|].
    intros n Hn. left. revert Hn. unfold creates, c'. by destruct (code th). }
  assert (klocks (put_thread (cur K) (set_code c' th) K)) as L1.
  { apply (locks_code _ _ _ _ th); try done.
    - intros l. by apply (lk_req _ _ _ L _ th).
    - intros l [E|Hin]%elem_of_cons; [done|]. by apply (lk_acq _ _ _ L _ th). }
  erewrite bind_ok by (by eapply thread_current_ok). erewrite bind_ok by reflexivity. rewrite Hctx.
  erewrite bind_ok by reflexivity. erewrite bind_ok by reflexivity. erewrite bind_ok by apply get_ok.
  assert (∃ K1, (if negb (cur K =? idle_thread (set_intr false K))
      then modify (λ K0, set_ready (ready_list K0 ++ [cur K]) K0) else mret tt) (set_intr false K) = Ok (tt, K1) ∧
    K1 = set_ready (if decide (cur K = idle_thread K) then ready_list K else ready_list K ++ [cur K])
      (set_intr false K)) as (K1 & E1 & EK1).
  { simpl. case_decide as Ei.
    - rewrite (proj2 (Z.eqb_eq _ _) Ei). eexists. split; [done|]. by destruct K.
    - rewrite (proj2 (Z.eqb_neq _ _) Ei). by eexists. }
  simpl in E1 |- *. erewrite bind_ok by exact E1. subst K1.
  erewrite bind_ok by (by apply upd_thread_ok).
  erewrite bind_ok by (by apply push_code_ok; simpl; rewrite lookup_insert_eq).
  set (K2 := put_thread _ _ _).
  assert (threads K2 = <[cur K := set_status THREAD_READY (set_code c' th)]>
    (threads (put_thread (cur K) (set_code c' th) K))) as ET.
  { subst K2. simpl. by rewrite !insert_insert_eq. }
  destruct (schedule_inv K2) as (K' & E & HI & Htk & SF); try done.
  - unfold kplace. rewrite ET.
    apply (place_to_ready P1 (cur K) (set_code c' th)); [simpl; by rewrite lookup_insert_eq|done..].
  - unfold klocks. rewrite ET. eapply locks_ext; [|eauto|exact L1].
    eapply (same_code_insert _ _ (set_code c' th)); [simpl; by rewrite lookup_insert_eq|done].
  - simpl. rewrite lookup_insert_eq. eauto.
  - exists K'. rewrite E. split_and!; [done..|]. destruct SF as [S1 S2 S3 S4].
    rewrite ET in S3, S4. simpl in *. rewrite insert_insert_eq in S3, S4. by split.
Qed.

(** ** Semaphores *)

Lemma creates_cons i r : (∀ n fn, i ≠ ICreateRest n fn) → (∀ n nm p, i ≠ ILinkThread n nm p) → creates (i :: r) = creates r.
Proof.
  intros Hi Hl. unfold creates. assert (is_link i = false) as E by (destruct i; try done; by edestruct Hl).
  simpl. rewrite E. simpl. destruct (existsb is_link r); [done|]. destruct r; [|done]. destruct i; try done. by edestruct Hi.
Qed.

Lemma after_down_facts s r :
  after_down s r → off_head r = false ∧ idle_code r = false ∧ req r = None ∧
  pend r = (if s is SLock l then Some l else None).
Proof.
  destruct s as [l|a]; simpl.
  - intros (r' & -> & _). done.
  - intros [->|(l & _ & ->)]; done.
Qed.

Lemma lock_value_pos T S H l h sm :
  locks_ok T S H → H !! l = Some h → S !! SLock l = Some sm → value sm ≠ 0 →
  value sm = 1 ∧ h = NULL ∧ ∀ t, ¬ pends T l t.
Proof.
  intros L Hl Hs Hv. destruct (lk_state _ _ _ L _ _ Hl) as (sm' & Hs' & Hst). rewrite Hs in Hs'.
  injection Hs' as <-. destruct Hst as [?|[[? _]|[? _]]]; done.
Qed.

(** A successful down of a lock's semaphore makes the thread the next holder. *)
Lemma locks_down T S H t th s sm r :
  locks_ok T S H → T !! t = Some th → code th = ISemaLoop s true :: r → after_down s r →
  S !! s = Some sm → value sm ≠ 0 →
  locks_ok (<[t := set_code r th]> T) (<[s := mk_sema (u32 (value sm - 1)) (waiters sm)]> S) H.
Proof.
  intros L Ht Hc Had Hs Hv. destruct (after_down_facts s r Had) as (_ & _ & Hreq & Hpend).
  assert (∀ l, ILockAcquire l ∈ r → H !! l ≠ Some t) as Hacq.
  { intros l Hl. apply (lk_acq _ _ _ L t th); [done|]. rewrite Hc. by right. }
  destruct s as [l|a].
  - apply (locks_upd T S H _ _ _ _ l); try done.
    + intros l' N. split; [done|]. intros _. rewrite lookup_insert_ne; [done|]. by intros [= ->].
    + intros l' N. simpl. rewrite Hpend. split; [by intros [= ->]|].
      intros (u & Hu & Hp). rewrite Ht in Hu. injection Hu as <-. by rewrite Hc in Hp.
    + intros h Hh. eexists. rewrite lookup_insert_eq. split; [done|]. simpl.
      destruct (lock_value_pos _ _ _ _ _ _ L Hh Hs Hv) as (Ev & -> & Hnp). rewrite Ev. right; right.
      split_and!; [done..|]. exists t. intros t'. rewrite pends_insert. case_decide as E.
      * simpl. by rewrite Hpend.
      * split; [by intros ?%Hnp|done].
    + simpl. by rewrite Hreq.
    + intros t' u N Hu Hr. by apply (lk_req _ _ _ L t' u).
    + apply L.
    + apply (tid_holder_same T S H t th); [done..|]. by rewrite Hc.
  - eapply locks_ext; [by intros t' c _|..|apply (locks_code T S H t th r); try done].
    + intros l sm' Hs'. exists sm'. by rewrite lookup_insert_ne.
    + rewrite Hpend, Hc. done.
    + by rewrite Hreq.
    + by rewrite Hc.
Qed.

Lemma sema_loop_inv K th s r :
  kplace K (Some (cur K)) → threads K !! cur K = Some th → code th = r → after_down s r →
  Forall (instr_ok (semas K) (holders K) (conds K)) (ISemaLoop s true :: r) →
  locks_ok (<[cur K := set_code (ISemaLoop s true :: r) th]> (threads K)) (semas K) (holders K) →
  in_external_intr K = false → intr_on K = false →
  ∃ K', sema_down_loop s true K = Ok (tt, K') ∧ Inv K' ∧ ticks K' = ticks K.
Proof.
  intros P Ht Hcode Had Hrefs L Hctx Hi. pose proof (current_place _ _ P Ht) as Hc.
  destruct (after_down_facts s r Had) as (Hoff & Hidle & _ & _).
  destruct (pl_thread P _ _ Ht) as [_ Hwf _ Hid _].
  pose proof Hrefs as [[sm Hs] Hr]%Forall_cons. unfold sema_down_loop.
  erewrite bind_ok by (by apply get_sema_ok). destruct (Z.eqb_spec (value sm) 0) as [Hz|Hnz].
  - (* the thread waits *)
    erewrite bind_ok by (by eapply thread_current_ok). erewrite bind_ok by reflexivity.
    erewrite bind_ok by (apply push_code_ok; exact Ht). simpl. rewrite Hcode.
    set (c' := ISemaLoop s true :: r). set (K1 := put_thread _ _ _).
    assert (kplace (put_thread (cur K) (set_code c' th) K) (Some (cur K))) as P1.
    { apply (place_code P _ _ Ht); [done|by split|done|by rewrite <-Hid, Hcode, Hidle|].
      intros n Hn. left. unfold c' in Hn. rewrite creates_cons in Hn by done. by rewrite Hcode. }
    assert (current K1 (set_code c' th)) as Hc1.
    { subst K1. destruct Hc as [_ ? ? ?]. split; simpl; try done. by rewrite lookup_insert_eq. }
    rewrite (thread_block_eq K1 _ Hc1 Hctx Hi). set (K2 := put_thread _ _ _).
    destruct (schedule_inv K2) as (K' & E & HI & Htk & _); try done.
    + unfold kplace. subst K2 K1. simpl.
      apply (place_to_wait P1 (cur K) (set_code c' th)); try done. simpl. by rewrite lookup_insert_eq.
    + unfold klocks. subst K2 K1. simpl. rewrite insert_insert_eq.
      eapply locks_ext; [| |exact L].
      * intros t c _. rewrite !code_of_insert. by case_decide.
      * intros l sm' Hl. destruct (decide (s = SLock l)) as [->|N].
        -- eexists. rewrite lookup_insert_eq. split; [done|]. simpl. congruence.
        -- exists sm'. by rewrite lookup_insert_ne.
    + subst K2 K1. simpl. rewrite lookup_insert_eq. eauto.
    + exists K'. rewrite E. done.
  - (* the thread goes on *)
    erewrite bind_ok by reflexivity. erewrite bind_ok by (apply intr_set_level_ok; by left).
    eexists. split; [reflexivity|]. split; [|done]. split; simpl; try done.
    + by apply (place_value P).
    + pose proof (locks_down _ _ _ (cur K) _ s sm r L (lookup_insert_eq _ _ _) eq_refl Had) as HL.
      rewrite insert_insert_eq in HL. simpl in HL.
      replace (<[cur K:=set_code r (set_code (ISemaLoop s true :: r) th)]> (threads K)) with (threads K) in HL.
      2: { symmetry. apply insert_id. rewrite Ht. f_equal. rewrite <-Hcode. by destruct th. }
      by apply HL.
    + intros u Hu. rewrite Ht in Hu. injection Hu as <-. by rewrite Hcode, Hoff.
Qed.

Lemma sema_down_inv K th s r :
  kplace K (Some (cur K)) → threads K !! cur K = Some th → code th = r → after_down s r →
  Forall (instr_ok (semas K) (holders K) (conds K)) (ISemaLoop s true :: r) →
  locks_ok (<[cur K := set_code (ISemaLoop s true :: r) th]> (threads K)) (semas K) (holders K) →
  in_external_intr K = false → intr_on K = true →
  ∃ K', sema_down s K = Ok (tt, K') ∧ Inv K' ∧ ticks K' = ticks K.
Proof.
  intros P Ht Hcode Had Hrefs L Hctx Hi. unfold sema_down.
  erewrite bind_ok by reflexivity. rewrite Hctx. erewrite bind_ok by reflexivity.
  erewrite bind_ok by reflexivity. rewrite Hi.
  by apply (sema_loop_inv (set_intr false K) th s r).
Qed.

Lemma thread_unblock_eq K t th :
  threads K !! t = Some th → t ≠ NULL → magic th = THREAD_MAGIC → status th = THREAD_BLOCKED →
  in_external_intr K = false ∨ intr_on K = false →
  thread_unblock t K = Ok (tt, put_thread t (set_status THREAD_READY th)
    (set_ready (ready_list K ++ [t]) K)).
Proof.
  intros Ht N M Hs Hi. unfold thread_unblock. erewrite bind_ok by (by eapply is_thread_ok).
  erewrite bind_ok by reflexivity. erewrite bind_ok by reflexivity.
  erewrite bind_ok by (by apply get_thread_ok). erewrite bind_ok.
  2: { apply assert_ok. by apply bool_decide_true. }
  erewrite bind_ok by reflexivity. erewrite bind_ok by (by apply upd_thread_ok).
  erewrite bind_ok by (by apply intr_set_level_ok). by destruct K.
Qed.

(** What [sema_up] does, except to locks. *)
Lemma sema_up_ok K th s sm :
  kplace K (Some (cur K)) → threads K !! cur K = Some th → semas K !! s = Some sm →
  in_external_intr K = false →
  ∃ K', sema_up s K = Ok (tt, K') ∧ kplace K' (Some (cur K)) ∧ same_code (threads K) (threads K') ∧
    semas K' = <[s := mk_sema (u32 (value sm + 1)) (List.tl (waiters sm))]> (semas K) ∧
    holders K' = holders K ∧ conds K' = conds K ∧ cur K' = cur K ∧ ticks K' = ticks K ∧
    in_external_intr K' = false ∧ intr_on K' = intr_on K ∧ threads K' !! cur K = Some th ∧
    idle_thread K' = idle_thread K.
Proof.
  intros P Ht Hs Hctx. unfold sema_up. erewrite bind_ok by reflexivity.
  erewrite bind_ok by (by apply get_sema_ok). destruct sm as [v [|t rest]]; simpl.
  - erewrite bind_ok by reflexivity. erewrite bind_ok by (by apply get_sema_ok).
    erewrite bind_ok by reflexivity. erewrite bind_ok by (apply intr_set_level_ok; by left).
    eexists. split; [reflexivity|]. split_and!; try done; simpl.
    by apply (place_value P s (mk_sema v [])).
  - assert (waits_on (threads K) s t) as (u & Hu & Hb & Hw).
    { apply (proj2 (pl_wait _ _ _ _ _ _ _ _ P s _ Hs)). left. }
    destruct (pl_thread P _ _ Hu) as [[M N] _ _ _ _].
    erewrite bind_ok; [|erewrite bind_ok by reflexivity; by apply (thread_unblock_eq _ t u); [..|left]].
    erewrite bind_ok by (apply get_sema_ok; simpl; by rewrite lookup_insert_eq).
    erewrite bind_ok by reflexivity. erewrite bind_ok by (apply intr_set_level_ok; by left).
    eexists. split; [reflexivity|]. simpl. split_and!; try done; simpl.
    + rewrite insert_insert_eq. eapply (place_wake_waiter P t u Hu s v (u32 (v + 1)) rest Hs).
    + by eapply (same_code_insert _ _ u).
    + by rewrite insert_insert_eq.
    + rewrite lookup_insert_ne; [done|]. intros ->. rewrite Ht in Hu. injection Hu as <-.
      assert (status th = THREAD_RUNNING) by (by apply (pl_run _ _ _ _ _ _ _ _ P _ _ Ht)). congruence.
Qed.

Lemma sema_up_inv K th a sm :
  Inv K → threads K !! cur K = Some th → semas K !! SSema a = Some sm →
  ∃ K', sema_up (SSema a) K = Ok (tt, K') ∧ Inv K' ∧ ticks K' = ticks K.
Proof.
  intros [P L Hctx Hlev] Ht Hs.
  destruct (sema_up_ok K th _ sm P Ht Hs Hctx)
    as (K' & E & P' & Hsc & ES & EH & EC & Ecur & Etk & Hctx' & Hi & Ht' & _).
  exists K'. split; [done|]. split; [|done]. split; try done.
  - by rewrite Ecur.
  - eapply locks_ext; [exact Hsc| |rewrite EH; exact L]. intros l sm' Hl. exists sm'.
    by rewrite ES, lookup_insert_ne.
  - intros u. rewrite Ecur, Ht'. intros [= <-]. rewrite Hi. by apply Hlev.
Qed.

(** ** Locks *)

Lemma lock_held_ok K th l h :
  current K th → holders K !! l = Some h →
  lock_held_by_current_thread l K = Ok (h =? cur K, K).
Proof.
  intros Hc Hh. unfold lock_held_by_current_thread, get_holder.
  erewrite bind_ok by (by rewrite Hh). by erewrite bind_ok by (by eapply thread_current_ok).
Qed.

Lemma lock_acquire_inv K th l c h :
  kplace K (Some (cur K)) → threads K !! cur K = Some th → code th = c → after_acq l c →
  is_Some (semas K !! SLock l) → Forall (instr_ok (semas K) (holders K) (conds K)) c →
  idle_code c = false →
  locks_ok (<[cur K := set_code (ISemaLoop (SLock l) true :: ISetHolder l :: c) th]> (threads K))
    (semas K) (holders K) →
  holders K !! l = Some h → h ≠ cur K →
  in_external_intr K = false → intr_on K = true →
  ∃ K', lock_acquire l K = Ok (tt, K') ∧ Inv K' ∧ ticks K' = ticks K.
Proof.
  intros P Ht Hcode Haa Hsm Hrefs Hidle L Hh Nh Hctx Hi. pose proof (current_place _ _ P Ht) as Hc.
  unfold lock_acquire. erewrite bind_ok by reflexivity. rewrite Hctx. erewrite bind_ok by reflexivity.
  erewrite bind_ok by (by eapply lock_held_ok). rewrite (proj2 (Z.eqb_neq _ _) Nh).
  erewrite bind_ok by reflexivity. erewrite bind_ok by (by apply push_code_ok). rewrite Hcode.
  destruct (pl_thread P _ _ Ht) as [_ _ _ Hid _].
  assert (Forall (instr_ok (semas K) (holders K) (conds K)) (ISetHolder l :: c)) as Hrefs'.
  { constructor; [simpl; by rewrite Hh|done]. }
  apply (sema_down_inv (put_thread (cur K) (set_code (ISetHolder l :: c) th) K)
    (set_code (ISetHolder l :: c) th) (SLock l) (ISetHolder l :: c)); simpl; try done.
  - apply (place_code P _ _ Ht); [done|done|done|by rewrite <-Hid, Hcode, Hidle|].
    intros n Hn. left. rewrite creates_cons in Hn by done. by rewrite Hcode.
  - by rewrite lookup_insert_eq.
  - eauto.
  - by constructor.
  - by rewrite insert_insert_eq.
Qed.

(** [c0] is the code the thread had when it called [lock_release]. *)
Lemma lock_release_inv K th l c c0 :
  kplace K (Some (cur K)) → threads K !! cur K = Some th → code th = c → after_rel l c →
  Forall (instr_ok (semas K) (holders K) (conds K)) c → idle_code c = false →
  locks_ok (<[cur K := set_code c0 th]> (threads K)) (semas K) (holders K) →
  pend c0 = None → (l ≠ tid_lock → req c0 ≠ Some tid_lock) →
  (∀ l', l' ≠ l → ILockAcquire l' ∈ c → holders K !! l' ≠ Some (cur K)) →
  holders K !! l = Some (cur K) →
  in_external_intr K = false → intr_on K = true →
  ∃ K', lock_release l K = Ok (tt, K') ∧ Inv K' ∧ ticks K' = ticks K.
Proof.
  intros P Ht Hcode Har Hrefs Hidle L Hp0 Hr0 Hacq Hh Hctx Hi. pose proof (current_place _ _ P Ht) as Hc.
  unfold lock_release. erewrite bind_ok by (by eapply lock_held_ok).
  rewrite Z.eqb_refl. erewrite bind_ok by reflexivity. erewrite bind_ok by reflexivity.
  rewrite (push_code_ok _ th) by done. rewrite Hcode. eexists. split; [reflexivity|]. split; [|done].
  destruct (pl_thread P _ _ Ht) as [_ _ _ Hid _]. destruct Hc as [_ _ Nc _].
  assert (kplace (put_thread (cur K) (set_code (IReleaseUp l :: c) th) K) (Some (cur K))) as P1.
  { apply (place_code P _ _ Ht); [done|done| |by rewrite <-Hid, Hcode, Hidle|].
    - constructor; [simpl; by rewrite Hh|done].
    - intros n Hn. left. rewrite creates_cons in Hn by done. by rewrite Hcode. }
  split; simpl; try done.
  - apply (place_holder P1).
  - set (T0 := <[cur K := set_code c0 th]> (threads K)) in *.
    replace (<[cur K := set_code (IReleaseUp l :: c) th]> (threads K)) with
      (<[cur K := set_code (IReleaseUp l :: c) th]> T0) by (subst T0; by rewrite insert_insert_eq).
    assert (∀ l', ¬ pends T0 l' (cur K)) as Hnp.
    { intros l'. subst T0. rewrite pends_insert, decide_True by done. simpl. by rewrite Hp0. }
    apply (locks_upd T0 (semas K) (holders K) _ _ _ _ l); try done.
    + intros l' N. split; [by rewrite lookup_insert_ne|done].
    + intros l' N. simpl. split; [by intros [= ->]|by intros ?%Hnp].
    + intros h. rewrite lookup_insert_eq. intros [= <-].
      destruct (lk_state _ _ _ L _ _ Hh) as (sm & Hsm & Hst). exists sm. split; [done|].
      destruct Hst as [(_ & E & _)|[(Ev & _ & Hno)|(_ & E & _)]]; [done| |done].
      right; right. split_and!; [done..|]. exists (cur K). intros t'. rewrite pends_insert.
      destruct (decide (t' = cur K)); [done|]. split; [by intros ?%Hno|done].
    + intros l' [E|Hl']%elem_of_cons; [done|]. destruct (decide (l' = l)) as [->|N].
      * rewrite lookup_insert_eq. intros [= E]. by symmetry in E.
      * rewrite lookup_insert_ne by done. by apply Hacq.
    + intros t' u N Hu Hr. apply (lk_req _ _ _ L t' u) in Hr; [|done]. congruence.
    + intros t' N [u Hu]. rewrite lookup_insert_eq. intros [= <-].
      unfold T0 in Hu. rewrite lookup_insert_ne in Hu by done. by destruct (pl_thread P _ _ Hu) as [[_ ?] _ _ _ _].
    + rewrite lookup_insert_is_Some'. right. apply L.
    + intros h. destruct (decide (l = tid_lock)) as [->|N].
      * rewrite lookup_insert_eq. intros [= <-]. by left.
      * rewrite lookup_insert_ne by done. 
        apply (tid_holder_same T0 _ _ (cur K) (set_code c0 th) _ L); [unfold T0; by rewrite lookup_insert_eq|].
        simpl. intros E. by destruct (Hr0 N).
  - intros u. rewrite lookup_insert_eq. by intros [= <-].
Qed.

(** ** Going on with the code of the running thread *)

Definition is_idle_instr (i : instr) : bool :=
  match i with IIdleHlt | IIdleBlock | ILinkThread _ _ _ => true | _ => false end.

Lemma wfc_idle_tail i r : wfc (i :: r) → is_idle_instr i = false → idle_code r = idle_code (i :: r).
Proof.
  destruct i as [| | |[] |[] | | | | | | | | | | | |]; simpl; try done; intros H _;
    repeat match goal with
    | H : _ ∧ _ |- _ => destruct H
    | H : ∃ _, _ |- _ => destruct H
    | H : _ ∨ _ |- _ => destruct H
    | H : after_acq _ _ |- _ => unfold after_acq in H
    | H : after_rel _ _ |- _ => unfold after_rel in H
    end; subst; simpl; done.
Qed.

Lemma creates_tail i r n : is_link i = false → creates r = Some n → creates (i :: r) = Some n.
Proof. intros E. unfold creates. simpl. rewrite E. simpl. destruct (existsb is_link r); [done|]. by destruct r. Qed.

Section pop.
Context (K : kernel) (th : thread) (i : instr) (r : list instr).
Hypothesis HI : Inv K.
Hypothesis Ht : threads K !! cur K = Some th.
Hypothesis Hcode : code th = i :: r.

Definition popped : kernel := put_thread (cur K) (set_code r th) K.

Lemma pop_wfc : wfc (i :: r) ∧ Forall (instr_ok (semas K) (holders K) (conds K)) (i :: r).
Proof. destruct (pl_thread (inv_place _ HI) _ _ Ht) as [_ ? ? _ _]. by rewrite <-Hcode. Qed.

Lemma pop_idle : idle_code (i :: r) = bool_decide (cur K = idle_thread K).
Proof. destruct (pl_thread (inv_place _ HI) _ _ Ht) as [_ _ _ ? _]. by rewrite <-Hcode. Qed.

Lemma pop_place : is_idle_instr i = false → kplace popped (Some (cur K)).
Proof.
  intros Hi. destruct pop_wfc as [Hw Hr]. apply (place_code (inv_place _ HI) _ _ Ht); try done.
  - by eapply wfc_tail.
  - by apply Forall_cons in Hr as [_ ?].
  - rewrite <-pop_idle. by apply wfc_idle_tail.
  - intros n Hn. left. rewrite Hcode. apply creates_tail; [by destruct i|done].
Qed.

Lemma pop_lookup : threads popped !! cur K = Some (set_code r th).
Proof. simpl. by rewrite lookup_insert_eq. Qed.

Lemma pop_level : intr_on K = negb (off_head (i :: r)).
Proof. rewrite <-Hcode. by apply (inv_level _ HI). Qed.

(** The locks, when the code of the thread becomes [c]. *)
Lemma pop_locks c :
  pend c = pend (i :: r) → (∀ l, req c = Some l → holders K !! l = Some (cur K)) →
  (∀ l, ILockAcquire l ∈ c → ILockAcquire l ∈ i :: r ∨ holders K !! l ≠ Some (cur K)) →
  (req (i :: r) = Some tid_lock → req c = Some tid_lock) →
  locks_ok (<[cur K := set_code c th]> (threads K)) (semas K) (holders K).
Proof.
  intros Hp Hr Ha Htid. apply (locks_code _ _ _ _ th); try done; try by rewrite Hcode.
  - apply (inv_locks _ HI).
  - intros l [Hl|Hl]%Ha; [|done]. apply (lk_acq _ _ _ (inv_locks _ HI) _ th); [done|]. by rewrite Hcode.
Qed.

(** Code that only restores the interrupt level. *)
Lemma pop_simple b :
  is_idle_instr i = false → pend r = pend (i :: r) →
  (∀ l, req r = Some l → holders K !! l = Some (cur K)) →
  (req (i :: r) = Some tid_lock → req r = Some tid_lock) → b = negb (off_head r) →
  Inv (set_intr b popped).
Proof.
  intros Hi Hp Hr Htid Hb. pose proof (pop_place Hi) as P. split; simpl; try done.
  - apply pop_locks; [done..| |done]. intros l Hl. left. by right.
  - apply (inv_context _ HI).
  - intros u. rewrite lookup_insert_eq. by intros [= <-].
Qed.

Lemma pop_set_holder l :
  i = ISetHolder l → ∃ K', lock_set_holder l popped = Ok (tt, K') ∧ Inv K' ∧ ticks K' = ticks K.
Proof.
  intros Ei. destruct pop_wfc as [Hw Hrefs]. rewrite Ei in Hw, Hrefs. simpl in Hw.
  pose proof Hcode as Hcode'. rewrite Ei in Hcode'. pose proof pop_level as Hlev. rewrite Ei in Hlev.
  pose proof (pop_place ltac:(by rewrite Ei)) as P. pose proof (current_place popped _ P pop_lookup) as Hc.
  unfold lock_set_holder. erewrite bind_ok by (by eapply thread_current_ok).
  eexists. split; [reflexivity|]. split; [|done]. apply Forall_cons in Hrefs as [[h Hh] Hrefs].
  pose proof (inv_locks _ HI) as L. pose proof L as [Ls Lr La Lt _]. destruct (Ls l h Hh) as (sm & Hsm & Hst).
  assert (pends (threads K) l (cur K)) as Hpe by (exists th; by rewrite Hcode').
  destruct Hst as [(_ & _ & Hno)|[(_ & _ & Hno)|(Ev & -> & t0 & Hu)]]; [by destruct (Hno (cur K))..|].
  assert (t0 = cur K) as -> by (symmetry; by apply Hu).
  destruct Hc as [_ _ Nc _].
  split; simpl; try done.
  - apply (place_holder P).
  - assert (pend r = None ∧ (∀ l', req r = Some l' → l' = l) ∧ (∀ l', ILockAcquire l' ∉ r)) as (Ep & Er & Ea).
    { destruct Hw as [[_ ->]|(-> & n & ->)]; split_and!; try done.
      - intros l' ?%elem_of_nil. done.
      - by intros l' [= ->].
      - intros l'. rewrite !elem_of_cons, elem_of_nil. naive_solver. }
    apply (locks_upd (threads K) (semas K) (holders K) _ _ _ _ l); simpl; try done.
    + intros l' N. split; [by rewrite lookup_insert_ne|done].
    + intros l' N. rewrite Ep. split; [done|]. intros (u & Hu' & Hp). rewrite Ht in Hu'.
      injection Hu' as <-. rewrite Hcode' in Hp. by injection Hp as ->.
    + intros h. rewrite lookup_insert_eq. intros [= <-]. exists sm. split; [done|]. right; left.
      split_and!; [done..|]. intros t'. rewrite pends_insert. destruct (decide (t' = cur K)).
      * simpl. by rewrite Ep.
      * by intros ?%Hu.
    + intros l' ->%Er. by rewrite lookup_insert_eq.
    + intros l' ?%Ea. done.
    + intros t' u N Hu' Hr. apply (Lr t' u) in Hr; [|done]. rewrite Hh in Hr. injection Hr as <-.
      by destruct (pl_thread (inv_place _ HI) _ _ Hu') as [[_ ?] _ _ _ _].
    + intros t' N _. rewrite lookup_insert_eq. by intros [= ?].
    + rewrite lookup_insert_is_Some'. by right.
    + intros h. destruct (decide (l = tid_lock)) as [El|N].
      * rewrite El, lookup_insert_eq. intros [= <-]. right; left. split; [done|].
        by destruct Hw as [[? _]|(_ & n & ->)].
      * rewrite lookup_insert_ne by done. apply (tid_holder_same _ _ _ (cur K) th (set_code r th) L Ht). by rewrite Hcode'.
  - apply (inv_context _ HI).
  - intros u. rewrite lookup_insert_eq. intros [= <-]. simpl. rewrite Hlev. simpl.
    by destruct Hw as [[_ ->]|(_ & n & ->)].
Qed.

Lemma pop_release_up l :
  i = IReleaseUp l → ∃ K', sema_up (SLock l) popped = Ok (tt, K') ∧ Inv K' ∧ ticks K' = ticks K.
Proof.
  intros Ei. destruct pop_wfc as [Hw Hrefs]. rewrite Ei in Hw, Hrefs. simpl in Hw.
  pose proof Hcode as Hcode'. rewrite Ei in Hcode'. pose proof pop_level as Hlev. rewrite Ei in Hlev.
  pose proof (pop_place ltac:(by rewrite Ei)) as P. apply Forall_cons in Hrefs as [[h Hh] Hrefs].
  pose proof (inv_locks _ HI) as L. destruct (lk_state _ _ _ L l h Hh) as (sm & Hsm & Hst).
  assert (pends (threads K) l (cur K)) as Hpe by (exists th; by rewrite Hcode').
  destruct Hst as [(_ & _ & Hno)|[(_ & _ & Hno)|(Ev & -> & t0 & Hu)]]; [by destruct (Hno (cur K))..|].
  assert (t0 = cur K) as -> by (symmetry; by apply Hu).
  destruct (sema_up_ok popped _ _ sm P pop_lookup Hsm (inv_context _ HI))
    as (K' & E & P' & Hsc & ES & EH & EC & Ecur & Etk & Hctx' & Hi & Ht' & _).
  exists K'. split; [done|]. split; [|done].
  assert (pend r = None ∧ req r = None ∧ off_head r = false) as (Ep & Er & Eo).
  { destruct Hw as [->|[(_ & w & ->)|(_ & n & ->)]]; done. }
  split; try done.
  - by rewrite Ecur.
  - unfold klocks. rewrite ES, EH. eapply locks_ext; [exact Hsc|eauto|].
    apply (locks_upd (threads K) (semas K) (holders K) _ _ _ _ l); simpl; try done.
    + intros l' N. split; [done|]. intros _. rewrite lookup_insert_ne; [done|]. by intros [= ->].
    + intros l' N. rewrite Ep. split; [done|]. intros (u & Hu' & Hp). rewrite Ht in Hu'.
      injection Hu' as <-. rewrite Hcode' in Hp. by injection Hp as ->.
    + intros h Hh'. eexists. rewrite lookup_insert_eq. split; [done|]. simpl. rewrite Ev.
      rewrite Hh in Hh'. injection Hh' as <-. left. split_and!; [done..|].
      intros t'. rewrite pends_insert. destruct (decide (t' = cur K)).
      * simpl. by rewrite Ep.
      * by intros ?%Hu.
    + by rewrite Er.
    + intros l' Hl'. apply (lk_acq _ _ _ L _ th); [done|]. rewrite Hcode'. by right.
    + intros t' u N Hu' Hr. by apply (lk_req _ _ _ L t' u).
    + apply L.
    + apply (tid_holder_same _ _ _ (cur K) th (set_code r th) L Ht). by rewrite Hcode'.
  - intros u. rewrite Ecur. simpl. simpl in Ht'. rewrite Ht'. intros [= <-]. rewrite Hi. simpl.
    by rewrite Hlev, Eo.
Qed.

(** [allocate_tid] stores the tid in the thread that is being created. *)
Lemma pop_allocate_tid n :
  i = ITidRelease n → ∃ K', allocate_tid n popped = Ok (tt, K') ∧ Inv K' ∧ ticks K' = ticks K.
Proof.
  intros Ei. destruct pop_wfc as [Hw Hrefs]. rewrite Ei in Hw, Hrefs. simpl in Hw.
  pose proof Hcode as Hcode'. rewrite Ei in Hcode'. pose proof pop_level as Hlev. rewrite Ei in Hlev.
  pose proof (pop_place ltac:(by rewrite Ei)) as P. pose proof (inv_locks _ HI) as L.
  destruct (pl_creates _ _ _ _ _ _ _ _ (inv_place _ HI) _ _ n Ht) as (u & Hu & Hb & Hcu);
    [by rewrite Hcode', Hw|].
  assert (n ≠ cur K) as Nn.
  { intros ->. rewrite Ht in Hu. injection Hu as <-. congruence. }
  unfold allocate_tid. erewrite bind_ok by apply get_ok. erewrite bind_ok by reflexivity.
  erewrite bind_ok by (apply upd_thread_ok; simpl; by rewrite lookup_insert_ne).
  set (K1 := put_thread n _ _).
  apply (lock_release_inv K1 (set_code r th) tid_lock r (i :: r)); try done.
  - subst K1. apply (place_same P n u); simpl; try done.
    + by rewrite lookup_insert_ne.
    + destruct (pl_thread (inv_place _ HI) _ _ Hu) as [? ? ? ? ?]. by split.
    + by left.
    + left. by rewrite Hb, Hcu.
  - subst K1. simpl. rewrite lookup_insert_ne by done. by rewrite lookup_insert_eq.
  - right; right. split; [done|]. by exists n.
  - by apply Forall_cons in Hrefs as [_ ?].
  - by rewrite Hw.
  - subst K1. simpl. rewrite insert_insert_ne, insert_insert_eq by done.
    eapply locks_ext; [| |apply (pop_locks (i :: r))]; [|eauto|done| |by left|done].
    + by eapply (same_code_insert _ _ u); [rewrite lookup_insert_ne|].
    + intros l Hl. apply (lk_req _ _ _ L _ th); [done|]. by rewrite Hcode.
  - by rewrite Ei.
  - intros l' _. rewrite Hw, list_elem_of_singleton. done.
  - simpl. apply (lk_req _ _ _ L _ th); [done|]. by rewrite Hcode'.
  - apply (inv_context _ HI).
Qed.

(** [thread_create], when the thread is ready to be unblocked. *)
Lemma pop_create_rest n :
  i = ICreateRest n FOther →
  ∃ K', thread_create_rest n FOther popped = Ok (tt, K') ∧ Inv K' ∧ ticks K' = ticks K.
Proof.
  intros Ei. destruct pop_wfc as [Hw _]. rewrite Ei in Hw. destruct Hw as [_ Hr].
  pose proof Hcode as Hcode'. rewrite Ei, Hr in Hcode'. pose proof pop_level as Hlev.
  rewrite Ei, Hr in Hlev. simpl in Hlev.
  pose proof (pop_place ltac:(by rewrite Ei)) as P. pose proof (inv_locks _ HI) as L.
  destruct (pl_creates _ _ _ _ _ _ _ _ (inv_place _ HI) _ _ n Ht) as (u & Hu & Hb & Hcu);
    [by rewrite Hcode'|].
  assert (n ≠ cur K) as Nn.
  { intros ->. rewrite Ht in Hu. injection Hu as <-. congruence. }
  destruct (pl_thread (inv_place _ HI) _ _ Hu) as [[M N0] _ _ Hid Hs].
  assert (threads popped !! n = Some u) as Hu1 by (simpl; by rewrite lookup_insert_ne).
  assert (wakeup_time u = 0) as Hw0.
  { rewrite Hb, Hcu in Hs. by destruct Hs as [[? _]|[_ ?]]. }
  assert (n ≠ idle_thread K) as Nidle.
  { intros E. rewrite Hcu, bool_decide_true in Hid by done. done. }
  unfold thread_create_rest. erewrite bind_ok by reflexivity. unfold alloc_frame.
  do 3 (erewrite bind_ok; [|erewrite bind_ok by (eapply is_thread_ok; [first [exact Hu1|simpl; by rewrite lookup_insert_eq]|done|done]);
    do 2 erewrite bind_ok by reflexivity; apply upd_thread_ok; first [exact Hu1|simpl; by rewrite lookup_insert_eq]]).
  erewrite bind_ok by (apply upd_thread_ok; simpl; by rewrite lookup_insert_eq).
  erewrite bind_ok by (apply intr_set_level_ok; left; apply (inv_context _ HI)).
  erewrite thread_unblock_eq; [|simpl; by rewrite lookup_insert_eq|done|done|done|left; apply (inv_context _ HI)].
  eexists. split; [reflexivity|]. split; [|done].
  set (u' := set_stack (stack u - 12 - 4 - 28) u).
  assert (uncreated (threads popped) n) as Hun.
  { intros t2 u2 H2 Hc2. simpl in H2. destruct (decide (t2 = cur K)) as [->|N2].
    - rewrite lookup_insert_eq in H2. injection H2 as <-. simpl in Hc2. by rewrite Hr in Hc2.
    - rewrite lookup_insert_ne in H2 by done. apply N2.
      eapply (pl_creator _ _ _ _ _ _ _ _ (inv_place _ HI)); [exact H2|exact Ht|exact Hc2|by rewrite Hcode']. }
  assert (kplace (put_thread n u' popped) (Some (cur K))) as P1.
  { apply (place_same P n u); try done.
    - destruct (pl_thread P _ _ Hu1) as [? ? ? ? ?]. by split.
    - by left.
    - by right. }
  assert (threads (put_thread n u' popped) !! n = Some u') as Hu2 by (simpl; by rewrite lookup_insert_eq).
  assert (uncreated (threads (put_thread n u' popped)) n) as Hun1.
  { intros t2 u2 H2. simpl in H2. destruct (decide (t2 = n)) as [->|N2].
    - rewrite lookup_insert_eq in H2. injection H2 as <-. simpl. by rewrite Hcu.
    - rewrite lookup_insert_ne in H2 by done. by apply (Hun t2). }
  pose proof (place_wake P1 n u' Hu2 [IKernelThread] Hb ltac:(simpl; by rewrite Hcu) Nidle Hun1
    eq_refl eq_refl eq_refl ltac:(repeat constructor) eq_refl eq_refl) as P2.
  split; simpl in *; try done.
  - rewrite !insert_insert_eq in *. unfold set_wakeup, set_code, u' in P2. simpl in P2.
    rewrite <-Hw0 in P2. simpl. rewrite <-!Z.sub_add_distr in *. exact P2.
  - rewrite !insert_insert_eq. eapply (locks_upd _ _ _ _ _ _ _ tid_lock).
    + apply (pop_locks r); [by rewrite Ei, Hr|by rewrite Hr| |by rewrite Ei, Hr].
      rewrite Hr. intros l ?%elem_of_nil. done.
    + done.
    + intros l _. simpl. split; [done|]. intros (u2 & H2 & Hp). rewrite Hu1 in H2. injection H2 as <-.
      by rewrite Hcu in Hp.
    + intros h Hh. destruct (lk_state _ _ _ L _ _ Hh) as (sm & Hsm & Hst). exists sm. split; [done|].
      eapply lock_state_ext; [|done]. intros t'. rewrite pends_insert.
      destruct (decide (t' = n)) as [->|N1].
      * simpl. split; [done|]. intros (u2 & H2 & Hp). rewrite Hu in H2. injection H2 as <-. by rewrite Hcu in Hp.
      * rewrite pends_insert. destruct (decide (t' = cur K)) as [->|N2]; [|done]. simpl. rewrite Hr.
        split; [done|]. intros (u2 & H2 & Hp). rewrite Ht in H2. injection H2 as <-. by rewrite Hcode' in Hp.
    + done.
    + intros l. simpl. rewrite list_elem_of_singleton. done.
    + intros t' u2 N1 H2 Hreq. destruct (decide (t' = cur K)) as [->|N2].
      * rewrite lookup_insert_eq in H2. injection H2 as <-. simpl in Hreq. by rewrite Hr in Hreq.
      * rewrite lookup_insert_ne in H2 by done. by apply (lk_req _ _ _ L t' u2).
    + done.
    + apply L.
    + intros h Hh. destruct (lk_tid_holder _ _ _ L h Hh) as [?|(u2 & H2 & Hr2)]; [by left|].
      right; right. split; [|done]. intros ->. rewrite Hu in H2. injection H2 as <-. by rewrite Hcu in Hr2.
  - apply (inv_context _ HI).
  - intros u2. rewrite !insert_insert_eq, lookup_insert_ne, lookup_insert_eq by done. intros [= <-].
    simpl. by rewrite Hr, Hlev.
Qed.

(** [init_thread] goes on when the list element is linked. *)
Lemma pop_link n nm prio :
  i = ILinkThread n nm prio → threads K !! n = None →
  ∃ K', link_thread n nm prio popped = Ok (tt, K') ∧ Inv K' ∧ ticks K' = ticks K.
Proof.
  intros Ei Hn. destruct pop_wfc as [Hw Hrefs]. rewrite Ei in Hw, Hrefs. destruct Hw as [Nn Hr].
  pose proof pop_level as Hlev. pose proof pop_idle as Hid. rewrite Ei in Hlev, Hid. simpl in Hlev. unfold idle_code in Hid. simpl in Hid.
  pose proof (inv_locks _ HI) as L. apply Forall_cons in Hrefs as [_ Hrefs].
  unfold link_thread. erewrite bind_ok by reflexivity. eexists. split; [reflexivity|]. split; [|done].
  set (u := mk_thread _ _ _ _ _ _ _ _). assert (n ≠ cur K) as Nc by congruence.
  pose proof (place_new (inv_place _ HI) n u Hn Nn eq_refl eq_refl eq_refl eq_refl) as P1.
  assert (<[n := u]> (threads K) !! cur K = Some th) as Ht1 by (by rewrite lookup_insert_ne).
  split; simpl; try done.
  - rewrite insert_insert_ne by done. apply (place_code P1 _ _ Ht1 r); try done.
    + by rewrite Hr; right; split; [|exists n].
    + by rewrite <-Hid, Hr.
    + intros k Hk. rewrite Hr in Hk. injection Hk as <-. right. split_and!; [done| |exists u; by rewrite lookup_insert_eq].
      intros t2 u2 H2 Hcr. destruct (decide (t2 = n)) as [->|N2].
      * rewrite lookup_insert_eq in H2. by injection H2 as <-.
      * rewrite lookup_insert_ne in H2 by done.
        destruct (pl_creates _ _ _ _ _ _ _ _ (inv_place _ HI) _ _ _ H2 Hcr) as (v & Hv & _). congruence.
  - eapply locks_ext; [|eauto|apply (pop_locks r); rewrite ?Ei, ?Hr; try done].
    + apply same_code_none; [done|]. intros v Hv. rewrite lookup_insert_ne in Hv by done. congruence.
    + intros l Hl. left. by right.
  - apply (inv_context _ HI).
  - intros v. rewrite lookup_insert_ne, lookup_insert_eq by done. intros [= <-]. simpl. by rewrite Hr, Hlev.
Qed.

End pop.

(** ** Blocking outside of a semaphore *)

Lemma put_put_thread t th1 th2 K : put_thread t th2 (put_thread t th1 K) = put_thread t th2 K.
Proof. unfold put_thread, set_threads. simpl. by rewrite insert_insert_eq. Qed.

Lemma block_inv K th c w :
  kplace K (Some (cur K)) → threads K !! cur K = Some th → wfc c →
  Forall (instr_ok (semas K) (holders K) (conds K)) c → idle_code c = bool_decide (cur K = idle_thread K) →
  creates c = None → waits c = None → blocked_ok c w →
  locks_ok (<[cur K := set_code c th]> (threads K)) (semas K) (holders K) →
  in_external_intr K = false → intr_on K = false →
  ∃ K', schedule (put_thread (cur K) (set_status THREAD_BLOCKED (set_wakeup w (set_code c th))) K)
      = Ok (tt, K') ∧ Inv K' ∧ ticks K' = ticks K.
Proof.
  intros P Ht Hwf Hrefs Hid Hcr Hwt Hb L Hctx Hi.
  assert (kplace (put_thread (cur K) (set_code c th) K) (Some (cur K))) as P1.
  { apply (place_code P _ _ Ht); try done. intros n. by rewrite Hcr. }
  assert (threads (put_thread (cur K) (set_code c th) K) !! cur K = Some (set_code c th)) as Ht1
    by (simpl; by rewrite lookup_insert_eq).
  destruct (schedule_inv (put_thread (cur K) (set_status THREAD_BLOCKED (set_wakeup w (set_code c th))) K))
    as (K' & E & HI & Htk & _); try done.
  - pose proof (place_to_blocked P1 (cur K) _ Ht1 w eq_refl Hwt Hb) as P2. simpl in P2.
    by rewrite insert_insert_eq in P2.
  - unfold klocks. simpl. eapply locks_ext; [|eauto|exact L]. intros t c0 _.
    rewrite !code_of_insert. by destruct (decide (t = cur K)).
  - simpl. rewrite lookup_insert_eq. eauto.
  - by exists K'.
Qed.

Lemma idle_block_inv K th :
  Inv K → threads K !! cur K = Some th → code th = [IIdleBlock] →
  ∃ K', idle_block (popped K th []) = Ok (tt, K') ∧ Inv K' ∧ ticks K' = ticks K.
Proof.
  intros HI Ht Hcode. pose proof (inv_place _ HI) as P. pose proof (pop_idle K th _ _ HI Ht Hcode) as Hid.
  pose proof (current_place _ _ P Ht) as Hc. unfold idle_block. erewrite bind_ok by reflexivity.
  erewrite bind_ok by (apply push_code_ok; simpl; by rewrite lookup_insert_eq).
  erewrite (thread_block_eq _ (set_code [IIdleHlt] th)); [| |apply (inv_context _ HI)|done].
  2: { destruct Hc as [_ ? ? ?]. split; simpl; try done. by rewrite lookup_insert_eq. }
  simpl. destruct (run_fresh P _ _ Ht eq_refl) as (_ & _ & _ & _ & _ & Hw0).
  destruct (block_inv (set_intr false K) th [IIdleHlt] 0) as (K' & E & HI' & Htk); try done.
  - by constructor.
  - left. split; [done|]. by right; left.
  - apply (pop_locks K th _ _ HI Ht Hcode); try done. intros l. rewrite list_elem_of_singleton. done.
  - apply (inv_context _ HI).
  - exists K'. split; [|done]. rewrite <-E. f_equal. unfold popped, put_thread, set_threads. simpl.
    rewrite !insert_insert_eq. unfold set_wakeup. simpl. by rewrite <-Hw0.
Qed.

Lemma idle_hlt_inv K th :
  Inv K → threads K !! cur K = Some th → code th = [IIdleHlt] →
  ∃ K', idle_hlt (popped K th []) = Ok (tt, K') ∧ Inv K' ∧ ticks K' = ticks K.
Proof.
  intros HI Ht Hcode. pose proof (inv_place _ HI) as P. pose proof (pop_idle K th _ _ HI Ht Hcode) as Hid.
  unfold idle_hlt. erewrite bind_ok by (apply push_code_ok; simpl; by rewrite lookup_insert_eq).
  eexists. split; [reflexivity|]. split; [|done]. unfold popped. rewrite put_put_thread.
  split; simpl; try done.
  - apply (place_code P _ _ Ht); try done. by constructor.
  - apply (pop_locks K th _ _ HI Ht Hcode); try done. intros l. rewrite list_elem_of_singleton. done.
  - apply (inv_context _ HI).
  - intros u. rewrite lookup_insert_eq. by intros [= <-].
Qed.

(** ** Condition variables *)

Lemma cond_signal_inv K th c l ws :
  Inv K → threads K !! cur K = Some th → conds K !! c = Some ws →
  holders K !! l = Some (cur K) →
  ∃ K', cond_signal c l K = Ok (tt, K') ∧ Inv K' ∧ ticks K' = ticks K.
Proof.
  intros HI Ht Hws Hh. pose proof HI as [P L Hctx Hlev]. pose proof (current_place _ _ P Ht) as Hc.
  unfold cond_signal. erewrite bind_ok by reflexivity. rewrite Hctx. erewrite bind_ok by reflexivity.
  erewrite bind_ok by (by eapply lock_held_ok). rewrite Z.eqb_refl. erewrite bind_ok by reflexivity.
  erewrite bind_ok by (unfold get_cond; by rewrite Hws).
  destruct ws as [|w rest]; [by exists K|]. erewrite bind_ok by reflexivity.
  destruct (pl_conds _ _ _ _ _ _ _ _ P c _ w Hws) as [sm Hsm]; [left|].
  apply (sema_up_inv (set_conds (<[c := rest]> (conds K)) K) th w sm); try done.
  split; simpl; try done. apply (place_cond P). intros w' Hw'.
  eapply (pl_conds _ _ _ _ _ _ _ _ P); [done|by right].
Qed.

Lemma pop_broadcast K th c l :
  Inv K → threads K !! cur K = Some th → code th = [ICondBroadcast c l] →
  ∃ K', cond_broadcast c l (popped K th []) = Ok (tt, K') ∧ Inv K' ∧ ticks K' = ticks K.
Proof.
  intros HI Ht Hcode. destruct (pop_wfc K th _ _ HI Ht Hcode) as [[Nl _] [[[ws Hws] _] _]%Forall_cons].
  pose proof (pop_level K th _ _ HI Ht Hcode) as Hlev. simpl in Hlev.
  assert (holders K !! l = Some (cur K)) as Hh.
  { apply (lk_req _ _ _ (inv_locks _ HI) _ th); [done|]. by rewrite Hcode. }
  unfold cond_broadcast. erewrite bind_ok by (unfold get_cond; simpl; by rewrite Hws).
  destruct ws as [|w rest] eqn:Ews.
  - eexists. split; [reflexivity|]. split; [|done].
    pose proof (pop_simple K th _ _ HI Ht Hcode true eq_refl eq_refl ltac:(done)
      ltac:(intros [= E]; by destruct Nl) eq_refl) as HI'.
    by rewrite set_intr_id in HI'.
  - erewrite bind_ok by (apply push_code_ok; simpl; by rewrite lookup_insert_eq).
    assert (put_thread (cur (popped K th []))
      (set_code ([ICondBroadcast c l] ++ code (set_code [] th)) (set_code [] th)) (popped K th []) = K) as ->.
    { unfold popped. simpl. rewrite put_put_thread. unfold put_thread. rewrite insert_id.
      - by destruct K.
      - rewrite Ht. f_equal. unfold set_code. simpl. rewrite <-Hcode. by destruct th. }
    by eapply cond_signal_inv.
Qed.

(** ** One step of the running thread *)

Lemma pop_eq K th i r :
  threads K !! cur K = Some th → code th = i :: r →
  exec_event EvRun K = exec_instr i (popped K th r).
Proof.
  intros Ht Hcode. unfold exec_event. erewrite bind_ok by apply get_ok.
  erewrite bind_ok by (by apply get_thread_ok). rewrite Hcode.
  by erewrite bind_ok by (by apply upd_thread_ok).
Qed.

(** The locks while the thread is in [sema_down]. *)
Lemma pop_locks_loop K th i r s :
  Inv K → threads K !! cur K = Some th → code th = i :: r →
  pend (i :: r) = None → req (i :: r) = None →
  locks_ok (<[cur K := set_code (ISemaLoop s true :: r) (set_code r th)]> (threads (popped K th r)))
    (semas K) (holders K).
Proof.
  intros HI Ht Hcode Hp Hr. simpl. rewrite insert_insert_eq.
  apply (pop_locks K th _ _ HI Ht Hcode); [done|done| |by rewrite Hr].
  intros l [?|?]%elem_of_cons; [done|]. left. by right.
Qed.

Lemma run_inv K th i r :
  Inv K → threads K !! cur K = Some th → code th = i :: r →
  (∀ n nm prio, i = ILinkThread n nm prio → threads K !! n = None) →
  ∃ K', exec_event EvRun K = Ok (tt, K') ∧ Inv K' ∧ ticks K' = ticks K.
Proof.
  intros HI Ht Hcode Hnew. rewrite (pop_eq K th i r) by done.
  destruct (pop_wfc K th i r HI Ht Hcode) as [Hw Hrefs].
  pose proof (pop_level K th i r HI Ht Hcode) as Hlev.
  pose proof (pop_lookup K th r) as Ht1. pose proof (inv_context _ HI) as Hctx.
  assert (∀ l, req (i :: r) = Some l → holders K !! l = Some (cur K)) as Hreq.
  { intros l Hl. apply (lk_req _ _ _ (inv_locks _ HI) _ th); [done|]. by rewrite Hcode. }
  destruct i; simpl exec_instr.
  - erewrite bind_ok by (apply intr_set_level_ok; by left). eexists. split; [reflexivity|]. split; [|done].
    apply (pop_simple K th _ _ HI Ht Hcode); try done. destruct Hw as [Hw _].
    destruct old_level; [by rewrite Hw|]. by destruct Hw as [r' ->].
  - eexists. split; [reflexivity|]. split; [|done]. apply (pop_simple K th _ _ HI Ht Hcode); try done.
    by rewrite (proj1 Hw).
  - destruct Hw as [-> ->]. erewrite bind_ok by (apply intr_set_level_ok; by left).
    eexists. split; [reflexivity|]. split; [|done]. by apply (pop_simple K th _ _ HI Ht Hcode).
  - apply (sema_down_inv (popped K th r) (set_code r th) s r); try done.
    + by apply (pop_place K th _ _ HI Ht Hcode).
    + apply Forall_cons in Hrefs as [??]. by constructor.
    + by apply (pop_locks_loop K th _ _ _ HI Ht Hcode).
  - destruct Hw as [-> Had]. apply (sema_loop_inv (popped K th r) (set_code r th) s r); try done.
    + by apply (pop_place K th _ _ HI Ht Hcode).
    + by apply (pop_locks_loop K th _ _ _ HI Ht Hcode).
  - simpl in Hw. apply Forall_cons in Hrefs as [[h Hh] Hrefs].
    destruct (lk_state _ _ _ (inv_locks _ HI) l h Hh) as (sm & Hsm & _).
    assert (h ≠ cur K) as Nh.
    { intros ->. eapply (lk_acq _ _ _ (inv_locks _ HI)); [exact Ht|rewrite Hcode; left|exact Hh]. }
    apply (lock_acquire_inv (popped K th r) (set_code r th) l r h); try done.
    + by apply (pop_place K th _ _ HI Ht Hcode).
    + by destruct Hw as [[_ ->]|(_ & n & ->)].
    + simpl. rewrite insert_insert_eq. apply (pop_locks K th _ _ HI Ht Hcode); try done.
      intros l' [?|[?|?]%elem_of_cons]%elem_of_cons; [done..|]. left. by right.
  - by apply (pop_set_holder K th _ _ HI Ht Hcode).
  - by apply (pop_release_up K th _ _ HI Ht Hcode).
  - destruct Hw as [_ ->]. by apply pop_broadcast.
  - by apply (pop_allocate_tid K th _ _ HI Ht Hcode).
  - destruct Hw as [-> _]. by apply (pop_create_rest K th _ _ HI Ht Hcode).
  - simpl in Hw. subst r. unfold intr_enable. erewrite bind_ok; [|apply (intr_set_level_ok _ true); by left].
    eexists. split; [reflexivity|]. split; [|done]. by apply (pop_simple K th _ _ HI Ht Hcode).
  - done.
  - done.
  - simpl in Hw. subst r. by apply idle_hlt_inv.
  - simpl in Hw. subst r. by apply idle_block_inv.
  - apply (pop_link K th _ _ HI Ht Hcode _ nm prio); [done|by eapply Hnew].
Qed.
