(* ===== verification/ThreadsCalls.v ===== *)
(** * Calls of the kernel functions and timer interrupts

    The calls a thread makes and the timer interrupt preserve the invariant of
    the thread machine; [allowed] states what synch.h and thread.h ask of the
    callers. *)

From S2P Require Import Prelude Threads ThreadsInv ThreadsStep.

(** What the caller of each function has to respect: objects are initialized
    once and before they are used, a lock is released by its holder and not
    acquired twice, a page from the allocator is not in use, priorities are in
    range and a wake-up time can be represented. *)
Definition call_ok (K : kernel) (c : call) : Prop :=
  match c with
  | CYield | CExit | CSetPriority _ => True
  | CSleep n => 0 ≤ ticks K ∧ ticks K + n < 2 ^ 63
  | CCreate page _ prio => page = NULL ∨ (threads K !! page = None ∧ PRI_MIN ≤ prio ≤ PRI_MAX)
  | CSemaInit a _ => semas K !! SSema a = None
  | CSemaDown a | CSemaTryDown a | CSemaUp a => is_Some (semas K !! SSema a)
  | CLockInit l => holders K !! l = None ∧ semas K !! SLock l = None
  | CLockAcquire l | CLockTryAcquire l => l ≠ tid_lock ∧ ∃ h, holders K !! l = Some h ∧ h ≠ cur K
  | CLockRelease l => l ≠ tid_lock ∧ holders K !! l = Some (cur K)
  | CCondInit c => conds K !! c = None
  | CCondWait c l w =>
      l ≠ tid_lock ∧ holders K !! l = Some (cur K) ∧ is_Some (conds K !! c) ∧ semas K !! SSema w = None
  | CCondSignal c l | CCondBroadcast c l =>
      l ≠ tid_lock ∧ holders K !! l = Some (cur K) ∧ is_Some (conds K !! c)
  end.

(** The calls that change the list of all threads, and the steps that do so
    while another thread is linking. *)
Definition changes_all (c : call) : bool :=
  match c with CExit => true | CCreate page _ _ => negb (page =? NULL) | _ => false end.
Definition overlaps (K : kernel) (e : event) : bool :=
  linking K && match e with EvCall c => changes_all c | _ => false end.

Lemma no_link_ok K : linking K = false → no_link K = Ok (tt, K).
Proof. intros E. unfold no_link. erewrite bind_ok by apply get_ok. by rewrite E. Qed.

Definition allowed (K : kernel) (e : event) : Prop :=
  match e with
  | EvRun => ∃ th, threads K !! cur K = Some th ∧ code th ≠ []
  | EvCall c => (∃ th, threads K !! cur K = Some th ∧ code th = []) ∧ call_ok K c
  | EvTimer => intr_on K = true
  end.

Lemma timer_ticks_ok K :
  in_external_intr K = false ∨ intr_on K = false → timer_ticks K = Ok (ticks K, K).
Proof.
  intros H. unfold timer_ticks. erewrite bind_ok by reflexivity. erewrite bind_ok by apply get_ok.
  cbv zeta. erewrite bind_ok by (by apply intr_set_level_ok). by destruct K.
Qed.

Section calls.
Context (K : kernel) (th : thread).
Hypothesis HI : Inv K.
Hypothesis Ht : threads K !! cur K = Some th.
Hypothesis Hcode : code th = [].

Definition ok_step (m : ST kernel unit) : Prop := ∃ K', m K = Ok (tt, K') ∧ Inv K' ∧ ticks K' = ticks K.

Lemma call_level : intr_on K = true.
Proof. rewrite (inv_level _ HI _ Ht). by rewrite Hcode. Qed.

Lemma call_current : current K th.
Proof. apply current_place; [apply HI|done]. Qed.

Lemma call_not_idle : bool_decide (cur K = idle_thread K) = false.
Proof. destruct (pl_thread (inv_place _ HI) _ _ Ht) as [_ _ _ Hid _]. by rewrite <-Hid, Hcode. Qed.

(** The locks, with code that takes none. *)
Lemma call_locks c :
  pend c = None → req c = None → (∀ l, ILockAcquire l ∈ c → holders K !! l ≠ Some (cur K)) →
  locks_ok (<[cur K := set_code c th]> (threads K)) (semas K) (holders K).
Proof.
  intros Hp Hr Ha. apply (locks_code _ _ _ _ th); try done; try by rewrite Hcode.
  - apply (inv_locks _ HI).
  - by rewrite Hr.
Qed.

(** A state that differs in objects the running thread does not use. *)
Lemma call_objects K' :
  kplace K' (Some (cur K)) → klocks K' → threads K' = threads K → cur K' = cur K →
  in_external_intr K' = false → intr_on K' = intr_on K → Inv K'.
Proof.
  intros P L ET EC Ectx Ei. split; try done.
  - by rewrite EC.
  - intros u. rewrite ET, EC, Ei. apply (inv_level _ HI).
Qed.

Lemma call_yield : ok_step thread_yield.
Proof.
  destruct (thread_yield_inv K th) as (K' & E & ? & ? & _); try done; try apply HI; [|by exists K'].
  rewrite call_level, Hcode. done.
Qed.

Lemma call_exit : linking K = false → ok_step thread_exit.
Proof.
  intros Hl. unfold ok_step, thread_exit. erewrite bind_ok by reflexivity. rewrite (inv_context _ HI).
  erewrite bind_ok by reflexivity. erewrite bind_ok by reflexivity.
  assert (current (set_intr false K) th) as Hc by (destruct call_current; by split).
  erewrite bind_ok by (by eapply thread_current_ok). erewrite bind_ok by (by apply no_link_ok). erewrite bind_ok by reflexivity.
  assert (current (set_all (filter (.≠ cur K) (all_list K)) (set_intr false K)) th) as Hc' by (destruct call_current; by split).
  erewrite bind_ok by (by eapply thread_current_ok). erewrite bind_ok by (by apply upd_thread_ok).
  destruct (schedule_inv (put_thread (cur K) (set_status THREAD_DYING th)
    (set_all (filter (.≠ cur K) (all_list K)) (set_intr false K)))) as (K' & E & ? & ? & _); simpl; try done.
  - by apply (place_to_dying (inv_place _ HI) _ _ Ht).
  - eapply locks_ext; [by eapply (same_code_insert _ _ th)|eauto|apply (inv_locks _ HI)].
  - apply (inv_context _ HI).
  - rewrite lookup_insert_eq. eauto.
  - by exists K'.
Qed.

Lemma call_sleep n : 0 ≤ ticks K → ticks K + n < 2 ^ 63 → ok_step (timer_sleep n).
Proof.
  intros H0 Hn. unfold ok_step, timer_sleep. erewrite bind_ok by reflexivity. rewrite call_level.
  erewrite bind_ok by reflexivity. destruct (Z.leb_spec n 0) as [Hle|Hgt].
  { exists K. split; [reflexivity|done]. }
  erewrite bind_ok by (eapply thread_current_ok, call_current). erewrite bind_ok by reflexivity.
  erewrite bind_ok by (apply timer_ticks_ok; by right). rewrite call_level.
  erewrite bind_ok by (by apply upd_thread_ok).
  erewrite bind_ok by (apply push_code_ok; simpl; by rewrite lookup_insert_eq). simpl.
  rewrite Hcode, put_put_thread.
  assert (s64 (ticks K + n) = ticks K + n) as Ew by (apply s64_small; lia).
  pose proof call_current as [_ Est Nc Mc].
  erewrite (thread_block_eq _ (set_code [ISleepRet true] (set_wakeup (s64 (ticks K + n)) th)));
    [|split; simpl; try done; by rewrite lookup_insert_eq|apply (inv_context _ HI)|done].
  destruct (block_inv (set_intr false K) th [ISleepRet true] (ticks K + n)) as (K' & E & ? & ?); try done.
  - apply HI.
  - by constructor.
  - symmetry; apply call_not_idle.
  - right. split; [lia|done].
  - apply call_locks; try done. intros l. rewrite list_elem_of_singleton. done.
  - apply (inv_context _ HI).
  - exists K'. split; [|done]. rewrite <-E, Ew. f_equal. unfold put_thread, set_threads. simpl.
    by rewrite insert_insert_eq.
Qed.

Lemma call_sema_init a v : semas K !! SSema a = None → ok_step (sema_init (SSema a) v).
Proof.
  intros Hs. eexists. split; [reflexivity|]. split; [|done]. apply call_objects; try done.
  - by apply (place_new_sema (inv_place _ HI)).
  - eapply locks_ext; [by intros ???|..|apply (inv_locks _ HI)]. intros l sm Hl. exists sm.
    simpl. by rewrite lookup_insert_ne.
  - apply (inv_context _ HI).
Qed.

Lemma call_sema_down a : is_Some (semas K !! SSema a) → ok_step (sema_down (SSema a)).
Proof.
  intros Hs. apply (sema_down_inv K th _ []); try done; try apply HI.
  - by left.
  - by constructor.
  - apply call_locks; try done. intros l. rewrite list_elem_of_singleton. done.
  - apply call_level.
Qed.

(** What [sema_try_down] does, except to locks. *)
Lemma sema_try_down_ok s sm :
  semas K !! s = Some sm →
  sema_try_down s K = Ok (value sm >? 0, if value sm >? 0
    then set_semas (<[s := mk_sema (u32 (value sm - 1)) (waiters sm)]> (semas K)) K else K).
Proof.
  intros Hs. unfold sema_try_down. erewrite bind_ok by reflexivity.
  erewrite bind_ok by (by apply get_sema_ok).
  destruct (value sm >? 0); (erewrite bind_ok by reflexivity);
    (erewrite bind_ok by (apply intr_set_level_ok; left; apply (inv_context _ HI))); by destruct K.
Qed.

Lemma call_sema_try_down a : is_Some (semas K !! SSema a) →
  ok_step (_ ← sema_try_down (SSema a); mret tt).
Proof.
  intros [sm Hs]. unfold ok_step. erewrite bind_ok by (by apply sema_try_down_ok).
  eexists. split; [reflexivity|]. destruct (value sm >? 0); [|done]. split; [|done].
  apply call_objects; try done.
  - by apply (place_value (inv_place _ HI)).
  - eapply locks_ext; [by intros ???|..|apply (inv_locks _ HI)]. intros l sm' Hl. exists sm'.
    simpl. by rewrite lookup_insert_ne.
  - apply (inv_context _ HI).
Qed.

Lemma call_lock_init l :
  holders K !! l = None → semas K !! SLock l = None → ok_step (lock_init l).
Proof.
  intros Hh Hs. unfold ok_step, lock_init. erewrite bind_ok by reflexivity.
  eexists. split; [reflexivity|]. split; [|done]. pose proof (inv_locks _ HI) as [Ls Lr La [ht Lt] Lh].
  assert (l ≠ tid_lock) as Nt by congruence.
  assert (∀ t, ¬ pends (threads K) l t) as Hnp.
  { intros t (u & Hu & Hp). destruct (pl_thread (inv_place _ HI) _ _ Hu) as [_ _ Hr _ _].
    assert (∃ i, i ∈ code u ∧ (i = ISetHolder l ∨ i = IReleaseUp l)) as (i & Hin & Hi).
    { clear -Hp. unfold pend in Hp. induction (code u) as [|i c IH]; [done|].
      destruct i; simpl in Hp; try done;
        try (destruct (IH Hp) as (j & Hj & ?); exists j; split; [by right|done]);
        injection Hp as ->; eexists; (split; [left|auto]). }
    rewrite Forall_forall in Hr. specialize (Hr i Hin). destruct Hi as [-> | ->]; simpl in Hr;
      rewrite Hh in Hr; by destruct Hr. }
  apply call_objects; try done.
  - apply (place_holder (place_new_sema (inv_place _ HI) _ 1 Hs)).
  - split; simpl.
    + intros l' h. destruct (decide (l' = l)) as [->|N].
      * rewrite !lookup_insert_eq. intros [= <-]. eexists. split; [done|]. by left.
      * rewrite !lookup_insert_ne by congruence. apply Ls.
    + intros t u l' Hu Hr. pose proof (Lr t u l' Hu Hr). by rewrite lookup_insert_ne by congruence.
    + intros t u l' Hu Hin. destruct (decide (l' = l)) as [->|N].
      * rewrite lookup_insert_eq. intros [= <-].
        by destruct (pl_thread (inv_place _ HI) _ _ Hu) as [[_ ?] _ _ _ _].
      * rewrite lookup_insert_ne by done. by apply (La t u).
    + rewrite lookup_insert_ne by done. by rewrite Lt.
    + rewrite lookup_insert_ne by done. done.
  - apply (inv_context _ HI).
Qed.

Lemma call_lock_acquire l h :
  l ≠ tid_lock → holders K !! l = Some h → h ≠ cur K → ok_step (lock_acquire l).
Proof.
  intros Nl Hh Nh. destruct (lk_state _ _ _ (inv_locks _ HI) l h Hh) as (sm & Hsm & _).
  apply (lock_acquire_inv K th l [] h); try done; try apply HI.
  - by left.
  - apply call_locks; try done. intros l'. rewrite !elem_of_cons, elem_of_nil. naive_solver.
  - apply call_level.
Qed.

Lemma call_lock_try_acquire l h :
  l ≠ tid_lock → holders K !! l = Some h → h ≠ cur K → ok_step (_ ← lock_try_acquire l; mret tt).
Proof.
  intros Nl Hh Nh. destruct (lk_state _ _ _ (inv_locks _ HI) l h Hh) as (sm & Hsm & _).
  unfold ok_step, lock_try_acquire.
  assert (∃ r K', (h ← lock_held_by_current_thread l; assert (negb h);;
    success ← sema_try_down (SLock l);
    (if success : bool then push_code [ISetHolder l] else mret tt);; mret success) K = Ok (r, K') ∧
    Inv K' ∧ ticks K' = ticks K) as (r & K' & E & HK).
  2: { erewrite bind_ok by exact E. by exists K'. }
  erewrite bind_ok by (eapply lock_held_ok; [apply call_current|done]).
  rewrite (proj2 (Z.eqb_neq _ _) Nh). erewrite bind_ok by reflexivity.
  erewrite bind_ok by (by apply sema_try_down_ok). destruct (Z.gtb_spec (value sm) 0) as [Hv|Hv].
  - erewrite bind_ok by (by apply push_code_ok). eexists _, _. split; [reflexivity|]. split; [|done].
    rewrite Hcode. pose proof (pl_thread (inv_place _ HI) _ _ Ht) as [_ _ _ Hid _]. split; simpl; try done.
    + apply (place_value (place_code (inv_place _ HI) _ _ Ht [ISetHolder l] eq_refl
        ltac:(by left) ltac:(repeat constructor; simpl; by rewrite Hh) ltac:(by rewrite call_not_idle)
        ltac:(done)) _ _ _ Hsm).
    + pose proof (locks_down _ _ _ (cur K) _ (SLock l) sm [ISetHolder l]
        (call_locks [ISemaLoop (SLock l) true; ISetHolder l] eq_refl eq_refl
          ltac:(intros l'; rewrite !elem_of_cons, elem_of_nil; naive_solver))
        (lookup_insert_eq _ _ _) eq_refl) as HL.
      rewrite insert_insert_eq in HL. apply HL; [|done|lia]. exists []. split; [done|]. by left.
    + apply (inv_context _ HI).
    + intros u. rewrite lookup_insert_eq. intros [= <-]. apply call_level.
  - erewrite bind_ok by reflexivity. by eexists _, _.
Qed.

Lemma call_lock_release l :
  l ≠ tid_lock → holders K !! l = Some (cur K) → ok_step (lock_release l).
Proof.
  intros Nl Hh. apply (lock_release_inv K th l [] []); try done; try apply HI.
  - by left.
  - apply call_locks; try done. intros l' ?%elem_of_nil. done.
  - intros l' _ ?%elem_of_nil. done.
  - apply call_level.
Qed.

Lemma call_cond_init c : conds K !! c = None → ok_step (cond_init c).
Proof.
  intros Hc. eexists. split; [reflexivity|]. split; [|done]. apply call_objects; try done.
  - apply (place_cond (inv_place _ HI)). intros w ?%elem_of_nil. done.
  - apply (inv_locks _ HI).
  - apply (inv_context _ HI).
Qed.

Lemma call_cond_wait c l w :
  l ≠ tid_lock → holders K !! l = Some (cur K) → is_Some (conds K !! c) → semas K !! SSema w = None →
  ok_step (cond_wait c l w).
Proof.
  intros Nl Hh [ws Hws] Hw. unfold ok_step, cond_wait. erewrite bind_ok by reflexivity.
  rewrite (inv_context _ HI). erewrite bind_ok by reflexivity.
  erewrite bind_ok by (eapply lock_held_ok; [apply call_current|done]). rewrite Z.eqb_refl.
  do 2 erewrite bind_ok by reflexivity. erewrite bind_ok by (unfold get_cond; simpl; by rewrite Hws).
  erewrite bind_ok by reflexivity. erewrite bind_ok by (by apply push_code_ok). rewrite Hcode.
  set (S' := <[SSema w := mk_sema 0 []]> (semas K)). set (c' := [ISemaDown (SSema w); ILockAcquire l]).
  set (K1 := put_thread _ _ _).
  pose proof (place_new_sema (inv_place _ HI) (SSema w) 0 Hw) as P1. fold S' in P1.
  assert (∀ x, x ∈ ws ++ [w] → is_Some (S' !! SSema x)) as Hex.
  { intros x [Hx| ->]%elem_of_snoc.
    - eapply (pl_conds _ _ _ _ _ _ _ _ P1); done.
    - unfold S'. by rewrite lookup_insert_eq. }
  pose proof (place_cond P1 c (ws ++ [w]) Hex) as P2.
  destruct (lock_release_inv K1 (set_code c' th) l c' []) as (K' & E & ?); try done.
  - apply (place_code P2 _ _ Ht c'); try done.
    + by right; exists l.
    + constructor; [simpl; unfold S'; by rewrite lookup_insert_eq|].
      constructor; [simpl; by rewrite Hh|done].
    + by rewrite call_not_idle.
  - subst K1. simpl. by rewrite lookup_insert_eq.
  - right; left. split; [done|]. by exists w.
  - constructor; [simpl; unfold S'; by rewrite lookup_insert_eq|].
    constructor; [simpl; by rewrite Hh|done].
  - subst K1. simpl. rewrite insert_insert_eq.
    eapply locks_ext; [by intros ???|..|apply (call_locks [])]; try done.
    + intros l' sm Hl'. exists sm. unfold S'. by rewrite lookup_insert_ne.
    + intros l' ?%elem_of_nil. done.
  - intros l' N. unfold c'. rewrite !elem_of_cons, elem_of_nil. naive_solver.
  - apply (inv_context _ HI).
  - apply call_level.
  - by exists K'.
Qed.

Lemma call_cond_broadcast c l :
  l ≠ tid_lock → holders K !! l = Some (cur K) → is_Some (conds K !! c) → ok_step (cond_broadcast c l).
Proof.
  intros Nl Hh [ws Hws]. unfold ok_step, cond_broadcast.
  erewrite bind_ok by (unfold get_cond; simpl; by rewrite Hws). destruct ws as [|w rest].
  { exists K. split; [reflexivity|done]. }
  erewrite bind_ok by (by apply push_code_ok). rewrite Hcode.
  set (c' := [ICondBroadcast c l]). set (K1 := put_thread _ _ _).
  assert (Inv K1) as HI1.
  { split; simpl.
    - apply (place_code (inv_place _ HI) _ _ Ht c'); try done.
      + constructor; [|done]. simpl. by rewrite Hws, Hh.
      + by rewrite call_not_idle.
    - apply (locks_code _ _ _ _ th); try done; try by rewrite Hcode.
      + apply (inv_locks _ HI).
      + by intros l' [= <-].
      + intros l'. unfold c'. rewrite list_elem_of_singleton. done.
    - apply (inv_context _ HI).
    - intros u. rewrite lookup_insert_eq. intros [= <-]. apply call_level. }
  destruct (cond_signal_inv K1 (set_code c' th) c l (w :: rest)) as (K' & E & ?); try done.
  - subst K1. simpl. by rewrite lookup_insert_eq.
  - by exists K'.
Qed.

Lemma call_create page nm prio :
  page = NULL ∨ (threads K !! page = None ∧ PRI_MIN ≤ prio ≤ PRI_MAX) → linking K && negb (page =? NULL) = false →
  ok_step (thread_create page nm prio FOther).
Proof.
  intros Hp Hl. unfold ok_step, thread_create. destruct (Z.eqb_spec page NULL) as [->|Np].
  { exists K. split; [reflexivity|done]. }
  destruct Hp as [?|[Hn Hprio]]; [done|]. rewrite andb_true_r in Hl. unfold init_checks.
  erewrite bind_ok.
  2: { rewrite (proj2 (Z.eqb_neq _ _) Np), (proj2 (Z.leb_le _ _)), (proj2 (Z.leb_le _ _)) by lia. reflexivity. }
  erewrite bind_ok by (by apply no_link_ok). rewrite (push_code_ok _ th) by done. rewrite Hcode. eexists. split; [reflexivity|]. split; [|done].
  set (c' := _ ++ []). destruct (lk_tid _ _ _ (inv_locks _ HI)) as [h Hh].
  split; simpl.
  - apply (place_code (inv_place _ HI) _ _ Ht c'); try done.
    + repeat constructor; simpl; by rewrite Hh.
    + by rewrite call_not_idle.
  - apply call_locks; try done. intros l [?|[[= ->]|[?|[?|?%elem_of_nil]%elem_of_cons]%elem_of_cons]%elem_of_cons]%elem_of_cons; try done.
    intros Hc. destruct (lk_tid_holder _ _ _ (inv_locks _ HI) _ Hc) as [E|(u' & Hu' & Hr)].
    + by destruct call_current.
    + rewrite Ht in Hu'. injection Hu' as <-. by rewrite Hcode in Hr.
  - apply (inv_context _ HI).
  - intros u. rewrite lookup_insert_eq. intros [= <-]. apply call_level.
Qed.

Lemma call_set_priority p : ok_step (thread_set_priority p).
Proof.
  unfold ok_step, thread_set_priority. erewrite bind_ok by (eapply thread_current_ok, call_current).
  eexists. split; [by apply upd_thread_ok|]. split; [|done].
  pose proof (pl_thread (inv_place _ HI) _ _ Ht) as [? ? ? ? ?]. split; simpl.
  - apply (place_same (inv_place _ HI) _ _ Ht); try done.
    + intros n. simpl. by rewrite Hcode.
    + right. by apply (running_uncreated (inv_place _ HI)).
  - eapply locks_ext; [by eapply (same_code_insert _ _ th)|eauto|apply (inv_locks _ HI)].
  - apply (inv_context _ HI).
  - intros u. rewrite lookup_insert_eq. intros [= <-]. apply (inv_level _ HI _ Ht).
Qed.

Lemma call_inv c : call_ok K c → linking K && changes_all c = false → ok_step (exec_call c).
Proof.
  intros Hc Hl. destruct c; simpl in Hc |- *.
  - apply call_yield.
  - destruct Hc. by apply call_sleep.
  - apply call_exit. by rewrite andb_true_r in Hl.
  - by apply call_create.
  - by apply call_sema_init.
  - by apply call_sema_down.
  - by apply call_sema_try_down.
  - destruct Hc as [sm Hs]. by apply (sema_up_inv K th _ sm).
  - destruct Hc. by apply call_lock_init.
  - destruct Hc as (? & h & ? & ?). by apply (call_lock_acquire l h).
  - destruct Hc as (? & h & ? & ?). by apply (call_lock_try_acquire l h).
  - destruct Hc. by apply call_lock_release.
  - by apply call_cond_init.
  - destruct Hc as (? & ? & ? & ?). by apply call_cond_wait.
  - destruct Hc as (_ & ? & [ws ?]). by eapply cond_signal_inv.
  - destruct Hc as (? & ? & ?). by apply call_cond_broadcast.
  - apply call_set_priority.
Qed.

End calls.

(** ** The timer interrupt *)

(** A sleeping thread whose wake-up time has come. *)
Definition due (now : Z) (th : thread) : bool :=
  bool_decide (status th = THREAD_BLOCKED) && (0 <? wakeup_time th) && (wakeup_time th <=? now).

Definition woken (th : thread) : thread := set_status THREAD_READY (set_wakeup 0 th).

Definition wake_due (now : Z) (th : thread) : thread := if due now th then woken th else th.

Lemma due_sleeping S H C idle t th now :
  thread_ok S H C idle t th → due now th = true →
  status th = THREAD_BLOCKED ∧ code th = [ISleepRet true] ∧ t ≠ idle.
Proof.
  intros [_ _ _ Hi Hs] Hd. unfold due in Hd. rewrite !andb_true_iff, bool_decide_eq_true, Z.ltb_lt in Hd.
  destruct Hd as [[Est Hw] _]. rewrite Est in Hs. destruct Hs as [[? _]|[_ E]]; [lia|].
  split_and!; [done..|]. intros ->. rewrite E, bool_decide_true in Hi by done. done.
Qed.

Record tick_frame (K K' : kernel) : Prop := {
  tf_all : all_list K' = all_list K;
  tf_cur : cur K' = cur K;
  tf_idle : idle_thread K' = idle_thread K;
  tf_semas : semas K' = semas K;
  tf_holders : holders K' = holders K;
  tf_conds : conds K' = conds K;
  tf_ticks : ticks K' = ticks K;
  tf_intr : intr_on K' = intr_on K;
  tf_context : in_external_intr K' = in_external_intr K;
  tf_yield : yield_on_return K' = yield_on_return K
}.

Lemma tick_frame_refl K : tick_frame K K.
Proof. by split. Qed.

Lemma tick_frame_trans K1 K2 K3 : tick_frame K1 K2 → tick_frame K2 K3 → tick_frame K1 K3.
Proof. intros [] []. split; congruence. Qed.

Lemma update_sleeping_ok K run now t u :
  kplace K run → klocks K → intr_on K = false → threads K !! t = Some u →
  ∃ K', update_sleeping_threads now t K = Ok (tt, K') ∧ kplace K' run ∧ klocks K' ∧ tick_frame K K' ∧
    ready_list K' = ready_list K ++ (if due now u then [t] else []) ∧
    threads K' = <[t := wake_due now u]> (threads K).
Proof.
  intros P L Hi Hu. unfold update_sleeping_threads. erewrite bind_ok by (by apply get_thread_ok).
  fold (due now u). unfold wake_due. pose proof (pl_thread P _ _ Hu) as Hok. destruct (due now u) eqn:Hd.
  2: { exists K. rewrite app_nil_r. split_and!; try done. by rewrite insert_id. }
  destruct (due_sleeping _ _ _ _ _ _ _ Hok Hd) as (Est & Ec & Ni).
  pose proof Hok as [[M N] _ _ _ _]. erewrite bind_ok by (by apply upd_thread_ok).
  rewrite (thread_unblock_eq _ t (set_wakeup 0 u)); [|simpl; by rewrite lookup_insert_eq|done..|by right].
  eexists. split; [reflexivity|]. unfold kplace, klocks. split_and!; try done; simpl.
  - rewrite insert_insert_eq.
    assert (uncreated (threads K) t) as Hun.
    { intros t2 u2 H2 Hcr. destruct (pl_creates _ _ _ _ _ _ _ _ P _ _ _ H2 Hcr) as (v & Hv & _ & Hcv).
      rewrite Hu in Hv. injection Hv as <-. congruence. }
    pose proof (place_wake P t u Hu [ISleepRet true] Est ltac:(by rewrite Ec) Ni Hun eq_refl eq_refl
      ltac:(done) ltac:(repeat constructor) eq_refl eq_refl) as P'.
    replace (set_code [ISleepRet true] u) with u in P' by (unfold set_code; rewrite <-Ec; by destruct u).
    exact P'.
  - rewrite insert_insert_eq. eapply locks_ext; [by eapply (same_code_insert _ _ u)|eauto|exact L].
  - by rewrite insert_insert_eq.
Qed.

Lemma foreach_sleeping_ok now ts : ∀ K run,
  kplace K run → klocks K → intr_on K = false → NoDup ts →
  (∀ t, t ∈ ts → is_Some (threads K !! t)) →
  ∃ K', foreach (update_sleeping_threads now) ts K = Ok (tt, K') ∧ kplace K' run ∧ klocks K' ∧
    tick_frame K K' ∧
    (∀ t, threads K' !! t = if decide (t ∈ ts) then wake_due now <$> threads K !! t else threads K !! t) ∧
    (∀ t, t ∈ ready_list K' ↔ t ∈ ready_list K ∨ (t ∈ ts ∧ ∃ u, threads K !! t = Some u ∧ due now u = true)).
Proof.
  induction ts as [|t ts IH]; intros K run P L Hi Hnd Hex; simpl.
  { exists K. split_and!; [done|done|done|apply tick_frame_refl| |].
    - done.
    - intros t. rewrite elem_of_nil. naive_solver. }
  apply NoDup_cons in Hnd as [Hnt Hnd]. destruct (Hex t) as [u Hu]; [left|].
  destruct (update_sleeping_ok K run now t u P L Hi Hu) as (K1 & E1 & P1 & L1 & F1 & R1 & T1).
  destruct (IH K1 run P1 L1) as (K2 & E2 & P2 & L2 & F2 & T2 & R2); [by rewrite (tf_intr _ _ F1)|done| |].
  { intros t' Ht'. rewrite T1, lookup_insert_is_Some'. right. apply Hex. by right. }
  exists K2. erewrite bind_ok by exact E1. split_and!; try done; [by eapply tick_frame_trans| |].
  - intros t'. rewrite T2, T1. destruct (decide (t' = t)) as [->|N].
    + rewrite decide_False, decide_True, lookup_insert_eq, Hu by (done || left). done.
    + rewrite lookup_insert_ne by done.
      destruct (decide (t' ∈ ts)), (decide (t' ∈ t :: ts)) as [Hin|Hin]; try done.
      * destruct Hin. by right.
      * by apply elem_of_cons in Hin as [?|?].
  - intros t'. rewrite R2, R1, T1, elem_of_app, elem_of_cons.
    destruct (decide (t' = t)) as [->|N].
    + rewrite lookup_insert_eq, Hu. destruct (due now u) eqn:Hd.
      * rewrite list_elem_of_singleton. split; [intros _; right; eauto|intros _; left; by right].
      * split; [intros [[?|?%elem_of_nil]|[? _]]; by try left|].
        intros [?|[_ (v & [= <-] & ?)]]; [by left; left|congruence].
    + rewrite lookup_insert_ne by done.
      assert (t' ∉ (if due now u then [t] else [])) as Hno.
      { destruct (due now u); rewrite ?list_elem_of_singleton, ?elem_of_nil; auto. }
      split; [intros [[?|?]|[? ?]]; [by left|done|right; auto]|].
      intros [?|[[?|?] ?]]; [by left; left|done|by right].
Qed.

(** The state after [timer_irq], before a thread is preempted: interrupts are
    off, the due threads are ready. *)
Lemma thread_tick_ok K th :
  current K th → in_external_intr K = true →
  ∃ K', thread_tick K = Ok (tt, K') ∧ threads K' = threads K ∧ ready_list K' = ready_list K ∧
    all_list K' = all_list K ∧ cur K' = cur K ∧ idle_thread K' = idle_thread K ∧ semas K' = semas K ∧
    holders K' = holders K ∧ conds K' = conds K ∧ ticks K' = ticks K ∧ intr_on K' = intr_on K ∧
    in_external_intr K' = true.
Proof.
  intros Hc Hctx. unfold thread_tick. erewrite bind_ok by (by eapply thread_current_ok).
  erewrite bind_ok by apply get_ok. erewrite bind_ok by reflexivity. erewrite bind_ok by apply get_ok.
  erewrite bind_ok by reflexivity. erewrite bind_ok by apply get_ok.
  destruct (TIME_SLICE <=? _).
  - unfold intr_yield_on_return. erewrite bind_ok by reflexivity.
    erewrite bind_ok; [|apply assert_ok; by destruct (cur K =? idle_thread K)].
    eexists. split; [reflexivity|]. by destruct (cur K =? idle_thread K).
  - eexists. split; [reflexivity|]. by destruct (cur K =? idle_thread K).
Qed.

Lemma timer_interrupt_ok K th :
  kplace K (Some (cur K)) → klocks K → threads K !! cur K = Some th →
  in_external_intr K = true → intr_on K = false →
  let now := s64 (ticks K + 1) in
  ∃ K', timer_interrupt K = Ok (tt, K') ∧
    kplace K' (Some (cur K)) ∧ klocks K' ∧ cur K' = cur K ∧ idle_thread K' = idle_thread K ∧
    ticks K' = now ∧ intr_on K' = false ∧ in_external_intr K' = true ∧
    (∀ t, threads K' !! t = wake_due now <$> threads K !! t).
Proof.
  intros P L Ht Hctx Hoff now. unfold timer_interrupt. erewrite bind_ok by apply get_ok. cbv zeta.
  erewrite bind_ok by reflexivity. fold now.
  destruct (thread_tick_ok (set_ticks now K) th)
    as (K3 & E3 & EqT & EqR & EqA & EqC & EqI & EqS & EqH & EqD & EqTk & EqOn & EqX); [|done|].
  { by destruct (current_place _ _ P Ht). }
  simpl in *. erewrite bind_ok by exact E3. unfold thread_foreach. erewrite bind_ok by reflexivity.
  rewrite EqOn, Hoff. erewrite bind_ok by reflexivity. erewrite bind_ok by apply get_ok.
  destruct (foreach_sleeping_ok now (all_list K3) K3 (Some (cur K)))
    as (K4 & E4 & P4 & L4 & [Fa Fc Fi _ _ _ Ft Fo Fx _] & T4 & _).
  - unfold kplace. by rewrite EqT, EqR, EqA, EqI, EqS, EqH, EqD.
  - unfold klocks. by rewrite EqT, EqS, EqH.
  - congruence.
  - rewrite EqA. apply (pl_all _ _ _ _ _ _ _ _ P).
  - intros t. rewrite EqA, EqT. intros (u & Hu & _)%(pl_all _ _ _ _ _ _ _ _ P). by exists u.
  - exists K4. split_and!; try done; try congruence.
    intros t. rewrite T4, EqT, EqA. destruct (decide (t ∈ _)) as [Hin|Hin]; [done|].
    destruct (threads K !! t) as [u|] eqn:Hu; [|done]. simpl. f_equal. unfold wake_due.
    destruct (due now u) eqn:Hd; [|done].
    destruct Hin. apply (pl_all _ _ _ _ _ _ _ _ P). exists u. split; [done|].
    destruct (due_sleeping _ _ _ _ _ _ _ (pl_thread P _ _ Hu) Hd) as [-> _]. done.
Qed.

(** The running thread is not due. *)
Lemma wake_due_running K th now :
  kplace K (Some (cur K)) → threads K !! cur K = Some th → wake_due now th = th.
Proof.
  intros P Ht. unfold wake_due, due. destruct (current_place _ _ P Ht) as [_ -> _ _]. done.
Qed.

(** What a timer interrupt does to the threads: those that are due become
    ready, and then the running thread may be preempted. *)
Lemma timer_irq_inv K th :
  Inv K → threads K !! cur K = Some th → intr_on K = true →
  ∃ K', timer_irq K = Ok (tt, K') ∧ Inv K' ∧ ticks K' = s64 (ticks K + 1) ∧
    ∀ t u, threads K !! t = Some u → t ≠ cur K → status u ≠ THREAD_DYING →
      threads K' !! t = Some (wake_due (s64 (ticks K + 1)) u) ∨
      (t = cur K' ∧ threads K' !! t = Some (set_status THREAD_RUNNING (wake_due (s64 (ticks K + 1)) u)) ∧
       (status (wake_due (s64 (ticks K + 1)) u) = THREAD_READY ∨ t = idle_thread K)).
Proof.
  intros HI Ht Hon. pose proof HI as [P L Hctx Hlev]. specialize (Hlev th Ht). rewrite Hon in Hlev.
  assert (off_head (code th) = false) as Hoff by (by destruct (off_head (code th))).
  destruct (pl_thread P _ _ Ht) as [_ Hwf Hrefs Hid _].
  unfold timer_irq. erewrite bind_ok by reflexivity. erewrite bind_ok by (by apply push_code_ok).
  set (c' := IIret :: code th). set (K1 := put_thread _ _ _).
  assert (kplace K1 (Some (cur K))) as P1.
  { apply (place_code P _ _ Ht c'); try done; [by constructor|].
    intros n Hn. left. unfold c' in Hn. by rewrite creates_cons in Hn. }
  assert (klocks K1) as L1.
  { apply (locks_code _ _ _ _ th); try done; unfold c'; simpl.
    - intros l. by apply (lk_req _ _ _ L _ th).
    - intros l [?|?]%elem_of_cons; [done|]. by apply (lk_acq _ _ _ L _ th). }
  assert (threads K1 !! cur K = Some (set_code c' th)) as Ht1 by (simpl; by rewrite lookup_insert_eq).
  unfold intr_handler. do 2 erewrite bind_ok by reflexivity. erewrite bind_ok by reflexivity.
  erewrite bind_ok by (apply assert_ok; simpl; by rewrite Hctx). do 2 erewrite bind_ok by reflexivity.
  set (now := s64 (ticks K + 1)).
  destruct (timer_interrupt_ok (set_yield false (set_context true K1)) (set_code c' th) P1 L1 Ht1 eq_refl eq_refl)
    as (K4 & E4 & P4 & L4 & C4 & I4 & Tk4 & On4 & X4 & T4).
  change (cur K4 = cur K) in C4. change (idle_thread K4 = idle_thread K) in I4.
  change (∀ t, threads K4 !! t = wake_due now <$> threads K1 !! t) in T4.
  erewrite bind_ok by exact E4. erewrite bind_ok by reflexivity. rewrite On4.
  do 2 erewrite bind_ok by reflexivity. rewrite X4. do 2 erewrite bind_ok by reflexivity.
  erewrite bind_ok by apply get_ok.
  pose proof (wake_due_running K1 _ now P1 Ht1) as Ewd.
  assert (threads K4 !! cur K = Some (set_code c' th)) as Ht4 by
    (rewrite T4, Ht1; simpl; by rewrite Ewd).
  assert (∀ t u, threads K !! t = Some u → t ≠ cur K → threads K4 !! t = Some (wake_due now u)) as Hoth.
  { intros t u Hu N. rewrite T4. simpl. rewrite lookup_insert_ne by done. by rewrite Hu. }
  simpl. destruct (yield_on_return K4).
  - destruct (thread_yield_inv (set_context false K4) (set_code c' th)) as (K' & E & HI' & Etk & [S1 S2 S3 S4]).
    { change (kplace K4 (Some (cur K4))). by rewrite C4. }
    { exact L4. }
    { done. }
    { simpl. by rewrite C4. }
    { simpl. rewrite On4. split; [by eexists|done]. }
    exists K'. split; [done|]. split; [done|]. split; [by rewrite Etk|].
    intros t u Hu N Nd. pose proof (Hoth t u Hu N) as Hu4. simpl in *. rewrite C4 in *.
    assert (status (wake_due now u) ≠ THREAD_DYING) as Nd'.
    { unfold wake_due. by destruct (due now u). }
    destruct (decide (t = cur K')) as [->|Nt].
    + right. rewrite S3. rewrite lookup_insert_ne, Hu4 by done. split_and!; [done..|].
      rewrite I4 in *. destruct (decide (cur K = idle_thread K)) as [Ei|Ni].
      * destruct (ready_list K4) as [|x R] eqn:ER; simpl in S1; [by right|].
        destruct (proj1 (pl_ready _ _ _ _ _ _ _ _ P4 x)) as (v & Hv & Hs & _); [rewrite ER; left|].
        subst x. rewrite Hu4 in Hv. injection Hv as ->. by left.
      * destruct (ready_list K4) as [|x R] eqn:ER; simpl in S1; [done|].
        destruct (proj1 (pl_ready _ _ _ _ _ _ _ _ P4 x)) as (v & Hv & Hs & _); [rewrite ER; left|].
        subst x. rewrite Hu4 in Hv. injection Hv as ->. by left.
    + left. apply S4; [done| |done]. by rewrite lookup_insert_ne.
  - eexists. split; [reflexivity|]. split; [|split; [done|]].
    + split; simpl; try done; [by rewrite C4|]. intros v. rewrite C4, Ht4. intros [= <-]. by rewrite On4.
    + intros t u Hu N _. left. by apply Hoth.
Qed.
