(* ===== verification/ThreadsLink.v ===== *)
(** * Threads that are being put on the list of all threads

    While a thread is inside list_push_back (&all_list, ...), the thread it
    creates is not on the list yet and its page is not known to anybody else, and
    no second thread is inside such a call.  Every function but [thread_create]
    and [link_thread] leaves this alone: a logical relation on states that is
    closed under sequencing is followed through the code. *)

From S2P Require Import Prelude Threads ThreadsInv ThreadsStep ThreadsCalls.

(** ** Linking threads *)

(** Thread [t] is about to link thread [n]. *)
Definition links_at (K : kernel) (t n : Z) : Prop :=
  ∃ th nm prio, threads K !! t = Some th ∧ ILinkThread n nm prio ∈ code th.

Record links_ok (K : kernel) : Prop := {
  ln_new : ∀ t n, links_at K t n → threads K !! n = None;
  ln_one : ∀ t1 t2 n1 n2, links_at K t1 n1 → links_at K t2 n2 → t1 = t2
}.

Lemma linking_true K : linking K = true ↔ ∃ t n, links_at K t n.
Proof.
  unfold linking, links_at. rewrite existsb_exists. setoid_rewrite existsb_exists. split.
  - intros ([t th] & Hin%list_elem_of_In%elem_of_map_to_list & i & Hi%list_elem_of_In & El). destruct i; try done.
    by exists t, t0, th, nm, prio.
  - intros (t & n & th & nm & prio & Ht & Hi). exists (t, th). split; [by apply list_elem_of_In, elem_of_map_to_list|].
    exists (ILinkThread n nm prio). split; [by apply list_elem_of_In|done].
Qed.

Lemma linking_false K : linking K = false → ∀ t n, ¬ links_at K t n.
Proof. intros E t n H. assert (linking K = true) by (apply linking_true; eauto). congruence. Qed.

(** ** States with no new linking threads *)

Record shrinks (K K' : kernel) : Prop := {
  sh_links t n : links_at K' t n → links_at K t n;
  sh_threads t : is_Some (threads K' !! t) → is_Some (threads K !! t)
}.

#[export] Instance shrinks_preorder : PreOrder shrinks.
Proof. split; [by split|]. intros K1 K2 K3 [] []. split; eauto. Qed.

Lemma shrinks_ok K K' : shrinks K K' → links_ok K → links_ok K'.
Proof.
  intros [S1 S2] [L1 L2]. split; [|by eauto]. intros t n H. destruct (threads K' !! n) eqn:E; [|done].
  specialize (L1 t n (S1 _ _ H)). destruct (S2 n) as [x Hx]; [by rewrite E|congruence].
Qed.

Definition tame {A} (m : ST kernel A) : Prop := ∀ K a K', m K = Ok (a, K') → shrinks K K'.

Lemma bind_inv {A B} (m : ST kernel A) (f : A → ST kernel B) K b K' :
  (m ≫= f) K = Ok (b, K') → ∃ a K1, m K = Ok (a, K1) ∧ f a K1 = Ok (b, K').
Proof. unfold mbind, st_bind. destruct (m K) as [[a K1]|]; [eauto|done]. Qed.

Lemma tame_bind {A B} (m : ST kernel A) (f : A → ST kernel B) : tame m → (∀ a, tame (f a)) → tame (m ≫= f).
Proof. intros Hm Hf K b K' (a & K1 & E1 & E2)%bind_inv. etrans; [by eapply Hm|by eapply Hf]. Qed.

Lemma tame_ret {A} (a : A) : tame (mret a).
Proof. by intros K ? K' [= _ <-]. Qed.
Lemma tame_get : tame (@get kernel).
Proof. by intros K ? K' [= _ <-]. Qed.
Lemma tame_fail {A} e : tame (fail (A := A) e).
Proof. by intros K ? K' [=]. Qed.
Lemma tame_assert b : tame (assert b).
Proof. intros K a K' E. destruct b; [by injection E as _ <-|done]. Qed.
Lemma tame_modify f : (∀ K, threads (f K) = threads K) → tame (modify f).
Proof. intros Hf K a K' [= _ <-]. split; unfold links_at; by rewrite Hf. Qed.
Lemma tame_delete t : tame (modify (λ K, set_threads (delete t (threads K)) K)).
Proof.
  intros K a K' [= _ <-]. split; unfold links_at; simpl.
  - intros t' n (th & nm & prio & [_ Ht]%lookup_delete_Some & Hi). eauto.
  - intros t' [th [_ Ht]%lookup_delete_Some]. by exists th.
Qed.

Create HintDb link.
#[export] Hint Resolve tame_ret tame_get tame_fail tame_assert tame_delete : link.
#[export] Hint Extern 2 (tame (modify _)) => apply tame_modify; intros ?; reflexivity : link.

Lemma tame_get_thread t : tame (get_thread t).
Proof. intros K a K' E. unfold get_thread in E. destruct (_ !! _); [by injection E as _ <-|done]. Qed.
Lemma tame_get_sema s : tame (get_sema s).
Proof. intros K a K' E. unfold get_sema in E. destruct (_ !! _); [by injection E as _ <-|done]. Qed.
Lemma tame_get_holder l : tame (get_holder l).
Proof. intros K a K' E. unfold get_holder in E. destruct (_ !! _); [by injection E as _ <-|done]. Qed.
Lemma tame_get_cond c : tame (get_cond c).
Proof. intros K a K' E. unfold get_cond in E. destruct (_ !! _); [by injection E as _ <-|done]. Qed.
#[export] Hint Resolve tame_get_thread tame_get_sema tame_get_holder tame_get_cond : link.

(** A thread changes, and its code gets no new link. *)
Lemma tame_upd t f : (∀ th i, is_link i = true → i ∈ code (f th) → i ∈ code th) → tame (upd_thread t f).
Proof.
  intros Hf K a K' (th & K1 & E1 & E2)%bind_inv. unfold get_thread in E1. destruct (threads K !! t) as [u|] eqn:Hu; [|done].
  injection E1 as <- <-. injection E2 as _ <-. split; unfold links_at; simpl.
  - intros t' n (v & nm & prio & Hv & Hi). destruct (decide (t' = t)) as [->|N].
    + rewrite lookup_insert_eq in Hv. injection Hv as <-. exists u, nm, prio. split; [done|by apply Hf].
    + rewrite lookup_insert_ne in Hv by done. eauto.
  - intros t' [v Hv]. destruct (decide (t' = t)) as [->|N]; [by rewrite Hu|]. rewrite lookup_insert_ne in Hv by done. by exists v.
Qed.
Lemma tame_push ks : forallb (λ i, negb (is_link i)) ks = true → tame (push_code ks).
Proof.
  intros Hks. unfold push_code. apply tame_bind; [apply tame_get|]. intros K. apply tame_upd. intros th i El [Hi|Hi]%elem_of_app; [|done].
  apply list_elem_of_In in Hi. rewrite forallb_forall in Hks. specialize (Hks i Hi). by rewrite El in Hks.
Qed.
#[export] Hint Extern 2 (tame (upd_thread _ _)) => apply tame_upd; intros ? ? ?; exact id : link.
#[export] Hint Extern 2 (tame (push_code _)) => apply tame_push; reflexivity : link.

(** Follow the code: binds, conditionals and matches. *)
Ltac tame_step :=
  match goal with
  | |- tame (_ ≫= _) => apply tame_bind; [|intros ?]
  | |- tame (if ?b then _ else _) => destruct b
  | |- tame (match ?x with _ => _ end) => destruct x
  | |- tame (let _ := _ in _) => cbv zeta
  | |- tame _ => solve [auto with link]
  end.
Ltac tame_auto := repeat tame_step.

(** ** The functions *)

Lemma tame_intr_set_level b : tame (intr_set_level b).
Proof. unfold intr_set_level, intr_enable, intr_disable, intr_get_level, intr_context. tame_auto. Qed.
Lemma tame_intr_disable : tame intr_disable.
Proof. unfold intr_disable, intr_get_level. tame_auto. Qed.
Lemma tame_intr_enable : tame intr_enable.
Proof. apply (tame_intr_set_level true). Qed.
Lemma tame_intr_get_level : tame intr_get_level.
Proof. unfold intr_get_level. tame_auto. Qed.
Lemma tame_intr_context : tame intr_context.
Proof. unfold intr_context. tame_auto. Qed.
Lemma tame_running : tame running_thread.
Proof. unfold running_thread. tame_auto. Qed.
Lemma tame_is_thread t : tame (is_thread t).
Proof. unfold is_thread. tame_auto. Qed.
#[export] Hint Resolve tame_intr_set_level tame_intr_disable tame_intr_enable tame_intr_get_level tame_intr_context tame_running tame_is_thread : link.

Lemma tame_thread_current : tame thread_current.
Proof. unfold thread_current. tame_auto. Qed.
Lemma tame_alloc_frame t n : tame (alloc_frame t n).
Proof. unfold alloc_frame. tame_auto. Qed.
Lemma tame_unblock t : tame (thread_unblock t).
Proof. unfold thread_unblock. tame_auto. Qed.
Lemma tame_schedule : tame schedule.
Proof. unfold schedule, next_thread_to_run, thread_schedule_tail. tame_auto. Qed.
Lemma tame_put_sema s sm : tame (put_sema s sm).
Proof. unfold put_sema. tame_auto. Qed.
Lemma tame_put_holder l h : tame (put_holder l h).
Proof. unfold put_holder. tame_auto. Qed.
Lemma tame_put_cond c w : tame (put_cond c w).
Proof. unfold put_cond. tame_auto. Qed.
Lemma tame_init_checks t p : tame (init_checks t p).
Proof. unfold init_checks. tame_auto. Qed.
Lemma tame_no_link : tame no_link.
Proof. unfold no_link. tame_auto. Qed.
#[export] Hint Resolve tame_thread_current tame_alloc_frame tame_unblock tame_schedule tame_put_sema tame_put_holder tame_put_cond
  tame_init_checks tame_no_link : link.

Lemma tame_block : tame thread_block.
Proof. unfold thread_block. tame_auto. Qed.
Lemma tame_yield : tame thread_yield.
Proof. unfold thread_yield. tame_auto. Qed.
Lemma tame_exit : tame thread_exit.
Proof. unfold thread_exit. tame_auto. Qed.
Lemma tame_sema_init s v : tame (sema_init s v).
Proof. unfold sema_init. tame_auto. Qed.
Lemma tame_sema_up s : tame (sema_up s).
Proof. unfold sema_up. tame_auto. Qed.
#[export] Hint Resolve tame_block tame_yield tame_exit tame_sema_init tame_sema_up : link.

Lemma tame_sema_loop s b : tame (sema_down_loop s b).
Proof. unfold sema_down_loop. tame_auto. Qed.
#[export] Hint Resolve tame_sema_loop : link.
Lemma tame_sema_down s : tame (sema_down s).
Proof. unfold sema_down. tame_auto. Qed.
Lemma tame_try_down s : tame (sema_try_down s).
Proof. unfold sema_try_down. tame_auto. Qed.
Lemma tame_held l : tame (lock_held_by_current_thread l).
Proof. unfold lock_held_by_current_thread. tame_auto. Qed.
#[export] Hint Resolve tame_sema_down tame_try_down tame_held : link.
Lemma tame_acquire l : tame (lock_acquire l).
Proof. unfold lock_acquire. tame_auto. Qed.
Lemma tame_release l : tame (lock_release l).
Proof. unfold lock_release. tame_auto. Qed.
Lemma tame_signal c l : tame (cond_signal c l).
Proof. unfold cond_signal. tame_auto. Qed.
Lemma tame_ticks : tame timer_ticks.
Proof. unfold timer_ticks. tame_auto. Qed.
#[export] Hint Resolve tame_acquire tame_release tame_signal tame_ticks : link.

Lemma tame_call c : changes_all c = false ∨ c = CExit → tame (exec_call c).
Proof.
  destruct c; intros Hc; simpl; unfold timer_sleep, lock_init, lock_try_acquire, cond_init, cond_wait, cond_broadcast, thread_set_priority;
    try (by tame_auto).
  destruct Hc as [Hc|?]; [|done]. unfold thread_create. simpl in Hc. destruct (page =? NULL); [apply tame_ret|done].
Qed.

Lemma tame_instr i : is_link i = false → tame (exec_instr i).
Proof.
  intros Hi. destruct i; simpl; unfold lock_set_holder, cond_broadcast, allocate_tid, idle_start, idle_hlt, idle_block; try done; try (by tame_auto).
  unfold thread_create_rest. tame_auto. apply tame_upd. intros th i El Hin. destruct fn; simpl in Hin.
  - apply list_elem_of_singleton in Hin. by subst.
  - apply elem_of_cons in Hin as [->|Hin]; [done|]. apply list_elem_of_singleton in Hin. by subst.
Qed.

Lemma tame_foreach f ts : (∀ t, tame (f t)) → tame (foreach f ts).
Proof. intros Hf. induction ts as [|t ts IH]; simpl; [apply tame_ret|]. apply tame_bind; auto. Qed.

Lemma tame_timer : tame timer_irq.
Proof.
  assert (∀ now, tame (thread_foreach (update_sleeping_threads now))) as Hf.
  { intros now. unfold thread_foreach. tame_auto. apply tame_foreach. intros t. unfold update_sleeping_threads. tame_auto. }
  unfold timer_irq, intr_handler, timer_interrupt, thread_tick, intr_yield_on_return. repeat (apply Hf || tame_step).
  apply tame_modify. intros K. by destruct (_ =? _).
Qed.

(** ** Every event *)

Lemma links_pop K th i r t n :
  threads K !! cur K = Some th → code th = i :: r → links_at (popped K th r) t n → links_at K t n.
Proof.
  intros Ht Hc (u & nm & prio & Hu & Hi). simpl in Hu. destruct (decide (t = cur K)) as [->|N].
  - rewrite lookup_insert_eq in Hu. injection Hu as <-. exists th, nm, prio. split; [done|]. rewrite Hc. by right.
  - rewrite lookup_insert_ne in Hu by done. by exists u, nm, prio.
Qed.

Lemma pop_shrinks K th i r : threads K !! cur K = Some th → code th = i :: r → shrinks K (popped K th r).
Proof.
  intros Ht Hc. split; [intros t n; by eapply links_pop|]. intros t. simpl. destruct (decide (t = cur K)) as [->|N]; [by rewrite Ht|].
  by rewrite lookup_insert_ne.
Qed.

Lemma links_event K e K' : Inv K → links_ok K → allowed K e → exec_event e K = Ok (tt, K') → links_ok K'.
Proof.
  intros HI HL Ha E. destruct e as [|c|].
  - destruct Ha as (th & Ht & Hc). destruct (code th) as [|i r] eqn:Ec; [done|]. rewrite (pop_eq K th i r) in E by done.
    destruct (is_link i) eqn:Ei; cycle 1.
    { eapply shrinks_ok; [|exact HL]. etrans; [by eapply pop_shrinks|by eapply (tame_instr i)]. }
    destruct i as [| | | | | | | | | | | | | | | |n nm prio]; try done. destruct (pop_wfc K th _ r HI Ht Ec) as [[_ Hr] _].
    injection E as <-. assert (links_at K (cur K) n) as Hn by (exists th, nm, prio; rewrite Ec; split; [done|left]).
    assert (∀ t m, ¬ links_at (set_all (all_list (popped K th r) ++ [n]) (set_threads (<[n:=mk_thread 0 THREAD_BLOCKED 0 (take 15 nm) (n + PGSIZE) prio THREAD_MAGIC []]> (threads (popped K th r))) (popped K th r))) t m) as Hno.
    { intros t m (u & nm' & prio' & Hu & Hi). simpl in Hu. destruct (decide (t = n)) as [->|N].
      - rewrite lookup_insert_eq in Hu. injection Hu as <-. by apply elem_of_nil in Hi.
      - rewrite lookup_insert_ne in Hu by done. destruct (decide (t = cur K)) as [->|N'].
        + rewrite lookup_insert_eq in Hu. injection Hu as <-. simpl in Hi. rewrite Hr, !elem_of_cons, elem_of_nil in Hi. naive_solver.
        + rewrite lookup_insert_ne in Hu by done. apply N'. eapply (ln_one _ HL _ _ m n); [by exists u, nm', prio'|done]. }
    split; [by intros t m ?%Hno|by intros t1 t2 n1 n2 ?%Hno].
  - assert (changes_all c = false ∨ c = CExit ∨ ∃ page nm prio, c = CCreate page nm prio ∧ (page =? NULL) = false) as [Hc|[Hc|(page & nm & prio & -> & Ep)]].
    { destruct c; simpl; eauto. destruct (page =? NULL) eqn:Ep; eauto 7. }
    1, 2: eapply shrinks_ok; [|exact HL]; eapply (tame_call c); by auto.
    destruct Ha as ((th & Ht & Hc') & Hok). simpl in E, Hok. unfold thread_create in E. rewrite Ep in E.
    destruct Hok as [->|[Hn _]]; [done|].
    apply bind_inv in E as (? & K1 & E1 & E). assert (K1 = K) as ->.
    { unfold init_checks in E1. apply bind_inv in E1 as (? & ? & E0 & E1). unfold assert, lift, ASSERT in *. repeat case_match; simplify_eq; done. }
    apply bind_inv in E as (? & K1 & E2 & E). unfold no_link in E2. apply bind_inv in E2 as (? & ? & [= <- <-] & E2).
    destruct (linking K) eqn:El; [done|]. injection E2 as _ <-. rewrite (push_code_ok _ th) in E by done. injection E as <-.
    pose proof (linking_false _ El) as Hno.
    assert (∀ t m, links_at (put_thread (cur K) (set_code ([ILinkThread page nm prio; ILockAcquire tid_lock; ITidRelease page; ICreateRest page FOther] ++ code th) th) K) t m → t = cur K ∧ m = page) as Hat.
    { intros t m (u & nm' & prio' & Hu & Hi). simpl in Hu. destruct (decide (t = cur K)) as [->|N].
      - rewrite lookup_insert_eq in Hu. injection Hu as <-. simpl in Hi. rewrite Hc', !elem_of_cons, elem_of_nil in Hi. split; [done|naive_solver].
      - rewrite lookup_insert_ne in Hu by done. destruct (Hno t m). by exists u, nm', prio'. }
    split.
    + intros t m [_ ->]%Hat. simpl. rewrite lookup_insert_ne; [done|]. intros E. rewrite <-E in Hn. congruence.
    + by intros t1 t2 n1 n2 [-> _]%Hat [-> _]%Hat.
  - eapply shrinks_ok; [|exact HL]. by eapply tame_timer.
Qed.

(** A step that overlaps with a linking thread ends the run. *)
Lemma overlaps_fails K e : Inv K → allowed K e → overlaps K e = true → exec_event e K = Err BadAccess.
Proof.
  intros HI Ha [Hl He]%andb_true_iff. destruct e as [|c|]; try done. destruct Ha as ((th & Ht & Hc) & Hok).
  pose proof (call_current K th HI Ht) as Hcur.
  assert (∀ A (f : unit → ST kernel A) K', linking K' = true → (no_link ≫= f) K' = Err BadAccess) as Hfail.
  { intros A f K' E. unfold no_link, get, mbind, st_bind. by rewrite E. }
  destruct c; try done; simpl in *.
  - unfold thread_exit. erewrite bind_ok by reflexivity. rewrite (inv_context _ HI). do 2 erewrite bind_ok by reflexivity.
    erewrite bind_ok by (eapply (thread_current_ok (set_intr false K) th); by destruct Hcur). by apply Hfail.
  - unfold thread_create. destruct (page =? NULL) eqn:Ep; [done|]. destruct Hok as [->|[_ Hp]]; [done|].
    erewrite bind_ok; [by apply Hfail|]. unfold init_checks. rewrite Ep, !(proj2 (Z.leb_le _ _)) by lia. reflexivity.
Qed.
