(* ===== verification/ThreadsSpec.v ===== *)
(** * What the thread system guarantees

    The properties of every state the thread machine can reach after
    start-up, over all interleavings of the threads' calls and of timer
    interrupts.  A run ends when two threads change the list of all threads at
    the same time ([overlaps]). *)

From S2P Require Import Prelude Threads ThreadsInv ThreadsStep ThreadsCalls ThreadsLink.

(** ** Reachable states *)

(** The page with the loader's stack, and the first page of the allocator. *)
Definition main_page : Z := 0xc000e000.
Definition idle_page : Z := 0xc0104000.

Definition booted : result (unit * kernel) := boot main_page idle_page boot_state.

Inductive reachable : kernel → Prop :=
  | reachable_boot K : booted = Ok (tt, K) → reachable K
  | reachable_step K e K' :
      reachable K → allowed K e → exec_event e K = Ok (tt, K') → reachable K'.

(** The state after start-up, written out. *)
Definition main_thread : thread :=
  mk_thread 1 THREAD_RUNNING 0 [109; 97; 105; 110] (main_page + 4096) 31 THREAD_MAGIC [].
Definition idle_thread_0 : thread :=
  mk_thread 2 THREAD_BLOCKED 0 [105; 100; 108; 101] (idle_page + 4096 - 44) 0 THREAD_MAGIC [IIdleHlt].
Definition booted_state : kernel :=
  mk_kernel (<[main_page := main_thread]> (<[idle_page := idle_thread_0]> ∅)) [] [main_page; idle_page]
    main_page idle_page main_page 3 0 0 0 true false false 0
    (<[SSema 2 := mk_sema 0 []]> (<[SLock tid_lock := mk_sema 1 []]> ∅)) (<[tid_lock := NULL]> ∅) ∅.

Lemma booted_eq : booted = Ok (tt, booted_state).
Proof. vm_compute. reflexivity. Qed.

Lemma booted_lookup t th :
  threads booted_state !! t = Some th ↔
  (t = main_page ∧ th = main_thread) ∨ (t = idle_page ∧ th = idle_thread_0).
Proof.
  simpl. rewrite !lookup_insert_Some, lookup_empty. split.
  - intros [[<- <-]|(_ & [[<- <-]|[_ ?]])]; [by left|by right|done].
  - intros [[-> ->]|[-> ->]]; [by left|]. right. split; [done|by left].
Qed.

Lemma booted_place : kplace booted_state (Some main_page).
Proof.
  split; cbn [ready_list all_list idle_thread semas holders conds booted_state].
  - intros t th [[-> ->]|[-> ->]]%booted_lookup.
    + by split.
    + split; try done; simpl; [by constructor; [|constructor]|]. left. split; [done|]. by right; left.
  - intros t th [[-> ->]|[-> ->]]%booted_lookup; done.
  - intros t [= <-]. exists main_thread. apply booted_lookup. by left.
  - exists idle_thread_0. apply booted_lookup. by right.
  - intros t. rewrite elem_of_nil. split; [done|].
    intros (th & [[-> ->]|[-> ->]]%booted_lookup & ? & ?); done.
  - by apply NoDup_nil.
  - intros s sm Hs. assert (waiters sm = []) as ->.
    { rewrite !lookup_insert_Some, lookup_empty in Hs. destruct Hs as [[_ <-]|(_ & [[_ <-]|[_ ?]])]; done. }
    split; [by apply NoDup_nil|]. intros t. rewrite elem_of_nil. split; [done|].
    intros (th & [[-> ->]|[-> ->]]%booted_lookup & ? & ?); done.
  - split; [by repeat (constructor; [rewrite ?elem_of_cons, ?elem_of_nil; compute; naive_solver|]); constructor|].
    intros t. rewrite !elem_of_cons, elem_of_nil. split.
    + intros [->|[->|?]]; [| |done]; eexists; (split; [apply booted_lookup; eauto|done]).
    + intros (th & [[-> ->]|[-> ->]]%booted_lookup & _); auto.
  - intros c ws w. by rewrite lookup_empty.
  - intros t th n [[-> ->]|[-> ->]]%booted_lookup; done.
  - intros t1 t2 th1 th2 n [[-> ->]|[-> ->]]%booted_lookup; done.
Qed.

Lemma booted_inv : Inv booted_state.
Proof.
  split; [apply booted_place| |done|].
  - split.
    + intros l h. simpl. rewrite lookup_insert_Some, lookup_empty. intros [[<- <-]|[_ ?]]; [|done].
      exists (mk_sema 1 []). split; [done|]. left. split_and!; [done..|].
      intros t (th & [[-> ->]|[-> ->]]%booted_lookup & ?); done.
    + intros t th l [[-> ->]|[-> ->]]%booted_lookup; done.
    + intros t th l [[-> ->]|[-> ->]]%booted_lookup; simpl.
      * by intros ?%elem_of_nil.
      * by rewrite list_elem_of_singleton.
    + simpl. by rewrite lookup_insert_eq.
    + intros h. simpl. rewrite lookup_insert_eq. intros [= <-]. by left.
  - intros th [[_ ->]|[? _]]%booted_lookup; done.
Qed.

(** ** Safety *)

Lemma booted_links : links_ok booted_state.
Proof.
  assert (∀ t n, ¬ links_at booted_state t n) as Hno by (apply linking_false; vm_compute; reflexivity).
  split; [intros t n H|intros t1 t2 n1 n2 H]; by apply Hno in H.
Qed.

Lemma event_inv K e : Inv K → links_ok K → allowed K e → overlaps K e = false → ∃ K', exec_event e K = Ok (tt, K') ∧ Inv K'.
Proof.
  intros HI HL Ha Ho. destruct e as [|c|]; simpl in Ha.
  - destruct Ha as (th & Ht & Hc). destruct (code th) as [|i r] eqn:E; [done|].
    destruct (run_inv K th i r HI Ht E) as (K' & ? & ? & _); [|eauto].
    intros n nm prio ->. apply (ln_new _ HL (cur K)). exists th, nm, prio. split; [done|]. rewrite E. left.
  - destruct Ha as ((th & Ht & Hc) & Hok).
    destruct (call_inv K th HI Ht Hc c Hok Ho) as (K' & ? & ? & _). eauto.
  - destruct (pl_live _ _ _ _ _ _ _ _ (inv_place _ HI) (cur K) eq_refl) as [th Ht].
    destruct (timer_irq_inv K th HI Ht Ha) as (K' & ? & ? & _). eauto.
Qed.

Lemma reachable_ok K : reachable K → Inv K ∧ links_ok K.
Proof.
  induction 1 as [K E|K e K' _ [HI HL] Ha E].
  - rewrite booted_eq in E. injection E as <-. split; [apply booted_inv|apply booted_links].
  - split; [|by eapply links_event]. destruct (overlaps K e) eqn:Ho; [by rewrite overlaps_fails in E|].
    destruct (event_inv K e HI HL Ha Ho) as (K2 & E2 & HI2). rewrite E in E2. by injection E2 as <-.
Qed.

Lemma reachable_inv K : reachable K → Inv K.
Proof. apply reachable_ok. Qed.

(** C1: no assertion of thread.c, synch.c, timer.c or interrupt.c ever fails
    and no freed thread is ever touched, unless two threads change the list of
    all threads at the same time: in every state the kernel reaches after
    start-up, every step of the running thread, every permitted call and every
    timer interrupt succeeds, and leaves a state that satisfies the invariant of
    the thread system again.  The one exception is a thread that exits or creates
    a thread while another one, preempted by the timer, is inside the
    list_push_back of init_thread, for which the code does not turn interrupts
    off; the list is damaged then, and the run of the model ends. *)
Theorem kernel_safe K e :
  reachable K → allowed K e →
  if overlaps K e then exec_event e K = Err BadAccess
  else ∃ K', exec_event e K = Ok (tt, K') ∧ reachable K' ∧ Inv K'.
Proof.
  intros HR Ha. destruct (reachable_ok K HR) as [HI HL]. destruct (overlaps K e) eqn:Ho; [by apply overlaps_fails|].
  destruct (event_inv K e HI HL Ha Ho) as (K' & E & HI'). exists K'. split_and!; [done|by eapply reachable_step|done].
Qed.

(** A thread that is between taking a lock's semaphore and giving it back. *)
Definition owns (K : kernel) (l t : Z) : Prop :=
  (holders K !! l = Some t ∧ t ≠ NULL) ∨ pends (threads K) l t.

(** C2: mutual exclusion.  In every reachable state at most one thread owns a
    lock, whichever step of [lock_acquire] or [lock_release] it is in, and
    the semaphore of the lock is 1 exactly when no thread owns it. *)
Theorem lock_mutual_exclusion K l h :
  reachable K → holders K !! l = Some h →
  ∃ sm, semas K !! SLock l = Some sm ∧
    (∀ t1 t2, owns K l t1 → owns K l t2 → t1 = t2) ∧
    ((value sm = 1 ∧ ∀ t, ¬ owns K l t) ∨ (value sm = 0 ∧ ∃ t, owns K l t)).
Proof.
  intros HR Hh. destruct (lk_state _ _ _ (inv_locks _ (reachable_inv _ HR)) l h Hh) as (sm & Hs & Hst).
  exists sm. split; [done|]. unfold owns. rewrite Hh.
  destruct Hst as [(Ev & -> & Hno)|[(Ev & Nh & Hno)|(Ev & -> & t & Hu)]].
  - split; [intros t1 t2 [[[= <-] ?]|H1]; [done|by destruct (Hno t1)]|].
    left. split; [done|]. intros t [[[= <-] ?]|H1]; [done|by destruct (Hno t)].
  - split; [|right; split; [done|]; exists h; by left].
    intros t1 t2 [[[= <-] ?]|H1] [[[= <-] ?]|H2]; [done|by destruct (Hno t2)|by destruct (Hno t1)..].
  - split; [|right; split; [done|]; exists t; right; by apply Hu].
    intros t1 t2 [[[= <-] ?]|H1] [[[= <-] ?]|H2]; [done..|]. apply Hu in H1, H2. congruence.
Qed.

(** C20: the list element of a thread is on at most one list, without
    duplicates: a thread on the ready list waits for no semaphore, and waits
    for at most one otherwise; the running thread is on no list. *)
Theorem elem_on_one_list K t :
  reachable K →
  NoDup (ready_list K) ∧
  (t ∈ ready_list K → t ≠ cur K ∧ ∀ s sm, semas K !! s = Some sm → t ∉ waiters sm) ∧
  (∀ s1 s2 sm1 sm2, semas K !! s1 = Some sm1 → semas K !! s2 = Some sm2 →
     t ∈ waiters sm1 → t ∈ waiters sm2 → s1 = s2 ∧ NoDup (waiters sm1) ∧ t ≠ cur K).
Proof.
  intros HR. pose proof (inv_place _ (reachable_inv _ HR)) as P.
  destruct P as [_ Prun _ _ Pready Pnd Pwait _ _ _ _]. split_and!; [done| |].
  - intros (th & Ht & Hs & _)%Pready. split.
    + intros ->. assert (status th = THREAD_RUNNING) by by apply (Prun _ _ Ht). congruence.
    + intros s sm Hsm (u & Hu & Hb & _)%(proj2 (Pwait s sm Hsm)). congruence.
  - intros s1 s2 sm1 sm2 H1 H2 (u & Hu & Hb & Hw)%(proj2 (Pwait s1 sm1 H1)).
    intros (v & Hv & _ & Hw')%(proj2 (Pwait s2 sm2 H2)). rewrite Hu in Hv. injection Hv as <-.
    split_and!; [congruence|apply (Pwait s1 sm1 H1)|]. intros ->.
    assert (status u = THREAD_RUNNING) by by apply (Prun _ _ Hu). congruence.
Qed.

(** C19: sleeping threads wake up on time.  In every reachable state, that is as
    long as no two threads have changed the list of all threads at the same time,
    a timer interrupt makes every thread whose wake-up time has come ready (or
    runs it at once), and leaves every other sleeping thread asleep with the same
    wake-up time.  The interrupt may come while a thread is being put on the
    list. *)
Theorem sleep_wakes_on_time K t th :
  reachable K → intr_on K = true → threads K !! t = Some th →
  status th = THREAD_BLOCKED → 0 < wakeup_time th →
  ∃ K' th', exec_event EvTimer K = Ok (tt, K') ∧ ticks K' = s64 (ticks K + 1) ∧
    threads K' !! t = Some th' ∧
    (if wakeup_time th <=? ticks K'
     then (status th' = THREAD_READY ∨ (status th' = THREAD_RUNNING ∧ t = cur K')) ∧ wakeup_time th' = 0
     else th' = th).
Proof.
  intros HR Hon Ht Hs Hw. pose proof (reachable_inv _ HR) as HI. pose proof (inv_place _ HI) as P.
  destruct (pl_live _ _ _ _ _ _ _ _ P (cur K) eq_refl) as [thc Htc].
  destruct (timer_irq_inv K thc HI Htc Hon) as (K' & E & _ & Etk & Hall).
  destruct (current_place _ _ P Htc) as [_ Hrun _ _].
  destruct (Hall t th Ht) as [E'|(Ec & E' & Hx)]; [congruence|congruence| |].
  - exists K', (wake_due (ticks K') th). rewrite Etk. split_and!; [done..|]. unfold wake_due, due.
    rewrite Hs, bool_decide_true, (proj2 (Z.ltb_lt _ _)) by done. simpl.
    destruct (_ <=? _); [|done]. split; [by left|done].
  - eexists K', _. split_and!; [done..|]. rewrite Etk. unfold wake_due, due in *.
    rewrite Hs, bool_decide_true, (proj2 (Z.ltb_lt _ _)) in * by done. simpl in *.
    destruct (_ <=? _); [split; [right|]; done|]. destruct Hx as [Hx| ->]; [congruence|].
    destruct (pl_thread P _ _ Ht) as [_ _ _ Hi Hst]. rewrite Hs in Hst.
    destruct Hst as [[? _]|[_ Ecode]]; [lia|]. rewrite Ecode, bool_decide_true in Hi by done. done.
Qed.

(** [thread_yield] is round-robin: the caller goes to the end of the ready
    list and its first thread runs, the caller itself when it was alone. *)
Theorem yield_round_robin K th :
  reachable K → threads K !! cur K = Some th → code th = [] →
  ∃ K', exec_event (EvCall CYield) K = Ok (tt, K') ∧
    cur K' :: ready_list K' = ready_list K ++ [cur K] ∧
    thread_current K' = Ok (cur K', K').
Proof.
  intros HR Ht Hc. pose proof (reachable_inv _ HR) as HI.
  destruct (thread_yield_inv K th) as (K' & E & HI' & _ & [S1 S2 _ _]); try done; try apply HI.
  { rewrite (call_level K th HI Ht Hc), Hc. done. }
  exists K'. split; [done|]. simpl in S1, S2.
  rewrite decide_False in S1, S2.
  2, 3: intros E2; pose proof (call_not_idle K th HI Ht Hc) as Hn; rewrite bool_decide_true in Hn; done.
  split; [rewrite S1, S2; by destruct (ready_list K)|].
  destruct (pl_live _ _ _ _ _ _ _ _ (inv_place _ HI') (cur K') eq_refl) as [thc Htc].
  eapply thread_current_ok, current_place; [apply HI'|exact Htc].
Qed.

(** [timer_msleep], [timer_usleep] and [timer_nsleep] sleep for the number
    of whole ticks in the given time, rounded down, and do not give up the
    processor when that is none. *)
Theorem real_time_sleep_ticks num K :
  intr_on K = true → 0 ≤ num → num * TIMER_FREQ < 2 ^ 63 →
  timer_msleep num K = (if 0 <? num * 100 / 1000 then timer_sleep (num * 100 / 1000) K else Ok (tt, K)) ∧
  timer_usleep num K = (if 0 <? num * 100 / 1000000 then timer_sleep (num * 100 / 1000000) K else Ok (tt, K)) ∧
  timer_nsleep num K =
    (if 0 <? num * 100 / 1000000000 then timer_sleep (num * 100 / 1000000000) K else Ok (tt, K)).
Proof.
  intros Hon H0 H1. unfold TIMER_FREQ in H1.
  assert (∀ d, 0 < d → Z.rem d 1000 = 0 → real_time_sleep num d K =
    if 0 <? num * 100 / d then timer_sleep (num * 100 / d) K else Ok (tt, K)) as Hd.
  { intros d Hpos Hrem. unfold real_time_sleep, TIMER_FREQ. rewrite s64_small by lia.
    rewrite Z.quot_div_nonneg by lia. erewrite bind_ok by reflexivity. rewrite Hon.
    erewrite bind_ok by reflexivity. rewrite Z.gtb_ltb. destruct (0 <? num * 100 / d); [done|].
    unfold real_time_delay. by rewrite Hrem. }
  split_and!; by apply Hd.
Qed.

(** ** Executions that can be checked *)

#[export] Instance call_ok_dec K c : Decision (call_ok K c).
Proof.
  assert (∀ o : option Z, Decision (∃ h, o = Some h ∧ h ≠ cur K)) as Ho.
  { intros [h|]; [destruct (decide (h = cur K)) as [->|N]|].
    - right. by intros (h & [= <-] & ?).
    - left. by exists h.
    - right. by intros (h & ? & _). }
  destruct c; simpl; apply _.
Defined.

#[export] Instance allowed_dec K e : Decision (allowed K e).
Proof.
  destruct e as [|c|]; simpl.
  - destruct (threads K !! cur K) as [th|]; [destruct (decide (code th = [])) as [E|N]|].
    + right. by intros (u & [= <-] & ?).
    + left. by exists th.
    + right. by intros (u & ? & _).
  - apply and_dec; [|apply _]. destruct (threads K !! cur K) as [th|]; [destruct (decide (code th = [])) as [E|N]|].
    + left. by exists th.
    + right. by intros (u & [= <-] & ?).
    + right. by intros (u & ? & _).
  - apply _.
Defined.

(** Every step of the execution is allowed. *)
Fixpoint legal (es : list event) (K : kernel) : bool :=
  match es with
  | [] => true
  | e :: r => bool_decide (allowed K e) && match exec_event e K with Ok (_, K') => legal r K' | Err _ => false end
  end.

Lemma run_reachable es : ∀ K K', reachable K → legal es K = true → run es K = Ok (tt, K') → reachable K'.
Proof.
  induction es as [|e es IH]; intros K K' HR Hl E; [by injection E as <-|].
  simpl in Hl. apply andb_true_iff in Hl as [Ha%bool_decide_eq_true Hl]. simpl in E.
  apply bind_inv in E as ([] & K1 & E1 & E2). rewrite E1 in Hl. eapply IH; [by eapply reachable_step|done|done].
Qed.

Definition worker_page : Z := 0xc0105000.
Definition worker_page_2 : Z := 0xc0106000.

(** The main thread creates two threads and waits for a semaphore: the first of
    them runs, the second is ready. *)
Definition busy_events : list event :=
  EvCall (CCreate worker_page [119] 31) :: replicate 6 EvRun ++ EvCall (CCreate worker_page_2 [120] 31) :: replicate 6 EvRun ++
  [EvCall (CSemaInit 5 0); EvCall (CSemaDown 5)].
Definition busy_state : kernel := match run busy_events booted_state with Ok (_, K) => K | Err _ => booted_state end.

Lemma busy_reachable : reachable busy_state.
Proof. apply (run_reachable busy_events booted_state); [apply reachable_boot, booted_eq|vm_compute; reflexivity..]. Qed.

(** ** Witnesses *)

Lemma kernel_safe_witness :
  ∃ K', exec_event (EvCall (CSleep 3)) booted_state = Ok (tt, K') ∧ reachable K' ∧ Inv K'.
Proof.
  apply (kernel_safe booted_state (EvCall (CSleep 3))).
  - apply reachable_boot, booted_eq.
  - split; [|vm_compute; split; congruence]. exists main_thread. split; [|done]. apply booted_lookup. by left.
Defined.

(** The main thread holds a lock, another thread waits for it, and a third is ready. *)
Definition contended_events : list event :=
  EvCall (CCreate worker_page [119] 31) :: replicate 6 EvRun ++ [EvCall (CLockInit 7); EvCall (CLockAcquire 7); EvRun; EvCall CYield;
    EvRun; EvCall (CLockAcquire 7); EvRun].
Definition contended_state : kernel := match run contended_events booted_state with Ok (_, K) => K | Err _ => booted_state end.

Lemma lock_mutual_exclusion_witness :
  owns contended_state 7 main_page ∧ semas contended_state !! SLock 7 = Some (mk_sema 0 [worker_page]) ∧
  ∀ t, owns contended_state 7 t → t = main_page.
Proof.
  assert (reachable contended_state) as HR by
    (apply (run_reachable contended_events booted_state); [apply reachable_boot, booted_eq|vm_compute; reflexivity..]).
  assert (owns contended_state 7 main_page) as Ho by (left; split; [vm_compute; reflexivity|done]).
  destruct (lock_mutual_exclusion contended_state 7 main_page HR) as (sm & _ & Hu & _); [vm_compute; reflexivity|].
  split_and!; [exact Ho|vm_compute; reflexivity|]. intros t Ht. by apply Hu.
Defined.

Lemma elem_on_one_list_witness :
  ready_list busy_state = [worker_page_2] ∧ (semas busy_state !! SSema 5 = Some (mk_sema 0 [main_page])) ∧
  (∀ s sm, semas busy_state !! s = Some sm → worker_page_2 ∉ waiters sm) ∧ main_page ≠ cur busy_state ∧
  ∀ s sm, semas busy_state !! s = Some sm → main_page ∈ waiters sm → s = SSema 5.
Proof.
  assert (semas busy_state !! SSema 5 = Some (mk_sema 0 [main_page])) as Hm by (vm_compute; reflexivity).
  pose proof (elem_on_one_list busy_state main_page busy_reachable) as (_ & _ & Hw).
  split_and!; [vm_compute; reflexivity|exact Hm| | |].
  - apply (elem_on_one_list busy_state worker_page_2 busy_reachable). vm_compute. left.
  - by destruct (Hw _ _ _ _ Hm Hm ltac:(left) ltac:(left)) as (_ & _ & ?).
  - intros s sm Hs Hin. by destruct (Hw s (SSema 5) sm _ Hs Hm Hin ltac:(left)) as (? & _).
Defined.

(** The main thread sleeps for one tick. *)
Definition sleeping_state : kernel :=
  match run [EvCall (CSleep 1); EvRun] booted_state with Ok (_, K) => K | Err _ => booted_state end.

Lemma sleeping_reachable : reachable sleeping_state.
Proof. apply (run_reachable [EvCall (CSleep 1); EvRun] booted_state); [apply reachable_boot, booted_eq|vm_compute; reflexivity..]. Qed.

Lemma sleep_wakes_on_time_witness :
  ∃ K' th', exec_event EvTimer sleeping_state = Ok (tt, K') ∧ threads K' !! main_page = Some th' ∧
    wakeup_time th' = 0.
Proof.
  assert (∃ th, threads sleeping_state !! main_page = Some th ∧ status th = THREAD_BLOCKED ∧
    wakeup_time th = 1) as (th & Ht & Hs & Hw).
  { eexists. split; [vm_compute; reflexivity|]. split; reflexivity. }
  destruct (sleep_wakes_on_time sleeping_state main_page th) as (K' & th' & E & Etk & Ht' & H);
    [apply sleeping_reachable|vm_compute; reflexivity|done|done|lia|].
  rewrite Etk, Hw in H. destruct H as [_ H]. eauto.
Defined.

Lemma yield_round_robin_witness :
  ∃ K', exec_event (EvCall CYield) booted_state = Ok (tt, K') ∧ cur K' = main_page.
Proof.
  destruct (yield_round_robin booted_state main_thread) as (K' & E & H & _);
    [apply reachable_boot, booted_eq|apply booted_lookup; by left|done|].
  exists K'. split; [done|]. by injection H as ->.
Defined.

Lemma real_time_sleep_ticks_witness :
  timer_msleep 25 booted_state = timer_sleep 2 booted_state.
Proof. apply (real_time_sleep_ticks 25 booted_state); vm_compute; congruence. Defined.

(** The main thread is preempted in the middle of [thread_create], and the other
    thread exits: the steps overlap. *)
Definition racing_events : list event :=
  EvCall (CCreate worker_page [119] 31) :: replicate 6 EvRun ++ concat (replicate 3 [EvTimer; EvRun]) ++
  [EvCall (CCreate worker_page_2 [120] 31); EvTimer; EvRun].

Definition racing_state : kernel := match run racing_events booted_state with Ok (_, K) => K | Err _ => booted_state end.

Example exit_overlaps :
  legal racing_events booted_state = true ∧ bool_decide (allowed racing_state (EvCall CExit)) = true ∧
  overlaps racing_state (EvCall CExit) = true ∧ exec_event (EvCall CExit) racing_state = Err BadAccess.
Proof. vm_compute. done. Qed.
