(* ===== verification/ThreadsLive.v ===== *)
(** * Every ready thread runs

    A thread on the ready list runs after a bounded number of timer ticks,
    whatever the threads do in the meantime: the ready list is a queue, a
    thread that keeps the processor loses it when its time slice is over, and
    no call moves a thread back on the list.  The proofs do not need the
    invariant of the thread system: they classify the kernel's functions by what
    they do to the queue, and follow the structure of the code. *)

From S2P Require Import Prelude Threads ThreadsInv ThreadsStep ThreadsCalls ThreadsLink ThreadsSpec.

(** ** What a function does to the queue *)

(** No context switch: threads are at most added at the end. *)
Definition stays (K K' : kernel) : Prop :=
  cur K' = cur K ∧ thread_ticks K' = thread_ticks K ∧ yield_on_return K' = yield_on_return K ∧
  ∃ added, ready_list K' = ready_list K ++ added.

(** One context switch, to the first thread of the queue, with a fresh time slice. *)
Definition dispatched (K K' : kernel) : Prop :=
  thread_ticks K' = 0 ∧ (ready_list K = [] ∨ ∃ added, ready_list K ++ added = cur K' :: ready_list K').

Definition quiet {A} (m : ST kernel A) : Prop := ∀ K a K', m K = Ok (a, K') → stays K K'.
Definition switches {A} (m : ST kernel A) : Prop := ∀ K a K', m K = Ok (a, K') → dispatched K K'.
Definition moves {A} (m : ST kernel A) : Prop := ∀ K a K', m K = Ok (a, K') → stays K K' ∨ dispatched K K'.

#[export] Instance stays_preorder : PreOrder stays.
Proof.
  split.
  - intros K. split_and!; [done..|]. exists []. by rewrite app_nil_r.
  - intros K1 K2 K3 (E1 & T1 & Y1 & a1 & R1) (E2 & T2 & Y2 & a2 & R2). split_and!; [congruence..|].
    exists (a1 ++ a2). by rewrite R2, R1, app_assoc.
Qed.

Lemma stays_dispatched K1 K2 K3 : stays K1 K2 → dispatched K2 K3 → dispatched K1 K3.
Proof.
  intros (_ & _ & _ & a1 & R1) [T [E|[a2 R2]]]; (split; [done|]).
  - left. rewrite R1 in E. by apply app_nil in E as [? _].
  - right. exists (a1 ++ a2). by rewrite app_assoc, <-R1.
Qed.

Lemma quiet_bind {A B} (m : ST kernel A) (f : A → ST kernel B) : quiet m → (∀ a, quiet (f a)) → quiet (m ≫= f).
Proof. intros Hm Hf K b K' (a & K1 & E1 & E2)%bind_inv. etrans; [by eapply Hm|by eapply Hf]. Qed.

Lemma switches_bind {A B} (m : ST kernel A) (f : A → ST kernel B) :
  quiet m → (∀ a, switches (f a)) → switches (m ≫= f).
Proof. intros Hm Hf K b K' (a & K1 & E1 & E2)%bind_inv. eapply stays_dispatched; [by eapply Hm|by eapply Hf]. Qed.

Lemma moves_bind {A B} (m : ST kernel A) (f : A → ST kernel B) : quiet m → (∀ a, moves (f a)) → moves (m ≫= f).
Proof.
  intros Hm Hf K b K' (a & K1 & E1 & E2)%bind_inv. apply Hm in E1. destruct (Hf a _ _ _ E2) as [H|H].
  - left. by etrans.
  - right. by eapply stays_dispatched.
Qed.

Lemma quiet_moves {A} (m : ST kernel A) : quiet m → moves m.
Proof. intros Hm K a K' E. left. by eapply Hm. Qed.

Lemma switches_moves {A} (m : ST kernel A) : switches m → moves m.
Proof. intros Hm K a K' E. right. by eapply Hm. Qed.

(** Case analysis on a computation that succeeded. *)
Ltac inv_exec :=
  repeat match goal with
  | H : (_ ≫= _) _ = Ok _ |- _ => apply bind_inv in H as (? & ? & ? & H)
  | H : get _ = Ok _ |- _ => unfold get in H
  | H : mret _ _ = Ok _ |- _ => unfold mret, st_ret in H
  | H : modify _ _ = Ok _ |- _ => unfold modify in H
  | H : assert ?b _ = Ok _ |- _ => destruct b; cbn in H
  | H : Ok _ = Ok _ |- _ => injection H; clear H; intros
  | H : match threads ?K !! ?t with _ => _ end = Ok _ |- _ => destruct (threads K !! t)
  | H : (if ?b then _ else _) _ = Ok _ |- _ => destruct b
  | H : Err _ = Ok _ |- _ => discriminate H
  | _ => progress subst
  end.

(** ** Basic steps *)

Create HintDb queue.

Lemma quiet_ret {A} (a : A) : quiet (mret a).
Proof. by intros K ? K' [= _ <-]. Qed.
Lemma quiet_get : quiet (@get kernel).
Proof. by intros K ? K' [= _ <-]. Qed.
Lemma quiet_fail {A} e : quiet (fail (A := A) e).
Proof. by intros K ? K' [=]. Qed.
Lemma quiet_lift {A} (r : result A) : quiet (lift r).
Proof. intros K a K' E. unfold lift in E. destruct r; [by injection E as _ <-|done]. Qed.
Lemma quiet_assert b : quiet (assert b).
Proof. apply quiet_lift. Qed.
Lemma quiet_modify f : (∀ K, stays K (f K)) → quiet (modify f).
Proof. intros Hf K a K' [= _ <-]. apply Hf. Qed.
Lemma quiet_read {A B} (f : kernel → option A) (g : A → B) e :
  quiet (λ K, match f K with Some x => Ok (g x, K) | None => Err e end).
Proof. intros K a K' E. simpl in E. destruct (f K); [by injection E as _ <-|done]. Qed.

Lemma stays_fields K K' : cur K' = cur K → thread_ticks K' = thread_ticks K → yield_on_return K' = yield_on_return K →
  ready_list K' = ready_list K → stays K K'.
Proof. intros. split_and!; [done..|]. exists []. by rewrite app_nil_r. Qed.

Lemma stays_ready_add K t : stays K (set_ready (ready_list K ++ [t]) K).
Proof. split_and!; [done..|]. by exists [t]. Qed.

#[export] Hint Resolve quiet_ret quiet_get quiet_fail quiet_lift quiet_assert stays_ready_add : queue.
#[export] Hint Extern 3 (stays _ _) => by apply stays_fields : queue.
#[export] Hint Extern 2 (quiet (modify _)) => apply quiet_modify; intros ? : queue.

(** Follow the code: binds, conditionals and matches. *)
Ltac quiet_step :=
  match goal with
  | |- quiet (_ ≫= _) => apply quiet_bind; [|intros ?]
  | |- quiet (if ?b then _ else _) => destruct b
  | |- quiet (match ?x with _ => _ end) => destruct x
  | |- quiet (let _ := _ in _) => cbv zeta
  | |- quiet _ => solve [auto with queue]
  end.
Ltac quiet_auto := repeat quiet_step.

Lemma quiet_get_thread t : quiet (get_thread t).
Proof. intros K a K' E. unfold get_thread in E. destruct (_ !! _); [by injection E as _ <-|done]. Qed.
Lemma quiet_get_sema s : quiet (get_sema s).
Proof. intros K a K' E. unfold get_sema in E. destruct (_ !! _); [by injection E as _ <-|done]. Qed.
Lemma quiet_get_holder l : quiet (get_holder l).
Proof. intros K a K' E. unfold get_holder in E. destruct (_ !! _); [by injection E as _ <-|done]. Qed.
Lemma quiet_get_cond c : quiet (get_cond c).
Proof. intros K a K' E. unfold get_cond in E. destruct (_ !! _); [by injection E as _ <-|done]. Qed.
#[export] Hint Resolve quiet_get_thread quiet_get_sema quiet_get_holder quiet_get_cond : queue.

Lemma quiet_upd_thread t f : quiet (upd_thread t f).
Proof. unfold upd_thread. quiet_auto. Qed.
Lemma quiet_put_sema s sm : quiet (put_sema s sm).
Proof. unfold put_sema. quiet_auto. Qed.
Lemma quiet_put_holder l h : quiet (put_holder l h).
Proof. unfold put_holder. quiet_auto. Qed.
Lemma quiet_put_cond c w : quiet (put_cond c w).
Proof. unfold put_cond. quiet_auto. Qed.
#[export] Hint Resolve quiet_upd_thread quiet_put_sema quiet_put_holder quiet_put_cond : queue.

Lemma quiet_push_code ks : quiet (push_code ks).
Proof. unfold push_code. quiet_auto. Qed.
Lemma quiet_intr_get_level : quiet intr_get_level.
Proof. unfold intr_get_level. quiet_auto. Qed.
Lemma quiet_intr_context : quiet intr_context.
Proof. unfold intr_context. quiet_auto. Qed.
Lemma quiet_running_thread : quiet running_thread.
Proof. unfold running_thread. quiet_auto. Qed.
Lemma quiet_is_thread t : quiet (is_thread t).
Proof. unfold is_thread. quiet_auto. Qed.
#[export] Hint Resolve quiet_push_code quiet_intr_get_level quiet_intr_context quiet_running_thread quiet_is_thread : queue.

Lemma quiet_intr_enable : quiet intr_enable.
Proof. unfold intr_enable. quiet_auto. Qed.
Lemma quiet_intr_disable : quiet intr_disable.
Proof. unfold intr_disable. quiet_auto. Qed.
#[export] Hint Resolve quiet_intr_enable quiet_intr_disable : queue.
Lemma quiet_intr_set_level b : quiet (intr_set_level b).
Proof. unfold intr_set_level. quiet_auto. Qed.
Lemma quiet_thread_current : quiet thread_current.
Proof. unfold thread_current. quiet_auto. Qed.
#[export] Hint Resolve quiet_intr_set_level quiet_thread_current : queue.

Lemma quiet_thread_unblock t : quiet (thread_unblock t).
Proof. unfold thread_unblock. quiet_auto. Qed.
#[export] Hint Resolve quiet_thread_unblock : queue.

Lemma quiet_init_checks t prio : quiet (init_checks t prio).
Proof. unfold init_checks. quiet_auto. Qed.
Lemma quiet_no_link : quiet no_link.
Proof. unfold no_link. quiet_auto. Qed.
Lemma quiet_link_thread t nm prio : quiet (link_thread t nm prio).
Proof. unfold link_thread. quiet_auto. Qed.
#[export] Hint Resolve quiet_init_checks quiet_no_link quiet_link_thread : queue.

Lemma quiet_sema_init s v : quiet (sema_init s v).
Proof. unfold sema_init. quiet_auto. Qed.
Lemma quiet_sema_try_down s : quiet (sema_try_down s).
Proof. unfold sema_try_down. quiet_auto. Qed.
Lemma quiet_sema_up s : quiet (sema_up s).
Proof. unfold sema_up. quiet_auto. Qed.
#[export] Hint Resolve quiet_sema_init quiet_sema_try_down quiet_sema_up : queue.

Lemma quiet_lock_held l : quiet (lock_held_by_current_thread l).
Proof. unfold lock_held_by_current_thread. quiet_auto. Qed.
#[export] Hint Resolve quiet_lock_held : queue.
Lemma quiet_lock_release l : quiet (lock_release l).
Proof. unfold lock_release. quiet_auto. Qed.
Lemma quiet_cond_signal c l : quiet (cond_signal c l).
Proof. unfold cond_signal. quiet_auto. Qed.
#[export] Hint Resolve quiet_lock_release quiet_cond_signal : queue.

(** ** Context switches *)

Lemma tail_inv prev K K' :
  thread_schedule_tail prev K = Ok (tt, K') → cur K' = cur K ∧ ready_list K' = ready_list K ∧ thread_ticks K' = 0.
Proof.
  unfold thread_schedule_tail, running_thread, intr_get_level, upd_thread, get_thread. intros E.
  by inv_exec.
Qed.

Lemma next_inv K t K' :
  next_thread_to_run K = Ok (t, K') → cur K' = cur K ∧ (ready_list K = [] ∨ ready_list K = t :: ready_list K').
Proof.
  unfold next_thread_to_run. intros (? & ? & [= <- <-] & E)%bind_inv. destruct (ready_list K) eqn:ER.
  - injection E as <- <-. auto.
  - apply bind_inv in E as ([] & ? & [= <-] & [= <- <-]). auto.
Qed.

Lemma switches_schedule : switches schedule.
Proof.
  intros K [] K' E. unfold schedule in E. apply bind_inv in E as (c & K1 & E1 & E). injection E1 as <- <-.
  apply bind_inv in E as (t & K2 & E2 & E). apply next_inv in E2 as [C2 R2].
  apply bind_inv in E as (lv & K3 & E3 & E). injection E3 as <- <-.
  apply bind_inv in E as ([] & K3 & E3 & E). assert (K3 = K2) as -> by (destruct (negb _); [by injection E3|done]).
  apply bind_inv in E as (th & K3 & E4 & E).
  assert (K3 = K2) as -> by (unfold get_thread in E4; destruct (_ !! _); [by injection E4|done]).
  apply bind_inv in E as ([] & K3 & E5 & E). assert (K3 = K2) as -> by (destruct (bool_decide _); [by injection E5|done]).
  apply bind_inv in E as (b & K3 & E6 & E).
  assert (K3 = K2) as ->.
  { unfold is_thread in E6. destruct (_ =? _); [by injection E6|]. apply bind_inv in E6 as (th' & K4 & E7 & E8).
    injection E8 as _ <-. unfold get_thread in E7. destruct (_ !! _); [by injection E7|done]. }
  apply bind_inv in E as ([] & K3 & E7 & E). assert (K3 = K2) as -> by (destruct b; [by injection E7|done]).
  apply bind_inv in E as (prev & K3 & E8 & E). apply tail_inv in E as (C & R & T).
  assert (cur K3 = t ∧ ready_list K3 = ready_list K2) as [C3 R3].
  { destruct (Z.eqb_spec (cur K) t) as [E9|N]; cbn [negb] in E8.
    - injection E8 as _ <-. split; congruence.
    - apply bind_inv in E8 as ([] & ? & [= <-] & [= _ <-]). done. }
  split; [done|]. destruct R2 as [->|R2]; [by left|]. right. exists []. by rewrite app_nil_r, R2, C, C3, R, R3.
Qed.

#[export] Hint Resolve switches_schedule : queue.

Ltac moves_step :=
  match goal with
  | |- switches (_ ≫= _) => apply switches_bind; [quiet_auto|intros ?]
  | |- switches _ => solve [auto with queue]
  | |- moves (_ ≫= _) => apply moves_bind; [quiet_auto|intros ?]
  | |- moves (if ?b then _ else _) => destruct b
  | |- moves (match ?x with _ => _ end) => destruct x
  | |- moves _ => solve [auto with queue]
  | |- moves _ => apply quiet_moves; solve [quiet_auto]
  | |- moves _ => apply switches_moves
  end.
Ltac moves_auto := repeat moves_step.

Lemma switches_thread_block : switches thread_block.
Proof. unfold thread_block. moves_auto. Qed.
Lemma switches_thread_yield : switches thread_yield.
Proof. unfold thread_yield. moves_auto. Qed.
Lemma switches_thread_exit : switches thread_exit.
Proof. unfold thread_exit. moves_auto. Qed.
#[export] Hint Resolve switches_thread_block switches_thread_yield switches_thread_exit : queue.

Lemma moves_sema_down_loop s b : moves (sema_down_loop s b).
Proof. unfold sema_down_loop. moves_auto. Qed.
#[export] Hint Resolve moves_sema_down_loop : queue.
Lemma moves_sema_down s : moves (sema_down s).
Proof. unfold sema_down. moves_auto. Qed.
#[export] Hint Resolve moves_sema_down : queue.
Lemma moves_lock_acquire l : moves (lock_acquire l).
Proof. unfold lock_acquire. moves_auto. Qed.
#[export] Hint Resolve moves_lock_acquire : queue.

Lemma quiet_alloc_frame t n : quiet (alloc_frame t n).
Proof. unfold alloc_frame. quiet_auto. Qed.
Lemma quiet_timer_ticks : quiet timer_ticks.
Proof. unfold timer_ticks. quiet_auto. Qed.
#[export] Hint Resolve quiet_alloc_frame quiet_timer_ticks : queue.

Lemma moves_call c : moves (exec_call c).
Proof.
  destruct c; simpl; [apply switches_moves; auto with queue| |apply switches_moves; auto with queue|..];
    unfold timer_sleep, thread_create, lock_init, lock_try_acquire, cond_init, cond_wait, cond_broadcast, thread_set_priority; moves_auto.
Qed.

Lemma moves_instr i : moves (exec_instr i).
Proof.
  destruct i; simpl; unfold lock_set_holder, cond_broadcast, allocate_tid, thread_create_rest, idle_start, idle_hlt, idle_block; moves_auto.
Qed.
#[export] Hint Resolve moves_call moves_instr : queue.

(** ** Timer interrupts *)

Lemma thread_tick_inv K K' :
  thread_tick K = Ok (tt, K') →
  cur K' = cur K ∧ ready_list K' = ready_list K ∧ thread_ticks K' = u32 (thread_ticks K + 1) ∧
  yield_on_return K' = (TIME_SLICE <=? u32 (thread_ticks K + 1)) || yield_on_return K.
Proof.
  unfold thread_tick. intros (t & K1 & E1 & E)%bind_inv.
  assert (K1 = K) as -> by (by unfold thread_current, running_thread, is_thread, get_thread in E1; inv_exec).
  apply bind_inv in E as (? & ? & [= <- <-] & E). apply bind_inv in E as ([] & K1 & [= <-] & E).
  apply bind_inv in E as (? & ? & [= <- <-] & E). apply bind_inv in E as ([] & K2 & [= <-] & E).
  apply bind_inv in E as (? & ? & [= <- <-] & E). unfold intr_yield_on_return, intr_context in E.
  destruct (t =? idle_thread K); cbn [thread_ticks set_thread_ticks set_tick_counts] in E;
    destruct (TIME_SLICE <=? u32 (thread_ticks K + 1)); by inv_exec.
Qed.

Lemma quiet_foreach f ts : (∀ t, quiet (f t)) → quiet (foreach f ts).
Proof. intros Hf. induction ts as [|t ts IH]; simpl; [apply quiet_ret|]. apply quiet_bind; auto. Qed.

Lemma quiet_wake now : quiet (thread_foreach (update_sleeping_threads now)).
Proof.
  unfold thread_foreach. quiet_auto. apply quiet_foreach. intros t. unfold update_sleeping_threads. quiet_auto.
Qed.

(** A tick within the time slice of the running thread. *)
Definition ticked (K K' : kernel) : Prop :=
  cur K' = cur K ∧ thread_ticks K' = u32 (thread_ticks K + 1) ∧ thread_ticks K' < TIME_SLICE ∧
  ∃ added, ready_list K' = ready_list K ++ added.

Lemma timer_interrupt_inv K K' :
  timer_interrupt K = Ok (tt, K') → yield_on_return K = false →
  cur K' = cur K ∧ thread_ticks K' = u32 (thread_ticks K + 1) ∧
  yield_on_return K' = (TIME_SLICE <=? u32 (thread_ticks K + 1)) ∧ ∃ added, ready_list K' = ready_list K ++ added.
Proof.
  unfold timer_interrupt. intros (? & ? & [= <- <-] & E)%bind_inv Hy. apply bind_inv in E as ([] & K1 & [= <-] & E).
  apply bind_inv in E as ([] & K2 & (C1 & R1 & T1 & Y1)%thread_tick_inv & E).
  apply quiet_wake in E as (C2 & T2 & Y2 & added & R2). simpl in *. rewrite Hy, orb_false_r in Y1.
  split_and!; [congruence..|]. exists added. congruence.
Qed.

Lemma timer_irq_step K K' : timer_irq K = Ok (tt, K') → ticked K K' ∨ dispatched K K'.
Proof.
  unfold timer_irq. intros ([] & K1 & [= <-] & E)%bind_inv.
  apply bind_inv in E as ([] & K2 & (C2 & T2 & _ & a2 & R2)%quiet_push_code & E). simpl in C2, T2, R2.
  unfold intr_handler in E. apply bind_inv in E as (? & ? & [= <- <-] & E).
  apply bind_inv in E as ([] & K3 & E3 & E). assert (K3 = K2) as -> by (destruct (negb _); [by injection E3|done]).
  apply bind_inv in E as (? & ? & [= <- <-] & E).
  apply bind_inv in E as ([] & K3 & E4 & E). assert (K3 = K2) as -> by (destruct (negb _); [by injection E4|done]).
  apply bind_inv in E as ([] & K3 & [= <-] & E). apply bind_inv in E as ([] & K3 & [= <-] & E).
  apply bind_inv in E as ([] & K3 & (C3 & T3 & Y3 & a3 & R3)%timer_interrupt_inv & E); [|done]. simpl in C3, T3, Y3, R3.
  apply bind_inv in E as (? & ? & [= <- <-] & E).
  apply bind_inv in E as ([] & K4 & E5 & E). assert (K4 = K3) as -> by (destruct (negb _); [by injection E5|done]).
  apply bind_inv in E as (? & ? & [= <- <-] & E).
  apply bind_inv in E as ([] & K4 & E6 & E). assert (K4 = K3) as -> by (destruct (in_external_intr _); [by injection E6|done]).
  apply bind_inv in E as ([] & K4 & [= <-] & E). apply bind_inv in E as (? & ? & [= <- <-] & E).
  cbn [yield_on_return set_context] in E. rewrite Y3, T2 in E. rewrite T2 in T3.
  assert (ready_list K3 = ready_list K ++ a2 ++ a3) as R by (by rewrite R3, R2, app_assoc).
  destruct (Z.leb_spec TIME_SLICE (u32 (thread_ticks K + 1))).
  - right. apply switches_thread_yield in E as [T [ER|[a4 R4]]]; simpl in *; (split; [done|]).
    + left. rewrite R in ER. by apply app_nil in ER as [? _].
    + right. exists ((a2 ++ a3) ++ a4). by rewrite app_assoc, <-R.
  - left. injection E as <-. split_and!; simpl; [congruence|done|congruence|by exists (a2 ++ a3)].
Qed.

(** ** One event, and runs *)

Lemma event_step e K K' :
  exec_event e K = Ok (tt, K') →
  dispatched K K' ∨ match e with EvTimer => ticked K K' | _ => stays K K' end.
Proof.
  intros E. destruct e as [|c|]; simpl in E.
  - assert (moves (exec_event EvRun)) as H by (simpl; moves_auto).
    apply or_comm. by apply (H K tt).
  - apply or_comm. by apply moves_call in E.
  - apply timer_irq_step in E. tauto.
Qed.

(** The number of timer interrupts among some events. *)
Fixpoint timer_count (es : list event) : nat :=
  match es with
  | [] => 0
  | EvTimer :: es => S (timer_count es)
  | _ :: es => timer_count es
  end.

(** The timer interrupts until the thread at position [k] of the queue runs:
    four for each thread before it, and what the running thread has left. *)
Definition wait_bound (K : kernel) (k : nat) : Z := TIME_SLICE * Z.of_nat k + (TIME_SLICE - thread_ticks K).

Lemma dispatched_position K K' k t :
  dispatched K K' → ready_list K !! k = Some t →
  thread_ticks K' = 0 ∧ match k with O => cur K' = t | S k => ready_list K' !! k = Some t end.
Proof.
  intros [T [E|[added E]]] Hk; [by rewrite E in Hk|]. split; [done|].
  apply (lookup_app_l_Some _ added) in Hk. rewrite E in Hk. destruct k; [by injection Hk|done].
Qed.

Lemma runs_within es : ∀ K K' k t,
  0 ≤ thread_ticks K < TIME_SLICE → ready_list K !! k = Some t → run es K = Ok (tt, K') →
  wait_bound K k ≤ Z.of_nat (timer_count es) →
  ∃ es1 es2 K1, es = es1 ++ es2 ∧ run es1 K = Ok (tt, K1) ∧ cur K1 = t ∧ Z.of_nat (timer_count es1) ≤ wait_bound K k.
Proof.
  unfold wait_bound, TIME_SLICE. induction es as [|e es IH]; intros K K' k t Ht Hk E Hc; [simpl in Hc; lia|].
  simpl in E. apply bind_inv in E as ([] & K1 & E1 & E2).
  assert (∀ k', ready_list K1 !! k' = Some t → 0 ≤ thread_ticks K1 < 4 →
    4 * Z.of_nat k' + (4 - thread_ticks K1) + (if e is EvTimer then 1 else 0) ≤ 4 * Z.of_nat k + (4 - thread_ticks K) →
    ∃ es1 es2 K2, e :: es = es1 ++ es2 ∧ run es1 K = Ok (tt, K2) ∧ cur K2 = t ∧
      Z.of_nat (timer_count es1) ≤ 4 * Z.of_nat k + (4 - thread_ticks K)) as Hgo.
  { intros k' Hk' Ht' Hle. destruct (IH K1 K' k' t) as (es1 & es2 & K2 & -> & E3 & C & Hb); [done..| |].
    - destruct e; simpl in Hc; lia.
    - exists (e :: es1), es2, K2. split_and!; [done|simpl; by erewrite bind_ok|done|]. destruct e; simpl; lia. }
  destruct (event_step e K K1 E1) as [Hd|Hs].
  - destruct (dispatched_position _ _ _ _ Hd Hk) as [T Hp]. destruct k as [|k].
    + exists [e], es, K1. split_and!; [done|simpl; by erewrite bind_ok|done|]. destruct e; simpl; lia.
    + apply (Hgo k); [done|lia|]. destruct e; lia.
  - assert (cur K1 = cur K ∧ thread_ticks K1 = thread_ticks K + (if e is EvTimer then 1 else 0) ∧ thread_ticks K1 < 4 ∧
      ∃ added, ready_list K1 = ready_list K ++ added) as (_ & T & Tl & added & R).
    { destruct e; [destruct Hs as (? & ? & _ & ?); split_and!; (done || lia)..|].
      destruct Hs as (? & Ht1 & Hl & ?). rewrite u32_small in Ht1 by lia. done. }
    apply (Hgo k); [by rewrite R; apply lookup_app_l_Some|destruct e; lia|lia].
Qed.

Lemma reachable_ticks K : reachable K → 0 ≤ thread_ticks K < TIME_SLICE.
Proof.
  induction 1 as [K E|K e K' _ IH _ E].
  - rewrite booted_eq in E. injection E as <-. done.
  - apply event_step in E as [[-> _]|Hs]; [done|]. destruct e.
    1, 2: by destruct Hs as (_ & -> & _).
    destruct Hs as (_ & -> & ? & _). pose proof (u32_range (thread_ticks K + 1)). unfold TIME_SLICE in *.
    rewrite u32_small in * by lia. lia.
Qed.

(** C3: no ready thread starves.  Whatever calls the threads make and whenever
    the timer interrupts come, a thread at position [k] of the ready list runs
    before [4 * (k + 1)] further timer interrupts have been served: every
    execution with that many has a prefix, with no more of them, after which
    the thread is the running one. *)
Theorem ready_thread_runs K k t es K' :
  reachable K → ready_list K !! k = Some t → run es K = Ok (tt, K') →
  TIME_SLICE * (Z.of_nat k + 1) ≤ Z.of_nat (timer_count es) →
  ∃ es1 es2 K1, es = es1 ++ es2 ∧ run es1 K = Ok (tt, K1) ∧ cur K1 = t ∧
    Z.of_nat (timer_count es1) ≤ TIME_SLICE * (Z.of_nat k + 1).
Proof.
  intros HR Hk E Hc. pose proof (reachable_ticks K HR) as Ht. unfold TIME_SLICE in *.
  destruct (runs_within es K K' k t Ht Hk E) as (es1 & es2 & K1 & ? & ? & ? & Hb); unfold wait_bound, TIME_SLICE in *; [lia|].
  exists es1, es2, K1. split_and!; [done..|lia].
Qed.

(** A thread that was created and a creator that never gives up the processor. *)
Definition created : result (unit * kernel) :=
  run (EvCall (CCreate worker_page [119] 31) :: replicate 6 EvRun) booted_state.
Definition created_state : kernel := match created with Ok (_, K) => K | Err _ => booted_state end.

Lemma created_reachable : reachable created_state.
Proof.
  apply (run_reachable (EvCall (CCreate worker_page [119] 31) :: replicate 6 EvRun) booted_state); [apply reachable_boot, booted_eq|vm_compute; reflexivity..].
Qed.

(** The creator only lets the interrupts return. *)
Lemma ready_thread_runs_witness :
  ∃ es1 es2 K1, concat (replicate 4 [EvTimer; EvRun]) = es1 ++ es2 ∧ run es1 created_state = Ok (tt, K1) ∧
    cur K1 = worker_page ∧ Z.of_nat (timer_count es1) ≤ 4.
Proof.
  assert (∃ K', run (concat (replicate 4 [EvTimer; EvRun])) created_state = Ok (tt, K')) as [K' E]
    by (eexists; vm_compute; reflexivity).
  apply (ready_thread_runs created_state 0 worker_page (concat (replicate 4 [EvTimer; EvRun])) K');
    [apply created_reachable|by vm_compute|exact E|vm_compute; congruence].
Defined.
