(* ===== verification/CString.v ===== *)
(** * Memory and string functions: lib/string.c

    Memory maps addresses to bytes.  Pointers are addresses, a [char] is its
    byte; [cstr m p s] says that the string at [p] consists of the bytes [s]
    and a null terminator.  The theorems describe what the functions compute
    and which bytes of memory they change. *)

From S2P Require Import Prelude.

Abbreviation mem := (gmap Z Z).
Definition NULL : Z := 0.

(** [*p] and [*p = v]. *)
Definition ld (p : Z) : ST mem Z := λ m,
  match m !! p with Some b => Ok (b, m) | None => Err BadAccess end.
Definition st (p v : Z) : ST mem unit := λ m,
  match m !! p with Some _ => Ok (tt, <[p := v]> m) | None => Err BadAccess end.

(** A loop over a string ends within the memory that is mapped. *)
Definition str_fuel (m : mem) : nat := S (size m).

(** ** string.c *)

Definition memcpy (dst_ src_ size : Z) : ST mem Z :=
  assert (negb (dst_ =? NULL) || (size =? 0));;
  assert (negb (src_ =? NULL) || (size =? 0));;
  loopM (S (Z.to_nat size)) (λ '(dst, src, size),
    if size >? 0 then
      b ← ld src; st dst b;; mret (inl (dst + 1, src + 1, size - 1))
    else mret (inr tt)) (dst_, src_, size);;
  mret dst_.

Definition memmove (dst_ src_ size : Z) : ST mem Z :=
  assert (negb (dst_ =? NULL) || (size =? 0));;
  assert (negb (src_ =? NULL) || (size =? 0));;
  if dst_ <? src_ then
    loopM (S (Z.to_nat size)) (λ '(dst, src, size),
      if size >? 0 then
        b ← ld src; st dst b;; mret (inl (dst + 1, src + 1, size - 1))
      else mret (inr dst)) (dst_, src_, size)
  else
    loopM (S (Z.to_nat size)) (λ '(dst, src, size),
      if size >? 0 then
        b ← ld (src - 1); st (dst - 1) b;; mret (inl (dst - 1, src - 1, size - 1))
      else mret (inr dst)) (dst_ + size, src_ + size, size).

Definition memcmp (a_ b_ size : Z) : ST mem Z :=
  assert (negb (a_ =? NULL) || (size =? 0));;
  assert (negb (b_ =? NULL) || (size =? 0));;
  loopM (S (Z.to_nat size)) (λ '(a, b, size),
    if size >? 0 then
      x ← ld a; y ← ld b;
      if negb (x =? y) then mret (inr (if x >? y then 1 else -1))
      else mret (inl (a + 1, b + 1, size - 1))
    else mret (inr 0)) (a_, b_, size).

Definition strcmp (a_ b_ : Z) : ST mem Z :=
  assert (negb (a_ =? NULL));; assert (negb (b_ =? NULL));;
  m ← get;
  loopM (str_fuel m) (λ '(a, b),
    x ← ld a; y ← ld b;
    if negb (x =? 0) && (x =? y) then mret (inl (a + 1, b + 1))
    else mret (inr (if x <? y then -1 else if x >? y then 1 else 0))) (a_, b_).

Definition memchr (block_ ch_ size : Z) : ST mem Z :=
  let ch := u8 ch_ in
  assert (negb (block_ =? NULL) || (size =? 0));;
  loopM (S (Z.to_nat size)) (λ '(block, size),
    if size >? 0 then
      x ← ld block;
      if x =? ch then mret (inr block) else mret (inl (block + 1, size - 1))
    else mret (inr NULL)) (block_, size).

Definition strchr (string c_ : Z) : ST mem Z :=
  let c := u8 c_ in
  assert (negb (string =? NULL));;
  m ← get;
  loopM (str_fuel m) (λ string,
    x ← ld string;
    if x =? c then mret (inr string)
    else if x =? 0 then mret (inr NULL)
    else mret (inl (string + 1))) string.

Definition strcspn (string stop : Z) : ST mem Z :=
  m ← get;
  loopM (str_fuel m) (λ length,
    x ← ld (string + length);
    if x =? 0 then mret (inr length)
    else
      r ← strchr stop x;
      if negb (r =? NULL) then mret (inr length) else mret (inl (length + 1))) 0.

Definition strpbrk (string stop : Z) : ST mem Z :=
  m ← get;
  loopM (str_fuel m) (λ string,
    x ← ld string;
    if x =? 0 then mret (inr NULL)
    else
      r ← strchr stop x;
      if negb (r =? NULL) then mret (inr string) else mret (inl (string + 1))) string.

Definition strrchr (string c_ : Z) : ST mem Z :=
  let c := u8 c_ in
  m ← get;
  loopM (str_fuel m) (λ '(string, p),
    x ← ld string;
    if x =? 0 then mret (inr p)
    else mret (inl (string + 1, if x =? c then string else p))) (string, NULL).

Definition strspn (string skip : Z) : ST mem Z :=
  m ← get;
  loopM (str_fuel m) (λ length,
    x ← ld (string + length);
    if x =? 0 then mret (inr length)
    else
      r ← strchr skip x;
      if r =? NULL then mret (inr length) else mret (inl (length + 1))) 0.

Definition strlen (string : Z) : ST mem Z :=
  assert (negb (string =? NULL));;
  m ← get;
  loopM (str_fuel m) (λ p,
    x ← ld p; if x =? 0 then mret (inr (p - string)) else mret (inl (p + 1))) string.

Definition strnlen (string maxlen : Z) : ST mem Z :=
  m ← get;
  loopM (str_fuel m) (λ length,
    x ← ld (string + length);
    if negb (x =? 0) && (length <? maxlen) then mret (inl (length + 1))
    else mret (inr length)) 0.

Definition strstr (haystack needle : Z) : ST mem Z :=
  haystack_len ← strlen haystack;
  needle_len ← strlen needle;
  if needle_len <=? haystack_len then
    loopM (S (S (Z.to_nat haystack_len))) (λ i,
      if i <=? haystack_len - needle_len then
        r ← memcmp (haystack + i) needle needle_len;
        if r =? 0 then mret (inr (haystack + i)) else mret (inl (i + 1))
      else mret (inr NULL)) 0
  else mret NULL.

(** Returns the token and the new value of [*save_ptr]. *)
Definition strtok_r (s delimiters save : Z) : ST mem (Z * Z) :=
  assert (negb (delimiters =? NULL));;
  let s := if s =? NULL then save else s in
  assert (negb (s =? NULL));;
  m ← get;
  start ← loopM (str_fuel m) (λ s,
    x ← ld s;
    r ← strchr delimiters x;
    if negb (r =? NULL) then
      if x =? 0 then mret (inr (s, false)) else mret (inl (s + 1))
    else mret (inr (s, true))) s;
  let '(s, found) := start in
  if found : bool then
    let token := s in
    s ← loopM (str_fuel m) (λ s,
      x ← ld s; r ← strchr delimiters x;
      if r =? NULL then mret (inl (s + 1)) else mret (inr s)) s;
    x ← ld s;
    if negb (x =? 0) then st s 0;; mret (token, s + 1) else mret (token, s)
  else mret (NULL, s).

Definition memset (dst_ value size : Z) : ST mem Z :=
  assert (negb (dst_ =? NULL) || (size =? 0));;
  loopM (S (Z.to_nat size)) (λ '(dst, size),
    if size >? 0 then st dst (u8 value);; mret (inl (dst + 1, size - 1))
    else mret (inr tt)) (dst_, size);;
  mret dst_.

Definition strlcpy (dst src size : Z) : ST mem Z :=
  assert (negb (dst =? NULL));; assert (negb (src =? NULL));;
  src_len ← strlen src;
  (if size >? 0 then
     let dst_len := if src_len <? size - 1 then src_len else size - 1 in
     memcpy dst src dst_len;; st (dst + dst_len) 0
   else mret tt);;
  mret src_len.

Definition strlcat (dst src size : Z) : ST mem Z :=
  assert (negb (dst =? NULL));; assert (negb (src =? NULL));;
  src_len ← strlen src;
  dst_len ← strlen dst;
  (if (size >? 0) && (dst_len <? size) then
     let copy_cnt := if src_len <? size - dst_len - 1 then src_len else size - dst_len - 1 in
     memcpy (dst + dst_len) src copy_cnt;; st (dst + dst_len + copy_cnt) 0
   else mret tt);;
  mret (u32 (src_len + dst_len)).

(** ** Strings in memory *)

(** The bytes [l] at [p]. *)
Definition bytes_at (m : mem) (p : Z) (l : list Z) : Prop :=
  ∀ i x, l !! i = Some x → m !! (p + Z.of_nat i) = Some x.

Record cstr (m : mem) (p : Z) (s : list Z) : Prop := {
  cs_bytes : bytes_at m p (s ++ [0]);
  cs_chars : Forall (λ c, 0 < c < 256) s;
  cs_null : 0 < p
}.

(** [m'] is [m] with the [n] bytes at [dst] replaced by those at [src]. *)
Definition copied (m m' : mem) (dst src n : Z) : Prop :=
  ∀ a, m' !! a = if decide (dst ≤ a < dst + n) then m !! (a - dst + src) else m !! a.

Definition mapped (m : mem) (p n : Z) : Prop := ∀ a, p ≤ a < p + n → is_Some (m !! a).

Lemma ld_ok m p b : m !! p = Some b → ld p m = Ok (b, m).
Proof. intros E. unfold ld. by rewrite E. Qed.

Lemma st_ok m p v : is_Some (m !! p) → st p v m = Ok (tt, <[p := v]> m).
Proof. intros [b E]. unfold st. by rewrite E. Qed.

Lemma copy_forward m dst src n :
  0 ≤ n → mapped m dst n → mapped m src n → (dst ≤ src ∨ src + n ≤ dst) →
  ∀ A (res : Z → A), ∃ r m', loopM (S (Z.to_nat n)) (λ '(dst, src, size),
    if size >? 0 then b ← ld src; st dst b;; mret (inl (dst + 1, src + 1, size - 1))
    else mret (inr (res dst))) (dst, src, n) m = Ok (r, m') ∧ r = res (dst + n) ∧ copied m m' dst src n.
Proof.
  intros Hn Hd Hs Hov A res.
  eapply (loopM_rule (λ k '(d, s, z) m1, 0 ≤ z ≤ n ∧ k = Z.to_nat z ∧ d = dst + (n - z) ∧ s = src + (n - z) ∧
      copied m m1 dst src (n - z))) with (n := Z.to_nat n); [| |lia].
  2: { split_and!; try lia. intros a. rewrite decide_False by lia. done. }
  intros k [[d s] z] m1 (Hz & -> & -> & -> & Hc). destruct (Z.gtb_spec z 0) as [Hpos|Hle].
  - destruct (Hs (src + (n - z)) ltac:(lia)) as [b Hb]. destruct (Hd (dst + (n - z)) ltac:(lia)) as [b' Hb'].
    assert (m1 !! (src + (n - z)) = Some b) as Hb1.
    { rewrite Hc. case_decide; [lia|done]. }
    erewrite bind_ok by (by apply ld_ok). erewrite bind_ok.
    2: { apply st_ok. rewrite Hc. rewrite decide_False by lia. by rewrite Hb'. }
    eexists _, _. split; [reflexivity|]. exists (Z.to_nat (z - 1)). split_and!; try lia.
    intros a. destruct (decide (a = dst + (n - z))) as [->|N].
    + rewrite lookup_insert_eq, decide_True by lia. rewrite <-Hb. f_equal. lia.
    + rewrite lookup_insert_ne, Hc by done. repeat case_decide; try done; lia.
  - eexists _, _. split; [reflexivity|]. simpl. assert (z = 0) as -> by lia.
    replace (n - 0) with n in * by lia. done.
Qed.

Lemma copy_backward m dst src n :
  0 ≤ n → mapped m dst n → mapped m src n → src ≤ dst →
  ∃ r m', loopM (S (Z.to_nat n)) (λ '(dst, src, size),
    if size >? 0 then b ← ld (src - 1); st (dst - 1) b;; mret (inl (dst - 1, src - 1, size - 1))
    else mret (inr dst)) (dst + n, src + n, n) m = Ok (r, m') ∧ r = dst ∧ copied m m' dst src n.
Proof.
  intros Hn Hd Hs Hov.
  eapply (loopM_rule (λ k '(d, s, z) m1, 0 ≤ z ≤ n ∧ k = Z.to_nat z ∧ d = dst + z ∧ s = src + z ∧
      ∀ a, m1 !! a = if decide (dst + z ≤ a < dst + n) then m !! (a - dst + src) else m !! a))
    with (n := Z.to_nat n); [| |lia].
  2: { split_and!; try lia. intros a. rewrite decide_False by lia. done. }
  intros k [[d s] z] m1 (Hz & -> & -> & -> & Hc). destruct (Z.gtb_spec z 0) as [Hpos|Hle].
  - destruct (Hs (src + z - 1) ltac:(lia)) as [b Hb]. destruct (Hd (dst + z - 1) ltac:(lia)) as [b' Hb'].
    assert (m1 !! (src + z - 1) = Some b) as Hb1.
    { rewrite Hc. case_decide; [lia|done]. }
    erewrite bind_ok by (by apply ld_ok). erewrite bind_ok.
    2: { apply st_ok. rewrite Hc. rewrite decide_False by lia. by rewrite Hb'. }
    eexists _, _. split; [reflexivity|]. exists (Z.to_nat (z - 1)). split_and!; try lia.
    intros a. destruct (decide (a = dst + z - 1)) as [->|N].
    + rewrite lookup_insert_eq, decide_True by lia. rewrite <-Hb. f_equal. lia.
    + rewrite lookup_insert_ne, Hc by done. repeat case_decide; try done; lia.
  - eexists _, _. split; [reflexivity|]. simpl. assert (z = 0) as -> by lia.
    rewrite Z.add_0_r in *. done.
Qed.

Lemma bytes_at_cons m p x l : bytes_at m p (x :: l) ↔ m !! p = Some x ∧ bytes_at m (p + 1) l.
Proof.
  split.
  - intros H. split.
    + specialize (H 0%nat x eq_refl). by rewrite Z.add_0_r in H.
    + intros i y Hy. specialize (H (S i) y Hy). rewrite <-H. f_equal. lia.
  - intros [H0 H] [|i] y Hy; simpl in Hy.
    + injection Hy as <-. by rewrite Z.add_0_r.
    + rewrite <-(H i y Hy). f_equal. lia.
Qed.

Lemma bytes_at_app m p l1 l2 :
  bytes_at m p (l1 ++ l2) ↔ bytes_at m p l1 ∧ bytes_at m (p + Z.of_nat (length l1)) l2.
Proof.
  revert p. induction l1 as [|x l1 IH]; intros p.
  - simpl. rewrite Z.add_0_r. split; [|by intros [_ ?]]. intros H. split; [|done]. intros i y Hy. done.
  - rewrite <-app_comm_cons, !bytes_at_cons, IH. simpl.
    replace (p + 1 + Z.of_nat (length l1)) with (p + Z.of_nat (S (length l1))) by lia. tauto.
Qed.

(** Distinct addresses are mapped, so a string is no longer than memory. *)
Lemma bytes_at_size m p l : bytes_at m p l → (length l ≤ size m)%nat.
Proof.
  intros H. pose (addrs := (λ i, p + Z.of_nat i) <$> seq 0 (length l)).
  assert (NoDup addrs) as Hnd by (apply NoDup_fmap_2; [intros x y; lia|apply NoDup_seq]).
  replace (length l) with (size (list_to_set addrs : gset Z)).
  2: { rewrite size_list_to_set by done. unfold addrs. by rewrite length_fmap, length_seq. }
  rewrite <-(size_dom m). apply subseteq_size. intros a Ha%elem_of_list_to_set.
  apply list_elem_of_fmap in Ha as (i & -> & Hi%elem_of_seq).
  destruct (lookup_lt_is_Some_2 l i) as [x Hx]; [lia|]. apply elem_of_dom. rewrite (H i x Hx). done.
Qed.

Lemma cstr_fuel m p s : cstr m p s → (length s < str_fuel m)%nat.
Proof.
  intros [Hb _ _]. pose proof (bytes_at_size _ _ _ Hb) as H. rewrite length_app in H. simpl in H.
  unfold str_fuel. lia.
Qed.

Lemma cstr_tail m p c s : cstr m p (c :: s) → cstr m (p + 1) s.
Proof.
  intros [Hb Hc Hn]. simpl in Hb. apply bytes_at_cons in Hb as [_ Hb].
  apply Forall_cons in Hc as [_ Hc]. split; [done..|lia].
Qed.

Lemma cstr_head m p s : cstr m p s → m !! p = Some (List.hd 0 s).
Proof. intros [Hb _ _]. destruct s; by apply bytes_at_cons in Hb as [? _]. Qed.

Lemma cstr_suffix m p s1 s2 : cstr m p (s1 ++ s2) → cstr m (p + Z.of_nat (length s1)) s2.
Proof.
  intros [Hb Hc Hn]. rewrite <-app_assoc in Hb. apply bytes_at_app in Hb as [_ Hb].
  apply Forall_app in Hc as [_ Hc]. split; [done..|lia].
Qed.

(** ** Loops over a string

    The result of a loop that reads the bytes [l] from [q] on, one per round,
    and stops at the first one for which [f] gives a result. *)
Fixpoint scan {A} (f : Z → Z → option A) (q : Z) (l : list Z) : option A :=
  match l with
  | [] => None
  | x :: l => match f q x with Some a => Some a | None => scan f (q + 1) l end
  end.

Lemma scan_loop {A} (f : Z → Z → option A) (body : Z → ST mem (Z + A)) m :
  ∀ l q fuel a,
  (∀ i x, l !! i = Some x → body (q + Z.of_nat i) m =
     Ok (match f (q + Z.of_nat i) x with Some a => inr a | None => inl (q + Z.of_nat i + 1) end, m)) →
  scan f q l = Some a → (length l ≤ fuel)%nat →
  loopM fuel body q m = Ok (a, m).
Proof.
  induction l as [|x l IH]; intros q fuel a Hbody Hscan Hf; [done|]. simpl in Hscan, Hf.
  destruct fuel as [|fuel]; [lia|]. pose proof (Hbody 0%nat x eq_refl) as H0. rewrite Z.add_0_r in H0.
  rewrite (loopM_step _ _ _ _ _ _ H0). destruct (f q x) as [b|]; [by injection Hscan as ->|].
  apply IH; [|done|lia]. intros i y Hy. specialize (Hbody (S i) y Hy).
  by replace (q + 1 + Z.of_nat i) with (q + Z.of_nat (S i)) by lia.
Qed.

(** A scan stops behind the elements it skips. *)
Lemma scan_skip {A} (f : Z → Z → option A) q l1 x l2 :
  (∀ i y, l1 !! i = Some y → f (q + Z.of_nat i) y = None) →
  is_Some (f (q + Z.of_nat (length l1)) x) →
  scan f q (l1 ++ x :: l2) = f (q + Z.of_nat (length l1)) x.
Proof.
  revert q. induction l1 as [|y l1 IH]; intros q Hs Hx; simpl.
  - rewrite Z.add_0_r in *. by destruct Hx as [a ->].
  - pose proof (Hs 0%nat y eq_refl) as H0. rewrite Z.add_0_r in H0. rewrite H0.
    simpl in Hx. rewrite IH.
    + f_equal. lia.
    + intros i z Hz. rewrite <-(Hs (S i) z Hz). f_equal. lia.
    + by replace (q + 1 + Z.of_nat (length l1)) with (q + Z.of_nat (S (length l1))) by lia.
Qed.

Lemma cstr_byte m p s i x :
  cstr m p s → (s ++ [0]) !! i = Some x → m !! (p + Z.of_nat i) = Some x ∧ 0 ≤ x < 256 ∧ (x = 0 ↔ i = length s).
Proof.
  intros [Hb Hc _] Hx. split; [by apply Hb|]. apply lookup_app_Some in Hx as [Hx|[Hi Hx]].
  - pose proof (Forall_lookup_1 _ _ _ _ Hc Hx) as Hr. simpl in Hr. apply lookup_lt_Some in Hx. lia.
  - apply list_lookup_singleton_Some in Hx as [Hx <-]. lia.
Qed.

Lemma cstr_loop {A} (f : Z → Z → option A) (body : Z → ST mem (Z + A)) m p s a :
  cstr m p s →
  (∀ q x, m !! q = Some x → p ≤ q → 0 ≤ x < 256 →
     body q m = Ok (match f q x with Some a => inr a | None => inl (q + 1) end, m)) →
  scan f p (s ++ [0]) = Some a →
  loopM (str_fuel m) body p m = Ok (a, m).
Proof.
  intros Hs Hbody Hscan. eapply scan_loop; [|exact Hscan|].
  - intros i x Hx. destruct (cstr_byte _ _ _ _ _ Hs Hx) as (E & Hr & _). apply Hbody; [done|lia|done].
  - rewrite length_app. simpl. pose proof (cstr_fuel _ _ _ Hs). lia.
Qed.

Lemma nonnull_ok m p s : cstr m p s → assert (negb (p =? NULL)) m = Ok (tt, m).
Proof.
  intros [_ _ Hp]. apply assert_ok. by rewrite (proj2 (Z.eqb_neq _ _)) by (unfold NULL; lia).
Qed.

Lemma strlen_ok m p s : cstr m p s → strlen p m = Ok (Z.of_nat (length s), m).
Proof.
  intros Hs. unfold strlen. erewrite bind_ok by (by eapply nonnull_ok). erewrite bind_ok by apply get_ok.
  eapply (cstr_loop (λ q x, if x =? 0 then Some (q - p) else None)); [exact Hs| |].
  - intros q x Hx _ _. erewrite bind_ok by (by apply ld_ok). by destruct (x =? 0).
  - rewrite scan_skip; simpl.
    + f_equal. lia.
    + intros i x Hx. pose proof (Forall_lookup_1 _ _ _ _ (cs_chars _ _ _ Hs) Hx).
      by rewrite (proj2 (Z.eqb_neq x 0)) by (simpl in *; lia).
    + done.
Qed.

(** The position of the first [c] in a list. *)
Fixpoint index_of (c : Z) (l : list Z) : option nat :=
  match l with
  | [] => None
  | x :: l => if x =? c then Some O else S <$> index_of c l
  end.

Lemma index_of_Some c l : c ∈ l → ∃ i, index_of c l = Some i ∧ l !! i = Some c ∧ c ∉ take i l.
Proof.
  induction l as [|x l IH]; [by intros ?%elem_of_nil|]. intros Hc. simpl.
  destruct (Z.eqb_spec x c) as [->|N].
  - exists 0%nat. split_and!; try done. by apply not_elem_of_nil.
  - destruct IH as (i & E & Hi & Hn); [by apply elem_of_cons in Hc as [?|?]|].
    exists (S i). rewrite E. split_and!; [done..|]. simpl. rewrite not_elem_of_cons. auto.
Qed.

Lemma index_of_None c l : c ∉ l → index_of c l = None.
Proof.
  induction l as [|x l IH]; [done|]. rewrite not_elem_of_cons. intros [N Hl]. simpl.
  rewrite (proj2 (Z.eqb_neq x c)) by auto. by rewrite IH.
Qed.

(** What [strchr] returns. *)
Definition strchr_result (p : Z) (s : list Z) (c : Z) : Z :=
  match index_of (u8 c) (s ++ [0]) with Some i => p + Z.of_nat i | None => NULL end.

Lemma scan_strchr p c s :
  Forall (λ c, 0 < c < 256) s →
  scan (λ q x, if x =? c then Some q else if x =? 0 then Some NULL else None) p (s ++ [0]) =
  Some match index_of c (s ++ [0]) with Some i => p + Z.of_nat i | None => NULL end.
Proof.
  intros Hs. revert p. induction Hs as [|x s Hx _ IH]; intros p; cbn [app scan index_of].
  - destruct (Z.eqb_spec 0 c); simpl; [by rewrite Z.add_0_r|done].
  - destruct (Z.eqb_spec x c); [simpl; by rewrite Z.add_0_r|]. rewrite (proj2 (Z.eqb_neq x 0)) by lia.
    rewrite IH. destruct (index_of c (s ++ [0])); simpl; [|done]. f_equal. lia.
Qed.

Lemma strchr_ok m p s c : cstr m p s → strchr p c m = Ok (strchr_result p s c, m).
Proof.
  intros Hs. unfold strchr. erewrite bind_ok by (by eapply nonnull_ok). erewrite bind_ok by apply get_ok.
  eapply (cstr_loop (λ q x, if x =? u8 c then Some q else if x =? 0 then Some NULL else None)); [exact Hs| |].
  - intros q x Hx _ _. erewrite bind_ok by (by apply ld_ok). destruct (x =? u8 c), (x =? 0); done.
  - apply scan_strchr, Hs.
Qed.

Lemma strchr_null p s c : 0 < p → (strchr_result p s c =? NULL) = negb (bool_decide (u8 c ∈ s ++ [0])).
Proof.
  intros Hp. unfold strchr_result. destruct (decide (u8 c ∈ s ++ [0])) as [Hin|Hn].
  - destruct (index_of_Some _ _ Hin) as (i & -> & _). rewrite bool_decide_true by done.
    apply Z.eqb_neq. unfold NULL. lia.
  - by rewrite (index_of_None _ _ Hn), bool_decide_false.
Qed.

(** ** Comparison *)

Fixpoint lexcmp (a b : list Z) : Z :=
  match a, b with
  | x :: a, y :: b => if x =? y then lexcmp a b else if x >? y then 1 else -1
  | [], [] => 0
  | [], _ => -1
  | _, [] => 1
  end.

Lemma lexcmp_eq a b : lexcmp a b = 0 ↔ a = b.
Proof.
  revert b. induction a as [|x a IH]; intros [|y b]; simpl; try done.
  destruct (Z.eqb_spec x y) as [->|N].
  - rewrite IH. split; [by intros ->|by intros [= ->]].
  - split; [|congruence]. destruct (x >? y); done.
Qed.

Lemma lexcmp_antisym a b : lexcmp b a = - lexcmp a b.
Proof.
  revert b. induction a as [|x a IH]; intros [|y b]; simpl; try done.
  rewrite Z.eqb_sym. destruct (Z.eqb_spec x y); [apply IH|].
  destruct (Z.gtb_spec x y), (Z.gtb_spec y x); lia.
Qed.

Lemma memcmp_ok m la : ∀ a b lb, length lb = length la → bytes_at m a la → bytes_at m b lb →
  0 < a → 0 < b → memcmp a b (Z.of_nat (length la)) m = Ok (lexcmp la lb, m).
Proof.
  intros a b lb Hl Ha Hb Hpa Hpb. unfold memcmp.
  do 2 (erewrite bind_ok by (apply assert_ok; by rewrite (proj2 (Z.eqb_neq _ _)) by (unfold NULL; lia))).
  rewrite Nat2Z.id. clear Hpa Hpb. revert a b lb Hl Ha Hb.
  induction la as [|x la IH]; intros a b [|y lb] Hl Ha Hb; try done; simpl in Hl.
  apply bytes_at_cons in Ha as [Hx Ha]. apply bytes_at_cons in Hb as [Hy Hb].
  cbn [length lexcmp]. erewrite loopM_step; cycle 1.
  { rewrite (proj2 (Z.gtb_lt (Z.of_nat (S (length la))) 0)) by lia.
    erewrite bind_ok by (by apply ld_ok). erewrite bind_ok by (by apply ld_ok).
    instantiate (2 := if x =? y then _ else _). destruct (x =? y); reflexivity. }
  destruct (x =? y); [|done].
  replace (Z.of_nat (S (length la)) - 1) with (Z.of_nat (length la)) by lia. apply IH; [lia|done..].
Qed.

Lemma strcmp_loop m s1 : ∀ p1 p2 s2 fuel, cstr m p1 s1 → cstr m p2 s2 → (length s1 < fuel)%nat →
  loopM fuel (λ '(a, b),
    x ← ld a; y ← ld b;
    if negb (x =? 0) && (x =? y) then mret (inl (a + 1, b + 1))
    else mret (inr (if x <? y then -1 else if x >? y then 1 else 0))) (p1, p2) m = Ok (lexcmp s1 s2, m).
Proof.
  induction s1 as [|x s1 IH]; intros p1 p2 s2 fuel H1 H2 Hf; (destruct fuel as [|fuel]; [simpl in Hf; lia|]).
  - pose proof (cstr_head _ _ _ H1) as E1. pose proof (cstr_head _ _ _ H2) as E2.
    erewrite loopM_step; cycle 1.
    { erewrite bind_ok by (by apply ld_ok). erewrite bind_ok by (by apply ld_ok). reflexivity. }
    destruct s2 as [|y s2]; [done|]. pose proof (cs_chars _ _ _ H2) as [Hy _]%Forall_cons. simpl.
    destruct y; [lia|done|lia].
  - pose proof (cs_chars _ _ _ H1) as [Hx _]%Forall_cons.
    pose proof (cstr_head _ _ _ H1) as E1. pose proof (cstr_head _ _ _ H2) as E2. cbn [List.hd] in E1.
    erewrite loopM_step; cycle 1.
    { erewrite bind_ok by (by apply ld_ok). erewrite bind_ok by (by apply ld_ok).
      rewrite (proj2 (Z.eqb_neq x 0)) by lia. cbn [negb andb].
      instantiate (2 := if x =? List.hd 0 s2 then _ else _). destruct (x =? List.hd 0 s2); reflexivity. }
    destruct s2 as [|y s2]; cbn [List.hd lexcmp].
    + rewrite (proj2 (Z.eqb_neq x 0)), (proj2 (Z.ltb_ge x 0)), (proj2 (Z.gtb_lt x 0)) by lia. done.
    + destruct (Z.eqb_spec x y) as [->|N].
      * apply IH; [by eapply cstr_tail..|simpl in Hf; lia].
      * destruct (Z.ltb_spec x y), (Z.gtb_spec x y); try done; lia.
Qed.

Lemma strcmp_ok m p1 p2 s1 s2 :
  cstr m p1 s1 → cstr m p2 s2 → strcmp p1 p2 m = Ok (lexcmp s1 s2, m).
Proof.
  intros H1 H2. unfold strcmp. erewrite bind_ok by (by eapply nonnull_ok).
  erewrite bind_ok by (by eapply nonnull_ok). erewrite bind_ok by apply get_ok.
  apply strcmp_loop; [done..|by eapply cstr_fuel].
Qed.

Lemma strnlen_ok m p t n :
  cstr m p t → 0 ≤ n → strnlen p n m = Ok (Z.min n (Z.of_nat (length t)), m).
Proof.
  intros Hc Hn. unfold strnlen. erewrite bind_ok by apply get_ok. pose proof (cstr_fuel _ _ _ Hc) as Hf.
  match goal with |- loopM _ ?f _ _ = _ => set (body := f) end.
  destruct (loopM_rule (λ k len s, s = m ∧ 0 ≤ len ≤ Z.min n (Z.of_nat (length t)) ∧ k = (length t - Z.to_nat len)%nat)
    (λ len s, s = m ∧ len = Z.min n (Z.of_nat (length t))) body) with (fuel := str_fuel m) (n := length t) (l := 0) (s := m)
    as (r & s' & E & -> & ->); [| |done|exact E].
  - intros k len s (-> & Hl & ->). unfold body.
    destruct (lookup_lt_is_Some_2 (t ++ [0]) (Z.to_nat len)) as [x Hx]; [rewrite length_app; simpl; lia|].
    destruct (cstr_byte _ _ _ _ _ Hc Hx) as (E & _ & Hz). rewrite Z2Nat.id in E by lia.
    erewrite bind_ok by (by apply ld_ok). destruct (Z.eqb_spec x 0) as [->|Nx]; simpl.
    + eexists (inr _), m. split; [done|]. split; [done|]. destruct Hz as [Hz _]. specialize (Hz eq_refl). lia.
    + destruct (Z.ltb_spec len n); eexists _, m; (split; [done|]).
      * exists (length t - Z.to_nat (len + 1))%nat. assert (Z.to_nat len ≠ length t) by tauto. split_and!; (done || lia).
      * split; [done|]. lia.
  - split_and!; (done || lia).
Qed.

(** ** Copying *)

Lemma memcpy_ok m dst src n :
  0 ≤ n → 0 < dst → 0 < src → mapped m dst n → mapped m src n → (dst ≤ src ∨ src + n ≤ dst) →
  ∃ m', memcpy dst src n m = Ok (dst, m') ∧ copied m m' dst src n.
Proof.
  intros Hn Hd0 Hs0 Hd Hs Hov. unfold memcpy.
  do 2 (erewrite bind_ok by (apply assert_ok; by rewrite (proj2 (Z.eqb_neq _ _)) by (unfold NULL; lia))).
  destruct (copy_forward m dst src n Hn Hd Hs Hov unit (λ _, tt)) as (r & m' & E & _ & Hc).
  erewrite bind_ok by exact E. by exists m'.
Qed.

Lemma bytes_at_copied m m' dst src n l :
  copied m m' dst src n → bytes_at m src l → Z.of_nat (length l) ≤ n → bytes_at m' dst l.
Proof.
  intros Hc Hb Hl i x Hx. pose proof (lookup_lt_Some _ _ _ Hx). rewrite Hc, decide_True by lia.
  rewrite <-(Hb i x Hx). f_equal. lia.
Qed.

Lemma mapped_bytes m p l : bytes_at m p l → mapped m p (Z.of_nat (length l)).
Proof.
  intros Hb a Ha. destruct (lookup_lt_is_Some_2 l (Z.to_nat (a - p))) as [x Hx]; [lia|].
  specialize (Hb _ _ Hx). replace (p + Z.of_nat (Z.to_nat (a - p))) with a in Hb by lia. by rewrite Hb.
Qed.

Lemma bytes_at_frame m m' p l :
  (∀ a, p ≤ a < p + Z.of_nat (length l) → m' !! a = m !! a) → bytes_at m p l → bytes_at m' p l.
Proof.
  intros Hf Hb i x Hx. pose proof (lookup_lt_Some _ _ _ Hx). rewrite Hf by lia. by apply Hb.
Qed.

(** Copying a prefix of a string and terminating it. *)
Lemma copy_terminate m dst src s k :
  cstr m src s → 0 < dst → (k ≤ length s)%nat → mapped m dst (Z.of_nat k + 1) →
  (dst + Z.of_nat k < src ∨ src + Z.of_nat (length s) < dst) →
  ∃ m', (memcpy dst src (Z.of_nat k);; st (dst + Z.of_nat k) 0) m = Ok (tt, m') ∧
    cstr m' dst (take k s) ∧ ∀ a, a < dst ∨ dst + Z.of_nat k < a → m' !! a = m !! a.
Proof.
  intros [Hb Hc Hp] Hd Hk Hm Hov. apply bytes_at_app in Hb as [Hb _].
  pose proof (mapped_bytes _ _ _ Hb) as Hms.
  destruct (memcpy_ok m dst src (Z.of_nat k)) as (m1 & E1 & Hc1); try lia.
  { intros a Ha. apply Hm. lia. }
  { intros a Ha. apply Hms. lia. }
  assert (m1 !! (dst + Z.of_nat k) = m !! (dst + Z.of_nat k)) as Ek by (rewrite Hc1, decide_False by lia; done).
  erewrite bind_ok by exact E1. rewrite st_ok by (rewrite Ek; apply Hm; lia).
  eexists. split; [done|]. split; [split|].
  - apply bytes_at_app. rewrite length_take, Nat.min_l by lia. split.
    + eapply (bytes_at_frame m1).
      * intros a Ha. rewrite length_take in Ha. apply lookup_insert_ne. lia.
      * eapply bytes_at_copied; [exact Hc1| |rewrite length_take; lia].
        rewrite <-(take_drop k s) in Hb. by apply bytes_at_app in Hb as [? _].
    + apply bytes_at_cons. split; [apply lookup_insert_eq|]. by intros i x.
  - by apply Forall_take.
  - done.
  - intros a Ha. rewrite lookup_insert_ne by lia. rewrite Hc1, decide_False by lia. done.
Qed.

(** ** Searching *)

(** [ns] occurs in [hs] at position [i]. *)
Definition occurs (ns hs : list Z) (i : nat) : Prop := take (length ns) (drop i hs) = ns.

Lemma memcmp_sub m h n hs ns i :
  cstr m h hs → cstr m n ns → (i + length ns ≤ length hs)%nat →
  ∃ r, memcmp (h + Z.of_nat i) n (Z.of_nat (length ns)) m = Ok (r, m) ∧ (r = 0 ↔ occurs ns hs i).
Proof.
  intros [Hb _ Hh] [Hbn _ Hn] Hi. apply bytes_at_app in Hb as [Hb _], Hbn as [Hbn _].
  set (sub := take (length ns) (drop i hs)).
  assert (length sub = length ns) as Hls by (unfold sub; rewrite length_take, length_drop; lia).
  exists (lexcmp sub ns). rewrite <-Hls. split; [|apply lexcmp_eq].
  apply memcmp_ok; try lia; [|done].
  rewrite <-(take_drop i hs), <-(take_drop (length ns) (drop i hs)) in Hb.
  apply bytes_at_app in Hb as [_ Hb]. rewrite length_take, Nat.min_l in Hb by lia.
  by apply bytes_at_app in Hb as [? _].
Qed.

Lemma strstr_ok m h n hs ns :
  cstr m h hs → cstr m n ns →
  ∃ r m', strstr h n m = Ok (r, m') ∧ m' = m ∧
    ((∃ i, r = h + Z.of_nat i ∧ (i + length ns ≤ length hs)%nat ∧ occurs ns hs i ∧
        ∀ j, (j < i)%nat → ¬ occurs ns hs j) ∨
     (r = NULL ∧ ∀ j, (j + length ns ≤ length hs)%nat → ¬ occurs ns hs j)).
Proof.
  intros Hh Hn. unfold strstr. erewrite bind_ok by (by apply strlen_ok).
  erewrite bind_ok by (by apply strlen_ok).
  destruct (Z.leb_spec (Z.of_nat (length ns)) (Z.of_nat (length hs))) as [Hle|Hgt].
  2: { eexists _, _. split; [reflexivity|]. split; [done|]. right. split; [done|]. intros j Hj. lia. }
  eapply (loopM_rule (λ k i m1, m1 = m ∧ ∃ j : nat, i = Z.of_nat j ∧ (j + length ns ≤ S (length hs))%nat ∧
      k = (S (length hs) - j)%nat ∧ ∀ j', (j' < j)%nat → ¬ occurs ns hs j')) with (n := S (length hs)); [| |lia].
  2: { split; [done|]. exists 0%nat. split_and!; lia. }
  intros k i m1 (-> & j & -> & Hj & -> & Hno).
  destruct (Z.leb_spec (Z.of_nat j) (Z.of_nat (length hs) - Z.of_nat (length ns))) as [Hlj|Hgj].
  - destruct (memcmp_sub m h n hs ns j Hh Hn) as (r & E & Hr); [lia|].
    erewrite bind_ok by exact E. destruct (Z.eqb_spec r 0) as [Hz|Hnz].
    + eexists _, _. split; [reflexivity|]. split; [done|]. left. exists j. split_and!; [done|lia|by apply Hr|done].
    + eexists _, _. split; [reflexivity|]. exists (S (length hs) - S j)%nat. split; [lia|]. split; [done|].
      exists (S j). split_and!; try lia. intros j' Hj'. destruct (decide (j' = j)) as [->|]; [by rewrite <-Hr|].
      apply Hno. lia.
  - eexists _, _. split; [reflexivity|]. split; [done|]. right. split; [done|]. intros j' Hj'. apply Hno. lia.
Qed.

(** ** Tokens *)

Section tokens.
Context (m : mem) (d : Z) (ds : list Z).
Hypothesis Hd : cstr m d ds.

Lemma strchr_delim x : 0 ≤ x < 256 →
  ∃ r, strchr d x m = Ok (r, m) ∧ (r =? NULL) = negb (bool_decide (x ∈ ds ++ [0])).
Proof.
  intros Hx. exists (strchr_result d ds x). split; [by apply strchr_ok|].
  rewrite strchr_null by apply Hd. by rewrite u8_small.
Qed.

(** The first loop skips delimiters. *)
Lemma skip_delims p s1 s2 :
  cstr m p (s1 ++ s2) → Forall (.∈ ds) s1 → (∀ c, head s2 = Some c → c ∉ ds) →
  loopM (str_fuel m) (λ s,
    x ← ld s; r ← strchr d x;
    if negb (r =? NULL) then if x =? 0 then mret (inr (s, false)) else mret (inl (s + 1))
    else mret (inr (s, true))) p m =
  Ok ((p + Z.of_nat (length s1), negb (bool_decide (s2 = []))), m).
Proof.
  intros Hs H1 H2.
  eapply (cstr_loop (λ q x, if bool_decide (x ∈ ds ++ [0]) then if x =? 0 then Some (q, false) else None
    else Some (q, true))); [exact Hs| |].
  - intros q x Hx _ Hr. erewrite bind_ok by (by apply ld_ok).
    destruct (strchr_delim x Hr) as (r & E & Hn). erewrite bind_ok by exact E. rewrite Hn.
    destruct (bool_decide (x ∈ ds ++ [0])), (x =? 0); done.
  - pose proof (cs_chars _ _ _ Hs) as Hch. apply Forall_app in Hch as [Hc1 Hc2].
    assert (∀ q x, x ∈ ds → 0 < x → (if bool_decide (x ∈ ds ++ [0]) then if x =? 0 then Some (q, false) else None
      else Some (q, true)) = None (A := Z * bool)) as Hskip.
    { intros q x Hx Hpos. rewrite bool_decide_true by (apply elem_of_app; by left).
      by rewrite (proj2 (Z.eqb_neq x 0)) by lia. }
    destruct s2 as [|c s2].
    + rewrite app_nil_r. rewrite scan_skip.
      * by rewrite bool_decide_true by (apply elem_of_app; right; left).
      * intros i x Hx. pose proof (Forall_lookup_1 _ _ _ _ H1 Hx). pose proof (Forall_lookup_1 _ _ _ _ Hc1 Hx).
        apply Hskip; [done|]. simpl in *. lia.
      * by rewrite bool_decide_true by (apply elem_of_app; right; left).
    + specialize (H2 c eq_refl). apply Forall_cons in Hc2 as [Hc _].
      assert (c ∉ ds ++ [0]) as Hn.
      { rewrite not_elem_of_app, list_elem_of_singleton. split; [done|lia]. }
      rewrite <-app_assoc, <-app_comm_cons, scan_skip.
      * by rewrite bool_decide_false.
      * intros i x Hx. pose proof (Forall_lookup_1 _ _ _ _ H1 Hx). pose proof (Forall_lookup_1 _ _ _ _ Hc1 Hx).
        apply Hskip; [done|]. simpl in *. lia.
      * by rewrite bool_decide_false.
Qed.

(** The second loop finds the end of the token. *)
Lemma find_token_end p tok rest :
  cstr m p (tok ++ rest) → Forall (.∉ ds) tok → (∀ c, head rest = Some c → c ∈ ds) →
  loopM (str_fuel m) (λ s,
    x ← ld s; r ← strchr d x; if r =? NULL then mret (inl (s + 1)) else mret (inr s)) p m =
  Ok (p + Z.of_nat (length tok), m).
Proof.
  intros Hs H1 H2.
  eapply (cstr_loop (λ q x, if bool_decide (x ∈ ds ++ [0]) then Some q else None)); [exact Hs| |].
  - intros q x Hx _ Hr. erewrite bind_ok by (by apply ld_ok).
    destruct (strchr_delim x Hr) as (r & E & Hn). erewrite bind_ok by exact E. rewrite Hn.
    destruct (bool_decide (x ∈ ds ++ [0])); done.
  - pose proof (cs_chars _ _ _ Hs) as Hch. apply Forall_app in Hch as [Hc1 Hc2].
    assert (∃ x l, rest ++ [0] = x :: l ∧ x ∈ ds ++ [0]) as (x & l & E & Hin).
    { destruct rest as [|x l]; [exists 0, []|exists x, (l ++ [0])]; (split; [done|]).
      - apply elem_of_app. right. left.
      - apply elem_of_app. left. by apply H2. }
    rewrite <-app_assoc, E, scan_skip.
    + by rewrite bool_decide_true.
    + intros i y Hy. pose proof (Forall_lookup_1 _ _ _ _ H1 Hy). pose proof (Forall_lookup_1 _ _ _ _ Hc1 Hy).
      rewrite bool_decide_false; [done|]. rewrite not_elem_of_app, list_elem_of_singleton.
      simpl in *. split; [done|lia].
    + by rewrite bool_decide_true.
Qed.

End tokens.

(** ** Properties *)

(** C36: [memmove] copies the block as it was before the call, also when source
    and destination overlap, and changes no other byte.  It returns the
    address behind the destination when it copied forward (DST only when it
    copied backward). *)
Theorem memmove_correct m dst src n :
  0 ≤ n → 0 < dst → 0 < src → mapped m dst n → mapped m src n →
  ∃ r m', memmove dst src n m = Ok (r, m') ∧ copied m m' dst src n ∧
    r = if dst <? src then dst + n else dst.
Proof.
  intros Hn Hd0 Hs0 Hd Hs. unfold memmove.
  do 2 (erewrite bind_ok by (apply assert_ok; by rewrite (proj2 (Z.eqb_neq _ _)) by (unfold NULL; lia))).
  destruct (Z.ltb_spec dst src) as [Hlt|Hge].
  - destruct (copy_forward m dst src n Hn Hd Hs ltac:(lia) Z (λ d, d)) as (r & m' & E & -> & Hc). eauto.
  - destruct (copy_backward m dst src n Hn Hd Hs Hge) as (r & m' & E & -> & Hc). eauto.
Qed.

(** [strlcpy] and [strlcat] never write outside the [size] bytes of the
    destination, leave a terminated string there that is the source (the
    concatenation) cut to [size - 1] characters, and return the length it has
    without the cut. *)
Theorem strlcpy_strlcat_correct m dst src size old s :
  cstr m src s → 0 < dst → 0 < size → mapped m dst size →
  (dst + size ≤ src ∨ src + Z.of_nat (length s) < dst) →
  Z.of_nat (length s) + Z.of_nat (length old) < 2 ^ 32 →
  (∃ m', strlcpy dst src size m = Ok (Z.of_nat (length s), m') ∧
     cstr m' dst (take (Z.to_nat (size - 1)) s) ∧ ∀ a, a < dst ∨ dst + size ≤ a → m' !! a = m !! a) ∧
  (cstr m dst old → Z.of_nat (length old) < size →
   ∃ m', strlcat dst src size m = Ok (Z.of_nat (length s) + Z.of_nat (length old), m') ∧
     cstr m' dst (take (Z.to_nat (size - 1)) (old ++ s)) ∧ ∀ a, a < dst ∨ dst + size ≤ a → m' !! a = m !! a).
Proof.
  intros Hs Hd Hsz Hm Hov Hlen. split.
  - unfold strlcpy. erewrite bind_ok by (apply assert_ok; by rewrite (proj2 (Z.eqb_neq _ _)) by (unfold NULL; lia)).
    erewrite bind_ok by (by eapply nonnull_ok). erewrite bind_ok by (by apply strlen_ok).
    rewrite (proj2 (Z.gtb_lt size 0)) by lia. cbv zeta.
    set (k := Z.to_nat (Z.min (Z.of_nat (length s)) (size - 1))).
    assert ((if Z.of_nat (length s) <? size - 1 then Z.of_nat (length s) else size - 1) = Z.of_nat k) as ->
      by (destruct (Z.ltb_spec (Z.of_nat (length s)) (size - 1)); lia).
    destruct (copy_terminate m dst src s k) as (m' & E & Hc & Hf); [done|done|lia|intros a Ha; apply Hm; lia|lia|].
    erewrite bind_ok by exact E. exists m'. split; [done|]. split.
    + replace (take (Z.to_nat (size - 1)) s) with (take k s); [done|].
      destruct (decide (length s ≤ Z.to_nat (size - 1))%nat); [rewrite !take_ge by lia; done|f_equal; lia].
    + intros a Ha. apply Hf. lia.
  - intros Ho Hlo. unfold strlcat. erewrite bind_ok by (by eapply nonnull_ok).
    erewrite bind_ok by (by eapply nonnull_ok). erewrite bind_ok by (by apply strlen_ok).
    erewrite bind_ok by (by apply strlen_ok).
    rewrite (proj2 (Z.gtb_lt size 0)), (proj2 (Z.ltb_lt _ _) Hlo) by lia. cbv zeta. cbn [andb].
    set (k := Z.to_nat (Z.min (Z.of_nat (length s)) (size - Z.of_nat (length old) - 1))).
    assert ((if Z.of_nat (length s) <? size - Z.of_nat (length old) - 1 then Z.of_nat (length s)
      else size - Z.of_nat (length old) - 1) = Z.of_nat k) as ->
      by (destruct (Z.ltb_spec (Z.of_nat (length s)) (size - Z.of_nat (length old) - 1)); lia).
    destruct (copy_terminate m (dst + Z.of_nat (length old)) src s k) as (m' & E & Hc & Hf);
      [done|lia|lia|intros a Ha; apply Hm; lia|lia|].
    erewrite bind_ok by exact E. exists m'. rewrite u32_small by lia. split; [done|]. split.
    + rewrite take_app_ge by lia.
      replace (take (Z.to_nat (size - 1) - length old) s) with (take k s).
      2: { destruct (decide (length s ≤ Z.to_nat (size - 1) - length old)%nat);
             [rewrite !take_ge by lia; done|f_equal; lia]. }
      destruct Ho as [Hbo Hco Hpo], Hc as [Hbc Hcc _]. split; [|by apply Forall_app|done].
      rewrite <-app_assoc. apply bytes_at_app. split; [|done].
      apply bytes_at_app in Hbo as [Hbo _]. eapply bytes_at_frame; [|exact Hbo].
      intros a Ha. apply Hf. lia.
    + intros a Ha. apply Hf. lia.
Qed.

(** [strstr] returns the first occurrence of NEEDLE in HAYSTACK, and a null
    pointer exactly when there is none; [strcmp] compares lexicographically by
    unsigned characters.  Neither changes memory. *)
Theorem strstr_strcmp_correct m h n hs ns :
  cstr m h hs → cstr m n ns →
  strcmp h n m = Ok (lexcmp hs ns, m) ∧
  ∃ r, strstr h n m = Ok (r, m) ∧
    ((∃ i, r = h + Z.of_nat i ∧ (i + length ns ≤ length hs)%nat ∧ occurs ns hs i ∧
        ∀ j, (j < i)%nat → ¬ occurs ns hs j) ∨
     (r = NULL ∧ ∀ j, (j + length ns ≤ length hs)%nat → ¬ occurs ns hs j)).
Proof.
  intros Hh Hn. split; [by apply strcmp_ok|].
  destruct (strstr_ok m h n hs ns Hh Hn) as (r & m' & E & -> & H). eauto.
Qed.

(** [strtok_r] skips delimiters, returns the following maximal run of other
    characters as a terminated string and saves the position behind it, so
    that the next call goes on with the rest of the string; it overwrites only
    the delimiter behind the token, and returns a null pointer when only
    delimiters are left. *)
Theorem strtok_r_correct m d ds p seps tok rest s save :
  cstr m d ds → cstr m p (seps ++ tok ++ rest) → Forall (.∈ ds) seps → Forall (.∉ ds) tok →
  (∀ c, head rest = Some c → c ∈ ds) → (tok = [] → rest = []) →
  (s = p ∨ (s = NULL ∧ save = p)) →
  let start := p + Z.of_nat (length seps) in
  let stop := start + Z.of_nat (length tok) in
  match tok with
  | [] => strtok_r s d save m = Ok ((NULL, start), m)
  | _ =>
      ∃ m', strtok_r s d save m = Ok ((start, stop + if decide (rest = []) then 0 else 1), m') ∧
        cstr m' start tok ∧ cstr m' (stop + if decide (rest = []) then 0 else 1) (List.tl rest) ∧
        (∀ a, a ≠ stop → m' !! a = m !! a)
  end.
Proof.
  intros Hd Hp Hseps Htok Hrest Hnil Hs start stop.
  assert (0 < p) as Hp0 by apply Hp.
  assert (strtok_r s d save m = strtok_r p d save m) as ->.
  { unfold strtok_r. destruct Hs as [->|[-> ->]]; [done|].
    by rewrite (proj2 (Z.eqb_neq p NULL)) by (unfold NULL; lia). }
  pose proof (skip_delims m d ds Hd p seps (tok ++ rest) Hp Hseps) as E1.
  assert (∀ c, head (tok ++ rest) = Some c → c ∉ ds) as Hhd.
  { destruct tok as [|x tok]; [by rewrite (Hnil eq_refl)|]. intros c [= <-]. by apply Forall_cons in Htok as [? _]. }
  specialize (E1 Hhd). unfold strtok_r. erewrite bind_ok by (by eapply nonnull_ok).
  rewrite (proj2 (Z.eqb_neq p NULL)) by (unfold NULL; lia). cbv zeta.
  erewrite bind_ok by (by eapply nonnull_ok). erewrite bind_ok by apply get_ok. erewrite bind_ok by exact E1.
  fold start. destruct tok as [|x tok]; [by rewrite (Hnil eq_refl)|].
  rewrite bool_decide_false by done. cbn [negb].
  apply cstr_suffix in Hp. fold start in Hp.
  erewrite bind_ok by (by eapply (find_token_end m d ds Hd start (x :: tok) rest)). fold stop.
  pose proof (cstr_suffix _ _ _ _ Hp) as Hr. fold stop in Hr.
  erewrite bind_ok by (by apply ld_ok, cstr_head). destruct rest as [|c rest]; cbn [List.hd List.tl].
  - exists m. rewrite app_nil_r in Hp. rewrite decide_True, Z.add_0_r by done. split_and!; done.
  - pose proof (cs_chars _ _ _ Hr) as [Hc _]%Forall_cons. rewrite (proj2 (Z.eqb_neq c 0)) by lia. cbn [negb].
    erewrite bind_ok by (apply st_ok; by rewrite (cstr_head _ _ _ Hr)).
    eexists. rewrite decide_False by done. split; [reflexivity|]. split_and!.
    + destruct Hp as [Hb Hch Hp']. apply Forall_app in Hch as [Hch _]. split; [|done|done].
      rewrite <-app_assoc in Hb. apply bytes_at_app in Hb as [Hb _]. apply bytes_at_app. split.
      * eapply bytes_at_frame; [|exact Hb]. intros a Ha. apply lookup_insert_ne. lia.
      * apply bytes_at_cons. split; [apply lookup_insert_eq|]. by intros i y.
    + apply cstr_tail in Hr. destruct Hr as [Hb Hch Hp']. split; [|done|done].
      eapply bytes_at_frame; [|exact Hb]. intros a Ha. apply lookup_insert_ne. lia.
    + intros a Ha. by apply lookup_insert_ne.
Qed.

(** ** Witnesses *)

(** The string "a bc" at 16, the delimiters " " at 32. *)
Definition demo_mem : mem :=
  list_to_map [(16, 97); (17, 32); (18, 98); (19, 99); (20, 0); (32, 32); (33, 0);
               (48, 1); (49, 1); (50, 1); (51, 1)].

Ltac solve_cstr :=
  split; [intros [|[|[|[|[|i]]]]] x Hx; simpl in Hx; try done; injection Hx as <-; reflexivity
         |repeat constructor; lia|lia].

Lemma demo_str : cstr demo_mem 16 [97; 32; 98; 99].
Proof. solve_cstr. Qed.

Lemma demo_delim : cstr demo_mem 32 [32].
Proof. solve_cstr. Qed.

Lemma demo_mapped p n : (p = 16 ∧ n ≤ 5) ∨ (p = 17 ∧ n ≤ 4) ∨ (p = 48 ∧ n ≤ 4) → mapped demo_mem p n.
Proof.
  intros Hp a Ha. assert (a ∈ [16; 17; 18; 19; 20; 48; 49; 50; 51]) as Hin.
  { rewrite !elem_of_cons. lia. }
  rewrite !elem_of_cons, elem_of_nil in Hin.
  repeat (destruct Hin as [->|Hin]; [eexists; reflexivity|]). done.
Qed.

Lemma memmove_correct_witness :
  ∃ r m', memmove 17 16 3 demo_mem = Ok (r, m') ∧ r = 17 ∧ bytes_at m' 16 [97; 97; 32; 98].
Proof.
  destruct (memmove_correct demo_mem 17 16 3) as (r & m' & E & Hc & Hr);
    [lia|lia|lia|apply demo_mapped; lia|apply demo_mapped; lia|].
  exists r, m'. split_and!; [done..|]. vm_compute in E. injection E as <- <-.
  intros [|[|[|[|i]]]] x Hx; simpl in Hx; try done; injection Hx as <-; reflexivity.
Defined.

Lemma strlcpy_strlcat_correct_witness :
  ∃ m', strlcpy 48 16 3 demo_mem = Ok (4, m') ∧ cstr m' 48 [97; 32].
Proof.
  destruct (strlcpy_strlcat_correct demo_mem 48 16 3 [] [97; 32; 98; 99]) as [(m' & E & H & _) _];
    [apply demo_str|lia|lia|apply demo_mapped; lia|simpl; lia|simpl; lia|eauto].
Defined.

Lemma strstr_strcmp_correct_witness :
  strcmp 16 32 demo_mem = Ok (1, demo_mem) ∧ ∃ r, strstr 16 32 demo_mem = Ok (r, demo_mem) ∧ r = 17.
Proof.
  destruct (strstr_strcmp_correct demo_mem 16 32 _ _ demo_str demo_delim) as [E (r & E' & _)].
  split; [exact E|]. exists r. split; [done|]. vm_compute in E'. by injection E' as <-.
Defined.

Lemma strtok_r_correct_witness :
  ∃ m', strtok_r 16 32 0 demo_mem = Ok ((16, 18), m') ∧ cstr m' 16 [97] ∧ cstr m' 18 [98; 99].
Proof.
  destruct (strtok_r_correct demo_mem 32 [32] 16 [] [97] [32; 98; 99] 16 0) as (m' & E & H1 & H2 & _);
    [apply demo_delim|apply demo_str|constructor| |by intros c [= <-]; left|done|by left|eauto].
  constructor; [|constructor]. by rewrite list_elem_of_singleton.
Defined.
