(* ===== verification/Stdio.v ===== *)
(** * Formatted output: lib/stdio.c

    A format string is a list of bytes that ends with its terminator, a
    pointer into it is the rest of the list, and reading past its end is a
    fault.  The arguments are the 32-bit words of the caller's stack: [va_arg]
    takes one, or two for a 64-bit type.  Strings are in a memory of bytes as
    in [CString].

    The functions are generic in the state [S] and the function [output] that
    they send the characters to, as in the C code.  The messages for
    conversions that are not supported are printed by a nested call, whose
    format has only %% and %c: two levels of calls are enough. *)

From S2P Require Import Prelude StdlibC CString.
From Stdlib Require Import Ascii.
From Stdlib Require String.
Import String.StringSyntax.

Definition chr (a : ascii) : Z := Z.of_N (N_of_ascii a).
Definition str (s : String.string) : list Z := chr <$> String.list_ascii_of_string s.
(** A string literal, with its terminator. *)
Definition lit (s : String.string) : list Z := str s ++ [0].
Arguments chr _%_char_scope.
Arguments str _%_string_scope.
Arguments lit _%_string_scope.

(** ** Data *)

Definition MINUS : Z := Z.shiftl 1 0.
Definition PLUS : Z := Z.shiftl 1 1.
Definition SPACE : Z := Z.shiftl 1 2.
Definition POUND : Z := Z.shiftl 1 3.
Definition ZERO : Z := Z.shiftl 1 4.
Definition GROUP : Z := Z.shiftl 1 5.

Inductive arg_type := CHAR | SHORT | INT | INTMAX | LONG | LONGLONG | PTRDIFFT | SIZET.

Record printf_conversion := mk_conv { flags : Z; width : Z; precision : Z; type : arg_type }.

Record integer_base := mk_base { base : Z; digits : list Z; base_x_char : Z; group : Z }.

Definition base_d : integer_base := mk_base 10 (str "0123456789") 0 3.
Definition base_o : integer_base := mk_base 8 (str "01234567") 0 3.
Definition base_x : integer_base := mk_base 16 (str "0123456789abcdef") (chr "x") 4.
Definition base_X : integer_base := mk_base 16 (str "0123456789ABCDEF") (chr "X") 4.

(** [c->flags & f] *)
Definition has (fl f : Z) : bool := negb (Z.land fl f =? 0).
(** [c->flags &= ~f] *)
Definition clear (fl f : Z) : Z := Z.ldiff fl f.

(** ** Reading the format and the arguments *)

(** [*format], and the format behind it. *)
Definition peek (format : list Z) : result Z :=
  match format with c :: _ => Ok c | [] => Err BadAccess end.
Definition next (format : list Z) : result (list Z) :=
  match format with _ :: r => Ok r | [] => Err BadAccess end.

Definition va_word (args : list Z) : result (Z * list Z) :=
  match args with w :: r => Ok (w, r) | [] => Err BadAccess end.
(** A 64-bit argument, the low word first. *)
Definition va_dword (args : list Z) : result (Z * list Z) :=
  match args with l :: h :: r => Ok (l + 2 ^ 32 * h, r) | _ => Err BadAccess end.

(** ** parse_conversion *)

Definition flag_of (c : Z) : option Z :=
  if c =? chr "-" then Some MINUS
  else if c =? chr "+" then Some PLUS
  else if c =? chr " " then Some SPACE
  else if c =? chr "#" then Some POUND
  else if c =? chr "0" then Some ZERO
  else if c =? chr "'" then Some GROUP
  else None.

Definition parse_flags (format : list Z) : result (Z * list Z) :=
  loop (S (length format)) (λ '(fl, format),
    c ← peek format;
    match flag_of c with
    | Some f => format ← next format; Ok (inl (Z.lor fl f, format))
    | None => Ok (inr (fl, format))
    end) (0, format).

(** [for (; isdigit ( *format); format++) n = n * 10 + *format - '0';] *)
Definition parse_number (n : Z) (format : list Z) : result (Z * list Z) :=
  loop (S (length format)) (λ '(n, format),
    c ← peek format;
    if isdigit c then format ← next format; Ok (inl (s32 (s32 (n * 10) + c - 48), format))
    else Ok (inr (n, format))) (n, format).

Definition parse_width (fl : Z) (format args : list Z) : result (Z * Z * list Z * list Z) :=
  c ← peek format;
  r ← (if c =? chr "*" then
         format ← next format;
         a ← va_word args; Ok (s32 (fst a), format, snd a)
       else r ← parse_number 0 format; Ok (fst r, snd r, args));
  let '(width, format, args) := r in
  Ok (if width <? 0 then (s32 (- width), Z.lor fl MINUS, format, args) else (width, fl, format, args)).

Definition parse_precision (format args : list Z) : result (Z * list Z * list Z) :=
  c ← peek format;
  if c =? chr "." then
    format ← next format;
    c ← peek format;
    r ← (if c =? chr "*" then
           format ← next format;
           a ← va_word args; Ok (s32 (fst a), format, snd a)
         else r ← parse_number 0 format; Ok (fst r, snd r, args));
    let '(precision, format, args) := r in
    Ok (if precision <? 0 then -1 else precision, format, args)
  else Ok (-1, format, args).

Definition parse_type (format : list Z) : result (arg_type * list Z) :=
  c ← peek format;
  rest ← next format;
  if c =? chr "h" then
    d ← peek rest;
    if d =? chr "h" then rest ← next rest; Ok (CHAR, rest) else Ok (SHORT, rest)
  else if c =? chr "j" then Ok (INTMAX, rest)
  else if c =? chr "l" then
    d ← peek rest;
    if d =? chr "l" then rest ← next rest; Ok (LONGLONG, rest) else Ok (LONG, rest)
  else if c =? chr "t" then Ok (PTRDIFFT, rest)
  else if c =? chr "z" then Ok (SIZET, rest)
  else Ok (INT, format).

Definition parse_conversion (format args : list Z) : result (printf_conversion * list Z * list Z) :=
  r ← parse_flags format;
  let '(fl, format) := r in
  let fl := if has fl MINUS then clear fl ZERO else fl in
  let fl := if has fl PLUS then clear fl SPACE else fl in
  r ← parse_width fl format args;
  let '(width, fl, format, args) := r in
  r ← parse_precision format args;
  let '(precision, format, args) := r in
  let fl := if 0 <=? precision then clear fl ZERO else fl in
  r ← parse_type format;
  let '(type, format) := r in
  Ok (mk_conv fl width precision type, format, args).

(** ** Arguments *)

Definition signed_arg (t : arg_type) (args : list Z) : result (Z * list Z) :=
  match t with
  | CHAR => a ← va_word args; Ok ((fst a + 2 ^ 7) mod 2 ^ 8 - 2 ^ 7, snd a)
  | SHORT => a ← va_word args; Ok ((fst a + 2 ^ 15) mod 2 ^ 16 - 2 ^ 15, snd a)
  | INT | LONG | PTRDIFFT => a ← va_word args; Ok (s32 (fst a), snd a)
  | INTMAX | LONGLONG => a ← va_dword args; Ok (s64 (fst a), snd a)
  | SIZET =>
      a ← va_word args;
      let value := fst a in
      Ok (if value >? (2 ^ 32 - 1) / 2 then s64 (value - (2 ^ 32 - 1) - 1) else value, snd a)
  end.

Definition unsigned_arg (t : arg_type) (args : list Z) : result (Z * list Z) :=
  match t with
  | CHAR => a ← va_word args; Ok (u8 (fst a), snd a)
  | SHORT => a ← va_word args; Ok (u16 (fst a), snd a)
  | INT | LONG | SIZET => a ← va_word args; Ok (fst a, snd a)
  | INTMAX | LONGLONG => a ← va_dword args; Ok (fst a, snd a)
  | PTRDIFFT => a ← va_word args; Ok (Z.land (u64 (s32 (fst a))) (Z.lor (Z.shiftl (2 ^ 31 - 1) 1) 1), snd a)
  end.

(** ** Output *)

Section output.
Context {S : Type}.
(** The memory that strings are read from, and the output function. *)
Variable memof : S → mem.
Variable output : Z → ST S unit.

(** A function of memory that only reads it. *)
Definition reading {A} (f : ST mem A) : ST S A := λ s,
  match f (memof s) with Ok (a, _) => Ok (a, s) | Err e => Err e end.

Definition output_dup (ch cnt : Z) : ST S unit :=
  loopM (Datatypes.S (Z.to_nat cnt)) (λ cnt,
    if cnt >? 0 then output ch;; mret (inl (cnt - 1)) else mret (inr tt)) cnt.

(** [buf] holds the characters before [cp], the last one first. *)
Definition put (buf : list Z) (ch : Z) : result (list Z) :=
  if Z.of_nat (length buf) <? 64 then Ok (ch :: buf) else Err BadAccess.

(** The digits of the value, in reverse order. *)
Definition put_digits (b : integer_base) (fl value : Z) : result (list Z) :=
  loop 65 (λ '(value, cp, digit_cnt),
    if value >? 0 then
      cp ← (if has fl GROUP && (digit_cnt >? 0) && (digit_cnt mod group b =? 0) then put cp (chr ",") else Ok cp);
      cp ← put cp (digits b !!! Z.to_nat (value mod base b));
      Ok (inl (value / base b, cp, digit_cnt + 1))
    else Ok (inr cp)) (value, [], 0).

Definition put_zeros (precision : Z) (cp : list Z) : result (list Z) :=
  loop 65 (λ cp,
    if (Z.of_nat (length cp) <? precision) && (Z.of_nat (length cp) <? 63) then cp ← put cp (chr "0"); Ok (inl cp)
    else Ok (inr cp)) cp.

(** [while (cp > buf) output ( *--cp, aux);] *)
Fixpoint output_buf (cp : list Z) : ST S unit :=
  match cp with
  | [] => mret tt
  | ch :: cp => output ch;; output_buf cp
  end.

Definition sign_char (is_signed negative : bool) (fl : Z) : Z :=
  if is_signed then
    if has fl PLUS then if negative then chr "-" else chr "+"
    else if has fl SPACE then if negative then chr "-" else chr " "
    else if negative then chr "-" else 0
  else 0.

Definition format_integer (value : Z) (is_signed negative : bool) (b : integer_base) (c : printf_conversion) : ST S unit :=
  let sign := sign_char is_signed negative (flags c) in
  let x := if has (flags c) POUND && negb (value =? 0) then base_x_char b else 0 in
  cp ← lift (put_digits b (flags c) value);
  let prec := if precision c <? 0 then 1 else precision c in
  cp ← lift (put_zeros prec cp);
  cp ← lift (if has (flags c) POUND && (base b =? 8) &&
                match cp with [] => true | d :: _ => negb (d =? chr "0") end
             then put cp (chr "0") else Ok cp);
  let pad_cnt := s32 (width c - Z.of_nat (length cp) - (if negb (x =? 0) then 2 else 0) - (if negb (sign =? 0) then 1 else 0)) in
  let pad_cnt := if pad_cnt <? 0 then 0 else pad_cnt in
  (if Z.land (flags c) (Z.lor MINUS ZERO) =? 0 then output_dup (chr " ") pad_cnt else mret tt);;
  (if negb (sign =? 0) then output sign else mret tt);;
  (if negb (x =? 0) then output (chr "0");; output x else mret tt);;
  (if has (flags c) ZERO then output_dup (chr "0") pad_cnt else mret tt);;
  output_buf cp;;
  (if has (flags c) MINUS then output_dup (chr " ") pad_cnt else mret tt).

(** [string] reads the characters of the string. *)
Definition format_string (string : Z → ST S Z) (length : Z) (c : printf_conversion) : ST S unit :=
  (if (width c >? length) && negb (has (flags c) MINUS) then output_dup (chr " ") (width c - length) else mret tt);;
  loopM (Datatypes.S (Z.to_nat length)) (λ i,
    if i <? length then ch ← string i; output ch;; mret (inl (i + 1)) else mret (inr tt)) 0;;
  (if (width c >? length) && has (flags c) MINUS then output_dup (chr " ") (width c - length) else mret tt).

(** The characters of a literal, and of a string in memory. *)
Definition literal (s : list Z) (i : Z) : ST S Z :=
  lift (match (if 0 <=? i then s !! Z.to_nat i else None) with Some c => Ok c | None => Err BadAccess end).
Definition in_memory (p i : Z) : ST S Z := reading (ld (p + i)).

Definition format_str_arg (p : Z) (c : printf_conversion) : ST S unit :=
  if p =? NULL then
    let s := lit "(null)" in
    let n := Z.of_nat (length (str "(null)")) in
    format_string (literal s) (if u32 (precision c) <? n then u32 (precision c) else n) c
  else n ← reading (strnlen p (u32 (precision c))); format_string (in_memory p) (s32 n) c.

(** One conversion; returns the arguments that are left.  [nested] is the call
    of [__printf].  The negation of the least intmax_t overflows, and is taken to
    wrap around. *)
Definition convert (nested : list Z → list Z → ST S unit) (spec : Z) (c : printf_conversion) (args : list Z) : ST S (list Z) :=
  if (spec =? chr "d") || (spec =? chr "i") then
    a ← lift (signed_arg (type c) args);
    let value := fst a in
    format_integer (if value <? 0 then u64 (s64 (- value)) else value) true (value <? 0) base_d c;;
    mret (snd a)
  else if (spec =? chr "o") || (spec =? chr "u") || (spec =? chr "x") || (spec =? chr "X") then
    a ← lift (unsigned_arg (type c) args);
    let b := if spec =? chr "o" then base_o else if spec =? chr "u" then base_d
             else if spec =? chr "x" then base_x else base_X in
    format_integer (fst a) false false b c;;
    mret (snd a)
  else if spec =? chr "c" then
    a ← lift (va_word args);
    format_string (literal [u8 (fst a)]) 1 c;;
    mret (snd a)
  else if spec =? chr "s" then
    a ← lift (va_word args);
    format_str_arg (fst a) c;;
    mret (snd a)
  else if spec =? chr "p" then
    a ← lift (va_word args);
    format_integer (fst a) false false base_x (mk_conv POUND (width c) (precision c) (type c));;
    mret (snd a)
  else if existsb (Z.eqb spec) (str "feEgGn") then
    nested (lit "<<no %%%c in kernel>>") [u32 ((spec + 2 ^ 7) mod 2 ^ 8 - 2 ^ 7)];; mret args
  else
    nested (lit "<<no %%%c conversion>>") [u32 ((spec + 2 ^ 7) mod 2 ^ 8 - 2 ^ 7)];; mret args.

Definition vprintf_loop (nested : list Z → list Z → ST S unit) (format args : list Z) : ST S unit :=
  loopM (Datatypes.S (length format)) (λ '(format, args),
    c ← lift (peek format);
    if c =? 0 then mret (inr tt)
    else
      r ← (if negb (c =? chr "%") then output c;; mret (format, args)
           else
             format ← lift (next format);
             c ← lift (peek format);
             if c =? chr "%" then output (chr "%");; mret (format, args)
             else
               r ← lift (parse_conversion format args);
               let '(conv, format, args) := r in
               spec ← lift (peek format);
               args ← convert nested spec conv args;
               mret (format, args));
      format ← lift (next (fst r));
      mret (inl (format, snd r))) (format, args).

Definition __printf (format args : list Z) : ST S unit := vprintf_loop (λ _ _, fail OutOfFuel) format args.
Definition __vprintf (format args : list Z) : ST S unit := vprintf_loop __printf format args.

End output.

(** ** vsnprintf *)

Record vsnprintf_aux := mk_aux { p : Z; aux_length : Z; max_length : Z }.

Definition vsnprintf_helper (ch : Z) : ST (mem * vsnprintf_aux) unit := λ '(m, aux),
  let aux' := mk_aux (p aux) (aux_length aux + 1) (max_length aux) in
  if aux_length aux =? 2 ^ 31 - 1 then Err SignedOverflow
  else if aux_length aux <? max_length aux then
    match st (p aux) ch m with
    | Ok (_, m) => Ok (tt, (m, mk_aux (p aux + 1) (aux_length aux') (max_length aux')))
    | Err e => Err e
    end
  else Ok (tt, (m, aux')).

Definition vsnprintf (buffer buf_size : Z) (format args : list Z) : ST mem Z := λ m,
  let aux := mk_aux buffer 0 (s32 (if buf_size >? 0 then buf_size - 1 else 0)) in
  match __vprintf fst vsnprintf_helper format args (m, aux) with
  | Err e => Err e
  | Ok (_, (m, aux)) =>
      match (if buf_size >? 0 then st (p aux) 0 m else Ok (tt, m)) with
      | Ok (_, m) => Ok (aux_length aux, m)
      | Err e => Err e
      end
  end.

Definition snprintf (buffer buf_size : Z) (format args : list Z) : ST mem Z := vsnprintf buffer buf_size format args.
