(* ===== verification/StdioSpec.v ===== *)
(** * What stdio.c prints

    A reference semantics of format strings and the proof that the functions of
    [Stdio] implement it.  A format is a list of pieces: characters, "%%" and
    conversions with their flags, width, precision and argument.  [render]
    gives the text of a piece. *)

From S2P Require Import Prelude StdlibC CString Stdio.
From Stdlib Require Import Ascii.
From Stdlib Require String.
Import String.StringSyntax.

(** ** Reference *)

(** The options of a conversion. *)
Record opts := mk_opts {
  left : bool; zero : bool; plus : bool; space : bool; alt : bool; grp : bool;
  o_width : Z; prec : option Z
}.

(** Digits of a number, the most significant first. *)
Fixpoint to_digits (fuel : nat) (bs v : Z) : list Z :=
  match fuel with
  | O => []
  | S n => if v >? 0 then to_digits n bs (v / bs) ++ [v mod bs] else []
  end.

(** Commas between groups of [g] digits, counted from the right; [ds] has the
    least significant digit first and [i] digits are to its right. *)
Fixpoint commas (g i : Z) (ds : list Z) : list Z :=
  match ds with
  | [] => []
  | d :: r => (if (i >? 0) && (i mod g =? 0) then [chr ","] else []) ++ d :: commas g (i + 1) r
  end.

Definition numeral (b : integer_base) (grouped : bool) (v : Z) : list Z :=
  let ds := (λ d, digits b !!! Z.to_nat d) <$> to_digits 64 (base b) v in
  if grouped then reverse (commas (group b) 0 (reverse ds)) else ds.

Definition int_body (o : opts) (b : integer_base) (v : Z) : list Z :=
  let ds := numeral b (grp o) v in
  let n := match prec o with None => 1 | Some n => n end in
  let ds := replicate (Z.to_nat (n - Z.of_nat (length ds))) (chr "0") ++ ds in
  if alt o && (base b =? 8) && negb (bool_decide (head ds = Some (chr "0"))) then chr "0" :: ds else ds.

Definition int_prefix (o : opts) (b : integer_base) (v : Z) (sign : list Z) : list Z :=
  sign ++ if alt o && negb (v =? 0) && negb (base_x_char b =? 0) then [chr "0"; base_x_char b] else [].

(** Padding to the width of the field. *)
Definition pad (o : opts) (len : nat) (ch : Z) : list Z := replicate (Z.to_nat (o_width o - Z.of_nat len)) ch.

Definition int_text (o : opts) (b : integer_base) (v : Z) (sign : list Z) : list Z :=
  let pre := int_prefix o b v sign in
  let body := int_body o b v in
  let len := length (pre ++ body) in
  if left o then pre ++ body ++ pad o len (chr " ")
  else if zero o then pre ++ pad o len (chr "0") ++ body
  else pad o len (chr " ") ++ pre ++ body.

(** The code builds the digits of a number in a buffer of 64 bytes, of which the
    zeros for the precision fill at most 63: a larger precision counts as 63. *)
Definition clip (o : opts) : opts :=
  mk_opts (left o) (zero o) (plus o) (space o) (alt o) (grp o) (o_width o) (Z.min 63 <$> prec o).

Definition short_prec (o : opts) : Prop := match prec o with Some n => n ≤ 63 | None => True end.

Lemma clip_short o : short_prec o → clip o = o.
Proof. destruct o as [l z p sp a g w [n|]]; unfold short_prec, clip; simpl; intros H; [|done]. by rewrite Z.min_r. Qed.

Lemma clip_prec o : short_prec (clip o).
Proof. unfold short_prec, clip. simpl. destruct (prec o); simpl; [lia|done]. Qed.

Definition sign_text (o : opts) (negative : bool) : list Z :=
  if negative then [chr "-"] else if plus o then [chr "+"] else if space o then [chr " "] else [].

Definition string_text (o : opts) (t : list Z) : list Z :=
  if left o then t ++ pad o (length t) (chr " ") else pad o (length t) (chr " ") ++ t.

(** The structure the code has for some options. *)
Record conv_ok (c : printf_conversion) (o : opts) : Prop := {
  co_left : has (flags c) MINUS = left o;
  co_zero : has (flags c) ZERO = zero o;
  co_plus : has (flags c) PLUS = plus o;
  co_space : has (flags c) SPACE = space o;
  co_alt : has (flags c) POUND = alt o;
  co_grp : has (flags c) GROUP = grp o;
  co_width : width c = o_width o;
  co_wrange : 0 ≤ o_width o < 2 ^ 31;
  co_prec : match prec o with None => precision c = -1 | Some n => precision c = n ∧ 0 ≤ n < 2 ^ 31 end
}.

(** ** Output as the output of a list of characters *)

Section text.
Context {S : Type} (memof : S → mem) (output : Z → ST S unit).

Abbreviation print := (output_buf output).

Lemma bind_assoc {A B C} (m : ST S A) (f : A → ST S B) (g : B → ST S C) s :
  ((m ≫= f) ≫= g) s = (m ≫= λ a, f a ≫= g) s.
Proof. unfold mbind, st_bind. by destruct (m s) as [[]|]. Qed.

Lemma bind_ext {A B} (m m' : ST S A) (f f' : A → ST S B) s :
  m s = m' s → (∀ a s', f a s' = f' a s') → (m ≫= f) s = (m' ≫= f') s.
Proof. intros E H. unfold mbind, st_bind. rewrite E. by destruct (m' s) as [[]|]. Qed.

Lemma print_app l1 l2 s : print (l1 ++ l2) s = (print l1;; print l2) s.
Proof.
  revert s. induction l1 as [|c l1 IH]; intros s; [done|]. simpl. rewrite bind_assoc. by apply bind_ext.
Qed.

Lemma print_one c s : output c s = print [c] s.
Proof. simpl. unfold mbind, st_bind. by destruct (output c s) as [[[]]|]. Qed.

Lemma print_bind {A} (m : ST S unit) l (f : unit → ST S A) s :
  m s = print l s → (m ≫= f) s = (print l ≫= f) s.
Proof. intros E. by apply bind_ext. Qed.

Lemma print_step (m : ST S unit) l1 l2 (f : ST S unit) s :
  m s = print l1 s → (∀ s, f s = print l2 s) → (m;; f) s = print (l1 ++ l2) s.
Proof. intros E H. rewrite print_app. by apply bind_ext. Qed.

Lemma output_dup_ok ch n s : output_dup output ch n s = print (replicate (Z.to_nat n) ch) s.
Proof.
  unfold output_dup. remember (Z.to_nat n) as k eqn:Ek. revert n Ek s.
  induction k as [|k IH]; intros n Ek s; rewrite loopM_unfold.
  - destruct (Z.gtb_spec n 0); [lia|done].
  - destruct (Z.gtb_spec n 0); [|lia]. cbn [replicate output_buf]. unfold mbind, st_bind.
    destruct (output ch s) as [[[] s']|]; [|done]. unfold mret, st_ret. apply IH. lia.
Qed.
End text.

(** ** Integers *)

Lemma to_digits_pos n bs v : 0 < v → to_digits (S n) bs v = to_digits n bs (v / bs) ++ [v mod bs].
Proof. intros Hv. simpl. destruct (Z.gtb_spec v 0); [done|lia]. Qed.

Lemma to_digits_zero n bs v : v ≤ 0 → to_digits n bs v = [].
Proof. intros Hv. destruct n; simpl; [done|]. destruct (Z.gtb_spec v 0); [lia|done]. Qed.

Lemma to_digits_length k bs : 1 < bs → ∀ n v, 0 ≤ v < bs ^ Z.of_nat n → (length (to_digits k bs v) ≤ n)%nat.
Proof.
  intros Hb. induction k as [|k IH]; intros n v Hv; simpl; [lia|]. destruct (Z.gtb_spec v 0); [|simpl; lia].
  destruct n as [|n]; [simpl in Hv; lia|]. rewrite Nat2Z.inj_succ, Z.pow_succ_r in Hv by lia.
  rewrite length_app. specialize (IH n (v / bs)). simpl.
  assert (0 ≤ v / bs < bs ^ Z.of_nat n) by (split; [apply Z.div_pos; lia|apply Z.div_lt_upper_bound; lia]). lia.
Qed.

Lemma to_digits_range k bs v : 0 < bs → Forall (λ d, 0 ≤ d < bs) (to_digits k bs v).
Proof.
  intros Hb. revert v. induction k as [|k IH]; intros v; simpl; [constructor|]. destruct (v >? 0); [|constructor].
  apply Forall_app. split; [done|]. constructor; [by apply Z.mod_pos_bound|constructor].
Qed.

(** The number that some digits stand for. *)
Definition digits_value (bs : Z) (ds : list Z) : Z := foldl (λ a d, bs * a + d) 0 ds.

Lemma digits_value_app bs ds d : digits_value bs (ds ++ [d]) = bs * digits_value bs ds + d.
Proof. unfold digits_value. by rewrite foldl_app. Qed.

Lemma digits_value_zeros bs n ds : digits_value bs (replicate n 0 ++ ds) = digits_value bs ds.
Proof.
  unfold digits_value. rewrite foldl_app. f_equal. induction n as [|n IH]; [done|]. simpl. by rewrite Z.mul_0_r.
Qed.

Lemma to_digits_value k bs : 1 < bs → ∀ v, 0 ≤ v < bs ^ Z.of_nat k → digits_value bs (to_digits k bs v) = v.
Proof.
  intros Hb. induction k as [|k IH]; intros v Hv; simpl; [simpl in Hv; unfold digits_value; simpl; lia|].
  destruct (Z.gtb_spec v 0); [|unfold digits_value; simpl; lia].
  rewrite Nat2Z.inj_succ, Z.pow_succ_r in Hv by lia. rewrite digits_value_app, IH.
  - symmetry. apply Z.div_mod. lia.
  - split; [apply Z.div_pos; lia|apply Z.div_lt_upper_bound; lia].
Qed.

(** [ds] has the least significant digit first, and [i] digits come before. *)
Definition grouped (g : bool) (b : integer_base) (i : Z) (ds : list Z) : list Z :=
  if g then commas (group b) i ds else ds.

Lemma grouped_cons g b i d ds :
  grouped g b i (d :: ds) =
  (if g && (i >? 0) && (i mod group b =? 0) then [chr ","] else []) ++ d :: grouped g b (i + 1) ds.
Proof. destruct g; [|done]. done. Qed.

Definition low_digits (b : integer_base) (n : nat) (v : Z) : list Z :=
  (λ d, digits b !!! Z.to_nat d) <$> reverse (to_digits n (base b) v).

Lemma low_digits_pos b n v :
  0 < v → low_digits b (S n) v = digits b !!! Z.to_nat (v mod base b) :: low_digits b n (v / base b).
Proof. intros Hv. unfold low_digits. rewrite to_digits_pos, reverse_app by done. done. Qed.

Lemma numeral_grouped b g v : numeral b g v = reverse (grouped g b 0 (low_digits b 64 v)).
Proof.
  unfold numeral, low_digits, grouped. rewrite fmap_reverse. destruct g; [done|]. by rewrite reverse_involutive.
Qed.

Lemma put_ok cp ch : (length cp < 64)%nat → put cp ch = Ok (ch :: cp).
Proof. intros Hl. unfold put. by rewrite (proj2 (Z.ltb_lt _ _)) by lia. Qed.

Definition digit_step (b : integer_base) (fl : Z) : Z * list Z * Z → result (Z * list Z * Z + list Z) :=
  λ '(value, cp, digit_cnt),
    if value >? 0 then
      cp ← (if has fl GROUP && (digit_cnt >? 0) && (digit_cnt mod group b =? 0) then put cp (chr ",") else Ok cp);
      cp ← put cp (digits b !!! Z.to_nat (value mod base b));
      Ok (inl (value / base b, cp, digit_cnt + 1))
    else Ok (inr cp).

Lemma digit_step_pos b fl v cp k :
  0 < v → (length cp + 2 ≤ 64)%nat →
  digit_step b fl (v, cp, k) =
  Ok (inl (v / base b, digits b !!! Z.to_nat (v mod base b) ::
      (if has fl GROUP && (k >? 0) && (k mod group b =? 0) then [chr ","] else []) ++ cp, k + 1)).
Proof.
  intros Hv Hl. unfold digit_step. destruct (Z.gtb_spec v 0); [|lia].
  destruct (has fl GROUP && (k >? 0) && (k mod group b =? 0)).
  - rewrite put_ok by lia. cbn [mbind result_bind]. by rewrite put_ok by (simpl; lia).
  - cbn [mbind result_bind]. by rewrite put_ok by lia.
Qed.

Lemma put_digits_go b fl : 8 ≤ base b → ∀ n v cp k m f,
  0 ≤ v < 8 ^ Z.of_nat n → (n ≤ m)%nat → (n ≤ f)%nat → (length cp + 2 * n ≤ 64)%nat →
  loop (S m) (digit_step b fl) (v, cp, k) = Ok (reverse (grouped (has fl GROUP) b k (low_digits b f v)) ++ cp).
Proof.
  intros Hb. induction n as [|n IH]; intros v cp k m f Hv Hm Hf Hl; rewrite loop_unfold.
  - simpl in Hv. assert (v = 0) as -> by lia. unfold low_digits. rewrite to_digits_zero by lia. simpl.
    unfold grouped. by destruct (has fl GROUP).
  - destruct (decide (v = 0)) as [->|Nv].
    { unfold low_digits. rewrite to_digits_zero by lia. simpl. unfold grouped. by destruct (has fl GROUP). }
    rewrite digit_step_pos by lia. destruct m as [|m]; [lia|]. destruct f as [|f]; [lia|].
    rewrite Nat2Z.inj_succ, Z.pow_succ_r in Hv by lia. rewrite (IH _ _ _ m f).
    + rewrite low_digits_pos, grouped_cons, reverse_app, reverse_cons by lia. rewrite <-!app_assoc. simpl.
      by destruct (_ && _).
    + split; [apply Z.div_pos; lia|]. apply Z.div_lt_upper_bound; nia.
    + lia.
    + lia.
    + destruct (_ && _); simpl; lia.
Qed.

Lemma put_digits_ok b fl v :
  8 ≤ base b → 0 ≤ v < 2 ^ 64 → put_digits b fl v = Ok (numeral b (has fl GROUP) v).
Proof.
  intros Hb Hv. change (put_digits b fl v) with (loop 65 (digit_step b fl) (v, [], 0)).
  rewrite (put_digits_go b fl Hb 22 v [] 0 64 64); [|split; [lia|]; change (2 ^ 64) with (18446744073709551616) in Hv; simpl; lia|lia..|simpl; lia].
  by rewrite numeral_grouped, app_nil_r.
Qed.

Lemma low_digits_length b : 8 ≤ base b → ∀ n v f, 0 ≤ v < 8 ^ Z.of_nat n → (length (low_digits b f v) ≤ n)%nat.
Proof.
  intros Hb. induction n as [|n IH]; intros v f Hv.
  - simpl in Hv. unfold low_digits. rewrite to_digits_zero by lia. simpl. lia.
  - destruct (decide (v = 0)) as [->|Nv]; [unfold low_digits; rewrite to_digits_zero by lia; simpl; lia|].
    destruct f as [|f]; [unfold low_digits; simpl; lia|]. rewrite low_digits_pos by lia.
    rewrite Nat2Z.inj_succ, Z.pow_succ_r in Hv by lia. specialize (IH (v / base b) f).
    assert (0 ≤ v / base b < 8 ^ Z.of_nat n); [|simpl; lia].
    split; [apply Z.div_pos; lia|]. apply Z.div_lt_upper_bound; nia.
Qed.

Lemma commas_length g i ds : (length (commas g i ds) ≤ 2 * length ds)%nat.
Proof. revert i. induction ds as [|d ds IH]; intros i; simpl; [lia|]. rewrite length_app. specialize (IH (i + 1)). destruct (_ && _); simpl; lia. Qed.

Lemma numeral_length b g v : 8 ≤ base b → 0 ≤ v < 2 ^ 64 → (length (numeral b g v) ≤ 44)%nat.
Proof.
  intros Hb Hv. rewrite numeral_grouped, length_reverse.
  assert (length (low_digits b 64 v) ≤ 22)%nat as Hl.
  { apply low_digits_length; [done|]. split; [lia|]. change (2 ^ 64) with 18446744073709551616 in Hv. simpl. lia. }
  unfold grouped. destruct g; [|lia]. pose proof (commas_length (group b) 0 (low_digits b 64 v)). lia.
Qed.

Lemma put_zeros_ok n cp :
  (length cp ≤ 63)%nat →
  put_zeros n cp = Ok (replicate (Z.to_nat (Z.min n 63 - Z.of_nat (length cp))) (chr "0") ++ cp).
Proof.
  intros Hl. unfold put_zeros. match goal with |- loop _ ?f _ = _ => set (body := f) end.
  assert (∀ k m cp, (length cp ≤ 63)%nat → Z.to_nat (Z.min n 63 - Z.of_nat (length cp)) = k → (k < m)%nat →
    loop m body cp = Ok (replicate k (chr "0") ++ cp)) as H.
  { clear. intros k. induction k as [|k IH]; intros [|m] cp Hl Hk Hm; [lia..| |lia|]; rewrite loop_unfold; unfold body.
    - replace ((Z.of_nat (length cp) <? n) && (Z.of_nat (length cp) <? 63)) with false; [done|].
      symmetry. apply andb_false_iff. rewrite !Z.ltb_ge. lia.
    - replace ((Z.of_nat (length cp) <? n) && (Z.of_nat (length cp) <? 63)) with true; cycle 1.
      { symmetry. apply andb_true_iff. rewrite !Z.ltb_lt. lia. }
      rewrite put_ok by lia. cbn [mbind result_bind]. rewrite (IH m); [|simpl; lia..].
      f_equal. by rewrite replicate_S_end, <-app_assoc. }
  apply H; [done|done|lia].
Qed.

Definition base_ok (b : integer_base) : Prop := b ∈ [base_d; base_o; base_x; base_X].

Lemma base_ok_8 b : base_ok b → 8 ≤ base b.
Proof. unfold base_ok. rewrite !elem_of_cons. intros [->|[->|[->|[->|[]%elem_of_nil]]]]; done. Qed.

Lemma has_testbit fl k : 0 ≤ k → has fl (Z.shiftl 1 k) = Z.testbit fl k.
Proof.
  intros Hk. unfold has. destruct (Z.testbit fl k) eqn:E.
  - apply negb_true_iff, Z.eqb_neq. intros H. apply (f_equal (λ z, Z.testbit z k)) in H.
    rewrite Z.land_spec, E, Z.bits_0, Z.shiftl_spec, Z.sub_diag in H by lia. done.
  - apply negb_false_iff, Z.eqb_eq. apply Z.bits_inj'. intros n Hn. rewrite Z.land_spec, Z.bits_0, Z.shiftl_spec by lia.
    destruct (decide (n = k)) as [->|Nk]; [by rewrite E|].
    replace (Z.testbit 1 (n - k)) with false; [by rewrite andb_false_r|].
    destruct (decide (n < k)); [by rewrite Z.testbit_neg_r by lia|]. change 1 with (2 ^ 0). by rewrite Z.pow2_bits_false by lia.
Qed.

Lemma has_left_zero fl : Z.land fl (Z.lor MINUS ZERO) =? 0 = negb (has fl MINUS) && negb (has fl ZERO).
Proof.
  unfold has. rewrite !negb_involutive, Z.land_lor_distr_r.
  destruct (Z.eqb_spec (Z.lor (Z.land fl MINUS) (Z.land fl ZERO)) 0) as [H|H].
  - apply Z.lor_eq_0_iff in H as [-> ->]. done.
  - symmetry. apply andb_false_iff. rewrite !Z.eqb_neq. rewrite Z.lor_eq_0_iff in H.
    destruct (decide (Z.land fl MINUS = 0)); [right|left]; tauto.
Qed.

Section integers.
Context {S : Type} (memof : S → mem) (output : Z → ST S unit).
Abbreviation print := (output_buf output).

Lemma print_nil s : (mret tt : ST S unit) s = print [] s.
Proof. done. Qed.

Lemma if_print (b : bool) (m : ST S unit) l s : m s = print l s → (if b then m else mret tt : ST S unit) s = print (if b then l else []) s.
Proof. by destruct b. Qed.

Lemma int_body_length o b v : base_ok b → 0 ≤ v < 2 ^ 64 → short_prec o → (length (int_body o b v) ≤ 64)%nat.
Proof.
  intros Hb Hv Hp. unfold short_prec in Hp. unfold int_body. pose proof (numeral_length b (grp o) v (base_ok_8 b Hb) Hv).
  match goal with |- context [if ?c then _ else _] => destruct c end; cbn [length]; rewrite length_app, length_replicate;
    destruct (prec o); lia.
Qed.

Lemma format_integer_ok c o b v is_signed negative s :
  conv_ok c o → base_ok b → 0 ≤ v < 2 ^ 64 → (zero o = true → left o = false) →
  format_integer output v is_signed negative b c s =
  print (int_text (clip o) b v (if is_signed then sign_text o negative else [])) s.
Proof.
  intros Hc Hb Hv Hlz. pose proof (base_ok_8 b Hb) as H8. pose proof (numeral_length b (grp o) v H8 Hv) as Hnl.
  unfold format_integer. cbn zeta. rewrite (co_alt _ _ Hc). erewrite bind_ok by (unfold lift; by rewrite put_digits_ok).
  rewrite (co_grp _ _ Hc). set (ds := numeral b (grp o) v) in *.
  erewrite bind_ok by (unfold lift; by rewrite put_zeros_ok by lia).
  set (body := int_body (clip o) b v).
  assert (length body ≤ 64)%nat as Hbl by (apply int_body_length, clip_prec; done).
  erewrite bind_ok with (a := body); cycle 1.
  { unfold lift. unfold body, int_body in *. cbn [clip grp alt prec] in *. fold ds in Hbl |- *.
    replace (Z.min (if precision c <? 0 then 1 else precision c) 63)
      with (match Z.min 63 <$> prec o with Some n => n | None => 1 end); cycle 1.
    { pose proof (co_prec _ _ Hc) as Hp. destruct (prec o); simpl; [destruct Hp as [-> ?]; rewrite (proj2 (Z.ltb_ge _ _)) by lia; lia|by rewrite Hp]. }
    set (zs := replicate _ _ ++ ds) in *.
    replace (match zs with [] => true | d :: _ => negb (d =? chr "0") end) with (negb (bool_decide (head zs = Some (chr "0")))); cycle 1.
    { destruct zs as [|d zs']; [done|]. simpl. f_equal. destruct (Z.eqb_spec d (chr "0")) as [->|N]; [by rewrite bool_decide_eq_true_2|].
      apply bool_decide_eq_false_2. congruence. }
    destruct (alt o && _ && _); [|done]. rewrite put_ok; [done|]. simpl in Hbl. lia. }
  set (sign := sign_char is_signed negative (flags c)). set (st := if is_signed then sign_text o negative else []).
  assert ((if negb (sign =? 0) then [sign] else []) = st ∧ (if negb (sign =? 0) then 1 else 0) = Z.of_nat (length st)) as [Es El].
  { unfold sign, st, sign_char, sign_text. rewrite (co_plus _ _ Hc), (co_space _ _ Hc).
    by destruct is_signed, negative, (plus o), (space o). }
  set (x := if alt o && negb (v =? 0) then base_x_char b else 0).
  set (xt := if alt o && negb (v =? 0) && negb (base_x_char b =? 0) then [chr "0"; base_x_char b] else []).
  assert ((if negb (x =? 0) then [chr "0"; x] else []) = xt ∧ (if negb (x =? 0) then 2 else 0) = Z.of_nat (length xt)) as [Ex Exl].
  { unfold x, xt. destruct (alt o && negb (v =? 0)); [|done]. simpl. by destruct (base_x_char b =? 0). }
  rewrite (co_width _ _ Hc), El, Exl. pose proof (co_wrange _ _ Hc) as Hw.
  assert (length st ≤ 1 ∧ length xt ≤ 2)%nat as [Hs1 Hx2].
  { rewrite <-Es. unfold xt. destruct (negb (sign =? 0)), (alt o && _ && _); simpl; lia. }
  set (len := length ((st ++ xt) ++ body)).
  assert (Z.of_nat len = Z.of_nat (length st) + Z.of_nat (length xt) + Z.of_nat (length body)) as Hlen
    by (unfold len; rewrite !length_app; lia).
  set (pc := s32 _). assert (Z.to_nat (if pc <? 0 then 0 else pc) = Z.to_nat (o_width o - Z.of_nat len)) as Epad.
  { unfold pc. rewrite s32_small by lia. destruct (Z.ltb_spec (o_width o - Z.of_nat (length body) - Z.of_nat (length xt) - Z.of_nat (length st)) 0); lia. }
  rewrite has_left_zero, (co_left _ _ Hc), (co_zero _ _ Hc).
  set (sp ch := pad o len ch).
  assert (∀ ch s, output_dup output ch (if pc <? 0 then 0 else pc) s = print (sp ch) s) as Hdup.
  { intros ch s'. rewrite output_dup_ok, Epad. done. }
  transitivity (print ((if negb (left o) && negb (zero o) then sp (chr " ") else []) ++ st ++ xt ++
    (if zero o then sp (chr "0") else []) ++ body ++ (if left o then sp (chr " ") else [])) s).
  - apply print_step; [by apply if_print|]. intros s1.
    apply print_step. { rewrite <-Es. apply if_print, print_one. } intros s2.
    apply print_step. { rewrite <-Ex. apply if_print. simpl. apply bind_ext; [done|]. intros _ s3. apply print_one. } intros s3.
    apply print_step; [by apply if_print|]. intros s4. apply print_step; [done|]. intros s5. by apply if_print.
  - f_equal. unfold int_text, int_prefix. fold xt body. cbn [clip left zero alt]. fold xt len. destruct (left o), (zero o); simpl; [by specialize (Hlz eq_refl)|..];
      rewrite ?app_nil_r, <-?app_assoc; done.
Qed.
End integers.

(** ** Strings and conversions *)

Section conversions.
Context {S : Type} (memof : S → mem) (output : Z → ST S unit).
Abbreviation print := (output_buf output).

(** The output function keeps an invariant, under which the strings [strs] are
    in memory. *)
Context (I : S → Prop) (strs : Z → list Z → Prop).
Hypothesis Hout : ∀ c s s', I s → output c s = Ok (tt, s') → I s'.
Hypothesis Hstrs : ∀ p t s, I s → strs p t → cstr (memof s) p t.

Definition prints (m : ST S unit) (l : list Z) : Prop := ∀ s, I s → m s = print l s.

Lemma print_inv l s s' : I s → print l s = Ok (tt, s') → I s'.
Proof.
  revert s. induction l as [|c l IH]; intros s Hs E; simpl in E; [by injection E as <-|].
  unfold mbind, st_bind in E. destruct (output c s) as [[[] s1]|] eqn:E1; [|done]. by apply (IH s1); [eapply Hout|].
Qed.

Lemma prints_seq m l (f : ST S unit) l' : prints m l → prints f l' → prints (m;; f) (l ++ l').
Proof.
  intros Hm Hf s Hs. rewrite print_app. unfold mbind, st_bind. rewrite (Hm s Hs).
  destruct (print l s) as [[[] s1]|] eqn:E; [|done]. by eapply Hf, print_inv.
Qed.

Lemma prints_ret : prints (mret tt) [].
Proof. done. Qed.

Lemma prints_if (b : bool) m l : prints m l → prints (if b then m else mret tt) (if b then l else []).
Proof. by destruct b. Qed.

Lemma prints_dup ch n : prints (output_dup output ch n) (replicate (Z.to_nat n) ch).
Proof. intros s _. apply output_dup_ok. Qed.

Definition chars_loop (string : Z → ST S Z) (length : Z) : Z → ST S (Z + unit) := λ i,
  if i <? length then ch ← string i; output ch;; mret (inl (i + 1)) else mret (inr tt).

Lemma prints_chars string t : 
  (∀ i c s, I s → t !! i = Some c → string (Z.of_nat i) s = Ok (c, s)) →
  prints (loopM (Datatypes.S (length t)) (chars_loop string (Z.of_nat (length t))) 0) t.
Proof.
  intros Hst. set (n := Z.of_nat (length t)).
  assert (∀ k t1 t2 s, t = t1 ++ t2 → I s → (length t2 ≤ k)%nat →
    loopM (Datatypes.S k) (chars_loop string n) (Z.of_nat (length t1)) s = print t2 s) as H.
  { intros k. induction k as [|k IH]; intros t1 t2 s Ht Hs Hk; rewrite loopM_unfold; unfold chars_loop at 1, n at 1;
      rewrite Ht, length_app; destruct t2 as [|c t2]; cbn [length] in *; [|lia| |].
    1, 2: by rewrite (proj2 (Z.ltb_ge _ _)) by lia.
    rewrite (proj2 (Z.ltb_lt _ _)) by lia. unfold mbind, st_bind.
    rewrite (Hst (length t1) c) by (done || by rewrite Ht, lookup_app_r, Nat.sub_diag by lia).
    simpl. unfold mbind, st_bind. destruct (output c s) as [[[] s1]|] eqn:E; [|done]. unfold mret, st_ret.
    replace (Z.of_nat (length t1) + 1) with (Z.of_nat (length (t1 ++ [c]))) by (rewrite length_app; simpl; lia).
    apply IH; [by rewrite <-app_assoc|by eapply Hout|lia]. }
  intros s Hs. by apply (H (length t) [] t).
Qed.

Lemma format_string_ok string t c o :
  conv_ok c o → (∀ i ch s, I s → t !! i = Some ch → string (Z.of_nat i) s = Ok (ch, s)) →
  prints (format_string output string (Z.of_nat (length t)) c) (string_text o t).
Proof.
  intros Hc Hst. unfold format_string. rewrite Nat2Z.id, (co_width _ _ Hc), (co_left _ _ Hc).
  assert (string_text o t = (if (o_width o >? Z.of_nat (length t)) && negb (left o) then pad o (length t) (chr " ") else []) ++
    t ++ (if (o_width o >? Z.of_nat (length t)) && left o then pad o (length t) (chr " ") else [])) as ->.
  { unfold string_text, pad. destruct (Z.gtb_spec (o_width o) (Z.of_nat (length t))); [by destruct (left o); simpl; rewrite ?app_nil_r|].
    replace (Z.to_nat (o_width o - Z.of_nat (length t))) with 0%nat by lia. destruct (left o); simpl; by rewrite ?app_nil_r. }
  apply prints_seq; [apply prints_if, prints_dup|]. apply prints_seq; [by apply prints_chars|]. apply prints_if, prints_dup.
Qed.

Lemma reading_ok {A} (f : ST mem A) a s : f (memof s) = Ok (a, memof s) → reading memof f s = Ok (a, s).
Proof. intros E. unfold reading. by rewrite E. Qed.

(** The part of a string that is printed. *)
Definition cut (o : opts) (t : list Z) : list Z := match prec o with Some n => take (Z.to_nat n) t | None => t end.

(** The text of a "%s". *)
Lemma format_str_ok p t c o :
  conv_ok c o → strs p t → p ≠ NULL → Z.of_nat (length t) < 2 ^ 31 →
  prints (format_str_arg memof output p c) (string_text o (cut o t)).
Proof.
  intros Hc Hp Np Hlt s Hs. unfold format_str_arg. rewrite (proj2 (Z.eqb_neq _ _) Np).
  pose proof (Hstrs p t s Hs Hp) as Hcs. pose proof (co_prec _ _ Hc) as Hpr.
  assert (Z.min (u32 (precision c)) (Z.of_nat (length t)) = Z.of_nat (length (cut o t))) as Hmin.
  { unfold cut. destruct (prec o) as [n|].
    - destruct Hpr as [-> Hn]. rewrite u32_small, length_take by lia. lia.
    - rewrite Hpr. change (u32 (-1)) with (2 ^ 32 - 1). lia. }
  erewrite bind_ok by (apply reading_ok, strnlen_ok; [done|apply u32_range]).
  rewrite Hmin, s32_small by (rewrite <-Hmin; lia). apply format_string_ok; [done| |done].
  intros i ch s' Hs' Hi. unfold in_memory. apply reading_ok, ld_ok.
  apply (cstr_byte _ _ t _ _ (Hstrs p t s' Hs' Hp)). apply lookup_app_l_Some.
  unfold cut in Hi. destruct (prec o); [by apply lookup_take_Some in Hi as [? _]|done].
Qed.

Lemma literal_ok t i ch (s : S) : t !! i = Some ch → literal t (Z.of_nat i) s = Ok (ch, s).
Proof. intros E. unfold literal. rewrite (proj2 (Z.leb_le _ _)) by lia. rewrite Nat2Z.id, E. done. Qed.

Lemma format_null_ok c o :
  conv_ok c o → prints (format_str_arg memof output NULL c) (string_text o (cut o (str "(null)"))).
Proof.
  intros Hc. unfold format_str_arg. rewrite Z.eqb_refl. cbn zeta. pose proof (co_prec _ _ Hc) as Hpr.
  set (t := str "(null)"). assert (length t = 6%nat) as Ht by done.
  replace (if u32 (precision c) <? Z.of_nat (length t) then u32 (precision c) else Z.of_nat (length t))
    with (Z.of_nat (length (cut o t))); cycle 1.
  { unfold cut. destruct (prec o) as [n|].
    - destruct Hpr as [-> Hn]. rewrite u32_small, length_take by lia. destruct (Z.ltb_spec n (Z.of_nat (length t))); lia.
    - rewrite Hpr. done. }
  apply format_string_ok; [done|]. intros i ch s _ Hi. apply literal_ok. unfold lit. fold t. apply lookup_app_l_Some.
  unfold cut in Hi. destruct (prec o); [by apply lookup_take_Some in Hi as [? _]|done].
Qed.
End conversions.

(** ** The syntax of conversions *)

Inductive width_spec := WNum (ds : list Z) | WStar (w : Z).
Inductive prec_spec := PNone | PNum (ds : list Z) | PStar (w : Z).
Record directive := mk_dir {
  d_flags : list Z; d_width : width_spec; d_prec : prec_spec; d_type : arg_type; d_conv : Z
}.

Definition digit_chars (ds : list Z) : list Z := (λ d, d + 48) <$> ds.
Definition width_text (w : width_spec) : list Z := match w with WNum ds => digit_chars ds | WStar _ => str "*" end.
Definition prec_text (p : prec_spec) : list Z :=
  match p with PNone => [] | PNum ds => chr "." :: digit_chars ds | PStar _ => str ".*" end.
Definition type_text (t : arg_type) : list Z :=
  match t with
  | CHAR => str "hh" | SHORT => str "h" | INT => [] | INTMAX => str "j" | LONG => str "l"
  | LONGLONG => str "ll" | PTRDIFFT => str "t" | SIZET => str "z"
  end.
(** Without the "%" and the conversion character. *)
Definition options_text (d : directive) : list Z :=
  d_flags d ++ width_text (d_width d) ++ prec_text (d_prec d) ++ type_text (d_type d).

(** The arguments for the asterisks. *)
Definition star_args (d : directive) : list Z :=
  match d_width d with WStar w => [u32 w] | _ => [] end ++ match d_prec d with PStar w => [u32 w] | _ => [] end.

Definition flag (d : directive) (c : Z) : bool := bool_decide (c ∈ d_flags d).

Definition prec_of (p : prec_spec) : option Z :=
  match p with PNone => None | PNum ds => Some (decimal ds) | PStar w => if w <? 0 then None else Some w end.

Definition opts_of (d : directive) : opts :=
  let neg := match d_width d with WStar w => w <? 0 | _ => false end in
  let p := prec_of (d_prec d) in
  mk_opts (flag d (chr "-") || neg)
    (flag d (chr "0") && negb (flag d (chr "-")) && match p with None => true | _ => false end)
    (flag d (chr "+")) (flag d (chr " ") && negb (flag d (chr "+"))) (flag d (chr "#")) (flag d (chr "'"))
    (match d_width d with WNum ds => decimal ds | WStar w => Z.abs w end) p.

Definition digits_ok (ds : list Z) : Prop := Forall (λ d, 0 ≤ d ≤ 9) ds ∧ decimal ds < 2 ^ 31.

(** [c] is not an option character. *)
Definition conv_char (c : Z) : Prop :=
  0 < c < 256 ∧ flag_of c = None ∧ isdigit c = false ∧ c ∉ str "*.hjltz%".

Record dir_ok (d : directive) : Prop := {
  do_flags : Forall (λ c, is_Some (flag_of c)) (d_flags d);
  do_width : match d_width d with WNum ds => digits_ok ds ∧ head ds ≠ Some 0 | WStar w => - 2 ^ 31 < w < 2 ^ 31 end;
  do_prec : match d_prec d with PNone => True | PNum ds => digits_ok ds | PStar w => - 2 ^ 31 ≤ w < 2 ^ 31 end;
  do_conv : conv_char (d_conv d)
}.

(** *** Flags *)

Definition mask (fl : Z) (l : list Z) : Z := foldl (λ fl c, Z.lor fl (default 0 (flag_of c))) fl l.

Lemma parse_flags_ok l : ∀ fl rest c n,
  Forall (λ c, is_Some (flag_of c)) l → head rest = Some c → flag_of c = None → (length (l ++ rest) < n)%nat →
  loop n (λ '(fl, format),
    c ← peek format;
    match flag_of c with
    | Some f => format ← next format; Ok (inl (Z.lor fl f, format))
    | None => Ok (inr (fl, format))
    end) (fl, l ++ rest) = Ok (mask fl l, rest).
Proof.
  induction l as [|a l IH]; intros fl rest c [|n] Hl Hr Hc Hn; [lia| |lia|]; rewrite loop_unfold.
  - destruct rest as [|c' r]; [done|]. injection Hr as ->. simpl. by rewrite Hc.
  - apply Forall_cons in Hl as [[f Hf] Hl]. simpl. rewrite Hf. cbn [mbind result_bind].
    rewrite (IH _ _ c n) by (done || simpl in Hn; lia). done.
Qed.

Lemma has_lor a b f : has (Z.lor a b) f = has a f || has b f.
Proof.
  unfold has. rewrite Z.land_lor_distr_l. rewrite <-negb_andb. f_equal.
  destruct (Z.eqb_spec (Z.lor (Z.land a f) (Z.land b f)) 0) as [H|H].
  - apply Z.lor_eq_0_iff in H as [-> ->]. done.
  - symmetry. apply andb_false_iff. rewrite !Z.eqb_neq. rewrite Z.lor_eq_0_iff in H.
    destruct (decide (Z.land a f = 0)); [right|left]; tauto.
Qed.

Definition all_flags : list (Z * Z) :=
  [(chr "-", MINUS); (chr "+", PLUS); (chr " ", SPACE); (chr "#", POUND); (chr "0", ZERO); (chr "'", GROUP)].

Lemma has_flag_of c ch f : (ch, f) ∈ all_flags → has (default 0 (flag_of c)) f = bool_decide (c = ch).
Proof.
  unfold all_flags. rewrite !elem_of_cons. intros H.
  assert (flag_of c = None ∧ c ≠ ch ∨ ∃ g, flag_of c = Some g ∧ (c, g) ∈ all_flags) as [[-> N]|(g & E & Hg)].
  { unfold flag_of. repeat (match goal with |- context [if ?c =? ?d then _ else _] => destruct (Z.eqb_spec c d) as [->|] end);
      try (right; eexists; split; [done|unfold all_flags; set_solver]).
    left. split; [done|]. destruct_or!; simplify_eq; try done. by apply elem_of_nil in H. }
  { by rewrite bool_decide_eq_false_2. }
  rewrite E. unfold all_flags in Hg. rewrite !elem_of_cons in Hg.
  destruct_or!; simplify_eq; try done; by apply elem_of_nil in H || by apply elem_of_nil in Hg.
Qed.

Lemma has_mask ch f l : (ch, f) ∈ all_flags → ∀ fl, has (mask fl l) f = has fl f || bool_decide (ch ∈ l).
Proof.
  intros Hf. induction l as [|c l IH]; intros fl.
  - by rewrite bool_decide_eq_false_2, orb_false_r by set_solver.
  - simpl. rewrite IH, has_lor, (has_flag_of c ch f Hf), <-orb_assoc. f_equal.
    destruct (decide (c = ch)) as [->|N]; [by rewrite (bool_decide_eq_true_2 (ch = ch)), (bool_decide_eq_true_2 (ch ∈ ch :: l)) by (done || apply elem_of_cons; by left)|].
    rewrite (bool_decide_eq_false_2 (c = ch)) by done. simpl. apply bool_decide_ext. set_solver.
Qed.

Lemma has_clear fl g f :
  0 ≤ g → 0 ≤ f → has (clear fl (Z.shiftl 1 g)) (Z.shiftl 1 f) = if g =? f then false else has fl (Z.shiftl 1 f).
Proof.
  intros Hg Hf. rewrite !has_testbit by lia. unfold clear. rewrite Z.ldiff_spec, Z.shiftl_spec by lia.
  destruct (Z.eqb_spec g f) as [->|N]; [by rewrite Z.sub_diag, andb_false_r|].
  replace (Z.testbit 1 (f - g)) with false; [by rewrite andb_true_r|].
  destruct (decide (f < g)); [by rewrite Z.testbit_neg_r by lia|]. change 1 with (2 ^ 0). by rewrite Z.pow2_bits_false by lia.
Qed.

(** *** Numbers *)

Lemma foldl_digits_mono ds v : Forall (λ d, 0 ≤ d ≤ 9) ds → 0 ≤ v → v ≤ foldl (λ v d, 10 * v + d) v ds.
Proof.
  intros Hds. revert v. induction Hds as [|d ds Hd _ IH]; intros v Hv; simpl; [lia|]. specialize (IH (10 * v + d)). lia.
Qed.

Lemma parse_number_go ds : ∀ v rest c n,
  Forall (λ d, 0 ≤ d ≤ 9) ds → 0 ≤ v → foldl (λ v d, 10 * v + d) v ds < 2 ^ 31 →
  head rest = Some c → isdigit c = false → (length (digit_chars ds ++ rest) < n)%nat →
  loop n (λ '(n, format),
    c ← peek format;
    if isdigit c then format ← next format; Ok (inl (s32 (s32 (n * 10) + c - 48), format))
    else Ok (inr (n, format))) (v, digit_chars ds ++ rest) = Ok (foldl (λ v d, 10 * v + d) v ds, rest).
Proof.
  induction ds as [|d ds IH]; intros v rest c [|n] Hds Hv Hlt Hr Hc Hn; [lia| |lia|]; rewrite loop_unfold.
  - destruct rest as [|c' r]; [done|]. injection Hr as ->. simpl. by rewrite Hc.
  - apply Forall_cons in Hds as [Hd Hds]. simpl in Hlt. pose proof (foldl_digits_mono ds (10 * v + d) Hds).
    simpl. unfold isdigit at 1. rewrite !(proj2 (Z.leb_le _ _)) by lia. cbn [andb mbind result_bind].
    rewrite (s32_small (v * 10)), s32_small by lia. replace (v * 10 + (d + 48) - 48) with (10 * v + d) by lia.
    rewrite (IH _ _ c n) by (done || simpl in Hn; lia). done.
Qed.

Lemma parse_number_ok ds rest c :
  digits_ok ds → head rest = Some c → isdigit c = false → parse_number 0 (digit_chars ds ++ rest) = Ok (decimal ds, rest).
Proof. intros [Hd Hlt] Hr Hc. apply (parse_number_go ds 0 rest c); [done|lia|done|done|done|lia]. Qed.

Lemma s32_u32 w : - 2 ^ 31 ≤ w < 2 ^ 31 → s32 (u32 w) = w.
Proof. intros Hw. unfold s32, u32. rewrite Zplus_mod_idemp_l. rewrite Z.mod_small; lia. Qed.

Lemma digit_flag d : 1 ≤ d ≤ 9 → flag_of (d + 48) = None.
Proof.
  intros Hd. assert (d ∈ [1; 2; 3; 4; 5; 6; 7; 8; 9]) as H by (rewrite !elem_of_cons; lia).
  rewrite !elem_of_cons in H. destruct_or!; subst; try done. by apply elem_of_nil in H.
Qed.

Definition neg_width (w : width_spec) : bool := match w with WStar w => w <? 0 | _ => false end.
Definition abs_width (w : width_spec) : Z := match w with WNum ds => decimal ds | WStar w => Z.abs w end.
Definition width_args (w : width_spec) : list Z := match w with WStar w => [u32 w] | _ => [] end.
Definition prec_args (p : prec_spec) : list Z := match p with PStar w => [u32 w] | _ => [] end.

Lemma decimal_nonneg ds : Forall (λ d, 0 ≤ d ≤ 9) ds → 0 ≤ decimal ds.
Proof. intros Hds. by apply foldl_digits_mono. Qed.

Lemma peek_digits ds rest c :
  digits_ok ds → head rest = Some c → c ≠ chr "*" → ∃ x, peek (digit_chars ds ++ rest) = Ok x ∧ x ≠ chr "*".
Proof.
  intros [Hds _] Hr Ns. destruct ds as [|d ds]; simpl; [destruct rest; [done|]; injection Hr as ->; by exists c|].
  apply Forall_cons in Hds as [Hd _]. exists (d + 48). split; [done|]. change (chr "*") with 42. lia.
Qed.

Lemma parse_width_ok fl w rest args c :
  match w with WNum ds => digits_ok ds ∧ head ds ≠ Some 0 | WStar w => - 2 ^ 31 < w < 2 ^ 31 end →
  head rest = Some c → isdigit c = false → c ≠ chr "*" →
  parse_width fl (width_text w ++ rest) (width_args w ++ args) =
  Ok (abs_width w, if neg_width w then Z.lor fl MINUS else fl, rest, args).
Proof.
  intros Hw Hr Hc Ns. unfold parse_width. destruct w as [ds|w]; simpl width_text; simpl width_args.
  - destruct Hw as [Hds _]. pose proof (decimal_nonneg ds (proj1 Hds)) as H0.
    destruct (peek_digits ds rest c Hds Hr Ns) as (x & Ex & Nx).
    rewrite Ex. cbn [mbind result_bind]. rewrite (proj2 (Z.eqb_neq _ _) Nx).
    rewrite (parse_number_ok ds rest c Hds Hr Hc). cbn [mbind result_bind fst snd].
    by rewrite (proj2 (Z.ltb_ge _ _)) by done.
  - change (str "*") with [chr "*"]. cbn [peek mbind result_bind app next va_word fst snd]. rewrite Z.eqb_refl.
    cbn [mbind result_bind fst snd neg_width abs_width]. rewrite s32_u32 by lia. destruct (Z.ltb_spec w 0); [|by rewrite Z.abs_eq by lia].
    rewrite s32_small by lia. by rewrite Z.abs_neq by lia.
Qed.

Lemma parse_precision_ok p rest args c :
  match p with PNone => True | PNum ds => digits_ok ds | PStar w => - 2 ^ 31 ≤ w < 2 ^ 31 end →
  head rest = Some c → isdigit c = false → c ≠ chr "*" → c ≠ chr "." →
  parse_precision (prec_text p ++ rest) (prec_args p ++ args) = Ok (default (-1) (prec_of p), rest, args).
Proof.
  intros Hp Hr Hc Ns Nd. unfold parse_precision. destruct p as [|ds|w]; simpl prec_text; simpl prec_args.
  - destruct rest as [|c' r]; [done|]. injection Hr as ->. simpl. by rewrite (proj2 (Z.eqb_neq _ _) Nd).
  - pose proof (decimal_nonneg ds (proj1 Hp)) as H0.
    destruct (peek_digits ds rest c Hp Hr Ns) as (x & Ex & Nx).
    cbn [mbind result_bind peek next app]. rewrite Z.eqb_refl, Ex. cbn [mbind result_bind]. rewrite (proj2 (Z.eqb_neq _ _) Nx).
    rewrite (parse_number_ok ds rest c Hp Hr Hc). cbn [mbind result_bind fst snd].
    by rewrite (proj2 (Z.ltb_ge _ _)) by done.
  - change (str ".*") with [chr "."; chr "*"]. cbn [peek mbind result_bind app next va_word fst snd]. rewrite Z.eqb_refl.
    cbn [peek mbind result_bind app next va_word fst snd]. rewrite Z.eqb_refl.
    cbn [mbind result_bind fst snd prec_of]. rewrite s32_u32 by lia. by destruct (Z.ltb_spec w 0).
Qed.

Lemma parse_type_ok t c rest : c ∉ str "hjltz" → parse_type (type_text t ++ c :: rest) = Ok (t, c :: rest).
Proof.
  intros Hc. change (str "hjltz") with [chr "h"; chr "j"; chr "l"; chr "t"; chr "z"] in Hc. rewrite !not_elem_of_cons in Hc.
  destruct Hc as (H1 & H2 & H3 & H4 & H5 & _).
  destruct t; cbn -[chr]; rewrite ?(proj2 (Z.eqb_neq c _)) by done; done.
Qed.

(** *** The whole conversion *)

Lemma conv_char_not c a : conv_char c → a ∈ str "*.hjltz%" → c ≠ a.
Proof. intros (_ & _ & _ & Hn) Ha ->. done. Qed.

Lemma type_head t c rest :
  conv_char c →
  ∃ a, head (type_text t ++ c :: rest) = Some a ∧ flag_of a = None ∧ isdigit a = false ∧ a ≠ chr "*" ∧ a ≠ chr ".".
Proof.
  intros Hc. destruct t; try (eexists; split; [done|]; split_and!; done).
  exists c. destruct Hc as (? & ? & ? & Hn). split_and!; [done..| |]; intros ->; apply Hn; vm_compute; set_solver.
Qed.

Lemma prec_head p t c rest :
  conv_char c →
  ∃ a, head (prec_text p ++ type_text t ++ c :: rest) = Some a ∧ flag_of a = None ∧ isdigit a = false ∧ a ≠ chr "*".
Proof.
  intros Hc. destruct p; [|by exists (chr ".")..]. simpl. destruct (type_head t c rest Hc) as (a & ? & ? & ? & ? & _). by exists a.
Qed.

Lemma width_head w p t c rest :
  conv_char c → match w with WNum ds => digits_ok ds ∧ head ds ≠ Some 0 | _ => True end →
  ∃ a, head (width_text w ++ prec_text p ++ type_text t ++ c :: rest) = Some a ∧ flag_of a = None.
Proof.
  intros Hc Hw. destruct w as [[|d ds]|w]; [| |by exists (chr "*")].
  - simpl. destruct (prec_head p t c rest Hc) as (a & ? & ? & _). by exists a.
  - destruct Hw as [[[Hd _]%Forall_cons _] Hz]. exists (d + 48). split; [done|]. apply digit_flag. simpl in Hz.
    assert (d ≠ 0) by congruence. lia.
Qed.

(** The flags of the structure, step by step. *)
Definition final_flags (d : directive) : Z :=
  let fl := mask 0 (d_flags d) in
  let fl := if has fl MINUS then clear fl ZERO else fl in
  let fl := if has fl PLUS then clear fl SPACE else fl in
  let fl := if neg_width (d_width d) then Z.lor fl MINUS else fl in
  if 0 <=? default (-1) (prec_of (d_prec d)) then clear fl ZERO else fl.

Ltac flag_cases :=
  repeat first
    [rewrite has_clear by lia | rewrite has_lor
    | progress cbn [Z.eqb Pos.eqb andb orb negb]
    | rewrite orb_true_r | rewrite orb_false_r | rewrite andb_true_r | rewrite andb_false_r].

Lemma prec_of_range p :
  match p with PNone => True | PNum ds => digits_ok ds | PStar w => - 2 ^ 31 ≤ w < 2 ^ 31 end →
  match prec_of p with Some n => 0 ≤ n < 2 ^ 31 | None => True end.
Proof.
  intros Hp. destruct p as [|ds|w]; simpl; [done|destruct Hp as [Hd ?]; split; [by apply decimal_nonneg|done]|].
  destruct (Z.ltb_spec w 0); [done|lia].
Qed.

Lemma final_conv_ok d t :
  dir_ok d → conv_ok (mk_conv (final_flags d) (abs_width (d_width d)) (default (-1) (prec_of (d_prec d))) t) (opts_of d).
Proof.
  intros [Hf Hw Hp _]. apply prec_of_range in Hp. unfold final_flags, opts_of, flag.
  set (fl := mask 0 (d_flags d)). fold (neg_width (d_width d)) (abs_width (d_width d)).
  assert (∀ ch f, (ch, f) ∈ all_flags → has fl f = bool_decide (ch ∈ d_flags d)) as Hm.
  { intros ch f H. unfold fl. by rewrite (has_mask ch f _ H). }
  rewrite <-(Hm (chr "-") MINUS), <-(Hm (chr "0") ZERO), <-(Hm (chr "+") PLUS), <-(Hm (chr " ") SPACE),
    <-(Hm (chr "#") POUND), <-(Hm (chr "'") GROUP) by (unfold all_flags; set_solver).
  assert (0 <=? default (-1) (prec_of (d_prec d)) = match prec_of (d_prec d) with Some _ => true | None => false end) as ->.
  { destruct (prec_of (d_prec d)); [apply Z.leb_le; simpl; lia|done]. }
  split; cbn [flags width precision left zero plus space alt grp o_width prec]; [..|done| |];
    unfold MINUS, PLUS, SPACE, POUND, ZERO, GROUP in *.
  1-6: destruct (has fl (Z.shiftl 1 0)) eqn:EM, (has fl (Z.shiftl 1 1)) eqn:EP;
    destruct (neg_width (d_width d)), (prec_of (d_prec d)); flag_cases; rewrite ?EM, ?EP; flag_cases; done.
  - destruct (d_width d) as [ds|w]; simpl; [destruct Hw as [[Hd ?] _]; split; [by apply decimal_nonneg|done]|lia].
  - by destruct (prec_of (d_prec d)).
Qed.

Lemma parse_conversion_ok d rest args :
  dir_ok d →
  ∃ c, parse_conversion (options_text d ++ d_conv d :: rest) (star_args d ++ args) = Ok (c, d_conv d :: rest, args) ∧
    conv_ok c (opts_of d) ∧ type c = d_type d.
Proof.
  intros Hd. exists (mk_conv (final_flags d) (abs_width (d_width d)) (default (-1) (prec_of (d_prec d))) (d_type d)).
  split; [|split; [by apply final_conv_ok|done]]. destruct Hd as [Hf Hw Hp Hc].
  destruct (width_head (d_width d) (d_prec d) (d_type d) (d_conv d) rest Hc) as (a1 & Ha1 & Hf1); [by destruct (d_width d)|].
  destruct (prec_head (d_prec d) (d_type d) (d_conv d) rest Hc) as (a2 & Ha2 & _ & Hd2 & Ns2).
  destruct (type_head (d_type d) (d_conv d) rest Hc) as (a3 & Ha3 & _ & Hd3 & Ns3 & Nd3).
  unfold parse_conversion, options_text, star_args. rewrite <-!app_assoc.
  unfold parse_flags. rewrite (parse_flags_ok _ 0 _ a1) by (done || lia). cbn [mbind result_bind].
  fold (width_args (d_width d)) (prec_args (d_prec d)).
  rewrite (parse_width_ok _ _ _ _ a2) by done. cbn [mbind result_bind].
  rewrite (parse_precision_ok _ _ _ a3) by done. cbn [mbind result_bind].
  rewrite parse_type_ok; [done|]. intros Hin. destruct Hc as (_ & _ & _ & Hn). apply Hn. revert Hin.
  change (str "hjltz") with [chr "h"; chr "j"; chr "l"; chr "t"; chr "z"].
  change (str "*.hjltz%") with [chr "*"; chr "."; chr "h"; chr "j"; chr "l"; chr "t"; chr "z"; chr "%"]. set_solver.
Qed.
