(* ===== verification/StdioFormat.v ===== *)
(** * What stdio.c prints: whole formats

    The arguments of conversions, the pieces of a format string, and the
    theorems on printf-like functions: they print the text that the reference
    semantics gives ([printf_correct]), [vsnprintf] stores as much of it as fits
    ([vsnprintf_correct]), and numbers that are printed can be read back. *)

From Stdlib Require Import Ascii.
From Stdlib Require String.
From S2P Require Import Prelude StdlibC CString Stdio StdioSpec.
Import String.StringSyntax.

(** ** Arguments *)

Inductive value := VInt (z : Z) | VChar (c : Z) | VStr (p : Z) (t : list Z) | VNull | VPtr (p : Z) | VNone.

Definition bits (t : arg_type) : Z :=
  match t with CHAR => 8 | SHORT => 16 | INT | LONG | PTRDIFFT | SIZET => 32 | INTMAX | LONGLONG => 64 end.

(** The words an integer is passed in. *)
Definition int_words (t : arg_type) (z : Z) : list Z :=
  match t with INTMAX | LONGLONG => [u32 z; u32 (z / 2 ^ 32)] | _ => [u32 z] end.

Definition arg_words (d : directive) (v : value) : list Z :=
  match v with
  | VInt z => int_words (d_type d) z
  | VChar c => [c]
  | VStr p _ | VPtr p => [p]
  | VNull => [NULL]
  | VNone => []
  end.

Definition signed_conv (c : Z) : bool := (c =? chr "d") || (c =? chr "i").
Definition unsigned_conv (c : Z) : bool := (c =? chr "o") || (c =? chr "u") || (c =? chr "x") || (c =? chr "X").
Definition base_of (c : Z) : integer_base :=
  if c =? chr "o" then base_o else if c =? chr "u" then base_d else if c =? chr "x" then base_x else base_X.

(** "%p" has no flags but "#". *)
Definition ptr_opts (o : opts) : opts := mk_opts false false false false true false (o_width o) (prec o).

Definition unsupported (c : Z) : list Z :=
  str "<<no %" ++ [c] ++ (if existsb (Z.eqb c) (str "feEgGn") then str " in kernel>>" else str " conversion>>").

(** The text of a conversion, where the options of a number are changed by [f]
    first. *)
Definition conv_text (f : opts → opts) (d : directive) (v : value) : list Z :=
  let o := opts_of d in
  match v with
  | VInt z => if signed_conv (d_conv d) then int_text (f o) base_d (Z.abs z) (sign_text o (z <? 0))
              else int_text (f o) (base_of (d_conv d)) z []
  | VChar c => string_text o [u8 c]
  | VStr _ t => string_text o (cut o t)
  | VNull => string_text o (cut o (str "(null)"))
  | VPtr p => int_text (f (ptr_opts o)) base_x p []
  | VNone => unsupported (d_conv d)
  end.

(** What the code prints: the precision of a number is limited to 63. *)
Definition render_conv : directive → value → list Z := conv_text clip.

(** The argument fits the conversion.  The combination of the flag "0" with a
    negative width from "*" is excluded: the code pads on both sides. *)
Definition value_ok (strs : Z → list Z → Prop) (d : directive) (v : value) : Prop :=
  match v with
  | VInt z =>
      (if signed_conv (d_conv d) then - 2 ^ (bits (d_type d) - 1) ≤ z < 2 ^ (bits (d_type d) - 1)
       else unsigned_conv (d_conv d) = true ∧ 0 ≤ z < 2 ^ bits (d_type d)) ∧
      (zero (opts_of d) = true → left (opts_of d) = false)
  | VChar c => d_conv d = chr "c"
  | VStr p t => d_conv d = chr "s" ∧ strs p t ∧ p ≠ NULL ∧ Z.of_nat (length t) < 2 ^ 31
  | VNull => d_conv d = chr "s"
  | VPtr p => d_conv d = chr "p" ∧ 0 ≤ p < 2 ^ 32
  | VNone => d_conv d ∉ str "diouxXcsp"
  end.

Lemma signed_arg_ok t z args :
  - 2 ^ (bits t - 1) ≤ z < 2 ^ (bits t - 1) → signed_arg t (int_words t z ++ args) = Ok (z, args).
Proof.
  intros Hz. destruct t; simpl bits in Hz; unfold signed_arg, int_words, va_word, va_dword; simpl app;
    cbn [mbind result_bind fst snd]; do 2 f_equal; unfold s32, s64, u32 in *; try dlia.
  destruct (Z.gtb_spec (z mod 2 ^ 32) ((2 ^ 32 - 1) / 2)); dlia.
Qed.

Lemma unsigned_arg_ok t z args :
  0 ≤ z < 2 ^ bits t → unsigned_arg t (int_words t z ++ args) = Ok (z, args).
Proof.
  intros Hz. destruct t; simpl bits in Hz; unfold unsigned_arg, int_words, va_word, va_dword; simpl app;
    cbn [mbind result_bind fst snd]; do 2 f_equal; try (unfold u8, u16, u32; dlia).
  change (Z.lor (Z.shiftl (2 ^ 31 - 1) 1) 1) with (Z.ones 32). rewrite Z.land_ones by lia. unfold u64, s32, u32. dlia.
Qed.

Lemma base_of_ok c : base_ok (base_of c).
Proof. unfold base_ok, base_of. repeat case_match; set_solver. Qed.

Lemma range_64 t z : 0 ≤ z < 2 ^ bits t → 0 ≤ z < 2 ^ 64.
Proof. intros Hz. assert (2 ^ bits t ≤ 2 ^ 64) by (apply Z.pow_le_mono_r; [lia|destruct t; simpl; lia]). lia. Qed.

Lemma abs_range_64 t z : - 2 ^ (bits t - 1) ≤ z < 2 ^ (bits t - 1) → 0 ≤ Z.abs z < 2 ^ 64 ∧ (if z <? 0 then u64 (s64 (- z)) else z) = Z.abs z.
Proof.
  intros Hz. assert (2 ^ (bits t - 1) ≤ 2 ^ 63) by (apply Z.pow_le_mono_r; [lia|destruct t; simpl; lia]).
  split; [lia|]. destruct (Z.ltb_spec z 0); [|lia]. unfold u64, s64. dlia.
Qed.

Section convert.
Context {S : Type} (memof : S → mem) (output : Z → ST S unit).
Abbreviation print := (output_buf output).
Context (I : S → Prop) (strs : Z → list Z → Prop).
Hypothesis Hout : ∀ c s s', I s → output c s = Ok (tt, s') → I s'.
Hypothesis Hstrs : ∀ p t s, I s → strs p t → cstr (memof s) p t.
Variable nested : list Z → list Z → ST S unit.

Definition message (c : Z) : list Z :=
  if existsb (Z.eqb c) (str "feEgGn") then lit "<<no %%%c in kernel>>" else lit "<<no %%%c conversion>>".
Definition message_arg (c : Z) : Z := u32 ((c + 2 ^ 7) mod 2 ^ 8 - 2 ^ 7).

(** Printing, then returning a value. *)
Definition prints_ret {A} (m : ST S A) (l : list Z) (a : A) : Prop := ∀ s, I s → m s = (print l;; mret a) s.

Lemma prints_then {A} (m : ST S unit) l (a : A) : prints output I m l → prints_ret (m;; mret a) l a.
Proof. intros Hm s Hs. unfold mbind, st_bind. by rewrite (Hm s Hs). Qed.

Lemma convert_ok d v c args :
  dir_ok d → value_ok strs d v → conv_ok c (opts_of d) → type c = d_type d →
  (v = VNone → prints output I (nested (message (d_conv d)) [message_arg (d_conv d)]) (unsupported (d_conv d))) →
  prints_ret (convert memof output nested (d_conv d) c (arg_words d v ++ args)) (render_conv d v) args.
Proof.
  intros Hd Hv Hc Ht Hn. unfold convert. rewrite Ht. fold (signed_conv (d_conv d)) (unsigned_conv (d_conv d)).
  destruct v as [z|ch|p t| |p|]; unfold render_conv; cbn [value_ok arg_words conv_text] in *.
  - destruct Hv as [Hz Hpad]. destruct (signed_conv (d_conv d)).
    + destruct (abs_range_64 _ _ Hz) as [Ha Ea]. intros s Hs.
      erewrite bind_ok by (unfold lift; by rewrite signed_arg_ok). cbn [fst snd]. rewrite Ea.
      apply prints_then; [|done]. intros s' _. by apply (format_integer_ok output c (opts_of d) base_d); [|unfold base_ok; set_solver|..].
    + destruct Hz as [-> Hz]. intros s Hs. erewrite bind_ok by (unfold lift; by rewrite unsigned_arg_ok). cbn [fst snd].
      apply prints_then; [|done]. intros s' _. fold (base_of (d_conv d)).
      by apply (format_integer_ok output c (opts_of d)); [|apply base_of_ok|eapply range_64|].
  - rewrite Hv. change (signed_conv (chr "c")) with false. change (unsigned_conv (chr "c")) with false.
    rewrite Z.eqb_refl. intros s Hs. erewrite bind_ok by done. cbn [fst snd]. apply prints_then; [|done].
    apply (format_string_ok output I Hout (literal [u8 ch]) [u8 ch]); [done|].
    intros i x s' _ Hi. by apply literal_ok.
  - destruct Hv as (-> & Hp & Np & Hl). change (signed_conv (chr "s")) with false. change (unsigned_conv (chr "s")) with false.
    change (chr "s" =? chr "c") with false. rewrite Z.eqb_refl. intros s Hs. erewrite bind_ok by done. cbn [fst snd].
    apply prints_then; [|done]. by eapply format_str_ok.
  - rewrite Hv. change (signed_conv (chr "s")) with false. change (unsigned_conv (chr "s")) with false.
    change (chr "s" =? chr "c") with false. rewrite Z.eqb_refl. intros s Hs. erewrite bind_ok by done. cbn [fst snd].
    apply prints_then; [|done]. by apply format_null_ok.
  - destruct Hv as [-> Hp]. change (signed_conv (chr "p")) with false. change (unsigned_conv (chr "p")) with false.
    change (chr "p" =? chr "c") with false. change (chr "p" =? chr "s") with false. rewrite Z.eqb_refl.
    intros s Hs. erewrite bind_ok by done. cbn [fst snd]. apply prints_then; [|done]. intros s' _.
    apply (format_integer_ok output (mk_conv POUND (width c) (precision c) (d_type d)) (ptr_opts (opts_of d)) base_x p false false);
      [|unfold base_ok; set_solver|lia|done].
    destruct Hc as [_ _ _ _ _ _ Hw Hwr Hpr]. by split.
  - change (str "diouxXcsp") with [chr "d"; chr "i"; chr "o"; chr "u"; chr "x"; chr "X"; chr "c"; chr "s"; chr "p"] in Hv.
    rewrite !not_elem_of_cons in Hv. destruct Hv as (N1 & N2 & N3 & N4 & N5 & N6 & N7 & N8 & N9 & _).
    unfold signed_conv, unsigned_conv. rewrite !(proj2 (Z.eqb_neq (d_conv d) _)) by done. cbn [orb].
    specialize (Hn eq_refl). unfold message in Hn.
    destruct (existsb (Z.eqb (d_conv d)) (str "feEgGn")) eqn:Ex; by apply prints_then.
Qed.

End convert.

(** ** Formats *)

Inductive piece := Text (c : Z) | Percent | Conv (d : directive) (v : value).

Definition piece_text (x : piece) : list Z :=
  match x with
  | Text c => [c]
  | Percent => str "%%"
  | Conv d _ => chr "%" :: options_text d ++ [d_conv d]
  end.
Definition piece_args (x : piece) : list Z := match x with Conv d v => star_args d ++ arg_words d v | _ => [] end.
Definition render (x : piece) : list Z :=
  match x with Text c => [c] | Percent => [chr "%"] | Conv d v => render_conv d v end.

(** What the format asks for. *)
Definition full_render (x : piece) : list Z :=
  match x with Text c => [c] | Percent => [chr "%"] | Conv d v => conv_text id d v end.

(** The precision of a number is at most 63. *)
Definition piece_short (x : piece) : Prop :=
  match x with Conv d (VInt _ | VPtr _) => short_prec (opts_of d) | _ => True end.

Lemma render_full x : piece_short x → render x = full_render x.
Proof.
  destruct x as [| |d v]; [done..|]. simpl. unfold render_conv, conv_text. destruct v; simpl; try done; intros Hs.
  - by rewrite clip_short.
  - by rewrite clip_short.
Qed.

Definition piece_ok (strs : Z → list Z → Prop) (x : piece) : Prop :=
  match x with
  | Text c => 0 < c < 256 ∧ c ≠ chr "%"
  | Percent => True
  | Conv d v => dir_ok d ∧ value_ok strs d v
  end.

(** The format string of some pieces, its arguments and its text. *)
Definition format_of (ps : list piece) : list Z := concat (piece_text <$> ps) ++ [0].
Definition args_of (ps : list piece) : list Z := concat (piece_args <$> ps).
Definition text_of (ps : list piece) : list Z := concat (render <$> ps).
Definition full_text (ps : list piece) : list Z := concat (full_render <$> ps).

Lemma text_full ps : Forall piece_short ps → text_of ps = full_text ps.
Proof.
  unfold text_of, full_text. induction 1 as [|x ps Hx _ IH]; [done|]. rewrite !fmap_cons. simpl. by rewrite render_full, IH.
Qed.

Lemma options_head d rest : dir_ok d → ∃ a l, options_text d ++ d_conv d :: rest = a :: l ∧ a ≠ chr "%".
Proof.
  intros [Hf Hw Hp Hc]. unfold options_text. destruct (d_flags d) as [|f fs] eqn:Ef.
  - simpl. destruct (d_width d) as [[|x ds]|w]; [|eexists _, _; split; [done|]|by eexists _, _].
    + simpl. destruct (d_prec d); [|by eexists _, _..]. simpl. destruct (d_type d); try by eexists _, _.
      eexists _, _. split; [done|]. apply (conv_char_not _ _ Hc). vm_compute. set_solver.
    + destruct Hw as [[[Hd _]%Forall_cons _] _]. change (chr "%") with 37. lia.
  - exists f. eexists. split; [done|]. apply Forall_cons in Hf as [[g Hg] _]. by intros ->.
Qed.

(** "%c" *)
Lemma msg_char_ok : dir_ok (mk_dir [] (WNum []) PNone INT (chr "c")).
Proof.
  split; simpl; [constructor|split; [by split; [constructor|]|done]|done|].
  split_and!; [by vm_compute..|]. vm_compute. set_solver.
Qed.

Section format.
Context {S : Type} (memof : S → mem) (output : Z → ST S unit).
Abbreviation print := (output_buf output).
Context (I : S → Prop) (strs : Z → list Z → Prop).
Hypothesis Hout : ∀ c s s', I s → output c s = Ok (tt, s') → I s'.
Hypothesis Hstrs : ∀ p t s, I s → strs p t → cstr (memof s) p t.

Definition vprintf_step (nested : list Z → list Z → ST S unit) : list Z * list Z → ST S (list Z * list Z + unit) :=
  λ '(format, args),
    c ← lift (peek format);
    if c =? 0 then mret (inr tt)
    else
      r ← (if negb (c =? chr "%") then output c;; mret (format, args)
           else
             format ← lift (next format);
             c ← lift (peek format);
             if c =? chr "%" then output (chr "%");; mret (format, args)
             else
               r ← lift (parse_conversion format args);
               let '(conv, format, args) := r in
               spec ← lift (peek format);
               args ← convert memof output nested spec conv args;
               mret (format, args));
      format ← lift (next (fst r));
      mret (inl (format, snd r)).

(** One round of the loop prints one piece. *)
Lemma piece_step nested x format args :
  piece_ok strs x →
  (∀ d, x = Conv d VNone → prints output I (nested (message (d_conv d)) [message_arg (d_conv d)]) (unsupported (d_conv d))) →
  prints_ret output I (vprintf_step nested (piece_text x ++ format, piece_args x ++ args)) (render x) (inl (format, args)).
Proof.
  intros Hx Hn s Hs. unfold vprintf_step. destruct x as [c| |d v]; cbn [piece_text piece_args render].
  - destruct Hx as [Hc Np]. erewrite bind_ok by done. rewrite (proj2 (Z.eqb_neq c 0)), (proj2 (Z.eqb_neq _ _) Np) by lia.
    cbn [negb]. simpl. unfold mbind, st_bind. by destruct (output c s) as [[[] s']|].
  - erewrite bind_ok by done. change (chr "%" =? 0) with false. rewrite Z.eqb_refl. cbn [negb].
    change (str "%%" ++ format) with (chr "%" :: chr "%" :: format).
    unfold mbind, st_bind, lift. cbn [next peek]. rewrite Z.eqb_refl. simpl. unfold mbind, st_bind.
    by destruct (output (chr "%") s) as [[[] s']|].
  - destruct Hx as [Hd Hv]. rewrite <-app_comm_cons, <-!app_assoc. simpl ([d_conv d] ++ format).
    erewrite bind_ok by done. change (chr "%" =? 0) with false. rewrite Z.eqb_refl. cbn [negb].
    destruct (options_head d format Hd) as (a & l & El & Na).
    destruct (parse_conversion_ok d format (arg_words d v ++ args) Hd) as (c & Ep & Hc & Ht).
    pose proof (convert_ok memof output I strs Hout Hstrs nested d v c args Hd Hv Hc Ht) as Hconv.
    specialize (Hconv (λ E, Hn d (f_equal (Conv d) E)) s Hs).
    unfold mbind, st_bind in Hconv |- *. unfold lift at 1 2 3. cbn [next]. rewrite El. cbn [peek].
    rewrite (proj2 (Z.eqb_neq _ _) Na), <-El. unfold lift at 1. rewrite Ep. cbn [peek]. unfold lift at 1.
    rewrite Hconv. by destruct (print (render_conv d v) s) as [[[] s']|].
Qed.

(** The messages of the nested call. *)
Definition supported (x : piece) : Prop := match x with Conv _ VNone => False | _ => True end.

Lemma vprintf_loop_ok nested ps rest args :
  Forall (piece_ok strs) ps →
  (∀ d, Conv d VNone ∈ ps → prints output I (nested (message (d_conv d)) [message_arg (d_conv d)]) (unsupported (d_conv d))) →
  prints output I (vprintf_loop memof output nested (format_of ps ++ rest) (args_of ps ++ args)) (text_of ps).
Proof.
  intros Hps Hn. unfold vprintf_loop. fold (vprintf_step nested).
  assert (∀ ps k s, I s → Forall (piece_ok strs) ps →
    (∀ d, Conv d VNone ∈ ps → prints output I (nested (message (d_conv d)) [message_arg (d_conv d)]) (unsupported (d_conv d))) →
    (length ps < k)%nat →
    loopM k (vprintf_step nested) (format_of ps ++ rest, args_of ps ++ args) s = print (text_of ps) s) as H.
  { clear ps Hps Hn. intros ps. induction ps as [|x ps IH]; intros [|k] s Hs Hps Hn Hk; [lia| |lia|]; rewrite loopM_unfold.
    - done.
    - apply Forall_cons in Hps as [Hx Hps]. unfold format_of, args_of, text_of. rewrite !fmap_cons. simpl concat.
      rewrite <-!app_assoc. rewrite (piece_step nested x _ _ Hx); [|intros d ->; apply Hn; set_solver|done].
      rewrite print_app. unfold mbind, st_bind. destruct (print (render x) s) as [[[] s1]|] eqn:E; [|done].
      cbn [mret st_ret]. fold (text_of ps). rewrite <-(IH k s1); [unfold format_of, args_of; by rewrite <-!app_assoc|by eapply print_inv|done|intros d Hd; apply Hn; set_solver|simpl in Hk; lia]. }
  intros s Hs. apply (H ps (Datatypes.S (length (format_of ps ++ rest))) s); [done..|]. unfold format_of. rewrite !length_app. simpl.
  assert (length ps ≤ length (concat (piece_text <$> ps)))%nat; [|lia].
  clear. induction ps as [|x ps IH]; [done|]. rewrite fmap_cons. simpl. rewrite length_app. destruct x; simpl; lia.
Qed.

(** The nested call prints the message. *)
Definition msg_char (c : Z) : piece := Conv (mk_dir [] (WNum []) PNone INT (chr "c")) (VChar (message_arg c)).

Definition msg_pieces (c : Z) : list piece :=
  (Text <$> str "<<no ") ++ [Percent; msg_char c] ++
  (Text <$> if existsb (Z.eqb c) (str "feEgGn") then str " in kernel>>" else str " conversion>>").

Lemma msg_format c : format_of (msg_pieces c) = message c.
Proof. unfold msg_pieces, message. by destruct (existsb _ _). Qed.

Lemma msg_args c : args_of (msg_pieces c) = [message_arg c].
Proof. unfold msg_pieces. by destruct (existsb _ _). Qed.

Lemma message_arg_char c : 0 ≤ c < 256 → u8 (message_arg c) = c.
Proof. intros Hc. unfold message_arg, u8, u32. dlia. Qed.

Lemma msg_text c : 0 ≤ c < 256 → text_of (msg_pieces c) = unsupported c.
Proof.
  intros Hc. unfold msg_pieces, unsupported. rewrite <-(message_arg_char c Hc) at 3. by destruct (existsb _ _).
Qed.

Lemma msg_pieces_ok c : Forall (piece_ok strs) (msg_pieces c).
Proof.
  assert (∀ t, Forall (λ x, 0 < x < 256 ∧ x ≠ chr "%") t → Forall (piece_ok strs) (Text <$> t)) as Ht.
  { intros t Hx. apply Forall_fmap. eapply Forall_impl; [exact Hx|]. done. }
  unfold msg_pieces. apply Forall_app; split; [|constructor; [done|constructor; [by split; [apply msg_char_ok|]|]]].
  - apply Ht. by repeat constructor.
  - destruct (existsb _ _); apply Ht; by repeat constructor.
Qed.

(** The argument of the message is the character, sign-extended. *)
Lemma __printf_message c : 0 ≤ c < 256 → prints output I (__printf memof output (message c) [message_arg c]) (unsupported c).
Proof.
  intros Hc. pose proof (vprintf_loop_ok (λ _ _, fail OutOfFuel) (msg_pieces c) [] [] (msg_pieces_ok c)) as H.
  rewrite !app_nil_r, msg_format, msg_args, msg_text in H by done. apply H. clear.
  intros d Hd. exfalso. unfold msg_pieces in Hd. rewrite !elem_of_app in Hd.
  destruct Hd as [(? & [=] & _)%list_elem_of_fmap|[[[=]|[[=]|[]%elem_of_nil]%elem_of_cons]%elem_of_cons|(? & [=] & _)%list_elem_of_fmap]].
Qed.

Lemma __vprintf_ok ps rest args :
  Forall (piece_ok strs) ps →
  prints output I (__vprintf memof output (format_of ps ++ rest) (args_of ps ++ args)) (text_of ps).
Proof.
  intros Hps. apply vprintf_loop_ok; [done|]. intros d Hd. apply __printf_message.
  rewrite Forall_forall in Hps. destruct (Hps _ Hd) as [[_ _ _ [? _]] _]. lia.
Qed.
End format.

(** ** vsnprintf *)

(** [m'] is [m] with the bytes [l] at [a]. *)
Definition stored (m m' : mem) (a : Z) (l : list Z) : Prop :=
  ∀ b, m' !! b = if decide (a ≤ b < a + Z.of_nat (length l)) then l !! Z.to_nat (b - a) else m !! b.

Lemma stored_nil m a : stored m m a [].
Proof. intros b. rewrite decide_False; [done|simpl; lia]. Qed.

Lemma stored_snoc m m' a l c : stored m m' a l → stored m (<[a + Z.of_nat (length l) := c]> m') a (l ++ [c]).
Proof.
  intros Hm b. rewrite length_app. simpl. destruct (decide (b = a + Z.of_nat (length l))) as [->|Nb].
  - rewrite lookup_insert_eq, decide_True by lia. rewrite lookup_app_r by lia.
    by replace (Z.to_nat (a + Z.of_nat (length l) - a) - length l)%nat with 0%nat by lia.
  - rewrite lookup_insert_ne, Hm by done. destruct (decide (a ≤ b < a + Z.of_nat (length l))).
    + rewrite decide_True by lia. by rewrite lookup_app_l by lia.
    + by rewrite decide_False by lia.
Qed.

Lemma stored_mapped m m' a l b : stored m m' a l → is_Some (m !! b) → is_Some (m' !! b).
Proof. intros Hm Hb. rewrite Hm. case_decide; [apply lookup_lt_is_Some_2; lia|done]. Qed.

Section vsnprintf.
Variables (m : mem) (buffer size : Z).
Hypothesis Hsize : 0 ≤ size ≤ 2 ^ 31.
Hypothesis Hbuf : mapped m buffer size.

Definition room : Z := if size >? 0 then size - 1 else 0.

(** The state after printing [l]. *)
Definition after (l : list Z) (s : mem * vsnprintf_aux) : Prop :=
  stored m (fst s) buffer (take (Z.to_nat room) l) ∧
  snd s = mk_aux (buffer + Z.min (Z.of_nat (length l)) room) (Z.of_nat (length l)) room ∧ Z.of_nat (length l) < 2 ^ 31.

Lemma room_range : 0 ≤ room < 2 ^ 31 ∧ (0 < size → room = size - 1).
Proof. unfold room. destruct (Z.gtb_spec size 0); lia. Qed.

Lemma helper_step c l s :
  after l s → if Z.of_nat (length l) =? 2 ^ 31 - 1 then vsnprintf_helper c s = Err SignedOverflow
              else ∃ s', vsnprintf_helper c s = Ok (tt, s') ∧ after (l ++ [c]) s'.
Proof.
  destruct s as [m' aux]. intros (Hst & Ea & Hl). simpl in Ea. subst aux. cbn [fst] in Hst.
  pose proof room_range as [Hr Hr']. unfold vsnprintf_helper. cbn [aux_length max_length p].
  destruct (Z.eqb_spec (Z.of_nat (length l)) (2 ^ 31 - 1)) as [E|N]; [done|].
  unfold after. rewrite length_app. cbn [length fst snd].
  destruct (Z.ltb_spec (Z.of_nat (length l)) room) as [Hlt|Hge].
  - rewrite st_ok.
    + eexists. split; [done|]. cbn [fst snd]. rewrite take_ge in * by (rewrite ?length_app; simpl; lia). split_and!.
      * replace (buffer + Z.min (Z.of_nat (length l)) room) with (buffer + Z.of_nat (length l)) by lia. by apply stored_snoc.
      * f_equal; lia.
      * lia.
    + eapply stored_mapped; [done|]. apply Hbuf. unfold room in *. destruct (Z.gtb_spec size 0); lia.
  - eexists. split; [done|]. cbn [fst snd]. rewrite take_app_le by lia. split_and!; [done| |lia]. f_equal; lia.
Qed.

Lemma helper_print t : ∀ l s,
  after l s → Z.of_nat (length l + length t) < 2 ^ 31 → ∃ s', output_buf vsnprintf_helper t s = Ok (tt, s') ∧ after (l ++ t) s'.
Proof.
  induction t as [|c t IH]; intros l s Hs Hl; [exists s; by rewrite app_nil_r|]. simpl in Hl.
  pose proof (helper_step c l s Hs) as H. rewrite (proj2 (Z.eqb_neq _ _)) in H by lia. destruct H as (s1 & E1 & H1).
  destruct (IH (l ++ [c]) s1 H1) as (s2 & E2 & H2); [rewrite length_app; simpl; lia|].
  exists s2. split; [simpl; by erewrite bind_ok|]. by rewrite <-app_assoc in H2.
Qed.

(** Strings that the output does not overwrite. *)
Definition away (p : Z) (t : list Z) : Prop :=
  cstr m p t ∧ (p + Z.of_nat (length t) < buffer ∨ buffer + size ≤ p).

Lemma away_cstr p t l s : after l s → away p t → cstr (fst s) p t.
Proof.
  intros (Hst & _) [[Hb Hc Hn] Hd]. split; [|done..]. intros i x Hx. rewrite Hst. rewrite decide_False; [by apply Hb|].
  apply lookup_lt_Some in Hx. rewrite length_app in Hx. simpl in Hx. rewrite length_take. pose proof room_range.
  unfold room in *. destruct (Z.gtb_spec size 0); lia.
Qed.

Lemma vsnprintf_ok ps :
  Forall (piece_ok away) ps → Z.of_nat (length (text_of ps)) < 2 ^ 31 →
  ∃ m', vsnprintf buffer size (format_of ps) (args_of ps) m = Ok (Z.of_nat (length (text_of ps)), m') ∧
    stored m m' buffer (if size >? 0 then take (Z.to_nat (size - 1)) (text_of ps) ++ [0] else []).
Proof.
  intros Hps Hl. set (s0 := (m, mk_aux buffer 0 room)). pose proof room_range as [Hr Hr'].
  assert (after [] s0) as H0.
  { unfold after, s0. cbn [fst snd length]. rewrite take_nil. split_and!; [apply stored_nil|f_equal; lia|lia]. }
  destruct (helper_print (text_of ps) [] s0 H0) as (s & E & (Hst & Ea & _)); [simpl; lia|]. simpl in Hst, Ea.
  pose proof (__vprintf_ok fst vsnprintf_helper (λ s, ∃ l, after l s) away) as Hv.
  assert (__vprintf fst vsnprintf_helper (format_of ps) (args_of ps) s0 = Ok (tt, s)) as Ev.
  { rewrite <-E, <-(app_nil_r (format_of ps)), <-(app_nil_r (args_of ps)). apply Hv; [| |done|by exists []].
    - intros c s1 s2 [l H1] E1. pose proof (helper_step c l s1 H1) as H2. destruct (_ =? _); [congruence|].
      destruct H2 as (s' & E2 & H2). exists (l ++ [c]). congruence.
    - intros p t s1 [l H1]. by apply (away_cstr _ _ l). }
  unfold vsnprintf. fold room. rewrite s32_small by lia. fold s0. rewrite Ev. destruct s as [m' aux]. cbn [fst snd] in Hst, Ea. subst aux.
  cbn [p aux_length]. destruct (Z.gtb_spec size 0) as [Hpos|Hz].
  - specialize (Hr' ltac:(lia)). rewrite <-Hr'.
    assert (Z.of_nat (length (take (Z.to_nat room) (text_of ps))) = Z.min (Z.of_nat (length (text_of ps))) room) as Hlt
      by (rewrite length_take; lia).
    rewrite st_ok by (eapply stored_mapped; [done|apply Hbuf; lia]). eexists. split; [done|].
    rewrite <-Hlt. by apply stored_snoc.
  - exists m'. split; [done|]. assert (room = 0) as Er by (unfold room; destruct (Z.gtb_spec size 0); lia).
    rewrite Er in Hst. exact Hst.
Qed.
End vsnprintf.

(** ** Reading numbers back *)

Lemma decimal_value ds : decimal ds = digits_value 10 ds.
Proof. done. Qed.

Lemma base_d_digits ds : Forall (λ d, 0 ≤ d ≤ 9) ds → (λ d, digits base_d !!! Z.to_nat d) <$> ds = digit_chars ds.
Proof.
  intros Hds. unfold digit_chars. apply list_fmap_ext. intros i d Hi. apply (Forall_lookup_1 _ _ _ _ Hds) in Hi.
  assert (d ∈ [0; 1; 2; 3; 4; 5; 6; 7; 8; 9]) as H by (rewrite !elem_of_cons; lia).
  rewrite !elem_of_cons in H. destruct_or!; subst; try done. by apply elem_of_nil in H.
Qed.

(** The text of a decimal conversion. *)
Lemma decimal_text o v sign :
  grp o = false → prec o ≠ Some 0 → match prec o with Some n => 0 ≤ n | None => True end → 0 ≤ v < 2 ^ 32 →
  ∃ n ds k, int_body o base_d v = digit_chars ds ∧ ds ≠ [] ∧ Forall (λ d, 0 ≤ d ≤ 9) ds ∧ decimal ds = v ∧
    int_text o base_d v sign =
      (if left o then sign ++ digit_chars ds ++ replicate k (chr " ")
       else if zero o then sign ++ digit_chars (replicate n 0 ++ ds)
       else replicate n (chr " ") ++ sign ++ digit_chars ds).
Proof.
  intros Hg Np Hp Hv. set (D := to_digits 64 10 v).
  assert (Forall (λ d, 0 ≤ d ≤ 9) D) as HD by (eapply Forall_impl; [by apply to_digits_range|simpl; lia]).
  assert (numeral base_d (grp o) v = digit_chars D) as Hn by (rewrite Hg; unfold numeral; by rewrite base_d_digits).
  assert (decimal D = v) as Hdec.
  { rewrite decimal_value. apply to_digits_value; [done|]. change (10 ^ Z.of_nat 64) with (10 ^ 64). assert (2 ^ 32 < 10 ^ 64) by done. lia. }
  set (z := Z.to_nat (match prec o with None => 1 | Some n => n end - Z.of_nat (length D))).
  set (ds := replicate z 0 ++ D).
  assert (int_body o base_d v = digit_chars ds) as Hb.
  { unfold int_body. rewrite Hn. change (base base_d =? 8) with false. rewrite andb_false_r, andb_false_l.
    unfold ds, digit_chars, z. rewrite fmap_app, fmap_replicate, length_fmap. done. }
  unfold int_text. rewrite Hb. unfold int_prefix. change (base_x_char base_d =? 0) with true. rewrite andb_false_r, app_nil_r.
  set (len := length _). exists (Z.to_nat (o_width o - Z.of_nat len)), ds, (Z.to_nat (o_width o - Z.of_nat len)).
  split_and!; [done| | | |].
  - unfold ds. intros [Hz HD0]%app_nil. assert (length D = 0%nat) as Hl by (by rewrite HD0).
    assert (z = 0%nat) as Ez by (rewrite <-(length_replicate z 0); by rewrite Hz). unfold z in Ez. rewrite Hl in Ez.
    destruct (prec o) as [n|]; [|lia]. assert (n ≠ 0) by congruence. lia.
  - unfold ds. apply Forall_app. split; [|done]. apply Forall_replicate. lia.
  - unfold ds. by rewrite decimal_value, digits_value_zeros.
  - unfold pad. destruct (left o); [done|]. destruct (zero o); [|done]. f_equal.
    unfold digit_chars. by rewrite fmap_app, fmap_replicate.
Qed.

Lemma spaces_ok n : Forall (λ c, isspace c = true) (replicate n (chr " ")).
Proof. by apply Forall_replicate. Qed.

Lemma spaces_not_digit k : isdigit (char_at (replicate k (chr " "))) = false.
Proof. by destruct k. Qed.

Lemma atoi_text d v :
  dir_ok d → signed_conv (d_conv d) = true → - 2 ^ 31 ≤ v < 2 ^ 31 → flag d (chr "'") = false → prec_of (d_prec d) ≠ Some 0 →
  atoi (render_conv d (VInt v)) = v.
Proof.
  intros Hd Hs Hv Hg Np. unfold render_conv. cbn [conv_text]. rewrite Hs. set (o := opts_of d).
  assert (match prec (clip o) with Some n => 0 ≤ n | None => True end ∧ prec (clip o) ≠ Some 0) as [Hp Np'].
  { pose proof (prec_of_range (d_prec d) (do_prec _ Hd)) as H. simpl. destruct (prec_of (d_prec d)) as [n|]; simpl; [|done].
    split; [lia|]. intros [= E]. apply Np. f_equal. lia. }
  destruct (decimal_text (clip o) (Z.abs v) (sign_text o (v <? 0)) Hg Np' Hp) as (n & ds & k & _ & Hne & Hds & Hdec & ->); [lia|].
  assert (∃ spaces sign, (v < 0 → sign = Some true) ∧ (0 ≤ v → sign ≠ Some true) ∧
    Forall (λ c, isspace c = true) spaces ∧
    sign_text o (v <? 0) = spaces ++ match sign with None => [] | Some true => [45] | Some false => [43] end)
    as (sp & sign & Hneg & Hpos & Hsp & ->).
  { unfold sign_text. destruct (Z.ltb_spec v 0); [exists [], (Some true); split_and!; [done|lia|constructor|done]|].
    destruct (plus o); [exists [], (Some false); split_and!; [lia|done|constructor|done]|].
    destruct (space o); [exists [chr " "], None|exists [], None]; (split_and!; [lia|done|by repeat constructor|done]). }
  assert (∀ pre D rest, Forall (λ c, isspace c = true) pre → D ≠ [] → Forall (λ d, 0 ≤ d ≤ 9) D → decimal D = Z.abs v →
    isdigit (char_at rest) = false →
    atoi (pre ++ match sign with None => [] | Some true => [45] | Some false => [43] end ++ digit_chars D ++ rest) = v) as Hat.
  { intros pre D rest H1 H2 H3 H4 H5.
    assert (decimal D ≤ if sign is Some true then 2 ^ 31 else 2 ^ 31 - 1) as Hle.
    { rewrite H4. destruct (decide (v < 0)) as [Hn|Hn]; [rewrite (Hneg Hn)|destruct sign as [[]|]]; lia. }
    unfold digit_chars. rewrite atoi_correct by done.
    rewrite H4. destruct (decide (v < 0)); [rewrite Hneg by done; lia|]. specialize (Hpos ltac:(lia)).
    destruct sign as [[]|]; [done|lia..]. }
  destruct (left (clip o)); [|destruct (zero (clip o))]; rewrite <-!app_assoc.
  - apply Hat; [done..|]. apply spaces_not_digit.
  - rewrite <-(app_nil_r (digit_chars _)). apply Hat; [done|by intros [_ ?]%app_nil| |by rewrite decimal_value, digits_value_zeros|done].
    apply Forall_app. split; [|done]. apply Forall_replicate. lia.
  - rewrite (app_assoc (replicate n _)), <-(app_nil_r (digit_chars _)). apply Hat; [|done..].
    apply Forall_app. split; [apply spaces_ok|done].
Qed.

(** ** The properties *)

(** C25: printf-like functions print what the reference semantics gives: for
    every output function whose calls keep an invariant [I] of the state, under
    which the strings that are passed are in memory, [__vprintf] on a format
    string with the arguments of its conversions does the same as writing the
    characters of the text one after another; further arguments and what
    follows the terminator are not looked at.  The text is the one that the
    format asks for ([full_text]) where no number has a precision of more than
    63; a larger precision has the effect of 63, for lack of room in the buffer
    of the digits ([text_of], and [long_precision] below). *)
Theorem printf_correct {S : Type} (memof : S → mem) (output : Z → ST S unit) (I : S → Prop) (strs : Z → list Z → Prop)
    (ps : list piece) rest args s :
  (∀ c s s', I s → output c s = Ok (tt, s') → I s') →
  (∀ p t s, I s → strs p t → cstr (memof s) p t) →
  Forall (piece_ok strs) ps → I s →
  __vprintf memof output (format_of ps ++ rest) (args_of ps ++ args) s = output_buf output (text_of ps) s ∧
  (Forall piece_short ps → text_of ps = full_text ps).
Proof. intros Hout Hstrs Hps Hs. split; [|apply text_full]. by apply (__vprintf_ok memof output I strs Hout Hstrs). Qed.

(** C32: [vsnprintf] returns the length of the whole text that [__vprintf]
    prints, stores as much of it as fits with a terminator in the buffer, and
    changes nothing else; a buffer of size 0 is not touched. *)
Theorem vsnprintf_correct (m : mem) (buffer size : Z) (ps : list piece) :
  0 ≤ size ≤ 2 ^ 31 → mapped m buffer size → Forall (piece_ok (away m buffer size)) ps →
  Z.of_nat (length (text_of ps)) < 2 ^ 31 →
  ∃ m', vsnprintf buffer size (format_of ps) (args_of ps) m = Ok (Z.of_nat (length (text_of ps)), m') ∧
    stored m m' buffer (if size >? 0 then take (Z.to_nat (size - 1)) (text_of ps) ++ [0] else []).
Proof. intros. by apply vsnprintf_ok. Qed.

Lemma stored_bytes m m' a l : stored m m' a l → bytes_at m' a l.
Proof.
  intros Hm i x Hx. pose proof (lookup_lt_Some _ _ _ Hx). rewrite Hm, decide_True by lia.
  by replace (Z.to_nat (a + Z.of_nat i - a)) with i by lia.
Qed.

(** A number that a signed conversion writes to a buffer is the number that
    [atoi] reads from the buffer, whatever the flags, the width and the
    precision (digits are not grouped, and the precision is not 0). *)
Theorem printf_atoi_roundtrip (m : mem) (buffer size : Z) (d : directive) (v : Z) :
  dir_ok d → signed_conv (d_conv d) = true → d_type d = INT → - 2 ^ 31 ≤ v < 2 ^ 31 →
  flag d (chr "'") = false → prec_of (d_prec d) ≠ Some 0 → (zero (opts_of d) = true → left (opts_of d) = false) →
  let text := render_conv d (VInt v) in
  mapped m buffer size → Z.of_nat (length text) < size ≤ 2 ^ 31 →
  ∃ m', vsnprintf buffer size (format_of [Conv d (VInt v)]) (args_of [Conv d (VInt v)]) m = Ok (Z.of_nat (length text), m') ∧
    bytes_at m' buffer (text ++ [0]) ∧ atoi text = v.
Proof.
  intros Hd Hs Ht Hv Hg Np Hpad text Hbuf Hsize.
  assert (text_of [Conv d (VInt v)] = text) as Et by (unfold text_of; simpl; by rewrite app_nil_r).
  destruct (vsnprintf_ok m buffer size ltac:(lia) Hbuf [Conv d (VInt v)]) as (m' & E & Hm).
  - constructor; [|constructor]. split; [done|]. split; [|done]. by rewrite Hs, Ht.
  - rewrite Et. lia.
  - rewrite Et in E, Hm. exists m'. split; [done|]. split; [|by apply atoi_text].
    destruct (Z.gtb_spec size 0); [|lia]. rewrite take_ge in Hm by lia. by eapply stored_bytes.
Qed.

(** ** Concrete formats *)

(** "%-5d|%#x" with -42 and 255; the output goes to a list. *)
Definition demo_dir : directive := mk_dir [chr "-"] (WNum [5]) PNone INT (chr "d").
Definition demo_hex : directive := mk_dir [chr "#"] (WNum []) PNone INT (chr "x").
Definition demo : list piece := [Conv demo_dir (VInt (-42)); Text (chr "|"); Conv demo_hex (VInt 255)].

Lemma demo_directives_ok : dir_ok demo_dir ∧ dir_ok demo_hex.
Proof.
  split; (split; simpl; [constructor; [by eexists|constructor]|split; [split; [repeat constructor; lia|done]|done]|done|]);
    (split_and!; [done..|vm_compute; set_solver]).
Qed.

Lemma demo_ok strs : Forall (piece_ok strs) demo.
Proof.
  destruct demo_directives_ok. constructor; [|constructor; [done|constructor; [|constructor]]]; (split; [done|]); split; try done; simpl; lia.
Qed.

Lemma printf_correct_witness :
  format_of demo = lit "%-5d|%#x" ∧ args_of demo = [u32 (-42); 255] ∧
  __vprintf (λ _, ∅) (λ c s, Ok (tt, s ++ [c])) (format_of demo ++ []) (args_of demo ++ []) [] = Ok (tt, str "-42  |0xff").
Proof.
  split; [done|]. split; [done|].
  destruct (printf_correct (λ _, ∅) (λ c s, Ok (tt, s ++ [c])) (λ _, True) (λ _ _, False) demo [] [] []) as [E Ht];
    [done|done|apply demo_ok|done|]. rewrite E, Ht; [reflexivity|]. by repeat constructor.
Defined.

(** "%.70d" with 1: 63 digits are printed instead of 70. *)
Example long_precision :
  let d := mk_dir [] (WNum []) (PNum [7; 0]) INT (chr "d") in
  format_of [Conv d (VInt 1)] = lit "%.70d" ∧
  __vprintf (λ _, ∅) (λ c s, Ok (tt, s ++ [c])) (lit "%.70d") [1] [] =
    Ok (tt, replicate 62 (chr "0") ++ [chr "1"]) ∧
  full_text [Conv d (VInt 1)] = replicate 69 (chr "0") ++ [chr "1"].
Proof. by vm_compute. Qed.

Definition demo_mem : mem := list_to_map ((λ i, (100 + Z.of_nat i, 0)) <$> seq 0 12).

Lemma demo_buffer_mapped n : 0 ≤ n ≤ 12 → mapped demo_mem 100 n.
Proof.
  intros Hn a Ha. assert (a ∈ (λ i, 100 + Z.of_nat i) <$> seq 0 12) as H.
  { apply list_elem_of_fmap. exists (Z.to_nat (a - 100)). rewrite elem_of_seq. lia. }
  change ((λ i, 100 + Z.of_nat i) <$> seq 0 12) with [100; 101; 102; 103; 104; 105; 106; 107; 108; 109; 110; 111] in H.
  rewrite !elem_of_cons, elem_of_nil in H. destruct_or!; subst; by eexists.
Qed.

(** Ten characters in a buffer of four bytes. *)
Lemma vsnprintf_correct_witness :
  ∃ m', vsnprintf 100 4 (format_of demo) (args_of demo) demo_mem = Ok (10, m') ∧ stored demo_mem m' 100 (str "-42" ++ [0]).
Proof.
  apply (vsnprintf_correct demo_mem 100 4 demo); [lia|apply demo_buffer_mapped; lia|apply demo_ok|vm_compute; done].
Defined.

Lemma printf_atoi_roundtrip_witness :
  ∃ m', vsnprintf 100 12 (lit "%-5d") [u32 (-42)] demo_mem = Ok (5, m') ∧
    bytes_at m' 100 (str "-42  " ++ [0]) ∧ atoi (str "-42  ") = -42.
Proof.
  apply (printf_atoi_roundtrip demo_mem 100 12 demo_dir (-42));
    [apply demo_directives_ok|done|done|lia|by vm_compute|done|done|apply demo_buffer_mapped; lia|vm_compute; by split].
Defined.

(** A "%" at the end of the format: the conversion character is the terminator,
    the message is printed, and the loop goes on behind the end of the string. *)
Example trailing_percent :
  __vprintf (λ _, ∅) (λ c s, Ok (tt, s ++ [c])) (lit "ab%") [] [] = Err BadAccess ∧
  __vprintf (λ _, ∅) (λ c s, Ok (tt, s ++ [c])) (lit "ab%" ++ lit "next") [] [] =
    Ok (tt, str "ab<<no %" ++ [0] ++ str " conversion>>next").
Proof. by vm_compute. Qed.

(** "%0*d" with a negative width: zeros before and spaces after. *)
Example zero_negative_width :
  __vprintf (λ _, ∅) (λ c s, Ok (tt, s ++ [c])) (lit "%0*d") [u32 (-5); 42] [] = Ok (tt, str "00042   ").
Proof. by vm_compute. Qed.
