(* ===== verification/Console.v ===== *)
(** * The console: lib/kernel/console.c, and the printing functions of stdio.c

    Output of the kernel goes to the console, under a lock that a thread may
    take again while it holds it.  [cur] is the running thread and
    [intr_context] says whether an interrupt handler runs.  A call that has to
    wait for the lock does not return in the state it is called in; what
    happens when it is woken is the subject of [ThreadsSpec]. *)

From Stdlib Require Import Ascii.
From Stdlib Require String.
From S2P Require Import Prelude StdlibC CString Stdio.
Import String.StringSyntax.

Record console := mk_console {
  use_console_lock : bool;
  holder : option Z;             (* the thread that holds [console_lock] *)
  console_lock_depth : Z;
  write_cnt : Z;
  out : list Z;                  (* the characters sent to the devices *)
  strings : mem                  (* memory *)
}.

Section console.
Variable intr_context : bool.
Variable cur : Z.

Definition lock_held_by_current_thread (s : console) : bool := bool_decide (holder s = Some cur).

Definition set_holder (t : option Z) (s : console) : console :=
  mk_console (use_console_lock s) t (console_lock_depth s) (write_cnt s) (out s) (strings s).
Definition set_depth (d : Z) (s : console) : console :=
  mk_console (use_console_lock s) (holder s) d (write_cnt s) (out s) (strings s).

(** [lock_init] on [console_lock]. *)
Definition console_init : ST console unit :=
  modify (λ s, mk_console true None (console_lock_depth s) (write_cnt s) (out s) (strings s)).
Definition console_panic : ST console unit :=
  modify (λ s, mk_console false (holder s) (console_lock_depth s) (write_cnt s) (out s) (strings s)).

Definition lock_acquire : ST console unit := λ s,
  if negb intr_context && negb (lock_held_by_current_thread s) then
    match holder s with
    | None => Ok (tt, set_holder (Some cur) s)
    | Some _ => Err Blocked
    end
  else Err AssertFail.

Definition lock_release : ST console unit :=
  s ← get; assert (lock_held_by_current_thread s);; modify (set_holder None).

Definition acquire_console : ST console unit :=
  s ← get;
  if negb intr_context && use_console_lock s then
    if lock_held_by_current_thread s then modify (set_depth (s32 (console_lock_depth s + 1)))
    else lock_acquire
  else mret tt.

Definition release_console : ST console unit :=
  s ← get;
  if negb intr_context && use_console_lock s then
    if console_lock_depth s >? 0 then modify (set_depth (console_lock_depth s - 1))
    else lock_release
  else mret tt.

Definition console_locked_by_current_thread (s : console) : bool :=
  intr_context || negb (use_console_lock s) || lock_held_by_current_thread s.

(** [serial_putc] and [vga_putc] *)
Definition device_putc (c : Z) (s : console) : console :=
  mk_console (use_console_lock s) (holder s) (console_lock_depth s) (write_cnt s) (out s ++ [c]) (strings s).

Definition putchar_have_lock (c : Z) : ST console unit :=
  s ← get;
  assert (console_locked_by_current_thread s);;
  modify (λ s, mk_console (use_console_lock s) (holder s) (console_lock_depth s) (s64 (write_cnt s + 1)) (out s) (strings s));;
  modify (device_putc c).

Definition vprintf_helper (c : Z) : ST (console * Z) unit := λ '(s, char_cnt),
  match putchar_have_lock (u8 c) s with
  | Ok (_, s) => Ok (tt, (s, s32 (char_cnt + 1)))
  | Err e => Err e
  end.

Definition vprintf (format args : list Z) : ST console Z :=
  acquire_console;;
  n ← (λ s, match __vprintf (λ s, strings (fst s)) vprintf_helper format args (s, 0) with
            | Ok (_, (s, n)) => Ok (n, s)
            | Err e => Err e
            end);
  release_console;;
  mret n.

Definition printf (format args : list Z) : ST console Z := vprintf format args.

Definition putchar (c : Z) : ST console Z :=
  acquire_console;; putchar_have_lock (u8 c);; release_console;; mret c.

Definition puts (p : Z) : ST console Z :=
  acquire_console;;
  s ← get;
  loopM (str_fuel (strings s)) (λ p,
    c ← (λ s, match ld p (strings s) with Ok (c, _) => Ok (c, s) | Err e => Err e end);
    if c =? 0 then mret (inr tt) else putchar_have_lock c;; mret (inl (p + 1))) p;;
  putchar_have_lock (chr (Ascii.ascii_of_N 10));;
  release_console;;
  mret 0.

Definition putbuf (buffer n : Z) : ST console unit :=
  acquire_console;;
  loopM (S (Z.to_nat n)) (λ '(buffer, n),
    if n >? 0 then
      c ← (λ s, match ld buffer (strings s) with Ok (c, _) => Ok (c, s) | Err e => Err e end);
      putchar_have_lock c;; mret (inl (buffer + 1, n - 1))
    else mret (inr tt)) (buffer, n);;
  release_console.

Definition console_print_stats : ST console Z :=
  s ← get;
  printf (str "Console: %lld characters output" ++ [10; 0]) [u32 (write_cnt s); u32 (write_cnt s / 2 ^ 32)].

(** ** stdio.c *)

Definition isprint (c : Z) : bool := (32 <=? c) && (c <? 127).

(** [for (; i < end; i++) printf (...)]; returns the last [i]. *)
Definition print_from (i end_ : Z) (f : Z → ST console Z) : ST console Z :=
  loopM (S (Z.to_nat (end_ - i))) (λ i, if i <? end_ then f i;; mret (inl (i + 1)) else mret (inr i)) i.

Definition per_line : Z := 16.

Definition hex_line (ofs : Z) (buf : list Z) (size : Z) (ascii : bool) : ST console Z :=
  let start := ofs mod per_line in
  let end_ := if per_line - start >? size then start + size else per_line in
  printf (lit "%08jx  ") [u32 (ofs / per_line * per_line); 0];;
  i ← print_from 0 start (λ _, printf (lit "   ") []);
  i ← print_from i end_ (λ i,
    b ← lift (match buf !! Z.to_nat (i - start) with Some b => Ok b | None => Err BadAccess end);
    printf (lit "%02hhx%c") [b; if i =? per_line / 2 - 1 then chr "-" else chr " "]);
  (if ascii then
     print_from i per_line (λ _, printf (lit "   ") []);;
     printf (lit "|") [];;
     i ← print_from 0 start (λ _, printf (lit " ") []);
     i ← print_from i end_ (λ i,
       b ← lift (match buf !! Z.to_nat (i - start) with Some b => Ok b | None => Err BadAccess end);
       printf (lit "%c") [if isprint b then b else chr "."]);
     print_from i per_line (λ _, printf (lit " ") []);;
     printf (lit "|") []
   else mret 0);;
  printf [10; 0] [];;
  mret (end_ - start).

(** [buf] are the bytes that are left. *)
Definition hex_dump (ofs : Z) (buf : list Z) (size : Z) (ascii : bool) : ST console unit :=
  loopM (S (Z.to_nat size)) (λ '(ofs, buf, size),
    if size >? 0 then
      n ← hex_line ofs buf size ascii;
      mret (inl (u32 (ofs + n), drop (Z.to_nat n) buf, size - n))
    else mret (inr tt)) (ofs, buf, size).

Definition factors : list (list Z) := [str "bytes"; str "kB"; str "MB"; str "GB"; str "TB"].

(** The scaled size and the index of its unit. *)
Definition scale (size : Z) : result (Z * Z) :=
  loop 5 (λ '(size, fp),
    if (size >=? 1024) && (fp + 1 <? Z.of_nat (length factors)) then Ok (inl (size / 1024, fp + 1))
    else Ok (inr (size, fp))) (size, 0).

(** [unit_ptr] gives the addresses of the names of the units. *)
Definition print_human_readable_size (unit_ptr : Z → Z) (size : Z) : ST console Z :=
  if size =? 1 then printf (lit "1 byte") []
  else
    r ← lift (scale size);
    printf (lit "%llu %s") [u32 (fst r); u32 (fst r / 2 ^ 32); unit_ptr (snd r)].

End console.
