(* ===== verification/ConsoleSpec.v ===== *)
(** * What appears on the console

    The functions of [Console] send the text of [StdioFormat] to the devices,
    each call without interruption by other threads, and leave the console lock
    as they found it: free, or held by the caller to the same depth. *)

From Stdlib Require Import Ascii.
From Stdlib Require String.
From S2P Require Import Prelude StdlibC CString Stdio StdioSpec StdioFormat Console.
Import String.StringSyntax.

(** The console after some characters were written. *)
Definition emit (t : list Z) (s : console) : console :=
  foldl (λ s c, device_putc c (mk_console (use_console_lock s) (holder s) (console_lock_depth s)
                                 (s64 (write_cnt s + 1)) (out s) (strings s))) s t.

Lemma emit_app t t' s : emit (t ++ t') s = emit t' (emit t s).
Proof. apply foldl_app. Qed.

Lemma emit_fields t s :
  out (emit t s) = out s ++ t ∧ strings (emit t s) = strings s ∧ use_console_lock (emit t s) = use_console_lock s ∧
  holder (emit t s) = holder s ∧ console_lock_depth (emit t s) = console_lock_depth s.
Proof.
  revert s. induction t as [|c t IH]; intros s; [by rewrite app_nil_r|]. simpl. destruct (IH (device_putc c
    (mk_console (use_console_lock s) (holder s) (console_lock_depth s) (s64 (write_cnt s + 1)) (out s) (strings s)))) as (-> & -> & -> & -> & ->).
  simpl. by rewrite <-app_assoc.
Qed.

Lemma emit_holder t s x : emit t (set_holder x s) = set_holder x (emit t s).
Proof. revert s. induction t as [|c t IH]; intros s; [done|]. simpl. by rewrite <-IH. Qed.

Lemma emit_depth t s x : emit t (set_depth x s) = set_depth x (emit t s).
Proof. revert s. induction t as [|c t IH]; intros s; [done|]. simpl. by rewrite <-IH. Qed.

Section spec.
Variable intr_context : bool.
Variable cur : Z.

(** The lock is free or held by the caller, or not used. *)
Definition console_ok (s : console) : Prop :=
  intr_context = true ∨ use_console_lock s = false ∨
  (holder s = None ∧ console_lock_depth s = 0) ∨
  (holder s = Some cur ∧ 0 ≤ console_lock_depth s < 2 ^ 31 - 1).

Definition locked (s : console) : Prop := console_locked_by_current_thread intr_context cur s = true.

Lemma locked_emit t s : locked s → locked (emit t s).
Proof.
  unfold locked, console_locked_by_current_thread, lock_held_by_current_thread.
  destruct (emit_fields t s) as (_ & _ & -> & -> & _). done.
Qed.

Lemma console_ok_emit t s : console_ok s → console_ok (emit t s).
Proof. unfold console_ok. destruct (emit_fields t s) as (_ & _ & -> & -> & ->). done. Qed.

Lemma putchar_ok c s : locked s → putchar_have_lock intr_context cur c s = Ok (tt, emit [c] s).
Proof. intros Hl. unfold putchar_have_lock. erewrite bind_ok by apply get_ok. by erewrite bind_ok by by apply assert_ok. Qed.

Lemma lock_acquire_free s : intr_context = false → holder s = None → lock_acquire intr_context cur s = Ok (tt, set_holder (Some cur) s).
Proof.
  intros Ni Hh. unfold lock_acquire, lock_held_by_current_thread. by rewrite Ni, Hh, bool_decide_eq_false_2.
Qed.

(** Output between taking and releasing the lock. *)
Lemma with_lock {A} (body : ST console A) a t s :
  console_ok s → (∀ s1, locked s1 → strings s1 = strings s → body s1 = Ok (a, emit t s1)) →
  (acquire_console intr_context cur;; x ← body; release_console intr_context cur;; mret x) s = Ok (a, emit t s).
Proof.
  intros Hok Hbody. unfold acquire_console, release_console.
  destruct (emit_fields t s) as (_ & _ & Fu & Fh & Fd).
  destruct (negb intr_context && use_console_lock s) eqn:Hc; cycle 1.
  { erewrite bind_ok; cycle 1. { erewrite bind_ok by apply get_ok. by rewrite Hc. }
    erewrite bind_ok; cycle 1.
    { apply Hbody; [|done]. unfold locked, console_locked_by_current_thread.
      apply andb_false_iff in Hc as [->%negb_false_iff| ->]; [done|]. by rewrite orb_true_r. }
    erewrite bind_ok; [done|]. erewrite bind_ok by apply get_ok. by rewrite Fu, Hc. }
  pose proof Hc as [Ni%negb_true_iff Nu]%andb_true_iff. destruct Hok as [?|[?|[[Hh Hd]|[Hh Hd]]]]; [congruence|congruence|..].
  - erewrite bind_ok; cycle 1.
    { erewrite bind_ok by apply get_ok. rewrite Hc. unfold lock_held_by_current_thread.
      rewrite Hh, bool_decide_eq_false_2 by done. by apply lock_acquire_free. }
    erewrite bind_ok; cycle 1.
    { apply Hbody; [|done]. unfold locked, console_locked_by_current_thread, lock_held_by_current_thread. simpl.
      rewrite bool_decide_eq_true_2 by done. by rewrite orb_true_r. }
    rewrite emit_holder. erewrite bind_ok; [done|]. erewrite bind_ok by apply get_ok. cbn [use_console_lock console_lock_depth set_holder].
    rewrite Fu, Fd, Hc, Hd. cbn [Z.gtb Z.compare]. unfold lock_release. erewrite bind_ok by apply get_ok.
    erewrite bind_ok by (apply assert_ok; unfold lock_held_by_current_thread; by rewrite bool_decide_eq_true_2).
    unfold modify. f_equal. f_equal. destruct (emit t s); simpl in *. unfold set_holder. simpl. by rewrite Fh, Hh.
  - erewrite bind_ok; cycle 1.
    { erewrite bind_ok by apply get_ok. rewrite Hc. unfold lock_held_by_current_thread. by rewrite bool_decide_eq_true_2. }
    erewrite bind_ok; cycle 1.
    { apply Hbody; [|done]. unfold locked, console_locked_by_current_thread, lock_held_by_current_thread. simpl.
      rewrite bool_decide_eq_true_2 by done. by rewrite orb_true_r. }
    rewrite emit_depth. erewrite bind_ok; [done|]. erewrite bind_ok by apply get_ok. cbn [use_console_lock console_lock_depth set_depth].
    rewrite Fu, Hc, s32_small by lia. destruct (Z.gtb_spec (console_lock_depth s + 1) 0); [|lia].
    unfold modify. f_equal. f_equal. destruct (emit t s); simpl in *. unfold set_depth. simpl. f_equal. lia.
Qed.

Lemma helper_console t : ∀ s k,
  locked s → output_buf (vprintf_helper intr_context cur) t (s, k) =
  Ok (tt, (emit (u8 <$> t) s, foldl (λ k _, s32 (k + 1)) k t)).
Proof.
  induction t as [|c t IH]; intros s k Hl; [done|]. simpl. erewrite bind_ok by (unfold vprintf_helper; by rewrite putchar_ok).
  rewrite IH by (by apply locked_emit). done.
Qed.

Lemma count_ok (t : list Z) k : 0 ≤ k → k + Z.of_nat (length t) < 2 ^ 31 → foldl (λ k _, s32 (k + 1)) k t = k + Z.of_nat (length t).
Proof.
  revert k. induction t as [|c t IH]; intros k Hk Hl; simpl in *; [lia|]. rewrite s32_small by lia. rewrite IH by lia. lia.
Qed.

(** Every character that is printed is a byte. *)
Definition byte (c : Z) : Prop := 0 ≤ c < 2 ^ 8.

Lemma pad_bytes o n c : byte c → Forall byte (pad o n c).
Proof. apply Forall_replicate. Qed.

Lemma digits_byte b d : base_ok b → 0 ≤ d < base b → byte (digits b !!! Z.to_nat d).
Proof.
  intros Hb Hd. assert (Forall byte (digits b) ∧ base b ≤ Z.of_nat (length (digits b))) as [Hf Hl].
  { unfold base_ok in Hb. rewrite !elem_of_cons, elem_of_nil in Hb. destruct_or!; subst; by split; [repeat constructor|]. }
  destruct (lookup_lt_is_Some_2 (digits b) (Z.to_nat d)) as [x Hx]; [lia|].
  rewrite (list_lookup_total_correct _ _ _ Hx). by eapply Forall_lookup_1.
Qed.

Lemma commas_bytes g ds : ∀ i, Forall byte ds → Forall byte (commas g i ds).
Proof.
  induction ds as [|d ds IH]; intros i Hd; simpl; [done|]. apply Forall_cons in Hd as [Hd Hds].
  apply Forall_app. split; [destruct (_ && _); by repeat constructor|]. constructor; auto.
Qed.

Lemma numeral_bytes b g v : base_ok b → 0 < base b → Forall byte (numeral b g v).
Proof.
  intros Hb Hp. unfold numeral. set (ds := _ <$> _). assert (Forall byte ds) as Hds.
  { unfold ds. clear ds g. generalize 64%nat. intros n. revert v. induction n as [|n IH]; intros v; simpl; [constructor|].
    destruct (v >? 0); [|constructor]. rewrite fmap_app. apply Forall_app. split; [apply IH|].
    constructor; [|constructor]. apply digits_byte; [done|]. by apply Z.mod_pos_bound. }
  destruct g; [|done]. apply Forall_reverse, commas_bytes, Forall_reverse, Hds.
Qed.

Lemma int_text_bytes o b v sign : base_ok b → Forall byte sign → Forall byte (int_text o b v sign).
Proof.
  intros Hb Hs. assert (0 < base b ∧ byte (base_x_char b)) as [Hp Hx].
  { unfold base_ok in Hb. rewrite !elem_of_cons, elem_of_nil in Hb. destruct_or!; by subst. }
  assert (Forall byte (int_body o b v)) as Hbody.
  { unfold int_body. pose proof (numeral_bytes b (grp o) v Hb Hp) as Hn.
    assert (∀ n, Forall byte (replicate n (chr "0") ++ numeral b (grp o) v)) as Hd by (intros n; apply Forall_app; split; [by apply Forall_replicate|done]).
    destruct (_ && _); [by constructor|done]. }
  assert (Forall byte (int_prefix o b v sign)) as Hpre.
  { unfold int_prefix. apply Forall_app. split; [done|]. destruct (_ && _); [|constructor]. by constructor; [|constructor]. }
  unfold int_text. destruct (left o); [|destruct (zero o)]; rewrite !Forall_app; split_and!; try done; by apply pad_bytes.
Qed.

Lemma string_text_bytes o t : Forall byte t → Forall byte (string_text o t).
Proof. intros Ht. unfold string_text. destruct (left o); apply Forall_app; (split; [|done || by apply pad_bytes]); done || by apply pad_bytes. Qed.

Lemma text_bytes m ps : Forall (piece_ok (cstr m)) ps → Forall byte (text_of ps).
Proof.
  unfold text_of. induction 1 as [|x ps Hx _ IH]; [constructor|]. rewrite fmap_cons. simpl. apply Forall_app. split; [|done].
  destruct x as [c| |d v]; simpl in *; [constructor; [unfold byte; lia|constructor]|by repeat constructor|].
  destruct Hx as [Hd Hv]. destruct v; simpl in *.
  - destruct (signed_conv _); apply int_text_bytes; [unfold base_ok; set_solver| |apply base_of_ok|constructor].
    unfold sign_text. repeat case_match; by repeat constructor.
  - apply string_text_bytes. constructor; [apply u8_range|constructor].
  - apply string_text_bytes. destruct Hv as (_ & [_ Hc _] & _). unfold cut. destruct (prec _); [apply Forall_take|];
      (eapply Forall_impl; [exact Hc|]; unfold byte; simpl; lia).
  - apply string_text_bytes. unfold cut. destruct (prec _); [apply Forall_take|]; by repeat constructor.
  - apply int_text_bytes; [unfold base_ok; set_solver|constructor].
  - unfold unsupported. destruct Hd as [_ _ _ [Hc _]]. rewrite !Forall_app. split_and!; [by repeat constructor| |destruct (existsb _ _); by repeat constructor].
    constructor; [unfold byte; lia|constructor].
Qed.

Lemma u8_bytes t : Forall byte t → u8 <$> t = t.
Proof. induction 1 as [|c t Hc _ IH]; [done|]. by rewrite fmap_cons, u8_small, IH. Qed.

Lemma printf_ok ps rest args s :
  console_ok s → Forall (piece_ok (cstr (strings s))) ps → Z.of_nat (length (text_of ps)) < 2 ^ 31 →
  printf intr_context cur (format_of ps ++ rest) (args_of ps ++ args) s =
  Ok (Z.of_nat (length (text_of ps)), emit (text_of ps) s).
Proof.
  intros Hok Hps Hl. unfold printf, vprintf. apply with_lock; [done|]. intros s1 Hl1 Hs1.
  rewrite (__vprintf_ok (λ s, strings (fst s)) (vprintf_helper intr_context cur)
    (λ x, locked (fst x) ∧ strings (fst x) = strings s) (cstr (strings s))); [|..|done].
  - rewrite helper_console by done. rewrite count_ok by lia. by erewrite u8_bytes by by eapply text_bytes.
  - intros c [x k] x' [Hx Hx'] E. unfold vprintf_helper in E. simpl in Hx. rewrite putchar_ok in E by done.
    injection E as <-. cbn [fst]. split; [by apply (locked_emit [u8 c])|]. done.
  - intros p t x [_ ->]. done.
  - done.
Qed.

(** ** Sequences of calls *)

(** In a console that may be used, with memory [m], [f] prints [t] and returns [a]. *)
Definition says {A} (m : mem) (f : ST console A) (t : list Z) (a : A) : Prop :=
  ∀ s, console_ok s → strings s = m → f s = Ok (a, emit t s).

Lemma says_ret {A} m (a : A) : says m (mret a) [] a.
Proof. done. Qed.

Lemma says_bind {A B} m (f : ST console A) (g : A → ST console B) t t' a b :
  says m f t a → says m (g a) t' b → says m (f ≫= g) (t ++ t') b.
Proof.
  intros Hf Hg s Hs Hm. erewrite bind_ok by by apply Hf. rewrite emit_app. apply Hg; [by apply console_ok_emit|].
  rewrite <-Hm. apply emit_fields.
Qed.

Lemma says_lift {A B} m (r : result A) (g : A → ST console B) t a b :
  r = Ok a → says m (g a) t b → says m (lift r ≫= g) t b.
Proof. intros -> Hg. exact (says_bind m _ _ [] t a b (says_ret m a) Hg). Qed.

Lemma says_printf m ps :
  Forall (piece_ok (cstr m)) ps → Z.of_nat (length (text_of ps)) < 2 ^ 31 →
  says m (printf intr_context cur (format_of ps) (args_of ps)) (text_of ps) (Z.of_nat (length (text_of ps))).
Proof.
  intros Hps Hl s Hs Hm. pose proof (printf_ok ps [] [] s Hs) as H. rewrite !app_nil_r in H. apply H; [by rewrite Hm|done].
Qed.

Lemma text_pieces t : format_of (Text <$> t) = t ++ [0] ∧ args_of (Text <$> t) = [] ∧ text_of (Text <$> t) = t.
Proof.
  unfold format_of, args_of, text_of. induction t as [|c t (IH1 & IH2 & IH3)]; [done|]. rewrite !fmap_cons.
  cbn [concat piece_text piece_args render app]. apply app_inv_tail in IH1. by rewrite IH1, IH2, IH3.
Qed.

Lemma says_text m t :
  Forall (λ c, 0 < c < 256 ∧ c ≠ chr "%") t → Z.of_nat (length t) < 2 ^ 31 →
  says m (printf intr_context cur (t ++ [0]) []) t (Z.of_nat (length t)).
Proof.
  intros Ht Hl. destruct (text_pieces t) as (E1 & E2 & E3). pose proof (says_printf m (Text <$> t)) as H.
  rewrite E1, E2, E3 in H. apply H; [|done]. apply Forall_fmap. by eapply Forall_impl.
Qed.

Lemma says_for m i end_ f (t : Z → list Z) :
  i ≤ end_ → (∀ j, i ≤ j < end_ → ∃ r, says m (f j) (t j) r) →
  says m (print_from i end_ f) (concat (t <$> seqZ i (end_ - i))) end_.
Proof.
  unfold print_from. remember (Z.to_nat (end_ - i)) as n eqn:En. revert i En.
  induction n as [|n IH]; intros i En Hle Hf s Hs Hm; rewrite loopM_unfold.
  - destruct (Z.ltb_spec i end_); [lia|]. replace end_ with i by lia. rewrite Z.sub_diag. done.
  - destruct (Z.ltb_spec i end_); [|lia]. destruct (Hf i) as [r Hr]; [lia|].
    erewrite bind_ok by by apply Hr. cbn [mret st_ret].
    rewrite IH; [|lia|lia|intros j Hj; apply Hf; lia|by apply console_ok_emit|by rewrite <-Hm; apply emit_fields].
    rewrite (seqZ_cons i) by lia. simpl. rewrite emit_app. replace (Z.succ i) with (i + 1) by lia.
    by replace (Z.pred (end_ - i)) with (end_ - (i + 1)) by lia.
Qed.

(** ** hex_dump *)

(** A number of [n] hexadecimal digits. *)
Definition hex_opts (n : Z) : opts := mk_opts false true false false false false n None.
Definition hex_text (n v : Z) : list Z := int_text (hex_opts n) base_x v [].

Lemma hex_text_length n v : (0 < n)%nat → 0 ≤ v < 16 ^ Z.of_nat n → length (hex_text (Z.of_nat n) v) = n.
Proof.
  intros Hn Hv. pose proof (to_digits_length 64 16 ltac:(done) n v Hv) as Hd. unfold hex_text, int_text. cbn [left zero hex_opts].
  unfold int_prefix. cbn [alt hex_opts andb app]. unfold pad, int_body. cbn [alt prec hex_opts o_width grp andb].
  unfold numeral. change (base base_x) with 16.
  rewrite !length_app, !length_replicate, length_fmap. lia.
Qed.

(** The byte in column [j] of a line whose bytes [bs] start in column [start]. *)
Definition column (start : Z) (bs : list Z) (j : Z) : option Z :=
  if j <? start then None else bs !! Z.to_nat (j - start).
Definition cell (start : Z) (bs : list Z) (j : Z) : list Z :=
  match column start bs j with
  | Some b => hex_text 2 b ++ [if j =? 7 then chr "-" else chr " "]
  | None => str "   "
  end.
Definition glyph (start : Z) (bs : list Z) (j : Z) : list Z :=
  match column start bs j with Some b => [if isprint b then b else chr "."] | None => str " " end.

Definition line_text (ofs : Z) (bs : list Z) (ascii : bool) : list Z :=
  let start := ofs mod 16 in
  hex_text 8 (ofs / 16 * 16) ++ str "  " ++
  (if ascii then
     concat (cell start bs <$> seqZ 0 16) ++ str "|" ++ concat (glyph start bs <$> seqZ 0 16) ++ str "|"
   else concat (cell start bs <$> seqZ 0 (start + Z.of_nat (length bs)))) ++ [10].

Definition hex_dir (n : Z) (ty : arg_type) : directive := mk_dir [chr "0"] (WNum [n]) PNone ty (chr "x").

Lemma hex_dir_ok n ty : 1 ≤ n ≤ 9 → dir_ok (hex_dir n ty).
Proof.
  intros Hn. split; simpl.
  - constructor; [by eexists|constructor].
  - split; [split; [by constructor; [lia|]|]|intros [=]; lia]. unfold decimal. simpl. lia.
  - done.
  - split_and!; [by vm_compute..|]. vm_compute. set_solver.
Qed.

Lemma column_out start bs j : j < start ∨ start + Z.of_nat (length bs) ≤ j → column start bs j = None.
Proof. intros Hj. unfold column. destruct (Z.ltb_spec j start); [done|]. apply lookup_ge_None. lia. Qed.

Lemma column_in start n buf j :
  start ≤ j < start + Z.of_nat n → (n ≤ length buf)%nat →
  ∃ b, buf !! Z.to_nat (j - start) = Some b ∧ column start (take n buf) j = Some b.
Proof.
  intros Hj Hn. destruct (lookup_lt_is_Some_2 buf (Z.to_nat (j - start))) as [b Hb]; [lia|].
  exists b. split; [done|]. unfold column. destruct (Z.ltb_spec j start); [lia|]. by rewrite lookup_take_lt by lia.
Qed.

(** The calls of one line. *)
Section line.
Variables (m : mem) (ofs : Z) (buf : list Z) (n : nat).
Abbreviation start := (ofs mod 16).
Abbreviation bs := (take n buf).
Hypothesis Hbuf : Forall byte buf.
Hypothesis Hn : (n ≤ length buf)%nat.

Lemma says_blank (f : Z → list Z) j c : f j = replicate c (chr " ") → (c ≤ 3)%nat →
  ∃ r, says m (printf intr_context cur (replicate c (chr " ") ++ [0]) []) (f j) r.
Proof.
  intros -> Hc. eexists. apply says_text; [by apply Forall_replicate|rewrite length_replicate; lia].
Qed.

Lemma says_cell j : start ≤ j < start + Z.of_nat n →
  ∃ r, says m (b ← lift (match buf !! Z.to_nat (j - start) with Some b => Ok b | None => Err BadAccess end);
               printf intr_context cur (lit "%02hhx%c") [b; if j =? per_line / 2 - 1 then chr "-" else chr " "])
         (cell start bs j) r.
Proof.
  intros Hj. destruct (column_in start n buf j Hj Hn) as (b & Eb & Ec). unfold cell. rewrite Eb, Ec.
  assert (byte b) as Hb by (by eapply Forall_lookup_1). unfold byte in Hb.
  set (c := if j =? 7 then chr "-" else chr " ").
  assert (u8 c = c) as Hc by (unfold c; by destruct (j =? 7)).
  set (ps := [Conv (hex_dir 2 CHAR) (VInt b); Conv (mk_dir [] (WNum []) PNone INT (chr "c")) (VChar c)]).
  assert (text_of ps = hex_text 2 b ++ [c]) as Et by (rewrite <-Hc; done).
  eexists. eapply says_lift; [done|]. change (per_line / 2 - 1) with 7. fold c.
  replace (lit _) with (format_of ps) by done.
  replace [b; c] with (args_of ps) by (unfold args_of, ps; simpl; by rewrite u32_small by lia).
  rewrite <-Et. apply says_printf.
  - constructor; [|constructor; [split; [apply msg_char_ok|done]|constructor]].
    split; [by apply hex_dir_ok|]. split; [|done]. split; [done|]. simpl. lia.
  - rewrite Et, length_app. rewrite (hex_text_length 2) by lia. simpl. lia.
Qed.

Lemma says_glyph j : start ≤ j < start + Z.of_nat n →
  ∃ r, says m (b ← lift (match buf !! Z.to_nat (j - start) with Some b => Ok b | None => Err BadAccess end);
               printf intr_context cur (lit "%c") [if isprint b then b else chr "."])
         (glyph start bs j) r.
Proof.
  intros Hj. destruct (column_in start n buf j Hj Hn) as (b & Eb & Ec). unfold glyph. rewrite Eb, Ec.
  assert (byte b) as Hb by (by eapply Forall_lookup_1). unfold byte in Hb.
  set (c := if isprint b then b else chr ".").
  assert (u8 c = c) as Hc by (unfold c; destruct (isprint b); [by apply u8_small|done]).
  set (ps := [Conv (mk_dir [] (WNum []) PNone INT (chr "c")) (VChar c)]).
  assert (text_of ps = [c]) as Et by (unfold text_of, ps; simpl; by rewrite Hc).
  eexists. eapply says_lift; [done|]. fold c.
  replace (lit _) with (format_of ps) by done. replace [c] with (args_of ps) at 1 by done.
  rewrite <-Et. apply says_printf; [|rewrite Et; simpl; lia].
  constructor; [|constructor]. split; [apply msg_char_ok|done].
Qed.

Lemma says_offset : 0 ≤ ofs < 2 ^ 32 →
  ∃ r, says m (printf intr_context cur (lit "%08jx  ") [u32 (ofs / per_line * per_line); 0]) (hex_text 8 (ofs / 16 * 16) ++ str "  ") r.
Proof.
  intros Hofs. set (v := ofs / 16 * 16). assert (0 ≤ v < 2 ^ 32) as Hv by (unfold v; dlia).
  set (ps := [Conv (hex_dir 8 INTMAX) (VInt v); Text (chr " "); Text (chr " ")]).
  replace (lit _) with (format_of ps) by done.
  replace [_; 0] with (args_of ps) by (unfold args_of, ps; simpl; by rewrite (u32_small (v / _)), (Z.div_small v) by dlia).
  assert (text_of ps = hex_text 8 v ++ str "  ") as Et by done. rewrite <-Et. eexists. apply says_printf.
  - constructor; [|by repeat (constructor; [done|])]. split; [by apply hex_dir_ok|]. split; [|done]. split; [done|]. simpl. lia.
  - rewrite Et, length_app, (hex_text_length 8) by lia. simpl. lia.
Qed.

(** The columns of a line: blank up to the first byte, the bytes, and blank again. *)
Lemma says_columns (f : Z → list Z) (c : nat) (g : Z → ST console Z) (k : Z → ST console Z) t (r : Z) :
  (c ≤ 3)%nat → (∀ j, j < start ∨ start + Z.of_nat n ≤ j → f j = replicate c (chr " ")) →
  (∀ j, start ≤ j < start + Z.of_nat n → ∃ r, says m (g j) (f j) r) →
  says m (k (start + Z.of_nat n)) t r →
  says m (i ← print_from 0 start (λ _, printf intr_context cur (replicate c (chr " ") ++ [0]) []);
          i ← print_from i (start + Z.of_nat n) g; k i) (concat (f <$> seqZ 0 (start + Z.of_nat n)) ++ t) r.
Proof.
  intros Hc Hf Hg Hk. assert (0 ≤ start) by dlia. rewrite seqZ_app, fmap_app, concat_app, <-app_assoc by lia.
  eapply says_bind.
  { replace (seqZ 0 start) with (seqZ 0 (start - 0)) by (f_equal; lia). apply says_for; [lia|].
    intros j Hj. apply says_blank; [apply Hf; lia|done]. }
  eapply says_bind; [|exact Hk]. rewrite Z.add_0_l.
  replace (seqZ start (Z.of_nat n)) with (seqZ start (start + Z.of_nat n - start)) by (f_equal; lia). apply says_for; [lia|done].
Qed.

Lemma says_rest (f : Z → list Z) (c : nat) :
  (c ≤ 3)%nat → (∀ j, j < start ∨ start + Z.of_nat n ≤ j → f j = replicate c (chr " ")) → start + Z.of_nat n ≤ 16 →
  says m (print_from (start + Z.of_nat n) 16 (λ _, printf intr_context cur (replicate c (chr " ") ++ [0]) []))
    (concat (f <$> seqZ (start + Z.of_nat n) (16 - (start + Z.of_nat n)))) 16.
Proof. intros Hc Hf Hle. apply says_for; [done|]. intros j Hj. apply says_blank; [apply Hf; lia|done]. Qed.

Lemma columns_split (f : Z → list Z) : start + Z.of_nat n ≤ 16 →
  concat (f <$> seqZ 0 16) =
  concat (f <$> seqZ 0 (start + Z.of_nat n)) ++ concat (f <$> seqZ (start + Z.of_nat n) (16 - (start + Z.of_nat n))).
Proof.
  intros Hle. assert (0 ≤ start) by dlia. rewrite <-concat_app, <-fmap_app. do 2 f_equal.
  rewrite <-(Z.add_0_l (start + Z.of_nat n)) at 2. rewrite <-seqZ_app by lia. f_equal. lia.
Qed.

Lemma cell_blank j : j < start ∨ start + Z.of_nat n ≤ j → cell start bs j = replicate 3 (chr " ").
Proof. intros Hj. unfold cell. rewrite column_out; [done|]. rewrite length_take. lia. Qed.

Lemma glyph_blank j : j < start ∨ start + Z.of_nat n ≤ j → glyph start bs j = replicate 1 (chr " ").
Proof. intros Hj. unfold glyph. rewrite column_out; [done|]. rewrite length_take. lia. Qed.

Lemma says_char c : 0 < c < 256 → c ≠ chr "%" → says m (printf intr_context cur [c; 0] []) [c] 1.
Proof. intros Hc Np. apply (says_text m [c]); [by constructor; [|constructor]|done]. Qed.

(** The part of a line that shows the bytes as characters. *)
Lemma says_ascii : start + Z.of_nat n ≤ 16 → ∃ r,
  says m (print_from (start + Z.of_nat n) per_line (λ _, printf intr_context cur (lit "   ") []);;
     printf intr_context cur (lit "|") [];;
     i ← print_from 0 start (λ _, printf intr_context cur (lit " ") []);
     i ← print_from i (start + Z.of_nat n) (λ i,
       b ← lift (match buf !! Z.to_nat (i - start) with Some b => Ok b | None => Err BadAccess end);
       printf intr_context cur (lit "%c") [if isprint b then b else chr "."]);
     print_from i per_line (λ _, printf intr_context cur (lit " ") []);;
     printf intr_context cur (lit "|") [])
    (concat (cell start bs <$> seqZ (start + Z.of_nat n) (16 - (start + Z.of_nat n))) ++
     str "|" ++ concat (glyph start bs <$> seqZ 0 16) ++ str "|") r.
Proof.
  intros Hle. eexists. eapply says_bind; [apply (says_rest _ 3); [lia|apply cell_blank|done]|].
  eapply says_bind; [by apply says_char|]. rewrite (columns_split (glyph start bs)), <-app_assoc by done.
  apply (says_columns (glyph start bs) 1); [lia|apply glyph_blank|apply says_glyph|].
  eapply says_bind; [apply (says_rest _ 1); [lia|apply glyph_blank|done]|by apply says_char].
Qed.

Lemma hex_line_ok size ascii :
  0 ≤ ofs < 2 ^ 32 → Z.of_nat n = Z.min size (16 - start) → says m (hex_line intr_context cur ofs buf size ascii) (line_text ofs bs ascii) (Z.of_nat n).
Proof.
  intros Hofs Hsize. assert (0 ≤ start < 16) by dlia. assert (start + Z.of_nat n ≤ 16) as Hle by lia.
  unfold hex_line. change (ofs mod per_line) with start.
  replace (if per_line - start >? size then start + size else per_line) with (start + Z.of_nat n)
    by (unfold per_line; destruct (Z.gtb_spec (16 - start) size); lia).
  unfold line_text. destruct (says_offset Hofs) as [r0 H0]. rewrite app_assoc. eapply says_bind; [exact H0|].
  assert (says m (printf intr_context cur [10; 0] [];; mret (start + Z.of_nat n - start)) [10] (Z.of_nat n)) as Hend.
  { replace (start + Z.of_nat n - start) with (Z.of_nat n) by lia.
    eapply (says_bind m _ _ [10] []); [by apply says_char|apply says_ret]. }
  destruct ascii.
  - rewrite (columns_split (cell start bs)), <-!app_assoc by done.
    apply (says_columns (cell start bs) 3); [lia|apply cell_blank|apply says_cell|].
    destruct (says_ascii Hle) as [r1 H1]. pose proof (says_bind m _ (λ _, _) _ _ _ _ H1 Hend) as H2.
    rewrite <-!app_assoc in H2. exact H2.
  - replace (Z.of_nat (length bs)) with (Z.of_nat n) by (rewrite length_take; lia).
    apply (says_columns (cell start bs) 3); [lia|apply cell_blank|apply says_cell|].
    exact (says_bind m _ (λ _, _) [] _ _ _ (says_ret m 0) Hend).
Qed.
End line.

(** The lines of a dump: the first ends where the address is a multiple of 16. *)
Fixpoint dump_text (lines : nat) (ofs : Z) (bs : list Z) (ascii : bool) : list Z :=
  match lines, bs with
  | O, _ | _, [] => []
  | S lines, _ =>
      let n := Z.to_nat (16 - ofs mod 16) in
      line_text ofs (take n bs) ascii ++ dump_text lines (u32 (ofs + Z.of_nat n)) (drop n bs) ascii
  end.

Lemma hex_dump_ok m buf ofs size ascii :
  Forall byte buf → 0 ≤ ofs < 2 ^ 32 → 0 ≤ size ≤ Z.of_nat (length buf) →
  says m (hex_dump intr_context cur ofs buf size ascii) (dump_text (Z.to_nat size) ofs (take (Z.to_nat size) buf) ascii) tt.
Proof.
  unfold hex_dump. assert (∀ k j buf ofs size, Forall byte buf → 0 ≤ ofs < 2 ^ 32 → 0 ≤ size ≤ Z.of_nat (length buf) →
    (Z.to_nat size < k)%nat → (Z.to_nat size ≤ j)%nat →
    says m (loopM k (λ '(ofs, buf, size),
      if size >? 0 then
        n ← hex_line intr_context cur ofs buf size ascii;
        mret (inl (u32 (ofs + n), drop (Z.to_nat n) buf, size - n))
      else mret (inr tt)) (ofs, buf, size)) (dump_text j ofs (take (Z.to_nat size) buf) ascii) tt) as H.
  { clear buf ofs size. intros k. induction k as [|k IH]; intros j buf ofs size Hbuf Hofs Hsize Hk Hj s Hs Hm; [lia|].
    rewrite loopM_unfold. destruct (Z.gtb_spec size 0) as [Hp|Hz].
    - assert (0 ≤ ofs mod 16 < 16) by dlia. set (n := Z.to_nat (Z.min size (16 - ofs mod 16))).
      erewrite bind_ok by (apply (hex_line_ok m ofs buf n Hbuf); [lia|done|lia|done|done]). cbn [mret st_ret].
      destruct j as [|j]; [lia|]. destruct (take (Z.to_nat size) buf) as [|b bs] eqn:Eb.
      { apply (f_equal length) in Eb. rewrite length_take in Eb. simpl in Eb. lia. }
      cbn [dump_text]. rewrite <-Eb. rewrite emit_app, take_take.
      replace (Z.to_nat (16 - ofs mod 16) `min` Z.to_nat size)%nat with n by lia.
      assert (console_ok (emit (line_text ofs (take n buf) ascii) s)) as Hs' by by apply console_ok_emit.
      assert (strings (emit (line_text ofs (take n buf) ascii) s) = m) as Hm' by (rewrite <-Hm; apply emit_fields).
      rewrite Nat2Z.id, (IH j); [|by apply Forall_drop|apply u32_range|rewrite length_drop; lia|lia|lia|done|done].
      do 3 f_equal. destruct (decide (size ≤ 16 - ofs mod 16)).
      + rewrite (drop_ge (take _ _)) by (rewrite length_take; lia). replace (Z.to_nat (size - Z.of_nat n)) with 0%nat by lia.
        by destruct j.
      + replace (Z.to_nat (16 - ofs mod 16)) with n by lia. f_equal. rewrite firstn_skipn_comm. by replace (n + Z.to_nat (size - Z.of_nat n))%nat with (Z.to_nat size) by lia.
    - replace (Z.to_nat size) with 0%nat by lia. destruct j; done. }
  intros Hbuf Hofs Hsize. apply H; [done..|lia|lia].
Qed.

(** ** Characters, strings and buffers *)

(** Reading memory does not change the console. *)
Lemma read_ok p c s : strings s !! p = Some c →
  (λ s : console, match ld p (strings s) with Ok (c, _) => Ok (c, s) | Err e => Err e end) s = Ok (c, s).
Proof. intros E. cbn beta. by rewrite (ld_ok _ _ _ E). Qed.

Lemma emit_strings t s : strings (emit t s) = strings s.
Proof. apply emit_fields. Qed.

Lemma with_lock_ret {A B} (body : ST console A) (b : B) t s :
  console_ok s → (∀ s1, locked s1 → strings s1 = strings s → ∃ a, body s1 = Ok (a, emit t s1)) →
  (acquire_console intr_context cur;; body;; release_console intr_context cur;; mret b) s = Ok (b, emit t s).
Proof.
  intros Hok Hb. rewrite <-(with_lock (body;; mret b) b t s Hok).
  - apply bind_ext; [done|]. intros ? s1. by rewrite bind_assoc.
  - intros s1 Hl Hs. destruct (Hb s1 Hl Hs) as [a E]. unfold mbind, st_bind. by rewrite E.
Qed.

Lemma putchar_says m c : says m (putchar intr_context cur c) [u8 c] c.
Proof. intros s Hs Hm. apply with_lock_ret; [done|]. intros s1 Hl _. exists tt. by apply putchar_ok. Qed.

(** The loop of [puts]. *)
Lemma puts_loop t : ∀ k p s,
  locked s → bytes_at (strings s) p (t ++ [0]) → Forall (λ c, 0 < c < 256) t → (length t < k)%nat →
  loopM k (λ p,
    c ← (λ s, match ld p (strings s) with Ok (c, _) => Ok (c, s) | Err e => Err e end);
    if c =? 0 then mret (inr tt) else putchar_have_lock intr_context cur c;; mret (inl (p + 1))) p s = Ok (tt, emit t s).
Proof.
  induction t as [|c t IH]; intros [|k] p s Hl Hb Hc Hk; [simpl in Hk; lia| |simpl in Hk; lia|]; rewrite loopM_unfold;
    rewrite ?app_nil_l, <-?app_comm_cons, bytes_at_cons in Hb; destruct Hb as [Hp Hb].
  - by erewrite bind_ok by by apply read_ok.
  - apply Forall_cons in Hc as [Hc Ht]. erewrite bind_ok by by apply read_ok. rewrite (proj2 (Z.eqb_neq c 0)) by lia.
    erewrite bind_ok by by apply putchar_ok. cbn [mret st_ret]. change (emit (c :: t) s) with (emit t (emit [c] s)).
    simpl in Hk. apply IH; [by apply locked_emit|by rewrite emit_strings|done|lia].
Qed.

Lemma puts_says m p t : cstr m p t → says m (puts intr_context cur p) (t ++ [10]) 0.
Proof.
  intros Ht s Hs Hm. unfold puts. rewrite <-(with_lock_ret (s ← get;
    loopM (str_fuel (strings s)) (λ p,
      c ← (λ s, match ld p (strings s) with Ok (c, _) => Ok (c, s) | Err e => Err e end);
      if c =? 0 then mret (inr tt) else putchar_have_lock intr_context cur c;; mret (inl (p + 1))) p;;
    putchar_have_lock intr_context cur (chr (Ascii.ascii_of_N 10))) 0 (t ++ [10]) s Hs).
  - apply bind_ext; [done|]. intros [] s1. symmetry. rewrite bind_assoc. apply bind_ext; [done|]. intros a s2. apply bind_assoc.
  - intros s1 Hl E. rewrite Hm in E. exists tt. erewrite bind_ok by apply get_ok. destruct Ht as [Hb Hc Hn].
    erewrite bind_ok by (apply (puts_loop t); [done|by rewrite E|done|rewrite E; by apply cstr_fuel with p]).
    rewrite emit_app. by apply putchar_ok, locked_emit.
Qed.

Lemma putbuf_says m p n t : bytes_at m p t → n = Z.of_nat (length t) → says m (putbuf intr_context cur p n) t tt.
Proof.
  intros Hb -> s Hs Hm. unfold putbuf. rewrite Nat2Z.id.
  assert (∀ (t : list Z) k p s, locked s → bytes_at (strings s) p t → (length t < k)%nat →
    loopM k (λ '(buffer, n), if n >? 0 then
      c ← (λ s, match ld buffer (strings s) with Ok (c, _) => Ok (c, s) | Err e => Err e end);
      putchar_have_lock intr_context cur c;; mret (inl (buffer + 1, n - 1))
    else mret (inr tt)) (p, Z.of_nat (length t)) s = Ok (tt, emit t s)) as Hloop.
  { clear. induction t as [|c t IH]; intros [|k] p s Hl Hb Hk; [simpl in Hk; lia|done|simpl in Hk; lia|]; rewrite loopM_unfold.
    apply bytes_at_cons in Hb as [Hp Hb]. cbn [length]. destruct (Z.gtb_spec (Z.of_nat (S (length t))) 0); [|lia].
    erewrite bind_ok by by apply read_ok. erewrite bind_ok by by apply putchar_ok. cbn [mret st_ret].
    replace (Z.of_nat (S (length t)) - 1) with (Z.of_nat (length t)) by lia. simpl in Hk.
    change (emit (c :: t) s) with (emit t (emit [c] s)). apply IH; [by apply locked_emit|by rewrite emit_strings|lia]. }
  erewrite <-(with_lock_ret _ tt t s Hs).
  - do 2 (apply bind_ext; [done|]; intros ? ?). unfold mbind, st_bind. destruct (release_console _ _ _) as [[[] ?]|]; done.
  - intros s1 Hl E. exists tt. apply Hloop; [done|by rewrite E, Hm|lia].
Qed.

(** ** Sizes *)

Lemma scale_ok n : 0 ≤ n → ∃ q k, scale n = Ok (q, k) ∧ 0 ≤ k ≤ 4 ∧ q = n / 1024 ^ k ∧
  (q < 1024 ∨ k = 4) ∧ (0 < k → 1 ≤ q).
Proof.
  intros Hn. unfold scale.
  destruct (loop_rule (λ j '(q, k), j = Z.to_nat (4 - k) ∧ 0 ≤ k ≤ 4 ∧ q = n / 1024 ^ k ∧ (0 < k → 1 ≤ q))
    (λ '(q, k), 0 ≤ k ≤ 4 ∧ q = n / 1024 ^ k ∧ (q < 1024 ∨ k = 4) ∧ (0 < k → 1 ≤ q))
    (λ '(size, fp), if (size >=? 1024) && (fp + 1 <? Z.of_nat (length factors)) then Ok (inl (size / 1024, fp + 1))
      else Ok (inr (size, fp)))) with (fuel := 5%nat) (n := 4%nat) (l := (n, 0)) as ([q k] & E & H).
  - intros j [q k] (-> & Hk & -> & H1). change (Z.of_nat (length factors)) with 5.
    destruct (Z.geb_spec (n / 1024 ^ k) 1024) as [Hq|Hq]; [destruct (Z.ltb_spec (k + 1) 5)|]; simpl; eexists; (split; [done|]); simpl.
    + exists (Z.to_nat (4 - (k + 1))). split; [lia|]. split_and!; [done|lia|lia| |intros _; dlia].
      rewrite Z.div_div, Z.pow_add_r by lia. done.
    + split_and!; [lia..|done|right; lia|done].
    + split_and!; [lia..|done|left; lia|done].
  - split_and!; [done|lia..| |lia]. by rewrite Z.div_1_r.
  - lia.
  - by exists q, k.
Qed.

Lemma to_digits_fuel k bs v : (length (to_digits k bs v) ≤ k)%nat.
Proof. revert v. induction k as [|k IH]; intros v; simpl; [lia|]. destruct (v >? 0); [|simpl; lia]. rewrite length_app. specialize (IH (v / bs)). simpl. lia. Qed.

Definition plain_opts : opts := mk_opts false false false false false false 0 None.
Definition decimal_of (v : Z) : list Z := int_text plain_opts base_d v [].

Lemma decimal_of_length v : (length (decimal_of v) ≤ 64)%nat.
Proof.
  unfold decimal_of, int_text. cbn [left zero plain_opts]. unfold pad, int_prefix, int_body. cbn [alt prec plain_opts o_width grp andb].
  unfold numeral. pose proof (to_digits_fuel 64 (base base_d) v).
  rewrite !length_app, !length_replicate, length_fmap. cbn [length]. lia.
Qed.

Lemma conv_dir_ok ty c : conv_char c → dir_ok (mk_dir [] (WNum []) PNone ty c).
Proof. intros Hc. split; simpl; [constructor|split; [by split; [constructor|]|done]|done|done]. Qed.

(** "1 byte", or the size in the largest unit that leaves at least one. *)
Lemma human_readable_says m unit_ptr n :
  0 ≤ n < 2 ^ 64 → (∀ k f, factors !! k = Some f → cstr m (unit_ptr (Z.of_nat k)) f) →
  ∃ r t, says m (print_human_readable_size intr_context cur unit_ptr n) t r ∧
    (n = 1 → t = str "1 byte") ∧
    (n ≠ 1 → ∃ k f, factors !! k = Some f ∧ t = decimal_of (n / 1024 ^ Z.of_nat k) ++ str " " ++ f ∧
       (n / 1024 ^ Z.of_nat k < 1024 ∨ k = 4%nat) ∧ ((0 < k)%nat → 1 ≤ n / 1024 ^ Z.of_nat k)).
Proof.
  intros Hn Hu. unfold print_human_readable_size. destruct (Z.eqb_spec n 1) as [->|N1].
  { eexists _, (str "1 byte"). split; [|done]. apply (says_text m (str "1 byte")); [|done]. by repeat (constructor; [done|]). }
  destruct (scale_ok n) as (q & k & E & Hk & Hq & Hlt & Hge); [lia|].
  destruct (lookup_lt_is_Some_2 factors (Z.to_nat k)) as [f Hf]; [simpl; lia|].
  pose proof (Hu _ _ Hf) as Hc. rewrite Z2Nat.id in Hc by lia.
  assert (0 ≤ q < 2 ^ 64) as Hqr.
  { assert (0 < 1024 ^ k) by (apply Z.pow_pos_nonneg; lia). subst q. split; [by apply Z.div_pos; lia|].
    apply Z.div_lt_upper_bound; nia. }
  assert (length f < 6)%nat as Hlf by (apply list_elem_of_lookup_2 in Hf; unfold factors in Hf; set_unfold in Hf; destruct_or!; subst; simpl; lia).
  set (ps := [Conv (mk_dir [] (WNum []) PNone LONGLONG (chr "u")) (VInt q); Text (chr " ");
              Conv (mk_dir [] (WNum []) PNone INT (chr "s")) (VStr (unit_ptr k) f)]).
  assert (text_of ps = decimal_of q ++ str " " ++ f) as Et.
  { change (text_of ps) with (decimal_of q ++ str " " ++ (replicate (Z.to_nat (0 - Z.of_nat (length f))) (chr " ") ++ f) ++ []).
    replace (Z.to_nat (0 - Z.of_nat (length f))) with 0%nat by lia. by rewrite app_nil_r. }
  eexists _, (text_of ps). split; [|split; [done|]].
  - eapply says_lift; [done|]. cbn [fst snd]. replace (lit _) with (format_of ps) by done.
    replace [_; _; _] with (args_of ps) by done. apply says_printf.
    + constructor; [|constructor; [done|constructor; [|constructor]]].
      * split; [apply conv_dir_ok; split_and!; [done..|vm_compute; set_solver]|]. by split.
      * split; [apply conv_dir_ok; split_and!; [done..|vm_compute; set_solver]|].
        split; [done|]. split; [done|]. destruct Hc as [_ _ Hp]. unfold NULL. lia.
    + rewrite Et, !length_app. pose proof (decimal_of_length q). simpl. lia.
  - intros _. exists (Z.to_nat k), f. rewrite Z2Nat.id, <-Hq by lia. split_and!; [done..|destruct Hlt; [by left|right; lia]|intros; apply Hge; lia].
Qed.
End spec.

(** ** The properties *)

(** [s'] is [s] after printing [t]: the characters went to the devices in this
    order, and the lock and memory are as before. *)
Record printed (s : console) (t : list Z) (s' : console) : Prop := {
  pr_out : out s' = out s ++ t;
  pr_use : use_console_lock s' = use_console_lock s;
  pr_holder : holder s' = holder s;
  pr_depth : console_lock_depth s' = console_lock_depth s;
  pr_memory : strings s' = strings s;
  pr_count : 0 ≤ write_cnt s → write_cnt s + Z.of_nat (length t) < 2 ^ 63 → write_cnt s' = write_cnt s + Z.of_nat (length t)
}.

Lemma emit_count t s : 0 ≤ write_cnt s → write_cnt s + Z.of_nat (length t) < 2 ^ 63 → write_cnt (emit t s) = write_cnt s + Z.of_nat (length t).
Proof.
  revert s. induction t as [|c t IH]; intros s H0 Hl; simpl in *; [lia|]. rewrite s64_small by lia. rewrite IH; simpl; lia.
Qed.

Lemma emit_printed t s : printed s t (emit t s).
Proof. destruct (emit_fields t s) as (? & ? & ? & ? & ?). split; [done..|apply emit_count]. Qed.

Lemma says_printed {A} i cur m (f : ST console A) t a s :
  says i cur m f t a → console_ok i cur s → strings s = m → ∃ s', f s = Ok (a, s') ∧ printed s t s'.
Proof. intros Hf Hs Hm. exists (emit t s). split; [by apply Hf|apply emit_printed]. Qed.

(** Console output.  Whether the console lock is free, held by the calling
    thread to any depth, or not in use, printf prints the text of its format
    and returns its length, putchar prints its character, puts the string and a
    new line, and putbuf the bytes of the buffer, all without waiting; each
    leaves the lock as it was (releases what it took) and counts the
    characters. *)
Theorem console_output_correct i cur s :
  console_ok i cur s →
  (∀ ps, Forall (piece_ok (cstr (strings s))) ps → Z.of_nat (length (text_of ps)) < 2 ^ 31 →
     ∃ s', printf i cur (format_of ps) (args_of ps) s = Ok (Z.of_nat (length (text_of ps)), s') ∧ printed s (text_of ps) s') ∧
  (∀ c, ∃ s', putchar i cur c s = Ok (c, s') ∧ printed s [u8 c] s') ∧
  (∀ p t, cstr (strings s) p t → ∃ s', puts i cur p s = Ok (0, s') ∧ printed s (t ++ [10]) s') ∧
  (∀ p t, bytes_at (strings s) p t → ∃ s', putbuf i cur p (Z.of_nat (length t)) s = Ok (tt, s') ∧ printed s t s').
Proof.
  intros Hs. split_and!; intros; eapply says_printed; try done.
  - by apply says_printf.
  - apply putchar_says.
  - by apply puts_says.
  - by apply putbuf_says.
Qed.

(** [hex_dump] terminates and prints its bytes sixteen to a line, the lines
    broken where the address is a multiple of 16: the address, every byte of
    the buffer once in its column, and the printable characters. *)
Theorem hex_dump_correct i cur s ofs buf size ascii :
  console_ok i cur s → Forall byte buf → 0 ≤ ofs < 2 ^ 32 → 0 ≤ size ≤ Z.of_nat (length buf) →
  ∃ s', hex_dump i cur ofs buf size ascii s = Ok (tt, s') ∧
    printed s (dump_text (Z.to_nat size) ofs (take (Z.to_nat size) buf) ascii) s'.
Proof. intros Hs Hb Ho Hz. eapply says_printed; [by apply hex_dump_ok|done|done]. Qed.

(** ** A concrete console *)

(** Thread 1 holds the lock; "hi" is at address 100. *)
Definition demo_console : console := mk_console true (Some 1) 0 7 [] {[100 := chr "h"; 101 := chr "i"; 102 := 0]}.

Lemma demo_console_ok : console_ok false 1 demo_console.
Proof. right; right; right. by vm_compute. Qed.

Lemma console_output_correct_witness :
  ∃ s', printf false 1 (lit "%-5d|%#x") [u32 (-42); 255] demo_console = Ok (10, s') ∧ printed demo_console (str "-42  |0xff") s'.
Proof. apply (proj1 (console_output_correct false 1 demo_console demo_console_ok) demo); [apply demo_ok|by vm_compute]. Defined.

Lemma hex_dump_correct_witness :
  ∃ s', hex_dump false 1 14 [72; 105; 33; 10] 4 true demo_console = Ok (tt, s') ∧
    printed demo_console
      (str "00000000                                            48 69 |              Hi|" ++ [10] ++
       str "00000010  21 0a                                           |!.              |" ++ [10]) s'.
Proof.
  apply (hex_dump_correct false 1 demo_console 14 [72; 105; 33; 10] 4 true);
    [apply demo_console_ok|by repeat (constructor; [done|])|lia|simpl; lia].
Defined.
