(* ===== verification/Ustar.v ===== *)
(** * Archive headers: lib/ustar.c

    A header is 512 bytes in a memory of bytes, and the functions work on it
    through the library functions of [CString] and [Stdio].  [L] gives the
    addresses of the string literals.  The message for a name that is too long
    goes to the console and is left out. *)

From Stdlib Require Import Ascii.
From Stdlib Require String.
From S2P Require Import Prelude StdlibC CString Stdio.
Import String.StringSyntax.

Definition USTAR_REGULAR : Z := chr "0".
Definition USTAR_DIRECTORY : Z := chr "5".
Definition USTAR_EOF : Z := -1.
Definition USTAR_HEADER_SIZE : Z := 512.

(** The offsets and sizes of the fields of [struct ustar_header]. *)
Definition f_name : Z * Z := (0, 100).
Definition f_mode : Z * Z := (100, 8).
Definition f_uid : Z * Z := (108, 8).
Definition f_gid : Z * Z := (116, 8).
Definition f_size : Z * Z := (124, 12).
Definition f_mtime : Z * Z := (136, 12).
Definition f_chksum : Z * Z := (148, 8).
Definition f_typeflag : Z * Z := (156, 1).
Definition f_linkname : Z * Z := (157, 100).
Definition f_magic : Z * Z := (257, 6).
Definition f_version : Z * Z := (263, 2).
Definition f_uname : Z * Z := (265, 32).
Definition f_gname : Z * Z := (297, 32).
Definition f_devmajor : Z * Z := (329, 8).
Definition f_devminor : Z * Z := (337, 8).
Definition f_prefix : Z * Z := (345, 155).
Definition f_padding : Z * Z := (500, 12).

Section ustar.
Variable L : list Z → Z.

Definition calculate_chksum (h : Z) : ST mem Z :=
  loopM 513 (λ '(i, chksum),
    if i <? USTAR_HEADER_SIZE then
      let chksum_start := fst f_chksum in
      let chksum_end := chksum_start + snd f_chksum in
      let in_chksum_field := (chksum_start <=? i) && (i <? chksum_end) in
      x ← (if in_chksum_field then mret (chr " ") else ld (h + i));
      mret (inl (i + 1, u32 (chksum + x)))
    else mret (inr chksum)) (0, 0).

Definition strip_antisocial_prefixes (file_name : Z) : ST mem Z :=
  m ← get;
  file_name ← loopM (str_fuel m) (λ file_name,
    c ← ld file_name;
    antisocial ← (if c =? chr "/" then mret true
                  else
                    r ← memcmp file_name (L (str "./")) 2;
                    if r =? 0 then mret true
                    else r ← memcmp file_name (L (str "../")) 3; mret (r =? 0));
    if (antisocial : bool) then slash ← strchr file_name (chr "/"); mret (inl (slash + 1))
    else mret (inr file_name)) file_name;
  c ← ld file_name;
  if c =? 0 then mret (L (str "."))
  else r ← strcmp file_name (L (str "..")); mret (if r =? 0 then L (str ".") else file_name).

(** The modes are 0644 and 0755. *)
Definition ustar_make_header (file_name type size h : Z) : ST mem bool :=
  assert ((type =? USTAR_REGULAR) || (type =? USTAR_DIRECTORY));;
  file_name ← strip_antisocial_prefixes file_name;
  n ← strlen file_name;
  if n >? 99 then mret false
  else
    memset h 0 USTAR_HEADER_SIZE;;
    strlcpy (h + fst f_name) file_name (snd f_name);;
    snprintf (h + fst f_mode) (snd f_mode) (lit "%07o") [if type =? USTAR_REGULAR then 420 else 493];;
    strlcpy (h + fst f_uid) (L (str "0000000")) (snd f_uid);;
    strlcpy (h + fst f_gid) (L (str "0000000")) (snd f_gid);;
    snprintf (h + fst f_size) (snd f_size) (lit "%011o") [u32 size];;
    snprintf (h + fst f_mtime) (snd f_size) (lit "%011o") [1136102400];;
    st (h + fst f_typeflag) (u8 type);;
    strlcpy (h + fst f_magic) (L (str "ustar")) (snd f_magic);;
    st (h + fst f_version + 1) (chr "0");;
    st (h + fst f_version) (chr "0");;
    strlcpy (h + fst f_gname) (L (str "root")) (snd f_gname);;
    strlcpy (h + fst f_uname) (L (str "root")) (snd f_uname);;
    chksum ← calculate_chksum h;
    snprintf (h + fst f_chksum) (snd f_chksum) (lit "%07o") [chksum];;
    mret true.

(** [Some value], or [None] for the result false. *)
Definition parse_octal_field (s size : Z) : ST mem (option Z) :=
  loopM (S (Z.to_nat size)) (λ '(ofs, value),
    if ofs <? size then
      c ← ld (s + ofs);
      if (chr "0" <=? c) && (c <=? chr "7") then
        if value >? (2 ^ 32 - 1) / 8 then mret (inr None)
        else mret (inl (ofs + 1, u32 (c - chr "0" + value * 8)))
      else if (c =? chr " ") || (c =? 0) then mret (inr (if ofs >? 0 then Some value else None))
      else mret (inr None)
    else mret (inr None)) (0, 0).

Definition is_all_zeros (block cnt : Z) : ST mem bool :=
  loopM (S (Z.to_nat cnt)) (λ '(block, cnt),
    if cnt >? 0 then c ← ld block; if negb (c =? 0) then mret (inr false) else mret (inl (block + 1, cnt - 1))
    else mret (inr true)) (block, cnt).

(** The error message, or the file name, the type and the size. *)
Definition ustar_parse_header (h : Z) : ST mem (list Z + Z * Z * Z) :=
  zeros ← is_all_zeros h USTAR_HEADER_SIZE;
  if (zeros : bool) then mret (inr (NULL, USTAR_EOF, 0))
  else
    r ← memcmp (h + fst f_magic) (L (str "ustar")) 6;
    if negb (r =? 0) then mret (inl (str "not a ustar archive"))
    else
    v0 ← ld (h + fst f_version);
    bad ← (if negb (v0 =? chr "0") then mret true else v1 ← ld (h + fst f_version + 1); mret (negb (v1 =? chr "0")));
    if (bad : bool) then mret (inl (str "invalid ustar version"))
    else
    field ← parse_octal_field (h + fst f_chksum) (snd f_chksum);
    match field with
    | None => mret (inl (str "corrupt chksum field"))
    | Some chksum =>
        sum ← calculate_chksum h;
        if negb (chksum =? sum) then mret (inl (str "checksum mismatch"))
        else
        last ← ld (h + fst f_name + snd f_name - 1);
        bad ← (if negb (last =? 0) then mret true else c ← ld (h + fst f_prefix); mret (negb (c =? 0)));
        if (bad : bool) then mret (inl (str "file name too long"))
        else
        typeflag ← ld (h + fst f_typeflag);
        if negb (typeflag =? USTAR_REGULAR) && negb (typeflag =? USTAR_DIRECTORY) then
          mret (inl (str "unimplemented file type"))
        else
        size ← (if typeflag =? USTAR_REGULAR then
                  field ← parse_octal_field (h + fst f_size) (snd f_size);
                  match field with
                  | None => mret (inl (str "corrupt file size field"))
                  | Some size => if size >? 2 ^ 31 - 1 then mret (inl (str "file too large")) else mret (inr size)
                  end
                else mret (inr 0));
        match size with
        | inl message => mret (inl message)
        | inr size => file_name ← strip_antisocial_prefixes (h + fst f_name); mret (inr (file_name, typeflag, size))
        end
    end.
End ustar.
