(* ===== verification/UstarSpec.v ===== *)
(** * Archive headers: what is written can be read back safely

    Names are stripped of prefixes that lead out of the directory of the
    archive, a header that [ustar_make_header] wrote is parsed to the name, type
    and size it was made from, and parsing any 512 bytes returns: an error, or a
    harmless name and a size in range. *)

From Stdlib Require Import Ascii.
From Stdlib Require String.
From S2P Require Import Prelude StdlibC CString Stdio StdioSpec StdioFormat Ustar.
Import String.StringSyntax.

(** ** Names *)

Definition antisocial (t : list Z) : bool :=
  bool_decide (str "/" `prefix_of` t) || bool_decide (str "./" `prefix_of` t) || bool_decide (str "../" `prefix_of` t).

Definition behind_slash (t : list Z) : list Z :=
  match index_of (chr "/") t with Some i => drop (S i) t | None => [] end.

Fixpoint strip_loop (n : nat) (t : list Z) : list Z :=
  match n with
  | O => t
  | S n => if antisocial t then strip_loop n (behind_slash t) else t
  end.

Definition safe_name (t : list Z) : list Z :=
  let t := strip_loop (length t) t in
  if bool_decide (t = [] ∨ t = str "..") then str "." else t.

Lemma antisocial_slash t : antisocial t = true → chr "/" ∈ t.
Proof.
  unfold antisocial. rewrite !orb_true_iff, !bool_decide_eq_true.
  intros [[[k ->]|[k ->]]|[k ->]]; rewrite elem_of_app; left; vm_compute; set_solver.
Qed.

Lemma antisocial_cons t : antisocial t = true → t ≠ [].
Proof. intros H%antisocial_slash ->. by apply elem_of_nil in H. Qed.

Lemma behind_slash_length t : t ≠ [] → (length (behind_slash t) < length t)%nat.
Proof.
  intros Ht. unfold behind_slash. destruct t; [done|]. destruct (index_of _ _); [rewrite length_drop|]; simpl; lia.
Qed.

Lemma strip_loop_ok n : ∀ t, (length t ≤ n)%nat → antisocial (strip_loop n t) = false.
Proof.
  induction n as [|n IH]; intros t Hn; simpl.
  - by destruct t; [|simpl in Hn; lia].
  - destruct (antisocial t) eqn:E; [|done]. apply IH. pose proof (behind_slash_length t (antisocial_cons _ E)). lia.
Qed.

(** The stripped name does not lead out of the directory at its start. *)
Lemma safe_name_ok t : antisocial (safe_name t) = false ∧ safe_name t ≠ [] ∧ safe_name t ≠ str "..".
Proof.
  unfold safe_name. case_bool_decide as H; [by vm_compute|]. split; [by apply strip_loop_ok|]. tauto.
Qed.

Lemma strip_loop_safe n t : antisocial t = false → strip_loop n t = t.
Proof. intros H. destruct n; [done|]. simpl. by rewrite H. Qed.

Lemma safe_name_idemp t : safe_name (safe_name t) = safe_name t.
Proof.
  destruct (safe_name_ok t) as (H1 & H2 & H3). unfold safe_name at 1. rewrite strip_loop_safe by done.
  rewrite bool_decide_eq_false_2; [done|]. tauto.
Qed.

(** ** Memory with the literals *)

Definition literals : list (list Z) :=
  [str "./"; str "../"; str "."; str ".."; str "0000000"; str "ustar"; str "root"].

Lemma literals_in s : bool_decide (s ∈ literals) = true → s ∈ literals.
Proof. apply bool_decide_eq_true. Qed.

Section spec.
Variable L : list Z → Z.

Definition lits (m : mem) : Prop := ∀ s, s ∈ literals → cstr m (L s) s.

(** Comparing the start of a string with another one. *)
Lemma memcmp_prefix m p q t s :
  cstr m p t → cstr m q s →
  ∃ r, memcmp p q (Z.of_nat (length s)) m = Ok (r, m) ∧ (r =? 0) = bool_decide (s `prefix_of` t).
Proof.
  intros Hp Hq. unfold memcmp. pose proof (cs_null _ _ _ Hp). pose proof (cs_null _ _ _ Hq).
  do 2 (erewrite bind_ok by (apply assert_ok; by rewrite (proj2 (Z.eqb_neq _ _)) by (unfold NULL; lia))).
  rewrite Nat2Z.id. assert (∀ n p q t, n = length s → cstr m p t → cstr m q s → ∃ r,
    loopM (S n) (λ '(a, b, size),
      if size >? 0 then
        x ← ld a; y ← ld b;
        if negb (x =? y) then mret (inr (if x >? y then 1 else -1))
        else mret (inl (a + 1, b + 1, size - 1))
      else mret (inr 0)) (p, q, Z.of_nat (length s)) m = Ok (r, m) ∧ (r =? 0) = bool_decide (s `prefix_of` t)) as Hg.
  2: by apply Hg.
  clear -s. induction s as [|c s IH]; intros n p q t -> Hp Hq; rewrite loopM_unfold.
  - exists 0. split; [done|]. by rewrite bool_decide_eq_true_2 by apply prefix_nil.
  - cbn [length]. destruct (Z.gtb_spec (Z.of_nat (S (length s))) 0); [|lia].
    pose proof (cstr_head _ _ _ Hp) as Ep. pose proof (cstr_head _ _ _ Hq) as Eq. simpl in Eq.
    erewrite bind_ok by by apply ld_ok. erewrite bind_ok by by apply ld_ok.
    pose proof (cs_chars _ _ _ Hq) as [Hc _]%Forall_cons.
    destruct (Z.eqb_spec (List.hd 0 t) c) as [E|N]; cbn [negb mret st_ret].
    + destruct t as [|c' t]; simpl in E; [lia|]. subst c'.
      replace (Z.of_nat (S (length s)) - 1) with (Z.of_nat (length s)) by lia.
      destruct (IH (length s) (p + 1) (q + 1) t) as (r & E1 & E2); [done|by eapply cstr_tail..|].
      exists r. split; [done|]. rewrite E2. apply bool_decide_ext. split; [apply prefix_cons|apply prefix_cons_inv_2].
    + eexists. split; [done|]. rewrite bool_decide_eq_false_2.
      * by destruct (_ >? _).
      * intros [k ->]. by apply N.
Qed.

Lemma strchr_slash m p t : cstr m p t → chr "/" ∈ t →
  ∃ q, strchr p (chr "/") m = Ok (q, m) ∧ cstr m (q + 1) (behind_slash t) ∧ p ≤ q ∧
    q + 1 + Z.of_nat (length (behind_slash t)) = p + Z.of_nat (length t).
Proof.
  intros Hc Hin. rewrite (strchr_ok m p t) by done. unfold strchr_result, behind_slash.
  change (u8 (chr "/")) with (chr "/").
  destruct (index_of_Some _ _ Hin) as (i & Ei & Hi & Hni).
  assert (index_of (chr "/") (t ++ [0]) = Some i) as ->.
  { clear -Ei. revert i Ei. induction t as [|x t IH]; intros i Ei; [done|]. simpl in *.
    destruct (x =? chr "/"); [done|]. destruct (index_of _ t); [|done]. by rewrite (IH n eq_refl). }
  rewrite Ei. eexists. split; [done|]. pose proof (lookup_lt_Some _ _ _ Hi) as Hl. rewrite length_drop. split; [|lia].
  replace (p + Z.of_nat i + 1) with (p + Z.of_nat (length (take (S i) t))) by (rewrite length_take; lia).
  apply cstr_suffix. by rewrite take_drop.
Qed.

Lemma antisocial_test m p t : lits m → cstr m p t →
  (if List.hd 0 t =? chr "/" then mret true
   else
     r ← memcmp p (L (str "./")) 2;
     if r =? 0 then mret true
     else r ← memcmp p (L (str "../")) 3; mret (r =? 0)) m = Ok (antisocial t, m).
Proof.
  intros HL Ht.
  destruct (memcmp_prefix m p _ t (str "./") Ht (HL (str "./") ltac:(unfold literals; set_solver))) as (r1 & E1 & B1).
  destruct (memcmp_prefix m p _ t (str "../") Ht (HL (str "../") ltac:(unfold literals; set_solver))) as (r2 & E2 & B2).
  unfold antisocial. destruct (Z.eqb_spec (List.hd 0 t) (chr "/")) as [E|N].
  - destruct t as [|c t]; [done|]. simpl in E. subst c. rewrite bool_decide_eq_true_2; [done|by exists t].
  - rewrite (bool_decide_eq_false_2 (str "/" `prefix_of` t)) by (intros [k ->]; by apply N). cbn [orb].
    erewrite bind_ok by exact E1. rewrite B1. destruct (bool_decide _); [done|].
    erewrite bind_ok by exact E2. by rewrite B2.
Qed.

Lemma strip_ok m p t : lits m → cstr m p t →
  ∃ q, strip_antisocial_prefixes L p m = Ok (q, m) ∧ cstr m q (safe_name t) ∧
    ((q = L (str ".") ∧ safe_name t = str ".") ∨ (p ≤ q ∧ q + Z.of_nat (length (safe_name t)) = p + Z.of_nat (length t))).
Proof.
  intros HL Ht. unfold strip_antisocial_prefixes. erewrite bind_ok by apply get_ok.
  match goal with |- context [loopM _ ?f _] => set (body := f) end.
  assert (∀ n fuel p t, cstr m p t → (length t ≤ n)%nat → (length t < fuel)%nat →
    ∃ q, loopM fuel body p m = Ok (q, m) ∧ cstr m q (strip_loop n t) ∧ p ≤ q ∧
      q + Z.of_nat (length (strip_loop n t)) = p + Z.of_nat (length t)) as Hloop.
  { clear p t Ht. intros n. induction n as [|n IH]; intros [|fuel] p t Ht Hn Hf; [lia| |lia|]; rewrite loopM_unfold; unfold body at 1;
      (erewrite bind_ok by (apply ld_ok; by eapply cstr_head)).
    all: erewrite bind_ok by by apply antisocial_test.
    - destruct t; [|simpl in Hn; lia]. exists p. done.
    - simpl. destruct (antisocial t) eqn:Ea; [|exists p; split_and!; [done..|lia]].
      destruct (strchr_slash m p t Ht (antisocial_slash t Ea)) as (q & Eq & Hq & Hpq & Hl).
      erewrite bind_ok by exact Eq. cbn [mret st_ret].
      pose proof (behind_slash_length t (antisocial_cons _ Ea)).
      destruct (IH fuel (q + 1) (behind_slash t) Hq) as (q' & E' & Hq' & Hp' & Hl'); [lia|lia|].
      exists q'. split_and!; [done|done|lia|lia]. }
  destruct (Hloop (length t) (str_fuel m) p t Ht) as (q & E & Hq & Hpq & Hl); [lia|by eapply cstr_fuel|].
  erewrite bind_ok by exact E. erewrite bind_ok by (apply ld_ok; by eapply cstr_head).
  unfold safe_name. set (u := strip_loop (length t) t) in *.
  assert (cstr m (L (str ".")) (str ".")) as Hdot by (apply HL; unfold literals; set_solver).
  assert (cstr m (L (str "..")) (str "..")) as Hdd by (apply HL; unfold literals; set_solver).
  destruct (decide (u = [])) as [->|Nu].
  { rewrite bool_decide_eq_true_2 by auto. exists (L (str ".")). auto. }
  assert (List.hd 0 u ≠ 0) as Nz.
  { destruct u as [|c u]; [done|]. pose proof (cs_chars _ _ _ Hq) as [Hc _]%Forall_cons. simpl. lia. }
  rewrite (proj2 (Z.eqb_neq _ _) Nz). erewrite bind_ok by by apply strcmp_ok.
  destruct (decide (u = str "..")) as [Eu|Nd].
  - rewrite Eu. rewrite bool_decide_eq_true_2 by auto. rewrite (proj2 (lexcmp_eq _ _)) by done. exists (L (str ".")). auto.
  - rewrite bool_decide_eq_false_2 by tauto. rewrite (proj2 (Z.eqb_neq _ _)) by (by rewrite lexcmp_eq). exists q. auto.
Qed.

(** ** Reading a block *)

(** The bytes that the checksum adds up. *)
Definition summed (i : nat) (x : Z) : Z := if (148 <=? Z.of_nat i) && (Z.of_nat i <? 156) then chr " " else x.
Definition chksum_of (bs : list Z) : Z := foldr Z.add 0 (imap summed bs).

Definition is_byte (x : Z) : Prop := 0 ≤ x < 2 ^ 8.

Lemma sum_app l1 l2 : foldr Z.add 0 (l1 ++ l2) = foldr Z.add 0 l1 + foldr Z.add 0 l2.
Proof. induction l1; simpl; lia. Qed.

Lemma sum_bytes l : Forall is_byte l → 0 ≤ foldr Z.add 0 l ≤ 255 * Z.of_nat (length l).
Proof. unfold is_byte. induction 1; simpl; lia. Qed.

Lemma summed_bytes bs : Forall is_byte bs → Forall is_byte (imap summed bs).
Proof.
  intros Hb. apply Forall_lookup_2. intros i x. rewrite list_lookup_imap. intros (y & Hy & ->)%fmap_Some.
  apply (Forall_lookup_1 _ _ _ _ Hb) in Hy. unfold summed. destruct (_ && _); done.
Qed.

Lemma chksum_ok m h bs :
  bytes_at m h bs → Forall is_byte bs → length bs = 512%nat → calculate_chksum h m = Ok (chksum_of bs, m).
Proof.
  intros Hb Hby Hl. unfold calculate_chksum.
  destruct (loopM_rule (λ k '(i, sum) s, s = m ∧ 0 ≤ i ≤ 512 ∧ k = Z.to_nat (512 - i) ∧
      sum = foldr Z.add 0 (take (Z.to_nat i) (imap summed bs))) (λ sum s, s = m ∧ sum = chksum_of bs)
    (λ '(i, chksum), if i <? USTAR_HEADER_SIZE then
      let chksum_start := fst f_chksum in let chksum_end := chksum_start + snd f_chksum in
      let in_chksum_field := (chksum_start <=? i) && (i <? chksum_end) in
      x ← (if in_chksum_field then mret (chr " ") else ld (h + i)); mret (inl (i + 1, u32 (chksum + x)))
      else mret (inr chksum))) with (fuel := 513%nat) (n := 512%nat) (l := (0, 0)) (s := m) as (r & s' & E & -> & ->);
    [|by split_and!|lia|exact E].
  intros k [i sum] s (-> & Hi & -> & ->). unfold USTAR_HEADER_SIZE. destruct (Z.ltb_spec i 512) as [Hlt|Hge].
  - destruct (lookup_lt_is_Some_2 bs (Z.to_nat i)) as [x Hx]; [lia|]. pose proof (Hb _ _ Hx) as Hm. rewrite Z2Nat.id in Hm by lia.
    exists (inl (i + 1, u32 (foldr Z.add 0 (take (Z.to_nat i) (imap summed bs)) + summed (Z.to_nat i) x))), m. split.
    + unfold summed. rewrite Z2Nat.id by lia. cbn [fst snd f_chksum]. change (148 + 8) with 156.
      destruct (_ && _); [done|]. by erewrite bind_ok by by apply ld_ok.
    + exists (Z.to_nat (512 - (i + 1))). split_and!; [lia|done|lia|lia|done|].
      replace (Z.to_nat (i + 1)) with (S (Z.to_nat i)) by lia.
      assert (imap summed bs !! Z.to_nat i = Some (summed (Z.to_nat i) x)) as Hs by (by rewrite list_lookup_imap, Hx).
      rewrite (take_S_r _ _ _ Hs), sum_app. simpl. rewrite Z.add_0_r.
      pose proof (summed_bytes bs Hby) as Hsb.
      pose proof (sum_bytes (take (Z.to_nat i) (imap summed bs)) (Forall_take _ _ _ Hsb)) as Hr.
      pose proof (Forall_lookup_1 _ _ _ _ Hsb Hs) as Hxs. unfold is_byte in Hxs.
      rewrite length_take, length_imap, Hl in Hr. apply u32_small. lia.
  - eexists (inr _), m. split; [done|]. split; [done|]. unfold chksum_of. rewrite take_ge; [done|]. rewrite length_imap. lia.
Qed.

(** The value of an octal field. *)
Fixpoint octal_value (first : bool) (value : Z) (l : list Z) : option Z :=
  match l with
  | [] => None
  | c :: l =>
      if (chr "0" <=? c) && (c <=? chr "7") then
        if value >? (2 ^ 32 - 1) / 8 then None else octal_value false (c - chr "0" + value * 8) l
      else if (c =? chr " ") || (c =? 0) then if first then None else Some value
      else None
  end.

Lemma octal_range l : ∀ first value v, 0 ≤ value < 2 ^ 32 → octal_value first value l = Some v → 0 ≤ v < 2 ^ 32.
Proof.
  induction l as [|c l IH]; intros first value v Hv E; simpl in E; [done|].
  destruct (_ && _) eqn:Hd; [|destruct (_ || _); [|done]; destruct first; [done|]; by injection E as <-].
  destruct (Z.gtb_spec value ((2 ^ 32 - 1) / 8)); [done|]. apply IH in E; [done|].
  apply andb_true_iff in Hd as [H1%Z.leb_le H2%Z.leb_le]. change (chr "0") with 48 in *. change (chr "7") with 55 in *.
  change ((2 ^ 32 - 1) / 8) with 536870911 in *. lia.
Qed.

Lemma octal_ok m s l : bytes_at m s l → parse_octal_field s (Z.of_nat (length l)) m = Ok (octal_value true 0 l, m).
Proof.
  intros Hb. unfold parse_octal_field. rewrite Nat2Z.id. set (size := Z.of_nat (length l)).
  assert (∀ r k ofs value, bytes_at m (s + ofs) r → 0 ≤ ofs → ofs + Z.of_nat (length r) = size → (length r < k)%nat → 0 ≤ value < 2 ^ 32 →
    loopM k (λ '(ofs, value),
      if ofs <? size then
        c ← ld (s + ofs);
        if (chr "0" <=? c) && (c <=? chr "7") then
          if value >? (2 ^ 32 - 1) / 8 then mret (inr None)
          else mret (inl (ofs + 1, u32 (c - chr "0" + value * 8)))
        else if (c =? chr " ") || (c =? 0) then mret (inr (if ofs >? 0 then Some value else None))
        else mret (inr None)
      else mret (inr None)) (ofs, value) m = Ok (octal_value (ofs =? 0) value r, m)) as H.
  { clear Hb. induction r as [|c r IH]; intros [|k] ofs value Hb Hofs Hl Hk Hv; [simpl in Hk; lia| |simpl in Hk; lia|]; rewrite loopM_unfold; simpl in Hl, Hk.
    - destruct (Z.ltb_spec ofs size); [lia|done].
    - destruct (Z.ltb_spec ofs size); [|lia]. apply bytes_at_cons in Hb as [Hc Hb].
      erewrite bind_ok by by apply ld_ok. cbn [octal_value]. destruct ((chr "0" <=? c) && (c <=? chr "7")) eqn:Hd.
      + destruct (Z.gtb_spec value ((2 ^ 32 - 1) / 8)); [done|]. cbn [mret st_ret].
        apply andb_true_iff in Hd as [H1%Z.leb_le H2%Z.leb_le]. change (chr "0") with 48 in *. change (chr "7") with 55 in *.
        change ((2 ^ 32 - 1) / 8) with 536870911 in *. rewrite u32_small by lia.
        rewrite IH; [|by rewrite Z.add_assoc|lia|lia|lia|lia]. by rewrite (proj2 (Z.eqb_neq (ofs + 1) 0)) by lia.
      + destruct (_ || _); [|done]. destruct (Z.gtb_spec ofs 0), (Z.eqb_spec ofs 0); (done || lia). }
  apply (H l _ 0 0); [by rewrite Z.add_0_r|lia|lia|lia|lia].
Qed.

Lemma zeros_ok m p l : bytes_at m p l →
  is_all_zeros p (Z.of_nat (length l)) m = Ok (bool_decide (Forall (λ x, x = 0) l), m).
Proof.
  intros Hb. unfold is_all_zeros. rewrite Nat2Z.id. revert p Hb.
  induction l as [|c l IH]; intros p Hb; rewrite loopM_unfold; [done|].
  apply bytes_at_cons in Hb as [Hc Hb]. cbn [length]. destruct (Z.gtb_spec (Z.of_nat (S (length l))) 0); [|lia].
  erewrite bind_ok by by apply ld_ok. destruct (Z.eqb_spec c 0) as [->|N]; cbn [negb mret st_ret].
  - replace (Z.of_nat (S (length l)) - 1) with (Z.of_nat (length l)) by lia. rewrite IH by done. do 2 f_equal.
    apply bool_decide_ext. rewrite Forall_cons. tauto.
  - rewrite bool_decide_eq_false_2; [done|]. by intros [? _]%Forall_cons.
Qed.

(** The string at the start of a list of bytes. *)
Definition until_null (l : list Z) : list Z :=
  match index_of 0 l with Some i => take i l | None => l end.

Lemma until_null_ok m p l : bytes_at m p l → Forall is_byte l → 0 ∈ l → 0 < p → cstr m p (until_null l).
Proof.
  intros Hb Hby Hin Hp. unfold until_null. destruct (index_of_Some _ _ Hin) as (i & -> & Hi & Hni). split; [| |done].
  - rewrite <-(take_drop_middle l i 0 Hi) in Hb. change (0 :: drop (S i) l) with ([0] ++ drop (S i) l) in Hb.
    rewrite app_assoc in Hb. by apply bytes_at_app in Hb as [? _].
  - apply Forall_lookup_2. intros j x Hx. assert (x ≠ 0) by (intros ->; apply Hni; by eapply list_elem_of_lookup_2).
    apply (Forall_take _ i) in Hby. apply (Forall_lookup_1 _ _ _ _ Hby) in Hx. unfold is_byte in Hx. lia.
Qed.

(** ** The format *)

(** The bytes of a field. *)
Definition field (bs : list Z) (f : Z * Z) : list Z := take (Z.to_nat (snd f)) (drop (Z.to_nat (fst f)) bs).

(** What a block means: an error, or the name (none at the end of the archive),
    the type and the size. *)
Definition parse_block (bs : list Z) : list Z + option (list Z) * Z * Z :=
  if bool_decide (Forall (λ x, x = 0) bs) then inr (None, USTAR_EOF, 0)
  else if negb (bool_decide (field bs f_magic = lit "ustar")) then inl (str "not a ustar archive")
  else if negb (bool_decide (field bs f_version = str "00")) then inl (str "invalid ustar version")
  else match octal_value true 0 (field bs f_chksum) with
  | None => inl (str "corrupt chksum field")
  | Some chksum =>
      if negb (chksum =? chksum_of bs) then inl (str "checksum mismatch")
      else if negb (bool_decide (bs !! 99%nat = Some 0)) || negb (bool_decide (bs !! 345%nat = Some 0)) then inl (str "file name too long")
      else
        let name := safe_name (until_null (field bs f_name)) in
        if bool_decide (bs !! 156%nat = Some USTAR_REGULAR) then
          match octal_value true 0 (field bs f_size) with
          | None => inl (str "corrupt file size field")
          | Some size => if size >? 2 ^ 31 - 1 then inl (str "file too large") else inr (Some name, USTAR_REGULAR, size)
          end
        else if bool_decide (bs !! 156%nat = Some USTAR_DIRECTORY) then inr (Some name, USTAR_DIRECTORY, 0)
        else inl (str "unimplemented file type")
  end.

(** The result of the C function for a result of [parse_block]. *)
Definition parsed (m : mem) (r : list Z + option (list Z) * Z * Z) (r' : list Z + Z * Z * Z) : Prop :=
  match r, r' with
  | inl e, inl e' => e = e'
  | inr (Some name, type, size), inr (p, type', size') => cstr m p name ∧ type = type' ∧ size = size'
  | inr (None, type, size), inr (p, type', size') => p = NULL ∧ type = type' ∧ size = size'
  | _, _ => False
  end.

Section block.
Variables (m : mem) (h : Z) (bs : list Z).
Hypothesis HL : lits m.
Hypothesis Hbs : bytes_at m h bs.
Hypothesis Hbytes : Forall is_byte bs.
Hypothesis Hlen : length bs = 512%nat.
Hypothesis Hh : 0 < h.

Lemma field_bytes f : 0 ≤ fst f → bytes_at m (h + fst f) (field bs f).
Proof.
  intros H0 i x Hx. unfold field in Hx. apply lookup_take_Some in Hx as [Hx _]. rewrite lookup_drop in Hx.
  apply Hbs in Hx. by replace (h + fst f + Z.of_nat i) with (h + Z.of_nat (Z.to_nat (fst f) + i)) by lia.
Qed.

Lemma field_length f : 0 ≤ fst f → 0 ≤ snd f → fst f + snd f ≤ 512 → Z.of_nat (length (field bs f)) = snd f.
Proof. intros. unfold field. rewrite length_take, length_drop. lia. Qed.

Lemma block_byte i : 0 ≤ i < 512 → ∃ x, bs !! Z.to_nat i = Some x ∧ m !! (h + i) = Some x.
Proof.
  intros Hi. destruct (lookup_lt_is_Some_2 bs (Z.to_nat i)) as [x Hx]; [lia|]. exists x. split; [done|].
  apply Hbs in Hx. by rewrite Z2Nat.id in Hx by lia.
Qed.

(** Comparing a byte in memory. *)
Lemma byte_test i c x : bs !! Z.to_nat i = Some x → (x =? c) = bool_decide (bs !! Z.to_nat i = Some c).
Proof.
  intros ->. destruct (Z.eqb_spec x c) as [->|N]; [by rewrite bool_decide_eq_true_2|].
  rewrite bool_decide_eq_false_2; [done|congruence].
Qed.

Lemma octal_field_ok f : 0 ≤ fst f → 0 ≤ snd f → fst f + snd f ≤ 512 →
  parse_octal_field (h + fst f) (snd f) m = Ok (octal_value true 0 (field bs f), m).
Proof. intros. rewrite <-(field_length f) at 1 by done. apply octal_ok. by apply field_bytes. Qed.

Lemma version_ok :
  ∃ x0 x1, m !! (h + 263) = Some x0 ∧ m !! (h + 264) = Some x1 ∧
    (negb (x0 =? chr "0") || negb (x1 =? chr "0")) = negb (bool_decide (field bs f_version = str "00")).
Proof.
  destruct (block_byte 263) as (x0 & E0 & M0); [lia|]. destruct (block_byte 264) as (x1 & E1 & M1); [lia|].
  exists x0, x1. split; [done|]. split; [done|]. rewrite <-negb_andb. f_equal.
  assert (field bs f_version = [x0; x1]) as ->.
  { unfold field. simpl fst. simpl snd. erewrite drop_S by exact E0. by erewrite drop_S by exact E1. }
  change (str "00") with [chr "0"; chr "0"]. destruct (Z.eqb_spec x0 (chr "0")) as [->|N0]; simpl.
  - destruct (Z.eqb_spec x1 (chr "0")) as [->|N1]; [by rewrite bool_decide_eq_true_2|]. rewrite bool_decide_eq_false_2; [done|congruence].
  - rewrite bool_decide_eq_false_2; [done|congruence].
Qed.

Lemma magic_ok : ∃ r, memcmp (h + 257) (L (str "ustar")) 6 m = Ok (r, m) ∧ (r =? 0) = bool_decide (field bs f_magic = lit "ustar").
Proof.
  assert (cstr m (L (str "ustar")) (str "ustar")) as [Hm _ Hp] by (apply HL; unfold literals; set_solver).
  pose proof (field_length f_magic ltac:(done) ltac:(done) ltac:(done)) as Hl. simpl in Hl.
  pose proof (memcmp_ok m (field bs f_magic) (h + 257) (L (str "ustar")) (lit "ustar")) as E.
  rewrite Hl in E. eexists. split.
  - apply E; [|by apply (field_bytes f_magic)|exact Hm|lia|done]. change (length (lit "ustar")) with 6%nat. lia.
  - destruct (Z.eqb_spec (lexcmp (field bs f_magic) (lit "ustar")) 0) as [E0|N].
    + apply lexcmp_eq in E0. by rewrite bool_decide_eq_true_2.
    + rewrite lexcmp_eq in N. by rewrite bool_decide_eq_false_2.
Qed.

Lemma name_ok : bs !! 99%nat = Some 0 → cstr m h (until_null (field bs f_name)).
Proof.
  intros H99. apply until_null_ok; [|by apply Forall_take, Forall_drop| |done].
  - pose proof (field_bytes f_name ltac:(done)) as H. simpl in H. by rewrite Z.add_0_r in H.
  - apply (list_elem_of_lookup_2 _ 99). unfold field. by rewrite lookup_take_lt, lookup_drop by (simpl; lia).
Qed.

Lemma parse_header_ok : ∃ r, ustar_parse_header L h m = Ok (r, m) ∧ parsed m (parse_block bs) r.
Proof.
  unfold ustar_parse_header, parse_block. pose proof (zeros_ok m h bs Hbs) as Hz. rewrite Hlen in Hz.
  erewrite bind_ok by exact Hz. case_bool_decide as Hall; [by eexists|].
  destruct magic_ok as (r & Er & Br). erewrite bind_ok by exact Er. rewrite Br.
  case_bool_decide; [|by eexists]. cbn [negb].
  destruct version_ok as (x0 & x1 & M0 & M1 & Bv). erewrite bind_ok by by apply ld_ok.
  erewrite (bind_ok _ _ _ (negb (x0 =? chr "0") || negb (x1 =? chr "0"))); cycle 1.
  { destruct (negb (x0 =? chr "0")); [done|]. cbn [fst f_version]. replace (h + 263 + 1) with (h + 264) by lia.
    by erewrite bind_ok by by apply ld_ok. }
  rewrite Bv. case_bool_decide; [|by eexists]. cbn [negb].
  erewrite bind_ok by by apply octal_field_ok. destruct (octal_value true 0 (field bs f_chksum)) as [chksum|]; [|by eexists].
  erewrite bind_ok by by apply chksum_ok. destruct (chksum =? chksum_of bs); [|by eexists]. cbn [negb].
  destruct (block_byte 99) as (x2 & E2 & M2); [lia|]. destruct (block_byte 345) as (x3 & E3 & M3); [lia|].
  destruct (block_byte 156) as (x4 & E4 & M4); [lia|].
  erewrite bind_ok by (apply ld_ok; by replace (h + fst f_name + snd f_name - 1) with (h + 99) by (simpl; lia)).
  change (bs !! 99%nat) with (bs !! Z.to_nat 99). change (bs !! 345%nat) with (bs !! Z.to_nat 345).
  change (bs !! 156%nat) with (bs !! Z.to_nat 156).
  rewrite <-(byte_test 99 0 _ E2), <-(byte_test 345 0 _ E3), <-(byte_test 156 USTAR_REGULAR _ E4), <-(byte_test 156 USTAR_DIRECTORY _ E4).
  erewrite (bind_ok _ _ _ (negb (x2 =? 0) || negb (x3 =? 0))); cycle 1.
  { destruct (negb (x2 =? 0)); [done|]. by erewrite bind_ok by by apply ld_ok. }
  destruct (Z.eqb_spec x2 0) as [->|]; [|by eexists]. destruct (x3 =? 0); [|by eexists]. cbn [negb orb].
  erewrite bind_ok by by apply ld_ok.
  destruct (strip_ok m h (until_null (field bs f_name)) HL (name_ok E2)) as (q & Eq & Hq & _).
  destruct (Z.eqb_spec x4 USTAR_REGULAR) as [->|N4]; cbn [negb andb].
  - rewrite bind_assoc. erewrite bind_ok by by apply octal_field_ok.
    destruct (octal_value true 0 (field bs f_size)) as [size|]; [|erewrite bind_ok by done; by eexists].
    destruct (size >? 2 ^ 31 - 1); (erewrite bind_ok by done); [by eexists|]. cbn [fst f_name]. rewrite Z.add_0_r.
    erewrite bind_ok by exact Eq. by eexists.
  - destruct (Z.eqb_spec x4 USTAR_DIRECTORY) as [->|]; cbn [negb]; [|by eexists].
    erewrite bind_ok by done. cbn [fst f_name]. rewrite Z.add_0_r. erewrite bind_ok by exact Eq. by eexists.
Qed.
End block.

(** ** Writing *)

Lemma memset_stored m p n :
  0 < p → 0 ≤ n → mapped m p n → ∃ m', memset p 0 n m = Ok (p, m') ∧ stored m m' p (replicate (Z.to_nat n) 0).
Proof.
  intros Hp Hn Hm. unfold memset.
  erewrite bind_ok by (apply assert_ok; by rewrite (proj2 (Z.eqb_neq _ _)) by (unfold NULL; lia)).
  change (u8 0) with 0.
  destruct (loopM_rule (λ k '(d, r) s, k = Z.to_nat r ∧ 0 ≤ r ≤ n ∧ d = p + (n - r) ∧ stored m s p (replicate (Z.to_nat (n - r)) 0))
    (λ _ s, stored m s p (replicate (Z.to_nat n) 0))
    (λ '(dst, size), if size >? 0 then st dst 0;; mret (inl (dst + 1, size - 1)) else mret (inr tt)))
    with (fuel := S (Z.to_nat n)) (n := Z.to_nat n) (l := (p, n)) (s := m) as ([] & m' & E & Hs).
  - intros k [d r] s (-> & Hr & -> & Hs). destruct (Z.gtb_spec r 0) as [Hpos|Hz].
    + assert (is_Some (s !! (p + (n - r)))) by (eapply stored_mapped; [done|apply Hm; lia]).
      erewrite bind_ok by by apply st_ok. eexists (inl _), _. split; [done|]. exists (Z.to_nat (r - 1)).
      split_and!; [lia|done|lia|lia|lia|]. replace (Z.to_nat (n - (r - 1))) with (Z.to_nat (n - r) + 1)%nat by lia.
      rewrite replicate_add. replace (p + (n - r)) with (p + Z.of_nat (length (replicate (Z.to_nat (n - r)) 0))) by (rewrite length_replicate; lia).
      by apply stored_snoc.
    + eexists (inr tt), s. split; [done|]. by replace (n - r) with n in Hs by lia.
  - split_and!; [done|lia|lia|lia|]. rewrite Z.sub_diag. apply stored_nil.
  - lia.
  - exists m'. split; [by erewrite bind_ok|done].
Qed.

Lemma bytes_stored m m' p l :
  bytes_at m' p l → (∀ a, a < p ∨ p + Z.of_nat (length l) ≤ a → m' !! a = m !! a) → stored m m' p l.
Proof.
  intros Hb Hf a. case_decide as Ha; [|apply Hf; lia].
  destruct (lookup_lt_is_Some_2 l (Z.to_nat (a - p))) as [x Hx]; [lia|]. rewrite Hx. apply Hb in Hx.
  by replace (p + Z.of_nat (Z.to_nat (a - p))) with a in Hx by lia.
Qed.

(** A string that fits. *)
Lemma strlcpy_stored m dst src size s :
  cstr m src s → 0 < dst → Z.of_nat (length s) < size → mapped m dst size →
  (dst + size ≤ src ∨ src + Z.of_nat (length s) < dst) →
  ∃ m', strlcpy dst src size m = Ok (Z.of_nat (length s), m') ∧ stored m m' dst (s ++ [0]).
Proof.
  intros Hs Hd Hl Hm Hov. unfold strlcpy.
  erewrite bind_ok by (apply assert_ok; by rewrite (proj2 (Z.eqb_neq _ _)) by (unfold NULL; lia)).
  erewrite bind_ok by (by eapply nonnull_ok). erewrite bind_ok by (by apply strlen_ok).
  destruct (Z.gtb_spec size 0); [|lia]. cbv zeta.
  assert ((if Z.of_nat (length s) <? size - 1 then Z.of_nat (length s) else size - 1) = Z.of_nat (length s)) as ->
    by (destruct (Z.ltb_spec (Z.of_nat (length s)) (size - 1)); lia).
  destruct (copy_terminate m dst src s (length s)) as (m' & E & [Hb _ _] & Hf); [done|done|lia|intros a Ha; apply Hm; lia|lia|].
  erewrite bind_ok by exact E. exists m'. split; [done|]. rewrite take_ge in Hb by lia. apply bytes_stored; [done|].
  intros a Ha. rewrite length_app in Ha. simpl in Ha. apply Hf. lia.
Qed.

(** Octal numbers. *)
Definition octal_opts (n : Z) : opts := mk_opts false true false false false false n None.
Definition octal_text (n : nat) (v : Z) : list Z := int_text (octal_opts (Z.of_nat n)) base_o v [].

Lemma octal_text_digits n v : (0 < n ≤ 64)%nat → 0 ≤ v < 8 ^ Z.of_nat n →
  ∃ ds, octal_text n v = digit_chars ds ∧ length ds = n ∧ Forall (λ d, 0 ≤ d < 8) ds ∧ digits_value 8 ds = v.
Proof.
  intros Hn Hv. set (D := to_digits 64 8 v). pose proof (to_digits_length 64 8 ltac:(done) n v Hv) as Hl.
  assert (numeral base_o false v = digit_chars D) as HD.
  { unfold numeral, digit_chars. apply list_fmap_ext. intros i d Hi.
    pose proof (Forall_lookup_1 _ _ _ _ (to_digits_range 64 8 v ltac:(done)) Hi) as Hd. simpl in Hd.
    assert (d ∈ [0; 1; 2; 3; 4; 5; 6; 7]) as H by (rewrite !elem_of_cons; lia).
    rewrite !elem_of_cons, elem_of_nil in H. destruct_or!; by subst. }
  assert (8 ^ Z.of_nat n ≤ 8 ^ Z.of_nat 64) by (apply Z.pow_le_mono_r; lia).
  exists (replicate (n - length D) 0 ++ D). unfold octal_text, int_text. cbn [left zero octal_opts].
  unfold int_prefix. cbn [alt octal_opts andb app]. unfold pad, int_body. cbn [alt prec octal_opts o_width grp andb].
  split_and!.
  - rewrite HD. unfold digit_chars. rewrite !length_app, !length_fmap, length_replicate, fmap_app, fmap_replicate, app_assoc, <-replicate_add. f_equal.
    change (0 + 48) with (chr "0"). f_equal. fold D in Hl. lia.
  - rewrite length_app, length_replicate. fold D in Hl. lia.
  - apply Forall_app. split; [apply Forall_replicate; lia|by apply to_digits_range].
  - rewrite digits_value_zeros. apply to_digits_value; [done|lia].
Qed.

Lemma octal_text_length n v : (0 < n ≤ 64)%nat → 0 ≤ v < 8 ^ Z.of_nat n → length (octal_text n v) = n.
Proof. intros Hn Hv. destruct (octal_text_digits n v Hn Hv) as (ds & -> & Hl & _). unfold digit_chars. by rewrite length_fmap. Qed.

Lemma octal_value_digits ds : ∀ first a,
  Forall (λ d, 0 ≤ d < 8) ds → 0 ≤ a → foldl (λ a d, 8 * a + d) a ds < 2 ^ 32 → (first = true → ds ≠ []) →
  octal_value first a (digit_chars ds ++ [0]) = Some (foldl (λ a d, 8 * a + d) a ds).
Proof.
  assert (∀ ds a, Forall (λ d, 0 ≤ d < 8) ds → 0 ≤ a → a ≤ foldl (λ a d, 8 * a + d) a ds) as Hmono.
  { clear. induction ds as [|d ds IH]; intros a Hd Ha; simpl; [lia|]. apply Forall_cons in Hd as [Hd Hds].
    specialize (IH (8 * a + d) Hds ltac:(lia)). lia. }
  induction ds as [|d ds IH]; intros first a Hd Ha Hv Hf; simpl.
  - destruct first; [by destruct Hf|]. done.
  - apply Forall_cons in Hd as [Hd Hds]. change (chr "0") with 48. change (chr "7") with 55.
    rewrite (proj2 (Z.leb_le 48 (d + 48))), (proj2 (Z.leb_le (d + 48) 55)) by lia. cbn [andb].
    simpl in Hv. pose proof (Hmono ds (8 * a + d) Hds ltac:(lia)).
    destruct (Z.gtb_spec a ((2 ^ 32 - 1) / 8)); [change ((2 ^ 32 - 1) / 8) with 536870911 in *; lia|]. replace (d + 48 - 48 + a * 8) with (8 * a + d) by lia. by apply IH; [| lia|..].
Qed.

Lemma octal_roundtrip n v : (0 < n ≤ 64)%nat → 0 ≤ v < 8 ^ Z.of_nat n → v < 2 ^ 32 →
  octal_value true 0 (octal_text n v ++ [0]) = Some v.
Proof.
  intros Hn Hv H32. destruct (octal_text_digits n v Hn Hv) as (ds & -> & Hl & Hd & <-).
  apply octal_value_digits; [done|lia|done|]. intros _ ->. simpl in Hl. lia.
Qed.

Definition octal_dir (w : list Z) : directive := mk_dir [chr "0"] (WNum w) PNone INT (chr "o").

Lemma snprintf_octal m p w n v :
  (w, n) ∈ [([7], 7%nat); ([1; 1], 11%nat)] → 0 ≤ v < 8 ^ Z.of_nat n → v < 2 ^ 32 → mapped m p (Z.of_nat n + 1) →
  ∃ r m', snprintf p (Z.of_nat n + 1) (format_of [Conv (octal_dir w) (VInt v)]) [v] m = Ok (r, m') ∧
    stored m m' p (octal_text n v ++ [0]).
Proof.
  intros Hw Hv H32 Hm.
  assert (dir_ok (octal_dir w) ∧ decimal w = Z.of_nat n ∧ (0 < n ≤ 64)%nat) as (Hd & Ew & Hn).
  { rewrite !elem_of_cons, elem_of_nil in Hw. destruct Hw as [[= -> ->]|[[= -> ->]|[]]];
      (split; [|split; [done|lia]]); (split; simpl; [constructor; [by eexists|constructor]| |done|]);
      [split; [split; [repeat constructor; lia|done]|done]|split_and!; [done..|vm_compute; set_solver]
      |split; [split; [repeat constructor; lia|done]|done]|split_and!; [done..|vm_compute; set_solver]]. }
  set (ps := [Conv (octal_dir w) (VInt v)]).
  assert (text_of ps = octal_text n v) as Et.
  { change (text_of ps) with (int_text (octal_opts (decimal w)) base_o v [] ++ []). by rewrite Ew, app_nil_r. }
  assert (args_of ps = [v]) as Ea by (unfold args_of, ps; simpl; by rewrite u32_small by lia).
  pose proof (octal_text_length n v Hn Hv) as Hl.
  destruct (vsnprintf_ok m p (Z.of_nat n + 1) ltac:(lia) Hm ps) as (m' & E & Hs).
  - constructor; [|constructor]. split; [done|]. split; [|done]. split; [done|]. simpl. lia.
  - rewrite Et, Hl. lia.
  - rewrite Ea in E. exists (Z.of_nat (length (text_of ps))), m'. split; [exact E|].
    destruct (Z.gtb_spec (Z.of_nat n + 1) 0); [|lia]. by rewrite Et, take_ge in Hs by lia.
Qed.

(** ** The fields of a header in memory *)

Definition sizes : list nat := [100; 8; 8; 8; 12; 12; 8; 1; 100; 6; 1; 1; 32; 32; 8; 8; 155; 12]%nat.
Definition offset (k : nat) : nat := sum_list (take k sizes).

(** [m] is [m0] with a header of the fields [F] at [h]. *)
Definition header (m0 m : mem) (h : Z) (F : list (list Z)) : Prop :=
  stored m0 m h (concat F) ∧ length <$> F = sizes.

Lemma length_concat (F : list (list Z)) : length (concat F) = sum_list (length <$> F).
Proof. induction F as [|f F IH]; [done|]. simpl. rewrite length_app. by rewrite IH. Qed.

(** Writing the start of a field. *)
Definition write_field (k : nat) (l : list Z) (F : list (list Z)) : list (list Z) :=
  <[k := l ++ drop (length l) (F !!! k)]> F.

Lemma stored_field m0 m m' h F k l :
  header m0 m h F → (k < 18)%nat → (length l ≤ sizes !!! k)%nat → stored m m' (h + Z.of_nat (offset k)) l →
  header m0 m' h (write_field k l F).
Proof.
  intros [Hm HF] Hk Hl Hs. assert (length F = 18%nat) as Hl18 by (by rewrite <-(length_fmap length F), HF).
  destruct (lookup_lt_is_Some_2 F k) as [f Hf]; [lia|].
  assert (sizes !!! k = length f) as Hsz.
  { apply list_lookup_total_correct. by rewrite <-HF, list_lookup_fmap, Hf. }
  assert (F !!! k = f) as Ef by by apply list_lookup_total_correct. rewrite Hsz in Hl.
  unfold write_field. rewrite Ef. split.
  - assert (offset k = length (concat (take k F))) as Ho by (unfold offset; by rewrite length_concat, <-HF, fmap_take).
    rewrite <-(take_drop_middle F k f Hf) in Hm. rewrite insert_take_drop by lia.
    rewrite concat_app in Hm |- *. simpl in Hm |- *. intros a. rewrite Hs.
    set (A := concat (take k F)) in *. set (C := concat (drop (S k) F)) in *. rewrite Ho.
    rewrite !length_app, length_drop. rewrite Hm, !length_app.
    replace (length l + (length f - length l))%nat with (length f) by lia.
    destruct (decide (h + Z.of_nat (length A) ≤ a < h + Z.of_nat (length A) + Z.of_nat (length l))).
    + rewrite decide_True by lia. rewrite lookup_app_r by lia. rewrite <-app_assoc, lookup_app_l by lia. f_equal. lia.
    + destruct (decide (h ≤ a < h + Z.of_nat (length A + (length f + length C)))); [|done].
      destruct (decide (Z.to_nat (a - h) < length A)%nat); [by rewrite !(lookup_app_l A) by lia|].
      rewrite !(lookup_app_r A) by lia. rewrite <-app_assoc, (lookup_app_r l) by lia.
      destruct (decide (Z.to_nat (a - h) - length A < length f)%nat).
      * rewrite (lookup_app_l f), (lookup_app_l (drop _ _)) by (rewrite ?length_drop; lia). rewrite lookup_drop. f_equal. lia.
      * rewrite (lookup_app_r f), (lookup_app_r (drop _ _)) by (rewrite ?length_drop; lia). rewrite length_drop. f_equal. lia.
  - rewrite list_fmap_insert, length_app, length_drop, HF. apply list_insert_id.
    replace (length l + (length f - length l))%nat with (length f) by lia. by rewrite <-HF, list_lookup_fmap, Hf.
Qed.

(** A field filled up with null bytes. *)
Definition pad_to (n : nat) (l : list Z) : list Z := l ++ replicate (n - length l) 0.

Definition mode_of (type : Z) : Z := if type =? USTAR_REGULAR then 420 else 493.

(** The fields of the header for a name, type and size, with a checksum field. *)
Definition made_fields (name : list Z) (type size : Z) (chksum : list Z) : list (list Z) :=
  [pad_to 100 (name ++ [0]); pad_to 8 (octal_text 7 (mode_of type) ++ [0]); pad_to 8 (lit "0000000"); pad_to 8 (lit "0000000");
   pad_to 12 (octal_text 11 size ++ [0]); pad_to 12 (octal_text 11 1136102400 ++ [0]); chksum; pad_to 1 [type];
   replicate 100 0; pad_to 6 (lit "ustar"); pad_to 1 [chr "0"]; pad_to 1 [chr "0"]; pad_to 32 (lit "root"); pad_to 32 (lit "root");
   replicate 8 0; replicate 8 0; replicate 155 0; replicate 12 0].

Definition made_chksum (name : list Z) (type size : Z) : Z := chksum_of (concat (made_fields name type size (replicate 8 0))).

Definition made_header (name : list Z) (type size : Z) : list (list Z) :=
  made_fields name type size (octal_text 7 (made_chksum name type size) ++ [0]).

Section make.
Variables (m0 : mem) (h : Z).
Hypothesis Hh : 0 < h.
Hypothesis Hmap : mapped m0 h 512.
Hypothesis Hlits : ∀ s, s ∈ literals → away m0 h 512 (L s) s.

Lemma header_mapped m F k : header m0 m h F → (k < 18)%nat → mapped m (h + Z.of_nat (offset k)) (Z.of_nat (sizes !!! k)).
Proof.
  intros [Hs _] Hk a Ha. eapply stored_mapped; [done|]. apply Hmap.
  assert (offset k + sizes !!! k ≤ 512)%nat; [|lia]. clear -Hk. unfold offset, sizes.
  do 18 (destruct k as [|k]; [vm_compute; lia|]). lia.
Qed.

Lemma header_cstr m F p t : header m0 m h F → away m0 h 512 p t → cstr m p t.
Proof.
  intros [Hs HF] [[Hb Hc Hn] Hd]. split; [|done..]. eapply bytes_at_frame; [|exact Hb].
  intros a Ha. rewrite length_app in Ha. simpl in Ha. rewrite Hs, decide_False; [done|].
  rewrite length_concat, HF. change (sum_list sizes) with 512%nat. lia.
Qed.

(** Writing a field that is still clear. *)
Lemma fill_field m m' F k l :
  header m0 m h F → (k < 18)%nat → F !!! k = replicate (sizes !!! k) 0 → (length l ≤ sizes !!! k)%nat →
  stored m m' (h + Z.of_nat (offset k)) l → header m0 m' h (<[k := pad_to (sizes !!! k) l]> F).
Proof.
  intros HF Hk Hz Hl Hs. pose proof (stored_field m0 m m' h F k l HF Hk Hl Hs) as H.
  unfold write_field in H. by rewrite Hz, drop_replicate in H.
Qed.

Lemma fill_strlcpy m F k src s :
  header m0 m h F → (k < 18)%nat → F !!! k = replicate (sizes !!! k) 0 → away m0 h 512 src s → (length s < sizes !!! k)%nat →
  ∃ r m', strlcpy (h + Z.of_nat (offset k)) src (Z.of_nat (sizes !!! k)) m = Ok (r, m') ∧
    header m0 m' h (<[k := pad_to (sizes !!! k) (s ++ [0])]> F).
Proof.
  intros HF Hk Hz Hs Hl. pose proof (header_mapped m F k HF Hk) as Hm.
  assert (offset k + sizes !!! k ≤ 512)%nat as Ho.
  { clear -Hk. unfold offset, sizes. do 18 (destruct k as [|k]; [vm_compute; lia|]). lia. }
  destruct (strlcpy_stored m (h + Z.of_nat (offset k)) src (Z.of_nat (sizes !!! k)) s) as (m' & E & Hst);
    [by eapply header_cstr|lia|lia|done|destruct Hs as [_ Hs]; lia|].
  eexists _, m'. split; [exact E|]. eapply fill_field; [done..| |done]. rewrite length_app. simpl. lia.
Qed.

Lemma fill_octal m F k w n v :
  header m0 m h F → (k < 18)%nat → F !!! k = replicate (sizes !!! k) 0 → (w, n) ∈ [([7], 7%nat); ([1; 1], 11%nat)] →
  sizes !!! k = S n → 0 ≤ v < 8 ^ Z.of_nat n → v < 2 ^ 32 →
  ∃ r m', snprintf (h + Z.of_nat (offset k)) (Z.of_nat (sizes !!! k)) (format_of [Conv (octal_dir w) (VInt v)]) [v] m = Ok (r, m') ∧
    header m0 m' h (<[k := pad_to (sizes !!! k) (octal_text n v ++ [0])]> F).
Proof.
  intros HF Hk Hz Hw Hn Hv H32. pose proof (header_mapped m F k HF Hk) as Hm. rewrite Hn in Hm.
  destruct (snprintf_octal m (h + Z.of_nat (offset k)) w n v Hw Hv H32) as (r & m' & E & Hs); [by replace (Z.of_nat n + 1) with (Z.of_nat (S n)) by lia|].
  exists r, m'. split; [rewrite Hn; by replace (Z.of_nat (S n)) with (Z.of_nat n + 1) by lia|]. eapply fill_field; [done..| |done].
  rewrite Hn, length_app, octal_text_length; [simpl; lia| |done].
  rewrite !elem_of_cons, elem_of_nil in Hw. destruct Hw as [[= -> ->]|[[= -> ->]|[]]]; lia.
Qed.

Lemma fill_byte m F k x :
  header m0 m h F → (k < 18)%nat → F !!! k = replicate (sizes !!! k) 0 → sizes !!! k = 1%nat →
  ∃ m', st (h + Z.of_nat (offset k)) x m = Ok (tt, m') ∧ header m0 m' h (<[k := pad_to (sizes !!! k) [x]]> F).
Proof.
  intros HF Hk Hz H1. pose proof (header_mapped m F k HF Hk) as Hm. rewrite H1 in Hm.
  eexists. split; [apply st_ok, Hm; lia|]. eapply fill_field; [done..|simpl; lia|].
  pose proof (stored_snoc m m (h + Z.of_nat (offset k)) [] x (stored_nil _ _)) as H. simpl in H. by rewrite Z.add_0_r in H.
Qed.

Lemma pad_bytes_ok n l : Forall is_byte l → Forall is_byte (pad_to n l).
Proof. intros Hl. apply Forall_app. split; [done|]. by apply Forall_replicate. Qed.

Lemma octal_text_bytes n v : (0 < n ≤ 64)%nat → 0 ≤ v < 8 ^ Z.of_nat n → Forall is_byte (octal_text n v ++ [0]).
Proof.
  intros Hn Hv. destruct (octal_text_digits n v Hn Hv) as (ds & -> & _ & Hd & _). apply Forall_app. split; [|by repeat constructor].
  apply Forall_fmap. eapply Forall_impl; [exact Hd|]. unfold is_byte. simpl. lia.
Qed.

Lemma made_bytes name type size chk :
  Forall is_byte name → is_byte type → 0 ≤ size < 2 ^ 31 → Forall is_byte chk →
  Forall is_byte (concat (made_fields name type size chk)).
Proof.
  intros Hn Ht Hs Hc. apply Forall_concat.
  assert (∀ l, Forall is_byte l → ∀ n, Forall is_byte (pad_to n l)) as Hp by (intros; by apply pad_bytes_ok).
  assert (∀ n, Forall is_byte (replicate n 0)) as Hr by (intros; by apply Forall_replicate).
  assert (0 ≤ mode_of type < 8 ^ Z.of_nat 7) as Hm by (unfold mode_of; destruct (_ =? _); done).
  assert (0 ≤ size < 8 ^ Z.of_nat 11) as Hs' by (change (8 ^ Z.of_nat 11) with (2 ^ 33); lia).
  repeat first [apply Forall_nil_2 | apply Forall_cons; split]; try apply Hr; try done; apply Hp;
    first [by apply octal_text_bytes; [lia|] | by repeat (constructor; [done|]) | idtac].
  apply Forall_app. split; [done|]. by repeat constructor.
Qed.

Lemma made_sizes name type size chk :
  (length name ≤ 99)%nat → 0 ≤ size < 2 ^ 31 → length chk = 8%nat → length <$> made_fields name type size chk = sizes.
Proof.
  intros Hn Hs Hc. assert (∀ l n, (length l ≤ n)%nat → length (pad_to n l) = n) as Hp.
  { intros l n Hl. unfold pad_to. rewrite length_app, length_replicate. lia. }
  assert (0 ≤ mode_of type < 8 ^ Z.of_nat 7) as Hm by (unfold mode_of; destruct (_ =? _); done).
  assert (0 ≤ size < 8 ^ Z.of_nat 11) as Hs' by (change (8 ^ Z.of_nat 11) with (2 ^ 33); lia).
  unfold made_fields. rewrite !fmap_cons, Hc. rewrite !Hp; [done|..];
    rewrite ?length_app, ?octal_text_length; simpl; try lia; done.
Qed.

Lemma make_header_ok p t type size :
  away m0 h 512 p t → type = USTAR_REGULAR ∨ type = USTAR_DIRECTORY → 0 ≤ size < 2 ^ 31 →
  if decide (length (safe_name t) ≤ 99)%nat
  then ∃ m', ustar_make_header L p type size h m0 = Ok (true, m') ∧ header m0 m' h (made_header (safe_name t) type size)
  else ustar_make_header L p type size h m0 = Ok (false, m0).
Proof.
  intros Hp Ht Hsize. unfold ustar_make_header.
  assert (lits m0) as HL by (intros s Hs; apply Hlits, Hs).
  erewrite bind_ok by (apply assert_ok; destruct Ht as [-> | ->]; done).
  destruct (strip_ok m0 p t HL (proj1 Hp)) as (q & Eq & Hq & Hpos). erewrite bind_ok by exact Eq.
  erewrite bind_ok by by apply strlen_ok. set (name := safe_name t) in *.
  case_decide as Hlen; destruct (Z.gtb_spec (Z.of_nat (length name)) 99); [lia| |done|lia].
  assert (away m0 h 512 q name) as Haway.
  { destruct Hpos as [[-> ->]|[H1 H2]]; [|split; [done|]; destruct Hp as [_ Hp]; lia].
    apply Hlits. unfold literals. set_solver. }
  destruct (memset_stored m0 h 512 Hh ltac:(done) Hmap) as (m1 & E1 & H1). erewrite bind_ok by exact E1.
  assert (header m0 m1 h ((λ n, replicate n 0) <$> sizes)) as HF by (by split; [|vm_compute]).
  assert (away m0 h 512 (L (str "0000000")) (str "0000000") ∧ away m0 h 512 (L (str "ustar")) (str "ustar") ∧
    away m0 h 512 (L (str "root")) (str "root")) as (A1 & A2 & A3) by (split_and!; apply Hlits, literals_in; reflexivity).
  assert (0 ≤ mode_of type < 8 ^ Z.of_nat 7 ∧ mode_of type < 2 ^ 32) as [Hm Hm'] by (unfold mode_of; destruct (_ =? _); done).
  assert (0 ≤ size < 8 ^ Z.of_nat 11) as Hs' by (change (8 ^ Z.of_nat 11) with (2 ^ 33); lia).
  assert (is_byte type) as Htb by (destruct Ht as [-> | ->]; done).
  destruct (fill_strlcpy m1 _ 0 q name HF) as (r2 & m2 & E2 & H2); [lia|reflexivity|done|simpl; lia|].
  destruct (fill_octal m2 _ 1 [7] 7 (mode_of type) H2) as (r3 & m3 & E3 & H3); [lia|reflexivity|by left|done|done|done|].
  destruct (fill_strlcpy m3 _ 2 (L (str "0000000")) (str "0000000") H3) as (r4 & m4 & E4 & H4); [lia|reflexivity|done|apply Nat.ltb_lt; reflexivity|].
  destruct (fill_strlcpy m4 _ 3 (L (str "0000000")) (str "0000000") H4) as (r5 & m5 & E5 & H5); [lia|reflexivity|done|apply Nat.ltb_lt; reflexivity|].
  destruct (fill_octal m5 _ 4 [1; 1] 11 size H5) as (r6 & m6 & E6 & H6); [lia|reflexivity|by right; left|done|done|lia|].
  destruct (fill_octal m6 _ 5 [1; 1] 11 1136102400 H6) as (r7 & m7 & E7 & H7); [lia|reflexivity|by right; left|done|done|done|].
  destruct (fill_byte m7 _ 7 type H7) as (m8 & E8 & H8); [lia|reflexivity|done|].
  destruct (fill_strlcpy m8 _ 9 (L (str "ustar")) (str "ustar") H8) as (r9 & m9 & E9 & H9); [lia|reflexivity|done|apply Nat.ltb_lt; reflexivity|].
  destruct (fill_byte m9 _ 11 (chr "0") H9) as (m10 & E10 & H10); [lia|reflexivity|done|].
  destruct (fill_byte m10 _ 10 (chr "0") H10) as (m11 & E11 & H11); [lia|reflexivity|done|].
  destruct (fill_strlcpy m11 _ 13 (L (str "root")) (str "root") H11) as (r12 & m12 & E12 & H12); [lia|reflexivity|done|apply Nat.ltb_lt; reflexivity|].
  destruct (fill_strlcpy m12 _ 12 (L (str "root")) (str "root") H12) as (r13 & m13 & E13 & H13); [lia|reflexivity|done|apply Nat.ltb_lt; reflexivity|].
  change (header m0 m13 h (made_fields name type size (replicate 8 0))) in H13.
  clear H2 H3 H4 H5 H6 H7 H8 H9 H10 H11 H12.
  assert (Forall is_byte name) as Hnb by (eapply Forall_impl; [apply (cs_chars _ _ _ Hq)|unfold is_byte; simpl; lia]).
  set (bs := concat (made_fields name type size (replicate 8 0))).
  assert (Forall is_byte bs) as Hbs by (by apply made_bytes; [..|by apply Forall_replicate]).
  assert (length bs = 512%nat) as Hlb by (unfold bs; by rewrite length_concat, (proj2 H13)).
  assert (0 ≤ chksum_of bs < 8 ^ Z.of_nat 7) as Hck.
  { unfold chksum_of. pose proof (sum_bytes _ (summed_bytes bs Hbs)) as Hr. rewrite length_imap, Hlb in Hr.
    change (8 ^ Z.of_nat 7) with 2097152. lia. }
  destruct (fill_octal m13 _ 6 [7] 7 (chksum_of bs) H13) as (r15 & m15 & E15 & H15); [lia|reflexivity|by left|done|done|change (8 ^ Z.of_nat 7) with 2097152 in Hck; lia|].
  exists m15. split.
  - erewrite bind_ok by exact E2. erewrite bind_ok by exact E3. erewrite bind_ok by exact E4. erewrite bind_ok by exact E5.
    rewrite u32_small by lia. erewrite bind_ok by exact E6. erewrite bind_ok by exact E7.
    rewrite u8_small by exact Htb. erewrite bind_ok by exact E8. erewrite bind_ok by exact E9.
    replace (h + fst f_version + 1) with (h + Z.of_nat (offset 11)) by (cbn [fst f_version]; change (Z.of_nat (offset 11)) with 264; lia).
    erewrite bind_ok by exact E10. erewrite bind_ok by exact E11. erewrite bind_ok by exact E12. erewrite bind_ok by exact E13.
    erewrite bind_ok by (apply chksum_ok; [by eapply stored_bytes, H13|done|done]). by erewrite bind_ok by exact E15.
  - assert (pad_to 8 (octal_text 7 (chksum_of bs) ++ [0]) = octal_text 7 (chksum_of bs) ++ [0]) as Epad.
    { unfold pad_to. rewrite length_app, (octal_text_length 7 _ ltac:(lia) Hck). cbn [length Nat.add Nat.sub replicate]. apply app_nil_r. }
    unfold made_header, made_chksum. fold bs. rewrite <-Epad. exact H15.
Qed.
End make.
End spec.

(** ** Reading a header back *)

Lemma concat_split (F : list (list Z)) k : concat F = concat (take k F) ++ concat (drop k F).
Proof. by rewrite <-concat_app, take_drop. Qed.

Lemma offset_take (F : list (list Z)) k : length <$> F = sizes → length (concat (take k F)) = offset k.
Proof. intros HF. by rewrite length_concat, fmap_take, HF. Qed.

Lemma drop_offset (F : list (list Z)) k : length <$> F = sizes → drop (offset k) (concat F) = concat (drop k F).
Proof. intros HF. rewrite (concat_split F k), drop_app_length' by (symmetry; by apply offset_take). done. Qed.

Lemma field_concat (F : list (list Z)) k f : length <$> F = sizes → F !! k = Some f →
  take (sizes !!! k) (drop (offset k) (concat F)) = f.
Proof.
  intros HF Hk. rewrite drop_offset by done. rewrite (drop_S _ _ _ Hk). simpl.
  assert (sizes !!! k = length f) as ->; [|apply take_app_length].
  apply list_lookup_total_correct. by rewrite <-HF, list_lookup_fmap, Hk.
Qed.

Lemma lookup_field (F : list (list Z)) k f j x : length <$> F = sizes → F !! k = Some f → f !! j = Some x → concat F !! (offset k + j)%nat = Some x.
Proof.
  intros HF Hk Hj. rewrite <-lookup_drop, drop_offset, (drop_S _ _ _ Hk) by done. simpl. by apply lookup_app_l_Some.
Qed.

(** The checksum does not depend on its own field. *)
Lemma summed_field l : length l = 8%nat → imap (summed ∘ Nat.add 148) l = replicate 8 (chr " ").
Proof. intros Hl. do 8 (destruct l as [|? l]; [done|]). by destruct l. Qed.

Lemma chksum_masked A l l' C : length A = 148%nat → length l = 8%nat → length l' = 8%nat →
  chksum_of (A ++ l ++ C) = chksum_of (A ++ l' ++ C).
Proof.
  intros HA Hl Hl'. unfold chksum_of. rewrite !imap_app, HA. f_equal. f_equal. by rewrite !(summed_field _), Hl, Hl'.
Qed.

Lemma chksum_insert bs i x y : bs !! i = Some y → summed i x = x → summed i y = y →
  chksum_of (<[i := x]> bs) = chksum_of bs + x - y.
Proof.
  intros Hi Hx Hy. unfold chksum_of. pose proof (lookup_lt_Some _ _ _ Hi) as Hl.
  rewrite insert_take_drop by done. rewrite <-(take_drop_middle bs i y Hi) at 3.
  rewrite !imap_app, !sum_app, !imap_cons. simpl. rewrite length_take, Nat.min_l by lia.
  change ((summed ∘ Nat.add i) 0%nat x) with (summed (i + 0) x). change ((summed ∘ Nat.add i) 0%nat y) with (summed (i + 0) y).
  rewrite Nat.add_0_r, Hx, Hy. lia.
Qed.

Lemma until_null_pad n l : 0 ∉ l → until_null (pad_to n (l ++ [0])) = l.
Proof.
  intros Hl. unfold until_null, pad_to. rewrite <-app_assoc.
  assert (index_of 0 (l ++ [0] ++ replicate (n - length (l ++ [0])) 0) = Some (length l)) as ->.
  { generalize (replicate (n - length (l ++ [0])) 0) as r. intros r. clear n.
    induction l as [|x l IH]; [done|]. apply not_elem_of_cons in Hl as [Nx Hl]. simpl.
    rewrite (proj2 (Z.eqb_neq x 0)) by done. simpl in IH. by rewrite IH. }
  by rewrite take_app_length.
Qed.

Section roundtrip.
Variables (name : list Z) (type size : Z).
Hypothesis Hname : (length name ≤ 99)%nat.
Hypothesis Hchars : Forall (λ c, 0 < c < 256) name.
Hypothesis Hsafe : safe_name name = name.
Hypothesis Htype : type = USTAR_REGULAR ∨ type = USTAR_DIRECTORY.
Hypothesis Hsize : 0 ≤ size < 2 ^ 31.

Abbreviation block := (concat (made_header name type size)).

Lemma chksum_range : 0 ≤ made_chksum name type size < 8 ^ Z.of_nat 7.
Proof.
  assert (Forall is_byte (concat (made_fields name type size (replicate 8 0)))) as Hb.
  { apply made_bytes; [|by destruct Htype as [-> | ->]|done|by apply Forall_replicate].
    eapply Forall_impl; [exact Hchars|]. unfold is_byte. simpl. lia. }
  unfold made_chksum, chksum_of. pose proof (sum_bytes _ (summed_bytes _ Hb)) as Hr.
  rewrite length_imap, length_concat, made_sizes in Hr by (done || by rewrite length_replicate).
  change (sum_list sizes) with 512%nat in Hr. change (8 ^ Z.of_nat 7) with 2097152. lia.
Qed.

Lemma chksum_field_length : length (octal_text 7 (made_chksum name type size) ++ [0]) = 8%nat.
Proof. rewrite length_app, (octal_text_length 7 _ ltac:(lia) chksum_range). done. Qed.

Lemma block_sizes : length <$> made_header name type size = sizes.
Proof. apply made_sizes; [done..|apply chksum_field_length]. Qed.

Lemma block_chksum : chksum_of block = made_chksum name type size.
Proof.
  unfold made_chksum, made_header.
  assert (∀ chk, concat (made_fields name type size chk) = concat (take 6 (made_fields name type size chk)) ++ chk ++
    concat (drop 7 (made_fields name type size chk))) as H
    by (intros chk; exact (concat_split (made_fields name type size chk) 6)).
  rewrite (H (octal_text _ _ ++ _)), (H (replicate 8 0)). apply chksum_masked; [|apply chksum_field_length|done].
  exact (offset_take (made_header name type size) 6 block_sizes).
Qed.

Lemma block_field k f F : made_header name type size !! k = Some F → f = (Z.of_nat (offset k), Z.of_nat (sizes !!! k)) → field block f = F.
Proof. intros Hk ->. unfold field. cbn [fst snd]. rewrite !Nat2Z.id. by apply field_concat; [apply block_sizes|]. Qed.

Lemma parse_made : parse_block block = inr (Some name, type, if type =? USTAR_REGULAR then size else 0).
Proof.
  unfold parse_block. pose proof block_sizes as Hsz. pose proof chksum_range as Hr.
  rewrite bool_decide_eq_false_2; cycle 1.
  { rewrite Forall_forall. intros H. assert (chr "u" ∈ block) as Hu; [|by apply H in Hu].
    eapply list_elem_of_lookup_2. by apply (lookup_field (made_header name type size) 9 (lit "ustar") 0 (chr "u") Hsz). }
  rewrite (block_field 9 f_magic _ eq_refl eq_refl). change (pad_to 6 (lit "ustar")) with (lit "ustar").
  rewrite bool_decide_eq_true_2 by done. cbn [negb].
  assert (field block f_version = str "00") as ->.
  { unfold field. change (Z.to_nat (fst f_version)) with (offset 10). by rewrite drop_offset. }
  rewrite bool_decide_eq_true_2 by done. cbn [negb].
  rewrite (block_field 6 f_chksum _ eq_refl eq_refl).
  rewrite octal_roundtrip by (lia || exact Hr || (change (8 ^ Z.of_nat 7) with 2097152 in Hr; lia)).
  rewrite block_chksum, Z.eqb_refl. cbn [negb].
  assert (block !! 99%nat = Some 0) as ->.
  { apply (lookup_field (made_header name type size) 0 (pad_to 100 (name ++ [0])) 99 0 Hsz); [done|]. unfold pad_to.
    destruct (decide (length name = 99%nat)) as [E|N].
    - rewrite <-app_assoc, lookup_app_r by lia. by rewrite E.
    - rewrite lookup_app_r by (rewrite length_app; simpl; lia). apply lookup_replicate_2. rewrite length_app. simpl. lia. }
  assert (block !! 345%nat = Some 0) as -> by (by apply (lookup_field (made_header name type size) 16 (replicate 155 0) 0 0 Hsz)).
  assert (block !! 156%nat = Some type) as -> by (by apply (lookup_field (made_header name type size) 7 [type] 0 type Hsz)).
  rewrite bool_decide_eq_true_2 by done. cbn [negb orb].
  rewrite (block_field 0 f_name _ eq_refl eq_refl), until_null_pad, Hsafe; cycle 1.
  { intros H. rewrite Forall_forall in Hchars. apply Hchars in H. lia. }
  rewrite (block_field 4 f_size _ eq_refl eq_refl).
  assert (0 ≤ size < 8 ^ Z.of_nat 11) as Hs' by (change (8 ^ Z.of_nat 11) with (2 ^ 33); lia).
  assert (pad_to 12 (octal_text 11 size ++ [0]) = octal_text 11 size ++ [0]) as ->.
  { unfold pad_to. rewrite length_app, (octal_text_length 11 _ ltac:(lia) Hs'). cbn [length Nat.add Nat.sub replicate]. apply app_nil_r. }
  rewrite octal_roundtrip by (lia || done). destruct (Z.gtb_spec size (2 ^ 31 - 1)); [lia|].
  by destruct Htype as [-> | ->].
Qed.
End roundtrip.

(** One changed byte outside the checksum field. *)
Lemma parse_corrupted name type size i x :
  (length name ≤ 99)%nat → Forall (λ c, 0 < c < 256) name → type = USTAR_REGULAR ∨ type = USTAR_DIRECTORY → 0 ≤ size < 2 ^ 31 →
  let block := concat (made_header name type size) in
  (i < 512)%nat → (i < 148 ∨ 156 ≤ i)%nat → block !! i ≠ Some x → ∃ e, parse_block (<[i := x]> block) = inl e.
Proof.
  intros Hname Hchars Htype Hsize block Hi Hout Nx.
  pose proof (block_sizes name type size Hname Hchars Htype Hsize) as Hsz. fold block.
  pose proof (chksum_range name type size Hname Hchars Htype Hsize) as Hr.
  assert (length block = 512%nat) as Hl by (unfold block; by rewrite length_concat, Hsz).
  destruct (lookup_lt_is_Some_2 block i) as [y Hy]; [lia|].
  unfold parse_block. rewrite bool_decide_eq_false_2; cycle 1.
  { assert (block !! 257%nat = Some (chr "u") ∧ block !! 258%nat = Some (chr "s")) as [H1 H2].
    { split; [by apply (lookup_field (made_header name type size) 9 (lit "ustar") 0 (chr "u") Hsz)|].
      by apply (lookup_field (made_header name type size) 9 (lit "ustar") 1 (chr "s") Hsz). }
    intros H. destruct (decide (i = 257%nat)) as [->|N].
    - rewrite <-(list_lookup_insert_ne block 257 258 x) in H2 by done. by apply (Forall_lookup_1 _ _ _ _ H) in H2.
    - rewrite <-(list_lookup_insert_ne block i 257 x) in H1 by done. by apply (Forall_lookup_1 _ _ _ _ H) in H1. }
  destruct (negb (bool_decide (field (<[i := x]> block) f_magic = _))); [by eexists|].
  destruct (negb (bool_decide (field (<[i := x]> block) f_version = _))); [by eexists|].
  assert (field (<[i := x]> block) f_chksum = octal_text 7 (made_chksum name type size) ++ [0]) as ->.
  { rewrite <-(block_field name type size Hname Hchars Htype Hsize 6 f_chksum _ eq_refl eq_refl). fold block.
    unfold field, f_chksum. cbn [fst snd]. apply list_eq. intros j. destruct (decide (j < 8)%nat).
    - rewrite !lookup_take_lt, !lookup_drop by lia. apply list_lookup_insert_ne. lia.
    - by rewrite !lookup_take_ge by lia. }
  rewrite octal_roundtrip by (lia || exact Hr || (change (8 ^ Z.of_nat 7) with 2097152 in Hr; lia)).
  assert (∀ z, summed i z = z) as Hsum.
  { intros z. unfold summed. destruct (Z.leb_spec 148 (Z.of_nat i)), (Z.ltb_spec (Z.of_nat i) 156); (done || lia). }
  assert (chksum_of block = made_chksum name type size) as Hck by by apply block_chksum.
  rewrite (chksum_insert _ _ _ _ Hy), Hck by apply Hsum.
  assert (x ≠ y) by congruence. rewrite (proj2 (Z.eqb_neq _ _)) by lia. by eexists.
Qed.

(** ** The properties *)

(** C30: archive headers round-trip.  [ustar_make_header] rejects a name of more
    than 99 characters after stripping and then changes nothing; otherwise it
    writes only the header, and [ustar_parse_header] gives the stripped name,
    the type and the size back (no size for a directory). *)
Theorem ustar_roundtrip L m h p t type size :
  0 < h → mapped m h 512 → (∀ s, s ∈ literals → away m h 512 (L s) s) → away m h 512 p t →
  type = USTAR_REGULAR ∨ type = USTAR_DIRECTORY → 0 ≤ size < 2 ^ 31 →
  if decide (length (safe_name t) ≤ 99)%nat
  then ∃ m' q, ustar_make_header L p type size h m = Ok (true, m') ∧
    ustar_parse_header L h m' = Ok (inr (q, type, if type =? USTAR_REGULAR then size else 0), m') ∧
    cstr m' q (safe_name t) ∧ (∀ a, a < h ∨ h + 512 ≤ a → m' !! a = m !! a)
  else ustar_make_header L p type size h m = Ok (false, m).
Proof.
  intros Hh Hmap Hlits Hp Htype Hsize. pose proof (make_header_ok L m h Hh Hmap Hlits p t type size Hp Htype Hsize) as H.
  case_decide as Hlen; [|done]. destruct H as (m' & E & HF).
  assert (lits L m') as HL by (intros s Hs; eapply header_cstr; [exact HF|by apply Hlits]).
  assert (Forall (λ c, 0 < c < 256) (safe_name t)) as Hchars.
  { destruct (strip_ok L m p t) as (q & _ & Hq & _); [intros s Hs; apply Hlits, Hs|apply Hp|apply Hq]. }
  pose proof (parse_made _ _ _ Hlen Hchars (safe_name_idemp t) Htype Hsize) as Hparse.
  pose proof (block_sizes _ _ _ Hlen Hchars Htype Hsize) as Hsz. pose proof (chksum_range _ _ _ Hlen Hchars Htype Hsize) as Hr.
  destruct (parse_header_ok L m' h (concat (made_header (safe_name t) type size)) HL) as (r & Er & Hres).
  - by eapply stored_bytes, HF.
  - apply made_bytes; [|by destruct Htype as [-> | ->]|done|by apply octal_text_bytes; [lia|]].
    eapply Forall_impl; [exact Hchars|]. unfold is_byte. simpl. lia.
  - by rewrite length_concat, Hsz.
  - done.
  - rewrite Hparse in Hres. destruct r as [|[[q ty] sz]]; [done|]. destruct Hres as (Hq & <- & <-).
    exists m', q. split_and!; [done..|]. intros a Ha. destruct HF as [Hst HF]. rewrite Hst, decide_False; [done|].
    rewrite length_concat, HF. change (sum_list sizes) with 512%nat. lia.
Qed.

(** C31: parsing is safe.  On any 512 bytes [ustar_parse_header] returns without
    reading outside the block: an error message, the end of the archive, or a
    file whose name does not start with a slash, "./" or "../" and is not empty
    or "..", whose type is one of the two, and whose size is not negative. *)
Theorem ustar_parse_safe L m h bs :
  lits L m → bytes_at m h bs → Forall is_byte bs → length bs = 512%nat → 0 < h →
  ∃ r, ustar_parse_header L h m = Ok (r, m) ∧ parsed m (parse_block bs) r ∧
    match r with
    | inl _ => True
    | inr (p, type, size) =>
        (p = NULL ∧ type = USTAR_EOF ∧ size = 0 ∧ Forall (λ x, x = 0) bs) ∨
        (∃ name, cstr m p name ∧ antisocial name = false ∧ name ≠ [] ∧ name ≠ str ".." ∧
           (type = USTAR_REGULAR ∨ type = USTAR_DIRECTORY) ∧ 0 ≤ size < 2 ^ 31)
    end.
Proof.
  intros HL Hb Hby Hl Hh. destruct (parse_header_ok L m h bs HL Hb Hby Hl Hh) as (r & E & Hp). exists r. split; [done|]. split; [done|].
  destruct r as [|[[p type] size]]; [done|]. unfold parse_block in Hp.
  case_bool_decide as Hz; [left; by destruct Hp as (-> & <- & <-)|]. right.
  destruct (safe_name_ok (until_null (field bs f_name))) as (S1 & S2 & S3).
  repeat match type of Hp with context [if negb ?b then _ else _] => destruct b; cbn [negb] in Hp; [|done] end.
  destruct (octal_value true 0 (field bs f_chksum)); [|done]. destruct (_ =? _); [|done]. cbn [negb] in Hp.
  destruct (_ || _); [done|]. case_bool_decide.
  - destruct (octal_value true 0 (field bs f_size)) as [v|] eqn:Ev; [|done]. apply octal_range in Ev; [|lia].
    destruct (Z.gtb_spec v (2 ^ 31 - 1)); [done|]. destruct Hp as (Hc & <- & <-). eexists. split_and!; [done..|auto|lia|lia].
  - case_bool_decide; [|done]. destruct Hp as (Hc & <- & <-). eexists. split_and!; [done..|auto|lia|lia].
Qed.

(** The checksum detects every change of a single byte outside its field in
    a header that was made by [ustar_make_header]. *)
Theorem ustar_corruption_detected L m h name type size i x :
  lits L m → 0 < h → (length name ≤ 99)%nat → Forall (λ c, 0 < c < 256) name →
  type = USTAR_REGULAR ∨ type = USTAR_DIRECTORY → 0 ≤ size < 2 ^ 31 →
  let block := concat (made_header name type size) in
  (i < 512)%nat → (i < 148 ∨ 156 ≤ i)%nat → is_byte x → block !! i ≠ Some x → bytes_at m h (<[i := x]> block) →
  ∃ e, ustar_parse_header L h m = Ok (inl e, m).
Proof.
  intros HL Hh Hname Hchars Htype Hsize block Hi Hout Hx Nx Hb.
  pose proof (block_sizes name type size Hname Hchars Htype Hsize) as Hsz. pose proof (chksum_range name type size Hname Hchars Htype Hsize) as Hr.
  destruct (parse_corrupted name type size i x Hname Hchars Htype Hsize Hi Hout Nx) as [e Ee].
  destruct (parse_header_ok L m h (<[i := x]> block) HL Hb) as (r & E & Hp).
  - apply Forall_insert; [|done]. apply made_bytes; [|by destruct Htype as [-> | ->]|done|by apply octal_text_bytes; [lia|]].
    eapply Forall_impl; [exact Hchars|]. unfold is_byte. simpl. lia.
  - unfold block. by rewrite length_insert, length_concat, Hsz.
  - done.
  - fold block in Ee. rewrite Ee in Hp. destruct r as [e'|]; [|by destruct Hp]. by exists e'.
Qed.

(** ** A concrete archive *)

(** Checking that bytes are in memory. *)
Fixpoint bytes_check (m : mem) (p : Z) (l : list Z) : bool :=
  match l with [] => true | x :: l => bool_decide (m !! p = Some x) && bytes_check m (p + 1) l end.

Lemma bytes_check_ok m l : ∀ p, bytes_check m p l = true → bytes_at m p l.
Proof.
  induction l as [|x l IH]; intros p H; [by intros i y|]. simpl in H. apply andb_true_iff in H as [H%bool_decide_eq_true Hl].
  apply bytes_at_cons. auto.
Qed.

Lemma cstr_check m p t :
  bytes_check m p (t ++ [0]) && forallb (λ c, (0 <? c) && (c <? 256)) t && (0 <? p) = true → cstr m p t.
Proof.
  rewrite !andb_true_iff. intros [[H1 H2] H3%Z.ltb_lt]. split; [by apply bytes_check_ok| |done].
  apply Forall_forall. intros c Hc. rewrite forallb_forall in H2. apply list_elem_of_In, H2 in Hc.
  apply andb_true_iff in Hc as [?%Z.ltb_lt ?%Z.ltb_lt]. done.
Qed.

(** The literals at multiples of 16 from 20000, a name at 30000, a block at 1000. *)
Definition demo_L (s : list Z) : Z :=
  20000 + 16 * match list_find (λ l, l = s) literals with Some (i, _) => Z.of_nat i | None => 100 end.
Definition demo_bytes (p : Z) (l : list Z) : list (Z * Z) := imap (λ i x, (p + Z.of_nat i, x)) l.
Definition demo_archive : mem :=
  list_to_map (concat ((λ s, demo_bytes (demo_L s) (s ++ [0])) <$> literals) ++
               demo_bytes 30000 (lit "../a.c") ++ demo_bytes 1000 (replicate 512 255)).

Lemma demo_literals s : s ∈ literals → away demo_archive 1000 512 (demo_L s) s.
Proof.
  intros Hs. assert (∀ s, s ∈ literals → bytes_check demo_archive (demo_L s) (s ++ [0]) && forallb (λ c, (0 <? c) && (c <? 256)) s &&
    (0 <? demo_L s) && (1512 <=? demo_L s) = true) as H.
  { apply Forall_forall. repeat (apply Forall_cons; split; [vm_compute; reflexivity|]). apply Forall_nil_2. }
  specialize (H s Hs). apply andb_true_iff in H as [H1 H2%Z.leb_le]. split; [by apply cstr_check|]. right. lia.
Qed.

Lemma demo_block_mapped : mapped demo_archive 1000 512.
Proof.
  assert (bytes_check demo_archive 1000 (replicate 512 255) = true) as H by (vm_compute; reflexivity).
  apply bytes_check_ok, mapped_bytes in H. by rewrite length_replicate in H.
Qed.

Lemma demo_name : away demo_archive 1000 512 30000 (str "../a.c").
Proof. split; [apply cstr_check; vm_compute; reflexivity|]. right. lia. Qed.

Lemma ustar_roundtrip_witness :
  ∃ m' q, ustar_make_header demo_L 30000 USTAR_REGULAR 12345 1000 demo_archive = Ok (true, m') ∧
    ustar_parse_header demo_L 1000 m' = Ok (inr (q, USTAR_REGULAR, 12345), m') ∧ cstr m' q (str "a.c") ∧
    (∀ a, a < 1000 ∨ 1000 + 512 ≤ a → m' !! a = demo_archive !! a).
Proof.
  apply (ustar_roundtrip demo_L demo_archive 1000 30000 (str "../a.c") USTAR_REGULAR 12345);
    [lia|apply demo_block_mapped|apply demo_literals|apply demo_name|by left|lia].
Defined.

Lemma ustar_parse_safe_witness :
  ∃ r, ustar_parse_header demo_L 1000 demo_archive = Ok (r, demo_archive) ∧
    parsed demo_archive (inl (str "not a ustar archive")) r.
Proof.
  destruct (ustar_parse_safe demo_L demo_archive 1000 (replicate 512 255)) as (r & E & Hp & _);
    [intros s Hs; apply demo_literals, Hs|apply bytes_check_ok; vm_compute; reflexivity|by apply Forall_replicate
    |apply length_replicate|lia|].
  exists r. split; [done|]. exact Hp.
Defined.

(** The header of "a.c" with its first character changed. *)
Definition demo_corrupted : mem :=
  list_to_map (concat ((λ s, demo_bytes (demo_L s) (s ++ [0])) <$> literals) ++
               demo_bytes 1000 (<[0%nat := chr "b"]> (concat (made_header (str "a.c") USTAR_REGULAR 12345)))).

Lemma ustar_corruption_detected_witness :
  ∃ e, ustar_parse_header demo_L 1000 demo_corrupted = Ok (inl e, demo_corrupted).
Proof.
  apply (ustar_corruption_detected demo_L demo_corrupted 1000 (str "a.c") USTAR_REGULAR 12345 0 (chr "b"));
    [|lia|vm_compute; lia|by repeat (constructor; [done|])|by left|lia|lia|lia|done|vm_compute; congruence
    |apply bytes_check_ok; vm_compute; reflexivity].
  intros s Hs. assert (∀ s, s ∈ literals → bytes_check demo_corrupted (demo_L s) (s ++ [0]) && forallb (λ c, (0 <? c) && (c <? 256)) s &&
    (0 <? demo_L s) = true) as H; [|by apply cstr_check, H].
  apply Forall_forall. repeat (apply Forall_cons; split; [vm_compute; reflexivity|]). apply Forall_nil_2.
Defined.
