(* ===== verification/Bytes.v ===== *)
(** * Bytes: little-endian integers and slices of byte lists

    The layout of packed C structures on disk: integers as lists of bytes,
    and reading and overwriting a part of a buffer. *)

From S2P Require Import Prelude.

Definition byte_ok (b : Z) : Prop := 0 ≤ b < 256.

#[export] Instance byte_ok_dec b : Decision (byte_ok b).
Proof. unfold byte_ok. apply _. Defined.

(** ** Little-endian integers *)

Fixpoint le_decode (bs : list Z) : Z :=
  match bs with [] => 0 | b :: r => b + 256 * le_decode r end.

Fixpoint le_encode (n : nat) (x : Z) : list Z :=
  match n with O => [] | S k => x mod 256 :: le_encode k (x / 256) end.

Lemma length_le_encode n x : length (le_encode n x) = n.
Proof. revert x. induction n; intros x; simpl; congruence. Qed.

Lemma le_encode_ok n x : Forall byte_ok (le_encode n x).
Proof.
  revert x. induction n as [|n IH]; intros x; simpl; constructor; [|done].
  apply Z.mod_pos_bound. lia.
Qed.

Lemma le_decode_encode n x : 0 ≤ x < 256 ^ Z.of_nat n → le_decode (le_encode n x) = x.
Proof.
  revert x. induction n as [|n IH]; intros x Hx; simpl; [simpl in Hx; lia|].
  rewrite Nat2Z.inj_succ, Z.pow_succ_r in Hx by lia. rewrite IH by dlia. dlia.
Qed.

Lemma le_decode_range bs : Forall byte_ok bs → 0 ≤ le_decode bs < 256 ^ Z.of_nat (length bs).
Proof.
  induction 1 as [|b bs Hb _ IH]; simpl; [lia|].
  rewrite Nat2Z.inj_succ, Z.pow_succ_r by lia. unfold byte_ok in Hb. lia.
Qed.

(** ** Slices *)

Definition slice (ofs len : Z) (bs : list Z) : list Z := take (Z.to_nat len) (drop (Z.to_nat ofs) bs).

(** [bs] with the bytes from [ofs] on overwritten by [new]. *)
Definition overwrite (ofs : Z) (new bs : list Z) : list Z :=
  take (Z.to_nat ofs) bs ++ new ++ drop (Z.to_nat ofs + length new) bs.

Lemma length_slice ofs len bs :
  0 ≤ ofs → 0 ≤ len → ofs + len ≤ Z.of_nat (length bs) → Z.of_nat (length (slice ofs len bs)) = len.
Proof. intros. unfold slice. rewrite length_take, length_drop. lia. Qed.

Lemma slice_lookup ofs len bs k :
  0 ≤ ofs → 0 ≤ k < len → slice ofs len bs !! Z.to_nat k = bs !! Z.to_nat (ofs + k).
Proof.
  intros H0 Hk. unfold slice. rewrite lookup_take_lt by lia. rewrite lookup_drop. f_equal. lia.
Qed.

Lemma length_overwrite ofs new bs :
  0 ≤ ofs → ofs + Z.of_nat (length new) ≤ Z.of_nat (length bs) → length (overwrite ofs new bs) = length bs.
Proof. intros. unfold overwrite. rewrite !length_app, length_take, length_drop. lia. Qed.

Lemma overwrite_lookup ofs new bs k :
  0 ≤ ofs → ofs + Z.of_nat (length new) ≤ Z.of_nat (length bs) → 0 ≤ k →
  overwrite ofs new bs !! Z.to_nat k =
  if decide (ofs ≤ k < ofs + Z.of_nat (length new)) then new !! Z.to_nat (k - ofs) else bs !! Z.to_nat k.
Proof.
  intros H0 Hl Hk. unfold overwrite. destruct (decide (k < ofs)).
  { rewrite lookup_app_l by (rewrite length_take; lia). rewrite lookup_take_lt by lia.
    rewrite decide_False by lia. done. }
  rewrite lookup_app_r by (rewrite length_take; lia). rewrite length_take.
  replace (Z.to_nat k - Z.to_nat ofs `min` length bs)%nat with (Z.to_nat (k - ofs)) by lia.
  destruct (decide (ofs ≤ k < ofs + Z.of_nat (length new))).
  - rewrite lookup_app_l by lia. done.
  - rewrite lookup_app_r by lia. rewrite lookup_drop. f_equal. lia.
Qed.

Lemma Forall_slice P ofs len bs : Forall P bs → Forall P (slice ofs len bs).
Proof. intros H. by apply Forall_take, Forall_drop. Qed.

Lemma Forall_overwrite P ofs new bs : Forall P new → Forall P bs → Forall P (overwrite ofs new bs).
Proof. intros Hn Hb. apply Forall_app_2; [by apply Forall_take|]. apply Forall_app_2; [done|by apply Forall_drop]. Qed.

Lemma slice_app ofs n c bs :
  0 ≤ ofs → 0 ≤ n → 0 ≤ c → slice ofs n bs ++ slice (ofs + n) c bs = slice ofs (n + c) bs.
Proof.
  intros. unfold slice. rewrite !Z2Nat.inj_add by done. rewrite <-drop_drop. by rewrite take_take_drop.
Qed.

Lemma slice_all bs n : Z.of_nat (length bs) = n → slice 0 n bs = bs.
Proof. intros <-. unfold slice. rewrite Nat2Z.id. apply take_ge. simpl. lia. Qed.

(** Two byte lists of the same length with the same bytes. *)
Lemma bytes_eq (l k : list Z) n :
  Z.of_nat (length l) = n → Z.of_nat (length k) = n →
  (∀ i, 0 ≤ i < n → l !! Z.to_nat i = k !! Z.to_nat i) → l = k.
Proof.
  intros Hl Hk H. apply list_eq. intros i. destruct (decide (Z.of_nat i < n)).
  - specialize (H (Z.of_nat i)). rewrite Nat2Z.id in H. apply H. lia.
  - rewrite !lookup_ge_None_2 by lia. done.
Qed.
