(* ===== verification/Vaddr.v ===== *)
(** * Virtual addresses and page-table entries: threads/vaddr.h, threads/pte.h

    The bit fields of a 32-bit virtual address and of a page-directory or
    page-table entry, as the inline functions of the two headers compute
    them, with the lemmas that turn the masks and shifts into quotients and
    remainders. *)

From S2P Require Import Prelude.

(** ** vaddr.h *)

Definition BITMASK (SHIFT CNT : Z) : Z := u32 (Z.shiftl (u32 (Z.shiftl 1 CNT) - 1) SHIFT).
Definition PGBITS : Z := 12.
Definition PGSIZE : Z := Z.shiftl 1 PGBITS.
Definition PGMASK : Z := BITMASK 0 PGBITS.
Definition PHYS_BASE : Z := 0xc0000000.
Definition NULL : Z := 0.

Definition pg_ofs (va : Z) : Z := Z.land va PGMASK.
Definition pg_no (va : Z) : Z := Z.shiftr va PGBITS.
Definition pg_round_up (va : Z) : Z := Z.land (u32 (va + PGSIZE - 1)) (u32 (Z.lnot PGMASK)).
Definition pg_round_down (va : Z) : Z := Z.land va (u32 (Z.lnot PGMASK)).

Definition is_user_vaddr (vaddr : Z) : bool := vaddr <? PHYS_BASE.
Definition is_kernel_vaddr (vaddr : Z) : bool := PHYS_BASE <=? vaddr.

Definition ptov (paddr : Z) : result Z :=
  ASSERT (paddr <? PHYS_BASE);; Ok (u32 (paddr + PHYS_BASE)).
Definition vtop (vaddr : Z) : result Z :=
  ASSERT (is_kernel_vaddr vaddr);; Ok (u32 (vaddr - PHYS_BASE)).

(** ** pte.h *)

Definition PTSHIFT : Z := PGBITS.
Definition PTBITS : Z := 10.
Definition PTMASK : Z := BITMASK PTSHIFT PTBITS.
Definition PDSHIFT : Z := PTSHIFT + PTBITS.

Definition pt_no (va : Z) : Z := Z.shiftr (Z.land va PTMASK) PTSHIFT.
Definition pd_no (va : Z) : Z := Z.shiftr va PDSHIFT.

Definition PTE_ADDR : Z := 0xfffff000.
Definition PTE_P : Z := 1.
Definition PTE_W : Z := 2.
Definition PTE_U : Z := 4.
Definition PTE_A : Z := 0x20.
Definition PTE_D : Z := 0x40.

Definition pde_create (pt : Z) : result Z :=
  ASSERT (pg_ofs pt =? 0);;
  p ← vtop pt; Ok (Z.lor (Z.lor (Z.lor p PTE_U) PTE_P) PTE_W).

Definition pde_get_pt (pde : Z) : result Z :=
  ASSERT (negb (Z.land pde PTE_P =? 0));; ptov (Z.land pde PTE_ADDR).

Definition pte_create_kernel (page : Z) (writable : bool) : result Z :=
  ASSERT (pg_ofs page =? 0);;
  p ← vtop page; Ok (Z.lor (Z.lor p PTE_P) (if writable then PTE_W else 0)).

Definition pte_create_user (page : Z) (writable : bool) : result Z :=
  p ← pte_create_kernel page writable; Ok (Z.lor p PTE_U).

Definition pte_get_page (pte : Z) : result Z := ptov (Z.land pte PTE_ADDR).

(** ** Masks as arithmetic *)

Lemma PGSIZE_eq : PGSIZE = 4096.
Proof. done. Qed.

Lemma pg_ofs_mod va : pg_ofs va = va mod 4096.
Proof. unfold pg_ofs. change PGMASK with (Z.ones 12). by rewrite Z.land_ones. Qed.

Lemma pg_no_div va : pg_no va = va / 4096.
Proof. unfold pg_no. by rewrite Z.shiftr_div_pow2. Qed.

Lemma pd_no_div va : pd_no va = va / 2 ^ 22.
Proof. unfold pd_no. by rewrite Z.shiftr_div_pow2. Qed.

Lemma pt_no_div va : pt_no va = (va / 4096) mod 1024.
Proof.
  unfold pt_no. rewrite Z.shiftr_land. change (Z.shiftr PTMASK PTSHIFT) with (Z.ones 10).
  by rewrite Z.land_ones, Z.shiftr_div_pow2.
Qed.

Lemma land_addr_mask x : 0 ≤ x < 2 ^ 32 → Z.land x PTE_ADDR = x / 4096 * 4096.
Proof.
  intros Hx. change PTE_ADDR with (Z.ldiff (Z.ones 32) (Z.ones 12)).
  assert (Z.land x (Z.ldiff (Z.ones 32) (Z.ones 12)) = Z.ldiff (Z.land x (Z.ones 32)) (Z.ones 12)) as ->.
  { apply Z.bits_inj'. intros n Hn. rewrite Z.land_spec, !Z.ldiff_spec, Z.land_spec.
    by destruct (Z.testbit x n). }
  rewrite Z.land_ones, Z.mod_small, Z.ldiff_ones_r by lia.
  by rewrite Z.shiftl_mul_pow2, Z.shiftr_div_pow2.
Qed.

Lemma land_flags x m : 0 ≤ m < 4096 → Z.land x m = Z.land (x mod 4096) m.
Proof.
  intros Hm. change 4096 with (2 ^ 12). rewrite <-(Z.land_ones x 12) by lia.
  rewrite <-Z.land_assoc, (Z.land_comm (Z.ones 12)), Z.land_ones by lia. by rewrite (Z.mod_small m).
Qed.

Lemma lor_page p f : p mod 4096 = 0 → 0 ≤ f < 4096 → Z.lor p f = p + f.
Proof.
  intros Hp Hf. symmetry. apply Z.add_nocarry_lor. rewrite land_flags by done. by rewrite Hp.
Qed.

(** [a] is the address of a page of kernel virtual memory. *)
Definition kpage (a : Z) : Prop := PHYS_BASE ≤ a < 2 ^ 32 ∧ a mod 4096 = 0.

Lemma kpage_round a : kpage a → (a - PHYS_BASE) mod 4096 = 0 ∧ 0 ≤ a - PHYS_BASE < 2 ^ 30.
Proof. intros [H1 H2]. unfold PHYS_BASE in *. split; [|lia]. dlia. Qed.

Lemma vtop_ok a : PHYS_BASE ≤ a < 2 ^ 32 → vtop a = Ok (a - PHYS_BASE).
Proof.
  intros Ha. unfold vtop, is_kernel_vaddr. rewrite (proj2 (Z.leb_le _ _)) by lia. simpl.
  by rewrite u32_small by (unfold PHYS_BASE in *; lia).
Qed.

Lemma ptov_ok p : 0 ≤ p < 2 ^ 30 → ptov p = Ok (p + PHYS_BASE).
Proof.
  intros Hp. unfold ptov. rewrite (proj2 (Z.ltb_lt _ _)) by (unfold PHYS_BASE; lia). simpl.
  by rewrite u32_small by (unfold PHYS_BASE; lia).
Qed.

(** An entry for the page [a] with the flag bits [f]. *)
Definition entry (a f : Z) : Z := a - PHYS_BASE + f.

Lemma entry_range a f : kpage a → 0 ≤ f < 4096 → 0 ≤ entry a f < 2 ^ 32 ∧ entry a f mod 4096 = f.
Proof. intros (H & H0)%kpage_round Hf. unfold entry. split; [|dlia]. lia. Qed.

Lemma entry_page a f : kpage a → 0 ≤ f < 4096 → ptov (Z.land (entry a f) PTE_ADDR) = Ok a.
Proof.
  intros Ha Hf. pose proof (entry_range a f Ha Hf) as [Hr Hm].
  apply kpage_round in Ha as [H0 H1]. rewrite land_addr_mask by done.
  assert (entry a f / 4096 * 4096 = a - PHYS_BASE) as -> by (unfold entry in *; dlia).
  rewrite ptov_ok by lia. f_equal. lia.
Qed.

Lemma entry_flag a f m : kpage a → 0 ≤ f < 4096 → 0 ≤ m < 4096 → Z.land (entry a f) m = Z.land f m.
Proof. intros Ha Hf Hm. rewrite land_flags by done. by destruct (entry_range a f Ha Hf) as [_ ->]. Qed.

Lemma kpage_ofs a : kpage a → pg_ofs a =? 0 = true.
Proof. intros [_ H]. by rewrite pg_ofs_mod, H. Qed.

Lemma pde_create_ok a : kpage a → pde_create a = Ok (entry a 7).
Proof.
  intros Ha. unfold pde_create. rewrite kpage_ofs by done. simpl.
  rewrite vtop_ok by apply Ha. simpl. rewrite <-!Z.lor_assoc. f_equal. apply lor_page; [|done].
  by apply kpage_round.
Qed.

Lemma pte_create_user_ok a w : kpage a → pte_create_user a w = Ok (entry a (if w then 7 else 5)).
Proof.
  intros Ha. unfold pte_create_user, pte_create_kernel. rewrite kpage_ofs by done. simpl.
  rewrite vtop_ok by apply Ha. simpl. rewrite <-!Z.lor_assoc. f_equal.
  destruct w; (apply lor_page; [by apply kpage_round|done]).
Qed.

(** [pg_round_down] and [pg_round_up] are the neighbouring page boundaries. *)
Lemma pg_round_ok va :
  0 ≤ va < 2 ^ 32 - 4096 →
  pg_round_down va = va / 4096 * 4096 ∧ pg_round_up va = (va + 4095) / 4096 * 4096.
Proof.
  intros Hva. unfold pg_round_down, pg_round_up. change (u32 (Z.lnot PGMASK)) with PTE_ADDR.
  change PGSIZE with 4096. rewrite u32_small by lia. rewrite !land_addr_mask by lia.
  split; [done|]. do 2 f_equal. lia.
Qed.
