(* ===== verification/PageIface.v ===== *)
(** * What the page allocator promises

    The interface between threads/palloc.c and its clients.  The code that
    builds page tables (userprog/pagedir.c) obtains and frees pages one at a
    time ([PageAllocator]); malloc (threads/malloc.c) also runs of pages
    ([PageRuns]).  The contents of kernel memory are the pages of 1024 32-bit
    words that both sides read and write.  [Palloc] has the instances; the
    clients are verified against the classes. *)

From S2P Require Import Prelude Vaddr.

Definition PAL_ASSERT : Z := 1.
Definition PAL_ZERO : Z := 2.
Definition PAL_USER : Z := 4.

Definition word_cnt : nat := 1024.

(** The contents of a page. *)
Definition page_ok (ws : list Z) : Prop :=
  length ws = word_cnt ∧ Forall (λ w, 0 ≤ w < 2 ^ 32) ws.

Lemma page_ok_repeat w : 0 ≤ w < 2 ^ 32 → page_ok (repeat w word_cnt).
Proof.
  intros Hw. split; [by rewrite repeat_length|]. generalize word_cnt. intros n. by induction n; constructor.
Qed.

Class PageAllocator (S : Type) := {
  get_page : Z → ST S Z;
  free_page : Z → ST S unit;
  mem : S → gmap Z (list Z);
  set_mem : gmap Z (list Z) → S → S;
  used_page : S → Z → Prop;
  pa_ok : S → Prop;
  mem_set m s : mem (set_mem m s) = m;
  set_set m m' s : set_mem m (set_mem m' s) = set_mem m s;
  used_set m s a : used_page (set_mem m s) a ↔ used_page s a;
  set_ok m s : pa_ok s → dom m = dom (mem s) → map_Forall (λ _, page_ok) m → pa_ok (set_mem m s);
  mem_ok s : pa_ok s → map_Forall (λ _, page_ok) (mem s);
  used_mem s a : pa_ok s → used_page s a → kpage a ∧ is_Some (mem s !! a);
  get_page_ok s flags : pa_ok s → Z.land flags PAL_ASSERT = 0 →
    ∃ a s', get_page flags s = Ok (a, s') ∧ pa_ok s' ∧
      ((a = NULL ∧ s' = s) ∨
       (kpage a ∧ ¬ used_page s a ∧ (∀ b, used_page s' b ↔ used_page s b ∨ b = a) ∧
        (∀ b, b ≠ a → mem s' !! b = mem s !! b) ∧
        (Z.land flags PAL_ZERO ≠ 0 → mem s' !! a = Some (repeat 0 word_cnt))));
  get_page_assert s flags : pa_ok s → Z.land flags PAL_ASSERT ≠ 0 →
    get_page flags s = Err KernelPanic ∨
    ∃ a s', get_page flags s = Ok (a, s') ∧ pa_ok s' ∧ kpage a ∧ ¬ used_page s a ∧
      (∀ b, used_page s' b ↔ used_page s b ∨ b = a) ∧ (∀ b, b ≠ a → mem s' !! b = mem s !! b) ∧
      (Z.land flags PAL_ZERO ≠ 0 → mem s' !! a = Some (repeat 0 word_cnt));
  free_page_ok s a : pa_ok s → used_page s a →
    ∃ s', free_page a s = Ok (tt, s') ∧ pa_ok s' ∧
      (∀ b, used_page s' b ↔ used_page s b ∧ b ≠ a) ∧
      (∀ b, b ≠ a → mem s' !! b = mem s !! b)
}.

(** The [n] pages from [pages] on. *)
Definition in_run (pages n a : Z) : Prop := ∃ k, 0 ≤ k < n ∧ a = pages + 4096 * k.

Lemma in_run_one page a : in_run page 1 a ↔ a = page.
Proof. split; [intros (k & Hk & ->); lia|]. intros ->. exists 0. lia. Qed.

(** [page_run] says that the pages belong together and can be freed at once. *)
Class PageRuns (S : Type) `{PageAllocator S} := {
  get_multiple : Z → Z → ST S Z;
  free_multiple : Z → Z → ST S unit;
  page_run : S → Z → Z → Prop;
  get_page_multiple flags s : get_page flags s = get_multiple flags 1 s;
  free_page_multiple a s : free_page a s = free_multiple a 1 s;
  run_set m s a n : page_run (set_mem m s) a n ↔ page_run s a n;
  used_run s a : pa_ok s → used_page s a → page_run s a 1;
  get_run_ok s flags n : pa_ok s → 0 ≤ n < 2 ^ 32 → Z.land flags PAL_ASSERT = 0 →
    ∃ a s', get_multiple flags n s = Ok (a, s') ∧ pa_ok s' ∧
      ((a = NULL ∧ s' = s) ∨
       (0 < n ∧ page_run s' a n ∧ (∀ b k, page_run s b k → page_run s' b k) ∧
        (∀ b, in_run a n b → ¬ used_page s b) ∧ (∀ b, used_page s' b ↔ used_page s b ∨ in_run a n b) ∧
        (∀ b, ¬ in_run a n b → mem s' !! b = mem s !! b)));
  free_run_ok s a n : pa_ok s → 0 < n → page_run s a n → (∀ b, in_run a n b → used_page s b) →
    ∃ s', free_multiple a n s = Ok (tt, s') ∧ pa_ok s' ∧ (∀ b k, page_run s b k → page_run s' b k) ∧
      (∀ b, used_page s' b ↔ used_page s b ∧ ¬ in_run a n b) ∧
      (∀ b, ¬ in_run a n b → mem s' !! b = mem s !! b)
}.
