(* ===== verification/Palloc.v ===== *)
(** * Page allocator: threads/palloc.c

    Two pools of pages, each with a bitmap of the pages in use that lies in
    front of them.  A page is 1024 words of memory.  Every operation is one step
    on the state: the interleavings of the operations of several threads are not
    modelled.  In the code pages are searched for and marked under the lock of
    the pool, while palloc_free_multiple takes no lock and relies on the atomic
    instruction with which bitmap_reset clears each bit. *)

From S2P Require Import Prelude Bitmap Vaddr PageIface.

(** ** Data *)

Record pool := mk_pool { used_map : bitmap; base : Z }.

(** The state of the allocator and the contents of the pages it manages. *)
Record memory := mk_memory {
  kernel_pool : pool;
  user_pool : pool;
  frames : gmap Z (list Z)
}.

Definition get_pool (user : bool) (st : memory) : pool :=
  if user then user_pool st else kernel_pool st.
Definition set_used_map (user : bool) (b : bitmap) (st : memory) : memory :=
  if user then mk_memory (kernel_pool st) (mk_pool b (base (user_pool st))) (frames st)
  else mk_memory (mk_pool b (base (kernel_pool st))) (user_pool st) (frames st).
Definition set_frames (m : gmap Z (list Z)) (st : memory) : memory :=
  mk_memory (kernel_pool st) (user_pool st) m.

(** [memset (pages, c, PGSIZE * cnt)]; [word] is four times the byte [c]. *)
Fixpoint memset_pages (pages word : Z) (cnt : nat) : ST memory unit :=
  match cnt with
  | O => mret tt
  | S k =>
      st ← get;
      match frames st !! pages with
      | Some _ =>
          modify (set_frames (<[pages := repeat word word_cnt]> (frames st)));;
          memset_pages (pages + PGSIZE) word k
      | None => fail BadAccess
      end
  end.

(** ** Operations *)

Definition palloc_get_multiple (flags page_cnt : Z) : ST memory Z :=
  let user := negb (Z.land flags PAL_USER =? 0) in
  if page_cnt =? 0 then mret NULL
  else
    st ← get;
    r ← lift (bitmap_scan_and_flip (used_map (get_pool user st)) 0 page_cnt false);
    let page_idx := fst r in
    modify (set_used_map user (snd r));;
    let pages := if negb (page_idx =? BITMAP_ERROR)
                 then u32 (base (get_pool user st) + u32 (PGSIZE * page_idx)) else NULL in
    if negb (pages =? NULL) then
      (if negb (Z.land flags PAL_ZERO =? 0) then memset_pages pages 0 (Z.to_nat page_cnt) else mret tt);;
      mret pages
    else if negb (Z.land flags PAL_ASSERT =? 0) then fail KernelPanic
    else mret pages.

Definition palloc_get_page (flags : Z) : ST memory Z := palloc_get_multiple flags 1.

Definition page_from_pool (pool : pool) (page : Z) : bool :=
  let page_no := pg_no page in
  let start_page := pg_no (base pool) in
  let end_page := u32 (start_page + bitmap_size (used_map pool)) in
  (start_page <=? page_no) && (page_no <? end_page).

Definition palloc_free_multiple (pages page_cnt : Z) : ST memory unit :=
  assert (pg_ofs pages =? 0);;
  if (pages =? NULL) || (page_cnt =? 0) then mret tt
  else
    st ← get;
    user ← (if page_from_pool (kernel_pool st) pages then mret false
            else if page_from_pool (user_pool st) pages then mret true
            else fail NotReached);
    let pool := get_pool user st in
    let page_idx := u32 (pg_no pages - pg_no (base pool)) in
    memset_pages pages 0xcccccccc (Z.to_nat page_cnt);;
    a ← lift (bitmap_all (used_map pool) page_idx page_cnt); assert a;;
    b ← lift (bitmap_set_multiple (used_map pool) page_idx page_cnt false);
    modify (set_used_map user b).

Definition palloc_free_page (page : Z) : ST memory unit := palloc_free_multiple page 1.

(** The bitmap is created at the base of the pool, over what the memory there
    held: [ram] gives the word at an address. *)
Definition init_pool (ram : Z → Z) (base page_cnt : Z) : result pool :=
  let bm_pages := u32 (bitmap_buf_size page_cnt + PGSIZE - 1) / PGSIZE in
  if bm_pages >? page_cnt then Err KernelPanic
  else
    let page_cnt := page_cnt - bm_pages in
    let junk := (λ i, u32 (ram (base + 8 + 4 * i))) <$> seqZ 0 (elem_cnt page_cnt) in
    used_map ← bitmap_create_in_buf page_cnt junk (u32 (bm_pages * PGSIZE));
    Ok (mk_pool used_map (u32 (base + u32 (bm_pages * PGSIZE)))).

(** The pages of a pool, and their contents in [ram]. *)
Definition pool_pages (p : pool) : list Z :=
  (λ i, base p + PGSIZE * i) <$> seqZ 0 (bitmap_size (used_map p)).
Definition page_of (ram : Z → Z) (a : Z) : list Z :=
  (λ i, u32 (ram (a + 4 * Z.of_nat i))) <$> seq 0 word_cnt.

Definition initial_frames (ram : Z → Z) (k u : pool) : gmap Z (list Z) :=
  list_to_map ((λ a, (a, page_of ram a)) <$> (pool_pages k ++ pool_pages u)).

Definition palloc_init (ram : Z → Z) (init_ram_pages user_page_limit : Z) : result memory :=
  free_start ← ptov (1024 * 1024);
  free_end ← ptov (u32 (init_ram_pages * PGSIZE));
  let free_pages := u32 (Z.quot (free_end - free_start) PGSIZE) in
  let user_pages := free_pages / 2 in
  let user_pages := if user_pages >? user_page_limit then user_page_limit else user_pages in
  let kernel_pages := u32 (free_pages - user_pages) in
  k ← init_pool ram free_start kernel_pages;
  u ← init_pool ram (u32 (free_start + u32 (kernel_pages * PGSIZE))) user_pages;
  Ok (mk_memory k u (initial_frames ram k u)).

(** ** Invariant *)

(** [a] is page number [i] of the pool. *)
Definition pool_page (p : pool) (i a : Z) : Prop :=
  0 ≤ i < bit_cnt (used_map p) ∧ a = base p + 4096 * i.

Record pool_ok (p : pool) : Prop := {
  po_wf : wf (used_map p);
  po_base : kpage (base p) ∧ PHYS_BASE < base p;
  po_end : base p + 4096 * bit_cnt (used_map p) < 2 ^ 32
}.

Record mem_inv (st : memory) : Prop := {
  mi_pool user : pool_ok (get_pool user st);
  mi_disjoint : base (kernel_pool st) + 4096 * bit_cnt (used_map (kernel_pool st)) ≤ base (user_pool st);
  mi_dom a : is_Some (frames st !! a) ↔ ∃ user i, pool_page (get_pool user st) i a;
  mi_words : map_Forall (λ _, page_ok) (frames st)
}.

(** A page that has been handed out. *)
Definition used (st : memory) (a : Z) : Prop :=
  ∃ user i, pool_page (get_pool user st) i a ∧ bit (used_map (get_pool user st)) i = true.

(** The run lies in one pool. *)
Definition run_in_pool (st : memory) (user : bool) (pages n : Z) : Prop :=
  ∃ i, 0 ≤ i ∧ i + n ≤ bit_cnt (used_map (get_pool user st)) ∧
    pages = base (get_pool user st) + 4096 * i.

(** The pools have the same pages. *)
Definition same_runs (st st' : memory) : Prop :=
  ∀ user pages n, run_in_pool st' user pages n ↔ run_in_pool st user pages n.

(** [st'] is [st] with the pages of the run filled with a word. *)
Definition filled (m m' : gmap Z (list Z)) (pages n word : Z) : Prop :=
  ∀ a, (in_run pages n a → m' !! a = Some (repeat word word_cnt)) ∧
       (¬ in_run pages n a → m' !! a = m !! a).

(** ** Lemmas *)

Lemma get_pool_set user u b st :
  get_pool u (set_used_map user b st) =
  if Bool.eqb u user then mk_pool b (base (get_pool u st)) else get_pool u st.
Proof. by destruct u, user. Qed.

Lemma pool_page_inj st u1 u2 i1 i2 a :
  mem_inv st → pool_page (get_pool u1 st) i1 a → pool_page (get_pool u2 st) i2 a → u1 = u2 ∧ i1 = i2.
Proof.
  intros HI [H1 E1] [H2 E2]. pose proof (mi_disjoint _ HI).
  destruct u1, u2; simpl in *; (split; [done || lia|lia]).
Qed.

Lemma inv_set_map st user b :
  mem_inv st → wf b → bit_cnt b = bit_cnt (used_map (get_pool user st)) →
  mem_inv (set_used_map user b st).
Proof.
  intros [Hp Hd Hdom Hw] Hb Hc. split.
  - intros u. rewrite get_pool_set. destruct (Bool.eqb u user) eqn:E; [|apply Hp].
    apply Bool.eqb_prop in E as ->. destruct (Hp user) as [? ? ?]. split; simpl; [done..|]. by rewrite Hc.
  - by destruct user; simpl in *; rewrite ?Hc.
  - intros a. replace (frames (set_used_map user b st)) with (frames st) by (by destruct user).
    rewrite Hdom. f_equiv. intros u. f_equiv. intros i. unfold pool_page. rewrite get_pool_set.
    destruct (Bool.eqb u user) eqn:E; [|done]. apply Bool.eqb_prop in E as ->. simpl. by rewrite Hc.
  - by destruct user.
Qed.

Lemma used_set_map st user b i n v a :
  mem_inv st → 0 ≤ i → i + n ≤ bit_cnt (used_map (get_pool user st)) →
  bits_set (used_map (get_pool user st)) b i n v →
  used (set_used_map user b st) a ↔
  if v then used st a ∨ in_run (base (get_pool user st) + 4096 * i) n a
  else used st a ∧ ¬ in_run (base (get_pool user st) + 4096 * i) n a.
Proof.
  intros HI Hi Hn (_ & Hc & Hb). pose proof (pool_page_inj st) as Hinj.
  assert (∀ k, 0 ≤ k < n → pool_page (get_pool user st) (i + k) (base (get_pool user st) + 4096 * i + 4096 * k))
    as Hrun by (intros k Hk; split; lia).
  assert (∀ u j, pool_page (get_pool u (set_used_map user b st)) j a ↔ pool_page (get_pool u st) j a) as Hpp.
  { intros u j. rewrite get_pool_set. destruct (Bool.eqb u user) eqn:E; [|done].
    apply Bool.eqb_prop in E as ->. unfold pool_page. simpl. by rewrite Hc. }
  assert (used (set_used_map user b st) a ↔ ∃ u j, pool_page (get_pool u st) j a ∧
    (if decide (u = user ∧ i ≤ j < i + n) then v else bit (used_map (get_pool u st)) j) = true) as ->.
  { unfold used. f_equiv. intros u. f_equiv. intros j. rewrite Hpp. apply and_cond_iff.
    intros [Hj _]. rewrite get_pool_set. destruct (Bool.eqb u user) eqn:E.
    - apply Bool.eqb_prop in E as ->. simpl. rewrite Hb by done.
      repeat case_decide; naive_solver.
    - case_decide as Hd; [|done]. destruct Hd as [-> _]. by destruct user. }
  assert (∀ u j, pool_page (get_pool u st) j a →
    ((u = user ∧ i ≤ j < i + n) ↔ in_run (base (get_pool user st) + 4096 * i) n a)) as Hin.
  { intros u j Hj. split.
    - intros [-> Hk]. exists (j - i). destruct Hj as [_ ->]. split; lia.
    - intros (k & Hk & ->). destruct (Hinj _ _ _ _ _ HI Hj (Hrun k Hk)) as [-> ->]. split; [done|lia]. }
  destruct v; split.
  - intros (u & j & Hj & E). case_decide as Hd; [right; by eapply Hin|left; by exists u, j].
  - intros [(u & j & Hj & E)|Hr].
    + exists u, j. split; [done|]. by case_decide.
    + destruct Hr as (k & Hk & ->). exists user, (i + k). split; [by apply Hrun|].
      rewrite decide_True; [done|split; [done|lia]].
  - intros (u & j & Hj & E). case_decide as Hd; [done|]. split; [by exists u, j|].
    intros Hr. apply Hd. by eapply Hin.
  - intros [(u & j & Hj & E) Hr]. exists u, j. split; [done|]. rewrite decide_False; [done|].
    intros Hd. apply Hr. by eapply Hin.
Qed.

Lemma memset_pages_ok n : ∀ st pages word,
  (∀ a, in_run pages (Z.of_nat n) a → is_Some (frames st !! a)) →
  ∃ m, memset_pages pages word n st = Ok (tt, set_frames m st) ∧
    filled (frames st) m pages (Z.of_nat n) word.
Proof.
  induction n as [|n IH]; intros st pages word Hm.
  { exists (frames st). split; [by destruct st|]. intros a. split; [|done]. intros (k & ? & _). lia. }
  destruct (Hm pages) as [ws Ews]; [exists 0; lia|]. simpl memset_pages.
  erewrite bind_ok by apply get_ok. rewrite Ews.
  destruct (IH (set_frames (<[pages := repeat word word_cnt]> (frames st)) st) (pages + PGSIZE) word)
    as (m & E & Hf).
  { intros a (k & Hk & ->). simpl. rewrite lookup_insert_is_Some'. right. apply Hm. exists (k + 1).
    change PGSIZE with 4096. lia. }
  exists m. split; [exact E|]. intros a. destruct (Hf a) as [H1 H2]. change PGSIZE with 4096 in *.
  simpl in *. split.
  - intros (k & Hk & ->). destruct (decide (k = 0)) as [->|Nk].
    + rewrite H2, Z.mul_0_r, Z.add_0_r; [by rewrite lookup_insert_eq|]. intros (k' & ? & ?). lia.
    + apply H1. exists (k - 1). lia.
  - intros Nr. rewrite H2.
    + rewrite lookup_insert_ne; [done|]. intros <-. apply Nr. exists 0. lia.
    + intros (k & Hk & ->). apply Nr. exists (k + 1). lia.
Qed.

Lemma filled_dom m m' pages n word :
  (∀ a, in_run pages n a → is_Some (m !! a)) → filled m m' pages n word → dom m' = dom m.
Proof.
  intros Hm Hf. apply set_eq. intros a. rewrite !elem_of_dom. destruct (Hf a) as [H1 H2].
  destruct (decide (Exists (λ k, a = pages + 4096 * k) (seqZ 0 n))) as [Hd|Hd].
  - apply Exists_exists in Hd as (k & Hk%elem_of_seqZ & ->).
    assert (in_run pages n (pages + 4096 * k)) as Hr by (exists k; lia).
    rewrite H1 by done. split; intros; [by apply Hm|by eexists].
  - rewrite H2; [done|]. intros (k & Hk & ->). apply Hd, Exists_exists. exists k.
    split; [apply elem_of_seqZ; lia|done].
Qed.

Lemma filled_pages m m' pages n word :
  0 ≤ word < 2 ^ 32 → map_Forall (λ _, page_ok) m → filled m m' pages n word →
  map_Forall (λ _, page_ok) m'.
Proof.
  intros Hw Hm Hf a ws E. destruct (Hf a) as [H1 H2].
  destruct (decide (Exists (λ k, a = pages + 4096 * k) (seqZ 0 n))) as [Hd|Hd].
  - apply Exists_exists in Hd as (k & Hk%elem_of_seqZ & ->).
    rewrite H1 in E by (exists k; lia). apply (inj Some) in E as <-.
    by apply page_ok_repeat.
  - rewrite H2 in E; [by eapply Hm|]. intros (k & Hk & ->). apply Hd, Exists_exists. exists k.
    split; [apply elem_of_seqZ; lia|done].
Qed.

Lemma inv_set_frames st m :
  mem_inv st → dom m = dom (frames st) → map_Forall (λ _, page_ok) m → mem_inv (set_frames m st).
Proof.
  intros [Hp Hd Hdom Hw] Hm Hf. split; [|done| |done].
  - intros u. by destruct u; [apply (Hp true)|apply (Hp false)].
  - intros a. simpl. rewrite <-elem_of_dom, Hm, elem_of_dom, Hdom. by repeat (f_equiv; intros ?).
Qed.

Lemma run_frames st user pages n a :
  mem_inv st → run_in_pool st user pages n → in_run pages n a → is_Some (frames st !! a) ∧ kpage a.
Proof.
  intros HI (i & Hi & Hn & ->) (k & Hk & ->). destruct (mi_pool _ HI user) as [_ [[? ?] _] ?].
  split.
  - apply (mi_dom _ HI). exists user, (i + k). split; lia.
  - split; [lia|]. dlia.
Qed.

Lemma page_from_pool_ok p page :
  pool_ok p → page mod 4096 = 0 → page_from_pool p page = true ↔ ∃ i, pool_page p i page.
Proof.
  intros [Hwf [[Hr Ha] _] He] Hp. unfold page_from_pool, bitmap_size. rewrite !pg_no_div.
  pose proof (wf_cnt _ Hwf). unfold PHYS_BASE in *.
  rewrite u32_small by dlia. rewrite andb_true_iff, Z.leb_le, Z.ltb_lt. split.
  - intros. exists (page / 4096 - base p / 4096). split; [lia|dlia].
  - intros (i & Hi & ->). split; dlia.
Qed.

(** No [n] adjacent free pages in the pool. *)
Definition no_free_run (st : memory) (user : bool) (n : Z) : Prop :=
  ∀ pages, run_in_pool st user pages n → ∃ a, in_run pages n a ∧ used st a.

Lemma used_pool_page st user i :
  mem_inv st → 0 ≤ i < bit_cnt (used_map (get_pool user st)) →
  used st (base (get_pool user st) + 4096 * i) ↔ bit (used_map (get_pool user st)) i = true.
Proof.
  intros HI Hi. assert (pool_page (get_pool user st) i (base (get_pool user st) + 4096 * i)) as Hp
    by (by split). split; [|by exists user, i].
  intros (u & j & Hj & E). by destruct (pool_page_inj _ _ _ _ _ _ HI Hj Hp) as [-> ->].
Qed.

Lemma set_map_id st user : set_used_map user (used_map (get_pool user st)) st = st.
Proof. by destruct user, st as [[] [] ?]. Qed.

Definition wants (flags f : Z) : bool := negb (Z.land flags f =? 0).

Lemma no_group_no_run st user n :
  mem_inv st → 0 < n →
  no_group (used_map (get_pool user st)) 0 (bit_cnt (used_map (get_pool user st)) - n + 1) n false →
  no_free_run st user n.
Proof.
  intros HI Hn Hno pages (i & Hi & Hin & ->). pose proof (po_wf _ (mi_pool _ HI user)) as Hwf.
  destruct (bitmap_contains_ok (used_map (get_pool user st)) i n true) as ([] & _ & Hc); [done|lia..| |].
  - destruct Hc as (j & Hj & Ej). exists (base (get_pool user st) + 4096 * j).
    split; [exists (j - i); lia|]. apply used_pool_page; [done|lia|done].
  - exfalso. apply (Hno i); [lia|done].
Qed.

Lemma same_runs_map st user b :
  bit_cnt b = bit_cnt (used_map (get_pool user st)) → same_runs st (set_used_map user b st).
Proof.
  intros Hb u p k. unfold run_in_pool. rewrite get_pool_set. destruct (Bool.eqb_spec u user) as [->|]; [|done].
  simpl. by rewrite Hb.
Qed.

(** Setting the bits of a group of free pages takes the run they form. *)
Lemma take_run st user b i n :
  mem_inv st → 0 ≤ i → 0 < n → i + n ≤ bit_cnt (used_map (get_pool user st)) →
  all_bits (used_map (get_pool user st)) i n false → bits_set (used_map (get_pool user st)) b i n true →
  let pages := base (get_pool user st) + 4096 * i in
  let st' := set_used_map user b st in
  mem_inv st' ∧ run_in_pool st user pages n ∧ same_runs st st' ∧
  (∀ a, in_run pages n a → ¬ used st a) ∧ (∀ a, used st' a ↔ used st a ∨ in_run pages n a).
Proof.
  intros HI Hi Hn Hin Hfree Hb pages st'. split_and!.
  - apply inv_set_map; [done|apply Hb..].
  - by exists i.
  - by apply same_runs_map, Hb.
  - intros a (k & Hk & ->). unfold pages. rewrite <-Z.add_assoc, <-Z.mul_add_distr_l.
    rewrite used_pool_page by (done || lia). rewrite Hfree by lia. done.
  - intros a. by apply (used_set_map st user b i n true).
Qed.

(** Filling a run of a pool keeps the invariant. *)
Lemma fill_run st user pages n word :
  mem_inv st → run_in_pool st user pages n → 0 ≤ n → 0 ≤ word < 2 ^ 32 →
  ∃ m, memset_pages pages word (Z.to_nat n) st = Ok (tt, set_frames m st) ∧
    filled (frames st) m pages n word ∧ mem_inv (set_frames m st).
Proof.
  intros HI Hrun Hn Hw.
  assert (∀ a, in_run pages n a → is_Some (frames st !! a)) as Hm
    by (intros a Ha; by apply (run_frames _ user pages n)).
  destruct (memset_pages_ok (Z.to_nat n) st pages word) as (m & Em & Hf).
  { by rewrite Z2Nat.id. }
  rewrite Z2Nat.id in Hf by lia. exists m. split_and!; [done..|].
  apply inv_set_frames; [done|by eapply filled_dom|].
  by eapply filled_pages, Hf; [|apply mi_words].
Qed.

Lemma used_set_frames st m a : used (set_frames m st) a ↔ used st a.
Proof. unfold used. by f_equiv; intros []. Qed.

Lemma run_set_frames st m user pages n :
  run_in_pool (set_frames m st) user pages n ↔ run_in_pool st user pages n.
Proof. by destruct user. Qed.

Lemma frames_set_map st user b : frames (set_used_map user b st) = frames st.
Proof. by destruct user. Qed.

(** The address of a page of a pool is computed without wrap-around. *)
Lemma pool_address st user i :
  mem_inv st → 0 ≤ i < bit_cnt (used_map (get_pool user st)) →
  u32 (base (get_pool user st) + u32 (PGSIZE * i)) = base (get_pool user st) + 4096 * i ∧
  base (get_pool user st) + 4096 * i =? NULL = false.
Proof.
  intros HI Hi. destruct (mi_pool _ HI user) as [_ [[? _] _] ?]. change PGSIZE with 4096.
  unfold NULL, PHYS_BASE in *. rewrite (u32_small (4096 * i)), u32_small by lia.
  split; [done|]. apply Z.eqb_neq. lia.
Qed.

Definition get_spec (st : memory) (flags n : Z) (r : result (Z * memory)) : Prop :=
  let user := wants flags PAL_USER in
  (no_free_run st user n ∧
   r = if wants flags PAL_ASSERT then Err KernelPanic else Ok (NULL, st)) ∨
  (∃ pages st', r = Ok (pages, st') ∧ mem_inv st' ∧
     run_in_pool st user pages n ∧ same_runs st st' ∧
     (∀ a, in_run pages n a → ¬ used st a) ∧
     (∀ a, used st' a ↔ used st a ∨ in_run pages n a) ∧
     (if wants flags PAL_ZERO then filled (frames st) (frames st') pages n 0
      else frames st' = frames st)).

Lemma get_multiple_ok st flags n :
  mem_inv st → 0 < n < 2 ^ 32 → get_spec st flags n (palloc_get_multiple flags n st).
Proof.
  intros HI Hn. unfold get_spec. set (user := wants flags PAL_USER).
  pose proof (po_wf _ (mi_pool _ HI user)) as Hwf. pose proof (wf_cnt _ Hwf) as Hc.
  destruct (bitmap_scan_and_flip_ok (used_map (get_pool user st)) 0 n false Hwf) as (r & b & E & Hg & Hb);
    [lia..|].
  unfold palloc_get_multiple. rewrite (proj2 (Z.eqb_neq n 0)) by lia. fold (wants flags PAL_USER) user.
  erewrite bind_ok by apply get_ok. erewrite bind_ok by (unfold lift; by rewrite E).
  erewrite bind_ok by done. cbn [fst snd].
  destruct Hg as [(Hr0 & Hr1 & Hr2 & _)|[-> Hno]].
  - rewrite (proj2 (Z.eqb_neq r BITMAP_ERROR)) in * by (unfold BITMAP_ERROR, SIZE_MAX; lia).
    right. cbn [negb]. destruct (pool_address st user r) as [-> ->]; [done|lia|]. cbn [negb].
    destruct (take_run st user b r n) as (HI' & Hrun & Hrun' & Hfree & Hu); try done; [lia|apply Hb|].
    set (pages := base (get_pool user st) + 4096 * r) in *. fold (wants flags PAL_ZERO).
    destruct (wants flags PAL_ZERO) eqn:Ez.
    + destruct (fill_run (set_used_map user b st) user pages n 0) as (m & Em & Hf & HI2); [done|by apply Hrun'|lia..|].
      rewrite frames_set_map in Hf.
      exists pages, (set_frames m (set_used_map user b st)). split; [by erewrite bind_ok by exact Em|].
      split_and!; [done|done|intros u p k; by rewrite run_set_frames|done| |done].
      intros a. by rewrite used_set_frames.
    + exists pages, (set_used_map user b st). split_and!; try done. apply frames_set_map.
  - left. rewrite Z.eqb_refl in *. subst b. cbn [negb]. rewrite Z.eqb_refl. cbn [negb].
    split; [apply no_group_no_run; [done|lia|done]|].
    rewrite set_map_id. fold (wants flags PAL_ASSERT). by destruct (wants flags PAL_ASSERT).
Qed.

(** The pool and the index that [palloc_free_multiple] finds for a run. *)
Lemma find_pool_ok st user pages n :
  mem_inv st → run_in_pool st user pages n → 0 < n →
  (if page_from_pool (kernel_pool st) pages then mret false
   else if page_from_pool (user_pool st) pages then mret true
   else fail NotReached) st = Ok (user, st) ∧
  u32 (pg_no pages - pg_no (base (get_pool user st))) = (pages - base (get_pool user st)) / 4096 ∧
  pg_ofs pages =? 0 = true ∧ pages =? NULL = false.
Proof.
  intros HI (i & Hi & Hin & Hp) Hn.
  assert (pool_page (get_pool user st) i pages) as Hpp by (split; [lia|done]).
  destruct (mi_pool _ HI user) as [Hwf [[Hb Ha] _] He]. unfold NULL, PHYS_BASE in *.
  assert (pages mod 4096 = 0) as Hm by dlia.
  assert (∀ u, page_from_pool (get_pool u st) pages = true ↔ u = user) as Hpf.
  { intros u. rewrite page_from_pool_ok by (done || apply mi_pool, HI). split.
    - intros (j & Hj). by destruct (pool_page_inj _ _ _ _ _ _ HI Hj Hpp).
    - intros ->. by exists i. }
  split_and!.
  - pose proof (Hpf false) as Hk. pose proof (Hpf true) as Hu. simpl in Hk, Hu. destruct user.
    + destruct (page_from_pool (kernel_pool st) pages); [by destruct Hk as [Hk _]; discriminate Hk|].
      by rewrite (proj2 Hu).
    + by rewrite (proj2 Hk).
  - rewrite !pg_no_div. rewrite u32_small; dlia.
  - by rewrite pg_ofs_mod, Hm.
  - apply Z.eqb_neq. lia.
Qed.

Lemma free_multiple_ok st user pages n :
  mem_inv st → run_in_pool st user pages n → 0 < n →
  ((∀ a, in_run pages n a → used st a) →
   ∃ st', palloc_free_multiple pages n st = Ok (tt, st') ∧ mem_inv st' ∧ same_runs st st' ∧
     (∀ a, used st' a ↔ used st a ∧ ¬ in_run pages n a) ∧
     filled (frames st) (frames st') pages n 0xcccccccc) ∧
  ((∃ a, in_run pages n a ∧ ¬ used st a) → palloc_free_multiple pages n st = Err AssertFail).
Proof.
  intros HI Hrun Hn. pose proof (find_pool_ok st user pages n HI Hrun Hn) as (Ef & Ei & Eo & Enull).
  pose proof (po_wf _ (mi_pool _ HI user)) as Hwf. pose proof Hrun as (i & Hi & Hin & Hp).
  assert ((pages - base (get_pool user st)) / 4096 = i) as Ediv by (subst pages; dlia). rewrite Ediv in Ei.
  destruct (fill_run st user pages n 0xcccccccc HI Hrun) as (m & Em & Hf & HI2); [lia..|].
  destruct (bitmap_all_ok (used_map (get_pool user st)) i n) as (al & Ea & Hal); [done|lia..|].
  destruct (bitmap_set_multiple_ok (used_map (get_pool user st)) i n false) as (b & Eb & Hb); [done|lia..|].
  assert (∀ k, 0 ≤ k < n → used st (pages + 4096 * k) ↔ bit (used_map (get_pool user st)) (i + k) = true) as Hu.
  { intros k Hk. rewrite <-used_pool_page by (done || lia). f_equiv. lia. }
  unfold palloc_free_multiple. rewrite Eo, Enull, (proj2 (Z.eqb_neq n 0)) by lia. cbn [orb].
  erewrite bind_ok by done. erewrite bind_ok by apply get_ok. erewrite bind_ok by exact Ef.
  erewrite bind_ok by exact Em. rewrite Ei. erewrite bind_ok by (unfold lift; by rewrite Ea). split.
  - intros Hall. destruct al; cycle 1.
    { destruct Hal as (j & Hj & Ej). destruct (Hu (j - i)) as [H _]; [lia|].
      replace (i + (j - i)) with j in H by lia. rewrite H in Ej; [done|]. apply Hall. exists (j - i). lia. }
    erewrite bind_ok by done. erewrite bind_ok by (unfold lift; by rewrite Eb).
    pose proof (used_set_map st user b i n false) as Hu'. rewrite <-Hp in Hu'.
    exists (set_used_map user b (set_frames m st)). split_and!; [done| | | |by destruct user].
    + apply inv_set_map; [done|apply Hb|]. by destruct user; apply Hb.
    + intros u p k. rewrite <-(run_set_frames st m). apply same_runs_map. destruct Hb as (_ & -> & _). by destruct user.
    + intros a. rewrite <-Hu' by (done || lia). unfold used. f_equiv. intros u. f_equiv. intros j.
      by destruct u, user.
  - intros (a & (k & Hk & ->) & Hna). destruct al; [|done]. exfalso. apply Hna, Hu; [done|]. apply Hal. lia.
Qed.

(** The number of pages that the bitmap of a pool of [n] pages takes. *)
Definition map_pages (n : Z) : Z := (8 + 4 * ((n + 31) / 32) + 4095) / 4096.

Lemma init_pool_ok ram b n :
  kpage b → 1 ≤ n → b + 4096 * n < 2 ^ 32 →
  ∃ p, init_pool ram b n = Ok p ∧ pool_ok p ∧ base p = b + 4096 * map_pages n ∧
    bit_cnt (used_map p) = n - map_pages n ∧ (∀ j, 0 ≤ j < bit_cnt (used_map p) → bit (used_map p) j = false).
Proof.
  intros Hk Hn Hend. pose proof Hk as [Hb Ha]. unfold PHYS_BASE in Hb.
  assert (∀ k, 0 ≤ k ≤ n → elem_cnt k = (k + 31) / 32) as Hec by (intros; apply elem_cnt_exact; lia).
  assert (∀ k, 0 ≤ k ≤ n → bitmap_buf_size k = 8 + 4 * ((k + 31) / 32)) as Hbuf.
  { intros k Hk'. unfold bitmap_buf_size, byte_cnt. rewrite Hec by lia.
    rewrite (u32_small (4 * _)), u32_small by dlia. done. }
  assert (1 ≤ map_pages n ≤ n) as Hmp by (unfold map_pages; dlia).
  unfold init_pool. rewrite Hbuf by lia. change PGSIZE with 4096.
  rewrite (u32_small (8 + _ + 4096 - 1)) by dlia.
  replace (8 + 4 * ((n + 31) / 32) + 4096 - 1) with (8 + 4 * ((n + 31) / 32) + 4095) by lia.
  fold (map_pages n).
  destruct (Z.gtb_spec (map_pages n) n) as [|_]; [lia|].
  set (junk := _ <$> seqZ 0 (elem_cnt (n - map_pages n))).
  destruct (bitmap_create_in_buf_ok (n - map_pages n) junk (u32 (map_pages n * 4096))) as (bm & E & Hw & Hc & Hz & _).
  - split; simpl; [lia| |].
    + unfold junk. rewrite length_fmap, length_seqZ. rewrite Hec by lia. dlia.
    + apply Forall_fmap, Forall_true. intros. apply u32_range.
  - rewrite Hbuf, u32_small by lia. unfold map_pages. dlia.
  - rewrite E. eexists. split; [done|]. rewrite (u32_small (map_pages n * 4096)), u32_small by lia.
    unfold bitmap_size in Hc. split_and!; simpl; [|lia|done|].
    + split; simpl; [done| |rewrite Hc; lia].
      unfold kpage, PHYS_BASE. split; [|lia]. split; [lia|]. dlia.
    + intros j Hj. apply Hz. lia.
Qed.

Lemma elem_of_pool_pages p a : a ∈ pool_pages p ↔ ∃ i, pool_page p i a.
Proof.
  unfold pool_pages, pool_page, bitmap_size. rewrite list_elem_of_fmap. change PGSIZE with 4096.
  f_equiv. intros i. rewrite elem_of_seqZ, Z.add_0_l. tauto.
Qed.

Lemma page_of_ok ram a : page_ok (page_of ram a).
Proof.
  split; [unfold page_of; by rewrite length_fmap, length_seq|].
  apply Forall_fmap, Forall_true. intros. apply u32_range.
Qed.

Lemma initial_frames_ok ram k u :
  (∀ a, is_Some (initial_frames ram k u !! a) ↔ (∃ i, pool_page k i a) ∨ (∃ i, pool_page u i a)) ∧
  map_Forall (λ _, page_ok) (initial_frames ram k u).
Proof.
  unfold initial_frames. split.
  - intros a. rewrite <-elem_of_dom, dom_list_to_map_L, elem_of_list_to_set, <-list_fmap_compose.
    unfold compose. simpl. rewrite list_fmap_id, elem_of_app, !elem_of_pool_pages. done.
  - intros a ws H%elem_of_list_to_map_2. apply list_elem_of_fmap in H as (a' & [= -> ->] & _).
    apply page_of_ok.
Qed.

(** The pages that [palloc_init] gives to the user pool. *)
Definition user_share (init_ram_pages user_page_limit : Z) : Z :=
  Z.min ((init_ram_pages - 256) / 2) user_page_limit.

(** The two pools lie next to each other in free memory. *)
Lemma two_pools_ok ram k u :
  1 ≤ k → 1 ≤ u → k + u < 2 ^ 18 - 256 →
  ∃ kp up, init_pool ram (PHYS_BASE + 1048576) k = Ok kp ∧
    init_pool ram (PHYS_BASE + 1048576 + k * 4096) u = Ok up ∧
    let st := mk_memory kp up (initial_frames ram kp up) in
    mem_inv st ∧ (∀ a, ¬ used st a) ∧
    base kp = PHYS_BASE + 1048576 + 4096 * map_pages k ∧ bit_cnt (used_map kp) = k - map_pages k ∧
    base up = PHYS_BASE + 1048576 + 4096 * (k + map_pages u) ∧ bit_cnt (used_map up) = u - map_pages u.
Proof.
  intros Hk Hu Hsum.
  destruct (init_pool_ok ram (PHYS_BASE + 1048576) k) as (kp & Ek & Hkok & Hkb & Hkc & Hkz);
    [|lia|unfold PHYS_BASE; lia|].
  { unfold kpage, PHYS_BASE. split; [lia|done]. }
  destruct (init_pool_ok ram (PHYS_BASE + 1048576 + k * 4096) u) as (up & Eu & Huok & Hub & Huc & Huz);
    [|lia|unfold PHYS_BASE; lia|].
  { unfold kpage, PHYS_BASE. split; [lia|]. dlia. }
  exists kp, up. split; [done|]. split; [done|]. intros st. split_and!; [| |done|done|lia|done].
  - destruct (initial_frames_ok ram kp up) as [Hd Hw]. split; [by intros []| |intros a; simpl; rewrite Hd|done].
    + simpl. assert (0 < map_pages u) by (unfold map_pages; dlia). lia.
    + split; [intros [[i ?]|[i ?]]; [by exists false, i|by exists true, i]|].
      intros ([] & i & ?); eauto.
  - intros a ([] & i & [Hp _] & E); simpl in *; [by rewrite Huz in E|by rewrite Hkz in E].
Qed.

Lemma palloc_init_eq ram init_ram_pages user_page_limit u k :
  258 ≤ init_ram_pages < 2 ^ 18 → 1 ≤ user_page_limit →
  u = user_share init_ram_pages user_page_limit → k = init_ram_pages - 256 - u →
  1 ≤ u ∧ 1 ≤ k ∧ palloc_init ram init_ram_pages user_page_limit =
    (kp ← init_pool ram (PHYS_BASE + 1048576) k;
     up ← init_pool ram (PHYS_BASE + 1048576 + k * 4096) u;
     Ok (mk_memory kp up (initial_frames ram kp up))).
Proof.
  intros Hr Hl Eu Ek.
  assert (1 ≤ u ≤ (init_ram_pages - 256) / 2) as Hu by (subst u; unfold user_share; dlia).
  assert (1 ≤ k ∧ k + u = init_ram_pages - 256) as [Hk Hsum] by dlia. split_and!; [lia..|].
  unfold palloc_init. rewrite !PGSIZE_eq.
  rewrite (u32_small (init_ram_pages * 4096)) by lia.
  erewrite !result_bind_ok by (apply ptov_ok; lia). cbv beta.
  replace (init_ram_pages * 4096 + PHYS_BASE - (1024 * 1024 + PHYS_BASE)) with
    ((init_ram_pages - 256) * 4096) by lia.
  rewrite Z.quot_mul, (u32_small (init_ram_pages - 256)) by lia.
  assert ((if (init_ram_pages - 256) / 2 >? user_page_limit then user_page_limit
           else (init_ram_pages - 256) / 2) = u) as ->.
  { rewrite Eu. unfold user_share. destruct (Z.gtb_spec ((init_ram_pages - 256) / 2) user_page_limit); lia. }
  rewrite <-Ek, (u32_small k), (u32_small (k * 4096)), u32_small by (unfold PHYS_BASE; lia).
  replace (1024 * 1024 + PHYS_BASE) with (PHYS_BASE + 1048576) by lia. done.
Qed.

Lemma palloc_init_ok ram init_ram_pages user_page_limit :
  258 ≤ init_ram_pages < 2 ^ 18 → 1 ≤ user_page_limit →
  let u := user_share init_ram_pages user_page_limit in
  let k := init_ram_pages - 256 - u in
  ∃ st, palloc_init ram init_ram_pages user_page_limit = Ok st ∧ mem_inv st ∧
    (∀ a, ¬ used st a) ∧
    base (kernel_pool st) = PHYS_BASE + 1048576 + 4096 * map_pages k ∧
    bit_cnt (used_map (kernel_pool st)) = k - map_pages k ∧
    base (user_pool st) = PHYS_BASE + 1048576 + 4096 * (k + map_pages u) ∧
    bit_cnt (used_map (user_pool st)) = u - map_pages u.
Proof.
  intros Hr Hl u k.
  destruct (palloc_init_eq ram init_ram_pages user_page_limit u k) as (Hu & Hk & E); [done..|].
  destruct (two_pools_ok ram k u) as (kp & up & Ek & Eu & H); [done|done|subst k; lia|].
  rewrite E, Ek, Eu. eexists. split; [done|]. exact H.
Qed.

(** ** The interface *)

Lemma used_is_kpage st a : mem_inv st → used st a → kpage a ∧ is_Some (frames st !! a).
Proof.
  intros HI (u & i & [Hi Hp] & _).
  destruct (run_frames st u a 1 a) as [? ?]; [done| |by apply in_run_one|done]. exists i. lia.
Qed.

Lemma get_page_any st flags :
  mem_inv st →
  palloc_get_page flags st = (if wants flags PAL_ASSERT then Err KernelPanic else Ok (NULL, st)) ∨
  ∃ a st', palloc_get_page flags st = Ok (a, st') ∧ mem_inv st' ∧ kpage a ∧ ¬ used st a ∧
    (∀ b, used st' b ↔ used st b ∨ b = a) ∧ (∀ b, b ≠ a → frames st' !! b = frames st !! b) ∧
    (Z.land flags PAL_ZERO ≠ 0 → frames st' !! a = Some (repeat 0 word_cnt)).
Proof.
  intros HI. unfold palloc_get_page.
  destruct (get_multiple_ok st flags 1 HI) as [[_ E]|(a & st' & E & HI' & Hr & _ & Hf & Hu & Hfr)]; [lia|by left|right].
  exists a, st'. split_and!; [done..| | | | |].
  - by apply (run_frames st (wants flags PAL_USER) a 1 a HI Hr), in_run_one.
  - by apply Hf, in_run_one.
  - intros b. by rewrite Hu, in_run_one.
  - intros b Hb. destruct (wants flags PAL_ZERO); [|by rewrite Hfr]. apply Hfr. by rewrite in_run_one.
  - intros Hz. unfold wants in Hfr. rewrite (proj2 (Z.eqb_neq _ _) Hz) in Hfr. apply Hfr. by apply in_run_one.
Qed.

Lemma get_page_spec st flags :
  mem_inv st → Z.land flags PAL_ASSERT = 0 →
  ∃ a st', palloc_get_page flags st = Ok (a, st') ∧ mem_inv st' ∧
    ((a = NULL ∧ st' = st) ∨
     (kpage a ∧ ¬ used st a ∧ (∀ b, used st' b ↔ used st b ∨ b = a) ∧
      (∀ b, b ≠ a → frames st' !! b = frames st !! b) ∧
      (Z.land flags PAL_ZERO ≠ 0 → frames st' !! a = Some (repeat 0 word_cnt)))).
Proof.
  intros HI Ha. destruct (get_page_any st flags HI) as [E|(a & st' & E & HI' & Hc)].
  - unfold wants in E. rewrite Ha in E. exists NULL, st. split_and!; [done..|by left].
  - exists a, st'. split_and!; [done..|by right].
Qed.

Lemma get_page_assert_spec st flags :
  mem_inv st → Z.land flags PAL_ASSERT ≠ 0 →
  palloc_get_page flags st = Err KernelPanic ∨
  ∃ a st', palloc_get_page flags st = Ok (a, st') ∧ mem_inv st' ∧ kpage a ∧ ¬ used st a ∧
    (∀ b, used st' b ↔ used st b ∨ b = a) ∧ (∀ b, b ≠ a → frames st' !! b = frames st !! b) ∧
    (Z.land flags PAL_ZERO ≠ 0 → frames st' !! a = Some (repeat 0 word_cnt)).
Proof.
  intros HI Ha. destruct (get_page_any st flags HI) as [E|?]; [left|by right].
  unfold wants in E. by rewrite (proj2 (Z.eqb_neq _ _) Ha) in E.
Qed.

Lemma free_page_spec st a :
  mem_inv st → used st a →
  ∃ st', palloc_free_page a st = Ok (tt, st') ∧ mem_inv st' ∧
    (∀ b, used st' b ↔ used st b ∧ b ≠ a) ∧ (∀ b, b ≠ a → frames st' !! b = frames st !! b).
Proof.
  intros HI Hu. pose proof Hu as (u & i & [Hi Hp] & _).
  destruct (free_multiple_ok st u a 1 HI) as [Hok _]; [exists i; lia|lia|].
  destruct Hok as (st' & E & HI' & _ & Hu' & Hf); [intros b ->%in_run_one; done|].
  exists st'. split_and!; [done..| |].
  - intros b. by rewrite Hu', in_run_one.
  - intros b Hb. apply Hf. by rewrite in_run_one.
Qed.

#[export] Instance palloc_allocator : PageAllocator memory := {
  get_page := palloc_get_page;
  free_page := palloc_free_page;
  mem := frames;
  set_mem := set_frames;
  used_page := used;
  pa_ok := mem_inv;
  mem_set m s := eq_refl;
  set_set m m' s := eq_refl;
  used_set m s a := used_set_frames s m a;
  set_ok m s := inv_set_frames s m;
  mem_ok := mi_words;
  used_mem := used_is_kpage;
  get_page_ok := get_page_spec;
  get_page_assert := get_page_assert_spec;
  free_page_ok := free_page_spec
}.

Lemma get_run_spec st flags n :
  mem_inv st → 0 ≤ n < 2 ^ 32 → Z.land flags PAL_ASSERT = 0 →
  ∃ a st', palloc_get_multiple flags n st = Ok (a, st') ∧ mem_inv st' ∧
    ((a = NULL ∧ st' = st) ∨
     (0 < n ∧ (∃ user, run_in_pool st' user a n) ∧
      (∀ b k, (∃ user, run_in_pool st user b k) → ∃ user, run_in_pool st' user b k) ∧
      (∀ b, in_run a n b → ¬ used st b) ∧ (∀ b, used st' b ↔ used st b ∨ in_run a n b) ∧
      (∀ b, ¬ in_run a n b → frames st' !! b = frames st !! b))).
Proof.
  intros HI Hn Ha. destruct (decide (n = 0)) as [->|Nn]; [exists NULL, st; by split_and!; [..|left]|].
  destruct (get_multiple_ok st flags n HI) as [[_ E]|(a & st' & E & HI' & Hr & Hs & Hf & Hu & Hfr)]; [lia| |].
  - unfold wants in E. rewrite Ha in E. exists NULL, st. split_and!; [done..|]. by left.
  - exists a, st'. split_and!; [done..|]. right. split_and!; [lia| | |done|done|].
    + eexists. by apply Hs.
    + intros b k [u Hb]. exists u. by apply Hs.
    + intros b Hb. destruct (wants flags PAL_ZERO); [by apply Hfr|by rewrite Hfr].
Qed.

Lemma free_run_spec st a n :
  mem_inv st → 0 < n → (∃ user, run_in_pool st user a n) → (∀ b, in_run a n b → used st b) →
  ∃ st', palloc_free_multiple a n st = Ok (tt, st') ∧ mem_inv st' ∧
    (∀ b k, (∃ user, run_in_pool st user b k) → ∃ user, run_in_pool st' user b k) ∧
    (∀ b, used st' b ↔ used st b ∧ ¬ in_run a n b) ∧ (∀ b, ¬ in_run a n b → frames st' !! b = frames st !! b).
Proof.
  intros HI Hn [u Hr] Hu. destruct (free_multiple_ok st u a n HI Hr Hn) as [Hok _].
  destruct (Hok Hu) as (st' & E & HI' & Hs & Hu' & Hf). exists st'. split_and!; [done..| |done|].
  - intros b k [v Hb]. exists v. by apply Hs.
  - intros b Hb. by apply Hf.
Qed.

Lemma used_run_spec st a : mem_inv st → used st a → ∃ user, run_in_pool st user a 1.
Proof. intros _ (u & i & [Hi Ha] & _). exists u, i. lia. Qed.

Lemma run_set_spec m st a n :
  (∃ user, run_in_pool (set_frames m st) user a n) ↔ ∃ user, run_in_pool st user a n.
Proof. f_equiv. intros u. apply run_set_frames. Qed.

#[export] Instance palloc_runs : PageRuns memory := {
  get_multiple := palloc_get_multiple;
  free_multiple := palloc_free_multiple;
  page_run st a n := ∃ user, run_in_pool st user a n;
  get_page_multiple flags s := eq_refl;
  free_page_multiple a s := eq_refl;
  run_set := run_set_spec;
  used_run := used_run_spec;
  get_run_ok := get_run_spec;
  free_run_ok := free_run_spec
}.

(** ** Properties *)

(** C28: [palloc_get_multiple] returns a run of pages of the requested pool that
    were all free, marks exactly these as used and zeroes them on request; it
    returns a null pointer (or panics with PAL_ASSERT) and changes nothing
    exactly when the pool has no run of that length, and for no pages. *)
Theorem palloc_get_multiple_correct st flags n :
  mem_inv st → 0 ≤ n < 2 ^ 32 →
  if n =? 0 then palloc_get_multiple flags n st = Ok (NULL, st)
  else get_spec st flags n (palloc_get_multiple flags n st).
Proof.
  intros HI Hn. destruct (Z.eqb_spec n 0) as [->|Nn]; [done|]. apply get_multiple_ok; [done|lia].
Qed.

(** C29: freeing is the inverse of allocation: the pages that
    [palloc_get_multiple] returned can be freed, which overwrites them with
    0xcc and leaves used exactly the pages that were used before, and freeing
    them a second time fails the assertion. *)
Theorem palloc_free_correct st flags n pages st' :
  mem_inv st → 0 < n < 2 ^ 32 → palloc_get_multiple flags n st = Ok (pages, st') → pages ≠ NULL →
  ∃ st'', palloc_free_multiple pages n st' = Ok (tt, st'') ∧ mem_inv st'' ∧
    (∀ a, used st'' a ↔ used st a) ∧
    filled (frames st') (frames st'') pages n 0xcccccccc ∧
    palloc_free_multiple pages n st'' = Err AssertFail.
Proof.
  intros HI Hn E Np. pose proof (get_multiple_ok st flags n HI Hn) as Hg. rewrite E in Hg.
  destruct Hg as [[_ E']|(p & s & [= <- <-] & HI' & Hr & Hr' & Hfree & Hu & _)].
  { by destruct (wants flags PAL_ASSERT); simplify_eq. }
  destruct (free_multiple_ok st' (wants flags PAL_USER) pages n HI') as [Hok _]; [by apply Hr'|lia|].
  destruct Hok as (st'' & E2 & HI2 & Hr2 & Hu2 & Hf); [intros a Ha; apply Hu; by right|].
  assert (∀ a, used st'' a ↔ used st a) as Hsame.
  { intros a. rewrite Hu2, Hu. specialize (Hfree a). tauto. }
  exists st''. split_and!; [done..|].
  apply (free_multiple_ok st'' (wants flags PAL_USER) pages n HI2); [by apply Hr2, Hr'|lia|].
  assert (in_run pages n pages) by (exists 0; lia).
  exists pages. split; [done|]. rewrite Hsame. by apply Hfree.
Qed.

(** C40: on a machine with between 258 pages and 1 GB of memory, [palloc_init]
    splits the memory from 1 MB to its end into two pools, all pages free.  The
    kernel pool comes first, the user pool after it; the user pool gets half of
    the memory, but at most the limit, each pool begins with the pages of its
    bitmap, and its pages fill the rest up to the next pool or the end of
    memory. *)
Theorem palloc_init_correct ram init_ram_pages user_page_limit :
  258 ≤ init_ram_pages < 2 ^ 18 → 1 ≤ user_page_limit →
  let u := Z.min ((init_ram_pages - 256) / 2) user_page_limit in
  let k := init_ram_pages - 256 - u in
  ∃ st, palloc_init ram init_ram_pages user_page_limit = Ok st ∧ mem_inv st ∧
    (∀ a, ¬ used st a) ∧
    base (kernel_pool st) = PHYS_BASE + 1024 * 1024 + 4096 * map_pages k ∧
    bit_cnt (used_map (kernel_pool st)) = k - map_pages k ∧
    base (user_pool st) = PHYS_BASE + 1024 * 1024 + 4096 * (k + map_pages u) ∧
    base (user_pool st) + 4096 * bit_cnt (used_map (user_pool st)) = PHYS_BASE + 4096 * init_ram_pages.
Proof.
  intros Hr Hl u k. destruct (palloc_init_ok ram init_ram_pages user_page_limit Hr Hl) as (st & E & HI & Hu & Hk & Hkc & Hb & Hc).
  fold (user_share init_ram_pages user_page_limit) in u. fold u k in Hk, Hkc, Hb, Hc. exists st. split_and!; [done..|lia].
Qed.

(** ** Witnesses *)

(** A machine with 16 free pages. *)
Definition demo_memory : memory :=
  match palloc_init (λ a, a) 272 100 with
  | Ok st => st
  | Err _ => mk_memory (mk_pool (mk_bitmap 0 []) 0) (mk_pool (mk_bitmap 0 []) 0) ∅
  end.

Lemma demo_memory_inv : mem_inv demo_memory.
Proof.
  destruct (palloc_init_ok (λ a, a) 272 100) as (st & E & H & _); [lia|lia|].
  unfold demo_memory. by rewrite E.
Qed.

Definition demo_pages : result (Z * memory) := palloc_get_multiple PAL_ZERO 2 demo_memory.

Lemma demo_pages_ok : ∃ st', demo_pages = Ok (0xc0101000, st').
Proof.
  assert (match demo_pages with Ok (p, _) => p =? 0xc0101000 | Err _ => false end = true) as H
    by (vm_compute; reflexivity).
  destruct demo_pages as [[p st']|]; [|discriminate H]. apply Z.eqb_eq in H as ->. by exists st'.
Qed.

Lemma palloc_get_multiple_correct_witness : get_spec demo_memory PAL_ZERO 2 demo_pages.
Proof. apply (palloc_get_multiple_correct demo_memory PAL_ZERO 2 demo_memory_inv). lia. Defined.

Lemma palloc_free_correct_witness :
  ∃ st' st'', demo_pages = Ok (0xc0101000, st') ∧ palloc_free_multiple 0xc0101000 2 st' = Ok (tt, st'').
Proof.
  destruct demo_pages_ok as [st' E].
  destruct (palloc_free_correct demo_memory PAL_ZERO 2 0xc0101000 st' demo_memory_inv) as (st'' & E' & _);
    [lia|exact E|done|]. exists st', st''. split; [exact E|exact E'].
Defined.

Lemma palloc_init_correct_witness :
  ∃ st, palloc_init (λ a, a) 264 100 = Ok st ∧ base (kernel_pool st) = 0xc0101000 ∧ base (user_pool st) = 0xc0105000.
Proof.
  destruct (palloc_init_correct (λ a, a) 264 100) as (st & E & _ & _ & Hk & _ & Hu & _); [lia|lia|].
  exists st. split; [exact E|]. rewrite Hk, Hu. split; reflexivity.
Defined.
