(* ===== verification/PageBytes.v ===== *)
(** * The bytes of the pages

    Pages hold 1024 words.  This file gives the view of them as bytes that
    code using memory through [char] pointers has: single bytes, and the
    effect of memset and memcpy (lib/string.c) on a range of them.  Every
    write is described by one relation, [written]. *)

From S2P Require Import Prelude Bytes PageIface.

Abbreviation frames := (gmap Z (list Z)).

Definition page_at (a : Z) : Z := a / 4096 * 4096.
Definition index_at (a : Z) : nat := Z.to_nat (a mod 4096 / 4).

Definition word_at (m : frames) (a : Z) : option Z := ws ← m !! page_at a; ws !! index_at a.
Definition put_word (m : frames) (a w : Z) : frames := alter (insert (index_at a) w) (page_at a) m.

Definition byte_at (m : frames) (a : Z) : option Z := w ← word_at m a; le_encode 4 w !! Z.to_nat (a mod 4).
Definition put_byte (m : frames) (a v : Z) : frames :=
  match word_at m a with
  | Some w => put_word m a (le_decode (<[Z.to_nat (a mod 4) := v]> (le_encode 4 w)))
  | None => m
  end.

(** [memset] and [memcpy], a byte at a time. *)
Fixpoint fill (n : nat) (a v : Z) (m : frames) : result frames :=
  match n with
  | O => Ok m
  | S k => match byte_at m a with Some _ => fill k (a + 1) v (put_byte m a v) | None => Err BadAccess end
  end.

Fixpoint copy (n : nat) (dst src : Z) (m : frames) : result frames :=
  match n with
  | O => Ok m
  | S k =>
      match byte_at m src, byte_at m dst with
      | Some v, Some _ => copy k (dst + 1) (src + 1) (put_byte m dst v)
      | _, _ => Err BadAccess
      end
  end.

(** ** Words *)

Definition frames_ok (m : frames) : Prop := map_Forall (λ _, page_ok) m.

Lemma same_word a b : page_at a = page_at b ∧ index_at a = index_at b ↔ a / 4 = b / 4.
Proof.
  unfold page_at, index_at. split.
  - intros [H1 H2]. apply (f_equal Z.of_nat) in H2. rewrite !Z2Nat.id in H2 by dlia. dlia.
  - intros H. split; [dlia|]. f_equal. dlia.
Qed.

Lemma index_lt a : (index_at a < word_cnt)%nat.
Proof. unfold index_at, word_cnt. dlia. Qed.

Lemma word_at_put m a w b :
  word_at (put_word m a w) b = if decide (a / 4 = b / 4) then (λ _, w) <$> word_at m b else word_at m b.
Proof.
  unfold word_at, put_word. pose proof (same_word a b) as Hs. destruct (decide (page_at a = page_at b)) as [Ep|Np].
  - rewrite Ep, lookup_alter. rewrite decide_True by done. destruct (m !! page_at b) as [ws|]; cbn.
    + case_decide as E.
      * apply Hs in E as [_ ->]. destruct (ws !! index_at b) eqn:El; cbn.
        { apply list_lookup_insert_eq. by eapply lookup_lt_Some. }
        by rewrite list_insert_ge by (by apply lookup_ge_None).
      * rewrite list_lookup_insert_ne; [done|]. naive_solver.
    + by case_decide.
  - rewrite lookup_alter_ne by done. rewrite decide_False; [done|]. naive_solver.
Qed.

Lemma dom_put_word m a w : dom (put_word m a w) = dom m.
Proof. apply dom_alter_L. Qed.

Lemma put_word_ok m a w : frames_ok m → 0 ≤ w < 2 ^ 32 → frames_ok (put_word m a w).
Proof.
  intros Hm Hw i ws. unfold put_word. destruct (decide (page_at a = i)) as [<-|].
  - rewrite lookup_alter, decide_True by done. intros (ws' & E & ->)%fmap_Some.
    apply Hm in E as [Hl Hf]. split; [by rewrite length_insert|]. by apply Forall_insert.
  - rewrite lookup_alter_ne by done. apply Hm.
Qed.

Lemma word_at_range m a w : frames_ok m → word_at m a = Some w → 0 ≤ w < 2 ^ 32.
Proof.
  intros Hm (ws & Ep & Ew)%bind_Some. apply Hm in Ep as [_ Hf]. by apply (Forall_lookup_1 _ _ _ _ Hf Ew).
Qed.

Lemma word_at_mapped m a : frames_ok m → is_Some (m !! page_at a) → is_Some (word_at m a).
Proof.
  intros Hm [ws E]. unfold word_at. rewrite E. cbn. apply lookup_lt_is_Some_2.
  destruct (Hm _ _ E) as [-> _]. apply index_lt.
Qed.

(** ** Bytes *)

Lemma le_encode_decode bs : Forall byte_ok bs → le_encode (length bs) (le_decode bs) = bs.
Proof.
  induction 1 as [|b bs Hb _ IH]; [done|]. unfold byte_ok in Hb. cbn [le_encode le_decode length]. f_equal; [dlia|].
  replace ((b + 256 * le_decode bs) / 256) with (le_decode bs) by dlia. exact IH.
Qed.

Lemma mod4 a : (Z.to_nat (a mod 4) < 4)%nat.
Proof. dlia. Qed.

Lemma byte_at_mapped m a : frames_ok m → is_Some (m !! page_at a) → is_Some (byte_at m a).
Proof.
  intros Hm Ha. destruct (word_at_mapped m a Hm Ha) as [w E]. unfold byte_at. rewrite E. cbn -[le_encode].
  apply lookup_lt_is_Some_2. rewrite length_le_encode. apply mod4.
Qed.

Lemma byte_at_ok m a v : byte_at m a = Some v → byte_ok v.
Proof. intros (w & _ & E)%bind_Some. apply (Forall_lookup_1 _ _ _ _ (le_encode_ok 4 w) E). Qed.

Lemma byte_at_put m a v b :
  byte_ok v → byte_at (put_byte m a v) b = if decide (a = b) then (λ _, v) <$> byte_at m b else byte_at m b.
Proof.
  intros Hv. unfold put_byte. destruct (word_at m a) as [w|] eqn:Ea; cycle 1.
  { case_decide as E; [|done]. subst b. unfold byte_at. by rewrite Ea. }
  assert (le_encode 4 (le_decode (<[Z.to_nat (a mod 4):=v]> (le_encode 4 w)))
          = <[Z.to_nat (a mod 4):=v]> (le_encode 4 w)) as Ee.
  { rewrite <-(le_encode_decode (<[Z.to_nat (a mod 4):=v]> (le_encode 4 w))) at 2.
    - by rewrite length_insert, length_le_encode.
    - apply Forall_insert; [apply le_encode_ok|done]. }
  unfold byte_at. rewrite word_at_put. destruct (decide (a / 4 = b / 4)) as [E4|N4]; cycle 1.
  { rewrite decide_False; [done|]. by intros ->. }
  assert (word_at m b = Some w) as ->.
  { unfold word_at in *. apply same_word in E4 as [<- <-]. done. }
  cbn -[le_encode le_decode]. rewrite Ee. case_decide as E.
  - subst b. rewrite list_lookup_insert_eq by (rewrite length_le_encode; apply mod4).
    destruct (lookup_lt_is_Some_2 (le_encode 4 w) (Z.to_nat (a mod 4))) as [x Hx]; [rewrite length_le_encode; apply mod4|].
    by rewrite Hx.
  - apply list_lookup_insert_ne. dlia.
Qed.

Lemma put_byte_ok m a v : frames_ok m → byte_ok v → frames_ok (put_byte m a v).
Proof.
  intros Hm Hv. unfold put_byte. destruct (word_at m a); [|done]. apply put_word_ok; [done|].
  match goal with |- 0 ≤ le_decode ?l < _ => pose proof (le_decode_range l) as H end.
  rewrite length_insert, length_le_encode in H. apply H, Forall_insert; [apply le_encode_ok|done].
Qed.

Lemma dom_put_byte m a v : dom (put_byte m a v) = dom m.
Proof. unfold put_byte. destruct (word_at m a); [apply dom_put_word|done]. Qed.

(** Words are determined by their bytes. *)
Lemma word_at_bytes m m' a :
  frames_ok m → frames_ok m' → a mod 4 = 0 →
  (∀ b, a ≤ b < a + 4 → byte_at m' b = byte_at m b) → word_at m' a = word_at m a.
Proof.
  intros Hm Hm' Ha Hb.
  assert (∀ k i, (i < 4)%nat → byte_at k (a + Z.of_nat i) = w ← word_at k a; le_encode 4 w !! i) as Hk.
  { intros k i Hi. unfold byte_at, word_at. destruct (same_word (a + Z.of_nat i) a) as [_ [-> ->]]; [dlia|].
    by replace (Z.to_nat ((a + Z.of_nat i) mod 4)) with i by dlia. }
  assert (∀ i, (i < 4)%nat → (w ← word_at m' a; le_encode 4 w !! i) = (w ← word_at m a; le_encode 4 w !! i)) as H.
  { intros i Hi. rewrite <-!Hk by done. apply Hb. lia. }
  destruct (word_at m' a) as [w'|] eqn:E', (word_at m a) as [w|] eqn:E; cbn -[le_encode] in H; [|specialize (H 0%nat); simpl in H; naive_solver lia..|done].
  f_equal. rewrite <-(le_decode_encode 4 w), <-(le_decode_encode 4 w')
    by (eapply word_at_range; [|done]; done).
  f_equal. apply list_eq. intros i. destruct (decide (i < 4)%nat); [by apply H|].
  rewrite !lookup_ge_None_2 by (rewrite length_le_encode; lia). done.
Qed.

Lemma byte_at_page m m' a : m' !! page_at a = m !! page_at a → byte_at m' a = byte_at m a.
Proof. intros H. unfold byte_at, word_at. by rewrite H. Qed.

(** ** Writes *)

(** [m'] is [m] with the bytes [bs] at the address [a]. *)
Record written (m m' : frames) (a : Z) (bs : list Z) : Prop := {
  wr_dom : dom m' = dom m;
  wr_ok : frames_ok m';
  wr_in i : 0 ≤ i < Z.of_nat (length bs) → byte_at m' (a + i) = bs !! Z.to_nat i;
  wr_out b : ¬ a ≤ b < a + Z.of_nat (length bs) → byte_at m' b = byte_at m b
}.

(** The [n] bytes from [a] on lie in pages. *)
Definition mapped (m : frames) (a n : Z) : Prop := ∀ b, a ≤ b < a + n → is_Some (m !! page_at b).

Lemma written_nil m a : frames_ok m → written m m a [].
Proof. intros Hm. split; simpl; [done..|lia|done]. Qed.

Lemma written_app m m1 m' a bs bs' :
  written m m1 a bs → written m1 m' (a + Z.of_nat (length bs)) bs' → written m m' a (bs ++ bs').
Proof.
  intros [D1 _ I1 O1] [D2 K2 I2 O2]. split; rewrite ?length_app; [congruence|done|..].
  - intros i Hi. destruct (decide (i < Z.of_nat (length bs))).
    + rewrite O2 by lia. rewrite I1 by lia. rewrite lookup_app_l by lia. done.
    + replace (a + i) with (a + Z.of_nat (length bs) + (i - Z.of_nat (length bs))) by lia.
      rewrite I2 by lia. rewrite lookup_app_r by lia. f_equal. lia.
  - intros b Hb. rewrite O2 by lia. apply O1. lia.
Qed.

Lemma written_byte m a v : frames_ok m → byte_ok v → is_Some (byte_at m a) → written m (put_byte m a v) a [v].
Proof.
  intros Hm Hv [x Hx]. split; simpl.
  - apply dom_put_byte.
  - by apply put_byte_ok.
  - intros i Hi. replace i with 0 by lia. rewrite Z.add_0_r, byte_at_put by done. rewrite decide_True by done. by rewrite Hx.
  - intros b Hb. rewrite byte_at_put by done. rewrite decide_False by lia. done.
Qed.

Lemma written_word m a w :
  frames_ok m → a mod 4 = 0 → 0 ≤ w < 2 ^ 32 → is_Some (word_at m a) →
  written m (put_word m a w) a (le_encode 4 w) ∧ word_at (put_word m a w) a = Some w.
Proof.
  intros Hm Ha Hw [x Hx].
  assert (∀ b, a / 4 = b / 4 → word_at (put_word m a w) b = Some w) as Hwd.
  { intros b E. rewrite word_at_put, decide_True by done. unfold word_at in *.
    apply same_word in E as [<- <-]. by rewrite Hx. }
  split; [|by apply Hwd]. split; rewrite ?length_le_encode.
  - apply dom_put_word.
  - by apply put_word_ok.
  - intros i Hi. unfold byte_at. rewrite Hwd by dlia. cbn -[le_encode]. f_equal. dlia.
  - intros b Hb. unfold byte_at. rewrite word_at_put, decide_False by dlia. done.
Qed.

Lemma written_pages m m' a bs p : written m m' a bs → is_Some (m' !! p) ↔ is_Some (m !! p).
Proof. intros [D _ _ _]. rewrite <-!elem_of_dom. by rewrite D. Qed.

Lemma written_same_word m m' a bs b :
  frames_ok m → written m m' a bs → b mod 4 = 0 → b + 4 ≤ a ∨ a + Z.of_nat (length bs) ≤ b →
  word_at m' b = word_at m b.
Proof.
  intros Hm Hw Hb Hd. apply word_at_bytes; [done|apply Hw|done|]. intros c Hc. apply Hw. lia.
Qed.

Lemma fill_ok n : ∀ a v m,
  frames_ok m → byte_ok v → mapped m a (Z.of_nat n) →
  ∃ m', fill n a v m = Ok m' ∧ written m m' a (replicate n v).
Proof.
  induction n as [|n IH]; intros a v m Hm Hv Ha; simpl; [exists m; by split; [|apply written_nil]|].
  destruct (byte_at_mapped m a Hm) as [x Hx]; [apply Ha; lia|]. rewrite Hx.
  pose proof (written_byte m a v Hm Hv (mk_is_Some _ _ Hx)) as Hw.
  destruct (IH (a + 1) v (put_byte m a v)) as (m' & E & Hw'); [apply Hw|done| |].
  { intros b Hb. apply (written_pages _ _ _ _ _ Hw), Ha. lia. }
  exists m'. split; [done|]. by apply (written_app _ _ _ _ [v] _ Hw).
Qed.

(** The bytes of memory at an address. *)
Definition bytes_at (m : frames) (a : Z) (bs : list Z) : Prop :=
  ∀ i, 0 ≤ i < Z.of_nat (length bs) → byte_at m (a + i) = bs !! Z.to_nat i.

Lemma copy_ok bs : ∀ dst src m,
  frames_ok m → bytes_at m src bs → mapped m dst (Z.of_nat (length bs)) →
  src + Z.of_nat (length bs) ≤ dst ∨ dst + Z.of_nat (length bs) ≤ src →
  ∃ m', copy (length bs) dst src m = Ok m' ∧ written m m' dst bs.
Proof.
  induction bs as [|v bs IH]; intros dst src m Hm Hs Hd Hdis; cbn [length] in *;
    [exists m; by split; [|apply written_nil]|]. simpl.
  assert (byte_at m src = Some v) as Ev by (specialize (Hs 0); rewrite Z.add_0_r in Hs; apply Hs; simpl; lia).
  destruct (byte_at_mapped m dst Hm) as [x Hx]; [apply Hd; lia|]. rewrite Ev, Hx.
  pose proof (written_byte m dst v Hm (byte_at_ok _ _ _ Ev) (mk_is_Some _ _ Hx)) as Hw.
  destruct (IH (dst + 1) (src + 1) (put_byte m dst v)) as (m' & E & Hw'); [apply Hw|..|lia|].
  { intros i Hi. destruct Hw as [_ _ _ Ho]. rewrite Ho by (simpl; lia). specialize (Hs (i + 1)).
    replace (Z.to_nat (i + 1)) with (S (Z.to_nat i)) in Hs by lia. simpl in Hs.
    rewrite <-Hs by lia. f_equal. lia. }
  { intros b Hb. apply (written_pages _ _ _ _ _ Hw), Hd. lia. }
  exists m'. split; [done|]. by apply (written_app _ _ _ _ [v] _ Hw).
Qed.

(** A client stores bytes. *)
Fixpoint store (a : Z) (bs : list Z) (m : frames) : result frames :=
  match bs with
  | [] => Ok m
  | v :: r => match byte_at m a with Some _ => store (a + 1) r (put_byte m a v) | None => Err BadAccess end
  end.

Lemma store_ok bs : ∀ a m,
  frames_ok m → Forall byte_ok bs → mapped m a (Z.of_nat (length bs)) → ∃ m', store a bs m = Ok m' ∧ written m m' a bs.
Proof.
  induction bs as [|v bs IH]; intros a m Hm Hbs Ha; cbn [length] in *; [exists m; by split; [|apply written_nil]|]. simpl.
  apply Forall_cons in Hbs as [Hv Hbs]. destruct (byte_at_mapped m a Hm) as [x Hx]; [apply Ha; lia|]. rewrite Hx.
  pose proof (written_byte m a v Hm Hv (mk_is_Some _ _ Hx)) as Hw.
  destruct (IH (a + 1) (put_byte m a v)) as (m' & E & Hw'); [apply Hw|done| |].
  { intros b Hb. apply (written_pages _ _ _ _ _ Hw), Ha. lia. }
  exists m'. split; [done|]. by apply (written_app _ _ _ _ [v] _ Hw).
Qed.

(** Pages that a write does not reach stay the same. *)
Lemma page_bytes m m' p :
  frames_ok m → frames_ok m' → p mod 4096 = 0 → (is_Some (m' !! p) ↔ is_Some (m !! p)) →
  (∀ b, p ≤ b < p + 4096 → byte_at m' b = byte_at m b) → m' !! p = m !! p.
Proof.
  intros Hm Hm' Hp Hs Hb.
  assert (∀ k i, (i < word_cnt)%nat → word_at k (p + 4 * Z.of_nat i) = ws ← k !! p; ws !! i) as Hk.
  { unfold word_cnt. intros k i Hi. unfold word_at, page_at, index_at.
    replace ((p + 4 * Z.of_nat i) / 4096 * 4096) with p by dlia.
    by replace (Z.to_nat ((p + 4 * Z.of_nat i) mod 4096 / 4)) with i by dlia. }
  destruct (m' !! p) as [ws'|] eqn:E', (m !! p) as [ws|] eqn:E;
    [|by destruct (proj1 Hs (mk_is_Some _ _ eq_refl))|by destruct (proj2 Hs (mk_is_Some _ _ eq_refl))|done].
  f_equal. apply list_eq. intros i. destruct (Hm' _ _ E') as [Hl' _], (Hm _ _ E) as [Hl _].
  destruct (decide (i < word_cnt)%nat) as [Hi|]; [|by rewrite !lookup_ge_None_2 by lia].
  pose proof (Hk m i Hi) as H1. pose proof (Hk m' i Hi) as H2. rewrite E in H1. rewrite E' in H2. cbn in H1, H2.
  rewrite <-H1, <-H2. unfold word_cnt in Hi. apply word_at_bytes; [done..|dlia|]. intros b Hr. apply Hb. lia.
Qed.

Lemma written_other m m' a bs p :
  frames_ok m → written m m' a bs → p mod 4096 = 0 → p + 4096 ≤ a ∨ a + Z.of_nat (length bs) ≤ p →
  m' !! p = m !! p.
Proof.
  intros Hm Hw Hp Hd. apply page_bytes; [done|apply Hw|done|by eapply written_pages|].
  intros b Hb. apply Hw. lia.
Qed.

(** The contents of memory that is mapped. *)
Lemma bytes_at_mapped m a n :
  frames_ok m → mapped m a (Z.of_nat n) → ∃ bs, length bs = n ∧ bytes_at m a bs.
Proof.
  intros Hm. revert a. induction n as [|n IH]; intros a Ha; [exists []; split; [done|]; intros i; simpl; lia|].
  destruct (byte_at_mapped m a Hm) as [x Hx]; [apply Ha; lia|].
  destruct (IH (a + 1)) as (bs & Hl & Hb); [intros b Hb; apply Ha; lia|].
  exists (x :: bs). split; [simpl; lia|]. intros i Hi. simpl in Hi. destruct (decide (i = 0)) as [->|Ni].
  - by rewrite Z.add_0_r.
  - replace (a + i) with (a + 1 + (i - 1)) by lia. rewrite Hb by lia. by replace (Z.to_nat i) with (S (Z.to_nat (i - 1))) by lia.
Qed.

(** Writing a part of a block. *)
Lemma written_part m m' a bs ofs new :
  bytes_at m a bs → written m m' (a + ofs) new → 0 ≤ ofs → ofs + Z.of_nat (length new) ≤ Z.of_nat (length bs) →
  bytes_at m' a (overwrite ofs new bs).
Proof.
  intros Hb Hw Ho Hl i Hi. rewrite length_overwrite in Hi by lia. rewrite overwrite_lookup by lia. case_decide.
  - replace (a + i) with (a + ofs + (i - ofs)) by lia. rewrite (wr_in _ _ _ _ Hw); [done|lia].
  - rewrite (wr_out _ _ _ _ Hw); [by apply Hb|lia].
Qed.
