(* ===== verification/Malloc.v ===== *)
(** * Memory allocator: threads/malloc.c

    Blocks of up to 1 kB come from descriptors, one per power of two, that
    divide pages (arenas) into blocks; larger requests get pages of their own.
    The header of an arena is the first three words of its page, the free
    lists hold the addresses of the free blocks in their order (list.c is
    verified in [KListSpec]; the links it keeps in the free blocks are not
    part of the contents modelled here).  The lock of a descriptor makes the
    operations on its list atomic, so every operation is one step.

    The page allocator is used through [PageRuns]. *)

From S2P Require Import Prelude Bytes Vaddr PageIface PageBytes.

(** ** Data *)

Record desc := mk_desc { block_size_of : Z; blocks_per_arena : Z; free_list : list Z }.

(** The pages, the ten descriptors and their number. *)
Record heap (P : Type) := mk_heap { pages : P; descs : list desc; desc_cnt : Z }.
Arguments mk_heap {P}.
Arguments pages {P}.
Arguments descs {P}.
Arguments desc_cnt {P}.

Definition ARENA_MAGIC : Z := 0x9a548eed.
Definition sizeof_arena : Z := 12.
Definition sizeof_desc : Z := 48.

Section malloc.
Context {P : Type} `{PageRuns P}.
(** The address of the array [descs]. *)
Variable descs_addr : Z.

Abbreviation heap := (heap P).

Definition on_pages {A} (f : ST P A) : ST heap A := λ h,
  match f (pages h) with
  | Ok (a, p) => Ok (a, mk_heap p (descs h) (desc_cnt h))
  | Err e => Err e
  end.

Definition set_frames (m : frames) (h : heap) : heap := mk_heap (set_mem m (pages h)) (descs h) (desc_cnt h).

(** ** Memory *)

Definition ld32 (a : Z) : ST heap Z := λ h,
  match word_at (mem (pages h)) a with Some w => Ok (w, h) | None => Err BadAccess end.

Definition st32 (a w : Z) : ST heap unit := λ h,
  match word_at (mem (pages h)) a with
  | Some _ => Ok (tt, set_frames (put_word (mem (pages h)) a w) h)
  | None => Err BadAccess
  end.

Definition on_frames (f : frames → result frames) : ST heap unit := λ h,
  match f (mem (pages h)) with Ok m => Ok (tt, set_frames m h) | Err e => Err e end.

Definition memset (p v size : Z) : ST heap unit := on_frames (fill (Z.to_nat size) p v).
Definition memcpy (dst src size : Z) : ST heap unit := on_frames (copy (Z.to_nat size) dst src).

(** ** Descriptors *)

Definition get_desc (i : Z) : ST heap desc := λ h,
  match (if 0 <=? i then descs h !! Z.to_nat i else None) with Some d => Ok (d, h) | None => Err BadAccess end.

Definition set_desc (i : Z) (d : desc) : ST heap unit := λ h,
  if (0 <=? i) && (i <? Z.of_nat (length (descs h)))
  then Ok (tt, mk_heap (pages h) (<[Z.to_nat i := d]> (descs h)) (desc_cnt h)) else Err BadAccess.

Definition set_free_list (i : Z) (l : list Z) : ST heap unit :=
  d ← get_desc i; set_desc i (mk_desc (block_size_of d) (blocks_per_arena d) l).

(** The pointer to a descriptor, and the descriptor at a pointer. *)
Definition desc_ptr (i : Z) : Z := descs_addr + sizeof_desc * i.
Definition deref (dp : Z) : ST heap (Z * desc) :=
  let i := (dp - descs_addr) / sizeof_desc in
  if dp =? desc_ptr i then d ← get_desc i; mret (i, d) else fail BadAccess.

Definition malloc_init : ST heap unit :=
  loopM 10 (λ block_size,
    if block_size <? PGSIZE / 2 then
      h ← get;
      let i := desc_cnt h in
      modify (λ h, mk_heap (pages h) (descs h) (i + 1));;
      assert (i + 1 <=? Z.of_nat (length (descs h)));;
      set_desc i (mk_desc block_size ((PGSIZE - sizeof_arena) / block_size) []);;
      mret (inl (u32 (block_size * 2)))
    else mret (inr tt)) 16.

(** ** Arenas and blocks *)

Definition magic (a : Z) : ST heap Z := ld32 a.
Definition desc_field (a : Z) : ST heap Z := ld32 (a + 4).
Definition free_cnt (a : Z) : ST heap Z := ld32 (a + 8).
Definition set_free_cnt (a n : Z) : ST heap unit := st32 (a + 8) n.

Definition block_to_arena (b : Z) : ST heap Z :=
  let a := pg_round_down b in
  assert (negb (a =? NULL));;
  m ← magic a; assert (m =? ARENA_MAGIC);;
  dp ← desc_field a;
  (if dp =? NULL then mret tt
   else d ← deref dp; assert (u32 (pg_ofs b - sizeof_arena) mod block_size_of (snd d) =? 0));;
  assert (negb (dp =? NULL) || (pg_ofs b =? sizeof_arena));;
  mret a.

Definition arena_to_block (a idx : Z) : ST heap Z :=
  assert (negb (a =? NULL));;
  m ← magic a; assert (m =? ARENA_MAGIC);;
  dp ← desc_field a;
  d ← deref dp; assert (idx <? blocks_per_arena (snd d));;
  mret (u32 (a + sizeof_arena + idx * block_size_of (snd d))).

(** [list_pop_front]; the list must not be empty. *)
Definition pop_front (i : Z) : ST heap Z :=
  d ← get_desc i;
  match free_list d with
  | [] => fail AssertFail
  | b :: l => set_free_list i l;; mret b
  end.

(** [list_remove]; the block must be on the list. *)
Definition remove_block (i b : Z) : ST heap unit :=
  d ← get_desc i;
  if bool_decide (b ∈ free_list d) then set_free_list i (filter (λ x, x ≠ b) (free_list d)) else fail BadAccess.

(** ** Operations *)

(** The first descriptor of blocks of at least [size] bytes. *)
Definition find_desc (size : Z) : ST heap Z :=
  h ← get;
  loopM (S (length (descs h))) (λ i,
    if i <? desc_cnt h then
      d ← get_desc i;
      if block_size_of d >=? size then mret (inr i) else mret (inl (i + 1))
    else mret (inr i)) 0.

Definition malloc_big (size : Z) : ST heap Z :=
  let page_cnt := u32 (u32 (size + sizeof_arena) + PGSIZE - 1) / PGSIZE in
  a ← on_pages (get_multiple 0 page_cnt);
  if a =? NULL then mret NULL
  else
    st32 a ARENA_MAGIC;; st32 (a + 4) NULL;; set_free_cnt a page_cnt;;
    mret (u32 (a + sizeof_arena)).

(** A new arena for the descriptor; the result says whether there was a page. *)
Definition new_arena (i : Z) : ST heap bool :=
  a ← on_pages (get_page 0);
  if a =? NULL then mret false
  else
    d ← get_desc i;
    st32 a ARENA_MAGIC;; st32 (a + 4) (desc_ptr i);; set_free_cnt a (blocks_per_arena d);;
    loopM (S (Z.to_nat (blocks_per_arena d))) (λ k,
      if k <? blocks_per_arena d then
        b ← arena_to_block a k;
        d ← get_desc i;
        set_free_list i (free_list d ++ [b]);;
        mret (inl (k + 1))
      else mret (inr tt)) 0;;
    mret true.

Definition malloc (size : Z) : ST heap Z :=
  if size =? 0 then mret NULL
  else
    i ← find_desc size;
    h ← get;
    if i =? desc_cnt h then malloc_big size
    else
      d ← get_desc i;
      ok ← (if bool_decide (free_list d = []) then new_arena i else mret true);
      if (ok : bool) then
        b ← pop_front i;
        a ← block_to_arena b;
        n ← free_cnt a;
        set_free_cnt a (u32 (n - 1));;
        mret b
      else mret NULL.

Definition calloc (a b : Z) : ST heap Z :=
  let size := u32 (a * b) in
  if (size <? a) || (size <? b) then mret NULL
  else
    p ← malloc size;
    (if negb (p =? NULL) then memset p 0 size else mret tt);;
    mret p.

Definition block_size (block : Z) : ST heap Z :=
  a ← block_to_arena block;
  dp ← desc_field a;
  if negb (dp =? NULL) then d ← deref dp; mret (block_size_of (snd d))
  else n ← free_cnt a; mret (u32 (u32 (PGSIZE * n) - pg_ofs block)).

(** The arena is unused: its blocks leave the free list and the page is
    freed. *)
Definition free_arena (a i : Z) (per_arena : Z) : ST heap unit :=
  loopM (S (Z.to_nat per_arena)) (λ k,
    if k <? per_arena then
      b ← arena_to_block a k;
      remove_block i b;;
      mret (inl (k + 1))
    else mret (inr tt)) 0;;
  on_pages (free_page a).

Definition free (p : Z) : ST heap unit :=
  if negb (p =? NULL) then
    a ← block_to_arena p;
    dp ← desc_field a;
    if negb (dp =? NULL) then
      d ← deref dp;
      let '(i, d) := d in
      memset p 0xcc (block_size_of d);;
      set_free_list i (p :: free_list d);;
      n ← free_cnt a;
      set_free_cnt a (u32 (n + 1));;
      if blocks_per_arena d <=? u32 (n + 1) then
        assert (u32 (n + 1) =? blocks_per_arena d);;
        free_arena a i (blocks_per_arena d)
      else mret tt
    else
      n ← free_cnt a; on_pages (free_multiple a n)
  else mret tt.

Definition realloc (old_block new_size : Z) : ST heap Z :=
  if new_size =? 0 then free old_block;; mret NULL
  else
    new_block ← malloc new_size;
    (if negb (old_block =? NULL) && negb (new_block =? NULL) then
       old_size ← block_size old_block;
       let min_size := if new_size <? old_size then new_size else old_size in
       memcpy new_block old_block min_size;;
       free old_block
     else mret tt);;
    mret new_block.

End malloc.
