(* ===== verification/MallocInv.v ===== *)
(** * The heap of malloc.c: arenas, free lists and live blocks

    The invariant of the allocator of [Malloc].  A ghost map gives every arena
    (by the address of its first page) its kind: a page divided into blocks of
    descriptor [i], or a run of pages for one big block.  The invariant has
    three parts: the pages of the arenas ([arenas]), the free lists ([lists])
    and the arena headers in memory ([headers]).  Blocks of arenas are the
    [slot]s; a slot that is not on a free list is [live]. *)

From S2P Require Import Prelude Bytes Vaddr PageIface PageBytes Malloc.

Inductive kind := Small (i : nat) | Big (n : Z).

Definition npages (k : kind) : Z := match k with Small _ => 1 | Big n => n end.

(** Size and number of the blocks of descriptor [i], and block [k] of an arena. *)
Definition bsz (i : nat) : Z := 16 * 2 ^ Z.of_nat i.
Definition per (i : nat) : Z := 4084 / bsz i.
Definition block (i : nat) (a k : Z) : Z := a + 12 + bsz i * k.
Definition blocks (i : nat) (a : Z) : list Z := block i a <$> seqZ 0 (per i).

Lemma small_cases i : (i < 7)%nat → i ∈ [0; 1; 2; 3; 4; 5; 6]%nat.
Proof. intros Hi. do 7 (destruct i as [|i]; [set_solver|]). lia. Qed.

Lemma bsz_facts i : (i < 7)%nat → 16 ≤ bsz i ≤ 1024 ∧ bsz i mod 4 = 0 ∧ bsz i * per i ≤ 4084 ∧ 3 ≤ per i ≤ 255.
Proof. intros Hi%small_cases. rewrite !elem_of_cons, elem_of_nil in Hi. destruct_or!; by subst. Qed.

Definition fl (ds : list desc) (i : nat) : list Z := match ds !! i with Some d => free_list d | None => [] end.

(** The free blocks of the arena at [a] on a list. *)
Definition frees (a : Z) (l : list Z) : Z := Z.of_nat (length (filter (λ b, page_at b = a) l)).

Record lists (A : gmap Z kind) (ds : list desc) : Prop := {
  li_len : length ds = 10%nat;
  li_desc i : (i < 7)%nat → ds !! i = Some (mk_desc (bsz i) (per i) (fl ds i));
  li_free i b : (i < 7)%nat → b ∈ fl ds i → ∃ a k, A !! a = Some (Small i) ∧ 0 ≤ k < per i ∧ b = block i a k;
  li_nodup i : (i < 7)%nat → NoDup (fl ds i)
}.

(** No arena but [x] is unused. *)
Definition busy_but (x : option Z) (A : gmap Z kind) (ds : list desc) : Prop :=
  ∀ a i, A !! a = Some (Small i) → Some a ≠ x → frees a (fl ds i) < per i.

Definition header (m : frames) (a dp n : Z) : Prop :=
  word_at m a = Some ARENA_MAGIC ∧ word_at m (a + 4) = Some dp ∧ word_at m (a + 8) = Some n.

(** A block of [len] bytes of the arena at [a]. *)
Definition slot (A : gmap Z kind) (a b len : Z) : Prop :=
  match A !! a with
  | Some (Small i) => len = bsz i ∧ ∃ k, 0 ≤ k < per i ∧ b = block i a k
  | Some (Big n) => len = 4096 * n - 12 ∧ b = a + 12
  | None => False
  end.

Definition on_list (A : gmap Z kind) (ds : list desc) (a b : Z) : Prop :=
  match A !! a with Some (Small i) => b ∈ fl ds i | _ => False end.

Definition live (A : gmap Z kind) (ds : list desc) (b len : Z) : Prop :=
  ∃ a, slot A a b len ∧ ¬ on_list A ds a b.

Section geometry.
Context {P : Type} `{PageRuns P}.
(** [U] are the pages that are used by others. *)
Record arenas (U : Z → Prop) (A : gmap Z kind) (p : P) : Prop := {
  ar_pa : pa_ok p;
  ar_used b : used_page p b ↔ U b ∨ ∃ a k, A !! a = Some k ∧ in_run a (npages k) b;
  ar_own a k b : A !! a = Some k → in_run a (npages k) b → ¬ U b;
  ar_disj a a' k k' b : A !! a = Some k → A !! a' = Some k' →
    in_run a (npages k) b → in_run a' (npages k') b → a = a';
  ar_kind a k : A !! a = Some k → match k with Small i => (i < 7)%nat | Big n => 1 ≤ n end;
  ar_run a k : A !! a = Some k → page_run p a (npages k)
}.

(** ** Geometry *)

Lemma npages_pos U A p a k : arenas U A p → A !! a = Some k → 1 ≤ npages k.
Proof. intros HA Ha. pose proof (ar_kind _ _ _ HA a k Ha). destruct k; simpl; lia. Qed.

Lemma arena_page U A p a k b :
  arenas U A p → A !! a = Some k → in_run a (npages k) b → kpage b ∧ is_Some (mem p !! b).
Proof. intros HA Ha Hb. apply used_mem; [apply HA|]. apply (ar_used _ _ _ HA). right. by exists a, k. Qed.

Lemma arena_addr U A p a k :
  arenas U A p → A !! a = Some k → PHYS_BASE ≤ a ∧ a mod 4096 = 0 ∧ a + 4096 * npages k ≤ 2 ^ 32.
Proof.
  intros HA Ha. pose proof (npages_pos _ _ _ _ _ HA Ha) as Hn.
  destruct (arena_page _ _ _ _ _ a HA Ha) as [[? ?] _]; [exists 0; lia|].
  destruct (arena_page _ _ _ _ _ (a + 4096 * (npages k - 1)) HA Ha) as [[? ?] _]; [exists (npages k - 1); lia|].
  split_and!; [lia..|]. dlia.
Qed.

(** The addresses of an arena. *)
Definition zone (A : gmap Z kind) (a x : Z) : Prop := ∃ k, A !! a = Some k ∧ a ≤ x < a + 4096 * npages k.

Lemma zone_run U A p a x : arenas U A p → zone A a x → ∃ k, A !! a = Some k ∧ in_run a (npages k) (page_at x).
Proof.
  intros HA (k & Ha & Hx). destruct (arena_addr _ _ _ _ _ HA Ha) as (_ & Hm & _).
  exists k. split; [done|]. exists ((x - a) / 4096). unfold page_at. split; [dlia|]. dlia.
Qed.

Lemma zone_inj U A p a a' x : arenas U A p → zone A a x → zone A a' x → a = a'.
Proof.
  intros HA (k & Hk & Hr)%(zone_run _ _ _ _ _ HA) (k' & Hk' & Hr')%(zone_run _ _ _ _ _ HA).
  by apply (ar_disj _ _ _ HA a a' k k' (page_at x)).
Qed.

Lemma zone_mapped U A p a x : arenas U A p → zone A a x → is_Some (mem p !! page_at x).
Proof. intros HA (k & Hk & Hr)%(zone_run _ _ _ _ _ HA). by apply (arena_page _ _ _ _ _ _ HA Hk). Qed.

Lemma slot_range U A p a b len :
  arenas U A p → slot A a b len →
  a + 12 ≤ b ∧ 0 < len ∧ page_at b = a ∧ b mod 4 = 0 ∧ ∀ x, b ≤ x < b + len → zone A a x.
Proof.
  intros HA Hs. unfold slot in Hs. destruct (A !! a) as [[i|n]|] eqn:Ha; [..|done].
  - destruct Hs as (-> & k & Hk & ->). pose proof (ar_kind _ _ _ HA a _ Ha) as Hi. simpl in Hi.
    destruct (arena_addr _ _ _ _ _ HA Ha) as (_ & Hm & _). destruct (bsz_facts i Hi) as (Hb & H4 & Hp & _).
    unfold block. assert (0 ≤ bsz i * k ∧ bsz i * k + bsz i ≤ 4084) as Hr by nia.
    split_and!; [lia|lia|unfold page_at; dlia| |].
    + rewrite <-Z.add_assoc, Z.add_mod, (Z.add_mod 12), (Z.mul_mod (bsz i)), H4 by lia. simpl. dlia.
    + intros x Hx. exists (Small i). split; [done|]. simpl. lia.
  - destruct Hs as [-> ->]. pose proof (npages_pos _ _ _ _ _ HA Ha) as Hn. simpl in Hn.
    destruct (arena_addr _ _ _ _ _ HA Ha) as (_ & Hm & _).
    split_and!; [lia|lia|unfold page_at; dlia|dlia|].
    intros x Hx. exists (Big n). split; [done|]. simpl. lia.
Qed.

(** Different blocks do not overlap. *)
Lemma slot_disj U A p a a' b b' len len' :
  arenas U A p → slot A a b len → slot A a' b' len' →
  (a = a' ∧ b = b' ∧ len = len') ∨ (b ≠ b' ∧ ∀ x, b ≤ x < b + len → ¬ b' ≤ x < b' + len').
Proof.
  intros HA Hs Hs'. destruct (decide (a = a')) as [<-|Na].
  - unfold slot in Hs, Hs'. destruct (A !! a) as [[i|n]|] eqn:Ha; [|left; naive_solver|done].
    destruct Hs as (-> & k & Hk & ->), Hs' as (-> & k' & Hk' & ->).
    pose proof (ar_kind _ _ _ HA a _ Ha) as Hi. simpl in Hi. destruct (bsz_facts i Hi) as (Hb & _).
    destruct (decide (k = k')) as [<-|Nk]; [by left|]. right. unfold block. split; [|intros x Hx]; nia.
  - right. destruct (slot_range _ _ _ _ _ _ HA Hs) as (_ & Hl & _ & _ & Hz).
    destruct (slot_range _ _ _ _ _ _ HA Hs') as (_ & Hl' & _ & _ & Hz').
    assert (∀ x, b ≤ x < b + len → ¬ b' ≤ x < b' + len') as Hd.
    { intros x Hx Hx'. by apply Na, (zone_inj _ _ _ _ _ x HA); [apply Hz|apply Hz']. }
    split; [|done]. intros ->. apply (Hd b'); lia.
Qed.

(** Blocks do not overlap the headers of arenas. *)
Lemma slot_header U A p a a' k b len x :
  arenas U A p → slot A a b len → A !! a' = Some k → a' ≤ x < a' + 12 → ¬ b ≤ x < b + len.
Proof.
  intros HA Hs Hk Hx Hb. destruct (slot_range _ _ _ _ _ _ HA Hs) as (Ha & _ & _ & _ & Hz).
  pose proof (npages_pos _ _ _ _ _ HA Hk). assert (a = a') as ->; [|lia].
  apply (zone_inj _ _ _ _ _ x HA); [by apply Hz|]. exists k. split; [done|]. lia.
Qed.
(** ** Counting the free blocks *)

Lemma frees_cons a b l : frees a (b :: l) = (if decide (page_at b = a) then 1 else 0) + frees a l.
Proof.
  unfold frees. case_decide; [rewrite filter_cons_True by done|rewrite filter_cons_False by done]; simpl; lia.
Qed.

Lemma length_blocks i a : (i < 7)%nat → Z.of_nat (length (blocks i a)) = per i.
Proof. intros Hi. unfold blocks. rewrite length_fmap, length_seqZ. pose proof (bsz_facts i Hi). lia. Qed.

Lemma elem_of_blocks i a b : b ∈ blocks i a ↔ ∃ k, 0 ≤ k < per i ∧ b = block i a k.
Proof. unfold blocks. rewrite list_elem_of_fmap. setoid_rewrite elem_of_seqZ. split; intros (k & ? & ?); exists k; split; (done || lia). Qed.

Lemma NoDup_blocks i a : (i < 7)%nat → NoDup (blocks i a).
Proof.
  intros Hi. apply NoDup_fmap_2; [|apply NoDup_seqZ]. intros k k'. unfold block. destruct (bsz_facts i Hi). nia.
Qed.

Lemma block_slot A a i k : A !! a = Some (Small i) → 0 ≤ k < per i → slot A a (block i a k) (bsz i).
Proof. intros Ha Hk. unfold slot. rewrite Ha. split; [done|]. by exists k. Qed.

Lemma block_page U A p a i k :
  arenas U A p → A !! a = Some (Small i) → 0 ≤ k < per i → page_at (block i a k) = a.
Proof. intros HA Ha Hk. by apply (slot_range _ _ _ _ _ _ HA (block_slot _ _ _ _ Ha Hk)). Qed.

(** The free blocks of an arena are some of its blocks. *)
Lemma frees_sub U A p ds a i :
  arenas U A p → lists A ds → A !! a = Some (Small i) →
  filter (λ b, page_at b = a) (fl ds i) ⊆+ blocks i a.
Proof.
  intros HA HL Ha. pose proof (ar_kind _ _ _ HA a _ Ha) as Hi. simpl in Hi.
  apply NoDup_submseteq; [by apply NoDup_filter, HL|].
  intros b [Hp (a' & k & Ha' & Hk & ->)%(li_free _ _ HL i _ Hi)]%list_elem_of_filter.
  rewrite (block_page _ _ _ _ _ _ HA Ha' Hk) in Hp. subst a'. apply elem_of_blocks. by exists k.
Qed.

Lemma frees_le U A p ds a i :
  arenas U A p → lists A ds → A !! a = Some (Small i) → 0 ≤ frees a (fl ds i) ≤ per i.
Proof.
  intros HA HL Ha. pose proof (ar_kind _ _ _ HA a _ Ha) as Hi. simpl in Hi.
  pose proof (submseteq_length _ _ (frees_sub _ _ _ _ _ _ HA HL Ha)).
  pose proof (length_blocks i a Hi). unfold frees. lia.
Qed.

Lemma frees_full U A p ds a i k :
  arenas U A p → lists A ds → A !! a = Some (Small i) → frees a (fl ds i) = per i → 0 ≤ k < per i →
  block i a k ∈ fl ds i.
Proof.
  intros HA HL Ha Hf Hk. pose proof (ar_kind _ _ _ HA a _ Ha) as Hi. simpl in Hi.
  pose proof (length_blocks i a Hi). unfold frees in Hf.
  assert (filter (λ b, page_at b = a) (fl ds i) ≡ₚ blocks i a) as Hp.
  { apply submseteq_length_Permutation; [by eapply frees_sub|lia]. }
  assert (block i a k ∈ filter (λ b, page_at b = a) (fl ds i)) as [_ Hin]%list_elem_of_filter; [|done].
  rewrite Hp. apply elem_of_blocks. by exists k.
Qed.

(** ** The pages after a change of memory *)

Lemma arenas_set_mem U A p m :
  arenas U A p → dom m = dom (mem p) → frames_ok m → arenas U A (set_mem m p).
Proof.
  intros [Hp Hu Ho Hd Hk Hr] Hm Hok. split; [by apply set_ok| |done..|].
  - intros b. by rewrite used_set.
  - intros a k Ha. by apply run_set, Hr.
Qed.

Lemma arenas_frames U A p : arenas U A p → frames_ok (mem p).
Proof. intros HA. apply mem_ok, HA. Qed.

Lemma header_kept m m' y bs a dp n :
  frames_ok m → written m m' y bs → a mod 4096 = 0 →
  (∀ x, a ≤ x < a + 12 → ¬ y ≤ x < y + Z.of_nat (length bs)) → header m a dp n → header m' a dp n.
Proof.
  intros Hm Hw Ha Hd (H1 & H2 & H3).
  assert (∀ o, 0 ≤ o ≤ 8 → o mod 4 = 0 → word_at m' (a + o) = word_at m (a + o)) as Hs.
  { intros o Ho H4. apply word_at_bytes; [done|apply Hw|dlia|]. intros b Hb. apply Hw. apply Hd. lia. }
  split_and!; [rewrite <-(Z.add_0_r a), Hs by done; by rewrite Z.add_0_r|by rewrite Hs..].
Qed.

End geometry.

Section inv.
Context {P : Type} `{PageRuns P}.
Variable descs_addr : Z.
Hypothesis Hda : 0 < descs_addr ∧ descs_addr + 480 ≤ 2 ^ 32.

Definition kind_desc (k : kind) : Z := match k with Small i => desc_ptr descs_addr (Z.of_nat i) | Big _ => NULL end.
Definition kind_cnt (ds : list desc) (a : Z) (k : kind) : Z := match k with Small i => frees a (fl ds i) | Big n => n end.

Definition headers (A : gmap Z kind) (m : frames) (ds : list desc) : Prop :=
  ∀ a k, A !! a = Some k → header m a (kind_desc k) (kind_cnt ds a k).

Record inv (x : option Z) (U : Z → Prop) (A : gmap Z kind) (h : heap P) : Prop := {
  iv_arenas : arenas U A (pages h);
  iv_lists : lists A (descs h);
  iv_headers : headers A (mem (pages h)) (descs h);
  iv_busy : busy_but x A (descs h);
  iv_cnt : desc_cnt h = 7
}.

(** Writing to a block keeps the headers. *)
Lemma headers_block U A p m' ds a b len y bs :
  arenas U A p → headers A (mem p) ds → slot A a b len → written (mem p) m' y bs →
  b ≤ y → y + Z.of_nat (length bs) ≤ b + len → headers A m' ds.
Proof.
  intros HA Hh Hs Hw Hy Hl a' k Ha'. destruct (arena_addr _ _ _ _ _ HA Ha') as (_ & Hm & _).
  apply (header_kept (mem p) _ y bs); [by eapply arenas_frames|done|done| |by apply Hh].
  intros x Hx Hy'. apply (slot_header _ _ _ _ _ _ _ _ x HA Hs Ha' Hx). lia.
Qed.

(** Writing the count of a header. *)
Lemma header_cnt U A p a k dp n n' :
  arenas U A p → A !! a = Some k → header (mem p) a dp n → 0 ≤ n' < 2 ^ 32 →
  ∃ m', m' = put_word (mem p) (a + 8) n' ∧ written (mem p) m' (a + 8) (le_encode 4 n') ∧ header m' a dp n' ∧
    (∀ a' k' dp' c, A !! a' = Some k' → a' ≠ a → header (mem p) a' dp' c → header m' a' dp' c).
Proof.
  intros HA Ha (H1 & H2 & H3) Hn. pose proof (arenas_frames _ _ _ HA) as Hf.
  destruct (arena_addr _ _ _ _ _ HA Ha) as (_ & Hm & _).
  destruct (written_word (mem p) (a + 8) n' Hf) as [Hw E]; [dlia|done|done|].
  exists (put_word (mem p) (a + 8) n'). split_and!; [done|done| |].
  - split_and!; [| |done];
      (rewrite (written_same_word _ _ _ _ _ Hf Hw); [done|dlia|rewrite length_le_encode; lia]).
  - intros a' k' dp' c Ha' Hne. destruct (arena_addr _ _ _ _ _ HA Ha') as (_ & Hm' & _).
    apply (header_kept _ _ _ _ _ _ _ Hf Hw Hm'). rewrite length_le_encode. intros x Hx Hx'.
    pose proof (npages_pos _ _ _ _ _ HA Ha). pose proof (npages_pos _ _ _ _ _ HA Ha').
    apply Hne, (zone_inj _ _ _ _ _ x HA); [exists k'|exists k]; (split; [done|lia]).
Qed.

(** ** Execution *)

Lemma heap_ld32 a w (h : heap P) : word_at (mem (pages h)) a = Some w → ld32 a h = Ok (w, h).
Proof. intros E. unfold ld32. by rewrite E. Qed.

Lemma heap_st32 a w v (h : heap P) :
  word_at (mem (pages h)) a = Some w → st32 a v h = Ok (tt, set_frames (put_word (mem (pages h)) a v) h).
Proof. intros E. unfold st32. by rewrite E. Qed.

Lemma get_desc_ok A i (h : heap P) :
  lists A (descs h) → (i < 7)%nat → get_desc (Z.of_nat i) h = Ok (mk_desc (bsz i) (per i) (fl (descs h) i), h).
Proof.
  intros HL Hi. unfold get_desc. rewrite (proj2 (Z.leb_le _ _)) by lia. rewrite Nat2Z.id.
  by rewrite (li_desc _ _ HL i Hi).
Qed.

Definition set_fl (i : nat) (l : list Z) (h : heap P) : heap P :=
  mk_heap (pages h) (<[i := mk_desc (bsz i) (per i) l]> (descs h)) (desc_cnt h).

Lemma set_free_list_ok A i l (h : heap P) :
  lists A (descs h) → (i < 7)%nat → set_free_list (Z.of_nat i) l h = Ok (tt, set_fl i l h).
Proof.
  intros HL Hi. unfold set_free_list. erewrite bind_ok by by eapply get_desc_ok.
  unfold set_desc. rewrite (proj2 (Z.leb_le _ _)), (proj2 (Z.ltb_lt _ _)) by (rewrite ?(li_len _ _ HL); lia).
  cbn [andb]. by rewrite Nat2Z.id.
Qed.

Lemma deref_ok A i (h : heap P) :
  lists A (descs h) → (i < 7)%nat →
  deref descs_addr (desc_ptr descs_addr (Z.of_nat i)) h
  = Ok ((Z.of_nat i, mk_desc (bsz i) (per i) (fl (descs h) i)), h).
Proof.
  intros HL Hi. unfold deref. assert ((desc_ptr descs_addr (Z.of_nat i) - descs_addr) / sizeof_desc = Z.of_nat i) as ->.
  { unfold desc_ptr, sizeof_desc. dlia. }
  rewrite Z.eqb_refl. by erewrite bind_ok by by eapply get_desc_ok.
Qed.

Lemma desc_ptr_ok i : (i < 7)%nat → desc_ptr descs_addr (Z.of_nat i) =? NULL = false ∧ 0 ≤ desc_ptr descs_addr (Z.of_nat i) < 2 ^ 32.
Proof. intros Hi. unfold desc_ptr, sizeof_desc, NULL. split; [apply Z.eqb_neq|]; lia. Qed.

Lemma pg_round_down_at b : 0 ≤ b < 2 ^ 32 → pg_round_down b = page_at b.
Proof. apply land_addr_mask. Qed.

Lemma block_to_arena_ok U A (h : heap P) a k b len n :
  arenas U A (pages h) → lists A (descs h) → A !! a = Some k → header (mem (pages h)) a (kind_desc k) n →
  slot A a b len → block_to_arena descs_addr b h = Ok (a, h).
Proof.
  intros HA HL Ha (H1 & H2 & _) Hs. destruct (slot_range _ _ _ _ _ _ HA Hs) as (Hb & Hl & Hp & _ & Hz).
  destruct (arena_addr _ _ _ _ _ HA Ha) as (Hpb & Hm & He). destruct (Hz b) as (k' & E & Hz'); [lia|].
  rewrite Ha in E. injection E as <-. unfold PHYS_BASE in Hpb.
  unfold block_to_arena. rewrite pg_round_down_at, Hp, pg_ofs_mod by lia.
  erewrite bind_ok by (apply assert_ok; unfold NULL; rewrite (proj2 (Z.eqb_neq a 0)) by lia; done).
  erewrite bind_ok by by apply heap_ld32. erewrite bind_ok by done.
  erewrite bind_ok by by apply heap_ld32.
  unfold slot in Hs. rewrite Ha in Hs. destruct k as [i|m]; cbn [kind_desc].
  - destruct Hs as (-> & j & Hj & ->). pose proof (ar_kind _ _ _ HA a _ Ha) as Hi. simpl in Hi.
    destruct (desc_ptr_ok i Hi) as [-> _]. destruct (bsz_facts i Hi) as (Hbs & _ & Hper & _).
    assert (0 ≤ bsz i * j ∧ bsz i * j + bsz i ≤ 4084) as Hr by nia.
    assert (u32 (block i a j mod 4096 - sizeof_arena) = bsz i * j) as Eo.
    { unfold block, sizeof_arena. replace ((a + 12 + bsz i * j) mod 4096) with (12 + bsz i * j) by dlia.
      rewrite u32_small; lia. }
    erewrite bind_ok; [done|]. erewrite bind_ok by by eapply deref_ok.
    apply assert_ok. cbn [snd block_size_of]. rewrite Eo, Z.mul_comm, Z.mod_mul by lia. done.
  - destruct Hs as [-> ->]. rewrite Z.eqb_refl. erewrite bind_ok by done.
    erewrite bind_ok; [done|]. apply assert_ok. cbn [negb orb]. apply Z.eqb_eq. unfold sizeof_arena. dlia.
Qed.

Lemma arena_to_block_ok U A (h : heap P) a i j n :
  arenas U A (pages h) → lists A (descs h) → A !! a = Some (Small i) →
  header (mem (pages h)) a (kind_desc (Small i)) n → 0 ≤ j < per i →
  arena_to_block descs_addr a j h = Ok (block i a j, h).
Proof.
  intros HA HL Ha (H1 & H2 & _) Hj. destruct (arena_addr _ _ _ _ _ HA Ha) as (Hpb & _ & He).
  pose proof (ar_kind _ _ _ HA a _ Ha) as Hi. simpl in Hi, He. destruct (bsz_facts i Hi) as (Hbs & _ & Hper & _).
  unfold PHYS_BASE in Hpb. unfold arena_to_block.
  erewrite bind_ok by (apply assert_ok; unfold NULL; rewrite (proj2 (Z.eqb_neq a 0)) by lia; done).
  erewrite bind_ok by by apply heap_ld32. erewrite bind_ok by done.
  erewrite bind_ok by by apply heap_ld32. erewrite bind_ok by by eapply deref_ok.
  cbn [snd block_size_of blocks_per_arena].
  erewrite bind_ok by (apply assert_ok, Z.ltb_lt; lia).
  unfold mret, st_ret. do 2 f_equal. unfold block, sizeof_arena. rewrite u32_small by nia. lia.
Qed.

Lemma block_size_ok x U A (h : heap P) a b len :
  inv x U A h → slot A a b len → block_size descs_addr b h = Ok (len, h).
Proof.
  intros [HA HL Hh _ _] Hs. assert (∃ k, A !! a = Some k) as [k Ha].
  { unfold slot in Hs. destruct (A !! a); [eauto|done]. }
  pose proof (Hh a k Ha) as (H1 & H2 & H3). destruct (arena_addr _ _ _ _ _ HA Ha) as (Hpb & Hm & He).
  unfold block_size. erewrite bind_ok by by eapply block_to_arena_ok.
  erewrite bind_ok by by apply heap_ld32. unfold slot in Hs. rewrite Ha in Hs. destruct k as [i|n]; cbn [kind_desc].
  - destruct Hs as (-> & _). pose proof (ar_kind _ _ _ HA a _ Ha) as Hi. simpl in Hi.
    destruct (desc_ptr_ok i Hi) as [-> _]. cbn [negb]. by erewrite bind_ok by by eapply deref_ok.
  - destruct Hs as [-> ->]. rewrite Z.eqb_refl. cbn [negb]. erewrite bind_ok by by apply heap_ld32.
    pose proof (ar_kind _ _ _ HA a _ Ha) as Hn. simpl in Hn, He. unfold PHYS_BASE in Hpb.
    unfold mret, st_ret. cbn [kind_cnt]. do 2 f_equal. rewrite pg_ofs_mod. change PGSIZE with 4096.
    replace ((a + 12) mod 4096) with 12 by dlia. rewrite (u32_small (4096 * n)), u32_small; lia.
Qed.
End inv.
