(* ===== verification/MallocSpec.v ===== *)
(** * What malloc.c does

    The operations of [Malloc] on a heap that satisfies the invariant of
    [MallocInv], and the refinement of an abstract heap: a map from the
    addresses of the live blocks to their contents. *)

From S2P Require Import Prelude Bytes Vaddr PageIface PageBytes Malloc MallocInv.

(** ** Lists *)

Lemma fl_insert ds i j d : (i < length ds)%nat → fl (<[i := d]> ds) j = if decide (i = j) then free_list d else fl ds j.
Proof.
  intros Hi. unfold fl. case_decide as E.
  - subst. by rewrite list_lookup_insert_eq.
  - by rewrite list_lookup_insert_ne.
Qed.

Lemma lists_insert A ds i l :
  lists A ds → (i < 7)%nat → NoDup l →
  (∀ b, b ∈ l → ∃ a k, A !! a = Some (Small i) ∧ 0 ≤ k < per i ∧ b = block i a k) →
  lists A (<[i := mk_desc (bsz i) (per i) l]> ds).
Proof.
  intros [Hl Hd Hf Hn] Hi HN Hb. split.
  - by rewrite length_insert.
  - intros j Hj. rewrite fl_insert by lia. case_decide as E.
    + subst. by rewrite list_lookup_insert_eq by lia.
    + rewrite list_lookup_insert_ne by done. by apply Hd.
  - intros j b Hj. rewrite fl_insert by lia. case_decide as E; [subst; apply Hb|by apply Hf].
  - intros j Hj. rewrite fl_insert by lia. case_decide; [done|by apply Hn].
Qed.

Lemma lists_mono A A' ds : lists A ds → A ⊆ A' → lists A' ds.
Proof.
  intros [Hl Hd Hf Hn] Hs. split; [done..| |done].
  intros i b Hi Hb. destruct (Hf i b Hi Hb) as (a & k & Ha & ?). exists a, k. split; [|done]. by eapply lookup_weaken.
Qed.

Lemma frees_filter a (p : Z → Prop) `{∀ x, Decision (p x)} l :
  (∀ b, b ∈ l → page_at b = a → p b) → frees a (filter p l) = frees a l.
Proof.
  intros Hb. induction l as [|b l IH]; [done|]. specialize (IH (λ c Hc, Hb c (list_elem_of_further _ _ _ Hc))).
  rewrite (frees_cons a b l). destruct (decide (p b)) as [Hp|Hp].
  - rewrite filter_cons_True by done. by rewrite frees_cons, IH.
  - rewrite filter_cons_False by done. rewrite IH, decide_False; [lia|].
    intros E. apply Hp, Hb; [|done]. apply list_elem_of_here.
Qed.

Lemma frees_same c a l : (∀ b, b ∈ l → page_at b = c) → frees a l = if decide (a = c) then Z.of_nat (length l) else 0.
Proof.
  induction l as [|b l IH]; intros Hb; [by case_decide|]. rewrite frees_cons, IH by set_solver.
  rewrite (Hb b) by set_solver. cbn [length]. repeat case_decide; (congruence || lia).
Qed.

Section spec.
Context {P : Type} `{PageRuns P}.
Variable descs_addr : Z.
Hypothesis Hda : 0 < descs_addr ∧ descs_addr + 480 ≤ 2 ^ 32.

Abbreviation heap := (Malloc.heap P).
Abbreviation inv := (inv descs_addr).
Abbreviation headers := (headers descs_addr).
Abbreviation kind_desc := (kind_desc descs_addr).

Definition slots_kept (A : gmap Z kind) (m m' : frames) : Prop :=
  ∀ a b len y, slot A a b len → b ≤ y < b + len → byte_at m' y = byte_at m y.

(** A free list and the count in the header of one of its arenas change
    together. *)
Lemma recount U A (h : heap) a i l :
  arenas U A (pages h) → lists A (descs h) → headers A (mem (pages h)) (descs h) →
  A !! a = Some (Small i) → (∀ a', a' ≠ a → frees a' l = frees a' (fl (descs h) i)) → 0 ≤ frees a l ≤ per i →
  let h' := set_frames (put_word (mem (pages h)) (a + 8) (frees a l)) (set_fl i l h) in
  set_free_cnt a (frees a l) (set_fl i l h) = Ok (tt, h') ∧
  arenas U A (pages h') ∧ headers A (mem (pages h')) (descs h') ∧ slots_kept A (mem (pages h)) (mem (pages h')).
Proof.
  intros HA HL Hh Ha Hf Hl h'. pose proof (ar_kind _ _ _ HA a _ Ha) as Hi. simpl in Hi.
  destruct (bsz_facts i Hi) as (_ & _ & _ & Hper). pose proof (Hh a _ Ha) as Hhd.
  destruct (header_cnt U A (pages h) a _ _ _ (frees a l) HA Ha Hhd) as (m' & Em & Hw & Hhd' & Hoth); [lia|].
  subst m'. unfold h', set_frames. cbn [pages descs set_fl]. rewrite mem_set. split_and!.
  - eapply (heap_st32 (a + 8) _ _ (set_fl i l h)). apply Hhd.
  - apply arenas_set_mem; [done|apply Hw..].
  - intros a' k Ha'. pose proof (li_len _ _ HL). destruct (decide (a' = a)) as [->|Na].
    + rewrite Ha in Ha'. injection Ha' as <-. cbn [kind_cnt]. rewrite fl_insert, decide_True by (done || lia). done.
    + replace (kind_cnt _ a' k) with (kind_cnt (descs h) a' k); [by eapply Hoth; [..|apply Hh]|].
      destruct k as [j|]; [|done]. cbn [kind_cnt]. rewrite fl_insert by lia. case_decide; [|done]. subst j.
      by rewrite Hf.
  - intros a' b len y Hs Hy. apply Hw. rewrite length_le_encode. intros Hy'.
    apply (slot_header _ _ _ _ _ _ _ _ y HA Hs Ha); lia.
Qed.

(** Taking the first free block. *)
Definition take_block (i : Z) : ST heap Z :=
  b ← pop_front i;
  a ← block_to_arena descs_addr b;
  n ← free_cnt a;
  set_free_cnt a (u32 (n - 1));;
  mret b.

Lemma take_block_ok U A (h : heap) i b l x :
  inv x U A h → (i < 7)%nat → fl (descs h) i = b :: l → x = None ∨ x = Some (page_at b) →
  ∃ h', take_block (Z.of_nat i) h = Ok (b, h') ∧ inv None U A h' ∧
    slot A (page_at b) b (bsz i) ∧ fl (descs h') i = l ∧ (∀ j, j ≠ i → fl (descs h') j = fl (descs h) j) ∧
    slots_kept A (mem (pages h)) (mem (pages h')).
Proof.
  intros [HA HL Hh Hbu Hc] Hi Hfl Hx. pose proof (li_len _ _ HL) as Hlen.
  destruct (li_free _ _ HL i b Hi) as (a & k & Ha & Hk & Eb); [rewrite Hfl; set_solver|].
  pose proof (block_slot A a i k Ha Hk) as Hs. rewrite <-Eb in Hs.
  assert (page_at b = a) as Hp by (subst b; by eapply block_page). rewrite Hp in *.
  pose proof (li_nodup _ _ HL i Hi) as Hn. rewrite Hfl in Hn. apply NoDup_cons in Hn as [Hbl Hn].
  pose proof (frees_le _ _ _ _ _ _ HA HL Ha) as Hle. destruct (bsz_facts i Hi) as (_ & _ & _ & Hper).
  assert (frees a (fl (descs h) i) = 1 + frees a l) as Hf by (by rewrite Hfl, frees_cons, decide_True).
  assert (0 ≤ frees a l) by (unfold frees; lia).
  assert (lists A (descs (set_fl i l h))) as HL'.
  { apply lists_insert; [done..|]. intros c Hc'. apply (li_free _ _ HL i c Hi). rewrite Hfl. set_solver. }
  assert (∀ a', a' ≠ a → frees a' l = frees a' (fl (descs h) i)) as Hoth.
  { intros a' Na. by rewrite Hfl, frees_cons, decide_False by congruence. }
  destruct (recount U A h a i l HA HL Hh Ha Hoth) as (E & HA' & Hh' & Hsk); [lia|].
  set (h' := set_frames _ _) in *. exists h'.
  assert (∀ j, fl (descs h') j = if decide (i = j) then l else fl (descs h) j) as Hfl'.
  { intros j. unfold h', set_frames. cbn [descs set_fl]. by rewrite fl_insert by lia. }
  split_and!; [|split; [done|done|done| |done]|done|by rewrite Hfl', decide_True|by intros j Nj; rewrite Hfl', decide_False|done].
  - unfold take_block, pop_front. erewrite bind_ok; cycle 1.
    { erewrite bind_ok by by eapply get_desc_ok. cbn [free_list]. rewrite Hfl.
      by erewrite bind_ok by by eapply set_free_list_ok. }
    erewrite bind_ok by by eapply (block_to_arena_ok _ Hda _ _ (set_fl i l h)); [..|apply (Hh a _ Ha)|].
    erewrite bind_ok by (eapply (heap_ld32 (a + 8) _ (set_fl i l h)), (Hh a _ Ha)). cbn [kind_cnt]. rewrite Hf, u32_small by lia.
    replace (1 + frees a l - 1) with (frees a l) by lia. by erewrite bind_ok by exact E.
  - intros a' j Ha' _. rewrite Hfl'. case_decide as Ej; [subst j|].
    + destruct (decide (a' = a)) as [->|Na]; [lia|]. rewrite Hoth by done. apply Hbu; [done|].
      destruct Hx as [->| ->]; congruence.
    + apply Hbu; [done|]. destruct Hx as [->| ->]; [done|]. congruence.
Qed.

(** ** New arenas *)

(** The page allocator has given the pages of a new arena. *)
Lemma arenas_add U A p p' a k :
  arenas U A p → pa_ok p' → match k with Small i => (i < 7)%nat | Big n => 1 ≤ n end →
  page_run p' a (npages k) → (∀ b n, page_run p b n → page_run p' b n) →
  (∀ b, in_run a (npages k) b → ¬ used_page p b) →
  (∀ b, used_page p' b ↔ used_page p b ∨ in_run a (npages k) b) →
  A !! a = None ∧ arenas U (<[a := k]> A) p'.
Proof.
  intros HA Hp' Hk Hr Hrs Hnew Hu.
  assert (∀ a' k' b, A !! a' = Some k' → in_run a' (npages k') b → ¬ in_run a (npages k) b) as Hold.
  { intros a' k' b Ha' Hb Hb'. apply (Hnew b Hb'), (ar_used _ _ _ HA). right. by exists a', k'. }
  assert (1 ≤ npages k) as Hn by (destruct k; simpl; lia).
  assert (A !! a = None) as Ha.
  { destruct (A !! a) as [k'|] eqn:E; [|done]. exfalso. pose proof (npages_pos _ _ _ _ _ HA E).
    apply (Hold a k' a E); exists 0; lia. }
  split; [done|]. split; [done|..].
  - intros b. rewrite Hu, (ar_used _ _ _ HA). split.
    + intros [[?|(a' & k' & Ha' & ?)]|?]; [by left|right; exists a', k'|right; exists a, k; by rewrite lookup_insert_eq].
      split; [|done]. rewrite lookup_insert_ne; [done|]. congruence.
    + intros [?|(a' & k' & [[<- <-]|[? ?]]%lookup_insert_Some & ?)]; [by left; left|by right|].
      left. right. by exists a', k'.
  - intros a' k' b [[<- <-]|[? ?]]%lookup_insert_Some Hb; [|by apply (ar_own _ _ _ HA a' k')].
    intros HU. apply (Hnew b Hb), (ar_used _ _ _ HA). by left.
  - intros a1 a2 k1 k2 b [[<- <-]|[? ?]]%lookup_insert_Some [[<- <-]|[? ?]]%lookup_insert_Some Hb1 Hb2;
      [done|by destruct (Hold a2 k2 b)|by destruct (Hold a1 k1 b)|]. by apply (ar_disj _ _ _ HA a1 a2 k1 k2 b).
  - intros a' k' [[<- <-]|[? ?]]%lookup_insert_Some; [done|by apply (ar_kind _ _ _ HA a')].
  - intros a' k' [[<- <-]|[? ?]]%lookup_insert_Some; [done|]. by apply Hrs, (ar_run _ _ _ HA).
Qed.

(** Memory in which the arenas of [A] are unchanged. *)
Definition zones_kept (A : gmap Z kind) (m m' : frames) : Prop :=
  ∀ a x, zone A a x → byte_at m' x = byte_at m x.

Lemma zones_slots U A p m' : arenas U A p → zones_kept A (mem p) m' → slots_kept A (mem p) m'.
Proof. intros HA Hz a b len y Hs Hy. apply (Hz a). by apply (slot_range _ _ _ _ _ _ HA Hs). Qed.

Lemma zones_pages U A p m' n a :
  arenas U A p → (∀ b, in_run a n b → ¬ used_page p b) → (∀ b, ¬ in_run a n b → m' !! b = mem p !! b) →
  zones_kept A (mem p) m'.
Proof.
  intros HA Hnew Hm a' x (k & Ha' & Hr)%(zone_run _ _ _ _ _ HA). apply byte_at_page, Hm.
  intros Hb. apply (Hnew _ Hb), (ar_used _ _ _ HA). right. by exists a', k.
Qed.

Lemma headers_zones U A A' p m' ds :
  arenas U A p → A' ⊆ A → frames_ok m' → zones_kept A' (mem p) m' → headers A (mem p) ds → headers A' m' ds.
Proof.
  intros HA Hsub Hm' Hz Hh a k Ha'. pose proof (lookup_weaken _ _ _ _ Ha' Hsub) as Ha.
  destruct (Hh a k Ha) as (H1 & H2 & H3). destruct (arena_addr _ _ _ _ _ HA Ha) as (_ & Hm & _).
  pose proof (npages_pos _ _ _ _ _ HA Ha).
  assert (∀ o, 0 ≤ o ≤ 8 → o mod 4 = 0 → word_at m' (a + o) = word_at (mem p) (a + o)) as Hs.
  { intros o Ho Ho4. apply word_at_bytes; [by eapply arenas_frames|done|dlia|]. intros b Hb. apply (Hz a).
    exists k. split; [done|]. lia. }
  split_and!; [rewrite <-(Z.add_0_r a), Hs by done; by rewrite Z.add_0_r|by rewrite Hs..].
Qed.

(** Writing the header of a new arena. *)
Lemma write_header (h : heap) a dp n {B} (f : ST heap B) :
  frames_ok (mem (pages h)) → is_Some (mem (pages h) !! a) → a mod 4096 = 0 → 0 ≤ dp < 2 ^ 32 → 0 ≤ n < 2 ^ 32 →
  ∃ m' bs, (st32 a ARENA_MAGIC;; st32 (a + 4) dp;; set_free_cnt a n;; f) h = f (set_frames m' h) ∧
    written (mem (pages h)) m' a bs ∧ length bs = 12%nat ∧ header m' a dp n.
Proof.
  intros Hok Hm Ha Hdp Hn.
  assert (∀ m o, frames_ok m → is_Some (m !! a) → 0 ≤ o < 4096 → is_Some (word_at m (a + o))) as Hw.
  { intros m o Hm' Hp Ho. apply word_at_mapped; [done|]. unfold page_at. by replace ((a + o) / 4096 * 4096) with a by dlia. }
  assert (∀ a' m1 m2 bs, written m1 m2 a' bs → is_Some (m1 !! a) → is_Some (m2 !! a)) as Hmp
    by (intros; by eapply written_pages).
  destruct (Hw (mem (pages h)) 0) as [w0 E0]; [done..|lia|]. rewrite Z.add_0_r in E0.
  destruct (written_word (mem (pages h)) a ARENA_MAGIC) as [W1 E1]; [done|dlia|done|done|].
  set (m1 := put_word _ _ _) in *. destruct (Hw m1 4) as [w4 E4]; [apply W1|by eapply Hmp|lia|].
  destruct (written_word m1 (a + 4) dp) as [W2 E2]; [apply W1|dlia|done|done|].
  set (m2 := put_word m1 _ _) in *. destruct (Hw m2 8) as [w8 E8]; [apply W2|by eapply Hmp, Hmp|lia|].
  destruct (written_word m2 (a + 8) n) as [W3 E3]; [apply W2|dlia|done|done|].
  set (m3 := put_word m2 _ _) in *. exists m3, ((le_encode 4 ARENA_MAGIC ++ le_encode 4 dp) ++ le_encode 4 n).
  split_and!.
  - erewrite bind_ok by by eapply heap_st32. fold m1.
    erewrite bind_ok by (eapply heap_st32; unfold set_frames; cbn [pages]; rewrite mem_set; exact E4).
    unfold set_frames. cbn [pages descs desc_cnt]. rewrite mem_set. fold m2. rewrite set_set.
    erewrite bind_ok by (eapply heap_st32; cbn [pages]; rewrite mem_set; exact E8).
    unfold set_frames. cbn [pages descs desc_cnt]. rewrite mem_set. fold m3. by rewrite set_set.
  - eapply written_app; [by eapply written_app|]. by rewrite length_app, !length_le_encode.
  - by rewrite !length_app, !length_le_encode.
  - assert (a mod 4 = 0) as H4 by dlia.
    split_and!; [rewrite (written_same_word _ _ _ _ a (wr_ok _ _ _ _ W2) W3), (written_same_word _ _ _ _ a (wr_ok _ _ _ _ W1) W2)
                |rewrite (written_same_word _ _ _ _ (a + 4) (wr_ok _ _ _ _ W2) W3)|done];
      rewrite ?length_le_encode; (done || lia || dlia).
Qed.

(** The new arena and the arenas that were there. *)
Lemma header_add U A p m' a k bs :
  arenas U (<[a := k]> A) p → A !! a = None → written (mem p) m' a bs → length bs = 12%nat → zones_kept A (mem p) m'.
Proof.
  intros HA Ha Hw Hl a' x (k' & Ha' & Hx). apply Hw. rewrite Hl. intros Hx'.
  assert (1 ≤ npages k) by (eapply npages_pos; [done|apply lookup_insert_eq]).
  assert (a' = a); [|congruence]. apply (zone_inj _ _ _ _ _ x HA).
  - exists k'. split; [|done]. rewrite lookup_insert_ne; [done|]. congruence.
  - exists k. rewrite lookup_insert_eq. split; [done|]. lia.
Qed.

Lemma zones_trans A m m1 m2 : zones_kept A m m1 → zones_kept A m1 m2 → zones_kept A m m2.
Proof. intros H1 H2 a x Hx. rewrite (H2 a x Hx). by apply (H1 a). Qed.

Lemma kind_desc_range k : match k with Small i => (i < 7)%nat | Big n => 1 ≤ n end → 0 ≤ kind_desc k < 2 ^ 32.
Proof. destruct k; simpl; [apply (desc_ptr_ok _ Hda)|done]. Qed.

(** Pages for a new arena, with its header. *)
Lemma open_arena U A (h : heap) k c {B} (f : Z → ST heap B) :
  inv None U A h → match k with Small i => (i < 7)%nat | Big n => 1 ≤ n end → npages k < 2 ^ 32 → 0 ≤ c < 2 ^ 32 →
  get_multiple 0 (npages k) (pages h) = Ok (NULL, pages h) ∨
  ∃ a p', get_multiple 0 (npages k) (pages h) = Ok (a, p') ∧ a =? NULL = false ∧ A !! a = None ∧
    ∃ m', let h1 := mk_heap p' (descs h) (desc_cnt h) in
      (st32 a ARENA_MAGIC;; st32 (a + 4) (kind_desc k);; set_free_cnt a c;; f a) h1 = f a (set_frames m' h1) ∧
      arenas U (<[a := k]> A) (set_mem m' p') ∧ header m' a (kind_desc k) c ∧
      zones_kept A (mem (pages h)) m' ∧ headers A m' (descs h).
Proof.
  intros [HA HL Hh Hb Hc] Hk Hn Hcr. assert (1 ≤ npages k) by (destruct k; simpl; lia).
  destruct (get_run_ok (pages h) 0 (npages k)) as (a & p' & E & Hp' & [[-> ->]|(_ & Hr & Hrs & Hnew & Hu & Hm)]);
    [apply HA|lia|done|by left|]. right. exists a, p'.
  destruct (arenas_add U A (pages h) p' a k) as [Ha HA']; [done..|].
  destruct (arena_addr _ _ _ a k HA') as (Hpb & Hal & He); [apply lookup_insert_eq|].
  destruct (arena_page _ _ _ a k a HA') as [_ Hmp]; [apply lookup_insert_eq|exists 0; lia|].
  split_and!; [done|apply Z.eqb_neq; unfold NULL, PHYS_BASE in *; lia|done|].
  destruct (write_header (mk_heap p' (descs h) (desc_cnt h)) a (kind_desc k) c (f a)) as (m' & bs & Ef & Hw & Hl & Hhd);
    [by eapply arenas_frames|done|done|by apply kind_desc_range|done|]. cbn [pages] in Hw.
  assert (zones_kept A (mem (pages h)) m') as Hz.
  { eapply zones_trans; [|by eapply header_add]. by eapply zones_pages. }
  exists m'. split_and!; [done| |done|done|].
  - apply arenas_set_mem; [done|apply Hw..].
  - by eapply headers_zones, Hh; [..|apply Hw|].
Qed.

Definition push_blocks (a : Z) (i : nat) (per_arena : Z) : ST heap unit :=
  loopM (S (Z.to_nat per_arena)) (λ k,
    if k <? per_arena then
      b ← arena_to_block descs_addr a k;
      d ← get_desc (Z.of_nat i);
      set_free_list (Z.of_nat i) (free_list d ++ [b]);;
      mret (inl (k + 1))
    else mret (inr tt)) 0.

Lemma set_fl_twice i l l' (h : heap) : set_fl i l (set_fl i l' h) = set_fl i l h.
Proof. unfold set_fl. cbn [pages descs desc_cnt]. by rewrite list_insert_insert_eq. Qed.

Lemma fl_set_fl A i j l (h : heap) :
  lists A (descs h) → (i < 7)%nat → fl (descs (set_fl i l h)) j = if decide (i = j) then l else fl (descs h) j.
Proof. intros HL Hi. pose proof (li_len _ _ HL). unfold set_fl. cbn [descs]. by rewrite fl_insert by lia. Qed.

Lemma set_fl_same A i (h : heap) : lists A (descs h) → (i < 7)%nat → set_fl i (fl (descs h) i) h = h.
Proof.
  intros HL Hi. unfold set_fl. rewrite list_insert_id by (by apply HL). by destruct h.
Qed.

Lemma lists_prefix A ds a i k :
  lists A ds → A !! a = Some (Small i) → (i < 7)%nat → k ≤ per i →
  lists A (<[i := mk_desc (bsz i) (per i) (block i a <$> seqZ 0 k)]> ds).
Proof.
  intros HL Ha Hi Hk. apply lists_insert; [done..| |].
  - apply NoDup_fmap_2; [|apply NoDup_seqZ]. intros x y. unfold block. destruct (bsz_facts i Hi). nia.
  - intros b (j & -> & Hj%elem_of_seqZ)%list_elem_of_fmap. exists a, j. split_and!; (done || lia).
Qed.

Lemma push_blocks_ok U A (h : heap) a i n :
  arenas U A (pages h) → lists A (descs h) → A !! a = Some (Small i) → (i < 7)%nat →
  header (mem (pages h)) a (kind_desc (Small i)) n → fl (descs h) i = [] →
  push_blocks a i (per i) h = Ok (tt, set_fl i (blocks i a) h).
Proof.
  intros HA HL Ha Hi Hhd Hfl. destruct (bsz_facts i Hi) as (_ & _ & _ & Hper). pose proof (li_len _ _ HL) as Hlen.
  destruct (loopM_rule (λ n k h', h' = set_fl i (block i a <$> seqZ 0 k) h ∧ 0 ≤ k ≤ per i ∧ n = Z.to_nat (per i - k))
    (λ _ h', h' = set_fl i (blocks i a) h) (λ k,
    if k <? per i then
      b ← arena_to_block descs_addr a k;
      d ← get_desc (Z.of_nat i);
      set_free_list (Z.of_nat i) (free_list d ++ [b]);;
      mret (inl (k + 1))
    else mret (inr tt))) with (fuel := S (Z.to_nat (per i))) (n := Z.to_nat (per i)) (l := 0) (s := h)
    as ([] & h' & E & ->); [| |lia|exact E].
  - intros m k h' (-> & Hk & ->). destruct (Z.ltb_spec k (per i)) as [Hlt|Hge]; cycle 1.
    { eexists (inr tt), _. split; [done|]. unfold blocks. by replace (per i) with k by lia. }
    pose proof (lists_prefix A (descs h) a i k HL Ha Hi ltac:(lia)) as HL'.
    eexists (inl (k + 1)), _. split.
    + erewrite bind_ok by (eapply (arena_to_block_ok _ _ _ (set_fl i _ h)); [done..|lia]).
      erewrite bind_ok by (eapply (get_desc_ok _ _ (set_fl i _ h)); done).
      erewrite bind_ok by (eapply (set_free_list_ok _ _ _ (set_fl i _ h)); done). done.
    + exists (Z.to_nat (per i - (k + 1))). split_and!; [lia| |lia|lia|done].
      rewrite set_fl_twice. cbn [free_list]. rewrite (fl_set_fl A) by done. rewrite decide_True by done.
      rewrite seqZ_app by lia. by rewrite fmap_app.
  - split_and!; [|lia|lia|f_equal; lia]. change (block i a <$> seqZ 0 0) with (@nil Z). by rewrite <-Hfl, (set_fl_same A).
Qed.

Lemma headers_new A m ds ds' a k :
  headers A m ds → header m a (kind_desc k) (kind_cnt ds' a k) →
  (∀ a' j, A !! a' = Some (Small j) → a' ≠ a → frees a' (fl ds' j) = frees a' (fl ds j)) →
  headers (<[a := k]> A) m ds'.
Proof.
  intros Hh Ha Hf a' k' [[<- <-]|[Na Ha']]%lookup_insert_Some; [done|]. pose proof (Hh a' k' Ha') as Hh'.
  destruct k' as [j|]; [|done]. cbn [kind_cnt] in *. by rewrite Hf.
Qed.

Lemma new_arena_ok U A (h : heap) i :
  inv None U A h → (i < 7)%nat → fl (descs h) i = [] →
  (get_multiple 0 1 (pages h) = Ok (NULL, pages h) ∧ new_arena descs_addr (Z.of_nat i) h = Ok (false, h)) ∨
  ∃ a h', new_arena descs_addr (Z.of_nat i) h = Ok (true, h') ∧ A !! a = None ∧
    inv (Some a) U (<[a := Small i]> A) h' ∧ zones_kept A (mem (pages h)) (mem (pages h')) ∧
    ∀ j, fl (descs h') j = if decide (i = j) then blocks i a else fl (descs h) j.
Proof.
  intros HI Hi Hfl. destruct (bsz_facts i Hi) as (_ & _ & _ & Hper).
  destruct (open_arena U A h (Small i) (per i) (λ a, push_blocks a i (per i);; mret true)) as
    [E|(a & p' & E & Ea & Ha & m' & Ef & HA & Hhd & Hz & Hh)]; [done|done|done|lia|left; split; [done|]|right].
  { cbn [npages] in E. unfold new_arena. erewrite bind_ok; [|unfold on_pages; by rewrite get_page_multiple, E].
    rewrite Z.eqb_refl. by destruct h. }
  destruct HI as [HA0 HL Hh0 Hb Hc]. cbn [npages kind_desc] in *. set (h1 := mk_heap p' _ _) in *.
  assert (lists (<[a := Small i]> A) (descs h1)) as HL1.
  { apply (lists_mono A); [done|]. by apply insert_subseteq. }
  pose proof (push_blocks_ok U (<[a := Small i]> A) (set_frames m' h1) a i (per i)) as Hpush.
  unfold set_frames in Hpush. cbn [pages descs] in Hpush. rewrite mem_set in Hpush.
  specialize (Hpush HA HL1 (lookup_insert_eq _ _ _) Hi Hhd Hfl).
  exists a, (set_fl i (blocks i a) (set_frames m' h1)).
  assert (∀ j, fl (descs (set_fl i (blocks i a) (set_frames m' h1))) j
               = if decide (i = j) then blocks i a else fl (descs h) j) as Hfl'
    by (intros j; by apply (fl_set_fl A _ _ _ (set_frames m' h1))).
  assert (∀ k, 0 ≤ k < per i → page_at (block i a k) = a) as Hpg.
  { intros k Hk. by eapply block_page; [exact HA|apply lookup_insert_eq|]. }
  assert (∀ a', frees a' (blocks i a) = if decide (a' = a) then per i else 0) as Hcnt.
  { intros a'. rewrite (frees_same a), length_blocks by (done || intros b (k & Hk & ->)%elem_of_blocks; by apply Hpg). done. }
  split_and!; [|done| |unfold set_fl, set_frames; cbn [pages]; by rewrite mem_set|done].
  - unfold new_arena. erewrite bind_ok; [|unfold on_pages; by rewrite get_page_multiple, E]. rewrite Ea.
    erewrite bind_ok by by eapply (get_desc_ok A _ h1). cbn [blocks_per_arena]. etrans; [exact Ef|].
    erewrite bind_ok; [done|]. exact Hpush.
  - split; [done| | | |done].
    + apply lists_prefix; [done|apply lookup_insert_eq|done..].
    + unfold set_fl, set_frames. cbn [pages]. rewrite mem_set. eapply headers_new; [done|..].
      * cbn [kind_cnt]. rewrite Hfl', decide_True by done. rewrite Hcnt, decide_True by done. exact Hhd.
      * intros a' j Ha' Na. rewrite Hfl'. case_decide; [subst j|done]. by rewrite Hcnt, decide_False, Hfl.
    + intros a' j Ha' Na. assert (a' ≠ a) by congruence. rewrite lookup_insert_ne in Ha' by done. rewrite Hfl'.
      case_decide; [subst j|by apply Hb]. rewrite Hcnt, decide_False by done. lia.
Qed.

(** ** malloc *)

Lemma bsz_S i : bsz (S i) = 2 * bsz i.
Proof. unfold bsz. rewrite Nat2Z.inj_succ, Z.pow_succ_r by lia. lia. Qed.

(** The smallest descriptor for a request. *)
Lemma find_desc_ok A (h : heap) size :
  lists A (descs h) → desc_cnt h = 7 → 0 < size →
  ∃ i, find_desc size h = Ok (Z.of_nat i, h) ∧
    (((i < 7)%nat ∧ size ≤ bsz i ∧ size ≤ 1024 ∧ (i = 0%nat ∨ bsz i < 2 * size)) ∨ (i = 7%nat ∧ 1024 < size)).
Proof.
  intros HL Hc Hs. unfold find_desc. erewrite bind_ok by apply get_ok. rewrite Hc, (li_len _ _ HL).
  match goal with |- context [loopM _ ?f _ _] => set (body := f) end.
  destruct (loopM_rule (λ n k h', h' = h ∧ ∃ i : nat, k = Z.of_nat i ∧ (i ≤ 7)%nat ∧ n = (7 - i)%nat ∧
      (i = 0%nat ∨ bsz (pred i) < size))
    (λ k h', h' = h ∧ ∃ i, k = Z.of_nat i ∧
      (((i < 7)%nat ∧ size ≤ bsz i ∧ size ≤ 1024 ∧ (i = 0%nat ∨ bsz i < 2 * size)) ∨ (i = 7%nat ∧ 1024 < size))) body)
    with (fuel := 11%nat) (n := 7%nat) (l := 0) (s := h) as (k & h' & E & -> & i & -> & Hi); [| |lia|by exists i].
  - intros n k h' (-> & i & -> & Hi & -> & Hp). unfold body. destruct (Z.ltb_spec (Z.of_nat i) 7) as [Hlt|Hge].
    + destruct (bsz_facts i) as [Hb _]; [lia|].
      erewrite bind_ok by (eapply get_desc_ok; [done|lia]). cbn [block_size_of].
      destruct (Z.geb_spec (bsz i) size); eexists _, h; (split; [done|]).
      * split; [done|]. exists i. split; [done|]. left. split_and!; [lia|lia|lia|].
        destruct i as [|i]; [by left|]. right. destruct Hp as [?|Hp]; [done|]. cbn [pred] in Hp. rewrite bsz_S. lia.
      * exists (7 - S i)%nat. split; [lia|]. split; [done|]. exists (S i). split_and!; [lia|lia|done|right; cbn [pred]; lia].
    + eexists (inr _), h. split; [done|]. split; [done|]. exists i. split; [done|]. right.
      assert (i = 7%nat) as -> by lia. destruct Hp as [?|Hp]; [done|]. split; [done|]. exact Hp.
  - split; [done|]. exists 0%nat. split_and!; (done || lia || by left).
Qed.

(** Taking a block makes it live. *)
Lemma live_take U A p ds ds' i b l :
  arenas U A p → lists A ds → (i < 7)%nat → fl ds i = b :: l → slot A (page_at b) b (bsz i) →
  fl ds' i = l → (∀ j, j ≠ i → fl ds' j = fl ds j) →
  (∀ len, ¬ live A ds b len) ∧ ∀ c len, live A ds' c len ↔ live A ds c len ∨ (c = b ∧ len = bsz i).
Proof.
  intros HA HL Hi Hfl Hs Hfi Hfj. destruct (li_free _ _ HL i b Hi) as (a & k & Ha & Hk & Eb); [rewrite Hfl; set_solver|].
  assert (page_at b = a) as Hp by (subst b; by eapply block_page). rewrite Hp in *.
  pose proof (li_nodup _ _ HL i Hi) as Hn. rewrite Hfl in Hn. apply NoDup_cons in Hn as [Hbl _].
  assert (∀ a' c len, slot A a' c len → c ≠ b → on_list A ds' a' c ↔ on_list A ds a' c) as Hol.
  { intros a' c len Hc Nc. unfold on_list. destruct (A !! a') as [[j|]|]; [|done..].
    destruct (decide (j = i)) as [->|Nj]; [|by rewrite Hfj]. rewrite Hfl, Hfi. set_solver. }
  assert (∀ a' len, slot A a' b len → a' = a ∧ len = bsz i) as Hsu.
  { intros a' len Hs'. destruct (slot_disj _ _ _ _ _ _ _ _ _ HA Hs Hs') as [(<- & _ & <-)|[? _]]; done. }
  split.
  - intros len (a' & Hs' & Ho). destruct (Hsu a' len Hs') as [-> _]. apply Ho. unfold on_list. rewrite Ha, Hfl. set_solver.
  - intros c len. split.
    + intros (a' & Hc & Ho). destruct (decide (c = b)) as [->|Nc]; [right; by destruct (Hsu a' len Hc)|].
      left. exists a'. split; [done|]. by rewrite <-Hol.
    + intros [(a' & Hc & Ho)|[-> ->]].
      * destruct (decide (c = b)) as [->|Nc].
        { destruct (Hsu a' len Hc) as [-> _]. destruct Ho. unfold on_list. rewrite Ha, Hfl. set_solver. }
        exists a'. split; [done|]. by rewrite Hol.
      * exists a. split; [done|]. unfold on_list. by rewrite Ha, Hfi.
Qed.

Lemma slot_add (A : gmap Z kind) a k a' b len : a' ≠ a → slot (<[a := k]> A) a' b len ↔ slot A a' b len.
Proof. intros Na. unfold slot. by rewrite lookup_insert_ne. Qed.

(** The blocks of one more arena. *)
Lemma live_add U A p ds ds' a k :
  arenas U (<[a := k]> A) p → A !! a = None →
  (∀ j c, page_at c ≠ a → c ∈ fl ds' j ↔ c ∈ fl ds j) →
  ∀ c len, live (<[a := k]> A) ds' c len ↔
    live A ds c len ∨ (slot (<[a := k]> A) a c len ∧ ¬ on_list (<[a := k]> A) ds' a c).
Proof.
  intros HA Ha Hfl.
  assert (∀ a' c len, a' ≠ a → slot A a' c len → on_list (<[a := k]> A) ds' a' c ↔ on_list A ds a' c) as Hol.
  { intros a' c len Na Hs. unfold on_list. rewrite lookup_insert_ne by done. destruct (A !! a') as [[j|]|] eqn:E; [|done..].
    apply Hfl. destruct (slot_range _ _ _ _ _ _ HA (proj2 (slot_add A a k a' c len Na) Hs)) as (_ & _ & -> & _). done. }
  intros c len. split.
  - intros (a' & Hs & Ho). destruct (decide (a' = a)) as [->|Na]; [by right|].
    apply slot_add in Hs; [|done]. left. exists a'. split; [done|]. by rewrite <-Hol.
  - intros [(a' & Hs & Ho)|Hs]; [|by exists a].
    assert (a' ≠ a) as Na. { intros ->. unfold slot in Hs. by rewrite Ha in Hs. }
    exists a'. split; [by apply slot_add|]. by rewrite Hol.
Qed.

(** The blocks of an arena whose blocks are all free. *)
Lemma live_free_arena U A p ds ds' a i :
  arenas U (<[a := Small i]> A) p → A !! a = None →
  (∀ j c, page_at c ≠ a → c ∈ fl ds' j ↔ c ∈ fl ds j) → (∀ k, 0 ≤ k < per i → block i a k ∈ fl ds' i) →
  ∀ c len, live (<[a := Small i]> A) ds' c len ↔ live A ds c len.
Proof.
  intros HA Ha Hfl Hall c len. rewrite (live_add _ _ _ _ _ _ _ HA Ha Hfl). split; [|by left].
  intros [?|[Hs Ho]]; [done|]. unfold slot, on_list in *. rewrite lookup_insert_eq in *.
  destruct Hs as (_ & k & Hk & ->). by destruct Ho; apply Hall.
Qed.

(** The pages a request needs when there is no free block. *)
Definition need (size : Z) : Z := if size <=? 1024 then 1 else u32 (u32 (size + 12) + 4096 - 1) / 4096.

(** The size of the block for a request. *)
Definition fits (size len : Z) : Prop :=
  size ≤ len ∧ (if size <=? 1024 then len = 16 ∨ len < 2 * size else len < size + 4096).

(** A new live block [p] of [len] bytes. *)
Record allocated (A A' : gmap Z kind) (h h' : heap) (p len : Z) : Prop := {
  al_sub : A ⊆ A';
  al_kept : slots_kept A (mem (pages h)) (mem (pages h'));
  al_new len' : ¬ live A (descs h) p len';
  al_live c len' : live A' (descs h') c len' ↔ live A (descs h) c len' ∨ (c = p ∧ len' = len)
}.

Lemma malloc_big_ok U A (h : heap) size :
  inv None U A h → 1024 < size < 2 ^ 32 →
  (get_multiple 0 (need size) (pages h) = Ok (NULL, pages h) ∧ malloc_big size h = Ok (NULL, h)) ∨
  ∃ p h' A' len, malloc_big size h = Ok (p, h') ∧ inv None U A' h' ∧ allocated A A' h h' p len ∧
    (size ≤ 2 ^ 32 - 12 → fits size len).
Proof.
  intros HI Hs. set (n := need size). assert (n = u32 (u32 (size + 12) + 4096 - 1) / 4096) as En.
  { unfold n, need. by rewrite (proj2 (Z.leb_gt _ _)) by lia. }
  pose proof (u32_range (u32 (size + 12) + 4096 - 1)) as Hu. assert (0 ≤ n < 2 ^ 20) as Hn by (rewrite En; dlia).
  assert (malloc_big size h = (a ← on_pages (get_multiple 0 n);
    if a =? NULL then mret NULL else
    st32 a ARENA_MAGIC;; st32 (a + 4) NULL;; set_free_cnt a n;; mret (u32 (a + 12))) h) as ->.
  { unfold malloc_big, sizeof_arena. change PGSIZE with 4096. by rewrite <-En. }
  assert (get_multiple 0 n (pages h) = Ok (NULL, pages h) →
    (a ← on_pages (get_multiple 0 n); if a =? NULL then mret NULL else
     st32 a ARENA_MAGIC;; st32 (a + 4) NULL;; set_free_cnt a n;; mret (u32 (a + 12))) h = Ok (NULL, h)) as Hnull.
  { intros E. erewrite bind_ok by (unfold on_pages; by rewrite E). rewrite Z.eqb_refl. by destruct h. }
  destruct (decide (n = 0)) as [E0|Nn].
  { left. destruct (get_run_ok (pages h) 0 n) as (a & p' & E & _ & [[-> ->]|[? _]]); [apply HI|lia|done| |lia]. auto. }
  destruct (open_arena U A h (Big n) n (λ a, mret (u32 (a + 12)))) as
    [E|(a & p' & E & Ea & Ha & m' & Ef & HA & Hhd & Hz & Hh)]; [done|lia|simpl; lia|lia|left; auto|right].
  destruct HI as [HA0 HL Hh0 Hb Hc]. cbn [npages] in *. set (h1 := mk_heap p' _ _) in *.
  destruct (arena_addr _ _ _ a (Big n) HA) as (Hpb & _ & He); [apply lookup_insert_eq|]. cbn [npages] in He. unfold PHYS_BASE in Hpb.
  assert (A ⊆ <[a := Big n]> A) as Hsub by by apply insert_subseteq.
  exists (a + 12), (set_frames m' h1), (<[a := Big n]> A), (4096 * n - 12).
  split_and!.
  - erewrite bind_ok by (unfold on_pages; by rewrite E). rewrite Ea. etrans; [exact Ef|].
    unfold mret, st_ret. by rewrite u32_small by lia.
  - split; cbn [pages descs desc_cnt set_frames]; [done|by eapply lists_mono| | |done].
    + unfold set_frames. cbn [pages]. rewrite mem_set. by eapply headers_new.
    + intros a' j [[_ [=]]|[_ Ha']]%lookup_insert_Some Hx. by apply Hb.
  - split; [done| | |].
    + unfold set_frames. cbn [pages]. rewrite mem_set. by eapply zones_slots.
    + intros len' (a' & Hs' & _). assert (a' ≠ a) as Na by (intros ->; unfold slot in Hs'; by rewrite Ha in Hs').
      apply (slot_add A a (Big n)) in Hs'; [|done].
      destruct (slot_disj _ _ _ _ a _ (a + 12) _ (4096 * n - 12) HA Hs') as [[? _]|[? _]]; [|done..].
      unfold slot. by rewrite lookup_insert_eq.
    + intros c len'. rewrite (live_add _ _ _ (descs h) _ _ _ HA Ha) by done. f_equiv.
      unfold slot, on_list. rewrite lookup_insert_eq. tauto.
  - intros Hs'. unfold fits. rewrite (proj2 (Z.leb_gt _ _)) by lia.
    destruct (decide (size = 2 ^ 32 - 12)) as [->|Ns]; [by destruct Nn|].
    rewrite (u32_small (size + 12)) in En, Hu by lia.
    destruct (decide (size + 12 + 4096 - 1 < 2 ^ 32)); [rewrite u32_small in En by lia; subst n; dlia|].
    exfalso. apply Nn. rewrite En. unfold u32. dlia.
Qed.

Lemma malloc_ok U A (h : heap) size :
  inv None U A h → 0 ≤ size < 2 ^ 32 →
  (malloc descs_addr size h = Ok (NULL, h) ∧
   (size = 0 ∨ get_multiple 0 (need size) (pages h) = Ok (NULL, pages h))) ∨
  ∃ p h' A' len, malloc descs_addr size h = Ok (p, h') ∧ inv None U A' h' ∧ allocated A A' h h' p len ∧
    0 < size ∧ (size ≤ 2 ^ 32 - 12 → fits size len).
Proof.
  intros HI Hs. unfold malloc. destruct (Z.eqb_spec size 0) as [->|Ns]; [left; by split; [|left]|].
  pose proof HI as [HA HL Hh Hb Hc].
  destruct (find_desc_ok A h size HL Hc) as (i & E & Hi); [lia|].
  erewrite bind_ok by exact E. erewrite bind_ok by apply get_ok. rewrite Hc.
  destruct Hi as [(Hi & Hsz & H1k & Hmin)|[-> Hbig]]; cycle 1.
  { rewrite Z.eqb_refl. destruct (malloc_big_ok U A h size HI) as [[Eg Em]|(p & h' & A' & len & Em & ? & ? & ?)]; [lia|left|right].
    - split; [done|by right].
    - exists p, h', A', len. split_and!; (done || lia). }
  rewrite (proj2 (Z.eqb_neq _ _)) by lia. erewrite bind_ok by by eapply get_desc_ok. cbn [free_list].
  assert (fits size (bsz i)) as Hfit.
  { unfold fits. rewrite (proj2 (Z.leb_le _ _)) by lia. split; [done|]. destruct Hmin as [->|?]; [by left|by right]. }
  destruct (fl (descs h) i) as [|b l] eqn:Hfl.
  - rewrite bool_decide_eq_true_2 by done.
    destruct (new_arena_ok U A h i HI Hi Hfl) as [[Eg En]|(a & h1 & En & Ha & HI1 & Hz & Hfl1)].
    + left. erewrite bind_ok by exact En. split; [done|]. right. unfold need. by rewrite (proj2 (Z.leb_le _ _)) by lia.
    + right. erewrite bind_ok by exact En. pose proof HI1 as [HA1 HL1 _ _ _].
      destruct (bsz_facts i Hi) as (_ & _ & _ & Hper).
      assert (blocks i a = block i a 0 :: (block i a <$> seqZ 1 (Z.pred (per i)))) as Ebl.
      { unfold blocks. by rewrite seqZ_cons by lia. }
      assert (fl (descs h1) i = block i a 0 :: (block i a <$> seqZ 1 (Z.pred (per i)))) as Hfl0.
      { by rewrite Hfl1, decide_True. }
      destruct (take_block_ok U _ h1 i _ _ (Some a) HI1 Hi Hfl0) as (h2 & E2 & HI2 & Hsl & Hf2 & Hf2' & Hk2).
      { right. f_equal. symmetry. eapply block_page; [exact HA1|apply lookup_insert_eq|lia]. }
      destruct (live_take _ _ _ _ _ _ _ _ HA1 HL1 Hi Hfl0 Hsl Hf2 Hf2') as [Hnew Hlive].
      assert (∀ c len, live (<[a := Small i]> A) (descs h1) c len ↔ live A (descs h) c len) as Hl1.
      { apply (live_free_arena _ _ _ _ _ _ _ HA1 Ha).
        - intros j c Hc'. rewrite Hfl1. case_decide; [subst j|done]. rewrite Hfl, elem_of_nil, elem_of_blocks.
          split; [|done]. intros (k & Hk & ->). apply Hc'. by eapply block_page, Hk; [exact HA1|apply lookup_insert_eq].
        - intros k Hk. rewrite Hfl1, decide_True by done. apply elem_of_blocks. by exists k. }
      exists (block i a 0), h2, (<[a := Small i]> A), (bsz i). split_and!; [exact E2|done| |lia|done]. split.
      * by apply insert_subseteq.
      * intros a' b len y Hs' Hy. rewrite (Hk2 a' b len y); [by eapply zones_slots| |done].
        apply slot_add; [|done]. intros ->. unfold slot in Hs'. by rewrite Ha in Hs'.
      * intros len' Hl. apply (Hnew len'). by apply Hl1.
      * intros c len'. by rewrite Hlive, Hl1.
  - rewrite bool_decide_eq_false_2 by done. erewrite bind_ok by done. right.
    destruct (take_block_ok U A h i b l None HI Hi Hfl) as (h2 & E2 & HI2 & Hsl & Hf2 & Hf2' & Hk2); [by left|].
    destruct (live_take _ _ _ _ _ _ _ _ HA HL Hi Hfl Hsl Hf2 Hf2') as [Hnew Hlive].
    exists b, h2, A, (bsz i). split_and!; [exact E2|done|by split|lia|done].
Qed.

(** ** free *)

(** Pages are given back. *)
Lemma arenas_remove U A p p' a k :
  arenas U A p → A !! a = Some k → pa_ok p' → (∀ b n, page_run p b n → page_run p' b n) →
  (∀ b, used_page p' b ↔ used_page p b ∧ ¬ in_run a (npages k) b) → arenas U (delete a A) p'.
Proof.
  intros HA Ha Hp' Hrs Hu. split; [done|..].
  - intros b. rewrite Hu, (ar_used _ _ _ HA). split.
    + intros [[?|(a' & k' & Ha' & Hb)] Hn]; [by left|]. right. exists a', k'. split; [|done].
      rewrite lookup_delete_ne; [done|]. intros <-. congruence.
    + intros [HU|(a' & k' & [Na Ha']%lookup_delete_Some & Hb)].
      * split; [by left|]. intros Hb. by apply (ar_own _ _ _ HA a k b).
      * split; [right; by exists a', k'|]. intros Hb'. by apply Na, (ar_disj _ _ _ HA a a' k k' b).
  - intros a' k' b [_ Ha']%lookup_delete_Some. by apply (ar_own _ _ _ HA).
  - intros a1 a2 k1 k2 b [_ Ha1]%lookup_delete_Some [_ Ha2]%lookup_delete_Some. by apply (ar_disj _ _ _ HA).
  - intros a' k' [_ Ha']%lookup_delete_Some. by apply (ar_kind _ _ _ HA a').
  - intros a' k' [_ Ha']%lookup_delete_Some. by apply Hrs, (ar_run _ _ _ HA).
Qed.

Lemma zones_removed U A p m' a k :
  arenas U A p → A !! a = Some k → (∀ b, ¬ in_run a (npages k) b → m' !! b = mem p !! b) →
  zones_kept (delete a A) (mem p) m'.
Proof.
  intros HA Ha Hm a' x (k' & [Na Ha']%lookup_delete_Some & Hx). apply byte_at_page, Hm. intros Hb.
  destruct (zone_run _ _ _ a' x HA) as (k2 & Ha2 & Hb2); [by exists k'|]. by apply Na, (ar_disj _ _ _ HA a a' k k2 (page_at x)).
Qed.

(** The blocks of an unused arena leave the free list. *)
Definition drop_blocks (a : Z) (i : nat) (per_arena : Z) : ST heap unit :=
  loopM (S (Z.to_nat per_arena)) (λ k,
    if k <? per_arena then
      b ← arena_to_block descs_addr a k;
      remove_block (Z.of_nat i) b;;
      mret (inl (k + 1))
    else mret (inr tt)) 0.

Lemma lists_filter A ds i (p : Z → Prop) `{∀ x, Decision (p x)} :
  lists A ds → (i < 7)%nat → lists A (<[i := mk_desc (bsz i) (per i) (filter p (fl ds i))]> ds).
Proof.
  intros HL Hi. apply lists_insert; [done|done|by apply NoDup_filter, HL|].
  intros b [_ Hb]%list_elem_of_filter. by apply HL.
Qed.

Lemma filter_prefix i a k (l : list Z) :
  0 ≤ k → filter (λ x, x ≠ block i a k) (filter (λ x, x ∉ block i a <$> seqZ 0 k) l)
  = filter (λ x, x ∉ block i a <$> seqZ 0 (k + 1)) l.
Proof.
  intros Hk. rewrite list_filter_filter. apply list_filter_iff. intros x.
  rewrite seqZ_app, fmap_app by lia. rewrite not_elem_of_app. simpl. rewrite list_elem_of_singleton. tauto.
Qed.

Lemma drop_blocks_ok U A (h : heap) a i n :
  arenas U A (pages h) → lists A (descs h) → A !! a = Some (Small i) → (i < 7)%nat →
  header (mem (pages h)) a (kind_desc (Small i)) n → (∀ k, 0 ≤ k < per i → block i a k ∈ fl (descs h) i) →
  drop_blocks a i (per i) h = Ok (tt, set_fl i (filter (λ x, x ∉ blocks i a) (fl (descs h) i)) h).
Proof.
  intros HA HL Ha Hi Hhd Hall. destruct (bsz_facts i Hi) as (Hbs & _ & _ & Hper).
  unfold drop_blocks. match goal with |- loopM _ ?f _ _ = _ => set (body := f) end.
  set (L k := filter (λ x, x ∉ block i a <$> seqZ 0 k) (fl (descs h) i)).
  destruct (loopM_rule (λ n k h', h' = set_fl i (L k) h ∧ 0 ≤ k ≤ per i ∧ n = Z.to_nat (per i - k))
    (λ _ h', h' = set_fl i (L (per i)) h) body) with (fuel := S (Z.to_nat (per i))) (n := Z.to_nat (per i)) (l := 0) (s := h)
    as ([] & h' & E & ->); [| |lia|exact E].
  - intros m k h' (-> & Hk & ->). unfold body. destruct (Z.ltb_spec k (per i)) as [Hlt|Hge]; cycle 1.
    { eexists (inr tt), _. split; [done|]. by replace (per i) with k by lia. }
    assert (lists A (descs (set_fl i (L k) h))) as HL' by by apply lists_filter.
    assert (fl (descs (set_fl i (L k) h)) i = L k) as Efl by (by rewrite (fl_set_fl A), decide_True).
    assert (block i a k ∈ L k) as Hin.
    { apply list_elem_of_filter. split; [|apply Hall; lia]. intros (j & Ej & Hj%elem_of_seqZ)%list_elem_of_fmap.
      unfold block in Ej. nia. }
    eexists (inl (k + 1)), _. split.
    + erewrite bind_ok by (eapply (arena_to_block_ok _ _ _ (set_fl i _ h)); [done..|lia]).
      erewrite bind_ok; [done|]. unfold remove_block. erewrite bind_ok by (by eapply get_desc_ok). cbn [free_list].
      rewrite Efl, bool_decide_eq_true_2 by done. by eapply set_free_list_ok.
    + exists (Z.to_nat (per i - (k + 1))). split_and!; [lia| |lia|lia|done].
      rewrite set_fl_twice. f_equal. apply filter_prefix. lia.
  - split_and!; [|lia|lia|f_equal; lia]. assert (L 0 = fl (descs h) i) as ->; [|by rewrite (set_fl_same A)].
    unfold L. clear. generalize (fl (descs h) i). intros l. induction l as [|b l IH]; [done|].
    rewrite filter_cons_True by (change (block i a <$> seqZ 0 0) with (@nil Z); set_solver). by rewrite IH.
Qed.

(** An arena without live blocks is given back. *)
Lemma free_arena_ok U A (h : heap) a i :
  inv (Some a) U A h → A !! a = Some (Small i) → frees a (fl (descs h) i) = per i →
  ∃ h', free_arena descs_addr a (Z.of_nat i) (per i) h = Ok (tt, h') ∧ inv None U (delete a A) h' ∧
    (∀ c len, live (delete a A) (descs h') c len ↔ live A (descs h) c len) ∧
    zones_kept (delete a A) (mem (pages h)) (mem (pages h')).
Proof.
  intros [HA HL Hh Hb Hc] Ha Hfull. pose proof (ar_kind _ _ _ HA a _ Ha) as Hi. simpl in Hi.
  assert (∀ k, 0 ≤ k < per i → block i a k ∈ fl (descs h) i) as Hall by (intros k; by eapply frees_full).
  pose proof (drop_blocks_ok U A h a i _ HA HL Ha Hi (Hh a _ Ha) Hall) as Ed.
  set (l := filter (λ x, x ∉ blocks i a) (fl (descs h) i)) in *.
  destruct (free_run_ok (pages h) a 1) as (p' & Ef & Hp' & Hrs & Hu & Hm);
    [apply HA|lia|by apply (ar_run _ _ _ HA a _ Ha)|intros b Hb'; apply HA; right; by exists a, (Small i)|].
  set (h' := mk_heap p' (<[i := mk_desc (bsz i) (per i) l]> (descs h)) (desc_cnt h)). exists h'.
  assert (∀ j, fl (descs h') j = if decide (i = j) then l else fl (descs h) j) as Hfl
    by (intros j; by apply (fl_set_fl A i j l h)).
  assert (∀ c, page_at c ≠ a → c ∉ blocks i a) as Hpg.
  { intros c Hc' (k & Hk & ->)%elem_of_blocks. by apply Hc', (block_page _ _ _ _ _ _ HA Ha). }
  assert (arenas U (delete a A) p') as HA' by (by eapply (arenas_remove _ _ _ _ _ (Small i))).
  pose proof (zones_removed _ _ _ (mem p') _ _ HA Ha Hm) as Hz.
  assert (∀ a' j, a' ≠ a → frees a' (fl (descs h') j) = frees a' (fl (descs h) j)) as Hfr.
  { intros a' j Na. rewrite Hfl. case_decide; [subst j|done]. apply frees_filter. intros b _ Hb'. apply Hpg. congruence. }
  split_and!; [| |intros c len|done].
  - unfold free_arena. erewrite bind_ok by exact Ed. unfold on_pages. cbn [pages set_fl]. by rewrite free_page_multiple, Ef.
  - split; [done| | | |done].
    + pose proof (lists_filter A (descs h) i (λ x, x ∉ blocks i a) HL Hi) as [Hl Hd Hf Hn]. split; [done|done| |done].
      intros j b Hj Hbj. destruct (Hf j b Hj Hbj) as (a' & k & Ha' & Hk & Eb). exists a', k. split; [|done].
      apply lookup_delete_Some. split; [|done]. intros <-. rewrite Ha in Ha'. injection Ha' as <-.
      change (b ∈ fl (descs h') i) in Hbj. rewrite Hfl, decide_True in Hbj by done.
      apply list_elem_of_filter in Hbj as [Hnb _]. apply Hnb, elem_of_blocks. by exists k.
    + intros a' k' Ha'. pose proof Ha' as [Na _]%lookup_delete_Some.
      assert (kind_cnt (descs h') a' k' = kind_cnt (descs h) a' k') as ->.
      { destruct k' as [j|]; [|done]. apply Hfr. congruence. }
      by eapply headers_zones; [exact HA|apply delete_subseteq|apply mem_ok|..].
    + intros a' j [Na Ha']%lookup_delete_Some _. rewrite Hfr by congruence. apply Hb; [done|]. congruence.
  - rewrite <-(insert_delete_id A a (Small i) Ha) at 2. symmetry.
    apply (live_free_arena U (delete a A) (pages h)); [by rewrite insert_delete_id|apply lookup_delete_eq| |done].
    intros j b Hb'. rewrite Hfl. case_decide; [subst j|done]. unfold l. rewrite list_elem_of_filter.
    split; [|tauto]. intros ?. split; [by apply Hpg|done].
Qed.

(** The block [p] is no longer live. *)
Record released (A A' : gmap Z kind) (h h' : heap) (p : Z) : Prop := {
  rl_live c len : live A' (descs h') c len ↔ live A (descs h) c len ∧ c ≠ p;
  rl_kept c len y : live A' (descs h') c len → c ≤ y < c + len → byte_at (mem (pages h')) y = byte_at (mem (pages h)) y
}.

(** A block goes back to its free list. *)
Lemma put_block_ok U A (h : heap) a i p :
  inv None U A h → A !! a = Some (Small i) → slot A a p (bsz i) → p ∉ fl (descs h) i →
  ∃ m1 h', let n := frees a (fl (descs h) i) in
    memset p 0xcc (bsz i) h = Ok (tt, set_frames m1 h) ∧
    word_at m1 (a + 8) = Some n ∧
    set_free_cnt a (1 + n) (set_fl i (p :: fl (descs h) i) (set_frames m1 h)) = Ok (tt, h') ∧
    inv (Some a) U A h' ∧ fl (descs h') i = p :: fl (descs h) i ∧ released A A h h' p.
Proof.
  intros [HA HL Hh Hb Hc] Ha Hs Hp. pose proof (ar_kind _ _ _ HA a _ Ha) as Hi. simpl in Hi.
  destruct (bsz_facts i Hi) as (Hbs & _). destruct (slot_range _ _ _ _ _ _ HA Hs) as (_ & _ & Hpa & _ & Hz).
  set (l := fl (descs h) i) in *.
  destruct (fill_ok (Z.to_nat (bsz i)) p 0xcc (mem (pages h))) as (m1 & Em & Hw);
    [by eapply arenas_frames|done|intros y Hy; eapply zone_mapped, Hz; [done|lia]|].
  assert (Z.of_nat (length (replicate (Z.to_nat (bsz i)) 0xcc)) = bsz i) as Hlr by (rewrite length_replicate; lia).
  pose proof (headers_block _ _ _ _ _ _ _ _ _ _ _ HA Hh Hs Hw ltac:(lia) ltac:(lia)) as Hh1.
  set (h1 := set_frames m1 h).
  assert (arenas U A (pages h1)) as HA1 by (apply arenas_set_mem; [done|apply Hw..]).
  assert (headers A (mem (pages h1)) (descs h1)) as Hh1' by (unfold h1, set_frames; cbn [pages descs]; by rewrite mem_set).
  assert (∃ k, 0 ≤ k < per i ∧ p = block i a k) as (k & Hk & Ep) by (unfold slot in Hs; rewrite Ha in Hs; naive_solver).
  assert (lists A (<[i := mk_desc (bsz i) (per i) (p :: l)]> (descs h))) as HL2.
  { apply lists_insert; [done|done|by apply NoDup_cons; split; [|apply HL]|].
    intros b [->|Hb']%elem_of_cons; [by exists a, k|by apply HL]. }
  assert (frees a (p :: l) = 1 + frees a l) as Hn by (by rewrite frees_cons, decide_True).
  pose proof (frees_le _ _ _ _ _ _ HA HL2 Ha) as Hle. rewrite fl_insert, decide_True in Hle by (rewrite ?(li_len _ _ HL); done || lia).
  cbn [free_list] in Hle.
  assert (∀ a', a' ≠ a → frees a' (p :: l) = frees a' l) as Hoth by (intros a' Na; rewrite frees_cons, decide_False by congruence; lia).
  destruct (recount U A h1 a i (p :: l) HA1 HL Hh1' Ha Hoth Hle) as (E & HA2 & Hh2 & Hsk).
  set (h2 := set_frames _ (set_fl i (p :: l) h1)) in *. exists m1, h2. cbn zeta. rewrite <-Hn.
  assert (∀ j, fl (descs h2) j = if decide (i = j) then p :: l else fl (descs h) j) as Hfl
    by (intros j; by apply (fl_set_fl A i j (p :: l) h)).
  split_and!; [| |exact E|split; [done|done|done| |done]|by rewrite Hfl, decide_True|].
  - unfold memset, on_frames. by rewrite Em.
  - by apply (Hh1 a _ Ha).
  - intros a' j Ha' Na. assert (a' ≠ a) by congruence. rewrite Hfl.
    case_decide; [subst j; rewrite Hoth by done|]; by apply Hb.
  - destruct (live_take U A (pages h) (descs h2) (descs h) i p l) as [Hnew Hlive];
      [done|done|done|by rewrite Hfl, decide_True|by rewrite Hpa|done|by intros j Nj; rewrite Hfl, decide_False|].
    split.
    + intros c len. rewrite Hlive. split; [intros Hc'; split; [by left|intros ->; by eapply Hnew]|].
      intros [[?|[? _]] ?]; done.
    + intros c len y Hl Hy. assert (c ≠ p) as Nc by (intros ->; by eapply Hnew). destruct Hl as (a' & Hs' & _).
      rewrite (Hsk a' c len y Hs' Hy). unfold h1, set_frames. cbn [pages]. rewrite mem_set. apply Hw. rewrite Hlr.
      destruct (slot_disj _ _ _ _ _ _ _ _ _ HA Hs' Hs) as [(_ & ? & _)|[_ Hd]]; [done|]. by apply Hd.
Qed.

Lemma released_trans A A1 A2 h h1 h2 p :
  released A A1 h h1 p → (∀ c len, live A2 (descs h2) c len ↔ live A1 (descs h1) c len) →
  (∀ c len y, live A2 (descs h2) c len → c ≤ y < c + len → byte_at (mem (pages h2)) y = byte_at (mem (pages h1)) y) →
  released A A2 h h2 p.
Proof.
  intros [Hl Hk] Hl' Hk'. split; [intros c len; by rewrite Hl'|].
  intros c len y Hc Hy. rewrite (Hk' c len y Hc Hy). apply (Hk c len); [|done]. by apply Hl'.
Qed.

Lemma free_small_ok U A (h : heap) a i p :
  inv None U A h → A !! a = Some (Small i) → slot A a p (bsz i) → p ∉ fl (descs h) i →
  ∃ h' A', free descs_addr p h = Ok (tt, h') ∧ inv None U A' h' ∧ released A A' h h' p.
Proof.
  intros HI Ha Hs Hp. pose proof HI as [HA HL Hh Hb Hc]. pose proof (ar_kind _ _ _ HA a _ Ha) as Hi. simpl in Hi.
  destruct (slot_range _ _ _ _ _ _ HA Hs) as (Hap & _). destruct (arena_addr _ _ _ _ _ HA Ha) as (Hpb & _). unfold PHYS_BASE in Hpb.
  destruct (bsz_facts i Hi) as (_ & _ & _ & Hper). pose proof (frees_le _ _ _ _ _ _ HA HL Ha) as Hle.
  destruct (put_block_ok U A h a i p HI Ha Hs Hp) as (m1 & h2 & Em & En & Es & HI2 & Hfl2 & Hr).
  set (n := frees a (fl (descs h) i)) in *.
  assert (frees a (fl (descs h2) i) = 1 + n) as Hn2.
  { rewrite Hfl2, frees_cons, decide_True; [done|]. by eapply slot_range. }
  pose proof HI2 as [HA2 HL2 _ Hb2 _]. pose proof (frees_le _ _ _ _ _ _ HA2 HL2 Ha) as Hle2. rewrite Hn2 in Hle2.
  assert (∃ h' A', (if per i <=? 1 + n then assert (1 + n =? per i);; free_arena descs_addr a (Z.of_nat i) (per i) else mret tt) h2
    = Ok (tt, h') ∧ inv None U A' h' ∧ released A A' h h' p) as (h' & A' & E & HI' & Hr').
  { destruct (Z.leb_spec (per i) (1 + n)) as [Hge|Hlt].
    - destruct (free_arena_ok U A h2 a i HI2 Ha) as (h3 & E3 & HI3 & Hl3 & Hz3); [lia|].
      exists h3, (delete a A). split_and!; [|done|].
      + erewrite bind_ok by (apply assert_ok, Z.eqb_eq; lia). done.
      + eapply released_trans; [done..|]. intros c len y (a' & Hs' & _) Hy. apply (Hz3 a').
        by apply (slot_range _ _ _ _ _ _ (iv_arenas _ _ _ _ _ HI3) Hs').
    - exists h2, A. split_and!; [done| |done]. destruct HI2 as [? ? ? _ ?]. split; [done..| |done].
      intros a' j Ha' _. destruct (decide (a' = a)) as [->|Na]; [|apply Hb2; [done|congruence]].
      rewrite Ha in Ha'. injection Ha' as <-. lia. }
  exists h', A'. split_and!; [|done..].
  unfold free. rewrite (proj2 (Z.eqb_neq p NULL)) by (unfold NULL; lia). cbn [negb].
  erewrite bind_ok by (eapply (block_to_arena_ok _ Hda); [done..|apply (Hh a _ Ha)|done]).
  erewrite bind_ok by (apply heap_ld32, (Hh a _ Ha)). cbn [MallocInv.kind_desc].
  destruct (desc_ptr_ok _ Hda i Hi) as [-> _]. cbn [negb]. erewrite bind_ok by by eapply deref_ok.
  cbn [block_size_of free_list blocks_per_arena]. erewrite bind_ok by exact Em.
  erewrite bind_ok by (by eapply (set_free_list_ok A)).
  erewrite bind_ok by (eapply heap_ld32; unfold set_fl, set_frames; cbn [pages]; rewrite mem_set; exact En).
  rewrite u32_small by lia. rewrite Z.add_comm. by erewrite bind_ok by exact Es.
Qed.

Lemma free_big_ok U A (h : heap) a n :
  inv None U A h → A !! a = Some (Big n) →
  ∃ h' A', free descs_addr (a + 12) h = Ok (tt, h') ∧ inv None U A' h' ∧ released A A' h h' (a + 12).
Proof.
  intros [HA HL Hh Hb Hc] Ha. pose proof (Hh a _ Ha) as Hhd. pose proof (npages_pos _ _ _ _ _ HA Ha) as Hn.
  assert (slot A a (a + 12) (4096 * n - 12)) as Hs by (unfold slot; by rewrite Ha).
  destruct (arena_addr _ _ _ _ _ HA Ha) as (Hpb & _). unfold PHYS_BASE in Hpb.
  destruct (free_run_ok (pages h) a n) as (p' & Ef & Hp' & Hrs & Hu & Hm);
    [apply HA|cbn [npages] in Hn; lia|by apply (ar_run _ _ _ HA a _ Ha)|intros b Hb'; apply HA; right; by exists a, (Big n)|].
  assert (arenas U (delete a A) p') as HA' by (by eapply (arenas_remove _ _ _ _ _ (Big n))).
  pose proof (zones_removed _ _ _ (mem p') _ _ HA Ha Hm) as Hz.
  assert (∀ c len, live A (descs h) c len ↔ live (delete a A) (descs h) c len ∨ (c = a + 12 ∧ len = 4096 * n - 12)) as Hl.
  { intros c len. rewrite <-(insert_delete_id A a (Big n) Ha) at 1.
    rewrite (live_add U (delete a A) (pages h) (descs h)); [|by rewrite insert_delete_id|apply lookup_delete_eq|done].
    f_equiv. unfold slot, on_list. rewrite lookup_insert_eq. tauto. }
  exists (mk_heap p' (descs h) (desc_cnt h)), (delete a A). split_and!; [|split; [done| | | |done]|].
  - unfold free. rewrite (proj2 (Z.eqb_neq (a + 12) NULL)) by (unfold NULL; lia). cbn [negb].
    erewrite bind_ok by (by eapply (block_to_arena_ok _ Hda)).
    erewrite bind_ok by apply heap_ld32, Hhd. cbn [MallocInv.kind_desc]. rewrite Z.eqb_refl. cbn [negb].
    erewrite bind_ok by apply heap_ld32, Hhd. unfold on_pages. cbn [kind_cnt]. by rewrite Ef.
  - destruct HL as [Hl' Hd Hf HN]. split; [done|done| |done]. intros i b Hi Hb'.
    destruct (Hf i b Hi Hb') as (a' & k & Ha' & ?). exists a', k. split; [|done]. apply lookup_delete_Some. split; [congruence|done].
  - eapply headers_zones; [exact HA|apply delete_subseteq|by apply mem_ok|done..].
  - intros a' j [_ Ha']%lookup_delete_Some Hx. by apply Hb.
  - split.
    + intros c len. cbn [descs]. rewrite Hl. split.
      * intros Hc'. split; [by left|]. intros ->. destruct Hc' as (a' & Hs' & _).
        assert (a' ≠ a) as Na by (intros ->; unfold slot in Hs'; by rewrite lookup_delete_eq in Hs').
        assert (slot A a' (a + 12) len) as Hs2 by (unfold slot in *; by rewrite lookup_delete_ne in Hs').
        by destruct (slot_disj _ _ _ _ _ _ _ _ _ HA Hs2 Hs) as [[? _]|[? _]].
      * intros [[?|[? _]] ?]; done.
    + intros c len y (a' & Hs' & _) Hy. apply (Hz a'). by apply (slot_range _ _ _ _ _ _ HA' Hs').
Qed.

Lemma free_ok U A (h : heap) p len :
  inv None U A h → live A (descs h) p len →
  ∃ h' A', free descs_addr p h = Ok (tt, h') ∧ inv None U A' h' ∧ released A A' h h' p.
Proof.
  intros HI (a & Hs & Ho). pose proof Hs as Hs'. unfold slot in Hs'. unfold on_list in Ho.
  destruct (A !! a) as [[i|n]|] eqn:Ha; [..|done].
  - destruct Hs' as [-> _]. by eapply free_small_ok.
  - destruct Hs' as [-> ->]. by eapply free_big_ok.
Qed.

(** ** Refinement *)

(** The live blocks and their contents. *)
Definition rep (U : Z → Prop) (h : heap) (B : gmap Z (list Z)) : Prop :=
  ∃ A, inv None U A h ∧
    (∀ b bs, B !! b = Some bs → live A (descs h) b (Z.of_nat (length bs)) ∧ bytes_at (mem (pages h)) b bs) ∧
    (∀ b len, live A (descs h) b len → is_Some (B !! b)).

Lemma live_mapped U A p ds b len : arenas U A p → live A ds b len → mapped (mem p) b len ∧ 0 < len ∧ PHYS_BASE ≤ b.
Proof.
  intros HA (a & Hs & _). destruct (slot_range _ _ _ _ _ _ HA Hs) as (Hb & Hl & _ & _ & Hz). split_and!; [|done|].
  - intros x Hx. by eapply zone_mapped, Hz.
  - assert (∃ k, A !! a = Some k) as [k Ha] by (unfold slot in Hs; destruct (A !! a); [eauto|done]).
    destruct (arena_addr _ _ _ _ _ HA Ha). lia.
Qed.

Lemma live_disj U A p ds b c l l' :
  arenas U A p → live A ds b l → live A ds c l' → b ≠ c → ∀ x, b ≤ x < b + l → ¬ c ≤ x < c + l'.
Proof.
  intros HA (a & Hs & _) (a' & Hs' & _) Hne. destruct (slot_disj _ _ _ _ _ _ _ _ _ HA Hs Hs') as [(_ & ? & _)|[_ ?]]; done.
Qed.

(** Memory of a live block is changed. *)
Lemma rep_write U (h : heap) B b bs ofs new m' :
  rep U h B → B !! b = Some bs → 0 ≤ ofs → ofs + Z.of_nat (length new) ≤ Z.of_nat (length bs) →
  written (mem (pages h)) m' (b + ofs) new → rep U (set_frames m' h) (<[b := overwrite ofs new bs]> B).
Proof.
  intros (A & [HA HL Hh Hb Hc] & H1 & H2) Hbs Ho Hl Hw. destruct (H1 b bs Hbs) as [Hlv Hby].
  pose proof Hlv as (a & Hs & _). exists A. unfold set_frames. split_and!.
  - split; cbn [pages descs desc_cnt]; [by apply arenas_set_mem; [|apply Hw..]|done| |done|done].
    rewrite mem_set. eapply headers_block; [done..|lia|lia].
  - cbn [pages descs]. rewrite mem_set. intros c cs [[<- <-]|[Nc Hcs]]%lookup_insert_Some.
    + rewrite length_overwrite by lia. split; [done|]. by eapply written_part.
    + destruct (H1 c cs Hcs) as [Hlc Hbc]. split; [done|]. intros i Hi. rewrite (wr_out _ _ _ _ Hw); [by apply Hbc|].
      intros Hx. apply (live_disj _ _ _ _ _ _ _ _ HA Hlc Hlv) with (x := c + i); [done|lia|lia].
  - intros c len Hcl. destruct (decide (c = b)) as [->|Nc]; [by rewrite lookup_insert_eq|].
    rewrite lookup_insert_ne by done. by eapply H2.
Qed.

Lemma rep_allocated U A A' (h h' : heap) B p len :
  inv None U A h →
  (∀ b bs, B !! b = Some bs → live A (descs h) b (Z.of_nat (length bs)) ∧ bytes_at (mem (pages h)) b bs) →
  (∀ b l, live A (descs h) b l → is_Some (B !! b)) →
  inv None U A' h' → allocated A A' h h' p len →
  ∃ bs, Z.of_nat (length bs) = len ∧ B !! p = None ∧ p ≠ NULL ∧ rep U h' (<[p := bs]> B).
Proof.
  intros HI H1 H2 HI' [Hsub Hk Hnew Hlive]. pose proof (iv_arenas _ _ _ _ _ HI') as HA'.
  assert (live A' (descs h') p len) as Hlp by (apply Hlive; by right).
  destruct (live_mapped _ _ _ _ _ _ HA' Hlp) as (Hm & Hl & Hpb).
  destruct (bytes_at_mapped (mem (pages h')) p (Z.to_nat len)) as (bs & Hbl & Hbs);
    [by eapply arenas_frames|by rewrite Z2Nat.id by lia|].
  exists bs. split_and!; [lia| |unfold NULL, PHYS_BASE in *; lia|].
  - destruct (B !! p) as [cs|] eqn:E; [|done]. by destruct (Hnew (Z.of_nat (length cs))), (H1 p cs E).
  - exists A'. split_and!; [done| |].
    + intros c cs [[<- <-]|[Nc Hcs]]%lookup_insert_Some; [split; [|done]; by replace (Z.of_nat (length bs)) with len by lia|].
      destruct (H1 c cs Hcs) as [Hlc Hbc]. split; [apply Hlive; by left|]. intros i Hi.
      destruct Hlc as (a & Hs & _). rewrite (Hk a c _ (c + i) Hs) by lia. by apply Hbc.
    + intros c l. rewrite Hlive. intros [Hc|[-> _]]; [|by rewrite lookup_insert_eq].
      destruct (H2 c l Hc) as [cs E]. rewrite lookup_insert_is_Some'. right. by exists cs.
Qed.

(** [malloc] cannot get the pages it needs. *)
Definition no_pages (h : heap) (size : Z) : Prop := get_multiple 0 (need size) (pages h) = Ok (NULL, pages h).

(** A new block [r], or none; [ok] is what is known of its contents. *)
Definition new_block (h : heap) (size : Z) (ok : list Z → Prop) (B : gmap Z (list Z)) (r : Z) (B' : gmap Z (list Z)) : Prop :=
  (r = NULL ∧ B' = B ∧ (size = 0 ∨ no_pages h size)) ∨
  (∃ bs, r ≠ NULL ∧ B !! r = None ∧ 0 < size ∧ fits size (Z.of_nat (length bs)) ∧ ok bs ∧ B' = <[r := bs]> B).

Lemma rep_malloc U (h : heap) B size :
  rep U h B → 0 ≤ size ≤ 2 ^ 32 - 12 →
  ∃ r h' B', malloc descs_addr size h = Ok (r, h') ∧ new_block h size (λ _, True) B r B' ∧ rep U h' B' ∧
    (r = NULL → h' = h).
Proof.
  intros (A & HI & H1 & H2) Hs.
  destruct (malloc_ok U A h size HI) as [[E Hno]|(p & h' & A' & len & E & HI' & Hal & Hpos & Hfit)]; [lia|..].
  - exists NULL, h, B. split_and!; [done|by left|by exists A|done].
  - destruct (rep_allocated _ _ _ _ _ _ _ _ HI H1 H2 HI' Hal) as (bs & Hl & Hn & Np & Hr).
    exists p, h', (<[p := bs]> B). split_and!; [done| |done|done]. right. exists bs. rewrite Hl. split; [done|]. split; [done|]. split; [lia|]. split; [apply Hfit; lia|done].
Qed.

Lemma rep_free U (h : heap) B p :
  rep U h B → p = NULL ∨ is_Some (B !! p) →
  ∃ h', free descs_addr p h = Ok (tt, h') ∧ rep U h' (delete p B).
Proof.
  intros HR Hp. pose proof HR as (A & HI & H1 & H2). destruct (decide (is_Some (B !! p))) as [[bs E]|N]; cycle 1.
  { destruct Hp as [->|?]; [|done]. exists h. split; [done|]. rewrite delete_id; [done|]. by apply eq_None_not_Some. }
  destruct (H1 p bs E) as [Hlv _]. destruct (free_ok U A h p _ HI Hlv) as (h' & A' & Ef & HI' & [Hl Hk]).
  exists h'. split; [done|]. exists A'. split_and!; [done| |].
  - intros c cs [Nc Hcs]%lookup_delete_Some. destruct (H1 c cs Hcs) as [Hlc Hbc].
    assert (live A' (descs h') c (Z.of_nat (length cs))) as Hlc' by (apply Hl; split; congruence).
    split; [done|]. intros i Hi. rewrite (Hk c _ (c + i) Hlc') by lia. by apply Hbc.
  - intros c l [Hc Nc]%Hl. rewrite lookup_delete_ne by congruence. by eapply H2.
Qed.

Lemma rep_block_size U (h : heap) B p bs :
  rep U h B → B !! p = Some bs → block_size descs_addr p h = Ok (Z.of_nat (length bs), h).
Proof. intros (A & HI & H1 & _) E. destruct (H1 p bs E) as [(a & Hs & _) _]. by eapply block_size_ok. Qed.

Lemma rep_facts U (h : heap) B p bs :
  rep U h B → B !! p = Some bs →
  frames_ok (mem (pages h)) ∧ mapped (mem (pages h)) p (Z.of_nat (length bs)) ∧ bytes_at (mem (pages h)) p bs ∧ p ≠ NULL ∧
  ∀ c cs, B !! c = Some cs → c ≠ p → c + Z.of_nat (length cs) ≤ p ∨ p + Z.of_nat (length bs) ≤ c.
Proof.
  intros (A & HI & H1 & _) E. destruct (H1 p bs E) as [Hlv Hb]. pose proof (iv_arenas _ _ _ _ _ HI) as HA.
  destruct (live_mapped _ _ _ _ _ _ HA Hlv) as (Hm & Hl & Hpb).
  split_and!; [by eapply arenas_frames|done|done|unfold NULL, PHYS_BASE in *; lia|].
  intros c cs Ec Nc. destruct (H1 c cs Ec) as [Hlc _]. destruct (live_mapped _ _ _ _ _ _ HA Hlc) as (_ & Hl' & _).
  destruct (decide (c + Z.of_nat (length cs) ≤ p)); [by left|]. right.
  destruct (decide (p + Z.of_nat (length bs) ≤ c)) as [|N]; [done|exfalso].
  apply (live_disj _ _ _ _ _ _ _ _ HA Hlc Hlv Nc (Z.max c p)); lia.
Qed.
End spec.
