(* ===== verification/MallocRefine.v ===== *)
(** * malloc.c implements a heap of blocks

    The operations of [Malloc] refine an abstract heap, a map from the
    addresses of the allocated blocks to their contents: calls change only the
    block they are about, blocks never overlap, and the pages that are not
    needed for the blocks are given back. *)

From S2P Require Import Prelude Bytes Bitmap Vaddr PageIface Palloc PageBytes Malloc MallocInv MallocSpec.

Section refine.
Context {P : Type} `{PageRuns P}.
Variable descs_addr : Z.
Hypothesis Hda : 0 < descs_addr ∧ descs_addr + 480 ≤ 2 ^ 32.

Abbreviation heap := (Malloc.heap P).
Abbreviation rep := (rep descs_addr).

(** ** calloc, realloc and the client's stores *)

Definition zeros (n : Z) (bs : list Z) : Prop := take (Z.to_nat n) bs = replicate (Z.to_nat n) 0.

Lemma take_overwrite new bs n : n = length new → take n (overwrite 0 new bs) = new.
Proof. intros ->. unfold overwrite. simpl. by rewrite take_app_length. Qed.

Lemma length_overwrite_0 new bs : (length new ≤ length bs)%nat → length (overwrite 0 new bs) = length bs.
Proof. intros Hl. apply length_overwrite; lia. Qed.

Lemma rep_calloc U (h : heap) B a b :
  rep U h B → 0 ≤ a → 0 ≤ b → u32 (a * b) ≤ 2 ^ 32 - 12 →
  ∃ r h' B', calloc descs_addr a b h = Ok (r, h') ∧ rep U h' B' ∧
    ((r = NULL ∧ B' = B ∧ (u32 (a * b) < a ∨ u32 (a * b) < b)) ∨
     new_block h (u32 (a * b)) (zeros (u32 (a * b))) B r B').
Proof.
  intros HR Ha Hb Hs. pose proof (u32_range (a * b)). unfold calloc.
  destruct (Z.ltb_spec (u32 (a * b)) a); [exists NULL, h, B; split_and!; [done|done|left; tauto]|].
  destruct (Z.ltb_spec (u32 (a * b)) b); [exists NULL, h, B; split_and!; [done|done|left; tauto]|]. cbn [orb].
  destruct (rep_malloc _ Hda U h B (u32 (a * b)) HR) as (r & h1 & B1 & E & Hn & HR1 & Hnull); [lia|].
  erewrite bind_ok by exact E. destruct Hn as [(-> & -> & Hno)|(bs & Nr & Er & Hpos & Hf & _ & ->)].
  { rewrite Z.eqb_refl. exists NULL, h1, B. split_and!; [done|done|]. right. by left. }
  rewrite (proj2 (Z.eqb_neq _ _) Nr). cbn [negb].
  destruct (rep_facts _ _ _ _ r bs HR1) as (Hok & Hmp & _ & _ & _); [apply lookup_insert_eq|].
  pose proof Hf as [Hle _]. set (n := Z.to_nat (u32 (a * b))) in *.
  destruct (fill_ok n r 0 (mem (pages h1))) as (m & Em & Hw); [done|done|intros x Hx; apply Hmp; lia|].
  exists r, (set_frames m h1), (<[r := overwrite 0 (replicate n 0) bs]> B). split_and!.
  - erewrite bind_ok; [done|]. unfold memset, on_frames. fold n. by rewrite Em.
  - rewrite <-(insert_insert_eq B r _ bs).
    eapply rep_write; [done|apply lookup_insert_eq|lia|rewrite length_replicate; lia|]. by rewrite Z.add_0_r.
  - right. right. exists (overwrite 0 (replicate n 0) bs). rewrite length_overwrite_0 by (rewrite length_replicate; lia).
    split; [done|]. split; [done|]. split; [lia|]. split; [done|]. split; [|done].
    unfold zeros. fold n. apply take_overwrite. by rewrite length_replicate.
Qed.

(** Moving a block to a new one. *)
Definition moved (h : heap) (p size : Z) (old : list Z) (B : gmap Z (list Z)) (r : Z) (B' : gmap Z (list Z)) : Prop :=
  (r = NULL ∧ B' = B ∧ no_pages h size) ∨
  (∃ bs, r ≠ NULL ∧ B !! r = None ∧ fits size (Z.of_nat (length bs)) ∧
     (let n := Z.to_nat (Z.min size (Z.of_nat (length old))) in take n bs = take n old) ∧
     B' = delete p (<[r := bs]> B)).

Lemma rep_realloc U (h : heap) B p old size :
  rep U h B → 0 < size ≤ 2 ^ 32 - 12 → B !! p = Some old →
  ∃ r h' B', realloc descs_addr p size h = Ok (r, h') ∧ rep U h' B' ∧ moved h p size old B r B'.
Proof.
  intros HR Hs Hp. unfold realloc. rewrite (proj2 (Z.eqb_neq size 0)) by lia.
  destruct (rep_malloc _ Hda U h B size HR) as (r & h1 & B1 & E & Hn & HR1 & Hnull); [lia|].
  erewrite bind_ok by exact E. destruct (rep_facts _ _ _ _ p old HR Hp) as (_ & _ & _ & Np & _).
  rewrite (proj2 (Z.eqb_neq _ _) Np). destruct Hn as [(-> & -> & Hno)|(bs & Nr & Er & Hpos & Hf & _ & ->)].
  { rewrite Z.eqb_refl. exists NULL, h1, B. split_and!; [done|done|]. left. split_and!; [done..|]. destruct Hno; [lia|done]. }
  rewrite (proj2 (Z.eqb_neq _ _) Nr). cbn [negb andb].
  assert (r ≠ p) as Nrp by congruence.
  assert ((<[r := bs]> B) !! p = Some old) as Hp1 by (by rewrite lookup_insert_ne).
  pose proof (lookup_insert_eq B r bs) as Hr1.
  destruct (rep_facts _ _ _ _ p old HR1 Hp1) as (Hok & _ & Hold & _ & Hdis). specialize (Hdis r bs Hr1 Nrp).
  destruct (rep_facts _ _ _ _ r bs HR1 Hr1) as (_ & Hmp & _ & _ & _). pose proof Hf as [Hle _].
  set (n := Z.to_nat (Z.min size (Z.of_nat (length old)))) in *.
  assert (length (take n old) = n) as Hln by (rewrite length_take; lia).
  destruct (copy_ok (take n old) r p (mem (pages h1))) as (m & Em & Hw); [done| | |lia|].
  { intros i Hi. rewrite lookup_take_lt by lia. apply Hold. lia. }
  { intros x Hx. apply Hmp. lia. }
  assert (rep U (set_frames m h1) (<[r := overwrite 0 (take n old) bs]> B)) as HR2.
  { rewrite <-(insert_insert_eq B r _ bs). eapply rep_write; [done|done|lia|lia|]. by rewrite Z.add_0_r. }
  destruct (rep_free _ Hda U _ _ p HR2) as (h3 & Ef & HR3); [right; rewrite lookup_insert_ne by done; by exists old|].
  exists r, h3, (delete p (<[r := overwrite 0 (take n old) bs]> B)). split_and!; [|done|].
  - erewrite bind_ok; [done|]. erewrite bind_ok by (by eapply rep_block_size).
    erewrite bind_ok; [exact Ef|]. unfold memcpy, on_frames.
    replace (Z.to_nat (if size <? Z.of_nat (length old) then size else Z.of_nat (length old))) with n
      by (unfold n; destruct (Z.ltb_spec size (Z.of_nat (length old))); f_equal; lia).
    rewrite Hln in Em. by rewrite Em.
  - right. exists (overwrite 0 (take n old) bs). rewrite length_overwrite_0 by lia. split; [done|]. split; [done|].
    split; [done|]. split; [|done]. cbn zeta. fold n. by apply take_overwrite.
Qed.

(** ** Refinement *)

(** Calls of the allocator, and stores to blocks. *)
Inductive op := Malloc (size : Z) | Calloc (a b : Z) | Realloc (p size : Z) | Free (p : Z) | Store (p ofs : Z) (bs : list Z).

Definition run (o : op) : ST heap Z :=
  match o with
  | Malloc size => malloc descs_addr size
  | Calloc a b => calloc descs_addr a b
  | Realloc p size => realloc descs_addr p size
  | Free p => free descs_addr p;; mret NULL
  | Store p ofs bs => on_frames (store (p + ofs) bs);; mret NULL
  end.

(** Valid calls: the size and the header fit in 32 bits, and pointers are null
    or to allocated blocks. *)
Definition valid (o : op) (B : gmap Z (list Z)) : Prop :=
  match o with
  | Malloc size => 0 ≤ size ≤ 2 ^ 32 - 12
  | Calloc a b => 0 ≤ a ∧ 0 ≤ b ∧ a * b ≤ 2 ^ 32 - 12
  | Realloc p size => 0 ≤ size ≤ 2 ^ 32 - 12 ∧ (p = NULL ∨ is_Some (B !! p))
  | Free p => p = NULL ∨ is_Some (B !! p)
  | Store p ofs bs => Forall byte_ok bs ∧ 0 ≤ ofs ∧ ∃ c, B !! p = Some c ∧ ofs + Z.of_nat (length bs) ≤ Z.of_nat (length c)
  end.

(** What a call returns and does to the heap. *)
Definition effect (h : heap) (o : op) (B : gmap Z (list Z)) (r : Z) (B' : gmap Z (list Z)) : Prop :=
  match o with
  | Malloc size => new_block h size (λ _, True) B r B'
  | Calloc a b => new_block h (a * b) (zeros (a * b)) B r B'
  | Realloc p size =>
      if size =? 0 then r = NULL ∧ B' = delete p B
      else match B !! p with
           | Some old => moved h p size old B r B'
           | None => new_block h size (λ _, True) B r B'
           end
  | Free p => r = NULL ∧ B' = delete p B
  | Store p ofs bs => r = NULL ∧ B' = alter (overwrite ofs bs) p B
  end.

Lemma op_refines U (h : heap) B o :
  rep U h B → valid o B → ∃ r h' B', run o h = Ok (r, h') ∧ effect h o B r B' ∧ rep U h' B'.
Proof.
  intros HR Hv. destruct o as [size|a b|p size|p|p ofs bs]; simpl in Hv; cbn [run effect].
  - destruct (rep_malloc _ Hda U h B size HR Hv) as (r & h' & B' & ? & ? & ? & _). by exists r, h', B'.
  - destruct Hv as (Ha & Hb & Hab). assert (0 ≤ a * b) by nia. assert (u32 (a * b) = a * b) as Eu by (apply u32_small; lia).
    destruct (rep_calloc U h B a b HR Ha Hb) as (r & h' & B' & E & HR' & Hn); [lia|]. rewrite Eu in Hn.
    exists r, h', B'. split_and!; [done| |done]. destruct Hn as [(-> & -> & Hlt)|Hn]; [|done]. left. split_and!; [done..|].
    left. destruct Hlt; [assert (b = 0) by nia|assert (a = 0) by nia]; subst; lia.
  - destruct Hv as [Hs Hp]. destruct (Z.eqb_spec size 0) as [->|Ns].
    { destruct (rep_free _ Hda U h B p HR Hp) as (h' & E & HR'). exists NULL, h', (delete p B). split_and!; [|done..].
      unfold realloc. cbn [Z.eqb]. by erewrite bind_ok by exact E. }
    destruct (B !! p) as [old|] eqn:Ep.
    { destruct (rep_realloc U h B p old size HR) as (r & h' & B' & E & ? & ?); [lia|done|]. by exists r, h', B'. }
    destruct Hp as [->|[? ?]]; [|done]. unfold realloc. rewrite (proj2 (Z.eqb_neq size 0) Ns).
    destruct (rep_malloc _ Hda U h B size HR Hs) as (r & h' & B' & E & ? & ? & _). exists r, h', B'. split_and!; [|done..].
    by erewrite bind_ok by exact E.
  - destruct (rep_free _ Hda U h B p HR Hv) as (h' & E & HR'). exists NULL, h', (delete p B). split_and!; [|done..].
    by erewrite bind_ok by exact E.
  - destruct Hv as (Hbs & Ho & c & Ec & Hl). destruct (rep_facts _ _ _ _ p c HR Ec) as (Hok & Hmp & _).
    destruct (store_ok bs (p + ofs) (mem (pages h))) as (m & Em & Hw); [done|done|intros x Hx; apply Hmp; lia|].
    exists NULL, (set_frames m h), (alter (overwrite ofs bs) p B). split_and!; [|done..|].
    + erewrite bind_ok; [done|]. unfold on_frames. by rewrite Em.
    + assert (alter (overwrite ofs bs) p B = <[p := overwrite ofs bs c]> B) as ->; [|by eapply rep_write].
      rewrite <-(insert_id B p c Ec) at 1. by rewrite alter_insert_eq.
Qed.

(** ** Initialization *)

Definition inits (n : nat) (ds : list desc) : list desc :=
  foldl (λ ds i, <[i := mk_desc (bsz i) (per i) []]> ds) ds (seq 0 n).

Lemma inits_S n ds : inits (S n) ds = <[n := mk_desc (bsz n) (per n) []]> (inits n ds).
Proof. unfold inits. by rewrite seq_S, foldl_app. Qed.

Lemma length_inits n ds : length (inits n ds) = length ds.
Proof. induction n as [|n IH]; [done|]. by rewrite inits_S, length_insert. Qed.

Lemma inits_lookup n ds i :
  (n ≤ length ds)%nat → (i < n)%nat → inits n ds !! i = Some (mk_desc (bsz i) (per i) []).
Proof.
  induction n as [|n IH]; intros Hn Hi; [lia|]. rewrite inits_S. destruct (decide (i = n)) as [->|Ni].
  - apply list_lookup_insert_eq. rewrite length_inits. lia.
  - rewrite list_lookup_insert_ne by done. apply IH; lia.
Qed.

Lemma malloc_init_run (p : P) ds :
  length ds = 10%nat → malloc_init (mk_heap p ds 0) = Ok (tt, mk_heap p (inits 7 ds) 7).
Proof.
  intros Hl. unfold malloc_init. match goal with |- loopM _ ?f _ _ = _ => set (body := f) end.
  destruct (loopM_rule (λ n bs h, ∃ i : nat, n = (7 - i)%nat ∧ (i ≤ 7)%nat ∧ bs = bsz i ∧ h = mk_heap p (inits i ds) (Z.of_nat i))
    (λ _ h, h = mk_heap p (inits 7 ds) 7) body) with (fuel := 10%nat) (n := 7%nat) (l := 16) (s := mk_heap p ds 0)
    as ([] & h' & E & ->); [| |lia|exact E].
  - intros n b h (i & -> & Hi & -> & ->). unfold body. destruct (decide (i = 7%nat)) as [->|Ni].
    { exists (inr tt), (mk_heap p (inits 7 ds) 7). by split. }
    destruct (bsz_facts i) as (Hb & _); [lia|]. rewrite (proj2 (Z.ltb_lt _ _)) by (change (PGSIZE / 2) with 2048; lia).
    eexists (inl (bsz (S i))), (mk_heap p (inits (S i) ds) (Z.of_nat i + 1)). split.
    + erewrite bind_ok by apply get_ok. cbn [desc_cnt descs pages]. erewrite bind_ok by done.
      erewrite bind_ok by (apply assert_ok, Z.leb_le; rewrite length_inits; lia).
      erewrite bind_ok; cycle 1.
      { unfold set_desc. cbn [descs pages desc_cnt]. rewrite length_inits, (proj2 (Z.leb_le _ _)), (proj2 (Z.ltb_lt _ _)) by lia.
        cbn [andb]. rewrite Nat2Z.id. change ((PGSIZE - sizeof_arena) / bsz i) with (per i). by rewrite <-inits_S. }
      unfold mret, st_ret. rewrite u32_small by lia. by rewrite bsz_S, Z.mul_comm.
    + exists (7 - S i)%nat. split; [lia|]. exists (S i). split_and!; [done|lia|done|]. f_equal. lia.
  - exists 0%nat. split_and!; (done || lia).
Qed.

Lemma malloc_init_ok (p : P) ds :
  pa_ok p → length ds = 10%nat →
  ∃ h, malloc_init (mk_heap p ds 0) = Ok (tt, h) ∧ pages h = p ∧ rep (used_page p) h ∅.
Proof.
  intros Hp Hl. exists (mk_heap p (inits 7 ds) 7). split; [by apply malloc_init_run|]. split; [done|].
  assert (∀ i, (i < 7)%nat → inits 7 ds !! i = Some (mk_desc (bsz i) (per i) [])) as Hd by (intros i Hi; apply inits_lookup; lia).
  assert (∀ i, (i < 7)%nat → fl (inits 7 ds) i = []) as Hfl by (intros i Hi; unfold fl; by rewrite Hd).
  exists ∅. split_and!; [|by intros b bs|].
  - split; cbn [pages descs desc_cnt]; [split; [done|..]|split|by intros a k|by intros a i|done].
    all: try by intros a k.
    + intros b. split; [by left|]. by intros [?|(a & k & ? & _)].
    + by rewrite length_inits.
    + intros i Hi. by rewrite Hfl, Hd.
    + intros i b Hi. by rewrite Hfl, elem_of_nil.
    + intros i Hi. rewrite Hfl by done. apply NoDup_nil_2.
  - intros b len (a & Hs & _). unfold slot in Hs. by rewrite lookup_empty in Hs.
Qed.

(** ** Nothing is leaked *)

Lemma arena_busy U A (h : heap) a k : inv descs_addr None U A h → A !! a = Some k → ∃ b len, live A (descs h) b len.
Proof.
  intros [HA HL Hh Hb _] Ha. destruct k as [i|n].
  - pose proof (ar_kind _ _ _ HA a _ Ha) as Hi. simpl in Hi. specialize (Hb a i Ha ltac:(done)).
    destruct (decide (Forall (λ b, b ∈ fl (descs h) i) (blocks i a))) as [HF|HF].
    + exfalso. rewrite Forall_forall in HF.
      assert (blocks i a ⊆+ filter (λ b, page_at b = a) (fl (descs h) i)) as Hsub%submseteq_length.
      { apply NoDup_submseteq; [by apply NoDup_blocks|]. intros b Hb'. apply list_elem_of_filter. split; [|by apply HF].
        apply elem_of_blocks in Hb' as (k & Hk & ->). by eapply block_page. }
      pose proof (length_blocks i a Hi). unfold frees in Hb. lia.
    + apply not_Forall_Exists, Exists_exists in HF as (b & Hb' & Hn); [|apply _].
      apply elem_of_blocks in Hb' as (k & Hk & ->). exists (block i a k), (bsz i), a.
      split; [by apply block_slot|]. unfold on_list. by rewrite Ha.
  - exists (a + 12), (4096 * n - 12), a. unfold slot, on_list. rewrite Ha. split; [by split|by intros []].
Qed.

Lemma rep_empty U (h : heap) b : rep U h ∅ → used_page (pages h) b ↔ U b.
Proof.
  intros (A & HI & _ & H2). rewrite (ar_used _ _ _ (iv_arenas _ _ _ _ _ HI)). split; [|by left].
  intros [?|(a & k & Ha & _)]; [done|]. destruct (arena_busy _ _ _ _ _ HI Ha) as (c & len & Hl).
  destruct (H2 c len Hl) as [x Hx]. by rewrite lookup_empty in Hx.
Qed.

(** The bytes of blocks lie in pages that are used, and not by others. *)
Lemma rep_pages U (h : heap) B b bs x :
  rep U h B → B !! b = Some bs → b ≤ x < b + Z.of_nat (length bs) → used_page (pages h) (page_at x) ∧ ¬ U (page_at x).
Proof.
  intros (A & HI & H1 & _) Hb Hx. pose proof (iv_arenas _ _ _ _ _ HI) as HA. destruct (H1 b bs Hb) as [(a & Hs & _) _].
  destruct (slot_range _ _ _ _ _ _ HA Hs) as (_ & _ & _ & _ & Hz).
  destruct (zone_run _ _ _ _ _ HA (Hz x Hx)) as (k & Ha & Hr). split.
  - apply (ar_used _ _ _ HA). right. by exists a, k.
  - by apply (ar_own _ _ _ HA a k).
Qed.

(** ** Requests that are too big *)

Lemma malloc_is_big U A (h : heap) size :
  inv descs_addr None U A h → 1024 < size → malloc descs_addr size h = malloc_big size h.
Proof.
  intros [HA HL Hh Hb Hc] Hs. unfold malloc. rewrite (proj2 (Z.eqb_neq size 0)) by lia.
  destruct (find_desc_ok A h size HL Hc) as (i & Ei & [(_ & _ & ? & _)|[-> _]]); [lia..|].
  erewrite bind_ok by exact Ei. erewrite bind_ok by apply get_ok. by rewrite Hc.
Qed.

(** A block of less than [n] bytes. *)
Definition shorter (r n : Z) (h : heap) : Prop := ∃ len, block_size descs_addr r h = Ok (len, h) ∧ len < n.

(** The size of a block with its header wraps around: the greatest request
    gets a page. *)
Lemma malloc_wraps U (h : heap) B r h' :
  rep U h B → malloc descs_addr (2 ^ 32 - 1) h = Ok (r, h') → r ≠ NULL → shorter r 8192 h'.
Proof.
  intros HR E Nr. pose proof HR as (A & HI & _). rewrite (malloc_is_big U A) in E by (done || lia).
  change (malloc_big (2 ^ 32 - 1) h) with (malloc_big (P := P) 4084 h) in E. rewrite <-(malloc_is_big U A) in E by (done || lia).
  destruct (rep_malloc _ Hda U h B 4084 HR) as (r' & h2 & B' & E2 & Hn & HR' & _); [lia|].
  rewrite E in E2. injection E2 as <- <-. destruct Hn as [(-> & _)|(bs & _ & Er & _ & [Hf1 Hf2] & _ & ->)]; [done|].
  exists (Z.of_nat (length bs)). split; [eapply (rep_block_size _ Hda); [done|apply lookup_insert_eq]|]. simpl in Hf2. lia.
Qed.

(** The test of [calloc] does not notice that the product wraps around. *)
Lemma calloc_wraps U (h : heap) B r h' :
  rep U h B → calloc descs_addr 65537 65537 h = Ok (r, h') → r ≠ NULL → shorter r (65537 * 65537) h'.
Proof.
  intros HR E Nr. destruct (rep_calloc U h B 65537 65537 HR) as (r' & h2 & B' & E2 & HR' & Hn); [lia|lia|done|].
  rewrite E in E2. injection E2 as <- <-. destruct Hn as [(-> & _)|[(-> & _)|(bs & _ & Er & _ & [Hf1 Hf2] & _ & ->)]]; [done..|].
  exists (Z.of_nat (length bs)). split; [eapply (rep_block_size _ Hda); [done|apply lookup_insert_eq]|].
  change (u32 (65537 * 65537)) with 131073 in Hf2. simpl in Hf2. lia.
Qed.

End refine.

(** ** Properties *)

(** C7: for a size of at most 2^32 - 12 bytes (for calloc the product of its two
    arguments, taken without wrap-around), and a pointer that is null or an
    allocated block, malloc, calloc, realloc and free do what they should to the
    allocated blocks and never fail an assertion: a new block is at a fresh
    address and has at least the size asked for, zeroed by calloc and with the
    old contents after realloc, [free] removes one block, every other block
    keeps its contents, and a null pointer is returned only for size 0 or when
    the page allocator has no pages.  For a larger size the sum with the size of
    the header, or the product, wraps around and the block is too short
    ([malloc_wraps], [calloc_wraps]). *)
Theorem malloc_refines_heap {P : Type} `{PageRuns P} (descs_addr : Z) U (h : Malloc.heap P) B o :
  0 < descs_addr ∧ descs_addr + 480 ≤ 2 ^ 32 → rep descs_addr U h B → valid o B →
  ∃ r h' B', run descs_addr o h = Ok (r, h') ∧ effect h o B r B' ∧ rep descs_addr U h' B'.
Proof. intros Hda. by apply op_refines. Qed.

(** After [malloc_init] the heap is empty.  In every state of the heap the
    blocks do not overlap and lie in pages of the allocator that nobody else
    uses, and when the last block has been freed every page is back in its
    pool. *)
Theorem malloc_owns_pages {P : Type} `{PageRuns P} (descs_addr : Z) (p : P) ds :
  0 < descs_addr ∧ descs_addr + 480 ≤ 2 ^ 32 → pa_ok p → length ds = 10%nat →
  (∃ h, malloc_init (mk_heap p ds 0) = Ok (tt, h) ∧ rep descs_addr (used_page p) h ∅) ∧
  ∀ h B, rep descs_addr (used_page p) h B →
    (∀ b bs x, B !! b = Some bs → b ≤ x < b + Z.of_nat (length bs) →
       used_page (pages h) (page_at x) ∧ ¬ used_page p (page_at x) ∧
       ∀ c cs, B !! c = Some cs → c ≠ b → ¬ c ≤ x < c + Z.of_nat (length cs)) ∧
    (B = ∅ → ∀ a, used_page (pages h) a ↔ used_page p a).
Proof.
  intros Hda Hp Hds. split.
  { destruct (malloc_init_ok descs_addr p ds Hp Hds) as (h & E & _ & HR). by exists h. }
  intros h B HR. split; [|intros -> a; by apply (rep_empty descs_addr)].
  intros b bs x Hb Hx. destruct (rep_pages descs_addr _ _ _ _ _ _ HR Hb Hx). split_and!; [done..|].
  intros c cs Hc Nc. destruct (rep_facts descs_addr _ _ _ _ _ HR Hb) as (_ & _ & _ & _ & Hd).
  destruct (Hd c cs Hc Nc); lia.
Qed.

(** ** Witnesses *)

Definition demo_ds : list desc := replicate 10 (mk_desc 0 0 []).
Definition demo_heap : Malloc.heap memory := mk_heap demo_memory (inits 7 demo_ds) 7.

Lemma demo_rep : rep 0xc0030000 (used_page demo_memory) demo_heap ∅.
Proof.
  destruct (malloc_init_ok 0xc0030000 demo_memory demo_ds) as (h & E & _ & HR); [apply demo_memory_inv|done|].
  rewrite malloc_init_run in E by done. by injection E as <-.
Qed.

Lemma malloc_refines_heap_witness :
  ∃ r h' B', malloc 0xc0030000 100 demo_heap = Ok (r, h') ∧ rep 0xc0030000 (used_page demo_memory) h' B'.
Proof.
  destruct (malloc_refines_heap 0xc0030000 (used_page demo_memory) demo_heap ∅ (Malloc 100)) as (r & h' & B' & E & _ & HR);
    [lia|exact demo_rep|simpl; lia|]. exists r, h', B'. split; [exact E|exact HR].
Defined.

Lemma malloc_owns_pages_witness :
  ∃ h, malloc_init (mk_heap demo_memory demo_ds 0) = Ok (tt, h) ∧ rep 0xc0030000 (used_page demo_memory) h ∅.
Proof. apply (malloc_owns_pages 0xc0030000 demo_memory demo_ds); [lia|exact demo_memory_inv|reflexivity]. Defined.

(** Two blocks of 100 bytes of one arena; when both are free again, so is the
    page. *)
Definition demo_calls : option (Z * Z * bool * bool) :=
  match (p ← malloc 0xc0030000 100; q ← malloc 0xc0030000 100; mret (p, q)) demo_heap with
  | Ok (p, q, h) =>
      match (free 0xc0030000 p;; free 0xc0030000 q) h with
      | Ok (_, h') => Some (p, q, bit (used_map (kernel_pool (pages h))) 0, bit (used_map (kernel_pool (pages h'))) 0)
      | Err _ => None
      end
  | Err _ => None
  end.

Example demo_calls_ok : demo_calls = Some (0xc010100c, 0xc010108c, true, false).
Proof. vm_compute. reflexivity. Qed.
