(* ===== verification/Pagedir.v ===== *)
(** * Page directories: userprog/pagedir.c

    Two-level x86 page tables in pages obtained from the page allocator, of
    which only the interface [PageAllocator] is used.  The processor is its
    CR3 register and its translation lookaside buffer, which caches the
    page-table entries of virtual pages and is emptied by a load of CR3. *)

From S2P Require Import Prelude Vaddr PageIface.

(** The globals of threads/init.c that pagedir.c reads. *)
Class InitGlobals := { init_page_dir : Z; init_ram_pages : Z }.

Section pagedir.
Context {M : Type} `{PA : PageAllocator M} `{IG : InitGlobals}.

(** ** State *)

Record vm := mk_vm { memory : M; cr3 : Z; tlb : gmap Z Z }.

Definition set_memory (m : M) (s : vm) : vm := mk_vm m (cr3 s) (tlb s).

Definition on_memory {A} (f : ST M A) : ST vm A := λ s,
  match f (memory s) with Ok (a, m) => Ok (a, set_memory m s) | Err e => Err e end.

(** The 32-bit word at an address. *)
Definition word (m : M) (a : Z) : option Z :=
  ws ← mem m !! (a / 4096 * 4096); ws !! Z.to_nat (a mod 4096 / 4).

Definition ld32 (a : Z) : ST vm Z := λ s,
  match word (memory s) a with Some w => Ok (w, s) | None => Err BadAccess end.

Definition st32 (a v : Z) : ST vm unit := λ s,
  match mem (memory s) !! (a / 4096 * 4096) with
  | Some ws =>
      if decide (is_Some (ws !! Z.to_nat (a mod 4096 / 4))) then
        let ws' := <[Z.to_nat (a mod 4096 / 4) := v]> ws in
        Ok (tt, set_memory (set_mem (<[a / 4096 * 4096 := ws']> (mem (memory s))) (memory s)) s)
      else Err BadAccess
  | None => Err BadAccess
  end.

(** [memcpy (dst, src, PGSIZE)] of whole pages. *)
Definition copy_page (dst src : Z) : ST vm unit := λ s,
  match mem (memory s) !! src, mem (memory s) !! dst with
  | Some ws, Some _ => Ok (tt, set_memory (set_mem (<[dst := ws]> (mem (memory s))) (memory s)) s)
  | _, _ => Err BadAccess
  end.

(** ** The processor *)

Definition pagedir_activate (pd : Z) : ST vm unit :=
  let pd := if pd =? NULL then init_page_dir else pd in
  p ← lift (vtop pd);
  modify (λ s, mk_vm (memory s) p ∅).

Definition active_pd : ST vm Z := s ← get; lift (ptov (cr3 s)).

Definition invalidate_pagedir (pd : Z) : ST vm unit :=
  a ← active_pd; if a =? pd then pagedir_activate pd else mret tt.

(** ** Operations *)

Definition pagedir_create : ST vm Z :=
  pd ← on_memory (get_page 0);
  (if negb (pd =? NULL) then copy_page pd init_page_dir else mret tt);;
  mret pd.

Definition destroy_table (pt : Z) : ST vm unit :=
  loopM (S 1024) (λ j,
    if j <? 1024 then
      pte ← ld32 (pt + 4 * j);
      (if negb (Z.land pte PTE_P =? 0) then
         page ← lift (pte_get_page pte); on_memory (free_page page)
       else mret tt);;
      mret (inl (j + 1))
    else mret (inr tt)) 0.

Definition destroy_body (pd i : Z) : ST vm (Z + unit) :=
  if i <? pd_no PHYS_BASE then
    pde ← ld32 (pd + 4 * i);
    (if negb (Z.land pde PTE_P =? 0) then
       pt ← lift (pde_get_pt pde);
       destroy_table pt;;
       on_memory (free_page pt)
     else mret tt);;
    mret (inl (i + 1))
  else mret (inr tt).

Definition pagedir_destroy (pd : Z) : ST vm unit :=
  if pd =? NULL then mret tt
  else
    assert (negb (pd =? init_page_dir));;
    loopM (S 1024) (destroy_body pd) 0;;
    on_memory (free_page pd).

Definition lookup_page (pd vaddr : Z) (create : bool) : ST vm Z :=
  assert (negb (pd =? NULL));;
  assert (negb create || is_user_vaddr vaddr);;
  let pde := pd + 4 * pd_no vaddr in
  w ← ld32 pde;
  ok ← (if w =? 0 then
          if create then
            pt ← on_memory (get_page PAL_ZERO);
            if pt =? NULL then mret false
            else e ← lift (pde_create pt); st32 pde e;; mret true
          else mret false
        else mret true);
  if (ok : bool) then
    w ← ld32 pde;
    pt ← lift (pde_get_pt w);
    mret (pt + 4 * pt_no vaddr)
  else mret NULL.

Definition pagedir_set_page (pd upage kpage : Z) (writable : bool) : ST vm bool :=
  assert (pg_ofs upage =? 0);;
  assert (pg_ofs kpage =? 0);;
  assert (is_user_vaddr upage);;
  p ← lift (vtop kpage); assert (Z.shiftr p PTSHIFT <? init_ram_pages);;
  assert (negb (pd =? init_page_dir));;
  pte ← lookup_page pd upage true;
  if negb (pte =? NULL) then
    w ← ld32 pte; assert (Z.land w PTE_P =? 0);;
    e ← lift (pte_create_user kpage writable); st32 pte e;;
    mret true
  else mret false.

Definition pagedir_get_page (pd uaddr : Z) : ST vm Z :=
  assert (is_user_vaddr uaddr);;
  pte ← lookup_page pd uaddr false;
  if pte =? NULL then mret NULL
  else
    w ← ld32 pte;
    if negb (Z.land w PTE_P =? 0) then
      w ← ld32 pte; page ← lift (pte_get_page w); mret (page + pg_ofs uaddr)
    else mret NULL.

Definition pagedir_clear_page (pd upage : Z) : ST vm unit :=
  assert (pg_ofs upage =? 0);;
  assert (is_user_vaddr upage);;
  pte ← lookup_page pd upage false;
  if pte =? NULL then mret tt
  else
    w ← ld32 pte;
    if negb (Z.land w PTE_P =? 0) then
      st32 pte (Z.land w (u32 (Z.lnot PTE_P)));; invalidate_pagedir pd
    else mret tt.

(** The dirty and the accessed bit are tested and set by the same code; [bit]
    is PTE_D or PTE_A. *)
Definition is_bit (bit pd vpage : Z) : ST vm bool :=
  pte ← lookup_page pd vpage false;
  if pte =? NULL then mret false
  else w ← ld32 pte; mret (negb (Z.land w bit =? 0)).

Definition set_bit (bit pd vpage : Z) (v : bool) : ST vm unit :=
  pte ← lookup_page pd vpage false;
  if pte =? NULL then mret tt
  else
    w ← ld32 pte;
    if v then st32 pte (Z.lor w bit)
    else st32 pte (Z.land w (u32 (Z.lnot bit)));; invalidate_pagedir pd.

Definition pagedir_is_dirty (pd vpage : Z) : ST vm bool := is_bit PTE_D pd vpage.
Definition pagedir_set_dirty (pd vpage : Z) (dirty : bool) : ST vm unit := set_bit PTE_D pd vpage dirty.
Definition pagedir_is_accessed (pd vpage : Z) : ST vm bool := is_bit PTE_A pd vpage.
Definition pagedir_set_accessed (pd vpage : Z) (accessed : bool) : ST vm unit :=
  set_bit PTE_A pd vpage accessed.

(** ** Well-formed page directories *)

(** Entry [i] of the directory points to the page table [pt]. *)
Definition table (m : M) (pd i pt : Z) : Prop :=
  kpage pt ∧ ∃ f, 0 ≤ f < 4096 ∧ Z.testbit f 0 = true ∧ word m (pd + 4 * i) = Some (entry pt f).

Definition present (w : Z) : bool := Z.testbit w 0.

(** A page-table entry that is present names a page of kernel memory, which is
    mapped for the first gigabyte of physical memory. *)
Definition pte_ok (w : Z) : Prop :=
  0 ≤ w < 2 ^ 32 ∧ (present w = true → w < 2 ^ 30).

Record pd_ok (m : M) (pd : Z) : Prop := {
  pd_used : used_page m pd;
  pd_entry i : 0 ≤ i < 768 → word m (pd + 4 * i) = Some 0 ∨ ∃ pt, table m pd i pt;
  pd_table i pt : 0 ≤ i < 768 → table m pd i pt → used_page m pt ∧ pt ≠ pd;
  pd_inj i j pt : 0 ≤ i < 768 → 0 ≤ j < 768 → table m pd i pt → table m pd j pt → i = j;
  pd_ptes i pt j w : 0 ≤ i < 768 → 0 ≤ j < 1024 → table m pd i pt →
    word m (pt + 4 * j) = Some w → pte_ok w
}.

(** The page-table entry for a user virtual address, where the directory has
    a table for it. *)
Definition pte_addr (m : M) (pd va : Z) : option Z :=
  match word m (pd + 4 * (va / 2 ^ 22)) with
  | Some w => if w =? 0 then None else Some (w / 4096 * 4096 + PHYS_BASE + 4 * ((va / 4096) mod 1024))
  | None => None
  end.
Definition pte_at (m : M) (pd va : Z) : option Z := a ← pte_addr m pd va; word m a.

(** The page a user virtual address is mapped to. *)
Definition mapping (m : M) (pd va : Z) : option Z :=
  match pte_at m pd va with Some w => if present w then Some w else None | None => None end.

(** ** Words of memory *)

Implicit Types m : M.

Lemma word_eq m p j : kpage p → 0 ≤ j < 1024 → word m (p + 4 * j) = ws ← mem m !! p; ws !! Z.to_nat j.
Proof.
  intros [_ Hp] Hj. unfold word. assert ((p + 4 * j) / 4096 * 4096 = p) as -> by dlia.
  by assert ((p + 4 * j) mod 4096 / 4 = j) as -> by dlia.
Qed.

Lemma word_ok m p j :
  pa_ok m → used_page m p → 0 ≤ j < 1024 → ∃ w, word m (p + 4 * j) = Some w ∧ 0 ≤ w < 2 ^ 32.
Proof.
  intros Hm Hu Hj. destruct (used_mem m p Hm Hu) as [Hk [ws Hws]]. rewrite word_eq, Hws by done.
  destruct (mem_ok m Hm p ws Hws) as [Hl Hf]. unfold word_cnt in Hl.
  destruct (lookup_lt_is_Some_2 ws (Z.to_nat j)) as [w Hw]; [lia|].
  exists w. split; [done|]. by eapply Forall_lookup_1 in Hf.
Qed.

(** [m'] is [m] with the word [j] of the page [p] set to [v]. *)
Record word_set (m m' : M) (p j v : Z) : Prop := {
  ws_ok : pa_ok m';
  ws_used a : used_page m' a ↔ used_page m a;
  ws_new : word m' (p + 4 * j) = Some v;
  ws_old q k : kpage q → 0 ≤ k < 1024 → q ≠ p ∨ k ≠ j → word m' (q + 4 * k) = word m (q + 4 * k)
}.

Lemma set_page_ok m p ws0 ws :
  pa_ok m → mem m !! p = Some ws0 → page_ok ws → pa_ok (set_mem (<[p := ws]> (mem m)) m).
Proof.
  intros Hm H0 Hws. apply set_ok; [done| |].
  - rewrite dom_insert_L. assert (p ∈ dom (mem m)) by (by apply elem_of_dom; eexists). set_solver.
  - apply map_Forall_insert_2; [done|by apply mem_ok].
Qed.

Lemma st32_ok s p j v :
  pa_ok (memory s) → used_page (memory s) p → 0 ≤ j < 1024 → 0 ≤ v < 2 ^ 32 →
  ∃ m', st32 (p + 4 * j) v s = Ok (tt, set_memory m' s) ∧ word_set (memory s) m' p j v.
Proof.
  intros Hm Hu Hj Hv. destruct (used_mem _ p Hm Hu) as [Hk [ws Hws]].
  destruct (mem_ok _ Hm p ws Hws) as [Hl Hf]. unfold word_cnt in Hl. pose proof Hk as [_ Hp].
  unfold st32. assert ((p + 4 * j) / 4096 * 4096 = p) as -> by dlia.
  assert ((p + 4 * j) mod 4096 / 4 = j) as -> by dlia. rewrite Hws.
  rewrite decide_True by (apply lookup_lt_is_Some_2; lia). eexists. split; [done|]. split.
  - eapply set_page_ok; [done..|]. split; [by rewrite length_insert|]. by apply Forall_insert.
  - intros a. apply used_set.
  - rewrite word_eq, mem_set, lookup_insert_eq by done. simpl. apply list_lookup_insert_eq. lia.
  - intros q k Hq Hkk Hne. rewrite !word_eq, mem_set by done. destruct (decide (q = p)) as [->|Nq].
    + rewrite lookup_insert_eq, Hws. simpl. apply list_lookup_insert_ne. lia.
    + by rewrite lookup_insert_ne.
Qed.

Lemma ld32_ok s a w : word (memory s) a = Some w → ld32 a s = Ok (w, s).
Proof. intros E. unfold ld32. by rewrite E. Qed.

(** ** Entries *)

Lemma land_present w : Z.land w PTE_P =? 0 = negb (present w).
Proof.
  unfold present, PTE_P. change 1 with (Z.ones 1). rewrite Z.land_ones by lia. change (2 ^ 1) with 2.
  rewrite Zmod_odd, <-Z.bit0_odd. by destruct (Z.testbit w 0).
Qed.

Lemma entry_present a f : kpage a → 0 ≤ f < 4096 → present (entry a f) = Z.testbit f 0.
Proof.
  intros Ha Hf. pose proof (land_present (entry a f)) as E. pose proof (land_present f) as E'.
  unfold present in *. rewrite (entry_flag a f PTE_P Ha Hf) in E by done. rewrite E in E'.
  by destruct (Z.testbit (entry a f) 0), (Z.testbit f 0).
Qed.

Lemma entry_pt a f :
  kpage a → 0 ≤ f < 4096 → Z.testbit f 0 = true →
  pde_get_pt (entry a f) = Ok a ∧ entry a f ≠ 0 ∧ entry a f / 4096 * 4096 + PHYS_BASE = a.
Proof.
  intros Ha Hf Hp. pose proof (entry_present a f Ha Hf) as Hpr. rewrite Hp in Hpr.
  unfold pde_get_pt. rewrite land_present, Hpr. split_and!.
  - by apply entry_page.
  - intros E. rewrite E in Hpr. done.
  - destruct (entry_range a f Ha Hf) as [_ Hm]. apply kpage_round in Ha as [Ha _].
    unfold entry in *. dlia.
Qed.

Lemma pte_ok_entry w :
  pte_ok w → present w = true →
  let kp := w / 4096 * 4096 + PHYS_BASE in kpage kp ∧ w = entry kp (w mod 4096).
Proof.
  intros [Hw Hp] Hpr kp. specialize (Hp Hpr). unfold kp, kpage, entry, PHYS_BASE. split; [split|].
  - dlia.
  - replace 0xc0000000 with (786432 * 4096) by done. rewrite <-Z.mul_add_distr_r. by apply Z.mod_mul.
  - dlia.
Qed.

Lemma entry_inj a f a' f' :
  kpage a → 0 ≤ f < 4096 → kpage a' → 0 ≤ f' < 4096 → entry a f = entry a' f' → a = a' ∧ f = f'.
Proof.
  intros Ha Hf Ha' Hf' E. pose proof (entry_page a f Ha Hf) as E1. rewrite E in E1.
  rewrite entry_page in E1 by done. injection E1 as ->. split; [done|]. unfold entry in E. lia.
Qed.

Lemma table_fun m pd i pt pt' :
  table m pd i pt → table m pd i pt' → pt = pt'.
Proof.
  intros (Hk & f & Hf & _ & E) (Hk' & f' & Hf' & _ & E'). rewrite E in E'. injection E' as E'.
  by apply entry_inj in E' as [-> _].
Qed.

(** ** Finding the entry for an address *)

Definition user_va (va : Z) : Prop := 0 ≤ va < PHYS_BASE.

Lemma va_index va : user_va va → 0 ≤ va / 2 ^ 22 < 768 ∧ 0 ≤ (va / 4096) mod 1024 < 1024.
Proof. unfold user_va, PHYS_BASE. intros. split; dlia. Qed.

Lemma va_index_inj va va' :
  va / 2 ^ 22 = va' / 2 ^ 22 → (va / 4096) mod 1024 = (va' / 4096) mod 1024 → va / 4096 = va' / 4096.
Proof. change (2 ^ 22) with (4096 * 1024). rewrite <-!Z.div_div by lia. intros. dlia. Qed.

Inductive pte_case (m : M) (pd va : Z) : option Z → Prop :=
  | pte_none : word m (pd + 4 * (va / 2 ^ 22)) = Some 0 → pte_case m pd va None
  | pte_some pt : table m pd (va / 2 ^ 22) pt → used_page m pt → pt ≠ pd →
      pte_case m pd va (Some (pt + 4 * ((va / 4096) mod 1024))).

Lemma pte_addr_table m pd va pt :
  table m pd (va / 2 ^ 22) pt → pte_addr m pd va = Some (pt + 4 * ((va / 4096) mod 1024)).
Proof.
  intros (Hk & f & Hf & Hb & E). unfold pte_addr. rewrite E.
  destruct (entry_pt pt f) as (_ & Hn & ->); [done..|]. by rewrite (proj2 (Z.eqb_neq _ _) Hn).
Qed.

Lemma pte_addr_ok m pd va :
  pa_ok m → pd_ok m pd → user_va va → pte_case m pd va (pte_addr m pd va).
Proof.
  intros Hm Hpd [Hi _]%va_index. destruct (pd_entry _ _ Hpd (va / 2 ^ 22) Hi) as [E|(pt & Ht)].
  - replace (pte_addr m pd va) with (@None Z); [by constructor|]. unfold pte_addr. by rewrite E.
  - destruct (pd_table _ _ Hpd _ _ Hi Ht) as [Hu Hne].
    rewrite (pte_addr_table m pd va pt) by done. by constructor.
Qed.

Lemma pte_at_Some m pd va a : pte_addr m pd va = Some a → pte_at m pd va = word m a.
Proof. intros E. unfold pte_at. by rewrite E. Qed.

Lemma kpage_null p j : kpage p → 0 ≤ j → p + 4 * j =? NULL = false.
Proof. intros [Hp _] Hj. apply Z.eqb_neq. unfold NULL, PHYS_BASE in *. lia. Qed.

Lemma used_kpage m p : pa_ok m → used_page m p → kpage p.
Proof. intros Hm Hu. by apply used_mem in Hu as [? _]. Qed.

Lemma lookup_page_false s pd va :
  pa_ok (memory s) → pd_ok (memory s) pd → user_va va →
  lookup_page pd va false s = Ok (default NULL (pte_addr (memory s) pd va), s).
Proof.
  intros Hm Hpd Hva. pose proof (used_kpage _ _ Hm (pd_used _ _ Hpd)) as Hk.
  pose proof (kpage_null pd 0 Hk ltac:(lia)) as Hn. rewrite Z.mul_0_r, Z.add_0_r in Hn.
  unfold lookup_page. rewrite Hn. cbn [negb orb]. do 2 erewrite bind_ok by done.
  rewrite pd_no_div, pt_no_div.
  destruct (pte_addr_ok _ pd va Hm Hpd Hva) as [E|pt Ht Hu Hne].
  - erewrite bind_ok by (by apply ld32_ok). by erewrite bind_ok by done.
  - pose proof Ht as (Hpt & f & Hf & Hb & E). destruct (entry_pt pt f) as (Ep & Nz & _); [done..|].
    erewrite bind_ok by (by apply ld32_ok). rewrite (proj2 (Z.eqb_neq _ _) Nz).
    erewrite bind_ok by done. cbv beta iota. erewrite bind_ok by (by apply ld32_ok).
    erewrite bind_ok by (unfold lift; by rewrite Ep). done.
Qed.

(** ** Changes of memory and directories *)

(** A directory whose directory page and tables are not changed is not changed. *)
Lemma pd_frame m m' pd :
  pa_ok m → pd_ok m pd →
  (∀ p k, 0 ≤ k < 1024 → p = pd ∨ (∃ i, 0 ≤ i < 768 ∧ table m pd i p) → word m' (p + 4 * k) = word m (p + 4 * k)) →
  (∀ p, p = pd ∨ (∃ i, 0 ≤ i < 768 ∧ table m pd i p) → used_page m p → used_page m' p) →
  pd_ok m' pd ∧ ∀ va, user_va va → pte_addr m' pd va = pte_addr m pd va ∧ pte_at m' pd va = pte_at m pd va.
Proof.
  intros Hm Hpd Hw Hu.
  assert (∀ i, 0 ≤ i < 768 → word m' (pd + 4 * i) = word m (pd + 4 * i)) as Hpdw
    by (intros i Hi; apply Hw; [lia|by left]).
  assert (∀ i pt, 0 ≤ i < 768 → table m' pd i pt ↔ table m pd i pt) as Ht
    by (intros i pt Hi; unfold table; by rewrite Hpdw).
  destruct Hpd as [H1 H2 H3 H4 H5]. split; [split|].
  - apply Hu; [by left|done].
  - intros i Hi. rewrite Hpdw by done. destruct (H2 i Hi) as [?|(pt & ?)]; [by left|right].
    exists pt. by apply Ht.
  - intros i pt Hi Hpt%Ht; [|done]. destruct (H3 i pt Hi Hpt). split; [apply Hu; eauto|done].
  - intros i j pt Hi Hj Hti Htj. rewrite Ht in Hti, Htj by done. eauto.
  - intros i pt j w Hi Hj Hpt E. rewrite Ht in Hpt by done. rewrite Hw in E by eauto. eauto.
  - intros va Hva. pose proof (va_index va Hva) as [Hi Hj].
    assert (pte_addr m' pd va = pte_addr m pd va) as Ea by (unfold pte_addr; by rewrite Hpdw).
    split; [done|]. unfold pte_at. rewrite Ea.
    destruct (pte_addr_ok m pd va) as [|pt Hpt _ _]; [done|by split|done|done|].
    simpl. apply Hw; eauto.
Qed.

Lemma same_page_dir va va' : va / 4096 = va' / 4096 → va / 2 ^ 22 = va' / 2 ^ 22.
Proof. intros E. change (2 ^ 22) with (4096 * 1024). rewrite <-!Z.div_div by lia. by rewrite E. Qed.

Lemma table_nonzero m pd i pt : table m pd i pt → word m (pd + 4 * i) ≠ Some 0.
Proof. intros (Hk & f & Hf & Hb & E) E'. rewrite E in E'. injection E' as E'. by apply (entry_pt pt f) in E'. Qed.

Lemma pte_update m m' pd va pt v :
  pa_ok m → pd_ok m pd → user_va va → table m pd (va / 2 ^ 22) pt →
  word_set m m' pt ((va / 4096) mod 1024) v → pte_ok v →
  pd_ok m' pd ∧ (∀ i q, 0 ≤ i < 768 → table m' pd i q ↔ table m pd i q) ∧ ∀ va', user_va va' →
    pte_addr m' pd va' = pte_addr m pd va' ∧
    pte_at m' pd va' = if decide (va' / 4096 = va / 4096) then Some v else pte_at m pd va'.
Proof.
  intros Hm Hpd Hva Ht [Hm' Hu Hnew Hold] Hv. pose proof (va_index va Hva) as [Hi Hj].
  destruct (pd_table _ _ Hpd _ _ Hi Ht) as [Hupt Hne].
  pose proof (used_kpage m pd Hm (pd_used _ _ Hpd)) as Hkpd.
  assert (∀ i, 0 ≤ i < 768 → word m' (pd + 4 * i) = word m (pd + 4 * i)) as Hpdw.
  { intros i Hi'. apply Hold; [done|lia|left; congruence]. }
  assert (∀ i p, 0 ≤ i < 768 → table m' pd i p ↔ table m pd i p) as Htab
    by (intros i p Hi'; unfold table; by rewrite Hpdw).
  pose proof Hpd as [H1 H2 H3 H4 H5]. split; [split|split; [done|]].
  - by apply Hu.
  - intros i Hi'. rewrite Hpdw by done. destruct (H2 i Hi') as [?|(p & ?)]; [by left|right].
    exists p. by apply Htab.
  - intros i p Hi' Hp%Htab; [|done]. rewrite Hu. eauto.
  - intros i j p Hi' Hj' Hti Htj. rewrite Htab in Hti, Htj by done. eauto.
  - intros i p j w Hi' Hj' Hp E. rewrite Htab in Hp by done.
    destruct (decide (p = pt ∧ j = (va / 4096) mod 1024)) as [[-> ->]|Hd].
    + rewrite Hnew in E. by injection E as <-.
    + rewrite Hold in E; [eauto|apply Hp|done|]. destruct (decide (p = pt)); [right|left]; tauto.
  - intros va' Hva'. pose proof (va_index va' Hva') as [Hi' Hj'].
    assert (pte_addr m' pd va' = pte_addr m pd va') as Ea by (unfold pte_addr; by rewrite Hpdw).
    split; [done|]. unfold pte_at. rewrite Ea.
    destruct (pte_addr_ok m pd va') as [E|pt' Hpt' _ _]; [done..| |].
    + rewrite decide_False; [done|]. intros Heq%same_page_dir. rewrite Heq in E.
      by apply table_nonzero in Ht.
    + simpl. destruct (decide (va' / 4096 = va / 4096)) as [Heq|Nq].
      * rewrite (same_page_dir _ _ Heq) in Hpt'. by rewrite (table_fun m pd _ pt' pt Hpt' Ht), Heq.
      * apply Hold; [apply Hpt'|done|]. destruct (decide (pt' = pt)) as [->|]; [right|by left].
        intros Ej. apply Nq, va_index_inj; [|done]. by eapply H4.
Qed.

(** A new, empty page table in the directory maps nothing. *)
Lemma add_table m m1 m2 pd i a :
  pa_ok m → pd_ok m pd → 0 ≤ i < 768 → word m (pd + 4 * i) = Some 0 →
  kpage a → ¬ used_page m a → (∀ b, used_page m1 b ↔ used_page m b ∨ b = a) →
  (∀ b, b ≠ a → mem m1 !! b = mem m !! b) → mem m1 !! a = Some (repeat 0 word_cnt) →
  word_set m1 m2 pd i (entry a 7) →
  pd_ok m2 pd ∧ table m2 pd i a ∧ (∀ va, user_va va → mapping m2 pd va = mapping m pd va) ∧
  (∀ k, 0 ≤ k < 1024 → word m2 (a + 4 * k) = Some 0).
Proof.
  intros Hm Hpd Hi E0 Ha Hna Hu1 Hmem Hz [Hm2 Hu2 Hnew Hold].
  pose proof (pd_used _ _ Hpd) as Hupd. pose proof (used_kpage m pd Hm Hupd) as Hkpd.
  assert (pd ≠ a) as Npd by (by intros ->).
  assert (∀ q k, kpage q → q ≠ a → 0 ≤ k < 1024 → q ≠ pd ∨ k ≠ i → word m2 (q + 4 * k) = word m (q + 4 * k)) as Hsame.
  { intros q k Hq Nq Hk Hne. rewrite Hold by done. rewrite !word_eq by done. by rewrite Hmem. }
  assert (∀ k, 0 ≤ k < 1024 → word m2 (a + 4 * k) = Some 0) as Hzero.
  { intros k Hk. rewrite Hold by (done || left; congruence). rewrite word_eq, Hz by done.
    cbn [mbind option_bind]. apply lookup_repeat. unfold word_cnt. lia. }
  assert (table m2 pd i a) as Hta by (split; [done|by exists 7]).
  assert (∀ j p, 0 ≤ j < 768 → j ≠ i → table m2 pd j p ↔ table m pd j p) as Htab.
  { intros j p Hj Nj. unfold table. rewrite Hsame; [done|done|done|lia|by right]. }
  assert (∀ j p, 0 ≤ j < 768 → table m2 pd j p → (j = i ∧ p = a) ∨ (j ≠ i ∧ table m pd j p ∧ p ≠ a)) as Hcase.
  { intros j p Hj Ht. destruct (decide (j = i)) as [->|Nj]; [left|right].
    - split; [done|]. by eapply table_fun.
    - apply Htab in Ht; [|done..]. split_and!; [done..|]. intros ->. by destruct (pd_table _ _ Hpd _ _ Hj Ht). }
  pose proof Hpd as [H1 H2 H3 H4 H5]. split_and!; [split|done| |done].
  - by apply Hu2, Hu1; left.
  - intros j Hj. destruct (decide (j = i)) as [->|Nj]; [right; eauto|].
    rewrite Hsame by (done || lia || by right). destruct (H2 j Hj) as [?|(p & ?)]; [by left|right].
    exists p. by apply Htab.
  - intros j p Hj Ht. rewrite Hu2, Hu1. destruct (Hcase j p Hj Ht) as [[-> ->]|(Nj & Hp & _)].
    + split; [by right|congruence].
    + destruct (H3 j p Hj Hp). split; [by left|done].
  - intros j k p Hj Hk Htj Htk.
    destruct (Hcase j p Hj Htj) as [[Ej Ep]|(Nj & Hpj & Na)], (Hcase k p Hk Htk) as [[Ek Ep']|(Nk & Hpk & Nb)];
      [congruence..|eauto].
  - intros j p k w Hj Hk Ht E. destruct (Hcase j p Hj Ht) as [[-> ->]|(Nj & Hp & Na)].
    + rewrite Hzero in E by done. injection E as <-. split; [lia|done].
    + rewrite Hsame in E; [eauto|apply Hp|done|done|]. left. by destruct (H3 j p Hj Hp).
  - intros va Hva. pose proof (va_index va Hva) as [Hvi Hvj]. unfold mapping, pte_at.
    destruct (decide (va / 2 ^ 22 = i)) as [<-|Nv].
    + rewrite (pte_addr_table m2 pd va a Hta). simpl. rewrite Hzero by done.
      unfold pte_addr. by rewrite E0.
    + assert (pte_addr m2 pd va = pte_addr m pd va) as ->.
      { unfold pte_addr. rewrite Hsame; [done|done|done|lia|by right]. }
      destruct (pte_addr_ok m pd va) as [|pt Hpt Hupt Hnpt]; [done..|]. simpl.
      rewrite Hsame; [done|apply Hpt|congruence|done|by left].
Qed.

(** [m'] differs from [m] only in the directory page and the tables of [pd]
    and in pages that were free. *)
Definition outside (m m' : M) (pd : Z) : Prop :=
  (∀ q, used_page m q → used_page m' q) ∧
  ∀ q k, used_page m q → q ≠ pd → (∀ i, 0 ≤ i < 768 → ¬ table m pd i q) → 0 ≤ k < 1024 →
    word m' (q + 4 * k) = word m (q + 4 * k).

(** Two directories that share no page. *)
Definition separate (m : M) (pd pd2 : Z) : Prop :=
  pd ≠ pd2 ∧ (∀ i, 0 ≤ i < 768 → ¬ table m pd i pd2 ∧ ¬ table m pd2 i pd) ∧
  ∀ i j pt, 0 ≤ i < 768 → 0 ≤ j < 768 → table m pd i pt → ¬ table m pd2 j pt.

Lemma separate_frame m m' pd pd2 :
  pa_ok m → outside m m' pd → separate m pd pd2 → pd_ok m pd2 →
  pd_ok m' pd2 ∧ ∀ va, user_va va → pte_at m' pd2 va = pte_at m pd2 va.
Proof.
  intros Hm [Hu Ho] (Hne & Hs & Hpt) Hpd2. destruct (pd_frame m m' pd2 Hm Hpd2) as [H1 H2]; [|by auto|].
  - intros p k Hk [->|(i & Hi & Ht)]; apply Ho; try done.
    + apply Hpd2.
    + intros i Hi. by apply Hs.
    + by eapply pd_table.
    + intros ->. by destruct (Hs i Hi).
    + intros j Hj Ht'. by eapply (Hpt j i).
  - split; [done|]. intros va Hva. by apply H2.
Qed.

(** Writing the page-table entry of an address. *)
Lemma write_pte s pd va pt v :
  pa_ok (memory s) → pd_ok (memory s) pd → user_va va → table (memory s) pd (va / 2 ^ 22) pt → pte_ok v →
  ∃ m', st32 (pt + 4 * ((va / 4096) mod 1024)) v s = Ok (tt, set_memory m' s) ∧ pa_ok m' ∧ pd_ok m' pd ∧
    outside (memory s) m' pd ∧
    (∀ i q, 0 ≤ i < 768 → table m' pd i q ↔ table (memory s) pd i q) ∧
    (∀ va', user_va va' →
      pte_at m' pd va' = if decide (va' / 4096 = va / 4096) then Some v else pte_at (memory s) pd va') ∧
    (∀ q, used_page m' q → used_page (memory s) q).
Proof.
  intros Hm Hpd Hva Ht Hv. pose proof (va_index va Hva) as [Hi Hj].
  destruct (pd_table _ _ Hpd _ _ Hi Ht) as [Hu Hne].
  destruct (st32_ok s pt ((va / 4096) mod 1024) v) as (m' & E & Hws); [done..|apply Hv|].
  destruct (pte_update (memory s) m' pd va pt v) as (Hpd' & Htab & Hp); [done..|].
  destruct Hws as [Hm' Hu' _ Hold].
  exists m'. split_and!; [done..| |done|intros va' Hva'; by destruct (Hp va' Hva')|intros q; apply Hu']. split; [intros q; apply Hu'|].
  intros q k Hq Nq Nt Hk. apply Hold; [exact (used_kpage _ _ Hm Hq)|done|]. left. intros ->. by eapply Nt.
Qed.

Lemma lookup_page_create s pd va :
  pa_ok (memory s) → pd_ok (memory s) pd → user_va va →
  ∃ a m', lookup_page pd va true s = Ok (a, set_memory m' s) ∧ pa_ok m' ∧ pd_ok m' pd ∧
    outside (memory s) m' pd ∧
    (∀ va', user_va va' → mapping m' pd va' = mapping (memory s) pd va') ∧
    ((a = NULL ∧ m' = memory s ∧ mapping (memory s) pd va = None) ∨
     ∃ pt, table m' pd (va / 2 ^ 22) pt ∧ a = pt + 4 * ((va / 4096) mod 1024) ∧
       (∀ q, table (memory s) pd (va / 2 ^ 22) q → q = pt) ∧
       (∀ i q, 0 ≤ i < 768 → table m' pd i q → table (memory s) pd i q ∨ ¬ used_page (memory s) q) ∧
       (∀ i q, 0 ≤ i < 768 → table (memory s) pd i q → table m' pd i q) ∧
       (∀ q, used_page m' q → used_page (memory s) q ∨ ∃ i, 0 ≤ i < 768 ∧ table m' pd i q)).
Proof.
  intros Hm Hpd Hva. pose proof (va_index va Hva) as [Hi Hj].
  pose proof (used_kpage _ _ Hm (pd_used _ _ Hpd)) as Hk.
  pose proof (kpage_null pd 0 Hk ltac:(lia)) as Hn. rewrite Z.mul_0_r, Z.add_0_r in Hn.
  unfold lookup_page. rewrite Hn. unfold is_user_vaddr. rewrite (proj2 (Z.ltb_lt va _)) by apply Hva.
  cbn [negb orb]. do 2 erewrite bind_ok by done. rewrite pd_no_div, pt_no_div.
  destruct (pte_addr_ok _ pd va Hm Hpd Hva) as [E|pt Ht Hu Hne].
  - erewrite bind_ok by (by apply ld32_ok). cbn [Z.eqb].
    destruct (get_page_ok (memory s) PAL_ZERO Hm eq_refl) as (a & m1 & Eg & Hm1 & Hc).
    assert (∀ {B} (f : Z → ST vm B), (on_memory (get_page PAL_ZERO) ≫= f) s = f a (set_memory m1 s)) as Hg.
    { intros B f. erewrite bind_ok; [done|]. unfold on_memory. by rewrite Eg. }
    unfold mbind at 1, st_bind at 1. rewrite Hg. destruct Hc as [[-> ->]|(Ha & Hna & Hu1 & Hmem & Hz)].
    { exists NULL, (memory s). split_and!; [by destruct s|done..|left]. split_and!; [done..|].
      unfold mapping, pte_at, pte_addr. by rewrite E. }
    pose proof (kpage_null a 0 Ha ltac:(lia)) as Hn'. rewrite Z.mul_0_r, Z.add_0_r in Hn'. rewrite Hn'.
    rewrite (pde_create_ok a Ha). erewrite bind_ok by done.
    destruct (st32_ok (set_memory m1 s) pd (va / 2 ^ 22) (entry a 7)) as (m2 & Es & Hws);
      [done|apply Hu1; left; apply Hpd|lia|by apply entry_range|].
    destruct (add_table (memory s) m1 m2 pd (va / 2 ^ 22) a) as (Hpd2 & Ht2 & Hmap & _); try done; [by apply Hz|].
    erewrite bind_ok by exact Es. cbv beta iota. cbn [mret st_ret].
    erewrite bind_ok by (apply ld32_ok; apply Hws).
    destruct (entry_pt a 7) as (Ep & _); [done..|]. rewrite Ep. erewrite bind_ok by done.
    exists (a + 4 * ((va / 4096) mod 1024)), m2. split_and!; try done; [apply Hws| |].
    + destruct Hws as [_ Hu2 _ Hold]. split; [intros q Hq; apply Hu2, Hu1; by left|].
      intros q k Hq Nq _ Hkk. assert (q ≠ a) by congruence. pose proof (used_kpage _ q Hm Hq) as Hkq.
      rewrite Hold by (done || by left). rewrite !word_eq by done. by rewrite Hmem.
    + right. exists a. split_and!; try done.
      * intros q Hq. by apply table_nonzero in Hq.
      * intros i q Hi' Hq. destruct (decide (i = va / 2 ^ 22)) as [->|Ni].
        -- right. by rewrite (table_fun _ _ _ _ _ Hq Ht2).
        -- left. destruct Hq as [Hkq Hq]. split; [done|]. destruct Hws as [_ _ _ Hold].
           rewrite Hold in Hq by (done || lia || by right). rewrite !word_eq in * by (done || lia).
           rewrite Hmem in Hq; [done|]. intros ->. by apply Hna, Hpd.
      * intros i q Hi' Hq. assert (i ≠ va / 2 ^ 22) as Ni by (intros ->; by apply table_nonzero in Hq).
        destruct Hq as [Hkq Hq]. split; [done|]. destruct Hws as [_ _ _ Hold].
        rewrite Hold by (done || lia || by right). rewrite !word_eq in * by (done || lia).
        rewrite Hmem; [done|]. intros ->. by apply Hna, Hpd.
      * intros q Hq. apply (ws_used _ _ _ _ _ Hws), Hu1 in Hq as [?| ->]; [by left|right; eauto].
  - pose proof Ht as (Hpt & f & Hf & Hb & E). destruct (entry_pt pt f) as (Ep & Nz & _); [done..|].
    erewrite bind_ok by (by apply ld32_ok). rewrite (proj2 (Z.eqb_neq _ _) Nz).
    erewrite bind_ok by done. cbv beta iota. erewrite bind_ok by (by apply ld32_ok).
    rewrite Ep. erewrite bind_ok by done. exists (pt + 4 * ((va / 4096) mod 1024)), (memory s).
    split_and!; [by destruct s|done..|]. right. exists pt. split_and!; [done|done| |by left|done|by left].
    intros q Hq. by eapply table_fun.
Qed.

End pagedir.

#[global] Arguments vm : clear implicits.
