(* ===== verification/PagedirSpec.v ===== *)
(** * Page directories: the operations of userprog/pagedir.c

    What every operation does to the mapping of a directory, the pages a
    directory owns, and the coherence of the translation lookaside buffer. *)

From S2P Require Import Prelude Vaddr PageIface Palloc Pagedir.

Section pagedir.
Context {M : Type} `{PA : PageAllocator M} `{IG : InitGlobals}.
Implicit Types m : M.

(** ** Mapping pages *)

Lemma mapping_pte m pd va a w :
  pte_addr m pd va = Some a → word m a = Some w → mapping m pd va = if present w then Some w else None.
Proof. intros Ea Ew. unfold mapping, pte_at. rewrite Ea. simpl. by rewrite Ew. Qed.

Lemma user_entry_ok kp (w : bool) : kpage kp → pte_ok (entry kp (if w then 7 else 5)) ∧
  present (entry kp (if w then 7 else 5)) = true.
Proof.
  intros Hk. assert (0 ≤ (if w then 7 else 5) < 4096) as Hf by (by destruct w).
  split; [|rewrite entry_present by done; by destruct w]. split; [by apply entry_range|].
  apply kpage_round in Hk. unfold entry. intros _. dlia.
Qed.

Lemma outside_trans_write m m1 m2 pd :
  outside m m1 pd → outside m1 m2 pd →
  (∀ i q, 0 ≤ i < 768 → table m1 pd i q → table m pd i q ∨ ¬ used_page m q) → outside m m2 pd.
Proof.
  intros [Hu1 Ho1] [Hu2 Ho2] Ht. split; [eauto|]. intros q k Hq Nq Nt Hk.
  rewrite Ho2; [by apply Ho1|by apply Hu1|done| |done].
  intros i Hi Hti. destruct (Ht i q Hi Hti) as [?|?]; [by eapply Nt|done].
Qed.

Lemma set_page_run s pd upage kp w :
  pa_ok (memory s) → pd_ok (memory s) pd → user_va upage → upage mod 4096 = 0 → kpage kp →
  (kp - PHYS_BASE) / 4096 < init_ram_pages → pd ≠ init_page_dir →
  match mapping (memory s) pd upage with
  | Some _ => pagedir_set_page pd upage kp w s = Err AssertFail
  | None =>
      ∃ r m', pagedir_set_page pd upage kp w s = Ok (r, set_memory m' s) ∧
        pa_ok m' ∧ pd_ok m' pd ∧ outside (memory s) m' pd ∧ (r = false → m' = memory s) ∧
        ((∀ i q, 0 ≤ i < 768 → table m' pd i q → table (memory s) pd i q ∨ ¬ used_page (memory s) q) ∧
         (∀ i q, 0 ≤ i < 768 → table (memory s) pd i q → table m' pd i q) ∧
         (∀ q, used_page m' q → used_page (memory s) q ∨ ∃ i, 0 ≤ i < 768 ∧ table m' pd i q)) ∧
        ∀ va, user_va va →
          mapping m' pd va = if decide (r = true ∧ va / 4096 = upage / 4096)
                             then Some (entry kp (if w then 7 else 5)) else mapping (memory s) pd va
  end.
Proof.
  intros Hm Hpd Hva Hal Hkp Hram Hinit. destruct (user_entry_ok kp w Hkp) as [Hpte Hpres].
  destruct (lookup_page_create s pd upage Hm Hpd Hva) as (a & m1 & El & Hm1 & Hpd1 & Ho1 & Hmap & Hc).
  unfold pagedir_set_page. rewrite (pg_ofs_mod upage), Hal, (kpage_ofs kp Hkp).
  unfold is_user_vaddr. rewrite (proj2 (Z.ltb_lt upage _)) by apply Hva.
  do 3 erewrite bind_ok by done. rewrite (vtop_ok kp) by apply Hkp. erewrite bind_ok by done.
  rewrite Z.shiftr_div_pow2 by done. change (2 ^ PTSHIFT) with 4096.
  rewrite (proj2 (Z.ltb_lt _ _) Hram), (proj2 (Z.eqb_neq _ _) Hinit). do 2 erewrite bind_ok by done.
  erewrite bind_ok by exact El. destruct Hc as [(-> & -> & ->)|(pt & Ht & -> & _ & Hnew & Hold & Hused)].
  { exists false, (memory s). split_and!; [by destruct s|done..|by left|done|by left|]. intros va _.
    rewrite decide_False; [done|]. by intros [? _]. }
  pose proof (va_index upage Hva) as [Hi Hj]. destruct (pd_table _ _ Hpd1 _ _ Hi Ht) as [Hupt _].
  destruct (word_ok m1 pt ((upage / 4096) mod 1024)) as (w0 & Ew & _); [done..|].
  rewrite (kpage_null pt) by (apply Ht || lia). cbn [negb]. erewrite bind_ok by (by apply ld32_ok).
  rewrite land_present. rewrite <-(Hmap upage Hva), (mapping_pte m1 pd upage _ w0) by (done || by apply pte_addr_table).
  destruct (present w0); [done|]. erewrite bind_ok by done.
  rewrite (pte_create_user_ok kp w Hkp). erewrite bind_ok by done.
  destruct (write_pte (set_memory m1 s) pd upage pt (entry kp (if w then 7 else 5)))
    as (m2 & Es & Hm2 & Hpd2 & Ho2 & Htab2 & Hpt2 & Hused2); [done..|].
  erewrite bind_ok by exact Es. exists true, m2. split_and!; [done..| |done| | | |].
  { by eapply outside_trans_write. }
  { intros i q Hi' Hq%Htab2; [|done]. by apply Hnew. }
  { intros i q Hi' Hq. by apply Htab2, Hold. }
  { intros q Hq. apply Hused2, Hused in Hq as [?|(i & Hi' & Hq)]; [by left|]. right. exists i. split; [done|]. by apply Htab2. }
  intros va Hva'. unfold mapping at 1. rewrite Hpt2 by done. simpl.
  destruct (decide (va / 4096 = upage / 4096)) as [Eq|Nq].
  - rewrite Hpres, decide_True by done. done.
  - rewrite decide_False by tauto. by rewrite <-Hmap.
Qed.

Lemma get_page_run s pd va :
  pa_ok (memory s) → pd_ok (memory s) pd → user_va va →
  pagedir_get_page pd va s =
  Ok (match mapping (memory s) pd va with
      | Some w => w / 4096 * 4096 + PHYS_BASE + va mod 4096
      | None => NULL
      end, s).
Proof.
  intros Hm Hpd Hva. pose proof (va_index va Hva) as [Hi Hj].
  unfold pagedir_get_page, is_user_vaddr. rewrite (proj2 (Z.ltb_lt va _)) by apply Hva.
  erewrite bind_ok by done. erewrite bind_ok by (by apply lookup_page_false).
  unfold mapping, pte_at. destruct (pte_addr_ok _ pd va Hm Hpd Hva) as [E|pt Ht Hu Hne]; [done|].
  destruct (word_ok _ pt _ Hm Hu Hj) as (w & Ew & Hw). simpl. rewrite Ew.
  rewrite (kpage_null pt) by (apply Ht || lia). erewrite bind_ok by (by apply ld32_ok).
  rewrite land_present, negb_involutive. destruct (present w) eqn:Ep; [|done].
  pose proof (pd_ptes _ _ Hpd _ _ _ _ Hi Hj Ht Ew) as Hok.
  destruct (pte_ok_entry w Hok Ep) as [Hk Ek]. erewrite bind_ok by (by apply ld32_ok).
  unfold pte_get_page. rewrite Ek at 1. rewrite entry_page by (done || dlia).
  erewrite bind_ok by done. rewrite pg_ofs_mod. done.
Qed.

(** ** The translation lookaside buffer *)

Definition active (s : vm M) : Z := cr3 s + PHYS_BASE.

Lemma invalidate_ok s pd :
  0 ≤ cr3 s < 2 ^ 30 → kpage pd →
  invalidate_pagedir pd s = Ok (tt, if active s =? pd then mk_vm (memory s) (cr3 s) ∅ else s).
Proof.
  intros Hc Hk. unfold invalidate_pagedir, active_pd. rewrite bind_ok with (a := active s) (s' := s).
  - destruct (Z.eqb_spec (active s) pd) as [Ea|]; [|done]. unfold pagedir_activate.
    pose proof (kpage_null pd 0 Hk ltac:(lia)) as Hn. rewrite Z.mul_0_r, Z.add_0_r in Hn. rewrite Hn.
    rewrite (vtop_ok pd) by apply Hk. erewrite bind_ok by done.
    replace (pd - PHYS_BASE) with (cr3 s); [done|]. unfold active in Ea. lia.
  - erewrite bind_ok by apply get_ok. by rewrite ptov_ok.
Qed.

(** The cached entry [t] may be used in place of the entry [w] in memory: it is
    present, and it differs at most in accessed and dirty bits that have been
    set in memory since. *)
Definition cached_ok (t w : Z) : Prop :=
  present t = true ∧
  ∀ n, 0 ≤ n → if (n =? 5) || (n =? 6) then Z.testbit t n = true → Z.testbit w n = true
               else Z.testbit t n = Z.testbit w n.

Definition tlb_ok (s : vm M) : Prop :=
  ∀ va t, user_va va → tlb s !! (va / 4096) = Some t →
    ∃ w, pte_at (memory s) (active s) va = Some w ∧ cached_ok t w.

(** ** Changing entries *)

(** What the code does to the page-table entry of an address, where there is one. *)
Definition entry_changed (s s' : vm M) (pd va : Z) (f : Z → Z) : Prop :=
  pa_ok (memory s') ∧ pd_ok (memory s') pd ∧ outside (memory s) (memory s') pd ∧ cr3 s' = cr3 s ∧
  ∀ va', user_va va' → pte_at (memory s') pd va' =
    if decide (va' / 4096 = va / 4096) then f <$> pte_at (memory s) pd va else pte_at (memory s) pd va'.

Lemma pte_at_page m pd va va' :
  va / 4096 = va' / 4096 → pte_at m pd va = pte_at m pd va'.
Proof. intros E. unfold pte_at, pte_addr. by rewrite (same_page_dir _ _ E), E. Qed.

Lemma below_bits w k : 0 ≤ k → 0 ≤ w → (w < 2 ^ k ↔ ∀ n, k ≤ n → Z.testbit w n = false).
Proof. intros Hk Hw. by rewrite <-Z.bounded_iff_bits_nonneg by lia. Qed.

Lemma clear_mask w n :
  0 ≤ w < 2 ^ 32 → 0 ≤ n < 32 → Z.land w (u32 (Z.lnot (2 ^ n))) = Z.clearbit w n.
Proof.
  intros [Hw0 Hw] Hn. rewrite below_bits in Hw by lia. apply Z.bits_inj'. intros k Hk.
  rewrite Z.land_spec, Z.clearbit_eqb. unfold u32. destruct (decide (k < 32)).
  - rewrite Z.mod_pow2_bits_low, Z.lnot_spec, Z.pow2_bits_eqb by lia. done.
  - by rewrite Hw by lia.
Qed.

Lemma setbit_lor w n : 0 ≤ n → Z.lor w (2 ^ n) = Z.setbit w n.
Proof. intros Hn. unfold Z.setbit. by rewrite Z.shiftl_1_l. Qed.

Lemma pte_ok_clear w n : pte_ok w → 0 ≤ n → pte_ok (Z.clearbit w n).
Proof.
  intros [[H0 Hw] Hp] Hn. assert (0 ≤ Z.clearbit w n) as H0'.
  { unfold Z.clearbit. apply Z.ldiff_nonneg. by left. }
  assert (∀ k, 0 ≤ k → w < 2 ^ k → Z.clearbit w n < 2 ^ k) as Hb.
  { intros k Hk Hlt. rewrite below_bits in * by done. intros i Hi. by rewrite Z.clearbit_eqb, Hlt. }
  split; [split; [done|by apply Hb]|]. unfold present. rewrite Z.clearbit_eqb by done.
  intros [E _]%andb_true_iff. by apply Hb, Hp.
Qed.

Lemma pte_ok_set w n : pte_ok w → 0 < n < 12 → pte_ok (Z.setbit w n).
Proof.
  intros [[H0 Hw] Hp] Hn. assert (0 ≤ Z.setbit w n) as H0'.
  { unfold Z.setbit. apply Z.lor_nonneg. split; [done|]. apply Z.shiftl_nonneg. lia. }
  assert (∀ k, 12 ≤ k → w < 2 ^ k → Z.setbit w n < 2 ^ k) as Hb.
  { intros k Hk Hlt. rewrite below_bits in * by lia. intros i Hi. rewrite Z.setbit_eqb, Hlt by lia.
    rewrite orb_false_r. apply Z.eqb_neq. lia. }
  split; [split; [done|by apply Hb]|]. unfold present. rewrite Z.setbit_eqb by lia.
  rewrite (proj2 (Z.eqb_neq n 0)) by lia. intros E. by apply Hb, Hp.
Qed.

(** The entry of [va] is rewritten by [f] and, with [flush], the buffer is
    emptied when the directory is active. *)
Lemma rewrite_entry s pd va pt w v (flush : bool) :
  pa_ok (memory s) → pd_ok (memory s) pd → user_va va → 0 ≤ cr3 s < 2 ^ 30 →
  table (memory s) pd (va / 2 ^ 22) pt → word (memory s) (pt + 4 * ((va / 4096) mod 1024)) = Some w → pte_ok v →
  ∃ s', (st32 (pt + 4 * ((va / 4096) mod 1024)) v;; if flush then invalidate_pagedir pd else mret tt) s = Ok (tt, s') ∧
    entry_changed s s' pd va (λ _, v) ∧
    tlb s' = if flush && (active s =? pd) then ∅ else tlb s.
Proof.
  intros Hm Hpd Hva Hc Ht Ew Hv.
  destruct (write_pte s pd va pt v) as (m' & Es & Hm' & Hpd' & Ho & _ & Hp & _); [done..|].
  pose proof (used_kpage _ _ Hm (pd_used _ _ Hpd)) as Hk.
  assert (pte_at (memory s) pd va = Some w) as Eat.
  { rewrite (pte_at_Some _ _ _ _ (pte_addr_table _ _ _ _ Ht)). done. }
  assert (∀ s', memory s' = m' → cr3 s' = cr3 s → entry_changed s s' pd va (λ _, v)) as Hec.
  { intros s' Em Ec. unfold entry_changed. rewrite Em, Eat. split_and!; done. }
  erewrite bind_ok by exact Es. destruct flush.
  - rewrite invalidate_ok by done. unfold active. simpl.
    destruct (_ =? pd); eexists; (split; [done|]); (split; [|done]); by apply Hec.
  - eexists. split; [done|]. split; [|done]. by apply Hec.
Qed.

Lemma entry_changed_ext s s' pd va f g w :
  user_va va → pte_at (memory s) pd va = Some w → f w = g w →
  entry_changed s s' pd va f → entry_changed s s' pd va g.
Proof.
  intros Hva Ew Efg (H1 & H2 & H3 & H4 & H5). split_and!; try done. intros va' Hva'.
  rewrite H5, Ew by done. simpl. by rewrite Efg.
Qed.

Lemma entry_unchanged s pd va f :
  pa_ok (memory s) → pd_ok (memory s) pd → f <$> pte_at (memory s) pd va = pte_at (memory s) pd va →
  entry_changed s s pd va f.
Proof.
  intros Hm Hpd Hf. split_and!; try done. intros va' Hva'. rewrite Hf.
  destruct (decide (va' / 4096 = va / 4096)) as [E|]; [|done]. by apply pte_at_page.
Qed.

Lemma clear_page_run s pd upage :
  pa_ok (memory s) → pd_ok (memory s) pd → user_va upage → upage mod 4096 = 0 → 0 ≤ cr3 s < 2 ^ 30 →
  ∃ s', pagedir_clear_page pd upage s = Ok (tt, s') ∧
    entry_changed s s' pd upage (λ w, Z.clearbit w 0) ∧
    tlb s' = (if bool_decide (is_Some (mapping (memory s) pd upage)) && (active s =? pd) then ∅ else tlb s).
Proof.
  intros Hm Hpd Hva Hal Hc. pose proof (va_index upage Hva) as [Hi Hj].
  unfold pagedir_clear_page, is_user_vaddr. rewrite (pg_ofs_mod upage), Hal, (proj2 (Z.ltb_lt upage _)) by apply Hva.
  do 2 erewrite bind_ok by done. erewrite bind_ok by (by apply lookup_page_false).
  pose proof (pte_addr_ok _ pd upage Hm Hpd Hva) as Hcase. unfold mapping.
  assert (∀ f, pte_at (memory s) pd upage = None → entry_changed s s pd upage f) as Hnone
    by (intros f En; apply entry_unchanged; [done|done|by rewrite En]).
  unfold pte_at in *. destruct (pte_addr (memory s) pd upage) as [a|] eqn:Ea; inversion Hcase as [E|pt Ht Hu Hne]; subst.
  2: { exists s. split_and!; [done|by apply Hnone|done]. }
  destruct (word_ok _ pt _ Hm Hu Hj) as (w & Ew & Hw). simpl in *. rewrite Ew in *.
  rewrite (kpage_null pt) by (apply Ht || lia). erewrite bind_ok by (by apply ld32_ok).
  rewrite land_present, negb_involutive. change PTE_P with (2 ^ 0).
  assert (pte_at (memory s) pd upage = Some w) as Eat by (unfold pte_at; rewrite Ea; exact Ew).
  destruct (present w) eqn:Ep; simpl.
  - rewrite clear_mask by lia. pose proof (pd_ptes _ _ Hpd _ _ _ _ Hi Hj Ht Ew) as Hok.
    destruct (rewrite_entry s pd upage pt w (Z.clearbit w 0) true) as (s' & Es & He & Htl); [done..|by apply pte_ok_clear|].
    exists s'. split_and!; [exact Es| |exact Htl]. by eapply entry_changed_ext, He.
  - exists s. split_and!; [done| |done]. apply entry_unchanged; [done..|]. rewrite Eat. simpl. f_equal.
    apply Z.bits_inj'. intros n Hn. rewrite Z.clearbit_eqb by done. unfold present in Ep.
    destruct (Z.eqb_spec 0 n) as [<-|]; [by rewrite Ep|]. by rewrite andb_true_r.
Qed.

Lemma land_bit w n : 0 ≤ n → negb (Z.land w (2 ^ n) =? 0) = Z.testbit w n.
Proof.
  intros Hn. destruct (Z.testbit w n) eqn:E.
  - apply negb_true_iff, Z.eqb_neq. intros H0. assert (Z.testbit (Z.land w (2 ^ n)) n = false) as Hf
      by (by rewrite H0, Z.bits_0). rewrite Z.land_spec, E, Z.pow2_bits_true in Hf by done. done.
  - apply negb_false_iff, Z.eqb_eq, Z.bits_inj'. intros k Hk. rewrite Z.land_spec, Z.bits_0, Z.pow2_bits_eqb by done.
    destruct (Z.eqb_spec n k) as [<-|]; [by rewrite E|]. by rewrite andb_false_r.
Qed.

Lemma is_bit_run s pd va n :
  pa_ok (memory s) → pd_ok (memory s) pd → user_va va → 0 ≤ n →
  is_bit (2 ^ n) pd va s =
  Ok (match pte_at (memory s) pd va with Some w => Z.testbit w n | None => false end, s).
Proof.
  intros Hm Hpd Hva Hn. pose proof (va_index va Hva) as [Hi Hj].
  unfold is_bit. erewrite bind_ok by (by apply lookup_page_false). unfold pte_at.
  destruct (pte_addr_ok _ pd va Hm Hpd Hva) as [E|pt Ht Hu Hne]; [done|].
  destruct (word_ok _ pt _ Hm Hu Hj) as (w & Ew & Hw). simpl. rewrite Ew.
  rewrite (kpage_null pt) by (apply Ht || lia). erewrite bind_ok by (by apply ld32_ok).
  by rewrite land_bit.
Qed.

Lemma set_bit_run s pd va n v :
  pa_ok (memory s) → pd_ok (memory s) pd → user_va va → 0 ≤ cr3 s < 2 ^ 30 → 0 < n < 12 →
  ∃ s', set_bit (2 ^ n) pd va v s = Ok (tt, s') ∧
    entry_changed s s' pd va (λ w, if v then Z.setbit w n else Z.clearbit w n) ∧
    tlb s' = (if negb v && bool_decide (is_Some (pte_at (memory s) pd va)) && (active s =? pd) then ∅ else tlb s).
Proof.
  intros Hm Hpd Hva Hc Hn. pose proof (va_index va Hva) as [Hi Hj].
  unfold set_bit. erewrite bind_ok by (by apply lookup_page_false).
  pose proof (pte_addr_ok _ pd va Hm Hpd Hva) as Hcase.
  destruct (pte_addr (memory s) pd va) as [a|] eqn:Ea; inversion Hcase as [E|pt Ht Hu Hne]; subst.
  2: { assert (pte_at (memory s) pd va = None) as -> by (unfold pte_at; by rewrite Ea).
       exists s. split_and!; [done| |by destruct v].
       apply entry_unchanged; [done..|]. unfold pte_at. by rewrite Ea. }
  destruct (word_ok _ pt _ Hm Hu Hj) as (w & Ew & Hw). simpl.
  rewrite (pte_at_Some _ _ _ _ Ea), Ew. rewrite (kpage_null pt) by (apply Ht || lia).
  erewrite bind_ok by (by apply ld32_ok). rewrite setbit_lor, clear_mask by lia.
  pose proof (pd_ptes _ _ Hpd _ _ _ _ Hi Hj Ht Ew) as Hok.
  destruct (rewrite_entry s pd va pt w (if v then Z.setbit w n else Z.clearbit w n) (negb v)) as (s' & Es & He & Htl);
    [done..|destruct v; [by apply pte_ok_set|apply pte_ok_clear; [done|lia]]|].
  assert (pte_at (memory s) pd va = Some w) as Eat by (by rewrite (pte_at_Some _ _ _ _ Ea)).
  exists s'. split_and!.
  - destruct v; [|exact Es]. unfold mbind, st_bind in Es. destruct (st32 _ _ s) as [[[] s1]|]; [|done]. exact Es.
  - by eapply entry_changed_ext, He.
  - rewrite Htl. by destruct v.
Qed.

(** ** Coherence of the buffer *)

Lemma active_eq s s' : cr3 s' = cr3 s → active s' = active s.
Proof. unfold active. by intros ->. Qed.

(** A change of entries of the active directory keeps the buffer usable when
    the entries that it caches stay usable. *)
Lemma tlb_ok_change s s' :
  tlb_ok s → cr3 s' = cr3 s → tlb s' = tlb s →
  (∀ va w t, user_va va → pte_at (memory s) (active s) va = Some w → cached_ok t w →
     ∃ w', pte_at (memory s') (active s) va = Some w' ∧ cached_ok t w') →
  tlb_ok s'.
Proof.
  intros Ht Ec Etl Hw va t Hva Hl. rewrite Etl in Hl. destruct (Ht va t Hva Hl) as (w & Ew & Hcw).
  unfold active in *. rewrite Ec. by eapply Hw.
Qed.

Lemma tlb_ok_empty s : tlb s = ∅ → tlb_ok s.
Proof. intros E va t _ Hl. rewrite E in Hl. by rewrite lookup_empty in Hl. Qed.

(** A directory other than the active one can be changed without flushing. *)
Lemma tlb_ok_separate s s' pd :
  pa_ok (memory s) → tlb_ok s → cr3 s' = cr3 s → tlb s' = tlb s → outside (memory s) (memory s') pd →
  separate (memory s) pd (active s) → pd_ok (memory s) (active s) → tlb_ok s'.
Proof.
  intros Hm Ht Ec Etl Ho Hs Hpd. eapply tlb_ok_change; [done..|]. intros va w t Hva Ew Hcw.
  destruct (separate_frame _ _ _ _ Hm Ho Hs Hpd) as [_ Hp]. exists w. by rewrite Hp.
Qed.

Lemma cached_setbit t w n : n = 5 ∨ n = 6 → cached_ok t w → cached_ok t (Z.setbit w n).
Proof.
  intros Hn [Hp Hb]. split; [done|]. intros k Hk. specialize (Hb k Hk). rewrite Z.setbit_eqb by lia.
  destruct (Z.eqb_spec n k) as [<-|].
  - rewrite orb_true_l. destruct Hn as [->| ->]; done.
  - by rewrite orb_false_l.
Qed.

(** ** Destroying a directory *)

(** [m'] is [m] with the pages of the set [F] freed. *)
Definition freed (m m' : M) (F : Z → Prop) : Prop :=
  pa_ok m' ∧ (∀ b, used_page m' b ↔ used_page m b ∧ ¬ F b) ∧ ∀ b, ¬ F b → mem m' !! b = mem m !! b.

Lemma freed_refl m (F : Z → Prop) : pa_ok m → (∀ b, ¬ F b) → freed m m F.
Proof. intros Hm HF. split_and!; [done| |done]. intros b. specialize (HF b). tauto. Qed.

Lemma freed_trans m m1 m2 (F G X : Z → Prop) :
  freed m m1 F → freed m1 m2 G → (∀ b, X b ↔ F b ∨ G b) → freed m m2 X.
Proof.
  intros (_ & Hu1 & Hm1) (Hp2 & Hu2 & Hm2) HX. split_and!; [done| |].
  - intros b. rewrite Hu2, Hu1, HX. tauto.
  - intros b Hb. rewrite HX in Hb. rewrite Hm2, Hm1 by tauto. done.
Qed.

Lemma freed_ext m m' (F G : Z → Prop) : freed m m' F → (∀ b, G b ↔ F b) → freed m m' G.
Proof.
  intros (Hp & Hu & Hm) HG. split_and!; [done| |].
  - intros b. by rewrite Hu, HG.
  - intros b Hb. rewrite HG in Hb. by apply Hm.
Qed.

Lemma free_page_run s a :
  pa_ok (memory s) → used_page (memory s) a →
  ∃ m', on_memory (free_page a) s = Ok (tt, set_memory m' s) ∧ freed (memory s) m' (λ b, b = a).
Proof.
  intros Hm Hu. destruct (free_page_ok _ a Hm Hu) as (m' & E & Hm' & Hu' & Hmem).
  exists m'. unfold on_memory. rewrite E. split; [done|]. by split_and!.
Qed.

Lemma freed_word m m' (F : Z → Prop) p k :
  freed m m' F → kpage p → ¬ F p → 0 ≤ k < 1024 → word m' (p + 4 * k) = word m (p + 4 * k).
Proof. intros (_ & _ & Hmem) Hp Np Hk. rewrite !word_eq by done. by rewrite Hmem. Qed.

(** Entry [j] of the table [pt] maps the page [b]. *)
Definition mapped (m : M) (pt j b : Z) : Prop :=
  ∃ w, word m (pt + 4 * j) = Some w ∧ present w = true ∧ b = w / 4096 * 4096 + PHYS_BASE.

Lemma destroy_table_run s pt :
  pa_ok (memory s) → used_page (memory s) pt →
  (∀ j w, 0 ≤ j < 1024 → word (memory s) (pt + 4 * j) = Some w → pte_ok w) →
  (∀ j b, 0 ≤ j < 1024 → mapped (memory s) pt j b → used_page (memory s) b ∧ b ≠ pt) →
  (∀ j k b, 0 ≤ j < 1024 → 0 ≤ k < 1024 → mapped (memory s) pt j b → mapped (memory s) pt k b → j = k) →
  ∃ m', destroy_table pt s = Ok (tt, set_memory m' s) ∧
    freed (memory s) m' (λ b, ∃ j, 0 ≤ j < 1024 ∧ mapped (memory s) pt j b).
Proof.
  intros Hm Hu Hok Hpg Hinj. set (m0 := memory s) in *. pose proof (used_kpage _ _ Hm Hu) as Hk.
  set (F j b := ∃ k, 0 ≤ k < j ∧ mapped m0 pt k b).
  unfold destroy_table.
  destruct (loopM_rule (λ n j s1, Z.of_nat n = 1024 - j ∧ 0 ≤ j ≤ 1024 ∧
      ∃ m1, s1 = set_memory m1 s ∧ freed m0 m1 (F j))
    (λ _ s1, ∃ m1, s1 = set_memory m1 s ∧ freed m0 m1 (F 1024))
    (λ j, if j <? 1024 then
      pte ← ld32 (pt + 4 * j);
      (if negb (Z.land pte PTE_P =? 0) then
         page ← lift (pte_get_page pte); on_memory (free_page page)
       else mret tt);;
      mret (inl (j + 1))
    else mret (inr tt))) with (fuel := 1025%nat) (n := 1024%nat) (l := 0) (s := s)
    as ([] & s' & E & m' & -> & Hf).
  - intros n j s1 (Hn & Hj & m1 & -> & Hf). destruct (Z.ltb_spec j 1024); cycle 1.
    { exists (inr tt), (set_memory m1 s). split; [done|]. exists m1. split; [done|].
      by replace 1024 with j by lia. }
    assert (∀ b, F (j + 1) b ↔ F j b ∨ mapped m0 pt j b) as HF.
    { intros b. split.
      - intros (k & Hk' & Hb). destruct (decide (k = j)) as [->|]; [by right|left]. exists k. split; [lia|done].
      - intros [(k & Hk' & Hb)|Hb]; [exists k; split; [lia|done]|exists j; split; [lia|done]]. }
    assert (¬ F j pt) as Npt by (intros (k & Hk' & Hb); destruct (Hpg k pt); [lia|done|done]).
    destruct (word_ok m0 pt j Hm Hu) as (w & Ew & Hw); [lia|].
    erewrite bind_ok by (apply ld32_ok; simpl; rewrite (freed_word _ _ _ _ _ Hf) by (done || lia); exact Ew).
    rewrite land_present, negb_involutive. destruct (present w) eqn:Ep.
    + set (b := w / 4096 * 4096 + PHYS_BASE). assert (mapped m0 pt j b) as Hb by (by exists w).
      destruct (Hpg j b) as [Hub Nb]; [lia|done|].
      destruct (pte_ok_entry w) as [Hkb Ekb]; [by apply (Hok j); [lia|]|done|]. fold b in Hkb, Ekb.
      destruct (free_page_run (set_memory m1 s) b) as (m2 & E2 & Hf2); [apply Hf| |].
      { apply Hf. split; [done|]. intros (k & Hk' & Hb'). assert (k = j) by (eapply Hinj; [lia|lia|done|done]). lia. }
      rewrite bind_ok with (a := tt) (s' := set_memory m2 s).
      * exists (inl (j + 1)), (set_memory m2 s). split; [done|]. exists (Nat.pred n). split; [lia|].
        split_and!; [lia..|]. exists m2. split; [done|]. eapply freed_trans; [done..|].
        intros b'. rewrite HF. f_equiv. split; [intros (w' & Ew' & _ & ->)|intros ->; done].
        rewrite Ew in Ew'. by injection Ew' as <-.
      * unfold pte_get_page. rewrite Ekb at 1. rewrite entry_page by (done || dlia). by erewrite bind_ok by done.
    + erewrite bind_ok by done. exists (inl (j + 1)), (set_memory m1 s). split; [done|].
      exists (Nat.pred n). split; [lia|]. split_and!; [lia..|]. exists m1. split; [done|].
      eapply freed_ext; [done|]. intros b. rewrite HF. split; [|by left].
      intros [?|(w' & Ew' & Ep' & _)]; [done|]. rewrite Ew in Ew'. injection Ew' as <-. congruence.
  - split_and!; [done|lia|lia|]. exists m0. split; [by destruct s|]. apply freed_refl; [done|].
    intros b (k & Hk' & _). lia.
  - lia.
  - exists m'. split; [exact E|]. done.
Qed.

Definition page_of (w : Z) : Z := w / 4096 * 4096 + PHYS_BASE.

(** The mapped pages are pages of the allocator that nothing else in the
    directory uses. *)
Record pages_ok (m : M) (pd : Z) : Prop := {
  pg_use va w : user_va va → mapping m pd va = Some w →
    used_page m (page_of w) ∧ page_of w ≠ pd ∧ ∀ i, 0 ≤ i < 768 → ¬ table m pd i (page_of w);
  pg_one va va' w w' : user_va va → user_va va' → mapping m pd va = Some w → mapping m pd va' = Some w' →
    page_of w = page_of w' → va / 4096 = va' / 4096
}.

Lemma va_of i j :
  0 ≤ i < 768 → 0 ≤ j < 1024 → let va := i * 2 ^ 22 + j * 4096 in
  user_va va ∧ va / 2 ^ 22 = i ∧ (va / 4096) mod 1024 = j ∧ va / 4096 = i * 1024 + j.
Proof. intros Hi Hj va. unfold user_va, va, PHYS_BASE. split_and!; dlia. Qed.

Lemma mapped_mapping m pd i j pt b :
  0 ≤ i < 768 → 0 ≤ j < 1024 → table m pd i pt → mapped m pt j b →
  ∃ w, mapping m pd (i * 2 ^ 22 + j * 4096) = Some w ∧ b = page_of w.
Proof.
  intros Hi Hj Ht (w & Ew & Ep & ->). destruct (va_of i j Hi Hj) as (_ & Ei & Ej & _).
  exists w. split; [|done]. rewrite <-Ei in Ht. rewrite <-Ej in Ew.
  erewrite mapping_pte; [|by apply pte_addr_table|exact Ew]. by rewrite Ep.
Qed.

Lemma pg_used m pd i j pt b :
  pages_ok m pd → 0 ≤ i < 768 → 0 ≤ j < 1024 → table m pd i pt → mapped m pt j b →
  used_page m b ∧ b ≠ pd ∧ ∀ i', 0 ≤ i' < 768 → ¬ table m pd i' b.
Proof.
  intros Hpg Hi Hj Ht Hb. destruct (mapped_mapping m pd i j pt b) as (w & Ew & ->); [done..|].
  eapply pg_use; [done| |done]. by apply va_of.
Qed.

Lemma pg_inj m pd i j pt i' j' pt' b :
  pages_ok m pd → 0 ≤ i < 768 → 0 ≤ j < 1024 → 0 ≤ i' < 768 → 0 ≤ j' < 1024 →
  table m pd i pt → table m pd i' pt' → mapped m pt j b → mapped m pt' j' b → i = i' ∧ j = j'.
Proof.
  intros Hpg Hi Hj Hi' Hj' Ht Ht' Hb Hb'.
  destruct (mapped_mapping m pd i j pt b) as (w & Ew & Ep); [done..|].
  destruct (mapped_mapping m pd i' j' pt' b) as (w' & Ew' & Ep'); [done..|].
  destruct (va_of i j Hi Hj) as (Hva & _ & _ & E1), (va_of i' j' Hi' Hj') as (Hva' & _ & _ & E2).
  assert (i * 1024 + j = i' * 1024 + j'); [|lia]. rewrite <-E1, <-E2.
  eapply (pg_one _ _ Hpg); [done|done|exact Ew|exact Ew'|congruence].
Qed.

(** The page tables and mapped pages of the first [n] directory entries. *)
Definition owned (m : M) (pd n b : Z) : Prop :=
  ∃ i pt, 0 ≤ i < n ∧ table m pd i pt ∧ (b = pt ∨ ∃ j, 0 ≤ j < 1024 ∧ mapped m pt j b).

Lemma owned_split m pd i b :
  0 ≤ i → owned m pd (i + 1) b ↔
  owned m pd i b ∨ ∃ pt, table m pd i pt ∧ (b = pt ∨ ∃ j, 0 ≤ j < 1024 ∧ mapped m pt j b).
Proof.
  intros Hi. split.
  - intros (k & pt & Hk & Ht & Hb). destruct (decide (k = i)) as [->|]; [right; eauto|].
    left. exists k, pt. split_and!; [lia..|done|done].
  - intros [(k & pt & Hk & Ht & Hb)|(pt & Ht & Hb)]; [exists k, pt|exists i, pt]; split_and!; done || lia.
Qed.

(** The directory page, and the tables and mapped pages of the other entries,
    are still in use when the first [i] entries have been freed. *)
Lemma not_owned m pd i :
  pa_ok m → pd_ok m pd → pages_ok m pd → 0 ≤ i < 768 →
  ¬ owned m pd i pd ∧
  (∀ pt, table m pd i pt → ¬ owned m pd i pt) ∧
  (∀ pt j b, 0 ≤ j < 1024 → table m pd i pt → mapped m pt j b → ¬ owned m pd i b).
Proof.
  intros Hm Hpd Hpg Hi. split_and!.
  - intros (k & pt & Hk & Ht & [->|(j & Hj & Hb)]).
    + destruct (pd_table _ _ Hpd k pt) as [_ ?]; [lia|done..].
    + destruct (pg_used _ _ k j pt pd Hpg) as (_ & ? & _); [lia|done..].
  - intros pt Ht (k & pt' & Hk & Ht' & [->|(j & Hj & Hb)]).
    + assert (k = i) by (eapply (pd_inj _ _ Hpd); [lia|lia|done|done]). lia.
    + destruct (pg_used _ _ k j pt' pt Hpg) as (_ & _ & Hn); [lia|done..|]. by eapply (Hn i).
  - intros pt j b Hj Ht Hb (k & pt' & Hk & Ht' & [->|(j' & Hj' & Hb')]).
    + destruct (pg_used _ _ i j pt pt' Hpg) as (_ & _ & Hn); [done..|]. eapply (Hn k); [lia|done].
    + destruct (pg_inj _ _ i j pt k j' pt' b Hpg) as [-> _]; try done; lia.
Qed.

Lemma destroy_step s pd i m1 :
  pa_ok (memory s) → pd_ok (memory s) pd → pages_ok (memory s) pd → 0 ≤ i < 768 →
  freed (memory s) m1 (owned (memory s) pd i) →
  ∃ m2, destroy_body pd i (set_memory m1 s) = Ok (inl (i + 1), set_memory m2 s) ∧
    freed (memory s) m2 (owned (memory s) pd (i + 1)).
Proof.
  intros Hm Hpd Hpg Hi Hf. set (m0 := memory s) in *.
  destruct (not_owned m0 pd i Hm Hpd Hpg Hi) as (Npd & Ntab & Nmap).
  pose proof (used_kpage _ _ Hm (pd_used _ _ Hpd)) as Hkpd.
  unfold destroy_body. rewrite (proj2 (Z.ltb_lt i _)) by (change (pd_no PHYS_BASE) with 768; lia).
  assert (word m1 (pd + 4 * i) = word m0 (pd + 4 * i)) as Epd by (apply (freed_word _ _ _ _ _ Hf); [done..|lia]).
  destruct (pd_entry _ _ Hpd i Hi) as [E|(pt & Ht)].
  { erewrite bind_ok by (apply ld32_ok; simpl; by rewrite Epd). exists m1. split; [done|].
    eapply freed_ext; [done|]. intros b. rewrite owned_split by lia. split; [|by left].
    intros [?|(pt & Ht & _)]; [done|]. by apply table_nonzero in Ht. }
  pose proof (pd_table _ _ Hpd i pt Hi Ht) as [Hupt _].
  pose proof Ht as (Hkpt & f & Hff & Hb & E). destruct (entry_pt pt f) as (Ep & _); [done..|].
  assert (∀ j, 0 ≤ j < 1024 → word m1 (pt + 4 * j) = word m0 (pt + 4 * j)) as Ept.
  { intros j Hj. apply (freed_word _ _ _ _ _ Hf); [done|by apply Ntab|done]. }
  assert (∀ j b, 0 ≤ j < 1024 → mapped m1 pt j b ↔ mapped m0 pt j b) as Hmap
    by (intros j b Hj; unfold mapped; by rewrite Ept).
  erewrite bind_ok by (apply ld32_ok; simpl; by rewrite Epd).
  rewrite land_present, negb_involutive, entry_present, Hb by done. rewrite Ep.
  destruct (destroy_table_run (set_memory m1 s) pt) as (m2 & E2 & Hf2); simpl.
  - apply Hf.
  - apply Hf. split; [done|by apply Ntab].
  - intros j w Hj. rewrite Ept by done. by apply (pd_ptes _ _ Hpd i pt).
  - intros j b Hj Hbm%Hmap; [|done]. destruct (pg_used _ _ i j pt b Hpg) as (Hub & _ & Hn); [done..|].
    split; [apply Hf; split; [done|by eapply Nmap]|]. intros ->. by eapply Hn.
  - intros j k b Hj Hk Hj' Hk'. rewrite Hmap in Hj', Hk' by done.
    by destruct (pg_inj _ _ i j pt i k pt b Hpg).
  - simpl in Hf2. assert (freed m0 m2 (λ b, owned m0 pd i b ∨ ∃ j, 0 ≤ j < 1024 ∧ mapped m0 pt j b)) as Hf3.
    { eapply freed_trans; [exact Hf|exact Hf2|]. intros b. f_equiv. f_equiv. intros j.
      split; intros [Hj Hbm]; (split; [done|by apply Hmap]). }
    destruct (free_page_run (set_memory m2 s) pt) as (m3 & E3 & Hf4); simpl; [apply Hf3| |].
    { apply Hf3. split; [done|]. intros [?|(j & Hj & Hbm)]; [by eapply Ntab|].
      destruct (pg_used _ _ i j pt pt Hpg) as (_ & _ & Hn); [done..|]. by eapply Hn. }
    rewrite bind_ok with (a := tt) (s' := set_memory m3 s).
    + exists m3. split; [done|]. eapply freed_trans; [exact Hf3|exact Hf4|]. intros b.
      rewrite owned_split by lia. split.
      * intros [?|(pt' & Ht' & Hb')]; [tauto|]. rewrite (table_fun _ _ _ _ _ Ht' Ht) in Hb'. tauto.
      * intros [[?|?]| ->]; [by left|right; eauto..].
    + erewrite bind_ok by done. erewrite bind_ok by exact E2. exact E3.
Qed.

Lemma pagedir_destroy_run s pd :
  pa_ok (memory s) → pd_ok (memory s) pd → pages_ok (memory s) pd → pd ≠ init_page_dir →
  ∃ m', pagedir_destroy pd s = Ok (tt, set_memory m' s) ∧
    freed (memory s) m' (λ b, b = pd ∨ owned (memory s) pd 768 b).
Proof.
  intros Hm Hpd Hpg Hinit. set (m0 := memory s). pose proof (used_kpage _ _ Hm (pd_used _ _ Hpd)) as Hkpd.
  pose proof (kpage_null pd 0 Hkpd ltac:(lia)) as Hn. rewrite Z.mul_0_r, Z.add_0_r in Hn.
  destruct (loopM_rule (λ n i s1, Z.of_nat n = 768 - i ∧ 0 ≤ i ≤ 768 ∧
      ∃ m1, s1 = set_memory m1 s ∧ freed m0 m1 (owned m0 pd i))
    (λ _ s1, ∃ m1, s1 = set_memory m1 s ∧ freed m0 m1 (owned m0 pd 768))
    (destroy_body pd)) with (fuel := 1025%nat) (n := 768%nat) (l := 0) (s := s)
    as ([] & s' & E & m' & -> & Hf).
  - intros n i s1 (Hn' & Hi & m1 & -> & Hf). destruct (decide (i = 768)) as [->|Ni].
    { exists (inr tt), (set_memory m1 s). split; [done|]. by exists m1. }
    destruct (destroy_step s pd i m1) as (m2 & E2 & Hf2); [done..|lia|done|].
    exists (inl (i + 1)), (set_memory m2 s). split; [done|]. exists (Nat.pred n). split; [lia|].
    split_and!; [lia..|]. by exists m2.
  - split_and!; [done|lia|lia|]. exists m0. split; [by destruct s|]. apply freed_refl; [done|].
    intros b (k & pt & Hk & _). lia.
  - lia.
  - assert (used_page m' pd) as Hu'.
    { apply Hf. split; [apply Hpd|]. intros (k & pt & Hk & Ht & [->|(j & Hj & Hb)]).
      - by destruct (pd_table _ _ Hpd k pt) as [_ ?].
      - by destruct (pg_used _ _ k j pt pd Hpg) as (_ & ? & _). }
    destruct (free_page_run (set_memory m' s) pd) as (m2 & E2 & Hf2); [apply Hf|done|].
    exists m2. split.
    + unfold pagedir_destroy. rewrite Hn, (proj2 (Z.eqb_neq _ _) Hinit). erewrite bind_ok by done.
      erewrite bind_ok by exact E. exact E2.
    + eapply freed_trans; [exact Hf|exact Hf2|]. intros b. tauto.
Qed.

(** Mapping a page that the directory does not use yet keeps its pages
    separate. *)
Lemma set_page_pages_ok m m' pd upage kp e (r : bool) :
  pages_ok m pd → kpage kp → (r = true → used_page m kp) → kp ≠ pd →
  (∀ i, 0 ≤ i < 768 → ¬ table m pd i kp) → (∀ va w, user_va va → mapping m pd va = Some w → page_of w ≠ kp) →
  page_of e = kp → (∀ q, used_page m q → used_page m' q) →
  (∀ i q, 0 ≤ i < 768 → table m' pd i q → table m pd i q ∨ ¬ used_page m q) →
  (∀ va, user_va va →
     mapping m' pd va = if decide (r = true ∧ va / 4096 = upage / 4096) then Some e else mapping m pd va) →
  pages_ok m' pd.
Proof.
  intros [Huse Hone] Hk Hu Nkp Nt Nm He Hmono Htab Hmap. split.
  - intros va w Hva. rewrite Hmap by done.
    destruct (decide (r = true ∧ va / 4096 = upage / 4096)) as [Hd|Hd].
    + intros Hw. injection Hw as <-. rewrite He. destruct Hd as [Hr _]. split_and!; [by apply Hmono, Hu|done|].
      intros i Hi Ht. destruct (Htab i kp Hi Ht) as [?|Hn]; [by eapply Nt|by apply Hn, Hu].
    + intros Hw. destruct (Huse va w Hva Hw) as (H1 & H2 & H3). split_and!; [by apply Hmono|done|].
      intros i Hi Ht. destruct (Htab i _ Hi Ht) as [?|?]; [by eapply H3|done].
  - intros va va' w w' Hva Hva'. rewrite !Hmap by done.
    destruct (decide (r = true ∧ va / 4096 = upage / 4096)) as [[_ E]|],
      (decide (r = true ∧ va' / 4096 = upage / 4096)) as [[_ E']|]; intros Hw Hw' Heq.
    + congruence.
    + exfalso. injection Hw as <-. rewrite He in Heq. by apply (Nm va' w').
    + exfalso. injection Hw' as <-. rewrite He in Heq. by apply (Nm va w).
    + by eapply Hone.
Qed.

Lemma page_of_entry a f : kpage a → 0 ≤ f < 4096 → page_of (entry a f) = a.
Proof.
  intros Ha Hf. destruct (entry_range a f Ha Hf) as [_ Hm]. apply kpage_round in Ha as [Ha _].
  unfold page_of, entry in *. dlia.
Qed.

(** ** Creating a directory *)

(** A directory whose user half is zero maps nothing. *)
Lemma empty_dir m pd :
  used_page m pd → (∀ i, 0 ≤ i < 768 → word m (pd + 4 * i) = Some 0) →
  pd_ok m pd ∧ pages_ok m pd ∧ (∀ va, user_va va → mapping m pd va = None) ∧
  (∀ i pt, 0 ≤ i < 768 → ¬ table m pd i pt).
Proof.
  intros Hu Hw0.
  assert (∀ i pt, 0 ≤ i < 768 → ¬ table m pd i pt) as Nt by (intros i pt Hi Ht%table_nonzero; by rewrite Hw0 in Ht).
  assert (∀ va, user_va va → mapping m pd va = None) as Hmap.
  { intros va Hva. unfold mapping, pte_at, pte_addr. rewrite Hw0 by (by apply va_index). done. }
  split_and!; try done.
  - split; [done|by left; apply Hw0|by intros i pt Hi ?%Nt|by intros i j pt Hi Hj ?%Nt|].
    by intros i pt j w Hi Hj ?%Nt.
  - split; [intros va w Hva E|intros va va' w w' Hva _ E]; by rewrite Hmap in E.
Qed.

Lemma pagedir_create_run s :
  pa_ok (memory s) → used_page (memory s) init_page_dir →
  (∀ i, 0 ≤ i < 768 → word (memory s) (init_page_dir + 4 * i) = Some 0) →
  ∃ pd m', pagedir_create s = Ok (pd, set_memory m' s) ∧ pa_ok m' ∧
    ((pd = NULL ∧ m' = memory s) ∨
     (pd_ok m' pd ∧ pages_ok m' pd ∧ ¬ used_page (memory s) pd ∧
      (∀ b, used_page m' b ↔ used_page (memory s) b ∨ b = pd) ∧
      (∀ va, user_va va → mapping m' pd va = None) ∧
      (∀ k, 0 ≤ k < 1024 → word m' (pd + 4 * k) = word (memory s) (init_page_dir + 4 * k)) ∧
      (∀ b, b ≠ pd → mem m' !! b = mem (memory s) !! b))).
Proof.
  intros Hm Hu Hz. destruct (get_page_ok (memory s) 0 Hm eq_refl) as (pd & m1 & Eg & Hm1 & Hc).
  unfold pagedir_create. rewrite bind_ok with (a := pd) (s' := set_memory m1 s)
    by (unfold on_memory; by rewrite Eg).
  destruct Hc as [[-> ->]|(Hk & Hna & Hu1 & Hmem & _)].
  { exists NULL, (memory s). split_and!; [by destruct s|done|by left]. }
  pose proof (kpage_null pd 0 Hk ltac:(lia)) as Hn. rewrite Z.mul_0_r, Z.add_0_r in Hn. rewrite Hn.
  assert (init_page_dir ≠ pd) as Nin by congruence.
  destruct (used_mem _ _ Hm Hu) as [Hki [ws Hws]].
  destruct (used_mem m1 pd Hm1) as [_ [ws1 Hws1]]; [apply Hu1; by right|].
  set (m2 := set_mem (<[pd := ws]> (mem m1)) m1).
  rewrite bind_ok with (a := tt) (s' := set_memory m2 s); cycle 1.
  { unfold copy_page. simpl. by rewrite Hmem, Hws, Hws1. }
  assert (pa_ok m2) as Hm2 by (eapply set_page_ok; [done|done|by apply (mem_ok _ Hm init_page_dir)]).
  assert (∀ k, 0 ≤ k < 1024 → word m2 (pd + 4 * k) = word (memory s) (init_page_dir + 4 * k)) as Hw.
  { intros k Hk'. rewrite !word_eq by done. unfold m2. by rewrite mem_set, lookup_insert_eq, Hws. }
  assert (∀ b, used_page m2 b ↔ used_page (memory s) b ∨ b = pd) as Hu2 by (intros b; unfold m2; by rewrite used_set).
  destruct (empty_dir m2 pd) as (Hpd2 & Hpg2 & Hmap & _);
    [by apply Hu2; right|intros i Hi; rewrite Hw by lia; by apply Hz|].
  exists pd, m2. split_and!; [done..|]. right. split_and!; try done.
  - intros b Hb. unfold m2. rewrite mem_set, lookup_insert_ne by done. by apply Hmem.
Qed.

(** ** The operations on the active or another directory *)

Definition translate (m : M) (pd va : Z) : Z :=
  match mapping m pd va with Some w => page_of w + va mod 4096 | None => NULL end.

Inductive change :=
  | SetPage (upage kp : Z) (writable : bool)
  | ClearPage (upage : Z)
  | SetDirty (vpage : Z) (dirty : bool)
  | SetAccessed (vpage : Z) (accessed : bool).

Definition run_change (pd : Z) (c : change) : ST (vm M) unit :=
  match c with
  | SetPage upage kp w => _ ← pagedir_set_page pd upage kp w; mret tt
  | ClearPage upage => pagedir_clear_page pd upage
  | SetDirty vpage b => pagedir_set_dirty pd vpage b
  | SetAccessed vpage b => pagedir_set_accessed pd vpage b
  end.

Definition change_ok (pd : Z) (c : change) : Prop :=
  match c with
  | SetPage upage kp _ => user_va upage ∧ upage mod 4096 = 0 ∧ kpage kp ∧
      (kp - PHYS_BASE) / 4096 < init_ram_pages ∧ pd ≠ init_page_dir
  | ClearPage upage => user_va upage ∧ upage mod 4096 = 0
  | SetDirty vpage _ | SetAccessed vpage _ => user_va vpage
  end.

(** The processor runs on a well-formed directory, and [pd] is that directory
    or shares nothing with it. *)
Record vm_ok (s : vm M) (pd : Z) : Prop := {
  vo_mem : pa_ok (memory s);
  vo_pd : pd_ok (memory s) pd;
  vo_active : pd_ok (memory s) (active s);
  vo_cr3 : 0 ≤ cr3 s < 2 ^ 30;
  vo_sep : pd = active s ∨ separate (memory s) pd (active s);
  vo_tlb : tlb_ok s
}.

Lemma cached_present t w : cached_ok t w → present w = true.
Proof.
  intros [Hp Hb]. specialize (Hb 0 ltac:(lia)). change (Z.testbit t 0 = Z.testbit w 0) in Hb.
  unfold present in *. congruence.
Qed.

Lemma mapping_present m pd va w : pte_at m pd va = Some w → present w = true → mapping m pd va = Some w.
Proof. intros E Hp. unfold mapping. by rewrite E, Hp. Qed.

Lemma mapping_pte_at m pd va w : mapping m pd va = Some w → pte_at m pd va = Some w.
Proof. unfold mapping. destruct (pte_at m pd va) as [w'|]; [|done]. by destruct (present w'); intros; simplify_eq. Qed.

(** The memory of a directory other than [pd] is not touched. *)
Lemma tlb_after_separate s s' pd :
  vm_ok s pd → separate (memory s) pd (active s) → outside (memory s) (memory s') pd →
  cr3 s' = cr3 s → tlb s' = tlb s → tlb_ok s' ∧ pd_ok (memory s') (active s').
Proof.
  intros HV Hs Ho Ec Et. destruct HV as [Hm Hpd Ha Hc _ Ht]. split.
  - by eapply tlb_ok_separate.
  - rewrite (active_eq _ _ Ec). by eapply separate_frame.
Qed.

Lemma tlb_set_page s pd upage kp w r m' :
  vm_ok s pd → mapping (memory s) pd upage = None → pd_ok m' pd → outside (memory s) m' pd →
  (∀ va, user_va va → mapping m' pd va = if decide (r = true ∧ va / 4096 = upage / 4096)
                             then Some (entry kp w) else mapping (memory s) pd va) →
  tlb_ok (set_memory m' s) ∧ pd_ok m' (active s).
Proof.
  intros HV Hnone Hpd' Ho Hmap. destruct (vo_sep _ _ HV) as [Ea|Hs].
  - rewrite <-Ea. split; [|done]. eapply tlb_ok_change; [apply HV|done|done|]. rewrite <-Ea. simpl.
    intros va w' t Hva Ew Hcw. exists w'. split; [|done]. apply mapping_pte_at. rewrite Hmap by done.
    pose proof (mapping_present _ _ _ _ Ew (cached_present _ _ Hcw)) as Hm. rewrite decide_False; [done|].
    intros [_ Eq]. unfold mapping in *. rewrite (pte_at_page _ _ _ _ Eq), Hnone in Hm. done.
  - by apply (tlb_after_separate s (set_memory m' s) pd).
Qed.

(** A change of one entry of [pd] that either flushes the buffer or leaves the
    entry usable. *)
Lemma tlb_entry_changed s s' pd va f (flush : bool) :
  vm_ok s pd → user_va va → entry_changed s s' pd va f →
  tlb s' = (if flush && (active s =? pd) then ∅ else tlb s) →
  (flush = false → ∀ w t, pte_at (memory s) pd va = Some w → cached_ok t w → cached_ok t (f w)) →
  tlb_ok s' ∧ pd_ok (memory s') (active s').
Proof.
  intros HV Hva (Hm' & Hpd' & Ho & Ec & Hp) Et Hf. destruct (vo_sep _ _ HV) as [Ea|Hs].
  - rewrite (active_eq _ _ Ec), <-Ea. split; [|done]. rewrite <-Ea, Z.eqb_refl, andb_true_r in Et.
    destruct flush; [by apply tlb_ok_empty|]. eapply tlb_ok_change; [apply HV|done|done|].
    rewrite <-Ea. intros va' w t Hva' Ew Hcw. rewrite Hp by done.
    destruct (decide (va' / 4096 = va / 4096)) as [Eq|]; [|eauto].
    rewrite (pte_at_page _ _ _ _ Eq) in Ew. rewrite Ew. simpl. eauto.
  - apply (tlb_after_separate s s' pd); try done.
    rewrite (proj2 (Z.eqb_neq (active s) pd)), andb_false_r in Et; [done|]. by destruct Hs.
Qed.

Lemma tlb_set_bit s s' pd va n v :
  vm_ok s pd → user_va va → n = 5 ∨ n = 6 → set_bit (2 ^ n) pd va v s = Ok (tt, s') →
  tlb_ok s' ∧ pd_ok (memory s') (active s').
Proof.
  intros HV Hva Hn E. destruct (set_bit_run s pd va n v) as (s1 & E1 & He & Ht); [apply HV..|done|apply HV|lia|].
  rewrite E in E1. injection E1 as <-. eapply tlb_entry_changed; [done..|].
  intros Hfl w t Ew Hcw. rewrite Ew in Hfl. destruct v; [by apply cached_setbit|]. by rewrite bool_decide_eq_true_2 in Hfl.
Qed.

(** The processor runs on a well-formed directory, and its buffer holds only
    entries that it may use. *)
Record cpu_ok (s : vm M) : Prop := {
  co_mem : pa_ok (memory s);
  co_active : pd_ok (memory s) (active s);
  co_cr3 : 0 ≤ cr3 s < 2 ^ 30;
  co_tlb : tlb_ok s
}.

Lemma change_runs s pd c :
  vm_ok s pd → change_ok pd c →
  match run_change pd c s with
  | Ok (_, s') => cpu_ok s'
  | Err e => e = AssertFail ∧ ∃ upage kp w, c = SetPage upage kp w ∧ is_Some (mapping (memory s) pd upage)
  end.
Proof.
  intros HV Hc. pose proof HV as [Hm Hpd Ha Hcr Hs Ht].
  assert (∀ s' va f, entry_changed s s' pd va f → tlb_ok s' ∧ pd_ok (memory s') (active s') → cpu_ok s') as Hok.
  { intros s' va f (Hm' & _ & _ & Ec & _) [? ?]. split; [done|done|by rewrite Ec|done]. }
  destruct c as [upage kp w|upage|va b|va b]; simpl in *.
  - destruct Hc as (Hva & Hal & Hk & Hr & Hi). pose proof (set_page_run s pd upage kp w Hm Hpd Hva Hal Hk Hr Hi) as Hrun.
    unfold mbind, st_bind. destruct (mapping (memory s) pd upage) as [x|] eqn:Em.
    { rewrite Hrun. split; [done|]. exists upage, kp, w. split; [done|]. rewrite Em. by exists x. }
    destruct Hrun as (r & m' & Er & Hm' & Hpd' & Ho & _ & _ & Hmap). rewrite Er. unfold mret, st_ret.
    destruct (tlb_set_page s pd upage kp _ r m' HV Em Hpd' Ho Hmap). by split.
  - destruct Hc as [Hva Hal]. destruct (clear_page_run s pd upage) as (s1 & E1 & He & Htl); [done..|].
    rewrite E1. eapply Hok; [exact He|]. eapply tlb_entry_changed; [done..|].
    intros Hfl w t Ew Hcw. exfalso. apply bool_decide_eq_false in Hfl. apply Hfl.
    rewrite (mapping_present _ _ _ _ Ew (cached_present _ _ Hcw)). by eexists.
  - destruct (set_bit_run s pd va 6 b) as (s1 & E1 & He & _); [done..|lia|]. unfold pagedir_set_dirty.
    change PTE_D with (2 ^ 6). rewrite E1. eapply Hok; [exact He|].
    eapply (tlb_set_bit s s1 pd va 6); [done|done|by right|exact E1].
  - destruct (set_bit_run s pd va 5 b) as (s1 & E1 & He & _); [done..|lia|]. unfold pagedir_set_accessed.
    change PTE_A with (2 ^ 5). rewrite E1. eapply Hok; [exact He|].
    eapply (tlb_set_bit s s1 pd va 5); [done|done|by left|exact E1].
Qed.

Lemma owned_pages m pd b :
  pa_ok m → pd_ok m pd → owned m pd 768 b ↔
  (∃ i, 0 ≤ i < 768 ∧ table m pd i b) ∨ (∃ va w, user_va va ∧ mapping m pd va = Some w ∧ b = page_of w).
Proof.
  intros Hm Hpd. split.
  - intros (i & pt & Hi & Ht & [->|(j & Hj & Hb)]); [left; eauto|right].
    destruct (mapped_mapping m pd i j pt b) as (w & Ew & ->); [done..|].
    exists (i * 2 ^ 22 + j * 4096), w. split_and!; try done. by apply va_of.
  - intros [(i & Hi & Ht)|(va & w & Hva & Hw & ->)]; [exists i, b; eauto|].
    pose proof (va_index va Hva) as [Hi Hj]. unfold mapping, pte_at in Hw.
    destruct (pte_addr_ok m pd va Hm Hpd Hva) as [|pt Ht _ _]; [done|]. simpl in Hw.
    exists (va / 2 ^ 22), pt. split_and!; [lia..|done|right].
    exists ((va / 4096) mod 1024). split; [done|].
    destruct (word m _) as [w'|] eqn:Ew; [|done]. destruct (present w') eqn:Ep; simplify_eq. by exists w.
Qed.

(** ** All operations of pagedir.c *)

Inductive dir_op :=
  | Create
  | Activate (pd : Z)
  | Destroy (pd : Z)
  | Change (pd : Z) (c : change).

Definition run_op (o : dir_op) : ST (vm M) unit :=
  match o with
  | Create => _ ← pagedir_create; mret tt
  | Activate pd => pagedir_activate pd
  | Destroy pd => pagedir_destroy pd
  | Change pd c => run_change pd c
  end.

(** What the callers have to see to.  [pagedir_destroy] does not flush the
    buffer: the directory must not be the active one, or share pages with it. *)
Definition op_ok (s : vm M) (o : dir_op) : Prop :=
  match o with
  | Create => used_page (memory s) init_page_dir ∧
      ∀ i, 0 ≤ i < 768 → word (memory s) (init_page_dir + 4 * i) = Some 0
  | Activate pd => pd_ok (memory s) (if pd =? NULL then init_page_dir else pd)
  | Destroy pd => pd = NULL ∨
      pd_ok (memory s) pd ∧ pages_ok (memory s) pd ∧ pd ≠ init_page_dir ∧ separate (memory s) pd (active s) ∧
      ∀ va w, user_va va → mapping (memory s) pd va = Some w →
        page_of w ≠ active s ∧ ∀ i, 0 ≤ i < 768 → ¬ table (memory s) (active s) i (page_of w)
  | Change pd c => pd_ok (memory s) pd ∧ (pd = active s ∨ separate (memory s) pd (active s)) ∧ change_ok pd c
  end.

(** Memory in which the pages of the active directory are as they were. *)
Lemma cpu_ok_frame s m' :
  cpu_ok s → pa_ok m' →
  (∀ p, p = active s ∨ (∃ i, 0 ≤ i < 768 ∧ table (memory s) (active s) i p) → used_page (memory s) p →
     used_page m' p ∧ mem m' !! p = mem (memory s) !! p) →
  cpu_ok (set_memory m' s).
Proof.
  intros [Hm Ha Hc Ht] Hm' Hk. destruct (pd_frame (memory s) m' (active s) Hm Ha) as [Ha' Hp].
  - intros p k Hkk Hp. assert (used_page (memory s) p) as Hu
      by (destruct Hp as [->|(i & Hi & Hti)]; [apply Ha|by eapply pd_table]).
    rewrite !word_eq by (done || by apply (used_kpage _ p Hm Hu)). by destruct (Hk p Hp Hu) as [_ ->].
  - intros p Hp Hu. by apply Hk.
  - split; [done..|]. apply (tlb_ok_change s); [done..|]. intros va w t Hva Ew Hcw. exists w. split; [|done].
    simpl. destruct (Hp va Hva) as [_ ->]. done.
Qed.

Lemma op_coherent s o :
  cpu_ok s → op_ok s o →
  match run_op o s with
  | Ok (_, s') => cpu_ok s'
  | Err e => e = AssertFail ∧ ∃ pd upage kp w,
      o = Change pd (SetPage upage kp w) ∧ is_Some (mapping (memory s) pd upage)
  end.
Proof.
  intros HC Ho. pose proof HC as [Hm Ha Hc Ht]. destruct o as [|pd|pd|pd c]; simpl in *.
  - destruct Ho as [Hu Hz]. destruct (pagedir_create_run s Hm Hu Hz) as (pd & m' & E & Hm' & Hcase).
    unfold mbind, st_bind. rewrite E. unfold mret, st_ret. apply cpu_ok_frame; [done..|]. intros p _ Hup.
    destruct Hcase as [[_ ->]|(_ & _ & Nu & Hu' & _ & _ & Hmem)]; [done|].
    split; [apply Hu'; by left|]. apply Hmem. congruence.
  - unfold pagedir_activate. set (pd' := if pd =? NULL then init_page_dir else pd) in *.
    pose proof (used_kpage _ _ Hm (pd_used _ _ Ho)) as Hk. rewrite (vtop_ok pd') by apply Hk.
    erewrite bind_ok by done. simpl. assert (active (mk_vm (memory s) (pd' - PHYS_BASE) ∅) = pd') as Ea
      by (unfold active; simpl; lia).
    split; [done|by rewrite Ea| |by apply tlb_ok_empty]. simpl. by apply kpage_round in Hk as [_ ?].
  - destruct Ho as [->|(Hpd & Hpg & Hi & (Hne & Hst & Hsp) & Hmp)]; [done|].
    destruct (pagedir_destroy_run s pd Hm Hpd Hpg Hi) as (m' & E & Hm' & Hu & Hmem). rewrite E.
    apply cpu_ok_frame; [done..|]. intros p Hp Hup.
    assert (¬ (p = pd ∨ owned (memory s) pd 768 p)) as Nf; [|split; [by apply Hu|by apply Hmem]].
    rewrite (owned_pages _ _ _ Hm Hpd). intros [->|[(i & Hi' & Ht')|(va & w & Hva & Hw & ->)]].
    + destruct Hp as [?|(i & Hi' & Hti)]; [done|]. by destruct (Hst i Hi').
    + destruct Hp as [->|(j & Hj & Htj)]; [by destruct (Hst i Hi')|]. by apply (Hsp i j p).
    + destruct (Hmp va w Hva Hw) as [N1 N2]. destruct Hp as [?|(j & Hj & Htj)]; [done|]. by apply (N2 j).
  - destruct Ho as (Hpd & Hs & Hok). pose proof (change_runs s pd c) as H.
    assert (vm_ok s pd) as HV by by split. specialize (H HV Hok).
    destruct (run_change pd c s) as [[[] s']|e]; [done|]. destruct H as (-> & upage & kp & w & -> & Hmap).
    split; [done|]. by exists pd, upage, kp, w.
Qed.

Lemma get_page_translate s pd va :
  pa_ok (memory s) → pd_ok (memory s) pd → user_va va →
  pagedir_get_page pd va s = Ok (translate (memory s) pd va, s).
Proof. apply get_page_run. Qed.

Lemma flag_bits w n (b : bool) :
  let w' := if b then Z.setbit w n else Z.clearbit w n in
  0 < n < 12 → present w' = present w ∧ page_of w' = page_of w.
Proof.
  intros w' Hn. assert (∀ k, 0 ≤ k → k ≠ n → Z.testbit w' k = Z.testbit w k) as Hk.
  { intros k Hk Nk. unfold w'. destruct b; [apply Z.setbit_neq|apply Z.clearbit_neq]; lia. }
  split; [unfold present; apply Hk; lia|]. unfold page_of. do 2 f_equal.
  change 4096 with (2 ^ 12). rewrite <-!Z.shiftr_div_pow2 by lia. apply Z.bits_inj'. intros k Hk0.
  rewrite !Z.shiftr_spec by done. apply Hk; lia.
Qed.

(** ** Properties *)

(** C11: [pagedir_set_page] implements the insertion of a page into the map from
    user pages to kernel pages that [pagedir_get_page] reads: it fails its
    assertion on a page that is mapped already; otherwise it either changes
    nothing and returns false (no memory), or afterwards the addresses of the
    page lead to the same offset in the new page and all others where they led
    before.  Memory outside the directory and its tables is not written. *)
Theorem pagedir_set_page_correct s pd upage kp w :
  pa_ok (memory s) → pd_ok (memory s) pd → change_ok pd (SetPage upage kp w) →
  if bool_decide (is_Some (mapping (memory s) pd upage))
  then pagedir_set_page pd upage kp w s = Err AssertFail
  else ∃ r s', pagedir_set_page pd upage kp w s = Ok (r, s') ∧
    pa_ok (memory s') ∧ pd_ok (memory s') pd ∧ outside (memory s) (memory s') pd ∧
    (r = false → s' = s) ∧
    ∀ va, user_va va → pagedir_get_page pd va s' =
      Ok (if bool_decide (r = true ∧ va / 4096 = upage / 4096) then kp + va mod 4096
          else translate (memory s) pd va, s').
Proof.
  intros Hm Hpd (Hva & Hal & Hk & Hr & Hi).
  pose proof (set_page_run s pd upage kp w Hm Hpd Hva Hal Hk Hr Hi) as Hrun.
  destruct (mapping (memory s) pd upage) as [w0|] eqn:Em; [by rewrite bool_decide_eq_true_2|].
  rewrite bool_decide_eq_false_2 by (by intros [? ?]).
  destruct Hrun as (r & m' & Er & Hm' & Hpd' & Ho & Hf & _ & Hmap). exists r, (set_memory m' s).
  split_and!; try done; [intros ->; rewrite Hf by done; by destruct s|].
  intros va Hva'. rewrite get_page_translate by done. do 2 f_equal. unfold translate. simpl. rewrite Hmap by done.
  case_bool_decide as Hd; [rewrite decide_True by done|by rewrite decide_False].
  by rewrite page_of_entry by (done || by destruct w).
Qed.

(** [pagedir_clear_page] unmaps exactly one page, keeping the other bits of
    its entry, and the accessed and dirty bits are tested and set for exactly
    one page without changing any mapping; where the directory has no table
    for the page nothing happens. *)
Theorem pagedir_bits_correct s pd va b :
  pa_ok (memory s) → pd_ok (memory s) pd → user_va va → va mod 4096 = 0 → 0 ≤ cr3 s < 2 ^ 30 →
  (∃ s', pagedir_clear_page pd va s = Ok (tt, s') ∧ pd_ok (memory s') pd ∧
     (∃ x, pagedir_is_dirty pd va s = Ok (x, s) ∧ pagedir_is_dirty pd va s' = Ok (x, s')) ∧
     ∀ va', user_va va' → pagedir_get_page pd va' s' =
       Ok (if bool_decide (va' / 4096 = va / 4096) then NULL else translate (memory s) pd va', s')) ∧
  (∃ s', pagedir_set_dirty pd va b s = Ok (tt, s') ∧ pd_ok (memory s') pd ∧
     pagedir_is_dirty pd va s' = Ok (b && bool_decide (is_Some (pte_at (memory s) pd va)), s') ∧
     (∃ x, pagedir_is_accessed pd va s = Ok (x, s) ∧ pagedir_is_accessed pd va s' = Ok (x, s')) ∧
     ∀ va', user_va va' → pagedir_get_page pd va' s' = Ok (translate (memory s) pd va', s')).
Proof.
  intros Hm Hpd Hva Hal Hc. split.
  - destruct (clear_page_run s pd va) as (s' & E & (Hm' & Hpd' & _ & _ & Hp) & _); [done..|].
    exists s'. split_and!; [done..| |].
    + eexists. unfold pagedir_is_dirty. rewrite !(is_bit_run _ pd va 6) by done. split; [done|].
      rewrite Hp, decide_True by done. destruct (pte_at (memory s) pd va) as [w|]; [|done]. cbn [fmap option_fmap option_map].
      by rewrite Z.clearbit_neq by lia.
    + intros va' Hva'. rewrite get_page_translate by done. do 2 f_equal. unfold translate, mapping.
      rewrite Hp by done. case_bool_decide as Hd; [rewrite decide_True by done|by rewrite decide_False].
      destruct (pte_at (memory s) pd va) as [w|]; [|done]. cbn [fmap option_fmap option_map]. unfold present.
      by rewrite Z.clearbit_eq by lia.
  - destruct (set_bit_run s pd va 6 b) as (s' & E & (Hm' & Hpd' & _ & _ & Hp) & _); [done..|].
    exists s'. split_and!; [done..| | |].
    + unfold pagedir_is_dirty. rewrite (is_bit_run _ pd va 6), Hp, decide_True by done.
      destruct (pte_at (memory s) pd va) as [w|]; cbn [fmap option_fmap option_map]; [|by rewrite bool_decide_eq_false_2, andb_false_r by (by intros [? ?])]. rewrite bool_decide_eq_true_2, andb_true_r by (by eexists).
      destruct b; [by rewrite Z.setbit_eq by lia|by rewrite Z.clearbit_eq by lia].
    + eexists. unfold pagedir_is_accessed. rewrite !(is_bit_run _ pd va 5) by done. split; [done|].
      rewrite Hp, decide_True by done. destruct (pte_at (memory s) pd va) as [w|]; [|done]. cbn [fmap option_fmap option_map].
      destruct b; [by rewrite Z.setbit_neq by lia|by rewrite Z.clearbit_neq by lia].
    + intros va' Hva'. rewrite get_page_translate by done. do 2 f_equal.
      unfold translate, mapping. rewrite Hp by done.
      destruct (decide (va' / 4096 = va / 4096)) as [Eq|]; [|done]. rewrite (pte_at_page _ _ _ _ Eq).
      destruct (pte_at (memory s) pd va) as [w|]; [|done]. cbn [fmap option_fmap option_map].
      destruct (flag_bits w 6 b) as [-> E2]; [lia|]. destruct (present w); [by rewrite E2|done].
Qed.

(** C12: the translation lookaside buffer never holds an entry that the page
    tables of the active directory have revoked.  Creating a directory,
    activating a well-formed one, setting and clearing a page and setting the
    dirty and accessed bits in the active directory or in one that shares
    nothing with it, and destroying a directory that shares nothing with the
    active one, all keep this, and fail only where a page is set that is mapped
    already: what takes a right away from the active directory flushes the
    buffer, and what does not flush only adds rights or changes other
    directories.  [pagedir_destroy] never flushes, so that it may not be called
    for the active directory. *)
Theorem pagedir_tlb_coherent s o :
  cpu_ok s → op_ok s o →
  match run_op o s with
  | Ok (_, s') => cpu_ok s'
  | Err e => e = AssertFail ∧ ∃ pd upage kp w,
      o = Change pd (SetPage upage kp w) ∧ is_Some (mapping (memory s) pd upage)
  end.
Proof. apply op_coherent. Qed.

(** [pagedir_destroy] frees the directory, all its page tables and all
    pages it maps, each exactly once (a second free would fail), and no other
    page; it never touches the contents of the pages that remain. *)
Theorem pagedir_destroy_correct s pd :
  pa_ok (memory s) → pd_ok (memory s) pd → pages_ok (memory s) pd → pd ≠ init_page_dir →
  ∃ s', pagedir_destroy pd s = Ok (tt, s') ∧ pa_ok (memory s') ∧
    (∀ b, used_page (memory s') b ↔
       used_page (memory s) b ∧ b ≠ pd ∧ (∀ i, 0 ≤ i < 768 → ¬ table (memory s) pd i b) ∧
       (∀ va w, user_va va → mapping (memory s) pd va = Some w → b ≠ page_of w)) ∧
    (∀ b, used_page (memory s') b → mem (memory s') !! b = mem (memory s) !! b).
Proof.
  intros Hm Hpd Hpg Hi. destruct (pagedir_destroy_run s pd Hm Hpd Hpg Hi) as (m' & E & Hm' & Hu & Hmem).
  exists (set_memory m' s). split_and!; [done|done| |].
  - intros b. simpl. rewrite Hu, (owned_pages _ _ _ Hm Hpd). split.
    + intros [Hub Hn]. split_and!; [done| | |].
      * intros ->. by apply Hn; left.
      * intros i Hi' Ht. apply Hn. right. left. eauto.
      * intros va w Hva Hw ->. apply Hn. right. right. eauto.
    + intros (Hub & Np & Nt & Nm). split; [done|]. intros [?|[(i & ? & ?)|(va & w & ? & ? & ->)]]; [done| |].
      * by eapply Nt.
      * by eapply Nm.
  - intros b Hb. apply Hmem. by apply Hu in Hb as [_ ?].
Qed.

End pagedir.

(** ** Witnesses

    A machine with 16 free pages: the first is the initial page directory, and
    the second is a directory made by [pagedir_create]. *)

Section demo.

#[local] Instance demo_globals : InitGlobals := {| init_page_dir := 0xc0101000; init_ram_pages := 272 |}.

Definition demo_init : vm Palloc.memory :=
  match palloc_get_page PAL_ZERO demo_memory with
  | Ok (_, st) => mk_vm st 0x101000 ∅
  | Err _ => mk_vm demo_memory 0 ∅
  end.

Definition demo_dir : vm Palloc.memory :=
  match pagedir_create demo_init with Ok (_, s) => s | Err _ => demo_init end.

Lemma demo_init_ok :
  pa_ok (memory demo_init) ∧ used_page (memory demo_init) init_page_dir ∧ cr3 demo_init = 0x101000 ∧
  tlb demo_init = ∅ ∧
  ∀ i, 0 ≤ i < 768 → word (memory demo_init) (init_page_dir + 4 * i) = Some 0.
Proof.
  destruct (get_page_spec demo_memory PAL_ZERO demo_memory_inv eq_refl) as (a & st & E & HI & Hc).
  assert (a = 0xc0101000) as ->.
  { assert (match palloc_get_page PAL_ZERO demo_memory with Ok (p, _) => p =? 0xc0101000 | Err _ => false end = true)
      as Hv by (vm_compute; reflexivity). rewrite E in Hv. clear E. by apply Z.eqb_eq. }
  unfold demo_init. rewrite E. clear E. destruct Hc as [[? _]|(Hk & _ & Hu & _ & Hz)]; [done|].
  split_and!; try done; [apply Hu; by right|]. intros i Hi. rewrite word_eq by (done || lia).
  change (mem (memory (mk_vm st 1052672 ∅))) with (frames st).
  change init_page_dir with 0xc0101000. rewrite Hz by done.
  cbn [mbind option_bind]. apply lookup_repeat. unfold word_cnt. lia.
Qed.

Lemma demo_dir_ok :
  vm_ok demo_dir 0xc0102000 ∧ pages_ok (memory demo_dir) 0xc0102000 ∧
  (∀ va, user_va va → mapping (memory demo_dir) 0xc0102000 va = None) ∧
  (∀ i pt, 0 ≤ i < 768 → ¬ table (memory demo_dir) 0xc0102000 i pt).
Proof.
  destruct demo_init_ok as (Hm & Hu & Hc & Ht & Hz).
  destruct (pagedir_create_run demo_init Hm Hu Hz) as (pd & m' & E & Hm' & Hcase).
  assert (pd = 0xc0102000) as ->.
  { assert (match pagedir_create demo_init with Ok (p, _) => p =? 0xc0102000 | Err _ => false end = true)
      as Hv by (vm_compute; reflexivity). rewrite E in Hv. clear E. by apply Z.eqb_eq. }
  unfold demo_dir. rewrite E. clear E. revert Hm Hu Hc Ht Hz Hm' Hcase. generalize demo_init.
  intros s0 Hm Hu Hc Ht Hz Hm' Hcase. destruct Hcase as [[? _]|(Hpd & Hpg & Hna & Hu' & Hmap & Hw & Hmem)]; [done|].
  assert (∀ i pt, 0 ≤ i < 768 → ¬ table m' 0xc0102000 i pt) as Nt.
  { intros i pt Hi Ht'%table_nonzero. rewrite Hw, Hz in Ht' by lia. done. }
  assert (active (set_memory m' s0) = init_page_dir) as Ea by (unfold active; simpl; by rewrite Hc).
  destruct (empty_dir m' init_page_dir) as (Hpi & _ & _ & Nti).
  { apply Hu'. by left. }
  { intros i Hi. rewrite <-(Hz i Hi), !word_eq by (done || lia). simpl. by rewrite Hmem. }
  split_and!; try done. split; rewrite ?Ea; try done.
  - simpl. rewrite Hc. lia.
  - right. split_and!; [done| |]; [intros i Hi; split; [by apply Nt|by apply Nti]|].
    intros i j pt Hi Hj Ht'. by apply Nt in Ht'.
  - by apply tlb_ok_empty.
Qed.

#[local] Opaque demo_dir demo_init.

Lemma demo_change_ok : change_ok 0xc0102000 (SetPage 0x8048000 0xc0105000 true).
Proof. split_and!; done. Qed.

Lemma pagedir_set_page_correct_witness :
  ∃ r s', pagedir_set_page 0xc0102000 0x8048000 0xc0105000 true demo_dir = Ok (r, s') ∧
    (r = true → pagedir_get_page 0xc0102000 0x8048123 s' = Ok (0xc0105123, s')).
Proof.
  destruct demo_dir_ok as (HV & _ & Hmap & _).
  assert (user_va 0x8048000 ∧ user_va 0x8048123) as [Hva Hva'] by (unfold user_va, PHYS_BASE; lia).
  specialize (Hmap _ Hva).
  pose proof (pagedir_set_page_correct demo_dir 0xc0102000 0x8048000 0xc0105000 true (vo_mem _ _ HV)
    (vo_pd _ _ HV) demo_change_ok) as H. rewrite Hmap in H.
  destruct H as (r & s' & E & _ & _ & _ & _ & Hg). exists r, s'. split; [exact E|]. intros ->.
  rewrite (Hg _ Hva'). reflexivity.
Defined.

Lemma pagedir_bits_correct_witness :
  ∃ s', pagedir_set_dirty 0xc0102000 0x8048000 true demo_dir = Ok (tt, s').
Proof.
  destruct demo_dir_ok as (HV & _).
  destruct (pagedir_bits_correct demo_dir 0xc0102000 0x8048000 true (vo_mem _ _ HV) (vo_pd _ _ HV))
    as [_ (s' & E & _)]; [done|done|apply (vo_cr3 _ _ HV)|]. exists s'. exact E.
Defined.

(** The directory with one page, activated, and the entry of the page cached. *)
Definition demo_active : vm Palloc.memory :=
  match pagedir_set_page 0xc0102000 0x8048000 0xc0105000 true demo_dir with
  | Ok (true, s) => mk_vm (memory s) 0x102000 {[0x8048 := entry 0xc0105000 7]}
  | _ => demo_init
  end.

Lemma demo_active_ok :
  cpu_ok demo_active ∧ active demo_active = 0xc0102000 ∧ tlb demo_active = {[0x8048 := entry 0xc0105000 7]} ∧
  mapping (memory demo_active) 0xc0102000 0x8048000 = Some (entry 0xc0105000 7).
Proof.
  destruct demo_dir_ok as (HV & _ & Hmap & _). destruct demo_change_ok as (Hva & Hal & Hk & Hr & Hi).
  pose proof (set_page_run demo_dir _ _ _ true (vo_mem _ _ HV) (vo_pd _ _ HV) Hva Hal Hk Hr Hi) as H.
  rewrite (Hmap _ Hva) in H. destruct H as (r & m' & E & Hm' & Hpd' & _ & _ & _ & Hmap').
  assert (r = true) as ->.
  { assert (match pagedir_set_page 0xc0102000 0x8048000 0xc0105000 true demo_dir with Ok (r, _) => r | Err _ => false end
      = true) as Hv by (vm_compute; reflexivity). by rewrite E in Hv. }
  unfold demo_active. rewrite E. clear E Hmap HV. revert Hm' Hpd' Hmap'. generalize demo_dir. intros s Hm' Hpd' Hmap'.
  assert (mapping m' 0xc0102000 0x8048000 = Some (entry 0xc0105000 7)) as Hm.
  { rewrite Hmap' by exact Hva. by rewrite decide_True. }
  split_and!; [|reflexivity|reflexivity|exact Hm]. split; [exact Hm'|exact Hpd'|done|]. intros va t Hva' Hl. simpl in Hl.
  apply lookup_singleton_Some in Hl as [Eq <-]. exists (entry 0xc0105000 7).
  split; [|split; [done|by intros n _; destruct (_ || _)]]. simpl.
  rewrite (pte_at_page _ _ va 0x8048000); [by apply mapping_pte_at|]. by rewrite <-Eq.
Qed.

#[local] Opaque demo_active.

(** Clearing the page of the active directory takes its entry out of the buffer. *)
Lemma pagedir_tlb_coherent_witness :
  tlb demo_active !! 0x8048 = Some (entry 0xc0105000 7) ∧
  ∃ s', run_op (Change 0xc0102000 (ClearPage 0x8048000)) demo_active = Ok (tt, s') ∧ cpu_ok s' ∧ tlb s' !! 0x8048 = None.
Proof.
  destruct demo_active_ok as (HC & Ea & Et & Hm). split; [rewrite Et; reflexivity|].
  assert (user_va 0x8048000) as Hva by (unfold user_va, PHYS_BASE; lia).
  assert (pd_ok (memory demo_active) 0xc0102000) as Hpd by (rewrite <-Ea; apply HC).
  pose proof (pagedir_tlb_coherent demo_active (Change 0xc0102000 (ClearPage 0x8048000)) HC) as H.
  destruct (clear_page_run demo_active 0xc0102000 0x8048000 (co_mem _ HC) Hpd Hva eq_refl (co_cr3 _ HC)) as (s' & E & _ & Htl).
  simpl in H. rewrite E in H. exists s'. split; [exact E|].
  split; [apply H; split; [exact Hpd|split; [left; by rewrite Ea|by split]]|].
  rewrite Htl, Hm, Ea. reflexivity.
Defined.

Lemma pagedir_destroy_correct_witness :
  ∃ s', pagedir_destroy 0xc0102000 demo_dir = Ok (tt, s') ∧ ¬ used_page (memory s') 0xc0102000.
Proof.
  destruct demo_dir_ok as (HV & Hpg & _).
  destruct (pagedir_destroy_correct demo_dir 0xc0102000 (vo_mem _ _ HV) (vo_pd _ _ HV) Hpg) as (s' & E & _ & Hu & _);
    [discriminate|]. exists s'. split; [exact E|]. intros Hb. apply Hu in Hb as (_ & Hne & _). exact (Hne eq_refl).
Defined.

End demo.
