(* ===== verification/Paging.v ===== *)
(** * The page tables of the kernel: paging_init of threads/init.c

    At boot the kernel maps all physical memory at PHYS_BASE, its own code
    read-only, into a fresh page directory, whose user half stays empty.  The
    directories of processes ([Pagedir]) are copies of it. *)

From S2P Require Import Prelude Vaddr PageIface Palloc Pagedir PagedirSpec.

Section paging.
Context {M : Type} `{PA : PageAllocator M}.
Implicit Types m : M.
(** The number of pages of physical memory, and the kernel's code, from the
    loader and the linker. *)
Variables init_ram_pages start end_kernel_text : Z.

(** ** The code *)

Definition in_kernel_text (vaddr : Z) : bool := (start <=? vaddr) && (vaddr <? end_kernel_text).

(** One page of physical memory; [pt] is the page table in use. *)
Definition map_kernel_page (pd : Z) : Z * Z → ST (vm M) (Z * Z + unit) := λ '(page, pt),
  if page <? init_ram_pages then
    vaddr ← lift (ptov (u32 (page * PGSIZE)));
    let pde_idx := pd_no vaddr in
    let pte_idx := pt_no vaddr in
    w ← ld32 (pd + 4 * pde_idx);
    pt ← (if w =? 0 then
            pt ← on_memory (get_page (Z.lor PAL_ASSERT PAL_ZERO));
            e ← lift (pde_create pt); st32 (pd + 4 * pde_idx) e;; mret pt
          else mret pt);
    e ← lift (pte_create_kernel vaddr (negb (in_kernel_text vaddr)));
    st32 (pt + 4 * pte_idx) e;;
    mret (inl (page + 1, pt))
  else mret (inr tt).

(** The result is the new value of init_page_dir. *)
Definition paging_init : ST (vm M) Z :=
  pd ← on_memory (get_page (Z.lor PAL_ASSERT PAL_ZERO));
  loopM (S (Z.to_nat init_ram_pages)) (map_kernel_page pd) (0, NULL);;
  p ← lift (vtop pd);
  modify (λ s, mk_vm (memory s) p ∅);;
  mret pd.

(** ** The invariant of the loop *)

(** The entry for page [k] of physical memory. *)
Definition kernel_entry (k : Z) : Z :=
  let a := PHYS_BASE + 4096 * k in entry a (if in_kernel_text a then 1 else 3).

(** The first [n] pages are mapped by the tables [pts] of the directory. *)
Record mapped_to m0 m (pd n : Z) (pts : list Z) : Prop := {
  mt_ok : pa_ok m;
  mt_fresh p : p ∈ pd :: pts → kpage p ∧ ¬ used_page m0 p;
  mt_nodup : NoDup (pd :: pts);
  mt_used b : used_page m b ↔ used_page m0 b ∨ b ∈ pd :: pts;
  mt_same b k : used_page m0 b → 0 ≤ k < 1024 → word m (b + 4 * k) = word m0 (b + 4 * k);
  mt_low i : 0 ≤ i < 768 → word m (pd + 4 * i) = Some 0;
  mt_dir i : 0 ≤ i < 256 →
    word m (pd + 4 * (768 + i)) = Some (match pts !! Z.to_nat i with Some p => entry p 7 | None => 0 end);
  mt_tab i p j : pts !! i = Some p → 0 ≤ j < 1024 →
    let k := 1024 * Z.of_nat i + j in word m (p + 4 * j) = Some (if k <? n then kernel_entry k else 0)
}.

Lemma pte_create_kernel_ok a w : kpage a → pte_create_kernel a w = Ok (entry a (if w then 3 else 1)).
Proof.
  intros Ha. unfold pte_create_kernel. rewrite kpage_ofs by done. simpl. rewrite vtop_ok by apply Ha. simpl.
  rewrite <-Z.lor_assoc. f_equal. destruct w; (apply lor_page; [by apply kpage_round|done]).
Qed.

Lemma ram_page k : 0 ≤ k < 2 ^ 18 → kpage (PHYS_BASE + 4096 * k).
Proof. intros Hk. unfold kpage, PHYS_BASE. split; dlia. Qed.

Lemma entry_nonzero p : kpage p → entry p 7 ≠ 0.
Proof. intros Hp. by destruct (entry_pt p 7) as (_ & ? & _). Qed.

(** What the entry of a kernel address says. *)
Lemma kernel_entry_ok va :
  PHYS_BASE ≤ va < 2 ^ 32 → let w := kernel_entry ((va - PHYS_BASE) / 4096) in
  page_of w = va / 4096 * 4096 ∧ Z.land w PTE_U = 0 ∧ negb (Z.land w PTE_W =? 0) = negb (in_kernel_text (va / 4096 * 4096)).
Proof.
  intros Hva w. pose proof (ram_page ((va - PHYS_BASE) / 4096) ltac:(unfold PHYS_BASE in *; dlia)) as Hk.
  replace (va / 4096 * 4096) with (PHYS_BASE + 4096 * ((va - PHYS_BASE) / 4096)) by (unfold PHYS_BASE; dlia).
  unfold w, kernel_entry.
  assert (0 ≤ (if in_kernel_text (PHYS_BASE + 4096 * ((va - PHYS_BASE) / 4096)) then 1 else 3) < 4096) as Hf
    by (by destruct (in_kernel_text _)).
  rewrite page_of_entry, !entry_flag by done. split_and!; [done|..]; by destruct (in_kernel_text _).
Qed.

(** The empty directory. *)
Lemma mapped_to_nil m m1 pd :
  pa_ok m → pa_ok m1 → kpage pd → ¬ used_page m pd → (∀ b, used_page m1 b ↔ used_page m b ∨ b = pd) →
  (∀ b, b ≠ pd → mem m1 !! b = mem m !! b) → mem m1 !! pd = Some (repeat 0 word_cnt) → mapped_to m m1 pd 0 [].
Proof.
  intros Hm Hm1 Hk Hn Hu Hmem Hz.
  assert (∀ k, 0 ≤ k < 1024 → word m1 (pd + 4 * k) = Some 0) as Hz1.
  { intros k Hk'. rewrite word_eq, Hz by done. cbn [mbind option_bind]. apply lookup_repeat. unfold word_cnt. lia. }
  split; simpl; try done.
  - intros p ->%list_elem_of_singleton. done.
  - apply NoDup_singleton.
  - intros b. by rewrite Hu, list_elem_of_singleton.
  - intros b k Hb Hk'. pose proof (used_kpage _ _ Hm Hb). rewrite !word_eq by done. rewrite Hmem by congruence. done.
  - intros i Hi. apply Hz1. lia.
  - intros i Hi. apply Hz1. lia.
Qed.

(** A new table for the next 1024 pages. *)
Lemma new_table m0 m m1 m2 pd n pts a :
  mapped_to m0 m pd n pts → Z.of_nat (length pts) < 256 → n ≤ 1024 * Z.of_nat (length pts) →
  kpage a → ¬ used_page m a → (∀ b, used_page m1 b ↔ used_page m b ∨ b = a) → (∀ b, b ≠ a → mem m1 !! b = mem m !! b) →
  mem m1 !! a = Some (repeat 0 word_cnt) → word_set m1 m2 pd (768 + Z.of_nat (length pts)) (entry a 7) →
  mapped_to m0 m2 pd n (pts ++ [a]).
Proof.
  intros [Hm Hfr Hnd Hu Hs Hl Hd Ht] Hlen Hn Hk Hna Hu1 Hmem Hz [Hm2 Hu2 Hnew Hold].
  assert (a ∉ pd :: pts) as Na by (intros ?; apply Hna, Hu; by right).
  assert (kpage pd) as Hkpd by (apply Hfr; left).
  assert (∀ q k, kpage q → q ≠ a → 0 ≤ k < 1024 → q ≠ pd ∨ k ≠ 768 + Z.of_nat (length pts) →
    word m2 (q + 4 * k) = word m (q + 4 * k)) as Hsame.
  { intros q k Hq Nq Hk' Hne. rewrite Hold by done. rewrite !word_eq by done. by rewrite Hmem. }
  rewrite not_elem_of_cons in Na. destruct Na as [Npd Npts].
  split; [done|..].
  - intros p. rewrite app_comm_cons. intros [?| ->%list_elem_of_singleton]%elem_of_app; [by apply Hfr|].
    split; [done|]. intros ?. apply Hna, Hu. by left.
  - rewrite app_comm_cons. apply NoDup_app. split_and!; [done| |apply NoDup_singleton].
    intros q Hq ->%list_elem_of_singleton. apply elem_of_cons in Hq. tauto.
  - intros b. rewrite app_comm_cons, elem_of_app, list_elem_of_singleton, Hu2, Hu1, Hu. tauto.
  - intros b k Hb Hk'. assert (used_page m b) as Hbm by (apply Hu; by left).
    rewrite <-Hs by done. apply Hsame; [exact (used_kpage _ _ Hm Hbm)|congruence|done|]. left. intros ->. by destruct (Hfr pd) as [_ ?]; [left|].
  - intros i Hi. rewrite Hsame by (done || congruence || lia). by apply Hl.
  - intros i Hi. destruct (decide (i = Z.of_nat (length pts))) as [->|Ni].
    + rewrite Hnew, Nat2Z.id. by rewrite lookup_app_r, Nat.sub_diag by lia.
    + rewrite Hsame, Hd by (done || congruence || lia). f_equal. destruct (decide (i < Z.of_nat (length pts))).
      * by rewrite lookup_app_l by lia.
      * by rewrite !lookup_ge_None_2 by (rewrite ?length_app; simpl; lia).
  - intros i p j Hp Hj. apply lookup_app_Some in Hp as [Hp|[Hli Hp]].
    + pose proof (list_elem_of_lookup_2 _ _ _ Hp) as Hin. destruct (Hfr p) as [Hkp _]; [by right|].
      apply NoDup_cons in Hnd as [Hnp _]. rewrite Hsame; [by apply Ht|done|congruence|done|]. left. congruence.
    + apply list_lookup_singleton_Some in Hp as [Hi <-].
      rewrite Hold by (done || left; congruence). rewrite word_eq, Hz by done. cbn [mbind option_bind].
      rewrite lookup_repeat by (unfold word_cnt; lia). rewrite (proj2 (Z.ltb_ge _ _)) by lia. done.
Qed.

(** The entry for the next page. *)
Lemma new_entry m0 m m' pd n pts p :
  mapped_to m0 m pd n pts → 0 ≤ n → pts !! Z.to_nat (n / 1024) = Some p → word_set m m' p (n mod 1024) (kernel_entry n) →
  mapped_to m0 m' pd (n + 1) pts.
Proof.
  intros [Hm Hfr Hnd Hu Hs Hl Hd Ht] Hn Hp [Hm' Hu' Hnew Hold].
  pose proof (list_elem_of_lookup_2 _ _ _ Hp) as Hin. pose proof Hnd as [Hnp Hnd']%NoDup_cons.
  assert (pd ≠ p) as Npd by congruence. assert (kpage pd) as Hkpd by (apply Hfr; left). split; [done|done|done|..].
  - intros b. by rewrite Hu', Hu.
  - intros b k Hb Hk. rewrite <-Hs by done. apply Hold; [|done|].
    + apply (used_kpage m b Hm), Hu. by left.
    + left. intros ->. by destruct (Hfr p) as [_ ?]; [right|].
  - intros i Hi. rewrite Hold by (done || lia || by left). by apply Hl.
  - intros i Hi. rewrite Hold by (done || lia || by left). by apply Hd.
  - intros i q j Hq Hj k. destruct (decide (i = Z.to_nat (n / 1024) ∧ j = n mod 1024)) as [[-> ->]|Nij].
    + rewrite Hp in Hq. injection Hq as <-. rewrite Hnew. unfold k. rewrite Z2Nat.id, (proj2 (Z.ltb_lt _ _)) by dlia.
      do 2 f_equal. dlia.
    + rewrite Hold; [|by apply Hfr; right; eapply list_elem_of_lookup_2|done|].
      * rewrite (Ht i q j Hq Hj). fold k. f_equal. assert (k ≠ n) by (unfold k; intros Ek; apply Nij; split; dlia).
        destruct (Z.ltb_spec k n), (Z.ltb_spec k (n + 1)); done || lia.
      * destruct (decide (q = p)) as [->|]; [right|by left]. assert (i = Z.to_nat (n / 1024)) by (by eapply NoDup_lookup). naive_solver.
Qed.

(** ** The whole loop *)

Definition paging_state m0 pd (k : nat) (l : Z * Z) (s : vm M) : Prop :=
  ∃ pts, Z.of_nat k = init_ram_pages - l.1 ∧ 0 ≤ l.1 ≤ init_ram_pages ∧ mapped_to m0 (memory s) pd l.1 pts ∧
    Z.of_nat (length pts) = (l.1 + 1023) / 1024 ∧ (l.1 mod 1024 ≠ 0 → pts !! Z.to_nat (l.1 / 1024) = Some l.2).

Lemma map_kernel_page_ok m0 pd k l s :
  init_ram_pages ≤ 2 ^ 18 → paging_state m0 pd k l s →
  map_kernel_page pd l s = Err KernelPanic ∨
  ∃ r s', map_kernel_page pd l s = Ok (r, s') ∧
    match r with
    | inl l' => ∃ k', (k' < k)%nat ∧ paging_state m0 pd k' l' s'
    | inr _ => ∃ pts, mapped_to m0 (memory s') pd init_ram_pages pts ∧ Z.of_nat (length pts) = (init_ram_pages + 1023) / 1024
    end.
Proof.
  intros Hram (pts & Hk & Hn & Hmt & Hlen & Hpt). destruct l as [n pt]. cbn [fst snd] in *. unfold map_kernel_page.
  destruct (Z.ltb_spec n init_ram_pages); cycle 1.
  { right. exists (inr tt), s. split; [done|]. exists pts. replace init_ram_pages with n by lia. done. }
  change PGSIZE with 4096. rewrite u32_small, ptov_ok by lia. erewrite bind_ok by done.
  replace (n * 4096 + PHYS_BASE) with (PHYS_BASE + 4096 * n) by lia. pose proof (ram_page n ltac:(lia)) as Hkp.
  rewrite pd_no_div, pt_no_div, (pte_create_kernel_ok _ _ Hkp).
  replace ((PHYS_BASE + 4096 * n) / 2 ^ 22) with (768 + n / 1024) by (unfold PHYS_BASE; dlia).
  replace ((PHYS_BASE + 4096 * n) / 4096 mod 1024) with (n mod 1024) by (unfold PHYS_BASE; dlia).
  assert (entry (PHYS_BASE + 4096 * n) (if negb (in_kernel_text (PHYS_BASE + 4096 * n)) then 3 else 1) = kernel_entry n) as ->
    by (unfold kernel_entry; by destruct (in_kernel_text _)).
  erewrite bind_ok by (apply ld32_ok, (mt_dir _ _ _ _ _ Hmt); dlia).
  assert (∀ p s1 pts1, mapped_to m0 (memory s1) pd n pts1 → pts1 !! Z.to_nat (n / 1024) = Some p →
    Z.of_nat (length pts1) = n / 1024 + 1 →
    ∃ r s', (e ← lift (Ok (kernel_entry n)); st32 (p + 4 * (n mod 1024)) e;; mret (inl (n + 1, p) : Z * Z + unit)) s1 = Ok (r, s') ∧
      match r with inl l' => ∃ k', (k' < k)%nat ∧ paging_state m0 pd k' l' s' | inr _ => False end) as Hnext.
  { intros p s1 pts1 Hmt1 Hp Hl1. erewrite bind_ok by done.
    destruct (st32_ok s1 p (n mod 1024) (kernel_entry n)) as (m' & E & Hws).
    { apply Hmt1. }
    { apply Hmt1. right. right. by eapply list_elem_of_lookup_2. }
    { dlia. }
    { apply entry_range; [done|]. by destruct (in_kernel_text _). }
    erewrite bind_ok by exact E. eexists (inl (n + 1, p)), _. split; [done|]. exists (Nat.pred k). split; [lia|].
    exists pts1. cbn [fst snd]. split_and!; [lia..|apply (new_entry m0 (memory s1) m' pd n pts1 p); (done || lia)|dlia|]. intros Hmod.
    by replace ((n + 1) / 1024) with (n / 1024) by dlia. }
  destruct (decide (n mod 1024 = 0)) as [H0|H0]; cycle 1.
  - rewrite (Hpt H0). destruct (mt_fresh _ _ _ _ _ Hmt pt) as [Hkpt _].
    { right. eapply list_elem_of_lookup_2, (Hpt H0). }
    rewrite (proj2 (Z.eqb_neq _ _) (entry_nonzero pt Hkpt)). erewrite bind_ok by done. right.
    destruct (Hnext pt s pts Hmt (Hpt H0)) as (r & s' & E & Hr); [dlia|]. exists r, s'. split; [exact E|]. by destruct r.
  - rewrite lookup_ge_None_2 by dlia. cbn [Z.eqb].
    destruct (get_page_assert (memory s) (Z.lor PAL_ASSERT PAL_ZERO)) as [E|(a & m1 & E & Hm1 & Hka & Hna & Hu1 & Hmem & Hz)];
      [apply Hmt|done|left|right].
    { unfold mbind, st_bind, on_memory. by rewrite E. }
    destruct (st32_ok (set_memory m1 s) pd (768 + n / 1024) (entry a 7)) as (m2 & E2 & Hws).
    { done. }
    { apply Hu1. left. apply Hmt. right. by left. }
    { dlia. }
    { by apply entry_range. }
    rewrite bind_ok with (a := a) (s' := set_memory m2 s); cycle 1.
    { rewrite bind_ok with (a := a) (s' := set_memory m1 s) by (unfold on_memory; by rewrite E).
      rewrite (pde_create_ok a Hka). erewrite bind_ok by done. by erewrite bind_ok by exact E2. }
    replace (n / 1024) with (Z.of_nat (length pts)) in Hws by dlia.
    pose proof (new_table m0 (memory s) m1 m2 pd n pts a Hmt ltac:(dlia) ltac:(dlia) Hka Hna Hu1 Hmem (Hz ltac:(done)) Hws) as Hmt2.
    destruct (Hnext a (set_memory m2 s) (pts ++ [a]) Hmt2) as (r & s' & E3 & Hr).
    { rewrite lookup_app_r by dlia. by replace (Z.to_nat (n / 1024) - length pts)%nat with 0%nat by dlia. }
    { rewrite length_app. simpl. dlia. }
    exists r, s'. split; [exact E3|]. by destruct r.
Qed.

(** What the tables say about an address. *)
Lemma mapped_to_mapping m0 m pd pts va :
  mapped_to m0 m pd init_ram_pages pts → Z.of_nat (length pts) = (init_ram_pages + 1023) / 1024 → init_ram_pages ≤ 2 ^ 18 →
  0 ≤ va < 2 ^ 32 →
  mapping m pd va = if decide (PHYS_BASE ≤ va < PHYS_BASE + 4096 * init_ram_pages)
                    then Some (kernel_entry ((va - PHYS_BASE) / 4096)) else None.
Proof.
  intros Hmt Hlen Hram Hva. unfold mapping, pte_at, pte_addr.
  destruct (decide (va < PHYS_BASE)) as [Hlow|Hhigh].
  { rewrite (mt_low _ _ _ _ _ Hmt) by (unfold PHYS_BASE in *; dlia). by rewrite decide_False by lia. }
  set (k := (va - PHYS_BASE) / 4096).
  replace (va / 2 ^ 22) with (768 + k / 1024) by (unfold k, PHYS_BASE in *; dlia).
  replace ((va / 4096) mod 1024) with (k mod 1024) by (unfold k, PHYS_BASE in *; dlia).
  rewrite (mt_dir _ _ _ _ _ Hmt) by (unfold k, PHYS_BASE in *; dlia).
  destruct (pts !! Z.to_nat (k / 1024)) as [p|] eqn:Ep.
  - destruct (mt_fresh _ _ _ _ _ Hmt p) as [Hk _]; [right; by eapply list_elem_of_lookup_2|].
    destruct (entry_pt p 7) as (_ & Hn & ->); [done..|]. rewrite (proj2 (Z.eqb_neq _ _) Hn). cbn [mbind option_bind].
    rewrite (mt_tab _ _ _ _ _ Hmt _ _ _ Ep) by dlia.
    replace (1024 * Z.of_nat (Z.to_nat (k / 1024)) + k mod 1024) with k by (unfold k; dlia).
    destruct (Z.ltb_spec k init_ram_pages).
    + rewrite decide_True by (unfold k in *; dlia). unfold kernel_entry. rewrite entry_present; [by destruct (in_kernel_text _)| |by destruct (in_kernel_text _)].
      apply ram_page. unfold k. dlia.
    + by rewrite decide_False by (unfold k in *; dlia).
  - apply lookup_ge_None in Ep. cbn. rewrite decide_False; [done|]. unfold k in *. dlia.
Qed.

(** ** Properties *)

(** C27: [paging_init] either runs out of kernel pages, or it makes a page
    directory in which every page of physical memory is mapped at PHYS_BASE
    above its address, for the kernel only, and writable unless it starts in
    the kernel's code; no other address is mapped, and the user half of the
    directory is empty, which is what [pagedir_create] copies into the
    directory of a process.  Pages in use before keep their contents. *)
Theorem paging_init_correct s :
  pa_ok (memory s) → 0 ≤ init_ram_pages ≤ 2 ^ 18 →
  paging_init s = Err KernelPanic ∨
  ∃ pd s', paging_init s = Ok (pd, s') ∧ pa_ok (memory s') ∧ active s' = pd ∧ tlb s' = ∅ ∧
    used_page (memory s') pd ∧ ¬ used_page (memory s) pd ∧
    (∀ i, 0 ≤ i < 768 → word (memory s') (pd + 4 * i) = Some 0) ∧
    (∀ b, used_page (memory s) b → used_page (memory s') b ∧
       ∀ k, 0 ≤ k < 1024 → word (memory s') (b + 4 * k) = word (memory s) (b + 4 * k)) ∧
    ∀ va, 0 ≤ va < 2 ^ 32 →
      match mapping (memory s') pd va with
      | Some w => PHYS_BASE ≤ va < PHYS_BASE + 4096 * init_ram_pages ∧ page_of w + va mod 4096 = va ∧
          Z.land w PTE_U = 0 ∧ negb (Z.land w PTE_W =? 0) = negb (in_kernel_text (va / 4096 * 4096))
      | None => va < PHYS_BASE ∨ PHYS_BASE + 4096 * init_ram_pages ≤ va
      end.
Proof.
  intros Hm Hram. unfold paging_init.
  destruct (get_page_assert (memory s) (Z.lor PAL_ASSERT PAL_ZERO)) as [E|(pd & m1 & E & Hm1 & Hk & Hn & Hu & Hmem & Hz)]; [done|done|left|].
  { unfold mbind, st_bind, on_memory. by rewrite E. }
  rewrite bind_ok with (a := pd) (s' := set_memory m1 s) by (unfold on_memory; by rewrite E).
  destruct (loopM_rule_err KernelPanic (paging_state (memory s) pd)
    (λ _ s', ∃ pts, mapped_to (memory s) (memory s') pd init_ram_pages pts ∧ Z.of_nat (length pts) = (init_ram_pages + 1023) / 1024)
    (map_kernel_page pd)) with (fuel := S (Z.to_nat init_ram_pages)) (n := Z.to_nat init_ram_pages) (l := (0, NULL)) (s := set_memory m1 s)
    as [E2|([] & s' & E2 & pts & Hmt & Hlen)].
  - intros n l s1. apply map_kernel_page_ok. lia.
  - exists []. cbn [fst snd]. split_and!; [lia..| |done|done]. apply mapped_to_nil; auto.
  - lia.
  - left. unfold mbind at 1, st_bind at 1. by rewrite E2.
  - right. erewrite bind_ok by exact E2. rewrite vtop_ok by apply Hk. erewrite bind_ok by done. erewrite bind_ok by done.
    exists pd. eexists. split; [done|]. cbn [memory cr3 tlb]. split_and!; try done.
    + apply Hmt.
    + unfold active. simpl. lia.
    + apply Hmt. right. left.
    + apply Hmt.
    + intros b Hb. split; [apply Hmt; by left|]. intros k Hk'. by apply (mt_same _ _ _ _ _ Hmt).
    + intros va Hva. rewrite (mapped_to_mapping _ _ _ _ _ Hmt Hlen) by lia. destruct (decide _) as [Hd|Hd]; [|lia].
      destruct (kernel_entry_ok va) as (-> & -> & ->); [lia|]. split_and!; [lia|lia|dlia|done..].
Qed.

End paging.

(** ** Witnesses

    The machine of [Palloc], with the kernel's code in the first eight pages
    from 128 kB on. *)

Lemma paging_init_correct_witness :
  ∃ pd s', paging_init 272 0xc0020000 0xc0028000 (mk_vm demo_memory 0 ∅) = Ok (pd, s') ∧
    (∃ w, mapping (memory s') pd 0xc0021234 = Some w ∧ page_of w = 0xc0021000 ∧ Z.land w PTE_W = 0).
Proof.
  destruct (paging_init_correct (PA := palloc_allocator) 272 0xc0020000 0xc0028000 (mk_vm demo_memory 0 ∅) demo_memory_inv) as [E|(pd & s' & E & H)]; [lia| |].
  - exfalso. assert (match paging_init 272 0xc0020000 0xc0028000 (mk_vm demo_memory 0 ∅) with Ok _ => true | Err _ => false end = true)
      as Hv by (vm_compute; reflexivity). rewrite E in Hv. discriminate Hv.
  - exists pd, s'. split; [exact E|]. clear E. destruct H as (_ & _ & _ & _ & _ & _ & _ & H).
    specialize (H 0xc0021234 ltac:(lia)). destruct (mapping (memory s') pd 0xc0021234) as [w|]; [|unfold PHYS_BASE in H; lia].
    exists w. split; [reflexivity|]. destruct H as (_ & Hp & _ & Hw). split; [|].
    + change (0xc0021234 mod 4096) with 0x234 in Hp. lia.
    + change (negb (Z.land w PTE_W =? 0) = false) in Hw. apply negb_false_iff, Z.eqb_eq in Hw. exact Hw.
Defined.
