(* ===== verification/CommandLine.v ===== *)
(** * The kernel command line: read_command_line of threads/init.c

    The loader leaves the number of words and the words themselves, each ended
    by a null byte, in the 128 bytes that [LOADER_ARGS] names.  The function
    stores their addresses in a static array of 65 pointers; a store outside
    the array is a [BadAccess].  The words it then prints are not modelled. *)

From S2P Require Import Prelude Bytes Vaddr CString.

(** ** loader.h *)

Definition LOADER_BASE : Z := 0x7c00.
Definition LOADER_END : Z := 0x7e00.
Definition LOADER_SIG_LEN : Z := 2.
Definition LOADER_PARTS_LEN : Z := 64.
Definition LOADER_ARGS_LEN : Z := 128.
Definition LOADER_ARG_CNT_LEN : Z := 4.
Definition LOADER_SIG : Z := LOADER_END - LOADER_SIG_LEN.
Definition LOADER_PARTS : Z := LOADER_SIG - LOADER_PARTS_LEN.
Definition LOADER_ARGS : Z := LOADER_PARTS - LOADER_ARGS_LEN.
Definition LOADER_ARG_CNT : Z := LOADER_ARGS - LOADER_ARG_CNT_LEN.

(** ** read_command_line *)

(** The length of the array argv. *)
Definition argv_len : Z := LOADER_ARGS_LEN / 2 + 1.

(** [*(uint32_t * ) p] *)
Definition ld_word (p : Z) : ST mem Z :=
  b0 ← ld p; b1 ← ld (p + 1); b2 ← ld (p + 2); b3 ← ld (p + 3); mret (le_decode [b0; b1; b2; b3]).

(** A store into argv. *)
Definition argv_store (i : Z) : ST mem unit :=
  if (0 <=? i) && (i <? argv_len) then mret tt else fail BadAccess.

Definition read_body (argc end_ : Z) : Z * Z * list Z → ST mem (Z * Z * list Z + list Z) := λ '(i, p, argv),
  if i <? argc then
    if p >=? end_ then fail KernelPanic
    else
      argv_store i;;
      n ← strnlen p (end_ - p);
      mret (inl (i + 1, p + n + 1, argv ++ [p]))
  else mret (inr argv).

(** The pointers of argv up to the null pointer. *)
Definition read_command_line : ST mem (list Z) :=
  a ← lift (ptov LOADER_ARG_CNT);
  w ← ld_word a;
  let argc := s32 w in
  p ← lift (ptov LOADER_ARGS);
  let end_ := p + LOADER_ARGS_LEN in
  argv ← loopM (S (Z.to_nat LOADER_ARGS_LEN + 1)) (read_body argc end_) (0, p, []);
  argv_store argc;;
  mret argv.

(** ** Correctness *)

(** The words in memory, and where they start. *)
Fixpoint laid_out (ws : list (list Z)) : list Z :=
  match ws with [] => [] | w :: r => w ++ [0] ++ laid_out r end.

Fixpoint starts (p : Z) (ws : list (list Z)) : list Z :=
  match ws with [] => [] | w :: r => p :: starts (p + Z.of_nat (length w) + 1) r end.

Definition text_ok (w : list Z) : Prop := Forall (λ c, 0 < c < 256) w.

Lemma length_starts p ws : length (starts p ws) = length ws.
Proof. revert p. induction ws as [|w ws IH]; intros p; simpl; [done|]. by rewrite IH. Qed.

Lemma length_laid_out ws : (length ws ≤ length (laid_out ws))%nat.
Proof. induction ws as [|w ws IH]; simpl; [lia|]. rewrite length_app. simpl. lia. Qed.

Lemma starts_strings m ws : ∀ p,
  0 < p → Forall text_ok ws → bytes_at m p (laid_out ws) → Forall2 (cstr m) (starts p ws) ws.
Proof.
  induction ws as [|w ws IH]; intros p Hp Hw Hb; simpl; [constructor|]. apply Forall_cons in Hw as [Hw Hws].
  simpl in Hb. rewrite cons_middle, app_assoc in Hb. apply bytes_at_app in Hb as [Hb Hb']. constructor; [by split|].
  apply IH; [lia|done|]. rewrite length_app in Hb'. simpl in Hb'.
  replace (p + Z.of_nat (length w) + 1) with (p + Z.of_nat (length w + 1)) by lia. exact Hb'.
Qed.

(** The loop from word [i] on. *)
Lemma read_loop m end_ argc ws : ∀ i p argv fuel,
  0 ≤ i → i + Z.of_nat (length ws) = argc → (length ws < fuel)%nat → 0 < p → Forall text_ok ws →
  bytes_at m p (laid_out ws) → p + Z.of_nat (length (laid_out ws)) ≤ end_ →
  loopM fuel (read_body argc end_) (i, p, argv) m =
  if decide (argc ≤ argv_len ∨ ws = []) then Ok (argv ++ starts p ws, m) else Err BadAccess.
Proof.
  induction ws as [|w ws IH]; intros i p argv fuel Hi Hargc Hf Hp Hw Hb He; (destruct fuel as [|fuel]; [simpl in *; lia|]); simpl in Hargc.
  - erewrite loopM_step by (unfold read_body; rewrite (proj2 (Z.ltb_ge _ _)) by lia; done). simpl.
    rewrite decide_True by (by right). by rewrite app_nil_r.
  - pose proof (starts_strings m (w :: ws) p Hp Hw Hb) as Hst. inversion Hst as [|? ? ? ? Hcs _]; subst.
    apply Forall_cons in Hw as [Hw Hws]. simpl in Hb, He. rewrite length_app in He. simpl in He.
    rewrite cons_middle, app_assoc in Hb. apply bytes_at_app in Hb as [_ Hb]. rewrite length_app in Hb. simpl in Hb.
    rewrite loopM_unfold. unfold read_body at 1. rewrite (proj2 (Z.ltb_lt i _)) by lia.
    rewrite Z.geb_leb, (proj2 (Z.leb_gt end_ p)) by lia. unfold argv_store. rewrite (proj2 (Z.leb_le 0 i)) by lia. cbn [andb].
    destruct (Z.ltb_spec i argv_len) as [Hlt|Hge]; cycle 1.
    { rewrite decide_False; [done|]. intros [?|?]; [lia|done]. }
    erewrite bind_ok by done. erewrite bind_ok by (apply strnlen_ok; [done|lia]). rewrite Z.min_r by lia. cbn [mret st_ret].
    replace (p + Z.of_nat (length w + 1)) with (p + Z.of_nat (length w) + 1) in Hb by lia. simpl in Hf.
    rewrite IH by (done || lia).
    simpl. rewrite <-app_assoc. simpl. destruct (decide (_ ≤ argv_len ∨ ws = [])) as [[?| ->]|Hd].
    + rewrite decide_True by lia. done.
    + simpl. rewrite decide_True by (simpl; lia). done.
    + rewrite decide_False; [done|]. intros [?|?]; [|done]. apply Hd. left. lia.
Qed.

(** ** Properties *)

(** C39: the words of the command line are found in order, each where it
    starts, provided there are at most 64 of them, which is the case when none
    is empty; with more words (the 128 bytes have room for 128 empty ones) the
    function stores outside the array. *)
Theorem read_command_line_correct m ws cnt :
  Forall text_ok ws → le_decode cnt = Z.of_nat (length ws) → length cnt = 4%nat →
  bytes_at m (LOADER_ARG_CNT + PHYS_BASE) cnt → bytes_at m (LOADER_ARGS + PHYS_BASE) (laid_out ws) →
  Z.of_nat (length (laid_out ws)) ≤ LOADER_ARGS_LEN →
  (Forall (λ w, w ≠ []) ws → (length ws ≤ 64)%nat) ∧
  if decide (length ws ≤ 64)%nat
  then ∃ argv, read_command_line m = Ok (argv, m) ∧ Forall2 (cstr m) argv ws
  else read_command_line m = Err BadAccess.
Proof.
  intros Hw Hcnt Hl Hb Hbw Hlen. split.
  { intros Hne. assert (2 * length ws ≤ length (laid_out ws))%nat; [|unfold LOADER_ARGS_LEN in *; lia]. clear -Hne.
    induction Hne as [|w ws Hw _ IH]; simpl; [lia|]. rewrite length_app. simpl. destruct w; [done|]. simpl. lia. }
  pose proof (length_laid_out ws) as Hle. unfold LOADER_ARGS_LEN in Hlen.
  unfold read_command_line. rewrite (ptov_ok LOADER_ARG_CNT) by done. erewrite bind_ok by done.
  destruct cnt as [|b0 [|b1 [|b2 [|b3 [|]]]]]; try done. rewrite !bytes_at_cons in Hb. destruct Hb as (H0 & H1 & H2 & H3 & _).
  rewrite bind_ok with (a := Z.of_nat (length ws)) (s' := m); cycle 1.
  { unfold ld_word. erewrite bind_ok by (by apply ld_ok). erewrite bind_ok by (by apply ld_ok).
    erewrite bind_ok by (apply ld_ok; rewrite <-H2; f_equal; lia). erewrite bind_ok by (apply ld_ok; rewrite <-H3; f_equal; lia).
    by rewrite <-Hcnt. }
  rewrite s32_small, (ptov_ok LOADER_ARGS) by (done || lia). erewrite bind_ok by done.
  pose proof (read_loop m (LOADER_ARGS + PHYS_BASE + LOADER_ARGS_LEN) (Z.of_nat (length ws)) ws 0 (LOADER_ARGS + PHYS_BASE) []
    (S (Z.to_nat LOADER_ARGS_LEN + 1)) ltac:(lia) ltac:(lia) ltac:(unfold LOADER_ARGS_LEN; lia) ltac:(done) Hw Hbw
    ltac:(unfold LOADER_ARGS_LEN; lia)) as Hloop.
  unfold argv_store. rewrite (proj2 (Z.leb_le 0 _)) by lia. cbn [andb]. change argv_len with 65 in *.
  destruct (decide (length ws ≤ 64)%nat) as [H64|H64].
  - rewrite decide_True in Hloop by lia. erewrite bind_ok by exact Hloop.
    rewrite (proj2 (Z.ltb_lt _ _)) by lia. erewrite bind_ok by done. eexists. split; [done|]. simpl. by apply starts_strings.
  - destruct (decide (Z.of_nat (length ws) ≤ 65 ∨ ws = [])) as [Hd|Hd].
    + erewrite bind_ok by exact Hloop. rewrite (proj2 (Z.ltb_ge _ _)); [done|]. destruct Hd as [?| ->]; [lia|simpl in H64; lia].
    + unfold mbind at 1, st_bind at 1. by rewrite Hloop.
Qed.

(** ** Witnesses *)

(** Memory with the count [cnt] and the bytes [bs] of the words. *)
Definition loader_mem (cnt : Z) (bs : list Z) : mem :=
  list_to_map (zip (seqZ (LOADER_ARG_CNT + PHYS_BASE) 132) (le_encode 4 cnt ++ bs ++ repeat 0 (128 - length bs))).

Definition demo_words : list (list Z) := [[45; 113]; [114; 117; 110]; [97; 108; 97; 114; 109]].

Lemma read_command_line_correct_witness :
  ∃ argv, read_command_line (loader_mem 3 (laid_out demo_words)) = Ok (argv, loader_mem 3 (laid_out demo_words)) ∧
    Forall2 (cstr (loader_mem 3 (laid_out demo_words))) argv demo_words.
Proof.
  destruct (read_command_line_correct (loader_mem 3 (laid_out demo_words)) demo_words (le_encode 4 3)) as [_ H].
  - repeat constructor; lia.
  - reflexivity.
  - reflexivity.
  - intros i x Hi. do 4 (destruct i as [|i]; [injection Hi as <-; vm_compute; reflexivity|]). done.
  - intros i x Hi. do 13 (destruct i as [|i]; [injection Hi as <-; vm_compute; reflexivity|]). done.
  - vm_compute. discriminate.
  - exact H.
Defined.

(** 65 empty words are stored in the array, and the null pointer behind it. *)
Example argv_overflow : read_command_line (loader_mem 65 []) = Err BadAccess.
Proof. vm_compute. reflexivity. Qed.
