(* ===== verification/Options.v ===== *)
(** * Options and actions of the kernel: threads/init.c

    The options at the start of the command line are cut into name and value in
    place, with strtok_r, and set variables of the kernel; the words that follow
    are actions, each with its arguments.  [L] gives the addresses of the string
    literals and [now] the result of rtc_get_time.  The build is the one with
    USERPROG and FILESYS.  The functions behind the actions are an argument of
    [run_actions], and the messages are not modelled. *)

From Stdlib Require Import Ascii.
From Stdlib Require String.
From S2P Require Import Prelude StdlibC Random CString Stdio.
Import String.StringSyntax.

(** ** State *)

Inductive shutdown_type := SHUTDOWN_NONE | SHUTDOWN_POWER_OFF | SHUTDOWN_REBOOT.

Record settings := mk_settings {
  how : shutdown_type;
  format_filesys : bool;
  filesys_bdev_name : Z;
  scratch_bdev_name : Z;
  thread_mlfqs : bool;
  user_page_limit : Z
}.

Record sys := mk_sys { memory : mem; vars : settings; rng : rc4 }.

Definition on_mem {A} (f : ST mem A) : ST sys A := λ s,
  match f (memory s) with Ok (x, m) => Ok (x, mk_sys m (vars s) (rng s)) | Err e => Err e end.
Definition on_rng {A} (f : ST rc4 A) : ST sys A := λ s,
  match f (rng s) with Ok (x, r) => Ok (x, mk_sys (memory s) (vars s) r) | Err e => Err e end.
Definition set_vars (f : settings → settings) : ST sys unit := modify (λ s, mk_sys (memory s) (f (vars s)) (rng s)).

Definition set_how x v := mk_settings x (format_filesys v) (filesys_bdev_name v) (scratch_bdev_name v) (thread_mlfqs v) (user_page_limit v).
Definition set_format x v := mk_settings (how v) x (filesys_bdev_name v) (scratch_bdev_name v) (thread_mlfqs v) (user_page_limit v).
Definition set_filesys x v := mk_settings (how v) (format_filesys v) x (scratch_bdev_name v) (thread_mlfqs v) (user_page_limit v).
Definition set_scratch x v := mk_settings (how v) (format_filesys v) (filesys_bdev_name v) x (thread_mlfqs v) (user_page_limit v).
Definition set_mlfqs x v := mk_settings (how v) (format_filesys v) (filesys_bdev_name v) (scratch_bdev_name v) x (user_page_limit v).
Definition set_limit x v := mk_settings (how v) (format_filesys v) (filesys_bdev_name v) (scratch_bdev_name v) (thread_mlfqs v) x.

Definition shutdown_configure (t : shutdown_type) : ST sys unit := set_vars (set_how t).

Section options.
Variable L : list Z → Z.
Variable now : Z.

(** ** parse_options *)

Definition matches (name : Z) (t : list Z) : ST sys bool := r ← on_mem (strcmp name (L t)); mret (r =? 0).

(** The string at [p], and atoi of it, which asserts that it is not null. *)
Fixpoint load_string (p : Z) (n : nat) : ST mem (list Z) :=
  match n with O => mret [] | S k => b ← ld p; r ← load_string (p + 1) k; mret (b :: r) end.
Definition atoi_at (p : Z) : ST sys Z :=
  assert (negb (p =? NULL));;
  n ← on_mem (strlen p); t ← on_mem (load_string p (Z.to_nat n)); mret (atoi t).

(** One option; the result is false when the machine is powered off. *)
Definition take_option (name value : Z) : ST sys bool :=
  b ← matches name (str "-h");
  if b : bool then mret false
  else b ← matches name (str "-q");
  if b : bool then shutdown_configure SHUTDOWN_POWER_OFF;; mret true
  else b ← matches name (str "-r");
  if b : bool then shutdown_configure SHUTDOWN_REBOOT;; mret true
  else b ← matches name (str "-f");
  if b : bool then set_vars (set_format true);; mret true
  else b ← matches name (str "-filesys");
  if b : bool then set_vars (set_filesys value);; mret true
  else b ← matches name (str "-scratch");
  if b : bool then set_vars (set_scratch value);; mret true
  else b ← matches name (str "-rs");
  if b : bool then n ← atoi_at value; on_rng (random_init (u32 n));; mret true
  else b ← matches name (str "-mlfqs");
  if b : bool then set_vars (set_mlfqs true);; mret true
  else b ← matches name (str "-ul");
  if b : bool then n ← atoi_at value; set_vars (set_limit (u32 n));; mret true
  else fail KernelPanic.

(** A round of the loop, which ends with the rest of argv, or with nothing when
    the machine is powered off. *)
Definition option_round : list Z → ST sys (list Z + option (list Z)) := λ argv,
  match argv with
  | [] => mret (inr (Some []))
  | p :: r =>
      c ← on_mem (ld p);
      if c =? chr "-" then
        t ← on_mem (strtok_r p (L (str "=")) 0);
        v ← on_mem (strtok_r NULL (L []) (snd t));
        ok ← take_option (fst t) (fst v);
        mret (if ok : bool then inl r else inr None)
      else mret (inr (Some argv))
  end.

Definition parse_options (argv : list Z) : ST sys (option (list Z)) :=
  r ← loopM (S (length argv)) option_round argv;
  match r with
  | Some argv => on_rng (random_init (u32 now));; mret (Some argv)
  | None => mret None
  end.

(** ** run_actions *)

Inductive action := Run | Ls | Cat | Rm | Extract | Append.

Definition actions : list (list Z * nat * action) :=
  [(str "run", 2%nat, Run); (str "ls", 1%nat, Ls); (str "cat", 2%nat, Cat); (str "rm", 2%nat, Rm);
   (str "extract", 1%nat, Extract); (str "append", 2%nat, Append)].

Fixpoint find_action (l : list (list Z * nat * action)) (word : Z) : ST sys (nat * action) :=
  match l with
  | [] => fail KernelPanic
  | (name, argc, f) :: r => r0 ← on_mem (strcmp word (L name)); if r0 =? 0 then mret (argc, f) else find_action r word
  end.

(** [call f argv] is the call of the function of the table. *)
Definition action_round (call : action → list Z → ST sys unit) : list Z → ST sys (list Z + unit) := λ argv,
  match argv with
  | [] => mret (inr tt)
  | word :: _ =>
      a ← find_action actions word;
      if (length argv <? fst a)%nat then fail KernelPanic
      else call (snd a) argv;; mret (inl (drop (fst a) argv))
  end.

Definition run_actions (call : action → list Z → ST sys unit) (argv : list Z) : ST sys unit :=
  loopM (S (length argv)) (action_round call) argv.
End options.
