(* ===== verification/OptionsSpec.v ===== *)
(** * Options and actions of the kernel: what the command line means

    The words of the command line, which lie one behind the other in memory, are
    given a meaning as strings; [parse_options] and [run_actions] implement it.
    The random number generator is seeded with the time in every case. *)

From Stdlib Require Import Ascii.
From Stdlib Require String.
From S2P Require Import Prelude StdlibC Random CString Stdio CommandLine Options.
Import String.StringSyntax.

(** ** Seeding *)

Definition same_array (st1 st2 : rc4) : Prop := s st1 = s st2.

Lemma s_get_same i st1 st2 : same_array st1 st2 → (∃ x, s_get i st1 = Ok (x, st1) ∧ s_get i st2 = Ok (x, st2)) ∨ s_get i st1 = Err BadAccess ∧ s_get i st2 = Err BadAccess.
Proof. unfold same_array, s_get. intros ->. destruct (s st2 !! Z.to_nat i); [left|by right]; eauto. Qed.

(** Two runs that do the same to the array. *)
Definition alike {A} (r1 r2 : result (A * rc4)) : Prop :=
  match r1, r2 with Ok (x, st1), Ok (y, st2) => x = y ∧ same_array st1 st2 | Err e, Err e' => e = e' | _, _ => False end.

Lemma bind_alike {A B} (f : ST rc4 A) (g : A → ST rc4 B) st1 st2 :
  alike (f st1) (f st2) → (∀ x st1 st2, same_array st1 st2 → alike (g x st1) (g x st2)) → alike ((f ≫= g) st1) ((f ≫= g) st2).
Proof.
  intros Hf Hg. unfold mbind, st_bind. destruct (f st1) as [[x t1]|], (f st2) as [[y t2]|]; try done. destruct Hf as [-> Hs]. by apply Hg.
Qed.

Lemma loop_alike {L A} (body : L → ST rc4 (L + A)) fuel : (∀ l st1 st2, same_array st1 st2 → alike (body l st1) (body l st2)) →
  ∀ l st1 st2, same_array st1 st2 → alike (loopM fuel body l st1) (loopM fuel body l st2).
Proof.
  intros Hb. induction fuel as [|fuel IH]; intros l st1 st2 Hs; [done|]. rewrite !loopM_unfold. specialize (Hb l st1 st2 Hs).
  destruct (body l st1) as [[[l'|x] t1]|], (body l st2) as [[[l2|y] t2]|]; try done; destruct Hb as [[= ->] Hs']; [by apply IH|done].
Qed.

Lemma s_get_alike i st1 st2 : same_array st1 st2 → alike (s_get i st1) (s_get i st2).
Proof. intros Hs. by destruct (s_get_same i st1 st2 Hs) as [(x & -> & ->)|[-> ->]]. Qed.

Lemma s_put_alike i v st1 st2 : same_array st1 st2 → alike (s_put i v st1) (s_put i v st2).
Proof.
  intros Hs. unfold s_put. apply bind_alike; [by apply s_get_alike|]. intros x t1 t2 Ht. split; [done|]. unfold same_array in *. simpl. by rewrite Ht.
Qed.

Lemma swap_alike a b st1 st2 : same_array st1 st2 → alike (swap_byte a b st1) (swap_byte a b st2).
Proof.
  intros Hs. unfold swap_byte. apply bind_alike; [by apply s_get_alike|]. intros x t1 t2 Ht. apply bind_alike; [by apply s_get_alike|].
  intros y u1 u2 Hu. apply bind_alike; [by apply s_put_alike|]. intros [] v1 v2 Hv. by apply s_put_alike.
Qed.

(** The first loop of random_init forgets what the array held. *)
Lemma fill_array st : length (s st) = 256%nat →
  ∃ st', loopM 257 (λ i, if i <? 256 then s_get i;; modify (λ st, set_s (<[Z.to_nat i := u8 i]> (s st)) st);; mret (inl (i + 1)) else mret (inr tt)) 0 st = Ok (tt, st') ∧
    s st' = byte_values.
Proof.
  intros Hl. edestruct (loopM_rule (λ n i st1, 0 ≤ i ≤ 256 ∧ n = Z.to_nat (256 - i) ∧ length (s st1) = 256%nat ∧
      take (Z.to_nat i) (s st1) = take (Z.to_nat i) byte_values) (λ (_ : unit) st1, s st1 = byte_values)) as ([] & st1 & E1 & H1); [| | |by exists st1].
  - intros n i st1 (Hi & -> & Hl1 & Ht). destruct (Z.ltb_spec i 256).
    + unfold s_get. destruct (lookup_lt_is_Some_2 (s st1) (Z.to_nat i)) as [x Ex]; [lia|].
      erewrite bind_ok; [|rewrite Ex; reflexivity]. erewrite bind_ok; [|reflexivity]. eexists _, _. split; [reflexivity|].
      exists (Z.to_nat (256 - (i + 1))). split; [lia|]. simpl. rewrite length_insert, Z2Nat.inj_add, Nat.add_1_r by lia. split_and!; try done; try lia.
      assert (byte_values !! Z.to_nat i = Some (u8 i)) as Ei.
      { unfold byte_values. rewrite list_lookup_fmap, lookup_seq_lt by lia. simpl. rewrite u8_small by lia. f_equal. lia. }
      rewrite (take_S_r byte_values _ _ Ei), (take_S_r _ _ (u8 i)); [rewrite take_insert_ge by lia; by rewrite Ht|]. apply list_lookup_insert_eq. lia.
    + eexists _, _. split; [reflexivity|]. assert (i = 256) as -> by lia. by rewrite !take_ge in Ht by (simpl; lia).
  - split_and!; [lia..|reflexivity|done|done].
  - lia.
Qed.

(** The generator depends on the last seed only. *)
Lemma random_init_seed seed st1 st2 : rc4_array st1 → rc4_array st2 → random_init seed st1 = random_init seed st2.
Proof.
  intros H1 H2. destruct (fill_array st1) as (t1 & E1 & B1); [apply H1|]. destruct (fill_array st2) as (t2 & E2 & B2); [apply H2|].
  unfold random_init. erewrite bind_ok by exact E1. symmetry. erewrite bind_ok by exact E2. symmetry.
  assert (same_array t1 t2) as Hs by (unfold same_array; congruence).
  match goal with |- (loopM 257 ?f ?l ≫= ?g) _ = _ => assert (alike (loopM 257 f l t1) (loopM 257 f l t2)) as Ha end.
  { apply loop_alike; [|done]. intros [i j] u1 u2 Hu. destruct (i <? 256); [|done]. apply bind_alike; [by apply s_get_alike|]. intros x v1 v2 Hv.
    apply bind_alike; [by apply swap_alike|]. done. }
  match goal with |- (?f ≫= ?g) ?a = (_ ≫= _) ?b =>
    change (match f a with Ok (x, t) => g x t | Err e => Err e end = match f b with Ok (x, t) => g x t | Err e => Err e end) end.
  destruct (loopM 257 _ _ t1) as [[[] u1]|], (loopM 257 _ _ t2) as [[[] u2]|]; simpl in Ha; [|done|done|by subst].
  destruct Ha as [_ Ha]. unfold modify. unfold same_array in Ha. by rewrite Ha.
Qed.

(** ** The meaning of the words *)

(** The settings, with strings in the place of pointers. *)
Record options := mk_options {
  o_how : shutdown_type;
  o_format : bool;
  o_filesys : option (list Z);
  o_scratch : option (list Z);
  o_mlfqs : bool;
  o_limit : Z
}.

(** The name of an option ends at the first equals sign; the value is what
    follows it, if that is anything. *)
Fixpoint cut (w : list Z) : list Z * option (list Z) :=
  match w with
  | [] => ([], None)
  | c :: r =>
      if c =? chr "=" then ([], match r with [] => None | _ => Some r end)
      else let '(n, v) := cut r in (c :: n, v)
  end.

(** The options after one more, nothing after the request for help; a number
    that is missing fails an assertion. *)
Definition apply_option (name : list Z) (value : option (list Z)) (o : options) : result (option options) :=
  let number f := match value with Some t => Ok (Some (f (u32 (atoi t)))) | None => Err AssertFail end in
  let '(mk_options h f fs sc ml lim) := o in
  if decide (name = str "-h") then Ok None
  else if decide (name = str "-q") then Ok (Some (mk_options SHUTDOWN_POWER_OFF f fs sc ml lim))
  else if decide (name = str "-r") then Ok (Some (mk_options SHUTDOWN_REBOOT f fs sc ml lim))
  else if decide (name = str "-f") then Ok (Some (mk_options h true fs sc ml lim))
  else if decide (name = str "-filesys") then Ok (Some (mk_options h f value sc ml lim))
  else if decide (name = str "-scratch") then Ok (Some (mk_options h f fs value ml lim))
  else if decide (name = str "-rs") then number (λ _, o)
  else if decide (name = str "-mlfqs") then Ok (Some (mk_options h f fs sc true lim))
  else if decide (name = str "-ul") then number (mk_options h f fs sc ml)
  else Err KernelPanic.

(** The options at the front, and the words behind them. *)
Fixpoint parse_words (ws : list (list Z)) (o : options) : result (option (options * list (list Z))) :=
  match ws with
  | w :: r =>
      if decide (head w = Some (chr "-")) then
        match uncurry apply_option (cut w) o with
        | Ok (Some o') => parse_words r o'
        | Ok None => Ok None
        | Err e => Err e
        end
      else Ok (Some (o, ws))
  | [] => Ok (Some (o, []))
  end.

(** ** Representation *)

(** The pointer [q] stands for the optional string [v], which ends before [hi]. *)
Definition held (m : mem) (hi q : Z) (v : option (list Z)) : Prop :=
  match v with None => q = NULL | Some t => cstr m q t ∧ q + Z.of_nat (length t) < hi end.

Definition describes (m : mem) (hi : Z) (v : settings) (o : options) : Prop :=
  how v = o_how o ∧ format_filesys v = o_format o ∧ held m hi (filesys_bdev_name v) (o_filesys o) ∧
  held m hi (scratch_bdev_name v) (o_scratch o) ∧ thread_mlfqs v = o_mlfqs o ∧ user_page_limit v = o_limit o.

Definition literals : list (list Z) :=
  [str "="; []; str "-h"; str "-q"; str "-r"; str "-f"; str "-filesys"; str "-scratch"; str "-rs"; str "-mlfqs"; str "-ul"].

Section spec.
Variable L : list Z → Z.
Variable now : Z.

(** The literals lie in memory, outside of the words from [lo] to [hi]. *)
Definition literals_at (m : mem) (lo hi : Z) : Prop :=
  Forall (λ t, cstr m (L t) t ∧ (L t + Z.of_nat (length t) < lo ∨ hi ≤ L t)) literals.

Lemma cstr_same m m' q t : (∀ a, q ≤ a ≤ q + Z.of_nat (length t) → m' !! a = m !! a) → cstr m q t → cstr m' q t.
Proof. intros Hf [Hb Hc Hp]. split; [|done..]. eapply bytes_at_frame; [|exact Hb]. rewrite length_app. simpl. intros a Ha. apply Hf. lia. Qed.

Lemma held_later m m' hi hi' q v : (∀ a, a < hi → m' !! a = m !! a) → hi ≤ hi' → held m hi q v → held m' hi' q v.
Proof. intros Hf Hh. destruct v as [t|]; [|done]. intros [Hc Hl]. split; [|lia]. eapply cstr_same; [|exact Hc]. intros a Ha. apply Hf. lia. Qed.

Lemma describes_later m m' hi hi' v o : (∀ a, a < hi → m' !! a = m !! a) → hi ≤ hi' → describes m hi v o → describes m' hi' v o.
Proof. intros Hf Hh (? & ? & ? & ? & ? & ?). split_and!; try done; by eapply held_later. Qed.

Lemma literals_later m m' lo lo' hi : (∀ a, a < lo ∨ hi ≤ a → m' !! a = m !! a) → lo ≤ lo' → literals_at m lo hi → literals_at m' lo' hi.
Proof.
  intros Hf Hl H. eapply Forall_impl; [exact H|]. intros t [Hc Ht]. split; [|lia]. eapply cstr_same; [|exact Hc]. intros a Ha. apply Hf. lia.
Qed.

Lemma cut_spec w : ∃ rest, w = fst (cut w) ++ rest ∧ Forall (.≠ chr "=") (fst (cut w)) ∧ (∀ c, head rest = Some c → c = chr "=") ∧
  snd (cut w) = match List.tl rest with [] => None | t => Some t end.
Proof.
  induction w as [|c w (rest & E & Hn & Hh & Hv)]; simpl; [by exists []|]. destruct (Z.eqb_spec c (chr "=")) as [->|N].
  - exists (chr "=" :: w). split_and!; [done|done|by intros ? [= <-]|]. by destruct w.
  - destruct (cut w) as [n v]. simpl in *. exists rest. split_and!; [by f_equal|by constructor|done|done].
Qed.

(** ** One option *)

Lemma on_memory_ok {A} (f : ST mem A) x m m' v g : f m = Ok (x, m') → on_mem f (mk_sys m v g) = Ok (x, mk_sys m' v g).
Proof. intros E. unfold on_mem. simpl. by rewrite E. Qed.

Lemma option_literal_ok m lo hi t : literals_at m lo hi → t ∈ literals → cstr m (L t) t ∧ (L t + Z.of_nat (length t) < lo ∨ hi ≤ L t).
Proof. intros H Ht. unfold literals_at in H. rewrite Forall_forall in H. by apply H. Qed.

(** The two calls of strtok_r cut the word in place. *)
Lemma cut_ok m p w lo hi : literals_at m lo hi → lo ≤ p → p + Z.of_nat (length w) < hi → cstr m p w → head w = Some (chr "-") →
  ∃ save save' q m1 m2, strtok_r p (L (str "=")) 0 m = Ok ((p, save), m1) ∧ strtok_r NULL (L []) save m1 = Ok ((q, save'), m2) ∧
    cstr m2 p (fst (cut w)) ∧ held m2 (p + Z.of_nat (length w) + 1) q (snd (cut w)) ∧
    (∀ a, a < p ∨ p + Z.of_nat (length w) < a → m2 !! a = m !! a).
Proof.
  intros HL Hlo Hhi Hw Hd. destruct (cut_spec w) as (rest & E & Hn & Hh & Hv). destruct (cut w) as [[|c n] v]; simpl in *.
  { subst w. by apply Hh in Hd. }
  pose proof (f_equal length E) as El. simpl in El. rewrite length_app in El. rewrite E in Hw.
  destruct (option_literal_ok _ _ _ (str "=") HL) as [Heq _]; [by repeat constructor|]. destruct (option_literal_ok _ _ _ [] HL) as [Hnil Hnl]; [by repeat constructor|].
  destruct (strtok_r_correct m (L (str "=")) (str "=") p [] (c :: n) rest p 0) as (m1 & E1 & Hn1 & Hr1 & Hf1); [done|done|done| |by intros x ->%Hh; left|done|by left|].
  { eapply Forall_impl; [exact Hn|]. intros x Hx Hin. by apply list_elem_of_singleton in Hin. }
  simpl in E1, Hn1, Hr1, Hf1. rewrite Z.add_0_r in E1, Hn1, Hr1, Hf1. set (save := p + Z.of_nat (S (length n)) + if decide (rest = []) then 0 else 1) in *.
  assert (save + Z.of_nat (length (List.tl rest)) = p + Z.of_nat (length w)) as Hs.
  { unfold save. destruct rest; [rewrite decide_True by done|rewrite decide_False by done]; simpl in *; lia. }
  assert (∀ a, a < p ∨ p + Z.of_nat (length w) ≤ a → m1 !! a = m !! a) as Hf1'.
  { intros a Ha. destruct rest as [|x rest]; [|apply Hf1; simpl in *; lia]. destruct (decide (a = p + Z.of_nat (S (length n)))) as [->|]; [|by apply Hf1].
    unfold save in Hr1. rewrite decide_True, Z.add_0_r in Hr1 by done. rewrite (cstr_head _ _ _ Hr1).
    apply (cstr_suffix m p (c :: n) []), cstr_head in Hw. by symmetry. }
  assert (cstr m1 (L []) []) as Hnil1. { eapply cstr_same; [|exact Hnil]. simpl. intros a Ha. apply Hf1'. simpl in Hnl. lia. }
  pose proof (strtok_r_correct m1 (L []) [] save [] (List.tl rest) [] NULL save) as H2. simpl in H2.
  specialize (H2 Hnil1). rewrite app_nil_r in H2. specialize (H2 Hr1). specialize (H2 (Forall_nil_2 _)).
  assert (Forall (.∉ []) (List.tl rest)) as Hnone. { apply Forall_true. intros x. apply not_elem_of_nil. }
  specialize (H2 Hnone). specialize (H2 ltac:(done) ltac:(done) ltac:(by right)). rewrite Hv. destruct (List.tl rest) as [|x tok].
  - eexists _, _, _, _, _. split_and!; [exact E1|exact H2|done|done|]. intros a Ha. apply Hf1'. lia.
  - destruct H2 as (m2 & E2 & Ht2 & _ & Hf2). rewrite Z.add_0_r in *. simpl in Hs. eexists _, _, _, _, _. split_and!; [exact E1|exact E2| |split; [exact Ht2|simpl; lia]|].
    + eapply cstr_same; [|exact Hn1]. intros a Ha. apply Hf2. unfold save in *. destruct (decide (rest = [])); simpl in *; lia.
    + intros a Ha. rewrite Hf2 by (simpl; lia). apply Hf1'. lia.
Qed.

Lemma load_string_ok m t : ∀ p, bytes_at m p t → load_string p (length t) m = Ok (t, m).
Proof.
  induction t as [|c t IH]; intros p Hb; [done|]. apply bytes_at_cons in Hb as [Hc Hb]. simpl. erewrite bind_ok by (by apply ld_ok).
  erewrite bind_ok by (by apply IH). done.
Qed.

Lemma atoi_at_ok m hi q t v g : held m hi q t →
  atoi_at q (mk_sys m v g) = match t with Some t => Ok (atoi t, mk_sys m v g) | None => Err AssertFail end.
Proof.
  unfold atoi_at. destruct t as [t|]; [|by intros ->]. intros [Ht _]. assert (0 < q) as Hq by apply Ht. rewrite (proj2 (Z.eqb_neq q NULL)) by (unfold NULL; lia).
  erewrite bind_ok by done. erewrite bind_ok by (by apply on_memory_ok, strlen_ok). rewrite Nat2Z.id.
  erewrite bind_ok; [done|]. apply on_memory_ok, load_string_ok. destruct Ht as [Hb _ _]. by apply bytes_at_app in Hb as [? _].
Qed.

Lemma if_matches m lo hi p w t v g (k1 k2 : ST sys bool) : literals_at m lo hi → cstr m p w → t ∈ literals →
  (b ← matches L p t; if b : bool then k1 else k2) (mk_sys m v g) = if decide (w = t) then k1 (mk_sys m v g) else k2 (mk_sys m v g).
Proof.
  intros HL Hw Ht. unfold matches, mbind at 1, st_bind at 1. erewrite bind_ok by (apply on_memory_ok, strcmp_ok; [done|by apply (option_literal_ok _ _ _ _ HL)]).
  unfold mret, st_ret. destruct (Z.eqb_spec (lexcmp w t) 0) as [E|N]; rewrite lexcmp_eq in *; [by rewrite decide_True|by rewrite decide_False].
Qed.

(** What an option does to the settings and the generator. *)
Lemma take_option_ok m lo hi hi' p q name value v o g : literals_at m lo hi → cstr m p name → held m hi' q value → describes m hi' v o → rc4_array g →
  match apply_option name value o with
  | Ok (Some o') => ∃ v' g', take_option L p q (mk_sys m v g) = Ok (true, mk_sys m v' g') ∧ describes m hi' v' o' ∧ rc4_array g'
  | Ok None => take_option L p q (mk_sys m v g) = Ok (false, mk_sys m v g)
  | Err e => take_option L p q (mk_sys m v g) = Err e
  end.
Proof.
  intros HL Hn Hv Hd Hg. pose proof (λ v g, atoi_at_ok m hi' q value v g Hv) as Ha.
  destruct o as [h f fs sc ml lim], v as [h' f' fs' sc' ml' lim']. pose proof Hd as (E1 & E2 & Hfs & Hsc & E3 & E4). simpl in E1, E2, E3, E4, Hfs, Hsc. subst.
  unfold take_option. rewrite !(if_matches m lo hi p name) by (done || by repeat constructor). unfold apply_option.
  repeat case_decide.
  all: try (eexists _, _; split; [reflexivity|]; by split_and!).
  - done.
  - destruct value as [t|]; [|by unfold mbind, st_bind; rewrite Ha]. rewrite (bind_ok _ _ _ _ _ (Ha _ _)).
    destruct (random_init_ok g (u32 (atoi t)) Hg) as (g' & Eg & Hw & _). eexists _, g'. split; [|split; [exact Hd|by apply perm_array, Hw]].
    unfold mbind, st_bind, on_rng. simpl. by rewrite Eg.
  - destruct value as [t|]; [|by unfold mbind, st_bind; rewrite Ha]. rewrite (bind_ok _ _ _ _ _ (Ha _ _)).
    eexists _, _. split; [reflexivity|]. by split_and!.
  - done.
Qed.

(** ** The loop over the options *)

Lemma parse_loop hi ws : ∀ p m v o g fuel,
  (length ws < fuel)%nat → 0 < p → Forall text_ok ws → bytes_at m p (laid_out ws) → p + Z.of_nat (length (laid_out ws)) ≤ hi →
  literals_at m p hi → describes m p v o → rc4_array g →
  match parse_words ws o with
  | Ok (Some (o', rest)) => ∃ argv m' v' g', loopM fuel (option_round L) (starts p ws) (mk_sys m v g) = Ok (Some argv, mk_sys m' v' g') ∧
      Forall2 (cstr m') argv rest ∧ describes m' hi v' o' ∧ rc4_array g' ∧ (∀ a, a < p ∨ hi ≤ a → m' !! a = m !! a)
  | Ok None => ∃ s', loopM fuel (option_round L) (starts p ws) (mk_sys m v g) = Ok (None, s')
  | Err e => loopM fuel (option_round L) (starts p ws) (mk_sys m v g) = Err e
  end.
Proof.
  induction ws as [|w ws IH]; intros p m v o g fuel Hf Hp Hw Hb Hhi HL Hd Hg; (destruct fuel as [|fuel]; [simpl in Hf; lia|]).
  { eexists _, m, v, g. split_and!; [reflexivity|constructor| |done|done]. eapply describes_later; [done| |exact Hd]. simpl in Hhi. lia. }
  pose proof (starts_strings m (w :: ws) p Hp Hw Hb) as Hst. apply Forall_cons in Hw as [Hw Hws]. inversion Hst as [|? ? ? ? Hcs _]; subst.
  simpl in Hb, Hhi, Hf. rewrite length_app in Hhi. simpl in Hhi. rewrite cons_middle, app_assoc in Hb. apply bytes_at_app in Hb as [_ Hb].
  rewrite length_app in Hb. simpl in Hb. replace (p + Z.of_nat (length w + 1)) with (p + Z.of_nat (length w) + 1) in Hb by lia.
  rewrite loopM_unfold. cbn [parse_words starts option_round]. rewrite !(bind_ok (on_mem (ld p)) _ _ _ _ (on_memory_ok _ _ _ _ _ _ (ld_ok _ _ _ (cstr_head _ _ _ Hcs)))).
  destruct (decide (head w = Some (chr "-"))) as [Hh|Hh]; cycle 1.
  { replace (List.hd 0 w =? chr "-") with false; cycle 1.
    { symmetry. apply Z.eqb_neq. intros E. apply Hh. destruct w; [done|]. simpl in *. by f_equal. }
    eexists _, m, v, g. split_and!; [reflexivity|exact Hst| |done|done]. eapply describes_later; [done| |exact Hd]. lia. }
  replace (List.hd 0 w =? chr "-") with true by (destruct w; [done|]; injection Hh as ->; done).
  destruct (cut_ok m p w p hi HL) as (save & save' & q & m1 & m2 & E1 & E2 & Hname & Hval & Hfr); [lia|lia|done|done|].
  rewrite !(bind_ok _ _ _ _ _ (on_memory_ok _ _ _ _ v g E1)). cbn [fst snd]. rewrite !(bind_ok _ _ _ _ _ (on_memory_ok _ _ _ _ v g E2)). cbn [fst snd].
  assert (literals_at m2 (p + Z.of_nat (length w) + 1) hi) as HL2. { eapply literals_later; [|idtac|exact HL]; [intros a Ha; apply Hfr; lia|lia]. }
  assert (describes m2 (p + Z.of_nat (length w) + 1) v o) as Hd2. { eapply describes_later; [|idtac|exact Hd]; [intros a Ha; apply Hfr; lia|lia]. }
  pose proof (take_option_ok m2 _ hi _ p q _ _ v o g HL2 Hname Hval Hd2 Hg) as Ht. destruct (cut w) as [name value]. cbn [uncurry fst snd] in *.
  destruct (apply_option name value o) as [[o'|]|e].
  - destruct Ht as (v' & g' & Et & Hd' & Hg'). rewrite !(bind_ok _ _ _ _ _ Et). cbn [mret st_ret].
    specialize (IH (p + Z.of_nat (length w) + 1) m2 v' o' g' fuel ltac:(lia) ltac:(lia) Hws).
    assert (bytes_at m2 (p + Z.of_nat (length w) + 1) (laid_out ws)) as Hb2 by (eapply bytes_at_frame; [|exact Hb]; intros a Ha; apply Hfr; lia).
    specialize (IH Hb2 ltac:(lia) HL2 Hd' Hg'). destruct (parse_words ws o') as [[[o2 rest]|]|e]; [|exact IH..].
    destruct IH as (argv & m3 & v3 & g3 & E3 & Hr3 & Hd3 & Hg3 & Hf3). exists argv, m3, v3, g3. split_and!; try done.
    intros a Ha. rewrite Hf3 by lia. apply Hfr. lia.
  - rewrite (bind_ok _ _ _ _ _ Ht). eexists. reflexivity.
  - unfold mbind at 1, st_bind at 1. by rewrite Ht.
Qed.
End spec.

(** ** Actions *)

Definition name_of (f : action) : list Z :=
  match f with Run => str "run" | Ls => str "ls" | Cat => str "cat" | Rm => str "rm" | Extract => str "extract" | Append => str "append" end.
Definition arguments (f : action) : nat := match f with Run | Cat | Rm | Append => 1 | Ls | Extract => 0 end.

(** The calls that the actions ask for, each with the rest of the words. *)
Fixpoint calls (call : action → list Z → ST sys unit) (cmds : list (action * list (list Z))) (argv : list Z) : ST sys unit :=
  match cmds with
  | [] => mret tt
  | (f, args) :: r => call f argv;; calls call r (drop (S (length args)) argv)
  end.

Definition action_words (c : action * list (list Z)) : list (list Z) := name_of (fst c) :: snd c.

(** The strings that the loop reads. *)
Definition strings_at (L : list Z → Z) (m : mem) (argv : list Z) (ws : list (list Z)) : Prop :=
  Forall2 (cstr m) argv ws ∧ ∀ f, cstr m (L (name_of f)) (name_of f).

Lemma strings_drop L m argv ws n : strings_at L m argv ws → strings_at L m (drop n argv) (drop n ws).
Proof. intros [H1 H2]. split; [by apply Forall2_drop|done]. Qed.

Lemma find_action_cons L m word w f argc r v g : cstr m word w → cstr m (L (name_of f)) (name_of f) →
  find_action L ((name_of f, argc, f) :: r) word (mk_sys m v g) =
  if decide (w = name_of f) then Ok ((argc, f), mk_sys m v g) else find_action L r word (mk_sys m v g).
Proof.
  intros Hw HL. cbn [find_action]. erewrite bind_ok by (by apply on_memory_ok, strcmp_ok).
  destruct (Z.eqb_spec (lexcmp w (name_of f)) 0) as [E|N]; rewrite lexcmp_eq in *; [by rewrite decide_True|by rewrite decide_False].
Qed.

Lemma find_action_ok L m word f v g : cstr m word (name_of f) → (∀ f, cstr m (L (name_of f)) (name_of f)) →
  find_action L actions word (mk_sys m v g) = Ok ((S (arguments f), f), mk_sys m v g).
Proof.
  intros Hw HL. pose proof (λ f' argc r, find_action_cons L m word _ f' argc r v g Hw (HL f')) as Hc.
  unfold actions. rewrite (Hc Run), (Hc Ls), (Hc Cat), (Hc Rm), (Hc Extract), (Hc Append). by destruct f.
Qed.

(** The words of well-formed actions are run one after the other, each with
    its own arguments at the front of argv, if the actions leave the strings alone. *)
Lemma run_actions_ok L call cmds : (∀ f argv s s' a ws, call f argv s = Ok (tt, s') → strings_at L (memory s) a ws → strings_at L (memory s') a ws) →
  Forall (λ c, length (snd c) = arguments (fst c)) cmds → ∀ argv s fuel, strings_at L (memory s) argv (concat (action_words <$> cmds)) → (length cmds < fuel)%nat →
  loopM fuel (action_round L call) argv s = calls call cmds argv s.
Proof.
  intros Hcall Hcmds. induction Hcmds as [|[f args] cmds Hl _ IH]; intros argv [m v g] fuel Hs Hf; (destruct fuel as [|fuel]; [simpl in Hf; lia|]).
  { destruct Hs as [Hs _]. by inversion Hs. }
  pose proof (strings_drop _ _ _ _ (S (length args)) Hs) as Hd. cbn [fmap list_fmap concat action_words fst snd app drop] in Hd. rewrite drop_app_length in Hd.
  destruct Hs as [Hs HL]. cbn [fmap list_fmap concat action_words fst snd app] in Hs, Hl. pose proof (Forall2_length _ _ _ Hs) as Hlen. inversion Hs as [|word ? rest ? Hw _]; subst.
  rewrite loopM_unfold. cbn [action_round calls]. erewrite bind_ok by (by apply find_action_ok). cbn [fst snd]. simpl in Hlen. rewrite length_app in Hlen.
  rewrite (proj2 (Nat.ltb_ge _ _)) by (simpl; lia). unfold mbind at 1 2, st_bind at 1 2. destruct (call f _ _) as [[[] s']|] eqn:Ec; [|done].
  rewrite <-Hl. apply IH; [by eapply Hcall|]. simpl in Hf. lia.
Qed.

(** ** Properties *)

(** C38: the words at the front of the command line that start with a dash are
    taken as options, cut in place at the first equals sign; afterwards the
    settings are those that the words mean, with the names as strings in
    memory, and the other words are left as they were.  An unknown option and
    a missing number stop the kernel, and a request for help powers it off.
    Whatever the options are, the "-rs" option included, the random number
    generator is then in the state that a first seeding with the time gives. *)
Theorem parse_options_correct L now p m ws v o g :
  let e := p + Z.of_nat (length (laid_out ws)) in
  0 < p → Forall text_ok ws → bytes_at m p (laid_out ws) → literals_at L m p e → describes m p v o → rc4_array g →
  match parse_words ws o with
  | Ok (Some (o', rest)) => ∃ argv m' v' g', parse_options L now (starts p ws) (mk_sys m v g) = Ok (Some argv, mk_sys m' v' g') ∧
      Forall2 (cstr m') argv rest ∧ describes m' e v' o' ∧ random_init (u32 now) g = Ok (tt, g') ∧ (∀ a, a < p ∨ e ≤ a → m' !! a = m !! a)
  | Ok None => ∃ s', parse_options L now (starts p ws) (mk_sys m v g) = Ok (None, s')
  | Err err => parse_options L now (starts p ws) (mk_sys m v g) = Err err
  end.
Proof.
  intros e Hp Hw Hb HL Hd Hg. unfold parse_options. rewrite length_starts.
  pose proof (parse_loop L e ws p m v o g (S (length ws)) ltac:(lia) Hp Hw Hb ltac:(lia) HL Hd Hg) as H.
  destruct (parse_words ws o) as [[[o' rest]|]|err].
  - destruct H as (argv & m' & v' & g' & E & Hr & Hd' & Hg' & Hf). erewrite bind_ok by exact E.
    destruct (random_init_ok g' (u32 now) Hg') as (g2 & E2 & _). exists argv, m', v', g2. split_and!; try done.
    + unfold mbind, st_bind, on_rng. simpl. by rewrite E2.
    + by rewrite <-E2, (random_init_seed _ g g').
  - destruct H as [s' E]. erewrite bind_ok by exact E. by eexists.
  - unfold mbind, st_bind. by rewrite H.
Qed.

(** Well-formed actions are run in order, each with its own arguments at the
    front of what it is given. *)
Theorem run_actions_correct L call cmds argv s :
  (∀ f argv s s' a ws, call f argv s = Ok (tt, s') → strings_at L (memory s) a ws → strings_at L (memory s') a ws) →
  Forall (λ c, length (snd c) = arguments (fst c)) cmds → strings_at L (memory s) argv (concat (action_words <$> cmds)) →
  run_actions L call argv s = calls call cmds argv s.
Proof.
  intros Hcall Hcmds Hs. apply run_actions_ok; try done. destruct Hs as [Hs _]. rewrite (Forall2_length _ _ _ Hs). clear.
  induction cmds as [|[f a] cmds IH]; [simpl; lia|]. rewrite fmap_cons. cbn [concat]. rewrite length_app. cbn [length action_words fst snd]. lia.
Qed.

(** ** Witnesses *)

(** The words at 16, and the literals behind them, one every 16 bytes. *)
Definition options_words : list (list Z) := [str "-q"; str "-filesys=hda1"; str "-rs=7"; str "-ul=64"; str "ls"].

Fixpoint literal_address (p : Z) (l : list (list Z)) (t : list Z) : Z :=
  match l with [] => 0 | u :: r => if decide (t = u) then p else literal_address (p + 16) r t end.
Definition options_L : list Z → Z := literal_address 64 literals.

Definition options_mem : mem :=
  list_to_map (zip (seqZ 16 48) (laid_out options_words ++ repeat 0 48)) ∪
  list_to_map (concat ((λ t, zip (seqZ (options_L t) 16) (t ++ repeat 0 16)) <$> literals)).

Definition no_options : options := mk_options SHUTDOWN_NONE false None None false (2 ^ 32 - 1).
Definition no_settings : settings := mk_settings SHUTDOWN_NONE false NULL NULL false (2 ^ 32 - 1).
Definition unseeded : rc4 := mk_rc4 (repeat 0 256) 0 0 false.

Lemma bytes_at_check m p l : imap (λ i _, m !! (p + Z.of_nat i)) l = Some <$> l → bytes_at m p l.
Proof.
  intros H i x Hx. pose proof (f_equal (.!! i) H) as Hi. simpl in Hi. rewrite list_lookup_imap, list_lookup_fmap, Hx in Hi. by injection Hi.
Qed.

(** [parse_options_correct] on a command line with four options and an action. *)
Lemma parse_options_correct_witness :
  ∃ argv m' v' g', parse_options options_L 99 (starts 16 options_words) (mk_sys options_mem no_settings unseeded) = Ok (Some argv, mk_sys m' v' g') ∧
    Forall2 (cstr m') argv [str "ls"] ∧ describes m' 49 v' (mk_options SHUTDOWN_POWER_OFF false (Some (str "hda1")) None false 64) ∧
    random_init (u32 99) unseeded = Ok (tt, g').
Proof.
  destruct (parse_options_correct options_L 99 16 options_mem options_words no_settings no_options unseeded) as (argv & m' & v' & g' & E & H1 & H2 & H3 & _).
  - lia.
  - unfold text_ok. apply (bool_decide_unpack _). vm_compute. exact I.
  - apply bytes_at_check. vm_compute. reflexivity.
  - unfold literals_at. unfold literals at 1. repeat (apply Forall_cons; split; [split;
      [split; [apply bytes_at_check; vm_compute; reflexivity|apply (bool_decide_unpack _); vm_compute; exact I|reflexivity]|right; apply Z.leb_le; reflexivity]|]). constructor.
  - done.
  - split; [done|]. apply (bool_decide_unpack _). vm_compute. exact I.
  - exists argv, m', v', g'. split; [exact E|]. split; [exact H1|]. split; [exact H2|exact H3].
Defined.
