(* ===== verification/AddressSpace.v ===== *)
(** * User address spaces

    What the pages and page tables of a directory mean to the user program: a
    map from user addresses to bytes with a write permission ([view]), kept
    apart from the pages that belong to others ([kept]).  The lemmas follow a
    page from its allocation until it is mapped or freed, which is how
    userprog/process.c builds the address space of a process. *)

From S2P Require Import Prelude Vaddr PageIface PageBytes Pagedir PagedirSpec.

Section space.
Context {M : Type} `{PA : PageAllocator M} `{IG : InitGlobals}.
Implicit Types m : M.

(** The byte at a user address and whether the program may write it. *)
Definition view m (pd va : Z) : option (Z * bool) :=
  w ← mapping m pd va;
  b ← byte_at (mem m) (page_of w + va mod 4096);
  Some (b, negb (Z.land w PTE_W =? 0)).

(** The pages of an address space: its directory, tables and mapped pages. *)
Definition mine m (pd b : Z) : Prop := b = pd ∨ owned m pd 768 b.
Definition foreign m (pd b : Z) : Prop := used_page m b ∧ ¬ mine m pd b.

Record space_ok m (pd : Z) : Prop := {
  so_pa : pa_ok m;
  so_pd : pd_ok m pd;
  so_pages : pages_ok m pd
}.

(** The pages of others are in use as before, with the same contents. *)
Record kept m m' (pd : Z) : Prop := {
  kept_foreign b : foreign m' pd b ↔ foreign m pd b;
  kept_mem b : foreign m pd b → mem m' !! b = mem m !! b
}.

(** The address space has become [V] and nothing else has changed. *)
Record becomes m m' (pd : Z) (V : Z → option (Z * bool)) : Prop := {
  bc_ok : space_ok m' pd;
  bc_kept : kept m m' pd;
  bc_view va : user_va va → view m' pd va = V va
}.

Lemma kept_trans m1 m2 m3 pd : kept m1 m2 pd → kept m2 m3 pd → kept m1 m3 pd.
Proof.
  intros [F1 K1] [F2 K2]. split; [intros b; by rewrite F2|]. intros b Hb. rewrite K2; [by apply K1|by apply F1].
Qed.

Lemma becomes_refl m pd : space_ok m pd → becomes m m pd (view m pd).
Proof. intros H. by split; [|split|]. Qed.

Lemma becomes_trans m1 m2 m3 pd V W : becomes m1 m2 pd V → becomes m2 m3 pd W → becomes m1 m3 pd W.
Proof. intros [_ K1 _] [O2 K2 V2]. split; [done|by eapply kept_trans|done]. Qed.

Lemma becomes_ext m m' pd V W : becomes m m' pd V → (∀ va, user_va va → V va = W va) → becomes m m' pd W.
Proof. intros [O K E] H. split; [done..|]. intros va Hva. by rewrite E, H. Qed.

Lemma mine_cases m pd b :
  space_ok m pd → mine m pd b ↔
  b = pd ∨ (∃ i, 0 ≤ i < 768 ∧ table m pd i b) ∨ (∃ va w, user_va va ∧ mapping m pd va = Some w ∧ b = page_of w).
Proof. intros [Hm Hpd _]. unfold mine. by rewrite owned_pages. Qed.

Lemma mine_used m pd b : space_ok m pd → mine m pd b → used_page m b.
Proof.
  intros Hs. rewrite (mine_cases _ _ _ Hs). destruct Hs as [Hm Hpd Hpg].
  intros [->|[(i & Hi & Ht)|(va & w & Hva & Hw & ->)]]; [apply Hpd|by eapply pd_table|by eapply pg_use].
Qed.

(** An address that is mapped has a byte. *)
Lemma page_of_at m pd va w :
  space_ok m pd → user_va va → mapping m pd va = Some w → page_at (page_of w + va mod 4096) = page_of w.
Proof.
  intros [Hm Hpd Hpg] Hva Hw. destruct (pg_use _ _ Hpg va w Hva Hw) as (Hu & _).
  destruct (used_kpage _ _ Hm Hu) as [_ H]. unfold page_at. dlia.
Qed.

Lemma view_None m pd va : space_ok m pd → user_va va → view m pd va = None ↔ mapping m pd va = None.
Proof.
  intros Hs Hva. unfold view. destruct (mapping m pd va) as [w|] eqn:Ew; [|done]. cbn. split; [|done].
  destruct Hs as [Hm Hpd Hpg]. destruct (pg_use _ _ Hpg va w Hva Ew) as (Hu & _).
  destruct (used_mem _ _ Hm Hu) as [_ Hs].
  destruct (byte_at_mapped (mem m) (page_of w + va mod 4096)) as [b ->]; [by apply mem_ok| |done].
  by erewrite page_of_at.
Qed.

(** ** Changes outside the address space *)

Lemma space_frame m m' pd :
  space_ok m pd → pa_ok m' → (∀ b, used_page m b → used_page m' b) → (∀ b, mine m pd b → mem m' !! b = mem m !! b) →
  space_ok m' pd ∧ (∀ va, user_va va → mapping m' pd va = mapping m pd va) ∧
  (∀ va, user_va va → view m' pd va = view m pd va) ∧ (∀ i pt, 0 ≤ i < 768 → table m' pd i pt ↔ table m pd i pt) ∧
  ∀ b, mine m' pd b ↔ mine m pd b.
Proof.
  intros Hs Hm' Hu Hmem. pose proof Hs as [Hm Hpd Hpg].
  assert (∀ b k, mine m pd b → 0 ≤ k < 1024 → word m' (b + 4 * k) = word m (b + 4 * k)) as Hword.
  { intros b k Hb Hk. rewrite !word_eq by (done || eapply used_kpage, mine_used; done). by rewrite Hmem. }
  destruct (pd_frame m m' pd Hm Hpd) as [Hpd' Hat]; [|by auto|].
  { intros p k Hk Hp. apply Hword; [|done]. apply mine_cases; [done|]. tauto. }
  assert (∀ va, user_va va → mapping m' pd va = mapping m pd va) as Hmap.
  { intros va Hva. unfold mapping. by destruct (Hat va Hva) as [_ ->]. }
  assert (∀ i pt, 0 ≤ i < 768 → table m' pd i pt ↔ table m pd i pt) as Htab.
  { intros i pt Hi. unfold table. rewrite Hword; [done|by left|lia]. }
  assert (space_ok m' pd) as Hs'.
  { split; [done..|]. destruct Hpg as [Huse Hone]. split.
    - intros va w Hva Hw. rewrite Hmap in Hw by done. destruct (Huse va w Hva Hw) as (H1 & H2 & H3).
      split_and!; [by apply Hu|done|]. intros i Hi. rewrite Htab by done. by apply H3.
    - intros va va' w w' Hva Hva'. rewrite !Hmap by done. by apply Hone. }
  assert (∀ b, mine m' pd b ↔ mine m pd b) as Hmine.
  { intros b. rewrite !mine_cases by done. apply or_iff_compat_l. f_equiv; apply exist_proper; intros i.
    - split; intros [Hi ?]; (split; [done|by apply Htab]).
    - apply exist_proper. intros w. split; intros (Hva & ? & ?); rewrite Hmap in * by done; done. }
  split_and!; try done. intros va Hva. unfold view. rewrite Hmap by done.
  destruct (mapping m pd va) as [w|] eqn:Ew; [|done]. cbn. f_equal. apply byte_at_page.
  rewrite (page_of_at m pd va w) by done. apply Hmem, mine_cases; [done|]. right. right. eauto.
Qed.

(** ** A page on its way into the address space *)

(** The page [a] has been allocated, and only it has been written. *)
Record fresh m m' (a : Z) : Prop := {
  fr_ok : pa_ok m';
  fr_page : kpage a;
  fr_new : ¬ used_page m a;
  fr_used b : used_page m' b ↔ used_page m b ∨ b = a;
  fr_mem b : kpage b → b ≠ a → mem m' !! b = mem m !! b
}.

Lemma fresh_space m m' pd a :
  space_ok m pd → fresh m m' a →
  space_ok m' pd ∧ (∀ va, user_va va → mapping m' pd va = mapping m pd va) ∧
  (∀ va, user_va va → view m' pd va = view m pd va) ∧
  (∀ i pt, 0 ≤ i < 768 → table m' pd i pt ↔ table m pd i pt) ∧ (∀ b, mine m' pd b ↔ mine m pd b) ∧ ¬ mine m pd a.
Proof.
  intros Hs [Hm' Hk Hn Hu Hmem]. assert (¬ mine m pd a) as Na by (by intros ?%mine_used).
  destruct (space_frame m m' pd Hs Hm') as (? & ? & ? & ? & ?); [by intros b ?; apply Hu; left| |done].
  intros b Hb. apply Hmem; [|congruence]. eapply used_kpage, mine_used; [apply Hs|done..].
Qed.

Lemma get_fresh s flags pd :
  space_ok (memory s) pd → Z.land flags PAL_ASSERT = 0 →
  ∃ a m', on_memory (get_page flags) s = Ok (a, set_memory m' s) ∧
    ((a = NULL ∧ m' = memory s) ∨
     (a =? NULL = false ∧ fresh (memory s) m' a ∧
      (Z.land flags PAL_ZERO ≠ 0 → mem m' !! a = Some (repeat 0 word_cnt)))).
Proof.
  intros [Hm _ _] Hf. destruct (get_page_ok (memory s) flags Hm Hf) as (a & m' & E & Hm' & Hc).
  exists a, m'. unfold on_memory. rewrite E. split; [done|].
  destruct Hc as [[-> ->]|(Hk & Hn & Hu & Hmem & Hz)]; [by left|right]. split_and!; [|split|]; auto.
  apply Z.eqb_neq. unfold NULL. destruct Hk as [Hk _]. unfold PHYS_BASE in Hk. lia.
Qed.

(** Writing bytes of the page. *)
Lemma fresh_write m m1 a fr x bs :
  fresh m m1 a → written (mem m1) fr x bs → a ≤ x → x + Z.of_nat (length bs) ≤ a + 4096 →
  fresh m (set_mem fr m1) a.
Proof.
  intros [Hm1 Hk Hn Hu Hmem] Hw Hx Hl. pose proof Hk as [_ Ha]. split; [|done..| |].
  - apply set_ok; [done|apply Hw|apply Hw].
  - intros b. by rewrite used_set, Hu.
  - intros b [Hb1 Hb2] Hne. rewrite mem_set, <-(Hmem b) by done. eapply written_other; [by apply mem_ok|done|done|].
    destruct (decide (b < a)); [left|right]; dlia.
Qed.

Lemma fresh_mapped m m1 a : fresh m m1 a → PageBytes.mapped (mem m1) a 4096.
Proof.
  intros [Hm1 [Hk Ha] Hn Hu Hmem] b Hb. replace (page_at b) with a by (unfold page_at; dlia).
  apply used_mem; [done|]. apply Hu. by right.
Qed.

Lemma fresh_free s m pd a :
  space_ok m pd → fresh m (memory s) a →
  ∃ m', on_memory (free_page a) s = Ok (tt, set_memory m' s) ∧ becomes m m' pd (view m pd).
Proof.
  intros Hs Hf. destruct (fresh_space m _ pd a Hs Hf) as (_ & _ & _ & _ & _ & Na). destruct Hf as [Hm1 Hk Hn Hu Hmem].
  destruct (free_page_run s a) as (m' & E & Hm' & Hu' & Hmem'); [done|by apply Hu; right|].
  exists m'. split; [done|].
  assert (∀ b, used_page m' b ↔ used_page m b) as Hu2.
  { intros b. rewrite Hu', Hu. split; [tauto|]. intros Hb. split; [by left|congruence]. }
  assert (∀ b, used_page m b → mem m' !! b = mem m !! b) as Hmem2.
  { intros b Hb. assert (b ≠ a) by congruence. rewrite Hmem', Hmem; [done|eapply used_kpage; [apply Hs|done]|done..]. }
  destruct (space_frame m m' pd Hs Hm') as (Hs' & _ & Hv & _ & Hmine).
  { intros b. by apply Hu2. }
  { intros b Hb. apply Hmem2. by eapply mine_used. }
  split; [done| |done]. split; unfold foreign; [intros b; by rewrite Hu2, Hmine|intros b [Hb _]; by apply Hmem2].
Qed.

(** Mapping the page. *)
Lemma outside_mem m m' pd b :
  pa_ok m → pa_ok m' → outside m m' pd → used_page m b → b ≠ pd → (∀ i, 0 ≤ i < 768 → ¬ table m pd i b) →
  mem m' !! b = mem m !! b.
Proof.
  intros Hm Hm' [Hu Ho] Hb Nb Nt. destruct (used_mem m b Hm Hb) as [Hk [ws E]].
  destruct (used_mem m' b Hm') as [_ [ws' E']]; [by apply Hu|]. rewrite E, E'. f_equal.
  destruct (mem_ok m Hm b ws E) as [Hl _], (mem_ok m' Hm' b ws' E') as [Hl' _]. unfold word_cnt in *.
  apply list_eq. intros i. destruct (decide (i < 1024)%nat) as [Hi|]; [|by rewrite !lookup_ge_None_2 by lia].
  pose proof (Ho b (Z.of_nat i) Hb Nb Nt ltac:(lia)) as Hw. rewrite !word_eq, E, E', Nat2Z.id in Hw by (done || lia). exact Hw.
Qed.

Lemma installed_mine m m1 m' pd a upage e :
  space_ok m pd → space_ok m' pd → user_va upage → mapping m pd upage = None → page_of e = a →
  (∀ i q, 0 ≤ i < 768 → table m' pd i q → table m pd i q ∨ ¬ used_page m1 q) →
  (∀ i q, 0 ≤ i < 768 → table m pd i q → table m' pd i q) →
  (∀ va, user_va va → mapping m' pd va = if decide (va / 4096 = upage / 4096) then Some e else mapping m pd va) →
  (∀ b, mine m' pd b → mine m pd b ∨ b = a ∨ ¬ used_page m1 b) ∧ (∀ b, mine m pd b ∨ b = a → mine m' pd b).
Proof.
  intros Hs Hs' Hva Hnone He Ht' Hold' Hmap. split; intros b; rewrite !mine_cases by done.
  - intros [->|[(i & Hi & Ht)|(va & w' & Hva' & Hw & ->)]]; [by left; left|..].
    + destruct (Ht' i b Hi Ht) as [Ht1|?]; [|by right; right]. left. right. left. eauto.
    + rewrite Hmap in Hw by done. destruct (decide _) as [Hd|]; [|left; right; right; eauto].
      injection Hw as <-. right. by left.
  - intros [[->|[(i & Hi & Ht)|(va & w' & Hva' & Hw & ->)]]| ->]; [by left|..].
    + right. left. eauto.
    + right. right. exists va, w'. rewrite Hmap by done. rewrite decide_False; [done|]. intros Eq.
      unfold mapping in Hnone. rewrite (pte_at_page _ _ _ _ (eq_sym Eq)) in Hnone. unfold mapping in Hw. congruence.
    + right. right. exists upage, e. by rewrite Hmap, decide_True.
Qed.

Lemma fresh_install s m pd a upage w :
  space_ok m pd → fresh m (memory s) a → user_va upage → upage mod 4096 = 0 → mapping m pd upage = None →
  (a - PHYS_BASE) / 4096 < init_ram_pages → pd ≠ init_page_dir →
  ∃ r m', pagedir_set_page pd upage a w s = Ok (r, set_memory m' s) ∧
    if (r : bool)
    then becomes m m' pd (λ va, if decide (va / 4096 = upage / 4096)
           then (λ b, (b, w)) <$> byte_at (mem (memory s)) (a + va mod 4096) else view m pd va)
    else m' = memory s.
Proof.
  intros Hs Hf Hva Hal Hnone Hram Hinit.
  destruct (fresh_space m _ pd a Hs Hf) as (Hs1 & Hmap1 & Hv1 & Htab1 & Hmine1 & Na).
  pose proof Hf as [Hm1 Hk Hn Hu Hmem]. pose proof Hs1 as [_ Hpd1 Hpg1].
  pose proof (set_page_run s pd upage a w Hm1 Hpd1 Hva Hal Hk Hram Hinit) as Hrun.
  rewrite Hmap1, Hnone in Hrun by done. destruct Hrun as (r & m' & E & Hm' & Hpd' & Ho & Hr & (Ht' & Hold' & Hu') & Hmap').
  exists r, m'. split; [done|]. destruct r; [|by apply Hr]. clear Hr.
  assert (∀ va, user_va va → mapping m' pd va = if decide (va / 4096 = upage / 4096)
    then Some (entry a (if w then 7 else 5)) else mapping m pd va) as Hmap.
  { intros va Hva'. rewrite Hmap' by done. destruct (decide (va / 4096 = upage / 4096)) as [Eq|Nq].
    - by rewrite decide_True.
    - rewrite decide_False by tauto. by apply Hmap1. }
  assert (0 ≤ (if w then 7 else 5) < 4096) as Hfl by (by destruct w).
  rewrite (mine_cases m pd a Hs) in Na.
  assert (pages_ok m' pd) as Hpg'.
  { eapply (set_page_pages_ok (memory s) m' pd upage a _ true); try done.
    - intros _. apply Hu. by right.
    - tauto.
    - intros i Hi Ht%Htab1; [|done]. apply Na. right. left. eauto.
    - intros va w' Hva' Hw Eq. rewrite Hmap1 in Hw by done. apply Na. right. right. eauto.
    - by apply page_of_entry.
    - apply Ho. }
  assert (space_ok m' pd) as Hs' by done.
  assert (∀ b, used_page (memory s) b → b ≠ pd → (∀ i, 0 ≤ i < 768 → ¬ table m pd i b) →
    mem m' !! b = mem (memory s) !! b) as Hsame.
  { intros b Hb Nb Nt. apply (outside_mem _ _ pd); try done. intros i Hi. rewrite Htab1 by done. by apply Nt. }
  destruct (installed_mine m (memory s) m' pd a upage (entry a (if w then 7 else 5))) as [Hnew Holds]; try done.
  { by apply page_of_entry. }
  { intros i q Hi Ht. rewrite <-Htab1 by done. by apply Ht'. }
  { intros i q Hi Ht. by apply Hold', Htab1. }
  split; [done|split|].
  - intros b. unfold foreign. split.
    + intros [Hb Nb]. assert (¬ mine m pd b) as Nb' by eauto. split; [|done].
      destruct (Hu' b Hb) as [Hb1|(i & Hi & Ht)]; [|by destruct Nb; right; exists i, b; eauto].
      apply Hu in Hb1 as [?| ->]; [done|]. by destruct Nb; apply Holds; right.
    + intros [Hb Nb]. split; [apply Ho, Hu; by left|]. intros [?|[->|Hc]]%Hnew; [done..|]. apply Hc, Hu. by left.
  - intros b [Hb Nb]. rewrite (mine_cases m pd b Hs) in Nb. assert (b ≠ a) by congruence.
    rewrite Hsame; [apply Hmem; [by eapply used_kpage; [apply Hs|]|done]|apply Hu; by left|tauto|].
    intros i Hi Ht. apply Nb. right. left. eauto.
  - intros va Hva'. unfold view at 1. rewrite Hmap by done. destruct (decide (va / 4096 = upage / 4096)) as [Hd|Hd].
    + cbn [mbind option_bind]. rewrite page_of_entry, (entry_flag a _ PTE_W) by done.
      replace (byte_at (mem m') (a + va mod 4096)) with (byte_at (mem (memory s)) (a + va mod 4096)).
      { destruct (byte_at _ _); [|done]. by destruct w. }
      symmetry. apply byte_at_page. destruct Hk as [Hk Ha]. replace (page_at (a + va mod 4096)) with a by (unfold page_at; dlia).
      apply Hsame; [apply Hu; by right|tauto|]. intros i Hi Ht. apply Na. right. left. eauto.
    + rewrite <-Hv1 by done. unfold view. rewrite Hmap1 by done. destruct (mapping m pd va) as [w'|] eqn:Ew; [|done].
      cbn. f_equal. apply byte_at_page. rewrite (page_of_at m pd va w') by done.
      destruct (pg_use _ _ (so_pages _ _ Hs) va w' Hva' Ew) as (H1 & H2 & H3). apply Hsame; [apply Hu; by left|done|done].
Qed.

End space.
