(* ===== verification/FileIface.v ===== *)
(** * What an open file promises to the program loader

    The loader (userprog/process.c) reads its executable through the functions
    of filesys/file.c.  The class states what it relies on: a read returns the
    bytes at the position, at most as many as requested (fewer at the end of
    the file, or when the file system runs out of memory), and moves the
    position behind them.  [Process] is verified against the class; an array of
    bytes is an instance here, and the files of [Inode] are one in
    [ProcessFile]. *)

From S2P Require Import Prelude Bytes.

Class OpenFile (F : Type) := {
  file_read : Z → ST F (list Z);
  file_seek : Z → ST F unit;
  file_length : ST F Z;
  file_close : ST F unit;
  contents : F → list Z;
  position : F → Z;
  file_ok : F → Prop;
  contents_ok f : file_ok f → Forall byte_ok (contents f) ∧ Z.of_nat (length (contents f)) < 2 ^ 31;
  file_read_ok f n : file_ok f → 0 ≤ n < 2 ^ 31 →
    ∃ k f', file_read n f = Ok (slice (position f) k (contents f), f') ∧ 0 ≤ k ≤ n ∧
      file_ok f' ∧ contents f' = contents f ∧
      position f' = position f + Z.of_nat (length (slice (position f) k (contents f)));
  file_seek_ok f p : file_ok f → 0 ≤ p < 2 ^ 31 →
    ∃ f', file_seek p f = Ok (tt, f') ∧ file_ok f' ∧ contents f' = contents f ∧ position f' = p;
  file_length_ok f : file_ok f → file_length f = Ok (Z.of_nat (length (contents f)), f);
  file_close_ok f : file_ok f → ∃ f', file_close f = Ok (tt, f')
}.

(** A file in memory. *)
Record array_file := mk_array_file { af_bytes : list Z; af_pos : Z }.

#[export] Program Instance array_open_file : OpenFile array_file := {|
  file_read n f := Ok (slice (af_pos f) n (af_bytes f),
    mk_array_file (af_bytes f) (af_pos f + Z.of_nat (length (slice (af_pos f) n (af_bytes f)))));
  file_seek p f := Ok (tt, mk_array_file (af_bytes f) p);
  file_length f := Ok (Z.of_nat (length (af_bytes f)), f);
  file_close f := Ok (tt, f);
  contents := af_bytes;
  position := af_pos;
  file_ok f := Forall byte_ok (af_bytes f) ∧ Z.of_nat (length (af_bytes f)) < 2 ^ 31
|}.
Next Obligation. done. Qed.
Next Obligation. intros f n Hf Hn. exists n. eexists. split; [done|]. split; [lia|]. split; [exact Hf|done]. Qed.
Next Obligation. intros f p Hf Hp. eexists. split; [done|]. split; [exact Hf|done]. Qed.
Next Obligation. done. Qed.
Next Obligation. intros f Hf. by eexists. Qed.
