(* ===== verification/Process.v ===== *)
(** * Loading user programs: userprog/process.c

    The loader of ELF executables, which builds the address space of a process
    from the segments of a file: page directories are those of [Pagedir], pages
    come from any [PageAllocator], and the executable is any [OpenFile].  The
    state of a process has its page directory and the stack pointer that
    tss_update stores for the next entry into the kernel.

    Not modelled: the start of the thread (process_execute and start_process),
    and the messages on the console. *)

From S2P Require Import Prelude Bytes Vaddr PageIface PageBytes Pagedir FileIface.

(** ** ELF *)

Record Elf32_Ehdr := mk_ehdr {
  e_ident : list Z; e_type : Z; e_machine : Z; e_version : Z; e_entry : Z; e_phoff : Z; e_shoff : Z;
  e_flags : Z; e_ehsize : Z; e_phentsize : Z; e_phnum : Z; e_shentsize : Z; e_shnum : Z; e_shstrndx : Z
}.
Definition sizeof_ehdr : Z := 52.

Record Elf32_Phdr := mk_phdr {
  p_type : Z; p_offset : Z; p_vaddr : Z; p_paddr : Z; p_filesz : Z; p_memsz : Z; p_flags : Z; p_align : Z
}.
Definition sizeof_phdr : Z := 32.

(** The structures in memory. *)
Definition half (bs : list Z) (ofs : Z) : Z := le_decode (slice ofs 2 bs).
Definition dword (bs : list Z) (ofs : Z) : Z := le_decode (slice ofs 4 bs).
Definition ehdr_of (bs : list Z) : Elf32_Ehdr :=
  mk_ehdr (slice 0 16 bs) (half bs 16) (half bs 18) (dword bs 20) (dword bs 24) (dword bs 28) (dword bs 32)
    (dword bs 36) (half bs 40) (half bs 42) (half bs 44) (half bs 46) (half bs 48) (half bs 50).
Definition phdr_of (bs : list Z) : Elf32_Phdr :=
  mk_phdr (dword bs 0) (dword bs 4) (dword bs 8) (dword bs 12) (dword bs 16) (dword bs 20) (dword bs 24) (dword bs 28).

Definition PT_NULL : Z := 0.
Definition PT_LOAD : Z := 1.
Definition PT_DYNAMIC : Z := 2.
Definition PT_INTERP : Z := 3.
Definition PT_NOTE : Z := 4.
Definition PT_SHLIB : Z := 5.
Definition PT_PHDR : Z := 6.
Definition PT_STACK : Z := 0x6474e551.
Definition PF_W : Z := 2.

(** "\177ELF\1\1\1" *)
Definition elf_ident : list Z := [0x7f; 0x45; 0x4c; 0x46; 1; 1; 1].

Definition header_bad (read : Z) (h : Elf32_Ehdr) : bool :=
  negb (read =? sizeof_ehdr) || negb (bool_decide (slice 0 7 (e_ident h) = elf_ident)) || negb (e_type h =? 2) ||
  negb (e_machine h =? 3) || negb (e_version h =? 1) || negb (e_phentsize h =? sizeof_phdr) || (e_phnum h >? 1024).

Definition ROUND_UP (x step : Z) : Z := u32 (u32 (x + step - 1) / step * step).

Section process.
Context {M : Type} `{PA : PageAllocator M} `{IG : InitGlobals}.
Context {F : Type} `{OF : OpenFile F}.
(** The page of the running thread. *)
Variable cur : Z.

Record process := mk_process { p_vm : vm M; p_pagedir : Z; p_esp0 : Z; p_file : F }.

Definition set_vm (s : vm M) (p : process) : process := mk_process s (p_pagedir p) (p_esp0 p) (p_file p).
Definition set_pagedir (pd : Z) (p : process) : process := mk_process (p_vm p) pd (p_esp0 p) (p_file p).
Definition set_file (f : F) (p : process) : process := mk_process (p_vm p) (p_pagedir p) (p_esp0 p) f.

Definition on_vm {A} (f : ST (vm M) A) : ST process A := λ p,
  match f (p_vm p) with Ok (a, s) => Ok (a, set_vm s p) | Err e => Err e end.
Definition on_file {A} (f : ST F A) : ST process A := λ p,
  match f (p_file p) with Ok (a, x) => Ok (a, set_file x p) | Err e => Err e end.

(** Writing bytes of kernel memory. *)
Definition on_frames (f : frames → result frames) : ST (vm M) unit := λ s,
  match f (mem (memory s)) with Ok m => Ok (tt, set_memory (set_mem m (memory s)) s) | Err e => Err e end.

(** ** Helpers of load *)

Definition install_page (upage kpage : Z) (writable : bool) : ST process bool :=
  t ← get;
  p ← on_vm (pagedir_get_page (p_pagedir t) upage);
  if p =? NULL then on_vm (pagedir_set_page (p_pagedir t) upage kpage writable) else mret false.

Definition validate_segment (phdr : Elf32_Phdr) (file_len : Z) : bool :=
  if negb (Z.land (p_offset phdr) PGMASK =? Z.land (p_vaddr phdr) PGMASK) then false
  else if p_offset phdr >? u32 file_len then false
  else if p_memsz phdr <? p_filesz phdr then false
  else if p_memsz phdr =? 0 then false
  else if negb (is_user_vaddr (p_vaddr phdr)) then false
  else if negb (is_user_vaddr (u32 (p_vaddr phdr + p_memsz phdr))) then false
  else if u32 (p_vaddr phdr + p_memsz phdr) <? p_vaddr phdr then false
  else if p_vaddr phdr <? PGSIZE then false
  else true.

(** One page of a segment: [inr] ends the loop with the result. *)
Definition load_page (writable : bool) (upage read_bytes zero_bytes : Z) : ST process (Z * Z * Z + bool) :=
  let page_read_bytes := if read_bytes <? PGSIZE then read_bytes else PGSIZE in
  let page_zero_bytes := PGSIZE - page_read_bytes in
  kpage ← on_vm (on_memory (get_page PAL_USER));
  if kpage =? NULL then mret (inr false)
  else
    bs ← on_file (file_read page_read_bytes);
    on_vm (on_frames (store kpage bs));;
    if negb (Z.of_nat (length bs) =? page_read_bytes) then
      on_vm (on_memory (free_page kpage));; mret (inr false)
    else
      on_vm (on_frames (fill (Z.to_nat page_zero_bytes) (kpage + page_read_bytes) 0));;
      ok ← install_page upage kpage writable;
      if negb ok then on_vm (on_memory (free_page kpage));; mret (inr false)
      else mret (inl (u32 (upage + PGSIZE), u32 (read_bytes - page_read_bytes), u32 (zero_bytes - page_zero_bytes))).

Definition segment_body (writable : bool) : Z * Z * Z → ST process (Z * Z * Z + bool) := λ '(upage, read_bytes, zero_bytes),
  if (read_bytes >? 0) || (zero_bytes >? 0) then load_page writable upage read_bytes zero_bytes
  else mret (inr true).

Definition load_segment (ofs upage read_bytes zero_bytes : Z) (writable : bool) : ST process bool :=
  assert (u32 (read_bytes + zero_bytes) mod PGSIZE =? 0);;
  assert (pg_ofs upage =? 0);;
  assert (Z.rem ofs PGSIZE =? 0);;
  on_file (file_seek ofs);;
  loopM (S (Z.to_nat ((read_bytes + zero_bytes) / PGSIZE))) (segment_body writable) (upage, read_bytes, zero_bytes).

(** [Some esp] for success. *)
Definition setup_stack : ST process (option Z) :=
  kpage ← on_vm (on_memory (get_page (Z.lor PAL_USER PAL_ZERO)));
  if negb (kpage =? NULL) then
    success ← install_page (PHYS_BASE - PGSIZE) kpage true;
    if (success : bool) then mret (Some PHYS_BASE)
    else on_vm (on_memory (free_page kpage));; mret None
  else mret None.

(** ** load *)

(** The task-state segment exists: tss_init runs at boot. *)
Definition tss_update : ST process unit :=
  modify (λ p, mk_process (p_vm p) (p_pagedir p) (cur + PGSIZE) (p_file p)).

Definition process_activate : ST process unit :=
  t ← get; on_vm (pagedir_activate (p_pagedir t));; tss_update.

(** A segment to load. *)
Definition load_phdr (phdr : Elf32_Phdr) : ST process bool :=
  len ← on_file file_length;
  if validate_segment phdr len then
    let writable := negb (Z.land (p_flags phdr) PF_W =? 0) in
    let file_page := Z.land (p_offset phdr) (u32 (Z.lnot PGMASK)) in
    let mem_page := Z.land (p_vaddr phdr) (u32 (Z.lnot PGMASK)) in
    let page_offset := Z.land (p_vaddr phdr) PGMASK in
    let '(read_bytes, zero_bytes) :=
      if p_filesz phdr >? 0 then
        let read_bytes := u32 (page_offset + p_filesz phdr) in
        (read_bytes, u32 (ROUND_UP (u32 (page_offset + p_memsz phdr)) PGSIZE - read_bytes))
      else (0, ROUND_UP (u32 (page_offset + p_memsz phdr)) PGSIZE) in
    load_segment (s32 file_page) mem_page read_bytes zero_bytes writable
  else mret false.

(** The loop over the program headers; false stands for [goto done]. *)
Definition phdr_body (e_phnum : Z) : Z * Z → ST process (Z * Z + bool) := λ '(i, file_ofs),
  if i <? e_phnum then
    len ← on_file file_length;
    if (file_ofs <? 0) || (file_ofs >? len) then mret (inr false)
    else
      on_file (file_seek file_ofs);;
      bs ← on_file (file_read sizeof_phdr);
      if negb (Z.of_nat (length bs) =? sizeof_phdr) then mret (inr false)
      else
        let file_ofs := s32 (file_ofs + sizeof_phdr) in
        let phdr := phdr_of bs in
        if (p_type phdr =? PT_DYNAMIC) || (p_type phdr =? PT_INTERP) || (p_type phdr =? PT_SHLIB) then mret (inr false)
        else if p_type phdr =? PT_LOAD then
          ok ← load_phdr phdr;
          if (ok : bool) then mret (inl (i + 1, file_ofs)) else mret (inr false)
        else mret (inl (i + 1, file_ofs))
  else mret (inr true).

Definition load_phdrs (e_phnum e_phoff : Z) : ST process bool :=
  loopM (S (Z.to_nat e_phnum)) (phdr_body e_phnum) (0, s32 e_phoff).

(** The part of load between the opening of the file and [done].  The result is
    the entry point and the stack pointer. *)
Definition load_file : ST process (option (Z * Z)) :=
  bs ← on_file (file_read sizeof_ehdr);
  let ehdr := ehdr_of bs in
  if header_bad (Z.of_nat (length bs)) ehdr then mret None
  else
    ok ← load_phdrs (e_phnum ehdr) (e_phoff ehdr);
    if (ok : bool) then
      esp ← setup_stack;
      match esp with
      | Some esp => mret (Some (e_entry ehdr, esp))
      | None => mret None
      end
    else mret None.

(** [opened] says whether filesys_open found the file, which is then the one of
    the state. *)
Definition load (opened : bool) : ST process (option (Z * Z)) :=
  pd ← on_vm pagedir_create;
  modify (set_pagedir pd);;
  if pd =? NULL then mret None
  else
    process_activate;;
    if opened then
      r ← load_file;
      on_file file_close;;
      mret r
    else mret None.

Definition process_exit : ST process unit :=
  t ← get;
  let pd := p_pagedir t in
  if negb (pd =? NULL) then
    modify (set_pagedir NULL);;
    on_vm (pagedir_activate NULL);;
    on_vm (pagedir_destroy pd)
  else mret tt.

Definition process_wait (child_tid : Z) : Z := -1.
End process.

#[global] Arguments process : clear implicits.
