(* ===== verification/ProcessSpec.v ===== *)
(** * Loading user programs: correctness

    A successful [load] builds exactly the address space that the program
    headers of the executable describe, a failing one leaves a directory from
    which nothing has been lost, and after [process_exit] all pages that were
    taken are free again. *)

From S2P Require Import Prelude Bytes Vaddr PageIface Palloc PageBytes Pagedir PagedirSpec AddressSpace FileIface Process.

(** ** The image of an executable *)

(** Byte [i] of a segment of which the first [read] bytes come from the file. *)
Definition seg_byte (c : list Z) (ofs read i : Z) : option Z :=
  if i <? read then c !! Z.to_nat (ofs + i) else Some 0.

(** [V] with a segment of [n] bytes at [upage]. *)
Definition seg_view (V : Z → option (Z * bool)) (c : list Z) (ofs upage read n : Z) (w : bool) (va : Z) : option (Z * bool) :=
  if decide (upage ≤ va < upage + n) then (λ b, (b, w)) <$> seg_byte c ofs read (va - upage) else V va.

(** The memory a program header asks for: whole pages from [seg_start] on, of
    which the first [seg_read] bytes are those of the file from [seg_ofs] on. *)
Definition seg_start (ph : Elf32_Phdr) : Z := p_vaddr ph / 4096 * 4096.
Definition seg_size (ph : Elf32_Phdr) : Z := (p_vaddr ph mod 4096 + p_memsz ph + 4095) / 4096 * 4096.
Definition seg_ofs (ph : Elf32_Phdr) : Z := p_offset ph / 4096 * 4096.
Definition seg_read (ph : Elf32_Phdr) : Z := if 0 <? p_filesz ph then p_vaddr ph mod 4096 + p_filesz ph else 0.
Definition seg_writable (ph : Elf32_Phdr) : bool := negb (Z.land (p_flags ph) PF_W =? 0).

(** The segment is loaded and includes the address. *)
Definition covers (ph : Elf32_Phdr) (va : Z) : Prop :=
  p_type ph = PT_LOAD ∧ seg_start ph ≤ va < seg_start ph + seg_size ph.
#[global] Instance covers_dec ph va : Decision (covers ph va) := _.

(** The address space of the segments [phs] of the file [c]. *)
Definition image (c : list Z) (phs : list Elf32_Phdr) (va : Z) : option (Z * bool) :=
  foldl (λ v ph, if decide (covers ph va)
    then (λ b, (b, seg_writable ph)) <$> seg_byte c (seg_ofs ph) (seg_read ph) (va - seg_start ph) else v) None phs.

(** With the page for the stack. *)
Definition process_image (c : list Z) (phs : list Elf32_Phdr) (va : Z) : option (Z * bool) :=
  if decide (PHYS_BASE - 4096 ≤ va) then Some (0, true) else image c phs va.

Definition phdrs (c : list Z) (ofs : Z) (n : nat) : list Elf32_Phdr :=
  (λ i, phdr_of (slice (ofs + 32 * Z.of_nat i) 32 c)) <$> seq 0 n.

(** What [validate_segment] checks. *)
Record valid_segment (len : Z) (ph : Elf32_Phdr) : Prop := {
  vs_congruent : p_offset ph mod 4096 = p_vaddr ph mod 4096;
  vs_offset : p_offset ph ≤ len;
  vs_filesz : p_filesz ph ≤ p_memsz ph;
  vs_memsz : 0 < p_memsz ph;
  vs_low : 4096 ≤ p_vaddr ph;
  vs_high : p_vaddr ph + p_memsz ph < PHYS_BASE
}.

(** A header that [load] accepts. *)
Definition phdr_good (c : list Z) (ph : Elf32_Phdr) : Prop :=
  p_type ph ∉ [PT_DYNAMIC; PT_INTERP; PT_SHLIB] ∧
  (p_type ph = PT_LOAD → valid_segment (Z.of_nat (length c)) ph ∧
     (0 < seg_read ph → seg_ofs ph + seg_read ph ≤ Z.of_nat (length c))).

(** The header of the file and its program headers. *)
Definition header (c : list Z) : Elf32_Ehdr := ehdr_of (slice 0 sizeof_ehdr c).
Definition segments (c : list Z) : list Elf32_Phdr := phdrs c (e_phoff (header c)) (Z.to_nat (e_phnum (header c))).

(** No address belongs to two segments. *)
Definition disjoint_segments (phs : list Elf32_Phdr) : Prop :=
  ∀ i j ph ph' va, user_va va → phs !! i = Some ph → phs !! j = Some ph' → covers ph va → covers ph' va → i = j.

Definition phdr_range (ph : Elf32_Phdr) : Prop :=
  0 ≤ p_offset ph < 2 ^ 32 ∧ 0 ≤ p_vaddr ph < 2 ^ 32 ∧ 0 ≤ p_filesz ph < 2 ^ 32 ∧ 0 ≤ p_memsz ph < 2 ^ 32.

Lemma dword_range bs ofs : Forall byte_ok bs → 0 ≤ dword bs ofs < 2 ^ 32.
Proof.
  intros Hb. unfold dword. pose proof (le_decode_range (slice ofs 4 bs) (Forall_slice _ _ _ _ Hb)) as H.
  assert (256 ^ Z.of_nat (length (slice ofs 4 bs)) ≤ 256 ^ 4); [|lia].
  apply Z.pow_le_mono_r; [done|]. unfold slice. rewrite length_take. lia.
Qed.

Lemma phdr_of_range bs : Forall byte_ok bs → phdr_range (phdr_of bs).
Proof. intros Hb. split_and!; apply dword_range, Hb. Qed.

Lemma validate_segment_ok ph len :
  phdr_range ph → 0 ≤ len < 2 ^ 31 → validate_segment ph len = true ↔ valid_segment len ph.
Proof.
  intros (Ho & Hv & Hf & Hm) Hl. unfold validate_segment, is_user_vaddr.
  fold (pg_ofs (p_offset ph)) (pg_ofs (p_vaddr ph)). rewrite !pg_ofs_mod, (u32_small len) by lia. change PGSIZE with 4096.
  assert (u32 (p_vaddr ph + p_memsz ph) < PHYS_BASE ∧ p_vaddr ph ≤ u32 (p_vaddr ph + p_memsz ph) ∧ p_vaddr ph < PHYS_BASE ∧
    0 < p_memsz ph ↔ 0 < p_memsz ph ∧ p_vaddr ph + p_memsz ph < PHYS_BASE) as Hend.
  { unfold u32, PHYS_BASE. change (2 ^ 32) with 4294967296 in *. split; [intros; dlia|]. intros [? ?]. rewrite Z.mod_small by lia. lia. }
  rewrite Z.gtb_ltb. split.
  - repeat match goal with |- context [?a =? ?b] => destruct (Z.eqb_spec a b); cbn [negb]; try done
      | |- context [?a <? ?b] => destruct (Z.ltb_spec a b); cbn [negb]; try done end.
    intros _. split; lia.
  - intros [H1 H2 H3 H4 H5 H6]. destruct (proj2 Hend) as (H7 & H8 & H9 & _); [done|].
    rewrite H1, Z.eqb_refl, (proj2 (Z.ltb_ge _ (p_offset ph))), (proj2 (Z.ltb_ge _ (p_filesz ph))), (proj2 (Z.eqb_neq (p_memsz ph) 0)),
      (proj2 (Z.ltb_lt (p_vaddr ph) PHYS_BASE)), (proj2 (Z.ltb_lt _ PHYS_BASE)), (proj2 (Z.ltb_ge _ (p_vaddr ph))), (proj2 (Z.ltb_ge _ 4096)) by lia.
    done.
Qed.

Lemma seg_byte_some c ofs read i :
  0 ≤ ofs → 0 ≤ i → (0 < read → ofs + read ≤ Z.of_nat (length c)) → is_Some (seg_byte c ofs read i).
Proof.
  intros Ho Hi Hl. unfold seg_byte. destruct (Z.ltb_spec i read); [|by eexists]. apply lookup_lt_is_Some_2. lia.
Qed.

Lemma image_snoc c phs ph va :
  image c (phs ++ [ph]) va = if decide (covers ph va)
    then (λ b, (b, seg_writable ph)) <$> seg_byte c (seg_ofs ph) (seg_read ph) (va - seg_start ph) else image c phs va.
Proof. unfold image. by rewrite foldl_app. Qed.

Lemma image_covered c phs ph va :
  Forall phdr_range phs → Forall (phdr_good c) phs → ph ∈ phs → covers ph va → is_Some (image c phs va).
Proof.
  induction phs as [|ph' phs IH] using rev_ind; [by intros _ _ ?%elem_of_nil|].
  rewrite !Forall_app, !Forall_singleton. intros [Hr [Hr' _]] [Hg [_ Hg']] [Hin| ->%list_elem_of_singleton]%elem_of_app Hc;
    rewrite image_snoc; [|rewrite decide_True by done].
  - destruct (decide (covers ph' va)) as [[Ht Hv]|]; [|by apply IH]. apply fmap_is_Some.
    destruct (Hg' Ht) as [Hvs Hlen]. apply seg_byte_some; [unfold seg_ofs; dlia|lia|done].
  - destruct Hc as [Ht Hv]. apply fmap_is_Some.
    destruct (Hg' Ht) as [Hvs Hlen]. apply seg_byte_some; [unfold seg_ofs; dlia|lia|done].
Qed.

Lemma phdrs_snoc c ofs n : phdrs c ofs (S n) = phdrs c ofs n ++ [phdr_of (slice (ofs + 32 * Z.of_nat n) 32 c)].
Proof. unfold phdrs. by rewrite seq_S, fmap_app. Qed.

Lemma phdrs_range c ofs n : Forall byte_ok c → Forall phdr_range (phdrs c ofs n).
Proof. intros Hc. apply Forall_fmap, Forall_true. intros i. by apply phdr_of_range, Forall_slice. Qed.

(** A page of which the first [n] bytes are read. *)
Lemma page_byte fr fr' a pos k n c i :
  written fr fr' a (slice pos k c ++ replicate (Z.to_nat (4096 - n)) 0) →
  Z.of_nat (length (slice pos k c)) = n → 0 ≤ pos → 0 ≤ i < 4096 → byte_at fr' (a + i) = seg_byte c pos n i.
Proof.
  intros Hw El Hpos Hi. rewrite (wr_in _ _ _ _ Hw) by (rewrite length_app, length_replicate; lia).
  unfold seg_byte. destruct (Z.ltb_spec i n).
  - rewrite lookup_app_l by lia. apply slice_lookup; [done|]. revert El. unfold slice. rewrite length_take. lia.
  - rewrite lookup_app_r by lia. apply lookup_replicate_2. lia.
Qed.

Section process.
Context {M : Type} `{PA : PageAllocator M} `{IG : InitGlobals}.
Context {F : Type} `{OF : OpenFile F}.
Variable cur : Z.

(** The pages of the allocator are physical memory. *)
Hypothesis ram : ∀ (m : M) a, pa_ok m → used_page m a → (a - PHYS_BASE) / 4096 < init_ram_pages.

Implicit Types p : process M F.

Abbreviation mem_of p := (memory (p_vm p)).
Definition with_mem (m : M) (f : F) p : process M F := mk_process (set_memory m (p_vm p)) (p_pagedir p) (p_esp0 p) f.

Lemma with_mem_id p : with_mem (mem_of p) (p_file p) p = p.
Proof. by destruct p as [[] ???]. Qed.

Lemma on_vm_ok {A} (f : ST (vm M) A) p a m : f (p_vm p) = Ok (a, set_memory m (p_vm p)) → on_vm f p = Ok (a, with_mem m (p_file p) p).
Proof. intros E. unfold on_vm. by rewrite E. Qed.

Lemma on_file_ok {A} (f : ST F A) p a x : f (p_file p) = Ok (a, x) → on_file f p = Ok (a, with_mem (mem_of p) x p).
Proof. intros E. unfold on_file. rewrite E. by destruct p as [[] ???]. Qed.

Lemma on_frames_ok (f : frames → result frames) p fr :
  f (mem (mem_of p)) = Ok fr → on_vm (on_frames f) p = Ok (tt, with_mem (set_mem fr (mem_of p)) (p_file p) p).
Proof. intros E. apply on_vm_ok. unfold on_frames. by rewrite E. Qed.

(** ** One page *)

Lemma get_page_run' p pd va :
  space_ok (mem_of p) pd → user_va va →
  pagedir_get_page pd va (p_vm p) =
  Ok (match mapping (mem_of p) pd va with Some w => w / 4096 * 4096 + PHYS_BASE + va mod 4096 | None => NULL end,
      set_memory (mem_of p) (p_vm p)).
Proof. intros [Hm Hpd _] Hva. rewrite get_page_run by done. by destruct p as [[] ???]. Qed.

(** Giving the page back. *)
Lemma drop_page p m pd a :
  space_ok m pd → fresh m (mem_of p) a →
  ∃ m', (on_vm (on_memory (free_page a));; mret (inr false : Z * Z * Z + bool)) p = Ok (inr false, with_mem m' (p_file p) p) ∧
    becomes m m' pd (view m pd).
Proof.
  intros Hs Hf. destruct (fresh_free (p_vm p) m pd a Hs Hf) as (m' & E & Hb). exists m'.
  erewrite bind_ok by (by apply on_vm_ok). done.
Qed.

Lemma install_page_ok p m pd a upage w :
  space_ok m pd → p_pagedir p = pd → fresh m (mem_of p) a → user_va upage → upage mod 4096 = 0 → pd ≠ init_page_dir →
  ∃ (r : bool) m', install_page upage a w p = Ok (r, with_mem m' (p_file p) p) ∧
    if r
    then mapping m pd upage = None ∧
      becomes m m' pd (λ va, if decide (va / 4096 = upage / 4096)
        then (λ b, (b, w)) <$> byte_at (mem (mem_of p)) (a + va mod 4096) else view m pd va)
    else m' = mem_of p.
Proof.
  intros Hs Epd Hf Hva Hal Hinit. destruct (fresh_space m _ pd a Hs Hf) as (Hs1 & Hmap & _).
  assert (on_vm (pagedir_get_page (p_pagedir p) upage) p = Ok (match mapping (mem_of p) pd upage with
      | Some w => w / 4096 * 4096 + PHYS_BASE + upage mod 4096 | None => NULL end, p)) as Eg.
  { rewrite Epd. rewrite (on_vm_ok _ p _ (mem_of p) (get_page_run' p pd upage Hs1 Hva)). by rewrite with_mem_id. }
  unfold install_page. erewrite bind_ok by done. erewrite bind_ok by exact Eg. rewrite Hmap by done.
  destruct (mapping m pd upage) as [x|] eqn:Em.
  - exists false, (mem_of p). rewrite with_mem_id. split; [|done].
    destruct (pg_use _ _ (so_pages _ _ Hs) upage x Hva Em) as (Hu & _). apply (used_kpage _ _ (so_pa _ _ Hs)) in Hu as [Hk _].
    unfold page_of in Hk. rewrite (proj2 (Z.eqb_neq _ _)); [done|]. unfold NULL, PHYS_BASE in *. lia.
  - cbn [Z.eqb NULL]. rewrite Epd.
    destruct (fresh_install (p_vm p) m pd a upage w) as (r & m' & E & Hr); try done.
    { apply (ram (mem_of p)); [apply Hf|]. apply Hf. by right. }
    exists r, m'. split; [by apply on_vm_ok|]. by destruct r.
Qed.

Lemma load_page_ok p pd w upage read zero :
  space_ok (mem_of p) pd → p_pagedir p = pd → pd ≠ init_page_dir → file_ok (p_file p) → 0 ≤ position (p_file p) →
  user_va upage → upage mod 4096 = 0 → 0 ≤ read →
  let m := mem_of p in let c := contents (p_file p) in let pos := position (p_file p) in let n := read `min` 4096 in
  ∃ r m' f', load_page w upage read zero p = Ok (r, with_mem m' f' p) ∧ file_ok f' ∧ contents f' = c ∧
    match r with
    | inl l => l = (u32 (upage + 4096), u32 (read - n), u32 (zero - (4096 - n))) ∧
        position f' = pos + n ∧ (0 < n → pos + n ≤ Z.of_nat (length c)) ∧ mapping m pd upage = None ∧
        becomes m m' pd (λ va, if decide (va / 4096 = upage / 4096)
          then (λ b, (b, w)) <$> seg_byte c pos n (va mod 4096) else view m pd va)
    | inr b => b = false ∧ becomes m m' pd (view m pd)
    end.
Proof.
  intros Hs Epd Hinit Hf Hpos Hva Hal Hread m c pos n.
  unfold load_page. change PGSIZE with 4096.
  replace (if read <? 4096 then read else 4096) with n by (unfold n; destruct (Z.ltb_spec read 4096); lia).
  assert (0 ≤ n ≤ 4096) as Hn by (unfold n; lia).
  destruct (get_fresh (p_vm p) PAL_USER pd Hs eq_refl) as (a & m1 & Eg & Hc).
  erewrite bind_ok by (by apply on_vm_ok). destruct Hc as [[-> ->]|(Hnull & Hfr & _)].
  { exists (inr false), m, (p_file p). split_and!; [done..|]. by apply becomes_refl. }
  rewrite Hnull.
  destruct (file_read_ok (p_file p) n Hf) as (k & f1 & Er & Hk & Hf1 & Hc1 & Hp1); [lia|]. fold c pos in Er, Hc1, Hp1.
  set (bs := slice pos k c) in *.
  assert (Z.of_nat (length bs) ≤ n) as Hbs by (unfold bs, slice; rewrite length_take; lia).
  erewrite bind_ok by (by apply on_file_ok).
  destruct (store_ok bs a (mem m1)) as (fr1 & E1 & Hw1).
  { apply mem_ok, Hfr. }
  { apply Forall_slice. by apply contents_ok. }
  { intros b Hb. apply (fresh_mapped _ _ _ Hfr). lia. }
  erewrite bind_ok by (by apply on_frames_ok).
  pose proof (fresh_write _ _ _ _ _ _ Hfr Hw1 ltac:(lia) ltac:(lia)) as Hfr1.
  destruct (Z.eqb_spec (Z.of_nat (length bs)) n) as [El|Nl]; cbn [negb]; cycle 1.
  { destruct (drop_page (with_mem (set_mem fr1 m1) f1 p) m pd a Hs Hfr1) as (m' & E & Hb).
    exists (inr false), m', f1. by split_and!. }
  destruct (fill_ok (Z.to_nat (4096 - n)) (a + n) 0 fr1) as (fr2 & E2 & Hw2); [apply Hw1|done| |].
  { intros b Hb. apply (written_pages _ _ _ _ _ Hw1), (fresh_mapped _ _ _ Hfr). lia. }
  erewrite bind_ok by (apply on_frames_ok; simpl; by rewrite mem_set). cbn [mem_of p_vm with_mem set_memory memory p_file].
  rewrite set_set.
  assert (written (mem m1) fr2 a (bs ++ replicate (Z.to_nat (4096 - n)) 0)) as Hw.
  { eapply written_app; [done|]. by rewrite El. }
  pose proof (fresh_write _ _ _ _ _ _ Hfr Hw ltac:(lia)) as Hfr2.
  rewrite length_app, length_replicate in Hfr2. specialize (Hfr2 ltac:(lia)).
  destruct (install_page_ok (with_mem (set_mem fr2 m1) f1 p) m pd a upage w) as (r & m' & Ei & Hr); try done.
  erewrite bind_ok by exact Ei. destruct r; cbn [negb].
  - exists (inl (u32 (upage + 4096), u32 (read - n), u32 (zero - (4096 - n)))), m', f1. destruct Hr as [Hnone Hb].
    split_and!; [done..|by rewrite Hp1, El| |done|].
    + intros Hn0. revert El. unfold bs, slice. rewrite length_take, length_drop. lia.
    + eapply becomes_ext; [exact Hb|]. intros va Hva'. cbn beta. destruct (decide _); [|done]. f_equal.
      cbn [mem_of p_vm with_mem set_memory memory]. rewrite mem_set.
      eapply page_byte; [exact Hw|done..|dlia].
  - subst m'. cbn [mem_of p_vm with_mem set_memory memory] in *.
    destruct (drop_page (with_mem (set_mem fr2 m1) f1 p) m pd a Hs Hfr2) as (m' & E & Hb).
    exists (inr false), m', f1. by split_and!.
Qed.
(** ** A segment *)

(** The address space is well formed and nothing of others has changed. *)
Definition intact (m m' : M) (pd : Z) : Prop := space_ok m' pd ∧ kept m m' pd.

Lemma becomes_intact m m' pd V : becomes m m' pd V → intact m m' pd.
Proof. by intros [? ? _]. Qed.

Lemma intact_trans m1 m2 m3 pd : intact m1 m2 pd → intact m2 m3 pd → intact m1 m3 pd.
Proof. intros [_ K1] [O2 K2]. split; [done|by eapply kept_trans]. Qed.

(** [n] bytes of a segment have been loaded. *)
Record part_loaded (m : M) (c : list Z) (ofs upage read n pd : Z) (w : bool) (m' : M) : Prop := {
  pl_becomes : becomes m m' pd (seg_view (view m pd) c ofs upage read n w);
  pl_file : 0 < read `min` n → ofs + read `min` n ≤ Z.of_nat (length c);
  pl_free va : user_va va → upage ≤ va < upage + n → view m pd va = None
}.

Lemma part_next m c ofs upage read n pd w m1 m2 :
  space_ok m pd → 0 ≤ ofs → upage mod 4096 = 0 → n mod 4096 = 0 → 0 ≤ n → 0 ≤ read → user_va (upage + n) →
  part_loaded m c ofs upage read n pd w m1 →
  let k := (0 `max` (read - n)) `min` 4096 in
  (0 < k → ofs + read `min` n + k ≤ Z.of_nat (length c)) → mapping m1 pd (upage + n) = None →
  becomes m1 m2 pd (λ va, if decide (va / 4096 = (upage + n) / 4096)
    then (λ b, (b, w)) <$> seg_byte c (ofs + read `min` n) k (va mod 4096) else view m1 pd va) →
  part_loaded m c ofs upage read (n + 4096) pd w m2.
Proof.
  intros Hs Hofs Hup Hn Hn0 Hread Hva [Hb Hfile Hfree] k Hk Hnone Hb2.
  assert (∀ va, va / 4096 = (upage + n) / 4096 ↔ upage + n ≤ va < upage + n + 4096) as Hpage by (intros va; dlia).
  split.
  - eapply becomes_trans; [exact Hb|]. eapply becomes_ext; [exact Hb2|]. intros va Hva'. cbn beta.
    rewrite (bc_view _ _ _ _ Hb) by done. unfold seg_view. destruct (decide (va / 4096 = _)) as [Hd|Hd]; rewrite Hpage in Hd.
    + rewrite decide_True by lia. f_equal. unfold seg_byte, k.
      destruct (Z.ltb_spec (va - upage) read), (Z.ltb_spec (va mod 4096) ((0 `max` (read - n)) `min` 4096)); [|dlia..|done].
      f_equal. dlia.
    + destruct (decide (upage ≤ va < upage + n)); [by rewrite decide_True by lia|by rewrite decide_False by lia].
  - unfold k in Hk. lia.
  - intros va Hva' Hr. destruct (decide (va < upage + n)); [apply Hfree; [done|lia]|].
    assert (mapping m1 pd va = None) as Hm1.
    { unfold mapping in *. rewrite (pte_at_page _ _ va (upage + n)) by (apply Hpage; lia). exact Hnone. }
    apply view_None in Hm1; [|apply Hb|done]. rewrite (bc_view _ _ _ _ Hb) in Hm1 by done.
    unfold seg_view in Hm1. by rewrite decide_False in Hm1 by lia.
Qed.

Lemma load_segment_ok p pd ofs upage read zero w :
  space_ok (mem_of p) pd → p_pagedir p = pd → pd ≠ init_page_dir → file_ok (p_file p) →
  0 ≤ ofs < 2 ^ 31 → ofs mod 4096 = 0 → 0 ≤ upage → upage mod 4096 = 0 → 0 ≤ read → 0 ≤ zero →
  (read + zero) mod 4096 = 0 → upage + (read + zero) ≤ PHYS_BASE →
  let m := mem_of p in let c := contents (p_file p) in
  ∃ (r : bool) m' f', load_segment ofs upage read zero w p = Ok (r, with_mem m' f' p) ∧ file_ok f' ∧ contents f' = c ∧
    intact m m' pd ∧ (r = true → part_loaded m c ofs upage read (read + zero) pd w m').
Proof.
  intros Hs Epd Hinit Hf Hofs Hofs' Hup Hup' Hr Hz Hmod Hend m c. set (n := read + zero) in *.
  unfold load_segment. rewrite (pg_ofs_mod upage), Hup', u32_small by (unfold PHYS_BASE in *; lia).
  fold n. change PGSIZE with 4096. rewrite Hmod, Z.rem_mod_nonneg, Hofs' by lia.
  do 3 erewrite bind_ok by done.
  destruct (file_seek_ok (p_file p) ofs Hf Hofs) as (f0 & E0 & Hf0 & Hc0 & Hp0).
  erewrite bind_ok by (by apply on_file_ok).
  destruct (loopM_rule (λ k '(u, r, z) p1, ∃ j m1 f1, p1 = with_mem m1 f1 p ∧ file_ok f1 ∧ contents f1 = c ∧
        0 ≤ j ≤ n ∧ j mod 4096 = 0 ∧ 4096 * Z.of_nat k = n - j ∧ u = upage + j ∧ r = 0 `max` (read - j) ∧
        r + z = n - j ∧ 0 ≤ z ∧ position f1 = ofs + read `min` j ∧ part_loaded m c ofs upage read j pd w m1)
      (λ (r : bool) p1, ∃ m1 f1, p1 = with_mem m1 f1 p ∧ file_ok f1 ∧ contents f1 = c ∧ intact m m1 pd ∧
        (r = true → part_loaded m c ofs upage read n pd w m1))
      (segment_body w))
    with (fuel := S (Z.to_nat (n / 4096))) (n := Z.to_nat (n / 4096)) (l := (upage, read, zero))
      (s := with_mem (mem_of p) f0 p) as (r & p' & E & m' & f' & -> & Hq); [|..].
  - intros k [[u r] z] p1 (j & m1 & f1 & -> & Hf1 & Hc1 & Hj & Hj' & Hk & -> & -> & Hrz & Hz' & Hp1 & Hpl).
    unfold segment_body. destruct (decide (j = n)) as [->|Nj].
    { rewrite !Z.gtb_ltb, (proj2 (Z.ltb_ge 0 _)), (proj2 (Z.ltb_ge 0 z)) by lia.
      exists (inr true), (with_mem m1 f1 p). split; [done|]. exists m1, f1. split_and!; try done.
      by eapply becomes_intact, Hpl. }
    replace ((0 `max` (read - j) >? 0) || (z >? 0)) with true
      by (rewrite !Z.gtb_ltb; destruct (Z.ltb_spec 0 (0 `max` (read - j))), (Z.ltb_spec 0 z); done || lia).
    assert (j + 4096 ≤ n) as Hj4 by dlia. assert (user_va (upage + j)) as Hva by (unfold user_va; lia).
    destruct (load_page_ok (with_mem m1 f1 p) pd w (upage + j) (0 `max` (read - j)) z) as (r & m2 & f2 & E2 & Hf2 & Hc2 & Hr2);
      simpl; [apply Hpl|done..|lia|done|dlia|lia|]. simpl in E2, Hc2, Hr2. rewrite Hc1, Hp1 in *.
    exists r, (with_mem m2 f2 p). split; [exact E2|]. destruct r as [l|b].
    + destruct Hr2 as (-> & Hp2 & Hk2 & Hnone & Hb). exists (Nat.pred k). split; [lia|]. exists (j + 4096), m2, f2.
      rewrite !u32_small by (unfold PHYS_BASE in *; lia). split_and!; try done; try lia; [dlia|].
      eapply part_next; try done; lia.
    + destruct Hr2 as [-> Hb]. exists m2, f2. split_and!; try done. destruct Hpl as [Hb1 _ _].
      by eapply becomes_intact, becomes_trans.
  - exists 0, (mem_of p), f0. rewrite Z.add_0_r. split_and!; try done; try lia; [dlia|].
    split; [|lia..]. eapply becomes_ext; [by apply becomes_refl|]. intros va _. unfold seg_view. by rewrite decide_False by lia.
  - lia.
  - exists r, m', f'. split; [exact E|]. done.
Qed.

(** ** A program header *)

Lemma load_phdr_ok p pd ph :
  space_ok (mem_of p) pd → p_pagedir p = pd → pd ≠ init_page_dir → file_ok (p_file p) → phdr_range ph →
  let m := mem_of p in let c := contents (p_file p) in
  ∃ (r : bool) m' f', load_phdr ph p = Ok (r, with_mem m' f' p) ∧ file_ok f' ∧ contents f' = c ∧ intact m m' pd ∧
    (r = true → valid_segment (Z.of_nat (length c)) ph ∧
       part_loaded m c (seg_ofs ph) (seg_start ph) (seg_read ph) (seg_size ph) pd (seg_writable ph) m').
Proof.
  intros Hs Epd Hinit Hf Hr m c. pose proof (contents_ok _ Hf) as [_ Hlen]. fold c in Hlen.
  unfold load_phdr. erewrite bind_ok by (apply on_file_ok; by apply file_length_ok). rewrite with_mem_id. fold c.
  destruct (validate_segment ph (Z.of_nat (length c))) eqn:Ev; cycle 1.
  { exists false, (mem_of p), (p_file p). rewrite with_mem_id. by split_and!. }
  apply validate_segment_ok in Ev as Hvs; [|done|lia]. destruct Hvs as [H1 H2 H3 H4 H5 H6], Hr as (Ho & Hv & Hfs & Hms).
  change (u32 (Z.lnot PGMASK)) with PTE_ADDR. rewrite !land_addr_mask by done.
  fold (pg_ofs (p_vaddr ph)). rewrite pg_ofs_mod. change PGSIZE with 4096. unfold ROUND_UP. rewrite Z.gtb_ltb.
  rewrite s32_small by dlia. rewrite (u32_small (_ + p_memsz ph)) by (unfold PHYS_BASE in *; dlia).
  rewrite (u32_small (_ + p_memsz ph + 4096 - 1)) by (unfold PHYS_BASE in *; dlia).
  replace (p_vaddr ph mod 4096 + p_memsz ph + 4096 - 1) with (p_vaddr ph mod 4096 + p_memsz ph + 4095) by lia.
  fold (seg_size ph) (seg_start ph) (seg_ofs ph).
  assert (0 ≤ seg_size ph ∧ seg_size ph mod 4096 = 0 ∧ seg_start ph + seg_size ph ≤ PHYS_BASE ∧ 0 ≤ seg_start ph ∧
    p_vaddr ph mod 4096 + p_memsz ph ≤ seg_size ph) as (Hz & Hz' & He & Hst & Hle)
    by (unfold seg_size, seg_start, PHYS_BASE in *; split_and!; dlia).
  assert (0 ≤ seg_read ph ≤ seg_size ph) as Hrd by (unfold seg_read; destruct (Z.ltb_spec 0 (p_filesz ph)); dlia).
  rewrite (u32_small (seg_size ph)) by (unfold PHYS_BASE in *; lia).
  replace (if 0 <? p_filesz ph then _ else _) with (seg_read ph, seg_size ph - seg_read ph); cycle 1.
  { unfold seg_read in *. destruct (Z.ltb_spec 0 (p_filesz ph)); [|f_equal; lia].
    rewrite !(u32_small (_ + p_filesz ph)) by (unfold PHYS_BASE in *; dlia). by rewrite u32_small by (unfold PHYS_BASE in *; dlia). }
  cbn iota beta. fold (seg_writable ph).
  destruct (load_segment_ok p pd (seg_ofs ph) (seg_start ph) (seg_read ph) (seg_size ph - seg_read ph) (seg_writable ph))
    as (r & m' & f' & E & Hf' & Hc' & Hi & Hp); try done; try lia; try (unfold seg_ofs, seg_start; dlia).
  exists r, m', f'. split_and!; try done. intros ->. split; [done|].
  replace (seg_size ph) with (seg_read ph + (seg_size ph - seg_read ph)) by lia. by apply Hp.
Qed.

(** ** The program headers *)

(** The segments of [phs] have been loaded into an empty address space. *)
Record segs_loaded (m : M) (c : list Z) (phs : list Elf32_Phdr) (pd : Z) (m' : M) : Prop := {
  sl_becomes : becomes m m' pd (image c phs);
  sl_good : Forall (phdr_good c) phs;
  sl_disjoint : disjoint_segments phs
}.

Lemma segs_skip m c phs ph pd m' :
  segs_loaded m c phs pd m' → p_type ph ∉ [PT_DYNAMIC; PT_INTERP; PT_SHLIB; PT_LOAD] → segs_loaded m c (phs ++ [ph]) pd m'.
Proof.
  intros [Hb Hg Hd] Ht. assert (∀ va, ¬ covers ph va) as Nc by (intros va [E _]; rewrite E in Ht; set_solver). split.
  - eapply becomes_ext; [done|]. intros va _. by rewrite image_snoc, decide_False.
  - apply Forall_app. split; [done|]. apply Forall_singleton. split; [set_solver|]. intros E. rewrite E in Ht. set_solver.
  - intros i j ph1 ph2 va Hva Hi Hj Hc1 Hc2. apply lookup_app_Some in Hi as [Hi|[_ Hi]], Hj as [Hj|[_ Hj]]; [by eapply Hd|..];
      try apply list_lookup_singleton_Some in Hi as [_ <-]; try apply list_lookup_singleton_Some in Hj as [_ <-]; by destruct (Nc va).
Qed.

Lemma segs_load m c phs ph pd m1 m2 :
  Forall phdr_range phs → segs_loaded m c phs pd m1 → p_type ph = PT_LOAD → valid_segment (Z.of_nat (length c)) ph →
  part_loaded m1 c (seg_ofs ph) (seg_start ph) (seg_read ph) (seg_size ph) pd (seg_writable ph) m2 →
  0 ≤ p_filesz ph → segs_loaded m c (phs ++ [ph]) pd m2.
Proof.
  intros Hr [Hb Hg Hd] Ht Hvs [Hb2 Hfile Hfree] Hfs.
  assert (seg_read ph ≤ seg_size ph) as Hle.
  { destruct Hvs. unfold seg_read, seg_size. destruct (Z.ltb_spec 0 (p_filesz ph)); dlia. }
  assert (∀ ph' va, user_va va → ph' ∈ phs → covers ph' va → ¬ covers ph va) as Nc.
  { intros ph' va Hva Hin Hc [_ Hv]. destruct (image_covered c phs ph' va) as [x Hx]; [done..|].
    specialize (Hfree va Hva Hv). rewrite (bc_view _ _ _ _ Hb), Hx in Hfree by done. done. }
  split.
  - eapply becomes_trans; [done|]. eapply becomes_ext; [done|]. intros va Hva. rewrite image_snoc. unfold seg_view, covers.
    destruct (decide (seg_start ph ≤ va < _)); [by rewrite decide_True by done|]. rewrite decide_False by tauto.
    by apply (bc_view _ _ _ _ Hb).
  - apply Forall_app. split; [done|]. apply Forall_singleton. split; [rewrite Ht, !not_elem_of_cons; by repeat split; try apply not_elem_of_nil|]. intros _. split; [done|].
    rewrite Z.min_l in Hfile by done. done.
  - intros i j ph1 ph2 va Hva Hi Hj Hc1 Hc2. apply lookup_app_Some in Hi as [Hi|[Hli Hi]], Hj as [Hj|[Hlj Hj]]; [by eapply Hd|..].
    + apply list_lookup_singleton_Some in Hj as [_ <-]. apply list_elem_of_lookup_2 in Hi. by destruct (Nc ph1 va).
    + apply list_lookup_singleton_Some in Hi as [_ <-]. apply list_elem_of_lookup_2 in Hj. by destruct (Nc ph2 va).
    + apply list_lookup_singleton_Some in Hi as [Hi _], Hj as [Hj _]. lia.
Qed.

(** The state of the loop over the headers before round [i]. *)
Definition phdrs_state p (m : M) (c : list Z) (pd n ofs : Z) (k : nat) (l : Z * Z) (p1 : process M F) : Prop :=
  ∃ m1 f1, p1 = with_mem m1 f1 p ∧ file_ok f1 ∧ contents f1 = c ∧
    Z.of_nat k = n - l.1 ∧ 0 ≤ l.1 ≤ n ∧ l.2 = s32 (ofs + 32 * l.1) ∧ (0 < l.1 → ofs + 32 * l.1 < 2 ^ 31) ∧
    segs_loaded m c (phdrs c ofs (Z.to_nat l.1)) pd m1.

Definition phdrs_result p (m : M) (c : list Z) (pd n ofs : Z) (r : bool) (p1 : process M F) : Prop :=
  ∃ m1 f1, p1 = with_mem m1 f1 p ∧ file_ok f1 ∧ contents f1 = c ∧ intact m m1 pd ∧
    (r = true → segs_loaded m c (phdrs c ofs (Z.to_nat n)) pd m1).

Lemma phdr_body_ok p m c pd n ofs k l p1 :
  p_pagedir p = pd → pd ≠ init_page_dir → Forall byte_ok c → Z.of_nat (length c) < 2 ^ 31 → 0 ≤ ofs < 2 ^ 32 →
  phdrs_state p m c pd n ofs k l p1 →
  ∃ r p2, phdr_body n l p1 = Ok (r, p2) ∧
    match r with
    | inl l' => ∃ k', (k' < k)%nat ∧ phdrs_state p m c pd n ofs k' l' p2
    | inr b => phdrs_result p m c pd n ofs b p2
    end.
Proof.
  intros Epd Hinit Hbytes Hlen Hofs (m1 & f1 & -> & Hf1 & Hc1 & Hk & Hi & Ho & Ho' & Hsl).
  destruct l as [i o]. cbn [fst snd] in *. unfold phdr_body.
  assert (∀ m2 f2, file_ok f2 → contents f2 = c → intact m m2 pd →
    phdrs_result p m c pd n ofs false (with_mem m2 f2 p)) as Hfail by (intros m2 f2 ???; exists m2, f2; by split_and!).
  pose proof (becomes_intact _ _ _ _ (sl_becomes _ _ _ _ _ Hsl)) as Hint.
  destruct (Z.ltb_spec i n) as [Hin|]; cycle 1.
  { exists (inr true), (with_mem m1 f1 p). split; [done|]. exists m1, f1. split_and!; try done. intros _. by replace n with i by lia. }
  erewrite bind_ok by (apply on_file_ok; by apply file_length_ok). cbn [mem_of p_vm with_mem p_file set_memory memory]. rewrite Hc1.
  destruct (Z.ltb_spec o 0); [exists (inr false); eexists; split; [done|]; by apply Hfail|]. rewrite Z.gtb_ltb.
  destruct (Z.ltb_spec (Z.of_nat (length c)) o); [exists (inr false); eexists; split; [done|]; by apply Hfail|]. cbn [orb].
  assert (o = ofs + 32 * i) as Eo.
  { rewrite Ho. destruct (decide (i = 0)) as [->|]; [|apply s32_small; lia]. revert Ho. unfold s32. intros. dlia. }
  destruct (file_seek_ok f1 o Hf1) as (f2 & E2 & Hf2 & Hc2 & Hp2); [lia|]. erewrite bind_ok by (by apply on_file_ok).
  destruct (file_read_ok f2 32 Hf2) as (j & f3 & E3 & Hj & Hf3 & Hc3 & _); [lia|]. rewrite Hp2, Hc2, Hc1 in *.
  erewrite bind_ok by (by apply on_file_ok). cbn [mem_of p_vm with_mem p_file set_memory memory]. change sizeof_phdr with 32.
  destruct (Z.eqb_spec (Z.of_nat (length (slice o j c))) 32) as [Ej|]; cbn [negb]; cycle 1.
  { exists (inr false). eexists. split; [done|]. by apply Hfail. }
  assert (j = 32 ∧ o + 32 ≤ Z.of_nat (length c)) as [-> Ho2] by (revert Ej; unfold slice; rewrite length_take, length_drop; lia).
  set (ph := phdr_of (slice o 32 c)). rewrite s32_small by lia.
  assert (∀ m4 f4, file_ok f4 → contents f4 = c → segs_loaded m c (phdrs c ofs (Z.to_nat i) ++ [ph]) pd m4 →
    phdrs_state p m c pd n ofs (Nat.pred k) (i + 1, o + 32) (with_mem m4 f4 p)) as Hnext.
  { intros m4 f4 Hf4 Hc4 Hs4. exists m4, f4. cbn [fst snd]. split_and!; try done; try lia; [rewrite s32_small; lia|].
    replace (Z.to_nat (i + 1)) with (S (Z.to_nat i)) by lia. rewrite phdrs_snoc, Z2Nat.id, <-Eo by lia. done. }
  destruct (Z.eqb_spec (p_type ph) PT_DYNAMIC); [exists (inr false); eexists; split; [done|]; by apply Hfail|].
  destruct (Z.eqb_spec (p_type ph) PT_INTERP); [exists (inr false); eexists; split; [done|]; by apply Hfail|].
  destruct (Z.eqb_spec (p_type ph) PT_SHLIB); [exists (inr false); eexists; split; [done|]; by apply Hfail|]. cbn [orb].
  destruct (Z.eqb_spec (p_type ph) PT_LOAD) as [Et|Nt]; cycle 1.
  { exists (inl (i + 1, o + 32)). eexists. split; [done|]. exists (Nat.pred k). split; [lia|]. apply Hnext; try done.
    apply segs_skip; [done|]. set_solver. }
  assert (phdr_range ph) as Hph by (by apply phdr_of_range, Forall_slice).
  destruct (load_phdr_ok (with_mem m1 f3 p) pd ph) as (r & m4 & f4 & E4 & Hf4 & Hc4 & Hi4 & Hr); try done; [apply Hsl|].
  simpl in Hc4, Hi4, Hr. rewrite Hc3 in *. rewrite bind_ok with (a := r) (s' := with_mem m4 f4 p) by exact E4.
  destruct r; eexists; eexists; (split; [done|]).
  - exists (Nat.pred k). split; [lia|]. destruct Hr as [Hvs Hpl]; [done|]. apply Hnext; try done.
    eapply segs_load; try done; [by apply phdrs_range|apply Hph].
  - apply Hfail; try done. by eapply intact_trans.
Qed.

Lemma load_phdrs_ok p pd (n ofs : Z) :
  space_ok (mem_of p) pd → p_pagedir p = pd → pd ≠ init_page_dir → file_ok (p_file p) →
  (∀ va, user_va va → view (mem_of p) pd va = None) → 0 ≤ n → 0 ≤ ofs < 2 ^ 32 →
  ∃ r p', load_phdrs n ofs p = Ok (r, p') ∧ phdrs_result p (mem_of p) (contents (p_file p)) pd n ofs r p'.
Proof.
  intros Hs Epd Hinit Hf Hempty Hn Hofs. pose proof (contents_ok _ Hf) as [Hbytes Hlen].
  unfold load_phdrs.
  apply (loopM_rule (phdrs_state p (mem_of p) (contents (p_file p)) pd n ofs)) with (n := Z.to_nat n); [|..|lia].
  - intros k l p1. by apply phdr_body_ok.
  - exists (mem_of p), (p_file p). rewrite with_mem_id. cbn [fst snd]. split_and!; try done; try lia. by rewrite Z.add_0_r.
Qed.

(** ** The stack *)

Lemma zero_page_byte (fr : frames) a i :
  a mod 4096 = 0 → fr !! a = Some (repeat 0 word_cnt) → 0 ≤ i < 4096 → byte_at fr (a + i) = Some 0.
Proof.
  intros Ha E Hi. unfold byte_at, word_at. replace (page_at (a + i)) with a by (unfold page_at; dlia). rewrite E.
  cbn [mbind option_bind]. rewrite lookup_repeat by apply index_lt. cbn [mbind option_bind].
  pose proof (mod4 (a + i)) as Hlt. destruct (Z.to_nat ((a + i) mod 4)) as [|[|[|[|]]]]; [done..|lia].
Qed.

Lemma setup_stack_ok p pd :
  space_ok (mem_of p) pd → p_pagedir p = pd → pd ≠ init_page_dir →
  ∃ r m', setup_stack p = Ok (r, with_mem m' (p_file p) p) ∧
    match r with
    | Some esp => esp = PHYS_BASE ∧ mapping (mem_of p) pd (PHYS_BASE - 4096) = None ∧
        becomes (mem_of p) m' pd (λ va, if decide (PHYS_BASE - 4096 ≤ va) then Some (0, true) else view (mem_of p) pd va)
    | None => intact (mem_of p) m' pd
    end.
Proof.
  intros Hs Epd Hinit. unfold setup_stack.
  destruct (get_fresh (p_vm p) (Z.lor PAL_USER PAL_ZERO) pd Hs eq_refl) as (a & m1 & Eg & Hc).
  erewrite bind_ok by (by apply on_vm_ok). destruct Hc as [[-> ->]|(Hnull & Hfr & Hz)].
  { exists None, (mem_of p). split; [done|]. by eapply becomes_intact, becomes_refl. }
  rewrite Hnull. cbn [negb]. change (PHYS_BASE - PGSIZE) with (PHYS_BASE - 4096).
  destruct (install_page_ok (with_mem m1 (p_file p) p) (mem_of p) pd a (PHYS_BASE - 4096) true) as (r & m' & E & Hr); try done.
  erewrite bind_ok by exact E. destruct r.
  - exists (Some PHYS_BASE), m'. split; [done|]. destruct Hr as [Hn Hb]. split_and!; [done..|].
    eapply becomes_ext; [exact Hb|]. intros va Hva. cbn beta. destruct Hfr as [_ [_ Ha] _ _ _].
    destruct (decide (va / 4096 = _)); [rewrite decide_True by (unfold user_va, PHYS_BASE in *; dlia)|
      by rewrite decide_False by (unfold user_va, PHYS_BASE in *; dlia)].
    cbn [mem_of p_vm with_mem set_memory memory]. rewrite zero_page_byte; [done|done|by apply Hz|dlia].
  - subst m'. destruct (fresh_free (p_vm (with_mem m1 (p_file p) p)) (mem_of p) pd a Hs Hfr) as (m' & E' & Hb).
    exists None, m'. split; [|by eapply becomes_intact]. by erewrite bind_ok by (by apply on_vm_ok).
Qed.

(** ** The whole file *)

(** The program of the file [c] has been loaded. *)
Record loaded (c : list Z) (m' : M) (pd eip esp : Z) : Prop := {
  ld_length : sizeof_ehdr ≤ Z.of_nat (length c);
  ld_header : header_bad sizeof_ehdr (header c) = false;
  ld_segments : Forall (phdr_good c) (segments c);
  ld_disjoint : disjoint_segments (segments c);
  ld_stack ph va : user_va va → ph ∈ segments c → covers ph va → va < PHYS_BASE - 4096;
  ld_view va : user_va va → view m' pd va = process_image c (segments c) va;
  ld_entry : eip = e_entry (header c);
  ld_esp : esp = PHYS_BASE
}.

Lemma load_file_ok p pd :
  space_ok (mem_of p) pd → p_pagedir p = pd → pd ≠ init_page_dir → file_ok (p_file p) → position (p_file p) = 0 →
  (∀ va, user_va va → view (mem_of p) pd va = None) →
  ∃ r m' f', load_file p = Ok (r, with_mem m' f' p) ∧ file_ok f' ∧ intact (mem_of p) m' pd ∧
    match r with Some (eip, esp) => loaded (contents (p_file p)) m' pd eip esp | None => True end.
Proof.
  intros Hs Epd Hinit Hf Hpos Hempty. set (c := contents (p_file p)). pose proof (contents_ok _ Hf) as [Hbytes Hlen]. fold c in Hbytes, Hlen.
  unfold load_file. change sizeof_ehdr with 52. destruct (file_read_ok (p_file p) 52 Hf) as (k & f1 & E1 & Hk & Hf1 & Hc1 & _); [lia|].
  fold c in E1, Hc1. rewrite Hpos in E1. erewrite bind_ok by (by apply on_file_ok).
  destruct (header_bad _ _) eqn:Eh.
  { exists None, (mem_of p), f1. by split_and!. }
  assert (k = 52 ∧ 52 ≤ Z.of_nat (length c)) as [-> Hlc].
  { unfold header_bad in Eh. rewrite !orb_false_iff in Eh. destruct Eh as [[[[[[Eh _] _] _] _] _] _].
    apply negb_false_iff, Z.eqb_eq in Eh. unfold slice in Eh. change sizeof_ehdr with 52 in Eh.
    rewrite length_take, length_drop in Eh. lia. }
  rewrite length_slice in Eh by lia. change (ehdr_of (slice 0 52 c)) with (header c) in *.
  destruct (load_phdrs_ok (with_mem (mem_of p) f1 p) pd (e_phnum (header c)) (e_phoff (header c)))
    as (r & p2 & E2 & m2 & f2 & -> & Hf2 & Hc2 & Hi2 & Hr2); try done.
  { apply le_decode_range. by do 2 apply Forall_slice. }
  { by apply dword_range, Forall_slice. }
  simpl in Hc2, Hr2, Hi2. rewrite Hc1 in *. rewrite bind_ok with (a := r) (s' := with_mem m2 f2 p) by exact E2.
  destruct r; [|exists None, m2, f2; by split_and!]. destruct Hr2 as [Hb Hg Hd]; [done|]. fold (segments c) in Hb, Hg, Hd.
  destruct (setup_stack_ok (with_mem m2 f2 p) pd) as (r & m3 & E3 & Hr3); [apply Hb|done..|].
  rewrite bind_ok with (a := r) (s' := with_mem m3 f2 p) by exact E3. destruct r as [esp|]; cycle 1.
  { exists None, m3, f2. split_and!; try done. by eapply intact_trans. }
  destruct Hr3 as (-> & Hnone & Hb3). exists (Some (e_entry (header c), PHYS_BASE)), m3, f2. split_and!; try done;
    [by eapply intact_trans, becomes_intact|]. split; try done.
  - intros ph va Hva Hin Hcov. destruct (decide (va < PHYS_BASE - 4096)) as [|Hge]; [done|exfalso].
    destruct (image_covered c (segments c) ph va) as [x Hx]; [by apply phdrs_range|done..|].
    rewrite <-(bc_view _ _ _ _ Hb) in Hx by done. enough (view m2 pd va = None) by congruence.
    apply view_None; [apply Hb|done|]. unfold mapping in *.
    rewrite (pte_at_page _ _ va (PHYS_BASE - 4096)) by (unfold user_va, PHYS_BASE in *; dlia). done.
  - intros va Hva. rewrite (bc_view _ _ _ _ Hb3) by done. unfold process_image. case_decide; [done|]. by apply (bc_view _ _ _ _ Hb).
Qed.

(** ** load and process_exit *)

(** A machine on which a program can be loaded: the user half of the initial
    page directory is empty, and the file is open at its start. *)
Record ready p : Prop := {
  rd_pa : pa_ok (mem_of p);
  rd_init : used_page (mem_of p) init_page_dir;
  rd_zero i : 0 ≤ i < 768 → word (mem_of p) (init_page_dir + 4 * i) = Some 0;
  rd_file : file_ok (p_file p);
  rd_pos : position (p_file p) = 0
}.

(** The process has an address space of its own: besides its pages, exactly
    the pages that were in use in [m] are, with the same contents, and the
    processor runs on its directory and enters the kernel on its stack. *)
Record own_space (m : M) p : Prop := {
  os_ok : space_ok (mem_of p) (p_pagedir p);
  os_init : p_pagedir p ≠ init_page_dir;
  os_others b : foreign (mem_of p) (p_pagedir p) b ↔ used_page m b;
  os_mem b : used_page m b → mem (mem_of p) !! b = mem m !! b;
  os_active : active (p_vm p) = p_pagedir p;
  os_esp0 : p_esp0 p = cur + 4096
}.

Lemma create_space s :
  pa_ok (memory s) → used_page (memory s) init_page_dir →
  (∀ i, 0 ≤ i < 768 → word (memory s) (init_page_dir + 4 * i) = Some 0) →
  ∃ pd m', pagedir_create s = Ok (pd, set_memory m' s) ∧
    ((pd = NULL ∧ m' = memory s) ∨
     (kpage pd ∧ pd ≠ init_page_dir ∧ space_ok m' pd ∧ (∀ va, user_va va → view m' pd va = None) ∧
      (∀ b, foreign m' pd b ↔ used_page (memory s) b) ∧ ∀ b, used_page (memory s) b → mem m' !! b = mem (memory s) !! b)).
Proof.
  intros Hm Hu Hz. destruct (pagedir_create_run s Hm Hu Hz) as (pd & m' & E & Hm' & Hc). exists pd, m'. split; [done|].
  destruct Hc as [?|(Hpd & Hpg & Hn & Hu' & Hmap & Hw & Hmem)]; [by left|right].
  assert (∀ i pt, 0 ≤ i < 768 → ¬ table m' pd i pt) as Nt.
  { intros i pt Hi Ht%table_nonzero. by rewrite Hw, Hz in Ht by lia. }
  assert (∀ b, mine m' pd b ↔ b = pd) as Hmine.
  { intros b. split; [|by left]. intros [?|(i & pt & Hi & Ht & _)]; [done|by destruct (Nt i pt)]. }
  split_and!; [by eapply used_kpage, Hpd|congruence|done| | |].
  - intros va Hva. unfold view. by rewrite Hmap.
  - intros b. unfold foreign. rewrite Hmine, Hu'. split; [tauto|]. intros Hb. split; [by left|congruence].
  - intros b Hb. apply Hmem. congruence.
Qed.

Lemma load_run p opened :
  ready p →
  ∃ r p', load cur opened p = Ok (r, p') ∧
    ((r = None ∧ p_pagedir p' = NULL ∧ mem_of p' = mem_of p) ∨
     (p_pagedir p' ≠ NULL ∧ own_space (mem_of p) p' ∧
      match r with
      | Some (eip, esp) => opened = true ∧ loaded (contents (p_file p)) (mem_of p') (p_pagedir p') eip esp
      | None => True
      end)).
Proof.
  intros [Hm Hu Hz Hf Hpos]. unfold load. destruct (create_space (p_vm p) Hm Hu Hz) as (pd & m1 & E1 & Hc).
  erewrite bind_ok by (by apply on_vm_ok). erewrite bind_ok by done. destruct Hc as [[-> ->]|(Hk & Hinit & Hs & Hv & Hfor & Hmem)].
  { exists None. eexists. split; [done|]. by left. }
  pose proof (kpage_null pd 0 Hk ltac:(lia)) as Hn. rewrite Z.mul_0_r, Z.add_0_r in Hn. rewrite Hn. apply Z.eqb_neq in Hn as Hn'.
  set (p1 := mk_process (mk_vm m1 (pd - PHYS_BASE) ∅) pd (cur + 4096) (p_file p)).
  rewrite bind_ok with (a := tt) (s' := p1); cycle 1.
  { unfold process_activate. erewrite bind_ok by done. unfold mbind, st_bind, on_vm. cbn [p_vm p_pagedir set_pagedir with_mem].
    unfold pagedir_activate. rewrite Hn, vtop_ok by apply Hk. done. }
  assert (∀ m2 f2, intact m1 m2 pd → own_space (mem_of p) (with_mem m2 f2 p1)) as Hos.
  { intros m2 f2 [Hs2 [Hk2 Hk2']]. split; simpl; try done.
    - intros b. by rewrite Hk2.
    - intros b Hb. rewrite Hk2' by (by apply Hfor). by apply Hmem.
    - unfold active. simpl. lia. }
  destruct opened; cycle 1.
  { exists None, p1. split; [done|]. right. split_and!; try done. rewrite <-(with_mem_id p1). by apply Hos. }
  destruct (load_file_ok p1 pd) as (r & m2 & f2 & E2 & Hf2 & Hi2 & Hr); try done.
  erewrite bind_ok by exact E2. destruct (file_close_ok f2 Hf2) as (f3 & E3).
  erewrite bind_ok by (by apply on_file_ok). eexists r, (with_mem m2 f3 p1). split; [done|]. right.
  split_and!; [done|by apply Hos|]. by destruct r as [[]|].
Qed.

(** ** Properties *)

(** C5: loading a program never faults.  When it succeeds, the header and all
    program headers of the file are acceptable, the segments overlap neither
    each other nor the stack, and the program sees exactly what the headers
    describe: the bytes of the file and then zeros in the pages of each loadable segment,
    writable as its flags say, one page of writable zeros for the stack, and
    nothing else; it starts at the entry point with the stack pointer at the
    top of user memory.  Pages in use before keep their contents. *)
Theorem load_correct p opened :
  ready p →
  ∃ r p', load cur opened p = Ok (r, p') ∧
    match r with
    | Some (eip, esp) => opened = true ∧ own_space (mem_of p) p' ∧
        loaded (contents (p_file p)) (mem_of p') (p_pagedir p') eip esp
    | None => p_pagedir p' = NULL ∨ own_space (mem_of p) p'
    end.
Proof.
  intros Hp. destruct (load_run p opened Hp) as (r & p' & E & Hc). exists r, p'. split; [done|].
  destruct Hc as [(-> & Hn & _)|(_ & Hos & Hr)]; [by left|]. destruct r as [[eip esp]|]; [|by right]. by destruct Hr.
Qed.

(** C6: whether a program has been loaded or loading failed, leaving the
    process frees every page that was taken for it, each once: afterwards
    exactly the pages that were in use before the load are in use, with the
    same contents, and the processor is back on the initial page directory
    before the directory of the process is freed. *)
Theorem load_exit_no_leak p opened :
  ready p →
  ∃ r p1 p2, load cur opened p = Ok (r, p1) ∧ process_exit p1 = Ok (tt, p2) ∧ p_pagedir p2 = NULL ∧
    pa_ok (mem_of p2) ∧ (∀ b, used_page (mem_of p2) b ↔ used_page (mem_of p) b) ∧
    (∀ b, used_page (mem_of p) b → mem (mem_of p2) !! b = mem (mem_of p) !! b) ∧
    (p_pagedir p1 ≠ NULL → active (p_vm p2) = init_page_dir).
Proof.
  intros Hp. destruct (load_run p opened Hp) as (r & p1 & E & Hc). exists r, p1.
  pose proof (used_kpage _ _ (rd_pa _ Hp) (rd_init _ Hp)) as Hki.
  unfold process_exit. destruct Hc as [(_ & Hn & Em)|(Hn & Hos & _)].
  { exists p1. erewrite bind_ok by done. rewrite Hn, Em. split_and!; try done. apply Hp. }
  erewrite bind_ok by done. rewrite (proj2 (Z.eqb_neq _ _) Hn). cbn [negb]. erewrite bind_ok by done.
  set (s1 := mk_vm (mem_of p1) (init_page_dir - PHYS_BASE) ∅).
  rewrite bind_ok with (a := tt) (s' := set_vm s1 (set_pagedir NULL p1)); cycle 1.
  { unfold on_vm, pagedir_activate. cbn [Z.eqb NULL]. rewrite vtop_ok by apply Hki. done. }
  destruct Hos as [[Hm Hpd Hpg] Hi Ho Hmem _ _].
  destruct (pagedir_destroy_run s1 (p_pagedir p1) Hm Hpd Hpg Hi) as (m2 & E2 & Hm2 & Hu2 & Hmem2).
  eexists. split; [done|]. split; [unfold on_vm; cbn [p_vm set_vm]; by rewrite E2|]. cbn [p_vm set_vm p_pagedir set_pagedir set_memory memory].
  split_and!; try done.
  - intros b. rewrite Hu2. apply Ho.
  - intros b Hb. rewrite Hmem2; [by apply Hmem|]. apply Ho in Hb as [_ Hb]. exact Hb.
  - intros _. unfold active. simpl. lia.
Qed.

End process.

(** ** Witnesses

    An executable with one segment of four bytes and four zeros, and the
    machine of [PagedirSpec] on which the first page of the kernel pool is the
    initial page directory. *)

Section demo.

#[local] Instance process_globals : InitGlobals := {| init_page_dir := 0xc0101000; init_ram_pages := 2 ^ 18 |}.

Lemma demo_ram (m : Palloc.memory) a : pa_ok m → used_page m a → (a - PHYS_BASE) / 4096 < init_ram_pages.
Proof. intros Hm Hu. pose proof (used_kpage _ _ Hm Hu) as [Hk _]. change init_ram_pages with (2 ^ 18). unfold PHYS_BASE in *. dlia. Qed.

Definition demo_elf : list Z :=
  [0x7f; 0x45; 0x4c; 0x46; 1; 1; 1; 0; 0; 0; 0; 0; 0; 0; 0; 0] ++
  le_encode 2 2 ++ le_encode 2 3 ++ le_encode 4 1 ++ le_encode 4 0x8048054 ++ le_encode 4 52 ++ le_encode 4 0 ++
  le_encode 4 0 ++ le_encode 2 52 ++ le_encode 2 32 ++ le_encode 2 1 ++ le_encode 2 0 ++ le_encode 2 0 ++ le_encode 2 0 ++
  le_encode 4 PT_LOAD ++ le_encode 4 84 ++ le_encode 4 0x8048054 ++ le_encode 4 0 ++ le_encode 4 4 ++ le_encode 4 8 ++
  le_encode 4 5 ++ le_encode 4 4096 ++
  [0xb8; 0x01; 0xcd; 0x30].

Definition demo_process : process Palloc.memory array_file :=
  mk_process demo_init NULL 0 (mk_array_file demo_elf 0).

Lemma demo_ready : ready demo_process.
Proof.
  destruct demo_init_ok as (Hm & Hu & _ & _ & Hz). split; [exact Hm|exact Hu|exact Hz| |done].
  split; [|vm_compute; reflexivity]. repeat constructor; vm_compute; done.
Qed.

Definition demo_loaded {F} (r : result (option (Z * Z) * process Palloc.memory F)) : bool :=
  match r with Ok (Some (eip, esp), _) => (eip =? 0x8048054) && (esp =? PHYS_BASE) | _ => false end.

Lemma demo_loads : demo_loaded (load 0xc0100000 true demo_process) = true.
Proof. vm_compute. reflexivity. Qed.

Lemma load_correct_witness :
  ∃ p', load 0xc0100000 true demo_process = Ok (Some (0x8048054, PHYS_BASE), p') ∧
    view (memory (p_vm p')) (p_pagedir p') 0x8048056 = Some (0xcd, false) ∧
    view (memory (p_vm p')) (p_pagedir p') 0x8048059 = Some (0, false) ∧
    view (memory (p_vm p')) (p_pagedir p') 0xbffffffc = Some (0, true) ∧
    view (memory (p_vm p')) (p_pagedir p') 0x8049000 = None.
Proof.
  destruct (load_correct 0xc0100000 demo_ram demo_process true demo_ready) as (r & p' & E & H).
  assert (demo_loaded (Ok (r, p')) = true) as Hl by (rewrite <-E; exact demo_loads).
  destruct r as [[eip esp]|]; [|discriminate Hl].
  apply andb_true_iff in Hl as [->%Z.eqb_eq ->%Z.eqb_eq]. exists p'. destruct H as (_ & _ & H).
  split; [exact E|]. clear E. split_and!; rewrite (ld_view _ _ _ _ _ H) by done; vm_compute; reflexivity.
Defined.

Lemma load_exit_no_leak_witness :
  ∃ r p1 p2, load 0xc0100000 true demo_process = Ok (r, p1) ∧ process_exit p1 = Ok (tt, p2) ∧
    used_page (memory (p_vm p2)) 0xc0101000.
Proof.
  destruct (load_exit_no_leak 0xc0100000 demo_ram demo_process true demo_ready) as (r & p1 & p2 & E1 & E2 & _ & _ & Hu & _).
  exists r, p1, p2. split; [exact E1|]. split; [exact E2|]. apply Hu, demo_init_ok.
Defined.

End demo.
