(* ===== verification/Block.v ===== *)
(** * Block devices and partitions: devices/block.c, devices/partition.c

    A block device is a descriptor in front of a driver.  [BlockDriver] is
    what the block layer relies on: a driver reads and writes whole sectors.
    Two drivers are given: an array of sectors, and a partition, which maps
    its sectors into a range of another block device. *)

From S2P Require Import Prelude Bytes.

Definition BLOCK_SECTOR_SIZE : Z := 512.

Definition sector_ok (bs : list Z) : Prop := Z.of_nat (length bs) = 512 ∧ Forall byte_ok bs.

#[export] Instance sector_ok_dec bs : Decision (sector_ok bs).
Proof. unfold sector_ok. apply _. Defined.

(** ** Drivers *)

Class BlockDriver (D : Type) := {
  drv_read : Z → ST D (list Z);
  drv_write : Z → list Z → ST D unit;
  drv_size : D → Z;
  content : D → Z → list Z;
  drv_ok : D → Prop;
  content_ok d i : drv_ok d → 0 ≤ i < drv_size d → sector_ok (content d i);
  drv_read_ok d i : drv_ok d → 0 ≤ i < drv_size d →
    ∃ d', drv_read i d = Ok (content d i, d') ∧ drv_ok d' ∧ drv_size d' = drv_size d ∧
      ∀ j, 0 ≤ j < drv_size d → content d' j = content d j;
  drv_write_ok d i bs : drv_ok d → 0 ≤ i < drv_size d → sector_ok bs →
    ∃ d', drv_write i bs d = Ok (tt, d') ∧ drv_ok d' ∧ drv_size d' = drv_size d ∧
      ∀ j, 0 ≤ j < drv_size d → content d' j = if decide (j = i) then bs else content d j
}.

(** ** block.c *)

Inductive block_type :=
  | BLOCK_KERNEL | BLOCK_FILESYS | BLOCK_SCRATCH | BLOCK_SWAP | BLOCK_RAW | BLOCK_FOREIGN.

#[export] Instance block_type_eq_dec : EqDecision block_type.
Proof. solve_decision. Defined.

Record block (D : Type) := mk_block {
  type : block_type;
  size : Z;
  read_cnt : Z;
  write_cnt : Z;
  aux : D
}.
Arguments mk_block {D} _ _ _ _ _.
Arguments type {D} _.
Arguments size {D} _.
Arguments read_cnt {D} _.
Arguments write_cnt {D} _.
Arguments aux {D} _.

Section block.
Context {D : Type} `{BD : BlockDriver D}.

Definition block_size (b : block D) : Z := size b.

Definition check_sector (sector : Z) : ST (block D) unit :=
  b ← get; if size b <=? sector then fail KernelPanic else mret tt.

(** A call of [block->ops] with [block->aux]. *)
Definition on_driver {A} (f : ST D A) : ST (block D) A := λ b,
  match f (aux b) with
  | Ok (a, d) => Ok (a, mk_block (type b) (size b) (read_cnt b) (write_cnt b) d)
  | Err e => Err e
  end.

Definition block_read (sector : Z) : ST (block D) (list Z) :=
  check_sector sector;;
  buffer ← on_driver (drv_read sector);
  modify (λ b, mk_block (type b) (size b) (u64 (read_cnt b + 1)) (write_cnt b) (aux b));;
  mret buffer.

Definition block_write (sector : Z) (buffer : list Z) : ST (block D) unit :=
  check_sector sector;;
  b ← get; assert (negb (bool_decide (type b = BLOCK_FOREIGN)));;
  on_driver (drv_write sector buffer);;
  modify (λ b, mk_block (type b) (size b) (read_cnt b) (u64 (write_cnt b + 1)) (aux b)).

(** A descriptor that fits its driver. *)
Record block_ok (b : block D) : Prop := {
  bo_drv : drv_ok (aux b);
  bo_size : 0 ≤ size b ≤ drv_size (aux b);
  bo_type : type b ≠ BLOCK_FOREIGN
}.

Definition sector_of (b : block D) (i : Z) : list Z := content (aux b) i.

Lemma sector_of_ok b i : block_ok b → 0 ≤ i < size b → sector_ok (sector_of b i).
Proof. intros [H1 H2 _] Hi. apply content_ok; [done|lia]. Qed.

(** Two devices with the same contents. *)
Definition same_disk (b b' : block D) : Prop :=
  block_ok b' ∧ size b' = size b ∧ type b' = type b ∧
  ∀ j, 0 ≤ j < size b → sector_of b' j = sector_of b j.

Lemma block_read_ok b i :
  block_ok b → 0 ≤ i < size b →
  ∃ b', block_read i b = Ok (sector_of b i, b') ∧ same_disk b b'.
Proof.
  intros [H1 H2 H3] Hi. destruct (drv_read_ok (aux b) i) as (d' & E & Hd & Hs & Hc); [done|lia|].
  unfold block_read, check_sector. rewrite bind_ok with (a := tt) (s' := b).
  - erewrite bind_ok by (unfold on_driver; by rewrite E). erewrite bind_ok by done.
    eexists. split; [done|]. split_and!; try done; [split; simpl; [done|lia|done]|].
    intros j Hj. apply Hc. simpl in *. lia.
  - erewrite bind_ok by apply get_ok. by rewrite (proj2 (Z.leb_gt _ _)) by lia.
Qed.

Lemma block_write_ok b i bs :
  block_ok b → 0 ≤ i < size b → sector_ok bs →
  ∃ b', block_write i bs b = Ok (tt, b') ∧ block_ok b' ∧ size b' = size b ∧ type b' = type b ∧
    ∀ j, 0 ≤ j < size b → sector_of b' j = if decide (j = i) then bs else sector_of b j.
Proof.
  intros [H1 H2 H3] Hi Hbs. destruct (drv_write_ok (aux b) i bs) as (d' & E & Hd & Hs & Hc); [done|lia|done|].
  unfold block_write, check_sector. rewrite bind_ok with (a := tt) (s' := b).
  - erewrite bind_ok by apply get_ok. rewrite bool_decide_eq_false_2 by done. erewrite bind_ok by done.
    erewrite bind_ok by (unfold on_driver; by rewrite E).
    eexists. split; [done|]. split_and!; try done; [split; simpl; [done|lia|done]|].
    intros j Hj. apply Hc. simpl in *. lia.
  - erewrite bind_ok by apply get_ok. by rewrite (proj2 (Z.leb_gt _ _)) by lia.
Qed.

(** Access past the end of the device panics. *)
Lemma block_past_end b i bs :
  size b ≤ i → block_read i b = Err KernelPanic ∧ block_write i bs b = Err KernelPanic.
Proof.
  intros Hi. unfold block_read, block_write, check_sector, mbind, st_bind, get.
  by rewrite (proj2 (Z.leb_le _ _)) by lia.
Qed.

End block.

(** ** An array of sectors *)

Definition ram_read (i : Z) : ST (list (list Z)) (list Z) := λ d,
  match d !! Z.to_nat i with Some bs => Ok (bs, d) | None => Err BadAccess end.
Definition ram_write (i : Z) (bs : list Z) : ST (list (list Z)) unit := λ d,
  match d !! Z.to_nat i with Some _ => Ok (tt, <[Z.to_nat i := bs]> d) | None => Err BadAccess end.

Lemma ram_read_ok d i :
  Forall sector_ok d → 0 ≤ i < Z.of_nat (length d) →
  ∃ d', ram_read i d = Ok (d !!! Z.to_nat i, d') ∧ Forall sector_ok d' ∧
    Z.of_nat (length d') = Z.of_nat (length d) ∧
    ∀ j, 0 ≤ j < Z.of_nat (length d) → d' !!! Z.to_nat j = d !!! Z.to_nat j.
Proof.
  intros Hd Hi. destruct (lookup_lt_is_Some_2 d (Z.to_nat i)) as [bs E]; [lia|].
  exists d. unfold ram_read. by rewrite (list_lookup_total_correct _ _ _ E), E.
Qed.

Lemma ram_write_ok d i bs :
  Forall sector_ok d → 0 ≤ i < Z.of_nat (length d) → sector_ok bs →
  ∃ d', ram_write i bs d = Ok (tt, d') ∧ Forall sector_ok d' ∧
    Z.of_nat (length d') = Z.of_nat (length d) ∧
    ∀ j, 0 ≤ j < Z.of_nat (length d) →
      d' !!! Z.to_nat j = if decide (j = i) then bs else d !!! Z.to_nat j.
Proof.
  intros Hd Hi Hbs. destruct (lookup_lt_is_Some_2 d (Z.to_nat i)) as [bs0 E]; [lia|].
  exists (<[Z.to_nat i := bs]> d). unfold ram_write. rewrite E, length_insert. split_and!; try done.
  - by apply Forall_insert.
  - intros j Hj. case_decide as Hd'; [subst; rewrite list_lookup_total_insert_eq by lia; done|].
    rewrite list_lookup_total_insert_ne; [done|lia].
Qed.

Lemma ram_content_ok (d : list (list Z)) i :
  Forall sector_ok d → 0 ≤ i < Z.of_nat (length d) → sector_ok (d !!! Z.to_nat i).
Proof.
  intros Hd Hi. destruct (lookup_lt_is_Some_2 d (Z.to_nat i)) as [bs E]; [lia|].
  rewrite (list_lookup_total_correct _ _ _ E). by eapply Forall_lookup_1.
Qed.

#[export] Instance ram_driver : BlockDriver (list (list Z)) := {
  drv_read := ram_read;
  drv_write := ram_write;
  drv_size d := Z.of_nat (length d);
  content d i := d !!! Z.to_nat i;
  drv_ok := Forall sector_ok;
  content_ok := ram_content_ok;
  drv_read_ok := ram_read_ok;
  drv_write_ok := ram_write_ok
}.
