(* ===== verification/Partition.v ===== *)
(** * Partitions: devices/partition.c

    The scan of a partition table, and the driver that maps the sectors of a
    partition into the device that holds it. *)

From S2P Require Import Prelude Bytes Block.

(** ** The driver *)

Record partition (D : Type) := mk_partition { p_block : block D; start : Z }.
Arguments mk_partition {D} _ _.
Arguments p_block {D} _.
Arguments start {D} _.

Section partition.
Context {D : Type} `{BD : BlockDriver D}.

Definition on_block {A} (f : ST (block D) A) : ST (partition D) A := λ p,
  match f (p_block p) with Ok (a, b) => Ok (a, mk_partition b (start p)) | Err e => Err e end.

Definition partition_read (sector : Z) : ST (partition D) (list Z) :=
  p ← get; on_block (block_read (u32 (start p + sector))).

Definition partition_write (sector : Z) (buffer : list Z) : ST (partition D) unit :=
  p ← get; on_block (block_write (u32 (start p + sector)) buffer).

(** ** The partition table *)

Record partition_table_entry := mk_entry { e_type : Z; offset : Z; e_size : Z }.

(** Entry [i] of the table at byte 446 of a sector, and its signature. *)
Definition table_entry (pt : list Z) (i : Z) : partition_table_entry :=
  let e := slice (446 + 16 * i) 16 pt in
  mk_entry (le_decode (slice 4 1 e)) (le_decode (slice 8 4 e)) (le_decode (slice 12 4 e)).
Definition signature (pt : list Z) : Z := le_decode (slice 510 2 pt).

(** What [block_register] is called with. *)
Record registration := mk_reg { r_type : block_type; r_start : Z; r_size : Z; r_nr : Z }.

Record scan := mk_scan { dev : block D; part_nr : Z; registered : list registration }.

(** Whether [malloc] succeeds. *)
Variable malloc_ok : bool.

Definition on_dev {A} (f : ST (block D) A) : ST scan A := λ s,
  match f (dev s) with
  | Ok (a, b) => Ok (a, mk_scan b (part_nr s) (registered s))
  | Err e => Err e
  end.

Definition found_partition (part_type start size : Z) : ST scan unit :=
  s ← get;
  if block_size (dev s) <=? start then mret tt
  else if (u32 (start + size) <? start) || (block_size (dev s) <? u32 (start + size)) then mret tt
  else
    let type := if part_type =? 0x20 then BLOCK_KERNEL
                else if part_type =? 0x21 then BLOCK_FILESYS
                else if part_type =? 0x22 then BLOCK_SCRATCH
                else if part_type =? 0x23 then BLOCK_SWAP
                else BLOCK_FOREIGN in
    if malloc_ok then
      modify (λ s, mk_scan (dev s) (part_nr s) (registered s ++ [mk_reg type start size (part_nr s)]))
    else fail KernelPanic.

Definition is_extended (type : Z) : bool :=
  (type =? 0x05) || (type =? 0x0f) || (type =? 0x85) || (type =? 0xc5).

Fixpoint for_each {A S} (f : A → ST S unit) (l : list A) : ST S unit :=
  match l with [] => mret tt | a :: r => f a;; for_each f r end.

(** The recursion into extended partitions is bounded by [fuel].  The sector
    that is read is always sector 0. *)
Fixpoint read_partition_table (fuel : nat) (sector primary_extended_sector : Z) : ST scan unit :=
  match fuel with
  | O => fail OutOfFuel
  | S fuel =>
      s ← get;
      if block_size (dev s) <=? sector then mret tt
      else if negb malloc_ok then fail KernelPanic
      else
        pt ← on_dev (block_read 0);
        if negb (signature pt =? 0xaa55) then mret tt
        else
          for_each (λ i,
            let e := table_entry pt i in
            if (e_size e =? 0) || (e_type e =? 0) then mret tt
            else if is_extended (e_type e) then
              if sector =? 0 then read_partition_table fuel (offset e) (offset e)
              else read_partition_table fuel (u32 (offset e + primary_extended_sector)) primary_extended_sector
            else
              modify (λ s, mk_scan (dev s) (s32 (part_nr s + 1)) (registered s));;
              found_partition (e_type e) (u32 (offset e + sector)) (e_size e)) [0; 1; 2; 3]
  end.

Definition partition_scan (fuel : nat) (b : block D) : result (unit * scan) :=
  read_partition_table fuel 0 0 (mk_scan b 0 []).

(** ** The driver is a block driver *)

Record partition_ok (p : partition D) : Prop := {
  pt_block : block_ok (p_block p);
  pt_start : 0 ≤ start p ≤ size (p_block p);
  pt_size : size (p_block p) < 2 ^ 32
}.

Definition p_size (p : partition D) : Z := size (p_block p) - start p.
Definition p_content (p : partition D) (i : Z) : list Z := sector_of (p_block p) (start p + i).

Lemma partition_content_ok p i : partition_ok p → 0 ≤ i < p_size p → sector_ok (p_content p i).
Proof. intros [H1 H2 _] Hi. unfold p_size in Hi. apply sector_of_ok; [done|lia]. Qed.

Lemma partition_read_ok p i :
  partition_ok p → 0 ≤ i < p_size p →
  ∃ p', partition_read i p = Ok (p_content p i, p') ∧ partition_ok p' ∧ p_size p' = p_size p ∧
    ∀ j, 0 ≤ j < p_size p → p_content p' j = p_content p j.
Proof.
  intros [H1 H2 H3] Hi. unfold p_size in *. unfold partition_read. erewrite bind_ok by apply get_ok.
  rewrite u32_small by lia. destruct (block_read_ok (p_block p) (start p + i)) as (b' & E & Hb & Hs & _ & Hc);
    [done|lia|]. unfold on_block. rewrite E. eexists. split; [done|]. unfold p_content. simpl. rewrite Hs.
  split_and!; [split; simpl; [done|lia|lia]|done|]. intros j Hj. apply Hc. lia.
Qed.

(** Writing a sector of the partition changes that sector of the device. *)
Lemma partition_write_dev p i bs :
  partition_ok p → 0 ≤ i < p_size p → sector_ok bs →
  ∃ p', partition_write i bs p = Ok (tt, p') ∧ partition_ok p' ∧ start p' = start p ∧
    size (p_block p') = size (p_block p) ∧
    ∀ j, 0 ≤ j < size (p_block p) → sector_of (p_block p') j =
      if decide (j = start p + i) then bs else sector_of (p_block p) j.
Proof.
  intros [H1 H2 H3] Hi Hbs. unfold p_size in *. unfold partition_write. erewrite bind_ok by apply get_ok.
  rewrite u32_small by lia. destruct (block_write_ok (p_block p) (start p + i) bs) as (b' & E & Hb & Hs & _ & Hc);
    [done|lia|done|]. unfold on_block. rewrite E. eexists. split; [done|]. simpl. rewrite Hs.
  split_and!; [split; simpl; [done|lia|lia]|done|done|done].
Qed.

Lemma partition_write_ok p i bs :
  partition_ok p → 0 ≤ i < p_size p → sector_ok bs →
  ∃ p', partition_write i bs p = Ok (tt, p') ∧ partition_ok p' ∧ p_size p' = p_size p ∧
    ∀ j, 0 ≤ j < p_size p → p_content p' j = if decide (j = i) then bs else p_content p j.
Proof.
  intros Hp Hi Hbs. destruct (partition_write_dev p i bs Hp Hi Hbs) as (p' & E & Hp' & Es & Ez & Hc).
  destruct Hp as [_ H2 _]. unfold p_size, p_content in *. exists p'. split_and!; [done|done|lia|].
  intros j Hj. rewrite Es, Hc by lia. repeat case_decide; done || lia.
Qed.

#[export] Instance partition_driver : BlockDriver (partition D) := {
  drv_read := partition_read;
  drv_write := partition_write;
  drv_size := p_size;
  content := p_content;
  drv_ok := partition_ok;
  content_ok := partition_content_ok;
  drv_read_ok := partition_read_ok;
  drv_write_ok := partition_write_ok
}.

(** ** The scan *)

(** An entry that names a primary partition. *)
Definition primary (e : partition_table_entry) : bool :=
  negb ((e_size e =? 0) || (e_type e =? 0)) && negb (is_extended (e_type e)).

(** The partition lies within a device of [n] sectors. *)
Definition fits (n : Z) (e : partition_table_entry) : bool :=
  (offset e <? n) && (offset e + e_size e <=? n).

Definition pintos_type (t : Z) : block_type :=
  if t =? 0x20 then BLOCK_KERNEL
  else if t =? 0x21 then BLOCK_FILESYS
  else if t =? 0x22 then BLOCK_SCRATCH
  else if t =? 0x23 then BLOCK_SWAP
  else BLOCK_FOREIGN.

Lemma slice_range ofs n bs :
  Forall byte_ok bs → 0 ≤ n → 0 ≤ le_decode (slice ofs n bs) < 256 ^ n.
Proof.
  intros Hb Hn. pose proof (le_decode_range (slice ofs n bs) (Forall_slice _ _ _ _ Hb)) as [H1 H2].
  split; [done|]. eapply Z.lt_le_trans; [exact H2|]. apply Z.pow_le_mono_r; [lia|].
  unfold slice. rewrite length_take. lia.
Qed.

Lemma entry_fields pt i :
  Forall byte_ok pt → 0 ≤ offset (table_entry pt i) < 2 ^ 32 ∧ 0 ≤ e_size (table_entry pt i) < 2 ^ 32.
Proof.
  intros Hp. assert (Forall byte_ok (slice (446 + 16 * i) 16 pt)) as He by (by apply Forall_slice).
  split; [apply (slice_range 8 4 _ He)|apply (slice_range 12 4 _ He)]; lia.
Qed.

Lemma found_partition_ok s t o z :
  malloc_ok = true → 0 ≤ o < 2 ^ 32 → 0 < z < 2 ^ 32 → 0 ≤ size (dev s) < 2 ^ 32 →
  found_partition t o z s =
  Ok (tt, if fits (size (dev s)) (mk_entry t o z)
          then mk_scan (dev s) (part_nr s) (registered s ++ [mk_reg (pintos_type t) o z (part_nr s)]) else s).
Proof.
  intros Hmal Ho Hz Hs. unfold found_partition. rewrite Hmal. erewrite bind_ok by apply get_ok. unfold fits, block_size. simpl.
  destruct (Z.leb_spec (size (dev s)) o); [by rewrite (proj2 (Z.ltb_ge o _)) by lia|].
  rewrite (proj2 (Z.ltb_lt o _)) by lia. simpl. destruct (decide (o + z < 2 ^ 32)).
  - rewrite u32_small by lia. rewrite (proj2 (Z.ltb_ge (o + z) o)) by lia. simpl.
    destruct (Z.ltb_spec (size (dev s)) (o + z)).
    + by rewrite (proj2 (Z.leb_gt _ _)) by lia.
    + by rewrite (proj2 (Z.leb_le _ _)) by lia.
  - assert (u32 (o + z) = o + z - 2 ^ 32) as -> by (unfold u32; dlia).
    rewrite (proj2 (Z.ltb_lt (o + z - 2 ^ 32) o)) by lia. simpl.
    by rewrite (proj2 (Z.leb_gt _ _)) by lia.
Qed.

Definition scan_entry (fuel : nat) (sector primary_extended_sector : Z) (e : partition_table_entry) : ST scan unit :=
  if (e_size e =? 0) || (e_type e =? 0) then mret tt
  else if is_extended (e_type e) then
    if sector =? 0 then read_partition_table fuel (offset e) (offset e)
    else read_partition_table fuel (u32 (offset e + primary_extended_sector)) primary_extended_sector
  else
    modify (λ s, mk_scan (dev s) (s32 (part_nr s + 1)) (registered s));;
    found_partition (e_type e) (u32 (offset e + sector)) (e_size e).

(** What one entry adds to the registered partitions. *)
Definition adds (n : Z) (e : partition_table_entry) (r : registration) : Prop :=
  primary e = true ∧ fits n e = true ∧
  r_type r = pintos_type (e_type e) ∧ r_start r = offset e ∧ r_size r = e_size e.

Lemma scan_entry_primary fuel e s :
  malloc_ok = true → 0 ≤ size (dev s) < 2 ^ 32 → is_extended (e_type e) = false →
  0 ≤ offset e < 2 ^ 32 → 0 ≤ e_size e < 2 ^ 32 →
  ∃ s' added, scan_entry fuel 0 0 e s = Ok (tt, s') ∧ dev s' = dev s ∧
    registered s' = registered s ++ added ∧
    (∀ r, r ∈ added → adds (size (dev s)) e r) ∧
    (primary e = true → fits (size (dev s)) e = true → ∃ r, r ∈ added ∧ adds (size (dev s)) e r).
Proof.
  intros Hmal Hs Hi Ho Hz. unfold scan_entry, adds, primary. rewrite Hi.
  destruct ((e_size e =? 0) || (e_type e =? 0)) eqn:Ez.
  { exists s, []. split_and!; [done|done|by rewrite app_nil_r|by intros ? ?%elem_of_nil|done]. }
  apply orb_false_iff in Ez as [Nz _]. apply Z.eqb_neq in Nz. erewrite bind_ok by done.
  rewrite Z.add_0_r, u32_small by lia. rewrite found_partition_ok by (done || (cbn [dev]; lia)). simpl.
  replace (mk_entry (e_type e) (offset e) (e_size e)) with e by (by destruct e).
  destruct (fits (size (dev s)) e) eqn:Ef.
  - eexists _, [_]. split_and!; [reflexivity..| |].
    + intros r ->%list_elem_of_singleton. simpl. by split_and!.
    + intros _ _. eexists. split; [by apply list_elem_of_singleton|]. simpl. by split_and!.
  - eexists _, []. split_and!; [reflexivity|done|by rewrite app_nil_r|by intros ? ?%elem_of_nil|done].
Qed.

Lemma scan_primary fuel es : ∀ s,
  malloc_ok = true → 0 ≤ size (dev s) < 2 ^ 32 →
  Forall (λ e, is_extended (e_type e) = false ∧ 0 ≤ offset e < 2 ^ 32 ∧ 0 ≤ e_size e < 2 ^ 32) es →
  ∃ s' added, for_each (scan_entry fuel 0 0) es s = Ok (tt, s') ∧ dev s' = dev s ∧
    registered s' = registered s ++ added ∧
    (∀ r, r ∈ added → ∃ e, e ∈ es ∧ adds (size (dev s)) e r) ∧
    (∀ e, e ∈ es → primary e = true → fits (size (dev s)) e = true →
       ∃ r, r ∈ added ∧ adds (size (dev s)) e r).
Proof.
  induction es as [|e es IH]; intros s Hmal Hs Hes.
  { exists s, []. simpl. split_and!; [done|done|by rewrite app_nil_r| |]; intros ? ?%elem_of_nil; done. }
  apply Forall_cons in Hes as [(Hi & Ho & Hz) Hl]. simpl.
  destruct (scan_entry_primary fuel e s Hmal Hs Hi Ho Hz) as (s1 & a1 & E1 & Ed1 & Er1 & Ha1 & Hb1).
  destruct (IH s1) as (s2 & a2 & E2 & Ed2 & Er2 & Ha2 & Hb2); [done|by rewrite Ed1|done|].
  rewrite Ed1 in *. exists s2, (a1 ++ a2). split; [by erewrite bind_ok by exact E1|].
  split_and!; [congruence|by rewrite Er2, Er1, app_assoc| |].
  - intros r [Hr|Hr]%elem_of_app; [exists e; split; [left|by apply Ha1]|].
    destruct (Ha2 r Hr) as (e' & He' & ?). exists e'. split; [by right|done].
  - intros e' [->|He']%elem_of_cons Hp Hf.
    + destruct (Hb1 Hp Hf) as (r & Hr & ?). exists r. split; [apply elem_of_app; by left|done].
    + destruct (Hb2 e' He' Hp Hf) as (r & Hr & ?). exists r. split; [apply elem_of_app; by right|done].
Qed.

Definition entries (pt : list Z) : list partition_table_entry := table_entry pt <$> [0; 1; 2; 3].

Lemma for_each_fmap {A B S} (f : B → ST S unit) (g : A → B) l s :
  for_each f (g <$> l) s = for_each (λ a, f (g a)) l s.
Proof.
  revert s. induction l as [|a l IH]; intros s; [done|]. simpl. unfold mbind, st_bind.
  destruct (f (g a) s) as [[[] s']|]; [|done]. apply IH.
Qed.

(** One level of the recursion on a device with a valid signature. *)
Lemma read_table_step fuel sector prim s :
  malloc_ok = true → block_ok (dev s) → 0 ≤ sector < size (dev s) →
  signature (sector_of (dev s) 0) = 0xaa55 →
  ∃ b', same_disk (dev s) b' ∧ read_partition_table (S fuel) sector prim s =
    for_each (scan_entry fuel sector prim) (entries (sector_of (dev s) 0)) (mk_scan b' (part_nr s) (registered s)).
Proof.
  intros Hmal Hb Hs Hsig. destruct (block_read_ok (dev s) 0 Hb) as (b' & E & Hsame); [lia|].
  exists b'. split; [done|]. simpl read_partition_table. erewrite bind_ok by apply get_ok.
  unfold block_size. rewrite (proj2 (Z.leb_gt _ _)) by lia. rewrite Hmal. cbn [negb].
  erewrite bind_ok by (unfold on_dev; by rewrite E). rewrite Hsig. cbn [Z.eqb Pos.eqb negb].
  unfold entries. by rewrite for_each_fmap.
Qed.

(** The partitions that a table without extended partitions gives, on a device
    of [n] sectors, when [nr] partitions have been counted before. *)
Fixpoint parts (n nr : Z) (es : list partition_table_entry) : list registration :=
  match es with
  | [] => []
  | e :: r =>
      if primary e then
        (if fits n e then [mk_reg (pintos_type (e_type e)) (offset e) (e_size e) (nr + 1)] else []) ++ parts n (nr + 1) r
      else parts n nr r
  end.

Definition disk_parts (n : Z) (pt : list Z) : list registration :=
  if signature pt =? 0xaa55 then parts n 0 (entries pt) else [].

(** The table can be scanned without recursion. *)
Definition flat_table (pt : list Z) : Prop :=
  signature pt = 0xaa55 → Forall (λ e, is_extended (e_type e) = false) (entries pt).

Lemma scan_parts fuel es : ∀ s,
  malloc_ok = true → 0 ≤ size (dev s) < 2 ^ 32 → 0 ≤ part_nr s → part_nr s + Z.of_nat (length es) < 2 ^ 31 →
  Forall (λ e, is_extended (e_type e) = false ∧ 0 ≤ offset e < 2 ^ 32 ∧ 0 ≤ e_size e < 2 ^ 32) es →
  ∃ nr, for_each (scan_entry fuel 0 0) es s =
    Ok (tt, mk_scan (dev s) nr (registered s ++ parts (size (dev s)) (part_nr s) es)).
Proof.
  induction es as [|e es IH]; intros s Hmal Hs Hnr Hlt Hes.
  { exists (part_nr s). simpl. rewrite app_nil_r. by destruct s. }
  apply Forall_cons in Hes as [(Hi & Ho & Hz) Hl]. simpl in Hlt.
  change (for_each (scan_entry fuel 0 0) (e :: es) s) with ((scan_entry fuel 0 0 e;; for_each (scan_entry fuel 0 0) es) s).
  cbn [parts]. unfold primary. rewrite Hi. destruct ((e_size e =? 0) || (e_type e =? 0)) eqn:Ez; cbn [negb andb].
  { rewrite bind_ok with (a := tt) (s' := s) by (unfold scan_entry; by rewrite Ez). apply (IH s); done || lia. }
  pose proof Ez as [Nz _]%orb_false_iff. apply Z.eqb_neq in Nz.
  set (s1 := mk_scan (dev s) (part_nr s + 1) (registered s)).
  pose proof (found_partition_ok s1 (e_type e) (offset e) (e_size e) Hmal Ho ltac:(lia) Hs) as Ef.
  replace (mk_entry (e_type e) (offset e) (e_size e)) with e in Ef by (by destruct e).
  erewrite bind_ok with (a := tt); cycle 1.
  { unfold scan_entry. rewrite Ez, Hi, Z.add_0_r, u32_small by lia. erewrite bind_ok by done.
    rewrite s32_small by lia. exact Ef. }
  unfold s1. cbn [dev part_nr registered]. destruct (fits (size (dev s)) e); cbn [app].
  - destruct (IH (mk_scan (dev s) (part_nr s + 1) (registered s ++ [mk_reg (pintos_type (e_type e)) (offset e) (e_size e) (part_nr s + 1)])))
      as (nr & E); [done|done|simpl; lia..|done|]. exists nr. rewrite E. simpl. by rewrite <-app_assoc.
  - apply (IH (mk_scan (dev s) (part_nr s + 1) (registered s))); [done|done|simpl; lia..|done].
Qed.

(** The scan of such a table reads sector 0 once. *)
Lemma partition_scan_run fuel b b' pt :
  malloc_ok = true → 0 < size b < 2 ^ 32 → block_read 0 b = Ok (pt, b') → size b' = size b → Forall byte_ok pt → flat_table pt →
  ∃ nr, partition_scan (S fuel) b = Ok (tt, mk_scan b' nr (disk_parts (size b) pt)).
Proof.
  intros Hmal Hs E Es Hb Hflat. unfold partition_scan. simpl read_partition_table. erewrite bind_ok by apply get_ok.
  unfold block_size. cbn [dev]. rewrite (proj2 (Z.leb_gt _ _)) by lia. rewrite Hmal. cbn [negb].
  erewrite bind_ok by (unfold on_dev; cbn [dev]; by rewrite E). cbn [part_nr registered]. unfold disk_parts.
  destruct (Z.eqb_spec (signature pt) 0xaa55) as [Hsig|_]; cbn [negb]; [|by exists 0].
  destruct (scan_parts fuel (entries pt) (mk_scan b' 0 [])) as (nr & E'); [done|simpl; lia..| |].
  - apply Forall_forall. intros e He. split; [by eapply Forall_forall in He; [|exact (Hflat Hsig)]|].
    apply list_elem_of_fmap in He as (i & -> & _). by apply entry_fields.
  - exists nr. cbn [dev part_nr registered app] in E'. rewrite Es in E'. rewrite <-E'. unfold entries. by rewrite for_each_fmap.
Qed.

Lemma extended_type t : is_extended t = true → t =? 0 = false.
Proof. intros Ht. by destruct (Z.eqb_spec t 0) as [->|]. Qed.

Lemma found_partition_dev t o z s :
  malloc_ok = true → ∃ s', found_partition t o z s = Ok (tt, s') ∧ dev s' = dev s.
Proof.
  intros Hmal. unfold found_partition. rewrite Hmal. erewrite bind_ok by apply get_ok.
  repeat case_match; by eexists.
Qed.

(** Entries that are not extended partitions do not stop the scan. *)
Lemma scan_until n sector prim es e rest s :
  malloc_ok = true → Forall (λ e, is_extended (e_type e) = false) es →
  (∀ s', dev s' = dev s → scan_entry n sector prim e s' = Err OutOfFuel) →
  for_each (scan_entry n sector prim) (es ++ e :: rest) s = Err OutOfFuel.
Proof.
  intros Hmal Hes. revert s. induction Hes as [|x es Hx _ IH]; intros s He; simpl.
  { unfold mbind, st_bind. by rewrite He. }
  assert (∃ s', scan_entry n sector prim x s = Ok (tt, s') ∧ dev s' = dev s) as (s' & E & Ed).
  { unfold scan_entry. rewrite Hx. destruct (_ || _); [by exists s|]. erewrite bind_ok by done.
    destruct (found_partition_dev (e_type x) (u32 (offset x + sector)) (e_size x)
      (mk_scan (dev s) (s32 (part_nr s + 1)) (registered s)) Hmal) as (s' & E & Ed). by exists s'. }
  erewrite bind_ok by exact E. apply IH. intros s1 E1. apply He. congruence.
Qed.

(** ** Properties *)

(** Without extended partitions the scan returns, and it registers exactly
    the primary partitions of the table that lie within the device; what the
    partition driver reads and writes then stays within the device. *)
Theorem partition_scan_correct fuel b :
  malloc_ok = true → block_ok b → 0 < size b < 2 ^ 32 → signature (sector_of b 0) = 0xaa55 →
  Forall (λ e, is_extended (e_type e) = false) (entries (sector_of b 0)) →
  ∃ s', partition_scan (S fuel) b = Ok (tt, s') ∧ same_disk b (dev s') ∧
    (∀ r, r ∈ registered s' → 0 ≤ r_start r ∧ 0 < r_size r ∧ r_start r + r_size r ≤ size b ∧
       ∃ e, e ∈ entries (sector_of b 0) ∧ adds (size b) e r) ∧
    (∀ e, e ∈ entries (sector_of b 0) → primary e = true → fits (size b) e = true →
       ∃ r, r ∈ registered s' ∧ adds (size b) e r).
Proof.
  intros Hmal Hb Hs Hsig Hext. pose proof (sector_of_ok b 0 Hb ltac:(lia)) as [_ Hbytes].
  destruct (read_table_step fuel 0 0 (mk_scan b 0 [])) as (b' & Hsame & E); [done|done|cbn [dev]; lia|done|].
  assert (∀ e, e ∈ entries (sector_of b 0) → 0 ≤ offset e < 2 ^ 32 ∧ 0 ≤ e_size e < 2 ^ 32) as Hrange.
  { intros e (i & -> & _)%list_elem_of_fmap. by apply entry_fields. }
  destruct (scan_primary fuel (entries (sector_of b 0)) (mk_scan b' 0 [])) as (s' & added & E' & Ed & Er & Ha & Hc).
  - done.
  - destruct Hsame as (_ & Hsz & _). cbn [dev] in *. lia.
  - rewrite Forall_forall in *. intros e He. split; [by apply Hext|by apply Hrange].
  - cbn [dev part_nr registered] in *. pose proof Hsame as (_ & Hsz & _). rewrite Hsz in Ha, Hc.
    exists s'. unfold partition_scan. rewrite E, E'. split; [done|].
    rewrite Ed, Er. split_and!; [done| |done]. intros r Hr. destruct (Ha r Hr) as (e & He & Hadd).
    pose proof Hadd as (Hp & Hf & _ & E1 & E2). destruct (Hrange e He) as [Ho Hz]. rewrite E1, E2.
    unfold primary, fits in *. apply andb_true_iff in Hp as [Hp _], Hf as [Hf1 Hf2].
    apply negb_true_iff, orb_false_iff in Hp as [Hp _]. apply Z.eqb_neq in Hp. apply Z.leb_le in Hf2.
    split_and!; [lia..|]. eauto.
Qed.

(** C34: on a device of fewer than 2^32 sectors whose partition table has an
    extended partition that begins in the first half of the device, with only
    primary partitions and unused entries before it, [partition_scan] recurses
    without end as long as [malloc] finds memory for the next level: every level
    reads sector 0 again instead of the table of the extended partition, and
    finds the same entry. *)
Theorem partition_scan_diverges fuel b es e rest :
  malloc_ok = true → block_ok b → size b < 2 ^ 32 → signature (sector_of b 0) = 0xaa55 →
  entries (sector_of b 0) = es ++ e :: rest → Forall (λ e, is_extended (e_type e) = false) es →
  is_extended (e_type e) = true → e_size e ≠ 0 → 0 < offset e → 2 * offset e < size b →
  partition_scan fuel b = Err OutOfFuel.
Proof.
  intros Hmal Hb Hs Hsig He Hes Hext Hz Ho Hoff.
  assert (∀ n sector prim s, scan_entry n sector prim e s =
    (if sector =? 0 then read_partition_table n (offset e) (offset e)
     else read_partition_table n (u32 (offset e + prim)) prim) s) as Hscan.
  { intros n sector prim s. unfold scan_entry. rewrite Hext.
    by rewrite (proj2 (Z.eqb_neq (e_size e) 0) Hz), (extended_type _ Hext). }
  assert (∀ n sector s, 0 < sector < size b → same_disk b (dev s) →
    read_partition_table n sector (offset e) s = Err OutOfFuel) as Hloop.
  { intros n. induction n as [|n IH]; intros sector s Hsec Hsame; [done|]. pose proof Hsame as (Hb' & Hsz & Hty & Hc).
    destruct (read_table_step n sector (offset e) s) as (b' & Hsame' & E); [done|done|lia|by rewrite Hc by lia|].
    rewrite E, Hc, He by lia. apply (scan_until _ _ _ _ _ _ _ Hmal Hes). intros s1 Es1. simpl in Es1.
    rewrite Hscan, (proj2 (Z.eqb_neq sector 0)), u32_small by lia. apply IH; [lia|]. rewrite Es1.
    destruct Hsame' as (H1 & H2 & H3 & H4). split_and!; [done|simpl; congruence..|].
    intros j Hj. simpl. rewrite H4 by lia. by apply Hc. }
  unfold partition_scan. destruct fuel as [|n]; [done|].
  destruct (read_table_step n 0 0 (mk_scan b 0 [])) as (b' & Hsame & E); [done|done|cbn [dev]; lia|done|].
  cbn [dev part_nr registered] in *. rewrite E, He. apply (scan_until _ _ _ _ _ _ _ Hmal Hes). intros s1 Es1.
  rewrite Hscan. apply Hloop; [lia|]. by rewrite Es1.
Qed.

End partition.

(** ** Witnesses *)

(** A disk of [n] sectors whose partition table has one entry. *)
Definition demo_disk (n : nat) (t ofs sz : Z) : list (list Z) :=
  (repeat 0 446 ++ [0x80; 0; 0; 0; t; 0; 0; 0] ++ le_encode 4 ofs ++ le_encode 4 sz ++ repeat 0 48 ++ [0x55; 0xaa])
  :: repeat (repeat 0 512) n.

Definition demo_block (t ofs sz : Z) : block (list (list Z)) := mk_block BLOCK_RAW 10 0 0 (demo_disk 9 t ofs sz).

Lemma demo_block_ok : block_ok (demo_block 0x21 2 8) ∧ block_ok (demo_block 0x05 2 8).
Proof.
  split; (split; [|simpl; lia|done]); apply (bool_decide_unpack _); vm_compute; reflexivity.
Qed.

Lemma partition_scan_correct_witness :
  ∃ s', partition_scan true 1 (demo_block 0x21 2 8) = Ok (tt, s') ∧
    registered s' = [mk_reg BLOCK_FILESYS 2 8 1].
Proof.
  destruct (partition_scan_correct true 0 (demo_block 0x21 2 8)) as (s' & E & _).
  - done.
  - apply demo_block_ok.
  - done.
  - vm_compute. reflexivity.
  - repeat constructor.
  - exists s'. split; [exact E|]. vm_compute in E. by injection E as <-.
Defined.

(** A table with a file system and an extended partition behind it. *)
Definition demo_extended : block (list (list Z)) :=
  mk_block BLOCK_RAW 10 0 0
    ((repeat 0 446 ++ [0x80; 0; 0; 0; 0x21; 0; 0; 0] ++ le_encode 4 1 ++ le_encode 4 2 ++
      [0; 0; 0; 0; 0x05; 0; 0; 0] ++ le_encode 4 3 ++ le_encode 4 7 ++ repeat 0 32 ++ [0x55; 0xaa]) :: repeat (repeat 0 512) 9).

Lemma partition_scan_diverges_witness : partition_scan true 5 demo_extended = Err OutOfFuel.
Proof.
  apply (partition_scan_diverges true 5 demo_extended [mk_entry 0x21 1 2] (mk_entry 0x05 3 7) [mk_entry 0 0 0; mk_entry 0 0 0]).
  - done.
  - split; [|simpl; lia|done]. apply (bool_decide_unpack _). vm_compute. reflexivity.
  - done.
  - vm_compute. reflexivity.
  - vm_compute. reflexivity.
  - by repeat constructor.
  - done.
  - done.
  - done.
  - done.
Defined.

(** An extended partition in the second half: the second level of the recursion
    is past the end of the device, and the scan returns. *)
Example partition_scan_second_half :
  match partition_scan true 3 (demo_block 0x05 6 4) with Ok (_, s) => registered s = [] | Err _ => False end.
Proof. vm_compute. reflexivity. Qed.
