(* ===== verification/BlockReg.v ===== *)
(** * The registry of block devices: devices/block.c, threads/init.c

    The descriptors of all devices, in the order in which they were found, and
    the device of every role.  The list of the devices is the list that list.c
    implements; a descriptor is known by its address. *)

From S2P Require Import Prelude Block.

Definition NULL : Z := 0.

Record descriptor := mk_descr { b_name : list Z; b_type : block_type; b_size : Z; b_ops : Z; b_aux : Z }.

Record registry := mk_registry {
  all_blocks : list Z;
  descr : gmap Z descriptor;
  block_by_role : block_type → Z
}.

(** The types below BLOCK_ROLE_CNT. *)
Definition is_role (t : block_type) : bool := match t with BLOCK_RAW | BLOCK_FOREIGN => false | _ => true end.

Definition block_get_role (role : block_type) : ST registry Z :=
  assert (is_role role);; s ← get; mret (block_by_role s role).

Definition block_set_role (role : block_type) (block : Z) : ST registry unit :=
  assert (is_role role);;
  modify (λ s, mk_registry (all_blocks s) (descr s) (λ r, if decide (r = role) then block else block_by_role s r)).

(** [list_elem_to_block] of the element behind those that are dropped. *)
Definition list_elem_to_block (l : list Z) : Z := match l with [] => NULL | b :: _ => b end.

Definition block_first : ST registry Z := s ← get; mret (list_elem_to_block (all_blocks s)).

(** list_next asserts that the element is in a list. *)
Definition block_next (block : Z) : ST registry Z :=
  s ← get;
  match list_find (λ b, b = block) (all_blocks s) with
  | Some (i, _) => mret (list_elem_to_block (drop (S i) (all_blocks s)))
  | None => fail AssertFail
  end.

Definition get_descr (block : Z) : ST registry descriptor := λ s,
  match descr s !! block with Some d => Ok (d, s) | None => Err BadAccess end.
Definition block_name (block : Z) : ST registry (list Z) := d ← get_descr block; mret (b_name d).
Definition type_of (block : Z) : ST registry block_type := d ← get_descr block; mret (b_type d).

Fixpoint by_name (name : list Z) (l : list Z) : ST registry Z :=
  match l with
  | [] => mret NULL
  | b :: r => n ← block_name b; if decide (name = n) then mret b else by_name name r
  end.
Definition block_get_by_name (name : list Z) : ST registry Z := s ← get; by_name name (all_blocks s).

(** [block] is what malloc returned. *)
Definition block_register (block : Z) (name : list Z) (type : block_type) (size ops aux : Z) : ST registry Z :=
  if block =? NULL then fail KernelPanic
  else
    modify (λ s, mk_registry (all_blocks s ++ [block]) (<[block := mk_descr (take 15 name) type size ops aux]> (descr s)) (block_by_role s));;
    mret block.

(** ** Roles: locate_block_device of init.c *)

(** [for (block = block_first (); block != NULL; block = block_next (block))] *)
Definition first_of_type (role : block_type) : ST registry Z :=
  s ← get;
  block ← block_first;
  loopM (S (length (all_blocks s))) (λ block,
    if block =? NULL then mret (inr block)
    else
      t ← type_of block;
      if decide (t = role) then mret (inr block) else block ← block_next block; mret (inl block)) block.

Definition locate_block_device (role : block_type) (name : option (list Z)) : ST registry unit :=
  block ← match name with
          | Some name => block ← block_get_by_name name; if block =? NULL then fail KernelPanic else mret block
          | None => first_of_type role
          end;
  if negb (block =? NULL) then block_set_role role block else mret tt.

Definition locate_block_devices (filesys_bdev_name scratch_bdev_name : option (list Z)) : ST registry unit :=
  locate_block_device BLOCK_FILESYS filesys_bdev_name;;
  locate_block_device BLOCK_SCRATCH scratch_bdev_name.

(** ** The invariant *)

Record registry_ok (s : registry) : Prop := {
  rg_nodup : NoDup (all_blocks s);
  rg_descr b : b ∈ all_blocks s → b ≠ NULL ∧ is_Some (descr s !! b)
}.

(** The first device of a list with a property. *)
Fixpoint first_in (P : descriptor → bool) (ds : gmap Z descriptor) (l : list Z) : option Z :=
  match l with
  | [] => None
  | b :: r => match ds !! b with Some d => if P d then Some b else first_in P ds r | None => None end
  end.

Definition with_role (role : block_type) (b : Z) (s : registry) : registry :=
  mk_registry (all_blocks s) (descr s) (λ r, if decide (r = role) then b else block_by_role s r).

Definition named (name : list Z) (d : descriptor) : bool := bool_decide (name = b_name d).
Definition typed (t : block_type) (d : descriptor) : bool := bool_decide (b_type d = t).

Lemma by_name_ok s name : ∀ l, (∀ b, b ∈ l → b ≠ NULL ∧ is_Some (descr s !! b)) →
  by_name name l s = Ok (default NULL (first_in (named name) (descr s) l), s).
Proof.
  induction l as [|b l IH]; intros Hl; [done|]. simpl. destruct (Hl b) as [_ [d Hd]]; [by left|]. rewrite Hd.
  erewrite bind_ok by (unfold block_name, get_descr, mbind, st_bind; by rewrite Hd). unfold named at 1. case_decide.
  - by rewrite bool_decide_eq_true_2.
  - rewrite bool_decide_eq_false_2 by done. apply IH. intros b' Hb. apply Hl. by right.
Qed.

Lemma first_in_nonnull P ds l b : (∀ b, b ∈ l → b ≠ NULL) → first_in P ds l = Some b → b ≠ NULL.
Proof.
  intros Hl. induction l as [|x l IH]; [done|]. simpl. destruct (ds !! x) as [d|]; [|done]. destruct (P d); [intros [= ->]; apply Hl; by left|].
  apply IH. intros y Hy. apply Hl. by right.
Qed.

(** The loop from any device on. *)
Lemma first_loop_ok s role l1 l2 : ∀ fuel, all_blocks s = l1 ++ l2 → registry_ok s → (length l2 < fuel)%nat →
  loopM fuel (λ block,
    if block =? NULL then mret (inr block)
    else
      t ← type_of block;
      if decide (t = role) then mret (inr block) else block ← block_next block; mret (inl block)) (list_elem_to_block l2) s =
  Ok (default NULL (first_in (typed role) (descr s) l2), s).
Proof.
  revert l1. induction l2 as [|b l2 IH]; intros l1 [|fuel] Hall Hok Hf; [simpl in Hf; lia| |simpl in Hf; lia|]; rewrite loopM_unfold; [done|].
  destruct (rg_descr s Hok b) as [Hb [d Hd]]; [rewrite Hall; set_solver|]. cbn [list_elem_to_block]. rewrite (proj2 (Z.eqb_neq b NULL)) by done.
  erewrite bind_ok by (unfold type_of, get_descr, mbind, st_bind; by rewrite Hd). simpl first_in. rewrite Hd. unfold typed at 1. case_decide as Ht.
  - by rewrite bool_decide_eq_true_2.
  - rewrite bool_decide_eq_false_2 by done. pose proof (rg_nodup s Hok) as Hnd. rewrite Hall in Hnd.
    assert (list_find (λ x, x = b) (l1 ++ b :: l2) = Some (length l1, b)) as Hfind.
    { apply list_find_Some. split_and!; [by rewrite lookup_app_r, Nat.sub_diag|done|]. intros j y Hj Hlt ->.
      apply NoDup_app in Hnd as (_ & Hdis & _). rewrite lookup_app_l in Hj by done. apply (Hdis b); [by eapply list_elem_of_lookup_2|by left]. }
    erewrite bind_ok; cycle 1.
    { unfold block_next. erewrite bind_ok by done. rewrite Hall, Hfind. done. }
    rewrite drop_app_ge by lia. replace (S (length l1) - length l1)%nat with 1%nat by lia. simpl drop.
    apply (IH (l1 ++ [b])); [by rewrite <-app_assoc|done|simpl in Hf; lia].
Qed.

(** A role is given to the device with the name that was asked for, otherwise to
    the first device of its type in the order in which they were found; a name
    that does not exist is a panic, and nothing else changes. *)
Theorem locate_block_device_correct s role name :
  registry_ok s → is_role role = true →
  locate_block_device role name s =
  match name with
  | Some name => match first_in (named name) (descr s) (all_blocks s) with Some b => Ok (tt, with_role role b s) | None => Err KernelPanic end
  | None => Ok (tt, match first_in (typed role) (descr s) (all_blocks s) with Some b => with_role role b s | None => s end)
  end.
Proof.
  intros Hok Hr. unfold locate_block_device.
  assert (∀ P, match first_in P (descr s) (all_blocks s) with Some b => b ≠ 0 | None => True end) as Hnn.
  { intros P. destruct (first_in P _ _) eqn:E; [|done]. eapply first_in_nonnull; [|exact E]. intros b Hb. by apply (rg_descr s Hok). }
  destruct name as [name|].
  - specialize (Hnn (named name)). destruct (first_in (named name) _ _) as [b|] eqn:E.
    + erewrite bind_ok; cycle 1.
      { unfold block_get_by_name. erewrite bind_ok by (erewrite bind_ok by done; apply by_name_ok, Hok). rewrite E. simpl. unfold NULL. by rewrite (proj2 (Z.eqb_neq b 0)). }
      unfold NULL. rewrite (proj2 (Z.eqb_neq b 0)) by done. cbn [negb]. unfold block_set_role. by erewrite bind_ok by (by apply assert_ok).
    + unfold mbind at 1, st_bind at 1. unfold block_get_by_name. erewrite bind_ok by (erewrite bind_ok by done; apply by_name_ok, Hok). by rewrite E.
  - specialize (Hnn (typed role)). erewrite bind_ok; cycle 1.
    { unfold first_of_type. erewrite bind_ok by done. erewrite bind_ok by done. by apply (first_loop_ok s role []); [|done|lia]. }
    destruct (first_in (typed role) _ _) as [b|]; [|done]. simpl. unfold NULL. rewrite (proj2 (Z.eqb_neq b 0)) by done. cbn [negb].
    unfold block_set_role. by erewrite bind_ok by (by apply assert_ok).
Qed.

(** Registering a device keeps the order of the others and puts it last. *)
Lemma block_register_ok s block name type size ops aux :
  registry_ok s → block ≠ NULL → descr s !! block = None →
  ∃ s', block_register block name type size ops aux s = Ok (block, s') ∧ registry_ok s' ∧ all_blocks s' = all_blocks s ++ [block] ∧
    descr s' !! block = Some (mk_descr (take 15 name) type size ops aux) ∧ block_by_role s' = block_by_role s.
Proof.
  intros [Hnd Hd] Hb Hnew. eexists. split; [unfold block_register, NULL in *; rewrite (proj2 (Z.eqb_neq block 0)) by done; done|]. simpl.
  assert (block ∉ all_blocks s) as Hni by (intros Hin; destruct (Hd _ Hin) as [_ [? ?]]; congruence). split_and!; [|done|by rewrite lookup_insert_eq|done].
  split; simpl.
  - apply NoDup_app. split_and!; [done| |apply NoDup_singleton]. intros x Hx ->%list_elem_of_singleton. done.
  - intros b [Hin| ->%list_elem_of_singleton]%elem_of_app; [|by rewrite lookup_insert_eq; eauto]. destruct (Hd b Hin) as [? ?]. split; [done|].
    destruct (decide (b = block)) as [->|]; [done|]. by rewrite lookup_insert_ne.
Qed.

(** Two disks of which the second holds the file system. *)
Definition demo_registry : registry :=
  mk_registry [16; 32] {[16 := mk_descr [104; 100; 97] BLOCK_RAW 8 1 1; 32 := mk_descr [104; 100; 98] BLOCK_FILESYS 9 1 2]} (λ _, NULL).

Lemma locate_block_device_correct_witness :
  ∃ s, locate_block_device BLOCK_FILESYS None demo_registry = Ok (tt, s) ∧ block_by_role s BLOCK_FILESYS = 32.
Proof.
  eexists. split; [rewrite (locate_block_device_correct demo_registry BLOCK_FILESYS None)|]; [reflexivity| |reflexivity|reflexivity].
  split; simpl; [apply (bool_decide_unpack _); reflexivity|]. intros b [->|[->|[]%elem_of_nil]%elem_of_cons]%elem_of_cons; (split; [done|by eexists]).
Defined.
