(* ===== verification/Inode.v ===== *)
(** * Inodes, open files and the free map: filesys/inode.c, file.c, free-map.c

    The file system lives on a block device.  Its state is the device, the
    in-memory inodes and the list of open ones, the open files, and the free
    map.  Pointers are addresses into the maps of objects; [malloc] returns a
    new address or fails, which the function [oom] decides for each call. *)

From S2P Require Import Prelude Bytes Block Bitmap.

Definition NULL : Z := 0.
Definition INODE_MAGIC : Z := 0x494e4f44.
Definition FREE_MAP_SECTOR : Z := 0.
Definition ROOT_DIR_SECTOR : Z := 1.

(** ** Data *)

(** The fields of the on-disk inode that are used. *)
Record inode_disk := mk_inode_disk { d_start : Z; d_length : Z; d_magic : Z }.

Definition encode_inode (d : inode_disk) : list Z :=
  le_encode 4 (d_start d) ++ le_encode 4 (u32 (d_length d)) ++ le_encode 4 (d_magic d) ++ repeat 0 500.
Definition decode_inode (bs : list Z) : inode_disk :=
  mk_inode_disk (le_decode (slice 0 4 bs)) (s32 (le_decode (slice 4 4 bs))) (le_decode (slice 8 4 bs)).

Record inode := mk_inode {
  sector : Z;
  open_cnt : Z;
  removed : bool;
  deny_write_cnt : Z;
  data : inode_disk
}.

Record file := mk_file { f_inode : Z; f_pos : Z; deny_write : bool }.

Section inode.
Context {D : Type} `{BD : BlockDriver D}.
Variable oom : nat → bool.

Record fs := mk_fs {
  fs_device : block D;
  inodes : gmap Z inode;
  open_inodes : list Z;
  free_map : bitmap;
  free_map_file : Z;
  files : gmap Z file;
  dirs : gmap Z (Z * Z);
  allocs : nat
}.

Definition set_device x s := mk_fs x (inodes s) (open_inodes s) (free_map s) (free_map_file s) (files s) (dirs s) (allocs s).
Definition set_inodes x s := mk_fs (fs_device s) x (open_inodes s) (free_map s) (free_map_file s) (files s) (dirs s) (allocs s).
Definition set_open x s := mk_fs (fs_device s) (inodes s) x (free_map s) (free_map_file s) (files s) (dirs s) (allocs s).
Definition set_free_map x s := mk_fs (fs_device s) (inodes s) (open_inodes s) x (free_map_file s) (files s) (dirs s) (allocs s).
Definition set_map_file x s := mk_fs (fs_device s) (inodes s) (open_inodes s) (free_map s) x (files s) (dirs s) (allocs s).
Definition set_files x s := mk_fs (fs_device s) (inodes s) (open_inodes s) (free_map s) (free_map_file s) x (dirs s) (allocs s).
Definition set_dirs x s := mk_fs (fs_device s) (inodes s) (open_inodes s) (free_map s) (free_map_file s) (files s) x (allocs s).
Definition set_allocs x s := mk_fs (fs_device s) (inodes s) (open_inodes s) (free_map s) (free_map_file s) (files s) (dirs s) x.

Definition on_dev {A} (f : ST (block D) A) : ST fs A := λ s,
  match f (fs_device s) with Ok (a, b) => Ok (a, set_device b s) | Err e => Err e end.

(** [malloc] and [calloc]: the address of call number [n] is 16 * (n + 1). *)
Definition malloc : ST fs Z :=
  s ← get;
  modify (set_allocs (S (allocs s)));;
  mret (if oom (allocs s) then NULL else 16 * (Z.of_nat (allocs s) + 1)).

Definition get_inode (ip : Z) : ST fs inode := λ s,
  match inodes s !! ip with Some i => Ok (i, s) | None => Err BadAccess end.
Definition put_inode (ip : Z) (i : inode) : ST fs unit := modify (λ s, set_inodes (<[ip := i]> (inodes s)) s).
Definition get_file (fp : Z) : ST fs file := λ s,
  match files s !! fp with Some f => Ok (f, s) | None => Err BadAccess end.
Definition put_file (fp : Z) (f : file) : ST fs unit := modify (λ s, set_files (<[fp := f]> (files s)) s).

(** Copying out of and into a buffer. *)
Definition buf_read (bs : list Z) (ofs n : Z) : ST fs (list Z) :=
  if (0 <=? ofs) && (ofs + n <=? Z.of_nat (length bs)) then mret (slice ofs n bs) else fail BadAccess.
Definition buf_write (bs : list Z) (ofs : Z) (new : list Z) : ST fs (list Z) :=
  if (0 <=? ofs) && (ofs + Z.of_nat (length new) <=? Z.of_nat (length bs))
  then mret (overwrite ofs new bs) else fail BadAccess.

(** ** inode.c: reading and writing *)

Definition bytes_to_sectors (size : Z) : Z := Z.quot (s32 (s32 (size + 512) - 1)) 512.

Definition byte_to_sector (i : inode) (pos : Z) : Z :=
  if pos <? d_length (data i) then u32 (d_start (data i) + Z.quot pos 512) else u32 (-1).

Definition inode_length (ip : Z) : ST fs Z := i ← get_inode ip; mret (d_length (data i)).

(** The bounce buffer is allocated when it is first needed; its contents never
    outlive a round of the loop. *)
Definition get_bounce (bounce : bool) : ST fs bool :=
  if bounce then mret true else p ← malloc; mret (negb (p =? NULL)).

(** One round of the loop of [inode_read_at]. *)
Definition read_body (ip : Z) : Z * Z * list Z * bool → ST fs ((Z * Z * list Z * bool) + list Z) :=
  λ '(size, offset, buffer, bounce),
    if size >? 0 then
      i ← get_inode ip;
      let sector_idx := byte_to_sector i offset in
      let sector_ofs := Z.rem offset 512 in
      let inode_left := s32 (d_length (data i) - offset) in
      let sector_left := 512 - sector_ofs in
      let min_left := if inode_left <? sector_left then inode_left else sector_left in
      let chunk_size := if size <? min_left then size else min_left in
      if chunk_size <=? 0 then mret (inr buffer)
      else if (sector_ofs =? 0) && (chunk_size =? 512) then
        bs ← on_dev (block_read sector_idx);
        mret (inl (s32 (size - chunk_size), s32 (offset + chunk_size), buffer ++ bs, bounce))
      else
        ok ← get_bounce bounce;
        if negb ok then mret (inr buffer)
        else
          bs ← on_dev (block_read sector_idx);
          chunk ← buf_read bs sector_ofs chunk_size;
          mret (inl (s32 (size - chunk_size), s32 (offset + chunk_size), buffer ++ chunk, true))
    else mret (inr buffer).

(** Returns the bytes that were stored into the caller's buffer; there are as
    many as the C function returns. *)
Definition inode_read_at (ip size offset : Z) : ST fs (list Z) :=
  loopM (S (Z.to_nat size)) (read_body ip) (size, offset, [], false).

(** One round of the loop of [inode_write_at]. *)
Definition write_body (ip : Z) (buffer : list Z) : Z * Z * Z * bool → ST fs ((Z * Z * Z * bool) + Z) :=
  λ '(size, offset, bytes_written, bounce),
    if size >? 0 then
      i ← get_inode ip;
      let sector_idx := byte_to_sector i offset in
      let sector_ofs := Z.rem offset 512 in
      let inode_left := s32 (d_length (data i) - offset) in
      let sector_left := 512 - sector_ofs in
      let min_left := if inode_left <? sector_left then inode_left else sector_left in
      let chunk_size := if size <? min_left then size else min_left in
      if chunk_size <=? 0 then mret (inr bytes_written)
      else if (sector_ofs =? 0) && (chunk_size =? 512) then
        chunk ← buf_read buffer bytes_written 512;
        on_dev (block_write sector_idx chunk);;
        mret (inl (s32 (size - chunk_size), s32 (offset + chunk_size), s32 (bytes_written + chunk_size), bounce))
      else
        ok ← get_bounce bounce;
        if negb ok then mret (inr bytes_written)
        else
          bs ← (if (sector_ofs >? 0) || (chunk_size <? sector_left)
                then on_dev (block_read sector_idx) else mret (repeat 0 512));
          chunk ← buf_read buffer bytes_written chunk_size;
          bs ← buf_write bs sector_ofs chunk;
          on_dev (block_write sector_idx bs);;
          mret (inl (s32 (size - chunk_size), s32 (offset + chunk_size), s32 (bytes_written + chunk_size), true))
    else mret (inr bytes_written).

Definition inode_write_at (ip : Z) (buffer : list Z) (size offset : Z) : ST fs Z :=
  i ← get_inode ip;
  if negb (deny_write_cnt i =? 0) then mret 0
  else loopM (S (Z.to_nat size)) (write_body ip buffer) (size, offset, 0, false).

(** ** file.c *)

Definition file_read_at (fp size file_ofs : Z) : ST fs (list Z) :=
  f ← get_file fp; inode_read_at (f_inode f) size file_ofs.

Definition file_write_at (fp : Z) (buffer : list Z) (size file_ofs : Z) : ST fs Z :=
  f ← get_file fp; inode_write_at (f_inode f) buffer size file_ofs.

Definition file_read (fp size : Z) : ST fs (list Z) :=
  f ← get_file fp;
  bs ← inode_read_at (f_inode f) size (f_pos f);
  f ← get_file fp;
  put_file fp (mk_file (f_inode f) (s32 (f_pos f + Z.of_nat (length bs))) (deny_write f));;
  mret bs.

Definition file_write (fp : Z) (buffer : list Z) (size : Z) : ST fs Z :=
  f ← get_file fp;
  n ← inode_write_at (f_inode f) buffer size (f_pos f);
  f ← get_file fp;
  put_file fp (mk_file (f_inode f) (s32 (f_pos f + n)) (deny_write f));;
  mret n.

(** ** The free map on disk: bitmap_read, bitmap_write *)

Definition bitmap_bytes (b : bitmap) : list Z := b.(bits) ≫= le_encode 4.

Definition bitmap_write (b : bitmap) (fp : Z) : ST fs bool :=
  let size := s32 (byte_cnt (bit_cnt b)) in
  n ← file_write_at fp (bitmap_bytes b) size 0;
  mret (n =? size).

(** The elements of which a buffer holds the bytes. *)
Fixpoint words_of (n : nat) (bs : list Z) : list Z :=
  match n with O => [] | S k => le_decode (take 4 bs) :: words_of k (drop 4 bs) end.

Definition bitmap_read (b : bitmap) (fp : Z) : ST fs (bool * bitmap) :=
  if bit_cnt b >? 0 then
    let size := s32 (byte_cnt (bit_cnt b)) in
    bs ← file_read_at fp size 0;
    let b := mk_bitmap (bit_cnt b) (words_of (length (bits b)) (overwrite 0 bs (bitmap_bytes b))) in
    let last := Z.to_nat (u32 (elem_cnt (bit_cnt b) - 1)) in
    match bits b !! last with
    | Some w => mret (Z.of_nat (length bs) =? size, mk_bitmap (bit_cnt b) (<[last := Z.land w (last_mask b)]> (bits b)))
    | None => fail BadAccess
    end
  else mret (true, b).

(** ** free-map.c, with the map in memory *)

(** [sectorp] is returned when the call succeeds. *)
Definition free_map_allocate (cnt : Z) : ST fs (option Z) :=
  s ← get;
  r ← lift (bitmap_scan_and_flip (free_map s) 0 cnt false);
  modify (set_free_map (snd r));;
  let sector := fst r in
  s ← get;
  sector ← (if negb (sector =? BITMAP_ERROR) && negb (free_map_file s =? NULL) then
              ok ← bitmap_write (free_map s) (free_map_file s);
              if negb ok then
                s ← get;
                b ← lift (bitmap_set_multiple (free_map s) sector cnt false);
                modify (set_free_map b);; mret BITMAP_ERROR
              else mret sector
            else mret sector);
  mret (if negb (sector =? BITMAP_ERROR) then Some sector else None).

Definition free_map_release (sector cnt : Z) : ST fs unit :=
  s ← get;
  a ← lift (bitmap_all (free_map s) sector cnt); assert a;;
  b ← lift (bitmap_set_multiple (free_map s) sector cnt false);
  modify (set_free_map b);;
  _ ← bitmap_write b (free_map_file s); mret tt.

(** ** inode.c: creating, opening and closing *)

Definition inode_init : ST fs unit := modify (set_open []).

Definition inode_create (sector length : Z) : ST fs bool :=
  assert (0 <=? length);;
  disk_inode ← malloc;
  if disk_inode =? NULL then mret false
  else
    let sectors := u32 (bytes_to_sectors length) in
    start ← free_map_allocate sectors;
    match start with
    | Some start =>
        on_dev (block_write sector (encode_inode (mk_inode_disk start length INODE_MAGIC)));;
        (if sectors >? 0 then
           loopM (S (Z.to_nat sectors)) (λ i,
             if i <? sectors then
               on_dev (block_write (u32 (start + i)) (repeat 0 512));; mret (inl (u32 (i + 1)))
             else mret (inr tt)) 0
         else mret tt);;
        mret true
    | None => mret false
    end.

Definition inode_reopen (ip : Z) : ST fs Z :=
  if ip =? NULL then mret ip
  else
    i ← get_inode ip;
    put_inode ip (mk_inode (sector i) (s32 (open_cnt i + 1)) (removed i) (deny_write_cnt i) (data i));;
    mret ip.

(** The walk over the list of open inodes. *)
Fixpoint find_open (sec : Z) (l : list Z) : ST fs (option Z) :=
  match l with
  | [] => mret None
  | ip :: r => i ← get_inode ip; if sector i =? sec then mret (Some ip) else find_open sec r
  end.

Definition inode_open (sec : Z) : ST fs Z :=
  s ← get;
  found ← find_open sec (open_inodes s);
  match found with
  | Some ip => inode_reopen ip
  | None =>
      ip ← malloc;
      if ip =? NULL then mret NULL
      else
        modify (λ s, set_open (ip :: open_inodes s) s);;
        bs ← on_dev (block_read sec);
        put_inode ip (mk_inode sec 1 false 0 (decode_inode bs));;
        mret ip
  end.

Definition inode_get_inumber (ip : Z) : ST fs Z := i ← get_inode ip; mret (sector i).

Definition inode_close (ip : Z) : ST fs unit :=
  if ip =? NULL then mret tt
  else
    i ← get_inode ip;
    let i := mk_inode (sector i) (s32 (open_cnt i - 1)) (removed i) (deny_write_cnt i) (data i) in
    put_inode ip i;;
    if open_cnt i =? 0 then
      modify (λ s, set_open (filter (λ q, q ≠ ip) (open_inodes s)) s);;
      (if removed i then
         free_map_release (sector i) 1;;
         free_map_release (d_start (data i)) (u32 (bytes_to_sectors (d_length (data i))))
       else mret tt);;
      modify (λ s, set_inodes (delete ip (inodes s)) s)
    else mret tt.

Definition inode_remove (ip : Z) : ST fs unit :=
  i ← get_inode ip;
  put_inode ip (mk_inode (sector i) (open_cnt i) true (deny_write_cnt i) (data i)).

Definition inode_deny_write (ip : Z) : ST fs unit :=
  i ← get_inode ip;
  let n := s32 (deny_write_cnt i + 1) in
  put_inode ip (mk_inode (sector i) (open_cnt i) (removed i) n (data i));;
  assert (n <=? open_cnt i).

Definition inode_allow_write (ip : Z) : ST fs unit :=
  i ← get_inode ip;
  assert (deny_write_cnt i >? 0);;
  assert (deny_write_cnt i <=? open_cnt i);;
  put_inode ip (mk_inode (sector i) (open_cnt i) (removed i) (s32 (deny_write_cnt i - 1)) (data i)).

(** ** file.c: opening and closing *)

Definition file_open (ip : Z) : ST fs Z :=
  fp ← malloc;
  if negb (ip =? NULL) && negb (fp =? NULL) then
    put_file fp (mk_file ip 0 false);; mret fp
  else
    inode_close ip;; mret NULL.

Definition file_reopen (fp : Z) : ST fs Z :=
  f ← get_file fp; ip ← inode_reopen (f_inode f); file_open ip.

Definition file_allow_write (fp : Z) : ST fs unit :=
  f ← get_file fp;
  if deny_write f then
    put_file fp (mk_file (f_inode f) (f_pos f) false);; inode_allow_write (f_inode f)
  else mret tt.

Definition file_deny_write (fp : Z) : ST fs unit :=
  f ← get_file fp;
  if negb (deny_write f) then
    put_file fp (mk_file (f_inode f) (f_pos f) true);; inode_deny_write (f_inode f)
  else mret tt.

Definition file_close (fp : Z) : ST fs unit :=
  if fp =? NULL then mret tt
  else
    file_allow_write fp;;
    f ← get_file fp;
    inode_close (f_inode f);;
    modify (λ s, set_files (delete fp (files s)) s).

Definition file_get_inode (fp : Z) : ST fs Z := f ← get_file fp; mret (f_inode f).
Definition file_length (fp : Z) : ST fs Z := f ← get_file fp; inode_length (f_inode f).
Definition file_seek (fp new_pos : Z) : ST fs unit :=
  assert (0 <=? new_pos);;
  f ← get_file fp; put_file fp (mk_file (f_inode f) new_pos (deny_write f)).
Definition file_tell (fp : Z) : ST fs Z := f ← get_file fp; mret (f_pos f).

(** ** free-map.c: the file of the map *)

(** [junk] is what [bitmap_create] finds in the elements it allocates. *)
Definition free_map_init (junk : option (list Z)) : ST fs unit :=
  s ← get;
  b ← lift (bitmap_create true junk (block_size (fs_device s)));
  match b with
  | None => fail KernelPanic
  | Some b =>
      b ← lift (bitmap_mark b FREE_MAP_SECTOR);
      b ← lift (bitmap_mark b ROOT_DIR_SECTOR);
      modify (set_free_map b)
  end.

Definition free_map_open : ST fs unit :=
  ip ← inode_open FREE_MAP_SECTOR;
  fp ← file_open ip;
  modify (set_map_file fp);;
  if fp =? NULL then fail KernelPanic
  else
    s ← get;
    r ← bitmap_read (free_map s) fp;
    modify (set_free_map (snd r));;
    if fst r : bool then mret tt else fail KernelPanic.

Definition free_map_close : ST fs unit := s ← get; file_close (free_map_file s).

Definition free_map_create : ST fs unit :=
  s ← get;
  ok ← inode_create FREE_MAP_SECTOR (s32 (bitmap_file_size (free_map s)));
  if negb ok then fail KernelPanic
  else
    ip ← inode_open FREE_MAP_SECTOR;
    fp ← file_open ip;
    modify (set_map_file fp);;
    if fp =? NULL then fail KernelPanic
    else
      s ← get;
      ok ← bitmap_write (free_map s) fp;
      if (ok : bool) then mret tt else fail KernelPanic.

End inode.

#[global] Arguments fs : clear implicits.
