(* ===== verification/InodeSpec.v ===== *)
(** * Reading and writing inodes

    The contents of a file as a list of bytes, and the proof that
    [inode_read_at] and [inode_write_at] read and write a slice of it,
    whatever the position of the slice in the sectors. *)

From S2P Require Import Prelude Bytes Block Bitmap Inode.

Section contents.
Context {D : Type} `{BD : BlockDriver D}.
Implicit Types b : block D.

(** ** The bytes of a file *)

(** The byte at position [p] of the sectors of an inode. *)
Definition disk_byte b (d : inode_disk) (p : Z) : Z :=
  sector_of b (d_start d + p / 512) !!! Z.to_nat (p mod 512).

Definition file_bytes b (d : inode_disk) : list Z := disk_byte b d <$> seqZ 0 (d_length d).

Definition sector_cnt (d : inode_disk) : Z := (d_length d + 511) / 512.

(** The data sectors of the inode lie on the device. *)
Record extent_ok b (d : inode_disk) : Prop := {
  ex_start : 0 ≤ d_start d;
  ex_length : 0 ≤ d_length d < 2 ^ 31 - 512;
  ex_end : d_start d + sector_cnt d ≤ size b;
  ex_size : size b < 2 ^ 32 - 1
}.

Lemma length_file_bytes b d : 0 ≤ d_length d → Z.of_nat (length (file_bytes b d)) = d_length d.
Proof. intros. unfold file_bytes. rewrite length_fmap, length_seqZ. lia. Qed.

Lemma file_bytes_lookup b d p :
  0 ≤ p < d_length d → file_bytes b d !! Z.to_nat p = Some (disk_byte b d p).
Proof.
  intros Hp. unfold file_bytes. rewrite list_lookup_fmap, lookup_seqZ_lt by lia. simpl. do 2 f_equal. lia.
Qed.

Lemma extent_sector b d p :
  extent_ok b d → 0 ≤ p < d_length d → 0 ≤ d_start d + p / 512 < size b.
Proof. intros [H1 H2 H3 _] Hp. unfold sector_cnt in H3. dlia. Qed.

Lemma sector_lookup b j k :
  block_ok b → 0 ≤ j < size b → 0 ≤ k < 512 →
  sector_of b j !! Z.to_nat k = Some (sector_of b j !!! Z.to_nat k).
Proof.
  intros Hb Hj Hk. destruct (sector_of_ok b j Hb Hj) as [Hl _].
  destruct (lookup_lt_is_Some_2 (sector_of b j) (Z.to_nat k)) as [x E]; [lia|].
  by rewrite (list_lookup_total_correct _ _ _ E).
Qed.

(** A chunk of a sector is a slice of the file. *)
Lemma chunk_bytes b d q c :
  block_ok b → extent_ok b d → 0 ≤ q → 0 < c → q mod 512 + c ≤ 512 → q + c ≤ d_length d →
  slice (q mod 512) c (sector_of b (d_start d + q / 512)) = slice q c (file_bytes b d).
Proof.
  intros Hb Hd Hq Hc Hs Hl. pose proof (extent_sector b d q Hd ltac:(lia)) as Hj.
  destruct (sector_of_ok b _ Hb Hj) as [Hlen _].
  apply bytes_eq with c.
  - apply length_slice; dlia.
  - apply length_slice; [lia..|]. rewrite length_file_bytes; lia.
  - intros i Hi. rewrite !slice_lookup by dlia. rewrite file_bytes_lookup by lia.
    rewrite sector_lookup by (done || dlia). f_equal. unfold disk_byte.
    assert ((q + i) / 512 = q / 512) as -> by dlia. by assert ((q + i) mod 512 = q mod 512 + i) as -> by dlia.
Qed.

(** What a write of the first [n] bytes of [buf] at [offset] does. *)
Record written b b' (d : inode_disk) (offset : Z) (buf : list Z) (n : Z) : Prop := {
  wr_ok : block_ok b';
  wr_size : size b' = size b ∧ type b' = type b;
  wr_other j : 0 ≤ j < size b → j < d_start d ∨ d_start d + sector_cnt d ≤ j → sector_of b' j = sector_of b j;
  wr_bytes p : 0 ≤ p < sector_cnt d * 512 →
    disk_byte b' d p = if decide (offset ≤ p < offset + n) then buf !!! Z.to_nat (p - offset) else disk_byte b d p
}.

Lemma written_refl b d offset buf : block_ok b → written b b d offset buf 0.
Proof. intros Hb. split; try done. intros p Hp. rewrite decide_False by lia. done. Qed.

(** Writing one more chunk into its sector. *)
Lemma written_step b b1 b2 d offset buf n c q :
  block_ok b1 → extent_ok b d → written b b1 d offset buf n → 0 ≤ offset → 0 ≤ n → 0 < c →
  q = offset + n → q mod 512 + c ≤ 512 → q + c ≤ d_length d → n + c ≤ Z.of_nat (length buf) →
  block_ok b2 → size b2 = size b1 → type b2 = type b1 →
  (∀ j, 0 ≤ j < size b1 → sector_of b2 j =
     if decide (j = d_start d + q / 512)
     then overwrite (q mod 512) (slice n c buf) (sector_of b1 j) else sector_of b1 j) →
  written b b2 d offset buf (n + c).
Proof.
  intros Hb1 Hd [_ [Hsz Hty] Hoth Hby] Hof Hn Hc Hq Hs Hl Hbuf Hb2 Hsz2 Hty2 Hsec.
  assert (Z.of_nat (length (slice n c buf)) = c) as Hlc by (apply length_slice; lia).
  destruct Hd as [Hd1 Hd2 Hd3 Hd4]. unfold sector_cnt in *.
  assert (0 ≤ d_start d + q / 512 < size b1) as Hj by dlia.
  split; unfold sector_cnt; [done|by rewrite Hsz2, Hty2| |].
  - intros j Hj' Hout. rewrite Hsec by lia. rewrite decide_False by dlia. by apply Hoth.
  - intros p Hp. specialize (Hby p Hp). unfold disk_byte in *. rewrite Hsec by dlia.
    destruct (decide (d_start d + p / 512 = d_start d + q / 512)) as [E|Ne].
    + assert (p / 512 = q / 512) as Epq by lia.
      destruct (sector_of_ok b1 _ Hb1 Hj) as [Hlen _]. rewrite <-E in Hlen.
      rewrite list_lookup_total_alt, overwrite_lookup by dlia. rewrite Hlc.
      destruct (decide (q mod 512 ≤ p mod 512 < q mod 512 + c)) as [Hin|Hout].
      * rewrite slice_lookup by dlia. rewrite decide_True by dlia.
        rewrite <-list_lookup_total_alt. f_equal. dlia.
      * rewrite <-list_lookup_total_alt, Hby. repeat case_decide; try done; exfalso; dlia.
    + rewrite Hby. repeat case_decide; try done; exfalso; dlia.
Qed.

End contents.

Section access.
Context {D : Type} `{BD : BlockDriver D}.
Variable oom : nat → bool.
Implicit Types s : fs D.

(** ** Devices and the bounce buffer *)

Lemma on_dev_read s j :
  block_ok (fs_device s) → 0 ≤ j < size (fs_device s) →
  ∃ b, on_dev (block_read j) s = Ok (sector_of (fs_device s) j, set_device b s) ∧ same_disk (fs_device s) b.
Proof.
  intros Hb Hj. destruct (block_read_ok _ j Hb Hj) as (b & E & Hs). exists b. unfold on_dev. by rewrite E.
Qed.

Lemma on_dev_write s j bs :
  block_ok (fs_device s) → 0 ≤ j < size (fs_device s) → sector_ok bs →
  ∃ b, on_dev (block_write j bs) s = Ok (tt, set_device b s) ∧ block_ok b ∧
    size b = size (fs_device s) ∧ type b = type (fs_device s) ∧
    ∀ k, 0 ≤ k < size (fs_device s) → sector_of b k = if decide (k = j) then bs else sector_of (fs_device s) k.
Proof.
  intros Hb Hj Hbs. destruct (block_write_ok _ j bs Hb Hj Hbs) as (b & E & Hs). exists b. unfold on_dev. by rewrite E.
Qed.

Lemma get_bounce_ok s bounce :
  ∃ ok a, get_bounce oom bounce s = Ok (ok, set_allocs a s) ∧
    (ok = false → bounce = false ∧ oom (allocs s) = true).
Proof.
  destruct bounce; simpl; [exists true, (allocs s); by destruct s|].
  exists (negb (oom (allocs s))), (S (allocs s)). split; [|by destruct (oom (allocs s))].
  unfold malloc. destruct (oom (allocs s)) eqn:E; unfold mbind, st_bind, get; simpl; rewrite E; [done|].
  by rewrite (proj2 (Z.eqb_neq _ _)) by (unfold NULL; lia).
Qed.

(** ** Sizes of chunks *)

(** The number of bytes that can be read or written at [offset]. *)
Definition available (d : inode_disk) (n offset : Z) : Z := Z.max 0 (Z.min n (d_length d - offset)).

Definition chunk (d : inode_disk) (n q : Z) : Z := Z.min n (Z.min (d_length d - q) (512 - q mod 512)).

Lemma chunk_eq d n q :
  0 ≤ d_length d < 2 ^ 31 → 0 ≤ q < 2 ^ 31 →
  (let inode_left := s32 (d_length d - q) in
   let sector_left := 512 - Z.rem q 512 in
   let min_left := if inode_left <? sector_left then inode_left else sector_left in
   if n <? min_left then n else min_left) = chunk d n q.
Proof.
  intros Hd Hq. rewrite s32_small, Z.rem_mod_nonneg by lia. unfold chunk. cbv zeta.
  destruct (Z.ltb_spec (d_length d - q) (512 - q mod 512)), (Z.ltb_spec n (d_length d - q)),
    (Z.ltb_spec n (512 - q mod 512)); lia.
Qed.

Lemma byte_to_sector_ok (b : block D) i q :
  extent_ok b (data i) → 0 ≤ q < d_length (data i) →
  byte_to_sector i q = d_start (data i) + q / 512 ∧ 0 ≤ byte_to_sector i q < size b.
Proof.
  intros Hd Hq. pose proof (extent_sector b (data i) q Hd Hq) as Hs. unfold byte_to_sector.
  rewrite (proj2 (Z.ltb_lt _ _)) by lia. rewrite Z.quot_div_nonneg by lia.
  destruct Hd as [? ? ? ?]. rewrite u32_small by lia. done.
Qed.

Lemma get_inode_ok s ip i : inodes s !! ip = Some i → get_inode ip s = Ok (i, s).
Proof. intros E. unfold get_inode. by rewrite E. Qed.

Lemma buf_read_ok s bs ofs n :
  0 ≤ ofs → ofs + n ≤ Z.of_nat (length bs) → buf_read bs ofs n s = Ok (slice ofs n bs, s).
Proof. intros. unfold buf_read. by rewrite (proj2 (Z.leb_le 0 ofs)), (proj2 (Z.leb_le (ofs + n) _)) by lia. Qed.

Lemma same_disk_extent (b b' : block D) d : same_disk b b' → extent_ok b d → extent_ok b' d.
Proof. intros (_ & Hs & _) [? ? ? ?]. split; by rewrite ?Hs. Qed.

Lemma same_disk_bytes (b b' : block D) d : same_disk b b' → extent_ok b d → file_bytes b' d = file_bytes b d.
Proof.
  intros (_ & Hs & _ & Hc) Hd. unfold file_bytes. apply list_fmap_ext. intros k p Hp.
  apply lookup_seqZ in Hp as [-> Hp]. unfold disk_byte. rewrite Hc; [done|].
  apply extent_sector; [done|]. destruct Hd. lia.
Qed.

Lemma same_disk_trans (b1 b2 b3 : block D) : same_disk b1 b2 → same_disk b2 b3 → same_disk b1 b3.
Proof.
  intros (H1 & H2 & H3 & H4) (H5 & H6 & H7 & H8). split_and!; [done|congruence..|].
  intros j Hj. rewrite H8 by lia. by apply H4.
Qed.

(** ** Reading *)

(** The state after reading: [k] bytes were read. *)
Record reading s (i : inode) (n offset : Z) (k : Z) (buffer : list Z) (bounce : bool) s1 : Prop := {
  rd_k : 0 ≤ k ≤ available (data i) n offset;
  rd_buf : buffer = slice offset k (file_bytes (fs_device s) (data i));
  rd_state : ∃ b a, s1 = set_allocs a (set_device b s) ∧ same_disk (fs_device s) b ∧
    (bounce = false → a = allocs s)
}.

Lemma read_step s ip i n offset k buffer bounce s1 :
  block_ok (fs_device s) → inodes s !! ip = Some i → extent_ok (fs_device s) (data i) →
  0 ≤ n < 2 ^ 31 → 0 ≤ offset < 2 ^ 31 → reading s i n offset k buffer bounce s1 → k < n →
  ∃ r s2, read_body oom ip (n - k, offset + k, buffer, bounce) s1 = Ok (r, s2) ∧
    match r with
    | inl (n', q', buffer', bounce') => ∃ k', k < k' ≤ n ∧ n' = n - k' ∧ q' = offset + k' ∧
        reading s i n offset k' buffer' bounce' s2
    | inr buffer' => buffer' = buffer ∧
        (∃ b a, s2 = set_allocs a (set_device b s) ∧ same_disk (fs_device s) b) ∧
        (k = available (data i) n offset ∨ oom (allocs s) = true)
    end.
Proof.
  intros Hb Hi Hd Hn Ho [Hk Hbuf (b & a & -> & Hsame & Ha)] Hlt.
  pose proof Hd as [Hst Hlen Hend Hsz]. unfold available in *. set (q := offset + k).
  unfold read_body. rewrite (proj2 (Z.gtb_lt (n - k) 0)) by lia.
  erewrite bind_ok by (by apply get_inode_ok). rewrite chunk_eq by lia.
  set (c := chunk (data i) (n - k) q). assert (c ≤ n - k ∧ c ≤ d_length (data i) - q ∧ q mod 512 + c ≤ 512) as Hc
    by (unfold c, chunk; lia).
  destruct (Z.leb_spec c 0) as [Hc0|Hc0].
  { exists (inr buffer). eexists. split; [done|]. split_and!; [done|by exists b, a|left].
    unfold c, chunk, q in *. pose proof (Z.mod_pos_bound (offset + k) 512 ltac:(lia)). lia. }
  destruct (byte_to_sector_ok _ _ q Hd) as [Es Hsec]; [lia|].
  assert (∀ bs, bs = slice (q mod 512) c (sector_of (fs_device s) (byte_to_sector i q)) →
    buffer ++ bs = slice offset (k + c) (file_bytes (fs_device s) (data i))) as Happ.
  { intros bs ->. rewrite Es, chunk_bytes by (done || lia). rewrite Hbuf. apply slice_app; lia. }
  destruct (sector_of_ok _ _ Hb Hsec) as [Hsl _].
  assert (∀ bounce' a', (bounce' = false → a' = allocs s) → ∃ b', on_dev (block_read (byte_to_sector i q)) (set_allocs a' (set_device b s)) =
      Ok (sector_of (fs_device s) (byte_to_sector i q), set_allocs a' (set_device b' s)) ∧
      reading s i n offset (k + c) (slice offset (k + c) (file_bytes (fs_device s) (data i))) bounce'
        (set_allocs a' (set_device b' s))) as Hread.
  { intros bounce' a' Ha'. destruct Hsame as (Hb' & Hs' & Ht' & Hc').
    destruct (on_dev_read (set_allocs a' (set_device b s)) (byte_to_sector i q)) as (b' & E & Hsame');
      [done|simpl; by rewrite Hs'|]. simpl in *. rewrite Hc' in E by done.
    exists b'. split; [exact E|]. split; [unfold available; lia|done|]. exists b', a'. split_and!; [done| |done].
    by apply (same_disk_trans _ b). }
  rewrite !s32_small by lia.
  assert (n - k - c = n - (k + c) ∧ q + c = offset + (k + c)) as [E1 E2] by lia.
  rewrite Z.rem_mod_nonneg by lia.
  destruct ((q mod 512 =? 0) && (c =? 512)) eqn:Efull.
  - apply andb_true_iff in Efull as [Eq Ec]. apply Z.eqb_eq in Eq, Ec.
    destruct (Hread bounce a Ha) as (b' & E & Hrd). erewrite bind_ok by exact E.
    eexists (inl _), _. split; [done|]. exists (k + c). split_and!; [lia..|done|done|].
    rewrite Happ; [done|]. rewrite Eq, Ec. symmetry. by apply slice_all.
  - destruct (get_bounce_ok (set_allocs a (set_device b s)) bounce) as (ok & a' & Eb & Hoom).
    erewrite bind_ok by exact Eb. destruct ok; cbn [negb].
    + destruct (Hread true a') as (b' & E & Hrd); [done|]. erewrite bind_ok by exact E.
      erewrite bind_ok by (apply buf_read_ok; [apply Z.mod_pos_bound; lia|lia]).
      eexists (inl _), _. split; [done|]. exists (k + c). split_and!; [lia..|done|done|].
      by rewrite Happ.
    + destruct (Hoom eq_refl) as [-> Ho']. rewrite Ha in Ho' by done.
      eexists (inr _), _. split; [done|]. split_and!; [done|by exists b, a'|by right].
Qed.

Lemma inode_read_at_ok s ip i n offset :
  block_ok (fs_device s) → inodes s !! ip = Some i → extent_ok (fs_device s) (data i) →
  0 ≤ n < 2 ^ 31 → 0 ≤ offset < 2 ^ 31 →
  ∃ k b a, inode_read_at oom ip n offset s =
      Ok (slice offset k (file_bytes (fs_device s) (data i)), set_allocs a (set_device b s)) ∧
    same_disk (fs_device s) b ∧ 0 ≤ k ≤ available (data i) n offset ∧
    (k = available (data i) n offset ∨ oom (allocs s) = true).
Proof.
  intros Hb Hi Hd Hn Ho. unfold inode_read_at.
  destruct (loopM_rule
    (λ m '(n', q', buffer, bounce) s1, ∃ k, Z.of_nat m = n - k ∧ n' = n - k ∧ q' = offset + k ∧
       reading s i n offset k buffer bounce s1)
    (λ buffer s2, ∃ k, buffer = slice offset k (file_bytes (fs_device s) (data i)) ∧
       0 ≤ k ≤ available (data i) n offset ∧
       (∃ b a, s2 = set_allocs a (set_device b s) ∧ same_disk (fs_device s) b) ∧
       (k = available (data i) n offset ∨ oom (allocs s) = true))
    (read_body oom ip)) with (fuel := S (Z.to_nat n)) (n := Z.to_nat n) (l := (n, offset, @nil Z, false)) (s := s)
    as (buffer & s2 & E & k & -> & Hk & (b & a & -> & Hsame) & Hcase).
  - intros m [[[n' q'] buffer] bounce] s1 (k & Hm & -> & -> & Hrd).
    destruct (decide (k < n)) as [Hlt|Hge].
    + destruct (read_step s ip i n offset k buffer bounce s1) as (r & s2 & E & Hr); [done..|].
      exists r, s2. split; [done|]. destruct r as [[[[n' q'] buffer'] bounce']|buffer'].
      * destruct Hr as (k' & Hk' & -> & -> & Hrd'). exists (Z.to_nat (n - k')). split; [lia|].
        exists k'. split_and!; [lia|done..].
      * destruct Hr as (-> & Hst & Hcase). exists k. split_and!; try done; apply Hrd.
    + exists (inr buffer), s1. unfold read_body.
      destruct (Z.gtb_spec (n - k) 0); [lia|]. split; [done|]. destruct Hrd as [Hk Hbuf (b & a & -> & Hs & _)].
      exists k. split_and!; [done|lia|lia|by exists b, a|left]. unfold available in *. lia.
  - exists 0. split_and!; [lia..|]. split; [unfold available; lia|done|].
    exists (fs_device s), (allocs s). split_and!; [by destruct s|done|done].
  - lia.
  - exists k, b, a. done.
Qed.

(** ** Writing *)

Lemma buf_write_ok s bs ofs new :
  0 ≤ ofs → ofs + Z.of_nat (length new) ≤ Z.of_nat (length bs) →
  buf_write bs ofs new s = Ok (overwrite ofs new bs, s).
Proof. intros. unfold buf_write. by rewrite (proj2 (Z.leb_le 0 ofs)), (proj2 (Z.leb_le (ofs + _) _)) by lia. Qed.

Lemma overwrite_sector_ok ofs new bs :
  sector_ok bs → Forall byte_ok new → 0 ≤ ofs → ofs + Z.of_nat (length new) ≤ 512 →
  sector_ok (overwrite ofs new bs).
Proof.
  intros [Hl Hb] Hn Ho He. split; [rewrite length_overwrite by lia; done|]. by apply Forall_overwrite.
Qed.

Lemma overwrite_all new bs : length new = length bs → overwrite 0 new bs = new.
Proof. intros E. unfold overwrite. simpl. rewrite E, drop_all. apply app_nil_r. Qed.

Record writing s (i : inode) (buf : list Z) (n offset k : Z) (bounce : bool) s1 : Prop := {
  wt_k : 0 ≤ k ≤ available (data i) n offset;
  wt_state : ∃ b a, s1 = set_allocs a (set_device b s) ∧
    written (fs_device s) b (data i) offset buf k ∧ (bounce = false → a = allocs s)
}.

(** Writing the chunk at [offset + k] into its sector. *)
Lemma write_chunk s i buf n offset k c b a bounce bs :
  extent_ok (fs_device s) (data i) → 0 ≤ offset → 0 ≤ k → 0 < c → k + c ≤ available (data i) n offset →
  let q := offset + k in
  q mod 512 + c ≤ 512 → k + c ≤ Z.of_nat (length buf) → Forall byte_ok buf →
  written (fs_device s) b (data i) offset buf k → (bounce = false → a = allocs s) →
  bs = overwrite (q mod 512) (slice k c buf) (sector_of b (byte_to_sector i q)) →
  ∃ s2, on_dev (block_write (byte_to_sector i q) bs) (set_allocs a (set_device b s)) = Ok (tt, s2) ∧
    writing s i buf n offset (k + c) bounce s2.
Proof.
  intros Hd Ho Hk Hc Hav q Hs Hbuf Hbytes Hw Ha ->. pose proof Hd as [Hst Hlen Hend Hsz].
  unfold available in Hav. destruct (byte_to_sector_ok _ i q Hd) as [Es Hsec]; [unfold q; lia|].
  pose proof (wr_ok _ _ _ _ _ _ Hw) as Hb. destruct (wr_size _ _ _ _ _ _ Hw) as [Hsz' Hty'].
  assert (Z.of_nat (length (slice k c buf)) = c) as Hlc by (apply length_slice; lia).
  pose proof (Z.mod_pos_bound q 512 ltac:(lia)) as Hmod.
  destruct (on_dev_write (set_allocs a (set_device b s)) (byte_to_sector i q)
    (overwrite (q mod 512) (slice k c buf) (sector_of b (byte_to_sector i q)))) as (b2 & E & Hb2 & Hsz2 & Hty2 & Hc2).
  - done.
  - simpl. by rewrite Hsz'.
  - apply overwrite_sector_ok; [apply sector_of_ok; [done|by rewrite Hsz']|by apply Forall_slice|lia|lia].
  - simpl in *. eexists. split; [exact E|]. split; [unfold available; lia|].
    exists b2, a. split_and!; [done| |done].
    apply (written_step _ b b2 _ offset buf k c q); try done; [unfold q; lia|].
    intros j Hj. rewrite Hc2 by done. rewrite Es. by case_decide; subst.
Qed.

Lemma write_step s ip i buf n offset k bounce s1 :
  inodes s !! ip = Some i → extent_ok (fs_device s) (data i) →
  0 ≤ n < 2 ^ 31 → n ≤ Z.of_nat (length buf) → Forall byte_ok buf → 0 ≤ offset < 2 ^ 31 →
  writing s i buf n offset k bounce s1 → k < n →
  ∃ r s2, write_body oom ip buf (n - k, offset + k, k, bounce) s1 = Ok (r, s2) ∧
    match r with
    | inl (n', q', k', bounce') => k < k' ≤ n ∧ n' = n - k' ∧ q' = offset + k' ∧
        writing s i buf n offset k' bounce' s2
    | inr k' => k' = k ∧
        (∃ b a, s2 = set_allocs a (set_device b s) ∧ written (fs_device s) b (data i) offset buf k) ∧
        (k = available (data i) n offset ∨ oom (allocs s) = true)
    end.
Proof.
  intros Hi Hd Hn Hbuf Hbytes Ho [Hk (b & a & -> & Hw & Ha)] Hlt.
  pose proof Hd as [Hst Hlen Hend Hsz]. pose proof Hk as Hk'. unfold available in Hk'. set (q := offset + k).
  unfold write_body. rewrite (proj2 (Z.gtb_lt (n - k) 0)) by lia.
  erewrite bind_ok by (by apply get_inode_ok). rewrite chunk_eq by lia.
  set (c := chunk (data i) (n - k) q). assert (c ≤ n - k ∧ c ≤ d_length (data i) - q ∧ q mod 512 + c ≤ 512) as Hc
    by (unfold c, chunk; lia).
  destruct (Z.leb_spec c 0) as [Hc0|Hc0].
  { exists (inr k). eexists. split; [done|]. split_and!; [done|by exists b, a|left].
    unfold c, chunk, q, available in *. pose proof (Z.mod_pos_bound (offset + k) 512 ltac:(lia)). lia. }
  destruct (byte_to_sector_ok _ _ q Hd) as [Es Hsec]; [lia|].
  pose proof (wr_ok _ _ _ _ _ _ Hw) as Hb. destruct (wr_size _ _ _ _ _ _ Hw) as [Hsz' _].
  destruct (sector_of_ok b (byte_to_sector i q) Hb) as [Hsl _]; [by rewrite Hsz'|].
  assert (k + c ≤ available (data i) n offset) as Hav by (unfold available; lia).
  rewrite !s32_small by lia.
  assert (n - k - c = n - (k + c) ∧ q + c = offset + (k + c)) as [E1 E2] by lia.
  rewrite Z.rem_mod_nonneg by lia. pose proof (Z.mod_pos_bound q 512 ltac:(lia)) as Hmod.
  destruct ((q mod 512 =? 0) && (c =? 512)) eqn:Efull.
  - apply andb_true_iff in Efull as [Eq Ec]. apply Z.eqb_eq in Eq, Ec.
    erewrite bind_ok by (apply buf_read_ok; lia).
    destruct (write_chunk s i buf n offset k c b a bounce (slice k c buf)) as (s2 & E & Hwr); try done; try (unfold q in *; lia).
    { fold q. rewrite Eq, overwrite_all; [done|]. apply Nat2Z.inj. rewrite length_slice by lia. lia. }
    fold q in E. rewrite Ec in E. erewrite bind_ok by exact E.
    eexists (inl _), _. split; [done|]. split_and!; [lia..|done|done|done].
  - destruct (get_bounce_ok (set_allocs a (set_device b s)) bounce) as (ok & a' & Eb & Hoom).
    erewrite bind_ok by exact Eb. destruct ok; cbn [negb].
    + assert ((q mod 512 >? 0) || (c <? 512 - q mod 512) = true) as ->.
      { apply andb_false_iff in Efull. rewrite !Z.eqb_neq in Efull. apply orb_true_iff.
        destruct (decide (q mod 512 = 0)); [right; apply Z.ltb_lt|left; apply Z.gtb_lt]; lia. }
      destruct (on_dev_read (set_allocs a' (set_device b s)) (byte_to_sector i q)) as (b' & E & Hsame);
        [done|simpl; by rewrite Hsz'|]. simpl in *. erewrite bind_ok by exact E.
      erewrite bind_ok by (apply buf_read_ok; lia).
      erewrite bind_ok by (apply buf_write_ok; [lia|rewrite length_slice by lia; lia]).
      destruct (write_chunk s i buf n offset k c b' a' true
        (overwrite (q mod 512) (slice k c buf) (sector_of b (byte_to_sector i q)))) as (s2 & E' & Hwr); try done; try (unfold q in *; lia).
      { destruct Hw as [H1 [H2 H3] H4 H5], Hsame as (G1 & G2 & G3 & G4). split; [done|split; congruence| |].
        - intros j Hj Hout. rewrite G4 by lia. by apply H4.
        - intros p Hp. rewrite <-H5 by done. unfold disk_byte. rewrite G4; [done|].
          unfold sector_cnt in *. dlia. }
      { fold q. destruct Hsame as (G1 & G2 & G3 & G4). by rewrite G4 by (by rewrite Hsz'). }
      erewrite bind_ok by exact E'. eexists (inl _), _. split; [done|]. split_and!; [lia..|done|done|done].
    + destruct (Hoom eq_refl) as [-> Ho']. simpl in Ho'. rewrite Ha in Ho' by done.
      eexists (inr _), _. split; [done|]. split_and!; [done|by exists b, a'|by right].
Qed.

Lemma inode_write_at_ok s ip i buf n offset :
  block_ok (fs_device s) → inodes s !! ip = Some i → extent_ok (fs_device s) (data i) →
  0 ≤ n < 2 ^ 31 → n ≤ Z.of_nat (length buf) → Forall byte_ok buf → 0 ≤ offset < 2 ^ 31 →
  ∃ k b a, inode_write_at oom ip buf n offset s = Ok (k, set_allocs a (set_device b s)) ∧
    written (fs_device s) b (data i) offset buf k ∧
    (if deny_write_cnt i =? 0
     then 0 ≤ k ≤ available (data i) n offset ∧ (k = available (data i) n offset ∨ oom (allocs s) = true)
     else k = 0).
Proof.
  intros Hb Hi Hd Hn Hbuf Hbytes Ho. unfold inode_write_at. erewrite bind_ok by (by apply get_inode_ok).
  destruct (Z.eqb_spec (deny_write_cnt i) 0) as [Ed|]; cbn [negb].
  2: { exists 0, (fs_device s), (allocs s). split_and!; [by destruct s|by apply written_refl|done]. }
  destruct (loopM_rule
    (λ m '(n', q', k, bounce) s1, Z.of_nat m = n - k ∧ n' = n - k ∧ q' = offset + k ∧
       writing s i buf n offset k bounce s1)
    (λ k s2, 0 ≤ k ≤ available (data i) n offset ∧
       (∃ b a, s2 = set_allocs a (set_device b s) ∧ written (fs_device s) b (data i) offset buf k) ∧
       (k = available (data i) n offset ∨ oom (allocs s) = true))
    (write_body oom ip buf)) with (fuel := S (Z.to_nat n)) (n := Z.to_nat n) (l := (n, offset, 0, false)) (s := s)
    as (k & s2 & E & Hk & (b & a & -> & Hw) & Hcase).
  - intros m [[[n' q'] k] bounce] s1 (Hm & -> & -> & Hwt). destruct (decide (k < n)) as [Hlt|Hge].
    + destruct (write_step s ip i buf n offset k bounce s1) as (r & s2 & E & Hr); [done..|].
      exists r, s2. split; [done|]. destruct r as [[[[n' q'] k'] bounce']|k'].
      * destruct Hr as (Hk' & -> & -> & Hwt'). exists (Z.to_nat (n - k')). split; [lia|].
        split_and!; [lia|done..].
      * destruct Hr as (-> & Hst & Hcase). split_and!; [apply Hwt|apply Hwt|done|done].
    + exists (inr k), s1. unfold write_body.
      destruct (Z.gtb_spec (n - k) 0); [lia|]. split; [done|]. destruct Hwt as [Hk (b & a & -> & Hw & _)].
      split_and!; [lia|lia|by exists b, a|left]. unfold available in *. lia.
  - split_and!; [lia..|]. split; [unfold available; lia|].
    exists (fs_device s), (allocs s). split_and!; [by destruct s|by apply written_refl|done].
  - lia.
  - exists k, b, a. done.
Qed.

(** ** Files as byte lists *)

Lemma written_bytes (b b' : block D) d offset buf k :
  0 ≤ d_length d → written b b' d offset buf k → 0 ≤ offset → 0 ≤ k → (k = 0 ∨ offset + k ≤ d_length d) →
  k ≤ Z.of_nat (length buf) →
  file_bytes b' d = overwrite offset (slice 0 k buf) (file_bytes b d).
Proof.
  intros Hl [_ _ _ Hby] Ho Hk Hend Hbuf.
  assert (∀ p, 0 ≤ p < d_length d → disk_byte b' d p =
    if decide (offset ≤ p < offset + k) then buf !!! Z.to_nat (p - offset) else disk_byte b d p) as Hp.
  { intros p Hp. apply Hby. unfold sector_cnt. dlia. }
  destruct (decide (k = 0)) as [->|Nk].
  { assert (overwrite offset (slice 0 0 buf) (file_bytes b d) = file_bytes b d) as ->.
    { unfold overwrite, slice. simpl. rewrite Nat.add_0_r. apply take_drop. }
    unfold file_bytes. apply list_fmap_ext. intros m p E%lookup_seqZ. destruct E as [-> Hm]. rewrite Hp by lia.
    by rewrite decide_False by lia. }
  assert (Z.of_nat (length (slice 0 k buf)) = k) as Hls by (apply length_slice; lia).
  pose proof (length_file_bytes b d Hl) as Hlb.
  apply bytes_eq with (d_length d).
  - by apply length_file_bytes.
  - rewrite length_overwrite by lia. by apply length_file_bytes.
  - intros p Hpp. rewrite file_bytes_lookup, Hp by done. rewrite overwrite_lookup by lia. rewrite Hls.
    destruct (decide (offset ≤ p < offset + k)); [|by rewrite file_bytes_lookup].
    rewrite slice_lookup by lia. rewrite Z.add_0_l. destruct (lookup_lt_is_Some_2 buf (Z.to_nat (p - offset))) as [x E]; [lia|].
    by rewrite (list_lookup_total_correct _ _ _ E), E.
Qed.

Lemma written_extent (b b' : block D) d d' offset buf k :
  written b b' d offset buf k → extent_ok b d' → extent_ok b' d'.
Proof. intros [_ [Hs _] _ _] [? ? ? ?]. split; by rewrite ?Hs. Qed.

(** ** Properties *)

(** C18: [inode_read_at] and [inode_write_at] read and write a slice of the
    bytes of the file, wherever it lies in the sectors.  A write of [n] bytes
    at [offset] replaces the bytes up to the end of the file, returns how many
    there were, and changes no other sector and no other part of the state; a
    read returns the bytes as they then are.  Short counts occur only at the
    end of the file and when there is no memory for the bounce buffer, and a
    denied write changes nothing. *)
Theorem inode_read_write_correct s ip i buf n offset n2 offset2 :
  block_ok (fs_device s) → inodes s !! ip = Some i → extent_ok (fs_device s) (data i) →
  0 ≤ n < 2 ^ 31 → n ≤ Z.of_nat (length buf) → Forall byte_ok buf → 0 ≤ offset < 2 ^ 31 →
  0 ≤ n2 < 2 ^ 31 → 0 ≤ offset2 < 2 ^ 31 →
  ∃ k b a, inode_write_at oom ip buf n offset s = Ok (k, set_allocs a (set_device b s)) ∧
    (deny_write_cnt i ≠ 0 → k = 0) ∧
    (deny_write_cnt i = 0 → oom (allocs s) = false → k = available (data i) n offset) ∧
    0 ≤ k ≤ available (data i) n offset ∧
    file_bytes b (data i) = overwrite offset (slice 0 k buf) (file_bytes (fs_device s) (data i)) ∧
    (∀ j, 0 ≤ j < size b → j < d_start (data i) ∨ d_start (data i) + sector_cnt (data i) ≤ j →
       sector_of b j = sector_of (fs_device s) j) ∧
    ∃ k2 s2, inode_read_at oom ip n2 offset2 (set_allocs a (set_device b s)) =
        Ok (slice offset2 k2 (file_bytes b (data i)), s2) ∧
      0 ≤ k2 ≤ available (data i) n2 offset2 ∧ (oom a = false → k2 = available (data i) n2 offset2).
Proof.
  intros Hb Hi Hd Hn Hbuf Hbytes Ho Hn2 Ho2.
  destruct (inode_write_at_ok s ip i buf n offset) as (k & b & a & E & Hw & Hk); [done..|].
  assert (0 ≤ k ≤ available (data i) n offset) as Hkr.
  { destruct (deny_write_cnt i =? 0); [apply Hk|subst; unfold available; lia]. }
  destruct (inode_read_at_ok (set_allocs a (set_device b s)) ip i n2 offset2) as (k2 & b2 & a2 & E2 & _ & Hk2 & Hc2);
    [apply Hw|done|by eapply written_extent|done|done|].
  exists k, b, a. split_and!; [done| | |lia|lia| | |].
  - intros Hdn. by rewrite (proj2 (Z.eqb_neq _ _) Hdn) in Hk.
  - intros Hdn Hm. rewrite Hdn in Hk. destruct Hk as [_ [?|?]]; [done|congruence].
  - pose proof (ex_length _ _ Hd). unfold available in Hkr.
    apply written_bytes; try done; lia.
  - intros j Hj. destruct (wr_size _ _ _ _ _ _ Hw) as [Hs _]. apply (wr_other _ _ _ _ _ _ Hw). lia.
  - exists k2. eexists. split; [exact E2|]. split; [done|]. intros Hm. simpl in Hc2. destruct Hc2; congruence.
Qed.

End access.

(** ** Witness *)

(** A file of 600 bytes in sectors 2 and 3. *)
Definition demo_data : inode_disk := mk_inode_disk 2 600 INODE_MAGIC.
Definition demo_inode : inode := mk_inode 1 1 false 0 demo_data.
Definition demo_fs : fs (list (list Z)) :=
  mk_fs (mk_block BLOCK_FILESYS 4 0 0 (repeat (repeat 0 512) 4)) {[16 := demo_inode]} [16] (mk_bitmap 0 []) NULL ∅ ∅ 1.
Definition always : nat → bool := λ _, false.

Lemma demo_fs_ok : block_ok (fs_device demo_fs) ∧ extent_ok (fs_device demo_fs) demo_data.
Proof.
  split; split; try (vm_compute; intuition congruence).
  apply (bool_decide_unpack _). vm_compute. reflexivity.
Qed.

Lemma inode_read_write_correct_witness :
  ∃ b a, inode_write_at always 16 [1; 2; 3] 3 510 demo_fs = Ok (3, set_allocs a (set_device b demo_fs)) ∧
    ∃ s2, inode_read_at always 16 5 508 (set_allocs a (set_device b demo_fs)) = Ok ([0; 0; 1; 2; 3], s2).
Proof.
  destruct (inode_read_write_correct always demo_fs 16 demo_inode [1; 2; 3] 3 510 5 508)
    as (k & b & a & E & _ & Hk & _ & _ & _ & k2 & s2 & E2 & _ & Hk2).
  - apply demo_fs_ok.
  - reflexivity.
  - apply demo_fs_ok.
  - lia.
  - simpl. lia.
  - repeat constructor; discriminate.
  - lia.
  - lia.
  - lia.
  - rewrite Hk in E by reflexivity. exists b, a. split; [exact E|].
    rewrite Hk2 in E2 by reflexivity. vm_compute in E. injection E as <- <-.
    exists s2. vm_compute in E2 |- *. exact E2.
Defined.
