(* ===== verification/InodeTable.v ===== *)
(** * The table of open inodes

    The invariant of the in-memory inodes: an inode of a sector is in memory at
    most once, and it stays there as long as somebody has it open.  [inode_open]
    and [inode_close] maintain it; the last [inode_close] of a removed inode
    returns its sectors to the free map and writes the map to its file. *)

From S2P Require Import Prelude Bytes Block Bitmap Inode InodeSpec.

Section table.
Context {D : Type} `{BD : BlockDriver D}.
Variable oom : nat → bool.
Implicit Types s : fs D.

(** ** Allocation only moves forward *)

Definition grows {A} (m : ST (fs D) A) : Prop := ∀ s x s', m s = Ok (x, s') → (allocs s ≤ allocs s')%nat.

Lemma grows_id {A} (m : ST (fs D) A) : (∀ s x s', m s = Ok (x, s') → allocs s' = allocs s) → grows m.
Proof. intros H s x s' E. by rewrite (H _ _ _ E). Qed.

Lemma grows_bind {A B} (m : ST (fs D) A) (g : A → ST (fs D) B) : grows m → (∀ x, grows (g x)) → grows (m ≫= g).
Proof.
  intros Hm Hg s y s' E. unfold mbind, st_bind in E. destruct (m s) as [[x s1]|] eqn:Em; [|done].
  apply Hm in Em. apply Hg in E. lia.
Qed.

Lemma grows_loopM {L A} fuel (body : L → ST (fs D) (L + A)) l : (∀ l, grows (body l)) → grows (loopM fuel body l).
Proof.
  intros Hb. revert l. induction fuel as [|n IH]; intros l s x s' E; [by unfold loopM in E|].
  destruct (body l s) as [[r s1]|] eqn:Eb; [|unfold loopM in E; by rewrite Eb in E].
  rewrite (loopM_step _ _ _ _ _ _ Eb) in E. apply Hb in Eb. destruct r as [l'|y]; [apply IH in E; lia|by simplify_eq].
Qed.

Lemma grows_ret {A} (x : A) : grows (mret x).
Proof. apply grows_id. intros s y s' E. by injection E as <- <-. Qed.

Lemma grows_fail {A} e : grows (@fail _ A e).
Proof. by apply grows_id. Qed.

Lemma grows_get_inode ip : grows (get_inode ip).
Proof. apply grows_id. intros s x s' E. unfold get_inode in E. by destruct (inodes s !! ip); simplify_eq. Qed.

Lemma grows_on_dev {A} (m : ST (block D) A) : grows (on_dev m).
Proof. apply grows_id. intros s x s' E. unfold on_dev in E. destruct (m _) as [[? ?]|]; by simplify_eq/=. Qed.

Lemma grows_malloc : grows (malloc oom).
Proof. intros s x s' E. unfold malloc, mbind, st_bind, get, modify, mret, st_ret in E. simplify_eq. simpl. lia. Qed.

Create HintDb grows.
Hint Resolve grows_ret grows_fail grows_get_inode grows_on_dev grows_malloc : grows.

(** Follow the structure of a computation. *)
Ltac grow :=
  repeat first [ progress eauto with grows | apply grows_bind; [|intros ?] | apply grows_loopM; intros ?
               | case_match ].

Lemma read_write_grow ip buf n offset : grows (inode_read_at oom ip n offset) ∧ grows (inode_write_at oom ip buf n offset).
Proof.
  unfold inode_read_at, inode_write_at, read_body, write_body, get_bounce, buf_read, buf_write. split; grow.
Qed.

(** ** What reading and writing leave alone *)

(** Reading changes nothing but the number of allocations and the device,
    whose contents stay. *)
Definition same_fs s s' : Prop :=
  ∃ b a, s' = set_allocs a (set_device b s) ∧ (allocs s ≤ a)%nat ∧ same_disk (fs_device s) b.

Lemma same_fs_refl s : block_ok (fs_device s) → same_fs s s.
Proof. intros. exists (fs_device s), (allocs s). split_and!; [by destruct s|done..]. Qed.

Lemma same_fs_trans s1 s2 s3 : same_fs s1 s2 → same_fs s2 s3 → same_fs s1 s3.
Proof.
  intros (b & a & -> & Ha & H1) (b' & a' & -> & Ha' & H2). simpl in *. exists b', a'. split_and!; [done|lia|..].
  all: by eapply same_disk_trans.
Qed.

Lemma read_same_fs s ip n offset bs b a :
  inode_read_at oom ip n offset s = Ok (bs, set_allocs a (set_device b s)) → same_disk (fs_device s) b →
  same_fs s (set_allocs a (set_device b s)).
Proof.
  intros E Hs. apply (proj1 (read_write_grow ip [] n offset)) in E. by exists b, a.
Qed.

(** A write to the sectors of [d] only. *)
Definition wrote_fs (d : inode_disk) s s' : Prop :=
  ∃ b a, s' = set_allocs a (set_device b s) ∧ (allocs s ≤ a)%nat ∧ block_ok b ∧ size b = size (fs_device s) ∧
    ∀ j, 0 ≤ j < size b → j < d_start d ∨ d_start d + sector_cnt d ≤ j → sector_of b j = sector_of (fs_device s) j.

Lemma same_fs_wrote d s s' : same_fs s s' → wrote_fs d s s'.
Proof.
  intros (b & a & -> & Ha & H1 & H2 & H3 & H4). exists b, a. split_and!; [done..|]. intros j Hj _. apply H4. lia.
Qed.

Lemma wrote_trans d s1 s2 s3 : wrote_fs d s1 s2 → wrote_fs d s2 s3 → wrote_fs d s1 s3.
Proof.
  intros (b & a & -> & Ha & H1 & H2 & H3) (b' & a' & -> & Ha' & H5 & H6 & H7). exists b', a'. simpl in *.
  split_and!; [done|lia|done|congruence|]. intros j Hj Ho. rewrite H7 by done. apply H3; [lia|done].
Qed.

Lemma same_wrote d s1 s2 s3 : same_fs s1 s2 → wrote_fs d s2 s3 → wrote_fs d s1 s3.
Proof. intros H. eapply wrote_trans, same_fs_wrote, H. Qed.

Lemma written_wrote s ip buf m offset b a d n :
  inode_write_at oom ip buf m offset s = Ok (n, set_allocs a (set_device b s)) →
  written (fs_device s) b d offset buf n → wrote_fs d s (set_allocs a (set_device b s)).
Proof.
  intros E [H1 [H2 _] H3 _]. apply (proj2 (read_write_grow ip buf m offset)) in E.
  exists b, a. split_and!; [done..|]. intros j Hj. apply H3. lia.
Qed.

(** ** Opening *)

Record table_ok s : Prop := {
  tb_open ip : ip ∈ open_inodes s ↔ is_Some (inodes s !! ip);
  tb_nodup : NoDup (open_inodes s);
  tb_cnt ip i : inodes s !! ip = Some i → 0 < open_cnt i < 2 ^ 31;
  tb_addr ip i : inodes s !! ip = Some i → 0 < ip ≤ 16 * Z.of_nat (allocs s);
  tb_sector ip ip' i i' :
    inodes s !! ip = Some i → inodes s !! ip' = Some i' → sector i = sector i' → ip = ip'
}.

(** The inode of a sector in the table. *)
Definition opened s (sec ip : Z) (i : inode) : Prop := inodes s !! ip = Some i ∧ sector i = sec.

Definition set_cnt (n : Z) (i : inode) : inode := mk_inode (sector i) n (removed i) (deny_write_cnt i) (data i).

Lemma find_open_ok s sec l :
  (∀ ip, ip ∈ l → is_Some (inodes s !! ip)) →
  ∃ r, find_open sec l s = Ok (r, s) ∧
    match r with
    | Some ip => ip ∈ l ∧ ∃ i, opened s sec ip i
    | None => ∀ ip i, ip ∈ l → ¬ opened s sec ip i
    end.
Proof.
  induction l as [|ip l IH]; intros Hl.
  { exists None. split; [done|]. by intros ip i ?%elem_of_nil. }
  destruct (Hl ip (list_elem_of_here _ _)) as [i Hi]. simpl. erewrite bind_ok by (by apply get_inode_ok).
  destruct (Z.eqb_spec (sector i) sec) as [Es|Ns].
  - exists (Some ip). split; [done|]. split; [apply list_elem_of_here|]. by exists i.
  - destruct IH as (r & E & Hr); [intros q Hq; apply Hl; by right|]. exists r. split; [done|].
    destruct r as [q|]; [destruct Hr as [? ?]; split; [by right|done]|].
    intros q iq [->|Hq]%elem_of_cons [Hq1 Hq2]; [congruence|by apply (Hr q iq)].
Qed.

Lemma table_find s sec :
  table_ok s →
  ∃ r, find_open sec (open_inodes s) s = Ok (r, s) ∧
    match r with Some ip => ∃ i, opened s sec ip i | None => ∀ ip i, ¬ opened s sec ip i end.
Proof.
  intros Ht. destruct (find_open_ok s sec (open_inodes s)) as (r & E & Hr); [intros ip; apply (tb_open _ Ht)|].
  exists r. split; [done|]. destruct r as [ip|]; [by destruct Hr|].
  intros ip i Ho. apply (Hr ip i); [|done]. apply (tb_open _ Ht). exists i. apply Ho.
Qed.

(** What [inode_open] returns and does. *)
Definition open_result s sec (ip : Z) s' : Prop :=
  (∃ i, opened s sec ip i ∧ s' = set_inodes (<[ip := set_cnt (open_cnt i + 1) i]> (inodes s)) s) ∨
  ((∀ ip i, ¬ opened s sec ip i) ∧
   if oom (allocs s) then ip = NULL ∧ s' = set_allocs (S (allocs s)) s
   else inodes s !! ip = None ∧ ip = 16 * (Z.of_nat (allocs s) + 1) ∧
     ∃ b, same_disk (fs_device s) b ∧
       s' = set_inodes (<[ip := mk_inode sec 1 false 0 (decode_inode (sector_of (fs_device s) sec))]> (inodes s))
              (set_open (ip :: open_inodes s) (set_allocs (S (allocs s)) (set_device b s)))).

Lemma inode_open_ok s sec :
  table_ok s → block_ok (fs_device s) → 0 ≤ sec < size (fs_device s) →
  (∀ ip i, opened s sec ip i → open_cnt i < 2 ^ 31 - 1) →
  ∃ ip s', inode_open oom sec s = Ok (ip, s') ∧ open_result s sec ip s'.
Proof.
  intros Ht Hb Hs Hcnt. destruct (table_find s sec Ht) as (r & E & Hr).
  unfold inode_open. erewrite bind_ok by apply get_ok. erewrite bind_ok by exact E. destruct r as [ip|].
  - destruct Hr as [i Hi]. pose proof (tb_addr _ Ht _ _ (proj1 Hi)). pose proof (tb_cnt _ Ht _ _ (proj1 Hi)).
    specialize (Hcnt _ _ Hi). exists ip. eexists. split; [|left; by exists i].
    unfold inode_reopen. rewrite (proj2 (Z.eqb_neq _ _)) by (unfold NULL; lia).
    erewrite bind_ok by (apply get_inode_ok, Hi). rewrite s32_small by lia. done.
  - unfold malloc. rewrite bind_ok with (a := if oom (allocs s) then NULL else 16 * (Z.of_nat (allocs s) + 1))
      (s' := set_allocs (S (allocs s)) s) by done.
    destruct (oom (allocs s)) eqn:Ho.
    { exists NULL. eexists. split; [done|]. right. split; [done|]. by rewrite Ho. }
    rewrite (proj2 (Z.eqb_neq _ _)) by (unfold NULL; lia). erewrite bind_ok by done.
    destruct (on_dev_read (set_open (16 * (Z.of_nat (allocs s) + 1) :: open_inodes s) (set_allocs (S (allocs s)) s)) sec)
      as (b & Er & Hd); [done..|]. erewrite bind_ok by exact Er.
    eexists _, _. split; [done|]. right. split; [done|]. rewrite Ho. split_and!; [|done|exists b; by split].
    destruct (inodes s !! _) as [i|] eqn:Hi; [|done]. apply (tb_addr _ Ht) in Hi. lia.
Qed.

Lemma table_update s ip i i' :
  table_ok s → inodes s !! ip = Some i → sector i' = sector i → 0 < open_cnt i' < 2 ^ 31 →
  table_ok (set_inodes (<[ip := i']> (inodes s)) s).
Proof.
  intros [T1 T2 T3 T4 T5] Hi Hs Hc.
  assert (∀ q j, <[ip := i']> (inodes s) !! q = Some j →
    ∃ j', inodes s !! q = Some j' ∧ sector j' = sector j ∧ 0 < open_cnt j < 2 ^ 31) as Hq.
  { intros q j [[<- <-]|[Hne Hj]]%lookup_insert_Some; [by exists i|].
    exists j. specialize (T3 _ _ Hj). done. }
  split; simpl; [|done| | |].
  - intros q. rewrite T1, lookup_insert_is_Some'. split; [by right|]. intros [<-|]; [by rewrite Hi|done].
  - intros q j Hj. by destruct (Hq _ _ Hj) as (? & _ & _ & ?).
  - intros q j Hj. destruct (Hq _ _ Hj) as (? & ? & _). by eapply T4.
  - intros q q' j j' Hj Hj' E. destruct (Hq _ _ Hj) as (k & ? & Ek & _), (Hq _ _ Hj') as (k' & ? & Ek' & _).
    eapply T5; [done..|congruence].
Qed.

Lemma open_result_table s sec ip s' :
  table_ok s → (∀ ip i, opened s sec ip i → open_cnt i < 2 ^ 31 - 1) → open_result s sec ip s' → table_ok s'.
Proof.
  intros Ht Hcnt [(i & [Hi Hs] & ->)|[Hn H]].
  - pose proof (tb_cnt _ Ht _ _ Hi). specialize (Hcnt ip i (conj Hi Hs)).
    apply (table_update s ip i); simpl; (done || lia).
  - destruct (oom (allocs s)); destruct Ht as [T1 T2 T3 T4 T5].
    { destruct H as [-> ->]. split; simpl; [done..| |done]. intros q j Hj. apply T4 in Hj. lia. }
    destruct H as (Hnone & -> & b & Hd & ->). set (ip := 16 * (Z.of_nat (allocs s) + 1)) in *. split; simpl.
    + intros q. rewrite elem_of_cons, T1, lookup_insert_is_Some'. naive_solver.
    + constructor; [|done]. rewrite T1, Hnone. by intros [? ?].
    + intros q j [[<- <-]|[_ Hj]]%lookup_insert_Some; [simpl; lia|by apply T3 in Hj].
    + intros q j [[<- <-]|[_ Hj]]%lookup_insert_Some; [lia|apply T4 in Hj; lia].
    + intros q q' j j' [[<- <-]|[_ Hj]]%lookup_insert_Some [[<- <-]|[_ Hj']]%lookup_insert_Some E; try done.
      * by destruct (Hn q' j').
      * by destruct (Hn q j).
      * by eapply T5.
Qed.

(** ** The free map and its file *)

(** The file of the free map is open. *)
Record map_ok s (f : file) (fi : inode) : Prop := {
  mo_wf : wf (free_map s);
  mo_file : files s !! free_map_file s = Some f;
  mo_inode : inodes s !! f_inode f = Some fi;
  mo_extent : extent_ok (fs_device s) (data fi);
  mo_block : block_ok (fs_device s)
}.

Lemma bitmap_bytes_ok b :
  length (bitmap_bytes b) = (4 * length (bits b))%nat ∧ Forall byte_ok (bitmap_bytes b).
Proof.
  unfold bitmap_bytes. induction (bits b) as [|w ws [IH1 IH2]]; [done|]. rewrite bind_cons. split.
  - rewrite length_app, length_le_encode, IH1. cbn [length]. lia.
  - apply Forall_app_2; [apply le_encode_ok|done].
Qed.

Lemma byte_cnt_exact n : 0 ≤ n ≤ 2 ^ 32 - 32 → byte_cnt n = 4 * elem_cnt n ∧ 0 ≤ elem_cnt n < 2 ^ 28.
Proof. intros Hn. unfold byte_cnt. rewrite elem_cnt_exact by done. rewrite u32_small by dlia. split; dlia. Qed.

(** [bitmap_write] stores the map at the start of the file; it reports failure
    only when the file is too short or closed to writing, or without memory. *)
Lemma bitmap_write_ok s fp f fi b :
  wf b → files s !! fp = Some f → inodes s !! f_inode f = Some fi →
  extent_ok (fs_device s) (data fi) → block_ok (fs_device s) →
  ∃ r s', bitmap_write oom b fp s = Ok (r, s') ∧ wrote_fs (data fi) s s' ∧
    (r = true → slice 0 (byte_cnt (bit_cnt b)) (file_bytes (fs_device s') (data fi)) = bitmap_bytes b) ∧
    (deny_write_cnt fi = 0 → byte_cnt (bit_cnt b) ≤ d_length (data fi) → oom (allocs s) = false → r = true).
Proof.
  intros Hwf Hf Hi Hx Hb. destruct (byte_cnt_exact (bit_cnt b)) as [Hbc Hec]; [apply Hwf|].
  destruct (bitmap_bytes_ok b) as [Hl Hbytes]. pose proof (wf_len _ Hwf) as Hlen.
  pose proof (ex_length _ _ Hx) as Hdl.
  destruct (inode_write_at_ok oom s (f_inode f) fi (bitmap_bytes b) (byte_cnt (bit_cnt b)) 0)
    as (k & b' & a & E & Hw & Hk); [done..|lia|lia|done|lia|].
  unfold bitmap_write, file_write_at. rewrite s32_small by lia.
  assert (get_file fp s = Ok (f, s)) as Eg by (unfold get_file; by rewrite Hf).
  erewrite bind_ok by (erewrite bind_ok by exact Eg; exact E).
  eexists _, _. split; [done|]. split_and!; [by eapply written_wrote| |].
  - intros Er%Z.eqb_eq. subst k. cbn [fs_device set_allocs set_device].
    rewrite (written_bytes _ _ _ _ _ _ (proj1 Hdl) Hw) by (destruct (deny_write_cnt fi =? 0); unfold available in *; lia).
    rewrite (slice_all (bitmap_bytes b)) by lia. replace (byte_cnt (bit_cnt b)) with (Z.of_nat (length (bitmap_bytes b))) by lia.
    unfold overwrite, slice. simpl. rewrite Nat2Z.id. apply take_app_length.
  - intros Hd Hs Hm. rewrite Hd in Hk. apply Z.eqb_eq. destruct Hk as [_ [->|]]; [|congruence]. unfold available. lia.
Qed.

Lemma free_map_release_ok s f fi sec cnt :
  map_ok s f fi → 0 ≤ sec → 0 ≤ cnt → sec + cnt ≤ bit_cnt (free_map s) → all_bits (free_map s) sec cnt true →
  ∃ s' b, free_map_release oom sec cnt s = Ok (tt, s') ∧ bits_set (free_map s) b sec cnt false ∧
    wrote_fs (data fi) (set_free_map b s) s'.
Proof.
  intros [Hwf Hf Hi Hx Hb] Hs Hc Hle Hall. destruct (bitmap_all_ok (free_map s) sec cnt) as (r & Ea & Hr); [done..|].
  assert (r = true) as ->. { destruct r; [done|]. destruct Hr as (j & Hj & Hbit). by rewrite (Hall j Hj) in Hbit. }
  destruct (bitmap_set_multiple_ok (free_map s) sec cnt false) as (b & Eb & Hset); [done..|].
  destruct (bitmap_write_ok (set_free_map b s) (free_map_file s) f fi b) as (r & s' & Ew & Hw & _); [apply Hset|done..|].
  exists s', b. split_and!; [|done|done]. unfold free_map_release. erewrite bind_ok by apply get_ok.
  erewrite bind_ok by (unfold lift; by rewrite Ea). erewrite bind_ok by (by apply assert_ok).
  erewrite bind_ok by (unfold lift; by rewrite Eb). erewrite bind_ok by done. by erewrite bind_ok by exact Ew.
Qed.

(** ** Closing *)

(** The extents of an inode on disk, as the free map sees them. *)
Definition allocated s (i : inode) : Prop :=
  0 ≤ sector i < bit_cnt (free_map s) ∧ 0 ≤ d_start (data i) ∧ 0 ≤ d_length (data i) < 2 ^ 31 - 512 ∧
  d_start (data i) + sector_cnt (data i) ≤ bit_cnt (free_map s) ∧
  (sector i < d_start (data i) ∨ d_start (data i) + sector_cnt (data i) ≤ sector i) ∧
  all_bits (free_map s) (sector i) 1 true ∧ all_bits (free_map s) (d_start (data i)) (sector_cnt (data i)) true.

(** The free map after the sectors of an inode are released. *)
Definition released (i : inode) (b b' : bitmap) : Prop :=
  wf b' ∧ bit_cnt b' = bit_cnt b ∧
  ∀ j, 0 ≤ j < bit_cnt b →
    bit b' j = if decide (j = sector i ∨ d_start (data i) ≤ j < d_start (data i) + sector_cnt (data i))
               then false else bit b j.

Lemma bytes_to_sectors_ok n : 0 ≤ n < 2 ^ 31 - 512 → u32 (bytes_to_sectors n) = (n + 511) / 512.
Proof.
  intros Hn. unfold bytes_to_sectors. rewrite (s32_small (n + 512)) by lia. rewrite s32_small by lia.
  rewrite Z.quot_div_nonneg by lia. replace (n + 512 - 1) with (n + 511) by lia. apply u32_small. dlia.
Qed.

Lemma wrote_map_ok s s' f fi d : map_ok s f fi → wrote_fs d s s' → map_ok s' f fi.
Proof.
  intros [H1 H2 H3 [H4 H5 H6 H7] H8] (b & a & -> & _ & Hb & Hs & _). split; try done. simpl.
  split; try done; by rewrite Hs.
Qed.

Lemma release_inode_ok s f fi i :
  map_ok s f fi → allocated s i →
  ∃ s' b, (free_map_release oom (sector i) 1;;
      free_map_release oom (d_start (data i)) (u32 (bytes_to_sectors (d_length (data i))))) s = Ok (tt, s') ∧
    released i (free_map s) b ∧ wrote_fs (data fi) (set_free_map b s) s'.
Proof.
  intros Hm (H1 & H2 & H3 & H4 & H5 & H6 & H7). rewrite bytes_to_sectors_ok by done. fold (sector_cnt (data i)).
  destruct (free_map_release_ok s f fi (sector i) 1) as (s1 & b1 & E1 & (W1 & C1 & B1) & Hw1); [done|lia|lia|lia|done|].
  assert (0 ≤ sector_cnt (data i)) by (unfold sector_cnt; dlia).
  assert (free_map s1 = b1) as Hb1 by (by destruct Hw1 as (? & ? & -> & _)).
  assert (map_ok s1 f fi) as Hm1.
  { eapply wrote_map_ok; [|exact Hw1]. destruct Hm. by split. }
  destruct (free_map_release_ok s1 f fi (d_start (data i)) (sector_cnt (data i))) as (s2 & b2 & E2 & (W2 & C2 & B2) & Hw2);
    [done|lia|lia|rewrite Hb1; lia| |].
  { intros j Hj. rewrite Hb1, B1 by lia. rewrite decide_False by lia. by apply H7. }
  exists s2, b2. rewrite Hb1 in *. split_and!.
  - by erewrite bind_ok by exact E1.
  - split_and!; [done|congruence|]. intros j Hj. rewrite B2, B1 by lia. repeat case_decide; (done || lia).
  - destruct Hw1 as (x & a & -> & Hx). apply (wrote_trans _ _ (set_free_map b2 (set_allocs a (set_device x (set_free_map b1 s))))); [|done].
    by exists x, a.
Qed.

(** What [inode_close] does to an inode that is open [open_cnt i] times. *)
Definition close_result s (fi : inode) (ip : Z) (i : inode) s' : Prop :=
  if decide (1 < open_cnt i) then s' = set_inodes (<[ip := set_cnt (open_cnt i - 1) i]> (inodes s)) s
  else
    let s1 := set_open (filter (λ q, q ≠ ip) (open_inodes s)) (set_inodes (delete ip (inodes s)) s) in
    if removed i then ∃ b, released i (free_map s) b ∧ wrote_fs (data fi) (set_free_map b s1) s'
    else s' = s1.

Lemma inode_close_ok s f fi ip i :
  table_ok s → inodes s !! ip = Some i →
  (removed i = true → open_cnt i = 1 → map_ok s f fi ∧ ip ≠ f_inode f ∧ allocated s i) →
  ∃ s', inode_close oom ip s = Ok (tt, s') ∧ close_result s fi ip i s'.
Proof.
  intros Ht Hi Hal. pose proof (tb_cnt _ Ht _ _ Hi) as Hc. pose proof (tb_addr _ Ht _ _ Hi) as Ha.
  unfold inode_close, close_result. rewrite (proj2 (Z.eqb_neq _ _)) by (unfold NULL; lia).
  erewrite bind_ok by (by apply get_inode_ok). rewrite s32_small by lia. fold (set_cnt (open_cnt i - 1) i).
  set (i' := set_cnt (open_cnt i - 1) i). set (s0 := set_inodes (<[ip := i']> (inodes s)) s).
  rewrite bind_ok with (a := tt) (s' := s0) by done. cbn [open_cnt set_cnt i'].
  destruct (decide (1 < open_cnt i)).
  { rewrite (proj2 (Z.eqb_neq _ _)) by lia. by exists s0. }
  rewrite (proj2 (Z.eqb_eq _ _)) by lia. erewrite bind_ok by done.
  set (s1 := set_open (filter (λ q, q ≠ ip) (open_inodes s)) s0).
  change (removed i') with (removed i). destruct (removed i) eqn:Hrm.
  - destruct Hal as (Hm & Hne & Hal); [done|lia|].
    destruct (release_inode_ok s1 f fi i) as (s2 & b & E & Hb & Hw); [|done|].
    { destruct Hm. split; try done. simpl. by rewrite lookup_insert_ne. }
    exists (set_inodes (delete ip (inodes s)) s2). split.
    + erewrite bind_ok by exact E. destruct Hw as (? & ? & -> & _). unfold modify. simpl. by rewrite delete_insert_eq.
    + exists b. split; [done|]. destruct Hw as (x & a & -> & Hx). by exists x, a.
  - eexists. split; [by erewrite bind_ok by done|]. simpl. by rewrite delete_insert_eq.
Qed.

Lemma table_frame s s' :
  inodes s' = inodes s → open_inodes s' = open_inodes s → (allocs s ≤ allocs s')%nat → table_ok s → table_ok s'.
Proof.
  intros E1 E2 Ha [T1 T2 T3 T4 T5]. split; rewrite ?E1, ?E2; try done.
  intros ip i Hi. apply T4 in Hi. lia.
Qed.

(** An inode that is closed for the last time leaves the table. *)
Lemma table_delete s ip :
  table_ok s → table_ok (set_open (filter (λ q, q ≠ ip) (open_inodes s)) (set_inodes (delete ip (inodes s)) s)).
Proof.
  intros [T1 T2 T3 T4 T5]. split; simpl.
  - intros q. rewrite list_elem_of_filter, T1, lookup_delete_is_Some. naive_solver.
  - by apply NoDup_filter.
  - intros q j [_ Hj]%lookup_delete_Some. by apply T3 in Hj.
  - intros q j [_ Hj]%lookup_delete_Some. by apply T4 in Hj.
  - intros q q' j j' [_ Hj]%lookup_delete_Some [_ Hj']%lookup_delete_Some. by eapply T5.
Qed.

Lemma close_result_table s fi ip i s' :
  table_ok s → inodes s !! ip = Some i → close_result s fi ip i s' → table_ok s'.
Proof.
  intros Ht Hi. pose proof (tb_cnt _ Ht _ _ Hi). unfold close_result. destruct (decide (1 < open_cnt i)).
  { intros ->. apply (table_update s ip i); simpl; (done || lia). }
  destruct (removed i); [|intros ->; by apply table_delete].
  intros (b & _ & x & a & -> & Ha & _). pose proof (table_delete s ip Ht) as Hd. revert Hd. by apply table_frame.
Qed.

Lemma set_cnt_id i : set_cnt (open_cnt i) i = i.
Proof. by destruct i. Qed.

(** ** Properties *)

(** [inode_open] keeps one inode per sector in memory.  When the sector is
    open already it returns the inode it has, open once more; otherwise it
    returns a new inode with the data of the sector, or NULL exactly when there
    is no memory.  Closing the result restores the table. *)
Theorem inode_open_correct s sec :
  table_ok s → block_ok (fs_device s) → 0 ≤ sec < size (fs_device s) →
  (∀ ip i, opened s sec ip i → open_cnt i < 2 ^ 31 - 1) →
  ∃ ip s', inode_open oom sec s = Ok (ip, s') ∧ table_ok s' ∧ open_result s sec ip s' ∧
    (ip ≠ NULL → ∃ s2, inode_close oom ip s' = Ok (tt, s2) ∧ inodes s2 = inodes s ∧
       open_inodes s2 = open_inodes s ∧ free_map s2 = free_map s ∧ same_disk (fs_device s) (fs_device s2)).
Proof.
  intros Ht Hb Hs Hcnt. destruct (inode_open_ok s sec Ht Hb Hs Hcnt) as (ip & s' & E & Hr).
  pose proof (open_result_table _ _ _ _ Ht Hcnt Hr) as Ht'. exists ip, s'. split_and!; [done..|]. intros Hnull.
  assert (∀ i, inodes s' !! ip = Some i → removed i = false ∨ 1 < open_cnt i →
    ∃ s2, inode_close oom ip s' = Ok (tt, s2) ∧ close_result s' i ip i s2) as Hclose.
  { intros i Hi Hc. apply (inode_close_ok s' (mk_file 0 0 false)); [done..|]. intros Hrm ?. destruct Hc; [congruence|lia]. }
  destruct Hr as [(i & [Hi Hsec] & ->)|[Hn Hr]].
  - pose proof (tb_cnt _ Ht _ _ Hi). destruct (Hclose (set_cnt (open_cnt i + 1) i)) as (s2 & E2 & Hr2).
    + simpl. by rewrite lookup_insert_eq.
    + right. simpl. lia.
    + exists s2. unfold close_result in Hr2. simpl in Hr2. rewrite decide_True in Hr2 by lia. subst s2. simpl.
      split_and!; try done. rewrite insert_insert_eq. unfold set_cnt at 1. simpl.
      replace (open_cnt i + 1 - 1) with (open_cnt i) by lia. change (mk_inode _ _ _ _ _) with (set_cnt (open_cnt i) i).
      rewrite set_cnt_id. by apply insert_id.
  - destruct (oom (allocs s)); [by destruct Hr|]. destruct Hr as (Hnone & -> & b & Hd & ->). simpl in Hclose.
    edestruct Hclose as (s2 & E2 & Hr2); [by rewrite lookup_insert_eq|by left|].
    exists s2. unfold close_result in Hr2. cbn [open_cnt removed] in Hr2. rewrite decide_False in Hr2 by lia. subst s2. simpl.
    split_and!; try done; try apply Hd.
    + by apply delete_insert_id.
    + rewrite filter_cons_False by naive_solver. apply filter_ne. rewrite (tb_open _ Ht), Hnone. by intros [? ?].
Qed.

(** [inode_close] takes one opener away.  The last one takes the inode out
    of the table, and if it was removed its inode sector and data sectors
    become free, and no others; the free map is written to its file and
    nothing else on disk changes. *)
Theorem inode_close_correct s f fi ip i :
  table_ok s → inodes s !! ip = Some i →
  (removed i = true → open_cnt i = 1 → map_ok s f fi ∧ ip ≠ f_inode f ∧ allocated s i) →
  ∃ s', inode_close oom ip s = Ok (tt, s') ∧ table_ok s' ∧ close_result s fi ip i s'.
Proof.
  intros Ht Hi Hal. destruct (inode_close_ok s f fi ip i) as (s' & E & Hr); [done..|].
  exists s'. split_and!; [done| |done]. by eapply close_result_table.
Qed.

End table.

(** ** Witnesses *)

Lemma demo_table_ok : table_ok demo_fs.
Proof.
  assert (∀ ip i, inodes demo_fs !! ip = Some i → ip = 16 ∧ i = demo_inode) as H.
  { intros ip i. change (inodes demo_fs) with ({[16 := demo_inode]} : gmap Z inode).
    rewrite lookup_singleton_Some. naive_solver. }
  split.
  - intros ip. change (inodes demo_fs) with ({[16 := demo_inode]} : gmap Z inode).
    rewrite lookup_singleton_is_Some. simpl. rewrite list_elem_of_singleton. naive_solver.
  - repeat constructor. apply not_elem_of_nil.
  - intros ip i [-> ->]%H. simpl. lia.
  - intros ip i [-> ->]%H. simpl. lia.
  - intros ip ip' i i' [-> _]%H [-> _]%H _. reflexivity.
Qed.

Lemma inode_open_correct_witness :
  ∃ s', inode_open always 3 demo_fs = Ok (32, s') ∧ table_ok s' ∧ open_result always demo_fs 3 32 s'.
Proof.
  destruct (inode_open_correct always demo_fs 3) as (ip & s' & E & Ht & Hr & _).
  - apply demo_table_ok.
  - apply demo_fs_ok.
  - simpl. lia.
  - intros ip i [Hi Hs]. exfalso. change (inodes demo_fs) with ({[16 := demo_inode]} : gmap Z inode) in Hi.
    apply lookup_singleton_Some in Hi as [_ <-]. discriminate Hs.
  - assert (ip = 32) as -> by (clear Ht Hr; vm_compute in E; injection E as <- _; reflexivity).
    exists s'. split; [exact E|]. split; [exact Ht|exact Hr].
Defined.

(** A removed file in sector 3 with its data in sector 4, and the file of the
    free map in sector 2. *)
Definition demo_removed : inode := mk_inode 3 1 true 0 (mk_inode_disk 4 100 INODE_MAGIC).
Definition demo_map_inode : inode := mk_inode 0 1 false 0 (mk_inode_disk 2 4 INODE_MAGIC).
Definition demo_fs2 : fs (list (list Z)) :=
  mk_fs (mk_block BLOCK_FILESYS 6 0 0 (repeat (repeat 0 512) 6))
    {[16 := demo_removed; 32 := demo_map_inode]} [16; 32] (mk_bitmap 6 [0x3f]) 48
    {[48 := mk_file 32 0 false]} ∅ 3.

Lemma demo_fs2_inodes ip i :
  inodes demo_fs2 !! ip = Some i → ip = 16 ∧ i = demo_removed ∨ ip = 32 ∧ i = demo_map_inode.
Proof.
  change (inodes demo_fs2) with ({[16 := demo_removed; 32 := demo_map_inode]} : gmap Z inode).
  rewrite lookup_insert_Some, lookup_singleton_Some. naive_solver.
Qed.

Lemma demo_fs2_ok :
  table_ok demo_fs2 ∧ map_ok demo_fs2 (mk_file 32 0 false) demo_map_inode ∧ allocated demo_fs2 demo_removed.
Proof.
  split_and!.
  - split.
    + intros ip. change (inodes demo_fs2) with ({[16 := demo_removed; 32 := demo_map_inode]} : gmap Z inode).
      rewrite lookup_insert_is_Some', lookup_singleton_is_Some. simpl. rewrite elem_of_cons, list_elem_of_singleton. naive_solver.
    + apply (bool_decide_unpack _). reflexivity.
    + intros ip i [[-> ->]|[-> ->]]%demo_fs2_inodes; simpl; lia.
    + intros ip i [[-> ->]|[-> ->]]%demo_fs2_inodes; simpl; lia.
    + intros ip ip' i i' [[-> ->]|[-> ->]]%demo_fs2_inodes [[-> ->]|[-> ->]]%demo_fs2_inodes; simpl; congruence.
  - split.
    + split; [simpl; lia|reflexivity|]. repeat constructor; simpl; lia.
    + reflexivity.
    + reflexivity.
    + split; [simpl; lia|simpl; lia|vm_compute; discriminate|vm_compute; reflexivity].
    + split; [|simpl; lia|discriminate]. apply (bool_decide_unpack _). vm_compute. reflexivity.
  - unfold allocated. change (sector_cnt (data demo_removed)) with 1. simpl sector. simpl d_start. simpl d_length. simpl bit_cnt.
    split_and!; try lia.
    + intros j Hj. simpl in Hj. assert (j = 3) as -> by lia. reflexivity.
    + intros j Hj. change (4 ≤ j < 5) in Hj. assert (j = 4) as -> by lia. reflexivity.
Qed.

Lemma inode_close_correct_witness :
  ∃ s', inode_close always 16 demo_fs2 = Ok (tt, s') ∧ table_ok s' ∧ bits (free_map s') = [0x27].
Proof.
  destruct (inode_close_correct always demo_fs2 (mk_file 32 0 false) demo_map_inode 16 demo_removed) as (s' & E & Ht & _).
  - apply demo_fs2_ok.
  - reflexivity.
  - intros _ _. split; [apply demo_fs2_ok|]. split; [discriminate|apply demo_fs2_ok].
  - exists s'. split; [exact E|]. split; [exact Ht|]. clear Ht. vm_compute in E. injection E as <-. reflexivity.
Defined.
