(* ===== verification/Directory.v ===== *)
(** * Directories and the file system: filesys/directory.c, filesys.c

    A directory is a file of 20-byte entries; an entry holds the sector of an
    inode, a null-terminated name of at most 14 characters and a flag that
    tells whether the entry is in use. *)

From S2P Require Import Prelude Bytes Block Bitmap Inode.

Definition NAME_MAX : Z := 14.
Definition entry_size : Z := 20.

(** ** Directory entries *)

(** The null-terminated string at the start of a buffer. *)
Fixpoint cstring (bs : list Z) : list Z :=
  match bs with [] => [] | b :: r => if b =? 0 then [] else b :: cstring r end.

Definition inode_sector (e : list Z) : Z := le_decode (slice 0 4 e).
Definition e_name (e : list Z) : list Z := cstring (drop 4 e).
Definition in_use (e : list Z) : bool := negb (le_decode (slice 19 1 e) =? 0).

(** Assignments to the fields of an entry; [strlcpy (e.name, name, 15)] leaves
    the bytes after the terminator as they were. *)
Definition set_in_use (v : bool) (e : list Z) : list Z := overwrite 19 [if v then 1 else 0] e.
Definition set_name (name e : list Z) : list Z := overwrite 4 (take 14 name ++ [0]) e.
Definition set_inode_sector (sec : Z) (e : list Z) : list Z := overwrite 0 (le_encode 4 sec) e.

Section directory.
Context {D : Type} `{BD : BlockDriver D}.
Variable oom : nat → bool.

Abbreviation fs := (fs D).

Definition get_dir (dp : Z) : ST fs (Z * Z) := λ s,
  match dirs s !! dp with Some d => Ok (d, s) | None => Err BadAccess end.

(** ** directory.c *)

Definition dir_create (sec entry_cnt : Z) : ST fs bool :=
  inode_create oom sec (s32 (entry_cnt * entry_size)).

Definition dir_open (ip : Z) : ST fs Z :=
  dp ← malloc oom;
  if negb (ip =? NULL) && negb (dp =? NULL) then
    modify (λ s, set_dirs (<[dp := (ip, 0)]> (dirs s)) s);; mret dp
  else
    inode_close oom ip;; mret NULL.

Definition dir_open_root : ST fs Z := ip ← inode_open oom ROOT_DIR_SECTOR; dir_open ip.

Definition dir_reopen (dp : Z) : ST fs Z := d ← get_dir dp; ip ← inode_reopen (fst d); dir_open ip.

Definition dir_close (dp : Z) : ST fs unit :=
  if dp =? NULL then mret tt
  else
    d ← get_dir dp;
    inode_close oom (fst d);;
    modify (λ s, set_dirs (delete dp (dirs s)) s).

Definition dir_get_inode (dp : Z) : ST fs Z := d ← get_dir dp; mret (fst d).

(** [inode_read_at (inode, &e, sizeof e, ofs)]: what [e] holds afterwards, and
    whether the whole entry was read. *)
Definition read_entry (ip ofs : Z) (e : list Z) : ST fs (list Z * bool) :=
  bs ← inode_read_at oom ip entry_size ofs;
  mret (overwrite 0 bs e, Z.of_nat (length bs) =? entry_size).

(** The number of rounds of a walk over the entries of an inode. *)
Definition walk_fuel (ip : Z) : ST fs nat := n ← inode_length ip; mret (S (S (Z.to_nat n))).

(** [junk] is what the local variable [e] holds at first. *)
Definition lookup (junk : list Z) (dp : Z) (name : list Z) : ST fs (option (list Z * Z)) :=
  d ← get_dir dp;
  fuel ← walk_fuel (fst d);
  loopM fuel (λ '(ofs, e),
    r ← read_entry (fst d) ofs e;
    let e := fst r in
    if snd r : bool then
      if in_use e && bool_decide (name = e_name e) then mret (inr (Some (e, ofs)))
      else mret (inl (u32 (ofs + entry_size), e))
    else mret (inr None)) (0, junk).

Definition dir_lookup (junk : list Z) (dp : Z) (name : list Z) : ST fs Z :=
  r ← lookup junk dp name;
  match r with
  | Some (e, _) => inode_open oom (inode_sector e)
  | None => mret NULL
  end.

Definition dir_add (junk junk2 : list Z) (dp : Z) (name : list Z) (sec : Z) : ST fs bool :=
  if bool_decide (name = []) || (NAME_MAX <? Z.of_nat (length name)) then mret false
  else
    r ← lookup junk dp name;
    match r with
    | Some _ => mret false
    | None =>
        d ← get_dir dp;
        fuel ← walk_fuel (fst d);
        r ← loopM fuel (λ '(ofs, e),
              r ← read_entry (fst d) ofs e;
              let e := fst r in
              if snd r : bool then
                if negb (in_use e) then mret (inr (ofs, e))
                else mret (inl (s32 (ofs + entry_size), e))
              else mret (inr (ofs, e))) (0, junk2);
        let e := set_inode_sector sec (set_name name (set_in_use true (snd r))) in
        n ← inode_write_at oom (fst d) e entry_size (fst r);
        mret (n =? entry_size)
    end.

Definition dir_remove (junk : list Z) (dp : Z) (name : list Z) : ST fs bool :=
  r ← lookup junk dp name;
  match r with
  | None => inode_close oom NULL;; mret false
  | Some (e, ofs) =>
      ip ← inode_open oom (inode_sector e);
      if ip =? NULL then inode_close oom ip;; mret false
      else
        d ← get_dir dp;
        n ← inode_write_at oom (fst d) (set_in_use false e) entry_size ofs;
        if negb (n =? entry_size) then inode_close oom ip;; mret false
        else inode_remove ip;; inode_close oom ip;; mret true
  end.

(** Returns the name that was stored, if any. *)
Definition dir_readdir (junk : list Z) (dp : Z) : ST fs (option (list Z)) :=
  d ← get_dir dp;
  fuel ← walk_fuel (fst d);
  loopM fuel (λ e,
    d ← get_dir dp;
    r ← read_entry (fst d) (snd d) e;
    let e := fst r in
    if snd r : bool then
      modify (λ s, set_dirs (<[dp := (fst d, s32 (snd d + entry_size))]> (dirs s)) s);;
      if in_use e then mret (inr (Some (take 14 (e_name e)))) else mret (inl e)
    else mret (inr None)) junk.

(** ** filesys.c *)

Definition do_format : ST fs unit :=
  free_map_create oom;;
  ok ← dir_create ROOT_DIR_SECTOR 16;
  if negb ok then fail KernelPanic
  else free_map_close oom.

(** The device with the role BLOCK_FILESYS is the one of the state. *)
Definition filesys_init (junk : option (list Z)) (format : bool) : ST fs unit :=
  inode_init;;
  free_map_init junk;;
  (if format then do_format else mret tt);;
  free_map_open oom.

Definition filesys_done : ST fs unit := free_map_close oom.

Definition filesys_create (junk junk2 : list Z) (name : list Z) (initial_size : Z) : ST fs bool :=
  dp ← dir_open_root;
  r ← (if dp =? NULL then mret (false, 0)
       else
         a ← free_map_allocate oom 1;
         match a with
         | None => mret (false, 0)
         | Some sec =>
             ok ← inode_create oom sec initial_size;
             ok ← (if (ok : bool) then dir_add junk junk2 dp name sec else mret false);
             mret (ok, sec)
         end);
  (if negb (fst r) && negb (snd r =? 0) then free_map_release oom (snd r) 1 else mret tt);;
  dir_close dp;;
  mret (fst r).

Definition filesys_open (junk : list Z) (name : list Z) : ST fs Z :=
  dp ← dir_open_root;
  ip ← (if dp =? NULL then mret NULL else dir_lookup junk dp name);
  dir_close dp;;
  file_open oom ip.

Definition filesys_remove (junk : list Z) (name : list Z) : ST fs bool :=
  dp ← dir_open_root;
  success ← (if dp =? NULL then mret false else dir_remove junk dp name);
  dir_close dp;;
  mret success.

End directory.
