(* ===== verification/DirSpec.v ===== *)
(** * Directories as maps from names to sectors

    The entries of a directory file, the map from names to inode sectors they
    stand for, and the proof that [lookup], [dir_add] and [dir_remove] are
    lookup, insertion and deletion in that map. *)

From S2P Require Import Prelude Bytes Block Bitmap Inode InodeSpec InodeTable Directory.

(** ** The fields of an entry *)

Definition name_ok (name : list Z) : Prop := Forall (λ c, 0 < c < 256) name.

#[export] Instance name_ok_dec name : Decision (name_ok name).
Proof. unfold name_ok. apply _. Defined.

Definition entry_ok (e : list Z) : Prop := length e = 20%nat ∧ Forall byte_ok e.

Lemma cstring_app name r : name_ok name → cstring (name ++ 0 :: r) = name.
Proof.
  induction 1 as [|c name Hc _ IH]; [done|]. simpl. rewrite IH.
  by destruct (Z.eqb_spec c 0); [lia|].
Qed.

Lemma slice_overwrite ofs len new bs p :
  0 ≤ p → 0 ≤ len → p + len ≤ Z.of_nat (length bs) →
  0 ≤ ofs → ofs + Z.of_nat (length new) ≤ Z.of_nat (length bs) →
  p + len ≤ ofs ∨ ofs + Z.of_nat (length new) ≤ p →
  slice p len (overwrite ofs new bs) = slice p len bs.
Proof.
  intros Hp Hlen Hl Ho Hn Hd. apply bytes_eq with len.
  - apply length_slice; [lia..|]. by rewrite length_overwrite.
  - by apply length_slice.
  - intros i Hi. rewrite !slice_lookup, overwrite_lookup by lia. by rewrite decide_False by lia.
Qed.

Lemma slice_overwrite_eq ofs new bs :
  0 ≤ ofs → ofs + Z.of_nat (length new) ≤ Z.of_nat (length bs) →
  slice ofs (Z.of_nat (length new)) (overwrite ofs new bs) = new.
Proof.
  intros Ho Hn. apply bytes_eq with (Z.of_nat (length new)); [|done|].
  - apply length_slice; [lia..|]. by rewrite length_overwrite.
  - intros i Hi. rewrite slice_lookup, overwrite_lookup by lia. rewrite decide_True by lia. f_equal. lia.
Qed.

Lemma entry_overwrite ofs new e :
  entry_ok e → Forall byte_ok new → 0 ≤ ofs → ofs + Z.of_nat (length new) ≤ 20 → entry_ok (overwrite ofs new e).
Proof.
  intros [Hl Hb] Hn Ho Hs. split; [|by apply Forall_overwrite]. rewrite length_overwrite; [done|lia|lia].
Qed.

Lemma drop4_overwrite0 new e : length new = 4%nat → (4 ≤ length e)%nat → drop 4 (overwrite 0 new e) = drop 4 e.
Proof. intros Hn Hl. unfold overwrite. simpl. rewrite drop_app_length' by done. by rewrite Hn. Qed.

Lemma drop4_overwrite4 new e : (4 ≤ length e)%nat → drop 4 (overwrite 4 new e) = new ++ drop (4 + length new) e.
Proof. intros Hl. unfold overwrite. apply drop_app_length'. rewrite length_take. lia. Qed.

(** The entry that [dir_add] writes. *)
Definition new_entry (name : list Z) (sec : Z) (e : list Z) : list Z :=
  set_inode_sector sec (set_name name (set_in_use true e)).

Lemma new_entry_fields name sec e :
  entry_ok e → name_ok name → (length name ≤ 14)%nat → 0 ≤ sec < 2 ^ 32 →
  entry_ok (new_entry name sec e) ∧ in_use (new_entry name sec e) = true ∧
  e_name (new_entry name sec e) = name ∧ inode_sector (new_entry name sec e) = sec.
Proof.
  intros He Hn Hl Hs. unfold new_entry, set_inode_sector, set_name, set_in_use. rewrite take_ge by lia.
  set (e1 := overwrite 19 [1] e). set (e2 := overwrite 4 (name ++ [0]) e1).
  assert (length (name ++ [0]) = S (length name)) as Hln by (rewrite length_app; simpl; lia).
  assert (length (le_encode 4 sec) = 4%nat) as Hle by apply length_le_encode.
  assert (entry_ok e1) as He1.
  { apply entry_overwrite; [done| |lia|simpl; lia]. repeat constructor; done. }
  assert (entry_ok e2) as He2.
  { apply entry_overwrite; [done| |lia|lia]. apply Forall_app_2; [|by repeat constructor].
    eapply Forall_impl; [exact Hn|]. unfold byte_ok. simpl. lia. }
  assert (entry_ok (overwrite 0 (le_encode 4 sec) e2)) as He3.
  { apply entry_overwrite; [done|apply le_encode_ok|lia|lia]. }
  destruct He as [L0 _], He1 as [L1 _], He2 as [L2 _]. split_and!; [done| | |].
  - unfold in_use. rewrite slice_overwrite by lia. unfold e2. rewrite slice_overwrite by lia.
    unfold e1. change (slice 19 1) with (slice 19 (Z.of_nat (length [1]))). by rewrite slice_overwrite_eq by (simpl; lia).
  - unfold e_name. rewrite drop4_overwrite0 by lia. unfold e2. rewrite drop4_overwrite4 by lia.
    rewrite <-app_assoc. by apply cstring_app.
  - unfold inode_sector. replace 4 with (Z.of_nat (length (le_encode 4 sec))) at 1 by lia.
    rewrite slice_overwrite_eq by lia. apply le_decode_encode. lia.
Qed.

Lemma erased_fields e :
  entry_ok e → entry_ok (set_in_use false e) ∧ in_use (set_in_use false e) = false.
Proof.
  intros He. unfold set_in_use. split; [apply entry_overwrite; [done|by repeat constructor|lia|simpl; lia]|].
  destruct He as [L _]. unfold in_use. change (slice 19 1) with (slice 19 (Z.of_nat (length [0]))).
  by rewrite slice_overwrite_eq by (simpl; lia).
Qed.

(** ** The map of a list of entries *)

Definition used (es : list (list Z)) : list (list Z) := filter (λ e, in_use e = true) es.

Definition dir_map (es : list (list Z)) : gmap (list Z) Z :=
  list_to_map ((λ e, (e_name e, inode_sector e)) <$> used es).

Definition names (es : list (list Z)) : list (list Z) := e_name <$> used es.

Lemma used_insert es k e e' :
  es !! k = Some e → in_use e = false → in_use e' = true → used (<[k := e']> es) ≡ₚ e' :: used es.
Proof.
  intros Hk He He'. pose proof (lookup_lt_Some _ _ _ Hk) as Hl. unfold used.
  rewrite insert_take_drop by done. rewrite <-(take_drop_middle _ _ _ Hk) at 3.
  rewrite !filter_app, !filter_cons. rewrite decide_True by done. rewrite (decide_False (P := in_use e = true)) by congruence.
  by rewrite Permutation_middle.
Qed.

Lemma used_erase es k e e' :
  es !! k = Some e → in_use e = true → in_use e' = false → e :: used (<[k := e']> es) ≡ₚ used es.
Proof.
  intros Hk He He'. pose proof (lookup_lt_Some _ _ _ Hk) as Hl. unfold used.
  rewrite insert_take_drop by done. rewrite <-(take_drop_middle _ _ _ Hk) at 3.
  rewrite !filter_app, !filter_cons. rewrite (decide_True (P := in_use e = true)) by done.
  rewrite (decide_False (P := in_use e' = true)) by congruence. by rewrite Permutation_middle.
Qed.

Lemma fst_entries es : ((λ e, (e_name e, inode_sector e)) <$> used es).*1 = names es.
Proof. unfold names. by rewrite <-list_fmap_compose. Qed.

Lemma dir_map_lookup es name sec :
  NoDup (names es) →
  dir_map es !! name = Some sec ↔ ∃ e, e ∈ es ∧ in_use e = true ∧ e_name e = name ∧ inode_sector e = sec.
Proof.
  intros Hn. unfold dir_map. rewrite <-elem_of_list_to_map by (by rewrite fst_entries).
  rewrite list_elem_of_fmap. unfold used. setoid_rewrite list_elem_of_filter. split.
  - intros (e & [= -> ->] & ? & ?). by exists e.
  - intros (e & ? & ? & <- & <-). by exists e.
Qed.

Lemma dir_map_None es name : dir_map es !! name = None ↔ ∀ e, e ∈ es → in_use e = true → e_name e ≠ name.
Proof.
  unfold dir_map. rewrite <-not_elem_of_list_to_map, fst_entries. unfold names. rewrite list_elem_of_fmap.
  unfold used. setoid_rewrite list_elem_of_filter. split.
  - intros H e He Hu <-. apply H. eauto.
  - intros H (e & -> & Hu & He). by apply (H e).
Qed.

Lemma dir_map_perm es l :
  NoDup (names es) → used es ≡ₚ l → dir_map es = list_to_map ((λ e, (e_name e, inode_sector e)) <$> l).
Proof. intros Hn Hp. apply list_to_map_proper; [by rewrite fst_entries|by apply fmap_Permutation]. Qed.

Lemma dir_map_insert es k e e' :
  NoDup (names es) → es !! k = Some e → in_use e = false → in_use e' = true → dir_map es !! e_name e' = None →
  NoDup (names (<[k := e']> es)) ∧ dir_map (<[k := e']> es) = <[e_name e' := inode_sector e']> (dir_map es).
Proof.
  intros Hn Hk He He' Hf. pose proof (used_insert es k e e' Hk He He') as Hp.
  assert (NoDup (names (<[k := e']> es))) as Hn'.
  { unfold names. rewrite Hp. simpl. constructor; [|done].
    unfold dir_map in Hf. by rewrite <-not_elem_of_list_to_map, fst_entries in Hf. }
  split; [done|]. by rewrite (dir_map_perm _ _ Hn' Hp).
Qed.

Lemma dir_map_erase es k e e' :
  NoDup (names es) → es !! k = Some e → in_use e = true → in_use e' = false →
  NoDup (names (<[k := e']> es)) ∧ dir_map (<[k := e']> es) = delete (e_name e) (dir_map es).
Proof.
  intros Hn Hk He He'. pose proof (used_erase es k e e' Hk He He') as Hp.
  assert (NoDup (e_name e :: names (<[k := e']> es))) as Hn'.
  { unfold names in *. by rewrite <-Hp in Hn. }
  apply NoDup_cons in Hn' as [Hf Hn']. split; [done|].
  rewrite (dir_map_perm es _ Hn (symmetry Hp)). simpl. rewrite delete_insert_id; [done|].
  by rewrite <-not_elem_of_list_to_map, fst_entries.
Qed.

(** ** The entries of a directory file *)

Definition entries (bs : list Z) : list (list Z) :=
  (λ k, slice (20 * k) 20 bs) <$> seqZ 0 (Z.of_nat (length bs) / 20).

Lemma length_entries bs : Z.of_nat (length (entries bs)) = Z.of_nat (length bs) / 20.
Proof. unfold entries. rewrite length_fmap, length_seqZ. dlia. Qed.

Lemma entries_lookup bs k :
  0 ≤ k < Z.of_nat (length bs) / 20 → entries bs !! Z.to_nat k = Some (slice (20 * k) 20 bs).
Proof.
  intros Hk. unfold entries. rewrite list_lookup_fmap, lookup_seqZ_lt by lia. simpl. do 2 f_equal. lia.
Qed.

Lemma entries_ok bs : Forall byte_ok bs → Forall entry_ok (entries bs).
Proof.
  intros Hb. unfold entries. apply Forall_fmap, Forall_forall. intros k Hk%elem_of_seqZ. simpl.
  assert (20 * k + 20 ≤ Z.of_nat (length bs)) by dlia.
  split; [|by apply Forall_slice]. apply Nat2Z.inj. by rewrite length_slice by lia.
Qed.

Lemma entries_overwrite bs k new :
  0 ≤ k < Z.of_nat (length bs) / 20 → length new = 20%nat →
  entries (overwrite (20 * k) new bs) = <[Z.to_nat k := new]> (entries bs).
Proof.
  intros Hk Hn. assert (20 * k + 20 ≤ Z.of_nat (length bs)) by dlia.
  assert (length (overwrite (20 * k) new bs) = length bs) as Hl by (apply length_overwrite; lia).
  apply list_eq. intros j. rewrite <-(Nat2Z.id j).
  destruct (decide (Z.of_nat j < Z.of_nat (length bs) / 20)) as [Hj|Hj].
  - rewrite entries_lookup by (rewrite Hl; lia). assert (20 * Z.of_nat j + 20 ≤ Z.of_nat (length bs)) by dlia.
    destruct (decide (Z.of_nat j = k)) as [->|Hne].
    + rewrite list_lookup_insert_eq by (pose proof (length_entries bs); lia). f_equal.
      replace 20 with (Z.of_nat (length new)) at 2 by lia. apply slice_overwrite_eq; lia.
    + rewrite list_lookup_insert_ne by lia. rewrite entries_lookup by lia. f_equal. apply slice_overwrite; lia.
  - rewrite !lookup_ge_None_2; [done| |].
    + rewrite length_insert. pose proof (length_entries bs). lia.
    + pose proof (length_entries (overwrite (20 * k) new bs)). rewrite Hl in *. lia.
Qed.

Section directory.
Context {D : Type} `{BD : BlockDriver D}.
Variable oom : nat → bool.
Hypothesis memory_left : ∀ n, oom n = false.
Implicit Types s : fs D.

Lemma file_bytes_ok (b : block D) d : block_ok b → extent_ok b d → Forall byte_ok (file_bytes b d).
Proof.
  intros Hb Hd. unfold file_bytes. apply Forall_fmap, Forall_forall. intros p Hp%elem_of_seqZ. simpl.
  assert (0 ≤ d_start d + p / 512 < size b) as Hj by (apply extent_sector; [done|lia]).
  destruct (sector_of_ok b _ Hb Hj) as [_ Hs]. eapply Forall_lookup_1; [exact Hs|].
  apply sector_lookup; [done..|dlia].
Qed.

(** An open directory: [dp] is a handle of the inode [ip], whose file holds
    the entries [es], with distinct names. *)
Record dir_at s (dp ip : Z) (i : inode) (es : list (list Z)) : Prop := {
  da_block : block_ok (fs_device s);
  da_dir : ∃ pos, dirs s !! dp = Some (ip, pos);
  da_inode : inodes s !! ip = Some i;
  da_extent : extent_ok (fs_device s) (data i);
  da_length : d_length (data i) mod 20 = 0;
  da_write : deny_write_cnt i = 0;
  da_entries : entries (file_bytes (fs_device s) (data i)) = es;
  da_names : NoDup (names es)
}.

Lemma same_fs_dir s s' dp ip i es : same_fs s s' → dir_at s dp ip i es → dir_at s' dp ip i es.
Proof.
  intros (b & a & -> & _ & H) [? ? ? ? ? ? ? ?]. split; simpl; try done.
  - apply H.
  - by eapply same_disk_extent.
  - by erewrite same_disk_bytes.
Qed.

(** Reading the entry at [20 * k]; past the last entry nothing is read. *)
Lemma read_entry_ok s dp ip i es k e0 :
  dir_at s dp ip i es → length e0 = 20%nat → (k ≤ length es)%nat →
  ∃ s', read_entry oom ip (20 * Z.of_nat k) e0 s =
      Ok (match es !! k with Some e => (e, true) | None => (e0, false) end, s') ∧ same_fs s s'.
Proof.
  intros [Hb Hd Hi Hx Hm Hw He _] He0 Hk.
  pose proof (length_file_bytes (fs_device s) (data i) (proj1 (ex_length _ _ Hx))) as Hl.
  pose proof (length_entries (file_bytes (fs_device s) (data i))) as Hle. rewrite He, Hl in Hle.
  pose proof (ex_length _ _ Hx) as Hlen.
  destruct (inode_read_at_ok oom s ip i 20 (20 * Z.of_nat k)) as (n & b & a & E & Hs & _ & Hn); [done..|dlia|].
  rewrite memory_left in Hn. destruct Hn as [->|]; [|done].
  exists (set_allocs a (set_device b s)). split; [|by eapply read_same_fs].
  unfold read_entry, entry_size. erewrite bind_ok by exact E. unfold mret, st_ret, available. do 2 f_equal.
  destruct (decide (k < length es)%nat) as [Hlt|Hge].
  - rewrite <-He, <-(Nat2Z.id k), entries_lookup, Nat2Z.id by dlia.
    replace (Z.max 0 (Z.min 20 (d_length (data i) - 20 * Z.of_nat k))) with 20 by dlia.
    assert (Z.of_nat (length (slice (20 * Z.of_nat k) 20 (file_bytes (fs_device s) (data i)))) = 20) as Hs20
      by (apply length_slice; dlia).
    rewrite Hs20. f_equal. apply overwrite_all. lia.
  - rewrite lookup_ge_None_2 by lia. replace (Z.max 0 (Z.min 20 (d_length (data i) - 20 * Z.of_nat k))) with 0 by dlia.
    done.
Qed.

Lemma entry_at_ok s dp ip i es k e : dir_at s dp ip i es → es !! k = Some e → entry_ok e.
Proof.
  intros Hd Hk. assert (Forall entry_ok es) as Hok; [|by apply (Forall_lookup_1 _ _ _ _ Hok Hk)].
  rewrite <-(da_entries _ _ _ _ _ Hd). apply entries_ok, file_bytes_ok; apply Hd.
Qed.

(** A walk over the entries up to the first one that satisfies [p]. *)
Lemma walk_ok {A} s dp ip i es (p : list Z → bool) (found : list Z → Z → A) (none : list Z → Z → A)
    (body : Z * list Z → ST (fs D) (Z * list Z + A)) fuel e0 :
  dir_at s dp ip i es → entry_ok e0 → (length es < fuel)%nat →
  (∀ s1 k e, (k ≤ length es)%nat → entry_ok e → dir_at s1 dp ip i es →
     ∃ s2, body (20 * Z.of_nat k, e) s1 =
       Ok (match es !! k with
           | Some e => if p e then inr (found e (20 * Z.of_nat k)) else inl (20 * Z.of_nat (S k), e)
           | None => inr (none e (20 * Z.of_nat k))
           end, s2) ∧ same_fs s1 s2) →
  ∃ r s', loopM fuel body (0, e0) s = Ok (r, s') ∧ same_fs s s' ∧
    ((∃ k e, es !! k = Some e ∧ p e = true ∧ r = found e (20 * Z.of_nat k)) ∨
     (∃ e, entry_ok e ∧ (∀ e', e' ∈ es → p e' = false) ∧ r = none e (20 * Z.of_nat (length es)))).
Proof.
  intros Hd He0 Hf Hb.
  destruct (loopM_rule
    (λ n '(ofs, e) s1, ∃ k, (n + k = length es)%nat ∧ ofs = 20 * Z.of_nat k ∧ entry_ok e ∧ same_fs s s1 ∧
       ∀ e', e' ∈ take k es → p e' = false)
    (λ r s', same_fs s s' ∧
      ((∃ k e, es !! k = Some e ∧ p e = true ∧ r = found e (20 * Z.of_nat k)) ∨
       (∃ e, entry_ok e ∧ (∀ e', e' ∈ es → p e' = false) ∧ r = none e (20 * Z.of_nat (length es)))))
    body) with (fuel := fuel) (n := length es) (l := (0, e0)) (s := s) as (r & s' & E & H).
  - intros n [ofs e] s1 (k & Hnk & -> & He & Hs & Hno).
    destruct (Hb s1 k e) as (s2 & E & Hs2); [lia|done|by eapply same_fs_dir|].
    assert (same_fs s s2) as Hs12 by by eapply same_fs_trans.
    eexists _, s2. split; [exact E|]. destruct (es !! k) as [e1|] eqn:Hk.
    + destruct (p e1) eqn:Hp; [split; [done|]; left; by exists k, e1|].
      pose proof (lookup_lt_Some _ _ _ Hk). exists (n - 1)%nat. split; [lia|]. exists (S k).
      split_and!; [lia|done|by eapply entry_at_ok|done|].
      intros e' He'. rewrite (take_S_r _ _ _ Hk) in He'. apply elem_of_app in He' as [He'|He'%list_elem_of_singleton]; [by apply Hno|by subst].
    + apply lookup_ge_None_1 in Hk. assert (k = length es) as -> by lia. split; [done|]. right. exists e.
      split_and!; [done| |done]. intros e' He'. apply Hno. by rewrite firstn_all.
  - exists 0%nat. split_and!; [lia|done|done|by apply same_fs_refl, Hd|by intros ? ?%elem_of_nil].
  - done.
  - exists r, s'. tauto.
Qed.

Lemma dir_steps s dp ip i es :
  dir_at s dp ip i es → (∃ pos, get_dir dp s = Ok ((ip, pos), s)) ∧
    walk_fuel ip s = Ok (S (S (Z.to_nat (d_length (data i)))), s) ∧
    Z.of_nat (length es) = d_length (data i) / 20 ∧ 0 ≤ d_length (data i) < 2 ^ 31 - 512.
Proof.
  intros [Hb [pos Hd] Hi Hx Hm Hw He _]. pose proof (ex_length _ _ Hx). split_and!; try lia.
  - exists pos. unfold get_dir. by rewrite Hd.
  - unfold walk_fuel, inode_length. erewrite bind_ok by (by erewrite bind_ok by (by apply get_inode_ok)). done.
  - by rewrite <-He, length_entries, length_file_bytes by lia.
Qed.

Lemma lookup_ok s dp ip i es junk name :
  dir_at s dp ip i es → entry_ok junk →
  ∃ r s', lookup oom junk dp name s = Ok (r, s') ∧ same_fs s s' ∧
    match r with
    | Some (e, ofs) => ∃ k, es !! k = Some e ∧ ofs = 20 * Z.of_nat k ∧ in_use e = true ∧ e_name e = name
    | None => dir_map es !! name = None
    end.
Proof.
  intros Hd Hj. destruct (dir_steps _ _ _ _ _ Hd) as ([pos Eg] & Ew & Hl & Hr).
  unfold lookup. erewrite bind_ok by exact Eg. erewrite bind_ok by exact Ew. cbn [fst].
  destruct (walk_ok s dp ip i es (λ e, in_use e && bool_decide (name = e_name e)) (λ e ofs, Some (e, ofs)) (λ _ _, None)
    (λ '(ofs, e), r ← read_entry oom ip ofs e;
       let e := fst r in
       if snd r : bool then
         if in_use e && bool_decide (name = e_name e) then mret (inr (Some (e, ofs)))
         else mret (inl (u32 (ofs + entry_size), e))
       else mret (inr None)) (S (S (Z.to_nat (d_length (data i))))) junk) as (r & s' & E & Hs & H); [done|done|dlia| |].
  - intros s1 k e Hk He Hd1. destruct (read_entry_ok s1 dp ip i es k e) as (s2 & E & Hs); [done|apply He|done|].
    exists s2. split; [|done]. erewrite bind_ok by exact E. destruct (es !! k) as [e1|] eqn:Hk1; [|done]. cbn [fst snd].
    destruct (in_use e1 && bool_decide (name = e_name e1)); [done|].
    apply lookup_lt_Some in Hk1. unfold entry_size.
    replace (20 * Z.of_nat k + 20) with (20 * Z.of_nat (S k)) by lia. by rewrite u32_small by dlia.
  - exists r, s'. split_and!; [exact E|done|]. destruct H as [(k & e & Hk & Hp & ->)|(e & _ & Hn & ->)].
    + apply andb_true_iff in Hp as [Hu Hn%bool_decide_eq_true]. by exists k.
    + apply dir_map_None. intros e' He' Hu' <-. specialize (Hn e' He'). rewrite Hu' in Hn.
      simpl in Hn. by rewrite bool_decide_eq_true_2 in Hn.
Qed.

Lemma write_entry_ok s dp ip i es k e :
  dir_at s dp ip i es → entry_ok e → (k ≤ length es)%nat → NoDup (names (<[k := e]> es)) →
  ∃ s', inode_write_at oom ip e 20 (20 * Z.of_nat k) s =
      Ok (if decide (k < length es)%nat then 20 else 0, s') ∧
    dir_at s' dp ip i (<[k := e]> es) ∧ wrote_fs (data i) s s'.
Proof.
  intros Hd [Hle Hbe] Hk Hn. pose proof Hd as [Hb Hdp Hi Hx Hm Hw He _].
  destruct (dir_steps _ _ _ _ _ Hd) as (_ & _ & Hl & Hr).
  destruct (inode_write_at_ok oom s ip i e 20 (20 * Z.of_nat k)) as (n & b & a & E & Hwr & Hc); [done..|lia|lia|done|dlia|].
  rewrite Hw, memory_left in Hc. destruct Hc as [Hn0 [->|]]; [|done].
  pose proof (length_file_bytes (fs_device s) (data i) (proj1 Hr)) as Hlb.
  assert (available (data i) 20 (20 * Z.of_nat k) = if decide (k < length es)%nat then 20 else 0) as Ha.
  { unfold available. destruct (decide (k < length es)%nat); dlia. }
  rewrite Ha in *. exists (set_allocs a (set_device b s)). split; [exact E|].
  split; [|by eapply written_wrote].
  split; simpl; try done; [apply Hwr|by eapply written_extent|].
  rewrite (written_bytes _ _ _ _ _ _ (proj1 Hr) Hwr); [|lia|destruct (decide (k < length es)%nat); lia| |].
  - destruct (decide (k < length es)%nat) as [Hlt|Hge].
    + rewrite slice_all by lia. rewrite entries_overwrite by (lia || dlia). by rewrite He, Nat2Z.id.
    + rewrite list_insert_ge by lia. rewrite <-He. f_equal. unfold overwrite, slice. simpl.
      rewrite Nat.add_0_r. apply take_drop.
  - destruct (decide (k < length es)%nat); dlia.
  - destruct (decide (k < length es)%nat); lia.
Qed.

(** The search of [dir_add] for a slot: the first free one, or the end. *)
Lemma find_slot_ok s dp ip i es junk :
  dir_at s dp ip i es → entry_ok junk →
  ∃ k e s', loopM (S (S (Z.to_nat (d_length (data i))))) (λ '(ofs, e),
        r ← read_entry oom ip ofs e;
        let e := fst r in
        if snd r : bool then
          if negb (in_use e) then mret (inr (ofs, e)) else mret (inl (s32 (ofs + entry_size), e))
        else mret (inr (ofs, e))) (0, junk) s = Ok ((20 * Z.of_nat k, e), s') ∧
    same_fs s s' ∧ entry_ok e ∧
    (es !! k = Some e ∧ in_use e = false ∨ k = length es ∧ ∀ e', e' ∈ es → in_use e' = true).
Proof.
  intros Hd Hj. destruct (dir_steps _ _ _ _ _ Hd) as (_ & _ & Hl & Hr).
  destruct (walk_ok s dp ip i es (λ e, negb (in_use e)) (λ e ofs, (ofs, e)) (λ e ofs, (ofs, e))
    (λ '(ofs, e), r ← read_entry oom ip ofs e;
       let e := fst r in
       if snd r : bool then
         if negb (in_use e) then mret (inr (ofs, e)) else mret (inl (s32 (ofs + entry_size), e))
       else mret (inr (ofs, e))) (S (S (Z.to_nat (d_length (data i))))) junk) as (r & s' & E & Hs & H); [done|done|dlia| |].
  - intros s1 k e Hk He Hd1. destruct (read_entry_ok s1 dp ip i es k e) as (s2 & E & Hs); [done|apply He|done|].
    exists s2. split; [|done]. erewrite bind_ok by exact E. destruct (es !! k) as [e1|] eqn:Hk1; [|done]. cbn [fst snd].
    destruct (negb (in_use e1)); [done|]. apply lookup_lt_Some in Hk1. unfold entry_size.
    replace (20 * Z.of_nat k + 20) with (20 * Z.of_nat (S k)) by lia. by rewrite s32_small by dlia.
  - destruct H as [(k & e & Hk & Hp & ->)|(e & He & Hn & ->)].
    + exists k, e, s'. split_and!; [exact E|done| |left; split; [done|by apply negb_true_iff]].
      by eapply entry_at_ok.
    + exists (length es), e, s'. split_and!; [exact E|done|done|right]. split; [done|].
      intros e' He'. by apply negb_false_iff, Hn.
Qed.

(** The branches of [dir_add] on which the name is valid and not in use. *)
Lemma dir_add_fresh s dp ip i es junk2 name sec :
  dir_at s dp ip i es → entry_ok junk2 → name_ok name → (length name ≤ 14)%nat → 0 ≤ sec < 2 ^ 32 →
  dir_map es !! name = None →
  ∃ ok s' es', (d ← get_dir dp;
      fuel ← walk_fuel (fst d);
      r ← loopM fuel (λ '(ofs, e),
            r ← read_entry oom (fst d) ofs e;
            let e := fst r in
            if snd r : bool then
              if negb (in_use e) then mret (inr (ofs, e))
              else mret (inl (s32 (ofs + entry_size), e))
            else mret (inr (ofs, e))) (0, junk2);
      let e := set_inode_sector sec (set_name name (set_in_use true (snd r))) in
      n ← inode_write_at oom (fst d) e entry_size (fst r);
      mret (n =? entry_size)) s = Ok (ok, s') ∧
    dir_at s' dp ip i es' ∧ wrote_fs (data i) s s' ∧
    dir_map es' = (if ok : bool then <[name := sec]> (dir_map es) else dir_map es) ∧
    (ok = true ↔ ∃ e, e ∈ es ∧ in_use e = false).
Proof.
  intros Hd Hj Hn Hln Hsec Hfresh. destruct (dir_steps _ _ _ _ _ Hd) as ([pos Eg] & Ew & _).
  erewrite bind_ok by exact Eg. erewrite bind_ok by exact Ew. cbn [fst].
  destruct (find_slot_ok s dp ip i es junk2) as (k & e & s1 & E & Hs1 & He & Hk); [done..|].
  erewrite bind_ok by exact E. cbn [fst snd]. fold (new_entry name sec e). unfold entry_size.
  assert (dir_at s1 dp ip i es) as Hd1 by by eapply same_fs_dir.
  destruct Hk as [[Hk Hu]|[-> Hall]].
  - destruct (new_entry_fields name sec e) as (Hok & Hu' & Hn' & Hs'); [by eapply entry_at_ok|done..|].
    destruct (dir_map_insert es k e (new_entry name sec e)) as [Hnd Hm]; [apply Hd|done|done|done|by rewrite Hn'|].
    rewrite Hn', Hs' in Hm. pose proof (lookup_lt_Some _ _ _ Hk).
    destruct (write_entry_ok s1 dp ip i es k (new_entry name sec e)) as (s2 & E2 & Hd2 & Hw2); [done|done|lia|done|].
    rewrite decide_True in E2 by done. exists true, s2, (<[k := new_entry name sec e]> es).
    split_and!; [by erewrite bind_ok by exact E2|done|by eapply same_wrote|done|]. split; [|done].
    intros _. exists e. split; [by eapply list_elem_of_lookup_2|done].
  - destruct (new_entry_fields name sec e) as (Hok & _); [done..|].
    destruct (write_entry_ok s1 dp ip i es (length es) (new_entry name sec e)) as (s2 & E2 & Hd2 & Hw2);
      [done|done|lia|rewrite list_insert_ge by lia; apply Hd|].
    rewrite decide_False in E2 by lia. rewrite list_insert_ge in Hd2 by lia. exists false, s2, es.
    split_and!; [by erewrite bind_ok by exact E2|done|by eapply same_wrote|done|].
    split; [done|]. intros (e' & He' & Hu'). by rewrite Hall in Hu'.
Qed.

Definition has_free (es : list (list Z)) : Prop := ∃ e, e ∈ es ∧ in_use e = false.

Lemma dir_add_ok s dp ip i es junk junk2 name sec :
  dir_at s dp ip i es → entry_ok junk → entry_ok junk2 → name_ok name → 0 ≤ sec < 2 ^ 32 →
  ∃ ok s' es', dir_add oom junk junk2 dp name sec s = Ok (ok, s') ∧
    dir_at s' dp ip i es' ∧ wrote_fs (data i) s s' ∧
    dir_map es' = (if ok : bool then <[name := sec]> (dir_map es) else dir_map es) ∧
    (ok = true ↔ name ≠ [] ∧ (length name ≤ 14)%nat ∧ dir_map es !! name = None ∧ has_free es).
Proof.
  intros Hd Hj Hj2 Hn Hsec. unfold dir_add.
  assert (same_fs s s) as Hrefl by (apply same_fs_refl, Hd).
  destruct (decide (name = [] ∨ (14 < length name)%nat)) as [Hbad|Hgood].
  { assert (bool_decide (name = []) || (NAME_MAX <? Z.of_nat (length name)) = true) as ->.
    { apply orb_true_iff. unfold NAME_MAX. destruct Hbad; [left; by apply bool_decide_eq_true|right; apply Z.ltb_lt; lia]. }
    exists false, s, es. split_and!; [done|done|by apply same_fs_wrote|done|]. split; [done|]. intros (? & ? & _). destruct Hbad; [done|lia]. }
  assert (bool_decide (name = []) || (NAME_MAX <? Z.of_nat (length name)) = false) as ->.
  { apply orb_false_iff. unfold NAME_MAX. split; [by apply bool_decide_eq_false; tauto|apply Z.ltb_ge; lia]. }
  destruct (lookup_ok s dp ip i es junk name) as (r & s1 & E & Hs1 & Hr); [done..|].
  assert (dir_at s1 dp ip i es) as Hd1 by by eapply same_fs_dir.
  erewrite bind_ok by exact E. destruct r as [[e ofs]|].
  - destruct Hr as (k & Hk & _ & Hu & Hnm). exists false, s1, es.
    split_and!; [done|done|by apply same_fs_wrote|done|]. split; [done|]. intros (_ & _ & Hf & _).
    exfalso. rewrite dir_map_None in Hf. apply (Hf e); [by eapply list_elem_of_lookup_2|done|done].
  - destruct (dir_add_fresh s1 dp ip i es junk2 name sec) as (ok & s' & es' & E' & Hd' & Hw & Hm & Hok); [done..|lia|done|done|].
    exists ok, s', es'. split_and!; [exact E'|done|by eapply same_wrote|done|]. rewrite Hok. unfold has_free.
    split; [|tauto]. intros Hf. split_and!; [tauto|lia|done|done].
Qed.

(** ** Looking up and removing *)

(** A directory is not affected by what happens to other inodes and sectors. *)
Lemma dir_frame s s' dp ip i es :
  dir_at s dp ip i es → dirs s' = dirs s → inodes s' !! ip = Some i → block_ok (fs_device s') →
  size (fs_device s') = size (fs_device s) →
  (∀ j, 0 ≤ j < size (fs_device s) → d_start (data i) ≤ j < d_start (data i) + sector_cnt (data i) →
     sector_of (fs_device s') j = sector_of (fs_device s) j) →
  dir_at s' dp ip i es.
Proof.
  intros [H1 H2 H3 [X1 X2 X3 X4] H5 H6 H7 H8] Ed Ei Hb Hs Hsec.
  split; rewrite ?Ed; try done; [split; try done; by rewrite Hs|].
  rewrite <-H7. f_equal. unfold file_bytes. apply list_fmap_ext. intros m p Hp%lookup_seqZ. destruct Hp as [-> Hm].
  unfold disk_byte. rewrite Hsec; [done| |]; unfold sector_cnt in *; dlia.
Qed.

Lemma dir_lookup_ok s dp ip i es junk name :
  dir_at s dp ip i es → table_ok s → entry_ok junk →
  (∀ sec, dir_map es !! name = Some sec → 0 ≤ sec < size (fs_device s) ∧
     ∀ q t, opened s sec q t → open_cnt t < 2 ^ 31 - 1) →
  ∃ q s', dir_lookup oom junk dp name s = Ok (q, s') ∧
    match dir_map es !! name with
    | Some sec => ∃ s1, same_fs s s1 ∧ open_result oom s1 sec q s' ∧ q ≠ NULL ∧ table_ok s'
    | None => q = NULL ∧ same_fs s s'
    end.
Proof.
  intros Hd Ht Hj Hr. destruct (lookup_ok s dp ip i es junk name) as (r & s1 & E & Hs1 & Hl); [done..|].
  unfold dir_lookup. erewrite bind_ok by exact E. destruct r as [[e ofs]|].
  - destruct Hl as (k & Hk & -> & Hu & Hn).
    assert (dir_map es !! name = Some (inode_sector e)) as Em.
    { apply dir_map_lookup; [apply Hd|]. exists e. split_and!; [by eapply list_elem_of_lookup_2|done..]. }
    rewrite Em in *. destruct (Hr _ eq_refl) as [Hrange Hcnt].
    assert (table_ok s1) as Ht1. { destruct Hs1 as (b & a & -> & Ha & _). by eapply table_frame; [..|exact Ht]. }
    destruct Hs1 as (b & a & -> & Ha & Hsame).
    destruct (inode_open_ok oom (set_allocs a (set_device b s)) (inode_sector e)) as (q & s' & E2 & Ho);
      [done|apply Hsame|destruct Hsame as (_ & Hsz & _); simpl; lia|done|].
    exists q, s'. split; [done|]. exists (set_allocs a (set_device b s)). split_and!; [by exists b, a|done| |].
    + destruct Ho as [(t & [Ho _] & _)|[_ Ho]]; [apply (tb_addr _ Ht1) in Ho; unfold NULL; lia|].
      rewrite memory_left in Ho. destruct Ho as (_ & -> & _). unfold NULL. lia.
    + by eapply open_result_table.
  - rewrite Hl. by exists NULL, s1.
Qed.

(** Clearing the flag of an entry deletes its name from the map. *)
Lemma erase_ok s dp ip i es k e :
  dir_at s dp ip i es → es !! k = Some e → in_use e = true →
  ∃ s' es', inode_write_at oom ip (set_in_use false e) entry_size (20 * Z.of_nat k) s = Ok (20, s') ∧
    dir_at s' dp ip i es' ∧ wrote_fs (data i) s s' ∧ dir_map es' = delete (e_name e) (dir_map es).
Proof.
  intros Hd Hk Hu. destruct (erased_fields e) as [Hok Hf]; [by eapply entry_at_ok|].
  destruct (dir_map_erase es k e (set_in_use false e)) as [Hn Hm]; [apply Hd|done..|].
  pose proof (lookup_lt_Some _ _ _ Hk).
  destruct (write_entry_ok s dp ip i es k (set_in_use false e)) as (s' & E & Hd' & Hw); [done|done|lia|done|].
  rewrite decide_True in E by done. exists s', (<[k := set_in_use false e]> es). done.
Qed.

Definition mark_removed (t : inode) : inode := mk_inode (sector t) (open_cnt t) true (deny_write_cnt t) (data t).

(** The inode of a sector that is not in memory, as [inode_open] reads it. *)
Definition on_disk s (sec : Z) : inode := mk_inode sec 1 false 0 (decode_inode (sector_of (fs_device s) sec)).

(** What may be removed: a file with its own sectors, which is neither the
    directory nor the free map. *)
Record removable s (ip : Z) (i : inode) (f : file) (fi : inode) (sec : Z) : Prop := {
  rm_sector : 0 ≤ sec < size (fs_device s);
  rm_dir : sector i ≠ sec;
  rm_map : sector fi ≠ sec;
  rm_disjoint : d_start (data i) + sector_cnt (data i) ≤ d_start (data fi) ∨
    d_start (data fi) + sector_cnt (data fi) ≤ d_start (data i);
  rm_outside : ¬ d_start (data i) ≤ sec < d_start (data i) + sector_cnt (data i);
  rm_cnt q t : opened s sec q t → open_cnt t < 2 ^ 31 - 1;
  rm_alloc : (∀ q t, ¬ opened s sec q t) → allocated s (on_disk s sec)
}.

(** The effect on the table and the free map. *)
Definition removed_file s (sec : Z) s' : Prop :=
  open_inodes s' = open_inodes s ∧
  ((∃ q t, opened s sec q t ∧ inodes s' = <[q := mark_removed t]> (inodes s) ∧ free_map s' = free_map s) ∨
   ((∀ q t, ¬ opened s sec q t) ∧ inodes s' = inodes s ∧ released (on_disk s sec) (free_map s) (free_map s'))).

(** The state in which the inode [q] is marked as removed. *)
Definition mark_state (q : Z) (t : inode) s : fs D := set_inodes (<[q := mark_removed t]> (inodes s)) s.

(** From the opened inode to the end of [dir_remove], when it was open. *)
Lemma finish_open s dp ip i es q t :
  dir_at s dp ip i es → table_ok s → inodes s !! q = Some t → q ≠ ip → 1 < open_cnt t →
  ∃ s', (inode_remove q;; inode_close oom q;; mret true) s = Ok (true, s') ∧ dir_at s' dp ip i es ∧ table_ok s' ∧
    s' = set_inodes (<[q := set_cnt (open_cnt t - 1) (mark_removed t)]> (inodes s)) s.
Proof.
  intros Hd Ht Hq Hne Hc. pose proof (tb_cnt _ Ht _ _ Hq).
  assert (table_ok (mark_state q t s)) as Hm by (by apply (table_update s q t)).
  assert (inodes (mark_state q t s) !! q = Some (mark_removed t)) as Hq' by (simpl; by rewrite lookup_insert_eq).
  destruct (inode_close_ok oom (mark_state q t s) (mk_file 0 0 false) t q (mark_removed t)) as (s' & E & Hr);
    [done..|intros _; simpl; lia|].
  pose proof (close_result_table _ _ _ _ _ Hm Hq' Hr) as Ht'. unfold close_result in Hr. simpl in Hr.
  rewrite decide_True in Hr by done. rewrite insert_insert_eq in Hr. exists s'. split_and!; [|subst|done|done].
  - rewrite bind_ok with (a := tt) (s' := mark_state q t s).
    + by erewrite bind_ok by exact E.
    + unfold inode_remove. by erewrite bind_ok by (by apply get_inode_ok).
  - eapply dir_frame; [exact Hd|done|simpl; rewrite lookup_insert_ne by done; apply Hd|apply Hd|done|done].
Qed.

(** The same when [dir_remove] is the only opener: the sectors are released. *)
Lemma finish_last s dp ip i es q t f fi :
  dir_at s dp ip i es → table_ok s → inodes s !! q = Some t → q ≠ ip → open_cnt t = 1 →
  map_ok s f fi → q ≠ f_inode f → allocated s t →
  d_start (data i) + sector_cnt (data i) ≤ d_start (data fi) ∨ d_start (data fi) + sector_cnt (data fi) ≤ d_start (data i) →
  ∃ s', (inode_remove q;; inode_close oom q;; mret true) s = Ok (true, s') ∧ dir_at s' dp ip i es ∧ table_ok s' ∧
    inodes s' = delete q (inodes s) ∧ open_inodes s' = filter (λ p, p ≠ q) (open_inodes s) ∧
    released t (free_map s) (free_map s').
Proof.
  intros Hd Ht Hq Hne Hc Hmap Hqf Hal Hdis.
  assert (table_ok (mark_state q t s)) as Hm by (apply (table_update s q t); simpl; (done || lia)).
  assert (inodes (mark_state q t s) !! q = Some (mark_removed t)) as Hq' by (simpl; by rewrite lookup_insert_eq).
  destruct (inode_close_ok oom (mark_state q t s) f fi q (mark_removed t)) as (s' & E & Hr); [done..| |].
  { intros _ _. split_and!; [|done|done]. destruct Hmap. split; try done. simpl. by rewrite lookup_insert_ne. }
  pose proof (close_result_table _ _ _ _ _ Hm Hq' Hr) as Ht'. unfold close_result in Hr. cbn [open_cnt mark_removed] in Hr.
  rewrite decide_False in Hr by lia. cbn [removed] in Hr. destruct Hr as (b & Hrel & x & a & -> & Ha & Hb & Hs & Hsec).
  simpl in Hs, Hsec. eexists. split_and!; [| |exact Ht'|simpl; by rewrite delete_insert_eq|done|exact Hrel].
  - rewrite bind_ok with (a := tt) (s' := mark_state q t s).
    + by erewrite bind_ok by exact E.
    + unfold inode_remove. by erewrite bind_ok by (by apply get_inode_ok).
  - eapply dir_frame; [exact Hd|done| |done|done|].
    + simpl. rewrite delete_insert_eq, lookup_delete_ne by done. apply Hd.
    + intros j Hj Hin. simpl. apply Hsec; lia.
Qed.

(** Opening another inode leaves the directory alone. *)
Lemma open_dir s dp ip i es sec q s' :
  dir_at s dp ip i es → sector i ≠ sec → open_result oom s sec q s' → dir_at s' dp ip i es ∧ q ≠ ip.
Proof.
  intros Hd Hs [(t & [Hq Ht] & ->)|[_ H]].
  - assert (q ≠ ip) as Hne by (intros ->; pose proof (da_inode _ _ _ _ _ Hd); congruence). split; [|done].
    eapply dir_frame; [exact Hd|done|simpl; rewrite lookup_insert_ne by done; apply Hd|apply Hd|done|done].
  - rewrite memory_left in H. destruct H as (Hnone & _ & b & Hsame & ->).
    assert (q ≠ ip) as Hne by (intros ->; pose proof (da_inode _ _ _ _ _ Hd); congruence). split; [|done].
    destruct Hsame as (H1 & H2 & H3 & H4).
    eapply dir_frame; [exact Hd|done|simpl; rewrite lookup_insert_ne by done; apply Hd|done|done|]. intros j Hj _. by apply H4.
Qed.

Lemma wrote_table d s s' : wrote_fs d s s' → table_ok s → table_ok s' ∧ inodes s' = inodes s ∧ open_inodes s' = open_inodes s ∧ free_map s' = free_map s.
Proof. intros (b & a & -> & Ha & _) Ht. split_and!; [|done..]. by eapply table_frame; [..|exact Ht]. Qed.

Lemma same_opened s s' sec q t : same_fs s s' → opened s' sec q t ↔ opened s sec q t.
Proof. by intros (b & a & -> & _). Qed.

Lemma same_on_disk s s' sec : same_fs s s' → 0 ≤ sec < size (fs_device s) → on_disk s' sec = on_disk s sec.
Proof. intros (b & a & -> & _ & _ & _ & _ & H) Hs. unfold on_disk. simpl. by rewrite H. Qed.

(** [dir_remove] after the entry was found and its inode opened. *)
Lemma remove_rest s dp ip i es k e q s2 f fi :
  dir_at s dp ip i es → table_ok s → map_ok s f fi → removable s ip i f fi (inode_sector e) →
  es !! k = Some e → in_use e = true → open_result oom s (inode_sector e) q s2 →
  ∃ s' es', (d ← get_dir dp;
      n ← inode_write_at oom (fst d) (set_in_use false e) entry_size (20 * Z.of_nat k);
      if negb (n =? entry_size) then inode_close oom q;; mret false
      else inode_remove q;; inode_close oom q;; mret true) s2 = Ok (true, s') ∧
    dir_at s' dp ip i es' ∧ table_ok s' ∧ dir_map es' = delete (e_name e) (dir_map es) ∧
    removed_file s (inode_sector e) s'.
Proof.
  intros Hd Ht Hmap [R1 R2 R3 R4 R5 R6 R7] Hk Hu Ho.
  destruct (open_dir _ _ _ _ _ _ _ _ Hd R2 Ho) as [Hd2 Hne]. pose proof (open_result_table _ _ _ _ _ Ht R6 Ho) as Ht2.
  destruct (dir_steps _ _ _ _ _ Hd2) as ([pos Eg] & _).
  destruct (erase_ok s2 dp ip i es k e Hd2 Hk Hu) as (s3 & es' & Ew & Hd3 & Hw & Hm).
  destruct (wrote_table _ _ _ Hw Ht2) as (Ht3 & Ei3 & Eo3 & Ef3).
  erewrite bind_ok by exact Eg. cbn [fst]. erewrite bind_ok by exact Ew. change (negb (20 =? entry_size)) with false. cbv iota.
  destruct Ho as [(t & [Hq Hsec] & ->)|[Hno Ho]].
  - pose proof (tb_cnt _ Ht _ _ Hq). simpl in Ei3.
    destruct (finish_open s3 dp ip i es' q (set_cnt (open_cnt t + 1) t)) as (s' & E & Hd' & Ht' & ->);
      [done|done|by rewrite Ei3, lookup_insert_eq|done|simpl; lia|].
    eexists _, es'. split_and!; [exact E|done|done|done|]. split; [done|]. left. exists q, t. split_and!; [done| |done].
    simpl. rewrite Ei3, insert_insert_eq. unfold set_cnt, mark_removed. simpl. do 2 f_equal. lia.
  - rewrite memory_left in Ho. destruct Ho as (Hnone & Hq & b & Hsame & ->). fold (on_disk s (inode_sector e)) in Ei3. simpl in Ei3, Eo3, Ef3.
    destruct Hmap as [M1 M2 M3 M4 M5].
    assert (q ≠ f_inode f) as Hqf by (intros ->; congruence).
    destruct (finish_last s3 dp ip i es' q (on_disk s (inode_sector e)) f fi) as (s' & E & Hd' & Ht' & Ei & Eo & Hrel);
      [done|done|by rewrite Ei3, lookup_insert_eq|done|done| |done| |done|].
    { destruct Hw as (x & a & -> & Ha & Hx & Hsz & _). simpl in *. destruct Hsame as (_ & Hs' & _).
      split; simpl; try done; [by rewrite lookup_insert_ne|]. destruct M4 as [X1 X2 X3 X4]. split; try done; rewrite Hsz, Hs'; done. }
    { unfold allocated. rewrite Ef3. by apply R7. }
    exists s', es'. split_and!; [exact E|done|done|done|]. split.
    + rewrite Eo, Eo3. rewrite filter_cons_False by naive_solver. apply filter_ne. rewrite (tb_open _ Ht), Hnone. by intros [? ?].
    + right. split_and!; [done| |by rewrite <-Ef3]. rewrite Ei, Ei3. by apply delete_insert_id.
Qed.

Lemma dir_remove_ok s dp ip i es junk name f fi :
  dir_at s dp ip i es → table_ok s → map_ok s f fi → entry_ok junk →
  (∀ sec, dir_map es !! name = Some sec → removable s ip i f fi sec) →
  ∃ ok s' es', dir_remove oom junk dp name s = Ok (ok, s') ∧ dir_at s' dp ip i es' ∧ table_ok s' ∧
    dir_map es' = delete name (dir_map es) ∧
    match dir_map es !! name with
    | Some sec => ok = true ∧ removed_file s sec s'
    | None => ok = false ∧ same_fs s s'
    end.
Proof.
  intros Hd Ht Hmap Hj Hr. destruct (lookup_ok s dp ip i es junk name) as (r & s1 & E & Hs1 & Hl); [done..|].
  pose proof (same_fs_dir _ _ _ _ _ _ Hs1 Hd) as Hd1.
  destruct (wrote_table (data i) _ _ (same_fs_wrote _ _ _ Hs1) Ht) as (Ht1 & Ei1 & Eo1 & Ef1).
  unfold dir_remove. erewrite bind_ok by exact E. destruct r as [[e ofs]|].
  - destruct Hl as (k & Hk & -> & Hu & Hn).
    assert (dir_map es !! name = Some (inode_sector e)) as Em.
    { apply dir_map_lookup; [apply Hd|]. exists e. split_and!; [by eapply list_elem_of_lookup_2|done..]. }
    rewrite Em in *. pose proof (Hr _ eq_refl) as Hrm. pose proof Hrm as [R1 R2 R3 R4 R5 R6 R7].
    assert (removable s1 ip i f fi (inode_sector e)) as Hrm1.
    { split; [|done..| |].
      - by destruct Hs1 as (b & a & -> & _ & _ & Hsz & _); simpl; rewrite Hsz.
      - intros q t Hq. apply (R6 q t). by rewrite <-(same_opened _ _ _ _ _ Hs1).
      - intros Hno. unfold allocated. rewrite (same_on_disk _ _ _ Hs1 R1), Ef1. apply R7.
        intros q t. rewrite <-(same_opened _ _ _ _ _ Hs1). apply Hno. }
    destruct (inode_open_ok oom s1 (inode_sector e)) as (q & s2 & E2 & Ho); [done|apply Hd1|apply Hrm1|apply Hrm1|].
    erewrite bind_ok by exact E2.
    assert (q ≠ NULL) as Hq.
    { destruct Ho as [(t & [Hq _] & _)|[_ Ho]]; [apply (tb_addr _ Ht1) in Hq; unfold NULL; lia|].
      rewrite memory_left in Ho. destruct Ho as (_ & -> & _). unfold NULL. lia. }
    rewrite (proj2 (Z.eqb_neq _ _) Hq).
    destruct (remove_rest s1 dp ip i es k e q s2 f fi) as (s' & es' & E3 & Hd' & Ht' & Hm & Ho1 & Hf);
      [done|done|by eapply (wrote_map_ok _ _ _ _ (data i)); [|apply same_fs_wrote]|done..|].
    exists true, s', es'. split_and!; [exact E3|done|done|by rewrite Hm, Hn|done|].
    split; [congruence|]. rewrite Ei1, Ef1, (same_on_disk _ _ _ Hs1 R1) in Hf.
    destruct Hf as [(q' & t & Hq' & ?)|[Hno ?]]; [left; exists q', t|right].
    + by rewrite <-(same_opened _ _ _ _ _ Hs1).
    + split; [|done]. intros q' t. rewrite <-(same_opened _ _ _ _ _ Hs1). apply Hno.
  - rewrite Hl. exists false, s1, es. split_and!; [done..|by rewrite delete_id|done|done].
Qed.

(** ** Properties *)

(** [dir_add] is insertion into the map from names to inode sectors that
    the directory stands for.  It fails, without changing the map, exactly when
    the name is empty, longer than 14 characters or taken, or no entry is free;
    it writes to the sectors of the directory only, and keeps the names of the
    directory distinct.  [lookup] afterwards finds what the map holds. *)
Theorem dir_add_correct s dp ip i es junk junk2 name sec name2 :
  dir_at s dp ip i es → entry_ok junk → entry_ok junk2 → name_ok name → 0 ≤ sec < 2 ^ 32 →
  ∃ ok s' es', dir_add oom junk junk2 dp name sec s = Ok (ok, s') ∧
    dir_at s' dp ip i es' ∧ wrote_fs (data i) s s' ∧
    dir_map es' = (if ok : bool then <[name := sec]> (dir_map es) else dir_map es) ∧
    (ok = true ↔ name ≠ [] ∧ (length name ≤ 14)%nat ∧ dir_map es !! name = None ∧ has_free es) ∧
    ∃ r s2, lookup oom junk dp name2 s' = Ok (r, s2) ∧ same_fs s' s2 ∧
      inode_sector ∘ fst <$> r = dir_map es' !! name2.
Proof.
  intros Hd Hj Hj2 Hn Hsec. destruct (dir_add_ok s dp ip i es junk junk2 name sec) as (ok & s' & es' & E & Hd' & Hw & Hm & Hok); [done..|].
  exists ok, s', es'. split_and!; [done..|].
  destruct (lookup_ok s' dp ip i es' junk name2) as (r & s2 & E2 & Hs2 & Hr); [done..|].
  exists r, s2. split_and!; [done..|]. destruct r as [[e ofs]|]; [|by rewrite Hr].
  destruct Hr as (k & Hk & _ & Hu & Hnm). symmetry. apply dir_map_lookup; [apply Hd'|].
  exists e. split_and!; [by eapply list_elem_of_lookup_2|done..].
Qed.

(** [dir_remove] is deletion from that map.  It fails exactly when the name
    is not there.  A file that somebody has open stays open, marked as removed,
    and keeps its sectors; one that nobody has open gives back its inode sector
    and its data sectors, and no others. *)
Theorem dir_remove_correct s dp ip i es junk name f fi :
  dir_at s dp ip i es → table_ok s → map_ok s f fi → entry_ok junk →
  (∀ sec, dir_map es !! name = Some sec → removable s ip i f fi sec) →
  ∃ ok s' es', dir_remove oom junk dp name s = Ok (ok, s') ∧ dir_at s' dp ip i es' ∧ table_ok s' ∧
    dir_map es' = delete name (dir_map es) ∧
    match dir_map es !! name with
    | Some sec => ok = true ∧ removed_file s sec s'
    | None => ok = false ∧ same_fs s s'
    end.
Proof. apply dir_remove_ok. Qed.

End directory.

(** ** Witnesses *)

(** A disk with the free map in sector 2, a file in sectors 3 and 4, and a
    directory of two entries in sector 5 that names the file "a". *)
Definition demo_dir_inode : inode := mk_inode 1 1 false 0 (mk_inode_disk 5 40 INODE_MAGIC).
Definition demo_entry : list Z := [3; 0; 0; 0; 97] ++ repeat 0 14 ++ [1].
Definition demo_dir_fs : fs (list (list Z)) :=
  mk_fs (mk_block BLOCK_FILESYS 6 0 0
      [repeat 0 512; repeat 0 512; repeat 0 512; encode_inode (mk_inode_disk 4 100 INODE_MAGIC); repeat 0 512;
       demo_entry ++ repeat 0 492])
    {[16 := demo_dir_inode; 32 := demo_map_inode]} [16; 32] (mk_bitmap 6 [0x3f]) 48
    {[48 := mk_file 32 0 false]} {[64 := (16, 0)]} 4.
Definition demo_entries : list (list Z) := [demo_entry; repeat 0 20].

Lemma demo_dir_block : block_ok (fs_device demo_dir_fs).
Proof. split; [|simpl; lia|discriminate]. apply (bool_decide_unpack _). vm_compute. reflexivity. Qed.

Lemma demo_dir_inodes ip i :
  inodes demo_dir_fs !! ip = Some i → ip = 16 ∧ i = demo_dir_inode ∨ ip = 32 ∧ i = demo_map_inode.
Proof.
  change (inodes demo_dir_fs) with ({[16 := demo_dir_inode; 32 := demo_map_inode]} : gmap Z inode).
  rewrite lookup_insert_Some, lookup_singleton_Some. naive_solver.
Qed.

Lemma demo_dir_at : dir_at demo_dir_fs 64 16 demo_dir_inode demo_entries.
Proof.
  split.
  - apply demo_dir_block.
  - exists 0. reflexivity.
  - reflexivity.
  - split; [simpl; lia|simpl; lia|vm_compute; discriminate|vm_compute; reflexivity].
  - reflexivity.
  - reflexivity.
  - vm_compute. reflexivity.
  - apply (bool_decide_unpack _). vm_compute. reflexivity.
Qed.

Lemma demo_junk : entry_ok (repeat 7 20).
Proof. split; [reflexivity|]. apply (bool_decide_unpack _). vm_compute. reflexivity. Qed.

Lemma dir_add_correct_witness :
  ∃ s' es', dir_add always (repeat 7 20) (repeat 7 20) 64 [98] 9 demo_dir_fs = Ok (true, s') ∧
    dir_map es' = {[ [97] := 3; [98] := 9 ]} ∧
    ∃ r s2, lookup always (repeat 7 20) 64 [98] s' = Ok (r, s2) ∧ inode_sector ∘ fst <$> r = Some 9.
Proof.
  destruct (dir_add_correct always (λ _, eq_refl) demo_dir_fs 64 16 demo_dir_inode demo_entries (repeat 7 20) (repeat 7 20) [98] 9 [98])
    as (ok & s' & es' & E & _ & _ & Hm & Hok & r & s2 & E2 & _ & Hr).
  - apply demo_dir_at.
  - apply demo_junk.
  - apply demo_junk.
  - repeat constructor; lia.
  - lia.
  - assert (ok = true) as ->.
    { apply Hok. split_and!; [discriminate|simpl; lia|reflexivity|]. exists (repeat 0 20). split; [|reflexivity].
      right. left. }
    exists s', es'. split; [exact E|]. rewrite Hm in Hr |- *. split; [apply (bool_decide_unpack _); vm_compute; reflexivity|].
    exists r, s2. split; [exact E2|]. rewrite Hr. reflexivity.
Defined.

Lemma demo_removable : removable demo_dir_fs 16 demo_dir_inode (mk_file 32 0 false) demo_map_inode 3.
Proof.
  split; try (simpl; lia).
  - right. vm_compute. discriminate.
  - intros q t [Hq Hs]. apply demo_dir_inodes in Hq as [[_ ->]|[_ ->]]; discriminate Hs.
  - intros _. unfold allocated. change (data (on_disk demo_dir_fs 3)) with (decode_inode (encode_inode (mk_inode_disk 4 100 INODE_MAGIC))).
    change (decode_inode _) with (mk_inode_disk 4 100 INODE_MAGIC). change (sector_cnt _) with 1. simpl sector. simpl d_start. simpl d_length. simpl bit_cnt.
    split_and!; try lia.
    + intros j Hj. assert (j = 3) as -> by lia. reflexivity.
    + intros j Hj. assert (j = 4) as -> by lia. reflexivity.
Qed.

Lemma demo_dir_table :
  table_ok demo_dir_fs ∧ map_ok demo_dir_fs (mk_file 32 0 false) demo_map_inode.
Proof.
  split.
  - split.
    + intros ip. change (inodes demo_dir_fs) with ({[16 := demo_dir_inode; 32 := demo_map_inode]} : gmap Z inode).
      rewrite lookup_insert_is_Some', lookup_singleton_is_Some. simpl. rewrite elem_of_cons, list_elem_of_singleton. naive_solver.
    + apply (bool_decide_unpack _). reflexivity.
    + intros ip i [[-> ->]|[-> ->]]%demo_dir_inodes; simpl; lia.
    + intros ip i [[-> ->]|[-> ->]]%demo_dir_inodes; simpl; lia.
    + intros ip ip' i i' [[-> ->]|[-> ->]]%demo_dir_inodes [[-> ->]|[-> ->]]%demo_dir_inodes; simpl; congruence.
  - split.
    + split; [simpl; lia|reflexivity|]. repeat constructor; simpl; lia.
    + reflexivity.
    + reflexivity.
    + split; [simpl; lia|simpl; lia|vm_compute; discriminate|vm_compute; reflexivity].
    + apply demo_dir_block.
Qed.

Lemma dir_remove_correct_witness :
  ∃ s' es', dir_remove always (repeat 7 20) 64 [97] demo_dir_fs = Ok (true, s') ∧ dir_map es' = ∅ ∧
    removed_file demo_dir_fs 3 s'.
Proof.
  destruct (dir_remove_correct always (λ _, eq_refl) demo_dir_fs 64 16 demo_dir_inode demo_entries (repeat 7 20) [97]
    (mk_file 32 0 false) demo_map_inode) as (ok & s' & es' & E & _ & _ & Hm & Hr).
  - apply demo_dir_at.
  - apply demo_dir_table.
  - apply demo_dir_table.
  - apply demo_junk.
  - intros sec Hs. assert (sec = 3) as -> by (vm_compute in Hs; injection Hs as <-; reflexivity). apply demo_removable.
  - change (dir_map demo_entries !! [97]) with (Some 3) in Hr. destruct Hr as [-> Hr]. exists s', es'.
    split; [exact E|]. split; [|exact Hr]. rewrite Hm. apply (bool_decide_unpack _). vm_compute. reflexivity.
Defined.

(** ** A failed creation loses sectors *)

Definition blank_fs : fs (list (list Z)) :=
  mk_fs (mk_block BLOCK_FILESYS 20 0 0 (repeat (repeat 0 512) 20)) ∅ [] (mk_bitmap 0 []) NULL ∅ ∅ 0.

(** Creating a file of 600 bytes under a name that is taken. *)
Definition create_twice : ST (fs (list (list Z))) (bool * bitmap * bool * bitmap) :=
  filesys_init always (Some [0]) true;;
  a ← filesys_create always (repeat 7 20) (repeat 7 20) [97] 600;
  s ← get;
  b ← filesys_create always (repeat 7 20) (repeat 7 20) [97] 600;
  s' ← get;
  mret (a, free_map s, b, free_map s').

(** The second creation fails, but the two data sectors that [inode_create] had
    allocated stay marked in the free map. *)
Example filesys_create_leaks :
  match create_twice blank_fs with
  | Ok (a, m, b, m', _) =>
      a = true ∧ b = false ∧ bitmap_count m 0 20 true = Ok 7 ∧ bitmap_count m' 0 20 true = Ok 9
  | Err _ => False
  end.
Proof. vm_compute. repeat split. Qed.
