(* ===== verification/FsState.v ===== *)
(** * The state of the whole file system

    What the disk, the free map, the table of inodes and the open files of
    [Inode] and [Directory] have to do with each other.  The layout [M] gives
    the inodes that own sectors of the disk, by the sector in which they are
    stored; [N] is the map from names to inode sectors for which the root
    directory stands; [h] are the open files; [x] are the references to inodes
    that a running function holds. *)

From S2P Require Import Prelude Bytes Block Bitmap Inode InodeSpec InodeTable Directory DirSpec.

(** ** Counting open files *)

Definition count (P : file → Prop) `{∀ f, Decision (P f)} (h : gmap Z file) : Z :=
  Z.of_nat (base.size (filter (λ p : Z * file, P (snd p)) h)).

Section count.
Context (P : file → Prop) `{∀ f, Decision (P f)}.

Lemma count_lookup h fp f : h !! fp = Some f → count P h = count P (delete fp h) + (if decide (P f) then 1 else 0).
Proof.
  intros Hf. unfold count. rewrite map_filter_delete. destruct (decide (P f)) as [Hp|Hp].
  - rewrite map_size_delete_Some by (exists f; by apply map_lookup_filter_Some).
    assert (base.size (filter (λ p : Z * file, P (snd p)) h) ≠ 0%nat); [|lia].
    intros E%map_size_empty_inv. assert (filter (λ p : Z * file, P (snd p)) h !! fp = Some f) as Hl by (by apply map_lookup_filter_Some).
    rewrite E in Hl. done.
  - rewrite map_size_delete_None; [lia|]. apply map_lookup_filter_None. right. intros y Hy. by simplify_eq.
Qed.

Lemma count_insert h fp f : count P (<[fp := f]> h) = count P (delete fp h) + (if decide (P f) then 1 else 0).
Proof. rewrite (count_lookup (<[fp := f]> h) fp f) by apply lookup_insert_eq. by rewrite delete_insert_eq. Qed.

Lemma count_new h fp f : h !! fp = None → count P (<[fp := f]> h) = count P h + (if decide (P f) then 1 else 0).
Proof. intros Hf. by rewrite count_insert, delete_id. Qed.

Lemma count_update h fp f f' : h !! fp = Some f → (P f ↔ P f') → count P (<[fp := f']> h) = count P h.
Proof.
  intros Hf Hp. rewrite count_insert, (count_lookup h fp f Hf). by rewrite (decide_ext (P f) (P f') 1 0 Hp).
Qed.

Lemma count_none h : (∀ fp f, h !! fp = Some f → ¬ P f) → count P h = 0.
Proof.
  intros Hn. unfold count. rewrite map_empty_filter_2; [done|]. intros fp f Hf. by apply (Hn fp).
Qed.

Lemma count_bound h : 0 ≤ count P h ≤ Z.of_nat (base.size h).
Proof.
  unfold count. pose proof (map_subseteq_size (filter (λ p : Z * file, P (snd p)) h) h (map_filter_subseteq _ _)). lia.
Qed.

Lemma count_pos h fp f : h !! fp = Some f → P f → 0 < count P h.
Proof. intros Hf Hp. rewrite (count_lookup h fp f Hf), decide_True by done. pose proof (count_bound (delete fp h)). lia. Qed.

Lemma count_some h : count P h ≠ 0 → ∃ fp f, h !! fp = Some f ∧ P f.
Proof.
  intros Hc. destruct (map_choose (filter (λ p : Z * file, P (snd p)) h)) as (fp & f & Hf).
  { intros E. unfold count in Hc. by rewrite E in Hc. }
  apply map_lookup_filter_Some in Hf as [? ?]. by exists fp, f.
Qed.
End count.

(** The references to an inode, and the open files that keep it from being
    written. *)
Definition held (ip : Z) (x : list Z) : Z := Z.of_nat (length (filter (λ q, q = ip) x)).
Definition refs (x : list Z) (h : gmap Z file) (ip : Z) : Z := count (λ f, f_inode f = ip) h + held ip x.
Definition denied (h : gmap Z file) (ip : Z) : Z := count (λ f, f_inode f = ip ∧ deny_write f = true) h.

Lemma held_cons ip q x : held ip (q :: x) = held ip x + (if decide (q = ip) then 1 else 0).
Proof. unfold held. rewrite filter_cons. destruct (decide (q = ip)); simpl; lia. Qed.

Lemma refs_cons x h ip q : refs (q :: x) h ip = refs x h ip + (if decide (q = ip) then 1 else 0).
Proof. unfold refs. rewrite held_cons. lia. Qed.

Lemma refs_bound x h ip : 0 ≤ refs x h ip ≤ Z.of_nat (base.size h) + Z.of_nat (length x).
Proof.
  unfold refs, held. pose proof (count_bound (λ f, f_inode f = ip) h).
  pose proof (length_filter (λ q, q = ip) x). lia.
Qed.

(** ** The invariant *)

(** The sectors that an inode owns. *)
Definition foot (sec : Z) (d : inode_disk) (j : Z) : Prop := j = sec ∨ d_start d ≤ j < d_start d + sector_cnt d.

Section state.
Context {D : Type} `{BD : BlockDriver D}.
Implicit Types s : fs D.
Implicit Types M : gmap Z inode_disk.
Implicit Types N : gmap (list Z) Z.

(** Every inode is in its sector, no sector has two owners, and the free map
    knows the sectors that have one. *)
Record disk_ok (b : block D) (fm : bitmap) M : Prop := {
  dk_block : block_ok b;
  dk_wf : wf fm;
  dk_cnt : bit_cnt fm = size b;
  dk_sector sec d : M !! sec = Some d → 0 ≤ sec < size b ∧ decode_inode (sector_of b sec) = d;
  dk_extent sec d : M !! sec = Some d → extent_ok b d;
  dk_outside sec d : M !! sec = Some d → ¬ d_start d ≤ sec < d_start d + sector_cnt d;
  dk_disjoint sec d sec' d' j : M !! sec = Some d → M !! sec' = Some d' → foot sec d j → foot sec' d' j → sec = sec';
  dk_alloc sec d j : M !! sec = Some d → foot sec d j → bit fm j = true
}.

(** The root directory holds the names. *)
Definition root_ok (b : block D) M N : Prop :=
  ∃ rd, M !! ROOT_DIR_SECTOR = Some rd ∧ d_length rd mod 20 = 0 ∧
    NoDup (names (entries (file_bytes b rd))) ∧ dir_map (entries (file_bytes b rd)) = N.

(** The named inodes are files, and a file has one name. *)
Record names_ok M N : Prop := {
  nm_in name sec : N !! name = Some sec → is_Some (M !! sec) ∧ sec ≠ FREE_MAP_SECTOR ∧ sec ≠ ROOT_DIR_SECTOR;
  nm_inj name name' sec : N !! name = Some sec → N !! name' = Some sec → name = name'
}.

(** Reference counts, and what keeps an inode alive. *)
Record open_ok (x : list Z) (h : gmap Z file) s M N : Prop := {
  op_table : table_ok s;
  op_inode ip i : inodes s !! ip = Some i →
    M !! sector i = Some (data i) ∧ open_cnt i = refs x h ip ∧ deny_write_cnt i = denied h ip;
  op_removed ip i : inodes s !! ip = Some i → removed i = true →
    sector i ≠ FREE_MAP_SECTOR ∧ sector i ≠ ROOT_DIR_SECTOR ∧ ∀ name, N !! name ≠ Some (sector i);
  op_live sec d : M !! sec = Some d →
    sec = FREE_MAP_SECTOR ∨ sec = ROOT_DIR_SECTOR ∨ (∃ name, N !! name = Some sec) ∨
    ∃ ip i, opened s sec ip i ∧ removed i = true;
  op_file fp f : h !! fp = Some f →
    files s !! fp = Some f ∧ 0 < fp ≤ 16 * Z.of_nat (allocs s) ∧ 0 ≤ f_pos f < 2 ^ 31 ∧
    ∃ i, inodes s !! f_inode f = Some i ∧ sector i ≠ ROOT_DIR_SECTOR ∧ (sector i = FREE_MAP_SECTOR → fp = free_map_file s);
  op_map : ∃ f i, h !! free_map_file s = Some f ∧ deny_write f = false ∧ inodes s !! f_inode f = Some i ∧
    sector i = FREE_MAP_SECTOR ∧ byte_cnt (bit_cnt (free_map s)) ≤ d_length (data i);
  op_held ip : ip ∈ x → is_Some (inodes s !! ip)
}.

Record fs_ok (x : list Z) (h : gmap Z file) s M N : Prop := {
  ok_disk : disk_ok (fs_device s) (free_map s) M;
  ok_root : root_ok (fs_device s) M N;
  ok_names : names_ok M N;
  ok_open : open_ok x h s M N
}.

(** ** Frames *)

Lemma bytes_frame (b b' : block D) d :
  0 ≤ d_length d → (∀ j, d_start d ≤ j < d_start d + sector_cnt d → sector_of b' j = sector_of b j) →
  file_bytes b' d = file_bytes b d.
Proof.
  intros Hl Hs. unfold file_bytes. apply list_fmap_ext. intros k p [-> Hp]%lookup_seqZ. unfold disk_byte. rewrite Hs; [done|].
  unfold sector_cnt. dlia.
Qed.

Lemma extent_size (b b' : block D) d : size b' = size b → extent_ok b d → extent_ok b' d.
Proof. intros Hs [? ? ? ?]. split; by rewrite ?Hs. Qed.

(** The layout is in the sectors of the inodes. *)
Lemma disk_frame (b b' : block D) fm M :
  disk_ok b fm M → block_ok b' → size b' = size b → (∀ sec, is_Some (M !! sec) → sector_of b' sec = sector_of b sec) →
  disk_ok b' fm M.
Proof.
  intros [H1 H2 H3 H4 H5 H6 H7 H8] Hb Hs Hsec. split; try done.
  - congruence.
  - intros sec d Hd. rewrite Hs, Hsec by eauto. by apply H4.
  - intros sec d Hd. by eapply extent_size, H5.
Qed.

(** More sectors may be marked in the free map. *)
Lemma disk_map (b : block D) fm fm' M :
  disk_ok b fm M → wf fm' → bit_cnt fm' = bit_cnt fm →
  (∀ sec d j, M !! sec = Some d → foot sec d j → bit fm j = true → bit fm' j = true) → disk_ok b fm' M.
Proof.
  intros [H1 H2 H3 H4 H5 H6 H7 H8] Hw Hc Hb. split; try done; [congruence|]. intros sec d j Hd Hj. eauto.
Qed.

Lemma foot_range (b : block D) fm M sec d j : disk_ok b fm M → M !! sec = Some d → foot sec d j → 0 ≤ j < size b.
Proof.
  intros Hk Hd [->|Hj]; [by eapply dk_sector|]. destruct (dk_extent _ _ _ Hk _ _ Hd). lia.
Qed.

Lemma root_frame (b b' : block D) fm M N :
  disk_ok b fm M → root_ok b M N →
  (∀ d j, M !! ROOT_DIR_SECTOR = Some d → d_start d ≤ j < d_start d + sector_cnt d → sector_of b' j = sector_of b j) →
  root_ok b' M N.
Proof.
  intros Hk (rd & Hr & Hl & Hn & Hm) Hs. exists rd. pose proof (dk_extent _ _ _ Hk _ _ Hr) as Hx.
  rewrite (bytes_frame b b' rd); [done|apply Hx|]. intros j. by apply Hs.
Qed.

Lemma open_frame x h s s' M N :
  open_ok x h s M N → inodes s' = inodes s → open_inodes s' = open_inodes s → files s' = files s →
  free_map_file s' = free_map_file s → bit_cnt (free_map s') = bit_cnt (free_map s) → (allocs s ≤ allocs s')%nat →
  open_ok x h s' M N.
Proof.
  intros [H1 H2 H3 H4 H5 H6 H7] Ei Eo Ef Em Ec Ha. split; rewrite ?Ei, ?Em, ?Ec; try done.
  - by apply (table_frame s).
  - intros sec d Hd. unfold opened. rewrite Ei. by eapply H4.
  - intros fp f Hf. rewrite Ef. destruct (H5 fp f Hf) as (? & ? & ? & ?). split_and!; [done|lia|lia|lia|lia|done].
Qed.

Lemma same_fs_ok x h s s' M N : same_fs s s' → fs_ok x h s M N → fs_ok x h s' M N.
Proof.
  intros (b & a & -> & Ha & Hb & Hs & _ & Hc) [Hk Hr Hn Ho]. split; simpl.
  - apply (disk_frame (fs_device s)); try done. intros sec [d Hd]. apply Hc. by eapply dk_sector.
  - eapply (root_frame (fs_device s)); [done..|]. intros d j Hd Hj. apply Hc. eapply foot_range; [done..|by right].
  - done.
  - by apply (open_frame x h s).
Qed.

(** Sectors that nobody owns may be written. *)
Definition unowned M (j : Z) : Prop := ∀ sec d, M !! sec = Some d → ¬ foot sec d j.

Lemma unowned_write x h s b M N :
  fs_ok x h s M N → block_ok b → size b = size (fs_device s) →
  (∀ j, 0 ≤ j < size b → ¬ unowned M j → sector_of b j = sector_of (fs_device s) j) →
  fs_ok x h (set_device b s) M N ∧ (∀ sec d, M !! sec = Some d → file_bytes b d = file_bytes (fs_device s) d).
Proof.
  intros [Hk Hr Hn Ho] Hb Hs Hc.
  assert (∀ sec d j, M !! sec = Some d → foot sec d j → sector_of b j = sector_of (fs_device s) j) as Hf.
  { intros sec d j Hd Hj. apply Hc; [rewrite Hs; by eapply foot_range|]. intros Hu. by apply (Hu sec d). }
  split; [split; simpl; [|..|done|]|].
  - apply (disk_frame (fs_device s)); try done. intros sec [d Hd]. apply (Hf sec d); [done|by left].
  - eapply (root_frame (fs_device s)); [done..|]. intros d j Hd Hj. apply (Hf _ _ _ Hd). by right.
  - by apply (open_frame x h s).
  - intros sec d Hd. apply bytes_frame; [by eapply ex_length, dk_extent|]. intros j Hj. apply (Hf _ _ _ Hd). by right.
Qed.

(** ** The table of inodes *)

Section table.
Context (x : list Z) (h : gmap Z file).

(** Nothing refers to an address at which there is no inode. *)
Lemma refs_none s M N ip : open_ok x h s M N → inodes s !! ip = None → refs x h ip = 0 ∧ denied h ip = 0.
Proof.
  intros Ho Hi. assert (∀ fp f, h !! fp = Some f → f_inode f ≠ ip) as Hf.
  { intros fp f Hf E. destruct (op_file _ _ _ _ _ Ho _ _ Hf) as (_ & _ & _ & i & Hi' & _). congruence. }
  unfold refs, denied. rewrite !count_none; [|naive_solver..]. split; [|done]. unfold held.
  destruct (filter (λ q, q = ip) x) as [|q l] eqn:E; [done|].
  assert (q ∈ filter (λ q, q = ip) x) as [-> Hx]%list_elem_of_filter by (rewrite E; by left).
  apply (op_held _ _ _ _ _ Ho) in Hx as [? ?]. congruence.
Qed.

Lemma refs_opened s M N ip i : open_ok x h s M N → inodes s !! ip = Some i → 0 < refs x h ip.
Proof.
  intros Ho Hi. destruct (op_inode _ _ _ _ _ Ho _ _ Hi) as (_ & <- & _). by apply (tb_cnt _ (op_table _ _ _ _ _ Ho) _ _ Hi).
Qed.
End table.

(** Replacing an inode by one with the same identity. *)
Lemma opened_update s ip i i' sec q t :
  inodes s !! ip = Some i → sector i' = sector i → removed i' = removed i →
  opened s sec q t ∧ removed t = true →
  ∃ t', opened (set_inodes (<[ip := i']> (inodes s)) s) sec q t' ∧ removed t' = true.
Proof.
  intros Hi Hs Hr [[Hq <-] Ht]. unfold opened. simpl. destruct (decide (q = ip)) as [->|Hne].
  - exists i'. rewrite lookup_insert_eq. assert (t = i) as -> by congruence. by split_and!; congruence.
  - exists t. by rewrite lookup_insert_ne.
Qed.

Lemma open_update_files x h x' h' fl s ip i i' M N :
  open_ok x h s M N → inodes s !! ip = Some i →
  sector i' = sector i → removed i' = removed i → data i' = data i → 0 < open_cnt i' < 2 ^ 31 →
  open_cnt i' = refs x' h' ip → deny_write_cnt i' = denied h' ip →
  (∀ q, q ≠ ip → refs x' h' q = refs x h q ∧ denied h' q = denied h q) →
  (∀ q, q ∈ x' → q = ip ∨ q ∈ x) →
  (∀ fp f, h' !! fp = Some f → ∃ f0, h !! fp = Some f0 ∧ f_inode f0 = f_inode f ∧ 0 ≤ f_pos f < 2 ^ 31 ∧ fl !! fp = Some f) →
  (∀ f, h !! free_map_file s = Some f → deny_write f = false → ∃ f', h' !! free_map_file s = Some f' ∧ f_inode f' = f_inode f ∧ deny_write f' = false) →
  open_ok x' h' (set_files fl (set_inodes (<[ip := i']> (inodes s)) s)) M N.
Proof.
  intros [H1 H2 H3 H4 H5 H6 H7] Hi Es Er Ed Hc Ec Edw Hq Hx Hh Hm.
  assert (∀ q t, <[ip := i']> (inodes s) !! q = Some t → ∃ t0, inodes s !! q = Some t0 ∧ sector t = sector t0 ∧ removed t = removed t0 ∧ data t = data t0) as Hl.
  { intros q t [[<- <-]|[Hne Ht]]%lookup_insert_Some; [by exists i|by exists t]. }
  assert (∀ q t, inodes s !! q = Some t → ∃ t', <[ip := i']> (inodes s) !! q = Some t' ∧ sector t' = sector t ∧ data t' = data t) as Hl'.
  { intros q t Ht. destruct (decide (q = ip)) as [->|]; [exists i'; rewrite lookup_insert_eq; by assert (t = i) as -> by congruence|].
    exists t. by rewrite lookup_insert_ne. }
  split; simpl.
  - apply (table_frame (set_inodes (<[ip := i']> (inodes s)) s)); [done..|]. by apply (table_update s ip i).
  - intros q t [[<- <-]|[Hne Ht]]%lookup_insert_Some.
    + destruct (H2 _ _ Hi) as (? & _ & _). by rewrite Es, Ed.
    + destruct (Hq q) as [-> ->]; [done|]. by apply H2.
  - intros q t (t0 & Ht0 & -> & -> & _)%Hl. by apply (H3 q).
  - intros sec d [?|[?|[?|(q & t & Ht)]]]%H4; [auto..|]. do 3 right. exists q. by eapply (opened_update s ip i i' sec q t).
  - intros fp f Hf. destruct (Hh _ _ Hf) as (f0 & Hf0 & Ei & Hp & Hff). destruct (H5 _ _ Hf0) as (? & ? & ? & t & Ht & ? & ?).
    destruct (Hl' _ _ Ht) as (t' & Ht' & E1 & _). split_and!; [done|lia|lia|lia|lia|].
    exists t'. rewrite <-Ei, E1. auto.
  - destruct H6 as (f & t & Hf & Hdw & Ht & E0 & Hb). destruct (Hm f Hf Hdw) as (f' & Hf' & Ef & Hd').
    destruct (Hl' _ _ Ht) as (t' & Ht' & E1 & E2). exists f', t'. rewrite Ef, E1, E2. auto.
  - intros q [->|Hqx]%Hx; [by rewrite lookup_insert_eq|]. apply H7 in Hqx as [t Ht]. destruct (Hl' _ _ Ht) as (t' & -> & _). eauto.
Qed.

Lemma open_update x h x' s ip i i' M N :
  open_ok x h s M N → inodes s !! ip = Some i →
  sector i' = sector i → removed i' = removed i → data i' = data i → 0 < open_cnt i' < 2 ^ 31 →
  open_cnt i' = refs x' h ip → deny_write_cnt i' = denied h ip →
  (∀ q, q ≠ ip → refs x' h q = refs x h q) →
  (∀ q, q ∈ x' → q = ip ∨ q ∈ x) →
  open_ok x' h (set_inodes (<[ip := i']> (inodes s)) s) M N.
Proof.
  intros Ho Hi Es Er Ed Hc Ec Edw Hq Hx. apply (open_update_files x h x' h (files s) s ip i); try done.
  - intros q Hne. by rewrite Hq.
  - intros fp f Hf. destruct (op_file _ _ _ _ _ Ho _ _ Hf) as (? & _ & ? & _). exists f. auto.
  - intros f Hf Hdw. by exists f.
Qed.

(** The inodes of open files keep their numbers. *)
Definition same_handles (h : gmap Z file) s s' : Prop :=
  ∀ fp f i, h !! fp = Some f → inodes s !! f_inode f = Some i → ∃ i', inodes s' !! f_inode f = Some i' ∧ sector i' = sector i.

Lemma same_handles_refl h s s' : inodes s' = inodes s → same_handles h s s'.
Proof. intros E fp f i Hf Hi. rewrite E. eauto. Qed.

Lemma same_handles_trans h s1 s2 s3 : same_handles h s1 s2 → same_handles h s2 s3 → same_handles h s1 s3.
Proof.
  intros H1 H2 fp f i Hf Hi. destruct (H1 _ _ _ Hf Hi) as (i2 & Hi2 & E2). destruct (H2 _ _ _ Hf Hi2) as (i3 & Hi3 & E3).
  exists i3. split; congruence.
Qed.

Lemma same_handles_update h s ip i i' :
  inodes s !! ip = Some i → sector i' = sector i → same_handles h s (set_inodes (<[ip := i']> (inodes s)) s).
Proof.
  intros Hi Hs fp f t Hf Ht. simpl. destruct (decide (f_inode f = ip)) as [E|Hne].
  - exists i'. rewrite E in *. rewrite lookup_insert_eq. split; congruence.
  - exists t. by rewrite lookup_insert_ne.
Qed.

(** ** Opening an inode *)

Section calls.
Variable oom : nat → bool.
Hypothesis memory_left : ∀ n, oom n = false.

Lemma opened_cnt x h s M N sec ip i :
  open_ok x h s M N → Z.of_nat (base.size h) + Z.of_nat (length x) < 2 ^ 31 - 1 → opened s sec ip i → open_cnt i < 2 ^ 31 - 1.
Proof.
  intros Ho Hb [Hi _]. destruct (op_inode _ _ _ _ _ Ho _ _ Hi) as (_ & -> & _). pose proof (refs_bound x h ip). lia.
Qed.

(** An inode of the layout that is not in memory has a name or is special. *)
Lemma inode_enters x h s b ip sec d M N :
  fs_ok x h s M N → M !! sec = Some d → (∀ q i, ¬ opened s sec q i) → inodes s !! ip = None →
  same_disk (fs_device s) b → 0 < ip ≤ 16 * Z.of_nat (S (allocs s)) →
  let i := mk_inode sec 1 false 0 (decode_inode (sector_of (fs_device s) sec)) in
  let s' := set_inodes (<[ip := i]> (inodes s)) (set_open (ip :: open_inodes s) (set_allocs (S (allocs s)) (set_device b s))) in
  table_ok s' → data i = d ∧ fs_ok (ip :: x) h s' M N.
Proof.
  intros [Hk Hr Hn Ho] Hd Hno Hip Hsame Ha i s' Ht. destruct (dk_sector _ _ _ Hk _ _ Hd) as [Hsec Hdec].
  split; [done|]. destruct (refs_none x h s M N ip Ho Hip) as [Hrefs Hden].
  destruct (same_fs_ok x h s (set_allocs (S (allocs s)) (set_device b s)) M N) as [Hk' Hr' _ _];
    [exists b, (S (allocs s)); split_and!; [done|lia|done]|by split|].
  split; [done..|]. destruct Ho as [H1 H2 H3 H4 H5 H6 H7].
  assert (∀ q t, inodes s !! q = Some t → <[ip := i]> (inodes s) !! q = Some t) as Hl.
  { intros q t Hq. rewrite lookup_insert_ne; [done|]. intros <-. congruence. }
  split; simpl.
  - done.
  - intros q t [[<- <-]|[Hne Ht']]%lookup_insert_Some.
    + simpl. rewrite refs_cons, decide_True by done. rewrite Hdec, Hrefs, Hden. done.
    + rewrite refs_cons, decide_False, Z.add_0_r by done. by apply H2.
  - intros q t [[<- <-]|[Hne Ht']]%lookup_insert_Some; [done|by apply (H3 q)].
  - intros sec' d' [?|[?|[?|(q & t & [Ht1 Ht2] & ?)]]]%H4; [auto..|]. do 3 right. exists q, t. split; [split; [by apply Hl|done]|done].
  - intros fp f Hf. destruct (H5 _ _ Hf) as (? & ? & ? & t & Htf & ? & ?). split_and!; [done|lia|lia|lia|lia|].
    exists t. split; [by apply Hl|done].
  - destruct H6 as (f & t & Hf & Hdw & Htf & E0 & Hb). exists f, t. split_and!; try done. by apply Hl.
  - intros q [->|Hq]%elem_of_cons; [by rewrite lookup_insert_eq|]. apply H7 in Hq as [t Hq]. exists t. by apply Hl.
Qed.

Lemma inode_open_held x h s M N sec d :
  fs_ok x h s M N → M !! sec = Some d → Z.of_nat (base.size h) + Z.of_nat (length x) < 2 ^ 31 - 1 →
  ∃ ip s' i, inode_open oom sec s = Ok (ip, s') ∧ ip ≠ NULL ∧ fs_ok (ip :: x) h s' M N ∧
    inodes s' !! ip = Some i ∧ sector i = sec ∧ data i = d ∧
    files s' = files s ∧ dirs s' = dirs s ∧ free_map s' = free_map s ∧ free_map_file s' = free_map_file s ∧
    same_disk (fs_device s) (fs_device s') ∧ (∀ h', same_handles h' s s') ∧
    (∀ q t, q ≠ ip → inodes s !! q = Some t → inodes s' !! q = Some t).
Proof.
  intros Hok Hd Hb. pose proof Hok as [Hk Hr Hn Ho]. destruct (dk_sector _ _ _ Hk _ _ Hd) as [Hsec Hdec].
  assert (∀ ip i, opened s sec ip i → open_cnt i < 2 ^ 31 - 1) as Hcnt by (intros ip i; by apply (opened_cnt x h s M N)).
  destruct (inode_open_ok oom s sec) as (ip & s' & E & Hres); [apply Ho|apply Hk|done..|].
  pose proof (open_result_table _ _ _ _ _ (op_table _ _ _ _ _ Ho) Hcnt Hres) as Ht.
  destruct Hres as [(i & [Hi Hs] & ->)|[Hno Hnew]].
  - destruct (op_inode _ _ _ _ _ Ho _ _ Hi) as (Hd' & Hc & Hdn). rewrite Hs in Hd'.
    pose proof (tb_cnt _ (op_table _ _ _ _ _ Ho) _ _ Hi). pose proof (tb_addr _ (op_table _ _ _ _ _ Ho) _ _ Hi).
    specialize (Hcnt ip i (conj Hi Hs)).
    exists ip. do 2 eexists. split_and!; [exact E|unfold NULL; lia| |apply lookup_insert_eq|done|simpl; congruence|done..| | |].
    + split; [done..|]. apply (open_update x h (ip :: x) s ip i); try done.
      * simpl. lia.
      * simpl. rewrite refs_cons, decide_True by done. lia.
      * intros q Hq. by rewrite refs_cons, decide_False, Z.add_0_r.
      * intros q. by rewrite elem_of_cons.
    + split_and!; [apply Hk|done..].
    + intros h'. by apply (same_handles_update h' s ip i).
    + intros q t Hq Ht'. simpl. by rewrite lookup_insert_ne.
  - rewrite memory_left in Hnew. destruct Hnew as (Hip & Hval & b & Hsame & ->).
    destruct (inode_enters x h s b ip sec d M N) as [Hdata Hok']; [done..|lia|done|].
    exists ip. do 2 eexists. split_and!; [exact E|unfold NULL; lia|exact Hok'|apply lookup_insert_eq|done|done|done..| |].
    + intros h' fp f t Hf Hti. exists t. simpl. rewrite lookup_insert_ne; [done|]. congruence.
    + intros q t Hq Hti. simpl. by rewrite lookup_insert_ne.
Qed.

(** ** Writing the data of an inode *)

(** What a call keeps besides the invariant. *)
Definition kept s s' : Prop :=
  files s' = files s ∧ dirs s' = dirs s ∧ free_map_file s' = free_map_file s ∧ inodes s' = inodes s.

(** The contents of all inodes but one. *)
Definition same_bytes (sec0 : Z) M s s' : Prop :=
  ∀ sec d, M !! sec = Some d → sec ≠ sec0 → file_bytes (fs_device s') d = file_bytes (fs_device s) d.

Lemma data_written x h s s' sec0 d0 M N :
  fs_ok x h s M N → M !! sec0 = Some d0 → sec0 ≠ ROOT_DIR_SECTOR → wrote_fs d0 s s' →
  fs_ok x h s' M N ∧ same_bytes sec0 M s s'.
Proof.
  intros [Hk Hr Hn Ho] H0 H1 (b & a & -> & Ha & Hb & Hs & Hsec).
  assert (∀ sec d j, M !! sec = Some d → foot sec d j → sec ≠ sec0 ∨ j = sec → sector_of b j = sector_of (fs_device s) j) as Hf.
  { intros sec d j Hd Hj Hne. apply Hsec; [rewrite Hs; by eapply foot_range|].
    destruct (decide (d_start d0 ≤ j < d_start d0 + sector_cnt d0)) as [Hin|]; [|lia]. exfalso. destruct Hne as [Hne| ->].
    - apply Hne. eapply (dk_disjoint _ _ _ Hk); [exact Hd|exact H0|exact Hj|by right].
    - assert (sec = sec0) as -> by (eapply (dk_disjoint _ _ _ Hk); [exact Hd|exact H0|by left|by right]).
      by apply (dk_outside _ _ _ Hk _ _ H0). }
  split; [split; simpl; [|..|done|]|].
  - apply (disk_frame (fs_device s)); try done. intros sec [d Hd]. apply (Hf sec d); [done|by left|by right].
  - eapply (root_frame (fs_device s)); [done..|]. intros d j Hd Hj. apply (Hf _ _ _ Hd); [by right|]. left. by apply not_eq_sym.
  - by apply (open_frame x h s).
  - intros sec d Hd Hne. apply bytes_frame; [by eapply ex_length, dk_extent|]. intros j Hj. apply (Hf _ _ _ Hd); [by right|by left].
Qed.

Lemma map_of x h s M N : fs_ok x h s M N → ∃ f fi, map_ok s f fi ∧ M !! FREE_MAP_SECTOR = Some (data fi) ∧
  sector fi = FREE_MAP_SECTOR ∧ deny_write_cnt fi = 0 ∧ byte_cnt (bit_cnt (free_map s)) ≤ d_length (data fi) ∧ free_map_file s ≠ NULL.
Proof.
  intros [Hk Hr Hn Ho]. destruct (op_map _ _ _ _ _ Ho) as (f & fi & Hf & Hdw & Hi & Hs & Hb). exists f, fi.
  destruct (op_file _ _ _ _ _ Ho _ _ Hf) as (Hff & Ha & _). destruct (op_inode _ _ _ _ _ Ho _ _ Hi) as (Hd & _ & Hden). rewrite Hs in Hd.
  split_and!; try done.
  - split; [apply Hk|done|done|by eapply (dk_extent _ _ _ Hk)|apply Hk].
  - rewrite Hden. apply count_none. intros fp g Hg [Ei Hgd].
    destruct (op_file _ _ _ _ _ Ho _ _ Hg) as (_ & _ & _ & t & Ht & _ & Hz). rewrite Ei in Ht. simplify_eq.
    specialize (Hz Hs) as ->. congruence.
  - unfold NULL. lia.
Qed.

(** ** Closing an inode *)

(** The last reference is gone: the inode leaves the table, and the layout if
    its file was removed. *)
Lemma inode_leaves x h s ip i M N :
  open_ok (ip :: x) h s M N → inodes s !! ip = Some i → refs x h ip = 0 →
  open_ok x h (set_open (filter (λ q, q ≠ ip) (open_inodes s)) (set_inodes (delete ip (inodes s)) s))
    (if removed i then delete (sector i) M else M) N.
Proof.
  intros [H1 H2 H3 H4 H5 H6 H7] Hi H0.
  assert (∀ fp f, h !! fp = Some f → f_inode f ≠ ip) as Hnf.
  { intros fp f Hf E. pose proof (count_pos (λ f, f_inode f = ip) h fp f Hf E). unfold refs, held in H0. lia. }
  assert (ip ∉ x) as Hnx.
  { intros Hx. assert (ip ∈ filter (λ q, q = ip) x) as Hin by (by apply list_elem_of_filter). unfold refs, held in H0.
    pose proof (count_bound (λ f, f_inode f = ip) h). destruct (filter (λ q, q = ip) x); [by apply elem_of_nil in Hin|simpl in H0; lia]. }
  assert (∀ q t, q ≠ ip → inodes s !! q = Some t → delete ip (inodes s) !! q = Some t) as Hl by (intros; by rewrite lookup_delete_ne).
  assert (∀ q t, inodes s !! q = Some t → q ≠ ip → sector t ≠ sector i) as Hsec.
  { intros q t Hq Hne E. apply Hne. by eapply (tb_sector _ H1). }
  split; simpl.
  - by apply table_delete.
  - intros q t [Hne Hq]%lookup_delete_Some. destruct (H2 _ _ Hq) as (Hd & Hc & Hdn). rewrite refs_cons, decide_False, Z.add_0_r in Hc by done.
    split_and!; [|done|done]. destruct (removed i); [|done]. rewrite lookup_delete_ne; [done|]. by apply not_eq_sym, (Hsec q).
  - intros q t [Hne Hq]%lookup_delete_Some. by apply (H3 q).
  - intros sec d Hd. assert (M !! sec = Some d ∧ (removed i = true → sec ≠ sector i)) as [Hd' Hs].
    { destruct (removed i); [|done]. apply lookup_delete_Some in Hd as [? ?]. by split. }
    destruct (H4 _ _ Hd') as [?|[?|[?|(q & t & [Hq1 Hq2] & Hq3)]]]; [auto..|]. do 3 right. exists q, t. split; [|done].
    split; [|done]. apply Hl; [|done]. intros ->. simplify_eq. by apply Hs.
  - intros fp f Hf. destruct (H5 _ _ Hf) as (? & ? & ? & t & Htf & ? & ?). split_and!; [done|lia|lia|lia|lia|].
    exists t. split; [|done]. apply Hl; [by eapply Hnf|done].
  - destruct H6 as (f & t & Hf & Hdw & Htf & E0 & Hb). exists f, t. split_and!; try done. apply Hl; [by eapply Hnf|done].
  - intros q Hq. destruct (H7 q) as [t Ht]; [by right|]. exists t. apply Hl; [|done]. by intros ->.
Qed.

Lemma owned_allocated x h s M N i :
  fs_ok x h s M N → M !! sector i = Some (data i) → allocated s i.
Proof.
  intros [Hk _ _ _] Hd. pose proof (dk_extent _ _ _ Hk _ _ Hd) as [Hx1 Hx2 Hx3 Hx4]. destruct (dk_sector _ _ _ Hk _ _ Hd) as [Hs _].
  pose proof (dk_outside _ _ _ Hk _ _ Hd). unfold allocated. rewrite (dk_cnt _ _ _ Hk). split_and!; try lia.
  - intros j Hj. apply (dk_alloc _ _ _ Hk _ _ _ Hd). left. lia.
  - intros j Hj. apply (dk_alloc _ _ _ Hk _ _ _ Hd). right. lia.
Qed.

(** Giving the sectors of an inode back. *)
Lemma disk_release (b : block D) fm fm' M i :
  disk_ok b fm M → M !! sector i = Some (data i) → released i fm fm' → disk_ok b fm' (delete (sector i) M).
Proof.
  intros [H1 H2 H3 H4 H5 H6 H7 H8] Hi (Hw & Hc & Hb).
  assert (∀ sec d, delete (sector i) M !! sec = Some d → sec ≠ sector i ∧ M !! sec = Some d) as Hl.
  { intros sec d [? ?]%lookup_delete_Some. by split. }
  split; try done.
  - congruence.
  - intros sec d [_ Hd]%Hl. by apply H4.
  - intros sec d [_ Hd]%Hl. by eapply H5.
  - intros sec d [_ Hd]%Hl. by apply H6.
  - intros sec d sec' d' j [_ Hd]%Hl [_ Hd']%Hl. by eapply H7.
  - intros sec d j [Hne Hd]%Hl Hj. rewrite Hb.
    + rewrite decide_False; [by eapply H8|]. intros Hin. apply Hne. by eapply (H7 sec d (sector i) (data i) j).
    + rewrite H3. destruct Hj as [->|Hj]; [by eapply H4|]. destruct (H5 _ _ Hd). lia.
Qed.

(** What is left of the layout after a reference is dropped. *)
Definition after_close x h M ip (i : inode) : gmap Z inode_disk :=
  if removed i && (refs x h ip =? 0) then delete (sector i) M else M.

Lemma inode_close_held x h s M N ip i :
  fs_ok (ip :: x) h s M N → inodes s !! ip = Some i →
  ∃ s', inode_close oom ip s = Ok (tt, s') ∧ fs_ok x h s' (after_close x h M ip i) N ∧
    files s' = files s ∧ dirs s' = dirs s ∧ free_map_file s' = free_map_file s ∧ same_bytes FREE_MAP_SECTOR M s s' ∧
    same_handles h s s' ∧ (∀ q t, q ≠ ip → inodes s !! q = Some t → inodes s' !! q = Some t).
Proof.
  intros Hok Hi. pose proof Hok as [Hk Hr Hn Ho]. destruct (map_of _ _ _ _ _ Hok) as (f & fi & Hmap & H0 & Hfs & _ & _ & _).
  destruct (op_inode _ _ _ _ _ Ho _ _ Hi) as (Hd & Hc & Hden). rewrite refs_cons, decide_True in Hc by done.
  pose proof (tb_cnt _ (op_table _ _ _ _ _ Ho) _ _ Hi) as Hpos.
  destruct (inode_close_ok oom s f fi ip i) as (s' & E & Hres); [apply Ho|done| |].
  { intros Hrm _. split_and!; [done| |by eapply owned_allocated].
    intros ->. destruct Hmap as [_ _ Hi' _ _]. simplify_eq. by destruct (op_removed _ _ _ _ _ Ho _ _ Hi Hrm). }
  exists s'. split; [done|]. unfold close_result in Hres. unfold after_close. destruct (decide (1 < open_cnt i)) as [Hgt|Hle].
  - subst s'. rewrite (proj2 (Z.eqb_neq _ _)), andb_false_r by lia. split_and!; try done.
    + split; [done..|]. apply (open_update (ip :: x) h x s ip i); try done.
      * simpl. lia.
      * simpl. lia.
      * intros q Hq. by rewrite refs_cons, decide_False, Z.add_0_r.
      * intros q Hq. right. by right.
    + by apply (same_handles_update h s ip i).
    + intros q t Hq Ht. simpl. by rewrite lookup_insert_ne.
  - assert (refs x h ip = 0) as H00 by lia. rewrite (proj2 (Z.eqb_eq _ _) H00), andb_true_r.
    pose proof (inode_leaves x h s ip i M N Ho Hi H00) as Hleave. set (s1 := set_open _ _) in *.
    assert (∀ q t, q ≠ ip → inodes s !! q = Some t → inodes s1 !! q = Some t) as Hl by (intros; simpl; by rewrite lookup_delete_ne).
    assert (same_handles h s s1) as Hsh.
    { intros fp g t Hg Ht. exists t. split; [|done]. apply Hl; [|done]. intros E'.
      pose proof (count_pos (λ f, f_inode f = ip) h fp g Hg E'). unfold refs, held in H00. lia. }
    destruct (removed i) eqn:Erm; [|subst s'; by split_and!].
    destruct Hres as (b & Hrel & Hw). destruct (op_removed _ _ _ _ _ Ho _ _ Hi Erm) as (Hs0 & Hs1 & Hsn).
    assert (fs_ok x h (set_free_map b s1) (delete (sector i) M) N) as Hok1.
    { split.
      - by eapply disk_release.
      - destruct Hr as (rd & Hrd & Hrest). exists rd. by rewrite lookup_delete_ne.
      - destruct Hn as [Hn1 Hn2]. split; [|done]. intros name sec Hname. destruct (Hn1 _ _ Hname) as (? & ? & ?).
        rewrite lookup_delete_ne; [done|]. intros <-. by apply (Hsn name).
      - apply (open_frame x h s1); try done. simpl. apply Hrel. }
    destruct (data_written x h (set_free_map b s1) s' FREE_MAP_SECTOR (data fi) (delete (sector i) M) N Hok1) as [Hok2 Hby];
      [by rewrite lookup_delete_ne|done..|].
    destruct Hw as (b' & a & -> & _ & Hb' & Hsz & Hsec'). split_and!; try done.
    intros sec d Hd' Hne. destruct (decide (sec = sector i)) as [->|Hns]; [|apply (Hby sec); [by rewrite lookup_delete_ne|done]].
    apply bytes_frame; [by eapply ex_length, dk_extent|]. intros j Hj. simpl. apply Hsec'.
    + rewrite Hsz. eapply foot_range; [done..|by right].
    + destruct (decide (d_start (data fi) ≤ j < d_start (data fi) + sector_cnt (data fi))); [|lia]. exfalso. apply Hs0.
      eapply (dk_disjoint _ _ _ Hk); [exact Hd'|exact H0|by right|by right].
Qed.

End calls.
End state.
