(* ===== verification/FsCalls.v ===== *)
(** * The calls of the file system keep its state together

    Every call of filesys/file.c, free-map.c and inode.c on a file system that
    satisfies the invariant of [FsState]: what it returns, and the layout and
    the contents of the files that it leaves. *)

From S2P Require Import Prelude Bytes Block Bitmap Inode InodeSpec InodeTable Directory DirSpec FsState.

Section calls.
Context {D : Type} `{BD : BlockDriver D}.
Variable oom : nat → bool.
Hypothesis memory_left : ∀ n, oom n = false.
Implicit Types s : fs D.
Implicit Types M : gmap Z inode_disk.
Implicit Types N : gmap (list Z) Z.

(** ** Files *)

Lemma fs_malloc_ok s : malloc oom s = Ok (16 * (Z.of_nat (allocs s) + 1), set_allocs (S (allocs s)) s).
Proof. unfold malloc. erewrite bind_ok by apply get_ok. erewrite bind_ok by done. by rewrite memory_left. Qed.

(** A reference becomes a new open file. *)
Lemma file_open_held x h s M N ip i :
  fs_ok (ip :: x) h s M N → ip ≠ NULL → inodes s !! ip = Some i →
  sector i ≠ FREE_MAP_SECTOR → sector i ≠ ROOT_DIR_SECTOR →
  ∃ fp s', file_open oom ip s = Ok (fp, s') ∧ fp ≠ NULL ∧ h !! fp = None ∧ fs_ok x (<[fp := mk_file ip 0 false]> h) s' M N ∧
    inodes s' = inodes s ∧ fs_device s' = fs_device s ∧ free_map_file s' = free_map_file s ∧ free_map s' = free_map s.
Proof.
  intros [Hk Hr Hn Ho] Hip Hi Hs0 Hs1. set (fp := 16 * (Z.of_nat (allocs s) + 1)).
  assert (h !! fp = None) as Hnew.
  { destruct (h !! fp) as [f|] eqn:E; [|done]. apply (op_file _ _ _ _ _ Ho) in E as (_ & Ha & _). unfold fp in *. lia. }
  exists fp. eexists. split_and!.
  - unfold file_open. erewrite bind_ok by apply fs_malloc_ok. fold fp. rewrite !(proj2 (Z.eqb_neq _ NULL)) by (done || unfold fp, NULL; lia).
    done.
  - unfold fp, NULL. lia.
  - done.
  - split; [done..|]. destruct Ho as [H1 H2 H3 H4 H5 H6 H7].
    assert (∀ P `{∀ f, Decision (P f)}, count P (<[fp := mk_file ip 0 false]> h) = count P h + (if decide (P (mk_file ip 0 false)) then 1 else 0))
      as Hcount by (intros; by apply count_new).
    split; simpl.
    + by apply (table_frame s); [..|simpl; lia|].
    + intros q t Hq. destruct (H2 _ _ Hq) as (? & Hc & Hd). rewrite refs_cons in Hc. unfold refs, denied in *.
      rewrite !Hcount. simpl. rewrite Hc, Hd. rewrite (decide_False (P := _ ∧ _)) by naive_solver. split_and!; [done|lia|lia].
    + done.
    + done.
    + intros fp' f [[<- <-]|[Hne Hf]]%lookup_insert_Some.
      * rewrite lookup_insert_eq. unfold fp at 1 3. split_and!; [done|lia|lia|simpl; lia|simpl; lia|]. exists i. done.
      * rewrite lookup_insert_ne by done. destruct (H5 _ _ Hf) as (? & ? & ? & ?). split_and!; [done|lia|lia|lia|lia|done].
    + destruct H6 as (f & t & Hf & Hrest). exists f, t. split; [|done]. rewrite lookup_insert_ne; [done|]. congruence.
    + intros q Hq. apply H7. by right.
  - done.
  - done.
  - done.
  - done.
Qed.

(** A new position, or the flag that keeps others from writing. *)
Lemma file_moved x h s M N fp f p :
  fs_ok x h s M N → h !! fp = Some f → 0 ≤ p < 2 ^ 31 →
  let f' := mk_file (f_inode f) p (deny_write f) in
  fs_ok x (<[fp := f']> h) (set_files (<[fp := f']> (files s)) s) M N.
Proof.
  intros [Hk Hr Hn Ho] Hf Hp f'. split; [done..|]. destruct Ho as [H1 H2 H3 H4 H5 H6 H7]. split; simpl; try done.
  - by apply (table_frame s).
  - intros q t Hq. unfold refs, denied. rewrite !(count_update _ h fp f f') by done. by apply H2.
  - intros fp' g [[<- <-]|[Hne Hg]]%lookup_insert_Some.
    + destruct (H5 _ _ Hf) as (? & ? & ? & ?). rewrite lookup_insert_eq. simpl. split_and!; [done|lia|lia|lia|lia|done].
    + rewrite lookup_insert_ne by done. by apply H5.
  - destruct H6 as (g & t & Hg & Hdw & Hrest). destruct (decide (fp = free_map_file s)) as [E|Hne].
    + rewrite <-E in *. assert (g = f) as -> by congruence. exists f', t. rewrite lookup_insert_eq. split; [done|]. by split.
    + exists g, t. by rewrite lookup_insert_ne.
Qed.

(** An open file stands for its reference. *)
Lemma handle_held x h s M N fp f :
  fs_ok x h s M N → h !! fp = Some f → fp ≠ free_map_file s → deny_write f = false → fs_ok (f_inode f :: x) (delete fp h) s M N.
Proof.
  intros [Hk Hr Hn Ho] Hf Hne Hdw. split; [done..|]. destruct Ho as [H1 H2 H3 H4 H5 H6 H7]. split; try done.
  - intros q t Hq. destruct (H2 _ _ Hq) as (? & Hc & Hd). rewrite refs_cons. unfold refs, denied in *.
    rewrite (count_lookup _ h fp f Hf) in Hc. rewrite (count_lookup _ h fp f Hf) in Hd.
    destruct (decide (f_inode f = q ∧ deny_write f = true)) as [[_ ?]|_]; [congruence|]. split_and!; [done|lia|lia].
  - intros fp' g [_ Hg]%lookup_delete_Some. by apply H5.
  - destruct H6 as (g & t & Hg & Hrest). exists g, t. by rewrite lookup_delete_ne.
  - intros q [->|Hq]%elem_of_cons; [|by apply H7]. destruct (H5 _ _ Hf) as (_ & _ & _ & t & Ht & _). eauto.
Qed.

(** ** Reading and writing *)

Lemma handle_inode x h s M N fp f :
  fs_ok x h s M N → h !! fp = Some f →
  get_file fp s = Ok (f, s) ∧ 0 ≤ f_pos f < 2 ^ 31 ∧
  ∃ i, inodes s !! f_inode f = Some i ∧ M !! sector i = Some (data i) ∧ extent_ok (fs_device s) (data i) ∧
    deny_write_cnt i = denied h (f_inode f).
Proof.
  intros [Hk _ _ Ho] Hf. destruct (op_file _ _ _ _ _ Ho _ _ Hf) as (Hff & _ & Hp & i & Hi & _).
  destruct (op_inode _ _ _ _ _ Ho _ _ Hi) as (Hd & _ & Hden). split; [unfold get_file; by rewrite Hff|]. split; [done|].
  exists i. split_and!; [done|done|by eapply (dk_extent _ _ _ Hk)|done].
Qed.

Lemma file_read_handle x h s M N fp f i n :
  fs_ok x h s M N → h !! fp = Some f → inodes s !! f_inode f = Some i → 0 ≤ n < 2 ^ 31 →
  let bs := slice (f_pos f) n (file_bytes (fs_device s) (data i)) in
  let f' := mk_file (f_inode f) (f_pos f + Z.of_nat (length bs)) (deny_write f) in
  ∃ s', file_read oom fp n s = Ok (bs, s') ∧ fs_ok x (<[fp := f']> h) s' M N ∧
    inodes s' = inodes s ∧ free_map_file s' = free_map_file s ∧ same_disk (fs_device s) (fs_device s').
Proof.
  intros Hok Hf Hi Hn bs f'. destruct (handle_inode x h s M N fp f Hok Hf) as (Eg & Hp & i' & Hi' & Hd & Hx & _). simplify_eq.
  destruct (inode_read_at_ok oom s (f_inode f) i n (f_pos f)) as (k & b & a & E & Hsd & Hk & Hfull); [apply Hok|done..|].
  assert (k = available (data i) n (f_pos f)) as -> by (destruct Hfull as [?|Hoom]; [done|by rewrite memory_left in Hoom]).
  pose proof (ex_length _ _ Hx) as Hdl. pose proof (length_file_bytes (fs_device s) (data i) ltac:(lia)) as Hlen.
  assert (slice (f_pos f) (available (data i) n (f_pos f)) (file_bytes (fs_device s) (data i)) = bs) as Ebs.
  { unfold bs, slice, available. destruct (decide (n ≤ d_length (data i) - f_pos f)) as [Hle|Hgt].
    - do 2 f_equal. lia.
    - rewrite !take_ge; [done|rewrite length_drop; lia..]. }
  rewrite Ebs in E. set (s1 := set_allocs a (set_device b s)) in *.
  assert (fs_ok x h s1 M N) as Hok1 by (eapply same_fs_ok; [by eapply read_same_fs|done]).
  assert (0 ≤ f_pos f + Z.of_nat (length bs) < 2 ^ 31) as Hp'.
  { unfold bs, slice. rewrite length_take, length_drop. lia. }
  destruct (handle_inode x h s1 M N fp f Hok1 Hf) as (Eg1 & _).
  eexists. split_and!; [|apply (file_moved x h s1 M N fp f _ Hok1 Hf Hp')|done..].
  unfold file_read. erewrite bind_ok by exact Eg. erewrite bind_ok by exact E. erewrite bind_ok by exact Eg1.
  rewrite s32_small by lia. done.
Qed.

(** The number of bytes that a write transfers: none while writing is denied,
    and never more than the file has room for. *)
Definition transferred (h : gmap Z file) (f : file) (len n : Z) : Z :=
  if denied h (f_inode f) =? 0 then Z.max 0 (Z.min n (len - f_pos f)) else 0.

Lemma file_write_handle x h s M N fp f i buf n :
  fs_ok x h s M N → h !! fp = Some f → inodes s !! f_inode f = Some i → fp ≠ free_map_file s →
  0 ≤ n < 2 ^ 31 → n ≤ Z.of_nat (length buf) → Forall byte_ok buf →
  let old := file_bytes (fs_device s) (data i) in
  let k := transferred h f (Z.of_nat (length old)) n in
  let f' := mk_file (f_inode f) (f_pos f + k) (deny_write f) in
  ∃ s', file_write oom fp buf n s = Ok (k, s') ∧ fs_ok x (<[fp := f']> h) s' M N ∧
    inodes s' = inodes s ∧ free_map_file s' = free_map_file s ∧ same_bytes (sector i) M s s' ∧
    file_bytes (fs_device s') (data i) = overwrite (f_pos f) (slice 0 k buf) old.
Proof.
  intros Hok Hf Hi Hfp Hn Hbuf Hby old k f'. destruct (handle_inode x h s M N fp f Hok Hf) as (Eg & Hp & i' & Hi' & Hd & Hx & Hden). simplify_eq.
  destruct (op_file _ _ _ _ _ (ok_open _ _ _ _ _ Hok) _ _ Hf) as (_ & _ & _ & i' & Hi'' & Hs1 & _). simplify_eq.
  destruct (inode_write_at_ok oom s (f_inode f) i buf n (f_pos f)) as (k' & b & a & E & Hw & Hk); [apply Hok|done..|].
  pose proof (ex_length _ _ Hx) as Hdl. pose proof (length_file_bytes (fs_device s) (data i) ltac:(lia)) as Hlen. fold old in Hlen.
  assert (k' = k) as ->.
  { unfold k, transferred. rewrite <-Hden, Hlen. destruct (deny_write_cnt i =? 0); [|done].
    destruct Hk as [_ [->|Hoom]]; [done|by rewrite memory_left in Hoom]. }
  assert (0 ≤ k ≤ n ∧ (k = 0 ∨ f_pos f + k ≤ d_length (data i))) as [Hkn Hkd] by (unfold k, transferred; rewrite Hlen; destruct (denied h (f_inode f) =? 0); split; lia).
  pose proof (written_wrote oom s _ _ _ _ _ _ _ _ E Hw) as Hwf.
  destruct (data_written x h s _ _ _ M N Hok Hd Hs1 Hwf) as [Hok1 Hsame]. set (s1 := set_allocs a (set_device b s)) in *.
  destruct (handle_inode x h s1 M N fp f Hok1 Hf) as (Eg1 & _). assert (0 ≤ f_pos f + k < 2 ^ 31) as Hp' by lia.
  eexists. split_and!; [|apply (file_moved x h s1 M N fp f _ Hok1 Hf Hp')|done|done|done|].
  - unfold file_write. erewrite bind_ok by exact Eg. erewrite bind_ok by exact E. erewrite bind_ok by exact Eg1.
    rewrite s32_small by lia. done.
  - simpl. apply written_bytes; [lia|done|lia|lia|lia|lia].
Qed.

(** ** Denying and allowing writes, closing *)

Lemma denied_refs h ip x : denied h ip ≤ refs x h ip.
Proof.
  unfold denied, refs, count, held.
  assert (filter (λ p : Z * file, f_inode p.2 = ip ∧ deny_write p.2 = true) h ⊆ filter (λ p : Z * file, f_inode p.2 = ip) h) as H;
    [|apply map_subseteq_size in H; lia].
  apply map_subseteq_spec. intros fp f. rewrite !map_lookup_filter_Some. naive_solver.
Qed.

(** The flag of an open file changes, and the count of its inode with it. *)
Definition denies (f : file) (b : bool) : file := mk_file (f_inode f) (f_pos f) b.
Definition set_deny (n : Z) (i : inode) : inode := mk_inode (sector i) (open_cnt i) (removed i) n (data i).

Lemma flag_set x h s M N fp f i b :
  fs_ok x h s M N → h !! fp = Some f → fp ≠ free_map_file s → inodes s !! f_inode f = Some i → deny_write f = negb b →
  let n := deny_write_cnt i + (if b then 1 else -1) in
  0 ≤ n ≤ open_cnt i ∧ deny_write_cnt i ≤ open_cnt i < 2 ^ 31 ∧
  fs_ok x (<[fp := denies f b]> h)
    (set_files (<[fp := denies f b]> (files s)) (set_inodes (<[f_inode f := set_deny n i]> (inodes s)) s)) M N.
Proof.
  intros [Hk Hr Hn Ho] Hf Hfp Hi Hb n. destruct (op_inode _ _ _ _ _ Ho _ _ Hi) as (_ & Hc & Hd).
  pose proof (tb_cnt _ (op_table _ _ _ _ _ Ho) _ _ Hi) as Hpos.
  assert (n = denied (<[fp := denies f b]> h) (f_inode f)) as En.
  { unfold n. rewrite Hd. unfold denied. rewrite count_insert, (count_lookup _ h fp f Hf). simpl. rewrite Hb. destruct b; simpl.
    - rewrite (decide_False (P := _ ∧ false = true)), (decide_True (P := _ ∧ true = true)) by naive_solver. lia.
    - rewrite (decide_False (P := _ ∧ false = true)), (decide_True (P := _ ∧ true = true)) by naive_solver. lia. }
  assert (∀ q, refs x (<[fp := denies f b]> h) q = refs x h q) as Hrefs.
  { intros q. unfold refs. by rewrite (count_update _ h fp f). }
  pose proof (denied_refs h (f_inode f) x). pose proof (denied_refs (<[fp := denies f b]> h) (f_inode f) x) as H'. rewrite Hrefs in H'.
  pose proof (count_bound (λ g, f_inode g = f_inode f ∧ deny_write g = true) (<[fp := denies f b]> h)) as Hcb. fold (denied (<[fp := denies f b]> h) (f_inode f)) in Hcb.
  split; [lia|]. split; [lia|]. split; [done..|]. apply (open_update_files x h x _ _ s (f_inode f) i); try done.
  - by rewrite Hrefs.
  - intros q Hq. rewrite Hrefs. split; [done|]. unfold denied. apply (count_update _ h fp f); [done|]. simpl. naive_solver.
  - auto.
  - intros fp' g [[<- <-]|[Hne Hg]]%lookup_insert_Some.
    + exists f. rewrite lookup_insert_eq. destruct (op_file _ _ _ _ _ Ho _ _ Hf) as (_ & _ & ? & _). done.
    + exists g. rewrite lookup_insert_ne by done. destruct (op_file _ _ _ _ _ Ho _ _ Hg) as (? & _ & ? & _). done.
  - intros g Hg Hdw. exists g. by rewrite lookup_insert_ne.
Qed.

Lemma file_allow_write_handle x h s M N fp f i :
  fs_ok x h s M N → h !! fp = Some f → fp ≠ free_map_file s → inodes s !! f_inode f = Some i →
  ∃ s' i', file_allow_write fp s = Ok (tt, s') ∧ fs_ok x (<[fp := denies f false]> h) s' M N ∧
    inodes s' !! f_inode f = Some i' ∧ sector i' = sector i ∧ removed i' = removed i ∧ data i' = data i ∧
    fs_device s' = fs_device s ∧ free_map_file s' = free_map_file s ∧ ∀ h', same_handles h' s s'.
Proof.
  intros Hok Hf Hfp Hi. destruct (handle_inode x h s M N fp f Hok Hf) as (Eg & _).
  unfold file_allow_write. erewrite bind_ok by exact Eg. destruct (deny_write f) eqn:Ed.
  - destruct (flag_set x h s M N fp f i false Hok Hf Hfp Hi Ed) as (Hn & Hc & Hok').
    do 2 eexists. split_and!; [|exact Hok'|apply lookup_insert_eq|done..|intros h'; by apply (same_handles_update h' s _ i)]. erewrite bind_ok by done.
    unfold inode_allow_write. erewrite bind_ok by (by apply get_inode_ok).
    rewrite (proj2 (Z.gtb_lt _ _)) by lia. erewrite bind_ok by done. rewrite (proj2 (Z.leb_le _ _)) by lia. erewrite bind_ok by done.
    rewrite s32_small by lia. done.
  - exists s, i. split_and!; try done; [|intros h'; by apply same_handles_refl]. replace (<[fp := denies f false]> h) with h; [done|].
    symmetry. apply insert_id. rewrite Hf. unfold denies. rewrite <-Ed. by destruct f.
Qed.

Lemma file_deny_write_handle x h s M N fp f i :
  fs_ok x h s M N → h !! fp = Some f → fp ≠ free_map_file s → inodes s !! f_inode f = Some i →
  ∃ s', file_deny_write fp s = Ok (tt, s') ∧ fs_ok x (<[fp := denies f true]> h) s' M N ∧
    fs_device s' = fs_device s ∧ free_map_file s' = free_map_file s ∧ ∀ h', same_handles h' s s'.
Proof.
  intros Hok Hf Hfp Hi. destruct (handle_inode x h s M N fp f Hok Hf) as (Eg & _).
  unfold file_deny_write. erewrite bind_ok by exact Eg. destruct (deny_write f) eqn:Ed; simpl.
  - exists s. split_and!; try done; [|intros h'; by apply same_handles_refl]. replace (<[fp := denies f true]> h) with h; [done|].
    symmetry. apply insert_id. rewrite Hf. unfold denies. rewrite <-Ed. by destruct f.
  - destruct (flag_set x h s M N fp f i true Hok Hf Hfp Hi Ed) as (Hn & Hc & Hok').
    eexists. split_and!; [|exact Hok'|done..|intros h'; by apply (same_handles_update h' s _ i)]. erewrite bind_ok by done.
    unfold inode_deny_write. erewrite bind_ok by (by apply get_inode_ok). rewrite s32_small by lia. erewrite bind_ok by done.
    rewrite (proj2 (Z.leb_le _ _)) by lia. done.
Qed.

Lemma file_close_handle x h s M N fp f i :
  fs_ok x h s M N → h !! fp = Some f → fp ≠ free_map_file s → inodes s !! f_inode f = Some i →
  ∃ s', file_close oom fp s = Ok (tt, s') ∧
    fs_ok x (delete fp h) s' (after_close x (delete fp h) M (f_inode f) i) N ∧
    free_map_file s' = free_map_file s ∧ same_bytes FREE_MAP_SECTOR M s s' ∧ same_handles (delete fp h) s s'.
Proof.
  intros Hok Hf Hfp Hi.
  assert (fp ≠ NULL) as Hnull.
  { destruct (op_file _ _ _ _ _ (ok_open _ _ _ _ _ Hok) _ _ Hf) as (_ & ? & _). unfold NULL. lia. }
  destruct (file_allow_write_handle x h s M N fp f i Hok Hf Hfp Hi) as (s1 & i' & E1 & Hok1 & Hi' & Hs & Hr & Hd & Hdev & Hmf & Hsh1).
  assert (<[fp := denies f false]> h !! fp = Some (denies f false)) as Hf1 by apply lookup_insert_eq.
  destruct (handle_inode _ _ _ _ _ _ _ Hok1 Hf1) as (Eg & _).
  pose proof (handle_held _ _ _ _ _ _ _ Hok1 Hf1 ltac:(by rewrite Hmf) eq_refl) as Hheld. rewrite delete_insert_eq in Hheld. simpl in Hheld.
  destruct (inode_close_held oom x (delete fp h) s1 M N (f_inode f) i' Hheld Hi') as (s2 & E2 & Hok2 & Hfl & _ & Hmf2 & Hby & Hsh & _).
  exists (set_files (delete fp (files s2)) s2). split_and!.
  - unfold file_close. rewrite (proj2 (Z.eqb_neq _ _) Hnull). erewrite bind_ok by exact E1. erewrite bind_ok by exact Eg.
    erewrite bind_ok by exact E2. done.
  - unfold after_close in *. rewrite Hr, Hs in Hok2. destruct Hok2 as [Hk2 Hr2 Hn2 Ho2]. split; [done..|]. destruct Ho2 as [H1 H2 H3 H4 H5 H6 H7].
    split; try done.
    + by apply (table_frame s2).
    + intros fp' g Hg. destruct (H5 _ _ Hg) as (? & ? & ? & ?). simpl. split_and!; [|lia|lia|lia|lia|done].
      rewrite lookup_delete_ne; [done|]. intros <-. by rewrite lookup_delete_eq in Hg.
  - simpl. congruence.
  - intros sec d Hd' Hne. simpl. rewrite <-Hdev. by apply (Hby sec).
  - eapply same_handles_trans; [apply Hsh1|exact Hsh].
Qed.

(** ** The free map *)

(** What allocating sectors and creating an inode need: the layout, and the file
    of the free map if it is open already. *)
Record core_ok s M : Prop := {
  co_disk : disk_ok (fs_device s) (free_map s) M;
  co_size : size (fs_device s) < 2 ^ 32 - 1;
  co_file : free_map_file s = NULL ∨ ∃ f fi, map_ok s f fi ∧ M !! FREE_MAP_SECTOR = Some (data fi) ∧ deny_write_cnt fi = 0 ∧
    byte_cnt (bit_cnt (free_map s)) ≤ d_length (data fi)
}.

Lemma fs_core x h s M N : fs_ok x h s M N → core_ok s M.
Proof.
  intros Hok. destruct (map_of _ _ _ _ _ Hok) as (f & fi & Hmap & H0 & _ & Hdw & Hlen & _).
  destruct (ok_root _ _ _ _ _ Hok) as (rd & Hrd & _). split; [apply Hok| |right; by exists f, fi].
  by eapply ex_size, (dk_extent _ _ _ (ok_disk _ _ _ _ _ Hok)).
Qed.

(** The file of the free map holds the map. *)
Definition map_stored s (d : inode_disk) : Prop :=
  slice 0 (byte_cnt (bit_cnt (free_map s))) (file_bytes (fs_device s) d) = bitmap_bytes (free_map s).

(** The sectors in which the free map is stored. *)
Definition map_data M (j : Z) : Prop := ∃ d, M !! FREE_MAP_SECTOR = Some d ∧ d_start d ≤ j < d_start d + sector_cnt d.

(** Only the free map, the allocations and some sectors change. *)
Record touches (P : Z → Prop) s s' : Prop := {
  tc_kept : kept s s';
  tc_open : open_inodes s' = open_inodes s;
  tc_allocs : (allocs s ≤ allocs s')%nat;
  tc_bits : bit_cnt (free_map s') = bit_cnt (free_map s);
  tc_size : size (fs_device s') = size (fs_device s);
  tc_sectors j : 0 ≤ j < size (fs_device s) → ¬ P j → sector_of (fs_device s') j = sector_of (fs_device s) j
}.

Lemma touches_ok x h s s' M N :
  fs_ok x h s M N → disk_ok (fs_device s') (free_map s') M → touches (λ j, map_data M j ∨ unowned M j) s s' →
  fs_ok x h s' M N ∧ same_bytes FREE_MAP_SECTOR M s s'.
Proof.
  intros [Hk Hr Hn Ho] Hk' [(K1 & K2 & K3 & K4) T1 T2 T3 T4 T5].
  assert (∀ sec d j, M !! sec = Some d → foot sec d j → sec ≠ FREE_MAP_SECTOR → sector_of (fs_device s') j = sector_of (fs_device s) j) as Hf.
  { intros sec d j Hd Hj Hne. apply T5; [by eapply foot_range|]. intros [(d0 & H0 & Hj0)|Hun]; [|by apply (Hun sec d)].
    apply Hne. eapply (dk_disjoint _ _ _ Hk); [exact Hd|exact H0|done|by right]. }
  split; [split; [done| |done|by apply (open_frame x h s)]|].
  - eapply (root_frame (fs_device s)); [done..|]. intros d j Hd Hj. apply (Hf _ _ _ Hd); [by right|done].
  - intros sec d Hd Hne. apply bytes_frame; [by eapply ex_length, dk_extent|]. intros j Hj. apply (Hf _ _ _ Hd); [by right|done].
Qed.

Lemma free_map_allocate_ok s M cnt :
  core_ok s M → 0 ≤ cnt →
  ∃ r s', free_map_allocate oom cnt s = Ok (r, s') ∧ core_ok s' M ∧ touches (map_data M) s s' ∧
    match r with
    | Some sec => first_group (free_map s) 0 cnt false sec ∧ sec ≠ BITMAP_ERROR ∧ bits_set (free_map s) (free_map s') sec cnt true ∧
        (free_map_file s ≠ NULL → ∀ d, M !! FREE_MAP_SECTOR = Some d → map_stored s' d)
    | None => first_group (free_map s) 0 cnt false BITMAP_ERROR ∧ free_map s' = free_map s
    end.
Proof.
  intros Hco Hc. pose proof Hco as [Hk Hz Hfile]. pose proof (dk_wf _ _ _ Hk) as Hwf.
  destruct (bitmap_scan_and_flip_ok (free_map s) 0 cnt false Hwf) as (r & b & E & Hg & Hset); [pose proof (wf_cnt _ Hwf); lia|done|].
  unfold free_map_allocate. erewrite bind_ok by apply get_ok. rewrite E. erewrite bind_ok by done. erewrite bind_ok by done.
  cbn [fst snd]. erewrite bind_ok by apply get_ok. destruct (Z.eqb_spec r BITMAP_ERROR) as [->|Hne]; simpl.
  { subst b. exists None. eexists. split; [done|]. split; [|by split]. split; [done|done|]. destruct Hfile as [?|(f & fi & [? ? ? ? ?] & H)]; [by left|]. right. by exists f, fi. }
  destruct Hset as [Hset Hall]. pose proof Hset as (Hwb & Hcb & Hbits).
  assert (disk_ok (fs_device s) b M) as Hk1.
  { eapply disk_map; [exact Hk|done..|]. intros sec d j Hd Hj Hbit. rewrite Hbits by (rewrite (dk_cnt _ _ _ Hk); by eapply foot_range).
    by case_decide. }
  exists (Some r). destruct (Z.eqb_spec (free_map_file s) NULL) as [Hnull|Hnull]; simpl.
  { erewrite bind_ok by done. rewrite (proj2 (Z.eqb_neq _ _) Hne). eexists. split; [done|]. split; [split; [done|done|by left]|]. split; [by split|done]. }
  destruct Hfile as [?|(f & fi & [_ Hf Hi Hx Hb] & H0 & Hdw & Hlen)]; [done|].
  destruct (bitmap_write_ok oom (set_free_map b s) (free_map_file s) f fi b) as (ok & s' & Ew & Hw & Hcont & Hok'); [apply Hset|done..|].
  assert (ok = true) as -> by (apply Hok'; [done|by rewrite Hcb|apply memory_left]).
  exists s'. erewrite bind_ok by (erewrite bind_ok by exact Ew; done). rewrite (proj2 (Z.eqb_neq _ _) Hne).
  destruct Hw as (b' & a & -> & Ha & Hb' & Hsz & Hsec). simpl in *.
  assert (∀ j, 0 ≤ j < size (fs_device s) → ¬ map_data M j → sector_of b' j = sector_of (fs_device s) j) as Hout.
  { intros j Hj Hn. apply Hsec; [lia|]. destruct (decide (d_start (data fi) ≤ j < d_start (data fi) + sector_cnt (data fi))); [|lia].
    destruct Hn. by exists (data fi). }
  split; [done|]. split; [|split; [|split_and!; [done..|intros _ d Hd; assert (d = data fi) as -> by congruence; by apply Hcont]]]; split; simpl; try done.
  - apply (disk_frame (fs_device s)); try done. intros sec [d Hd]. apply Hout; [by eapply dk_sector|]. intros (d0 & Hd0 & Hj).
    assert (sec = FREE_MAP_SECTOR) as -> by (eapply (dk_disjoint _ _ _ Hk); [exact Hd|exact Hd0|by left|by right]).
    by apply (dk_outside _ _ _ Hk _ _ Hd0).
  - by rewrite Hsz.
  - right. exists f, fi. split_and!; try done; [|by rewrite Hcb]. split; try done. by eapply extent_size.
Qed.

(** ** Creating an inode *)

Lemma slice_past (l r : list Z) ofs len : ofs = Z.of_nat (length l) → slice ofs len (l ++ r) = slice 0 len r.
Proof. intros ->. unfold slice. by rewrite Nat2Z.id, drop_app_length. Qed.

Lemma slice_head (l r : list Z) : slice 0 (Z.of_nat (length l)) (l ++ r) = l.
Proof. unfold slice. rewrite Nat2Z.id, drop_0. apply take_app_length. Qed.

Lemma decode_encode_inode d :
  0 ≤ d_start d < 2 ^ 32 → 0 ≤ d_length d < 2 ^ 31 → 0 ≤ d_magic d < 2 ^ 32 → decode_inode (encode_inode d) = d.
Proof.
  intros H1 H2 H3. unfold decode_inode, encode_inode. destruct d as [st n m]. simpl d_start in *. simpl d_length in *. simpl d_magic in *.
  assert (∀ y, Z.of_nat (length (le_encode 4 y)) = 4) as Hl by (intros y; by rewrite length_le_encode).
  assert (∀ y r, slice 0 4 (le_encode 4 y ++ r) = le_encode 4 y) as Hh by (intros y r; rewrite <-(Hl y); apply slice_head).
  rewrite (u32_small n) by lia. f_equal.
  - by rewrite Hh, le_decode_encode.
  - rewrite slice_past by (by rewrite Hl). rewrite Hh, le_decode_encode by (change (256 ^ Z.of_nat 4) with (2 ^ 32); lia). apply s32_small. lia.
  - rewrite app_assoc, slice_past by (rewrite length_app; rewrite !length_le_encode; done). by rewrite Hh, le_decode_encode.
Qed.

Lemma zero_bytes_ok n : Forall byte_ok (repeat 0 n).
Proof. apply Forall_forall. by intros y Hy%list_elem_of_In%repeat_spec; subst. Qed.

Lemma encode_sector_ok d : sector_ok (encode_inode d).
Proof.
  unfold encode_inode. split; [by rewrite !length_app, !length_le_encode, repeat_length|].
  repeat (apply Forall_app; split; [apply le_encode_ok|]). apply zero_bytes_ok.
Qed.

Lemma zero_sector_ok : sector_ok (repeat 0 512).
Proof. split; [by rewrite repeat_length|apply zero_bytes_ok]. Qed.

Definition zero_body (start sectors : Z) : Z → ST (fs D) (Z + unit) := λ i,
  if i <? sectors then on_dev (block_write (u32 (start + i)) (repeat 0 512));; mret (inl (u32 (i + 1))) else mret (inr tt).

Lemma zero_loop s start cnt :
  block_ok (fs_device s) → 0 ≤ start → 0 ≤ cnt → start + cnt ≤ size (fs_device s) → size (fs_device s) < 2 ^ 32 - 1 →
  ∃ b, loopM (S (Z.to_nat cnt)) (zero_body start cnt) 0 s = Ok (tt, set_device b s) ∧
    block_ok b ∧ size b = size (fs_device s) ∧
    ∀ j, 0 ≤ j < size b → sector_of b j = if decide (start ≤ j < start + cnt) then repeat 0 512 else sector_of (fs_device s) j.
Proof.
  intros Hb Hs Hc He Hz.
  destruct (loopM_rule (λ n i s1, 0 ≤ i ≤ cnt ∧ n = Z.to_nat (cnt - i) ∧ ∃ b, s1 = set_device b s ∧ block_ok b ∧ size b = size (fs_device s) ∧
      ∀ j, 0 ≤ j < size b → sector_of b j = if decide (start ≤ j < start + i) then repeat 0 512 else sector_of (fs_device s) j)
    (λ _ s1, ∃ b, s1 = set_device b s ∧ block_ok b ∧ size b = size (fs_device s) ∧
      ∀ j, 0 ≤ j < size b → sector_of b j = if decide (start ≤ j < start + cnt) then repeat 0 512 else sector_of (fs_device s) j)
    (zero_body start cnt)) with (fuel := S (Z.to_nat cnt)) (n := Z.to_nat cnt) (l := 0) (s := s) as (u & s1 & E & b & -> & Hrest).
  - intros n i s1 (Hi & -> & b & -> & Hb1 & Hs1 & Hsec). unfold zero_body. destruct (Z.ltb_spec i cnt) as [Hlt|Hge].
    + rewrite (u32_small (start + i)) by lia.
      destruct (on_dev_write (set_device b s) (start + i) (repeat 0 512)) as (b2 & E2 & Hb2 & Hs2 & _ & Hsec2);
        [done|simpl; lia|apply zero_sector_ok|].
      erewrite bind_ok by exact E2. do 2 eexists. split; [done|]. simpl in *. rewrite (u32_small (i + 1)) by lia. exists (Z.to_nat (cnt - (i + 1))).
      split; [lia|]. split_and!; [lia|lia|done|]. exists b2. split_and!; [done|done|lia|]. intros j Hj. rewrite Hsec2 by lia.
      destruct (decide (j = start + i)) as [->|Hne]; [by rewrite decide_True by lia|]. rewrite Hsec by lia. apply decide_ext. lia.
    + do 2 eexists. split; [done|]. simpl. exists b. split_and!; try done. intros j Hj. rewrite Hsec by done. apply decide_ext. lia.
  - split_and!; [lia|lia|f_equal; lia|]. exists (fs_device s). split_and!; [by destruct s|done|done|]. intros j Hj. by rewrite decide_False by lia.
  - lia.
  - exists b. destruct u. by split.
Qed.

(** A new inode in sector [sec], which has not entered the layout yet. *)
Record fresh_inode s M (sec : Z) (d : inode_disk) : Prop := {
  fr_sector : 0 ≤ sec < size (fs_device s) ∧ decode_inode (sector_of (fs_device s) sec) = d;
  fr_extent : extent_ok (fs_device s) d;
  fr_outside : ¬ d_start d ≤ sec < d_start d + sector_cnt d;
  fr_unowned j : foot sec d j → unowned M j;
  fr_alloc j : foot sec d j → bit (free_map s) j = true;
  fr_zero : file_bytes (fs_device s) d = repeat 0 (Z.to_nat (d_length d))
}.

Lemma zero_bytes (b : block D) d :
  0 ≤ d_length d → (∀ j, d_start d ≤ j < d_start d + sector_cnt d → sector_of b j = repeat 0 512) →
  file_bytes b d = repeat 0 (Z.to_nat (d_length d)).
Proof.
  intros Hl Hs. apply bytes_eq with (d_length d); [by apply length_file_bytes|by rewrite repeat_length, Z2Nat.id|].
  intros p Hp. rewrite file_bytes_lookup by done. unfold disk_byte. rewrite Hs by (unfold sector_cnt; dlia).
  rewrite list_lookup_total_alt, !lookup_repeat by dlia. done.
Qed.

(** Writing a new inode and clearing its data sectors. *)
Lemma write_new_inode s sec start cnt d :
  block_ok (fs_device s) → 0 ≤ sec < size (fs_device s) → 0 ≤ start → 0 ≤ cnt → start + cnt ≤ size (fs_device s) →
  size (fs_device s) < 2 ^ 32 - 1 →
  ∃ b1 b2, on_dev (block_write sec (encode_inode d)) s = Ok (tt, set_device b1 s) ∧
    (if cnt >? 0 then loopM (S (Z.to_nat cnt)) (zero_body start cnt) 0 else mret tt) (set_device b1 s) = Ok (tt, set_device b2 s) ∧
    block_ok b2 ∧ size b2 = size (fs_device s) ∧
    ∀ j, 0 ≤ j < size b2 → sector_of b2 j =
      if decide (start ≤ j < start + cnt) then repeat 0 512 else if decide (j = sec) then encode_inode d else sector_of (fs_device s) j.
Proof.
  intros Hb Hsec Hst Hc He Hz.
  destruct (on_dev_write s sec (encode_inode d)) as (b1 & E1 & Hb1 & Hs1 & _ & Hsec1); [done..|apply encode_sector_ok|].
  exists b1. destruct (Z.gtb_spec cnt 0) as [Hpos|Hz0].
  - destruct (zero_loop (set_device b1 s) start cnt) as (b2 & E2 & ? & Hs2 & Hsec2); [done|lia|lia|simpl; lia|simpl; lia|]. simpl in *.
    exists b2. split_and!; [done|done|done|lia|]. intros j Hj. rewrite Hsec2, Hsec1 by lia. done.
  - exists b1. split_and!; [done|done|done|lia|]. intros j Hj. rewrite decide_False by lia. apply Hsec1. lia.
Qed.

(** The inode that is written is a new one. *)
Lemma new_inode_fresh s s1 (b : block D) M sec start n :
  let d := mk_inode_disk start n INODE_MAGIC in
  let cnt := (n + 511) / 512 in
  0 ≤ n < 2 ^ 31 - 512 → 0 ≤ sec < size b → size b = size (fs_device s) → size b < 2 ^ 32 - 1 → bit_cnt (free_map s) = size (fs_device s) →
  0 ≤ start → start + cnt ≤ size b → all_bits (free_map s) start cnt false → bit (free_map s) sec = true →
  unowned M sec → (∀ j, start ≤ j < start + cnt → unowned M j) → bits_set (free_map s) (free_map s1) start cnt true →
  (∀ j, 0 ≤ j < size b → sector_of b j =
     if decide (start ≤ j < start + cnt) then repeat 0 512 else if decide (j = sec) then encode_inode d else sector_of (fs_device s1) j) →
  fresh_inode (set_device b s1) M sec d.
Proof.
  intros d cnt Hn Hsec Hsz Hsmall Hbc Hst Hend Hfree Hbit Hun Hun' (_ & _ & Hbits) Hb.
  assert (sector_cnt d = cnt) as Ecnt by done. assert (0 ≤ cnt) as Hc by (unfold cnt; dlia).
  assert (¬ start ≤ sec < start + cnt) as Hout by (intros Hin; by rewrite (Hfree sec) in Hbit).
  split; rewrite ?Ecnt; simpl.
  - split; [lia|]. rewrite Hb by lia. rewrite decide_False, decide_True by done. apply decode_encode_inode; simpl; (lia || done).
  - split; rewrite ?Ecnt; simpl; lia.
  - done.
  - intros j [->|Hj]; [done|]. by apply Hun'.
  - intros j Hj. assert (j = sec ∨ start ≤ j < start + cnt) as Hj' by done. rewrite Hbits by (rewrite Hbc, <-Hsz; destruct Hj' as [->|]; lia).
    case_decide; [done|]. by destruct Hj' as [->|].
  - apply zero_bytes; [simpl; lia|]. rewrite Ecnt. simpl. intros j Hj. rewrite Hb by lia. by rewrite decide_True.
Qed.

Lemma core_allocs s M n : core_ok s M → core_ok (set_allocs n s) M.
Proof. intros [H1 H2 H3]. split; [done..|]. destruct H3 as [?|(f & fi & [? ? ? ? ?] & H)]; [by left|]. right. by exists f, fi. Qed.

Lemma inode_create_ok s M sec n :
  core_ok s M → 0 ≤ n < 2 ^ 31 - 512 → 0 ≤ sec < size (fs_device s) → unowned M sec → bit (free_map s) sec = true →
  let cnt := (n + 511) / 512 in
  ∃ ok s', inode_create oom sec n s = Ok (ok, s') ∧ core_ok s' M ∧ touches (λ j, map_data M j ∨ unowned M j) s s' ∧
    if ok : bool then ∃ start, let d := mk_inode_disk start n INODE_MAGIC in
      fresh_inode s' M sec d ∧ first_group (free_map s) 0 cnt false start ∧ start ≠ BITMAP_ERROR ∧
      bits_set (free_map s) (free_map s') start cnt true ∧ (free_map_file s ≠ NULL → ∀ d0, M !! FREE_MAP_SECTOR = Some d0 → map_stored s' d0)
    else first_group (free_map s) 0 cnt false BITMAP_ERROR ∧ free_map s' = free_map s.
Proof.
  intros Hco Hn Hsec Hun Hbit cnt. unfold inode_create. rewrite (proj2 (Z.leb_le _ _)) by lia. erewrite bind_ok by done.
  erewrite bind_ok by apply fs_malloc_ok. set (s0 := set_allocs (S (allocs s)) s).
  rewrite (proj2 (Z.eqb_neq _ _)) by (unfold NULL; lia). rewrite bytes_to_sectors_ok by done. fold cnt.
  assert (0 ≤ cnt) as Hc by (unfold cnt; dlia).
  destruct (free_map_allocate_ok s0 M cnt (core_allocs _ _ _ Hco) Hc) as (r & s1 & E1 & Hco1 & [T1 T2 T3 T4 T5 T6] & Hr). erewrite bind_ok by exact E1. simpl in *.
  destruct r as [start|].
  2:{ destruct Hr as [? ?]. exists false, s1. split_and!; try done. split; try done; [lia|]. intros j Hj Hno. apply T6; [done|tauto]. }
  destruct Hr as (Hg & Hne & Hset & Hstored). pose proof Hg as Hg'. destruct Hg as [(Hst & Hend & Hfree & _)|[? _]]; [|done].
  destruct Hco as [Hk Hsmall Hfile], Hco1 as [Hk1 Hsmall1 Hfile1]. rewrite (dk_cnt _ _ _ Hk) in Hend. set (d := mk_inode_disk start n INODE_MAGIC).
  destruct (write_new_inode s1 sec start cnt d) as (b2 & b3 & E2 & E3 & Hb3 & Hs3 & Hsec3); [apply Hk1|lia..|].
  erewrite bind_ok by exact E2. unfold zero_body in E3. erewrite bind_ok by exact E3.
  assert (∀ j, start ≤ j < start + cnt → unowned M j) as Hun'.
  { intros j Hj q dq Hq Hf. pose proof (dk_alloc _ _ _ Hk _ _ _ Hq Hf) as Hb. by rewrite (Hfree j) in Hb. }
  assert (∀ j, 0 ≤ j < size (fs_device s) → ¬ unowned M j → sector_of b3 j = sector_of (fs_device s1) j) as Hout.
  { intros j Hj Ho. rewrite Hsec3 by lia. rewrite decide_False by (intros ?; by apply Ho, Hun').
    rewrite decide_False; [done|]. intros ->. by apply Ho. }
  exists true. eexists. split; [done|]. split_and!.
  - split; simpl; [|lia|].
    + apply (disk_frame (fs_device s1)); [done..|lia|]. intros q [dq Hq]. apply Hout; [rewrite <-T5; by eapply dk_sector|].
      intros Hu. apply (Hu q dq Hq). by left.
    + destruct Hfile1 as [?|(f & fi & [? ? ? ? ?] & H)]; [by left|]. right. exists f, fi. split; [|done]. split; try done. by apply (extent_size (fs_device s1)).
  - split; simpl; try done; [lia|lia|]. intros j Hj Hno. rewrite Hout by tauto. apply T6; [done|tauto].
  - exists start. split; [|split_and!; [done|done|exact Hset|]].
    2:{ intros Hnn d0 Hd0. pose proof (Hstored Hnn d0 Hd0) as Hst'. unfold map_stored in *. simpl. rewrite <-Hst'. f_equal. apply bytes_frame; [by eapply ex_length, (dk_extent _ _ _ Hk)|].
        intros j Hj. apply Hout; [eapply foot_range; [exact Hk|exact Hd0|by right]|]. intros Hu. apply (Hu _ _ Hd0). by right. }
    fold d. apply (new_inode_fresh s s1 b3 M sec start n); try done; try lia. by apply dk_cnt with M.
Qed.

(** The same under the invariant of the file system. *)
Lemma inode_create_held x h s M N sec n :
  fs_ok x h s M N → 0 ≤ n < 2 ^ 31 - 512 → 0 ≤ sec < size (fs_device s) → unowned M sec → bit (free_map s) sec = true →
  let cnt := (n + 511) / 512 in
  ∃ ok s', inode_create oom sec n s = Ok (ok, s') ∧ fs_ok x h s' M N ∧ kept s s' ∧ same_bytes FREE_MAP_SECTOR M s s' ∧
    size (fs_device s') = size (fs_device s) ∧
    if ok : bool then ∃ start, let d := mk_inode_disk start n INODE_MAGIC in
      fresh_inode s' M sec d ∧ first_group (free_map s) 0 cnt false start ∧ start ≠ BITMAP_ERROR
    else first_group (free_map s) 0 cnt false BITMAP_ERROR ∧ free_map s' = free_map s.
Proof.
  intros Hok Hn Hsec Hun Hbit cnt. destruct (inode_create_ok s M sec n (fs_core _ _ _ _ _ Hok) Hn Hsec Hun Hbit) as (ok & s' & E & Hco & Ht & Hres).
  destruct (touches_ok x h s s' M N Hok (co_disk _ _ Hco) Ht) as [Hok' Hby]. exists ok, s'. split_and!; try done; try apply Ht.
  destruct ok; [|done]. destruct Hres as (start & ? & ? & ? & _). by exists start.
Qed.

Lemma free_map_allocate_held x h s M N cnt :
  fs_ok x h s M N → 0 ≤ cnt →
  ∃ r s', free_map_allocate oom cnt s = Ok (r, s') ∧ fs_ok x h s' M N ∧ kept s s' ∧ same_bytes FREE_MAP_SECTOR M s s' ∧
    size (fs_device s') = size (fs_device s) ∧
    match r with
    | Some sec => first_group (free_map s) 0 cnt false sec ∧ sec ≠ BITMAP_ERROR ∧ bits_set (free_map s) (free_map s') sec cnt true
    | None => first_group (free_map s) 0 cnt false BITMAP_ERROR ∧ free_map s' = free_map s
    end.
Proof.
  intros Hok Hc. destruct (free_map_allocate_ok s M cnt (fs_core _ _ _ _ _ Hok) Hc) as (r & s' & E & Hco & [T1 T2 T3 T4 T5 T6] & Hres).
  destruct (touches_ok x h s s' M N Hok (co_disk _ _ Hco)) as [Hok' Hby]; [split; try done; intros j Hj Hno; apply T6; tauto|].
  exists r, s'. split_and!; try done. destruct r; [|done]. by destruct Hres as (? & ? & ? & _).
Qed.

End calls.
