(* ===== verification/FilesysSpec.v ===== *)
(** * The file system as a whole

    filesys_create, filesys_open and filesys_remove on a file system that
    satisfies the invariant of [FsState], and the theorem that the calls of
    filesys/filesys.c and file.c implement an abstract file system: names,
    numbered files with their bytes, and open files with a position. *)

From S2P Require Import Prelude Bytes Block Bitmap Inode InodeSpec InodeTable Directory DirSpec FsState FsCalls.

Section filesys.
Context {D : Type} `{BD : BlockDriver D}.
Variable oom : nat → bool.
Hypothesis memory_left : ∀ n, oom n = false.
Implicit Types s : fs D.
Implicit Types M : gmap Z inode_disk.
Implicit Types N : gmap (list Z) Z.

(** The order of the references does not matter. *)
Lemma held_perm x x' h s M N : Permutation x x' → fs_ok x h s M N → fs_ok x' h s M N.
Proof.
  intros Hp [Hk Hr Hn [H1 H2 H3 H4 H5 H6 H7]]. split; [done..|]. split; try done.
  - intros ip i Hi. destruct (H2 _ _ Hi) as (? & ? & ?). unfold refs, held. by rewrite <-Hp.
  - intros ip Hip. apply H7. by rewrite Hp.
Qed.

(** ** The root directory *)

Lemma root_dir_at x h s M N dp ip pos i :
  fs_ok x h s M N → inodes s !! ip = Some i → sector i = ROOT_DIR_SECTOR → dirs s !! dp = Some (ip, pos) →
  let es := entries (file_bytes (fs_device s) (data i)) in
  dir_at s dp ip i es ∧ dir_map es = N ∧ M !! ROOT_DIR_SECTOR = Some (data i) ∧ removed i = false.
Proof.
  intros [Hk (rd & Hr & Hl & Hnd & Hm) Hn Ho] Hi Hs Hdp es. destruct (op_inode _ _ _ _ _ Ho _ _ Hi) as (Hd & _ & Hden).
  rewrite Hs in Hd. assert (rd = data i) as -> by congruence. split_and!; [|done|done|].
  - split; try done; [apply Hk|by exists pos|by eapply (dk_extent _ _ _ Hk)|].
    rewrite Hden. apply count_none. intros fp f Hf [Ei _].
    destruct (op_file _ _ _ _ _ Ho _ _ Hf) as (_ & _ & _ & t & Ht & Hne & _). rewrite Ei in Ht. congruence.
  - destruct (removed i) eqn:E; [|done]. by destruct (op_removed _ _ _ _ _ Ho _ _ Hi E) as (_ & ? & _).
Qed.

Lemma root_opened x h s M N :
  fs_ok x h s M N → Z.of_nat (base.size h) + Z.of_nat (length x) < 2 ^ 31 - 1 →
  ∃ dp ip s' i, dir_open_root oom s = Ok (dp, s') ∧ dp ≠ NULL ∧ fs_ok (ip :: x) h s' M N ∧
    inodes s' !! ip = Some i ∧ sector i = ROOT_DIR_SECTOR ∧ dirs s' !! dp = Some (ip, 0) ∧
    free_map s' = free_map s ∧ free_map_file s' = free_map_file s ∧ same_disk (fs_device s) (fs_device s') ∧ same_handles h s s'.
Proof.
  intros Hok Hb. destruct (ok_root _ _ _ _ _ Hok) as (rd & Hrd & _).
  destruct (inode_open_held oom memory_left x h s M N _ _ Hok Hrd Hb) as (ip & s1 & i & E & Hip & Hok1 & Hi & Hs & _ & _ & _ & Hfm & Hmf & Hsd & Hsh & _).
  exists (16 * (Z.of_nat (allocs s1) + 1)), ip. do 2 eexists. split_and!.
  - unfold dir_open_root. erewrite bind_ok by exact E. unfold dir_open. erewrite bind_ok by (by apply fs_malloc_ok).
    rewrite !(proj2 (Z.eqb_neq _ NULL)) by (done || unfold NULL; lia). simpl. erewrite bind_ok by done. done.
  - unfold NULL. lia.
  - eapply (same_fs_ok _ _ (set_dirs (<[16 * (Z.of_nat (allocs s1) + 1) := (ip, 0)]> (dirs s1)) s1)).
    + exists (fs_device s1), (S (allocs s1)). split_and!; [done|simpl; lia|split_and!; [apply Hok1|done..]].
    + destruct Hok1 as [? ? ? Ho]. split; try done. by apply (open_frame _ _ s1).
  - exact Hi.
  - done.
  - simpl. apply lookup_insert_eq.
  - done.
  - done.
  - done.
  - exact (Hsh h).
Qed.

Lemma root_closed x h s M N dp ip pos i :
  fs_ok (ip :: x) h s M N → inodes s !! ip = Some i → sector i = ROOT_DIR_SECTOR → dirs s !! dp = Some (ip, pos) → dp ≠ NULL →
  ∃ s', dir_close oom dp s = Ok (tt, s') ∧ fs_ok x h s' M N ∧ free_map_file s' = free_map_file s ∧
    same_bytes FREE_MAP_SECTOR M s s' ∧ same_handles h s s' ∧
    (∀ q t, q ≠ ip → inodes s !! q = Some t → inodes s' !! q = Some t).
Proof.
  intros Hok Hi Hs Hdp Hnull. destruct (root_dir_at _ _ _ _ _ _ _ _ _ Hok Hi Hs Hdp) as (_ & _ & _ & Hrm).
  destruct (inode_close_held oom x h s M N ip i Hok Hi) as (s1 & E & Hok1 & _ & _ & Hmf & Hby & Hsh & Hrest).
  unfold after_close in Hok1. rewrite Hrm in Hok1. simpl in Hok1. eexists. split_and!.
  - unfold dir_close. rewrite (proj2 (Z.eqb_neq _ _) Hnull). erewrite bind_ok by (unfold get_dir; by rewrite Hdp).
    simpl. erewrite bind_ok by exact E. done.
  - destruct Hok1 as [? ? ? Ho]. split; try done. by apply (open_frame _ _ s1).
  - done.
  - exact Hby.
  - exact Hsh.
  - done.
Qed.

(** Contents that were kept by two calls. *)
Lemma same_bytes_trans sec M s1 s2 s3 : same_bytes sec M s1 s2 → same_bytes sec M s2 s3 → same_bytes sec M s1 s3.
Proof. intros H1 H2 q d Hd Hq. rewrite (H2 _ _ Hd Hq). by apply (H1 q). Qed.

Lemma same_disk_same_bytes x h s s' M N sec : fs_ok x h s M N → same_disk (fs_device s) (fs_device s') → same_bytes sec M s s'.
Proof. intros [Hk _ _ _] Hs q d Hd _. eapply same_disk_bytes; [done|]. by eapply (dk_extent _ _ _ Hk). Qed.

Lemma same_fs_same_disk s s' : same_fs s s' → same_disk (fs_device s) (fs_device s').
Proof. by intros (b & a & -> & _ & H). Qed.

(** ** filesys_open *)

(** The name is looked up in the open root directory. *)
Lemma root_lookup x h s M N dp ip pos i junk name :
  fs_ok x h s M N → inodes s !! ip = Some i → sector i = ROOT_DIR_SECTOR → dirs s !! dp = Some (ip, pos) → entry_ok junk →
  ∃ r s', lookup oom junk dp name s = Ok (r, s') ∧ fs_ok x h s' M N ∧ same_fs s s' ∧
    match r with
    | Some (e, ofs) => N !! name = Some (inode_sector e) ∧ ∃ k, entries (file_bytes (fs_device s) (data i)) !! k = Some e ∧
        ofs = 20 * Z.of_nat k ∧ in_use e = true ∧ e_name e = name
    | None => N !! name = None
    end.
Proof.
  intros Hok Hi Hs Hdp Hj. destruct (root_dir_at _ _ _ _ _ _ _ _ _ Hok Hi Hs Hdp) as (Hda & Hm & _ & _). set (es := entries _) in *.
  destruct (lookup_ok oom memory_left s dp ip i es junk name Hda Hj) as (r & s' & E & Hsame & Hr). exists r, s'.
  split_and!; [done|by eapply same_fs_ok|done|]. destruct r as [[e ofs]|]; [|by rewrite <-Hm].
  destruct Hr as (k & Hk & -> & Hu & Hn). split; [|by exists k]. rewrite <-Hm. apply dir_map_lookup; [apply Hda|].
  exists e. split_and!; [by eapply list_elem_of_lookup_2|done..].
Qed.

Lemma dir_lookup_held x h s M N dp ip pos i junk name :
  fs_ok x h s M N → inodes s !! ip = Some i → sector i = ROOT_DIR_SECTOR → dirs s !! dp = Some (ip, pos) → entry_ok junk →
  Z.of_nat (base.size h) + Z.of_nat (length x) < 2 ^ 31 - 1 →
  ∃ q s', dir_lookup oom junk dp name s = Ok (q, s') ∧ dirs s' = dirs s ∧ free_map_file s' = free_map_file s ∧
    same_disk (fs_device s) (fs_device s') ∧ same_handles h s s' ∧
    match N !! name with
    | Some sec => q ≠ NULL ∧ q ≠ ip ∧ inodes s' !! ip = Some i ∧ fs_ok (q :: x) h s' M N ∧ ∃ t, inodes s' !! q = Some t ∧ sector t = sec
    | None => q = NULL ∧ fs_ok x h s' M N ∧ inodes s' = inodes s
    end.
Proof.
  intros Hok Hi Hs Hdp Hj Hb. destruct (root_lookup x h s M N dp ip pos i junk name Hok Hi Hs Hdp Hj) as (r & s1 & E1 & Hok1 & Hsame & Hr).
  pose proof (same_fs_same_disk _ _ Hsame) as Hsd. destruct Hsame as (b & a & -> & _ & _). set (s1 := set_allocs a (set_device b s)) in *.
  destruct r as [[e ofs]|].
  - destruct Hr as [HN _]. rewrite HN. destruct (nm_in _ _ (ok_names _ _ _ _ _ Hok1) _ _ HN) as ([d Hd] & Hz & Hone).
    destruct (inode_open_held oom memory_left x h s1 M N _ _ Hok1 Hd Hb) as (q & s2 & t & E2 & Hq & Hok2 & Ht & Hts & _ & _ & Hdirs & _ & Hmf & Hsd2 & Hsh & Hrest).
    assert (q ≠ ip) as Hne.
    { intros ->. destruct (Hsh {[0 := mk_file ip 0 false]} 0 (mk_file ip 0 false) i) as (i' & Hi' & Es); [apply lookup_singleton_eq|done|].
      simpl in Hi'. congruence. }
    exists q, s2. split_and!; [unfold dir_lookup; by erewrite bind_ok by exact E1|done|done|by eapply same_disk_trans|exact (Hsh h)|done|done|by apply Hrest|done|by exists t].
  - rewrite Hr. exists NULL, s1. split_and!; try done; [unfold dir_lookup; by erewrite bind_ok by exact E1|by apply same_handles_refl].
Qed.

Lemma filesys_open_held x h s M N junk name :
  fs_ok x h s M N → Z.of_nat (base.size h) + Z.of_nat (length x) + 1 < 2 ^ 31 - 1 → entry_ok junk →
  ∃ fp s', filesys_open oom junk name s = Ok (fp, s') ∧ free_map_file s' = free_map_file s ∧
    same_bytes FREE_MAP_SECTOR M s s' ∧ same_handles h s s' ∧
    match N !! name with
    | Some sec => fp ≠ NULL ∧ h !! fp = None ∧
        ∃ ip i, fs_ok x (<[fp := mk_file ip 0 false]> h) s' M N ∧ inodes s' !! ip = Some i ∧ sector i = sec
    | None => fp = NULL ∧ fs_ok x h s' M N
    end.
Proof.
  intros Hok Hb Hj. unfold filesys_open.
  destruct (root_opened x h s M N Hok ltac:(lia)) as (dp & ip & s1 & i & E1 & Hdp & Hok1 & Hi & Hs & Hdir & _ & Hmf1 & Hsd1 & Hsh1).
  erewrite bind_ok by exact E1. rewrite (proj2 (Z.eqb_neq _ _) Hdp).
  destruct (dir_lookup_held (ip :: x) h s1 M N dp ip 0 i junk name Hok1 Hi Hs Hdir Hj) as (q & s2 & E2 & Hdirs & Hmf2 & Hsd2 & Hsh2 & Hres); [simpl; lia|].
  erewrite bind_ok by exact E2. rewrite <-Hdirs in Hdir.
  pose proof (same_disk_same_bytes _ _ s s2 _ _ FREE_MAP_SECTOR Hok ltac:(by eapply same_disk_trans)) as Hby2.
  destruct (N !! name) as [sec|] eqn:HN.
  - destruct Hres as (Hq & Hqi & Hi2 & Hok2 & t & Ht & Hts).
    assert (fs_ok (ip :: q :: x) h s2 M N) as Hok2' by (by apply (held_perm (q :: ip :: x)); [apply Permutation_swap|]).
    destruct (root_closed (q :: x) h s2 M N dp ip 0 i Hok2' Hi2 Hs Hdir Hdp) as (s3 & E3 & Hok3 & Hmf3 & Hby3 & Hsh3 & Hrest).
    erewrite bind_ok by exact E3. destruct (nm_in _ _ (ok_names _ _ _ _ _ Hok) _ _ HN) as (_ & Hz & Hone).
    destruct (file_open_held oom memory_left x h s3 M N q t Hok3 Hq ltac:(by apply Hrest)) as (fp & s4 & E4 & Hfp & Hnew & Hok4 & Hin & Hdev & Hmf4 & _);
      [congruence..|].
    exists fp, s4. split_and!; [done|congruence| | |done|done|].
    + intros sec' d Hd Hne. rewrite Hdev. by apply (same_bytes_trans _ _ _ _ _ Hby2 Hby3 sec').
    + eapply same_handles_trans; [exact Hsh1|]. eapply same_handles_trans; [exact Hsh2|]. eapply same_handles_trans; [exact Hsh3|].
      by apply same_handles_refl.
    + exists q, t. split_and!; [done|rewrite Hin; by apply Hrest|done].
  - destruct Hres as (-> & Hok2 & Hin2).
    destruct (root_closed x h s2 M N dp ip 0 i Hok2 ltac:(by rewrite Hin2) Hs Hdir Hdp) as (s3 & E3 & Hok3 & Hmf3 & Hby3 & Hsh3 & _).
    erewrite bind_ok by exact E3. exists NULL. eexists. split_and!.
    + unfold file_open. erewrite bind_ok by (by apply fs_malloc_ok). simpl. done.
    + simpl. congruence.
    + by eapply same_bytes_trans.
    + eapply same_handles_trans; [exact Hsh1|]. by eapply same_handles_trans.
    + done.
    + eapply same_fs_ok; [|exact Hok3]. exists (fs_device s3), (S (allocs s3)). split_and!; [done|lia|split_and!; [apply Hok3|done..]].
Qed.

(** ** Changing the root directory *)

(** The contents of the files. *)
Definition same_files M s s' : Prop :=
  ∀ sec d, M !! sec = Some d → sec ≠ FREE_MAP_SECTOR → sec ≠ ROOT_DIR_SECTOR → file_bytes (fs_device s') d = file_bytes (fs_device s) d.

Lemma same_bytes_files M s s' : same_bytes FREE_MAP_SECTOR M s s' → same_files M s s'.
Proof. intros H sec d Hd H0 _. by apply (H sec). Qed.

Lemma same_files_trans M s1 s2 s3 : same_files M s1 s2 → same_files M s2 s3 → same_files M s1 s3.
Proof. intros H1 H2 q d Hd Hq Hr. rewrite (H2 _ _ Hd Hq Hr). by apply (H1 q). Qed.

(** The sectors outside the data of the root directory. *)
Lemma root_wrote x h s s' M N rd j :
  fs_ok x h s M N → M !! ROOT_DIR_SECTOR = Some rd → wrote_fs rd s s' → 0 ≤ j < size (fs_device s) →
  (∀ sec d, M !! sec = Some d → foot sec d j → sec ≠ ROOT_DIR_SECTOR ∨ j = sec) →
  sector_of (fs_device s') j = sector_of (fs_device s) j.
Proof.
  intros [Hk _ _ _] Hrd (b & a & -> & _ & _ & Hs & Hsec) Hj Hout. simpl. apply Hsec; [lia|].
  destruct (decide (d_start rd ≤ j < d_start rd + sector_cnt rd)) as [Hin|]; [|lia]. exfalso.
  destruct (Hout _ _ Hrd) as [?| ->]; [by right|done|]. by apply (dk_outside _ _ _ Hk _ _ Hrd).
Qed.

Lemma root_written x h s s' M N N' rd :
  fs_ok x h s M N → M !! ROOT_DIR_SECTOR = Some rd → wrote_fs rd s s' → d_length rd mod 20 = 0 →
  NoDup (names (entries (file_bytes (fs_device s') rd))) → dir_map (entries (file_bytes (fs_device s') rd)) = N' →
  disk_ok (fs_device s') (free_map s') M ∧ root_ok (fs_device s') M N' ∧ open_ok x h s' M N ∧ same_files M s s'.
Proof.
  intros Hok Hrd Hw Hl Hnd Hm. pose proof Hok as [Hk Hr Hn Ho].
  assert (∀ sec d j, M !! sec = Some d → foot sec d j → sec ≠ ROOT_DIR_SECTOR ∨ j = sec →
    sector_of (fs_device s') j = sector_of (fs_device s) j) as Hf.
  { intros sec d j Hd Hj Hout. eapply root_wrote; [done..|by eapply foot_range|]. intros q dq Hq Hjq.
    by assert (q = sec) as -> by (eapply (dk_disjoint _ _ _ Hk); [exact Hq|exact Hd|done|done]). }
  assert (∀ sec d, M !! sec = Some d → sec ≠ ROOT_DIR_SECTOR → file_bytes (fs_device s') d = file_bytes (fs_device s) d) as Hby.
  { intros sec d Hd Hne. apply bytes_frame; [by eapply ex_length, dk_extent|]. intros j Hj. apply (Hf _ _ _ Hd); [by right|by left]. }
  pose proof Hw as (b & a & -> & Ha & Hb & Hs & Hsec). split_and!.
  - apply (disk_frame (fs_device s)); try done. intros sec [d Hd]. apply (Hf sec d); [done|by left|by right].
  - by exists rd.
  - by apply (open_frame x h s).
  - intros sec d Hd _ Hne. by apply (Hby sec).
Qed.

(** ** filesys_create *)

Lemma unowned_None M sec : unowned M sec → M !! sec = None.
Proof. intros Hu. destruct (M !! sec) as [d|] eqn:E; [|done]. destruct (Hu sec d E). by left. Qed.

(** A new inode enters the layout. *)
Lemma disk_add (b : block D) fm M sec d :
  disk_ok b fm M → 0 ≤ sec < size b → decode_inode (sector_of b sec) = d → extent_ok b d →
  ¬ d_start d ≤ sec < d_start d + sector_cnt d → (∀ j, foot sec d j → unowned M j) → (∀ j, foot sec d j → bit fm j = true) →
  disk_ok b fm (<[sec := d]> M).
Proof.
  intros [K1 K2 K3 K4 K5 K6 K7 K8] F1 F2 F3 F4 F5 F6. split; try done.
  - intros q dq [[<- <-]|[_ Hq]]%lookup_insert_Some; [done|by apply K4].
  - intros q dq [[<- <-]|[_ Hq]]%lookup_insert_Some; [done|by eapply K5].
  - intros q dq [[<- <-]|[_ Hq]]%lookup_insert_Some; [done|by apply K6].
  - intros q dq q' dq' j [[<- <-]|[_ Hq]]%lookup_insert_Some [[<- <-]|[_ Hq']]%lookup_insert_Some Hj Hj'; [done| | |by eapply K7].
    + by destruct (F5 j Hj q' dq').
    + by destruct (F5 j Hj' q dq).
  - intros q dq j [[<- <-]|[_ Hq]]%lookup_insert_Some Hj; [by apply F6|by eapply K8].
Qed.

(** A new inode gets its name. *)
Lemma file_named x h s s' M N rd sec d name :
  fs_ok x h s M N → fresh_inode s M sec d → M !! ROOT_DIR_SECTOR = Some rd → wrote_fs rd s s' → d_length rd mod 20 = 0 → N !! name = None →
  NoDup (names (entries (file_bytes (fs_device s') rd))) → dir_map (entries (file_bytes (fs_device s') rd)) = <[name := sec]> N →
  fs_ok x h s' (<[sec := d]> M) (<[name := sec]> N) ∧ same_files M s s' ∧ file_bytes (fs_device s') d = file_bytes (fs_device s) d.
Proof.
  intros Hok Hfr Hrd Hw Hl HN Hnd Hm. pose proof Hok as [Hk Hr Hn Ho]. destruct Hfr as [[F1 F2] F3 F4 F5 F6 _].
  destruct (root_written x h s s' M N (<[name := sec]> N) rd) as (Hk' & Hr' & Ho' & Hsf); [done..|].
  assert (M !! sec = None) as HMs by (apply unowned_None, F5; by left).
  assert (∀ q dq j, M !! q = Some dq → foot q dq j → ¬ foot sec d j) as Hdis by (intros q dq j Hq Hj Hj'; by apply (F5 j Hj' q dq)).
  assert (∀ j, foot sec d j → sector_of (fs_device s') j = sector_of (fs_device s) j) as Hsec.
  { intros j Hj. eapply root_wrote; [done..| |]; [|intros q dq Hq Hjq; by destruct (Hdis q dq j)].
    destruct Hj as [->|Hj]; [done|]. destruct F3. lia. }
  assert (sec ≠ FREE_MAP_SECTOR ∧ sec ≠ ROOT_DIR_SECTOR) as [Hs0 Hs1].
  { destruct (map_of _ _ _ _ _ Hok) as (? & ? & _ & H0 & _). split; intros ->; congruence. }
  assert (size (fs_device s') = size (fs_device s)) as Hsz by (by destruct Hw as (? & ? & -> & _ & _ & ? & _)).
  assert (free_map s' = free_map s) as Hfm by (by destruct Hw as (? & ? & -> & _)).
  split_and!; [split|done|].
  - apply disk_add; try done; [by rewrite Hsz|by rewrite Hsec by (by left)|by eapply extent_size|by rewrite Hfm].
  - destruct Hr' as (rd' & Hrd' & Hrest). exists rd'. by rewrite lookup_insert_ne.
  - destruct Hn as [N1 N2]. split.
    + intros nm q [[<- <-]|[_ Hq]]%lookup_insert_Some; [by rewrite lookup_insert_eq|]. destruct (N1 _ _ Hq) as (Hq1 & ? & ?).
      split; [|done]. by apply lookup_insert_is_Some'; right.
    + intros nm nm' q [[<- <-]|[_ Hq]]%lookup_insert_Some [[<- E]|[_ Hq']]%lookup_insert_Some; [done| | |by eapply N2].
      * apply N1 in Hq' as ([? ?] & _). congruence.
      * subst q. apply N1 in Hq as ([? ?] & _). congruence.
  - destruct Ho' as [H1 H2 H3 H4 H5 H6 H7]. split; try done.
    + intros ip i Hi. destruct (H2 _ _ Hi) as (? & ? & ?). rewrite lookup_insert_ne; [done|]. intros ->. congruence.
    + intros ip i Hi Hrm. destruct (H3 _ _ Hi Hrm) as (? & ? & Hnn). split_and!; [done..|]. intros nm [[<- E]|[_ Hq]]%lookup_insert_Some; [|by apply (Hnn nm)].
      destruct (H2 _ _ Hi) as (? & _). congruence.
    + intros q dq [[<- <-]|[_ Hq]]%lookup_insert_Some; [do 2 right; left; exists name; apply lookup_insert_eq|].
      destruct (H4 _ _ Hq) as [?|[?|[[nm Hnm]|?]]]; [auto..| |auto]. do 2 right. left. exists nm. rewrite lookup_insert_ne; [done|]. congruence.
  - apply bytes_frame; [apply F3|]. intros j Hj. apply Hsec. by right.
Qed.

(** The sector of a creation that failed is given back. *)
Lemma release_unowned x h s M N sec :
  fs_ok x h s M N → 0 ≤ sec < size (fs_device s) → unowned M sec → bit (free_map s) sec = true →
  ∃ s', free_map_release oom sec 1 s = Ok (tt, s') ∧ fs_ok x h s' M N ∧ kept s s' ∧ same_bytes FREE_MAP_SECTOR M s s'.
Proof.
  intros Hok Hsec Hun Hbit. pose proof Hok as [Hk Hr Hn Ho]. destruct (map_of _ _ _ _ _ Hok) as (f & fi & Hmap & H0 & _).
  destruct (free_map_release_ok oom s f fi sec 1) as (s' & b & E & (Hwb & Hcb & Hbits) & Hw);
    [done|lia|lia|rewrite (dk_cnt _ _ _ Hk); lia|intros j Hj; by replace j with sec by lia|].
  assert (fs_ok x h (set_free_map b s) M N) as Hok1.
  { split; [|done|done|by apply (open_frame x h s)]. eapply disk_map; [exact Hk|done..|]. intros q d j Hq Hj Hb.
    rewrite Hbits by (rewrite (dk_cnt _ _ _ Hk); by eapply foot_range). rewrite decide_False; [done|]. intros Hj'.
    assert (j = sec) as -> by lia. by apply (Hun q d). }
  destruct (data_written x h _ s' FREE_MAP_SECTOR (data fi) M N Hok1 H0 ltac:(done) Hw) as [Hok2 Hby].
  exists s'. split_and!; [done|done| |exact Hby]. by destruct Hw as (? & ? & -> & _).
Qed.

(** A sector for the inode, the lowest free one, and a run of free sectors
    besides it. *)
Definition room (fm : bitmap) (cnt : Z) : Prop :=
  ∃ sec, 0 ≤ sec < bit_cnt fm ∧ bit fm sec = false ∧ (∀ j, 0 ≤ j < sec → bit fm j = true) ∧
  ∃ start, 0 ≤ start ∧ start + cnt ≤ bit_cnt fm ∧ ∀ j, start ≤ j < start + cnt → j ≠ sec ∧ bit fm j = false.

Lemma room_first fm fm' sec cnt :
  first_group fm 0 1 false sec → sec ≠ BITMAP_ERROR → bits_set fm fm' sec 1 true → 0 ≤ cnt →
  room fm cnt ↔ ¬ no_group fm' 0 (bit_cnt fm' - cnt + 1) cnt false.
Proof.
  intros [(H1 & H2 & H3 & H4)|[? _]] Hne (Hw & Hc & Hb) Hcnt; [|done].
  assert (∀ j, 0 ≤ j < sec → bit fm j = true) as Hlow.
  { intros j Hj. destruct (bit fm j) eqn:E; [done|]. destruct (H4 j Hj). intros k Hk. by replace k with j by lia. }
  assert (bit fm sec = false) as Hfree by (apply H3; lia).
  split.
  - intros (sec' & Hs1 & Hs2 & Hs3 & start & Hst & Hend & Hrun) Hno.
    assert (sec' = sec) as ->.
    { destruct (Z.lt_trichotomy sec' sec) as [Hlt|[?|Hgt]]; [|done|].
      - rewrite Hlow in Hs2 by lia. done.
      - rewrite Hs3 in Hfree by lia. done. }
    apply (Hno start); [lia|]. intros j Hj. rewrite Hb by lia. destruct (Hrun j Hj) as [? Hbj]. by rewrite decide_False by lia.
  - intros Hno. exists sec. split_and!; [lia|lia|done|done|].
    destruct (bitmap_scan_ok fm' 0 cnt false Hw) as (r & _ & [(R1 & R2 & R3 & _)|[_ Hn]]); [pose proof (wf_cnt _ Hw); lia|done| |done].
    exists r. split_and!; [lia|lia|]. intros j Hj. specialize (R3 j Hj). rewrite Hb in R3 by lia.
    case_decide; [done|]. split; [lia|done].
Qed.

Lemma no_room fm cnt : first_group fm 0 1 false BITMAP_ERROR → wf fm → ¬ room fm cnt.
Proof.
  intros Hg Hw (sec & Hs & Hf & _). pose proof (wf_cnt _ Hw). destruct Hg as [(? & ? & _)|[_ Hn]]; [unfold BITMAP_ERROR, SIZE_MAX in *; lia|].
  apply (Hn sec); [lia|]. intros j Hj. by replace j with sec by lia.
Qed.

(** The part of filesys_create between opening and closing the directory. *)
Definition create_body (junk junk2 : list Z) (dp : Z) (name : list Z) (initial_size : Z) : ST (fs D) (bool * Z) :=
  a ← free_map_allocate oom 1;
  match a with
  | None => mret (false, 0)
  | Some sec =>
      ok ← inode_create oom sec initial_size;
      ok ← (if (ok : bool) then dir_add oom junk junk2 dp name sec else mret false);
      mret (ok, sec)
  end.

Definition can_name N (es : list (list Z)) (name : list Z) : Prop :=
  name ≠ [] ∧ (length name ≤ 14)%nat ∧ N !! name = None ∧ has_free es.

(** What it leaves. *)
Definition create_outcome x h s M N (name : list Z) (n : Z) (ok : bool) (sec : Z) s' : Prop :=
  if ok then M !! sec = None ∧ ∃ d, fs_ok x h s' (<[sec := d]> M) (<[name := sec]> N) ∧ file_bytes (fs_device s') d = repeat 0 (Z.to_nat n)
  else fs_ok x h s' M N ∧ (sec = 0 ∨ 0 ≤ sec < size (fs_device s') ∧ unowned M sec ∧ bit (free_map s') sec = true).

(** The name is entered into the directory. *)
Lemma name_entered x h s M N dp ip pos i junk junk2 name sec d n :
  fs_ok x h s M N → inodes s !! ip = Some i → sector i = ROOT_DIR_SECTOR → dirs s !! dp = Some (ip, pos) →
  entry_ok junk → entry_ok junk2 → name_ok name → fresh_inode s M sec d → d_length d = n →
  ∃ ok s', dir_add oom junk junk2 dp name sec s = Ok (ok, s') ∧ create_outcome x h s M N name n ok sec s' ∧
    kept s s' ∧ same_files M s s' ∧
    (ok = true ↔ can_name N (entries (file_bytes (fs_device s) (data i))) name).
Proof.
  intros Hok Hi Hs Hdp Hj Hj2 Hnm Hfr Hdn. destruct (root_dir_at _ _ _ _ _ _ _ _ _ Hok Hi Hs Hdp) as (Hda & Hm & Hrd & _). set (es := entries _) in *.
  pose proof (fr_sector _ _ _ _ Hfr) as [Hsec _]. destruct (ok_root _ _ _ _ _ Hok) as (rd & Hrd' & Hl & _). assert (rd = data i) as -> by congruence.
  pose proof (ex_size _ _ (dk_extent _ _ _ (ok_disk _ _ _ _ _ Hok) _ _ Hrd)) as Hsz.
  destruct (dir_add_ok oom memory_left s dp ip i es junk junk2 name sec) as (ok & s' & es' & E & Hda' & Hw & Hm' & Hiff); [done..|lia|].
  pose proof (da_entries _ _ _ _ _ Hda') as Ees. pose proof (da_names _ _ _ _ _ Hda') as Hnd. rewrite <-Ees in Hnd, Hm'.
  rewrite Hm in *. exists ok, s'. assert (kept s s') as Hkept by (by destruct Hw as (? & ? & -> & _)).
  destruct ok.
  - destruct Hiff as [Hiff _]. destruct Hiff as (? & ? & Hno & ?); [done|].
    destruct (file_named x h s s' M N (data i) sec d name) as (Hok' & Hsf & Hby); [done..|].
    split_and!; [done| |done|done|done]. split; [by apply unowned_None, (fr_unowned _ _ _ _ Hfr); left|].
    exists d. split; [done|]. rewrite Hby, (fr_zero _ _ _ _ Hfr). by rewrite Hdn.
  - destruct (root_written x h s s' M N N (data i)) as (Hk' & Hr' & Ho' & Hsf); [done..|].
    split_and!; [done| |done|done|done]. split; [by split; [..|apply Hok|]|]. right.
    destruct Hw as (b & a & -> & _ & _ & Hsz' & _). simpl. rewrite Hsz'.
    split_and!; [lia|lia|apply (fr_unowned _ _ _ _ Hfr); by left|apply (fr_alloc _ _ _ _ Hfr); by left].
Qed.

Lemma create_body_ok x h s M N dp ip pos i junk junk2 name n :
  fs_ok x h s M N → inodes s !! ip = Some i → sector i = ROOT_DIR_SECTOR → dirs s !! dp = Some (ip, pos) →
  entry_ok junk → entry_ok junk2 → name_ok name → 0 ≤ n < 2 ^ 31 - 512 →
  ∃ ok sec s', create_body junk junk2 dp name n s = Ok ((ok, sec), s') ∧ create_outcome x h s M N name n ok sec s' ∧
    kept s s' ∧ same_files M s s' ∧
    (ok = true ↔ can_name N (entries (file_bytes (fs_device s) (data i))) name ∧ room (free_map s) ((n + 511) / 512)).
Proof.
  intros Hok Hi Hs Hdp Hj Hj2 Hnm Hn. unfold create_body. set (cnt := (n + 511) / 512). assert (0 ≤ cnt) as Hcnt by (unfold cnt; dlia).
  destruct (free_map_allocate_held oom memory_left x h s M N 1 Hok ltac:(lia)) as (r & s1 & E1 & Hok1 & Hkept1 & Hby1 & Hsz1 & Hr).
  erewrite bind_ok by exact E1. destruct r as [sec|].
  2:{ exists false, 0, s1. split_and!; [done|split; [done|by left]|done|by apply same_bytes_files|].
      split; [done|]. intros [_ []%no_room]; [apply Hr|apply Hok]. }
  destruct Hr as (Hg & Hne & Hset). pose proof (room_first _ _ _ cnt Hg Hne Hset Hcnt) as Hroom.
  destruct Hg as [(H1 & H2 & H3 & _)|[? _]]; [|done]. rewrite (dk_cnt _ _ _ (ok_disk _ _ _ _ _ Hok)) in H2.
  assert (unowned M sec) as Hun.
  { intros q d Hq Hf. pose proof (dk_alloc _ _ _ (ok_disk _ _ _ _ _ Hok) _ _ _ Hq Hf) as Hb. rewrite (H3 sec) in Hb by lia. done. }
  assert (bit (free_map s1) sec = true) as Hbit.
  { destruct Hset as (_ & _ & Hb). rewrite Hb by (rewrite (dk_cnt _ _ _ (ok_disk _ _ _ _ _ Hok)); lia). by rewrite decide_True by lia. }
  destruct (inode_create_held oom memory_left x h s1 M N sec n Hok1 Hn ltac:(lia) Hun Hbit) as (ok & s2 & E2 & Hok2 & Hkept2 & Hby2 & Hsz2 & Hres).
  erewrite bind_ok by exact E2. fold cnt in Hres. destruct Hkept1 as (K1 & K2 & K3 & K4), Hkept2 as (K5 & K6 & K7 & K8).
  assert (kept s s2) as Hkept by (unfold kept; split_and!; congruence).
  assert (same_bytes FREE_MAP_SECTOR M s s2) as Hby by (by eapply same_bytes_trans).
  destruct ok.
  - destruct Hres as (start & Hfr & [(G1 & G2 & G3 & _)|[? _]] & Hnerr); [|done].
    destruct (name_entered x h s2 M N dp ip pos i junk junk2 name sec _ n Hok2 ltac:(congruence) Hs ltac:(congruence) Hj Hj2 Hnm Hfr eq_refl)
      as (ok & s3 & E3 & Hout & (K9 & K10 & K11 & K12) & Hsf & Hiff).
    erewrite bind_ok by exact E3. exists ok, sec, s3. split_and!; [done|done|unfold kept; split_and!; congruence| |].
    + eapply same_files_trans; [by apply same_bytes_files|done].
    + destruct (root_dir_at _ _ _ _ _ _ _ _ _ Hok Hi Hs Hdp) as (_ & _ & Hrd & _).
      rewrite (Hby _ _ Hrd ltac:(done)) in Hiff. rewrite Hiff, Hroom. split; [|tauto]. intros Hcan. split; [done|]. intros Hno. by apply (Hno start); [lia|].
  - erewrite bind_ok by done. exists false, sec, s2. split_and!; [done| |done|by apply same_bytes_files|].
    + split; [done|]. right. destruct Hres as [_ Hfm]. rewrite Hfm. split_and!; [lia|lia|done|done].
    + split; [done|]. rewrite Hroom. intros [_ Hno]. destruct Hno. destruct Hres as [[(? & ? & _)|[_ Hno]] _]; [|done].
      pose proof (wf_cnt _ (dk_wf _ _ _ (ok_disk _ _ _ _ _ Hok1))). unfold BITMAP_ERROR, SIZE_MAX in *. lia.
Qed.

Lemma filesys_create_held x h s M N junk junk2 name n :
  fs_ok x h s M N → Z.of_nat (base.size h) + Z.of_nat (length x) < 2 ^ 31 - 1 →
  entry_ok junk → entry_ok junk2 → name_ok name → 0 ≤ n < 2 ^ 31 - 512 →
  ∃ ok s', filesys_create oom junk junk2 name n s = Ok (ok, s') ∧ free_map_file s' = free_map_file s ∧
    same_files M s s' ∧ same_handles h s s' ∧
    (if ok : bool then ∃ sec d, M !! sec = None ∧ fs_ok x h s' (<[sec := d]> M) (<[name := sec]> N) ∧
       file_bytes (fs_device s') d = repeat 0 (Z.to_nat n)
     else fs_ok x h s' M N) ∧
    ∃ rd, M !! ROOT_DIR_SECTOR = Some rd ∧
      (ok = true ↔ can_name N (entries (file_bytes (fs_device s) rd)) name ∧ room (free_map s) ((n + 511) / 512)).
Proof.
  intros Hok Hb Hj Hj2 Hnm Hn. unfold filesys_create.
  destruct (root_opened x h s M N Hok ltac:(lia)) as (dp & ip & s1 & i & E1 & Hdp & Hok1 & Hi & Hs & Hdir & Hfm1 & Hmf1 & Hsd1 & Hsh1).
  erewrite bind_ok by exact E1. rewrite (proj2 (Z.eqb_neq _ _) Hdp).
  destruct (create_body_ok (ip :: x) h s1 M N dp ip 0 i junk junk2 name n) as (ok & sec & s2 & E2 & Hout & (K1 & K2 & K3 & K4) & Hsf & Hiff); [done..|].
  unfold create_body in E2. erewrite bind_ok by exact E2. cbn [fst snd]. 
  destruct (root_dir_at _ _ _ _ _ _ _ _ _ Hok1 Hi Hs Hdir) as (_ & _ & Hrd & _).
  pose proof (same_disk_same_bytes _ _ s s1 _ _ FREE_MAP_SECTOR Hok Hsd1) as Hby1. rewrite Hfm1, (Hby1 _ _ Hrd ltac:(done)) in Hiff.
  rewrite <-K2 in Hdir. rewrite <-K4 in Hi. pose proof (same_handles_refl h s1 s2 K4) as Hsh2.
  destruct ok; cbn [negb andb].
  - destruct Hout as (HM & d & Hok2 & Hz). erewrite bind_ok by done.
    destruct (root_closed x h s2 _ _ dp ip 0 i Hok2 Hi Hs Hdir Hdp) as (s3 & E3 & Hok3 & Hmf3 & Hby3 & Hsh3 & _). erewrite bind_ok by exact E3.
    exists true, s3. split_and!; [done|congruence| | | |by exists (data i)].
    + eapply same_files_trans; [by apply same_bytes_files|]. eapply same_files_trans; [exact Hsf|]. intros q dq Hq H0 _. apply (Hby3 q); [|done].
      rewrite lookup_insert_ne; [done|]. congruence.
    + eapply same_handles_trans; [exact Hsh1|]. by eapply same_handles_trans.
    + exists sec, d. split_and!; [done|done|]. rewrite (Hby3 sec d) by (apply lookup_insert_eq || intros ->; destruct (map_of _ _ _ _ _ Hok) as (? & ? & _ & ? & _); congruence).
      done.
  - assert (∃ s3, (if negb (sec =? 0) then free_map_release oom sec 1 else mret tt) s2 = Ok (tt, s3) ∧ fs_ok (ip :: x) h s3 M N ∧
      kept s2 s3 ∧ same_bytes FREE_MAP_SECTOR M s2 s3) as (s3 & E3 & Hok3 & (K5 & K6 & K7 & K8) & Hby3).
    { destruct Hout as [Hok2 Hsec]. destruct (Z.eqb_spec sec 0) as [->|Hne]; [by exists s2|].
      destruct Hsec as [?|(? & ? & ?)]; [done|]. by apply release_unowned. }
    erewrite bind_ok by exact E3. rewrite <-K6 in Hdir. rewrite <-K8 in Hi.
    destruct (root_closed x h s3 _ _ dp ip 0 i Hok3 Hi Hs Hdir Hdp) as (s4 & E4 & Hok4 & Hmf4 & Hby4 & Hsh4 & _). erewrite bind_ok by exact E4.
    exists false, s4. split_and!; [done|congruence| | |done|by exists (data i)].
    + eapply same_files_trans; [by apply same_bytes_files|]. eapply same_files_trans; [exact Hsf|]. apply same_bytes_files. by eapply same_bytes_trans.
    + eapply same_handles_trans; [exact Hsh1|]. eapply same_handles_trans; [exact Hsh2|]. eapply same_handles_trans; [|exact Hsh4].
      by apply same_handles_refl.
Qed.

(** ** filesys_remove *)

(** The entry of a file is erased, and its inode is marked. *)
Lemma file_unnamed x h s s' M N rd q t name :
  fs_ok x h s M N → M !! ROOT_DIR_SECTOR = Some rd → wrote_fs rd s s' → d_length rd mod 20 = 0 →
  N !! name = Some (sector t) → inodes s !! q = Some t →
  NoDup (names (entries (file_bytes (fs_device s') rd))) → dir_map (entries (file_bytes (fs_device s') rd)) = delete name N →
  fs_ok x h (mark_state q t s') M (delete name N) ∧ same_files M s s'.
Proof.
  intros Hok Hrd Hw Hl HN Hq Hnd Hm. pose proof Hok as [Hk Hr Hn Ho].
  destruct (root_written x h s s' M N (delete name N) rd) as (Hk' & Hr' & Ho' & Hsf); [done..|]. split; [|done].
  assert (inodes s' = inodes s) as Hin by (by destruct Hw as (? & ? & -> & _)).
  assert (inodes s' !! q = Some t) as Hq' by (by rewrite Hin).
  destruct (nm_in _ _ Hn _ _ HN) as (_ & Hz & Hone). split; [done|done| |].
  - destruct Hn as [N1 N2]. split.
    + intros nm sec [_ Hnm]%lookup_delete_Some. by eapply N1.
    + intros nm nm' sec [_ Hnm]%lookup_delete_Some [_ Hnm']%lookup_delete_Some. by eapply N2.
  - destruct Ho' as [H1 H2 H3 H4 H5 H6 H7].
    assert (∀ p u, <[q := mark_removed t]> (inodes s') !! p = Some u → ∃ u0, inodes s' !! p = Some u0 ∧ sector u = sector u0 ∧
      data u = data u0 ∧ open_cnt u = open_cnt u0 ∧ deny_write_cnt u = deny_write_cnt u0 ∧ (p ≠ q → u = u0)) as Hl1.
    { intros p u [[<- <-]|[Hne Hp]]%lookup_insert_Some; [by exists t|by exists u]. }
    assert (∀ p u, inodes s' !! p = Some u → ∃ u', <[q := mark_removed t]> (inodes s') !! p = Some u' ∧ sector u' = sector u ∧ data u' = data u ∧
      (removed u = true → removed u' = true)) as Hl2.
    { intros p u Hp. destruct (decide (p = q)) as [->|Hne]; [|exists u; by rewrite lookup_insert_ne].
      assert (u = t) as -> by congruence. exists (mark_removed t). by rewrite lookup_insert_eq. }
    split; simpl.
    + apply (table_update s' q t); [done..|]. exact (tb_cnt _ H1 _ _ Hq').
    + intros p u (u0 & Hp & -> & -> & -> & -> & _)%Hl1. by apply H2.
    + intros p u Hp Hrm. destruct (Hl1 _ _ Hp) as (u0 & Hp0 & Es & _ & _ & _ & Hsame). rewrite Es. destruct (decide (p = q)) as [->|Hne].
      * assert (u0 = t) as -> by congruence. split_and!; [done..|]. intros nm [Hne Hnm]%lookup_delete_Some. apply Hne. by apply (nm_inj _ _ Hn name nm (sector t)).
      * rewrite (Hsame Hne) in Hrm. destruct (H3 _ _ Hp0 Hrm) as (? & ? & Hnn). split_and!; [done..|].
        intros nm [_ Hnm]%lookup_delete_Some. by apply (Hnn nm).
    + intros sec d Hd. destruct (H4 _ _ Hd) as [?|[?|[[nm Hnm]|(p & u & [Hp Hps] & Hrm)]]]; [auto..| |].
      * destruct (decide (nm = name)) as [->|Hne]; [|do 2 right; left; exists nm; by rewrite lookup_delete_ne].
        do 3 right. exists q, (mark_removed t). assert (sec = sector t) as -> by congruence. split; [|done]. split; [|done]. simpl. apply lookup_insert_eq.
      * do 3 right. destruct (Hl2 _ _ Hp) as (u' & Hu' & Es & _ & Hr''). exists p, u'. split; [|by apply Hr'']. split; [done|congruence].
    + intros fp f Hf. destruct (H5 _ _ Hf) as (? & ? & ? & u & Hu & ? & ?). destruct (Hl2 _ _ Hu) as (u' & Hu' & Es & _ & _).
      split_and!; [done|lia|lia|lia|lia|]. exists u'. by rewrite Es.
    + destruct H6 as (f & u & Hf & Hdw & Hu & E0 & Hb). destruct (Hl2 _ _ Hu) as (u' & Hu' & Es & Ed & _). exists f, u'. by rewrite Es, Ed.
    + intros p Hp. destruct (H7 _ Hp) as [u Hu]. destruct (Hl2 _ _ Hu) as (u' & Hu' & _). eauto.
Qed.

(** The rest of dir_remove, once the entry is found and its inode [q] is open. *)
Lemma unlink_held x h s M N dp ip pos i q t k e :
  fs_ok (q :: ip :: x) h s M N → inodes s !! ip = Some i → sector i = ROOT_DIR_SECTOR → dirs s !! dp = Some (ip, pos) →
  inodes s !! q = Some t → q ≠ ip → N !! e_name e = Some (sector t) →
  entries (file_bytes (fs_device s) (data i)) !! k = Some e → in_use e = true →
  ∃ s', (d ← get_dir dp;
      n ← inode_write_at oom (fst d) (set_in_use false e) entry_size (20 * Z.of_nat k);
      if negb (n =? entry_size) then inode_close oom q;; mret false
      else inode_remove q;; inode_close oom q;; mret true) s = Ok (true, s') ∧
    dirs s' = dirs s ∧ free_map_file s' = free_map_file s ∧ same_files M s s' ∧ same_handles h s s' ∧ inodes s' !! ip = Some i ∧
    fs_ok (ip :: x) h s' (if refs (ip :: x) h q =? 0 then delete (sector t) M else M) (delete (e_name e) N).
Proof.
  intros Hok Hi Hs Hdp Ht Hne HN Hk Hu. destruct (root_dir_at _ _ _ _ _ _ _ _ _ Hok Hi Hs Hdp) as (Hda & Hm & Hrd & _). set (es := entries _) in *.
  destruct (erase_ok oom memory_left s dp ip i es k e Hda Hk Hu) as (s1 & es' & E1 & Hda1 & Hw & Hm1). rewrite Hm in Hm1.
  pose proof (da_entries _ _ _ _ _ Hda1) as Ees. pose proof (da_names _ _ _ _ _ Hda1) as Hnd. rewrite <-Ees in Hnd, Hm1.
  destruct (file_unnamed _ h s s1 M N (data i) q t (e_name e) Hok Hrd Hw) as [Hok1 Hsf1]; [apply Hda|done..|].
  assert (inodes s1 = inodes s ∧ dirs s1 = dirs s ∧ free_map_file s1 = free_map_file s) as (Hin & Hd1 & Hmf1) by (by destruct Hw as (? & ? & -> & _)).
  assert (inode_remove q s1 = Ok (tt, mark_state q t s1)) as E2 by (unfold inode_remove; by erewrite bind_ok by (apply get_inode_ok; by rewrite Hin)).
  destruct (inode_close_held oom _ h _ _ _ q (mark_removed t) Hok1) as (s2 & E3 & Hok2 & _ & Hd2 & Hmf2 & Hby2 & Hsh2 & Hrest); [apply lookup_insert_eq|].
  exists s2. split_and!.
  - erewrite bind_ok by (unfold get_dir; by rewrite Hdp). simpl fst. erewrite bind_ok by exact E1.
    change (negb (20 =? entry_size)) with false. cbv iota. erewrite bind_ok by exact E2. by erewrite bind_ok by exact E3.
  - rewrite Hd2. simpl. by rewrite Hd1.
  - rewrite Hmf2. simpl. by rewrite Hmf1.
  - eapply same_files_trans; [exact Hsf1|]. by apply same_bytes_files.
  - eapply same_handles_trans; [|exact Hsh2]. eapply same_handles_trans; [by apply same_handles_refl|].
    apply (same_handles_update h s1 q t); [by rewrite Hin|done].
  - apply Hrest; [by apply not_eq_sym|]. simpl. rewrite lookup_insert_ne by done. by rewrite Hin.
  - exact Hok2.
Qed.

(** dir_remove between opening and closing the directory: [q] is the inode of
    the file, and [h] refers to it where it is open. *)
Lemma dir_remove_held x h s M N dp ip pos i junk name :
  fs_ok (ip :: x) h s M N → inodes s !! ip = Some i → sector i = ROOT_DIR_SECTOR → dirs s !! dp = Some (ip, pos) → entry_ok junk →
  Z.of_nat (base.size h) + Z.of_nat (length (ip :: x)) < 2 ^ 31 - 1 →
  ∃ ok s', dir_remove oom junk dp name s = Ok (ok, s') ∧ dirs s' = dirs s ∧ free_map_file s' = free_map_file s ∧
    same_files M s s' ∧ same_handles h s s' ∧ inodes s' !! ip = Some i ∧
    match N !! name with
    | Some sec => ok = true ∧ ∃ q, q ≠ ip ∧
        fs_ok (ip :: x) h s' (if refs (ip :: x) h q =? 0 then delete sec M else M) (delete name N) ∧
        ∀ fp f t, h !! fp = Some f → inodes s !! f_inode f = Some t → f_inode f = q ↔ sector t = sec
    | None => ok = false ∧ fs_ok (ip :: x) h s' M N
    end.
Proof.
  intros Hok Hi Hs Hdp Hj Hb. destruct (root_lookup _ h s M N dp ip pos i junk name Hok Hi Hs Hdp Hj) as (r & s1 & E1 & Hok1 & Hsame & Hr).
  pose proof (same_disk_same_bytes _ _ _ _ _ _ FREE_MAP_SECTOR Hok (same_fs_same_disk _ _ Hsame)) as Hby1. destruct (root_dir_at _ _ _ _ _ _ _ _ _ Hok Hi Hs Hdp) as (_ & _ & Hrd & _).
  destruct Hsame as (b & a & -> & _ & _). set (s1 := set_allocs a (set_device b s)) in *. unfold dir_remove. erewrite bind_ok by exact E1.
  destruct r as [[e ofs]|].
  2:{ rewrite Hr. exists false, s1. split_and!; try done; [by apply same_bytes_files|by apply same_handles_refl]. }
  destruct Hr as (HN & k & Hk & -> & Hu & He). rewrite HN. destruct (nm_in _ _ (ok_names _ _ _ _ _ Hok1) _ _ HN) as ([d Hd] & Hz & Hone).
  destruct (inode_open_held oom memory_left _ h s1 M N _ _ Hok1 Hd Hb) as (q & s2 & t & E2 & Hq & Hok2 & Ht & Hts & _ & _ & Hdirs & _ & Hmf & Hsd2 & Hsh & Hrest).
  assert (∀ p u, inodes s !! p = Some u → ∃ u', inodes s2 !! p = Some u' ∧ sector u' = sector u) as Hsec.
  { intros p u Hp. by destruct (Hsh {[0 := mk_file p 0 false]} 0 (mk_file p 0 false) u) as (u' & ? & ?); [apply lookup_singleton_eq|done|exists u']. }
  assert (q ≠ ip) as Hne by (intros ->; destruct (Hsec _ _ Hi) as (i' & ? & ?); congruence).
  assert (inodes s2 !! ip = Some i) as Hi2 by (apply Hrest; [by apply not_eq_sym|done]).
  assert (dirs s2 = dirs s) as Hd2 by done. rewrite <-Hd2 in Hdp.
  pose proof (same_disk_same_bytes _ _ _ _ _ _ FREE_MAP_SECTOR Hok1 Hsd2) as Hby2.
  destruct (unlink_held x h s2 M N dp ip pos i q t k e Hok2 Hi2 Hs Hdp Ht Hne) as (s3 & E3 & Hd3 & Hmf3 & Hsf3 & Hsh3 & Hi3 & Hok3);
    [congruence|by rewrite (Hby2 _ _ Hrd ltac:(done)), (Hby1 _ _ Hrd ltac:(done))|done|]. rewrite He, Hts in Hok3.
  exists true, s3. split_and!; [|congruence|by rewrite Hmf3, Hmf| | |done|done|].
  - erewrite bind_ok by exact E2. rewrite (proj2 (Z.eqb_neq _ _) Hq). exact E3.
  - eapply same_files_trans; [apply same_bytes_files, (same_bytes_trans _ _ _ _ _ Hby1 Hby2)|done].
  - eapply same_handles_trans; [exact (Hsh h)|exact Hsh3].
  - exists q. split_and!; [done|done|]. intros fp f u Hf Hfu. destruct (Hsec _ _ Hfu) as (u' & Hu' & Es). split; [intros E; rewrite E in *; congruence|].
    intros E. eapply (tb_sector _ (op_table _ _ _ _ _ (ok_open _ _ _ _ _ Hok2))); [exact Hu'|exact Ht|congruence].
Qed.

Lemma filesys_remove_held h s M N junk name :
  fs_ok [] h s M N → Z.of_nat (base.size h) + 1 < 2 ^ 31 - 1 → entry_ok junk →
  ∃ ok s' M', filesys_remove oom junk name s = Ok (ok, s') ∧ free_map_file s' = free_map_file s ∧
    same_files M' s s' ∧ same_handles h s s' ∧
    match N !! name with
    | Some sec => ok = true ∧ fs_ok [] h s' M' (delete name N) ∧
        ((∃ fp f t, h !! fp = Some f ∧ inodes s !! f_inode f = Some t ∧ sector t = sec) ∧ M' = M ∨
         (∀ fp f t, h !! fp = Some f → inodes s !! f_inode f = Some t → sector t ≠ sec) ∧ M' = delete sec M)
    | None => ok = false ∧ M' = M ∧ fs_ok [] h s' M N
    end.
Proof.
  intros Hok Hb Hj. unfold filesys_remove.
  destruct (root_opened [] h s M N Hok ltac:(simpl; lia)) as (dp & ip & s1 & i & E1 & Hdp & Hok1 & Hi & Hs & Hdir & _ & Hmf1 & Hsd1 & Hsh1).
  erewrite bind_ok by exact E1. rewrite (proj2 (Z.eqb_neq _ _) Hdp).
  destruct (dir_remove_held [] h s1 M N dp ip 0 i junk name Hok1 Hi Hs Hdir Hj) as (ok & s2 & E2 & Hd2 & Hmf2 & Hsf2 & Hsh2 & Hi2 & Hres); [simpl; lia|].
  erewrite bind_ok by exact E2. rewrite <-Hd2 in Hdir.
  pose proof (same_bytes_files _ _ _ (same_disk_same_bytes _ _ _ _ _ _ FREE_MAP_SECTOR Hok Hsd1)) as Hsf1.
  assert (∀ M' N', fs_ok [ip] h s2 M' N' → M' ⊆ M → ∃ s', (dir_close oom dp;; mret ok) s2 = Ok (ok, s') ∧ free_map_file s' = free_map_file s ∧
    same_files M' s s' ∧ same_handles h s s' ∧ fs_ok [] h s' M' N') as Hclose.
  { intros M' N' Hok2 Hsub. destruct (root_closed [] h s2 M' N' dp ip 0 i Hok2 Hi2 Hs Hdir Hdp) as (s3 & E3 & Hok3 & Hmf3 & Hby3 & Hsh3 & _).
    exists s3. split_and!; [by erewrite bind_ok by exact E3|congruence| | |done].
    - intros sec d Hd H0 H1. pose proof (lookup_weaken _ _ _ _ Hd Hsub) as HdM.
      rewrite (Hby3 _ _ Hd H0), (Hsf2 _ _ HdM H0 H1). by apply (Hsf1 sec).
    - eapply same_handles_trans; [exact Hsh1|]. by eapply same_handles_trans. }
  exists ok. destruct (N !! name) as [sec|].
  - destruct Hres as (-> & q & Hq & Hok2 & Huse).
    assert (refs [ip] h q = count (λ f, f_inode f = q) h) as Hrefs.
    { unfold refs. rewrite held_cons, decide_False by (by apply not_eq_sym). unfold held. simpl. lia. }
    destruct (Hclose _ _ Hok2) as (s' & E & ? & ? & ? & ?); [destruct (_ =? _); [apply delete_subseteq|done]|].
    exists s'. eexists. split_and!; [done..|]. rewrite Hrefs. destruct (Z.eqb_spec (count (λ f, f_inode f = q) h) 0) as [Hz|Hnz].
    + right. split; [|done]. intros fp f t Hf Ht <-. destruct (Hsh1 _ _ _ Hf Ht) as (t1 & Ht1 & Es).
      pose proof (proj2 (Huse _ _ _ Hf Ht1) Es) as Efq. pose proof (count_pos (λ f, f_inode f = q) h fp f Hf Efq). lia.
    + left. split; [|done]. destruct (count_some _ _ Hnz) as (fp & f & Hf & Efq). exists fp, f.
      destruct (op_file _ _ _ _ _ (ok_open _ _ _ _ _ Hok) _ _ Hf) as (_ & _ & _ & t & Ht & _). exists t. split_and!; [done..|].
      destruct (Hsh1 _ _ _ Hf Ht) as (t1 & Ht1 & Es). rewrite <-Es. by apply (Huse _ _ _ Hf Ht1).
  - destruct Hres as [-> Hok2]. destruct (Hclose M N Hok2 ltac:(done)) as (s' & E & ? & ? & ? & ?). exists s', M. by split_and!.
Qed.

End filesys.
