(* ===== verification/FilesysRefine.v ===== *)
(** * The file system implements an abstract file system

    The abstract file system has names for numbered files, the bytes of every
    file, and open files with a position and a flag that denies writing.  A
    file that has been removed keeps its bytes until the last open file on it
    is closed.  [filesys_refines] is the forward simulation: every call of
    filesys/filesys.c and file.c returns, with the result and the effect that
    the abstract file system allows. *)

From S2P Require Import Prelude Bytes Block Bitmap Inode InodeSpec InodeTable Directory DirSpec FsState FsCalls FilesysSpec.

(** ** The abstract file system *)

Record afs := mk_afs {
  a_names : gmap (list Z) Z;
  a_data : gmap Z (list Z);
  a_open : gmap Z (Z * Z * bool)
}.

Definition set_handle (fp : Z) (x : Z * Z * bool) (a : afs) : afs := mk_afs (a_names a) (a_data a) (<[fp := x]> (a_open a)).

Inductive call :=
  | Create (name : list Z) (n : Z)
  | Open (name : list Z)
  | Remove (name : list Z)
  | Read (fp n : Z)
  | Write (fp : Z) (buf : list Z) (n : Z)
  | Seek (fp p : Z)
  | Tell (fp : Z)
  | Length (fp : Z)
  | DenyWrite (fp : Z)
  | AllowWrite (fp : Z)
  | Close (fp : Z).

Inductive value := VUnit | VBool (b : bool) | VInt (n : Z) | VBytes (bs : list Z).

(** What a caller has to respect. *)
Definition legal (a : afs) (c : call) : Prop :=
  Z.of_nat (base.size (a_open a)) < 2 ^ 31 - 4 ∧
  match c with
  | Create name n => name_ok name ∧ 0 ≤ n < 2 ^ 31 - 512
  | Open _ | Remove _ => True
  | Read fp n => is_Some (a_open a !! fp) ∧ 0 ≤ n < 2 ^ 31
  | Write fp buf n => is_Some (a_open a !! fp) ∧ 0 ≤ n < 2 ^ 31 ∧ n ≤ Z.of_nat (length buf) ∧ Forall byte_ok buf
  | Seek fp p => is_Some (a_open a !! fp) ∧ 0 ≤ p < 2 ^ 31
  | Tell fp | Length fp | DenyWrite fp | AllowWrite fp | Close fp => is_Some (a_open a !! fp)
  end.

(** The bytes of a file without a name go when it is closed everywhere. *)
Definition used (a : afs) (sec : Z) : Prop :=
  (∃ name, a_names a !! name = Some sec) ∨ ∃ fp p b, a_open a !! fp = Some (sec, p, b).
Definition collected (a : afs) (sec : Z) (a' : afs) : Prop :=
  used a sec ∧ a' = a ∨ ¬ used a sec ∧ a' = mk_afs (a_names a) (delete sec (a_data a)) (a_open a).

Definition write_denied (a : afs) (sec : Z) : Prop := ∃ fp p, a_open a !! fp = Some (sec, p, true).

(** The result of a call and the state after it. *)
Definition allows (a : afs) (c : call) (v : value) (a' : afs) : Prop :=
  match c with
  | Create name n => ∃ ok, v = VBool ok ∧
      if ok : bool then name ≠ [] ∧ (length name ≤ 14)%nat ∧ a_names a !! name = None ∧
        ∃ sec, a_data a !! sec = None ∧ a' = mk_afs (<[name := sec]> (a_names a)) (<[sec := repeat 0 (Z.to_nat n)]> (a_data a)) (a_open a)
      else a' = a
  | Open name =>
      match a_names a !! name with
      | Some sec => ∃ fp, v = VInt fp ∧ fp ≠ NULL ∧ a_open a !! fp = None ∧ a' = set_handle fp (sec, 0, false) a
      | None => v = VInt NULL ∧ a' = a
      end
  | Remove name =>
      match a_names a !! name with
      | Some sec => v = VBool true ∧ collected (mk_afs (delete name (a_names a)) (a_data a) (a_open a)) sec a'
      | None => v = VBool false ∧ a' = a
      end
  | Read fp _ | Write fp _ _ | Seek fp _ | Tell fp | Length fp | DenyWrite fp | AllowWrite fp | Close fp =>
      ∃ sec p b bs, a_open a !! fp = Some (sec, p, b) ∧ a_data a !! sec = Some bs ∧
      match c with
      | Read _ n => v = VBytes (slice p n bs) ∧ a' = set_handle fp (sec, p + Z.of_nat (length (slice p n bs)), b) a
      | Write _ buf n => ∃ k, v = VInt k ∧
          (write_denied a sec ∧ k = 0 ∨ ¬ write_denied a sec ∧ k = Z.max 0 (Z.min n (Z.of_nat (length bs) - p))) ∧
          a' = mk_afs (a_names a) (<[sec := overwrite p (slice 0 k buf) bs]> (a_data a)) (<[fp := (sec, p + k, b)]> (a_open a))
      | Seek _ q => v = VUnit ∧ a' = set_handle fp (sec, q, b) a
      | Tell _ => v = VInt p ∧ a' = a
      | Length _ => v = VInt (Z.of_nat (length bs)) ∧ a' = a
      | DenyWrite _ => v = VUnit ∧ a' = set_handle fp (sec, p, true) a
      | AllowWrite _ => v = VUnit ∧ a' = set_handle fp (sec, p, false) a
      | _ => v = VUnit ∧ collected (mk_afs (a_names a) (a_data a) (delete fp (a_open a))) sec a'
      end
  end.

(** Names and open files belong to files that exist, and those hold bytes. *)
Record afs_ok (a : afs) : Prop := {
  af_data sec bs : a_data a !! sec = Some bs → Forall byte_ok bs ∧ Z.of_nat (length bs) < 2 ^ 31 - 512;
  af_names name sec : a_names a !! name = Some sec → is_Some (a_data a !! sec);
  af_open fp sec p b : a_open a !! fp = Some (sec, p, b) → is_Some (a_data a !! sec) ∧ 0 ≤ p < 2 ^ 31
}.

(** What a file system promises to its clients. *)
Class FileSystem (F : Type) := {
  fs_call : call → ST F value;
  fs_abs : F → afs → Prop;
  fs_abs_ok s a : fs_abs s a → afs_ok a;
  fs_call_ok s a c : fs_abs s a → legal a c → ∃ v s' a', fs_call c s = Ok (v, s') ∧ allows a c v a' ∧ fs_abs s' a'
}.

Section refine.
Context {D : Type} `{BD : BlockDriver D}.
Variable oom : nat → bool.
Hypothesis memory_left : ∀ n, oom n = false.
(** What the local variables of the directory functions hold at first. *)
Variables junk junk2 : list Z.
Hypothesis junk_ok : entry_ok junk.
Hypothesis junk2_ok : entry_ok junk2.
Implicit Types s : fs D.
Implicit Types M : gmap Z inode_disk.

(** ** The implementation *)

Definition run_call (c : call) : ST (fs D) value :=
  match c with
  | Create name n => ok ← filesys_create oom junk junk2 name n; mret (VBool ok)
  | Open name => fp ← filesys_open oom junk name; mret (VInt fp)
  | Remove name => ok ← filesys_remove oom junk name; mret (VBool ok)
  | Read fp n => bs ← file_read oom fp n; mret (VBytes bs)
  | Write fp buf n => k ← file_write oom fp buf n; mret (VInt k)
  | Seek fp p => file_seek fp p;; mret VUnit
  | Tell fp => p ← file_tell fp; mret (VInt p)
  | Length fp => n ← file_length fp; mret (VInt n)
  | DenyWrite fp => file_deny_write fp;; mret VUnit
  | AllowWrite fp => file_allow_write fp;; mret VUnit
  | Close fp => file_close oom fp;; mret VUnit
  end.

(** ** The abstraction *)

Definition view s (f : file) : option (Z * Z * bool) := i ← inodes s !! f_inode f; Some (sector i, f_pos f, deny_write f).

Definition data_of s M : gmap Z (list Z) := file_bytes (fs_device s) <$> delete ROOT_DIR_SECTOR (delete FREE_MAP_SECTOR M).
Definition handles_of s (h : gmap Z file) : gmap Z (Z * Z * bool) := omap (view s) (delete (free_map_file s) h).

Definition abstracts s (a : afs) : Prop :=
  ∃ h M, fs_ok [] h s M (a_names a) ∧ a_data a = data_of s M ∧ a_open a = handles_of s h.

Lemma data_lookup s M sec bs :
  data_of s M !! sec = Some bs ↔ ∃ d, M !! sec = Some d ∧ sec ≠ FREE_MAP_SECTOR ∧ sec ≠ ROOT_DIR_SECTOR ∧ bs = file_bytes (fs_device s) d.
Proof.
  unfold data_of. rewrite lookup_fmap_Some. setoid_rewrite lookup_delete_Some. setoid_rewrite lookup_delete_Some. naive_solver.
Qed.

Lemma handle_lookup s h fp sec p b :
  handles_of s h !! fp = Some (sec, p, b) ↔
  fp ≠ free_map_file s ∧ ∃ f i, h !! fp = Some f ∧ inodes s !! f_inode f = Some i ∧ sec = sector i ∧ p = f_pos f ∧ b = deny_write f.
Proof.
  unfold handles_of. rewrite lookup_omap_Some. setoid_rewrite lookup_delete_Some. unfold view. split.
  - intros (f & Hv & Hne & Hf). split; [by apply not_eq_sym|]. destruct (inodes s !! f_inode f) as [i|] eqn:Hi; [|done].
    simpl in Hv. simplify_eq. by exists f, i.
  - intros (Hne & f & i & Hf & Hi & -> & -> & ->). exists f. rewrite Hi. split_and!; [done|by apply not_eq_sym|done].
Qed.

(** ** Frames *)

Lemma data_same s s' M : same_files M s s' → data_of s' M = data_of s M.
Proof.
  intros Hs. apply map_eq. intros sec. apply option_eq. intros bs. rewrite !data_lookup.
  split; intros (d & Hd & H0 & H1 & ->); exists d; split_and!; try done; [|symmetry]; by apply (Hs sec).
Qed.

Lemma data_insert x h s s' M N sec d :
  fs_ok x h s M N → same_files M s s' → M !! sec = None → data_of s' (<[sec := d]> M) = <[sec := file_bytes (fs_device s') d]> (data_of s M).
Proof.
  intros Hok Hs Hsec. rewrite <-(data_same s s' M Hs).
  destruct (map_of _ _ _ _ _ Hok) as (? & ? & _ & H0 & _). destruct (ok_root _ _ _ _ _ Hok) as (? & H1 & _).
  unfold data_of. rewrite !delete_insert_ne by congruence. by rewrite fmap_insert.
Qed.

Lemma data_update s s' M sec d :
  M !! sec = Some d → sec ≠ FREE_MAP_SECTOR → sec ≠ ROOT_DIR_SECTOR → same_bytes sec M s s' →
  data_of s' M = <[sec := file_bytes (fs_device s') d]> (data_of s M).
Proof.
  intros Hd H0 H1 Hs. apply map_eq. intros q. apply option_eq. intros bs. rewrite lookup_insert_Some, !data_lookup.
  destruct (decide (q = sec)) as [->|Hne]; [naive_solver|].
  split; [|intros [[? _]|[_ H]]; [by destruct Hne|]; revert H].
  - intros (dq & Hq & ? & ? & ->). right. split; [by apply not_eq_sym|]. exists dq. split_and!; try done. by apply (Hs q).
  - intros (dq & Hq & ? & ? & ->). exists dq. split_and!; try done. symmetry. by apply (Hs q).
Qed.

Lemma data_delete s s' M sec : same_files (delete sec M) s s' → data_of s' (delete sec M) = delete sec (data_of s M).
Proof.
  intros Hs. rewrite (data_same s s' _ Hs). unfold data_of. rewrite !fmap_delete.
  by rewrite (delete_delete _ FREE_MAP_SECTOR sec), (delete_delete _ ROOT_DIR_SECTOR sec).
Qed.

Lemma handles_same_some h s s' :
  (∀ fp f, h !! fp = Some f → is_Some (inodes s !! f_inode f)) → same_handles h s s' → free_map_file s' = free_map_file s →
  handles_of s' h = handles_of s h.
Proof.
  intros Hsome Hs Hmf. unfold handles_of. rewrite Hmf. apply map_eq. intros fp. rewrite !lookup_omap.
  destruct (delete (free_map_file s) h !! fp) as [f|] eqn:E; [|done]. simpl. apply lookup_delete_Some in E as [_ Hf].
  destruct (Hsome _ _ Hf) as [i Hi]. destruct (Hs _ _ _ Hf Hi) as (i' & Hi' & Es).
  unfold view. rewrite Hi, Hi'. simpl. by rewrite Es.
Qed.

Lemma handles_same x h s s' M N :
  fs_ok x h s M N → same_handles h s s' → free_map_file s' = free_map_file s → handles_of s' h = handles_of s h.
Proof.
  intros Hok. apply handles_same_some. intros fp f Hf. destruct (op_file _ _ _ _ _ (ok_open _ _ _ _ _ Hok) _ _ Hf) as (_ & _ & _ & i & Hi & _). eauto.
Qed.

Lemma handles_insert s h fp f i :
  fp ≠ free_map_file s → inodes s !! f_inode f = Some i →
  handles_of s (<[fp := f]> h) = <[fp := (sector i, f_pos f, deny_write f)]> (handles_of s h).
Proof.
  intros Hne Hi. unfold handles_of. rewrite delete_insert_ne by (by apply not_eq_sym). rewrite (omap_insert_Some _ _ _ _ (sector i, f_pos f, deny_write f)); [done|].
  unfold view. by rewrite Hi.
Qed.

Lemma handles_delete s h fp : handles_of s (delete fp h) = delete fp (handles_of s h).
Proof. unfold handles_of. rewrite delete_delete. apply omap_delete. Qed.

(** An open file of the abstract state. *)
Lemma handle_of h s M a fp :
  fs_ok [] h s M (a_names a) → a_data a = data_of s M → a_open a = handles_of s h → is_Some (a_open a !! fp) →
  ∃ f i, h !! fp = Some f ∧ fp ≠ free_map_file s ∧ inodes s !! f_inode f = Some i ∧ M !! sector i = Some (data i) ∧
    sector i ≠ FREE_MAP_SECTOR ∧ sector i ≠ ROOT_DIR_SECTOR ∧
    a_open a !! fp = Some (sector i, f_pos f, deny_write f) ∧ a_data a !! sector i = Some (file_bytes (fs_device s) (data i)).
Proof.
  intros Hok Ed Eo [[[sec p] b] Hx]. rewrite Eo in *. apply handle_lookup in Hx as Hl. destruct Hl as (Hne & f & i & Hf & Hi & -> & -> & ->).
  destruct (op_inode _ _ _ _ _ (ok_open _ _ _ _ _ Hok) _ _ Hi) as (Hd & _).
  destruct (op_file _ _ _ _ _ (ok_open _ _ _ _ _ Hok) _ _ Hf) as (_ & _ & _ & i' & Hi' & H1 & H0). assert (i' = i) as -> by congruence.
  assert (sector i ≠ FREE_MAP_SECTOR) by (intros E; by apply Hne, H0).
  exists f, i. split_and!; try done. rewrite Ed. apply data_lookup. by exists (data i).
Qed.

Lemma handle_cnt h s M a :
  fs_ok [] h s M (a_names a) → a_open a = handles_of s h → Z.of_nat (base.size h) ≤ Z.of_nat (base.size (a_open a)) + 1.
Proof.
  intros Hok ->. assert (dom (handles_of s h) = dom (delete (free_map_file s) h)) as Hdom.
  { apply set_eq. intros fp. rewrite !elem_of_dom. unfold handles_of. rewrite lookup_omap. destruct (delete _ h !! fp) as [f|] eqn:E; [|by split; intros []].
    simpl. apply lookup_delete_Some in E as [_ Hf]. destruct (op_file _ _ _ _ _ (ok_open _ _ _ _ _ Hok) _ _ Hf) as (_ & _ & _ & i & Hi & _).
    unfold view. rewrite Hi. simpl. split; eauto. }
  rewrite <-(size_dom (handles_of s h)), Hdom, size_dom. pose proof (map_size_delete (free_map_file s) h) as Hd.
  destruct (h !! free_map_file s); unfold id in Hd; lia.
Qed.

(** ** The calls *)

Definition simulates s (a : afs) (c : call) : Prop :=
  ∃ v s' a', run_call c s = Ok (v, s') ∧ allows a c v a' ∧ abstracts s' a'.

Section one_call.
Context s (a : afs) (h : gmap Z file) M.
Hypothesis Hok : fs_ok [] h s M (a_names a).
Hypothesis Ed : a_data a = data_of s M.
Hypothesis Eo : a_open a = handles_of s h.
Hypothesis few : Z.of_nat (base.size (a_open a)) < 2 ^ 31 - 4.

Lemma handles_few : Z.of_nat (base.size h) < 2 ^ 31 - 3.
Proof. pose proof (handle_cnt h s M a Hok Eo). lia. Qed.

Lemma create_simulates name n : name_ok name → 0 ≤ n < 2 ^ 31 - 512 → simulates s a (Create name n).
Proof.
  intros Hnm Hn. pose proof handles_few.
  destruct (filesys_create_held oom memory_left [] h s M (a_names a) junk junk2 name n Hok) as (ok & s' & E & Hmf & Hsf & Hsh & Hres & rd & _ & Hiff);
    [simpl; lia|done..|]. pose proof (handles_same _ _ _ _ _ _ Hok Hsh Hmf) as Hh. exists (VBool ok), s'. destruct ok.
  - destruct Hres as (sec & d & HM & Hok' & Hz). destruct Hiff as [Hiff _]. destruct (Hiff eq_refl) as ((? & ? & ? & _) & _).
    eexists. split_and!; [simpl; by erewrite bind_ok by exact E| |].
    + exists true. split; [done|]. split_and!; [done..|]. exists sec. split; [|reflexivity].
      rewrite Ed. apply eq_None_not_Some. intros [bs Hbs]. apply data_lookup in Hbs as (d' & ? & _). congruence.
    + exists h, (<[sec := d]> M). split_and!; [exact Hok'| |by rewrite Hh]. simpl. rewrite (data_insert _ _ _ _ _ _ _ _ Hok Hsf HM), Hz, Ed. done.
  - exists a. split_and!; [simpl; by erewrite bind_ok by exact E|by exists false|]. exists h, M. split_and!; [done| |congruence]. by rewrite (data_same _ _ _ Hsf).
Qed.

Lemma open_simulates name : simulates s a (Open name).
Proof.
  pose proof handles_few.
  destruct (filesys_open_held oom memory_left [] h s M (a_names a) junk name Hok) as (fp & s' & E & Hmf & Hby & Hsh & Hres); [simpl; lia|done|].
  pose proof (handles_same _ _ _ _ _ _ Hok Hsh Hmf) as Hh. pose proof (data_same _ _ _ (same_bytes_files _ _ _ Hby)) as Hd.
  exists (VInt fp), s'. unfold allows. destruct (a_names a !! name) as [sec|].
  - destruct Hres as (Hfp & Hnew & ip & i & Hok' & Hi & Es).
    assert (fp ≠ free_map_file s') as Hnf.
    { intros E'. rewrite E', Hmf in Hnew. destruct (op_map _ _ _ _ _ (ok_open _ _ _ _ _ Hok)) as (? & ? & ? & _). congruence. }
    eexists. split_and!; [simpl; by erewrite bind_ok by exact E|exists fp; split_and!; [done..| |reflexivity]|].
    + rewrite Eo. unfold handles_of. rewrite lookup_omap, lookup_delete_ne by (rewrite <-Hmf; by apply not_eq_sym). by rewrite Hnew.
    + exists (<[fp := mk_file ip 0 false]> h), M. split_and!; [done|simpl; congruence|]. simpl. rewrite (handles_insert s' h fp _ i) by done.
      simpl. rewrite Hh, Eo. by rewrite Es.
  - destruct Hres as [-> Hok']. exists a. split_and!; [simpl; by erewrite bind_ok by exact E|done|done|]. exists h, M. split_and!; [done|congruence|congruence].
Qed.

Lemma read_simulates fp n : is_Some (a_open a !! fp) → 0 ≤ n < 2 ^ 31 → simulates s a (Read fp n).
Proof.
  intros Hfp Hn. destruct (handle_of h s M a fp Hok Ed Eo Hfp) as (f & i & Hf & Hnf & Hi & HM & H0 & H1 & Ho & Hda).
  destruct (file_read_handle oom memory_left [] h s M (a_names a) fp f i n Hok Hf Hi Hn) as (s' & E & Hok' & Hin & Hmf & Hsd). set (bs := slice _ _ _) in *.
  eexists _, s', _. split_and!; [simpl; by erewrite bind_ok by exact E|do 4 eexists; split_and!; [exact Ho|exact Hda|reflexivity|reflexivity]|].
  eexists _, M. split_and!; [exact Hok'|simpl; rewrite Ed; symmetry; apply data_same, same_bytes_files; by eapply same_disk_same_bytes|].
  simpl. rewrite (handles_insert s' h fp _ i) by (congruence || (simpl; by rewrite Hin)). simpl. rewrite Eo. f_equal. symmetry.
  by apply (handles_same [] h s s' M (a_names a)); [|apply same_handles_refl|].
Qed.

(** The open files on an inode. *)
Lemma handles_on ip i fp p b :
  inodes s !! ip = Some i → sector i ≠ FREE_MAP_SECTOR →
  a_open a !! fp = Some (sector i, p, b) ↔ ∃ f, h !! fp = Some f ∧ f_inode f = ip ∧ f_pos f = p ∧ deny_write f = b.
Proof.
  intros Hi H0. rewrite Eo, handle_lookup. split.
  - intros (_ & f & i' & Hf & Hi' & Es & -> & ->). exists f. split_and!; try done.
    by eapply (tb_sector _ (op_table _ _ _ _ _ (ok_open _ _ _ _ _ Hok))).
  - intros (f & Hf & Ei & <- & <-). rewrite <-Ei in Hi. split; [|by exists f, i]. intros ->.
    destruct (op_map _ _ _ _ _ (ok_open _ _ _ _ _ Hok)) as (f' & i' & Hf' & _ & Hi' & E0 & _). simplify_eq.
Qed.

Lemma denied_on ip i : inodes s !! ip = Some i → sector i ≠ FREE_MAP_SECTOR → write_denied a (sector i) ↔ denied h ip ≠ 0.
Proof.
  intros Hi H0. unfold write_denied, denied. split.
  - intros (fp & p & (f & Hf & Ef & _ & Hd)%(handles_on ip i)); [|done..]. by apply not_eq_sym, Z.lt_neq, (count_pos _ _ fp f).
  - intros (fp & f & Hf & Ef & Hd)%count_some. exists fp, (f_pos f). apply (handles_on ip i); [done..|]. by exists f.
Qed.

Lemma write_simulates fp buf n :
  is_Some (a_open a !! fp) → 0 ≤ n < 2 ^ 31 → n ≤ Z.of_nat (length buf) → Forall byte_ok buf → simulates s a (Write fp buf n).
Proof.
  intros Hfp Hn Hbuf Hby. destruct (handle_of h s M a fp Hok Ed Eo Hfp) as (f & i & Hf & Hnf & Hi & HM & H0 & H1 & Ho & Hda).
  destruct (file_write_handle oom memory_left [] h s M (a_names a) fp f i buf n Hok Hf Hi Hnf Hn Hbuf Hby) as (s' & E & Hok' & Hin & Hmf & Hsame & Hbytes).
  set (bs := file_bytes (fs_device s) (data i)) in *. set (k := transferred _ _ _ _) in *.
  eexists _, s', _. split_and!; [simpl; by erewrite bind_ok by exact E| |].
  - do 4 eexists. split_and!; [exact Ho|exact Hda|]. exists k. split_and!; [done| |reflexivity]. unfold k, transferred.
    pose proof (denied_on _ _ Hi H0) as Hden. destruct (Z.eqb_spec (denied h (f_inode f)) 0) as [Hz|Hnz]; [right|left]; split; (done || tauto).
  - eexists _, M. split_and!; [exact Hok'|simpl; rewrite Ed, <-Hbytes; symmetry; by apply data_update|].
    simpl. rewrite (handles_insert s' h fp _ i) by (congruence || (simpl; by rewrite Hin)). simpl. rewrite Eo. f_equal. symmetry.
    by apply (handles_same [] h s s' M (a_names a)); [|apply same_handles_refl|].
Qed.

(** Calls that only look at an open file. *)
Lemma look_simulates fp : is_Some (a_open a !! fp) → simulates s a (Tell fp) ∧ simulates s a (Length fp).
Proof.
  intros Hfp. destruct (handle_of h s M a fp Hok Ed Eo Hfp) as (f & i & Hf & Hnf & Hi & HM & H0 & H1 & Ho & Hda).
  destruct (handle_inode _ _ _ _ _ _ _ Hok Hf) as (Eg & _ & i' & Hi' & _ & Hx & _). assert (i' = i) as -> by congruence.
  assert (abstracts s a) as Ha by (by exists h, M).
  split; eexists _, s, a; (split_and!; [|do 4 eexists; split_and!; [exact Ho|exact Hda|reflexivity|reflexivity]|done]).
  - simpl. unfold file_tell. by erewrite bind_ok by (by erewrite bind_ok by exact Eg).
  - simpl. unfold file_length, inode_length. erewrite bind_ok by (erewrite bind_ok by exact Eg; by erewrite bind_ok by (by apply get_inode_ok)).
    rewrite length_file_bytes by apply Hx. done.
Qed.

Lemma seek_simulates fp p : is_Some (a_open a !! fp) → 0 ≤ p < 2 ^ 31 → simulates s a (Seek fp p).
Proof.
  intros Hfp Hp. destruct (handle_of h s M a fp Hok Ed Eo Hfp) as (f & i & Hf & Hnf & Hi & HM & H0 & H1 & Ho & Hda).
  destruct (handle_inode _ _ _ _ _ _ _ Hok Hf) as (Eg & _). pose proof (file_moved [] h s M (a_names a) fp f p Hok Hf Hp) as Hok'.
  eexists _, _, _. split_and!; [|do 4 eexists; split_and!; [exact Ho|exact Hda|reflexivity|reflexivity]|].
  - simpl. unfold file_seek. rewrite (proj2 (Z.leb_le _ _)) by lia. erewrite bind_ok by (erewrite bind_ok by done; erewrite bind_ok by exact Eg; done). done.
  - eexists _, M. split_and!; [exact Hok'|exact Ed|]. simpl. rewrite Eo. symmetry. etrans; [by apply (handles_insert _ h fp _ i)|done].
Qed.

Lemma deny_simulates fp : is_Some (a_open a !! fp) → simulates s a (DenyWrite fp) ∧ simulates s a (AllowWrite fp).
Proof.
  intros Hfp. destruct (handle_of h s M a fp Hok Ed Eo Hfp) as (f & i & Hf & Hnf & Hi & HM & H0 & H1 & Ho & Hda).
  assert (∀ b s', fs_ok [] (<[fp := denies f b]> h) s' M (a_names a) → fs_device s' = fs_device s → free_map_file s' = free_map_file s →
    (∀ h', same_handles h' s s') → abstracts s' (set_handle fp (sector i, f_pos f, b) a)) as Habs.
  { intros b s' Hok' Hdev Hmf Hsh. eexists _, M. split_and!; [exact Hok'|simpl; rewrite Ed; unfold data_of; by rewrite Hdev|].
    destruct (Hsh h _ _ _ Hf Hi) as (i' & Hi' & Es). simpl. rewrite (handles_insert s' h fp _ i') by (congruence || done). simpl. rewrite Es, Eo. f_equal.
    symmetry. by apply (handles_same [] h s s' M (a_names a)). }
  split.
  - destruct (file_deny_write_handle [] h s M (a_names a) fp f i Hok Hf Hnf Hi) as (s' & E & Hok' & Hdev & Hmf & Hsh).
    eexists VUnit, s', _. split_and!; [simpl; by erewrite bind_ok by exact E|do 4 eexists; split_and!; [exact Ho|exact Hda|reflexivity|reflexivity]|].
    by apply (Habs true).
  - destruct (file_allow_write_handle [] h s M (a_names a) fp f i Hok Hf Hnf Hi) as (s' & i' & E & Hok' & _ & _ & _ & _ & Hdev & Hmf & Hsh).
    eexists VUnit, s', _. split_and!; [simpl; by erewrite bind_ok by exact E|do 4 eexists; split_and!; [exact Ho|exact Hda|reflexivity|reflexivity]|].
    by apply (Habs false).
Qed.

(** An inode in memory that is not marked has a name. *)
Lemma unmarked_named ip i :
  inodes s !! ip = Some i → removed i = false → sector i ≠ FREE_MAP_SECTOR → sector i ≠ ROOT_DIR_SECTOR →
  ∃ name, a_names a !! name = Some (sector i).
Proof.
  intros Hi Hr H0 H1. destruct (ok_open _ _ _ _ _ Hok) as [Ht Hin _ Hlive _ _ _]. destruct (Hin _ _ Hi) as (HM & _).
  destruct (Hlive _ _ HM) as [?|[?|[?|(q & t & [Hq Es] & Hrt)]]]; [done..|].
  assert (q = ip) as -> by (by eapply (tb_sector _ Ht)). congruence.
Qed.

Lemma close_simulates fp : is_Some (a_open a !! fp) → simulates s a (Close fp).
Proof.
  intros Hfp. destruct (handle_of h s M a fp Hok Ed Eo Hfp) as (f & i & Hf & Hnf & Hi & HM & H0 & H1 & Ho & Hda).
  destruct (file_close_handle oom [] h s M (a_names a) fp f i Hok Hf Hnf Hi) as (s' & E & Hok' & Hmf & Hby & Hsh).
  set (a1 := mk_afs (a_names a) (a_data a) (delete fp (a_open a))). set (ip := f_inode f) in *.
  assert (handles_of s' (delete fp h) = a_open a1) as Hh.
  { simpl. rewrite Eo, <-handles_delete. apply handles_same_some; [|done..]. intros fp' f' [_ Hf']%lookup_delete_Some.
    destruct (op_file _ _ _ _ _ (ok_open _ _ _ _ _ Hok) _ _ Hf') as (_ & _ & _ & i' & Hi' & _). eauto. }
  assert (∀ fp' p b, a_open a1 !! fp' = Some (sector i, p, b) → count (λ f, f_inode f = ip) (delete fp h) ≠ 0) as Hpos.
  { simpl. intros fp' p b [Hne (f' & Hf' & Ef & _)%(handles_on ip i)]%lookup_delete_Some; [|done..].
    apply not_eq_sym, Z.lt_neq, (count_pos _ _ fp' f'); [by rewrite lookup_delete_ne|done]. }
  assert (∃ a', collected a1 (sector i) a' ∧ a_names a' = a_names a ∧ a_open a' = a_open a1 ∧
    a_data a' = data_of s' (after_close [] (delete fp h) M ip i)) as (a' & Hcol & En & Eo' & Ed').
  { unfold after_close. destruct (removed i) eqn:Hr; [destruct (Z.eqb_spec (refs [] (delete fp h) ip) 0) as [Hz|Hnz]|]; simpl.
    - eexists. split; [right; split; [|reflexivity]|split_and!; [done..|]].
      + intros [[name Hn]|(fp' & p & b & Hl)].
        * destruct (op_removed _ _ _ _ _ (ok_open _ _ _ _ _ Hok) _ _ Hi Hr) as (_ & _ & Hno). by apply (Hno name).
        * apply Hpos in Hl. unfold refs, held in Hz. simpl in Hz. lia.
      + simpl. rewrite Ed. symmetry. apply data_delete. intros sec d [_ Hd]%lookup_delete_Some Hs0 _. by apply (Hby sec).
    - exists a1. split_and!; [left; split; [right|done]|done|done|simpl; rewrite Ed; symmetry; by apply data_same, same_bytes_files].
      destruct (count_some (λ f, f_inode f = ip) (delete fp h)) as (fp' & f' & [Hne Hf']%lookup_delete_Some & Ef); [unfold refs, held in Hnz; simpl in Hnz; lia|].
      exists fp', (f_pos f'), (deny_write f'). simpl. rewrite lookup_delete_ne by done. apply (handles_on ip i); [done..|]. by exists f'.
    - exists a1. split_and!; [left; split; [left|done]|done|done|simpl; rewrite Ed; symmetry; by apply data_same, same_bytes_files].
      by apply (unmarked_named ip). }
  exists VUnit, s', a'. split_and!; [simpl; by erewrite bind_ok by exact E|by do 4 eexists|]. eexists _, _. rewrite En. split_and!; [exact Hok'|done|congruence].
Qed.

Lemma remove_simulates name : simulates s a (Remove name).
Proof.
  pose proof handles_few.
  destruct (filesys_remove_held oom memory_left h s M (a_names a) junk name Hok) as (ok & s' & M' & E & Hmf & Hsf & Hsh & Hres); [lia|done|].
  pose proof (handles_same _ _ _ _ _ _ Hok Hsh Hmf) as Hh.
  exists (VBool ok), s'. unfold allows. destruct (a_names a !! name) as [sec|] eqn:HN.
  - destruct Hres as (-> & Hok' & Hcase). destruct (nm_in _ _ (ok_names _ _ _ _ _ Hok) _ _ HN) as (_ & Hs0 & Hs1).
    set (a1 := mk_afs (delete name (a_names a)) (a_data a) (a_open a)).
    destruct Hcase as [[(fp & f & t & Hf & Ht & Es) ->]|[Hno ->]].
    + exists a1. split_and!; [simpl; by erewrite bind_ok by exact E|done| |].
      * left. split; [right|done]. exists fp, (f_pos f), (deny_write f). simpl. rewrite <-Es. apply (handles_on (f_inode f)); [done|congruence|]. by exists f.
      * exists h, M. split_and!; [done|simpl; rewrite Ed; symmetry; by apply data_same|simpl; congruence].
    + eexists. split_and!; [simpl; by erewrite bind_ok by exact E|done|right; split; [|reflexivity]|].
      * intros [[name' Hn']|(fp & p & b & Hl)].
        -- simpl in Hn'. apply lookup_delete_Some in Hn' as [Hne Hn']. apply Hne. by eapply (nm_inj _ _ (ok_names _ _ _ _ _ Hok)).
        -- simpl in Hl. rewrite Eo in Hl. apply handle_lookup in Hl as (_ & f & i & Hf & Hi & -> & _). by apply (Hno fp f i).
      * exists h, (delete sec M). split_and!; [done|simpl; rewrite Ed; symmetry; by apply data_delete|simpl; congruence].
  - destruct Hres as (-> & -> & Hok'). exists a. split_and!; [simpl; by erewrite bind_ok by exact E|done|done|].
    exists h, M. split_and!; [done|rewrite Ed; symmetry; by apply data_same|congruence].
Qed.

End one_call.

Lemma call_simulates s a c : abstracts s a → legal a c → simulates s a c.
Proof.
  intros (h & M & Hok & Ed & Eo) [Hfew Hl].
  destruct c; simpl in Hl; destruct_and?;
    [by eapply create_simulates|by eapply open_simulates|by eapply remove_simulates|by eapply read_simulates|by eapply write_simulates
    |by eapply seek_simulates|by eapply look_simulates|by eapply look_simulates|by eapply deny_simulates|by eapply deny_simulates|by eapply close_simulates].
Qed.

Lemma abstracts_ok s a : abstracts s a → afs_ok a.
Proof.
  intros (h & M & Hok & Ed & Eo). split.
  - rewrite Ed. intros sec bs (d & Hd & _ & _ & ->)%data_lookup. pose proof (dk_extent _ _ _ (ok_disk _ _ _ _ _ Hok) _ _ Hd) as Hx.
    pose proof (ex_length _ _ Hx). rewrite length_file_bytes by lia. split; [|lia]. apply file_bytes_ok; [apply (ok_disk _ _ _ _ _ Hok)|done].
  - intros name sec Hn. destruct (nm_in _ _ (ok_names _ _ _ _ _ Hok) _ _ Hn) as ([d Hd] & H0 & H1).
    exists (file_bytes (fs_device s) d). rewrite Ed. apply data_lookup. by exists d.
  - intros fp sec p b Hl. destruct (handle_of h s M a fp Hok Ed Eo ltac:(by eexists)) as (f & i & Hf & _ & _ & _ & _ & _ & Ho & Hda).
    rewrite Ho in Hl. simplify_eq. split; [by eexists|]. by apply (op_file _ _ _ _ _ (ok_open _ _ _ _ _ Hok) fp f).
Qed.

(** The promise is kept. *)
#[export] Instance pintos_file_system : FileSystem (fs D) := {|
  fs_call := run_call;
  fs_abs := abstracts;
  fs_abs_ok := abstracts_ok;
  fs_call_ok := call_simulates
|}.

End refine.

(** ** Properties *)

(** C4: the file system implements the abstract one, as long as the kernel has
    memory left, that is no call of malloc fails.  From a state that
    stands for an abstract file system, every legal call of filesys_create,
    filesys_open, filesys_remove and of the functions on open files returns;
    its result and the new state are what the abstract file system allows.  A
    write changes the bytes of its file at its position and nothing else, a
    removed file keeps its bytes for those who have it open, and the
    directory, the free map, the reference counts and the sectors of all files
    stay consistent. *)
Theorem filesys_refines {D : Type} `{BD : BlockDriver D} oom junk junk2 (s : fs D) a c :
  (∀ n, oom n = false) → entry_ok junk → entry_ok junk2 →
  abstracts s a → legal a c → ∃ v s' a', run_call oom junk junk2 c s = Ok (v, s') ∧ allows a c v a' ∧ abstracts s' a'.
Proof. intros Hm H1 H2. by apply call_simulates. Qed.
