(* ===== verification/FilesysFormat.v ===== *)
(** * Formatting a disk

    filesys_init with the format option makes a file system without files that
    satisfies the invariant, whatever the disk held before. *)

From S2P Require Import Prelude Bytes Block Bitmap Inode InodeSpec InodeTable Directory DirSpec FsState FsCalls FilesysSpec FilesysRefine.

(** ** Reading a bitmap back *)

Lemma words_of_bytes ws : Forall (λ w, 0 ≤ w < 2 ^ 32) ws → words_of (length ws) (ws ≫= le_encode 4) = ws.
Proof.
  induction 1 as [|w ws Hw _ IH]; [done|]. rewrite bind_cons. cbn [length words_of].
  rewrite (take_app_length' (le_encode 4 w)), (drop_app_length' (le_encode 4 w)) by (by rewrite length_le_encode).
  rewrite le_decode_encode by (change (256 ^ Z.of_nat 4) with (2 ^ 32); lia). by rewrite IH.
Qed.

(** The mask keeps the bits of the map in the last element. *)
Lemma last_mask_bit b j :
  wf b → 0 ≤ j < bit_cnt b → j / 32 = elem_cnt (bit_cnt b) - 1 → Z.testbit (last_mask b) (j mod 32) = true.
Proof.
  intros Hw Hj Hlast. pose proof (wf_cnt _ Hw). rewrite elem_cnt_exact in Hlast by lia. unfold last_mask. change ELEM_BITS with 32.
  destruct (Z.eqb_spec (bit_cnt b mod 32) 0) as [Hz|Hnz]; cbn [negb].
  - change (u32 (-1)) with (Z.ones 32). apply Z.ones_spec_low. dlia.
  - rewrite Z.shiftl_1_l. assert (0 < bit_cnt b mod 32 < 32) as Hr by dlia.
    assert (2 ^ 1 ≤ 2 ^ (bit_cnt b mod 32) < 2 ^ 32) as Hp by (split; [apply Z.pow_le_mono_r|apply Z.pow_lt_mono_r]; lia).
    rewrite (u32_small (2 ^ _)), u32_small by lia. rewrite Z.sub_1_r, <-Z.ones_equiv. apply Z.ones_spec_low. dlia.
Qed.

Section format.
Context {D : Type} `{BD : BlockDriver D}.
Variable oom : nat → bool.
Hypothesis memory_left : ∀ n, oom n = false.
Implicit Types s : fs D.
Implicit Types M : gmap Z inode_disk.

(** A file that holds a map is read back as that map. *)
Lemma bitmap_read_ok s fp f i b b0 :
  files s !! fp = Some f → inodes s !! f_inode f = Some i → extent_ok (fs_device s) (data i) → block_ok (fs_device s) →
  wf b → wf b0 → bit_cnt b0 = bit_cnt b → 0 < bit_cnt b → byte_cnt (bit_cnt b) ≤ d_length (data i) →
  slice 0 (byte_cnt (bit_cnt b)) (file_bytes (fs_device s) (data i)) = bitmap_bytes b →
  ∃ b' s', bitmap_read oom b0 fp s = Ok ((true, b'), s') ∧ same_fs s s' ∧ wf b' ∧ bit_cnt b' = bit_cnt b ∧
    ∀ j, 0 ≤ j < bit_cnt b → bit b' j = bit b j.
Proof.
  intros Hf Hi Hx Hb Hw Hw0 Hc Hpos Hlen Hst. destruct (byte_cnt_exact (bit_cnt b)) as [Hbc Hec]; [apply Hw|].
  destruct (bitmap_bytes_ok b) as [Hl Hby]. pose proof (wf_len _ Hw) as Hwl. pose proof (wf_len _ Hw0) as Hwl0. rewrite Hc in Hwl0.
  set (sz := byte_cnt (bit_cnt b)) in *. assert (s32 sz = sz) as Hs by (apply s32_small; lia).
  destruct (inode_read_at_ok oom s (f_inode f) i sz 0) as (k & bl & a & E & Hsd & Hk & Hfull); [done..|lia|lia|].
  assert (k = sz) as -> by (destruct Hfull as [->|Hoom]; [unfold available; lia|by rewrite memory_left in Hoom]).
  rewrite Hst in E. unfold bitmap_read. rewrite Hc, (proj2 (Z.gtb_lt _ _)) by lia. fold sz. rewrite Hs.
  assert (file_read_at oom fp sz 0 s = inode_read_at oom (f_inode f) sz 0 s) as E'.
  { unfold file_read_at, get_file. rewrite bind_ok with (a := f) (s' := s); [done|]. by rewrite Hf. }
  erewrite bind_ok by (rewrite E'; exact E). cbn [bit_cnt bits].
  assert (words_of (length (bits b0)) (overwrite 0 (bitmap_bytes b) (bitmap_bytes b0)) = bits b) as ->.
  { destruct (bitmap_bytes_ok b0) as [Hl0 _]. rewrite overwrite_all by lia. replace (length (bits b0)) with (length (bits b)) by lia.
    apply words_of_bytes, Hw. }
  set (last := Z.to_nat (u32 (elem_cnt (bit_cnt b) - 1))). assert (Z.of_nat last = elem_cnt (bit_cnt b) - 1) as Hlast.
  { unfold last. rewrite elem_cnt_exact in * by apply Hw. rewrite u32_small by dlia. dlia. }
  destruct (lookup_lt_is_Some_2 (bits b) last) as [w Ew]; [lia|]. rewrite Ew.
  change (last_mask (mk_bitmap (bit_cnt b) (bits b))) with (last_mask b). set (m := last_mask b).
  set (b' := mk_bitmap (bit_cnt b) (<[last := Z.land w m]> (bits b))).
  exists b'. eexists. split; [rewrite (proj2 (Z.eqb_eq _ _)) by lia; reflexivity|]. split_and!.
  - eapply read_same_fs; [exact E|done].
  - destruct Hw as [W1 W2 W3]. split; simpl; [done|by rewrite length_insert|]. apply Forall_insert; [done|].
    pose proof (Forall_lookup_1 _ _ _ _ W3 Ew) as Hww. simpl in Hww. apply land_range; [done|].
    unfold m, last_mask. destruct (negb _); apply u32_range.
  - done.
  - intros j Hj. unfold bit. simpl. destruct (decide (j / 32 = Z.of_nat last)) as [E1|E1].
    + rewrite E1, Nat2Z.id, list_lookup_total_insert_eq by (by eapply lookup_lt_Some). rewrite Z.land_spec, (list_lookup_total_correct _ _ _ Ew).
      unfold m. rewrite (last_mask_bit b j Hw Hj) by lia. apply andb_true_r.
    + rewrite list_lookup_total_insert_ne by dlia. done.
Qed.

(** ** The free map in memory *)

Lemma mark_ok b i : wf b → 0 ≤ i < bit_cnt b → ∃ b', bitmap_mark b i = Ok b' ∧ bits_set b b' i 1 true.
Proof.
  intros Hw Hi. destruct (bitmap_set_ok b i true Hw Hi) as (b' & E & Hs). unfold bitmap_set in E.
  rewrite (proj2 (Z.ltb_lt _ _)) in E by lia. by exists b'.
Qed.

Lemma free_map_init_ok s words :
  wf (mk_bitmap (size (fs_device s)) words) → 2 ≤ size (fs_device s) →
  ∃ b, free_map_init (Some words) s = Ok (tt, set_free_map b s) ∧ wf b ∧ bit_cnt b = size (fs_device s) ∧
    ∀ j, 0 ≤ j < size (fs_device s) → bit b j = bool_decide (j < 2).
Proof.
  intros Hw Hs. destruct (bitmap_set_multiple_ok (mk_bitmap (size (fs_device s)) words) 0 (size (fs_device s)) false Hw) as (b0 & E0 & W0 & C0 & B0); [simpl; lia..|].
  simpl in *. destruct (mark_ok b0 FREE_MAP_SECTOR W0) as (b1 & E1 & W1 & C1 & B1); [unfold FREE_MAP_SECTOR; lia|].
  destruct (mark_ok b1 ROOT_DIR_SECTOR W1) as (b2 & E2 & W2 & C2 & B2); [unfold ROOT_DIR_SECTOR; lia|].
  exists b2. split_and!; [|done|congruence|].
  - unfold free_map_init. erewrite bind_ok by apply get_ok. unfold bitmap_create, bitmap_set_all, bitmap_size, block_size. cbn [bit_cnt]. rewrite E0.
    erewrite bind_ok by done. cbn. rewrite E1. erewrite bind_ok by done. rewrite E2. by erewrite bind_ok by done.
  - intros j Hj. unfold FREE_MAP_SECTOR, ROOT_DIR_SECTOR in *. rewrite B2, B1, B0 by lia.
    repeat case_decide; case_bool_decide; (done || lia).
Qed.

(** The lowest run of free sectors when exactly the sectors below [k] are used. *)
Lemma first_above b k cnt start :
  (∀ j, 0 ≤ j < bit_cnt b → bit b j = bool_decide (j < k)) → 0 ≤ k → 0 < cnt → k + cnt ≤ bit_cnt b → wf b →
  first_group b 0 cnt false start → start = k.
Proof.
  intros Hb Hk Hc Hle Hw Hg. pose proof (wf_cnt _ Hw).
  assert (all_bits b k cnt false) as Hall by (intros j Hj; rewrite Hb by lia; by case_bool_decide; [lia|]).
  destruct Hg as [(H1 & H2 & H3 & H4)|[-> Hno]]; [|by destruct (Hno k); [lia|]].
  destruct (Z.lt_trichotomy start k) as [Hlt|[?|Hgt]]; [|done|by destruct (H4 k); [lia|]].
  specialize (H3 start ltac:(lia)). rewrite Hb in H3 by lia. by case_bool_decide; [|lia].
Qed.

Lemma bits_above b b' k cnt :
  (∀ j, 0 ≤ j < bit_cnt b → bit b j = bool_decide (j < k)) → bits_set b b' k cnt true → 0 ≤ cnt →
  ∀ j, 0 ≤ j < bit_cnt b → bit b' j = bool_decide (j < k + cnt).
Proof. intros Hb (_ & _ & Hs) Hc j Hj. rewrite Hs, Hb by done. case_decide; repeat case_bool_decide; (done || lia). Qed.

(** ** The file of the free map *)

(** The state once the free map has its file: one inode, one open file. *)
Record map_open s s' (d0 : inode_disk) (ip fp : Z) : Prop := {
  mp_inodes : inodes s' = {[ip := mk_inode FREE_MAP_SECTOR 1 false 0 d0]};
  mp_open : open_inodes s' = [ip];
  mp_files : files s' !! fp = Some (mk_file ip 0 false);
  mp_file : free_map_file s' = fp;
  mp_addr : 0 < ip ≤ 16 * Z.of_nat (allocs s') ∧ 0 < fp ≤ 16 * Z.of_nat (allocs s')
}.

Lemma empty_table s : inodes s = ∅ → open_inodes s = [] → table_ok s.
Proof.
  intros Ei Eo. split; rewrite ?Ei, ?Eo; try (intros *; rewrite ?lookup_empty; done).
  - intros ip. rewrite lookup_empty, elem_of_nil. split; [done|by intros []].
  - constructor.
Qed.

(** Opening sector 0 and the file on it, from an empty table. *)
Lemma open_map_file s d0 :
  inodes s = ∅ → open_inodes s = [] → block_ok (fs_device s) → 0 < size (fs_device s) →
  decode_inode (sector_of (fs_device s) FREE_MAP_SECTOR) = d0 →
  ∃ ip fp s1 s2, inode_open oom FREE_MAP_SECTOR s = Ok (ip, s1) ∧ file_open oom ip s1 = Ok (fp, s2) ∧ fp ≠ NULL ∧
    map_open s (set_map_file fp s2) d0 ip fp ∧ same_disk (fs_device s) (fs_device s2) ∧ free_map s2 = free_map s.
Proof.
  intros Ei Eo Hb Hz Hd. pose proof (empty_table s Ei Eo) as Ht.
  destruct (inode_open_ok oom s FREE_MAP_SECTOR Ht Hb) as (ip & s1 & E1 & Hres); [unfold FREE_MAP_SECTOR; lia| |].
  { intros ip i [Hi _]. rewrite Ei in Hi. done. }
  destruct Hres as [(i & [Hi _] & _)|[_ Hnew]]; [rewrite Ei in Hi; done|]. rewrite memory_left in Hnew. destruct Hnew as (_ & Eip & b & Hsd & ->).
  set (s1 := set_inodes _ _) in *. exists ip, (16 * (Z.of_nat (allocs s1) + 1)), s1. eexists. split_and!; [done|..].
  - unfold file_open. erewrite bind_ok by (by apply fs_malloc_ok). rewrite !(proj2 (Z.eqb_neq _ NULL)) by (unfold NULL; lia). done.
  - unfold NULL. lia.
  - split; simpl; [by rewrite Ei, Hd|by rewrite Eo|apply lookup_insert_eq|done|lia].
  - done.
  - done.
Qed.

Lemma empty_disk (b : block D) fm : block_ok b → wf fm → bit_cnt fm = size b → disk_ok b fm ∅.
Proof. intros Hb Hw Hc. split; try done; intros *; by rewrite lookup_empty. Qed.

(** Creating an inode in a sector that is marked, when exactly the sectors
    below [k] are used. *)
Lemma create_above s M sec n k :
  core_ok s M → 0 < n < 2 ^ 31 - 512 → 0 ≤ sec < k → unowned M sec → (∀ j, 0 ≤ j < size (fs_device s) → bit (free_map s) j = bool_decide (j < k)) →
  let cnt := (n + 511) / 512 in
  let d := mk_inode_disk k n INODE_MAGIC in
  k + cnt ≤ size (fs_device s) →
  ∃ s', inode_create oom sec n s = Ok (true, s') ∧ core_ok s' (<[sec := d]> M) ∧ touches (λ j, map_data M j ∨ unowned M j) s s' ∧
    file_bytes (fs_device s') d = repeat 0 (Z.to_nat n) ∧
    (∀ j, 0 ≤ j < size (fs_device s') → bit (free_map s') j = bool_decide (j < k + cnt)) ∧
    (free_map_file s ≠ NULL → ∀ d0, M !! FREE_MAP_SECTOR = Some d0 → map_stored s' d0).
Proof.
  intros Hco Hn Hsec Hun Hb cnt d Hle. pose proof Hco as [Hk Hz _]. pose proof (dk_cnt _ _ _ Hk) as Hc. pose proof (dk_wf _ _ _ Hk) as Hw.
  assert (0 < cnt) as Hcnt by (unfold cnt; dlia). rewrite <-Hc in Hb, Hle.
  destruct (inode_create_ok oom memory_left s M sec n Hco) as (ok & s' & E & Hco' & Ht & Hres); [lia|lia|done|rewrite Hb by lia; by case_bool_decide; [|lia]|].
  destruct ok.
  2:{ destruct Hres as [Hg _]. apply (first_above _ k) in Hg; [|done|lia|done|done|done]. pose proof (wf_cnt _ Hw). unfold BITMAP_ERROR, SIZE_MAX in Hg. lia. }
  destruct Hres as (start & Hfr & Hg & _ & Hset & Hst). apply (first_above _ k) in Hg as ->; [|done|lia|done|done|done]. fold cnt d in Hset, Hfr.
  exists s'. destruct Hco' as [Hk' Hz' Hf']. destruct Hfr as [[F1 F2] F3 F4 F5 F6 F7]. split_and!; try done.
  - split; [by apply disk_add|done|]. destruct Hf' as [?|(f & fi & Hm & H0 & Hr)]; [by left|]. right. exists f, fi. split; [done|]. split; [|done].
    rewrite lookup_insert_ne; [done|]. intros ->. rewrite (unowned_None _ _ Hun) in H0. done.
  - intros j Hj. apply (bits_above (free_map s)); [done|done|lia|]. rewrite Hc, <-(tc_size _ _ _ Ht). done.
Qed.

(** The number of sectors that the free map takes, and the two inodes. *)
Definition map_sectors (z : Z) : Z := (byte_cnt z + 511) / 512.
Definition map_inode (z : Z) : inode_disk := mk_inode_disk 2 (byte_cnt z) INODE_MAGIC.
Definition root_inode (z : Z) : inode_disk := mk_inode_disk (2 + map_sectors z) 320 INODE_MAGIC.

Lemma map_sectors_pos z : 0 < z ≤ 2 ^ 32 - 32 → 0 < byte_cnt z < 2 ^ 30 ∧ 0 < map_sectors z.
Proof.
  intros Hz. destruct (byte_cnt_exact z) as [Hb He]; [lia|]. rewrite elem_cnt_exact in * by lia. unfold map_sectors. split; dlia.
Qed.

(** The invariant of the disk depends on the sectors of the inodes only. *)
Lemma core_disk s s' M f fi :
  core_ok s M → same_disk (fs_device s) (fs_device s') ∨ (∃ d, M !! FREE_MAP_SECTOR = Some d ∧ wrote_fs d s s') →
  free_map s' = free_map s → map_ok s' f fi → M !! FREE_MAP_SECTOR = Some (data fi) → deny_write_cnt fi = 0 →
  byte_cnt (bit_cnt (free_map s)) ≤ d_length (data fi) → core_ok s' M.
Proof.
  intros [Hk Hz _] Hdisk Hfm Hmap H0 Hdw Hlen.
  assert (block_ok (fs_device s') ∧ size (fs_device s') = size (fs_device s) ∧
    ∀ sec, is_Some (M !! sec) → sector_of (fs_device s') sec = sector_of (fs_device s) sec) as (Hb & Hs & Hsec).
  { destruct Hdisk as [(H1 & H2 & _ & H4)|(d & Hd & b & a & -> & _ & H1 & H2 & H3)].
    - split_and!; [done..|]. intros sec [d Hd]. apply H4. by eapply dk_sector.
    - split_and!; [done..|]. intros sec [d' Hd']. apply H3; [rewrite H2; by eapply dk_sector|].
      destruct (decide (d_start d ≤ sec < d_start d + sector_cnt d)) as [Hin|]; [|lia]. exfalso.
      assert (sec = FREE_MAP_SECTOR) as -> by (eapply (dk_disjoint _ _ _ Hk); [exact Hd'|exact Hd|by left|by right]).
      by apply (dk_outside _ _ _ Hk _ _ Hd). }
  split; [rewrite Hfm; by apply (disk_frame (fs_device s))|by rewrite Hs|]. right. exists f, fi. by rewrite Hfm.
Qed.

Lemma free_map_create_ok s :
  let z := size (fs_device s) in
  inodes s = ∅ → open_inodes s = [] → free_map_file s = NULL → block_ok (fs_device s) → wf (free_map s) → bit_cnt (free_map s) = z →
  (∀ j, 0 ≤ j < z → bit (free_map s) j = bool_decide (j < 2)) → 2 + map_sectors z ≤ z →
  ∃ s' ip fp, free_map_create oom s = Ok (tt, s') ∧ map_open s s' (map_inode z) ip fp ∧ core_ok s' {[FREE_MAP_SECTOR := map_inode z]} ∧
    size (fs_device s') = z ∧ (∀ j, 0 ≤ j < z → bit (free_map s') j = bool_decide (j < 2 + map_sectors z)).
Proof.
  intros z Ei Eo Hnull Hb Hw Hc Hbits Hle. pose proof (wf_cnt _ Hw) as Hwc. rewrite Hc in Hwc.
  assert (0 < z) as Hz by (unfold map_sectors, byte_cnt in Hle; pose proof (u32_range (4 * elem_cnt z)); dlia).
  destruct (map_sectors_pos z) as [Hn0 Hms]; [lia|].
  assert (core_ok s ∅) as Hco by (split; [by apply empty_disk|lia|by left]).
  destruct (create_above s ∅ FREE_MAP_SECTOR (byte_cnt z) 2 Hco) as (s1 & E1 & Hco1 & Ht & _ & Hb1 & _);
    [lia|unfold FREE_MAP_SECTOR; lia|by intros ? ? ?|done|done|]. rewrite insert_empty in Hco1. fold (map_inode z) (map_sectors z) in *.
  destruct (tc_kept _ _ _ Ht) as (_ & _ & _ & Ki). pose proof (tc_size _ _ _ Ht) as Hs1. fold z in Hs1.
  destruct (open_map_file s1 (map_inode z)) as (ip & fp & s2 & s3 & E2 & E3 & Hfp & Hopen & Hsd & Hfm3); [by rewrite Ki|by rewrite (tc_open _ _ _ Ht)|apply Hco1|lia| |].
  { apply (dk_sector _ _ _ (co_disk _ _ Hco1) FREE_MAP_SECTOR). apply lookup_singleton_eq. }
  set (s4 := set_map_file fp s3) in *. destruct Hopen as [P1 P2 P3 P4 P5].
  set (fi := mk_inode FREE_MAP_SECTOR 1 false 0 (map_inode z)) in *. assert (inodes s4 !! ip = Some fi) as Hi4 by (rewrite P1; apply lookup_singleton_eq).
  assert (extent_ok (fs_device s1) (map_inode z)) as Hx1 by (apply (dk_extent _ _ _ (co_disk _ _ Hco1) FREE_MAP_SECTOR), lookup_singleton_eq).
  assert (map_ok s4 (mk_file ip 0 false) fi) as Hmap4.
  { split; [simpl; rewrite Hfm3; apply Hco1|by rewrite P4|done|by apply (same_disk_extent (fs_device s1))|apply Hsd]. }
  assert (bit_cnt (free_map s1) = z) as Hc1 by (rewrite (dk_cnt _ _ _ (co_disk _ _ Hco1)); done).
  assert (core_ok s4 {[FREE_MAP_SECTOR := map_inode z]}) as Hco4.
  { apply (core_disk s1 s4 _ (mk_file ip 0 false) fi); try done; [by left|rewrite Hc1; simpl; lia]. }
  destruct (bitmap_write_ok oom s4 fp (mk_file ip 0 false) fi (free_map s4)) as (ok & s5 & E5 & Hw5 & _ & Hok5);
    [apply Hmap4|exact P3|exact Hi4|apply Hmap4|apply Hmap4|].
  rewrite Hok5 in E5; [|done|simpl; rewrite Hfm3, Hc1; simpl; lia|apply memory_left].
  exists s5, ip, fp. pose proof Hw5 as (b5 & a5 & -> & Ha5 & Hb5 & Hs5 & _). split_and!.
  - unfold free_map_create. erewrite bind_ok by apply get_ok. unfold bitmap_file_size. rewrite Hc, s32_small by lia. erewrite bind_ok by exact E1.
    cbn [negb]. erewrite bind_ok by exact E2. erewrite bind_ok by exact E3. erewrite bind_ok by done. rewrite (proj2 (Z.eqb_neq _ _) Hfp).
    erewrite bind_ok by apply get_ok. erewrite bind_ok by exact E5. done.
  - split; try done. simpl in *. lia.
  - destruct Hmap4 as [M1 M2 M3 M4 M5]. apply (core_disk s4 _ _ (mk_file ip 0 false) fi); try done.
    + right. exists (map_inode z). split; [apply lookup_singleton_eq|done].
    + split; try done; by eapply extent_size.
    + simpl. rewrite Hfm3, Hc1. simpl. lia.
  - simpl in *. rewrite Hs5. destruct Hsd as (_ & Hsd & _). congruence.
  - intros j Hj. simpl. rewrite Hfm3. apply Hb1. lia.
Qed.

(** ** The whole initialisation *)

Lemma map_open_table s s' d ip fp : map_open s s' d ip fp → table_ok s'.
Proof.
  intros [P1 P2 P3 P4 P5]. split; rewrite ?P1, ?P2.
  - intros q. rewrite list_elem_of_singleton, lookup_singleton_is_Some. split; congruence.
  - repeat constructor. apply not_elem_of_nil.
  - intros q i [_ <-]%lookup_singleton_Some. simpl. lia.
  - intros q i [<- _]%lookup_singleton_Some. lia.
  - intros q q' i i' [<- _]%lookup_singleton_Some [<- _]%lookup_singleton_Some. done.
Qed.

(** Closing the only file and its inode. *)
Lemma close_map_file s s0 d ip fp :
  map_open s0 s d ip fp → ∃ s', free_map_close oom s = Ok (tt, s') ∧ inodes s' = ∅ ∧ open_inodes s' = [] ∧
    fs_device s' = fs_device s ∧ free_map s' = free_map s.
Proof.
  intros [P1 P2 P3 P4 P5]. assert (get_file fp s = Ok (mk_file ip 0 false, s)) as Eg by (unfold get_file; by rewrite P3).
  assert (get_inode ip s = Ok (mk_inode FREE_MAP_SECTOR 1 false 0 d, s)) as Ei by (apply get_inode_ok; rewrite P1; apply lookup_singleton_eq).
  eexists. split.
  - unfold free_map_close. erewrite bind_ok by apply get_ok. rewrite P4. unfold file_close. rewrite (proj2 (Z.eqb_neq _ NULL)) by (unfold NULL; lia).
    unfold file_allow_write. erewrite bind_ok by (erewrite bind_ok by exact Eg; done). erewrite bind_ok by exact Eg.
    unfold inode_close. cbn [f_inode]. rewrite (proj2 (Z.eqb_neq _ NULL)) by (unfold NULL; lia).
    erewrite bind_ok by (erewrite bind_ok by exact Ei; reflexivity). done.
  - simpl. rewrite P1, P2. split_and!; [|by rewrite filter_cons, decide_False by naive_solver|done|done].
    by rewrite insert_singleton_eq, delete_singleton_eq.
Qed.

(** The file system with two inodes and no name. *)
Lemma formatted s s0 z ip fp :
  let M := <[ROOT_DIR_SECTOR := root_inode z]> {[FREE_MAP_SECTOR := map_inode z]} : gmap Z inode_disk in
  map_open s0 s (map_inode z) ip fp → disk_ok (fs_device s) (free_map s) M → bit_cnt (free_map s) = z →
  file_bytes (fs_device s) (root_inode z) = repeat 0 (Z.to_nat 320) → fs_ok [] {[fp := mk_file ip 0 false]} s M ∅.
Proof.
  intros M Hm Hk Hc Hz. pose proof (map_open_table _ _ _ _ _ Hm) as Ht. destruct Hm as [P1 P2 P3 P4 P5].
  set (f := mk_file ip 0 false) in *.
  assert (∀ q, refs [] {[fp := f]} q = if decide (q = ip) then 1 else 0) as Hrefs.
  { intros q. unfold refs, held. rewrite <-insert_empty, count_new by apply lookup_empty. rewrite count_none by (intros ? ? Hf; by rewrite lookup_empty in Hf).
    simpl. repeat case_decide; (congruence || lia). }
  assert (∀ q, denied {[fp := f]} q = 0) as Hden.
  { intros q. apply count_none. intros fp' f' [_ <-]%lookup_singleton_Some [_ Hd]. done. }
  split; [done| | |].
  - exists (root_inode z). rewrite Hz. split_and!; [apply lookup_insert_eq|done| |]; vm_compute; [constructor|reflexivity].
  - split; intros *; by rewrite lookup_empty.
  - split; rewrite ?P1, ?P4.
    + done.
    + intros q i [<- <-]%lookup_singleton_Some. simpl. rewrite Hrefs, Hden, decide_True by done. done.
    + intros q i [<- <-]%lookup_singleton_Some. done.
    + intros sec d [[<- _]|[_ [<- _]%lookup_singleton_Some]]%lookup_insert_Some; [by right; left|by left].
    + intros fp' f' [<- <-]%lookup_singleton_Some. split_and!; [done|lia|lia|simpl; lia|simpl; lia|].
      eexists. split; [apply lookup_singleton_eq|]. done.
    + exists f. eexists. split_and!; [apply lookup_singleton_eq|done|apply lookup_singleton_eq|done|]. simpl. rewrite Hc. done.
    + intros q []%elem_of_nil.
Qed.

(** do_format makes the two inodes and stores the map. *)
Lemma do_format_ok s :
  let z := size (fs_device s) in
  let M := <[ROOT_DIR_SECTOR := root_inode z]> {[FREE_MAP_SECTOR := map_inode z]} : gmap Z inode_disk in
  inodes s = ∅ → open_inodes s = [] → free_map_file s = NULL → block_ok (fs_device s) → wf (free_map s) → bit_cnt (free_map s) = z →
  (∀ j, 0 ≤ j < z → bit (free_map s) j = bool_decide (j < 2)) → 2 + map_sectors z + 1 ≤ z →
  ∃ s', do_format oom s = Ok (tt, s') ∧ inodes s' = ∅ ∧ open_inodes s' = [] ∧ disk_ok (fs_device s') (free_map s') M ∧
    size (fs_device s') = z ∧ file_bytes (fs_device s') (root_inode z) = repeat 0 (Z.to_nat 320) ∧ map_stored s' (map_inode z).
Proof.
  intros z M Ei Eo Hnull Hb Hw Hc Hbits Hle.
  destruct (free_map_create_ok s Ei Eo Hnull Hb Hw Hc Hbits) as (s1 & ip & fp & E1 & Hm1 & Hco1 & Hs1 & Hb1); [fold z; lia|]. fold z in Hm1, Hco1, Hs1, Hb1.
  assert (0 ≤ map_sectors z) as Hms by (unfold map_sectors, byte_cnt; pose proof (u32_range (4 * elem_cnt z)); dlia).
  destruct (create_above s1 {[FREE_MAP_SECTOR := map_inode z]} ROOT_DIR_SECTOR 320 (2 + map_sectors z) Hco1) as (s2 & E2 & Hco2 & Ht & Hz & Hb2 & Hst).
  { lia. }
  { unfold ROOT_DIR_SECTOR. lia. }
  { intros sec d [<- <-]%lookup_singleton_Some [Hj|Hj]; [done|simpl in Hj; unfold ROOT_DIR_SECTOR in Hj; lia]. }
  { by rewrite Hs1. }
  { rewrite Hs1. change ((320 + 511) / 512) with 1. lia. }
  fold (root_inode z) in *. destruct (tc_kept _ _ _ Ht) as (Kf & _ & Kmf & Ki). destruct Hm1 as [P1 P2 P3 P4 P5].
  destruct (close_map_file s2 s1 (map_inode z) ip fp) as (s3 & E3 & Hi3 & Ho3 & Hd3 & Hfm3).
  { split; rewrite ?Ki, ?(tc_open _ _ _ Ht), ?Kf, ?Kmf; try done. pose proof (tc_allocs _ _ _ Ht). lia. }
  exists s3. split_and!; [|done|done|rewrite Hd3, Hfm3; apply Hco2|rewrite Hd3, (tc_size _ _ _ Ht); done|by rewrite Hd3|].
  - unfold do_format. erewrite bind_ok by exact E1. unfold dir_create. change (s32 (16 * entry_size)) with 320. erewrite bind_ok by exact E2. exact E3.
  - unfold map_stored. rewrite Hd3, Hfm3. apply Hst; [rewrite P4; unfold NULL; lia|apply lookup_singleton_eq].
Qed.

(** free_map_open reads the map back. *)
Lemma free_map_open_ok s z :
  let M := <[ROOT_DIR_SECTOR := root_inode z]> {[FREE_MAP_SECTOR := map_inode z]} : gmap Z inode_disk in
  inodes s = ∅ → open_inodes s = [] → disk_ok (fs_device s) (free_map s) M → size (fs_device s) = z → 0 < z →
  file_bytes (fs_device s) (root_inode z) = repeat 0 (Z.to_nat 320) → map_stored s (map_inode z) →
  ∃ s' h, free_map_open oom s = Ok (tt, s') ∧ fs_ok [] h s' M ∅ ∧ handles_of s' h = ∅.
Proof.
  intros M Ei Eo Hk Hs Hz Hzero Hst. pose proof (dk_wf _ _ _ Hk) as Hw. pose proof (dk_cnt _ _ _ Hk) as Hc.
  assert (M !! FREE_MAP_SECTOR = Some (map_inode z)) as HM0 by done. pose proof (dk_extent _ _ _ Hk _ _ HM0) as Hx.
  destruct (open_map_file s (map_inode z)) as (ip & fp & s1 & s2 & E1 & E2 & Hfp & Hm & Hsd & Hfm); [done|done|apply Hk|lia|by apply (dk_sector _ _ _ Hk)|].
  set (s3 := set_map_file fp s2) in *. pose proof (same_disk_extent _ _ _ Hsd Hx) as Hx2.
  assert (file_bytes (fs_device s2) (map_inode z) = file_bytes (fs_device s) (map_inode z)) as Hfb by (by apply same_disk_bytes).
  destruct (bitmap_read_ok s3 fp (mk_file ip 0 false) (mk_inode FREE_MAP_SECTOR 1 false 0 (map_inode z)) (free_map s) (free_map s2))
    as (b & s4 & E4 & Hsame & Hwb & Hcb & Hbits).
  { apply Hm. }
  { rewrite (mp_inodes _ _ _ _ _ Hm). apply lookup_singleton_eq. }
  { exact Hx2. }
  { apply Hsd. }
  { done. }
  { by rewrite Hfm. }
  { by rewrite Hfm. }
  { lia. }
  { rewrite Hc, Hs. simpl. lia. }
  { simpl data. change (fs_device s3) with (fs_device s2). by rewrite Hfb. }
  pose proof (same_fs_same_disk _ _ Hsame) as Hsd4. destruct Hsame as (bl & a & -> & Ha & _). set (s5 := set_free_map b (set_allocs a (set_device bl s3))).
  assert (map_open s s5 (map_inode z) ip fp) as Hm5 by (destruct Hm as [P1 P2 P3 P4 P5]; split; try done; simpl in *; lia).
  assert (same_disk (fs_device s) bl) as Hsd5 by (by eapply same_disk_trans). destruct Hsd5 as (D1 & D2 & D3 & D4).
  exists s5, {[fp := mk_file ip 0 false]}. split_and!.
  - unfold free_map_open. erewrite bind_ok by exact E1. erewrite bind_ok by exact E2. erewrite bind_ok by done. rewrite (proj2 (Z.eqb_neq _ _) Hfp).
    erewrite bind_ok by apply get_ok. erewrite bind_ok by exact E4. done.
  - apply (formatted s5 s z ip fp); try done; [|simpl; lia|].
    + apply (disk_map bl (free_map s)); try done.
      * apply (disk_frame (fs_device s)); try done. intros sec [d Hd]. apply D4. by eapply dk_sector.
      * intros sec d j Hd Hj Hb. simpl. rewrite Hbits; [done|]. rewrite Hc. by eapply foot_range.
    + etrans; [|exact Hzero]. eapply same_disk_bytes; [done|]. by apply (dk_extent _ _ _ Hk ROOT_DIR_SECTOR).
  - unfold handles_of. simpl. by rewrite delete_singleton_eq.
Qed.

Lemma format_ok s words :
  inodes s = ∅ → free_map_file s = NULL → block_ok (fs_device s) → wf (mk_bitmap (size (fs_device s)) words) →
  3 + map_sectors (size (fs_device s)) ≤ size (fs_device s) →
  ∃ s', filesys_init oom (Some words) true s = Ok (tt, s') ∧ abstracts s' (mk_afs ∅ ∅ ∅).
Proof.
  intros Ei Hnull Hb Hw Hle. set (z := size (fs_device s)) in *.
  assert (0 ≤ map_sectors z) as Hms by (unfold map_sectors, byte_cnt; pose proof (u32_range (4 * elem_cnt z)); dlia).
  destruct (free_map_init_ok (set_open [] s) words) as (b & E1 & Hwb & Hcb & Hbits); [done|simpl; fold z; lia|]. simpl in Hcb, Hbits. fold z in Hcb, Hbits.
  destruct (do_format_ok (set_free_map b (set_open [] s))) as (s2 & E2 & Hi2 & Ho2 & Hk2 & Hs2 & Hz2 & Hst2); [done..|simpl; fold z; lia|].
  simpl in Hk2, Hs2, Hz2, Hst2. fold z in Hk2, Hs2, Hz2, Hst2.
  destruct (free_map_open_ok s2 z) as (s3 & h & E3 & Hok & Hh); [done..|lia|done|done|].
  exists s3. split.
  - unfold filesys_init. erewrite bind_ok by done. erewrite bind_ok by exact E1. erewrite bind_ok by exact E2. exact E3.
  - eexists h, _. split_and!; [exact Hok| |done]. simpl. unfold data_of. rewrite delete_insert_ne by done.
    by rewrite delete_singleton_eq, delete_insert_eq, delete_empty, fmap_empty.
Qed.

End format.

(** ** Properties *)

(** C14: formatting makes an empty file system.  On any device that has room
    for the free map and one more sector, whatever its sectors hold, and as long
    as no call of malloc fails, filesys_init with the format option returns, and the result stands for the
    abstract file system without names and files: the invariant on which
    [filesys_refines] is based holds from then on. *)
Theorem filesys_format_correct {D : Type} `{BD : BlockDriver D} oom (s : fs D) words :
  (∀ n, oom n = false) →
  inodes s = ∅ → free_map_file s = NULL → block_ok (fs_device s) → wf (mk_bitmap (size (fs_device s)) words) →
  3 + map_sectors (size (fs_device s)) ≤ size (fs_device s) →
  ∃ s', filesys_init oom (Some words) true s = Ok (tt, s') ∧ abstracts s' (mk_afs ∅ ∅ ∅).
Proof. intros Hm. by apply format_ok. Qed.

(** ** Witnesses *)

Lemma blank_ok : block_ok (fs_device blank_fs) ∧ wf (mk_bitmap 20 [7]) ∧ map_sectors 20 = 1.
Proof.
  split_and!.
  - split; [|simpl; lia|discriminate]. apply (bool_decide_unpack _). vm_compute. reflexivity.
  - split; [simpl; lia|reflexivity|]. repeat constructor; simpl; lia.
  - reflexivity.
Qed.

Lemma filesys_format_correct_witness :
  ∃ s', filesys_init always (Some [7]) true blank_fs = Ok (tt, s') ∧ abstracts s' (mk_afs ∅ ∅ ∅).
Proof.
  destruct blank_ok as (H1 & H2 & H3).
  apply (filesys_format_correct always blank_fs [7]); [done|reflexivity|reflexivity|exact H1|exact H2|].
  change (size (fs_device blank_fs)) with 20. rewrite H3. lia.
Defined.

(** A file of 600 bytes on the formatted disk. *)
Lemma filesys_refines_witness :
  ∃ s v s' a', filesys_init always (Some [7]) true blank_fs = Ok (tt, s) ∧
    run_call always (repeat 7 20) (repeat 7 20) (Create [97] 600) s = Ok (v, s') ∧ v = VBool true ∧
    allows (mk_afs ∅ ∅ ∅) (Create [97] 600) v a' ∧ abstracts s' a'.
Proof.
  destruct blank_ok as (H1 & H2 & H3).
  destruct (format_ok always (λ _, eq_refl) blank_fs [7]) as (s & E & Ha); [reflexivity|reflexivity|exact H1|exact H2| |].
  { change (size (fs_device blank_fs)) with 20. rewrite H3. lia. }
  destruct (filesys_refines always (repeat 7 20) (repeat 7 20) s (mk_afs ∅ ∅ ∅) (Create [97] 600)) as (v & s' & a' & E' & Hal & Ha').
  { done. }
  { exact demo_junk. }
  { exact demo_junk. }
  { exact Ha. }
  { split; [vm_compute; reflexivity|]. split; [repeat constructor; lia|lia]. }
  exists s, v, s', a'. split; [exact E|]. split; [exact E'|]. split; [|split; [exact Hal|exact Ha']].
  clear Ha Hal Ha'. vm_compute in E. injection E as <-. vm_compute in E'. injection E' as <- _. reflexivity.
Defined.
