(* ===== verification/Fsutil.v ===== *)
(** * File system utilities: filesys/fsutil.c

    The actions that copy files between the file system and a tar archive on
    the scratch device.  They are written against [FileSystem], the block layer
    and the headers of [Ustar]; the header is in a memory of bytes, and the
    buffers that only carry sectors are lists of bytes.  What the actions print
    is not modelled, and with it fsutil_ls and fsutil_cat, which do nothing
    else. *)

From S2P Require Import Prelude Bytes Block CString Ustar Inode FilesysRefine.

Section fsutil.
Context {D : Type} `{BD : BlockDriver D} {F : Type} `{FS : FileSystem F}.
(** The addresses of the string literals. *)
Variable L : list Z → Z.

(** The two static variables [sector] are [s_extract] and [s_append]. *)
Record sys := mk_sys {
  s_mem : mem;
  s_fs : F;
  s_scratch : option (block D);
  s_extract : Z;
  s_append : Z
}.

Definition on_mem {A} (f : ST mem A) : ST sys A := λ s,
  match f (s_mem s) with
  | Ok (x, m) => Ok (x, mk_sys m (s_fs s) (s_scratch s) (s_extract s) (s_append s))
  | Err e => Err e
  end.

Definition on_scratch {A} (f : ST (block D) A) : ST sys A := λ s,
  match s_scratch s with
  | Some b =>
      match f b with
      | Ok (x, b) => Ok (x, mk_sys (s_mem s) (s_fs s) (Some b) (s_extract s) (s_append s))
      | Err e => Err e
      end
  | None => Err BadAccess
  end.

Definition on_fs {A} (c : call) (get : value → option A) : ST sys A := λ s,
  match fs_call c (s_fs s) with
  | Ok (v, f) => match get v with Some x => Ok (x, mk_sys (s_mem s) f (s_scratch s) (s_extract s) (s_append s)) | None => Err BadAccess end
  | Err e => Err e
  end.

Definition filesys_create (name : list Z) (n : Z) : ST sys bool := on_fs (Create name n) (λ v, if v is VBool b then Some b else None).
Definition filesys_open (name : list Z) : ST sys Z := on_fs (Open name) (λ v, if v is VInt p then Some p else None).
Definition filesys_remove (name : list Z) : ST sys bool := on_fs (Remove name) (λ v, if v is VBool b then Some b else None).
Definition file_length (fp : Z) : ST sys Z := on_fs (Length fp) (λ v, if v is VInt n then Some n else None).
Definition file_read (fp n : Z) : ST sys (list Z) := on_fs (Read fp n) (λ v, if v is VBytes bs then Some bs else None).
Definition file_write (fp : Z) (buf : list Z) (n : Z) : ST sys Z := on_fs (Write fp buf n) (λ v, if v is VInt k then Some k else None).
Definition file_close (fp : Z) : ST sys unit := on_fs (Close fp) (λ v, if v is VUnit then Some tt else None).

(** Buffers and strings in memory. *)
Fixpoint store (p : Z) (bs : list Z) : ST mem unit :=
  match bs with [] => mret tt | b :: r => st p b;; store (p + 1) r end.
Fixpoint load (p : Z) (n : nat) : ST mem (list Z) :=
  match n with O => mret [] | S k => b ← ld p; r ← load (p + 1) k; mret (b :: r) end.
Definition read_string (p : Z) : ST mem (list Z) := n ← strlen p; load p (Z.to_nat n).

(** ** Removing *)

Definition fsutil_rm (file_name : Z) : ST sys unit :=
  name ← on_mem (read_string file_name);
  ok ← filesys_remove name;
  if negb ok then fail KernelPanic else mret tt.

(** ** Extracting *)

(** [block_read (src, sector++, buffer)]. *)
Definition next_sector : ST sys (list Z) :=
  s ← get;
  modify (λ s, mk_sys (s_mem s) (s_fs s) (s_scratch s) (u32 (s_extract s + 1)) (s_append s));;
  on_scratch (block_read (s_extract s)).

Definition chunk_size (size : Z) : Z := if size >? BLOCK_SECTOR_SIZE then BLOCK_SECTOR_SIZE else size.
Definition sectors (size : Z) : Z := (size + 511) / 512.

Definition copy_out (dst size : Z) : ST sys unit :=
  loopM (S (Z.to_nat (sectors size))) (λ size,
    if size >? 0 then
      data ← next_sector;
      n ← file_write dst data (chunk_size size);
      if negb (n =? chunk_size size) then fail KernelPanic else mret (inl (size - chunk_size size))
    else mret (inr tt)) size.

Definition extract_entry (header : Z) : ST sys (unit + unit) :=
  bs ← next_sector;
  on_mem (store header bs);;
  r ← on_mem (ustar_parse_header L header);
  match r with
  | inl _ => fail KernelPanic
  | inr (file_name, type, size) =>
      if type =? USTAR_EOF then mret (inr tt)
      else if type =? USTAR_DIRECTORY then mret (inl tt)
      else if type =? USTAR_REGULAR then
        name ← on_mem (read_string file_name);
        ok ← filesys_create name size;
        if negb ok then fail KernelPanic
        else
          dst ← filesys_open name;
          if dst =? Inode.NULL then fail KernelPanic
          else copy_out dst size;; file_close dst;; mret (inl tt)
      else mret (inl tt)
  end.

(** [header] and [data] are what malloc returned.  Every round reads a sector,
    so there are not more rounds than the device has sectors. *)
Definition fsutil_extract (header data : Z) : ST sys unit :=
  if (header =? Inode.NULL) || (data =? Inode.NULL) then fail KernelPanic
  else
    s ← get;
    match s_scratch s with
    | None => fail KernelPanic
    | Some src =>
        loopM (S (Z.to_nat (block_size src))) (λ _ : unit, extract_entry header) tt;;
        on_mem (memset header 0 BLOCK_SECTOR_SIZE);;
        zeros ← on_mem (load header 512);
        on_scratch (block_write 0 zeros);;
        on_scratch (block_write 1 zeros)
    end.

(** ** Appending *)

(** [block_write (dst, sector++, buffer)]. *)
Definition put_sector (bs : list Z) : ST sys unit :=
  s ← get;
  modify (λ s, mk_sys (s_mem s) (s_fs s) (s_scratch s) (s_extract s) (u32 (s_append s + 1)));;
  on_scratch (block_write (s_append s) bs).

Definition copy_in (src size : Z) : ST sys unit :=
  loopM (S (Z.to_nat (sectors size))) (λ size,
    if size >? 0 then
      s ← get;
      n ← on_scratch (λ b, Ok (block_size b, b));
      if s_append s >=? n then fail KernelPanic
      else
        bs ← file_read src (chunk_size size);
        if negb (Z.of_nat (length bs) =? chunk_size size) then fail KernelPanic
        else
          put_sector (bs ++ repeat 0 (Z.to_nat (BLOCK_SECTOR_SIZE - chunk_size size)));;
          mret (inl (size - chunk_size size))
    else mret (inr tt)) size.

Definition fsutil_append (file_name buffer : Z) : ST sys unit :=
  if buffer =? Inode.NULL then fail KernelPanic
  else
    name ← on_mem (read_string file_name);
    src ← filesys_open name;
    if src =? Inode.NULL then fail KernelPanic
    else
      size ← file_length src;
      s ← get;
      match s_scratch s with
      | None => fail KernelPanic
      | Some _ =>
          ok ← on_mem (ustar_make_header L file_name USTAR_REGULAR size buffer);
          if negb ok then fail KernelPanic
          else
            bs ← on_mem (load buffer 512);
            put_sector bs;;
            copy_in src size;;
            s ← get;
            on_scratch (block_write (s_append s) (repeat 0 512));;
            on_scratch (block_write (u32 (s_append s + 1)) (repeat 0 512));;
            file_close src
      end.

End fsutil.

#[global] Arguments sys D F : clear implicits.
