(* ===== verification/FsutilSpec.v ===== *)
(** * Archives on the scratch device

    fsutil_append writes an archive that fsutil_extract reads back: every file
    gets the name without its antisocial prefix, and the bytes it had. *)

From Stdlib Require String.
From S2P Require Import Prelude Bytes Bitmap Block CString Stdio StdioFormat Ustar UstarSpec Inode InodeSpec Directory DirSpec FilesysRefine FilesysFormat Fsutil.
Import String.StringSyntax.

(** ** Buffers and strings *)

Lemma store_buffer bs : ∀ m p, mapped m p (Z.of_nat (length bs)) → ∃ m', store p bs m = Ok (tt, m') ∧ stored m m' p bs.
Proof.
  induction bs as [|b bs IH]; intros m p Hm.
  { exists m. split; [done|apply stored_nil]. }
  assert (is_Some (m !! p)) as Hp by (apply Hm; simpl; lia). simpl. erewrite bind_ok by (by apply st_ok).
  destruct (IH (<[p := b]> m) (p + 1)) as (m' & E & Hs).
  { intros a Ha. destruct (decide (a = p)) as [->|Hne]; [by rewrite lookup_insert_eq|]. rewrite lookup_insert_ne by done. apply Hm. simpl. lia. }
  exists m'. split; [done|]. intros a. rewrite Hs. simpl length. destruct (decide (a = p)) as [->|Hne].
  - rewrite decide_False, decide_True by lia. rewrite lookup_insert_eq. by replace (Z.to_nat (p - p)) with 0%nat by lia.
  - rewrite lookup_insert_ne by done. case_decide; case_decide; try lia; [|done].
    replace (Z.to_nat (a - p)) with (S (Z.to_nat (a - (p + 1)))) by lia. done.
Qed.

Lemma load_ok bs : ∀ m p r, bytes_at m p (bs ++ r) → load p (length bs) m = Ok (bs, m).
Proof.
  induction bs as [|b bs IH]; intros m p r Hb; [done|]. simpl.
  erewrite bind_ok by (apply ld_ok; specialize (Hb 0%nat b eq_refl); by rewrite Z.add_0_r in Hb).
  erewrite bind_ok; [done|]. apply (IH m (p + 1) r). intros i x Hx. specialize (Hb (S i) x Hx). by replace (p + 1 + Z.of_nat i) with (p + Z.of_nat (S i)) by lia.
Qed.

Lemma read_string_ok m p t : cstr m p t → read_string p m = Ok (t, m).
Proof.
  intros Ht. unfold read_string. erewrite bind_ok by (by apply strlen_ok). rewrite Nat2Z.id. apply (load_ok t m p [0]), Ht.
Qed.

(** ** Sectors *)

Definition pad512 (l : list Z) : list Z := l ++ repeat 0 (512 - length l).

(** The sectors that the bytes of a file take. *)
Definition chunks (bs : list Z) : list (list Z) :=
  (λ i, pad512 (slice (512 * i) 512 bs)) <$> seqZ 0 (sectors (Z.of_nat (length bs))).

Definition zero_sector : list Z := repeat 0 512.

(** The sectors of a file in an archive. *)
Definition entry_sectors (e : list Z * list Z) : list (list Z) :=
  concat (made_header (fst e) USTAR_REGULAR (Z.of_nat (length (snd e)))) :: chunks (snd e).

Lemma length_chunks bs : Z.of_nat (length (chunks bs)) = sectors (Z.of_nat (length bs)).
Proof. unfold chunks. rewrite length_fmap, length_seqZ. unfold sectors. dlia. Qed.

Lemma chunks_lookup bs i :
  0 ≤ i < sectors (Z.of_nat (length bs)) → chunks bs !! Z.to_nat i = Some (pad512 (slice (512 * i) 512 bs)).
Proof. intros Hi. unfold chunks. rewrite list_lookup_fmap, lookup_seqZ_lt by lia. simpl. do 2 f_equal. f_equal. lia. Qed.

Lemma pad512_ok l : Forall byte_ok l → (length l ≤ 512)%nat → sector_ok (pad512 l).
Proof.
  intros Hb Hl. unfold pad512. split; [rewrite length_app, repeat_length; lia|]. apply Forall_app. split; [done|].
  apply Forall_forall. by intros y Hy%list_elem_of_In%repeat_spec; subst.
Qed.

Section device.
Context {D : Type} `{BD : BlockDriver D}.
Implicit Types b : block D.

(** [b'] is [b] with the sectors from [k] on replaced. *)
Record put_at b b' (k : Z) (secs : list (list Z)) : Prop := {
  pa_ok : block_ok b';
  pa_size : size b' = size b;
  pa_in i x : secs !! i = Some x → sector_of b' (k + Z.of_nat i) = x;
  pa_out j : 0 ≤ j < size b → j < k ∨ k + Z.of_nat (length secs) ≤ j → sector_of b' j = sector_of b j
}.

Lemma put_at_nil b k : block_ok b → put_at b b k [].
Proof. intros Hb. by split. Qed.

Lemma put_at_snoc b b1 k secs x :
  put_at b b1 k secs → 0 ≤ k → k + Z.of_nat (length secs) < size b → sector_ok x →
  ∃ b2, block_write (k + Z.of_nat (length secs)) x b1 = Ok (tt, b2) ∧ put_at b b2 k (secs ++ [x]).
Proof.
  intros [Hb Hs Hin Hout] Hk Hl Hx. destruct (block_write_ok b1 (k + Z.of_nat (length secs)) x Hb) as (b2 & E & Hb2 & Hs2 & _ & Hsec); [lia|done|].
  exists b2. split; [done|]. split; [done|congruence| |].
  - intros i y [Hi|[Hge Hi]]%lookup_app_Some.
    + pose proof (lookup_lt_Some _ _ _ Hi). rewrite Hsec by lia. rewrite decide_False by lia. by apply Hin.
    + apply list_lookup_singleton_Some in Hi as [Hi <-]. assert (i = length secs) as -> by lia. rewrite Hsec by lia. by rewrite decide_True.
  - intros j Hj Ho. rewrite length_app in Ho. simpl in Ho. rewrite Hsec by lia. rewrite decide_False by lia. apply Hout; lia.
Qed.

(** The device holds these sectors from [k] on. *)
Definition holds b (k : Z) (secs : list (list Z)) : Prop := ∀ i x, secs !! i = Some x → sector_of b (k + Z.of_nat i) = x.

Lemma holds_cons b k x secs : holds b k (x :: secs) ↔ sector_of b k = x ∧ holds b (k + 1) secs.
Proof.
  split.
  - intros H. split; [specialize (H 0%nat x eq_refl); by rewrite Z.add_0_r in H|]. intros i y Hy. specialize (H (S i) y Hy).
    by replace (k + 1 + Z.of_nat i) with (k + Z.of_nat (S i)) by lia.
  - intros [H1 H2] [|i] y Hy; [simplify_eq/=; by rewrite Z.add_0_r|]. rewrite <-(H2 i y Hy). f_equal. lia.
Qed.

Lemma holds_app b k l1 l2 : holds b k (l1 ++ l2) ↔ holds b k l1 ∧ holds b (k + Z.of_nat (length l1)) l2.
Proof.
  revert k. induction l1 as [|x l1 IH]; intros k; simpl; [rewrite Z.add_0_r; split; [intros; split; [by intros i y ?|done]|tauto]|].
  rewrite !holds_cons, IH. replace (k + Z.of_nat (S (length l1))) with (k + 1 + Z.of_nat (length l1)) by lia. tauto.
Qed.
End device.

(** ** The file system *)

Section calls.
Context {D : Type} `{BD : BlockDriver D} {F : Type} `{FS : FileSystem F}.
Implicit Types (m : mem) (f : F) (a : afs) (d : option (block D)) (e k : Z).

Lemma on_mem_ok {A} (g : ST mem A) m f d e k x m' :
  g m = Ok (x, m') → on_mem g (mk_sys m f d e k) = Ok (x, mk_sys m' f d e k).
Proof. intros E. unfold on_mem. simpl. by rewrite E. Qed.

Lemma on_scratch_ok {A} (g : ST (block D) A) m f (b b' : block D) e k x :
  g b = Ok (x, b') → on_scratch g (mk_sys m f (Some b) e k) = Ok (x, mk_sys m f (Some b') e k).
Proof. intros E. unfold on_scratch. simpl. by rewrite E. Qed.

Definition few (a : afs) : Prop := Z.of_nat (base.size (a_open a)) < 2 ^ 31 - 5.

Lemma few_opened a fp x : few a → Z.of_nat (base.size (a_open (set_handle fp x a))) < 2 ^ 31 - 4.
Proof.
  unfold few. intros Hf. simpl. rewrite map_size_insert. destruct (a_open a !! fp); simpl; lia.
Qed.

Lemma open_found m f d e k a name sec :
  fs_abs f a → few a → a_names a !! name = Some sec →
  ∃ fp f', filesys_open name (mk_sys m f d e k) = Ok (fp, mk_sys m f' d e k) ∧ fp ≠ Inode.NULL ∧ a_open a !! fp = None ∧
    fs_abs f' (set_handle fp (sec, 0, false) a).
Proof.
  intros Ha Hf Hn. destruct (fs_call_ok f a (Open name) Ha) as (v & f' & a' & E & Hal & Ha'); [split; [unfold few in Hf; lia|done]|].
  simpl in Hal. rewrite Hn in Hal. destruct Hal as (fp & -> & H0 & Hnew & ->). exists fp, f'. split_and!; try done.
  unfold filesys_open, on_fs. simpl. by rewrite E.
Qed.

Lemma set_handle_twice a fp x y : set_handle fp x (set_handle fp y a) = set_handle fp x a.
Proof. unfold set_handle. simpl. by rewrite insert_insert_eq. Qed.

Section handle.
Context f a (sec fp p : Z) (dn : bool) (bs : list Z).
Hypothesis Ha : fs_abs f (set_handle fp (sec, p, dn) a).
Hypothesis Hf : few a.
Hypothesis Hbs : a_data a !! sec = Some bs.

Lemma handle_legal : is_Some (a_open (set_handle fp (sec, p, dn) a) !! fp).
Proof. simpl. rewrite lookup_insert_eq. eauto. Qed.

Lemma length_called m d e k :
  ∃ f', file_length fp (mk_sys m f d e k) = Ok (Z.of_nat (length bs), mk_sys m f' d e k) ∧ fs_abs f' (set_handle fp (sec, p, dn) a).
Proof.
  destruct (fs_call_ok f _ (Length fp) Ha) as (v & f' & a' & E & (sec' & p' & dn' & bs' & Ho & Hd & -> & ->) & Ha');
    [split; [by apply few_opened|apply handle_legal]|].
  simpl in Ho, Hd. rewrite lookup_insert_eq in Ho. simplify_eq. exists f'. split; [|done]. unfold file_length, on_fs. simpl. by rewrite E.
Qed.

Lemma read_called m d e k n :
  0 ≤ n < 2 ^ 31 →
  ∃ f', file_read fp n (mk_sys m f d e k) = Ok (slice p n bs, mk_sys m f' d e k) ∧
    fs_abs f' (set_handle fp (sec, p + Z.of_nat (length (slice p n bs)), dn) a).
Proof.
  intros Hn. destruct (fs_call_ok f _ (Read fp n) Ha) as (v & f' & a' & E & (sec' & p' & dn' & bs' & Ho & Hd & -> & ->) & Ha');
    [split; [by apply few_opened|split; [apply handle_legal|done]]|].
  simpl in Ho, Hd. rewrite lookup_insert_eq in Ho. simplify_eq. rewrite set_handle_twice in Ha'. exists f'. split; [|done].
  unfold file_read, on_fs. simpl. by rewrite E.
Qed.

Lemma write_called m d e k buf n :
  0 ≤ n < 2 ^ 31 → n ≤ Z.of_nat (length buf) → Forall byte_ok buf → 0 ≤ p → p + n ≤ Z.of_nat (length bs) → dn = false → ¬ write_denied (mk_afs (a_names a) (a_data a) (delete fp (a_open a))) sec →
  ∃ f', file_write fp buf n (mk_sys m f d e k) = Ok (n, mk_sys m f' d e k) ∧
    fs_abs f' (set_handle fp (sec, p + n, dn) (mk_afs (a_names a) (<[sec := overwrite p (slice 0 n buf) bs]> (a_data a)) (a_open a))).
Proof.
  intros Hn Hl Hb Hp Hpn Edn Hden.
  destruct (fs_call_ok f _ (Write fp buf n) Ha) as (v & f' & a' & E & (sec' & p' & dn' & bs' & Ho & Hd & z & -> & Hz & ->) & Ha');
    [split; [by apply few_opened|split_and!; [apply handle_legal|lia|lia|done|done]]|].
  simpl in Ho, Hd, Ha'. rewrite lookup_insert_eq in Ho. simplify_eq. rewrite insert_insert_eq in Ha'.
  assert (z = n) as ->.
  { destruct Hz as [[(fp' & q & Hq) _]|[_ ->]]; [|lia]. exfalso. apply Hden. simpl in Hq. exists fp', q. simpl.
    destruct (decide (fp' = fp)) as [->|Hne]; [rewrite lookup_insert_eq in Hq; congruence|].
    rewrite lookup_insert_ne in Hq by (by apply not_eq_sym). by rewrite lookup_delete_ne by (by apply not_eq_sym). }
  exists f'. split; [|done]. unfold file_write, on_fs. simpl. by rewrite E.
Qed.

(** The file has a name, so it stays when it is closed. *)
Lemma close_called m d e k name :
  a_names a !! name = Some sec → a_open a !! fp = None →
  ∃ f', file_close fp (mk_sys m f d e k) = Ok (tt, mk_sys m f' d e k) ∧ fs_abs f' a.
Proof.
  intros Hn Hnew. destruct (fs_call_ok f _ (Close fp) Ha) as (v & f' & a' & E & (sec' & p' & dn' & bs' & Ho & Hd & -> & Hc) & Ha');
    [split; [by apply few_opened|apply handle_legal]|].
  simpl in Ho, Hc. rewrite lookup_insert_eq in Ho. simplify_eq. rewrite delete_insert_id in Hc by done.
  exists f'. split; [unfold file_close, on_fs; simpl; by rewrite E|]. destruct a as [nm dt op].
  destruct Hc as [[_ ->]|[Hno _]]; [done|]. exfalso. apply Hno. left. by exists name.
Qed.
End handle.

(** ** Appending *)

Lemma put_sector_ok m f (b b' : block D) e k bs :
  0 ≤ k < 2 ^ 32 - 1 → block_write k bs b = Ok (tt, b') →
  put_sector bs (mk_sys m f (Some b) e k) = Ok (tt, mk_sys m f (Some b') e (k + 1)).
Proof.
  intros Hk E. unfold put_sector. erewrite bind_ok by done. erewrite bind_ok by done. simpl.
  rewrite u32_small by lia. by apply on_scratch_ok.
Qed.

Lemma sector_chunk (bs : list Z) i :
  0 ≤ i < sectors (Z.of_nat (length bs)) →
  slice (512 * i) (chunk_size (Z.of_nat (length bs) - 512 * i)) bs = slice (512 * i) 512 bs ∧
  Z.of_nat (length (slice (512 * i) 512 bs)) = chunk_size (Z.of_nat (length bs) - 512 * i) ∧
  0 < chunk_size (Z.of_nat (length bs) - 512 * i) ≤ 512.
Proof.
  unfold sectors, chunk_size, BLOCK_SECTOR_SIZE. intros Hi. assert (512 * i < Z.of_nat (length bs)) by dlia.
  unfold slice. rewrite length_take, length_drop. destruct (Z.gtb_spec (Z.of_nat (length bs) - 512 * i) 512).
  - split_and!; [done|lia..].
  - split_and!; [|lia..]. rewrite !take_ge by (rewrite length_drop; lia). done.
Qed.

Lemma copy_in_ok m f (b b0 : block D) e k a sec fp bs secs :
  fs_abs f (set_handle fp (sec, 0, false) a) → few a → a_data a !! sec = Some bs → Forall byte_ok bs → Z.of_nat (length bs) < 2 ^ 31 - 512 →
  put_at b b0 k secs → 0 ≤ k → k + Z.of_nat (length secs) + sectors (Z.of_nat (length bs)) ≤ size b → size b < 2 ^ 32 →
  ∃ f' b', copy_in fp (Z.of_nat (length bs)) (mk_sys m f (Some b0) e (k + Z.of_nat (length secs))) =
      Ok (tt, mk_sys m f' (Some b') e (k + Z.of_nat (length secs) + sectors (Z.of_nat (length bs)))) ∧
    fs_abs f' (set_handle fp (sec, Z.of_nat (length bs), false) a) ∧ put_at b b' k (secs ++ chunks bs).
Proof.
  intros Ha Hf Hbs Hby Hlen Hput Hk Hroom H32. set (n := Z.of_nat (length bs)) in *. unfold copy_in.
  match goal with |- context [loopM _ ?g _] => set (body := g) end.
  assert (0 ≤ n ∧ 0 ≤ sectors n) as [Hn0 Hs0] by (unfold sectors, n; dlia).
  destruct (loopM_rule (λ j r s, ∃ i f b1, s = mk_sys m f (Some b1) e (k + Z.of_nat (length secs) + i) ∧ 0 ≤ i ≤ sectors n ∧ j = Z.to_nat (sectors n - i) ∧
      r = Z.max 0 (n - 512 * i) ∧ fs_abs f (set_handle fp (sec, Z.min n (512 * i), false) a) ∧ put_at b b1 k (secs ++ take (Z.to_nat i) (chunks bs)))
    (λ _ s, ∃ f' b', s = mk_sys m f' (Some b') e (k + Z.of_nat (length secs) + sectors n) ∧
      fs_abs f' (set_handle fp (sec, n, false) a) ∧ put_at b b' k (secs ++ chunks bs)) body)
    with (fuel := S (Z.to_nat (sectors n))) (n := Z.to_nat (sectors n)) (l := n) (s := mk_sys m f (Some b0) e (k + Z.of_nat (length secs)))
    as ([] & s' & E & f' & b' & -> & Hf' & Hb'); [|..|lia|eauto].
  - clear f b0 Ha Hput. intros j r s (i & f & b1 & -> & Hi & -> & -> & Ha & Hput). unfold body.
    destruct (Z.gtb_spec (Z.max 0 (n - 512 * i)) 0) as [Hgt|Hle].
    + assert (i < sectors n) as Hin by (unfold sectors; dlia). destruct (sector_chunk bs i) as (Hc1 & Hc2 & Hc3); [fold n; lia|]. fold n in Hc1, Hc2, Hc3.
      rewrite Z.max_r by lia. set (c := chunk_size (n - 512 * i)) in *. pose proof (pa_size _ _ _ _ Hput) as Hsz.
      erewrite bind_ok by done. erewrite bind_ok by (by apply on_scratch_ok). cbn [s_append]. unfold block_size.
      destruct (Z.geb_spec (k + Z.of_nat (length secs) + i) (size b1)); [lia|].
      rewrite Z.min_r in Ha by lia.
      destruct (read_called f a sec fp (512 * i) false bs Ha Hf Hbs m (Some b1) e (k + Z.of_nat (length secs) + i) c) as (f' & Er & Ha'); [lia|].
      erewrite bind_ok by exact Er. rewrite Hc1, Hc2 in *. rewrite Z.eqb_refl. cbn [negb].
      assert (slice (512 * i) 512 bs ++ repeat 0 (Z.to_nat (BLOCK_SECTOR_SIZE - c)) = pad512 (slice (512 * i) 512 bs)) as ->.
      { unfold pad512. do 2 f_equal. unfold BLOCK_SECTOR_SIZE. lia. }
      pose proof (length_chunks bs) as Hlc. fold n in Hlc.
      destruct (put_at_snoc b b1 k _ (pad512 (slice (512 * i) 512 bs)) Hput Hk) as (b2 & Ew & Hput2).
      { rewrite length_app, length_take. lia. }
      { apply pad512_ok; [by apply Forall_slice|]. lia. }
      rewrite length_app, length_take in Ew. replace (k + Z.of_nat (length secs + Z.to_nat i `min` length (chunks bs))) with (k + Z.of_nat (length secs) + i) in Ew by lia.
      erewrite bind_ok by (apply put_sector_ok; [lia|exact Ew]). eexists _, _. split; [done|]. simpl. exists (Z.to_nat (sectors n - (i + 1))). split; [lia|].
      exists (i + 1), f', b2. split_and!; [f_equal; lia|lia|lia|done|unfold c, chunk_size, BLOCK_SECTOR_SIZE; destruct (Z.gtb_spec (n - 512 * i) 512); lia| |].
      * replace (Z.min n (512 * (i + 1))) with (512 * i + c); [done|]. unfold c, chunk_size, BLOCK_SECTOR_SIZE. destruct (Z.gtb_spec (n - 512 * i) 512); lia.
      * rewrite <-app_assoc in Hput2. replace (Z.to_nat (i + 1)) with (S (Z.to_nat i)) by lia. erewrite take_S_r; [done|]. apply chunks_lookup. fold n. lia.
    + assert (i = sectors n) as -> by (unfold sectors in *; dlia). eexists _, _. split; [done|]. simpl. exists f, b1. split_and!; [done| |].
      * replace (Z.min n (512 * sectors n)) with n in Ha by (unfold sectors in *; dlia). done.
      * rewrite take_ge in Hput; [done|]. pose proof (length_chunks bs). fold n in H. lia.
  - exists 0, f, b0. split_and!; [f_equal; lia|lia|lia|f_equal; lia|lia|by rewrite Z.min_r by lia|by rewrite app_nil_r].
Qed.

(** A buffer for a header, away from the literals. *)
Variable L : list Z → Z.

Record buffer_ok m (h : Z) : Prop := {
  bu_pos : 0 < h;
  bu_mapped : mapped m h 512;
  bu_lits t : t ∈ literals → away m h 512 (L t) t
}.

Lemma away_stored m m' h hd p t : stored m m' h hd → length hd = 512%nat → away m h 512 p t → away m' h 512 p t.
Proof.
  intros Hs Hl [[Hb Hc Hn] Hd]. split; [|done]. split; [|done..]. eapply bytes_at_frame; [|exact Hb].
  intros x Hx. rewrite length_app in Hx. simpl in Hx. rewrite Hs, decide_False; [done|]. lia.
Qed.

Lemma buffer_stored m m' h hd : stored m m' h hd → length hd = 512%nat → buffer_ok m h → buffer_ok m' h.
Proof.
  intros Hs Hl [Hp Hm Hlit]. split; [done| |].
  - intros x Hx. eapply stored_mapped; [done|]. by apply Hm.
  - intros t Ht. eapply away_stored; [done..|]. by apply Hlit.
Qed.

Lemma load_stored m m' h hd : stored m m' h hd → length hd = 512%nat → load h 512 m' = Ok (hd, m').
Proof. intros Hs Hl. rewrite <-Hl. apply (load_ok hd m' h []). rewrite app_nil_r. by eapply stored_bytes. Qed.

Lemma safe_chars m p t : (∀ s, s ∈ literals → cstr m (L s) s) → cstr m p t → Forall (λ c, 0 < c < 256) (safe_name t).
Proof. intros HL Ht. destruct (strip_ok L m p t HL Ht) as (q & _ & Hq & _). apply Hq. Qed.

(** The header sector of a file. *)
Lemma header_sector name n :
  (length name ≤ 99)%nat → Forall (λ c, 0 < c < 256) name → 0 ≤ n < 2 ^ 31 →
  sector_ok (concat (made_header name USTAR_REGULAR n)).
Proof.
  intros Hl Hc Hn. split.
  - rewrite length_concat. rewrite block_sizes by (done || by left). done.
  - assert (Forall is_byte name) by (eapply Forall_impl; [exact Hc|]; unfold is_byte; simpl; lia).
    pose proof (chksum_range name USTAR_REGULAR n Hl Hc ltac:(by left) Hn). apply made_bytes; [done..|]. by apply octal_text_bytes; [lia|].
Qed.

Lemma zeros_ok_sector : sector_ok zero_sector.
Proof. by apply (bool_decide_unpack (sector_ok zero_sector)); vm_compute. Qed.

Lemma append_ok m f (b : block D) e k a p t sec bs buffer :
  fs_abs f a → few a → buffer_ok m buffer → away m buffer 512 p t → (length (safe_name t) ≤ 99)%nat →
  a_names a !! t = Some sec → a_data a !! sec = Some bs →
  block_ok b → size b < 2 ^ 32 → 0 ≤ k → k + 1 + sectors (Z.of_nat (length bs)) + 2 ≤ size b →
  ∃ m' f' b' hd, fsutil_append L p buffer (mk_sys m f (Some b) e k) = Ok (tt, mk_sys m' f' (Some b') e (k + 1 + sectors (Z.of_nat (length bs)))) ∧
    fs_abs f' a ∧ stored m m' buffer hd ∧ length hd = 512%nat ∧
    put_at b b' k (entry_sectors (safe_name t, bs) ++ [zero_sector; zero_sector]).
Proof.
  intros Ha Hf Hbu Hp Hl Hn Hd Hb H32 Hk Hroom. destruct (af_data a (fs_abs_ok f a Ha) sec bs Hd) as [Hby Hlen].
  pose proof (bu_pos _ _ Hbu) as Hpos. unfold fsutil_append. unfold Inode.NULL. rewrite (proj2 (Z.eqb_neq buffer 0)) by lia.
  erewrite bind_ok by (apply on_mem_ok; by eapply read_string_ok, Hp).
  destruct (open_found m f (Some b) e k a t sec Ha Hf Hn) as (fp & f1 & E1 & Hfp & Hnew & Ha1). erewrite bind_ok by exact E1.
  unfold Inode.NULL in Hfp. rewrite (proj2 (Z.eqb_neq fp 0)) by done.
  destruct (length_called f1 a sec fp 0 false bs Ha1 Hf Hd m (Some b) e k) as (f2 & E2 & Ha2). erewrite bind_ok by exact E2.
  erewrite bind_ok by done. cbn [s_scratch]. set (n := Z.of_nat (length bs)) in *. assert (0 ≤ sectors n) as Hs0 by (unfold sectors, n; dlia).
  pose proof (make_header_ok L m buffer Hpos (bu_mapped _ _ Hbu) (bu_lits _ _ Hbu) p t USTAR_REGULAR n Hp ltac:(by left) ltac:(lia)) as Hmk.
  rewrite decide_True in Hmk by done. destruct Hmk as (m' & Em & [Hst Hsz]).
  erewrite bind_ok by (apply on_mem_ok; exact Em). cbn [negb]. set (hd := concat _) in *.
  assert (length hd = 512%nat) as Hlh by (unfold hd; by rewrite length_concat, Hsz).
  assert (sector_ok hd) as Hsec by (apply header_sector; [done| |lia]; eapply (safe_chars m p); [intros s Hs; by apply (bu_lits _ _ Hbu)|apply Hp]).
  erewrite bind_ok by (apply on_mem_ok; by eapply load_stored).
  destruct (put_at_snoc b b k [] hd (put_at_nil b k Hb) Hk) as (b1 & Ew1 & Hput1); [simpl; lia|done|]. simpl in Ew1. rewrite Z.add_0_r in Ew1.
  erewrite bind_ok by (apply put_sector_ok; [lia|exact Ew1]).
  destruct (copy_in_ok m' f2 b b1 e k a sec fp bs [hd]) as (f3 & b2 & Ec & Ha3 & Hput2); [done..|fold n; change (Z.of_nat (length [hd])) with 1; lia|done|].
  fold n in Ec. change (Z.of_nat (length [hd])) with 1 in Ec. erewrite bind_ok by exact Ec. erewrite bind_ok by done. cbn [s_append].
  pose proof (length_chunks bs) as Hlc. fold n in Hlc. change ([] ++ [hd]) with [hd] in *.
  destruct (put_at_snoc b b2 k _ zero_sector Hput2 Hk) as (b3 & Ew3 & Hput3); [rewrite length_app; simpl; lia|apply zeros_ok_sector|].
  destruct (put_at_snoc b b3 k _ zero_sector Hput3 Hk) as (b4 & Ew4 & Hput4); [rewrite !length_app; simpl; lia|apply zeros_ok_sector|].
  rewrite !length_app in Ew3, Ew4. simpl in Ew3, Ew4.
  erewrite bind_ok by (apply on_scratch_ok; etrans; [|exact Ew3]; f_equal; lia).
  rewrite u32_small by (unfold sectors in *; dlia).
  erewrite bind_ok by (apply on_scratch_ok; etrans; [|exact Ew4]; f_equal; lia).
  destruct (close_called f3 a sec fp n false bs Ha3 Hf Hd m' (Some b4) e (k + 1 + sectors n) t Hn Hnew) as (f4 & E4 & Ha4).
  exists m', f4, b4, hd. split_and!; [exact E4|done|done|done|]. unfold entry_sectors. simpl fst. simpl snd. fold n. fold hd.
  rewrite <-!app_assoc in Hput4. exact Hput4.
Qed.

(** ** Extracting *)

Lemma same_disk_refl (b : block D) : block_ok b → same_disk b b.
Proof. intros Hb. by split_and!. Qed.

Lemma same_disk_holds (b b' : block D) e secs :
  same_disk b b' → 0 ≤ e → e + Z.of_nat (length secs) ≤ size b → holds b e secs → holds b' e secs.
Proof. intros (_ & _ & _ & H) He Hr Hh i x Hx. pose proof (lookup_lt_Some _ _ _ Hx). rewrite H by lia. by apply Hh. Qed.

Lemma next_sector_ok m f (b : block D) e k :
  block_ok b → 0 ≤ e < size b → size b < 2 ^ 32 →
  ∃ b', next_sector (mk_sys m f (Some b) e k) = Ok (sector_of b e, mk_sys m f (Some b') (e + 1) k) ∧ same_disk b b' ∧ block_ok b'.
Proof.
  intros Hb He H32. destruct (block_read_ok b e Hb He) as (b' & E & Hs). exists b'. split; [|split; [done|apply Hs]].
  unfold next_sector. erewrite bind_ok by done. erewrite bind_ok by done. simpl.
  rewrite u32_small by lia.
  by erewrite on_scratch_ok by exact E.
Qed.

Lemma drop_repeat {A} (x : A) (k : nat) : ∀ n : nat, drop k (repeat x n) = repeat x (n - k).
Proof. induction k as [|k IH]; intros [|n]; simpl; [done..|apply IH]. Qed.

(** The file after [i] sectors of [bs] have been written over zeros. *)
Definition partial (bs : list Z) (i : Z) : list Z := take (Z.to_nat (512 * i)) bs ++ repeat 0 (length bs - Z.to_nat (512 * i)).

Lemma partial_step bs i :
  0 ≤ i < sectors (Z.of_nat (length bs)) →
  overwrite (512 * i) (slice 0 (chunk_size (Z.of_nat (length bs) - 512 * i)) (pad512 (slice (512 * i) 512 bs))) (partial bs i) = partial bs (i + 1).
Proof.
  intros Hi. destruct (sector_chunk bs i Hi) as (_ & Hc & Hc0). set (c := chunk_size _) in *. set (x := slice (512 * i) 512 bs) in *.
  assert (512 * i < Z.of_nat (length bs)) as Hlt by (unfold sectors in Hi; dlia).
  assert (slice 0 c (pad512 x) = x) as ->.
  { unfold slice, pad512. simpl drop. replace (Z.to_nat c) with (length x) by lia. apply take_app_length. }
  unfold overwrite, partial. rewrite take_app_length' by (rewrite length_take; lia).
  rewrite drop_app_ge by (rewrite length_take; lia). rewrite length_take.
  replace (Z.to_nat (512 * i) + length x - Z.to_nat (512 * i) `min` length bs)%nat with (length x) by lia.
  rewrite app_assoc. f_equal.
  - unfold x, slice. rewrite take_take_drop. f_equal. lia.
  - rewrite drop_repeat. f_equal. unfold x, slice. rewrite length_take, length_drop. lia.
Qed.

Lemma copy_out_ok m f (b : block D) e k a sec fp bs :
  fs_abs f (set_handle fp (sec, 0, false) a) → few a → a_data a !! sec = Some (repeat 0 (length bs)) → Forall byte_ok bs → Z.of_nat (length bs) < 2 ^ 31 - 512 →
  (∀ fp' p dn, a_open a !! fp' ≠ Some (sec, p, dn)) →
  block_ok b → size b < 2 ^ 32 → 0 ≤ e → e + sectors (Z.of_nat (length bs)) ≤ size b → holds b e (chunks bs) →
  ∃ f' b', copy_out fp (Z.of_nat (length bs)) (mk_sys m f (Some b) e k) =
      Ok (tt, mk_sys m f' (Some b') (e + sectors (Z.of_nat (length bs))) k) ∧ same_disk b b' ∧
    fs_abs f' (set_handle fp (sec, Z.of_nat (length bs), false) (mk_afs (a_names a) (<[sec := bs]> (a_data a)) (a_open a))).
Proof.
  intros Ha Hf Hd Hby Hlen Hno Hb H32 He Hroom Hh. set (n := Z.of_nat (length bs)) in *. unfold copy_out.
  match goal with |- context [loopM _ ?g _] => set (body := g) end.
  assert (0 ≤ n ∧ 0 ≤ sectors n) as [Hn0 Hs0] by (unfold sectors, n; dlia).
  set (at_ := λ i, mk_afs (a_names a) (<[sec := partial bs i]> (a_data a)) (a_open a)).
  destruct (loopM_rule (λ j r s, ∃ i f b1, s = mk_sys m f (Some b1) (e + i) k ∧ 0 ≤ i ≤ sectors n ∧ j = Z.to_nat (sectors n - i) ∧
      r = Z.max 0 (n - 512 * i) ∧ fs_abs f (set_handle fp (sec, Z.min n (512 * i), false) (at_ i)) ∧ same_disk b b1)
    (λ _ s, ∃ f' b', s = mk_sys m f' (Some b') (e + sectors n) k ∧ same_disk b b' ∧
      fs_abs f' (set_handle fp (sec, n, false) (mk_afs (a_names a) (<[sec := bs]> (a_data a)) (a_open a)))) body)
    with (fuel := S (Z.to_nat (sectors n))) (n := Z.to_nat (sectors n)) (l := n) (s := mk_sys m f (Some b) e k)
    as ([] & s' & E & f' & b' & -> & Hb' & Hf'); [|..|lia|eauto].
  - clear f Ha Hd. intros j r s (i & f & b1 & -> & Hi & -> & -> & Ha & Hsd). unfold body.
    destruct (Z.gtb_spec (Z.max 0 (n - 512 * i)) 0) as [Hgt|Hle].
    + assert (i < sectors n) as Hin by (unfold sectors; dlia). destruct (sector_chunk bs i) as (_ & Hc2 & Hc3); [fold n; lia|]. fold n in Hc2, Hc3.
      rewrite Z.max_r by lia. set (c := chunk_size (n - 512 * i)) in *. pose proof Hsd as (Hb1 & Hsz & _ & Hsec).
      destruct (next_sector_ok m f b1 (e + i) k Hb1) as (b2 & En & Hsd2 & Hb2); [lia|lia|]. erewrite bind_ok by exact En.
      assert (sector_of b1 (e + i) = pad512 (slice (512 * i) 512 bs)) as ->.
      { rewrite Hsec by lia. pose proof (Hh (Z.to_nat i) _ (chunks_lookup bs i ltac:(fold n; lia))) as H. by rewrite Z2Nat.id in H by lia. }
      set (x := pad512 _) in *. assert (sector_ok x) as [Hlx Hbx] by (apply pad512_ok; [by apply Forall_slice|lia]).
      rewrite Z.min_r in Ha by lia.
      assert (Z.of_nat (length (partial bs i)) = n) as Hlp by (unfold partial, n; rewrite length_app, length_take, repeat_length; lia).
      destruct (write_called f (at_ i) sec fp (512 * i) false (partial bs i) Ha Hf) with (m := m) (d := Some b2) (e := e + i + 1) (k := k) (buf := x) (n := c)
        as (f' & Ew & Ha'); [by simpl; rewrite lookup_insert_eq|lia|lia|done|lia| |done| |].
      { rewrite Hlp. unfold c, chunk_size, BLOCK_SECTOR_SIZE. destruct (Z.gtb_spec (n - 512 * i) 512); lia. }
      { intros (fp' & q & Hq). simpl in Hq. apply lookup_delete_Some in Hq as [_ Hq]. by apply Hno in Hq. }
      erewrite bind_ok by exact Ew. rewrite Z.eqb_refl. cbn [negb]. eexists _, _. split; [done|]. exists (Z.to_nat (sectors n - (i + 1))). split; [lia|].
      exists (i + 1), f', b2. split_and!; [f_equal; lia|lia|lia|done|unfold c, chunk_size, BLOCK_SECTOR_SIZE; destruct (Z.gtb_spec (n - 512 * i) 512); lia| |by eapply same_disk_trans].
      replace (Z.min n (512 * (i + 1))) with (512 * i + c) by (unfold c, chunk_size, BLOCK_SECTOR_SIZE; destruct (Z.gtb_spec (n - 512 * i) 512); lia).
      simpl in Ha'. rewrite insert_insert_eq in Ha'. unfold at_. rewrite <-partial_step by (fold n; lia). exact Ha'.
    + assert (i = sectors n) as -> by (unfold sectors in *; dlia). eexists _, _. split; [done|]. exists f, b1. split_and!; [done|done|].
      replace (Z.min n (512 * sectors n)) with n in Ha by (unfold sectors in *; dlia). unfold at_ in Ha.
      replace (partial bs (sectors n)) with bs in Ha; [done|]. unfold partial. assert (length bs ≤ Z.to_nat (512 * sectors n))%nat by (unfold sectors, n; dlia).
      rewrite take_ge by lia. replace (length bs - Z.to_nat (512 * sectors n))%nat with 0%nat by lia. by rewrite app_nil_r.
  - exists 0, f, b. split_and!; [f_equal; lia|lia|lia|f_equal; lia|lia| |by apply same_disk_refl].
    rewrite Z.min_r by lia. unfold at_, partial. simpl take. rewrite Nat.sub_0_r. simpl app. rewrite insert_id by done. by destruct a.
Qed.

(** A file of an archive, and the file system that has it in addition. *)
Record entry_fits (e : list Z * list Z) : Prop := {
  ef_name : (length e.1 ≤ 99)%nat;
  ef_chars : Forall (λ c, 0 < c < 256) e.1;
  ef_safe : safe_name e.1 = e.1;
  ef_bytes : Forall byte_ok e.2;
  ef_size : Z.of_nat (length e.2) < 2 ^ 31 - 512
}.

Definition added a (e : list Z * list Z) a' : Prop :=
  a_names a !! e.1 = None ∧
  ∃ sec, a_data a !! sec = None ∧ a' = mk_afs (<[e.1 := sec]> (a_names a)) (<[sec := e.2]> (a_data a)) (a_open a).

Definition refuses f (e : list Z * list Z) : Prop := ∃ f', fs_call (Create e.1 (Z.of_nat (length e.2))) f = Ok (VBool false, f').

(** Reading a header into the buffer. *)
Lemma header_read m f (b : block D) e k h :
  buffer_ok m h → block_ok b → 0 ≤ e < size b → size b < 2 ^ 32 →
  ∃ m' b' r, stored m m' h (sector_of b e) ∧ same_disk b b' ∧ block_ok b' ∧ parsed m' (parse_block (sector_of b e)) r ∧
    ∀ (A : Type) (g : list Z + Z * Z * Z → ST (sys D F) A),
    (bs ← next_sector; on_mem (store h bs);; r ← on_mem (ustar_parse_header L h); g r) (mk_sys m f (Some b) e k) =
    g r (mk_sys m' f (Some b') (e + 1) k).
Proof.
  intros Hbu Hb He H32. destruct (next_sector_ok m f b e k Hb He H32) as (b' & En & Hsd & Hb'). destruct (sector_of_ok b e Hb He) as [Hl Hby].
  destruct (store_buffer (sector_of b e) m h) as (m' & Es & Hs); [rewrite Hl; apply Hbu|].
  assert (length (sector_of b e) = 512%nat) as Hl' by lia. pose proof (buffer_stored _ _ _ _ Hs Hl' Hbu) as Hbu'.
  destruct (parse_header_ok L m' h (sector_of b e)) as (r & Er & Hp);
    [intros t Ht; by apply (bu_lits _ _ Hbu')|by eapply stored_bytes|done|done|apply Hbu|].
  exists m', b', r. split_and!; try done. intros A g. erewrite bind_ok by exact En. erewrite bind_ok by (by apply on_mem_ok).
  by erewrite bind_ok by (by apply on_mem_ok).
Qed.

Lemma create_called m f d e k a name n :
  fs_abs f a → few a → name_ok name → 0 ≤ n < 2 ^ 31 - 512 →
  ∃ ok f', filesys_create name n (mk_sys m f d e k) = Ok (ok, mk_sys m f' d e k) ∧
    if ok : bool then a_names a !! name = None ∧ ∃ sec, a_data a !! sec = None ∧
      fs_abs f' (mk_afs (<[name := sec]> (a_names a)) (<[sec := repeat 0 (Z.to_nat n)]> (a_data a)) (a_open a))
    else fs_call (Create name n) f = Ok (VBool false, f').
Proof.
  intros Ha Hf Hn Hs. destruct (fs_call_ok f a (Create name n) Ha) as (v & f' & a' & E & (ok & -> & Hal) & Ha'); [split; [unfold few in Hf; lia|done]|].
  exists ok, f'. split; [unfold filesys_create, on_fs; simpl; by rewrite E|]. destruct ok; [|done].
  destruct Hal as (_ & _ & Hnew & sec & Hsec & ->). split; [done|]. by exists sec.
Qed.

Lemma extract_entry_ok m f (b : block D) e k a h en :
  fs_abs f a → few a → buffer_ok m h → block_ok b → size b < 2 ^ 32 → entry_fits en →
  0 ≤ e → e + 1 + sectors (Z.of_nat (length en.2)) ≤ size b → holds b e (entry_sectors en) →
  (extract_entry L h (mk_sys m f (Some b) e k) = Err KernelPanic ∧ refuses f en) ∨
  ∃ m' f' b' hd a', extract_entry L h (mk_sys m f (Some b) e k) =
      Ok (inl tt, mk_sys m' f' (Some b') (e + 1 + sectors (Z.of_nat (length en.2))) k) ∧
    stored m m' h hd ∧ length hd = 512%nat ∧ same_disk b b' ∧ added a en a' ∧ fs_abs f' a'.
Proof.
  intros Ha Hf Hbu Hb H32 [Hl Hc Hsafe Hby Hlen] He Hroom Hh. destruct en as [name bs]. simpl fst in *. simpl snd in *.
  set (n := Z.of_nat (length bs)) in *. assert (0 ≤ n ∧ 0 ≤ sectors n) as [Hn0 Hs0] by (unfold sectors, n; dlia).
  apply holds_cons in Hh as [Hhd Hch]. simpl fst in Hhd. simpl snd in Hhd, Hch. fold n in Hhd.
  destruct (header_read m f b e k h Hbu Hb ltac:(lia) H32) as (m' & b' & r & Hst & Hsd & Hb' & Hpar & Hrun).
  assert (length (sector_of b e) = 512%nat) as Hl512 by (pose proof (proj1 (sector_of_ok b e Hb ltac:(lia))); lia).
  rewrite Hhd in Hpar. rewrite (parse_made name USTAR_REGULAR n Hl Hc Hsafe) in Hpar by (by left || lia). rewrite Z.eqb_refl in Hpar.
  destruct r as [?|[[q ty] sz]]; [done|]. destruct Hpar as (Hq & <- & <-).
  unfold extract_entry. rewrite Hrun. cbn beta iota zeta.
  change (USTAR_REGULAR =? USTAR_EOF) with false. change (USTAR_REGULAR =? USTAR_DIRECTORY) with false. rewrite Z.eqb_refl.
  erewrite bind_ok by (apply on_mem_ok; by apply read_string_ok).
  destruct (create_called m' f (Some b') (e + 1) k a name n Ha Hf Hc) as (ok & f1 & Ec & Hok); [lia|]. erewrite bind_ok by exact Ec.
  destruct ok; cbn [negb]; [|left; split; [done|by exists f1]]. right.
  destruct Hok as (Hnew & sec & Hsec & Ha1). unfold n in Ha1. rewrite Nat2Z.id in Ha1. set (a1 := mk_afs _ _ _) in Ha1.
  assert (∀ fp p dn, a_open a !! fp ≠ Some (sec, p, dn)) as Hno.
  { intros fp p dn Ho. destruct (af_open a (fs_abs_ok f a Ha) _ _ _ _ Ho) as [[? ?] _]. congruence. }
  destruct (open_found m' f1 (Some b') (e + 1) k a1 name sec Ha1 Hf) as (fp & f2 & Eo & Hfp & Hfresh & Ha2); [by simpl; rewrite lookup_insert_eq|].
  erewrite bind_ok by exact Eo. unfold Inode.NULL in *. rewrite (proj2 (Z.eqb_neq fp 0)) by done.
  pose proof (length_chunks bs) as Hlc. fold n in Hlc. pose proof Hsd as (_ & Hsz & _).
  destruct (copy_out_ok m' f2 b' (e + 1) k a1 sec fp bs Ha2 Hf) as (f3 & b3 & Ecp & Hsd3 & Ha3);
    [by simpl; rewrite lookup_insert_eq|done|done|done|done|lia|lia|fold n; lia|apply (same_disk_holds b); [done|lia|lia|done]|].
  fold n in Ecp, Ha3. erewrite bind_ok by exact Ecp. simpl in Ha3. rewrite insert_insert_eq in Ha3. set (a3 := mk_afs _ _ (a_open a)) in Ha3.
  destruct (close_called f3 a3 sec fp n false bs Ha3 Hf) with (m := m') (d := Some b3) (e := e + 1 + sectors n) (k := k) (name := name)
    as (f4 & Ecl & Ha4); [by simpl; rewrite lookup_insert_eq|by simpl; rewrite lookup_insert_eq|done|].
  erewrite bind_ok by exact Ecl. exists m', f4, b3, (sector_of b e), a3. do 3 (split; [done|]). split; [by eapply same_disk_trans|]. split; [|done]. split; [done|by exists sec].
Qed.

Inductive extracted : afs → list (list Z * list Z) → afs → Prop :=
  | extracted_nil a : extracted a [] a
  | extracted_cons a en a1 l a' : added a en a1 → extracted a1 l a' → extracted a (en :: l) a'.

(** The archive could not be extracted because a file could not be created
    after the files before it. *)
Definition out_of_room a (l : list (list Z * list Z)) : Prop :=
  ∃ l1 en l2 f1 a1, l = l1 ++ en :: l2 ∧ extracted a l1 a1 ∧ fs_abs f1 a1 ∧ refuses f1 en.

(** The sectors of an archive. *)
Definition archive (l : list (list Z * list Z)) : list (list Z) := concat (entry_sectors <$> l) ++ [zero_sector; zero_sector].

Lemma added_few a en a' : added a en a' → few a → few a'.
Proof. by intros (_ & sec & _ & ->). Qed.

Lemma length_entry en : Z.of_nat (length (entry_sectors en)) = 1 + sectors (Z.of_nat (length en.2)).
Proof. unfold entry_sectors. rewrite length_cons, <-length_chunks. lia. Qed.

Lemma extract_end m f (b : block D) e k h :
  buffer_ok m h → block_ok b → size b < 2 ^ 32 → 0 ≤ e < size b → sector_of b e = zero_sector →
  ∃ m' b', extract_entry L h (mk_sys m f (Some b) e k) = Ok (inr tt, mk_sys m' f (Some b') (e + 1) k) ∧ same_disk b b' ∧ buffer_ok m' h.
Proof.
  intros Hbu Hb H32 He Hz. destruct (header_read m f b e k h Hbu Hb He H32) as (m' & b' & r & Hst & Hsd & Hb' & Hpar & Hrun).
  rewrite Hz in Hpar, Hst. change (parse_block zero_sector) with (@inr (list Z) _ (@None (list Z), USTAR_EOF, 0)) in Hpar.
  destruct r as [?|[[q ty] sz]]; [done|]. destruct Hpar as (-> & <- & <-).
  exists m', b'. unfold extract_entry. rewrite Hrun. split; [done|]. split; [done|]. by eapply buffer_stored.
Qed.

Lemma extract_loop_ok l : ∀ fuel m f (b : block D) e k a h,
  (length l < fuel)%nat → fs_abs f a → few a → buffer_ok m h → block_ok b → size b < 2 ^ 32 → Forall entry_fits l →
  0 ≤ e → e + Z.of_nat (length (archive l)) ≤ size b → holds b e (archive l) →
  (loopM fuel (λ _ : unit, extract_entry L h) tt (mk_sys m f (Some b) e k) = Err KernelPanic ∧ out_of_room a l) ∨
  ∃ m' f' b' e' a', loopM fuel (λ _ : unit, extract_entry L h) tt (mk_sys m f (Some b) e k) = Ok (tt, mk_sys m' f' (Some b') e' k) ∧
    buffer_ok m' h ∧ same_disk b b' ∧ extracted a l a' ∧ fs_abs f' a'.
Proof.
  induction l as [|en l IH]; intros [|fuel] m f b e k a h Hfuel Ha Hf Hbu Hb H32 Hl He Hroom Hh; [simpl in Hfuel; lia| |simpl in Hfuel; lia|];
    rewrite loopM_unfold.
  - apply holds_cons in Hh as [Hz _]. destruct (extract_end m f b e k h Hbu Hb H32 ltac:(simpl in Hroom; lia) Hz) as (m' & b' & E & Hsd & Hbu').
    right. rewrite E. exists m', f, b', (e + 1), a. split_and!; try done. constructor.
  - apply Forall_cons in Hl as [Hen Hl]. unfold archive in Hroom, Hh. rewrite fmap_cons in Hroom, Hh. cbn [concat] in Hroom, Hh.
    rewrite <-app_assoc in Hroom, Hh. fold (archive l) in Hroom, Hh. rewrite length_app in Hroom.
    pose proof (length_entry en) as Hle. apply holds_app in Hh as [Hh1 Hh2].
    destruct (extract_entry_ok m f b e k a h en Ha Hf Hbu Hb H32 Hen He ltac:(lia) Hh1) as [[E Hr]|(m1 & f1 & b1 & hd & a1 & E & Hst & Hlh & Hsd & Had & Ha1)].
    { left. rewrite E. split; [done|]. exists [], en, l, f, a. split_and!; try done. constructor. }
    rewrite E. pose proof Hsd as (Hb1 & Hsz & _).
    replace (e + 1 + sectors (Z.of_nat (length en.2))) with (e + Z.of_nat (length (entry_sectors en))) by lia.
    destruct (IH fuel m1 f1 b1 (e + Z.of_nat (length (entry_sectors en))) k a1 h) as [[E2 Hr]|(m2 & f2 & b2 & e2 & a2 & E2 & Hbu2 & Hsd2 & Hex & Ha2)];
      [simpl in Hfuel; lia|done|by eapply added_few|by eapply buffer_stored|done|lia|done|lia|lia|apply (same_disk_holds b); [done|lia|lia|done]|..].
    + left. split; [done|]. destruct Hr as (l1 & en' & l2 & f' & a' & -> & Hex & ? & ?). exists (en :: l1), en', l2, f', a'. split_and!; try done. by econstructor.
    + right. exists m2, f2, b2, e2, a2. split_and!; try done; [by apply (same_disk_trans b b1 b2)..|by econstructor].
Qed.

Lemma put_at_same (b b' : block D) k : same_disk b b' → put_at b b' k [].
Proof. intros (Hb & Hs & _ & Hsec). split; [done|done|done|]. intros j Hj _. by apply Hsec. Qed.

Lemma archive_length l : (length l + 2 ≤ length (archive l))%nat.
Proof.
  unfold archive. rewrite length_app. simpl. induction l as [|en l IH]; [simpl; lia|]. rewrite fmap_cons. cbn [concat]. rewrite length_app. simpl. lia.
Qed.

Lemma extract_ok m f (b : block D) k a header data l :
  fs_abs f a → few a → buffer_ok m header → data ≠ Inode.NULL → block_ok b → size b < 2 ^ 32 → Forall entry_fits l →
  Z.of_nat (length (archive l)) ≤ size b → holds b 0 (archive l) →
  (fsutil_extract L header data (mk_sys m f (Some b) 0 k) = Err KernelPanic ∧ out_of_room a l) ∨
  ∃ s' b' a', fsutil_extract L header data (mk_sys m f (Some b) 0 k) = Ok (tt, s') ∧
    fs_abs (s_fs s') a' ∧ extracted a l a' ∧ s_scratch s' = Some b' ∧ put_at b b' 0 [zero_sector; zero_sector].
Proof.
  intros Ha Hf Hbu Hdata Hb H32 Hl Hroom Hh. pose proof (archive_length l) as Hal. unfold fsutil_extract, Inode.NULL in *. pose proof (bu_pos _ _ Hbu).
  rewrite !(proj2 (Z.eqb_neq _ 0)) by (done || lia). cbn [orb]. erewrite bind_ok by done. cbn [s_scratch]. unfold block_size.
  destruct (extract_loop_ok l (S (Z.to_nat (size b))) m f b 0 k a header) as [[E Hr]|(m1 & f1 & b1 & e1 & a1 & E & Hbu1 & Hsd & Hex & Ha1)]; try done; [lia| |].
  { left. split; [|done]. unfold mbind at 1, st_bind at 1. by rewrite E. }
  right. erewrite bind_ok by exact E.
  destruct (memset_stored m1 header 512) as (m2 & Em & Hs2); [done|done|apply Hbu1|]. change (replicate (Z.to_nat 512) 0) with zero_sector in Hs2.
  erewrite bind_ok by (apply on_mem_ok; exact Em). erewrite bind_ok by (apply on_mem_ok; by eapply load_stored).
  destruct (put_at_snoc b b1 0 [] zero_sector) as (b2 & Ew2 & Hp2); [by apply put_at_same|lia|simpl; lia|apply zeros_ok_sector|].
  destruct (put_at_snoc b b2 0 [zero_sector] zero_sector Hp2) as (b3 & Ew3 & Hp3); [lia|simpl; lia|apply zeros_ok_sector|].
  erewrite bind_ok by (apply on_scratch_ok; exact Ew2). erewrite on_scratch_ok by exact Ew3. eexists _, b3, a1. by split_and!.
Qed.

(** ** An archive of several files *)

(** Appending replaces the end of the archive. *)
Lemma put_at_overlap (b b1 b2 : block D) k l z l' :
  put_at b b1 k (l ++ z) → put_at b1 b2 (k + Z.of_nat (length l)) l' → 0 ≤ k → k + Z.of_nat (length l) ≤ size b → (length z ≤ length l')%nat →
  put_at b b2 k (l ++ l').
Proof.
  intros [Hb1 Hs1 Hi1 Ho1] [Hb2 Hs2 Hi2 Ho2] Hk Hr Hz. split; [done|congruence| |].
  - intros i x [Hi|[Hge Hi]]%lookup_app_Some.
    + pose proof (lookup_lt_Some _ _ _ Hi). rewrite Ho2 by lia. apply Hi1. by apply lookup_app_l_Some.
    + rewrite <-(Hi2 _ _ Hi). f_equal. lia.
  - intros j Hj Hout. rewrite length_app in Hout. rewrite Ho2 by lia. apply Ho1; [done|]. rewrite length_app. lia.
Qed.

Lemma put_at_holds (b b' : block D) k l : put_at b b' k l → holds b' k l.
Proof. intros H i x. apply H. Qed.

Fixpoint append_all (args : list Z) (buffer : Z) : ST (sys D F) unit :=
  match args with [] => mret tt | p :: r => fsutil_append L p buffer;; append_all r buffer end.

(** A name in memory, and the bytes of the file. *)
Record source m buffer a (x : Z * list Z * list Z) : Prop := {
  so_name : away m buffer 512 x.1.1 x.1.2;
  so_length : (length (safe_name x.1.2) ≤ 99)%nat;
  so_file : ∃ sec, a_names a !! x.1.2 = Some sec ∧ a_data a !! sec = Some x.2
}.

Definition entry_of (x : Z * list Z * list Z) : list Z * list Z := (safe_name x.1.2, x.2).

Lemma archive_app l l' : archive (l ++ l') = concat (entry_sectors <$> l) ++ archive l'.
Proof. unfold archive. by rewrite fmap_app, concat_app, app_assoc. Qed.

Lemma append_all_ok l : ∀ m f (b : block D) e k a buffer, l ≠ [] →
  fs_abs f a → few a → buffer_ok m buffer → Forall (source m buffer a) l → block_ok b → size b < 2 ^ 32 →
  0 ≤ k → k + Z.of_nat (length (archive (entry_of <$> l))) ≤ size b →
  ∃ s' b', append_all ((λ x, x.1.1) <$> l) buffer (mk_sys m f (Some b) e k) = Ok (tt, s') ∧ fs_abs (s_fs s') a ∧
    s_scratch s' = Some b' ∧ put_at b b' k (archive (entry_of <$> l)).
Proof.
  induction l as [|[[p t] bs] l IH]; intros m f b e k a buffer Hne Ha Hf Hbu Hl Hb H32 Hk Hroom; [done|]. clear Hne.
  apply Forall_cons in Hl as [[Hp Hlen (sec & Hn & Hd)] Hl]. simpl in Hp, Hlen, Hn, Hd.
  rewrite fmap_cons in Hroom. rewrite (fmap_cons entry_of). change (entry_of (p, t, bs) :: (entry_of <$> l)) with ([entry_of (p, t, bs)] ++ (entry_of <$> l)) in *.
  rewrite archive_app, length_app in Hroom. cbn [fmap list_fmap concat] in Hroom. rewrite app_nil_r in Hroom.
  pose proof (length_entry (entry_of (p, t, bs))) as Hle. simpl snd in Hle. pose proof (archive_length (entry_of <$> l)) as Hal.
  destruct (append_ok m f b e k a p t sec bs buffer) as (m1 & f1 & b1 & hd & E & Ha1 & Hst & Hlh & Hput); try done; [lia|].
  simpl append_all. erewrite bind_ok by exact E. destruct l as [|y l].
  { exists (mk_sys m1 f1 (Some b1) e (k + 1 + sectors (Z.of_nat (length bs)))), b1. split_and!; [done..|]. rewrite archive_app. cbn [fmap list_fmap concat]. rewrite app_nil_r. exact Hput. }
  pose proof (pa_size _ _ _ _ Hput) as Hsz. fold (entry_of (p, t, bs)) in Hput.
  destruct (IH m1 f1 b1 e (k + 1 + sectors (Z.of_nat (length bs))) a buffer) as (s' & b' & E' & Ha' & Hsc & Hput'); try done; [| |apply Hput|lia..|].
  { by eapply buffer_stored. }
  { eapply Forall_impl; [exact Hl|]. intros x [Hx1 Hx2 Hx3]. split; [by eapply away_stored|done..]. }
  exists s', b'. split_and!; [done..|]. rewrite archive_app. cbn [fmap list_fmap concat]. rewrite app_nil_r.
  eapply put_at_overlap; [exact Hput| |done|lia|simpl; cbn [fmap list_fmap] in Hal; simpl in Hal; lia].
  replace (k + Z.of_nat (length (entry_sectors (entry_of (p, t, bs))))) with (k + 1 + sectors (Z.of_nat (length bs))) by lia. exact Hput'.
Qed.

(** ** Properties *)

(** C15: what fsutil_append puts on the scratch device, fsutil_extract gets
    back, on file systems that keep the promise of [FileSystem], as that of
    Pintos does while no call of malloc fails, and with the buffers that the two
    functions ask malloc for.  The files are appended from one file system, which stays as it is,
    one after the other from the start of the device.  Extracting the device
    into any other file system adds every file with its bytes under its name
    without the leading slashes and dots, and clears the first two sectors; the
    only other outcome is a panic, at a file that filesys_create refuses after
    the files before it have been added. *)
Theorem archive_roundtrip m f (b : block D) e a buffer l m2 f2 k2 a2 header data :
  l ≠ [] → fs_abs f a → few a → buffer_ok m buffer → Forall (source m buffer a) l →
  block_ok b → size b < 2 ^ 32 → Z.of_nat (length (archive (entry_of <$> l))) ≤ size b →
  fs_abs f2 a2 → few a2 → buffer_ok m2 header → data ≠ Inode.NULL →
  ∃ s1 b1, append_all ((λ x, x.1.1) <$> l) buffer (mk_sys m f (Some b) e 0) = Ok (tt, s1) ∧
    fs_abs (s_fs s1) a ∧ s_scratch s1 = Some b1 ∧
    ((fsutil_extract L header data (mk_sys m2 f2 (Some b1) 0 k2) = Err KernelPanic ∧ out_of_room a2 (entry_of <$> l)) ∨
     ∃ s2 b2 a3, fsutil_extract L header data (mk_sys m2 f2 (Some b1) 0 k2) = Ok (tt, s2) ∧
       fs_abs (s_fs s2) a3 ∧ extracted a2 (entry_of <$> l) a3 ∧
       s_scratch s2 = Some b2 ∧ put_at b1 b2 0 [zero_sector; zero_sector]).
Proof.
  intros Hne Ha Hf Hbu Hl Hb H32 Hroom Ha2 Hf2 Hbu2 Hdata.
  destruct (append_all_ok l m f b e 0 a buffer) as (s1 & b1 & E & Ha1 & Hsc & Hput); try done.
  exists s1, b1. split_and!; [done..|]. pose proof (pa_size _ _ _ _ Hput).
  apply (extract_ok m2 f2 b1 k2 a2 header data); [done..|apply Hput|lia| |lia|by eapply put_at_holds].
  apply Forall_fmap. eapply Forall_impl; [exact Hl|]. intros [[p t] bs] [Hp Hlen (sec & Hn & Hd)].
  destruct (af_data a (fs_abs_ok f a Ha) sec bs Hd) as [Hby Hsz]. split; simpl in *; [done| |apply safe_name_idemp|done|done].
  eapply (safe_chars m p); [intros u Hu; by apply (bu_lits _ _ Hbu)|apply Hp].
Qed.
End calls.

(** ** Witnesses *)

Lemma demo_buffer : buffer_ok demo_L demo_archive 1000.
Proof. split; [lia|apply demo_block_mapped|apply demo_literals]. Qed.

Lemma demo_entry : entry_of <$> [(30000, str "../a.c", repeat 0 600)] = [(str "a.c", repeat 0 600)].
Proof. vm_compute. reflexivity. Qed.

#[local] Instance demo_fs : FileSystem (fs (list (list Z))) :=
  pintos_file_system always (λ _, eq_refl) (repeat 7 20) (repeat 7 20) demo_junk demo_junk.

Lemma demo_run :
  match filesys_init always (Some [7]) true blank_fs with
  | Ok (_, f0) =>
      match run_call always (repeat 7 20) (repeat 7 20) (Create (str "../a.c") 600) f0 with
      | Ok (_, f) =>
          match append_all demo_L [30000] 1000 (mk_sys demo_archive f (Some (fs_device blank_fs)) 0 0) with
          | Ok (_, s1) =>
              match s_scratch s1 with
              | Some b1 => if fsutil_extract demo_L 1000 2000 (mk_sys demo_archive f0 (Some b1) 0 0) is Ok _ then true else false
              | None => false
              end
          | Err _ => false
          end
      | Err _ => false
      end
  | Err _ => false
  end = true.
Proof. vm_compute. reflexivity. Qed.

(** A file of 600 bytes named "../a.c" from one formatted disk to another. *)
Lemma archive_roundtrip_witness :
  ∃ f f2 s1 b1, append_all demo_L [30000] 1000 (mk_sys demo_archive f (Some (fs_device blank_fs)) 0 0) = Ok (tt, s1) ∧ s_scratch s1 = Some b1 ∧
    ∃ s2 a3, fsutil_extract demo_L 1000 2000 (mk_sys demo_archive f2 (Some b1) 0 0) = Ok (tt, s2) ∧
      extracted (mk_afs ∅ ∅ ∅) [(str "a.c", repeat 0 600)] a3 ∧ fs_abs (s_fs s2) a3.
Proof.
  destruct blank_ok as (H1 & H2 & H3).
  destruct (format_ok always (λ _, eq_refl) blank_fs [7]) as (f0 & E0 & Ha0); [reflexivity|reflexivity|exact H1|exact H2| |].
  { change (size (fs_device blank_fs)) with 20. rewrite H3. lia. }
  destruct (call_simulates always (λ _, eq_refl) (repeat 7 20) (repeat 7 20) demo_junk demo_junk f0 (mk_afs ∅ ∅ ∅) (Create (str "../a.c") 600) Ha0)
    as (v & f & a & E & Hal & Ha).
  { split; [vm_compute; reflexivity|]. split; [apply (bool_decide_unpack _); vm_compute; reflexivity|lia]. }
  assert (v = VBool true) as ->.
  { clear Ha0 Hal Ha. vm_compute in E0. injection E0 as <-. vm_compute in E. injection E as <- _. reflexivity. }
  destruct Hal as (ok & [= <-] & _ & _ & _ & sec & _ & ->). change (Z.to_nat 600) with 600%nat in Ha. cbn [a_names a_data a_open] in Ha. set (a := mk_afs _ _ _) in Ha at 1.
  destruct (archive_roundtrip (FS := demo_fs) demo_L demo_archive f (fs_device blank_fs) 0 a 1000 [(30000, str "../a.c", repeat 0 600)]
    demo_archive f0 0 (mk_afs ∅ ∅ ∅) 1000 2000) as (s1 & b1 & E1 & _ & Hsc & Hex).
  { done. }
  { exact Ha. }
  { vm_compute. reflexivity. }
  { apply demo_buffer. }
  { apply Forall_cons. split; [|apply Forall_nil_2]. split; [apply demo_name|vm_compute; lia|]. exists sec. split; apply lookup_insert_eq. }
  { exact H1. }
  { vm_compute. reflexivity. }
  { vm_compute. discriminate. }
  { exact Ha0. }
  { vm_compute. reflexivity. }
  { apply demo_buffer. }
  { discriminate. }
  cbn [fmap list_fmap fst] in E1. exists f, f0, s1, b1. split; [exact E1|]. split; [exact Hsc|].
  destruct Hex as [[Hp _]|(s2 & b2 & a3 & E2 & Ha3 & Hx & _)].
  2: { rewrite demo_entry in Hx. exists s2, a3. split; [exact E2|]. split; [exact Hx|exact Ha3]. }
  exfalso. pose proof demo_run as Hrun. rewrite E0, E in Hrun. cbn iota in Hrun.
  rewrite E1 in Hrun. cbn iota in Hrun. rewrite Hsc in Hrun. cbn iota in Hrun. rewrite Hp in Hrun. discriminate.
Defined.
