(* ===== verification/Ide.v ===== *)
(** * IDE disks: devices/ide.c

    A channel of an ATA controller with its two devices.  The driver is written
    against the ports and the interrupt line of the hardware, of which [Bus]
    gives the operations only; what a disk promises is stated in [IdeSpec].
    External interrupts are taken as soon as they are pending and enabled,
    before every access to a port and while a thread sleeps.  The scan of the
    partition table of a disk that has been registered ([Partition], given the
    driver in [IdeInit]) is an argument of the functions that detect disks.
    What the driver prints is not modelled. *)

From Stdlib Require Import Ascii.
From Stdlib Require String.
From S2P Require Import Prelude Bytes Stdio Block Partition.
Import String.StringSyntax.

Definition STA_BSY : Z := 0x80.
Definition STA_DRDY : Z := 0x40.
Definition STA_DRQ : Z := 0x08.
Definition CTL_SRST : Z := 0x04.
Definition DEV_MBS : Z := 0xa0.
Definition DEV_LBA : Z := 0x40.
Definition DEV_DEV : Z := 0x10.
Definition CMD_IDENTIFY_DEVICE : Z := 0xec.
Definition CMD_READ_SECTOR_RETRY : Z := 0x20.
Definition CMD_WRITE_SECTOR_RETRY : Z := 0x30.

(** ** Hardware *)

(** Accesses to ports, a byte or several words at a time, and time that passes,
    in nanoseconds. *)
Inductive io :=
  | Inb (port : Z)
  | Outb (port data : Z)
  | Insw (port cnt : Z)
  | Outsw (port : Z) (bytes : list Z)
  | Delay (ns : Z).

Class Bus (H : Type) := {
  bus_io : io → ST H (list Z);
  intr_line : H → bool
}.

(** ** State *)

Record ata_disk := mk_disk { d_name : list Z; dev_no : Z; is_ata : bool }.

Record channel := mk_channel {
  c_name : list Z;
  reg_base : Z;
  irq : Z;
  lock : bool;
  expecting_interrupt : bool;
  completion_wait : Z;
  devices : list ata_disk
}.

(** What block_register is called with, for a disk and for a partition of it. *)
Inductive registration :=
  | Disk (name extra_info : list Z) (capacity dev : Z)
  | Part (dev : Z) (p : Partition.registration).

Record sys (H : Type) := mk_sys { chan : channel; hw : H; intr_on : bool; registered : list registration }.
Arguments mk_sys {H} _ _ _ _.
Arguments chan {H} _.
Arguments hw {H} _.
Arguments intr_on {H} _.
Arguments registered {H} _.

Definition set_lock b c := mk_channel (c_name c) (reg_base c) (irq c) b (expecting_interrupt c) (completion_wait c) (devices c).
Definition set_expecting b c := mk_channel (c_name c) (reg_base c) (irq c) (lock c) b (completion_wait c) (devices c).
Definition set_wait n c := mk_channel (c_name c) (reg_base c) (irq c) (lock c) (expecting_interrupt c) n (devices c).
Definition set_devices l c := mk_channel (c_name c) (reg_base c) (irq c) (lock c) (expecting_interrupt c) (completion_wait c) l.

Section ide.
Context {H : Type} `{HB : Bus H}.
Abbreviation IDE := (ST (sys H)).

Definition modify_chan (f : channel → channel) : IDE unit := modify (λ s, mk_sys (f (chan s)) (hw s) (intr_on s) (registered s)).

Definition on_hw (o : io) : IDE (list Z) := λ s,
  match bus_io o (hw s) with
  | Ok (r, h) => Ok (r, mk_sys (chan s) h (intr_on s) (registered s))
  | Err e => Err e
  end.

(** ** The interrupt handler *)

Definition reg_data (c : channel) : Z := reg_base c + 0.
Definition reg_error (c : channel) : Z := reg_base c + 1.
Definition reg_nsect (c : channel) : Z := reg_base c + 2.
Definition reg_lbal (c : channel) : Z := reg_base c + 3.
Definition reg_lbam (c : channel) : Z := reg_base c + 4.
Definition reg_lbah (c : channel) : Z := reg_base c + 5.
Definition reg_device (c : channel) : Z := reg_base c + 6.
Definition reg_status (c : channel) : Z := reg_base c + 7.
Definition reg_command (c : channel) : Z := reg_status c.
Definition reg_ctl (c : channel) : Z := reg_base c + 0x206.
Definition reg_alt_status (c : channel) : Z := reg_ctl c.

Definition sema_up : IDE unit := modify_chan (λ c, set_wait (u32 (completion_wait c + 1)) c).

Definition interrupt_handler (vec_no : Z) : IDE unit :=
  s ← get;
  if vec_no =? irq (chan s) then
    if expecting_interrupt (chan s) then on_hw (Inb (reg_status (chan s)));; sema_up
    else mret tt
  else fail NotReached.

(** An interrupt is taken if one is pending and they are enabled. *)
Definition interrupts : IDE unit := λ s,
  if intr_on s && intr_line (hw s) then interrupt_handler (irq (chan s)) s else Ok (tt, s).

(** ** Ports and time *)

Definition access (o : channel → io) : IDE (list Z) := interrupts;; s ← get; on_hw (o (chan s)).

Definition inb (r : channel → Z) : IDE Z :=
  l ← access (λ c, Inb (r c)); match l with [v] => mret v | _ => fail BadAccess end.
Definition outb (r : channel → Z) (v : Z) : IDE unit := access (λ c, Outb (r c) (u8 v));; mret tt.
Definition insw (r : channel → Z) (cnt : Z) : IDE (list Z) := access (λ c, Insw (r c) cnt).
Definition outsw (r : channel → Z) (bytes : list Z) : IDE unit := access (λ c, Outsw (r c) bytes);; mret tt.

Definition timer_nsleep (ns : Z) : IDE unit := access (λ _, Delay ns);; mret tt.
Definition timer_usleep (us : Z) : IDE unit := timer_nsleep (us * 1000).
Definition timer_msleep (ms : Z) : IDE unit := timer_usleep (ms * 1000).

(** The thread sleeps until the handler has raised the semaphore; [TICK] is the
    time between two looks at the interrupt line. *)
Definition TICK : Z := 10000000.
Definition sema_down : IDE unit :=
  loopM 3001 (λ _ : unit,
    interrupts;;
    s ← get;
    if completion_wait (chan s) =? 0 then timer_nsleep TICK;; mret (inl tt)
    else modify_chan (λ c, set_wait (completion_wait c - 1) c);; mret (inr tt)) tt.

(** ** Low-level ATA primitives *)

Definition wait_until_idle : IDE unit :=
  loopM 1001 (λ i,
    if i <? 1000 then
      v ← inb reg_status;
      if Z.land v (Z.lor STA_BSY STA_DRQ) =? 0 then mret (inr tt) else timer_usleep 10;; mret (inl (i + 1))
    else mret (inr tt)) 0.

Definition wait_while_busy : IDE bool :=
  loopM 3001 (λ i,
    if i <? 3000 then
      v ← inb reg_alt_status;
      if Z.land v STA_BSY =? 0 then w ← inb reg_alt_status; mret (inr (negb (Z.land w STA_DRQ =? 0)))
      else timer_msleep 10;; mret (inl (i + 1))
    else mret (inr false)) 0.

Definition select_device (dev : Z) : IDE unit :=
  outb reg_device (if dev =? 1 then Z.lor DEV_MBS DEV_DEV else DEV_MBS);;
  inb reg_alt_status;;
  timer_nsleep 400.

Definition select_device_wait (dev : Z) : IDE unit := wait_until_idle;; select_device dev;; wait_until_idle.

(** ** Transfers *)

Definition select_sector (dev sec_no : Z) : IDE unit :=
  assert (sec_no <? Z.shiftl 1 28);;
  select_device_wait dev;;
  outb reg_nsect 1;;
  outb reg_lbal sec_no;;
  outb reg_lbam (Z.shiftr sec_no 8);;
  outb reg_lbah (Z.shiftr sec_no 16);;
  outb reg_device (Z.lor (Z.lor (Z.lor DEV_MBS DEV_LBA) (if dev =? 1 then DEV_DEV else 0)) (Z.shiftr sec_no 24)).

Definition issue_pio_command (command : Z) : IDE unit :=
  s ← get; assert (intr_on s);;
  modify_chan (set_expecting true);;
  outb reg_command command.

Definition input_sector : IDE (list Z) := insw reg_data (BLOCK_SECTOR_SIZE / 2).
Definition output_sector (sector : list Z) : IDE unit := outsw reg_data sector.

Definition lock_acquire : IDE unit := s ← get; assert (negb (lock (chan s)));; modify_chan (set_lock true).
Definition lock_release : IDE unit := s ← get; assert (lock (chan s));; modify_chan (set_lock false).

Definition ide_read (dev sec_no : Z) : IDE (list Z) :=
  lock_acquire;;
  select_sector dev sec_no;;
  issue_pio_command CMD_READ_SECTOR_RETRY;;
  sema_down;;
  ok ← wait_while_busy;
  if negb ok then fail KernelPanic
  else buffer ← input_sector; lock_release;; mret buffer.

Definition ide_write (dev sec_no : Z) (buffer : list Z) : IDE unit :=
  lock_acquire;;
  select_sector dev sec_no;;
  issue_pio_command CMD_WRITE_SECTOR_RETRY;;
  ok ← wait_while_busy;
  if negb ok then fail KernelPanic
  else output_sector buffer;; sema_down;; lock_release.

(** ** Detection *)

(** Whether device [dev] keeps what is written to its registers. *)
Definition probe (dev : Z) : IDE bool :=
  select_device dev;;
  outb reg_nsect 0x55;; outb reg_lbal 0xaa;;
  outb reg_nsect 0xaa;; outb reg_lbal 0x55;;
  outb reg_nsect 0x55;; outb reg_lbal 0xaa;;
  v ← inb reg_nsect;
  if v =? 0x55 then w ← inb reg_lbal; mret (w =? 0xaa) else mret false.

Definition wait_signature : IDE unit :=
  loopM 3001 (λ i,
    if i <? 3000 then
      v ← inb reg_nsect;
      ok ← (if v =? 1 then w ← inb reg_lbal; mret (w =? 1) else mret false);
      if (ok : bool) then mret (inr tt) else timer_msleep 10;; mret (inl (i + 1))
    else mret (inr tt)) 0.

Definition reset_channel : IDE unit :=
  present0 ← probe 0;
  present1 ← probe 1;
  outb reg_ctl 0;;
  timer_usleep 10;;
  outb reg_ctl CTL_SRST;;
  timer_usleep 10;;
  outb reg_ctl 0;;
  timer_msleep 150;;
  (if (present0 : bool) then select_device 0;; wait_while_busy;; mret tt else mret tt);;
  (if (present1 : bool) then select_device 1;; wait_signature;; wait_while_busy;; mret tt else mret tt).

Definition set_is_ata (dev : Z) (b : bool) : IDE unit :=
  modify_chan (λ c, set_devices (alter (λ d, mk_disk (d_name d) (dev_no d) b) (Z.to_nat dev) (devices c)) c).

Definition check_device_type (dev : Z) : IDE bool :=
  select_device dev;;
  error ← inb reg_error;
  lbam ← inb reg_lbam;
  lbah ← inb reg_lbah;
  status ← inb reg_status;
  if (negb (error =? 1) && (negb (error =? 0x81) || (dev =? 1))) || (Z.land status STA_DRDY =? 0) || negb (Z.land status STA_BSY =? 0) then
    set_is_ata dev false;; mret (negb (error =? 0x81))
  else
    set_is_ata dev ((lbam =? 0) && (lbah =? 0) || (lbam =? 0x3c) && (lbah =? 0xc3));; mret true.

(** [string[i]] and [string[i] = v] in the buffer with the identification. *)
Definition get_char (l : list Z) (i : Z) : result Z :=
  if i <? 0 then Err BadAccess else match l !! Z.to_nat i with Some c => Ok c | None => Err BadAccess end.
Definition set_char (i v : Z) (l : list Z) : result (list Z) :=
  if (i <? 0) || (Z.of_nat (length l) <=? i) then Err BadAccess else Ok (<[Z.to_nat i := v]> l).

Definition swap_pairs (string size : Z) (l : list Z) : result (list Z) :=
  loop (S (Z.to_nat size)) (λ '(i, l),
    if i + 1 <? size then
      tmp ← get_char l (string + i);
      c ← get_char l (string + i + 1);
      l ← set_char (string + i) c l;
      l ← set_char (string + i + 1) tmp l;
      mret (inl (i + 2, l))
    else mret (inr l)) (0, l).

Definition isspace (c : Z) : bool := (c =? 32) || (c =? 12) || (c =? 10) || (c =? 13) || (c =? 9) || (c =? 11).

Definition last_char (string size : Z) (l : list Z) : result Z :=
  loop (S (Z.to_nat size)) (λ size,
    if size >? 0 then
      c ← get_char l (string + size - 1);
      if negb (c =? 0) && negb (isspace c) then mret (inr size) else mret (inl (size - 1))
    else mret (inr size)) (size - 1).

Definition descramble_ata_string (string size : Z) (l : list Z) : result (list Z) :=
  l ← swap_pairs string size l;
  size ← last_char string size l;
  set_char (string + size) 0 l.

(** The string at [p] of the buffer. *)
Definition string_at (p : Z) (l : list Z) : list Z :=
  let r := drop (Z.to_nat p) l in match list_find (λ c, c = 0) r with Some (n, _) => take n r | None => r end.

Definition register (r : registration) : IDE unit :=
  modify (λ s, mk_sys (chan s) (hw s) (intr_on s) (registered s ++ [r])).

Section detection.
(** partition_scan for the disk with a number and a size: the partitions that
    it registers, and what it does to the channel. *)
Variable partition_scan : Z → Z → IDE (list Partition.registration).

Definition identify_ata_device (dev : Z) : IDE unit :=
  s ← get;
  assert (match devices (chan s) !! Z.to_nat dev with Some d => is_ata d | None => false end);;
  select_device_wait dev;;
  issue_pio_command CMD_IDENTIFY_DEVICE;;
  sema_down;;
  ok ← wait_while_busy;
  if negb ok then set_is_ata dev false
  else
    id ← input_sector;
    let capacity := le_decode (slice 120 4 id) in
    match (id ← descramble_ata_string 20 20 id; descramble_ata_string 54 40 id) with
    | Err e => fail e
    | Ok id =>
        let extra_info := take 127 (str "model " ++ [34] ++ string_at 20 id ++ [34] ++ str ", serial " ++ [34] ++ string_at 54 id ++ [34]) in
        if capacity >=? 1024 * 1024 * 1024 / BLOCK_SECTOR_SIZE then set_is_ata dev false
        else
          s ← get;
          let name := match devices (chan s) !! Z.to_nat dev with Some d => d_name d | None => [] end in
          register (Disk name extra_info capacity dev);;
          partitions ← partition_scan dev capacity;
          modify (λ s, mk_sys (chan s) (hw s) (intr_on s) (registered s ++ (Part dev <$> partitions)))
    end.

(** The number that is printed for a disk that is ignored. *)
Definition ignored_size (capacity : Z) : Z := u32 (capacity * 512).

(** ** Initialisation of a channel *)

Definition new_disk (chan_no dev : Z) : ata_disk := mk_disk (str "hd" ++ [97 + chan_no * 2 + dev]) dev false.

Definition new_channel (chan_no : Z) : channel :=
  mk_channel (str "ide" ++ [48 + chan_no]) (if chan_no =? 0 then 0x1f0 else 0x170) (if chan_no =? 0 then 14 + 0x20 else 15 + 0x20)
    false false 0 [new_disk chan_no 0; new_disk chan_no 1].

Definition identify_if (dev : Z) : IDE unit :=
  s ← get;
  if match devices (chan s) !! Z.to_nat dev with Some d => is_ata d | None => false end then identify_ata_device dev else mret tt.

(** One round of the loop of ide_init. *)
Definition ide_init (chan_no : Z) : IDE unit :=
  modify_chan (λ _, new_channel chan_no);;
  reset_channel;;
  b ← check_device_type 0;
  (if (b : bool) then check_device_type 1;; mret tt else mret tt);;
  identify_if 0;;
  identify_if 1.
End detection.

End ide.
