(* ===== verification/IdeSpec.v ===== *)
(** * IDE disks: the driver against the ATA protocol

    [ata_io] states what the accesses to the ports of an ATA channel do, as far
    as the standard documents it for the commands that the driver uses: when the
    registers may be accessed, that a command keeps the device busy for a
    bounded time, when data may be transferred and when an interrupt is raised.
    How long a command takes is left open.  Any hardware that behaves this way
    gives, with the driver, a block device. *)

From S2P Require Import Prelude Bytes Block Ide.

(** ** The protocol *)

Record disk := mk_adisk {
  present : bool;
  sig : Z * Z;                 (* what a reset leaves in LBA 15:8 and 23:16 *)
  ident : list Z;              (* the answer to IDENTIFY DEVICE *)
  store : list (list Z)        (* the sectors *)
}.

Record regs := mk_regs { error : Z; nsect : Z; lbal : Z; lbam : Z; lbah : Z }.

(** What the channel is busy with. *)
Inductive work :=
  | Reading (dev lba : Z)
  | Writing (dev lba : Z)
  | Storing (dev lba : Z) (data : list Z)
  | Identifying (dev : Z)
  | Resetting.

(** [Busy ns w] lasts at most [ns] nanoseconds from now on; [Held] is a reset
    that has not been released. *)
Inductive phase := Idle | Busy (ns : Z) (w : work) | DataIn (data : list Z) | DataOut (dev lba : Z) | Held.

Record ata := mk_ata {
  disks : Z → disk;
  regs_of : Z → regs;          (* a write goes to both devices, each has its own *)
  devreg : Z;
  ph : phase;
  intrq : bool
}.

Definition selected (a : ata) : Z := if Z.testbit (devreg a) 4 then 1 else 0.
Definition busy (a : ata) : bool := match ph a with Busy _ _ | Held => true | _ => false end.
Definition drq (a : ata) : bool := match ph a with DataIn _ | DataOut _ _ => true | _ => false end.

Definition lba (a : ata) : Z :=
  let r := regs_of a (selected a) in lbal r + 256 * lbam r + 65536 * lbah r + 16777216 * Z.land (devreg a) 15.

Definition set_ph (p : phase) (a : ata) : ata := mk_ata (disks a) (regs_of a) (devreg a) p (intrq a).
Definition set_intrq (b : bool) (a : ata) : ata := mk_ata (disks a) (regs_of a) (devreg a) (ph a) b.

Definition write_sector (D : Z → disk) (dev i : Z) (data : list Z) : Z → disk := λ d,
  let x := D d in if d =? dev then mk_adisk (present x) (sig x) (ident x) (<[Z.to_nat i := data]> (store x)) else x.

(** The end of [w].  A command may leave anything in the registers. *)
Definition complete (w : work) (a a' : ata) : Prop :=
  match w with
  | Reading dev i => ∃ R, a' = mk_ata (disks a) R (devreg a) (DataIn (store (disks a dev) !!! Z.to_nat i)) true
  | Writing dev i => ∃ R, a' = mk_ata (disks a) R (devreg a) (DataOut dev i) false
  | Storing dev i data => ∃ R, a' = mk_ata (write_sector (disks a) dev i data) R (devreg a) Idle true
  | Identifying dev => ∃ R, a' = mk_ata (disks a) R (devreg a) (DataIn (ident (disks a dev))) true
  | Resetting => a' = mk_ata (disks a) (λ d, mk_regs 1 1 1 (fst (sig (disks a d))) (snd (sig (disks a d)))) 0 Idle false
  end.

(** The device may finish at any moment, and has to when its time is over. *)
Definition progress (a a' : ata) : Prop := a' = a ∨ ∃ n w, ph a = Busy n w ∧ complete w a a'.
Definition elapse (d : Z) (a a' : ata) : Prop :=
  match ph a with
  | Busy n w => complete w a a' ∨ ∃ n', 0 < n' ≤ n - d ∧ a' = set_ph (Busy n' w) a
  | _ => a' = a
  end.

(** The status of an absent device does not say that it is ready. *)
Definition status_ok (a : ata) (v : Z) : Prop :=
  if present (disks a (selected a)) then
    Z.testbit v 7 = busy a ∧ (busy a = false → Z.testbit v 6 = true ∧ Z.testbit v 3 = drq a)
  else Z.testbit v 6 = false ∨ Z.testbit v 7 = true.

Definition reads (a : ata) (r v : Z) : Prop :=
  let R := regs_of a (selected a) in
  if decide (r = 7 ∨ r = 0x206) then status_ok a v
  else busy a = false → present (disks a (selected a)) = true →
    v = if r =? 1 then error R else if r =? 2 then nsect R else if r =? 3 then lbal R else if r =? 4 then lbam R else lbah R.

Definition put_reg (r v : Z) (R : regs) : regs :=
  if r =? 2 then mk_regs (error R) v (lbal R) (lbam R) (lbah R)
  else if r =? 3 then mk_regs (error R) (nsect R) v (lbam R) (lbah R)
  else if r =? 4 then mk_regs (error R) (nsect R) (lbal R) v (lbah R)
  else mk_regs (error R) (nsect R) (lbal R) (lbam R) v.

Section protocol.
(** The time that a command or a reset takes at most. *)
Variable max_busy : Z.

Definition command (a : ata) (v : Z) : work :=
  if v =? CMD_READ_SECTOR_RETRY then Reading (selected a) (lba a)
  else if v =? CMD_WRITE_SECTOR_RETRY then Writing (selected a) (lba a)
  else Identifying (selected a).

Definition writes (a : ata) (r v : Z) : ata :=
  if r =? 6 then if busy a then a else mk_ata (disks a) (regs_of a) v (ph a) (intrq a)
  else if r =? 7 then mk_ata (disks a) (regs_of a) (devreg a) (Busy max_busy (command a v)) false
  else if r =? 0x206 then
    if Z.testbit v 2 then mk_ata (disks a) (regs_of a) 0 Held false
    else match ph a with Held => set_ph (Busy max_busy Resetting) a | _ => a end
  else mk_ata (disks a) (λ d, put_reg r v (regs_of a d)) (devreg a) (ph a) (intrq a).

(** What an access to the ports from [base] on returns and does. *)
Definition ata_io (base : Z) (a : ata) (o : io) (l : list Z) (a' : ata) : Prop :=
  match o with
  | Inb p => ∃ v, l = [v] ∧ 0 ≤ v < 256 ∧ reads a (p - base) v ∧ progress (if p - base =? 7 then set_intrq false a else a) a'
  | Outb p v => l = [] ∧ progress (writes a (p - base) v) a'
  | Insw _ _ => ph a = DataIn l ∧ a' = set_ph Idle a
  | Outsw _ data => l = [] ∧ ∃ dev i, ph a = DataOut dev i ∧ progress (set_ph (Busy max_busy (Storing dev i data)) a) a'
  | Delay d => l = [] ∧ elapse d a a'
  end.

(** What the standard asks of the driver: registers are written, and commands
    given, only when the channel is idle; selecting a device during a reset,
    which selects device 0 itself, has no effect; a command goes to a device that is
    there, for a sector that it has; data is transferred, a whole sector, when
    the device requests it. *)
Definition legal (base : Z) (a : ata) (o : io) : Prop :=
  match o with
  | Inb p => 1 ≤ p - base ≤ 5 ∨ p - base = 7 ∨ p - base = 0x206
  | Outb p v => 0 ≤ v < 256 ∧
      (2 ≤ p - base ≤ 6 ∧ ph a = Idle ∨ p - base = 6 ∧ (∃ n, ph a = Busy n Resetting) ∨ p - base = 0x206 ∧ (v = 0 ∨ v = CTL_SRST) ∨
       p - base = 7 ∧ ph a = Idle ∧ present (disks a (selected a)) = true ∧
       (v = CMD_IDENTIFY_DEVICE ∨ (v = CMD_READ_SECTOR_RETRY ∨ v = CMD_WRITE_SECTOR_RETRY) ∧ Z.testbit (devreg a) 6 = true ∧
          nsect (regs_of a (selected a)) = 1 ∧ 0 ≤ lba a < Z.of_nat (length (store (disks a (selected a))))))
  | Insw p n => p = base ∧ n = 256 ∧ ∃ data, ph a = DataIn data
  | Outsw p data => p = base ∧ sector_ok data ∧ ∃ dev i, ph a = DataOut dev i
  | Delay d => 0 ≤ d
  end.
End protocol.

(** Hardware that follows the protocol. *)
Class AtaBus (H : Type) `{HB : Bus H} := {
  base : Z;
  max_busy : Z;
  view : H → ata;
  bus_ok : H → Prop;
  max_busy_ok : 0 < max_busy ≤ 29990000000;
  intr_line_ok h : bus_ok h → intr_line h = intrq (view h);
  bus_io_ok h o : bus_ok h → legal base (view h) o →
    ∃ l h', bus_io o h = Ok (l, h') ∧ bus_ok h' ∧ ata_io max_busy base (view h) o l (view h')
}.

(** ** Bits *)

Lemma land_pow2 v k : 0 ≤ k → (Z.land v (2 ^ k) =? 0) = negb (Z.testbit v k).
Proof.
  intros Hk. destruct (Z.testbit v k) eqn:E; simpl.
  - apply Z.eqb_neq. intros H0. assert (Z.testbit (Z.land v (2 ^ k)) k = false) as H1 by (by rewrite H0, Z.bits_0).
    rewrite Z.land_spec, E, Z.pow2_bits_true in H1 by done. done.
  - apply Z.eqb_eq, Z.bits_inj_0. intros i. rewrite Z.land_spec. destruct (decide (i = k)) as [->|Hne]; [by rewrite E|].
    by rewrite Z.pow2_bits_false, andb_false_r by done.
Qed.

Lemma busy_bit v : (Z.land v STA_BSY =? 0) = negb (Z.testbit v 7).
Proof. by apply (land_pow2 v 7). Qed.
Lemma ready_bit v : (Z.land v STA_DRDY =? 0) = negb (Z.testbit v 6).
Proof. by apply (land_pow2 v 6). Qed.
Lemma request_bit v : (Z.land v STA_DRQ =? 0) = negb (Z.testbit v 3).
Proof. by apply (land_pow2 v 3). Qed.

Lemma idle_bits v : (Z.land v (Z.lor STA_BSY STA_DRQ) =? 0) = negb (Z.testbit v 7) && negb (Z.testbit v 3).
Proof.
  rewrite <-busy_bit, <-request_bit, Z.land_lor_distr_r. apply eq_bool_prop_intro. rewrite andb_True, !Is_true_true, !Z.eqb_eq. apply Z.lor_eq_0_iff.
Qed.

Section driver.
Context {H : Type} `{AB : AtaBus H}.
Implicit Types (s : sys H) (c : channel) (a : ata) (R : list registration).

(** ** Accesses *)

(** Interrupts are on, and the hardware is in the state [a]. *)
Definition at_ s c a R : Prop := ∃ h, s = mk_sys c h true R ∧ view h = a ∧ bus_ok h.

Lemma on_hw_ok s c a R o :
  at_ s c a R → legal base a o → ∃ l s' a', on_hw o s = Ok (l, s') ∧ at_ s' c a' R ∧ ata_io max_busy base a o l a'.
Proof.
  intros (h & -> & <- & Hok) Hl. destruct (bus_io_ok h o Hok Hl) as (l & h' & E & Hok' & Hio).
  exists l, (mk_sys c h' true R), (view h'). unfold on_hw. simpl. rewrite E. split_and!; [done| |done]. by exists h'.
Qed.

Lemma chan_at s c a R : at_ s c a R → chan s = c.
Proof. by intros (h & -> & _). Qed.

Lemma modify_chan_ok s c a R f : at_ s c a R → ∃ s', modify_chan f s = Ok (tt, s') ∧ at_ s' (f c) a R.
Proof. intros (h & -> & Hv & Hok). eexists. split; [done|]. by exists h. Qed.

Lemma interrupts_quiet s c a R : at_ s c a R → intrq a = false → interrupts s = Ok (tt, s).
Proof. intros (h & -> & <- & Hok) Hq. unfold interrupts. simpl. by rewrite intr_line_ok, Hq. Qed.

Lemma access_ok s c a R o :
  at_ s c a R → intrq a = false → legal base a (o c) →
  ∃ l s' a', access o s = Ok (l, s') ∧ at_ s' c a' R ∧ ata_io max_busy base a (o c) l a'.
Proof.
  intros Hs Hq Hl. unfold access. erewrite bind_ok by (by eapply interrupts_quiet). erewrite bind_ok by done.
  rewrite (chan_at _ _ _ _ Hs). by apply on_hw_ok.
Qed.

Lemma set_intrq_same a b : intrq a = b → set_intrq b a = a.
Proof. intros <-. by destruct a. Qed.

Lemma progress_done a a' : busy a = false → progress a a' → a' = a.
Proof. intros Hb [->|(n & w & E & _)]; [done|]. unfold busy in Hb. by rewrite E in Hb. Qed.

(** Reading a register. *)
Lemma inb_ok s c a R reg :
  at_ s c a R → intrq a = false → legal base a (Inb (reg c)) →
  ∃ v s' a', inb reg s = Ok (v, s') ∧ at_ s' c a' R ∧ 0 ≤ v < 256 ∧ reads a (reg c - base) v ∧ progress a a'.
Proof.
  intros Hs Hq Hl. destruct (access_ok s c a R (λ c, Inb (reg c)) Hs Hq Hl) as (l & s' & a' & E & Hs' & v & -> & Hv & Hr & Hp).
  exists v, s', a'. unfold inb. erewrite bind_ok by exact E. split_and!; try done; [lia..|].
  destruct (_ =? 7); [|done]. by rewrite (set_intrq_same a false Hq) in Hp.
Qed.

(** When the channel is not busy, reading and waiting change nothing. *)
Lemma inb_still s c a R reg :
  at_ s c a R → intrq a = false → busy a = false → legal base a (Inb (reg c)) →
  ∃ v s', inb reg s = Ok (v, s') ∧ at_ s' c a R ∧ 0 ≤ v < 256 ∧ reads a (reg c - base) v.
Proof.
  intros Hs Hq Hb Hl. destruct (inb_ok s c a R reg Hs Hq Hl) as (v & s' & a' & E & Hs' & Hv & Hr & Hp).
  apply progress_done in Hp as ->; [|done]. by exists v, s'.
Qed.

Lemma sleep_ok s c a R ns :
  at_ s c a R → intrq a = false → 0 ≤ ns → ∃ s' a', timer_nsleep ns s = Ok (tt, s') ∧ at_ s' c a' R ∧ elapse ns a a'.
Proof.
  intros Hs Hq Hn. destruct (access_ok s c a R (λ _, Delay ns) Hs Hq Hn) as (l & s' & a' & E & Hs' & -> & Hp).
  exists s', a'. unfold timer_nsleep. by erewrite bind_ok by exact E.
Qed.

Lemma sleep_still s c a R ns :
  at_ s c a R → intrq a = false → busy a = false → 0 ≤ ns → ∃ s', timer_nsleep ns s = Ok (tt, s') ∧ at_ s' c a R.
Proof.
  intros Hs Hq Hb Hn. destruct (sleep_ok s c a R ns Hs Hq Hn) as (s' & a' & E & Hs' & Hp). exists s'. split; [done|].
  unfold elapse, busy in *. destruct (ph a); try done; by subst.
Qed.

Lemma outb_ok s c a R reg v :
  at_ s c a R → intrq a = false → legal base a (Outb (reg c) (u8 v)) →
  ∃ s' a', outb reg v s = Ok (tt, s') ∧ at_ s' c a' R ∧ progress (writes max_busy a (reg c - base) (u8 v)) a'.
Proof.
  intros Hs Hq Hl. destruct (access_ok s c a R (λ c, Outb (reg c) (u8 v)) Hs Hq Hl) as (l & s' & a' & E & Hs' & -> & Hp).
  exists s', a'. unfold outb. by erewrite bind_ok by exact E.
Qed.

(** Writing a register of an idle channel. *)
Lemma outb_reg s c a R reg r v :
  at_ s c a R → intrq a = false → ph a = Idle → reg c = base + r → 2 ≤ r ≤ 6 →
  ∃ s', outb reg v s = Ok (tt, s') ∧ at_ s' c (writes max_busy a r (u8 v)) R.
Proof.
  intros Hs Hq Hi Hr Hrr. destruct (outb_ok s c a R reg v Hs Hq) as (s' & a' & E & Hs' & Hp).
  { rewrite Hr. split; [apply u8_range|]. left. split; [lia|done]. }
  exists s'. split; [done|]. replace (reg c - base) with r in Hp by lia. apply progress_done in Hp as ->; [done|].
  unfold writes, busy. rewrite (proj2 (Z.eqb_neq r 7)), (proj2 (Z.eqb_neq r 0x206)) by lia. rewrite Hi. by destruct (r =? 6).
Qed.

(** ** Selecting *)

(** The channel is idle, and no interrupt is pending or counted. *)
Record calm c a : Prop := {
  ca_base : reg_base c = base;
  ca_ph : ph a = Idle;
  ca_intrq : intrq a = false
}.

Lemma calm_busy c a : calm c a → busy a = false.
Proof. intros [_ Hp _]. unfold busy. by rewrite Hp. Qed.

Lemma reads_status a r v : r = 7 ∨ r = 0x206 → reads a r v → status_ok a v.
Proof. intros Hr. unfold reads. by rewrite decide_True. Qed.

(** It also returns, after a time-out, when an absent device is selected. *)
Lemma wait_until_idle_ok s c a R : at_ s c a R → calm c a → ∃ s', wait_until_idle s = Ok (tt, s') ∧ at_ s' c a R.
Proof.
  intros Hs Hc. pose proof (calm_busy _ _ Hc) as Hb. destruct Hc as [Hba Hph Hq].
  destruct (loopM_rule (λ n i s, at_ s c a R ∧ n = Z.to_nat (1000 - i)) (λ (_ : unit) s, at_ s c a R)
    (λ i, if i <? 1000 then
      v ← inb reg_status;
      if Z.land v (Z.lor STA_BSY STA_DRQ) =? 0 then mret (inr tt) else timer_usleep 10;; mret (inl (i + 1))
      else mret (inr tt))) with (fuel := 1001%nat) (n := 1000%nat) (l := 0) (s := s) as ([] & s' & E & Hs'); [|done|lia|eauto].
  clear s Hs. intros n i s [Hs ->]. destruct (Z.ltb_spec i 1000); [|by eexists _, s].
  destruct (inb_still s c a R reg_status Hs Hq Hb) as (v & s1 & E1 & Hs1 & _); [unfold legal, reg_status; lia|]. erewrite bind_ok by exact E1.
  destruct (_ =? 0); [by eexists _, s1|]. destruct (sleep_still s1 c a R (10 * 1000) Hs1 Hq Hb) as (s2 & E2 & Hs2); [lia|].
  erewrite bind_ok by exact E2. eexists _, s2. split; [done|]. exists (Z.to_nat (1000 - (i + 1))). split; [lia|done].
Qed.

Definition select_byte (dev : Z) : Z := if dev =? 1 then Z.lor DEV_MBS DEV_DEV else DEV_MBS.

Definition choose (dev : Z) a : ata := mk_ata (disks a) (regs_of a) (select_byte dev) (ph a) (intrq a).

Lemma selected_choose dev a : dev = 0 ∨ dev = 1 → selected (choose dev a) = dev.
Proof. by intros [->| ->]. Qed.

Lemma choose_calm dev c a : calm c a → calm c (choose dev a).
Proof. by intros [? ? ?]. Qed.

Lemma select_device_ok s c a R dev :
  at_ s c a R → calm c a → dev = 0 ∨ dev = 1 → ∃ s', select_device dev s = Ok (tt, s') ∧ at_ s' c (choose dev a) R.
Proof.
  intros Hs Hc Hd. pose proof Hc as [Hba Hph Hq]. unfold select_device. fold (select_byte dev).
  destruct (outb_reg s c a R reg_device 6 (select_byte dev) Hs Hq Hph) as (s1 & E1 & Hs1); [unfold reg_device; lia|lia|].
  assert (writes max_busy a 6 (u8 (select_byte dev)) = choose dev a) as Ew.
  { unfold writes. simpl. rewrite (calm_busy _ _ Hc). by destruct Hd as [->| ->]. }
  rewrite Ew in Hs1.
  erewrite bind_ok by exact E1. pose proof (choose_calm dev _ _ Hc) as Hc1. pose proof (calm_busy _ _ Hc1) as Hb1.
  destruct (inb_still s1 c _ R reg_alt_status Hs1 Hq Hb1) as (v & s2 & E2 & Hs2 & _ & _); [unfold legal, reg_alt_status, reg_ctl; lia|].
  erewrite bind_ok by exact E2. by apply (sleep_still s2 c _ R 400).
Qed.

Lemma select_device_wait_ok s c a R dev :
  at_ s c a R → calm c a → dev = 0 ∨ dev = 1 →
  ∃ s', select_device_wait dev s = Ok (tt, s') ∧ at_ s' c (choose dev a) R.
Proof.
  intros Hs Hc Hd. unfold select_device_wait.
  destruct (wait_until_idle_ok s c a R Hs Hc) as (s1 & E1 & Hs1). erewrite bind_ok by exact E1.
  destruct (select_device_ok s1 c a R dev Hs1 Hc Hd) as (s2 & E2 & Hs2). erewrite bind_ok by exact E2.
  apply wait_until_idle_ok; [done|by apply choose_calm].
Qed.

(** ** Waiting *)

(** A command that ends with an interrupt. *)
Definition interrupting (w : work) : bool := match w with Writing _ _ | Resetting => false | _ => true end.

Lemma complete_intrq w a a' : interrupting w = true → complete w a a' → intrq a' = true ∧ busy a' = false.
Proof. destruct w; try done; by intros _ (Rg & ->). Qed.

Lemma complete_ph w a p a' : complete w (set_ph p a) a' ↔ complete w a a'.
Proof. by destruct w. Qed.

Lemma interrupt_taken s c a R :
  at_ s c a R → intrq a = true → busy a = false → reg_base c = base → expecting_interrupt c = true →
  ∃ s', interrupts s = Ok (tt, s') ∧ at_ s' (set_wait (u32 (completion_wait c + 1)) c) (set_intrq false a) R.
Proof.
  intros Hs Hq Hb Hba He. pose proof Hs as (h & -> & Hv & Hok). unfold interrupts. simpl. rewrite (intr_line_ok h Hok), Hv, Hq. simpl.
  unfold interrupt_handler. erewrite bind_ok by done. simpl. rewrite Z.eqb_refl, He.
  destruct (on_hw_ok _ c a R (Inb (reg_status c)) Hs) as (l & s' & a' & E & Hs' & v & -> & _ & _ & Hp); [unfold legal, reg_status; lia|].
  erewrite bind_ok by exact E. replace (reg_status c - base =? 7) with true in Hp by (unfold reg_status; symmetry; apply Z.eqb_eq; lia).
  apply progress_done in Hp as ->; [|done]. exact (modify_chan_ok _ _ _ _ (λ c, set_wait (u32 (completion_wait c + 1)) c) Hs').
Qed.

(** While the device works, or when it has raised the interrupt. *)
Definition working (w : work) (n : Z) a a' : Prop :=
  (∃ n', 0 < n' ≤ n ∧ a' = mk_ata (disks a) (regs_of a) (devreg a) (Busy n' w) false) ∨ complete w a a'.

Lemma working_elapse w n d a a1 a2 :
  ph a1 = Busy n w → intrq a1 = false → a1 = mk_ata (disks a) (regs_of a) (devreg a) (Busy n w) false → elapse d a1 a2 → working w (n - d) a a2.
Proof.
  intros _ _ -> Hel. unfold elapse in Hel. simpl in Hel. destruct Hel as [Hc|(n' & Hn & ->)].
  - right. by destruct w.
  - left. exists n'. split; [lia|done].
Qed.

Lemma sema_down_ok s c a a1 R w :
  at_ s c a1 R → working w (2999 * TICK) a a1 → interrupting w = true →
  reg_base c = base → expecting_interrupt c = true → completion_wait c = 0 →
  ∃ s' a', sema_down s = Ok (tt, s') ∧ complete w a a' ∧ at_ s' c (set_intrq false a') R.
Proof.
  intros Hs Hw Hi Hba He Hz. unfold sema_down. match goal with |- context [loopM _ ?g _] => set (body := g) end.
  destruct (loopM_rule (λ k (_ : unit) s, ∃ a1, at_ s c a1 R ∧ working w (Z.of_nat k * TICK) a a1)
    (λ (_ : unit) s, ∃ a', complete w a a' ∧ at_ s c (set_intrq false a') R) body) with (fuel := 3001%nat) (n := 2999%nat) (l := tt) (s := s)
    as ([] & s' & E & a' & Hc & Hs'); [|by exists a1|lia|by exists s', a'].
  clear s a1 Hs Hw. intros k [] s (a1 & Hs & Hw). unfold body. destruct Hw as [(n' & Hn & ->)|Hc].
  - erewrite bind_ok by (by eapply interrupts_quiet). erewrite bind_ok by done. rewrite (chan_at _ _ _ _ Hs), Hz, Z.eqb_refl.
    destruct (sleep_ok s c _ R TICK Hs) as (s1 & a2 & E & Hs1 & Hel); [done|done|]. erewrite bind_ok by exact E. eexists _, s1. split; [done|].
    destruct k as [|k]; [simpl in Hn; lia|]. exists k. split; [lia|]. exists a2. split; [done|].
    apply (working_elapse w n' TICK a) in Hel as [(n2 & Hn2 & ->)|Hc]; [left|by right|done..]. exists n2. split; [lia|done].
  - destruct (complete_intrq w a a1 Hi Hc) as [Hq Hb]. destruct (interrupt_taken s c a1 R Hs Hq Hb Hba He) as (s1 & E1 & Hs1).
    erewrite bind_ok by exact E1. erewrite bind_ok by done. rewrite (chan_at _ _ _ _ Hs1). rewrite Hz. change (completion_wait (set_wait (u32 (0 + 1)) c) =? 0) with false. cbv iota.
    destruct (modify_chan_ok _ _ _ _ (λ c, set_wait (completion_wait c - 1) c) Hs1) as (s2 & E2 & Hs2). erewrite bind_ok by exact E2.
    eexists _, s2. split; [done|]. exists a1. split; [done|]. simpl in Hs2. rewrite Hz in Hs2. change (u32 (0 + 1) - 1) with 0 in Hs2.
    unfold set_wait in Hs2. simpl in Hs2. destruct c. simpl in *. by subst.
Qed.

(** One round of wait_while_busy on a device that is not busy. *)
Lemma poll_once s c a R :
  at_ s c a R → intrq a = false → busy a = false → reg_base c = base → present (disks a (selected a)) = true →
  ∃ v s', inb reg_alt_status s = Ok (v, s') ∧ at_ s' c a R ∧ (Z.land v STA_BSY =? 0) = true ∧ negb (Z.land v STA_DRQ =? 0) = drq a.
Proof.
  intros Hs Hq Hb Hba Hp. destruct (inb_still s c a R reg_alt_status Hs Hq Hb) as (v & s' & E & Hs' & _ & Hr); [unfold legal, reg_alt_status, reg_ctl; lia|].
  exists v, s'. apply reads_status in Hr; [|unfold reg_alt_status, reg_ctl; lia]. unfold status_ok in Hr. rewrite Hp in Hr. destruct Hr as [H7 H36].
  destruct (H36 Hb) as [_ H3]. by rewrite busy_bit, request_bit, H7, H3, Hb, negb_involutive.
Qed.

Lemma poll_working s c a a1 R w :
  at_ s c a1 R → working w 29990000000 a a1 → reg_base c = base → present (disks a (selected a)) = true →
  (∀ a', complete w a a' → intrq a' = false ∧ busy a' = false ∧ present (disks a' (selected a')) = true) →
  ∃ s' a', wait_while_busy s = Ok (drq a', s') ∧ complete w a a' ∧ at_ s' c a' R.
Proof.
  intros Hs Hw Hba Hp Hend. unfold wait_while_busy. match goal with |- context [loopM _ ?g _] => set (body := g) end.
  destruct (loopM_rule (λ k i s, ∃ a1, at_ s c a1 R ∧ i = 2999 - Z.of_nat k ∧ working w (Z.of_nat k * 10000000) a a1)
    (λ b s, ∃ a', b = drq a' ∧ complete w a a' ∧ at_ s c a' R) body) with (fuel := 3001%nat) (n := 2999%nat) (l := 0) (s := s)
    as (b & s' & E & a' & -> & Hc & Hs'); [|by exists a1|lia|by exists s', a'].
  clear s a1 Hs Hw. intros k i s (a1 & Hs & -> & Hw). unfold body. destruct (Z.ltb_spec (2999 - Z.of_nat k) 3000); [|lia].
  assert (∀ x, legal base x (Inb (reg_alt_status c))) as Hleg by (intros x; unfold legal, reg_alt_status, reg_ctl; lia).
  assert (reg_alt_status c - base = 0x206) as Hreg by (unfold reg_alt_status, reg_ctl; lia).
  destruct Hw as [(n & Hn & ->)|Hc].
  - destruct (inb_ok s c _ R reg_alt_status Hs eq_refl (Hleg _)) as (v & s1 & a2 & E1 & Hs1 & _ & Hr & Hpr). erewrite bind_ok by exact E1.
    apply reads_status in Hr; [|lia]. unfold status_ok in Hr. change (selected (mk_ata _ _ _ _ _)) with (selected a) in Hr. simpl disks in Hr. rewrite Hp in Hr.
    destruct Hr as [H7 _]. rewrite busy_bit, H7. cbn [busy ph negb].
    assert (a2 = mk_ata (disks a) (regs_of a) (devreg a) (Busy n w) false ∨ complete w a a2) as Ha2.
    { destruct Hpr as [->|(n2 & w2 & [= <- <-] & Hc)]; [by left|right; by destruct w]. }
    assert (intrq a2 = false) as Hq2 by (destruct Ha2 as [->|Hc2]; [done|by apply Hend in Hc2 as (? & _)]).
    destruct (sleep_ok s1 c a2 R 10000000 Hs1 Hq2) as (s2 & a3 & E2 & Hs2 & Hel); [lia|].
    unfold timer_msleep, timer_usleep. change (10 * 1000 * 1000) with 10000000. erewrite bind_ok by exact E2. eexists _, s2. split; [done|].
    destruct k as [|k]; [simpl in Hn; lia|]. exists k. split; [lia|]. exists a3. split; [done|]. split; [lia|]. destruct Ha2 as [->|Hc2].
    + apply (working_elapse w n 10000000 a) in Hel as [(n3 & Hn3 & ->)|Hc]; [left|by right|done..]. exists n3. split; [lia|done].
    + right. destruct (Hend _ Hc2) as (_ & Hb2 & _). unfold elapse in Hel. unfold busy in Hb2. by destruct (ph a2); simplify_eq.
  - destruct (Hend _ Hc) as (Hq & Hb & Hpres).
    destruct (poll_once s c a1 R Hs Hq Hb Hba Hpres) as (v & s1 & E1 & Hs1 & Hbsy & _). erewrite bind_ok by exact E1. rewrite Hbsy.
    destruct (poll_once s1 c a1 R Hs1 Hq Hb Hba Hpres) as (v2 & s2 & E2 & Hs2 & _ & Hdrq). erewrite bind_ok by exact E2. rewrite Hdrq.
    eexists _, s2. split; [done|]. by exists a1.
Qed.

(** A device that requests data. *)
Lemma poll_ready s c a R :
  at_ s c a R → intrq a = false → busy a = false → reg_base c = base → present (disks a (selected a)) = true →
  ∃ s', wait_while_busy s = Ok (drq a, s') ∧ at_ s' c a R.
Proof.
  intros Hs Hq Hb Hba Hp. destruct (poll_once s c a R Hs Hq Hb Hba Hp) as (v & s1 & E1 & Hs1 & Hbsy & _).
  destruct (poll_once s1 c a R Hs1 Hq Hb Hba Hp) as (v2 & s2 & E2 & Hs2 & _ & Hdrq). exists s2. split; [|done].
  unfold wait_while_busy. rewrite loopM_unfold. change (0 <? 3000) with true. cbv beta iota. erewrite bind_ok by exact E1. rewrite Hbsy.
  erewrite bind_ok by exact E2. by rewrite Hdrq.
Qed.

(** ** Commands *)

Lemma issue_ok s c a R cmd :
  at_ s c a R → calm c a → legal base a (Outb (reg_command c) cmd) →
  ∃ s' a1, issue_pio_command cmd s = Ok (tt, s') ∧ at_ s' (set_expecting true c) a1 R ∧ working (command a cmd) 29990000000 a a1.
Proof.
  intros Hs [Hba Hph Hq] Hl. unfold issue_pio_command. erewrite bind_ok by done. pose proof Hs as (h & -> & _). erewrite bind_ok by done.
  destruct (modify_chan_ok _ _ _ _ (set_expecting true) Hs) as (s1 & E1 & Hs1). erewrite bind_ok by exact E1.
  assert (0 ≤ cmd < 256) as Hc by apply Hl.
  destruct (outb_ok s1 _ a R reg_command cmd Hs1 Hq) as (s2 & a1 & E2 & Hs2 & Hp); [by rewrite u8_small by (simpl; lia)|].
  exists s2, a1. split_and!; [done..|]. change (reg_command (set_expecting true c)) with (reg_base c + 7) in Hp.
  replace (reg_base c + 7 - base) with 7 in Hp by lia. rewrite u8_small in Hp by (simpl; lia). unfold writes in Hp. simpl in Hp.
  pose proof max_busy_ok. destruct Hp as [->|(n & w & [= <- <-] & Hp)]; [left; exists max_busy; split; [lia|done]|right]. by destruct (command a cmd).
Qed.

Definition sector_byte (dev i : Z) : Z := Z.lor (Z.lor (Z.lor DEV_MBS DEV_LBA) (if dev =? 1 then DEV_DEV else 0)) (Z.shiftr i 24).

Lemma sector_byte_ok dev i : dev = 0 ∨ dev = 1 → 0 ≤ i < 2 ^ 28 →
  0 ≤ sector_byte dev i < 256 ∧ Z.testbit (sector_byte dev i) 4 = (dev =? 1) ∧ Z.testbit (sector_byte dev i) 6 = true ∧ Z.land (sector_byte dev i) 15 = i / 2 ^ 24.
Proof.
  intros Hd Hi. unfold sector_byte. rewrite Z.shiftr_div_pow2 by done. assert (0 ≤ i / 2 ^ 24 < 16) as Hq by dlia.
  assert (Forall (λ q, ∀ dev, dev = 0 ∨ dev = 1 → let x := Z.lor (Z.lor (Z.lor DEV_MBS DEV_LBA) (if dev =? 1 then DEV_DEV else 0)) q in
    0 ≤ x < 256 ∧ Z.testbit x 4 = (dev =? 1) ∧ Z.testbit x 6 = true ∧ Z.land x 15 = q) (seqZ 0 16)) as HF.
  { repeat (apply Forall_cons; split; [intros ? [->| ->]; vm_compute; split_and!; (done || discriminate)|]). apply Forall_nil_2. }
  rewrite Forall_forall in HF. apply (HF (i / 2 ^ 24)); [apply elem_of_seqZ; lia|done].
Qed.

Lemma select_sector_ok s c a R dev i :
  at_ s c a R → calm c a → dev = 0 ∨ dev = 1 → 0 ≤ i < 2 ^ 28 →
  ∃ s' a1, select_sector dev i s = Ok (tt, s') ∧ at_ s' c a1 R ∧ calm c a1 ∧ disks a1 = disks a ∧ selected a1 = dev ∧
    lba a1 = i ∧ nsect (regs_of a1 dev) = 1 ∧ Z.testbit (devreg a1) 6 = true.
Proof.
  intros Hs Hc Hd Hi. unfold select_sector. fold (sector_byte dev i). pose proof (sector_byte_ok dev i Hd Hi) as (Hb0 & Hb4 & Hb6 & Hb15).
  erewrite bind_ok by (apply assert_ok, Z.ltb_lt; exact (proj2 Hi)).
  destruct (select_device_wait_ok s c a R dev Hs Hc Hd) as (s1 & E1 & Hs1). erewrite bind_ok by exact E1.
  pose proof (choose_calm dev _ _ Hc) as [Hba Hph Hq]. set (a0 := choose dev a) in *.
  assert (∀ s x reg r v, at_ s c x R → intrq x = false → ph x = Idle → reg c = base + r → 2 ≤ r ≤ 6 →
    ∃ s', outb reg v s = Ok (tt, s') ∧ at_ s' c (writes max_busy x r (u8 v)) R) as Hout by (intros; by apply outb_reg).
  destruct (Hout s1 a0 reg_nsect 2 1 Hs1 Hq Hph) as (s2 & E2 & Hs2); [unfold reg_nsect; lia|lia|]. erewrite bind_ok by exact E2.
  destruct (Hout s2 _ reg_lbal 3 i Hs2 Hq Hph) as (s3 & E3 & Hs3); [unfold reg_lbal; lia|lia|]. erewrite bind_ok by exact E3.
  destruct (Hout s3 _ reg_lbam 4 (Z.shiftr i 8) Hs3 Hq Hph) as (s4 & E4 & Hs4); [unfold reg_lbam; lia|lia|]. erewrite bind_ok by exact E4.
  destruct (Hout s4 _ reg_lbah 5 (Z.shiftr i 16) Hs4 Hq Hph) as (s5 & E5 & Hs5); [unfold reg_lbah; lia|lia|]. erewrite bind_ok by exact E5.
  destruct (Hout s5 _ reg_device 6 (sector_byte dev i) Hs5 Hq Hph) as (s6 & E6 & Hs6); [unfold reg_device; lia|lia|].
  rewrite (u8_small (sector_byte dev i)) in Hs6 by (simpl; lia).
  match type of Hs6 with at_ _ _ ?x _ => assert (x = mk_ata (disks a) (λ d, mk_regs (error (regs_of a d)) 1 (u8 i) (u8 (Z.shiftr i 8)) (u8 (Z.shiftr i 16)))
    (sector_byte dev i) Idle false) as Ex end.
  { change (writes max_busy ?x 6 ?v) with (if busy x then x else mk_ata (disks x) (regs_of x) v (ph x) (intrq x)).
    match goal with |- context [busy ?x] => change (busy x) with (busy a0); change (ph x) with (ph a0); change (intrq x) with (intrq a0) end.
    unfold busy. by rewrite Hph, Hq. }
  rewrite Ex in Hs6. clear Ex. eexists s6, _. split; [exact E6|]. split; [exact Hs6|].
  assert (selected (mk_ata (disks a) (λ d, mk_regs (error (regs_of a d)) 1 (u8 i) (u8 (Z.shiftr i 8)) (u8 (Z.shiftr i 16))) (sector_byte dev i) Idle false) = dev) as Hsel.
  { unfold selected. cbn [devreg]. rewrite Hb4. by destruct Hd as [->| ->]. }
  split; [done|]. split; [done|]. split; [exact Hsel|]. split; [|done].
  unfold lba. rewrite Hsel. cbn [devreg regs_of lbal lbam lbah]. rewrite Hb15. unfold u8. rewrite !Z.shiftr_div_pow2 by done. dlia.
Qed.

(** ** Reading and writing *)

(** No transfer is under way. *)
Definition quiet c a : Prop := calm c a ∧ lock c = false ∧ completion_wait c = 0.

Definition disk_fine (d : disk) : Prop :=
  present d = true ∧ Forall sector_ok (store d) ∧ Z.of_nat (length (store d)) ≤ 2 ^ 28.

Lemma acquire_ok s c a R : at_ s c a R → lock c = false → ∃ s', lock_acquire s = Ok (tt, s') ∧ at_ s' (set_lock true c) a R.
Proof.
  intros Hs Hl. unfold lock_acquire. erewrite bind_ok by done. rewrite (chan_at _ _ _ _ Hs). erewrite bind_ok by (apply assert_ok; by rewrite Hl).
  by apply (modify_chan_ok _ _ _ _ (set_lock true)).
Qed.

Lemma release_ok s c a R : at_ s c a R → lock c = true → ∃ s', lock_release s = Ok (tt, s') ∧ at_ s' (set_lock false c) a R.
Proof.
  intros Hs Hl. unfold lock_release. erewrite bind_ok by done. rewrite (chan_at _ _ _ _ Hs). erewrite bind_ok by (by apply assert_ok).
  by apply (modify_chan_ok _ _ _ _ (set_lock false)).
Qed.

Lemma input_ok s c a R data :
  at_ s c a R → intrq a = false → reg_base c = base → ph a = DataIn data →
  ∃ s', input_sector s = Ok (data, s') ∧ at_ s' c (set_ph Idle a) R.
Proof.
  intros Hs Hq Hba Hph. destruct (access_ok s c a R (λ c, Insw (reg_data c) (BLOCK_SECTOR_SIZE / 2)) Hs Hq) as (l & s' & a' & E & Hs' & Hl & ->).
  { unfold reg_data. split; [lia|]. split; [done|]. by exists data. }
  exists s'. rewrite Hph in Hl. by injection Hl as ->.
Qed.

Lemma output_ok s c a R dev i data :
  at_ s c a R → intrq a = false → reg_base c = base → ph a = DataOut dev i → sector_ok data →
  ∃ s' a1, output_sector data s = Ok (tt, s') ∧ at_ s' c a1 R ∧ working (Storing dev i data) 29990000000 a a1.
Proof.
  intros Hs Hq Hba Hph Hd. destruct (access_ok s c a R (λ c, Outsw (reg_data c) data) Hs Hq) as (l & s' & a' & E & Hs' & -> & dev' & i' & Hp & Hpr).
  { unfold reg_data. split; [lia|]. split; [done|]. by exists dev, i. }
  rewrite Hph in Hp. injection Hp as <- <-. exists s', a'. unfold output_sector, outsw. erewrite bind_ok by exact E. split; [done|]. split; [done|].
  pose proof max_busy_ok. destruct Hpr as [->|(n & w & [= <- <-] & Hc)]; [|by right]. left. exists max_busy. split; [lia|]. unfold set_ph. by rewrite Hq.
Qed.

(** The channel in the middle of a transfer. *)
Lemma set_lock_twice c : lock c = false → set_lock false (set_expecting true (set_lock true c)) = set_expecting true c.
Proof. destruct c. simpl. by intros ->. Qed.

Lemma start_ok s c a R dev i cmd :
  at_ s c a R → quiet c a → dev = 0 ∨ dev = 1 → disk_fine (disks a dev) → 0 ≤ i < Z.of_nat (length (store (disks a dev))) →
  cmd = CMD_READ_SECTOR_RETRY ∨ cmd = CMD_WRITE_SECTOR_RETRY →
  ∃ s' a0 a1, (lock_acquire;; select_sector dev i;; issue_pio_command cmd) s = Ok (tt, s') ∧
    at_ s' (set_expecting true (set_lock true c)) a1 R ∧ disks a0 = disks a ∧ selected a0 = dev ∧
    working (if cmd =? CMD_READ_SECTOR_RETRY then Reading dev i else Writing dev i) 29990000000 a0 a1.
Proof.
  intros Hs (Hc & Hl & Hw) Hd (Hp & Hst & Hmax) Hi Hcmd.
  destruct (acquire_ok s c a R Hs Hl) as (s1 & E1 & Hs1). erewrite bind_ok by exact E1.
  assert (calm (set_lock true c) a) as Hc1 by (by destruct Hc).
  destruct (select_sector_ok s1 _ a R dev i Hs1 Hc1 Hd) as (s2 & a0 & E2 & Hs2 & Hc2 & Hdk & Hsel & Hlba & Hns & H6); [lia|]. erewrite bind_ok by exact E2.
  destruct (issue_ok s2 _ a0 R cmd Hs2 Hc2) as (s3 & a1 & E3 & Hs3 & Hwk).
  { split; [destruct Hcmd as [->| ->]; done|]. right. right. right. destruct Hc2 as [Hb2 Hph2 _]. rewrite Hsel, Hdk, Hlba.
    split; [unfold reg_command, reg_status; lia|]. split; [done|]. split; [done|]. right. split; [done|]. done. }
  exists s3, a0, a1. split; [exact E3|]. split; [exact Hs3|]. split; [done|]. split; [done|].
  unfold command in Hwk. rewrite Hsel, Hlba in Hwk. by destruct Hcmd as [->| ->].
Qed.

Lemma ide_read_ok s c a R dev i :
  at_ s c a R → quiet c a → dev = 0 ∨ dev = 1 → disk_fine (disks a dev) → 0 ≤ i < Z.of_nat (length (store (disks a dev))) →
  ∃ s' a', ide_read dev i s = Ok (store (disks a dev) !!! Z.to_nat i, s') ∧ at_ s' (set_expecting true c) a' R ∧
    quiet (set_expecting true c) a' ∧ disks a' = disks a.
Proof.
  intros Hs Hqu Hd Hf Hi. destruct (start_ok s c a R dev i CMD_READ_SECTOR_RETRY Hs Hqu Hd Hf Hi) as (s1 & a0 & a1 & E1 & Hs1 & Hdk & Hsel & Hw); [by left|].
  destruct Hqu as ([Hba _ _] & Hl & Hz). rewrite Z.eqb_refl in Hw.
  destruct (sema_down_ok s1 _ a0 a1 R (Reading dev i) Hs1) as (s2 & a2 & E2 & (Rg & ->) & Hs2); [done..|]. rewrite Hdk in Hs2.
  destruct (poll_ready s2 _ _ R Hs2) as (s3 & E3 & Hs3); [done|done|done| |].
  { change (selected (set_intrq _ _)) with (selected a0). rewrite Hsel. simpl. apply Hf. }
  destruct (input_ok s3 _ _ R (store (disks a dev) !!! Z.to_nat i) Hs3) as (s4 & E4 & Hs4); [done..|].
  destruct (release_ok s4 _ _ R Hs4) as (s5 & E5 & Hs5); [done|]. rewrite set_lock_twice in Hs5 by done.
  eexists s5, _. split; [|split; [exact Hs5|done]].
  unfold ide_read. unfold mbind, st_bind in *. destruct (lock_acquire s) as [[? ?]|]; [|done]. destruct (select_sector dev i _) as [[? ?]|]; [|done].
  rewrite E1, E2, E3. simpl. by rewrite E4, E5.
Qed.

Lemma ide_write_ok s c a R dev i data :
  at_ s c a R → quiet c a → dev = 0 ∨ dev = 1 → disk_fine (disks a dev) → 0 ≤ i < Z.of_nat (length (store (disks a dev))) → sector_ok data →
  ∃ s' a', ide_write dev i data s = Ok (tt, s') ∧ at_ s' (set_expecting true c) a' R ∧
    quiet (set_expecting true c) a' ∧ disks a' = write_sector (disks a) dev i data.
Proof.
  intros Hs Hqu Hd Hf Hi Hdata. destruct (start_ok s c a R dev i CMD_WRITE_SECTOR_RETRY Hs Hqu Hd Hf Hi) as (s1 & a0 & a1 & E1 & Hs1 & Hdk & Hsel & Hw); [by right|].
  destruct Hqu as ([Hba _ _] & Hl & Hz). change (CMD_WRITE_SECTOR_RETRY =? CMD_READ_SECTOR_RETRY) with false in Hw. cbv iota in Hw.
  destruct (poll_working s1 _ a0 a1 R (Writing dev i) Hs1 Hw) as (s2 & a2 & E2 & (Rg & ->) & Hs2); [done|rewrite Hdk, Hsel; apply Hf| |].
  { intros a' (Rg & ->). split; [done|]. split; [done|]. change (selected (mk_ata _ _ _ _ _)) with (selected a0). rewrite Hsel. simpl. rewrite Hdk. apply Hf. }
  destruct (output_ok s2 _ _ R dev i data Hs2) as (s3 & a3 & E3 & Hs3 & Hw3); [done..|].
  destruct (sema_down_ok s3 _ _ a3 R (Storing dev i data) Hs3 Hw3) as (s4 & a4 & E4 & (Rg2 & ->) & Hs4); [done..|].
  destruct (release_ok s4 _ _ R Hs4) as (s5 & E5 & Hs5); [done|]. rewrite set_lock_twice in Hs5 by done.
  eexists s5, _. split; [|split; [exact Hs5|split; [done|simpl; by rewrite Hdk]]].
  unfold ide_write. unfold mbind, st_bind in *. destruct (lock_acquire s) as [[? ?]|]; [|done]. destruct (select_sector dev i _) as [[? ?]|]; [|done].
  rewrite E1, E2. simpl. by rewrite E3, E4, E5.
Qed.

(** ** The block device *)

Section block_device.
Variable dev : Z.
Hypothesis dev_ok : dev = 0 ∨ dev = 1.

Definition ide_ok s : Prop := ∃ c a R, at_ s c a R ∧ quiet c a ∧ disk_fine (disks a dev).
Definition ide_sectors s : list (list Z) := store (disks (view (hw s)) dev).

Lemma ide_sectors_at s c a R : at_ s c a R → ide_sectors s = store (disks a dev).
Proof. by intros (h & -> & <- & _). Qed.

Lemma ide_content_ok s i : ide_ok s → 0 ≤ i < Z.of_nat (length (ide_sectors s)) → sector_ok (ide_sectors s !!! Z.to_nat i).
Proof.
  intros (c & a & R & Hs & _ & _ & Hf & _) Hi. rewrite (ide_sectors_at _ _ _ _ Hs) in *. destruct (lookup_lt_is_Some_2 (store (disks a dev)) (Z.to_nat i)) as [x Hx]; [lia|].
  rewrite (list_lookup_total_correct _ _ _ Hx). by eapply Forall_lookup_1.
Qed.

Lemma ide_driver_read s i : ide_ok s → 0 ≤ i < Z.of_nat (length (ide_sectors s)) →
  ∃ s', ide_read dev i s = Ok (ide_sectors s !!! Z.to_nat i, s') ∧ ide_ok s' ∧ ide_sectors s' = ide_sectors s.
Proof.
  intros (c & a & R & Hs & Hq & Hf) Hi. rewrite (ide_sectors_at _ _ _ _ Hs) in *.
  destruct (ide_read_ok s c a R dev i Hs Hq dev_ok Hf Hi) as (s' & a' & E & Hs' & Hq' & Hd). exists s'. split; [done|].
  rewrite (ide_sectors_at _ _ _ _ Hs'), Hd. split; [|done]. eexists _, a', R. split; [exact Hs'|]. by rewrite Hd.
Qed.

Lemma ide_driver_write s i data : ide_ok s → 0 ≤ i < Z.of_nat (length (ide_sectors s)) → sector_ok data →
  ∃ s', ide_write dev i data s = Ok (tt, s') ∧ ide_ok s' ∧ ide_sectors s' = <[Z.to_nat i := data]> (ide_sectors s).
Proof.
  intros (c & a & R & Hs & Hq & Hf) Hi Hdata. rewrite (ide_sectors_at _ _ _ _ Hs) in *.
  destruct (ide_write_ok s c a R dev i data Hs Hq dev_ok Hf Hi Hdata) as (s' & a' & E & Hs' & Hq' & Hd). exists s'. split; [done|].
  assert (disks a' dev = mk_adisk (present (disks a dev)) (sig (disks a dev)) (ident (disks a dev)) (<[Z.to_nat i := data]> (store (disks a dev)))) as Hdev
    by (rewrite Hd; unfold write_sector; by rewrite Z.eqb_refl).
  rewrite (ide_sectors_at _ _ _ _ Hs'), Hdev. split; [|done]. eexists _, a', R. split; [exact Hs'|]. split; [done|].
  destruct Hf as (Hp & Hst & Hl). rewrite Hdev. split; [done|]. simpl. rewrite length_insert. split; [|done]. by apply Forall_insert.
Qed.

(** A disk of the channel keeps the promise that the block layer needs. *)
#[export] Program Instance ide_block_driver : BlockDriver (sys H) := {|
  drv_read := ide_read dev;
  drv_write := ide_write dev;
  drv_size s := Z.of_nat (length (ide_sectors s));
  content s i := ide_sectors s !!! Z.to_nat i;
  drv_ok := ide_ok
|}.
Next Obligation. intros s i. apply ide_content_ok. Qed.
Next Obligation.
  intros s i Hs Hi. destruct (ide_driver_read s i Hs Hi) as (s' & E & Hs' & Ec). exists s'. by rewrite Ec.
Qed.
Next Obligation.
  intros s i data Hs Hi Hd. destruct (ide_driver_write s i data Hs Hi Hd) as (s' & E & Hs' & Ec). exists s'. rewrite Ec, length_insert. split_and!; [done..|].
  intros j Hj. case_decide as Hji.
  - subst. apply list_lookup_total_insert_eq. lia.
  - apply list_lookup_total_insert_ne. lia.
Qed.
End block_device.

(** ** Properties *)

(** C16: the IDE driver makes a disk from any hardware that follows the ATA
    protocol.  Reading a sector returns its bytes and changes no sector of
    either disk of the channel; writing replaces the sector and no other, and
    the next read returns what was written.  The driver gives commands and
    touches registers only when the protocol allows it, whenever the device
    finishes and the interrupt arrives; every wait ends, and afterwards the
    channel is idle again with no interrupt pending or counted. *)
Theorem ide_disk_correct s c a R dev i data :
  at_ s c a R → quiet c a → dev = 0 ∨ dev = 1 → disk_fine (disks a dev) →
  0 ≤ i < Z.of_nat (length (store (disks a dev))) → sector_ok data →
  (∃ s' a', ide_read dev i s = Ok (store (disks a dev) !!! Z.to_nat i, s') ∧
     at_ s' (set_expecting true c) a' R ∧ quiet (set_expecting true c) a' ∧ disks a' = disks a) ∧
  ∃ s1 a1, ide_write dev i data s = Ok (tt, s1) ∧
    at_ s1 (set_expecting true c) a1 R ∧ quiet (set_expecting true c) a1 ∧ disks a1 = write_sector (disks a) dev i data ∧
    ∃ s2, ide_read dev i s1 = Ok (data, s2).
Proof.
  intros Hs Hq Hd Hf Hi Hdata. split; [by apply ide_read_ok|].
  destruct (ide_write_ok s c a R dev i data Hs Hq Hd Hf Hi Hdata) as (s1 & a1 & E & Hs1 & Hq1 & Hdk). exists s1, a1. split_and!; [done..|].
  assert (ide_ok dev s) as Hok by (by exists c, a, R). assert (ide_sectors dev s = store (disks a dev)) as Hsec by (by eapply ide_sectors_at).
  destruct (ide_driver_write dev Hd s i data Hok) as (s1' & E' & Hok1 & Hc); [by rewrite Hsec|done|]. rewrite E in E'. injection E' as <-.
  destruct (ide_driver_read dev Hd s1 i Hok1) as (s2 & E2 & _); [rewrite Hc, length_insert, Hsec; lia|].
  exists s2. rewrite E2, Hc. do 2 f_equal. apply list_lookup_total_insert_eq. rewrite Hsec. lia.
Qed.
End driver.
