(* ===== verification/IdeInit.v ===== *)
(** * IDE disks: detection

    ide_init resets a channel, tells ATA disks from other devices and registers
    them.  The proof follows the hardware through the reset, during which it is
    busy; absent devices may answer anything but that they are ready.  At the
    end of the file a simulated channel shows that the protocol can be
    followed. *)

From Stdlib Require String.
From S2P Require Import Prelude Bytes Stdio Block Partition Ide IdeSpec.
Import String.StringSyntax.

(** ** Strings of the identification *)

Definition partner (j : Z) : Z := if Z.even j then j + 1 else j - 1.
Definition blank (c : Z) : bool := (c =? 0) || isspace c.

Lemma get_char_ok l i : 0 ≤ i < Z.of_nat (length l) → ∃ x, l !! Z.to_nat i = Some x ∧ get_char l i = Ok x.
Proof.
  intros Hi. destruct (lookup_lt_is_Some_2 l (Z.to_nat i)) as [x Hx]; [lia|]. exists x. split; [done|].
  unfold get_char. rewrite (proj2 (Z.ltb_ge i 0)) by lia. by rewrite Hx.
Qed.

Lemma set_char_ok l i v : 0 ≤ i < Z.of_nat (length l) → set_char i v l = Ok (<[Z.to_nat i := v]> l).
Proof. intros Hi. unfold set_char. by rewrite (proj2 (Z.ltb_ge i 0)), (proj2 (Z.leb_gt _ i)) by lia. Qed.

Definition swapped (string n : Z) (l l' : list Z) : Prop :=
  length l' = length l ∧
  ∀ j, 0 ≤ j → l' !! Z.to_nat j = if decide (string ≤ j < string + n) then l !! Z.to_nat (string + partner (j - string)) else l !! Z.to_nat j.

Lemma swapped_step string i l l1 x y :
  swapped string i l l1 → 0 ≤ string → 0 ≤ i → Z.even i = true → string + i + 1 < Z.of_nat (length l) →
  l1 !! Z.to_nat (string + i) = Some x → l1 !! Z.to_nat (string + i + 1) = Some y →
  swapped string (i + 2) l (<[Z.to_nat (string + i + 1) := x]> (<[Z.to_nat (string + i) := y]> l1)).
Proof.
  intros [Hl Hj] Hs Hi He Hb Hx Hy. rewrite Hj, decide_False in Hx by lia. rewrite Hj, decide_False in Hy by lia. split; [by rewrite !length_insert|]. intros j Hj0.
  destruct (decide (j = string + i + 1)) as [->|N1].
  - rewrite list_lookup_insert_eq by (rewrite length_insert; lia). rewrite decide_True by lia. unfold partner.
    replace (string + i + 1 - string) with (i + 1) by lia. rewrite Z.even_add, He. simpl. by replace (string + (i + 1 - 1)) with (string + i) by lia.
  - rewrite list_lookup_insert_ne by lia. destruct (decide (j = string + i)) as [->|N2].
    + rewrite list_lookup_insert_eq by lia. rewrite decide_True by lia. unfold partner. replace (string + i - string) with i by lia. rewrite He.
      by replace (string + (i + 1)) with (string + i + 1) by lia.
    + rewrite list_lookup_insert_ne by lia. rewrite Hj by lia. repeat case_decide; (done || lia).
Qed.

Lemma swap_pairs_ok string size l :
  0 ≤ string → 0 ≤ size → Z.even size = true → string + size ≤ Z.of_nat (length l) → ∃ l', swap_pairs string size l = Ok l' ∧ swapped string size l l'.
Proof.
  intros Hs Hn He Hl. unfold swap_pairs. match goal with |- context [loop _ ?g _] => set (body := g) end.
  destruct (loop_rule (λ k '(i, l1), 0 ≤ i ≤ size ∧ Z.even i = true ∧ k = Z.to_nat (size - i) ∧ swapped string i l l1) (swapped string size l) body)
    with (fuel := S (Z.to_nat size)) (n := Z.to_nat size) (l := (0, l)) as (l' & E & Hl'); [| |lia|by exists l'].
  - intros k [i l1] (Hi & Hei & -> & Hsw). unfold body. pose proof Hsw as [Hlen _]. destruct (Z.ltb_spec (i + 1) size).
    + destruct (get_char_ok l1 (string + i)) as (x & Hx & Ex); [lia|]. destruct (get_char_ok l1 (string + i + 1)) as (y & Hy & Ey); [lia|].
      rewrite Ex. simpl. rewrite Ey. simpl. rewrite set_char_ok by lia. simpl. rewrite set_char_ok by (rewrite length_insert; lia). simpl.
      eexists. split; [done|]. exists (Z.to_nat (size - (i + 2))). split; [lia|]. split_and!; [lia|lia|by rewrite Z.even_add, Hei|done|].
      apply swapped_step; [done|lia|lia|done|lia|done|done].
    + eexists. split; [done|]. assert (i = size) as ->; [|done]. apply Z.even_spec in He as [p ->]. apply Z.even_spec in Hei as [q ->]. lia.
  - split_and!; [lia|lia|done|f_equal; lia|]. split; [done|]. intros j Hj. rewrite decide_False by lia. done.
Qed.

Lemma last_char_ok string size l :
  0 ≤ string → 0 < size → string + size ≤ Z.of_nat (length l) →
  ∃ k, last_char string size l = Ok k ∧ 0 ≤ k < size ∧ (k = 0 ∨ ∃ x, l !! Z.to_nat (string + k - 1) = Some x ∧ blank x = false) ∧
    ∀ j x, k ≤ j < size - 1 → l !! Z.to_nat (string + j) = Some x → blank x = true.
Proof.
  intros Hs Hn Hl. unfold last_char. match goal with |- context [loop _ ?g _] => set (body := g) end.
  destruct (loop_rule (λ n k, 0 ≤ k < size ∧ n = Z.to_nat k ∧ ∀ j x, k ≤ j < size - 1 → l !! Z.to_nat (string + j) = Some x → blank x = true)
    (λ k, 0 ≤ k < size ∧ (k = 0 ∨ ∃ x, l !! Z.to_nat (string + k - 1) = Some x ∧ blank x = false) ∧
      ∀ j x, k ≤ j < size - 1 → l !! Z.to_nat (string + j) = Some x → blank x = true) body)
    with (fuel := S (Z.to_nat size)) (n := Z.to_nat (size - 1)) (l := size - 1) as (k & E & Hk); [| |lia|by exists k].
  - intros n k (Hk & -> & Hb). unfold body. destruct (Z.gtb_spec k 0).
    + destruct (get_char_ok l (string + k - 1)) as (x & Hx & Ex); [lia|]. rewrite Ex. simpl.
      assert (negb (x =? 0) && negb (isspace x) = negb (blank x)) as -> by (unfold blank; by rewrite negb_orb). destruct (blank x) eqn:Hbx.
      * eexists. split; [done|]. exists (Z.to_nat (k - 1)). split; [lia|]. split_and!; [lia|lia|done|]. intros j y Hj Hy.
        destruct (decide (j = k - 1)) as [->|]; [|apply (Hb j y); [lia|done]]. replace (string + (k - 1)) with (string + k - 1) in Hy by lia. congruence.
      * eexists. split; [done|]. split_and!; [lia|lia| |done]. right. by exists x.
    + eexists. split; [done|]. split_and!; [lia|lia|left; lia|done].
  - split_and!; [lia|lia|done|lia].
Qed.

(** The bytes of every pair are swapped, and the string ends behind the last
    character that is not blank; its last byte is always lost. *)
Lemma descramble_ok string size l :
  0 ≤ string → 0 < size → Z.even size = true → string + size ≤ Z.of_nat (length l) →
  ∃ k l1, descramble_ata_string string size l = Ok (<[Z.to_nat (string + k) := 0]> l1) ∧ swapped string size l l1 ∧ 0 ≤ k < size ∧
    (k = 0 ∨ ∃ x, l1 !! Z.to_nat (string + k - 1) = Some x ∧ blank x = false) ∧
    ∀ j x, k ≤ j < size - 1 → l1 !! Z.to_nat (string + j) = Some x → blank x = true.
Proof.
  intros Hs Hn He Hl. destruct (swap_pairs_ok string size l Hs) as (l1 & E1 & Hsw); [lia|done|done|]. pose proof Hsw as [Hlen _].
  destruct (last_char_ok string size l1 Hs Hn) as (k & E2 & Hk & Hlast & Hbl); [lia|]. exists k, l1. split_and!; try done; [|lia..].
  unfold descramble_ata_string. rewrite E1. simpl. rewrite E2. simpl. apply set_char_ok. lia.
Qed.

Section init.
Context {H : Type} `{AB : AtaBus H}.
Implicit Types (s : sys H) (c : channel) (a : ata) (R : list registration).

(** ** Registers of an idle channel *)

Lemma outb_calm s c a R reg r v :
  at_ s c a R → calm c a → reg c = base + r → 2 ≤ r ≤ 5 → 0 ≤ v < 256 →
  ∃ s', outb reg v s = Ok (tt, s') ∧ at_ s' c (writes max_busy a r v) R ∧ calm c (writes max_busy a r v).
Proof.
  intros Hs [Hba Hph Hq] Hr Hrr Hv. destruct (outb_reg s c a R reg r v Hs Hq Hph Hr) as (s' & E & Hs'); [lia|].
  rewrite u8_small in Hs' by (simpl; lia). exists s'. split; [done|]. split; [done|].
  unfold writes. by rewrite (proj2 (Z.eqb_neq r 6)), (proj2 (Z.eqb_neq r 7)), (proj2 (Z.eqb_neq r 0x206)) by lia.
Qed.

Lemma inb_calm s c a R reg r :
  at_ s c a R → calm c a → reg c = base + r → 1 ≤ r ≤ 5 ∨ r = 7 ∨ r = 0x206 →
  ∃ v s', inb reg s = Ok (v, s') ∧ at_ s' c a R ∧ 0 ≤ v < 256 ∧ reads a r v.
Proof.
  intros Hs Hc Hr Hrr. pose proof (calm_busy _ _ Hc) as Hb. destruct Hc as [Hba Hph Hq].
  destruct (inb_still s c a R reg Hs Hq Hb) as (v & s' & E & Hs' & Hv & Hrd); [unfold legal; lia|].
  exists v, s'. replace (reg c - base) with r in Hrd by lia. done.
Qed.

Lemma sleep_calm s c a R ns : at_ s c a R → calm c a → 0 ≤ ns → ∃ s', timer_nsleep ns s = Ok (tt, s') ∧ at_ s' c a R.
Proof. intros Hs Hc. pose proof (calm_busy _ _ Hc). destruct Hc. by apply sleep_still. Qed.

Lemma probe_ok s c a R dev :
  at_ s c a R → calm c a → dev = 0 ∨ dev = 1 →
  ∃ b s' a', probe dev s = Ok (b, s') ∧ at_ s' c a' R ∧ calm c a' ∧ disks a' = disks a ∧ (present (disks a dev) = true → b = true).
Proof.
  intros Hs Hc Hd. unfold probe. pose proof (ca_base _ _ Hc) as Hba.
  destruct (select_device_ok s c a R dev Hs Hc Hd) as (s0 & E0 & Hs0). erewrite bind_ok by exact E0. pose proof (choose_calm dev _ _ Hc) as Hc0.
  pose proof (selected_choose dev a Hd) as Hsel. set (a0 := choose dev a) in *. assert (disks a0 = disks a) as Hdk by done. clearbody a0.
  assert (reg_nsect c = base + 2 ∧ reg_lbal c = base + 3) as [Hn Hl] by (unfold reg_nsect, reg_lbal; lia).
  destruct (outb_calm s0 c a0 R reg_nsect 2 0x55 Hs0 Hc0 Hn) as (s1 & E1 & Hs1 & Hc1); [lia..|]. erewrite bind_ok by exact E1.
  destruct (outb_calm s1 c _ R reg_lbal 3 0xaa Hs1 Hc1 Hl) as (s2 & E2 & Hs2 & Hc2); [lia..|]. erewrite bind_ok by exact E2.
  destruct (outb_calm s2 c _ R reg_nsect 2 0xaa Hs2 Hc2 Hn) as (s3 & E3 & Hs3 & Hc3); [lia..|]. erewrite bind_ok by exact E3.
  destruct (outb_calm s3 c _ R reg_lbal 3 0x55 Hs3 Hc3 Hl) as (s4 & E4 & Hs4 & Hc4); [lia..|]. erewrite bind_ok by exact E4.
  destruct (outb_calm s4 c _ R reg_nsect 2 0x55 Hs4 Hc4 Hn) as (s5 & E5 & Hs5 & Hc5); [lia..|]. erewrite bind_ok by exact E5.
  destruct (outb_calm s5 c _ R reg_lbal 3 0xaa Hs5 Hc5 Hl) as (s6 & E6 & Hs6 & Hc6); [lia..|]. erewrite bind_ok by exact E6.
  set (a6 := writes max_busy _ 3 0xaa) in Hs6, Hc6.
  assert (disks a6 = disks a ∧ selected a6 = dev ∧ nsect (regs_of a6 dev) = 0x55 ∧ lbal (regs_of a6 dev) = 0xaa) as (Hd6 & Hsel6 & Hn6 & Hl6)
    by (split_and!; [exact Hdk|exact Hsel|done|done]).
  pose proof (calm_busy _ _ Hc6) as Hb6. clearbody a6.
  destruct (inb_calm s6 c a6 R reg_nsect 2 Hs6 Hc6 Hn) as (v & s7 & E7 & Hs7 & _ & Hv); [lia|]. erewrite bind_ok by exact E7.
  destruct (inb_calm s7 c a6 R reg_lbal 3 Hs7 Hc6 Hl) as (w & s8 & E8 & Hs8 & _ & Hw); [lia|].
  unfold reads in Hv, Hw. rewrite decide_False in Hv by lia. rewrite decide_False in Hw by lia. rewrite Hsel6, Hd6 in Hv, Hw. simpl in Hv, Hw. rewrite Hn6 in Hv. rewrite Hl6 in Hw.
  destruct (Z.eqb_spec v 0x55) as [Ev|Ev].
  - erewrite bind_ok by exact E8. eexists _, s8, a6. split_and!; [done..|]. intros Hp. by rewrite (Hw Hb6 Hp).
  - eexists false, s7, a6. split_and!; [done..|]. intros Hp. by rewrite (Hv Hb6 Hp) in Ev.
Qed.

(** ** The reset *)

(** The signatures that a reset leaves in the registers. *)
Definition signed a : Prop := ∀ d, regs_of a d = mk_regs 1 1 1 (fst (sig (disks a d))) (snd (sig (disks a d))).

Definition reset_done c (D : Z → disk) a : Prop := calm c a ∧ signed a ∧ disks a = D ∧ selected a = 0.

(** From the release of the reset on. *)
Definition resetting c a0 a : Prop :=
  (∃ n, 0 < n ≤ 29990000000 ∧ a = mk_ata (disks a0) (regs_of a0) 0 (Busy n Resetting) false) ∨ reset_done c (disks a0) a.

Lemma resetting_quiet c a0 a : resetting c a0 a → intrq a = false.
Proof. by intros [(n & _ & ->)|([_ _ ?] & _)]. Qed.

Lemma complete_reset c a0 a a' : reg_base c = base → disks a = disks a0 → complete Resetting a a' → reset_done c (disks a0) a'.
Proof. intros Hba Hd ->. split_and!; [by split|intros d; simpl; by rewrite Hd|done|done]. Qed.

Lemma resetting_progress c a0 a a' : reg_base c = base → resetting c a0 a → progress a a' → resetting c a0 a'.
Proof.
  intros Hba [(n & Hn & ->)|Hd] Hp.
  - destruct Hp as [->|(n' & w & [= <- <-] & Hp)]; [left; by exists n|right]. by eapply complete_reset, Hp.
  - right. apply progress_done in Hp as ->; [done|]. by eapply calm_busy, Hd.
Qed.

Lemma resetting_elapse c a0 a a' d : reg_base c = base → 0 ≤ d → resetting c a0 a → elapse d a a' → resetting c a0 a'.
Proof.
  intros Hba Hd [(n & Hn & ->)|Hdone] He.
  - unfold elapse in He. simpl in He. destruct He as [Hc|(n' & Hn' & ->)]; [right; by eapply complete_reset, Hc|].
    left. exists n'. split; [lia|done].
  - right. destruct Hdone as ([? Hp ?] & Hr). unfold elapse in He. rewrite Hp in He. by subst.
Qed.

Lemma sleep_resetting s c a0 a R ns :
  at_ s c a R → reg_base c = base → resetting c a0 a → 0 ≤ ns → ∃ s' a', timer_nsleep ns s = Ok (tt, s') ∧ at_ s' c a' R ∧ resetting c a0 a'.
Proof.
  intros Hs Hba Hr Hn. destruct (sleep_ok s c a R ns Hs (resetting_quiet _ _ _ Hr) Hn) as (s' & a' & E & Hs' & He).
  exists s', a'. split_and!; [done..|]. by eapply resetting_elapse.
Qed.

Lemma select_resetting s c a0 a R :
  at_ s c a R → reg_base c = base → resetting c a0 a → ∃ s' a', select_device 0 s = Ok (tt, s') ∧ at_ s' c a' R ∧ resetting c a0 a'.
Proof.
  intros Hs Hba Hr. pose proof (resetting_quiet _ _ _ Hr) as Hq. unfold select_device. change (if 0 =? 1 then _ else DEV_MBS) with DEV_MBS.
  destruct (outb_ok s c a R reg_device DEV_MBS Hs Hq) as (s1 & a1 & E1 & Hs1 & Hp1).
  { split; [done|]. destruct Hr as [(n & _ & ->)|([_ Hph _] & _)]; [right; left; split; [unfold reg_device; lia|by exists n]|left; split; [unfold reg_device; lia|done]]. }
  replace (reg_device c - base) with 6 in Hp1 by (unfold reg_device; lia). erewrite bind_ok by exact E1.
  assert (resetting c a0 a1) as Hr1.
  { eapply resetting_progress; [done| |exact Hp1]. destruct Hr as [(n & Hn & ->)|Hdone]; [left; by exists n|right].
    destruct Hdone as (Hc & Hsg & Hdk & _). unfold writes. simpl. rewrite (calm_busy _ _ Hc). destruct Hc as [? ? ?]. by split_and!. }
  destruct (inb_ok s1 c a1 R reg_alt_status Hs1 (resetting_quiet _ _ _ Hr1)) as (v & s2 & a2 & E2 & Hs2 & _ & _ & Hp2); [unfold legal, reg_alt_status, reg_ctl; lia|].
  erewrite bind_ok by exact E2. by apply (sleep_resetting s2 c a0 a2 R 400); [| |eapply resetting_progress|].
Qed.

Lemma wait_reset s c a0 a R :
  at_ s c a R → reg_base c = base → resetting c a0 a → present (disks a0 0) = true →
  ∃ b s' a', wait_while_busy s = Ok (b, s') ∧ at_ s' c a' R ∧ reset_done c (disks a0) a'.
Proof.
  intros Hs Hba Hr Hp. destruct Hr as [(n & Hn & ->)|Hd].
  - set (a1 := mk_ata (disks a0) (regs_of a0) 0 Idle false).
    destruct (poll_working s c a1 _ R Resetting Hs) as (s' & a' & E & Hc & Hs'); [left; by exists n|done|done| |].
    { intros a' ->. done. }
    eexists _, s', a'. split_and!; [exact E|done|]. by eapply (complete_reset c a0 a1).
  - pose proof Hd as (Hc & _ & Hdk & Hsel). destruct (poll_ready s c a R Hs) as (s' & E & Hs'); [apply Hc|by eapply calm_busy|done|by rewrite Hsel, Hdk|].
    by eexists _, s', a.
Qed.

(** Waiting for a device that is not busy, or not there. *)
Lemma wait_calm s c a R : at_ s c a R → calm c a → ∃ b s', wait_while_busy s = Ok (b, s') ∧ at_ s' c a R.
Proof.
  intros Hs Hc. pose proof (ca_base _ _ Hc) as Hba. unfold wait_while_busy. match goal with |- context [loopM _ ?g _] => set (body := g) end.
  destruct (loopM_rule (λ n i s, at_ s c a R ∧ n = Z.to_nat (3000 - i)) (λ (_ : bool) s, at_ s c a R) body)
    with (fuel := 3001%nat) (n := 3000%nat) (l := 0) (s := s) as (b & s' & E & Hs'); [|done|lia|by exists b, s'].
  clear s Hs. intros n i s [Hs ->]. unfold body. destruct (Z.ltb_spec i 3000); [|by eexists _, s].
  assert (reg_alt_status c = base + 0x206) as Hreg by (unfold reg_alt_status, reg_ctl; lia).
  destruct (inb_calm s c a R reg_alt_status 0x206 Hs Hc Hreg) as (v & s1 & E1 & Hs1 & _); [lia|]. erewrite bind_ok by exact E1. destruct (_ =? 0).
  - destruct (inb_calm s1 c a R reg_alt_status 0x206 Hs1 Hc Hreg) as (w & s2 & E2 & Hs2 & _); [lia|]. erewrite bind_ok by exact E2. by eexists _, s2.
  - destruct (sleep_calm s1 c a R (10 * 1000 * 1000) Hs1 Hc) as (s2 & E2 & Hs2); [lia|]. unfold timer_msleep, timer_usleep. erewrite bind_ok by exact E2.
    eexists _, s2. split; [done|]. exists (Z.to_nat (3000 - (i + 1))). split; [lia|done].
Qed.

Lemma wait_signature_ok s c a R : at_ s c a R → calm c a → ∃ s', wait_signature s = Ok (tt, s') ∧ at_ s' c a R.
Proof.
  intros Hs Hc. pose proof (ca_base _ _ Hc) as Hba. unfold wait_signature. match goal with |- context [loopM _ ?g _] => set (body := g) end.
  destruct (loopM_rule (λ n i s, at_ s c a R ∧ n = Z.to_nat (3000 - i)) (λ (_ : unit) s, at_ s c a R) body)
    with (fuel := 3001%nat) (n := 3000%nat) (l := 0) (s := s) as ([] & s' & E & Hs'); [|done|lia|by exists s'].
  clear s Hs. intros n i s [Hs ->]. unfold body. destruct (Z.ltb_spec i 3000); [|by eexists _, s].
  destruct (inb_calm s c a R reg_nsect 2 Hs Hc) as (v & s1 & E1 & Hs1 & _); [unfold reg_nsect; lia|lia|]. erewrite bind_ok by exact E1.
  assert (∃ ok s2, (if v =? 1 then w ← inb reg_lbal; mret (w =? 1) else mret false) s1 = Ok (ok, s2) ∧ at_ s2 c a R) as (ok & s2 & E2 & Hs2).
  { destruct (v =? 1); [|by exists false, s1]. destruct (inb_calm s1 c a R reg_lbal 3 Hs1 Hc) as (w & s2 & E2 & Hs2 & _); [unfold reg_lbal; lia|lia|].
    erewrite bind_ok by exact E2. by eexists _, s2. }
  erewrite bind_ok by exact E2. destruct ok; [by eexists _, s2|].
  destruct (sleep_calm s2 c a R (10 * 1000 * 1000) Hs2 Hc) as (s3 & E3 & Hs3); [lia|]. unfold timer_msleep, timer_usleep. erewrite bind_ok by exact E3.
  eexists _, s3. split; [done|]. exists (Z.to_nat (3000 - (i + 1))). split; [lia|done].
Qed.

(** Holding and releasing the reset. *)
Lemma soft_reset_ok s c a R :
  at_ s c a R → calm c a →
  ∃ s' a', (outb reg_ctl 0;; timer_usleep 10;; outb reg_ctl CTL_SRST;; timer_usleep 10;; outb reg_ctl 0;; timer_msleep 150) s = Ok (tt, s') ∧
    at_ s' c a' R ∧ resetting c a a'.
Proof.
  intros Hs Hc. pose proof Hc as [Hba Hph Hq]. assert (reg_ctl c - base = 0x206) as Hreg by (unfold reg_ctl; lia).
  assert (∀ x v, v = 0 ∨ v = CTL_SRST → legal base x (Outb (reg_ctl c) (u8 v))) as Hleg.
  { intros x v Hv. split; [apply u8_range|]. right. right. left. split; [done|]. by destruct Hv as [->| ->]; [left|right]. }
  destruct (outb_ok s c a R reg_ctl 0 Hs Hq) as (s1 & a1 & E1 & Hs1 & Hp1); [apply Hleg; by left|]. erewrite bind_ok by exact E1.
  rewrite Hreg in Hp1. unfold writes in Hp1. simpl in Hp1. rewrite Hph in Hp1. apply progress_done in Hp1 as ->; [|by eapply calm_busy].
  destruct (sleep_calm s1 c a R (10 * 1000) Hs1 Hc) as (s2 & E2 & Hs2); [lia|]. unfold timer_usleep. erewrite bind_ok by exact E2.
  destruct (outb_ok s2 c a R reg_ctl CTL_SRST Hs2 Hq) as (s3 & a3 & E3 & Hs3 & Hp3); [apply Hleg; by right|]. erewrite bind_ok by exact E3.
  rewrite Hreg in Hp3. destruct Hp3 as [->|(? & ? & ? & _)]; [|done]. change (writes max_busy a 0x206 (u8 CTL_SRST)) with (mk_ata (disks a) (regs_of a) 0 Held false) in Hs3.
  destruct (sleep_ok s3 c _ R (10 * 1000) Hs3) as (s4 & a4 & E4 & Hs4 & ->); [done|lia|]. erewrite bind_ok by exact E4.
  destruct (outb_ok s4 c _ R reg_ctl 0 Hs4 eq_refl) as (s5 & a5 & E5 & Hs5 & Hp5); [apply Hleg; by left|]. erewrite bind_ok by exact E5.
  rewrite Hreg in Hp5. apply (sleep_resetting s5 c a a5 R); [done|done| |lia]. eapply resetting_progress; [done| |exact Hp5].
  left. exists max_busy. pose proof max_busy_ok. split; [lia|done].
Qed.

Lemma reset_channel_ok s c a R :
  at_ s c a R → calm c a → present (disks a 0) = true →
  ∃ s' a', reset_channel s = Ok (tt, s') ∧ at_ s' c a' R ∧ calm c a' ∧ signed a' ∧ disks a' = disks a.
Proof.
  intros Hs Hc Hp. pose proof (ca_base _ _ Hc) as Hba. unfold reset_channel.
  destruct (probe_ok s c a R 0 Hs Hc) as (b0 & s1 & a1 & E1 & Hs1 & Hc1 & Hd1 & Hb0); [by left|]. erewrite bind_ok by exact E1. rewrite (Hb0 Hp).
  destruct (probe_ok s1 c a1 R 1 Hs1 Hc1) as (b1 & s2 & a2 & E2 & Hs2 & Hc2 & Hd2 & _); [by right|]. erewrite bind_ok by exact E2.
  destruct (soft_reset_ok s2 c a2 R Hs2 Hc2) as (s3 & a3 & E3 & Hs3 & Hr3).
  destruct (select_resetting s3 c a2 a3 R Hs3 Hba Hr3) as (s4 & a4 & E4 & Hs4 & Hr4).
  destruct (wait_reset s4 c a2 a4 R Hs4 Hba Hr4) as (b & s5 & a5 & E5 & Hs5 & Hc5 & Hsg & Hd5 & _); [by rewrite Hd2, Hd1|].
  assert (disks a5 = disks a) as Hd by congruence.
  assert (∃ s' a', (if b1 then select_device 1;; wait_signature;; wait_while_busy;; mret tt else mret tt) s5 = Ok (tt, s') ∧ at_ s' c a' R ∧
    calm c a' ∧ signed a' ∧ disks a' = disks a) as (s6 & a6 & E6 & Hrest).
  { destruct b1; [|by exists s5, a5]. destruct (select_device_ok s5 c a5 R 1 Hs5 Hc5) as (s6 & E6 & Hs6); [by right|]. erewrite bind_ok by exact E6.
    pose proof (choose_calm 1 _ _ Hc5) as Hc6. destruct (wait_signature_ok s6 c _ R Hs6 Hc6) as (s7 & E7 & Hs7). erewrite bind_ok by exact E7.
    destruct (wait_calm s7 c _ R Hs7 Hc6) as (b' & s8 & E8 & Hs8). erewrite bind_ok by exact E8. by exists s8, (choose 1 a5). }
  exists s6, a6. split; [|exact Hrest]. unfold mbind, st_bind in *.
  repeat match type of E3 with (match ?x with _ => _ end) = _ => destruct x as [[? ?]|]; [|done] end. rewrite E3. simpl. rewrite E4, E5. exact E6.
Qed.

(** ** Detection *)

Definition ata_sig (x : Z * Z) : bool := (fst x =? 0) && (snd x =? 0) || (fst x =? 0x3c) && (snd x =? 0xc3).

Definition with_ata (dev : Z) (b : bool) c : channel := set_devices (alter (λ d, mk_disk (d_name d) (dev_no d) b) (Z.to_nat dev) (devices c)) c.

Lemma check_device_ok s c a R dev :
  at_ s c a R → calm c a → signed a → dev = 0 ∨ dev = 1 →
  ∃ b s', check_device_type dev s = Ok (b, s') ∧
    at_ s' (with_ata dev (present (disks a dev) && ata_sig (sig (disks a dev))) c) (choose dev a) R ∧ (present (disks a dev) = true → b = true).
Proof.
  intros Hs Hc Hsg Hd. pose proof (ca_base _ _ Hc) as Hba. unfold check_device_type.
  destruct (select_device_ok s c a R dev Hs Hc Hd) as (s0 & E0 & Hs0). erewrite bind_ok by exact E0.
  pose proof (choose_calm dev _ _ Hc) as Hc0. pose proof (calm_busy _ _ Hc0) as Hb. pose proof (selected_choose dev a Hd) as Hsel.
  destruct (inb_calm s0 c _ R reg_error 1 Hs0 Hc0) as (error & s1 & E1 & Hs1 & _ & R1); [unfold reg_error; lia|lia|]. erewrite bind_ok by exact E1.
  destruct (inb_calm s1 c _ R reg_lbam 4 Hs1 Hc0) as (lbam & s2 & E2 & Hs2 & _ & R2); [unfold reg_lbam; lia|lia|]. erewrite bind_ok by exact E2.
  destruct (inb_calm s2 c _ R reg_lbah 5 Hs2 Hc0) as (lbah & s3 & E3 & Hs3 & _ & R3); [unfold reg_lbah; lia|lia|]. erewrite bind_ok by exact E3.
  destruct (inb_calm s3 c _ R reg_status 7 Hs3 Hc0) as (status & s4 & E4 & Hs4 & _ & R4); [unfold reg_status; lia|lia|]. erewrite bind_ok by exact E4.
  apply reads_status in R4; [|by left]. unfold status_ok in R4. unfold reads in R1, R2, R3. rewrite decide_False in R1 by lia. rewrite decide_False in R2 by lia.
  rewrite decide_False in R3 by lia. rewrite Hsel in R1, R2, R3, R4.
  change (disks (choose dev a)) with (disks a) in *. change (regs_of (choose dev a)) with (regs_of a) in *. rewrite (Hsg dev) in R1, R2, R3. simpl in R1, R2, R3.
  rewrite ready_bit, busy_bit. destruct (present (disks a dev)) eqn:Hp.
  - rewrite (R1 Hb eq_refl), (R2 Hb eq_refl), (R3 Hb eq_refl). destruct R4 as [H7 H6]. destruct (H6 Hb) as [-> _]. rewrite H7, Hb. cbn [Z.eqb Pos.eqb negb andb orb].
    destruct (modify_chan_ok s4 c _ R (with_ata dev (ata_sig (sig (disks a dev)))) Hs4) as (s5 & E5 & Hs5). exists true, s5. split_and!; [|done|done].
    unfold set_is_ata. by erewrite bind_ok by exact E5.
  - assert (negb (Z.testbit status 6) || negb (negb (Z.testbit status 7)) = true) as Hbad by (destruct R4 as [->| ->]; [done|apply orb_true_r]).
    rewrite <-orb_assoc, Hbad, orb_true_r.
    destruct (modify_chan_ok s4 c _ R (with_ata dev false) Hs4) as (s5 & E5 & Hs5). exists (negb (error =? 0x81)), s5. split_and!; [|done|done].
    unfold set_is_ata. by erewrite bind_ok by exact E5.
Qed.

(** ** The scan of the partition table *)

(** [partition_scan] of partition.c, on the block device that has just been
    registered, with the driver of the disk. *)
Definition scan_disk (malloc_ok : bool) (fuel : nat) (dev size : Z) : ST (sys H) (list Partition.registration) := λ s,
  match decide (dev = 0 ∨ dev = 1) with
  | left dev_ok =>
      match Partition.partition_scan (BD := ide_block_driver dev dev_ok) malloc_ok fuel (mk_block BLOCK_RAW size 0 0 s) with
      | Ok (_, sc) => Ok (Partition.registered sc, aux (Partition.dev sc))
      | Err e => Err e
      end
  | right _ => Err BadAccess
  end.

Definition capacity (d : disk) : Z := le_decode (slice 120 4 (ident d)).
Definition small (d : disk) : bool := capacity d <? 2 ^ 21.

(** The partitions in the table of a disk. *)
Definition disk_partitions (d : disk) : list Partition.registration :=
  if capacity d <=? 0 then [] else disk_parts (capacity d) (store d !!! 0%nat).

(** A disk whose table the scan can read, and reads without recursion. *)
Definition scannable (d : disk) : Prop :=
  0 < capacity d → disk_fine d ∧ store d ≠ [] ∧ flat_table (store d !!! 0%nat).

Lemma scan_disk_ok s c a R fuel dev :
  at_ s c a R → quiet c a → dev = 0 ∨ dev = 1 → small (disks a dev) = true → scannable (disks a dev) →
  ∃ s' c' a', scan_disk true (S fuel) dev (capacity (disks a dev)) s = Ok (disk_partitions (disks a dev), s') ∧
    at_ s' c' a' R ∧ quiet c' a' ∧ disks a' = disks a ∧ (c' = c ∨ c' = set_expecting true c).
Proof.
  intros Hs Hq Hd Hsm Hsc. set (d := disks a dev) in *. apply Z.ltb_lt in Hsm. unfold scan_disk, disk_partitions.
  destruct (decide (dev = 0 ∨ dev = 1)) as [dev_ok|]; [|done]. destruct (Z.leb_spec (capacity d) 0) as [Hz|Hpos].
  { exists s, c, a. split_and!; [|done..|by left]. unfold Partition.partition_scan. simpl.
    erewrite bind_ok by done. unfold block_size. simpl. by rewrite (proj2 (Z.leb_le _ _)). }
  destruct (Hsc Hpos) as (Hf & Hne & Hflat). assert (length (store d) ≠ 0%nat) as Hl by (by intros ?%nil_length_inv).
  destruct (ide_read_ok s c a R dev 0 Hs Hq Hd Hf) as (s' & a' & E & Hs' & Hq' & Hdk); [fold d; lia|].
  set (b := mk_block BLOCK_RAW (capacity d) 0 0 s).
  destruct (partition_scan_run (BD := ide_block_driver dev dev_ok) true fuel b
    (mk_block BLOCK_RAW (capacity d) (u64 1) 0 s') (store d !!! 0%nat)) as (nr & Er).
  - done.
  - simpl. lia.
  - unfold block_read, check_sector. rewrite bind_ok with (a := tt) (s' := b).
    + erewrite bind_ok by (unfold on_driver; simpl; by rewrite E). done.
    + erewrite bind_ok by apply get_ok. simpl. by rewrite (proj2 (Z.leb_gt _ _)) by lia.
  - done.
  - destruct Hf as (_ & Hst & _). destruct (lookup_lt_is_Some_2 (store d) 0) as [x Hx]; [lia|].
    rewrite (list_lookup_total_correct _ _ _ Hx). by apply (Forall_lookup_1 _ _ _ _ Hst) in Hx as [_ ?].
  - done.
  - rewrite Er. eexists s', _, a'. split; [done|]. split; [exact Hs'|]. split_and!; [done|done|by right].
Qed.

(** ** Identification *)

(** What is compared of a registration: all but the model and serial number. *)
Definition summary (r : registration) : list Z * Z * Z + Z * Partition.registration :=
  match r with Disk name _ size dev => inl (name, size, dev) | Part dev p => inr (dev, p) end.

(** The registrations for a disk below 1 GB. *)
Definition found_disk (name : list Z) (dev : Z) (d : disk) : list (list Z * Z * Z + Z * Partition.registration) :=
  inl (name, capacity d, dev) :: ((λ p, inr (dev, p)) <$> disk_partitions d).

Lemma descramble_length string size l l' :
  0 ≤ string → 0 < size → Z.even size = true → string + size ≤ Z.of_nat (length l) → descramble_ata_string string size l = Ok l' → length l' = length l.
Proof.
  intros H1 H2 H3 H4 E. destruct (descramble_ok string size l H1 H2 H3 H4) as (k & l1 & E' & [Hl _] & _). rewrite E in E'. injection E' as ->.
  by rewrite length_insert.
Qed.

Lemma strings_ok id : length id = 512%nat → ∃ id', (id ← descramble_ata_string 20 20 id; descramble_ata_string 54 40 id) = Ok id'.
Proof.
  intros Hl. destruct (descramble_ok 20 20 id) as (k & l1 & E & _); [done|done|done|lia|]. rewrite E. cbn [mbind].
  apply descramble_length in E as Hl1; [|done..|lia]. set (l2 := <[_ := _]> l1) in *.
  destruct (descramble_ok 54 40 l2) as (k2 & l3 & E2 & _); [done|done|done|lia|]. eexists. exact E2.
Qed.

Lemma register_ok s c a R r : at_ s c a R → ∃ s', register r s = Ok (tt, s') ∧ at_ s' c a (R ++ [r]).
Proof. intros (h & -> & Hv & Hok). eexists. split; [done|]. by exists h. Qed.

Section scanning.
Variable fuel : nat.
Abbreviation scan := (scan_disk true (S fuel)).

Lemma identify_ok s c a R dev d :
  at_ s c a R → calm c a → lock c = false → completion_wait c = 0 → dev = 0 ∨ dev = 1 → present (disks a dev) = true →
  devices c !! Z.to_nat dev = Some d → is_ata d = true → length (ident (disks a dev)) = 512%nat →
  (small (disks a dev) = true → scannable (disks a dev)) →
  ∃ s' a' R', identify_ata_device scan dev s = Ok (tt, s') ∧
    at_ s' (if small (disks a dev) then set_expecting true c else with_ata dev false (set_expecting true c)) a' (R ++ R') ∧
    ph a' = Idle ∧ intrq a' = false ∧ disks a' = disks a ∧
    summary <$> R' = if small (disks a dev) then found_disk (d_name d) dev (disks a dev) else [].
Proof.
  intros Hs Hc Hlk Hz Hd Hp Hdev Hata Hlen Hscan. pose proof (ca_base _ _ Hc) as Hba. unfold identify_ata_device.
  erewrite bind_ok by done. rewrite (chan_at _ _ _ _ Hs), Hdev. erewrite bind_ok by (by apply assert_ok).
  destruct (select_device_wait_ok s c a R dev Hs Hc Hd) as (s1 & E1 & Hs1). erewrite bind_ok by exact E1.
  pose proof (choose_calm dev _ _ Hc) as Hc1. pose proof (selected_choose dev a Hd) as Hsel.
  destruct (issue_ok s1 c _ R CMD_IDENTIFY_DEVICE Hs1 Hc1) as (s2 & a2 & E2 & Hs2 & Hw).
  { split; [done|]. right. right. right. rewrite Hsel. split; [unfold reg_command, reg_status; lia|]. split; [apply Hc1|]. split; [done|by left]. }
  erewrite bind_ok by exact E2. change (command (choose dev a) CMD_IDENTIFY_DEVICE) with (Identifying (selected (choose dev a))) in Hw. rewrite Hsel in Hw.
  destruct (sema_down_ok s2 _ _ a2 R (Identifying dev) Hs2 Hw) as (s3 & a3 & E3 & (Rg & ->) & Hs3); [done..|]. erewrite bind_ok by exact E3.
  destruct (poll_ready s3 _ _ R Hs3) as (s4 & E4 & Hs4); [done|done|done| |].
  { change (selected (set_intrq _ _)) with (selected (choose dev a)). by rewrite Hsel. }
  erewrite bind_ok by exact E4. cbn [drq ph set_intrq negb].
  destruct (input_ok s4 _ _ R (ident (disks a dev)) Hs4) as (s5 & E5 & Hs5); [done..|]. erewrite bind_ok by exact E5.
  destruct (strings_ok _ Hlen) as (id' & ->). change (le_decode (slice 120 4 (ident (disks a dev)))) with (capacity (disks a dev)).
  change (1024 * 1024 * 1024 / BLOCK_SECTOR_SIZE) with (2 ^ 21). rewrite Z.geb_leb, Z.leb_antisym. fold (small (disks a dev)).
  destruct (small (disks a dev)) eqn:Hsm; cbn [negb].
  - erewrite bind_ok by done. rewrite (chan_at _ _ _ _ Hs5). change (devices (set_expecting true c)) with (devices c). rewrite Hdev.
    set (r := Disk _ _ _ _). destruct (register_ok s5 _ _ R r Hs5) as (s6 & E6 & Hs6). erewrite bind_ok by exact E6.
    match type of Hs6 with at_ _ _ ?x _ => set (a6 := x) in Hs6 end. change (disks a) with (disks a6) in *.
    destruct (scan_disk_ok s6 _ a6 (R ++ [r]) fuel dev Hs6) as (s7 & c7 & a7 & E7 & Hs7 & ([_ Hph Hq] & _) & Hdk & Hc7);
      [by split_and!|done|done|by apply Hscan|]. erewrite bind_ok by exact E7.
    assert (c7 = set_expecting true c) as -> by (by destruct Hc7 as [->| ->]). destruct Hs7 as (h & -> & Hv & Hok).
    eexists _, a7, (r :: (Part dev <$> disk_partitions (disks a6 dev))). split; [done|].
    split; [exists h; split; [by rewrite <-(app_assoc R [r])|done]|]. split_and!; [done..|].
    unfold found_disk. rewrite fmap_cons, <-list_fmap_compose. done.
  - destruct (modify_chan_ok s5 _ _ R (with_ata dev false) Hs5) as (s6 & E6 & Hs6). eexists s6, _, []. rewrite app_nil_r. split; [exact E6|]. split; [exact Hs6|]. done.
Qed.

Lemma identify_if_ok s c a R dev d :
  at_ s c a R → quiet c a → dev = 0 ∨ dev = 1 →
  devices c !! Z.to_nat dev = Some d →
  (is_ata d = true → present (disks a dev) = true ∧ length (ident (disks a dev)) = 512%nat ∧ (small (disks a dev) = true → scannable (disks a dev))) →
  ∃ s' c' a' R', identify_if scan dev s = Ok (tt, s') ∧ at_ s' c' a' (R ++ R') ∧ quiet c' a' ∧ disks a' = disks a ∧
    devices c' = alter (λ d, mk_disk (d_name d) (dev_no d) (is_ata d && small (disks a dev))) (Z.to_nat dev) (devices c) ∧
    summary <$> R' = if is_ata d && small (disks a dev) then found_disk (d_name d) dev (disks a dev) else [].
Proof.
  intros Hs (Hc & Hlk & Hz) Hd Hdev Hata. pose proof (ca_base _ _ Hc) as Hba. unfold identify_if. erewrite bind_ok by done. rewrite (chan_at _ _ _ _ Hs), Hdev.
  assert (∀ f : ata_disk → ata_disk, f d = d → alter f (Z.to_nat dev) (devices c) = devices c) as Hsame.
  { intros f Hf. apply list_eq. intros j. destruct (decide (j = Z.to_nat dev)) as [->|]; [by rewrite list_lookup_alter_eq, Hdev; simpl; rewrite Hf|by rewrite list_lookup_alter_ne]. }
  destruct (is_ata d) eqn:Hi.
  - destruct (Hata eq_refl) as (Hp & Hl & Hsc). destruct (identify_ok s c a R dev d Hs Hc Hlk Hz Hd Hp Hdev Hi Hl Hsc) as (s' & a' & R' & E & Hs' & Hph & Hq & Hdk & Hsum).
    eexists s', _, a', R'. split; [exact E|]. split; [exact Hs'|]. destruct (small (disks a dev)); split_and!; try done.
    + simpl. rewrite Hsame; [done|]. destruct d. simpl in *. by subst.
    + simpl. apply list_eq. intros j. destruct (decide (j = Z.to_nat dev)) as [->|]; [by rewrite !list_lookup_alter_eq, Hdev; simpl; rewrite Hi|by rewrite !list_lookup_alter_ne].
  - exists s, c, a, []. rewrite app_nil_r. split_and!; try done. rewrite Hsame; [done|]. destruct d. simpl in *. by subst.
Qed.
End scanning.

(** ** Properties *)

(** An ATA disk below 1 GB. *)
Definition usable (d : disk) : bool := present d && ata_sig (sig d) && small d.

(** C17: ide_init finds the disks of a channel and their partitions.  With a
    device 0 and perhaps a device 1 on the channel, whatever types they have, it
    returns; exactly the ATA disks of less than 1 GB are registered as block
    devices, under their names and with the capacities that they report, and
    marked as ATA disks, and after each disk the partitions in its partition
    table.  No sector is changed, and the channel is ready for transfers.  A
    device 0 must be there, and the scan of the partition tables must return:
    [malloc] finds memory, the disks hold sector 0, and their tables have no
    extended partition, for which the recursion may not end
    ([Partition.partition_scan_diverges], [extended_init_diverges] below). *)
Theorem ide_init_correct fuel s c0 a R chan_no :
  at_ s c0 a R → ph a = Idle → intrq a = false → chan_no = 0 ∨ chan_no = 1 → base = (if chan_no =? 0 then 0x1f0 else 0x170) →
  present (disks a 0) = true → (∀ d, present (disks a d) = true → length (ident (disks a d)) = 512%nat) →
  (∀ d, usable (disks a d) = true → scannable (disks a d)) →
  ∃ s' c a' R', ide_init (scan_disk true (S fuel)) chan_no s = Ok (tt, s') ∧ at_ s' c a' (R ++ R') ∧ quiet c a' ∧ disks a' = disks a ∧
    is_ata <$> devices c = [usable (disks a 0); usable (disks a 1)] ∧
    summary <$> R' =
      (if usable (disks a 0) then found_disk (d_name (new_disk chan_no 0)) 0 (disks a 0) else []) ++
      (if usable (disks a 1) then found_disk (d_name (new_disk chan_no 1)) 1 (disks a 1) else []).
Proof.
  intros Hs Hph Hq Hno Hbase Hp0 Hid Hscan. unfold ide_init.
  destruct (modify_chan_ok s c0 a R (λ _, new_channel chan_no) Hs) as (s1 & E1 & Hs1). erewrite bind_ok by exact E1. set (c1 := new_channel chan_no) in *.
  assert (calm c1 a) as Hc1 by (split; [by rewrite Hbase|done|done]).
  destruct (reset_channel_ok s1 c1 a R Hs1 Hc1 Hp0) as (s2 & a2 & E2 & Hs2 & Hc2 & Hsg & Hdk). erewrite bind_ok by exact E2. rewrite <-Hdk in *.
  destruct (check_device_ok s2 c1 a2 R 0 Hs2 Hc2 Hsg) as (b & s3 & E3 & Hs3 & Hb); [by left|]. erewrite bind_ok by exact E3. rewrite (Hb Hp0).
  set (c3 := with_ata 0 _ c1) in *. assert (calm c3 (choose 0 a2)) as Hc3 by (by destruct Hc2).
  destruct (check_device_ok s3 c3 (choose 0 a2) R 1 Hs3 Hc3 Hsg) as (b' & s4 & E4 & Hs4 & _); [by right|].
  erewrite bind_ok by (by erewrite bind_ok by exact E4). set (c4 := with_ata 1 _ c3) in *. change (disks (choose 0 a2)) with (disks a2) in *.
  set (a4 := choose 1 (choose 0 a2)) in *. assert (calm c4 a4) as Hc4 by (by destruct Hc2). change (disks a2) with (disks a4) in *.
  set (i0 := present (disks a4 0) && ata_sig (sig (disks a4 0))) in *. set (i1 := present (disks a4 1) && ata_sig (sig (disks a4 1))) in *.
  assert (∀ d, present (disks a4 d) && ata_sig (sig (disks a4 d)) = true → present (disks a4 d) = true ∧
    length (ident (disks a4 d)) = 512%nat ∧ (small (disks a4 d) = true → scannable (disks a4 d))) as Hpres.
  { intros d Hd. pose proof Hd as [Hd' _]%andb_true_iff. split_and!; [done|by apply Hid|]. intros Hsm. apply Hscan. unfold usable. by rewrite Hd, Hsm. }
  destruct (identify_if_ok fuel s4 c4 a4 R 0 (mk_disk (d_name (new_disk chan_no 0)) 0 i0) Hs4) as (s5 & c5 & a5 & R5 & E5 & Hs5 & Hq5 & Hd5 & Hdv5 & Hsum5);
    [by split_and!|by left|done|apply Hpres|]. erewrite bind_ok by exact E5.
  assert (devices c5 !! 1%nat = Some (mk_disk (d_name (new_disk chan_no 1)) 1 i1)) as Hdev1 by (by rewrite Hdv5).
  destruct (identify_if_ok fuel s5 c5 a5 (R ++ R5) 1 (mk_disk (d_name (new_disk chan_no 1)) 1 i1) Hs5 Hq5) as (s6 & c6 & a6 & R6 & E6 & Hs6 & Hq6 & Hd6 & Hdv6 & Hsum6);
    [by right|exact Hdev1|rewrite Hd5; apply Hpres|].
  exists s6, c6, a6, (R5 ++ R6). rewrite app_assoc. split; [exact E6|]. split; [exact Hs6|]. split; [done|].
  split; [by rewrite Hd6|]. rewrite Hdv6, Hdv5, fmap_app, Hsum5, Hsum6, Hd5. done.
Qed.
End init.

(** ** A simulated channel *)

Definition sim_max : Z := 25000000.

Definition sim_complete (w : work) (a : ata) : ata :=
  match w with
  | Reading dev i => mk_ata (disks a) (regs_of a) (devreg a) (DataIn (store (disks a dev) !!! Z.to_nat i)) true
  | Writing dev i => mk_ata (disks a) (regs_of a) (devreg a) (DataOut dev i) false
  | Storing dev i data => mk_ata (write_sector (disks a) dev i data) (regs_of a) (devreg a) Idle true
  | Identifying dev => mk_ata (disks a) (regs_of a) (devreg a) (DataIn (ident (disks a dev))) true
  | Resetting => mk_ata (disks a) (λ d, mk_regs 1 1 1 (fst (sig (disks a d))) (snd (sig (disks a d)))) 0 Idle false
  end.

Definition sim_status (a : ata) : Z :=
  if present (disks a (selected a)) then if busy a then STA_BSY else Z.lor STA_DRDY (if drq a then STA_DRQ else 0) else 0.

Definition sim_read (a : ata) (r : Z) : Z :=
  let R := regs_of a (selected a) in
  if (r =? 7) || (r =? 0x206) then sim_status a
  else if r =? 1 then error R else if r =? 2 then nsect R else if r =? 3 then lbal R else if r =? 4 then lbam R else lbah R.

Definition sim_io (o : io) : ST ata (list Z) := λ a,
  match o with
  | Inb p => Ok ([sim_read a (p - 0x1f0)], if p - 0x1f0 =? 7 then set_intrq false a else a)
  | Outb p v => Ok ([], writes sim_max a (p - 0x1f0) v)
  | Insw _ _ => match ph a with DataIn data => Ok (data, set_ph Idle a) | _ => Err BadAccess end
  | Outsw _ data => match ph a with DataOut dev i => Ok ([], set_ph (Busy sim_max (Storing dev i data)) a) | _ => Err BadAccess end
  | Delay d => Ok ([], match ph a with Busy n w => if n - d <=? 0 then sim_complete w a else set_ph (Busy (n - d) w) a | _ => a end)
  end.

#[export] Instance sim_bus : Bus ata := {| bus_io := sim_io; intr_line := intrq |}.

Definition byte_regs (R : regs) : Prop := Forall byte_ok [error R; nsect R; lbal R; lbam R; lbah R].
Definition sim_ok (a : ata) : Prop :=
  (∀ d, byte_regs (regs_of a d)) ∧ (∀ d, byte_ok (fst (sig (disks a d))) ∧ byte_ok (snd (sig (disks a d)))).

Lemma sim_complete_ok w a : complete w a (sim_complete w a).
Proof. destruct w; simpl; eauto. Qed.

Lemma sim_ok_complete w a : sim_ok a → sim_ok (sim_complete w a).
Proof.
  intros [Hr Hs]. destruct w; try (by split).
  - split; [done|]. intros d. simpl. unfold write_sector. destruct (d =? dev); apply Hs.
  - split; [|done]. intros d. destruct (Hs d). by repeat (apply Forall_cons; split; [done|]).
Qed.

Lemma sim_ok_put r v a : sim_ok a → byte_ok v → ∀ d, byte_regs (put_reg r v (regs_of a d)).
Proof.
  intros [Hr _] Hv d. specialize (Hr d). unfold byte_regs, put_reg in *.
  repeat (apply Forall_cons in Hr as [? Hr]). repeat case_match; repeat (apply Forall_cons; split; [done|]); done.
Qed.

Lemma sim_ok_writes r v a : sim_ok a → byte_ok v → sim_ok (writes sim_max a r v).
Proof.
  intros Hok Hv. pose proof (sim_ok_put r v a Hok Hv) as Hp. pose proof Hok as [Hr Hs]. unfold writes.
  destruct (r =? 6); [by destruct (busy a); split|]. destruct (r =? 7); [by split|]. destruct (r =? 0x206); [|by split].
  destruct (Z.testbit v 2); [by split|]. by destruct (ph a); split.
Qed.

Lemma sim_read_ok a r : sim_ok a → 1 ≤ r ≤ 5 ∨ r = 7 ∨ r = 0x206 → 0 ≤ sim_read a r < 256 ∧ reads a r (sim_read a r).
Proof.
  intros [Hr _] Hrr. unfold reads, sim_read. specialize (Hr (selected a)). unfold byte_regs in Hr. rewrite !Forall_cons in Hr. unfold byte_ok in Hr.
  case_decide as Hst.
  - replace ((r =? 7) || (r =? 0x206)) with true by (destruct Hst as [->| ->]; done). unfold sim_status, status_ok.
    destruct (present _); [|by split; [|left]]. destruct (busy a); [done|]. destruct (drq a); done.
  - rewrite (proj2 (Z.eqb_neq r 7)), (proj2 (Z.eqb_neq r 0x206)) by lia. cbn [orb]. split; [|done]. repeat case_match; lia.
Qed.

Lemma sim_io_ok a o :
  sim_ok a → legal 0x1f0 a o → ∃ l a', sim_io o a = Ok (l, a') ∧ sim_ok a' ∧ ata_io sim_max 0x1f0 a o l a'.
Proof.
  intros Hok Hl. destruct o as [p|p v|p n|p data|d]; simpl in *.
  - destruct (sim_read_ok a (p - 0x1f0) Hok Hl) as [Hv Hr]. eexists _, _. split; [done|]. split; [by destruct (_ =? 7)|].
    eexists. split_and!; [done|lia|lia|done|by left].
  - eexists _, _. split; [done|]. split; [apply sim_ok_writes; [done|apply Hl]|]. split; [done|by left].
  - destruct Hl as (_ & _ & data & Hph). rewrite Hph. eexists _, _. by split_and!.
  - destruct Hl as (_ & _ & dev & i & Hph). rewrite Hph. eexists _, _. split; [done|]. split; [done|]. split; [done|]. exists dev, i. split; [done|by left].
  - eexists _, _. split; [done|]. unfold elapse. destruct (ph a) as [|n w| | |]; try (by split_and!).
    destruct (Z.leb_spec (n - d) 0); (split; [|split; [done|]]); [by apply sim_ok_complete|left; apply sim_complete_ok|done|right]. exists (n - d). split; [lia|done].
Qed.

#[export] Program Instance sim_ata : AtaBus ata := {|
  base := 0x1f0; max_busy := sim_max; view a := a; bus_ok := sim_ok; bus_io_ok := sim_io_ok
|}.
Next Obligation. done. Qed.
Next Obligation. done. Qed.

(** ** Witnesses *)

(** A disk of eight sectors that calls itself "DISK", and no device 1. *)
Definition demo_ident : list Z := repeat 0 20 ++ [73; 68; 75; 83] ++ repeat 32 96 ++ [8; 0; 0; 0] ++ repeat 0 388.
Definition demo_disks (d : Z) : disk :=
  if d =? 0 then mk_adisk true (0, 0) demo_ident (repeat (repeat 7 512) 8) else mk_adisk false (0, 0) [] [].
Definition demo_ata : ata := mk_ata demo_disks (λ _, mk_regs 0 0 0 0 0) 0 Idle false.
Definition demo_ide : sys ata := mk_sys (new_channel 0) demo_ata true [].

Lemma demo_at : at_ demo_ide (new_channel 0) demo_ata [].
Proof.
  exists demo_ata. split_and!; [done|done|]. split; intros d; simpl; [by repeat constructor|]. unfold demo_disks. by destruct (d =? 0).
Qed.

Lemma demo_disk_fine : disk_fine (disks demo_ata 0).
Proof. split_and!; [done|apply (bool_decide_unpack _); vm_compute; reflexivity|vm_compute; discriminate]. Qed.

Lemma ide_disk_correct_witness :
  ∃ s1, ide_write 0 3 (repeat 9 512) demo_ide = Ok (tt, s1) ∧ ∃ s2, ide_read 0 3 s1 = Ok (repeat 9 512, s2).
Proof.
  destruct (ide_disk_correct demo_ide (new_channel 0) demo_ata [] 0 3 (repeat 9 512)) as (_ & s1 & a1 & E & _ & _ & _ & s2 & E2).
  - apply demo_at.
  - split_and!; [split|..]; reflexivity.
  - by left.
  - apply demo_disk_fine.
  - vm_compute. split; [discriminate|reflexivity].
  - apply (bool_decide_unpack _). vm_compute. reflexivity.
  - exists s1. split; [exact E|]. exists s2. exact E2.
Defined.

(** The same disk with a partition of type [t] in sectors 1 to 4. *)
Definition demo_table (t : Z) : list Z :=
  repeat 0 446 ++ [0x80; 0; 0; 0; t; 0; 0; 0] ++ le_encode 4 1 ++ le_encode 4 4 ++ repeat 0 48 ++ [0x55; 0xaa].
Definition demo_parted (t d : Z) : disk :=
  if d =? 0 then mk_adisk true (0, 0) demo_ident (demo_table t :: repeat (repeat 7 512) 7) else mk_adisk false (0, 0) [] [].
Definition demo_boot (t : Z) : sys ata :=
  mk_sys (new_channel 0) (mk_ata (demo_parted t) (λ _, mk_regs 0 0 0 0 0) 0 Idle false) true [].

Lemma demo_boot_at t : at_ (demo_boot t) (new_channel 0) (hw (demo_boot t)) [].
Proof.
  eexists. split_and!; [done|done|]. split; intros d; simpl; [by repeat constructor|]. unfold demo_parted. by destruct (d =? 0).
Qed.

Lemma demo_scannable d : usable (demo_parted 0x21 d) = true → scannable (demo_parted 0x21 d).
Proof.
  unfold demo_parted. destruct (d =? 0); [|done]. intros _ _. split_and!.
  - split_and!; [done|apply (bool_decide_unpack _); vm_compute; reflexivity|vm_compute; discriminate].
  - discriminate.
  - intros _. apply (bool_decide_unpack _). vm_compute. reflexivity.
Qed.

Lemma ide_init_correct_witness :
  ∃ s', ide_init (scan_disk true 3) 0 (demo_boot 0x21) = Ok (tt, s') ∧
    summary <$> registered s' = [inl (str "hda", 8, 0); inr (0, Partition.mk_reg BLOCK_FILESYS 1 4 1)].
Proof.
  destruct (ide_init_correct 2 (demo_boot 0x21) (new_channel 0) (hw (demo_boot 0x21)) [] 0) as (s' & c & a' & R' & E & (h & -> & _) & _ & _ & _ & Hsum).
  - apply demo_boot_at.
  - reflexivity.
  - reflexivity.
  - by left.
  - reflexivity.
  - reflexivity.
  - intros d. simpl. unfold demo_parted. destruct (d =? 0); [intros _; vm_compute; reflexivity|discriminate].
  - exact demo_scannable.
  - eexists. split; [exact E|]. cbn [registered app]. rewrite Hsum. vm_compute. reflexivity.
Defined.

(** ** Examples *)

(** A field of twenty characters loses the last of them. *)
Example descramble_loses_char :
  string_at 0 <$> match descramble_ata_string 0 4 [66; 65; 68; 67] with Ok l => Some l | Err _ => None end = Some (str "ABC").
Proof. vm_compute. reflexivity. Qed.

(** The size of a disk of 4 GB that is ignored is given as 0. *)
Example ignored_size_wraps : ignored_size (2 ^ 23) = 0.
Proof. vm_compute. reflexivity. Qed.

(** An interrupt that nobody waits for is counted, because the driver still
    expects one after the first command has been completed. *)
Example spurious_interrupt_counted :
  match ide_read 0 3 demo_ide with
  | Ok (_, s) => match interrupt_handler 46 s with Ok (_, s) => completion_wait (chan s) =? 1 | Err _ => false end
  | Err _ => false
  end = true.
Proof. vm_compute. reflexivity. Qed.

(** With an extended partition on the disk ide_init does not return. *)
Example extended_init_diverges : ide_init (scan_disk true 9) 0 (demo_boot 0x05) = Err OutOfFuel.
Proof. vm_compute. reflexivity. Qed.
