(* ===== verification/IdeFilesys.v ===== *)
(** * The file system on an IDE disk

    The promise of the IDE driver is what the file system asks of a block
    device, so the file system on a partition of an IDE disk that follows the
    ATA protocol implements the abstract file system too. *)

From S2P Require Import Prelude Bytes Bitmap Block Inode InodeSpec Directory DirSpec FilesysRefine FilesysFormat Ide IdeSpec IdeInit.

Section on_ide.
Context {H : Type} `{AB : AtaBus H}.
Variable dev : Z.
Hypothesis dev_ok : dev = 0 ∨ dev = 1.

(** A block device for the whole disk. *)
Definition whole_disk (s : sys H) : block (sys H) := mk_block BLOCK_FILESYS (Z.of_nat (length (ide_sectors dev s))) 0 0 s.

Definition ide_fs (s : sys H) : fs (sys H) := mk_fs (whole_disk s) ∅ [] (mk_bitmap 0 []) Inode.NULL ∅ ∅ 0.

Lemma whole_disk_ok s : ide_ok dev s → block_ok (BD := ide_block_driver dev dev_ok) (whole_disk s).
Proof. intros Hs. split; [exact Hs|simpl; lia|done]. Qed.

(** Formatting an IDE disk gives an empty file system on it. *)
Theorem filesys_on_ide s words :
  let BD := ide_block_driver dev dev_ok in
  ide_ok dev s → wf (mk_bitmap (Z.of_nat (length (ide_sectors dev s))) words) →
  3 + map_sectors (Z.of_nat (length (ide_sectors dev s))) ≤ Z.of_nat (length (ide_sectors dev s)) →
  ∃ f, filesys_init (BD := BD) always (Some words) true (ide_fs s) = Ok (tt, f) ∧ abstracts (BD := BD) f (mk_afs ∅ ∅ ∅).
Proof. intros BD Hs Hw Hl. apply (format_ok (BD := BD)); [done|done|done|by apply whole_disk_ok|done|done]. Qed.
End on_ide.

(** Two bytes written to a file and read back, all the way through the ports of
    the simulated channel. *)
Example file_on_ide :
  let BD := ide_block_driver 0 (or_introl eq_refl) in
  match filesys_init (BD := BD) always (Some [7]) true (ide_fs 0 demo_ide) with
  | Ok (_, f) =>
      match (filesys_create (BD := BD) always (repeat 7 20) (repeat 7 20) [97] 100;;
             fp ← filesys_open (BD := BD) always (repeat 7 20) [97];
             file_write (BD := BD) always fp [104; 105] 2;;
             file_seek fp 1;;
             file_read (BD := BD) always fp 2) f with
      | Ok (bs, _) => bool_decide (bs = [105; 0])
      | Err _ => false
      end
  | Err _ => false
  end = true.
Proof. vm_compute. reflexivity. Qed.
