(* ===== verification/ProcessFile.v ===== *)
(** * Executables in the file system

    The files of [Inode] keep the promise that the program loader relies on:
    for a handle of an open file that is not denied writes and whose inode is
    not removed, filesys/file.c is an [OpenFile].  With it the theorems of
    [ProcessSpec] hold for a program that is loaded from the disk. *)

From S2P Require Import Prelude Bytes Vaddr PageIface Palloc PageBytes Pagedir PagedirSpec AddressSpace FileIface.
From S2P Require Import Process ProcessSpec Block Bitmap Inode InodeSpec InodeTable Directory DirSpec.

Section file.
Context {D : Type} `{BD : BlockDriver D}.
Variable oom : nat → bool.
(** The handle. *)
Variable fp : Z.
Implicit Types s : fs D.

Record handle_ok s (f : file) (i : inode) : Prop := {
  hd_file : files s !! fp = Some f;
  hd_allow : deny_write f = false;
  hd_pos : 0 ≤ f_pos f < 2 ^ 31;
  hd_inode : inodes s !! f_inode f = Some i;
  hd_removed : removed i = false;
  hd_extent : extent_ok (fs_device s) (data i);
  hd_block : block_ok (fs_device s);
  hd_table : table_ok s
}.

Definition handle_contents s : list Z :=
  match f ← files s !! fp; inodes s !! f_inode f with
  | Some i => file_bytes (fs_device s) (data i)
  | None => []
  end.

Definition handle_pos s : Z := match files s !! fp with Some f => f_pos f | None => 0 end.

Lemma handle_contents_ok s f i : handle_ok s f i → handle_contents s = file_bytes (fs_device s) (data i).
Proof. intros [Hf _ _ Hi _ _ _ _]. unfold handle_contents. rewrite Hf. cbn. by rewrite Hi. Qed.

Lemma handle_pos_ok s f i : handle_ok s f i → handle_pos s = f_pos f.
Proof. intros [Hf _ _ _ _ _ _ _]. unfold handle_pos. by rewrite Hf. Qed.

Lemma get_file_ok s f : files s !! fp = Some f → get_file fp s = Ok (f, s).
Proof. intros E. unfold get_file. by rewrite E. Qed.

(** Moving the position. *)
Lemma handle_move s f i p :
  handle_ok s f i → 0 ≤ p < 2 ^ 31 →
  handle_ok (set_files (<[fp := mk_file (f_inode f) p (deny_write f)]> (files s)) s) (mk_file (f_inode f) p (deny_write f)) i.
Proof.
  intros [H1 H2 H3 H4 H5 H6 H7 H8] Hp. split; simpl; try done; [by rewrite lookup_insert_eq|].
  revert H8. by apply table_frame.
Qed.

Lemma handle_seek s f i p :
  handle_ok s f i → 0 ≤ p < 2 ^ 31 →
  ∃ s' f', Inode.file_seek fp p s = Ok (tt, s') ∧ handle_ok s' f' i ∧ handle_contents s' = handle_contents s ∧ handle_pos s' = p.
Proof.
  intros H Hp. pose proof (handle_move s f i p H Hp) as H'. do 2 eexists. split_and!; [|exact H'| |].
  - unfold Inode.file_seek. rewrite (proj2 (Z.leb_le _ _)) by lia. erewrite bind_ok by done.
    erewrite bind_ok by (apply get_file_ok, H). done.
  - by rewrite (handle_contents_ok _ _ _ H'), (handle_contents_ok _ _ _ H).
  - by rewrite (handle_pos_ok _ _ _ H').
Qed.

Lemma handle_read s f i n :
  handle_ok s f i → 0 ≤ n < 2 ^ 31 →
  ∃ k s' f', Inode.file_read oom fp n s = Ok (slice (handle_pos s) k (handle_contents s), s') ∧ 0 ≤ k ≤ n ∧ handle_ok s' f' i ∧
    handle_contents s' = handle_contents s ∧
    handle_pos s' = handle_pos s + Z.of_nat (length (slice (handle_pos s) k (handle_contents s))).
Proof.
  intros H Hn. pose proof (handle_contents_ok _ _ _ H) as Ec. pose proof (handle_pos_ok _ _ _ H) as Ep. rewrite Ec, Ep.
  destruct (inode_read_at_ok oom s (f_inode f) i n (f_pos f)) as (k & b & a & E & Hd & Hk & _); [apply H..|done|apply H|].
  set (bs := slice (f_pos f) k (file_bytes (fs_device s) (data i))) in *.
  assert (0 ≤ k ≤ n) as Hkn by (revert Hk; unfold available; lia).
  assert (f_pos f + Z.of_nat (length bs) < 2 ^ 31) as Hlt.
  { destruct (ex_length _ _ (hd_extent _ _ _ H)). destruct (hd_pos _ _ _ H). unfold bs, slice. rewrite length_take, length_drop.
    pose proof (length_file_bytes (fs_device s) (data i) ltac:(lia)). lia. }
  set (s1 := set_allocs a (set_device b s)).
  assert (handle_ok s1 f i) as H1.
  { destruct H as [H1 H2 H3 H4 H5 H6 H7 H8]. split; simpl; try done.
    - by eapply same_disk_extent.
    - apply Hd.
    - revert H8. apply table_frame; [done..|]. apply (read_write_grow oom (f_inode f) [] n (f_pos f)) in E. exact E. }
  destruct (hd_pos _ _ _ H) as [Hp0 _].
  pose proof (handle_move s1 f i (f_pos f + Z.of_nat (length bs)) H1 ltac:(lia)) as H2.
  exists k. do 2 eexists. split_and!; [|lia|lia|exact H2| |].
  - unfold Inode.file_read. erewrite bind_ok by (apply get_file_ok, H). erewrite bind_ok by exact E.
    erewrite bind_ok by (apply get_file_ok, H1). rewrite s32_small by lia. done.
  - rewrite (handle_contents_ok _ _ _ H2). simpl. eapply same_disk_bytes; [done|apply H].
  - by rewrite (handle_pos_ok _ _ _ H2).
Qed.

Lemma handle_length s f i :
  handle_ok s f i → Inode.file_length fp s = Ok (Z.of_nat (length (handle_contents s)), s).
Proof.
  intros H. rewrite (handle_contents_ok _ _ _ H), length_file_bytes by apply H. unfold Inode.file_length, inode_length.
  erewrite bind_ok by (apply get_file_ok, H). by erewrite bind_ok by (apply get_inode_ok, H).
Qed.

Lemma handle_close s f i : handle_ok s f i → ∃ s', Inode.file_close oom fp s = Ok (tt, s').
Proof.
  intros H. unfold Inode.file_close. destruct (fp =? Inode.NULL); [by exists s|]. unfold file_allow_write.
  pose proof (get_file_ok s f (hd_file _ _ _ H)) as Eg.
  rewrite bind_ok with (a := tt) (s' := s); [|erewrite bind_ok by exact Eg; by rewrite (hd_allow _ _ _ H)].
  erewrite bind_ok by exact Eg.
  destruct (inode_close_ok oom s f i (f_inode f) i) as (s' & E & _); [apply H..| |].
  { intros Hr. by rewrite (hd_removed _ _ _ H) in Hr. }
  erewrite bind_ok by exact E. by eexists.
Qed.

#[export] Program Instance fs_open_file : OpenFile (fs D) := {|
  FileIface.file_read := Inode.file_read oom fp;
  FileIface.file_seek := Inode.file_seek fp;
  FileIface.file_length := Inode.file_length fp;
  FileIface.file_close := Inode.file_close oom fp;
  contents := handle_contents;
  position := handle_pos;
  file_ok s := ∃ f i, handle_ok s f i
|}.
Next Obligation.
  intros s (f & i & H). rewrite (handle_contents_ok _ _ _ H). split; [apply file_bytes_ok; apply H|].
  destruct (ex_length _ _ (hd_extent _ _ _ H)). rewrite length_file_bytes by done. lia.
Qed.
Next Obligation.
  intros s n (f & i & H) Hn. destruct (handle_read s f i n H Hn) as (k & s' & f' & E & Hk & H' & Hc & Hp).
  exists k, s'. split_and!; [exact E|lia|lia|by exists f', i|done|done].
Qed.
Next Obligation.
  intros s p (f & i & H) Hp. destruct (handle_seek s f i p H Hp) as (s' & f' & E & H' & Hc & Hp').
  exists s'. split_and!; [exact E|by exists f', i|done|done].
Qed.
Next Obligation. intros s (f & i & H). by eapply handle_length. Qed.
Next Obligation. intros s (f & i & H). by eapply handle_close. Qed.

(** ** Properties *)

(** C13: loading a program from the disk.  What the program finds in its
    memory is the image of the bytes that the sectors of the inode hold, read
    through the file system and the block device into pages of the page
    allocator and mapped by the page tables. *)
Theorem load_from_disk {M : Type} `{PageAllocator M} `{InitGlobals} (cur : Z) (p : process M (fs D)) f i :
  (∀ (m : M) a, pa_ok m → used_page m a → (a - PHYS_BASE) / 4096 < init_ram_pages) →
  pa_ok (memory (p_vm p)) → used_page (memory (p_vm p)) init_page_dir →
  (∀ k, 0 ≤ k < 768 → word (memory (p_vm p)) (init_page_dir + 4 * k) = Some 0) →
  handle_ok (p_file p) f i → f_pos f = 0 →
  ∃ r p', load cur true p = Ok (r, p') ∧
    match r with
    | Some (eip, esp) => own_space cur (memory (p_vm p)) p' ∧
        let c := file_bytes (fs_device (p_file p)) (data i) in
        eip = e_entry (header c) ∧ esp = PHYS_BASE ∧
        ∀ va, user_va va → view (memory (p_vm p')) (p_pagedir p') va = process_image c (segments c) va
    | None => p_pagedir p' = Vaddr.NULL ∨ own_space cur (memory (p_vm p)) p'
    end.
Proof.
  intros Hram Hm Hu Hz Hh Hpos. destruct (load_run cur Hram p true) as (r & p' & E & Hr).
  { split; [done..| |]; [by exists f, i|]. simpl. by rewrite (handle_pos_ok _ _ _ Hh). }
  exists r, p'. split; [done|]. destruct Hr as [(-> & Hn & _)|(_ & Hos & Hr)]; [by left|].
  destruct r as [[eip esp]|]; [|by right]. destruct Hr as [_ [_ _ _ _ _ Hv He Hs]]. split; [done|].
  simpl in Hv, He. rewrite (handle_contents_ok _ _ _ Hh) in *. done.
Qed.

End file.

(** ** Witnesses

    The executable of [ProcessSpec] in sector 4, its inode in sector 3. *)

Section demo.

#[local] Existing Instance process_globals.

Definition demo_exec_inode : inode := mk_inode 3 1 false 0 (mk_inode_disk 4 88 INODE_MAGIC).
Definition demo_exec_fs : fs (list (list Z)) :=
  mk_fs (mk_block BLOCK_FILESYS 6 0 0 (<[4%nat := demo_elf ++ repeat 0 424]> (repeat (repeat 0 512) 6)))
    {[16 := demo_exec_inode]} [16] (mk_bitmap 6 [0x3f]) 48 {[32 := mk_file 16 0 false]} ∅ 3.

Lemma demo_exec_ok : handle_ok 32 demo_exec_fs (mk_file 16 0 false) demo_exec_inode.
Proof.
  split; try done.
  - split; [apply (bool_decide_unpack _); vm_compute; reflexivity|vm_compute; intuition congruence|done].
  - assert (∀ ip i, inodes demo_exec_fs !! ip = Some i → ip = 16 ∧ i = demo_exec_inode) as Hi.
    { intros ip i. simpl. by intros [-> <-]%lookup_singleton_Some. }
    split.
    + intros ip. simpl. rewrite list_elem_of_singleton, lookup_singleton_is_Some. naive_solver.
    + apply NoDup_singleton.
    + intros ip i [-> ->]%Hi. simpl. lia.
    + intros ip i [-> ->]%Hi. simpl. lia.
    + by intros ip ip' i i' [-> ->]%Hi [-> ->]%Hi.
Qed.

Definition demo_exec : process Palloc.memory (fs (list (list Z))) := mk_process demo_init Vaddr.NULL 0 demo_exec_fs.

Lemma demo_bytes : file_bytes (fs_device demo_exec_fs) (data demo_exec_inode) = demo_elf.
Proof. vm_compute. reflexivity. Qed.

#[local] Existing Instance fs_open_file.
Abbreviation demo_load := (load (OF := fs_open_file always 32) 0xc0100000 true demo_exec).

Lemma demo_exec_loads : demo_loaded demo_load = true.
Proof. vm_compute. reflexivity. Qed.

Lemma load_from_disk_witness :
  ∃ p', demo_load = Ok (Some (0x8048054, PHYS_BASE), p') ∧
    view (memory (p_vm p')) (p_pagedir p') 0x8048056 = Some (0xcd, false).
Proof.
  destruct demo_init_ok as (Hm & Hu & _ & _ & Hz).
  destruct (load_from_disk always 32 0xc0100000 demo_exec (mk_file 16 0 false) demo_exec_inode
    demo_ram Hm Hu Hz demo_exec_ok eq_refl) as (r & p' & E & H).
  assert (demo_loaded (Ok (r, p')) = true) as Hl by (rewrite <-E; exact demo_exec_loads).
  destruct r as [[eip esp]|]; [|discriminate Hl]. apply andb_true_iff in Hl as [->%Z.eqb_eq ->%Z.eqb_eq].
  exists p'. split; [exact E|]. clear E. destruct H as (_ & _ & _ & Hv).
  rewrite Hv by done. change (p_file demo_exec) with demo_exec_fs. rewrite demo_bytes. vm_compute. reflexivity.
Defined.

End demo.
