(* ===== verification/Hash.v ===== *)
(** * Hash tables: lib/kernel/hash.c

    A table is an array of buckets; a bucket is a list of elements, which the
    list operations of list.c maintain ([list_push_front] is consing,
    [list_remove] takes the element out of the list it is on).  Elements are
    addresses, and [hash] and [less] are the functions given to [hash_init].
    Each operation allocates at most once; whether that succeeds is its
    argument [mem]. *)

From S2P Require Import Prelude Bytes.

Definition BEST_ELEMS_PER_BUCKET : Z := 2.
Definition FNV_32_PRIME : Z := 16777619.
Definition FNV_32_BASIS : Z := 2166136261.

(** ** Hash functions *)

Definition fnv_step (hash b : Z) : Z := Z.lxor (u32 (hash * FNV_32_PRIME)) b.

Definition hash_bytes (buf : list Z) : Z := foldl fnv_step FNV_32_BASIS buf.

(** [s] is the memory from the start of the string on. *)
Definition hash_string (s : list Z) : result Z :=
  loop (S (length s)) (λ '(i, hash),
    match s !! i with
    | None => Err BadAccess
    | Some c => if c =? 0 then Ok (inr hash) else Ok (inl (S i, fnv_step hash c))
    end) (0%nat, FNV_32_BASIS).

Definition hash_int (i : Z) : Z := hash_bytes (le_encode 4 (u32 i)).

(** ** The number of buckets *)

Definition turn_off_least_1bit (x : Z) : Z := Z.land x (u32 (x - 1)).
Definition is_power_of_2 (x : Z) : bool := negb (x =? 0) && (turn_off_least_1bit x =? 0).

Definition new_bucket_cnt (elem_cnt : Z) : result Z :=
  let n := elem_cnt / BEST_ELEMS_PER_BUCKET in
  let n := if n <? 4 then 4 else n in
  loop (S (Z.to_nat n)) (λ n,
    if negb (is_power_of_2 n) then Ok (inl (turn_off_least_1bit n)) else Ok (inr n)) n.

(** ** Tables *)

Record hash := mk_hash { elem_cnt : Z; bucket_cnt : Z; buckets : list (list Z) }.

Section hash.
Variable hash_func : Z → Z.
Variable less : Z → Z → bool.

Definition find_bucket (h : hash) (e : Z) : Z := Z.land (hash_func e) (bucket_cnt h - 1).

(** Reading and changing one bucket of the array. *)
Definition get_bucket (bs : list (list Z)) (i : Z) : result (list Z) :=
  match bs !! Z.to_nat i with Some b => Ok b | None => Err BadAccess end.
Definition upd_bucket (bs : list (list Z)) (i : Z) (f : list Z → list Z) : result (list (list Z)) :=
  b ← get_bucket bs i; Ok (<[Z.to_nat i := f b]> bs).

Definition equal (a b : Z) : bool := negb (less a b) && negb (less b a).

Fixpoint find_elem (bucket : list Z) (e : Z) : option Z :=
  match bucket with
  | [] => None
  | hi :: r => if negb (less hi e) && negb (less e hi) then Some hi else find_elem r e
  end.

Definition insert_elem (h : hash) (bucket e : Z) : result hash :=
  bs ← upd_bucket (buckets h) bucket (cons e);
  Ok (mk_hash (u32 (elem_cnt h + 1)) (bucket_cnt h) bs).

(** [list_remove] takes the element out of the only list it is on. *)
Definition remove_elem (h : hash) (e : Z) : hash :=
  mk_hash (u32 (elem_cnt h - 1)) (bucket_cnt h) (filter (λ x, x ≠ e) <$> buckets h).

(** The elements of the old buckets go to the front of the new ones, one after
    the other. *)
Fixpoint move_elems (h : hash) (es : list Z) : result hash :=
  match es with
  | [] => Ok h
  | e :: r =>
      bs ← upd_bucket (buckets h) (find_bucket h e) (cons e);
      move_elems (mk_hash (elem_cnt h) (bucket_cnt h) bs) r
  end.

Definition rehash (mem : bool) (h : hash) : result hash :=
  n ← new_bucket_cnt (elem_cnt h);
  if n =? bucket_cnt h then Ok h
  else if negb mem then Ok h
  else move_elems (mk_hash (elem_cnt h) n (replicate (Z.to_nat n) [])) (concat (buckets h)).

(** Returns the elements the destructor is called for, in order. *)
Definition hash_clear (destructor : bool) (h : hash) : list Z * hash :=
  (if destructor then concat (buckets h) else [],
   mk_hash 0 (bucket_cnt h) (replicate (Z.to_nat (bucket_cnt h)) [])).

Definition hash_init (mem : bool) : option hash :=
  if mem then Some (snd (hash_clear false (mk_hash 0 4 []))) else None.

Definition hash_destroy (destructor : bool) (h : hash) : list Z :=
  if destructor then fst (hash_clear true h) else [].

Definition hash_insert (mem : bool) (h : hash) (new : Z) : result (option Z * hash) :=
  let bucket := find_bucket h new in
  b ← get_bucket (buckets h) bucket;
  let old := find_elem b new in
  h ← match old with None => insert_elem h bucket new | Some _ => Ok h end;
  h ← rehash mem h;
  Ok (old, h).

Definition hash_replace (mem : bool) (h : hash) (new : Z) : result (option Z * hash) :=
  let bucket := find_bucket h new in
  b ← get_bucket (buckets h) bucket;
  let old := find_elem b new in
  let h := match old with Some e => remove_elem h e | None => h end in
  h ← insert_elem h bucket new;
  h ← rehash mem h;
  Ok (old, h).

Definition hash_find (h : hash) (e : Z) : result (option Z) :=
  b ← get_bucket (buckets h) (find_bucket h e); Ok (find_elem b e).

Definition hash_delete (mem : bool) (h : hash) (e : Z) : result (option Z * hash) :=
  b ← get_bucket (buckets h) (find_bucket h e);
  match find_elem b e with
  | Some found => h ← rehash mem (remove_elem h found); Ok (Some found, h)
  | None => Ok (None, h)
  end.

(** The elements the action is called for, in order. *)
Definition hash_apply (h : hash) : list Z := concat (buckets h).

Definition hash_size (h : hash) : Z := elem_cnt h.
Definition hash_empty (h : hash) : bool := elem_cnt h =? 0.

(** ** Iteration *)

(** The iterator is at an element of bucket [it_bucket], after which the
    elements [it_next] come in the bucket; at first it is at the list head. *)
Record hash_iterator := mk_iterator { it_bucket : Z; it_elem : option Z; it_next : list Z }.

Definition hash_first (h : hash) : result hash_iterator :=
  b ← get_bucket (buckets h) 0; Ok (mk_iterator 0 None b).

Definition hash_next (h : hash) (i : hash_iterator) : result hash_iterator :=
  loop (S (S (length (buckets h)))) (λ '(b, rest),
    match rest with
    | e :: r => Ok (inr (mk_iterator b (Some e) r))
    | [] =>
        if bucket_cnt h <=? b + 1 then Ok (inr (mk_iterator (b + 1) None []))
        else rest ← get_bucket (buckets h) (b + 1); Ok (inl (b + 1, rest))
    end) (it_bucket i, it_next i).

Definition hash_cur (i : hash_iterator) : option Z := it_elem i.

End hash.

(** ** The number of buckets is a power of two *)

Lemma testbit_ge x k : 0 ≤ x → 0 ≤ k → Z.testbit x k = true → 2 ^ k ≤ x.
Proof.
  intros Hx Hk Hb. destruct (Z.le_gt_cases (2 ^ k) x) as [|Hlt]; [done|].
  rewrite Z.testbit_true, Z.div_small in Hb by lia. done.
Qed.

Lemma top_bit x k : 0 ≤ k → 2 ^ k ≤ x < 2 ^ (k + 1) → Z.testbit x k = true.
Proof.
  intros Hk Hx. rewrite Z.pow_add_r, Z.pow_1_r in Hx by lia. apply Z.testbit_true; [lia|].
  assert (x / 2 ^ k = 1) as ->; [|done]. symmetry. apply (Z.div_unique_pos _ _ _ (x - 2 ^ k)); lia.
Qed.

Lemma land_le_r a b : 0 ≤ b → Z.land a b ≤ b.
Proof.
  intros Hb. apply Z.sub_nonneg. rewrite Z.sub_nocarry_ldiff; [apply Z.ldiff_nonneg; lia|].
  apply Z.bits_inj'. intros n Hn. rewrite Z.ldiff_spec, Z.land_spec, Z.bits_0. by destruct (Z.testbit a n), (Z.testbit b n).
Qed.

(** Turning off the lowest bit of a number with more than one bit keeps its
    highest bit. *)
Lemma turn_off_bounds x k :
  0 ≤ k → 2 ^ k < x < 2 ^ (k + 1) → x < 2 ^ 32 → 2 ^ k ≤ turn_off_least_1bit x < x.
Proof.
  intros Hk Hx H32. pose proof (Z.pow_pos_nonneg 2 k ltac:(lia) Hk).
  unfold turn_off_least_1bit. rewrite u32_small by lia. split.
  - apply testbit_ge; [apply Z.land_nonneg; lia|done|]. rewrite Z.land_spec, !top_bit by lia. done.
  - pose proof (land_le_r x (x - 1) ltac:(lia)). lia.
Qed.

Lemma pow2_bucket k : 0 ≤ k < 32 → is_power_of_2 (2 ^ k) = true.
Proof.
  intros Hk. assert (2 ^ k < 2 ^ 32) by (apply Z.pow_lt_mono_r; lia).
  pose proof (Z.pow_pos_nonneg 2 k ltac:(lia) ltac:(lia)).
  unfold is_power_of_2, turn_off_least_1bit. rewrite u32_small by lia.
  rewrite <-Z.ones_equiv || rewrite Z.sub_1_r, <-Z.ones_equiv. rewrite Z.land_ones by lia.
  rewrite Z.mod_same by lia. destruct (Z.eqb_spec (2 ^ k) 0); [lia|done].
Qed.

(** The largest power of two that is at most [n]. *)
Lemma new_bucket_cnt_ok n :
  0 ≤ n < 2 ^ 32 →
  ∃ k, new_bucket_cnt n = Ok (2 ^ k) ∧ 2 ≤ k < 32 ∧ 2 ^ k ≤ Z.max 4 (n / 2) < 2 ^ (k + 1).
Proof.
  intros Hn. unfold new_bucket_cnt, BEST_ELEMS_PER_BUCKET.
  assert ((if n / 2 <? 4 then 4 else n / 2) = Z.max 4 (n / 2)) as -> by (destruct (Z.ltb_spec (n / 2) 4); lia).
  set (m := Z.max 4 (n / 2)). assert (4 ≤ m < 2 ^ 31) as Hm by (unfold m; dlia).
  destruct (Z.log2_spec m) as [L1 L2]; [lia|]. set (k := Z.log2 m) in *. replace (Z.succ k) with (k + 1) in L2 by lia.
  assert (2 ≤ k) by (apply (Z.log2_le_mono 4 m); lia).
  assert (k < 31) by (apply Z.log2_lt_pow2; lia).
  destruct (loop_rule (λ x p, Z.of_nat x = p ∧ 2 ^ k ≤ p ≤ m) (λ p, p = 2 ^ k)
    (λ n, if negb (is_power_of_2 n) then Ok (inl (turn_off_least_1bit n)) else Ok (inr n)))
    with (fuel := S (Z.to_nat m)) (n := Z.to_nat m) (l := m) as (p & E & ->).
  - intros x p [Hx Hp]. destruct (decide (p = 2 ^ k)) as [->|Hne].
    + rewrite pow2_bucket by lia. by eexists.
    + destruct (turn_off_bounds p k) as [T1 T2]; [lia..|].
      assert (is_power_of_2 p = false) as ->.
      { unfold is_power_of_2. rewrite (proj2 (Z.eqb_neq (turn_off_least_1bit p) 0)) by lia. apply andb_false_r. }
      eexists. split; [done|]. exists (Z.to_nat (turn_off_least_1bit p)). split; lia.
  - lia.
  - lia.
  - exists k. split_and!; [done|lia..].
Qed.

(** ** Tables as finite sets *)

Definition elems (h : hash) : list Z := concat (buckets h).

Lemma concat_insert (bs : list (list Z)) i b e :
  bs !! i = Some b → concat (<[i := e :: b]> bs) ≡ₚ e :: concat bs.
Proof.
  intros Hi. pose proof (lookup_lt_Some _ _ _ Hi). rewrite insert_take_drop by done.
  rewrite <-(take_drop_middle _ _ _ Hi) at 3. rewrite !concat_app. simpl. symmetry. apply Permutation_middle.
Qed.

Lemma concat_filter (bs : list (list Z)) e :
  concat (filter (λ x, x ≠ e) <$> bs) = filter (λ x, x ≠ e) (concat bs).
Proof. induction bs as [|b bs IH]; [done|]. rewrite fmap_cons. cbn [concat]. by rewrite IH, filter_app. Qed.

Lemma elem_of_concat_lookup (bs : list (list Z)) e :
  e ∈ concat bs ↔ ∃ i b, bs !! i = Some b ∧ e ∈ b.
Proof.
  rewrite list_elem_of_In, in_concat. split.
  - intros (b & Hb%list_elem_of_In & He%list_elem_of_In). apply list_elem_of_lookup in Hb as [i Hi]. eauto.
  - intros (i & b & Hi & He). exists b. split; apply list_elem_of_In; [by eapply list_elem_of_lookup_2|done].
Qed.

Section table.
Variable hash_func : Z → Z.
Variable less : Z → Z → bool.
Implicit Types l : list Z.

Abbreviation find_bucket := (find_bucket hash_func).
Abbreviation find_elem := (find_elem less).
Abbreviation equal := (equal less).

(** The array of buckets with every element in its place. *)
Record placed (h : hash) : Prop := {
  pl_pow : ∃ k, 2 ≤ k < 32 ∧ bucket_cnt h = 2 ^ k;
  pl_len : Z.of_nat (length (buckets h)) = bucket_cnt h;
  pl_in i b e : buckets h !! i = Some b → e ∈ b → find_bucket h e = Z.of_nat i
}.

Record hash_ok (h : hash) : Prop := {
  ho_placed : placed h;
  ho_cnt : elem_cnt h = Z.of_nat (length (elems h));
  ho_max : elem_cnt h < 2 ^ 32;
  ho_nodup : NoDup (elems h);
  ho_distinct x y : x ∈ elems h → y ∈ elems h → equal x y = true → x = y
}.

Lemma find_bucket_range h e : placed h → 0 ≤ find_bucket h e < bucket_cnt h.
Proof.
  intros [(k & Hk & E) _ _]. unfold Hash.find_bucket. rewrite E, Z.sub_1_r, <-Z.ones_equiv, Z.land_ones by lia.
  apply Z.mod_pos_bound. lia.
Qed.

Lemma get_bucket_ok h e :
  placed h → ∃ b, get_bucket (buckets h) (find_bucket h e) = Ok b ∧ buckets h !! Z.to_nat (find_bucket h e) = Some b.
Proof.
  intros Hp. pose proof (find_bucket_range h e Hp). pose proof (pl_len _ Hp).
  destruct (lookup_lt_is_Some_2 (buckets h) (Z.to_nat (find_bucket h e))) as [b Hb]; [lia|].
  exists b. unfold get_bucket. by rewrite Hb.
Qed.

(** Putting an element at the front of its bucket. *)
Lemma push_ok h e :
  placed h → ∃ bs, upd_bucket (buckets h) (find_bucket h e) (cons e) = Ok bs ∧
    (∀ n, placed (mk_hash n (bucket_cnt h) bs)) ∧ concat bs ≡ₚ e :: concat (buckets h).
Proof.
  intros Hp. destruct (get_bucket_ok h e Hp) as (b & E & Hb). pose proof (find_bucket_range h e Hp) as Hr.
  unfold upd_bucket. rewrite E. eexists. split; [done|]. split; [|by apply concat_insert].
  destruct Hp as [Hk Hl Hin]. intros n. split; simpl; [done|by rewrite length_insert|].
  intros i b' x Hi Hx. apply list_lookup_insert_Some in Hi as [(<- & <- & _)|[_ Hi]]; [|by eapply Hin].
  rewrite Z2Nat.id by lia. apply elem_of_cons in Hx as [->|Hx]; [done|].
  change (find_bucket h x = find_bucket h e). rewrite (Hin _ _ _ Hb Hx). lia.
Qed.

Lemma move_elems_ok es h :
  placed h → ∃ h', move_elems hash_func h es = Ok h' ∧ placed h' ∧ elem_cnt h' = elem_cnt h ∧
    bucket_cnt h' = bucket_cnt h ∧ elems h' ≡ₚ es ++ elems h.
Proof.
  revert h. induction es as [|e es IH]; intros h Hp; simpl; [by exists h|].
  destruct (push_ok h e Hp) as (bs & E & Hbs & Hc). rewrite E. simpl.
  destruct (IH (mk_hash (elem_cnt h) (bucket_cnt h) bs) (Hbs _)) as (h' & E' & Hp' & Hn & Hb & Hel).
  exists h'. split_and!; try done. rewrite Hel. unfold elems. simpl. rewrite Hc. by rewrite <-Permutation_middle.
Qed.

Lemma concat_replicate_nil n : concat (replicate n (@nil Z)) = [].
Proof. by induction n. Qed.

Lemma empty_placed n k : 2 ≤ k < 32 → placed (mk_hash n (2 ^ k) (replicate (Z.to_nat (2 ^ k)) [])).
Proof.
  intros Hk. split; simpl; [by exists k|rewrite length_replicate; lia|].
  intros i b e [-> _]%lookup_replicate He. by apply elem_of_nil in He.
Qed.

(** Whether or not there is memory for the new buckets, [rehash] keeps the
    elements and their places. *)
Lemma rehash_ok mem h :
  placed h → 0 ≤ elem_cnt h < 2 ^ 32 →
  ∃ h', rehash hash_func mem h = Ok h' ∧ placed h' ∧ elem_cnt h' = elem_cnt h ∧ elems h' ≡ₚ elems h ∧
    (mem = true → ∃ k, bucket_cnt h' = 2 ^ k ∧ 2 ^ k ≤ Z.max 4 (elem_cnt h / 2) < 2 ^ (k + 1)).
Proof.
  intros Hp Hn. unfold rehash. destruct (new_bucket_cnt_ok (elem_cnt h) Hn) as (k & E & Hk & Hb). rewrite E. simpl.
  destruct (Z.eqb_spec (2 ^ k) (bucket_cnt h)) as [Eb|Nb]; [exists h; split_and!; try done; intros _; by exists k|].
  destruct mem; simpl; [|by exists h].
  destruct (move_elems_ok (concat (buckets h)) (mk_hash (elem_cnt h) (2 ^ k) (replicate (Z.to_nat (2 ^ k)) [])))
    as (h' & E' & Hp' & Hn' & Hb' & Hel); [by apply empty_placed|].
  exists h'. split_and!; try done.
  - rewrite Hel. unfold elems. simpl. by rewrite concat_replicate_nil, app_nil_r.
  - intros _. by exists k.
Qed.

(** ** The operations *)

Hypothesis less_irrefl : ∀ x, less x x = false.
Hypothesis equal_trans : ∀ x y z, equal x y = true → equal y z = true → equal x z = true.
Hypothesis hash_equal : ∀ x y, equal x y = true → hash_func x = hash_func y.

Lemma equal_refl x : equal x x = true.
Proof. unfold Hash.equal. by rewrite less_irrefl. Qed.

Lemma equal_sym x y : equal x y = true → equal y x = true.
Proof. unfold Hash.equal. by rewrite andb_comm. Qed.

Lemma find_elem_spec b e :
  match find_elem b e with
  | Some x => x ∈ b ∧ equal x e = true
  | None => ∀ x, x ∈ b → equal x e = false
  end.
Proof.
  induction b as [|x b IH]; simpl; [by intros x ?%elem_of_nil|].
  change (negb (less x e) && negb (less e x)) with (equal x e). destruct (equal x e) eqn:E; [split; [by left|done]|].
  destruct (find_elem b e); [destruct IH; split; [by right|done]|].
  intros y [->|Hy]%elem_of_cons; [done|by apply IH].
Qed.

Lemma find_ok h e :
  placed h → ∃ b, get_bucket (buckets h) (find_bucket h e) = Ok b ∧
    match find_elem b e with
    | Some x => x ∈ elems h ∧ equal x e = true
    | None => ∀ x, x ∈ elems h → equal x e = false
    end.
Proof.
  intros Hp. destruct (get_bucket_ok h e Hp) as (b & E & Hb). exists b. split; [done|].
  pose proof (find_elem_spec b e) as Hf. destruct (find_elem b e) as [x|].
  - destruct Hf. split; [|done]. apply elem_of_concat_lookup. eauto.
  - intros x (i & b' & Hi & Hx)%elem_of_concat_lookup. destruct (equal x e) eqn:Ex; [|done].
    pose proof (pl_in _ Hp _ _ _ Hi Hx) as Hpl. assert (find_bucket h x = find_bucket h e) as Hh.
    { unfold Hash.find_bucket. by rewrite (hash_equal _ _ Ex). }
    rewrite <-Hh, Hpl, Nat2Z.id in Hb. assert (b' = b) as -> by congruence. rewrite <-Ex. by apply Hf.
Qed.

Lemma remove_placed h e n : placed h → placed (mk_hash n (bucket_cnt h) (filter (λ x, x ≠ e) <$> buckets h)).
Proof.
  intros [Hk Hl Hin]. split; simpl; [done|by rewrite length_fmap|].
  intros i b x Hi Hx. rewrite list_lookup_fmap in Hi. destruct (buckets h !! i) as [b'|] eqn:Eb; [|done].
  simplify_eq/=. apply list_elem_of_filter in Hx as [_ Hx]. by eapply Hin.
Qed.

Definition contents (h : hash) : gset Z := list_to_set (elems h).

Lemma elem_of_contents h x : x ∈ contents h ↔ x ∈ elems h.
Proof. unfold contents. by rewrite elem_of_list_to_set. Qed.

Lemma size_contents h : hash_ok h → Z.of_nat (size (contents h)) = hash_size h.
Proof. intros Hh. unfold contents. rewrite size_list_to_set by apply Hh. symmetry. apply Hh. Qed.

(** An intermediate state: the table with the elements [l]. *)
Definition holds (h : hash) (l : list Z) : Prop :=
  placed h ∧ elems h ≡ₚ l ∧ elem_cnt h = Z.of_nat (length l) ∧ Z.of_nat (length l) < 2 ^ 32.

Lemma hash_ok_holds h : hash_ok h → holds h (elems h).
Proof. intros [H1 H2 H3 _ _]. split_and!; try done. lia. Qed.

Lemma holds_ok h l :
  holds h l → NoDup l → (∀ x y, x ∈ l → y ∈ l → equal x y = true → x = y) →
  hash_ok h ∧ contents h = list_to_set l.
Proof.
  intros (H1 & H2 & H3 & H4) Hn Hd. split; [|unfold contents; by rewrite H2].
  split; [done|by rewrite H2|lia|by rewrite H2|]. intros x y. rewrite H2. apply Hd.
Qed.

Lemma insert_holds h l e :
  holds h l → Z.of_nat (length l) < 2 ^ 32 - 1 →
  ∃ h', insert_elem h (find_bucket h e) e = Ok h' ∧ holds h' (e :: l).
Proof.
  intros (H1 & H2 & H3 & H4) Hl. destruct (push_ok h e H1) as (bs & E & Hp & Hc).
  unfold insert_elem. rewrite E. eexists. split; [done|]. rewrite u32_small by lia.
  split_and!; [apply Hp| |simpl; lia|simpl; lia]. unfold elems. simpl. rewrite Hc. by apply perm_skip.
Qed.

Lemma remove_holds h l e :
  holds h l → NoDup l → e ∈ l → holds (remove_elem h e) (filter (λ x, x ≠ e) l) ∧
    Z.of_nat (length (filter (λ x, x ≠ e) l)) = Z.of_nat (length l) - 1.
Proof.
  intros (H1 & H2 & H3 & H4) Hn He.
  assert (length l = S (length (filter (λ x, x ≠ e) l))) as Hlen.
  { by rewrite (filter_ne_perm e l) at 1. }
  split; [|lia]. unfold remove_elem. split_and!; [by apply remove_placed| |simpl; rewrite u32_small by lia; lia|lia].
  unfold elems. simpl. rewrite concat_filter. by apply filter_Permutation.
Qed.

Lemma rehash_holds mem h l :
  holds h l → ∃ h', rehash hash_func mem h = Ok h' ∧ holds h' l ∧
    (mem = true → ∃ k, bucket_cnt h' = 2 ^ k ∧ 2 ^ k ≤ Z.max 4 (hash_size h' / 2) < 2 ^ (k + 1)).
Proof.
  intros (H1 & H2 & H3 & H4). destruct (rehash_ok mem h H1) as (h' & E & Hp & Hn & Hel & Hk); [lia|].
  exists h'. split_and!; [done| |unfold hash_size; by rewrite Hn]. split_and!; [done|by rewrite Hel|by rewrite Hn|done].
Qed.

(** The operations on a table, and what they mean for its set of elements. *)
Inductive op := Find (e : Z) | Insert (e : Z) | Replace (e : Z) | Delete (e : Z).

Definition run (mem : bool) (o : op) (h : hash) : result (option Z * hash) :=
  match o with
  | Find e => r ← hash_find hash_func less h e; Ok (r, h)
  | Insert e => hash_insert hash_func less mem h e
  | Replace e => hash_replace hash_func less mem h e
  | Delete e => hash_delete hash_func less mem h e
  end.

Definition key (o : op) : Z := match o with Find e | Insert e | Replace e | Delete e => e end.

(** The element that is returned: the one equal to the key, if there is one. *)
Definition returns (C : gset Z) (e : Z) (r : option Z) : Prop :=
  match r with
  | Some x => x ∈ C ∧ equal x e = true
  | None => ∀ x, x ∈ C → equal x e = false
  end.

(** The set of elements after the operation. *)
Definition effect (o : op) (C : gset Z) (r : option Z) : gset Z :=
  match o, r with
  | Insert e, None | Replace e, None => {[e]} ∪ C
  | Replace e, Some x => {[e]} ∪ (C ∖ {[x]})
  | Delete _, Some x => C ∖ {[x]}
  | _, _ => C
  end.

(** An element that is inserted is not in the table yet. *)
Definition permitted (o : op) (C : gset Z) : Prop :=
  match o with Insert e | Replace e => e ∉ C | _ => True end.

Lemma filter_set (x : Z) l : (list_to_set (filter (λ y, y ≠ x) l) : gset Z) = list_to_set l ∖ {[x]}.
Proof. apply set_eq. intros y. rewrite elem_of_list_to_set, list_elem_of_filter. set_solver. Qed.

(** A new element that is equal to none of the others may join. *)
Lemma cons_distinct e l :
  NoDup l → (∀ x y, x ∈ l → y ∈ l → equal x y = true → x = y) → e ∉ l → (∀ x, x ∈ l → equal x e = false) →
  NoDup (e :: l) ∧ ∀ x y, x ∈ e :: l → y ∈ e :: l → equal x y = true → x = y.
Proof.
  intros Hn Hd He Hne. split; [by constructor|].
  intros x y [->|Hx]%elem_of_cons [->|Hy]%elem_of_cons Hxy; [done| | |by apply Hd].
  - apply equal_sym in Hxy. by rewrite Hne in Hxy.
  - by rewrite Hne in Hxy.
Qed.

Lemma filter_distinct (x : Z) l :
  NoDup l → (∀ x y, x ∈ l → y ∈ l → equal x y = true → x = y) →
  NoDup (filter (λ y, y ≠ x) l) ∧
  ∀ y z, y ∈ filter (λ y, y ≠ x) l → z ∈ filter (λ y, y ≠ x) l → equal y z = true → y = z.
Proof.
  intros Hn Hd. split; [by apply NoDup_filter|].
  intros y z [_ Hy]%list_elem_of_filter [_ Hz]%list_elem_of_filter. by apply Hd.
Qed.

(** After taking out the element equal to [e], no element is equal to [e]. *)
Lemma filter_none e x l :
  (∀ x y, x ∈ l → y ∈ l → equal x y = true → x = y) → x ∈ l → equal x e = true →
  ∀ y, y ∈ filter (λ y, y ≠ x) l → equal y e = false.
Proof.
  intros Hd Hx Ex y [Hne Hy]%list_elem_of_filter. destruct (equal y e) eqn:Ey; [|done].
  destruct Hne. apply Hd; [done..|]. eapply equal_trans; [done|by apply equal_sym].
Qed.

(** Inserting into a table and adapting its size. *)
Lemma insert_rehash mem h l e :
  holds h l → NoDup l → (∀ x y, x ∈ l → y ∈ l → equal x y = true → x = y) →
  e ∉ l → (∀ x, x ∈ l → equal x e = false) → Z.of_nat (length l) < 2 ^ 32 - 1 →
  ∃ h', (h ← insert_elem h (find_bucket h e) e; rehash hash_func mem h) = Ok h' ∧ hash_ok h' ∧
    contents h' = {[e]} ∪ list_to_set l.
Proof.
  intros Hh Hn Hd He Hne Hl. destruct (insert_holds h l e Hh Hl) as (h1 & E1 & H1). rewrite E1. simpl.
  destruct (rehash_holds mem h1 (e :: l) H1) as (h2 & E2 & H2 & _). exists h2. split; [done|].
  destruct (cons_distinct e l) as [Hn' Hd']; [done..|]. by apply (holds_ok h2 (e :: l)).
Qed.

Lemma remove_rehash mem h l x :
  holds h l → NoDup l → (∀ x y, x ∈ l → y ∈ l → equal x y = true → x = y) → x ∈ l →
  ∃ h', rehash hash_func mem (remove_elem h x) = Ok h' ∧ hash_ok h' ∧ contents h' = list_to_set l ∖ {[x]}.
Proof.
  intros Hh Hn Hd Hx. destruct (remove_holds h l x Hh Hn Hx) as [H1 _].
  destruct (rehash_holds mem _ _ H1) as (h2 & E2 & H2 & _). exists h2. split; [done|].
  rewrite <-filter_set. destruct (filter_distinct x l Hn Hd). by apply holds_ok.
Qed.

Lemma run_ok mem o h :
  hash_ok h → permitted o (contents h) → hash_size h < 2 ^ 32 - 1 →
  ∃ r h', run mem o h = Ok (r, h') ∧ hash_ok h' ∧ returns (contents h) (key o) r ∧ contents h' = effect o (contents h) r.
Proof.
  intros Hh Hp Hsz. pose proof Hh as [Hpl Hcnt _ Hn Hd]. pose proof (hash_ok_holds _ Hh) as Hl.
  destruct (find_ok h (key o) Hpl) as (b & Eb & Hf). unfold hash_size in Hsz.
  assert (returns (contents h) (key o) (find_elem b (key o))) as Hr.
  { unfold returns. destruct (find_elem b (key o)); [by rewrite elem_of_contents|]. intros x. rewrite elem_of_contents. apply Hf. }
  destruct o as [e|e|e|e]; simpl in *; unfold hash_find, hash_insert, hash_replace, hash_delete;
    rewrite (result_bind_ok _ _ _ Eb); destruct (find_elem b e) as [x|] eqn:Ef.
  - by exists (Some x), h.
  - by exists None, h.
  - destruct (rehash_holds mem h _ Hl) as (h2 & E2 & H2 & _). exists (Some x), h2.
    split_and!; [cbn [mbind result_bind]; by rewrite E2|by apply (holds_ok _ _ H2 Hn Hd)|apply Hr..|by apply (holds_ok _ _ H2 Hn Hd)].
  - destruct (insert_rehash mem h _ e Hl) as (h2 & E2 & H2 & Hc); [done..|by rewrite <-elem_of_contents|done|lia|].
    exists None, h2. split_and!; [|done|done|done]. unfold mbind, result_bind in *. destruct (insert_elem _ _ _); [|done]. by rewrite E2.
  - destruct Hf as [Hx Ex]. destruct (remove_holds h _ x Hl Hn Hx) as [H1 Hlen]. destruct (filter_distinct x _ Hn Hd) as [Hn1 Hd1].
    rewrite elem_of_contents in Hp.
    destruct (insert_rehash mem _ _ e H1) as (h2 & E2 & H2 & Hc); [done|done|by intros [_ ?]%list_elem_of_filter| |lia|].
    { by apply filter_none. }
    rewrite filter_set in Hc. exists (Some x), h2. split_and!; [|done|done..|done].
    unfold mbind, result_bind in *. change (find_bucket (remove_elem h x) e) with (find_bucket h e) in E2.
    destruct (insert_elem _ _ _); [|done]. by rewrite E2.
  - destruct (insert_rehash mem h _ e Hl) as (h2 & E2 & H2 & Hc); [done..|by rewrite <-elem_of_contents|done|lia|].
    exists None, h2. split_and!; [|done|done|done]. unfold mbind, result_bind in *. destruct (insert_elem _ _ _); [|done]. by rewrite E2.
  - destruct Hf as [Hx Ex]. destruct (remove_rehash mem h _ x Hl Hn Hd Hx) as (h2 & E2 & H2 & Hc).
    exists (Some x), h2. rewrite (result_bind_ok _ _ _ E2). done.
  - by exists None, h.
Qed.

Lemma init_ok : ∃ h, hash_init true = Some h ∧ hash_ok h ∧ contents h = ∅.
Proof.
  exists (mk_hash 0 4 (replicate 4 [])). split; [done|]. assert (elems (mk_hash 0 4 (replicate 4 [])) = []) as E by done.
  split; [|done]. split; rewrite ?E; try done; [by apply (empty_placed 0 2)|by constructor|by intros x y ?%elem_of_nil].
Qed.

(** ** Iteration *)

(** The elements an iterator has yet to visit. *)
Definition remaining (h : hash) (i : hash_iterator) : list Z :=
  it_next i ++ concat (drop (S (Z.to_nat (it_bucket i))) (buckets h)).

Definition valid_iter (h : hash) (i : hash_iterator) : Prop := 0 ≤ it_bucket i < bucket_cnt h.

Lemma hash_next_ok h i :
  placed h → valid_iter h i →
  ∃ i', hash_next h i = Ok i' ∧
    match remaining h i with
    | e :: r => hash_cur i' = Some e ∧ valid_iter h i' ∧ remaining h i' = r
    | [] => hash_cur i' = None
    end.
Proof.
  intros Hp Hv. pose proof (pl_len _ Hp) as Hlen. unfold hash_next, valid_iter in *.
  destruct (loop_rule (λ n '(b, rest), Z.of_nat n = bucket_cnt h - b ∧ 0 ≤ b < bucket_cnt h ∧
      remaining h i = rest ++ concat (drop (S (Z.to_nat b)) (buckets h)))
    (λ i', match remaining h i with
           | e :: r => hash_cur i' = Some e ∧ valid_iter h i' ∧ remaining h i' = r
           | [] => hash_cur i' = None
           end)
    (λ '(b, rest), match rest with
      | e :: r => Ok (inr (mk_iterator b (Some e) r))
      | [] =>
          if bucket_cnt h <=? b + 1 then Ok (inr (mk_iterator (b + 1) None []))
          else rest ← get_bucket (buckets h) (b + 1); Ok (inl (b + 1, rest))
      end)) with (fuel := S (S (length (buckets h)))) (n := Z.to_nat (bucket_cnt h - it_bucket i)) (l := (it_bucket i, it_next i))
    as (i' & E & H).
  - intros n [b rest] (Hn & Hb & Hr). destruct rest as [|e r].
    + destruct (Z.leb_spec (bucket_cnt h) (b + 1)) as [Hle|Hgt].
      * eexists. split; [done|]. cbv beta iota. rewrite Hr, drop_ge by lia. done.
      * destruct (lookup_lt_is_Some_2 (buckets h) (Z.to_nat (b + 1))) as [b' Hb']; [lia|].
        unfold get_bucket. rewrite Hb'. eexists. split; [done|]. exists (Z.to_nat (bucket_cnt h - (b + 1))).
        split_and!; [lia|lia|lia|lia|]. rewrite Hr. replace (S (Z.to_nat b)) with (Z.to_nat (b + 1)) by lia.
        by rewrite (drop_S _ _ _ Hb').
    + eexists. split; [done|]. cbv beta iota. rewrite Hr. done.
  - split_and!; [lia..|done].
  - lia.
  - by exists i'.
Qed.

(** The results of [n] calls of [hash_next]. *)
Fixpoint iterate (n : nat) (h : hash) (i : hash_iterator) : result (list (option Z)) :=
  match n with
  | O => Ok []
  | S n => i ← hash_next h i; r ← iterate n h i; Ok (hash_cur i :: r)
  end.

Lemma iterate_ok h l i :
  placed h → valid_iter h i → remaining h i = l →
  iterate (S (length l)) h i = Ok ((Some <$> l) ++ [None]).
Proof.
  intros Hp. revert i. induction l as [|e l IH]; intros i Hv Hr;
    destruct (hash_next_ok h i Hp Hv) as (i' & E & H); rewrite Hr in H; cbn [length iterate];
    rewrite (result_bind_ok _ _ _ E).
  - by rewrite H.
  - destruct H as (Hc & Hv' & Hr'). specialize (IH i' Hv' Hr'). cbn [length iterate] in IH.
    rewrite (result_bind_ok _ _ _ IH), Hc. done.
Qed.

(** ** Properties *)

(** C8: a hash table refines a finite set of elements.  [hash_find],
    [hash_insert], [hash_replace] and [hash_delete] return the element equal to
    the key, if the table has one, and change the set as their names say; no
    two elements of a table are equal, and the size is the size of the set.
    This holds for every outcome of the allocation in [rehash]. *)
Theorem hash_refines_set mem o h :
  hash_ok h → permitted o (contents h) → hash_size h < 2 ^ 32 - 1 →
  ∃ r h', run mem o h = Ok (r, h') ∧ hash_ok h' ∧ returns (contents h) (key o) r ∧
    contents h' = effect o (contents h) r ∧ hash_size h' = Z.of_nat (size (contents h')).
Proof.
  intros Hh Hp Hs. destruct (run_ok mem o h Hh Hp Hs) as (r & h' & E & Hh' & Hr & Hc).
  exists r, h'. split_and!; try done. symmetry. by apply size_contents.
Qed.

(** C33: [rehash] terminates and keeps the elements and their places whether or
    not it gets memory; with memory the number of buckets becomes the largest
    power of two that is at most half the number of elements, but at least 4.
    Iterating with [hash_first] and [hash_next] then visits every element
    exactly once and ends with a null pointer. *)
Theorem rehash_iterate_correct mem h :
  hash_ok h →
  ∃ h' i, rehash hash_func mem h = Ok h' ∧ hash_ok h' ∧ contents h' = contents h ∧
    (mem = true → ∃ k, bucket_cnt h' = 2 ^ k ∧ 2 ^ k ≤ Z.max 4 (hash_size h / 2) < 2 ^ (k + 1)) ∧
    hash_first h' = Ok i ∧
    iterate (S (Z.to_nat (hash_size h'))) h' i = Ok ((Some <$> hash_apply h') ++ [None]) ∧
    NoDup (hash_apply h') ∧ list_to_set (hash_apply h') = contents h.
Proof.
  intros Hh. pose proof (hash_ok_holds _ Hh) as Hl. pose proof Hh as [Hpl Hcnt _ Hn Hd].
  destruct (rehash_holds mem h _ Hl) as (h' & E & H2 & Hk). destruct (holds_ok _ _ H2 Hn Hd) as [Hh' Hc].
  pose proof (ho_placed _ Hh') as Hp. pose proof (pl_len _ Hp) as Hlen. destruct (pl_pow _ Hp) as (k & Hk2 & Hb).
  assert (0 < 2 ^ k) by (apply Z.pow_pos_nonneg; lia).
  destruct (lookup_lt_is_Some_2 (buckets h') 0) as [b Hb0]; [lia|].
  assert (hash_size h' = hash_size h) as Hs. { unfold hash_size. destruct H2 as (_ & _ & -> & _). done. }
  exists h', (mk_iterator 0 None b). split_and!; [done|done|done| | | |apply Hh'|done].
  - rewrite <-Hs. apply Hk.
  - unfold hash_first, get_bucket. change (Z.to_nat 0) with 0%nat. by rewrite Hb0.
  - replace (Z.to_nat (hash_size h')) with (length (hash_apply h')).
    + apply iterate_ok; [done|unfold valid_iter; simpl; lia|]. unfold remaining, hash_apply. cbn [it_next it_bucket].
      rewrite <-(drop_0 (buckets h')) at 2. by rewrite (drop_S _ _ _ Hb0).
    + unfold hash_size. rewrite (ho_cnt _ Hh'), Nat2Z.id. done.
Qed.

End table.

(** ** Witnesses *)

(** Elements that are equal when their last two digits are. *)
Definition demo_hash (e : Z) : Z := e mod 100.
Definition demo_less (a b : Z) : bool := a mod 100 <? b mod 100.
Definition demo_table : hash := mk_hash 3 4 [[104]; [105; 1]; []; []].

Lemma demo_equal x y : equal demo_less x y = true ↔ x mod 100 = y mod 100.
Proof. unfold equal, demo_less. rewrite andb_true_iff, !negb_true_iff, !Z.ltb_ge. lia. Qed.

Lemma demo_less_irrefl x : demo_less x x = false.
Proof. apply Z.ltb_irrefl. Qed.

Lemma demo_equal_trans x y z : equal demo_less x y = true → equal demo_less y z = true → equal demo_less x z = true.
Proof. rewrite !demo_equal. congruence. Qed.

Lemma demo_hash_equal x y : equal demo_less x y = true → demo_hash x = demo_hash y.
Proof. by rewrite demo_equal. Qed.

Lemma demo_hash_ok : hash_ok demo_hash demo_less demo_table.
Proof.
  split.
  - split; [by exists 2|done|]. intros i b e Hi He.
    destruct i as [|[|[|[|i]]]]; simpl in Hi; try discriminate; injection Hi as <-; [| |by apply elem_of_nil in He..].
    + apply list_elem_of_singleton in He as ->. reflexivity.
    + apply elem_of_cons in He as [->|He]; [reflexivity|]. apply list_elem_of_singleton in He as ->. reflexivity.
  - reflexivity.
  - reflexivity.
  - apply (bool_decide_unpack _). reflexivity.
  - intros x y Hx Hy. rewrite demo_equal.
    assert (∀ z, z ∈ elems demo_table → z = 104 ∨ z = 105 ∨ z = 1) as Hz.
    { intros z. unfold elems. simpl. rewrite !elem_of_cons, elem_of_nil. naive_solver. }
    apply Hz in Hx as [-> | [-> | ->]]; apply Hz in Hy as [-> | [-> | ->]]; (reflexivity || discriminate).
Qed.

Lemma hash_refines_set_witness :
  ∃ h', run demo_hash demo_less true (Replace 204) demo_table = Ok (Some 104, h') ∧ hash_ok demo_hash demo_less h' ∧
    contents h' = {[204; 105; 1]}.
Proof.
  destruct (hash_refines_set demo_hash demo_less demo_less_irrefl demo_equal_trans demo_hash_equal
    true (Replace 204) demo_table) as (r & h' & E & Hh & _ & Hc & _).
  - apply demo_hash_ok.
  - apply (bool_decide_unpack _). vm_compute. reflexivity.
  - reflexivity.
  - assert (r = Some 104) as -> by (clear Hh Hc; vm_compute in E; injection E as <- _; reflexivity).
    exists h'. split; [exact E|]. split; [exact Hh|]. rewrite Hc. apply (bool_decide_unpack _). vm_compute. reflexivity.
Defined.

Lemma rehash_iterate_correct_witness :
  ∃ h' i, rehash demo_hash true demo_table = Ok h' ∧ contents h' = contents demo_table ∧ hash_first h' = Ok i ∧
    iterate 4 h' i = Ok [Some 104; Some 105; Some 1; None].
Proof.
  destruct (rehash_iterate_correct demo_hash demo_less true demo_table) as (h' & i & E & Hh & Hc & _ & Ei & Hit & _).
  - apply demo_hash_ok.
  - exists h', i. split; [exact E|]. split; [exact Hc|]. split; [exact Ei|].
    clear Hh Hc. vm_compute in E. injection E as <-. exact Hit.
Defined.
