(* ===== verification/Parse.v ===== *)
(** * The command parser of the shell: OS-lab1 code/parse.c

    [parse] cuts a line into tokens, which it copies into a static buffer of
    256 characters, and builds the list of programs, the last one first, in
    static arrays of 50 argument pointers and 20 program records.  Pointers
    are indexes into these arrays; an access outside them is a fault.  The
    line is the memory from its first character on. *)

From S2P Require Import Prelude StdlibC.

Definition PIPE : Z := 124.
Definition BG : Z := 38.
Definition RIN : Z := 60.
Definition RUT : Z := 62.

Definition isspec (c : Z) : bool := (c =? PIPE) || (c =? BG) || (c =? RIN) || (c =? RUT).

(** ** Data *)

Record Pgm := mk_Pgm { pgmlist : Z; next : option Z }.

Record Command := mk_Command {
  pgm : option Z;
  rstdin : option Z;
  rstdout : option Z;
  rstderr : option Z;
  background : bool
}.

(** The static variables. *)
Record statics := mk_statics {
  cbuf : list Z;
  cp : Z;
  pbuf : list (option Z);
  pp : Z;
  cmdbuf : list Pgm;
  cmds : option Z
}.

Definition set_text (b : list Z) (p : Z) (st : statics) : statics := mk_statics b p (pbuf st) (pp st) (cmdbuf st) (cmds st).
Definition set_args (b : list (option Z)) (p : Z) (st : statics) : statics := mk_statics (cbuf st) (cp st) b p (cmdbuf st) (cmds st).
Definition set_pgms (b : list Pgm) (p : option Z) (st : statics) : statics := mk_statics (cbuf st) (cp st) (pbuf st) (pp st) b p.

Definition in_array {A} (l : list A) (i : Z) : bool := (0 <=? i) && (i <? Z.of_nat (length l)).

(** Reading the line, and [*cp++ = c], [*pp++ = p]. *)
Definition char_of (line : list Z) (s : Z) : ST statics Z := λ st,
  if in_array line s then Ok (line !!! Z.to_nat s, st) else Err BadAccess.
Definition put_char (c : Z) : ST statics unit := λ st,
  if in_array (cbuf st) (cp st) then Ok (tt, set_text (<[Z.to_nat (cp st) := c]> (cbuf st)) (cp st + 1) st)
  else Err BadAccess.
Definition put_ptr (p : option Z) : ST statics unit := λ st,
  if in_array (pbuf st) (pp st) then Ok (tt, set_args (<[Z.to_nat (pp st) := p]> (pbuf st)) (pp st + 1) st)
  else Err BadAccess.
Definition text_at (p : Z) : ST statics Z := λ st,
  if in_array (cbuf st) p then Ok (cbuf st !!! Z.to_nat p, st) else Err BadAccess.
Definition get_pgm (i : option Z) : ST statics (Z * Pgm) := λ st,
  match i with
  | Some i => match cmdbuf st !! Z.to_nat i with Some p => Ok ((i, p), st) | None => Err BadAccess end
  | None => Err BadAccess
  end.
Definition put_pgm (i : Z) (p : Pgm) : ST statics unit :=
  modify (λ st, set_pgms (<[Z.to_nat i := p]> (cmdbuf st)) (cmds st) st).

(** ** Operations *)

Definition init : ST statics unit := modify (λ st,
  mk_statics (cbuf st) 0 (pbuf st) 0
    (imap (λ i p, mk_Pgm (pgmlist p) (if (i <? 19)%nat then Some (Z.of_nat i + 1) else None)) (cmdbuf st)) (Some 0)).

(** Returns the number of characters of the line that were used, and [tok]. *)
Definition nexttoken (line : list Z) (s0 : Z) : ST statics (Z * Z) :=
  st ← get;
  let tok := cp st in
  r ← loopM (S (length line)) (λ s,
        c ← char_of line s;
        if isspace c && negb (c =? 0) then mret (inl (s + 1)) else mret (inr (c, s + 1))) s0;
  let '(c, s) := r in
  if c =? 0 then mret (0, tok)
  else if isspec c then
    put_char c;; put_char 0;; mret (s - s0, tok)
  else
    put_char c;;
    s ← loopM (S (length line)) (λ s,
          c ← char_of line s;
          put_char c;;
          if negb (isspace c) && negb (isspec c) && negb (c =? 0) then mret (inl (s + 1)) else mret (inr (s + 1))) s;
    let s := s - 1 in
    modify (λ st, set_text (cbuf st) (cp st - 1) st);;
    put_char 0;;
    mret (s - s0, tok).

(** Returns the number of characters used, and [cmd]. *)
Definition acmd (line : list Z) (s : Z) : ST statics (Z * Z) :=
  st ← get;
  r ← get_pgm (cmds st);
  let cmd0 := fst r in
  modify (λ st, set_pgms (cmdbuf st) (next (snd r)) st);;
  put_pgm cmd0 (mk_Pgm (pp st) None);;
  loopM (S (length line)) (λ '(s, cnt),
    r ← nexttoken line s;
    let '(n, tok) := r in
    stop ← (if n =? 0 then mret true else c ← text_at tok; mret (isspec c));
    if (stop : bool) then
      put_ptr None;; mret (inr (cnt, cmd0))
    else
      put_ptr (Some tok);; mret (inl (s + n, cnt + n))) (s, 0).

Definition isalnum (c : Z) : bool :=
  isdigit c || ((65 <=? c) && (c <=? 90)) || ((97 <=? c) && (c <=? 122)).

(** The characters "_-.,/~+" *)
Definition IDCHARS : list Z := [95; 45; 46; 44; 47; 126; 43].
Definition idchar (c : Z) : bool := isalnum c || bool_decide (c ∈ IDCHARS).

Definition isidentifier (p : Z) : ST statics bool :=
  st ← get;
  loopM (S (length (cbuf st))) (λ s,
    c ← text_at s;
    if c =? 0 then mret (inr true)
    else if negb (idchar c) then mret (inr false) else mret (inl (s + 1))) p.

Inductive label := Newcmd | Newtoken.

(** The name of a redirection: [nexttoken] and the test for an identifier.
    [None] is the error return. *)
Definition file_name (line : list Z) (t : Z) : ST statics (option (Z * Z)) :=
  r ← nexttoken line t;
  let '(n, tok) := r in
  if n <? 0 then mret None
  else
    ok ← isidentifier tok;
    mret (if (ok : bool) then Some (t + n, tok) else None).

Definition parse_step (line : list Z) : label * Z * Command → ST statics ((label * Z * Command) + (Z * Command)) :=
  λ '(l, t, c),
    match l with
    | Newcmd =>
        r ← acmd line t;
        let '(n, cmd0) := r in
        if n <=? 0 then mret (inr (-1, c))
        else
          p ← get_pgm (Some cmd0);
          put_pgm cmd0 (mk_Pgm (pgmlist (snd p)) (pgm c));;
          mret (inl (Newtoken, t + n, mk_Command (Some cmd0) (rstdin c) (rstdout c) (rstderr c) (background c)))
    | Newtoken =>
        r ← nexttoken line t;
        let '(n, tok) := r in
        if n =? 0 then mret (inr (1, c))
        else
          let t := t + n in
          k ← text_at tok;
          if k =? PIPE then mret (inl (Newcmd, t, c))
          else if k =? BG then
            r ← nexttoken line t;
            if fst r =? 0 then mret (inr (1, mk_Command (pgm c) (rstdin c) (rstdout c) (rstderr c) true))
            else mret (inr (-1, c))
          else if k =? RIN then
            if bool_decide (rstdin c ≠ None) then mret (inr (-1, c))
            else
              r ← file_name line t;
              match r with
              | None => mret (inr (-1, c))
              | Some (t, f) => mret (inl (Newtoken, t, mk_Command (pgm c) (Some f) (rstdout c) (rstderr c) (background c)))
              end
          else if k =? RUT then
            if bool_decide (rstdout c ≠ None) then mret (inr (-1, c))
            else
              r ← file_name line t;
              match r with
              | None => mret (inr (-1, c))
              | Some (t, f) => mret (inl (Newtoken, t, mk_Command (pgm c) (rstdin c) (Some f) (rstderr c) (background c)))
              end
          else mret (inr (-1, c))
    end.

(** Every two rounds use a character of the line. *)
Definition parse (line : list Z) : ST statics (Z * Command) :=
  init;;
  loopM (S (2 * length line)) (parse_step line) (Newcmd, 0, mk_Command None None None None false).
