(* ===== verification/ParseSpec.v ===== *)
(** * What the command parser accepts

    Tokens of a line, the grammar of commands on lists of tokens, and the
    proof that [parse] builds in its static arrays the command the grammar
    gives, for lines short enough for the arrays. *)

From S2P Require Import Prelude Bytes StdlibC Parse.

(** ** Tokens *)

Inductive token := Word (w : list Z) | Special (c : Z).

Definition text (t : token) : list Z := match t with Word w => w | Special c => [c] end.

Definition wordchar (c : Z) : bool := negb (isspace c) && negb (isspec c).

Fixpoint span_word (r : list Z) : list Z * list Z :=
  match r with
  | c :: r' => if wordchar c then let '(w, s) := span_word r' in (c :: w, s) else ([], r)
  | [] => ([], [])
  end.

Definition next_tok (r : list Z) : option (token * list Z) :=
  match skip_space r with
  | [] => None
  | c :: r' => if isspec c then Some (Special c, r')
               else let '(w, s) := span_word r' in Some (Word (c :: w), s)
  end.

Fixpoint tokens_n (n : nat) (r : list Z) : list token :=
  match n with
  | O => []
  | S n => match next_tok r with None => [] | Some (t, r') => t :: tokens_n n r' end
  end.

Definition tokens (r : list Z) : list token := tokens_n (length r) r.

Lemma skip_space_length r : (length (skip_space r) ≤ length r)%nat.
Proof. induction r as [|c r IH]; simpl; [done|]. destruct (isspace c); simpl; lia. Qed.

Lemma span_word_eq r w s : span_word r = (w, s) → r = w ++ s.
Proof.
  revert w s. induction r as [|c r IH]; simpl; intros w s E; [by simplify_eq|].
  destruct (wordchar c); [|by simplify_eq]. destruct (span_word r) as [w' s']. simplify_eq. simpl. f_equal. by apply IH.
Qed.

Lemma next_tok_length r t r' :
  next_tok r = Some (t, r') → (length r' + length (text t) ≤ length r)%nat ∧ (1 ≤ length (text t))%nat.
Proof.
  unfold next_tok. pose proof (skip_space_length r) as Hl. destruct (skip_space r) as [|c q]; [done|]. simpl in Hl.
  destruct (isspec c); [intros; simplify_eq; simpl; lia|].
  destruct (span_word q) as [w s] eqn:E. apply span_word_eq in E as ->. intros. simplify_eq. simpl. rewrite length_app in Hl. lia.
Qed.

Lemma tokens_n_enough n r : (length r ≤ n)%nat → tokens_n n r = tokens r.
Proof.
  unfold tokens. remember (length r) as m eqn:Hm. assert (length r ≤ m)%nat as Hr by lia. clear Hm. revert n r Hr.
  induction m as [|m IH]; intros n r Hr Hn.
  - assert (r = []) as -> by (destruct r; [done|simpl in Hr; lia]). by destruct n.
  - destruct n as [|n]; [lia|]. simpl. destruct (next_tok r) as [[t r']|] eqn:E; [|done].
    apply next_tok_length in E. f_equal. apply IH; lia.
Qed.

Lemma tokens_unfold r :
  tokens r = match next_tok r with None => [] | Some (t, r') => t :: tokens r' end.
Proof.
  unfold tokens at 1. destruct r as [|c r]; [done|]. cbn [length tokens_n].
  destruct (next_tok (c :: r)) as [[t r']|] eqn:E; [|done]. apply next_tok_length in E. simpl in E.
  f_equal. apply tokens_n_enough. lia.
Qed.

(** ** The grammar *)

Record command := mk_command {
  programs : list (list (list Z));   (* the last program of the pipeline first *)
  in_file : option (list Z);
  out_file : option (list Z);
  in_background : bool
}.

Definition add_program (ws : list (list Z)) (c : command) : command :=
  mk_command (ws :: programs c) (in_file c) (out_file c) (in_background c).

Inductive mode := InCmd (ws : list (list Z)) | After.

(** The program that has been read is complete. *)
Definition finish (m : mode) (c : command) : option command :=
  match m with InCmd [] => None | InCmd ws => Some (add_program ws c) | After => Some c end.

Fixpoint grammar (m : mode) (ts : list token) (c : command) : option command :=
  match ts with
  | [] => finish m c
  | Word w :: ts => match m with InCmd ws => grammar (InCmd (ws ++ [w])) ts c | After => None end
  | Special s :: ts =>
      match finish m c with
      | None => None
      | Some c =>
          if s =? PIPE then grammar (InCmd []) ts c
          else if s =? BG then
            match ts with [] => Some (mk_command (programs c) (in_file c) (out_file c) true) | _ => None end
          else if s =? RIN then
            match in_file c, ts with
            | None, Word f :: ts =>
                if forallb idchar f then grammar After ts (mk_command (programs c) (Some f) (out_file c) (in_background c)) else None
            | _, _ => None
            end
          else
            match out_file c, ts with
            | None, Word f :: ts =>
                if forallb idchar f then grammar After ts (mk_command (programs c) (in_file c) (Some f) (in_background c)) else None
            | _, _ => None
            end
      end
  end.

Definition no_command : command := mk_command [] None None false.

Lemma grammar_words acc ws ts c :
  grammar (InCmd acc) ((Word <$> ws) ++ ts) c = grammar (InCmd (acc ++ ws)) ts c.
Proof. revert acc. induction ws as [|w ws IH]; intros acc; simpl; [by rewrite app_nil_r|]. by rewrite IH, <-app_assoc. Qed.

(** After the words of a program. *)
Lemma grammar_finish ws ts c :
  (∀ w ts', ts ≠ Word w :: ts') →
  grammar (InCmd ws) ts c = match ws with [] => None | _ => grammar After ts (add_program ws c) end.
Proof. intros Hts. destruct ts as [|[w|s] ts]; [by destruct ws|by destruct (Hts w ts)|by destruct ws]. Qed.

(** The line does not end with a redirection. *)
Definition complete (ts : list token) : Prop := ∀ c, last ts = Some (Special c) → c ≠ RIN ∧ c ≠ RUT.

Lemma complete_app ts ts' : complete (ts ++ ts') → ts' ≠ [] → complete ts'.
Proof. intros H Hn c Hc. apply H. by rewrite last_app, Hc. Qed.

(** ** Reading the line *)

(** The characters of the line from position [s] on. *)
Record at_pos (line : list Z) (s : Z) (r : list Z) : Prop := {
  ap_pos : 0 ≤ s;
  ap_drop : drop (Z.to_nat s) line = r ++ [0];
  ap_chars : Forall (λ c, c ≠ 0) r
}.

Lemma at_pos_length line s r : at_pos line s r → Z.of_nat (length line) = s + Z.of_nat (length r) + 1.
Proof.
  intros [H0 H _]. apply (f_equal length) in H. rewrite length_drop, length_app in H. simpl in H. lia.
Qed.

Lemma at_pos_app line s r1 r2 : at_pos line s (r1 ++ r2) → at_pos line (s + Z.of_nat (length r1)) r2.
Proof.
  intros [H0 H Hc]. apply Forall_app in Hc as [_ Hc]. split; [lia| |done].
  rewrite Z2Nat.inj_add, Nat2Z.id, <-drop_drop, H, <-app_assoc by lia. by apply drop_app_length.
Qed.

Lemma at_pos_tail line s c r : at_pos line s (c :: r) → at_pos line (s + 1) r.
Proof. apply (at_pos_app line s [c] r). Qed.

Lemma char_of_ok line s r st : at_pos line s r → char_of line s st = Ok (List.hd 0 r, st).
Proof.
  intros Hp. pose proof (at_pos_length _ _ _ Hp) as Hlen. destruct Hp as [H0 H _]. unfold char_of, in_array.
  rewrite (proj2 (Z.leb_le _ _)), (proj2 (Z.ltb_lt _ _)) by lia. simpl. do 2 f_equal.
  rewrite list_lookup_total_alt, <-(Nat.add_0_r (Z.to_nat s)), <-lookup_drop, H. by destruct r.
Qed.

Lemma isspace_nonzero c : isspace c = true → c =? 0 = false.
Proof. intros H. apply Z.eqb_neq. intros ->. done. Qed.

(** The loop that skips white space. *)
Lemma skip_loop_ok line r s st fuel :
  at_pos line s r → (length r < fuel)%nat →
  loopM fuel (λ s, c ← char_of line s;
    if isspace c && negb (c =? 0) then mret (inl (s + 1)) else mret (inr (c, s + 1))) s st =
  Ok ((List.hd 0 (skip_space r), s + Z.of_nat (length r - length (skip_space r)) + 1), st).
Proof.
  revert s fuel. induction r as [|c r IH]; intros s fuel Hp Hf; (destruct fuel as [|n]; [simpl in Hf; lia|]).
  - erewrite loopM_step by (by erewrite bind_ok by (by apply char_of_ok)). simpl. do 3 f_equal. lia.
  - cbn [skip_space]. destruct (isspace c) eqn:Hc.
    + erewrite loopM_step by (erewrite bind_ok by (by apply char_of_ok); cbn [List.hd]; rewrite Hc, (isspace_nonzero _ Hc); reflexivity).
      cbv iota. rewrite IH by (first [by eapply at_pos_tail|simpl in Hf; lia]).
      pose proof (skip_space_length r). cbn [length]. do 3 f_equal. lia.
    + erewrite loopM_step by (erewrite bind_ok by (by apply char_of_ok); cbn [List.hd]; rewrite Hc; reflexivity).
      cbn [List.hd length]. do 3 f_equal. lia.
Qed.

(** ** Writing tokens *)

Definition write_text (st : statics) (bs : list Z) : statics :=
  set_text (overwrite (cp st) bs (cbuf st)) (cp st + Z.of_nat (length bs)) st.

(** There is room for [n] characters. *)
Definition text_room (st : statics) (n : Z) : Prop := 0 ≤ cp st ∧ cp st + n ≤ Z.of_nat (length (cbuf st)).

Lemma overwrite_one b p c : 0 ≤ p < Z.of_nat (length b) → overwrite p [c] b = <[Z.to_nat p := c]> b.
Proof. intros Hp. unfold overwrite. rewrite insert_take_drop by lia. simpl. by rewrite Nat.add_1_r. Qed.

Lemma overwrite_mid (a m r x : list Z) p :
  p = Z.of_nat (length a) → length m = length x → overwrite p x (a ++ m ++ r) = a ++ x ++ r.
Proof.
  intros -> Hm. unfold overwrite. rewrite Nat2Z.id, take_app_length. do 2 f_equal.
  rewrite <-drop_drop, drop_app_length, <-Hm. apply drop_app_length.
Qed.

Lemma overwrite_app b p x y :
  0 ≤ p → p + Z.of_nat (length x + length y) ≤ Z.of_nat (length b) →
  overwrite (p + Z.of_nat (length x)) y (overwrite p x b) = overwrite p (x ++ y) b.
Proof.
  intros Hp Hl.
  assert (∃ a m1 m2 r, b = a ++ m1 ++ m2 ++ r ∧ p = Z.of_nat (length a) ∧ length m1 = length x ∧ length m2 = length y)
    as (a & m1 & m2 & r & -> & Ha & H1 & H2).
  { set (n := Z.to_nat p). exists (take n b), (take (length x) (drop n b)), (take (length y) (drop (length x) (drop n b))), (drop (length y) (drop (length x) (drop n b))).
    rewrite !take_drop, !length_take, !length_drop. split_and!; [done|lia..]. }
  rewrite (overwrite_mid a m1) by done.
  replace (a ++ x ++ m2 ++ r) with ((a ++ x) ++ m2 ++ r) by (by rewrite <-app_assoc).
  rewrite overwrite_mid by (rewrite ?length_app; lia).
  replace (a ++ m1 ++ m2 ++ r) with (a ++ (m1 ++ m2) ++ r) by (by rewrite <-!app_assoc).
  rewrite overwrite_mid by (rewrite ?length_app; lia). by rewrite <-!app_assoc.
Qed.

Lemma put_char_ok st c : text_room st 1 → put_char c st = Ok (tt, write_text st [c]).
Proof.
  intros [H1 H2]. unfold put_char, in_array. rewrite (proj2 (Z.leb_le _ _)), (proj2 (Z.ltb_lt _ _)) by lia. simpl.
  unfold write_text. by rewrite overwrite_one by lia.
Qed.

Lemma write_text_app st x y :
  text_room st (Z.of_nat (length x + length y)) → write_text (write_text st x) y = write_text st (x ++ y).
Proof.
  intros [H1 H2]. unfold write_text. simpl. rewrite overwrite_app by done. rewrite length_app.
  unfold set_text. simpl. f_equal. lia.
Qed.

Lemma length_write_text st bs :
  text_room st (Z.of_nat (length bs)) → length (cbuf (write_text st bs)) = length (cbuf st).
Proof. intros [H1 H2]. simpl. by apply length_overwrite. Qed.

Lemma text_room_le st n m : text_room st n → m ≤ n → text_room st m.
Proof. unfold text_room. lia. Qed.

Lemma text_room_write st bs n :
  text_room st (Z.of_nat (length bs) + n) → 0 ≤ n → text_room (write_text st bs) n.
Proof. intros [H1 H2] Hn. split; [simpl; lia|]. rewrite length_write_text by (split; lia). simpl. lia. Qed.

(** The loop that copies a word, with the character that ends it. *)
Lemma word_loop_ok line r s st fuel w r' :
  at_pos line s r → (length r < fuel)%nat → span_word r = (w, r') → text_room st (Z.of_nat (length w) + 1) →
  loopM fuel (λ s, c ← char_of line s;
    put_char c;;
    if negb (isspace c) && negb (isspec c) && negb (c =? 0) then mret (inl (s + 1)) else mret (inr (s + 1))) s st =
  Ok (s + Z.of_nat (length w) + 1, write_text st (w ++ [List.hd 0 r'])).
Proof.
  revert s st fuel w r'. induction r as [|c r IH]; intros s st fuel w r' Hp Hf Hs Hroom; (destruct fuel as [|n]; [simpl in Hf; lia|]).
  - injection Hs as <- <-. erewrite loopM_step by (erewrite bind_ok by (by apply char_of_ok); by erewrite bind_ok by (by apply put_char_ok)).
    simpl. do 2 f_equal. lia.
  - simpl in Hs. assert (c =? 0 = false) as Hnz. { pose proof (ap_chars _ _ _ Hp) as Hc. inversion Hc; subst. by apply Z.eqb_neq. }
    assert (text_room st 1) as Hr1 by (eapply text_room_le; [done|lia]).
    destruct (wordchar c) eqn:Hc; unfold wordchar in Hc.
    + destruct (span_word r) as [w1 r1] eqn:Hs1. injection Hs as <- <-. cbn [length] in Hroom.
      erewrite loopM_step by (erewrite bind_ok by (by apply char_of_ok); cbn [List.hd];
        erewrite bind_ok by (by apply put_char_ok); rewrite Hc, Hnz; reflexivity).
      cbv iota. rewrite (IH (s + 1) (write_text st [c]) n w1 r1); [|by eapply at_pos_tail|simpl in Hf; lia|done|].
      * rewrite write_text_app by (rewrite length_app; cbn [length]; eapply text_room_le; [exact Hroom|lia]).
        cbn [length]. do 2 f_equal. lia.
      * apply text_room_write; [|lia]. eapply text_room_le; [exact Hroom|cbn [length]; lia].
    + injection Hs as <- <-.
      erewrite loopM_step by (erewrite bind_ok by (by apply char_of_ok); cbn [List.hd];
        erewrite bind_ok by (by apply put_char_ok); rewrite Hc; reflexivity).
      cbn [List.hd length app]. do 2 f_equal. lia.
Qed.

(** Replacing the character after a word by the terminator. *)
Lemma terminate_ok st w x :
  text_room st (Z.of_nat (length w) + 1) →
  (modify (λ st, set_text (cbuf st) (cp st - 1) st);; put_char 0) (write_text st (w ++ [x])) = Ok (tt, write_text st (w ++ [0])).
Proof.
  intros [H1 H2]. erewrite bind_ok by done.
  assert (set_text (cbuf (write_text st (w ++ [x]))) (cp (write_text st (w ++ [x])) - 1) (write_text st (w ++ [x])) =
    set_text (overwrite (cp st) (w ++ [x]) (cbuf st)) (cp st + Z.of_nat (length w)) st) as ->.
  { unfold write_text, set_text. simpl. f_equal. rewrite length_app. simpl. lia. }
  rewrite put_char_ok.
  - unfold write_text, set_text. simpl. rewrite !length_app. simpl. f_equal. f_equal. f_equal; [|lia].
    rewrite <-overwrite_app by (simpl; lia). rewrite <-(overwrite_app _ _ w [0]) by (simpl; lia).
    assert (length (overwrite (cp st) w (cbuf st)) = length (cbuf st)) as Hl by (apply length_overwrite; lia).
    rewrite (overwrite_one (overwrite (cp st) w (cbuf st)) _ x) by lia.
    rewrite !overwrite_one by (rewrite ?length_insert; lia). by rewrite list_insert_insert_eq.
  - split; simpl; [lia|]. rewrite length_overwrite; rewrite ?length_app; simpl; lia.
Qed.

Lemma skip_space_suffix r : ∃ sp, r = sp ++ skip_space r.
Proof.
  induction r as [|c r [sp IH]]; [by exists []|]. simpl. destruct (isspace c); [|by exists []].
  exists (c :: sp). simpl. by f_equal.
Qed.

(** [nexttoken] returns the next token of the line, copied to the end of the
    buffer, and how many characters it used. *)
Lemma nexttoken_ok line s r st :
  at_pos line s r →
  match next_tok r with
  | None => nexttoken line s st = Ok ((0, cp st), st)
  | Some (t, r') => text_room st (Z.of_nat (length (text t)) + 1) →
      nexttoken line s st = Ok ((Z.of_nat (length r) - Z.of_nat (length r'), cp st), write_text st (text t ++ [0])) ∧
      at_pos line (s + (Z.of_nat (length r) - Z.of_nat (length r'))) r'
  end.
Proof.
  intros Hp. pose proof (at_pos_length _ _ _ Hp) as Hlen. pose proof (ap_pos _ _ _ Hp) as H0.
  unfold nexttoken, next_tok. destruct (skip_space_suffix r) as [sp Hsp].
  assert (∀ A (k : statics → Z * Z → ST statics A), (st ← get; r ← loopM (S (length line)) (λ s, c ← char_of line s;
    if isspace c && negb (c =? 0) then mret (inl (s + 1)) else mret (inr (c, s + 1))) s; k st r) st =
    k st (List.hd 0 (skip_space r), s + Z.of_nat (length r - length (skip_space r)) + 1) st) as Hskip.
  { intros A k. erewrite bind_ok by apply get_ok. by rewrite (bind_ok _ _ _ _ _ (skip_loop_ok line r s st (S (length line)) Hp ltac:(lia))). }
  rewrite Hskip. clear Hskip. destruct (skip_space r) as [|c q] eqn:Eq; cbn [List.hd]; [done|].
  pose proof (f_equal length Hsp) as Hlr. rewrite length_app in Hlr. cbn [length] in Hlr.
  assert (at_pos line (s + Z.of_nat (length sp)) (c :: q)) as Hq by (apply at_pos_app; by rewrite <-Hsp).
  assert (c ≠ 0) as Hc0 by (pose proof (ap_chars _ _ _ Hq) as Hf; by inversion Hf).
  rewrite (proj2 (Z.eqb_neq _ _) Hc0). destruct (isspec c) eqn:Hspec.
  - intros Hroom. cbn [text length] in Hroom. split.
    + erewrite bind_ok by (apply put_char_ok; eapply text_room_le; [done|lia]).
      erewrite bind_ok by (apply put_char_ok, text_room_write; [eapply text_room_le; [done|simpl; lia]|lia]).
      rewrite write_text_app by (eapply text_room_le; [done|simpl; lia]). cbn [text app length]. unfold mret, st_ret. do 3 f_equal. lia.
    + cbn [length]. replace (s + _) with (s + Z.of_nat (length sp) + 1) by lia. by eapply at_pos_tail.
  - destruct (span_word q) as [w q'] eqn:Hw. pose proof (span_word_eq _ _ _ Hw) as Eqq.
    pose proof (f_equal length Eqq) as Hlq. rewrite length_app in Hlq. intros Hroom. cbn [text length] in Hroom.
    pose proof (at_pos_tail _ _ _ _ Hq) as Hq1. split.
    + erewrite bind_ok by (apply put_char_ok; eapply text_room_le; [done|lia]).
      replace (s + Z.of_nat (length r - length (c :: q)) + 1) with (s + Z.of_nat (length sp) + 1) by (simpl; lia).
      erewrite bind_ok by (apply (word_loop_ok line q); [done|lia|exact Hw|]; apply text_room_write; [eapply text_room_le; [exact Hroom|simpl; lia]|lia]).
      rewrite write_text_app by (rewrite length_app; eapply text_room_le; [exact Hroom|simpl; lia]).
      pose proof (terminate_ok st (c :: w) (List.hd 0 q')) as Ht. cbn [length] in Ht. specialize (Ht Hroom).
      erewrite bind_ok in Ht by done. cbn [app] in Ht |- *. erewrite bind_ok by done. erewrite bind_ok by exact Ht.
      unfold mret, st_ret. do 3 f_equal. simpl. lia.
    + cbn [length]. replace (s + _) with (s + Z.of_nat (length sp) + 1 + Z.of_nat (length w)) by lia.
      apply at_pos_app. by rewrite <-Eqq.
Qed.

(** ** Strings and arguments in the arrays *)

Definition string_at (b : list Z) (p : Z) (w : list Z) : Prop :=
  0 ≤ p ∧ Forall (λ c, c ≠ 0) w ∧ ∀ k, (k ≤ length w)%nat → b !! (Z.to_nat p + k)%nat = (w ++ [0]) !! k.

Lemma string_written st w :
  text_room st (Z.of_nat (length w) + 1) → Forall (λ c, c ≠ 0) w →
  string_at (cbuf (write_text st (w ++ [0]))) (cp st) w.
Proof.
  intros [H1 H2] Hw. split_and!; [done|done|]. intros k Hk. simpl.
  replace (Z.to_nat (cp st) + k)%nat with (Z.to_nat (cp st + Z.of_nat k)) by lia.
  rewrite overwrite_lookup by (rewrite ?length_app; simpl; lia). rewrite decide_True by (rewrite length_app; simpl; lia).
  f_equal. lia.
Qed.

Lemma text_at_ok st p w k :
  string_at (cbuf st) p w → (k ≤ length w)%nat →
  text_at (p + Z.of_nat k) st = Ok ((w ++ [0]) !!! k, st).
Proof.
  intros (H1 & _ & H2) Hk. specialize (H2 k Hk).
  destruct (lookup_lt_is_Some_2 (w ++ [0]) k) as [x Hx]; [rewrite length_app; simpl; lia|]. rewrite Hx in H2.
  pose proof (lookup_lt_Some _ _ _ H2). unfold text_at, in_array.
  rewrite (proj2 (Z.leb_le _ _)), (proj2 (Z.ltb_lt _ _)) by lia. simpl. do 2 f_equal.
  rewrite (list_lookup_total_correct _ _ _ Hx). apply list_lookup_total_correct. rewrite <-H2. f_equal. lia.
Qed.

(** The loop of [isidentifier] from the [k]-th character on. *)
Lemma ident_loop_ok st p w k fuel :
  string_at (cbuf st) p w → (k ≤ length w)%nat → (length w - k < fuel)%nat →
  loopM fuel (λ s, c ← text_at s;
    if c =? 0 then mret (inr true)
    else if negb (idchar c) then mret (inr false) else mret (inl (s + 1))) (p + Z.of_nat k) st =
  Ok (forallb idchar (drop k w), st).
Proof.
  intros Hs. revert k. induction fuel as [|n IH]; intros k Hk Hf; [lia|].
  destruct (decide (k = length w)) as [->|Hne].
  - erewrite loopM_step by (erewrite bind_ok by (by eapply text_at_ok); rewrite list_lookup_total_middle by done; reflexivity).
    by rewrite drop_all.
  - destruct (lookup_lt_is_Some_2 w k) as [x Hx]; [lia|].
    assert ((w ++ [0]) !!! k = x) as E by (by rewrite lookup_total_app_l, (list_lookup_total_correct _ _ _ Hx) by lia).
    assert (x ≠ 0) as Hx0 by (destruct Hs as (_ & Hf0 & _); by apply (Forall_lookup_1 _ _ _ _ Hf0 Hx)).
    rewrite (drop_S _ _ _ Hx). cbn [forallb]. destruct (idchar x) eqn:Hi.
    + erewrite loopM_step by (erewrite bind_ok by (eapply text_at_ok; [done|lia]); rewrite E, (proj2 (Z.eqb_neq _ _) Hx0), Hi; reflexivity).
      cbv iota. replace (p + Z.of_nat k + 1) with (p + Z.of_nat (S k)) by lia. apply IH; lia.
    + by erewrite loopM_step by (erewrite bind_ok by (eapply text_at_ok; [done|lia]); rewrite E, (proj2 (Z.eqb_neq _ _) Hx0), Hi; reflexivity).
Qed.

Lemma isidentifier_ok st p w :
  string_at (cbuf st) p w → isidentifier p st = Ok (forallb idchar w, st).
Proof.
  intros Hs. unfold isidentifier. erewrite bind_ok by apply get_ok.
  assert (length w < length (cbuf st))%nat as Hl.
  { destruct Hs as (H1 & _ & H2). specialize (H2 (length w) (le_n _)). rewrite lookup_app_r, Nat.sub_diag in H2 by done.
    apply lookup_lt_Some in H2. lia. }
  pose proof (ident_loop_ok st p w 0 (S (length (cbuf st))) Hs) as H. rewrite Z.add_0_r in H. apply H; lia.
Qed.

(** The arguments of a program: pointers to strings, ended by a null pointer.
    All of this lies below [cp] and [pp]. *)
Definition arg_at (st : statics) (i : Z) (w : list Z) : Prop :=
  ∃ p, pbuf st !! Z.to_nat i = Some (Some p) ∧ string_at (cbuf st) p w ∧ p + Z.of_nat (length w) < cp st.

Fixpoint args_at (st : statics) (i : Z) (ws : list (list Z)) : Prop :=
  match ws with
  | [] => pbuf st !! Z.to_nat i = Some None ∧ 0 ≤ i < pp st
  | w :: ws => arg_at st i w ∧ 0 ≤ i < pp st ∧ args_at st (i + 1) ws
  end.

(** What further tokens leave alone. *)
Record frame (st st' : statics) : Prop := {
  fr_cbuf : length (cbuf st') = length (cbuf st);
  fr_pbuf : length (pbuf st') = length (pbuf st);
  fr_cp : 0 ≤ cp st ≤ cp st';
  fr_pp : 0 ≤ pp st ≤ pp st';
  fr_text j : (j < Z.to_nat (cp st))%nat → cbuf st' !! j = cbuf st !! j;
  fr_args j : (j < Z.to_nat (pp st))%nat → pbuf st' !! j = pbuf st !! j
}.

Lemma frame_refl st : 0 ≤ cp st → 0 ≤ pp st → frame st st.
Proof. by split. Qed.

Lemma frame_trans st1 st2 st3 : frame st1 st2 → frame st2 st3 → frame st1 st3.
Proof.
  intros [A1 A2 A3 A4 A5 A6] [B1 B2 B3 B4 B5 B6]. split; [congruence|congruence|lia|lia| |].
  - intros j Hj. rewrite B5 by lia. by apply A5.
  - intros j Hj. rewrite B6 by lia. by apply A6.
Qed.

Lemma frame_string st st' p w :
  frame st st' → string_at (cbuf st) p w → p + Z.of_nat (length w) < cp st → string_at (cbuf st') p w.
Proof.
  intros F (H1 & H2 & H3) Hp. split_and!; [done..|]. intros k Hk. rewrite (fr_text _ _ F) by lia. by apply H3.
Qed.

Lemma frame_args st st' i ws : frame st st' → args_at st i ws → args_at st' i ws.
Proof.
  intros F. revert i. induction ws as [|w ws IH]; intros i; simpl.
  - intros [H1 H2]. pose proof (fr_pp _ _ F). split; [|lia]. rewrite (fr_args _ _ F) by lia. done.
  - intros ((p & H1 & H2 & H3) & H4 & H5). pose proof (fr_pp _ _ F). pose proof (fr_cp _ _ F). split_and!; [|lia|lia|by apply IH].
    exists p. split_and!; [|by eapply frame_string|lia]. rewrite (fr_args _ _ F) by lia. done.
Qed.

Lemma frame_write st bs : text_room st (Z.of_nat (length bs)) → 0 ≤ pp st → frame st (write_text st bs).
Proof.
  intros [H1 H2] Hp. split; simpl; try lia; try done; [by apply length_overwrite|].
  intros j Hj. rewrite <-(Nat2Z.id j), overwrite_lookup by lia. by rewrite decide_False by lia.
Qed.

Definition ptr_room (st : statics) (n : Z) : Prop := 0 ≤ pp st ∧ pp st + n ≤ Z.of_nat (length (pbuf st)).

Definition write_ptr (st : statics) (p : option Z) : statics :=
  set_args (<[Z.to_nat (pp st) := p]> (pbuf st)) (pp st + 1) st.

Lemma put_ptr_ok st p : ptr_room st 1 → put_ptr p st = Ok (tt, write_ptr st p).
Proof.
  intros [H1 H2]. unfold put_ptr, in_array. by rewrite (proj2 (Z.leb_le _ _)), (proj2 (Z.ltb_lt _ _)) by lia.
Qed.

Lemma frame_ptr st p : ptr_room st 1 → 0 ≤ cp st → frame st (write_ptr st p).
Proof.
  intros [H1 H2] Hc. split; simpl; try lia; try done; [by rewrite length_insert|].
  intros j Hj. apply list_lookup_insert_ne. lia.
Qed.

Lemma write_ptr_lookup st p : ptr_room st 1 → pbuf (write_ptr st p) !! Z.to_nat (pp st) = Some p.
Proof. intros [H1 H2]. simpl. apply list_lookup_insert_eq. lia. Qed.

(** ** Programs *)

(** The rest of the line does not start with a word. *)
Definition stops (r : list Z) : Prop := ∀ w r', next_tok r ≠ Some (Word w, r').

Lemma stops_tokens r : stops r → ∀ w ts, tokens r ≠ Word w :: ts.
Proof.
  intros Hs w ts. rewrite tokens_unfold. destruct (next_tok r) as [[t r']|] eqn:E; [|done].
  intros [= -> _]. by apply (Hs w r').
Qed.

Lemma next_tok_kind r t r' :
  Forall (λ c, c ≠ 0) r → next_tok r = Some (t, r') →
  Forall (λ c, c ≠ 0) (text t) ∧ (∀ w, t = Word w → ∃ c w', w = c :: w' ∧ isspec c = false) ∧
  (∀ c, t = Special c → isspec c = true).
Proof.
  intros Hr. unfold next_tok. destruct (skip_space_suffix r) as [sp Hsp]. rewrite Hsp in Hr. apply Forall_app in Hr as [_ Hr].
  destruct (skip_space r) as [|c q]; [done|]. inversion Hr as [|? ? Hc Hq]; subst.
  destruct (isspec c) eqn:Hs; [intros; simplify_eq; split_and!; [by constructor|done|naive_solver]|].
  destruct (span_word q) as [w q'] eqn:E. apply span_word_eq in E as ->. apply Forall_app in Hq as [Hw _].
  intros. simplify_eq. split_and!; [by constructor|naive_solver|done].
Qed.

(** Room for the tokens of [r]: a word of [n] characters takes [n + 1], and a
    special character is copied at most twice with its terminator. *)
Record room (st : statics) (r : list Z) (more ptrs : Z) : Prop := {
  rm_text : text_room st (4 * Z.of_nat (length r) - more);
  rm_ptr : ptr_room st (Z.of_nat (length r) + ptrs)
}.

Definition acmd_body (line : list Z) (cmd0 : Z) : Z * Z → ST statics ((Z * Z) + (Z * Z)) :=
  λ '(s, cnt),
    r ← nexttoken line s;
    let '(n, tok) := r in
    stop ← (if n =? 0 then mret true else c ← text_at tok; mret (isspec c));
    if (stop : bool) then put_ptr None;; mret (inr (cnt, cmd0))
    else put_ptr (Some tok);; mret (inl (s + n, cnt + n)).

(** What [acmd] leaves behind for the words [ws] of the line [r], of which
    [r'] remains. *)
Record acmd_post (line : list Z) (s : Z) (r : list Z) (st : statics) (ws : list (list Z)) (r' : list Z) (st' : statics) : Prop := {
  ac_pos : at_pos line (s + (Z.of_nat (length r) - Z.of_nat (length r'))) r';
  ac_tokens : tokens r = (Word <$> ws) ++ tokens r';
  ac_stops : stops r';
  ac_args : args_at st' (pp st) ws;
  ac_frame : frame st st';
  ac_pgms : cmdbuf st' = cmdbuf st ∧ cmds st' = cmds st;
  ac_length : Z.of_nat (length ws) ≤ Z.of_nat (length r) - Z.of_nat (length r');
  ac_none : ws = [] → r' = r;
  ac_room : text_room st' 0 ∧ (∀ t q, next_tok r' = Some (t, q) → text_room st' (4 * Z.of_nat (length r') - 2)) ∧
    ptr_room st' (Z.of_nat (length r'))
}.

Lemma acmd_stop line s r st cnt cmd0 st1 :
  at_pos line s r → stops r → ptr_room st1 (Z.of_nat (length r) + 1) → frame st st1 → pp st1 = pp st →
  cmdbuf st1 = cmdbuf st → cmds st1 = cmds st → text_room st1 0 →
  (∀ t q, next_tok r = Some (t, q) → text_room st1 (4 * Z.of_nat (length r) - 2)) →
  ∃ st', (put_ptr None;; mret (inr (cnt, cmd0) : (Z * Z) + (Z * Z))) st1 = Ok (inr (cnt, cmd0), st') ∧
    acmd_post line s r st [] r st'.
Proof.
  intros Hp Hs [P1 P2] F Epp E1 E2 T0 T. assert (ptr_room st1 1) as Hp1 by (split; lia).
  exists (write_ptr st1 None). split; [by erewrite bind_ok by (by apply put_ptr_ok)|]. destruct T0 as [C1 C2].
  pose proof (frame_ptr st1 None Hp1 C1) as F1. split; try done.
  - by rewrite Z.sub_diag, Z.add_0_r.
  - simpl. split; [|lia]. rewrite <-Epp. by apply write_ptr_lookup.
  - by eapply frame_trans.
  - simpl. lia.
  - split_and!; [split; simpl; lia|done|]. split; simpl; rewrite ?length_insert; lia.
Qed.

(** A token has been copied: the state after [nexttoken]. *)
Lemma token_written line s r st t r1 more ptrs :
  at_pos line s r → next_tok r = Some (t, r1) → room st r more ptrs → more ≤ 2 → 0 ≤ ptrs →
  ∃ st1, nexttoken line s st = Ok ((Z.of_nat (length r) - Z.of_nat (length r1), cp st), st1) ∧
    at_pos line (s + (Z.of_nat (length r) - Z.of_nat (length r1))) r1 ∧ frame st st1 ∧
    string_at (cbuf st1) (cp st) (text t) ∧ text_at (cp st) st1 = Ok (List.hd 0 (text t), st1) ∧
    cp st1 = cp st + Z.of_nat (length (text t)) + 1 ∧ length (cbuf st1) = length (cbuf st) ∧
    pp st1 = pp st ∧ pbuf st1 = pbuf st ∧ cmdbuf st1 = cmdbuf st ∧ cmds st1 = cmds st.
Proof.
  intros Hp En [[T1 T2] [P1 P2]] Hm Hq. pose proof (next_tok_length _ _ _ En) as [L1 L2].
  pose proof (nexttoken_ok line s r st Hp) as Hn. rewrite En in Hn.
  assert (text_room st (Z.of_nat (length (text t)) + 1)) as Hroom by (split; lia). destruct (Hn Hroom) as [E Hp1].
  destruct (next_tok_kind _ _ _ (ap_chars _ _ _ Hp) En) as (Hnz & _).
  pose proof (string_written st (text t) Hroom Hnz) as Hstr. exists (write_text st (text t ++ [0])).
  split_and!; try done.
  - apply frame_write; [rewrite length_app; simpl; split; lia|done].
  - rewrite <-(Z.add_0_r (cp st)). change 0 with (Z.of_nat 0) at 1.
    rewrite (text_at_ok (write_text st (text t ++ [0])) (cp st) (text t) 0) by (done || lia).
    destruct (text t) as [|x w]; [simpl in L2; lia|]. done.
  - simpl. rewrite length_app. simpl. lia.
  - apply length_write_text. rewrite length_app. simpl. split; lia.
Qed.

(** A word becomes an argument. *)
Lemma acmd_word line cmd0 s r st cnt w r1 :
  at_pos line s r → next_tok r = Some (Word w, r1) → room st r 0 1 →
  let n := Z.of_nat (length r) - Z.of_nat (length r1) in
  ∃ st2, acmd_body line cmd0 (s, cnt) st = Ok (inl (s + n, cnt + n), st2) ∧
    at_pos line (s + n) r1 ∧ room st2 r1 0 1 ∧ frame st st2 ∧ pp st2 = pp st + 1 ∧ arg_at st2 (pp st) w ∧
    cmdbuf st2 = cmdbuf st ∧ cmds st2 = cmds st.
Proof.
  intros Hp En Hr n. pose proof (next_tok_length _ _ _ En) as [L1 L2].
  destruct (next_tok_kind _ _ _ (ap_chars _ _ _ Hp) En) as (_ & Hw & _). destruct (Hw w eq_refl) as (c & w' & -> & Hc).
  destruct (token_written line s r st (Word (c :: w')) r1 0 1) as (st1 & E & Hp1 & F1 & Hs & Et & Ec & Hcb & X1 & X2 & X3 & X4); [done..|lia|lia|].
  cbn [text length] in *. destruct Hr as [[T1 T2] [P1 P2]]. assert (ptr_room st1 1) as Hpr by (split; rewrite ?X1, ?X2; lia).
  exists (write_ptr st1 (Some (cp st))). split_and!; try done.
  - unfold acmd_body. erewrite bind_ok by exact E. cbv beta iota. rewrite (proj2 (Z.eqb_neq _ 0)) by lia.
    erewrite bind_ok by (erewrite bind_ok by exact Et; reflexivity). cbn [List.hd]. rewrite Hc.
    by erewrite bind_ok by (by apply put_ptr_ok).
  - split; split; simpl; rewrite ?length_insert, ?X1, ?X2, ?Hcb, ?Ec; lia.
  - eapply frame_trans; [exact F1|]. apply frame_ptr; [done|lia].
  - simpl. lia.
  - exists (cp st). split_and!; [|done|cbn [length write_ptr cp set_args] in *; lia]. rewrite <-X1. by apply write_ptr_lookup.
Qed.

Lemma acmd_loop line cmd0 fuel r s cnt st :
  (length r < fuel)%nat → at_pos line s r → room st r 0 1 →
  ∃ ws r' st', loopM fuel (acmd_body line cmd0) (s, cnt) st =
      Ok ((cnt + (Z.of_nat (length r) - Z.of_nat (length r')), cmd0), st') ∧ acmd_post line s r st ws r' st'.
Proof.
  revert r s cnt st. induction fuel as [|n IH]; intros r s cnt st Hf Hp Hr; [lia|]. pose proof Hr as [[T1 T2] [P1 P2]].
  destruct (next_tok r) as [[[w|c] r1]|] eqn:En.
  - pose proof (next_tok_length _ _ _ En) as [Hl1 Hl2].
    destruct (acmd_word line cmd0 s r st cnt w r1) as (st2 & E & Hp1 & Hr2 & F & X3 & Ha & X5 & X6); [done..|].
    edestruct (IH r1) as (ws & r' & st' & E' & [Q1 Q2 Q3 Q4 Q5 Q6 Q7 Q8 Q9]); [lia|exact Hp1|exact Hr2|].
    exists (w :: ws), r', st'. split; [rewrite (loopM_step _ _ _ _ _ _ E); cbv iota; rewrite E'; do 3 f_equal; lia|].
    split; try done.
    + replace (s + (Z.of_nat (length r) - Z.of_nat (length r'))) with
        (s + (Z.of_nat (length r) - Z.of_nat (length r1)) + (Z.of_nat (length r1) - Z.of_nat (length r'))) by lia. done.
    + rewrite tokens_unfold, En, Q2. done.
    + pose proof (fr_pp _ _ Q5). pose proof (fr_cp _ _ Q5). destruct Ha as (p & A1 & A2 & A3).
      simpl. split_and!; [|lia|lia|by rewrite <-X3]. exists p. split_and!; [rewrite (fr_args _ _ Q5) by lia; done| |lia].
      by eapply frame_string.
    + by eapply frame_trans.
    + destruct Q6. split; congruence.
    + cbn [text length] in *. lia.
  - pose proof (next_tok_length _ _ _ En) as [Hl1 Hl2]. cbn [text length] in Hl1.
    destruct (token_written line s r st (Special c) r1 0 1) as (st1 & E & _ & F1 & _ & Et & Ec & Hcb & X1 & X2 & X3 & X4); [done..|lia|lia|].
    cbn [text length List.hd] in *. destruct (next_tok_kind _ _ _ (ap_chars _ _ _ Hp) En) as (_ & _ & Hsp).
    destruct (acmd_stop line s r st cnt cmd0 st1) as (st' & E' & Hpost); try done.
    { intros w r'. by rewrite En. } { split; rewrite ?X1, ?X2; lia. } { split; lia. } { split; lia. }
    exists [], r, st'. split; [|done]. rewrite Z.sub_diag, Z.add_0_r, (loopM_step n _ _ _ (inr (cnt, cmd0)) st'); [done|].
    unfold acmd_body. erewrite bind_ok by exact E. cbv beta iota. rewrite (proj2 (Z.eqb_neq _ 0)) by lia.
    erewrite bind_ok by (erewrite bind_ok by exact Et; reflexivity). rewrite (Hsp c eq_refl). exact E'.
  - destruct (acmd_stop line s r st cnt cmd0 st) as (st' & E' & Hpost); try done.
    { intros w r'. by rewrite En. } { split; lia. } { by rewrite En. }
    exists [], r, st'. split; [|done]. rewrite Z.sub_diag, Z.add_0_r, (loopM_step n _ _ _ (inr (cnt, cmd0)) st'); [done|].
    pose proof (nexttoken_ok line s r st Hp) as Hn. rewrite En in Hn. unfold acmd_body. erewrite bind_ok by exact Hn. exact E'.
Qed.

(** The program records from [ci] on are free. *)
Record chain_ok (st : statics) (ci : Z) : Prop := {
  ch_range : 0 ≤ ci ≤ 20;
  ch_length : length (cmdbuf st) = 20%nat;
  ch_cmds : cmds st = if ci <? 20 then Some ci else None;
  ch_next j : ci ≤ j < 20 → ∃ p, cmdbuf st !! Z.to_nat j = Some (mk_Pgm p (if j <? 19 then Some (j + 1) else None))
}.

(** The programs of a command, linked from the last to the first; their
    records are below [ci]. *)
Fixpoint pgms_at (st : statics) (ci : Z) (ptr : option Z) (pgms : list (list (list Z))) : Prop :=
  match pgms with
  | [] => ptr = None
  | ws :: pgms => ∃ i p nxt, ptr = Some i ∧ 0 ≤ i < ci ∧ cmdbuf st !! Z.to_nat i = Some (mk_Pgm p nxt) ∧
      args_at st p ws ∧ pgms_at st ci nxt pgms
  end.

Lemma pgms_frame st st' ci ci' ptr pgms :
  frame st st' → ci ≤ ci' → (∀ j, 0 ≤ j < ci → cmdbuf st' !! Z.to_nat j = cmdbuf st !! Z.to_nat j) →
  pgms_at st ci ptr pgms → pgms_at st' ci' ptr pgms.
Proof.
  intros F Hci Hc. revert ptr. induction pgms as [|ws pgms IH]; intros ptr; simpl; [done|].
  intros (i & p & nxt & -> & Hi & Hl & Ha & Hn). exists i, p, nxt. split_and!; [done|lia|lia| | |by apply IH].
  - by rewrite Hc.
  - by eapply frame_args.
Qed.

(** One program: [acmd] takes the record [ci] and fills in its arguments. *)
Lemma acmd_ok line s r st ci :
  at_pos line s r → room st r 0 1 → chain_ok st ci → ci < 20 →
  ∃ ws r' st', acmd line s st = Ok ((Z.of_nat (length r) - Z.of_nat (length r'), ci), st') ∧
    (∃ st0, acmd_post line s r st0 ws r' st' ∧ frame st st0 ∧ pp st0 = pp st) ∧ chain_ok st' (ci + 1) ∧
    cmdbuf st' !! Z.to_nat ci = Some (mk_Pgm (pp st) None) ∧
    ∀ j, 0 ≤ j < ci → cmdbuf st' !! Z.to_nat j = cmdbuf st !! Z.to_nat j.
Proof.
  intros Hp Hr [C1 C2 C3 C4] Hci. destruct (C4 ci) as [p0 Hp0]; [lia|].
  rewrite (proj2 (Z.ltb_lt _ _)) in C3 by lia. set (nxt := if ci <? 19 then Some (ci + 1) else None) in *.
  set (st0 := set_pgms (<[Z.to_nat ci := mk_Pgm (pp st) None]> (cmdbuf st)) nxt st).
  pose proof (at_pos_length _ _ _ Hp) as Hlen. pose proof (ap_pos _ _ _ Hp).
  destruct (acmd_loop line ci (S (length line)) r s 0 st0) as (ws & r' & st' & E & Hpost); [lia|done|by destruct Hr; split|].
  exists ws, r', st'. destruct (ac_pgms _ _ _ _ _ _ _ Hpost) as [G1 G2]. rewrite G1. cbn [st0 cmdbuf set_pgms]. split_and!.
  - unfold acmd. erewrite bind_ok by apply get_ok.
    erewrite bind_ok by (unfold get_pgm; rewrite C3, Hp0; reflexivity). erewrite bind_ok by done. erewrite bind_ok by done.
    exact E.
  - exists st0. split_and!; [done| |done]. destruct Hr as [[? ?] [? ?]]. by split.
  - split; [lia|rewrite G1; simpl; by rewrite length_insert| |].
    + rewrite G2. simpl. unfold nxt. destruct (Z.ltb_spec ci 19), (Z.ltb_spec (ci + 1) 20); (done || lia).
    + intros j Hj. rewrite G1. simpl. rewrite list_lookup_insert_ne by lia. apply C4. lia.
  - apply list_lookup_insert_eq. lia.
  - intros j Hj. apply list_lookup_insert_ne. lia.
Qed.

(** ** Commands *)

Definition name_at (st : statics) (p : option Z) (f : option (list Z)) : Prop :=
  match p, f with
  | Some p, Some f => string_at (cbuf st) p f ∧ p + Z.of_nat (length f) < cp st
  | None, None => True
  | _, _ => False
  end.

(** The arrays hold the command [sc]. *)
Record holds_command (st : statics) (ci : Z) (c : Command) (sc : command) : Prop := {
  hc_pgms : pgms_at st ci (pgm c) (programs sc);
  hc_in : name_at st (rstdin c) (in_file sc);
  hc_out : name_at st (rstdout c) (out_file sc);
  hc_err : rstderr c = None;
  hc_bg : background c = in_background sc
}.

Lemma name_frame st st' p f : frame st st' → name_at st p f → name_at st' p f.
Proof.
  intros F. pose proof (fr_cp _ _ F). destruct p as [p|], f as [f|]; simpl; try done.
  intros [H1 H2]. split; [by eapply frame_string|lia].
Qed.

Lemma command_frame st st' ci ci' c sc :
  frame st st' → ci ≤ ci' → (∀ j, 0 ≤ j < ci → cmdbuf st' !! Z.to_nat j = cmdbuf st !! Z.to_nat j) →
  holds_command st ci c sc → holds_command st' ci' c sc.
Proof.
  intros F Hci Hc [H1 H2 H3 H4 H5]. split; try done; [by eapply pgms_frame|by eapply name_frame..].
Qed.

Lemma name_is_none st p f : name_at st p f → bool_decide (p ≠ None) = negb (bool_decide (f = None)).
Proof. by destruct p, f. Qed.

(** Where the parser is: before a program or after one. *)
Definition mode_of (l : label) : mode := match l with Newcmd => InCmd [] | Newtoken => After end.

Record parsing (line : list Z) (l : label) (s : Z) (r : list Z) (st : statics) (ci : Z) (c : Command) (sc : command) : Prop := {
  ps_pos : at_pos line s r;
  ps_chain : chain_ok st ci;
  ps_command : holds_command st ci c sc;
  ps_pp : 0 ≤ pp st;
  ps_cp : text_room st 0;
  ps_text : match l with
            | Newcmd => text_room st (4 * Z.of_nat (length r))
            | Newtoken => ∀ t q, next_tok r = Some (t, q) → text_room st (4 * Z.of_nat (length r) - 2)
            end;
  ps_ptr : ptr_room st (Z.of_nat (length r) + match l with Newcmd => 1 | Newtoken => 0 end);
  ps_cmds : 2 * ci + Z.of_nat (length r) ≤ match l with Newcmd => 39 | Newtoken => 40 end
}.

Lemma parsing_weaken line s r st ci c sc : parsing line Newcmd s r st ci c sc → parsing line Newtoken s r st ci c sc.
Proof.
  intros [P1 P2 P3 P4 P5 P6 [P7 P8] P9]. split; try done; [|split; lia|lia].
  intros _ _ _. eapply text_room_le; [done|lia].
Qed.

Lemma command_of line l s r st ci c sc c' sc' :
  parsing line l s r st ci c sc → holds_command st ci c' sc' → parsing line l s r st ci c' sc'.
Proof. intros [P1 P2 P3 P4 P5 P6 P7 P8] H. by split. Qed.

(** Reading one token. *)
Lemma advance line s r st ci c sc t r1 :
  parsing line Newtoken s r st ci c sc → next_tok r = Some (t, r1) →
  ∃ n st1, nexttoken line s st = Ok ((n, cp st), st1) ∧ 0 < n ∧
    parsing line Newcmd (s + n) r1 st1 ci c sc ∧ (length r1 < length r)%nat ∧
    text_at (cp st) st1 = Ok (List.hd 0 (text t), st1) ∧
    string_at (cbuf st1) (cp st) (text t) ∧ cp st + Z.of_nat (length (text t)) < cp st1.
Proof.
  intros [P1 P2 P3 P4 P5 P6 [P7 P8] P9] En. pose proof (next_tok_length _ _ _ En) as [L1 L2]. destruct (P6 _ _ En) as [T1 T2].
  destruct (token_written line s r st t r1 2 0) as (st1 & E & Hp1 & F1 & Hs & Et & Ec & Hcb & X1 & X2 & X3 & X4); [done..|lia|lia|].
  exists (Z.of_nat (length r) - Z.of_nat (length r1)), st1. split_and!; [done|lia| |lia|done|done|lia].
  split; [done| | |lia|split; lia|split; lia|split; rewrite ?X1, ?X2; lia|lia].
  - destruct P2. split; by rewrite ?X3, ?X4.
  - apply (command_frame st st1 ci ci); [done|lia| |done]. intros j _. by rewrite X3.
Qed.

Lemma newcmd_ok line s r st ci c sc :
  parsing line Newcmd s r st ci c sc →
  ∃ ws r' res st', parse_step line (Newcmd, s, c) st = Ok (res, st') ∧ tokens r = (Word <$> ws) ++ tokens r' ∧ stops r' ∧
    match ws with
    | [] => res = inr (-1, c)
    | _ => ∃ s' c', res = inl (Newtoken, s', c') ∧ (length r' < length r)%nat ∧
        parsing line Newtoken s' r' st' (ci + 1) c' (add_program ws sc)
    end.
Proof.
  intros [P1 P2 P3 P4 P5 P6 P7 P8]. cbv iota in P6, P7, P8. pose proof (ch_range _ _ P2).
  destruct (acmd_ok line s r st ci) as (ws & r' & st' & E & (st0 & Hpost & F0 & Epp) & Hch & Hci & Hlow); [done|split; [eapply text_room_le; [exact P6|lia]|done]|done|lia|].
  destruct Hpost as [Q1 Q2 Q3 Q4 Q5 Q6 Q7 Q8 (R1 & R2 & R3)]. unfold parse_step. erewrite bind_ok by exact E. cbv beta iota.
  destruct ws as [|w ws].
  - rewrite (Q8 eq_refl), Z.sub_diag. exists [], r, (inr (-1, c)), st'. rewrite (Q8 eq_refl) in Q3. done.
  - cbn [length] in Q7. rewrite (proj2 (Z.leb_gt _ 0)) by lia. rewrite bind_ok with (a := (ci, mk_Pgm (pp st) None)) (s' := st').
    2: { unfold get_pgm. by rewrite Hci. }
    set (st2 := set_pgms (<[Z.to_nat ci := mk_Pgm (pp st) (pgm c)]> (cmdbuf st')) (cmds st') st').
    exists (w :: ws), r', (inl (Newtoken, s + (Z.of_nat (length r) - Z.of_nat (length r')),
      mk_Command (Some ci) (rstdin c) (rstdout c) (rstderr c) (background c))), st2.
    split_and!; [done|done|done|]. eexists _, _. split_and!; [done|lia|].
    assert (frame st st') as F by (by eapply frame_trans). pose proof (fr_pp _ _ F).
    assert (frame st' st2) as F2 by (destruct R1, R3; split; simpl; (done || lia)). destruct Hch as [C1 C2 C3 C4].
    split; [done| | |simpl; lia|done|done|split; simpl; [lia|destruct R3; lia]|lia].
    + split; [done|simpl; by rewrite length_insert|done|]. intros j Hj. simpl. rewrite list_lookup_insert_ne by lia. by apply C4.
    + destruct P3 as [H1 H2 H3 H4 H5]. assert (frame st st2) as F3 by (by eapply frame_trans).
      split; [cbn [pgm programs add_program pgms_at]|by eapply (name_frame st st2)..|done|done].
      exists ci, (pp st), (pgm c). split_and!; [done|lia|lia|apply list_lookup_insert_eq; lia| |].
      * apply (frame_args st' st2); [done|]. by rewrite <-Epp.
      * apply (pgms_frame st st2 ci); [done|lia| |done].
        intros j Hj. simpl. rewrite list_lookup_insert_ne by lia. by apply Hlow.
Qed.

(** What a round of [parse] does, in terms of the grammar. *)
Definition outcome (line : list Z) (l : label) (r : list Z) (sc : command) (st' : statics)
    (res : (label * Z * Command) + (Z * Command)) : Prop :=
  match res with
  | inr (v, c') =>
      match grammar (mode_of l) (tokens r) sc with
      | Some sc' => v = 1 ∧ ∃ ci, holds_command st' ci c' sc'
      | None => v = -1
      end
  | inl (l', s', c') =>
      ∃ r' ci sc', parsing line l' s' r' st' ci c' sc' ∧ (length r' < length r)%nat ∧ complete (tokens r') ∧
        grammar (mode_of l) (tokens r) sc = grammar (mode_of l') (tokens r') sc'
  end.

Lemma complete_rest ts ts' : complete (ts ++ ts') → complete ts'.
Proof. intros H. destruct ts' as [|t ts']; [by intros c Hc|]. by eapply complete_app. Qed.

Lemma newcmd_outcome line s r st ci c sc :
  parsing line Newcmd s r st ci c sc → complete (tokens r) →
  ∃ res st', parse_step line (Newcmd, s, c) st = Ok (res, st') ∧ outcome line Newcmd r sc st' res.
Proof.
  intros Hp Hc. destruct (newcmd_ok _ _ _ _ _ _ _ Hp) as (ws & r' & res & st' & E & Ht & Hs & Hres).
  exists res, st'. split; [done|].
  assert (grammar (InCmd []) (tokens r) sc = match ws with [] => None | _ => grammar After (tokens r') (add_program ws sc) end) as Hg.
  { rewrite Ht, grammar_words. cbn [app]. apply grammar_finish. by apply stops_tokens. }
  destruct ws as [|w ws]; [subst; simpl; by rewrite Hg|].
  destruct Hres as (s' & c' & -> & Hl & Hp'). simpl mode_of. exists r', (ci + 1), (add_program (w :: ws) sc).
  split_and!; [done|done| |done]. rewrite Ht in Hc. by eapply complete_rest.
Qed.

Lemma isspec_cases c : isspec c = true → c = PIPE ∨ c = BG ∨ c = RIN ∨ c = RUT.
Proof. unfold isspec. rewrite !orb_true_iff, !Z.eqb_eq. tauto. Qed.

Lemma special_not_id c : isspec c = true → idchar c = false.
Proof. by intros [-> | [-> | [-> | ->]]]%isspec_cases. Qed.

(** The name after a redirection. *)
Lemma file_name_ok line s r st ci c sc t r1 :
  parsing line Newtoken s r st ci c sc → next_tok r = Some (t, r1) →
  ∃ st1 s1 p, file_name line s st = Ok (if forallb idchar (text t) then Some (s1, p) else None, st1) ∧
    parsing line Newcmd s1 r1 st1 ci c sc ∧ (length r1 < length r)%nat ∧ name_at st1 (Some p) (Some (text t)).
Proof.
  intros Hp En. destruct (advance _ _ _ _ _ _ _ _ _ Hp En) as (n & st1 & E & Hn & Hp1 & Hl & _ & Hs & Hcp).
  exists st1, (s + n), (cp st). split_and!; [|done..]. unfold file_name. erewrite bind_ok by exact E. cbv beta iota.
  rewrite (proj2 (Z.ltb_ge _ _)) by lia. by erewrite bind_ok by (by apply isidentifier_ok).
Qed.

(** A redirection: [upd] and [supd] record the name. *)
Lemma redirect_outcome line s r st ci c sc r0 (upd : Z → Command) (supd : list Z → command) :
  parsing line Newtoken s r st ci c sc → tokens r ≠ [] → complete (tokens r) → (length r < length r0)%nat →
  (∀ st1 p f, holds_command st1 ci c sc → name_at st1 (Some p) (Some f) → holds_command st1 ci (upd p) (supd f)) →
  grammar After (tokens r0) sc = match tokens r with Word f :: ts => if forallb idchar f then grammar After ts (supd f) else None | _ => None end →
  ∃ res st', (r ← file_name line s;
      match r with
      | None => mret (inr (-1, c))
      | Some (t, f) => mret (inl (Newtoken, t, upd f))
      end) st = Ok (res, st') ∧ outcome line Newtoken r0 sc st' res.
Proof.
  intros Hp Hne Hc Hl Hupd Hg. rewrite (tokens_unfold r) in Hne, Hc, Hg. destruct (next_tok r) as [[t r1]|] eqn:En; [|done].
  destruct (file_name_ok _ _ _ _ _ _ _ _ _ Hp En) as (st1 & s1 & p & E & Hp1 & Hl1 & Hname).
  erewrite bind_ok by exact E. unfold outcome. simpl mode_of. rewrite Hg.
  destruct (forallb idchar (text t)) eqn:Hid.
  - destruct t as [f|k]; [|exfalso].
    + eexists _, _. split; [done|]. exists r1, ci, (supd f). cbn [text] in *. rewrite Hid. split_and!; [|lia| |done].
      * apply parsing_weaken. eapply command_of; [done|]. apply Hupd; [apply Hp1|done].
      * by eapply (complete_rest [_]).
    + destruct (next_tok_kind _ _ _ (ap_chars _ _ _ (ps_pos _ _ _ _ _ _ _ _ Hp)) En) as (_ & _ & Hk).
      simpl in Hid. by rewrite (special_not_id k (Hk k eq_refl)) in Hid.
  - eexists _, _. split; [done|]. destruct t as [f|k]; [|done]. cbn [text] in Hid. by rewrite Hid.
Qed.

Lemma holds_in st ci c sc p f :
  holds_command st ci c sc → name_at st (Some p) (Some f) →
  holds_command st ci (mk_Command (pgm c) (Some p) (rstdout c) (rstderr c) (background c))
    (mk_command (programs sc) (Some f) (out_file sc) (in_background sc)).
Proof. intros [H1 H2 H3 H4 H5] Hn. by split. Qed.

Lemma holds_out st ci c sc p f :
  holds_command st ci c sc → name_at st (Some p) (Some f) →
  holds_command st ci (mk_Command (pgm c) (rstdin c) (Some p) (rstderr c) (background c))
    (mk_command (programs sc) (in_file sc) (Some f) (in_background sc)).
Proof. intros [H1 H2 H3 H4 H5] Hn. by split. Qed.

Lemma redirect_tokens k r : complete (Special k :: tokens r) → k = RIN ∨ k = RUT → tokens r ≠ [].
Proof. intros H Hk E. rewrite E in H. destruct (H k eq_refl). naive_solver. Qed.

(** A special token after a program. *)
Lemma special_outcome line s r st ci c sc k r1 n tok st1 :
  parsing line Newcmd (s + n) r1 st1 ci c sc → next_tok r = Some (Special k, r1) → complete (tokens r) →
  nexttoken line s st = Ok ((n, tok), st1) → 0 < n → (length r1 < length r)%nat → isspec k = true →
  text_at tok st1 = Ok (k, st1) →
  ∃ res st', parse_step line (Newtoken, s, c) st = Ok (res, st') ∧ outcome line Newtoken r sc st' res.
Proof.
  intros Hp1 En Hc E Hn Hl Hsp Et. unfold parse_step. erewrite bind_ok by exact E. cbv beta iota zeta.
  rewrite (proj2 (Z.eqb_neq n 0)) by lia. erewrite bind_ok by exact Et.
  assert (tokens r = Special k :: tokens r1) as Ht by (by rewrite tokens_unfold, En). rewrite Ht in Hc.
  pose proof (complete_rest [_] _ Hc) as Hc1. pose proof (ps_command _ _ _ _ _ _ _ _ Hp1) as Hh.
  apply isspec_cases in Hsp as [-> | [-> | [-> | ->]]].
  - eexists _, _. split; [done|]. exists r1, ci, sc. split_and!; [done..|]. by rewrite Ht.
  - change (BG =? PIPE) with false. change (BG =? BG) with true. cbv iota.
    unfold outcome. rewrite Ht. simpl mode_of. cbn [grammar finish]. change (BG =? PIPE) with false. change (BG =? BG) with true. cbv iota.
    pose proof (nexttoken_ok line _ _ st1 (ps_pos _ _ _ _ _ _ _ _ Hp1)) as Hn1. rewrite (tokens_unfold r1).
    destruct (next_tok r1) as [[t r2]|] eqn:En1.
    + destruct (advance _ _ _ _ _ _ _ _ _ (parsing_weaken _ _ _ _ _ _ _ Hp1) En1) as (n1 & st2 & E1 & Hn2 & _).
      erewrite bind_ok by exact E1. cbn [fst]. rewrite (proj2 (Z.eqb_neq n1 0)) by lia. by eexists _, _.
    + erewrite bind_ok by exact Hn1. eexists _, _. split; [done|]. cbn [fst]. split; [done|].
      exists ci. destruct Hh as [H1 H2 H3 H4 H5]. by split.
  - change (RIN =? PIPE) with false. change (RIN =? BG) with false. change (RIN =? RIN) with true. cbv iota.
    rewrite (name_is_none st1 _ (in_file sc)) by apply Hh. destruct (in_file sc) as [f|] eqn:Ef.
    + eexists _, _. split; [done|]. unfold outcome. rewrite Ht. simpl. by rewrite Ef.
    + eapply (redirect_outcome line (s + n) r1 st1 ci c sc r _ (λ f, mk_command (programs sc) (Some f) (out_file sc) (in_background sc)));
        [by apply parsing_weaken|by eapply redirect_tokens; [exact Hc|left]|done|done|intros; by apply holds_in|].
      rewrite Ht. simpl. by rewrite Ef.
  - change (RUT =? PIPE) with false. change (RUT =? BG) with false. change (RUT =? RIN) with false. change (RUT =? RUT) with true. cbv iota.
    rewrite (name_is_none st1 _ (out_file sc)) by apply Hh. destruct (out_file sc) as [f|] eqn:Ef.
    + eexists _, _. split; [done|]. unfold outcome. rewrite Ht. simpl. by rewrite Ef.
    + eapply (redirect_outcome line (s + n) r1 st1 ci c sc r _ (λ f, mk_command (programs sc) (in_file sc) (Some f) (in_background sc)));
        [by apply parsing_weaken|by eapply redirect_tokens; [exact Hc|right]|done|done|intros; by apply holds_out|].
      rewrite Ht. simpl. by rewrite Ef.
Qed.

Lemma newtoken_outcome line s r st ci c sc :
  parsing line Newtoken s r st ci c sc → complete (tokens r) →
  ∃ res st', parse_step line (Newtoken, s, c) st = Ok (res, st') ∧ outcome line Newtoken r sc st' res.
Proof.
  intros Hp Hc. destruct (next_tok r) as [[t r1]|] eqn:En.
  - destruct (advance _ _ _ _ _ _ _ _ _ Hp En) as (n & st1 & E & Hn & Hp1 & Hl & Et & _).
    destruct (next_tok_kind _ _ _ (ap_chars _ _ _ (ps_pos _ _ _ _ _ _ _ _ Hp)) En) as (_ & Hw & Hk).
    destruct t as [w|k]; [|by eapply special_outcome; [exact Hp1|done..|exact E|lia|done|by apply Hk|exact Et]].
    destruct (Hw w eq_refl) as (x & w' & -> & Hx). cbn [text List.hd] in Et.
    assert (x =? PIPE = false ∧ x =? BG = false ∧ x =? RIN = false ∧ x =? RUT = false) as (X1 & X2 & X3 & X4).
    { unfold isspec in Hx. by repeat apply orb_false_iff in Hx as [Hx ?]. }
    exists (inr (-1, c)), st1. unfold parse_step. split.
    + erewrite bind_ok by exact E. cbv beta iota zeta. rewrite (proj2 (Z.eqb_neq n 0)) by lia. erewrite bind_ok by exact Et.
      by rewrite X1, X2, X3, X4.
    + unfold outcome. by rewrite tokens_unfold, En.
  - pose proof (nexttoken_ok line s r st (ps_pos _ _ _ _ _ _ _ _ Hp)) as Hn. rewrite En in Hn.
    exists (inr (1, c)), st. unfold parse_step. split; [by erewrite bind_ok by exact Hn|].
    unfold outcome. rewrite tokens_unfold, En. simpl. split; [done|]. exists ci. apply Hp.
Qed.

Lemma parse_loop_ok line fuel l s r st ci c sc :
  (length r < fuel)%nat → parsing line l s r st ci c sc → complete (tokens r) →
  ∃ v c' st', loopM fuel (parse_step line) (l, s, c) st = Ok ((v, c'), st') ∧
    match grammar (mode_of l) (tokens r) sc with
    | Some sc' => v = 1 ∧ ∃ ci, holds_command st' ci c' sc'
    | None => v = -1
    end.
Proof.
  revert l s r st ci c sc. induction fuel as [|n IH]; intros l s r st ci c sc Hf Hp Hc; [lia|].
  assert (∃ res st', parse_step line (l, s, c) st = Ok (res, st') ∧ outcome line l r sc st' res) as (res & st' & E & Ho).
  { destruct l; [by eapply newcmd_outcome|by eapply newtoken_outcome]. }
  rewrite (loopM_step _ _ _ _ _ _ E). destruct res as [[[l' s'] c']|[v c']]; simpl in Ho.
  - destruct Ho as (r' & ci' & sc' & Hp' & Hl & Hc' & ->). by apply (IH l' s' r' st' ci' c' sc'); [lia|..].
  - by exists v, c', st'.
Qed.

(** ** Properties *)

(** The static arrays as they are declared. *)
Record statics_ok (st : statics) : Prop := {
  so_cbuf : length (cbuf st) = 256%nat;
  so_pbuf : length (pbuf st) = 50%nat;
  so_cmdbuf : length (cmdbuf st) = 20%nat
}.

(** C9: of the lines of at most 39 characters, for which no array overflows,
    whose last token is not a redirection operator, [parse] accepts exactly
    those of the grammar, of programs with arguments joined by pipes,
    redirections and a final ampersand, and leaves the command in its static
    arrays, whatever these held before: the programs linked from the last to the
    first, their arguments ended by null pointers, the names of the files and
    the background flag.  A line that ends with a redirection operator is
    accepted although the name of the file is missing. *)
Theorem parse_correct st line :
  statics_ok st → Forall (λ c, c ≠ 0) line → (length line ≤ 39)%nat → complete (tokens line) →
  ∃ v c st', parse (line ++ [0]) st = Ok ((v, c), st') ∧
    match grammar (InCmd []) (tokens line) no_command with
    | Some sc => v = 1 ∧ ∃ ci, holds_command st' ci c sc
    | None => v = -1
    end.
Proof.
  intros [S1 S2 S3] Hz Hl Hc. unfold parse. erewrite bind_ok by done.
  apply (parse_loop_ok (line ++ [0]) _ Newcmd 0 line _ 0 _ no_command); [rewrite length_app; simpl; lia| |done].
  split; simpl; [done| |by split|lia|split; simpl; lia|split; simpl; lia|split; simpl; lia|lia].
  split; simpl; [lia|by rewrite length_imap|done|]. intros j Hj. rewrite list_lookup_imap.
  destruct (lookup_lt_is_Some_2 (cmdbuf st) (Z.to_nat j)) as [p Hp]; [lia|]. rewrite Hp. simpl. exists (pgmlist p).
  do 2 f_equal. destruct (Nat.ltb_spec (Z.to_nat j) 19), (Z.ltb_spec j 19); try lia; [|done]. f_equal. lia.
Qed.

(** ** Witness and examples *)

Definition fresh_statics : statics :=
  mk_statics (repeat 0 256) 0 (repeat None 50) 0 (repeat (mk_Pgm 0 None) 20) None.

(** The line "ls -l | wc > out &" *)
Definition demo_line : list Z := [108; 115; 32; 45; 108; 32; 124; 32; 119; 99; 32; 62; 32; 111; 117; 116; 32; 38].

Lemma parse_correct_witness :
  ∃ c st' ci, parse (demo_line ++ [0]) fresh_statics = Ok ((1, c), st') ∧
    holds_command st' ci c (mk_command [[[119; 99]]; [[108; 115]; [45; 108]]] None (Some [111; 117; 116]) true).
Proof.
  destruct (parse_correct fresh_statics demo_line) as (v & c & st' & E & H).
  - split; reflexivity.
  - repeat constructor; discriminate.
  - simpl. lia.
  - intros c. change (last (tokens demo_line)) with (Some (Special BG)). intros [= <-]. split; discriminate.
  - change (grammar (InCmd []) (tokens demo_line) no_command) with
      (Some (mk_command [[[119; 99]]; [[108; 115]; [45; 108]]] None (Some [111; 117; 116]) true)) in H.
    cbv iota in H. destruct H as [-> [ci H]]. exists c, st', ci. split; [exact E|exact H].
Defined.

(** The line "a <": the missing name is accepted, and the name is what the
    buffer holds after the tokens, here the end of an earlier line. *)
Example parse_missing_name :
  match (parse ([97; 98; 99; 100; 101; 102; 103; 104; 0]);; parse [97; 32; 60; 0]) fresh_statics with
  | Ok ((v, c), st) => v = 1 ∧ rstdin c = Some 6 ∧ slice 6 3 (cbuf st) = [103; 104; 0]
  | Err _ => False
  end.
Proof. vm_compute. repeat split. Qed.

(** Twenty-one programs in a pipeline: there is no record for the last one. *)
Example parse_too_many_programs :
  parse (concat (repeat [97; 124] 20) ++ [97; 0]) fresh_statics = Err BadAccess.
Proof. vm_compute. reflexivity. Qed.
