(* ===== verification/Shell.v ===== *)
(** * The shell: OS-lab1 code/lsh.c

    Command lines are stripped, parsed and either run as built-in commands or
    launched as a pipeline.  A process is its table of file descriptors; the
    outcome of a launch is the list of the programs that were started with
    [execvp], each with the table it starts with.  A fork runs the code that
    follows once for the child and once for the parent.  Whether [pipe],
    [fork], [open] and [execvp] succeed is up to the system: it is given by
    functions of the number of earlier calls, or of the file or program. *)

From S2P Require Import Prelude Bytes StdlibC Parse.

Abbreviation word := (list Z).

(** ** stripwhite *)

(** [size_t] is 64 bits wide.  [s] is the memory of the line. *)
Definition char_in (s : list Z) (i : Z) : result Z :=
  if i <? Z.of_nat (length s) then Ok (s !!! Z.to_nat i) else Err BadAccess.

Definition strlen_from (s : list Z) (i : Z) : result Z :=
  loop (S (length s)) (λ n, c ← char_in s (i + n); if c =? 0 then Ok (inr n) else Ok (inl (n + 1))) 0.

(** The string without its leading white space, moved to the front. *)
Definition move_front (s : list Z) : result (list Z) :=
  i ← loop (S (length s)) (λ i, c ← char_in s i; if isspace c then Ok (inl (i + 1)) else Ok (inr i)) 0;
  if negb (i =? 0) then n ← strlen_from s i; Ok (overwrite 0 (slice i (n + 1) s) s) else Ok s.

(** A terminator after the last character that is not white space. *)
Definition cut_end (s : list Z) : result (list Z) :=
  n ← strlen_from s 0;
  i ← loop (S (length s)) (λ i,
        if i >? 0 then c ← char_in s i; if isspace c then Ok (inl (u64 (i - 1))) else Ok (inr i)
        else Ok (inr i)) (u64 (n - 1));
  let i := u64 (i + 1) in
  if i <? Z.of_nat (length s) then Ok (<[Z.to_nat i := 0]> s) else Err BadAccess.

Definition stripwhite (s : list Z) : result (list Z) := s ← move_front s; cut_end s.

(** ** Built-in commands *)

Definition cd : word := [99; 100].
Definition exit_ : word := [101; 120; 105; 116].
Definition builtin_commands : list word := [cd; exit_].

Definition is_builtin_command (command : word) : bool := existsb (λ b, bool_decide (command = b)) builtin_commands.

Inductive builtin_action := Exit_success | Chdir (dir : word) | Home_not_set | No_action.

(** [home] is the value of HOME. *)
Definition execute_builtin (home : option word) (args : list word) : result builtin_action :=
  match args with
  | [] => Err BadAccess
  | command :: rest =>
      if bool_decide (command = exit_) then Ok Exit_success
      else if bool_decide (command = cd) then
        match rest, home with
        | dir :: _, _ => Ok (Chdir dir)
        | [], Some dir => Ok (Chdir dir)
        | [], None => Ok Home_not_set
        end
      else Ok No_action
  end.

(** ** Signals and the terminal *)

(** The process group that gets SIGINT. *)
Definition sigint_handler (foreground_pgid : Z) : option Z :=
  if foreground_pgid >? 0 then Some (- foreground_pgid) else None.

Inductive call := Setpgid (pid : Z) | Tcsetpgrp (pgid : Z) | Waitpid (pid : Z).

(** What the shell does after the fork, in the parent. *)
Definition parent_calls (background : bool) (pid shell_pgid : Z) : list call :=
  Setpgid pid :: if negb background then [Tcsetpgrp pid; Waitpid pid; Tcsetpgrp shell_pgid] else [].

(** ** File descriptors *)

Inductive endpoint := Inherited (n : Z) | PipeR (n : nat) | PipeW (n : nat) | InFile (f : word) | OutFile (f : word).

Abbreviation table := (gmap Z endpoint).

Fixpoint least_fd_from (fuel : nat) (fd : Z) (t : table) : Z :=
  match fuel with
  | O => fd
  | S n => match t !! fd with None => fd | Some _ => least_fd_from n (fd + 1) t end
  end.
Definition least_fd (t : table) : Z := least_fd_from (size t) 0 t.

Definition dup2 (a b : Z) (t : table) : option table :=
  match t !! a with Some e => Some (<[b := e]> t) | None => None end.
Definition close (a : Z) (t : table) : table := delete a t.

(** [None] means that the process exits. *)
Definition redirect_stdout (fd : Z * Z) (t : table) : option table :=
  t ← dup2 (snd fd) 1 t;
  let t := close (snd fd) t in
  Some (if 0 <=? fst fd then close (fst fd) t else t).

Definition redirect_stdin (fd : Z * Z) (t : table) : option table :=
  t ← dup2 (fst fd) 0 t;
  let t := close (fst fd) t in
  Some (if 0 <=? snd fd then close (snd fd) t else t).

(** ** Launching *)

(** Programs and their tables, with the numbers of pipes and forks so far. *)
Record world := mk_world { pipes : nat; forks : nat; started : list (list word * table) }.

Section launch.
Variable pipe_ok fork_ok : nat → bool.
Variable open_ok : word → bool.
Variable exec_ok : word → bool.

Definition redirect_stdout_to_file (file : word) (t : table) : option table :=
  if open_ok file then
    let out_fd := least_fd t in redirect_stdout (-1, out_fd) (<[out_fd := OutFile file]> t)
  else None.

Definition redirect_stdin_to_file (file : word) (t : table) : option table :=
  if open_ok file then
    let in_fd := least_fd t in redirect_stdin (in_fd, -1) (<[in_fd := InFile file]> t)
  else None.

Definition opt_redirect (f : word → table → option table) (file : option word) (t : table) : option table :=
  match file with Some n => f n t | None => Some t end.

Definition pipe (t : table) (w : world) : option (Z * Z * table * world) :=
  if pipe_ok (pipes w) then
    let r := least_fd t in
    let t := <[r := PipeR (pipes w)]> t in
    let x := least_fd t in
    Some (r, x, <[x := PipeW (pipes w)]> t, mk_world (S (pipes w)) (forks w) (started w))
  else None.

(** [execvp]: the program is started, or the code goes on. *)
Definition execvp (args : list word) (t : table) (w : world) : result (option world) :=
  match args with
  | [] => Err BadAccess
  | name :: _ => Ok (if exec_ok name then Some (mk_world (pipes w) (forks w) (started w ++ [(args, t)])) else None)
  end.

Definition fork (w : world) : bool * world := (fork_ok (forks w), mk_world (pipes w) (S (forks w)) (started w)).

(** The last program, which runs without a fork; [pgms] are the programs from
    [next_pgm] on. *)
Definition run_last (rstdin : option word) (pgms : list (list word)) (pipefd : Z * Z) (t : table) (w : world) : result world :=
  match opt_redirect redirect_stdin_to_file rstdin t with
  | None => Ok w
  | Some t =>
      match redirect_stdout pipefd t with
      | None => Ok w
      | Some t =>
          match pgms with
          | [] => Err BadAccess
          | args :: _ => r ← execvp args t w; Ok (match r with Some w => w | None => w end)
          end
      end
  end.

(** The loop over the programs in the middle. *)
Fixpoint run_middle (rstdin : option word) (pgms : list (list word)) (pipefd : Z * Z) (t : table) (w : world) : result world :=
  match pgms with
  | args :: ((_ :: _) as rest) =>
      let previous_pipe := pipefd in
      match pipe t w with
      | None => Ok w
      | Some (r, x, t, w) =>
          let pipefd := (r, x) in
          let '(ok, w) := fork w in
          w ← (if (ok : bool) then
                 (* the child *)
                 match redirect_stdout previous_pipe t with
                 | None => Ok w
                 | Some t' =>
                     match redirect_stdin pipefd t' with
                     | None => Ok w
                     | Some t' =>
                         r ← execvp args t' w;
                         match r with Some w => Ok w | None => run_middle rstdin rest pipefd t' w end
                     end
                 end
               else Ok w);
          let t := if (ok : bool) then close (snd previous_pipe) (close (fst previous_pipe) t) else t in
          run_middle rstdin rest pipefd t w
      end
  | _ => run_last rstdin pgms pipefd t w
  end.

(** The child of the shell, for the programs of a command, the last one
    first. *)
Definition run_child (rstdin rstdout : option word) (pgms : list (list word)) (t : table) (w : world) : result world :=
  let pipeline t w :=
    match pipe t w with
    | None => Ok w
    | Some (r, x, t, w) =>
        let pipefd := (r, x) in
        match pgms with
        | [] => Err BadAccess
        | args :: rest =>
            let '(ok, w) := fork w in
            w ← (if (ok : bool) then
                   match redirect_stdin pipefd t with
                   | None => Ok w
                   | Some t' =>
                       match opt_redirect redirect_stdout_to_file rstdout t' with
                       | None => Ok w
                       | Some t' =>
                           r ← execvp args t' w;
                           match r with Some w => Ok w | None => run_middle rstdin rest pipefd t' w end
                       end
                   end
                 else Ok w);
            run_middle rstdin rest pipefd t w
        end
    end in
  match pgms with
  | [args] =>
      match opt_redirect redirect_stdout_to_file rstdout t with
      | None => Ok w
      | Some t =>
          match opt_redirect redirect_stdin_to_file rstdin t with
          | None => Ok w
          | Some t => r ← execvp args t w; match r with Some w => Ok w | None => pipeline t w end
          end
      end
  | _ => pipeline t w
  end.

(** A command of the shell. *)
Inductive action := Run_builtin (b : builtin_action) | Launched (w : world).

Definition run_command (home : option word) (rstdin rstdout : option word) (pgms : list (list word)) (t : table) : result action :=
  match pgms with
  | [] => Err BadAccess
  | args :: rest =>
      match args with
      | [] => Err BadAccess
      | name :: _ =>
          if bool_decide (rest = []) && is_builtin_command name then
            b ← execute_builtin home args; Ok (Run_builtin b)
          else w ← run_child rstdin rstdout pgms t (mk_world 0 0 []); Ok (Launched w)
      end
  end.

End launch.
