(* ===== verification/ShellSpec.v ===== *)
(** * What the shell starts

    The programs of a pipeline are connected by pipes, each program starts
    with exactly the descriptors it should have, and [stripwhite] removes the
    white space around a line. *)

From S2P Require Import Prelude Bytes StdlibC Parse ParseSpec Shell.

(** ** The lowest free descriptor *)

Lemma full_table (t : table) n :
  (∀ j, 0 ≤ j < n → is_Some (t !! j)) → 0 ≤ n → n ≤ Z.of_nat (size t).
Proof.
  intros Hj Hn. assert ((list_to_set (seqZ 0 n) : gset Z) ⊆ dom t) as Hs.
  { intros j. rewrite elem_of_list_to_set, elem_of_seqZ, elem_of_dom. intros ?. apply Hj. lia. }
  apply subseteq_size in Hs. rewrite size_list_to_set, length_seqZ, size_dom in Hs by apply NoDup_seqZ. lia.
Qed.

Lemma least_fd_from_spec fuel fd (t : table) :
  0 ≤ fd → fd + Z.of_nat fuel = Z.of_nat (size t) → (∀ j, 0 ≤ j < fd → is_Some (t !! j)) →
  let r := least_fd_from fuel fd t in t !! r = None ∧ 0 ≤ r ∧ ∀ j, 0 ≤ j < r → is_Some (t !! j).
Proof.
  revert fd. induction fuel as [|n IH]; intros fd H0 Hs Hj; simpl.
  - split_and!; [|done|done]. destruct (t !! fd) eqn:E; [|done]. exfalso.
    assert (fd + 1 ≤ Z.of_nat (size t)); [|lia]. apply full_table; [|lia].
    intros j Hj'. destruct (decide (j = fd)) as [->|]; [by rewrite E|]. apply Hj. lia.
  - destruct (t !! fd) eqn:E; [|done]. apply IH; [lia|lia|].
    intros j Hj'. destruct (decide (j = fd)) as [->|]; [by rewrite E|]. apply Hj. lia.
Qed.

(** With the standard descriptors open, a new one is neither 0 nor 1. *)
Definition std_open (t : table) : Prop := is_Some (t !! 0) ∧ is_Some (t !! 1).

Lemma least_fd_new t : std_open t → t !! least_fd t = None ∧ 2 ≤ least_fd t.
Proof.
  intros [[e0 H0] [e1 H1]]. destruct (least_fd_from_spec (size t) 0 t) as (Hn & Hr & Hj); [lia|lia|lia|].
  fold (least_fd t) in *. split; [done|].
  assert (least_fd t ≠ 0) by congruence. assert (least_fd t ≠ 1) by congruence. lia.
Qed.

(** Equality of tables, descriptor by descriptor. *)
Ltac table_eq :=
  apply map_eq; let i := fresh "fd" in intros i;
  repeat first [rewrite lookup_insert | rewrite lookup_delete];
  repeat (case_decide; subst; try lia; try done; try congruence).

(** ** Redirections *)

(** The table in which 0 and 1 are the given ends. *)
Definition ends (i o : endpoint) (t : table) : table := <[0 := i]> (<[1 := o]> t).

Lemma redirect_to_out (t : table) r x e e' :
  t !! r = None → t !! x = None → 2 ≤ r → 2 ≤ x → r ≠ x →
  redirect_stdout (r, x) (<[x := e]> (<[r := e']> t)) = Some (<[1 := e]> t).
Proof.
  intros Hr Hx H1 H2 Hne. unfold redirect_stdout, dup2, close. cbn [fst snd]. rewrite lookup_insert_eq. cbn [mbind option_bind].
  rewrite (proj2 (Z.leb_le 0 r)) by lia. f_equal. table_eq.
Qed.

Lemma redirect_to_in (t : table) r x e e' :
  t !! r = None → t !! x = None → 2 ≤ r → 2 ≤ x → r ≠ x →
  redirect_stdin (r, x) (<[x := e']> (<[r := e]> t)) = Some (<[0 := e]> t).
Proof.
  intros Hr Hx H1 H2 Hne. unfold redirect_stdin, dup2, close. cbn [fst snd].
  rewrite lookup_insert_ne, lookup_insert_eq by done. cbn [mbind option_bind].
  rewrite (proj2 (Z.leb_le 0 x)) by lia. f_equal. table_eq.
Qed.

Section launch.
Variable pipe_ok fork_ok : nat → bool.
Variable open_ok : word → bool.
Variable exec_ok : word → bool.
Hypothesis pipes_work : ∀ n, pipe_ok n = true.
Hypothesis forks_work : ∀ n, fork_ok n = true.
Hypothesis files_open : ∀ f, open_ok f = true.
Hypothesis programs_exist : ∀ n, exec_ok n = true.

Lemma stdout_to_file_ok f t : std_open t → redirect_stdout_to_file open_ok f t = Some (<[1 := OutFile f]> t).
Proof.
  intros Ht. destruct (least_fd_new t Ht) as [Hn H2]. unfold redirect_stdout_to_file. rewrite files_open.
  unfold redirect_stdout, dup2, close. cbn [fst snd]. rewrite lookup_insert_eq. cbn [mbind option_bind]. f_equal. simpl. table_eq.
Qed.

Lemma stdin_to_file_ok f t : std_open t → redirect_stdin_to_file open_ok f t = Some (<[0 := InFile f]> t).
Proof.
  intros Ht. destruct (least_fd_new t Ht) as [Hn H2]. unfold redirect_stdin_to_file. rewrite files_open.
  unfold redirect_stdin, dup2, close. cbn [fst snd]. rewrite lookup_insert_eq. cbn [mbind option_bind]. f_equal. simpl. table_eq.
Qed.

Lemma pipe_table_ok t w :
  std_open t → ∃ r x, pipe pipe_ok t w = Some (r, x, <[x := PipeW (pipes w)]> (<[r := PipeR (pipes w)]> t),
      mk_world (S (pipes w)) (forks w) (started w)) ∧
    t !! r = None ∧ t !! x = None ∧ 2 ≤ r ∧ 2 ≤ x ∧ r ≠ x.
Proof.
  intros Ht. unfold pipe. rewrite pipes_work. destruct (least_fd_new t Ht) as [Hr Hr2]. set (r := least_fd t) in *.
  assert (std_open (<[r := PipeR (pipes w)]> t)) as Ht'.
  { destruct Ht as [[? H0] [? H1]]. split; rewrite lookup_insert_ne by lia; eauto. }
  destruct (least_fd_new _ Ht') as [Hx Hx2]. set (x := least_fd (<[r := PipeR (pipes w)]> t)) in *.
  apply lookup_insert_None in Hx as [Hx Hne]. by exists r, x.
Qed.

(** ** The pipeline *)

(** The standard input of the first program and the output of the last one. *)
Definition in_end (t : table) (f : option word) : table := match f with Some f => <[0 := InFile f]> t | None => t end.
Definition out_end (t : table) (f : option word) : table := match f with Some f => <[1 := OutFile f]> t | None => t end.

(** The programs from the one on that writes to pipe [k]. *)
Fixpoint wiring (t : table) (k : nat) (rstdin : option word) (pgms : list (list word)) : list (list word * table) :=
  match pgms with
  | [] => []
  | args :: rest =>
      (args, match rest with
             | [] => <[1 := PipeW k]> (in_end t rstdin)
             | _ => <[0 := PipeR (S k)]> (<[1 := PipeW k]> t)
             end) :: wiring t (S k) rstdin rest
  end.

(** What the programs of a command, the last one first, should start with. *)
Definition wired (t : table) (rstdin rstdout : option word) (pgms : list (list word)) : list (list word * table) :=
  match pgms with
  | [] => []
  | [args] => [(args, in_end (out_end t rstdout) rstdin)]
  | args :: rest => (args, out_end (<[0 := PipeR 0]> t) rstdout) :: wiring t 0 rstdin rest
  end.

Definition has_name (args : list word) : Prop := args ≠ [].

Lemma exec_ok_run args t w :
  has_name args → execvp exec_ok args t w = Ok (Some (mk_world (pipes w) (forks w) (started w ++ [(args, t)]))).
Proof. intros Ha. unfold execvp. destruct args; [done|]. by rewrite programs_exist. Qed.

Lemma std_insert t k e : std_open t → std_open (<[k := e]> t).
Proof. intros [H0 H1]. split; apply lookup_insert_is_Some'; by right. Qed.

Lemma opt_in_ok f t : std_open t → opt_redirect (redirect_stdin_to_file open_ok) f t = Some (in_end t f).
Proof. intros Ht. destruct f; [|done]. by apply stdin_to_file_ok. Qed.

Lemma opt_out_ok f t : std_open t → opt_redirect (redirect_stdout_to_file open_ok) f t = Some (out_end t f).
Proof. intros Ht. destruct f; [|done]. by apply stdout_to_file_ok. Qed.

Lemma in_end_pipe t r x k f :
  2 ≤ r → 2 ≤ x → in_end (<[x := PipeW k]> (<[r := PipeR k]> t)) f = <[x := PipeW k]> (<[r := PipeR k]> (in_end t f)).
Proof. intros Hr Hx. destruct f; [|done]. simpl. table_eq. Qed.

Lemma in_end_none t f r : 2 ≤ r → t !! r = None → in_end t f !! r = None.
Proof. intros Hr Ht. destruct f; [|done]. simpl. by rewrite lookup_insert_ne by lia. Qed.

(** The last program gets the input file and the write end of the pipe. *)
Lemma run_last_ok rstdin args t r x k w :
  std_open t → t !! r = None → t !! x = None → 2 ≤ r → 2 ≤ x → r ≠ x → has_name args →
  run_last open_ok exec_ok rstdin [args] (r, x) (<[x := PipeW k]> (<[r := PipeR k]> t)) w =
  Ok (mk_world (pipes w) (forks w) (started w ++ [(args, <[1 := PipeW k]> (in_end t rstdin))])).
Proof.
  intros Ht Hr Hx Hr2 Hx2 Hne Ha. unfold run_last. rewrite opt_in_ok by (by do 2 apply std_insert).
  rewrite in_end_pipe by done. rewrite redirect_to_out by (done || by apply in_end_none).
  by rewrite (result_bind_ok _ _ _ (exec_ok_run _ _ _ Ha)).
Qed.

Lemma run_middle_ok rstdin pgms t r x w :
  std_open t → t !! r = None → t !! x = None → 2 ≤ r → 2 ≤ x → r ≠ x → pgms ≠ [] → Forall has_name pgms →
  ∀ k, pipes w = S k →
  ∃ w', run_middle pipe_ok fork_ok open_ok exec_ok rstdin pgms (r, x) (<[x := PipeW k]> (<[r := PipeR k]> t)) w = Ok w' ∧
    started w' = started w ++ wiring t k rstdin pgms.
Proof.
  revert r x w. induction pgms as [|args rest IH]; intros r x w Ht Hr Hx Hr2 Hx2 Hne Hp Hn k Hk; [done|].
  apply Forall_cons in Hn as [Ha Hn]. destruct rest as [|args2 rest].
  { eexists. split; [by apply run_last_ok|done]. }
  set (t1 := <[x := PipeW k]> (<[r := PipeR k]> t)). assert (std_open t1) as Ht1 by (by do 2 apply std_insert).
  destruct (pipe_table_ok t1 w Ht1) as (r2 & x2 & Ep & R1 & R2 & R3 & R4 & R5). rewrite Hk in Ep.
  unfold t1 in R1, R2. apply lookup_insert_None in R1 as [R1 Q1], R2 as [R2 Q2].
  apply lookup_insert_None in R1 as [R1 Q3], R2 as [R2 Q4]. cbn [run_middle]. fold t1. rewrite Ep. unfold fork.
  rewrite forks_work. cbn [pipes forks started fst snd].
  assert (<[x2 := PipeW (S k)]> (<[r2 := PipeR (S k)]> t1) =
    <[x := PipeW k]> (<[r := PipeR k]> (<[x2 := PipeW (S k)]> (<[r2 := PipeR (S k)]> t)))) as Et by (unfold t1; table_eq).
  rewrite Et, redirect_to_out; [|rewrite !lookup_insert_ne by done; done..|done|done|done].
  assert (<[1 := PipeW k]> (<[x2 := PipeW (S k)]> (<[r2 := PipeR (S k)]> t)) =
    <[x2 := PipeW (S k)]> (<[r2 := PipeR (S k)]> (<[1 := PipeW k]> t))) as Et2 by table_eq.
  rewrite Et2, redirect_to_in; [|rewrite !lookup_insert_ne by lia; done..|done|done|done].
  rewrite (result_bind_ok _ _ _ (exec_ok_run _ _ _ Ha)). cbn [mbind result_bind].
  assert (close x (close r (<[x := PipeW k]> (<[r := PipeR k]> (<[x2 := PipeW (S k)]> (<[r2 := PipeR (S k)]> t))))) =
    <[x2 := PipeW (S k)]> (<[r2 := PipeR (S k)]> t)) as Et3 by (unfold close; table_eq).
  rewrite Et3. destruct (IH r2 x2 (mk_world (S (S k)) (S (forks w)) (started w ++ [(args, <[0 := PipeR (S k)]> (<[1 := PipeW k]> t))])))
    with (k := S k) as (w' & E & Hs); [done..|].
  exists w'. split; [exact E|]. rewrite Hs. cbn [started]. rewrite <-app_assoc. done.
Qed.

Lemma run_child_ok rstdin rstdout pgms t :
  std_open t → pgms ≠ [] → Forall has_name pgms →
  ∃ w', run_child pipe_ok fork_ok open_ok exec_ok rstdin rstdout pgms t (mk_world 0 0 []) = Ok w' ∧
    started w' = wired t rstdin rstdout pgms.
Proof.
  intros Ht Hp Hn. destruct pgms as [|args [|args2 rest]]; [done| |]; apply Forall_cons in Hn as [Ha Hn]; unfold run_child.
  - rewrite opt_out_ok by done.
    assert (std_open (out_end t rstdout)) as Ht' by (destruct rstdout; [by apply std_insert|done]).
    rewrite opt_in_ok by done. rewrite (result_bind_ok _ _ _ (exec_ok_run _ _ _ Ha)). by eexists.
  - destruct (pipe_table_ok t (mk_world 0 0 []) Ht) as (r & x & -> & R1 & R2 & R3 & R4 & R5). unfold fork.
    rewrite forks_work. cbn [pipes forks started]. rewrite redirect_to_in by done.
    rewrite opt_out_ok by (by apply std_insert). rewrite (result_bind_ok _ _ _ (exec_ok_run _ _ _ Ha)). cbn [mbind result_bind].
    destruct (run_middle_ok rstdin (args2 :: rest) t r x
      (mk_world 1 1 [(args, out_end (<[0 := PipeR 0]> t) rstdout)])) with (k := 0%nat) as (w' & E & Hs); [done..|].
    exists w'. split; [exact E|]. by rewrite Hs.
Qed.

End launch.

(** ** Properties *)

(** C10: if every call of pipe, fork, open and execvp succeeds, launching a
    command starts its programs, each exactly once, with the
    tables they should have: every program but the first reads from the pipe
    that the program before it writes to, the first reads from the input file
    and the last writes to the output file, or they keep the descriptors of the
    shell.  No program has any other end of a pipe open, so that a reader sees
    the end of its input when the writer ends. *)
Theorem pipeline_wired pipe_ok fork_ok open_ok exec_ok rstdin rstdout pgms t :
  (∀ n, pipe_ok n = true) → (∀ n, fork_ok n = true) → (∀ f, open_ok f = true) → (∀ name, exec_ok name = true) →
  std_open t → pgms ≠ [] → Forall has_name pgms →
  (∃ w, run_child pipe_ok fork_ok open_ok exec_ok rstdin rstdout pgms t (mk_world 0 0 []) = Ok w ∧
     started w = wired t rstdin rstdout pgms) ∧
  ∀ args u fd e, (args, u) ∈ wired t rstdin rstdout pgms → fd ≠ 0 → fd ≠ 1 → u !! fd = Some e → t !! fd = Some e.
Proof.
  intros Hpipe Hfork Hopen Hexec Ht Hp Hn. split; [by apply run_child_ok|].
  assert (∀ u f fd, fd ≠ 0 → in_end u f !! fd = u !! fd) as Hi by (intros u [f|] fd ?; simpl; [by rewrite lookup_insert_ne|done]).
  assert (∀ u f fd, fd ≠ 1 → out_end u f !! fd = u !! fd) as Ho by (intros u [f|] fd ?; simpl; [by rewrite lookup_insert_ne|done]).
  assert (∀ l k args u fd, (args, u) ∈ wiring t k rstdin l → fd ≠ 0 → fd ≠ 1 → u !! fd = t !! fd) as Hw.
  { induction l as [|a l IH]; intros k args u fd Hin H0 H1; simpl in Hin; [by apply elem_of_nil in Hin|].
    apply elem_of_cons in Hin as [[= -> ->]|Hin]; [|by eapply IH]. destruct l; rewrite !lookup_insert_ne by done; [by apply Hi|done]. }
  intros args u fd e Hin H0 H1 Hu. destruct pgms as [|a [|b l]]; [done| |]; simpl wired in Hin.
  - apply list_elem_of_singleton in Hin as [= -> ->]. by rewrite Hi, Ho in Hu.
  - apply elem_of_cons in Hin as [[= -> ->]|Hin].
    + by rewrite Ho, lookup_insert_ne in Hu.
    + by rewrite (Hw (b :: l) 0%nat _ _ _ Hin H0 H1) in Hu.
Qed.


(** ** stripwhite *)

(** [line] with the white space at both ends taken away. *)
Definition strip (line : list Z) : list Z := reverse (skip_space (reverse (skip_space line))).

Definition blank (line : list Z) : Prop := Forall (λ c, isspace c = true) line.

Lemma char_in_ok s i c : 0 ≤ i → s !! Z.to_nat i = Some c → char_in s i = Ok c.
Proof.
  intros Hi Hc. pose proof (lookup_lt_Some _ _ _ Hc). unfold char_in. rewrite (proj2 (Z.ltb_lt _ _)) by lia.
  by rewrite (list_lookup_total_correct _ _ _ Hc).
Qed.

Lemma loop_step {L A} n (body : L → result (L + A)) l r :
  body l = Ok r → loop (S n) body l = match r with inl l' => loop n body l' | inr a => Ok a end.
Proof. intros E. unfold loop. rewrite E. by destruct r. Qed.

(** The loop over leading white space. *)
Lemma lead_loop_ok pre line rest fuel :
  (length line < fuel)%nat →
  loop fuel (λ i, c ← char_in (pre ++ line ++ 0 :: rest) i; if isspace c then Ok (inl (i + 1)) else Ok (inr i)) (Z.of_nat (length pre)) =
  Ok (Z.of_nat (length pre) + Z.of_nat (length line - length (skip_space line))).
Proof.
  revert pre fuel. induction line as [|c line IH]; intros pre fuel Hf; (destruct fuel as [|n]; [simpl in Hf; lia|]).
  - assert (char_in (pre ++ [] ++ 0 :: rest) (Z.of_nat (length pre)) = Ok 0) as E.
    { apply char_in_ok; [lia|]. by rewrite Nat2Z.id, lookup_app_r, Nat.sub_diag by done. }
    erewrite loop_step by (rewrite (result_bind_ok _ _ _ E); reflexivity). f_equal. simpl. lia.
  - cbn [app]. assert (char_in (pre ++ c :: line ++ 0 :: rest) (Z.of_nat (length pre)) = Ok c) as E.
    { apply char_in_ok; [lia|]. by rewrite Nat2Z.id, lookup_app_r, Nat.sub_diag by done. }
    cbn [skip_space]. destruct (isspace c) eqn:Hs; erewrite loop_step by (rewrite (result_bind_ok _ _ _ E), Hs; reflexivity).
    + specialize (IH (pre ++ [c]) n). rewrite <-app_assoc, length_app in IH. cbn [app length] in IH.
      replace (Z.of_nat (length pre) + 1) with (Z.of_nat (length pre + 1)) by lia. cbn [length] in Hf |- *.
      rewrite IH by lia. f_equal. pose proof (skip_space_length line). lia.
    + f_equal. lia.
Qed.

(** [strlen] of the string that starts at position [i]. *)
Lemma strlen_from_ok pre line rest :
  Forall (λ c, c ≠ 0) line →
  strlen_from (pre ++ line ++ 0 :: rest) (Z.of_nat (length pre)) = Ok (Z.of_nat (length line)).
Proof.
  intros Hz. unfold strlen_from.
  destruct (loop_rule (λ m n, 0 ≤ n ≤ Z.of_nat (length line) ∧ Z.of_nat m = Z.of_nat (length line) - n) (λ n, n = Z.of_nat (length line))
    (λ n, c ← char_in (pre ++ line ++ 0 :: rest) (Z.of_nat (length pre) + n); if c =? 0 then Ok (inr n) else Ok (inl (n + 1))))
    with (fuel := S (length (pre ++ line ++ 0 :: rest))) (n := length line) (l := 0) as (n & E & ->); [|lia| |done].
  - intros m n [Hn Hm]. destruct (decide (n = Z.of_nat (length line))) as [->|Hne].
    + rewrite (result_bind_ok _ _ 0); [by eexists|]. apply char_in_ok; [lia|].
      rewrite lookup_app_r by lia. rewrite lookup_app_r by lia.
      by replace (Z.to_nat (Z.of_nat (length pre) + Z.of_nat (length line)) - length pre - length line)%nat with 0%nat by lia.
    + destruct (lookup_lt_is_Some_2 line (Z.to_nat n)) as [c Hc]; [lia|].
      rewrite (result_bind_ok _ _ c).
      * rewrite (proj2 (Z.eqb_neq c 0)) by (by apply (Forall_lookup_1 _ _ _ _ Hz Hc)). eexists. split; [done|].
        exists (m - 1)%nat. lia.
      * apply char_in_ok; [lia|]. rewrite lookup_app_r by lia. rewrite lookup_app_l by lia. rewrite <-Hc. f_equal. lia.
  - rewrite !length_app. simpl. lia.
Qed.

(** The loop over trailing white space: it stops at the last character that is
    not white space. *)
Lemma trail_loop_ok x line c sp rest fuel :
  isspace c = false → blank sp → x = line ++ c :: sp ++ rest → (length line + length sp < fuel)%nat →
  Z.of_nat (length line + length sp) < 2 ^ 64 →
  loop fuel (λ i, if i >? 0 then c ← char_in x i; if isspace c then Ok (inl (u64 (i - 1))) else Ok (inr i) else Ok (inr i))
    (Z.of_nat (length line + length sp)) = Ok (Z.of_nat (length line)).
Proof.
  intros Hc Hsp ->. revert rest fuel. induction sp as [|b sp IH] using rev_ind; intros rest fuel Hf Hlt.
  - destruct fuel as [|n]; [lia|]. rewrite Nat.add_0_r in *. destruct (decide (length line = 0)%nat) as [E0|Hne].
    + erewrite loop_step by (rewrite E0; reflexivity). by rewrite E0.
    + erewrite loop_step; [|rewrite (proj2 (Z.gtb_lt _ _)) by lia; rewrite (result_bind_ok _ _ c); [by rewrite Hc|]]; [done|].
      apply char_in_ok; [lia|]. by rewrite Nat2Z.id, lookup_app_r, Nat.sub_diag by done.
  - apply Forall_app in Hsp as [Hsp Hb]. rewrite Forall_singleton in Hb. rewrite length_app in *. cbn [length] in *.
    destruct fuel as [|n]; [lia|]. erewrite loop_step.
    2: { rewrite (proj2 (Z.gtb_lt _ _)) by lia. rewrite (result_bind_ok _ _ b); [by rewrite Hb|].
         apply char_in_ok; [lia|]. rewrite Nat2Z.id, lookup_app_r by lia.
         replace (length line + (length sp + 1) - length line)%nat with (S (length sp)) by lia. simpl.
         rewrite <-app_assoc, lookup_app_r, Nat.sub_diag by lia. done. }
    cbv iota. rewrite u64_small by lia. replace (Z.of_nat (length line + (length sp + 1)) - 1) with (Z.of_nat (length line + length sp)) by lia.
    rewrite <-app_assoc. apply IH; (done || lia).
Qed.

Lemma skip_space_blank line : blank line → skip_space line = [].
Proof. induction 1 as [|c line Hc _ IH]; simpl; [done|]. by rewrite Hc. Qed.

(** A line that is not blank ends with a character that is not white space,
    followed by white space. *)
Lemma last_nonblank q : ¬ blank q → ∃ l c sp, q = l ++ c :: sp ∧ isspace c = false ∧ blank sp.
Proof.
  induction q as [|c q IH] using rev_ind; intros Hb; [destruct Hb; by constructor|].
  destruct (isspace c) eqn:Hc; [|exists q, c, []; split_and!; [done|done|by constructor]].
  destruct IH as (l & x & sp & -> & Hx & Hsp).
  - intros Hq. apply Hb. apply Forall_app_2; [done|by constructor].
  - exists l, x, (sp ++ [c]). split_and!; [by rewrite <-app_assoc|done|apply Forall_app_2; [done|by constructor]].
Qed.

Lemma skip_space_nonblank line : ¬ blank line → ¬ blank (skip_space line).
Proof.
  induction line as [|c line IH]; simpl; [done|]. intros Hb. destruct (isspace c) eqn:Hc.
  - apply IH. intros Hl. apply Hb. by constructor.
  - intros Hl. inversion Hl. congruence.
Qed.

Lemma reverse_strip l c sp : isspace c = false → blank sp → reverse (skip_space (reverse (l ++ c :: sp))) = l ++ [c].
Proof.
  intros Hc Hsp. rewrite reverse_app, reverse_cons, <-app_assoc.
  assert (skip_space (reverse sp ++ [c] ++ reverse l) = c :: reverse l) as ->.
  { assert (blank (reverse sp)) as H by (by apply Forall_reverse). induction H as [|x s Hx _ IH]; simpl; [by rewrite Hc|by rewrite Hx]. }
  by rewrite reverse_cons, reverse_involutive.
Qed.

Lemma move_front_ok line rest :
  Forall (λ c, c ≠ 0) line →
  ∃ rest', move_front (line ++ 0 :: rest) = Ok (skip_space line ++ 0 :: rest') ∧
    length (skip_space line ++ 0 :: rest') = length (line ++ 0 :: rest).
Proof.
  intros Hz. destruct (skip_space_suffix line) as [sp Hsp]. set (q := skip_space line) in *.
  pose proof (f_equal length Hsp) as Hl. rewrite length_app in Hl. unfold move_front.
  rewrite (result_bind_ok _ _ (Z.of_nat (length sp))).
  2: { pose proof (lead_loop_ok [] line rest (S (length (line ++ 0 :: rest)))) as E. cbn [app length] in E. fold q in E.
       change (Z.of_nat 0) with 0 in E. rewrite E by (rewrite length_app; simpl; lia). f_equal. lia. }
  destruct (Z.eqb_spec (Z.of_nat (length sp)) 0) as [E0|Hne]; cbn [negb].
  - assert (sp = []) as -> by (by destruct sp). exists rest. by rewrite Hsp.
  - assert (line ++ 0 :: rest = sp ++ q ++ 0 :: rest) as Eq by (rewrite Hsp at 1; by rewrite <-app_assoc).
    rewrite Eq. rewrite (result_bind_ok _ _ (Z.of_nat (length q))).
    2: { apply strlen_from_ok. rewrite Hsp in Hz. by apply Forall_app in Hz as [_ Hz]. }
    assert (slice (Z.of_nat (length sp)) (Z.of_nat (length q) + 1) (sp ++ q ++ 0 :: rest) = q ++ [0]) as Es.
    { unfold slice. rewrite Nat2Z.id, drop_app_length. replace (Z.to_nat (Z.of_nat (length q) + 1)) with (length (q ++ [0])) by (rewrite length_app; simpl; lia).
      replace (q ++ 0 :: rest) with ((q ++ [0]) ++ rest) by (by rewrite <-app_assoc). apply take_app_length. }
    rewrite Es. exists (drop (length (q ++ [0])) (sp ++ q ++ 0 :: rest)). split.
    + f_equal. unfold overwrite. simpl. by rewrite <-app_assoc.
    + rewrite !length_app. cbn [length]. rewrite length_drop, !length_app. cbn [length]. lia.
Qed.

Lemma cut_end_ok l c sp rest :
  Forall (λ c, c ≠ 0) (l ++ c :: sp) → isspace c = false → blank sp → Z.of_nat (length (l ++ c :: sp)) < 2 ^ 63 →
  ∃ rest', cut_end ((l ++ c :: sp) ++ 0 :: rest) = Ok ((l ++ [c]) ++ 0 :: rest').
Proof.
  intros Hz Hc Hsp Hlen. unfold cut_end. rewrite length_app in Hlen. cbn [length] in Hlen.
  rewrite (result_bind_ok _ _ (Z.of_nat (length (l ++ c :: sp)))) by (by apply (strlen_from_ok [])).
  assert (u64 (Z.of_nat (length (l ++ c :: sp)) - 1) = Z.of_nat (length l + length sp)) as ->
    by (rewrite length_app; cbn [length]; rewrite u64_small; lia).
  rewrite (result_bind_ok _ _ (Z.of_nat (length l))).
  2: { apply (trail_loop_ok _ l c sp (0 :: rest)); [done|done|by rewrite <-app_assoc|rewrite !length_app; simpl; lia|lia]. }
  cbv zeta. rewrite u64_small by lia. rewrite (proj2 (Z.ltb_lt _ _)) by (rewrite !length_app; simpl; lia).
  assert (∃ x tl, sp ++ 0 :: rest = x :: tl) as (x & tl & E) by (destruct sp; simpl; eauto).
  exists tl. f_equal. rewrite <-!app_assoc. cbn [app]. rewrite E.
  replace (Z.to_nat (Z.of_nat (length l) + 1)) with (length l + 1)%nat by lia. by rewrite insert_app_r.
Qed.

(** [stripwhite] removes the white space at both ends of a line that has
    another character.  On an empty or blank line it reads the byte before the
    string. *)
Theorem stripwhite_correct line rest :
  Forall (λ c, c ≠ 0) line → Z.of_nat (length (line ++ 0 :: rest)) < 2 ^ 63 →
  (¬ blank line → ∃ rest', stripwhite (line ++ 0 :: rest) = Ok (strip line ++ 0 :: rest')) ∧
  (blank line → stripwhite (line ++ 0 :: rest) = Err BadAccess).
Proof.
  intros Hz Hlen. destruct (move_front_ok line rest Hz) as (rest1 & E & Hl). unfold stripwhite. rewrite (result_bind_ok _ _ _ E). split.
  - intros Hb. destruct (last_nonblank _ (skip_space_nonblank _ Hb)) as (l & c & sp & Eq & Hc & Hsp).
    unfold strip. rewrite Eq, reverse_strip by done. apply cut_end_ok; [|done|done|].
    + rewrite <-Eq. destruct (skip_space_suffix line) as [s Hs]. rewrite Hs in Hz. by apply Forall_app in Hz as [_ Hz].
    + rewrite <-Eq. rewrite <-Hl, length_app in Hlen. lia.
  - intros Hb. rewrite (skip_space_blank _ Hb) in *. cbn [app] in *. rewrite <-Hl in Hlen.
    unfold cut_end. rewrite (result_bind_ok _ _ 0) by (by apply (strlen_from_ok [] [])).
    change (u64 (0 - 1)) with (2 ^ 64 - 1). unfold loop at 1. rewrite (proj2 (Z.gtb_lt (2 ^ 64 - 1) 0)) by lia.
    unfold char_in. by rewrite (proj2 (Z.ltb_ge (2 ^ 64 - 1) _)) by lia.
Qed.

(** ** Witnesses and an example *)

Definition demo_fds : table := {[0 := Inherited 0; 1 := Inherited 1; 2 := Inherited 2]}.
Definition works {A} (_ : A) : bool := true.

Lemma pipeline_wired_witness :
  ∃ w, run_child works works works works (Some [105]) None [[[99]]; [[98]; [120]]; [[97]]] demo_fds (mk_world 0 0 []) = Ok w ∧
    started w =
      [([[99]], <[0 := PipeR 0]> demo_fds);
       ([[98]; [120]], <[0 := PipeR 1]> (<[1 := PipeW 0]> demo_fds));
       ([[97]], <[1 := PipeW 1]> (<[0 := InFile [105]]> demo_fds))].
Proof.
  destruct (pipeline_wired works works works works (Some [105]) None [[[99]]; [[98]; [120]]; [[97]]] demo_fds
    (λ _, eq_refl) (λ _, eq_refl) (λ _, eq_refl) (λ _, eq_refl)) as [(w & E & Hs) _].
  - split; vm_compute; eexists; reflexivity.
  - discriminate.
  - repeat constructor; discriminate.
  - exists w. split; [exact E|exact Hs].
Defined.

Lemma stripwhite_correct_witness :
  ∃ rest', stripwhite ([32; 97; 32; 98; 9] ++ 0 :: []) = Ok ([97; 32; 98] ++ 0 :: rest') ∧
    stripwhite ([32; 32] ++ 0 :: []) = Err BadAccess.
Proof.
  destruct (stripwhite_correct [32; 97; 32; 98; 9] []) as [H _].
  - repeat constructor; discriminate.
  - simpl. lia.
  - destruct (stripwhite_correct [32; 32] []) as [_ H2].
    + repeat constructor; discriminate.
    + simpl. lia.
    + destruct H as [rest' E]; [intros Hb; inversion Hb as [|? ? _ Hb']; inversion Hb' as [|? ? Hb'' _]; discriminate Hb''|].
      exists rest'. split; [exact E|]. apply H2. repeat constructor.
Defined.

(** A program that does not exist: the child of the shell goes on to the code
    for pipelines and dereferences the null pointer after its only program. *)
Example missing_program_faults :
  run_child works works works (λ _, false) None None [[[97]]] demo_fds (mk_world 0 0 []) = Err BadAccess.
Proof. vm_compute. reflexivity. Qed.
